(* ===== verification/_CoqProject ===== *)
-Q . S2P
Prelude.v
DList.v
Machine.v
Thread.v
Scheduler.v
WaitObj.v
WaitSys.v
Mboot.v
PMM.v
KString.v
Bytes.v
Printfmt.v
Pmap.v
Elf.v
Ipc.v
Syscall.v
Trap.v
Start.v
Debug.v
UnitTests.v
Console.v
ConsoleSpec.v
Monitor.v
Pic.v
Apic.v
ApicSpec.v
Acpi.v
Mp.v
MpSpec.v
Seg.v
SegSpec.v
Intr.v
Tsc.v
Boot.v
BootSpec.v
FsData.v
BufCache.v
IdeInit.v
FsLog.v
Block.v
Inode.v
InodeData.v
InodeDisk.v
Dir.v
File.v
FileSpec.v
Icache.v
DirSpec.v
NameSpec.v
Mkfs.v
MkfsSpec.v
MkfsImage.v
MkfsMain.v
SysFile.v
SysFileSpec.v
SysRest.v
