(* ===== verification/Prelude.v ===== *)
(** * A verification of the mCertiKOS kernel with multi-object wait

    The program is a small x86 kernel written in C (src/kern): physical memory
    accounting, threads and a round-robin scheduler, wait objects on which a
    process blocks for one of several events, message passing, signals, an ELF
    loader, system calls, interrupts and the start of further processors, and a
    file system with a write-ahead log on an IDE disk; a boot loader (src/boot)
    brings it into memory.  This library translates that code into executable
    definitions, one per C function, and proves what makes the parts correct.

    ** How C code is represented

    The static data of a component is a record; a C function is a function of
    the state monad [M S A] of this file, whose outcome is one of
    - [Ok a s]: it returns [a] and leaves the state [s];
    - [Panic]: it reaches [KERN_PANIC] or a failing [KERN_ASSERT];
    - [Undef f]: its behaviour is undefined (an index outside an array, a null
      pointer, a division by zero);
    - [Spin]: it waits for something that only another processor or process can
      change;
    - [Hang]: it stays in a loop of its own for ever.
    A w-bit integer is a [Z] with its wrap-around written out; a pointer to an
    element of a static array is the element's index; memory is a map from
    addresses to bytes.  A function that switches to another thread is cut at
    the switch: what runs later, when the thread is scheduled again, is a
    definition of its own.  Messages to the log are left out.

    Recursion that is not structural takes fuel.  Every such function is
    called with a fuel that its loop cannot exhaust, and the theorems about it
    say that it returns: [rw_fuel n = n/512 + 2] blocks for a transfer of n
    bytes (the same for [append_fuel] of mkfs), [file_write_fuel n = n/1536 + 1] chunks of three blocks,
    [path_fuel = 130] path elements for a path of at most 128 bytes, the
    number of sources, threads or slots for a scan of a table, one more than the
    number of bytes ([walk_fuel]) for the entries of a firmware table, each of
    which has at least one byte unless the code loops for ever, the size of the
    buffer ([cmd_fuel = 256]) for a command of the monitor, [pwd_fuel = 51] turns
    for a climb to the root, which takes one of the 50 slots of the inode cache in
    each.  [boot1main] takes a fuel that bounds the entries of the firmware's
    memory map.

    ** Files

    Threads and synchronisation.
    - Machine: lib/x86.h, lib/types.c, lib/kstack.c, pcpu/PCPUIntro and
      lib/spinlock.c.
    - DList: the doubly linked lists shared by thread and message queues.
    - Thread: thread/PTCBIntro, PTCBInit, PTQueueIntro, PTQueueInit, PCurID,
      PKCtxIntro, PKCtxNew.
    - Scheduler: thread/PThread, its abstract specification [asched] and the
      interface [SchedOps] that the clients of the scheduler use.
    - WaitObj: sync/waitobj.c over [SchedOps].  WaitSys: its operations
      interleaved with the scheduler, as a step relation.

    Memory.
    - Mboot: the boot memory map (dev/mboot.c).
    - PMM: pmm/MATIntro, MATInit, MATOp, MContainer.
    - KString: lib/string.c.  Bytes: little-endian words in memory and blocks.
    - Printfmt: lib/printfmt.c, lib/dprintf.c.
    - Console: dev/console.c, dev/keyboard.c, dev/video.c, dev/serial.c.
    - Pmap: lib/pmap.c over the interface [VmmOps] of the page tables.
    - Elf: lib/elf.c.

    Processes.
    - Ipc: lib/ipc.c.
    - Syscall: trap/TSyscallArg, trap/TSyscall, proc/PProc.
    - Trap: trap/TDispatch, trap/TTrapHandler, signals included.
    - Start: init/init.c, from [kern_init] to the switch to the first process.
    - Debug: lib/debug.c.  Monitor: lib/monitor.c, on the console.
    - UnitTests: the tests of the kernel in pmm/ and thread/.

    Processors and interrupts.
    - Pic: dev/pic.c and dev/disk/picirq.c over two cascaded 8259 chips.
    - Apic: dev/ioapic.c, dev/disk/ioapic.c and dev/lapic.c; ApicSpec: its
      theory.
    - Acpi: dev/acpi.c.  Mp: dev/pcpu_mp.c and pcpu/PCPUInit; MpSpec: its theory.
    - Seg: lib/seg.h, lib/seg.c and the gates of dev/intr.c; SegSpec: what the
      processor reads in these tables.  Intr: the rest of dev/intr.c.
    - Tsc: dev/timer.c and dev/tsc.c.
    - Boot: boot/boot1, the loader that reads the kernel from the disk; BootSpec:
      its theory.

    File system.
    - FsData: the structures of fs/ and the interface [FsKernel] to the rest of
      the kernel.
    - BufCache: dev/disk/ide.c and fs/bufcache.c; IdeInit: [ide_init].  FsLog: fs/log.c.
    - Block: fs/block.c.
    - Inode: fs/inode.c.  InodeData and InodeDisk: what its operations do to
      the contents of a file and to the inode on disk.  Icache: its references.
    - Dir: fs/dir.c and fs/path.c.  DirSpec and NameSpec: their theory.
    - File: fs/file.c.  FileSpec: its theory.
    - SysFile: fs/sysfile.c and the directory calls of trap/TSyscall; SysFileSpec:
      its theory.  SysRest: sys_pwd, sys_produce and sys_consume.
    - Mkfs: fs/mkfs.c, the program that makes disk images.  MkfsSpec, MkfsImage
      and MkfsMain: the blocks, inodes and files of the image it makes.

    ** What is proved

    - Wait objects: in every reachable state of the interleaved system the
      tables are well formed and no thread sleeps on a wait object that has a
      ready source; every operation returns, but that a thread that has to sleep
      while no other is ready indexes out of bounds; a resumed wait delivers a
      ready source and consumes its event; a timer fires when its period of ticks
      (calls of [waitobj_on_timer_irq], which the timer interrupt postpones at the
      end of a time slice) has been counted; a deadline that has passed does not
      wake the waiter.
    - Scheduler: the code simulates an abstract scheduler with a FIFO of ready
      threads, for any sequence of yields, ticks, sleeps, wakeups, resumptions,
      spawns and exits; yielding is round-robin; a thread that yields, sleeps or
      is preempted gets its registers back whatever others do in between; a
      wakeup readies exactly the sleepers of its channel among threads 1 to 63.
      Spinlocks exclude each other over all processors.
    - Memory: the allocator takes the next free page; the quotas of containers
      bound the pages that are charged, as long as a child is given no more than
      its parent has left and a process releases only pages it is charged for;
      the table and the memory map that [pmem_init] builds are right.
    - Data in and out of user processes: [pt_copyout] then [pt_copyin] gives the
      bytes back; [elf_load] builds the segments when the allocator has a page for
      each of their pages ([room]); a message arrives; delivering a signal and
      returning from its handler restores esp and eip.
    - Start: [thread_init] leaves the initial state of the scheduler,
      [proc_create] loads an image and makes its process ready, and the end of
      [kern_main] enters it on its own kernel stack, given what the code outside
      the repository ([paging_init], [alloc_mem_quota]) returns.
      The tests of the kernel pass after the initialisation they are written for.
    - Console: the input ring is a FIFO until it is full, [readline] is a line
      editor, the monitor answers as a reference interpreter, the cursor stays on
      the screen, and a line typed on a US keyboard ([us_keys], a table of its
      own) reaches the reader's memory.
    - Interrupts: both drivers of the PIC, and those of the I/O APICs, deliver
      exactly the enabled lines; an enabled line below 16 reaches, on the
      processor it was enabled for, the entry that pushes its number
      ([trap_number], from idt.S); a trap enters on the kernel stack of the
      running process; the 256 gates are right.
    - Processors: those of the ACPI tables are found, and the commands
      [pcpu_boot_ap] sends start the processor it is asked to.  Time: the rate of
      the counter is that of a steady measurement, and delays end in time.
    - Boot: the loader puts the segments of the kernel's file, found in its
      partition, where the ELF header says and enters at its entry point.
    - File system: the buffer cache behaves as the disk; a transaction is
      atomic across a crash at any disk write, and so is recovery; a write to
      a file leaves a prefix of it after a crash, and reads back; blocks are
      allocated and freed; the inode cache counts references and never gives an
      inode two slots; locking an inode loads the fields whose bytes are on the
      disk; a linked name is found; a path walk goes where
      the tree of names says and drops the references it takes.  Bytes a process
      writes with [sys_write] come back to it with [sys_read], through user
      memory, page tables, the kernel's buffer and the disk.
    - mkfs: its image is a file system as the theorems above assume it, with
      every file under its name; the kernel mounts it and reads the files back
      (for a host whose [size_t] has the 4 bytes of the kernel's).
    Statements of what the code does where it goes wrong are among them: a full
    disk hands out the log's header, a resumed sender leaves a lock held.

    ** Interfaces and assumptions

    - The page tables and the memory quota are not part of the repository.
      They are the operations of [VmmOps] and of arguments named after the C
      functions, with their documented behaviour as laws.  [VmmLaws] speaks of
      the user area of the processes 1 to 63 only ([user_va]): a mapped page there
      has a frame of its own at or above VM_USERLO.  Page table 0 and kernel
      addresses are free, and the instance [pages] identity-maps them, as the
      kernel relies on.  An allocation may fail; where a theorem needs that it
      does not, it says so ([room], or that the pages are mapped).
    - The file system is seen by one process while no other is inside it.
      Sectors are written one at a time, in order and as a whole.
      The bitmap is one block (a disk of at most 4096 blocks, as mkfs makes) and
      a transaction has at most nine blocks, where a theorem says so.
    - Kernel code runs with interrupts off; in WaitSys a step is the code
      between two switches of one processor.
    - Devices are what they do: a disk command changes a sector, a keyboard is
      a queue of scan codes, the screen is a memory of 2000 cells, an interrupt
      controller is its registers.  What [cpuid], the time stamp counter and the
      counter of the local APIC return are arguments.

    ** Not modelled

    The order of the calls of devinit.c (its [cons_init] prints through a pointer
    that is not yet set, so that in this model the sequence has no defined result);
    the assembly of the boot loader (boot0 and the switch to protected mode) and
    of the entry into user mode; the inline assembly of lib/x86.c but for the
    instructions named in the files; lib/printf.c, whose [putch] is not in the
    repository; the test of PKCtxNew; the user programs.  What paging does is
    behind [VmmOps], since its code is not in the repository. *)

From stdpp Require Export base gmap list list_numbers sets strings numbers relations.
From Stdlib Require Export ZArith Lia.

#[global] Open Scope Z_scope.

Declare Scope kern_scope.
Delimit Scope kern_scope with kern.

(** ** Outcomes of kernel code

    C code that is executed either returns, reaches [KERN_PANIC] (which prints
    and halts), has undefined behaviour (an index outside a static array, a
    division by zero, a null dereference), or spins: it waits in a loop for a
    condition that only another processor could change.  A [Hang] is an
    infinite loop in the code itself. *)
Inductive fault :=
| OutOfBounds
| DivByZero
| NullDeref
| BadAddress
| NoReturnValue.

Inductive result (A : Type) : Type :=
| Ok (a : A)
| Panic (msg : string)
| Undef (f : fault)
| Spin
| Hang.

Arguments Ok {A} a.
Arguments Panic {A} msg.
Arguments Undef {A} f.
Arguments Spin {A}.
Arguments Hang {A}.

(** ** The state-and-outcome monad *)
Definition M (S A : Type) : Type := S -> result (A * S).

#[global] Instance M_ret (S : Type) : MRet (M S) := fun A a s => Ok (a, s).
#[global] Instance M_bind (S : Type) : MBind (M S) :=
  fun A B f m s =>
    match m s with
    | Ok (a, s') => f a s'
    | Panic msg => Panic msg
    | Undef e => Undef e
    | Spin => Spin
    | Hang => Hang
    end.

Definition get {S} : M S S := fun s => Ok (s, s).
Definition gets {S A} (f : S -> A) : M S A := fun s => Ok (f s, s).
Definition modify {S} (f : S -> S) : M S unit := fun s => Ok (tt, f s).
Definition fail {S A} (r : result (A * S)) : M S A := fun _ => r.
Definition panic {S A} (msg : string) : M S A := fun _ => Panic msg.
Definition undef {S A} (e : fault) : M S A := fun _ => Undef e.

(** Run an operation of a sub-component inside a larger state. *)
Definition zoom {S T A} (g : S -> T) (p : T -> S -> S) (m : M T A) : M S A :=
  fun s =>
    match m (g s) with
    | Ok (a, t) => Ok (a, p t s)
    | Panic msg => Panic msg
    | Undef e => Undef e
    | Spin => Spin
    | Hang => Hang
    end.

(** Static C arrays have a fixed length; an access outside it is undefined. *)
Definition check_index {S} (n i : Z) : M S unit :=
  if decide (0 <= i < n) then mret tt else undef OutOfBounds.

(** [for (i = ...; ...; i++) body] over a list of index values. *)
Fixpoint for_each {S A} (l : list A) (body : A -> M S unit) : M S unit :=
  match l with
  | [] => mret tt
  | x :: l' => body x ;; for_each l' body
  end.

(** A loop whose body may end the function with a result. *)
Fixpoint first_of {S A B} (l : list A) (body : A -> M S (option B)) : M S (option B) :=
  match l with
  | [] => mret None
  | x :: l' => r ← body x; match r with Some b => mret (Some b) | None => first_of l' body end
  end.

Lemma bind_ok {S A B} (m : M S A) (f : A -> M S B) s a s' :
  m s = Ok (a, s') -> (m ≫= f) s = f a s'.
Proof. intros H. unfold mbind, M_bind. by rewrite H. Qed.

Lemma zoom_ok {S T X} (g : S -> T) (p : T -> S -> S) (m : M T X) s x t : m (g s) = Ok (x, t) -> zoom g p m s = Ok (x, p t s).
Proof. intros E. unfold zoom. by rewrite E. Qed.
Lemma gets_bind {S A B} (f : S -> A) (k : A -> M S B) s : (gets f ≫= k) s = k (f s) s.
Proof. done. Qed.
Lemma modify_bind {S B} (f : S -> S) (k : unit -> M S B) s : (modify f ≫= k) s = k tt (f s).
Proof. done. Qed.
Lemma mret_bind {S A B} (a : A) (k : A -> M S B) s : ((mret a : M S A) ≫= k) s = k a s.
Proof. done. Qed.

Lemma bind_assoc {S A B C} (m : M S A) (f : A -> M S B) (g : B -> M S C) s :
  ((m ≫= f) ≫= g) s = (m ≫= (fun a => f a ≫= g)) s.
Proof. unfold mbind, M_bind. destruct (m s) as [[??]| | | |]; done. Qed.

Lemma bind_inv {S A B} (m : M S A) (f : A -> M S B) s b s' :
  (m ≫= f) s = Ok (b, s') ->
  exists a s1, m s = Ok (a, s1) /\ f a s1 = Ok (b, s').
Proof. unfold mbind, M_bind. destruct (m s) as [[??]| | | |]; naive_solver. Qed.

Lemma check_index_ok {S} n i (s : S) :
  0 <= i < n -> check_index n i s = Ok (tt, s).
Proof. intros. unfold check_index. by rewrite decide_True. Qed.

Lemma check_index_oob {S} n i (s : S) :
  ~ (0 <= i < n) -> check_index n i s = Undef OutOfBounds.
Proof. intros. unfold check_index. by rewrite decide_False. Qed.

(** A loop whose body keeps an invariant indexed by the part already done. *)
Lemma for_each_ind {S A} (P : list A -> S -> Prop) (body : A -> M S unit) l :
  (forall d x r s, l = d ++ x :: r -> P d s ->
     exists s', body x s = Ok (tt, s') /\ P (d ++ [x]) s') ->
  forall s, P [] s -> exists s', for_each l body s = Ok (tt, s') /\ P l s'.
Proof.
  intros Hstep.
  assert (forall r d s, l = d ++ r -> P d s ->
    exists s', for_each r body s = Ok (tt, s') /\ P l s') as Hgen.
  { induction r as [|x r IH]; intros d s Heq HP.
    - rewrite app_nil_r in Heq. subst. by exists s.
    - destruct (Hstep d x r s Heq HP) as (s1 & Hb & HP1).
      destruct (IH (d ++ [x]) s1) as (s2 & Hr & HP2).
      { by rewrite <-app_assoc. }
      { done. }
      exists s2. split; [|done]. simpl. by rewrite (bind_ok _ _ _ _ _ Hb). }
  intros s HP. by apply (Hgen l [] s).
Qed.

(** A loop with an early return: [P] holds after the iterations that go on, [Q]
    after the one that returns. *)
Lemma first_of_ind {S A B} (P : list A -> S -> Prop) (Q : list A -> A -> B -> S -> Prop)
    (body : A -> M S (option B)) l :
  (forall d x r s, l = d ++ x :: r -> P d s ->
     exists o s', body x s = Ok (o, s') /\
       match o with None => P (d ++ [x]) s' | Some b => Q d x b s' end) ->
  forall s, P [] s -> exists o s', first_of l body s = Ok (o, s') /\
    match o with None => P l s' | Some b => exists d x r, l = d ++ x :: r /\ Q d x b s' end.
Proof.
  intros Hstep.
  assert (forall r d s, l = d ++ r -> P d s ->
    exists o s', first_of r body s = Ok (o, s') /\
      match o with None => P l s' | Some b => exists d x r, l = d ++ x :: r /\ Q d x b s' end) as Hgen.
  { induction r as [|x r IH]; intros d s Heq HP.
    - rewrite app_nil_r in Heq. subst. by exists None, s.
    - destruct (Hstep d x r s Heq HP) as (o & s1 & Hb & H1). cbn [first_of]. rewrite (bind_ok _ _ _ _ _ Hb).
      destruct o as [b|]; [exists (Some b), s1; split; [done|]; by exists d, x, r|].
      apply (IH (d ++ [x]) s1); [by rewrite <-app_assoc|done]. }
  intros s HP. by apply (Hgen l [] s).
Qed.

Lemma for_each_app {S A} (l1 l2 : list A) (body : A -> M S unit) s :
  for_each (l1 ++ l2) body s = (for_each l1 body ;; for_each l2 body) s.
Proof.
  revert s. induction l1 as [|x l1 IH]; intros s; [done|].
  simpl. rewrite bind_assoc. unfold mbind, M_bind.
  destruct (body x s) as [[[] s1]| | | |]; [|done..]. apply IH.
Qed.

Lemma seqZ_forall n (Q : Z -> Prop) : Forall Q (seqZ 0 n) -> forall k, 0 <= k < n -> Q k.
Proof. rewrite Forall_forall. intros H k Hk. apply H, elem_of_seqZ. lia. Qed.

(** The part of a loop over [0 .. N] done when it is at [x]. *)
Lemma seqZ_split N d x r :
  seqZ 0 N = d ++ x :: r -> 0 <= x < N /\ forall k, k ∈ d <-> 0 <= k < x.
Proof.
  intros E. pose proof (f_equal (.!! length d) E) as Ex.
  rewrite list_lookup_middle in Ex by done. apply lookup_seqZ in Ex as [Ex Hlt].
  assert (d = seqZ 0 (Z.of_nat (length d))) as Ed.
  { pose proof (f_equal (take (length d)) E) as Et. rewrite take_app_length in Et.
    etransitivity; [exact (eq_sym Et)|]. apply list_eq. intros i.
    destruct (decide (i < length d)%nat).
    - rewrite lookup_take_lt by done. rewrite !lookup_seqZ_lt by lia. done.
    - rewrite lookup_take_ge by lia. symmetry. apply lookup_seqZ_ge. lia. }
  split; [lia|]. intros k. rewrite Ed, elem_of_seqZ. lia.
Qed.

(** A counting loop, with an invariant indexed by the counter. *)
Lemma for_range_ind {S} (P : Z -> S -> Prop) (body : Z -> M S unit) n :
  0 <= n ->
  (forall k s, 0 <= k < n -> P k s -> exists s', body k s = Ok (tt, s') /\ P (k + 1) s') ->
  forall s, P 0 s -> exists s', for_each (seqZ 0 n) body s = Ok (tt, s') /\ P n s'.
Proof.
  intros Hn Hstep.
  assert (forall m k, 0 <= k -> k + Z.of_nat m = n -> forall s, P k s ->
    exists s', for_each (seqZ k (Z.of_nat m)) body s = Ok (tt, s') /\ P n s') as Hgen.
  { induction m as [|m IH]; intros k Hk Hkm s HP.
    - replace k with n in HP by lia. rewrite seqZ_nil by lia. by exists s.
    - rewrite seqZ_cons by lia. cbn [for_each].
      destruct (Hstep k s) as (s1 & Hb & HP1); [lia|done|]. rewrite (bind_ok _ _ _ _ _ Hb).
      replace (Z.pred (Z.of_nat (Datatypes.S m))) with (Z.of_nat m) by lia.
      replace (Z.succ k) with (k + 1) by lia. apply IH; [lia..|done]. }
  intros s HP. destruct (Hgen (Z.to_nat n) 0 ltac:(lia) ltac:(lia) s HP) as (s' & E & H).
  rewrite Z2Nat.id in E by lia. by exists s'.
Qed.

(** Rule induction on a step relation: an invariant of every step holds in
    every reachable state. *)
Lemma rtc_invariant {A} (R : relation A) (P : A -> Prop) :
  (forall x y, R x y -> P x -> P y) ->
  forall x y, rtc R x y -> P x -> P y.
Proof. intros Hs x y. induction 1; eauto. Qed.

(** ** Fixed-width integers *)
Definition W32 : Z := 4294967296.
Definition u32 (z : Z) : Z := z mod W32.
Definition s32 (z : Z) : Z :=
  let u := u32 z in if u <? 2147483648 then u else u - W32.
Definition u8 (z : Z) : Z := z mod 256.
Definition u16 (z : Z) : Z := z mod 65536.
Definition u64 (z : Z) : Z := z mod 2 ^ 64.

Definition is_u32 (z : Z) : Prop := 0 <= z < W32.

Lemma u32_range z : 0 <= u32 z < W32.
Proof. unfold u32, W32. apply Z.mod_pos_bound. lia. Qed.

Lemma u32_id z : 0 <= z < W32 -> u32 z = z.
Proof. intros. unfold u32. by apply Z.mod_small. Qed.

Lemma u32_idemp z : u32 (u32 z) = u32 z.
Proof. apply u32_id, u32_range. Qed.

Lemma s32_id z : -2147483648 <= z < 2147483648 -> s32 z = z.
Proof.
  intros. unfold s32, u32, W32.
  destruct (decide (0 <= z)).
  - rewrite Z.mod_small by lia. destruct (Z.ltb_spec z 2147483648); lia.
  - assert (z mod 4294967296 = z + 4294967296) as ->.
    { rewrite <-(Z.mod_small (z + 4294967296) 4294967296) by lia.
      rewrite <-(Z.mul_1_l 4294967296) at 2. by rewrite Z_mod_plus_full. }
    destruct (Z.ltb_spec (z + 4294967296) 2147483648); lia.
Qed.

Lemma s32_range z : -2147483648 <= s32 z < 2147483648.
Proof.
  unfold s32. pose proof (u32_range z) as H. unfold W32 in *.
  destruct (Z.ltb_spec (u32 z) 2147483648); lia.
Qed.

(** ** Total lookup in finite maps used as zero-initialised arrays *)
Lemma lookup_total_upd `{Countable K} `{Inhabited V} (m : gmap K V) i j v :
  <[i := v]> m !!! j = if decide (i = j) then v else m !!! j.
Proof.
  case_decide as E.
  - subst. apply lookup_total_insert_eq.
  - by apply lookup_total_insert_ne.
Qed.

(** Static storage is zero: a word never written reads as 0. *)
#[export] Instance Z_zero_inhabited : Inhabited Z | 0 := populate 0.

Create HintDb kern.
#[export] Hint Rewrite @lookup_total_upd : kern.

(** Run the monadic code in the goal as far as it computes. *)
Ltac mrun :=
  repeat first
    [ rewrite check_index_ok by (assumption || lia)
    | progress (unfold mbind, M_bind, mret, M_ret, modify, gets, get, panic, undef, fail)
    | progress cbn beta iota ].

Ltac dec_eq :=
  repeat match goal with
  | |- context [decide (?x = ?y)] =>
      first [ rewrite (decide_True (P := x = y)) by (lia || congruence)
            | rewrite (decide_False (P := x = y)) by (lia || congruence)
            | destruct (decide (x = y)); subst ]
  end.
