(* ===== verification/DList.v ===== *)
(** * Index-based doubly linked lists

    The kernel threads its run queue through the [prev]/[next] fields of the
    thread control blocks (thread/PTQueueInit) and its message queue through
    the same fields of the message blocks (lib/ipc.c).  Both use an index, not
    a pointer, and a sentinel index [NUM_IDS] for "none".  This file holds the
    representation predicate the two share: [dlist] says that a head, a tail
    and the two link functions represent a list, and one lemma per operation
    says what link updates turn the representation of one list into that of
    the next.  The lemmas speak of link functions pointwise, so that they apply
    to whatever array holds the links. *)

From S2P Require Import Prelude.

(** First element, last element of a list, with the sentinel when empty. *)
Definition hd_or (d : Z) (l : list Z) : Z :=
  match l with [] => d | x :: _ => x end.

Definition last_or (d : Z) (l : list Z) : Z := default d (last l).

(** [seg nx pv p l q]: following [nx] from the first element of [l] visits [l]
    and leaves it to [q]; following [pv] visits it backwards and leaves it to
    [p]. *)
Fixpoint seg (nx pv : Z -> Z) (p : Z) (l : list Z) (q : Z) : Prop :=
  match l with
  | [] => True
  | x :: l' => pv x = p /\ nx x = hd_or q l' /\ seg nx pv x l' q
  end.

Record dlist (null : Z) (nx pv : Z -> Z) (h t : Z) (l : list Z) : Prop := {
  dl_head : h = hd_or null l;
  dl_tail : t = last_or null l;
  dl_seg : seg nx pv null l null;
  dl_nodup : NoDup l;
  dl_null : null ∉ l;
}.

Lemma hd_or_app d l1 l2 : hd_or d (l1 ++ l2) = hd_or (hd_or d l2) l1.
Proof. by destruct l1. Qed.

Lemma last_or_snoc d l x : last_or d (l ++ [x]) = x.
Proof. unfold last_or. by rewrite last_snoc. Qed.

Lemma last_or_cons d x l : last_or d (x :: l) = last_or x l.
Proof. unfold last_or. rewrite last_cons. by destruct (last l). Qed.

Lemma last_or_app d l1 l2 : last_or d (l1 ++ l2) = last_or (last_or d l1) l2.
Proof. unfold last_or. rewrite last_app. by destruct (last l2). Qed.

Lemma last_or_in d l : l <> [] -> last_or d l ∈ l.
Proof.
  destruct l as [|x l] using rev_ind; [done|]. intros _.
  rewrite last_or_snoc. set_solver.
Qed.

Lemma hd_or_in d l : l <> [] -> hd_or d l ∈ l.
Proof. destruct l; [done|]. simpl. set_solver. Qed.

Section segments.
Context (nx pv : Z -> Z).

Lemma seg_app p l1 l2 q :
  seg nx pv p (l1 ++ l2) q <->
  seg nx pv p l1 (hd_or q l2) /\ seg nx pv (last_or p l1) l2 q.
Proof.
  revert p. induction l1 as [|x l1 IH]; intros p; simpl.
  - unfold last_or. simpl. naive_solver.
  - rewrite IH, hd_or_app, last_or_cons. tauto.
Qed.

(** Only the links of the members matter. *)
Lemma seg_ext nx' pv' p l q :
  (forall y, y ∈ l -> nx' y = nx y /\ pv' y = pv y) ->
  seg nx pv p l q -> seg nx' pv' p l q.
Proof.
  revert p. induction l as [|x l IH]; intros p Hext; simpl; [done|].
  intros (Hp & Hn & Hs). destruct (Hext x) as [En Ep]; [by left|].
  rewrite En, Ep. split_and!; [done..|]. apply IH; [|done].
  intros y Hy. apply Hext. by right.
Qed.

(** Changing the exit of a segment means changing [next] of its last element. *)
Lemma seg_set_exit nx' pv' p l q q' :
  NoDup l ->
  (forall y, y ∈ l -> nx' y = (if decide (y = last_or p l) then q' else nx y)
                    /\ pv' y = pv y) ->
  seg nx pv p l q -> seg nx' pv' p l q'.
Proof.
  revert p. induction l as [|x l IH]; intros p Hnd Hext; simpl; [done|].
  intros (Hp & Hn & Hs). rewrite last_or_cons in Hext.
  apply NoDup_cons in Hnd as [Hx Hnd].
  destruct (Hext x) as [En Ep]; [by left|].
  rewrite Ep, En. destruct l as [|y l]; simpl.
  - unfold last_or in *. simpl in *. rewrite decide_True by done. done.
  - assert (last_or x (y :: l) ∈ y :: l) as Hin by by apply last_or_in.
    rewrite decide_False by congruence.
    split; [done|]. split; [done|].
    apply (IH x); [done| |done]. intros z Hz. apply Hext. by right.
Qed.

(** Changing the entry means changing [prev] of its first element. *)
Lemma seg_set_entry nx' pv' p p' l q :
  NoDup l ->
  (forall y, y ∈ l -> nx' y = nx y
                    /\ pv' y = (if decide (y = hd_or q l) then p' else pv y)) ->
  seg nx pv p l q -> seg nx' pv' p' l q.
Proof.
  destruct l as [|x l]; simpl; [done|]. intros Hnd Hext (Hp & Hn & Hs).
  apply NoDup_cons in Hnd as [Hx Hnd].
  destruct (Hext x) as [En Ep]; [by left|].
  rewrite Ep, En, decide_True by done. split_and!; [done..|].
  eapply seg_ext; [|done]. intros y Hy.
  destruct (Hext y) as [E1 E2]; [by right|]. rewrite E1, E2.
  split; [done|]. rewrite decide_False; [done|]. congruence.
Qed.

Lemma seg_links p l1 x l2 q :
  seg nx pv p (l1 ++ x :: l2) q -> pv x = last_or p l1 /\ nx x = hd_or q l2.
Proof. intros [_ H]%seg_app. simpl in H. tauto. Qed.

End segments.

Lemma dlist_empty null nx pv : dlist null nx pv null null [].
Proof. split; try done; [constructor|set_solver]. Qed.

Lemma dlist_nil_iff null nx pv h t l :
  dlist null nx pv h t l -> (l = [] <-> h = null) /\ (l = [] <-> t = null).
Proof.
  intros [-> -> _ _ Hn]. split; (split; [by intros ->|]); intros E.
  - destruct l; [done|]. simpl in E. subst. exfalso. apply Hn. by left.
  - destruct l as [|x l]; [done|].
    pose proof (last_or_in null (x :: l)) as Hin. rewrite E in Hin.
    exfalso. by apply Hn, Hin.
Qed.

Section operations.
Context (null : Z) (nx pv nx' pv' : Z -> Z).

(** Adding at the tail. *)
Lemma dlist_enqueue h t l x :
  dlist null nx pv h t l -> x ∉ l -> x <> null ->
  (forall y, y ∈ l -> nx' y = (if decide (y = t) then x else nx y) /\ pv' y = pv y) ->
  nx' x = null -> pv' x = t ->
  dlist null nx' pv' (if decide (t = null) then x else h) x (l ++ [x]).
Proof.
  intros Hd Hx Hne Hext Hnx Hpv. destruct (dlist_nil_iff _ _ _ _ _ _ Hd) as [Eh Et].
  destruct Hd as [Hh Ht Hs Hnd Hnull]. split.
  - rewrite hd_or_app. simpl. case_decide as E.
    + apply Et in E. by subst.
    + rewrite Hh. destruct l; [|done]. exfalso. apply E. by apply Et.
  - by rewrite last_or_snoc.
  - apply seg_app. split; simpl.
    + eapply (seg_set_exit nx pv); [done| |done]. by rewrite <-Ht.
    + by rewrite <-Ht.
  - apply NoDup_app. split_and!; [done| |apply NoDup_singleton].
    clear Hext. set_solver.
  - clear Hext. set_solver.
Qed.

(** Adding at the head. *)
Lemma dlist_push h t l x :
  dlist null nx pv h t l -> x ∉ l -> x <> null ->
  (forall y, y ∈ l -> nx' y = nx y /\ pv' y = (if decide (y = h) then x else pv y)) ->
  nx' x = h -> pv' x = null ->
  dlist null nx' pv' x (if decide (h = null) then x else t) (x :: l).
Proof.
  intros [Hh Ht Hs Hnd Hnull] Hx Hne Hext Hnx Hpv. split.
  - done.
  - rewrite last_or_cons, Ht, Hh. destruct l as [|a l]; cbn [hd_or].
    + by rewrite decide_True.
    + rewrite decide_False; [by rewrite !last_or_cons|]. intros ->. apply Hnull. by left.
  - cbn [seg]. split_and!; [done| |].
    + rewrite Hnx, Hh. done.
    + eapply (seg_set_entry nx pv); [done| |exact Hs]. by rewrite <- Hh.
  - by constructor.
  - rewrite elem_of_cons. intros [->|?]; done.
Qed.

(** Removing an element anywhere. *)
Lemma dlist_remove h t l1 x l2 :
  dlist null nx pv h t (l1 ++ x :: l2) ->
  (forall y, y ∈ l1 ++ l2 ->
     nx' y = (if decide (y = pv x) then nx x else nx y) /\
     pv' y = (if decide (y = nx x) then pv x else pv y)) ->
  dlist null nx' pv' (if decide (pv x = null) then nx x else h)
                     (if decide (nx x = null) then pv x else t) (l1 ++ l2).
Proof.
  intros [Hh Ht Hs Hnd Hnull] Hext.
  pose proof (seg_links _ _ _ _ _ _ _ Hs) as [Ep En].
  apply seg_app in Hs as [Hs1 Hs2]. simpl in Hs2. destruct Hs2 as (_ & _ & Hs2).
  apply NoDup_app in Hnd as (Hnd1 & Hdisj & Hnd2).
  apply NoDup_cons in Hnd2 as [Hx Hnd2].
  assert (last_or null l1 = null <-> l1 = []) as E1.
  { split; [|by intros ->]. intros E. destruct l1 as [|a l1]; [done|].
    pose proof (last_or_in null (a :: l1)) as Hin. rewrite E in Hin.
    exfalso. apply Hnull, elem_of_app. left. by apply Hin. }
  assert (hd_or null l2 = null <-> l2 = []) as E2.
  { split; [|by intros ->]. intros E. destruct l2; [done|]. simpl in E. subst.
    exfalso. apply Hnull, elem_of_app. right. right. by left. }
  split.
  - rewrite hd_or_app, Ep, En. case_decide as E.
    + apply E1 in E. by subst.
    + rewrite Hh, hd_or_app. destruct l1; [|done]. exfalso. by apply E, E1.
  - rewrite last_or_app, Ep, En. case_decide as E.
    + apply E2 in E. subst. done.
    + rewrite Ht, last_or_app, last_or_cons. destruct l2; [|by rewrite !last_or_cons].
      exfalso. by apply E, E2.
  - apply seg_app. split.
    + eapply (seg_set_exit nx pv); [done| |done]. intros y Hy.
      destruct (Hext y) as [-> ->]; [clear Hext; set_solver|]. rewrite Ep, En.
      split; [done|]. rewrite decide_False; [done|]. intros ->. clear Hext Hh Ht.
      destruct l2 as [|b l2]; simpl in *; set_solver.
    + eapply (seg_set_entry nx pv); [done| |done]. intros y Hy.
      destruct (Hext y) as [-> ->]; [clear Hext; set_solver|]. rewrite Ep, En.
      split; [|done]. rewrite decide_False; [done|]. intros ->. clear Hext Hh Ht.
      destruct l1 as [|b l1]; [by unfold last_or in *; simpl in *; set_solver|].
      pose proof (last_or_in null (b :: l1)). set_solver.
  - apply NoDup_app. split_and!; [done| |done]. clear Hext. set_solver.
  - clear Hext. set_solver.
Qed.

(** Popping the head is removing the first element. *)
Lemma dlist_dequeue h t x l :
  dlist null nx pv h t (x :: l) ->
  (forall y, y ∈ l -> nx' y = nx y /\
                      pv' y = (if decide (y = nx x) then null else pv y)) ->
  dlist null nx' pv' (nx x) (if decide (nx x = null) then null else t) l.
Proof.
  intros Hd Hext. pose proof Hd as [_ _ [Hp _] Hnd Hnull]; simpl in *.
  pose proof (dlist_remove h t [] x l Hd) as H. simpl in H.
  rewrite Hp, decide_True in H by done. apply H.
  intros y Hy. destruct (Hext y Hy) as [-> ->]. split; [|done].
  rewrite decide_False; [done|]. intros ->. apply Hnull. by right.
Qed.

Lemma dlist_ext h t l :
  dlist null nx pv h t l ->
  (forall y, y ∈ l -> nx' y = nx y /\ pv' y = pv y) ->
  dlist null nx' pv' h t l.
Proof. intros [] Hext. split; try done. by eapply seg_ext. Qed.

End operations.

(** A duplicate-free list of indices below [n] has at most [n] elements: the
    bound of every loop that walks a queue. *)
Lemma nodup_range_length (n : Z) (l : list Z) :
  0 <= n -> NoDup l -> (forall x, x ∈ l -> 0 <= x < n) -> Z.of_nat (length l) <= n.
Proof.
  intros Hn Hnd Hr.
  assert (l ⊆+ seqZ 0 n) as Hsub.
  { apply NoDup_submseteq; [done|]. intros x Hx. apply elem_of_seqZ.
    specialize (Hr x Hx). lia. }
  apply submseteq_length in Hsub. rewrite length_seqZ in Hsub. lia.
Qed.

#[export] Hint Resolve dlist_empty : kern.
