(* ===== verification/Machine.v ===== *)
(** * Machine layer

    Constants of lib/x86.h, lib/trap.h and those of dev/ that several files use,
    the integer helpers of lib/types.c, kernel stacks (lib/kstack.h, lib/kstack.c), per-cpu data
    (pcpu/PCPUIntro) and spinlocks (lib/spinlock.c).

    Spinlocks are modelled twice.  The functions [spinlock_acquire] and
    [spinlock_release] are the code as one processor executes it; an acquire
    of a lock that is taken is [Spin], because only another processor can then
    free it.  [lock_step] interleaves the same code over all processors, one
    [xchg] or one store per step, and is what mutual exclusion is proved on. *)

From S2P Require Import Prelude.

(** lib/x86.h *)
Definition PAGESIZE : Z := 4096.
Definition NUM_CPUS : Z := 8.
Definition NUM_IDS : Z := 64.
Definition MagicNumber : Z := 1048577.
Definition MAX_CHILDREN : Z := 3.

(** lib/trap.h *)
Definition VM_USERHI : Z := 0xf0000000.
Definition VM_USERLO : Z := 0x40000000.

(** dev/intr.h, dev/lapic.h, lib/seg.h: what several components use *)
Definition T_IRQ0 : Z := 32.
Definition IRQ_TIMER : Z := 0.
Definition IRQ_SPURIOUS : Z := 7.
Definition LAPIC_TIMER_INTR_FREQ : Z := 1000.
Definition CPU_GDT_UCODE : Z := 0x18.
Definition CPU_GDT_UDATA : Z := 0x20.

(** lib/types.c: unsigned 32-bit arguments and results. *)
Module Types.

Definition max (a b : Z) : Z := if a >? b then a else b.
Definition min (a b : Z) : Z := if a <? b then a else b.
Definition rounddown (a n : Z) : Z := u32 (a - a mod n).
Definition roundup (a n : Z) : Z := rounddown (u32 (u32 (a + n) - 1)) n.

Lemma rounddown_spec a n :
  is_u32 a -> 0 < n -> rounddown a n = n * (a / n).
Proof.
  intros Ha Hn. unfold rounddown.
  pose proof (Z.mod_pos_bound a n Hn). pose proof (Z.mod_le a n).
  unfold is_u32 in *. rewrite u32_id by lia.
  rewrite Z.mod_eq by lia. lia.
Qed.

End Types.

(** ** Kernel stacks and per-cpu data *)

Definition KSTACK_SIZE : Z := 4096.
Definition KSTACK_MAGIC : Z := 0x98765432.

(** The fields of [struct kstack] the C code reads; a processor finds its own
    by rounding its stack pointer down to [KSTACK_SIZE]. *)
Record kstack := { ks_cpu_idx : Z; ks_magic : Z }.

#[export] Instance kstack_inhabited : Inhabited kstack :=
  populate {| ks_cpu_idx := 0; ks_magic := 0 |}.

(** [struct pcpu] without the architecture information. *)
Record pcpu := {
  pc_inited : bool;
  pc_booted : bool;
  pc_kstack : Z;
  pc_cpu_idx : Z;
}.

#[export] Instance pcpu_inhabited : Inhabited pcpu :=
  populate {| pc_inited := false; pc_booted := false; pc_kstack := 0; pc_cpu_idx := 0 |}.

Definition get_kstack_cpu_idx (ks : kstack) : Z := ks_cpu_idx ks.

Definition pcpu_set_zero (p : gmap Z pcpu) : gmap Z pcpu := ∅.

Definition pcpu_fields_init (cpu_idx : Z) : M (gmap Z pcpu) unit :=
  check_index NUM_CPUS cpu_idx ;;
  modify (fun p =>
    let c := p !!! cpu_idx in
    <[cpu_idx := {| pc_inited := true; pc_booted := pc_booted c;
                    pc_kstack := pc_kstack c; pc_cpu_idx := cpu_idx |}]> p).

Definition set_pcpu_idx (index cpu_idx : Z) : M (gmap Z pcpu) unit :=
  check_index NUM_CPUS index ;;
  modify (fun p =>
    let c := p !!! index in
    <[index := {| pc_inited := pc_inited c; pc_booted := pc_booted c;
                  pc_kstack := pc_kstack c; pc_cpu_idx := cpu_idx |}]> p).

Definition get_pcpu_kstack_pointer (cpu_idx : Z) : M (gmap Z pcpu) Z :=
  check_index NUM_CPUS cpu_idx ;;
  gets (fun p => pc_kstack (p !!! cpu_idx)).

Definition set_pcpu_kstack_pointer (cpu_idx ks : Z) : M (gmap Z pcpu) unit :=
  check_index NUM_CPUS cpu_idx ;;
  modify (fun p =>
    let c := p !!! cpu_idx in
    <[cpu_idx := {| pc_inited := pc_inited c; pc_booted := pc_booted c;
                    pc_kstack := ks; pc_cpu_idx := pc_cpu_idx c |}]> p).

Definition get_pcpu_boot_info (cpu_idx : Z) : M (gmap Z pcpu) bool :=
  check_index NUM_CPUS cpu_idx ;;
  gets (fun p => pc_booted (p !!! cpu_idx)).

Definition set_pcpu_boot_info (cpu_idx : Z) (boot_info : bool) : M (gmap Z pcpu) unit :=
  check_index NUM_CPUS cpu_idx ;;
  modify (fun p =>
    let c := p !!! cpu_idx in
    <[cpu_idx := {| pc_inited := pc_inited c; pc_booted := boot_info;
                    pc_kstack := pc_kstack c; pc_cpu_idx := pc_cpu_idx c |}]> p).

Definition get_pcpu_inited_info (cpu_idx : Z) : M (gmap Z pcpu) bool :=
  check_index NUM_CPUS cpu_idx ;;
  gets (fun p => pc_inited (p !!! cpu_idx)).

(** [pcpu_cur()->cpu_idx]: the entry selected by the current kernel stack. *)
Definition get_pcpu_idx (ks : kstack) : M (gmap Z pcpu) Z :=
  check_index NUM_CPUS (get_kstack_cpu_idx ks) ;;
  gets (fun p => pc_cpu_idx (p !!! get_kstack_cpu_idx ks)).

(** ** Spinlocks *)

Record spinlock := { lock_holder : Z; lock : Z }.

#[export] Instance spinlock_eq_dec : EqDecision spinlock.
Proof. solve_decision. Defined.

#[export] Instance spinlock_inhabited : Inhabited spinlock :=
  populate {| lock_holder := 0; lock := 0 |}.

Definition spinlock_init : M spinlock unit :=
  modify (fun _ => {| lock_holder := NUM_CPUS + 1; lock := 0 |}).

(** [lock; xchgl]: store the new value, return the old one, atomically. *)
Definition xchg (newval : Z) : M spinlock Z :=
  fun lk => Ok (lock lk, {| lock_holder := lock_holder lk; lock := newval |}).

Definition assert_kstack (ks : kstack) : M spinlock unit :=
  if decide (ks_magic ks = KSTACK_MAGIC) then mret tt
  else panic "Kernel assertion failed: kstack->magic == KSTACK_MAGIC".

Definition set_lock_holder (h : Z) : M spinlock unit :=
  modify (fun lk => {| lock_holder := h; lock := lock lk |}).

Definition spinlock_holding (ks : kstack) : M spinlock bool :=
  lk ← get;
  if decide (lock lk = 0) then mret false
  else
    assert_kstack ks ;;
    mret (bool_decide (lock_holder lk = ks_cpu_idx ks)).

Definition spinlock_acquire_A (ks : kstack) : M spinlock unit :=
  old ← xchg 1;
  if decide (old <> 0) then fail Spin
  else
    assert_kstack ks ;;
    set_lock_holder (ks_cpu_idx ks).

Definition spinlock_try_acquire_A (ks : kstack) : M spinlock Z :=
  old_val ← xchg 1;
  (if decide (old_val = 0)
   then assert_kstack ks ;; set_lock_holder (ks_cpu_idx ks)
   else mret tt) ;;
  mret old_val.

Definition spinlock_release_A : M spinlock unit :=
  set_lock_holder (NUM_CPUS + 1) ;;
  xchg 0 ;;
  mret tt.

Definition spinlock_acquire (ks : kstack) : M spinlock unit := spinlock_acquire_A ks.
Definition spinlock_release : M spinlock unit := spinlock_release_A.
Definition spinlock_try_acquire (ks : kstack) : M spinlock Z := spinlock_try_acquire_A ks.

(** The value a free lock has after [spinlock_init] and after every release. *)
Definition free_lock : spinlock := {| lock_holder := NUM_CPUS + 1; lock := 0 |}.
Definition held_lock (ks : kstack) : spinlock :=
  {| lock_holder := ks_cpu_idx ks; lock := 1 |}.

Lemma spinlock_acquire_free ks lk :
  lock lk = 0 -> ks_magic ks = KSTACK_MAGIC ->
  spinlock_acquire ks lk = Ok (tt, held_lock ks).
Proof.
  intros E Hm. unfold spinlock_acquire, spinlock_acquire_A, assert_kstack.
  mrun. unfold xchg. mrun. rewrite E, decide_False, decide_True by (done || lia).
  done.
Qed.

Lemma spinlock_acquire_taken ks lk :
  lock lk <> 0 -> spinlock_acquire ks lk = Spin.
Proof.
  intros E. unfold spinlock_acquire, spinlock_acquire_A.
  mrun. unfold xchg. mrun. by rewrite decide_True.
Qed.

Lemma spinlock_release_any lk : spinlock_release lk = Ok (tt, free_lock).
Proof. done. Qed.

(** ** Spinlocks under interleaving *)
Module LockProto.

(** Where a processor is inside lib/spinlock.c. *)
Inductive pc :=
| PIdle        (** outside *)
| PSpin        (** in the [while (xchg ...)] loop *)
| PGot         (** [xchg] returned 0, holder not stored yet *)
| PCrit        (** acquire has returned *)
| PRel.        (** holder reset, lock word not cleared yet *)

#[export] Instance pc_eq_dec : EqDecision pc.
Proof. solve_decision. Defined.

#[export] Instance pc_inhabited : Inhabited pc := populate PIdle.

Record st := { lk : spinlock; pcs : gmap Z pc }.

Definition init : st := {| lk := free_lock; pcs := ∅ |}.

Definition goto (s : st) (c : Z) (p : pc) (l : spinlock) : st :=
  {| lk := l; pcs := <[c := p]> (pcs s) |}.

(** One atomic action of one processor: each rule runs a line of
    [spinlock_acquire_A], [spinlock_try_acquire_A] or [spinlock_release_A]. *)
Inductive lock_step : st -> st -> Prop :=
| step_enter s c :
    0 <= c < NUM_CPUS -> pcs s !!! c = PIdle ->
    lock_step s (goto s c PSpin (lk s))
| step_xchg_busy s c l' old :
    0 <= c < NUM_CPUS -> pcs s !!! c = PSpin ->
    xchg 1 (lk s) = Ok (old, l') -> old <> 0 ->
    lock_step s (goto s c PSpin l')
| step_xchg_free s c l' :
    0 <= c < NUM_CPUS -> pcs s !!! c = PSpin ->
    xchg 1 (lk s) = Ok (0, l') ->
    lock_step s (goto s c PGot l')
| step_try_fail s c l' old :
    0 <= c < NUM_CPUS -> pcs s !!! c = PIdle ->
    xchg 1 (lk s) = Ok (old, l') -> old <> 0 ->
    lock_step s (goto s c PIdle l')
| step_try_ok s c l' :
    0 <= c < NUM_CPUS -> pcs s !!! c = PIdle ->
    xchg 1 (lk s) = Ok (0, l') ->
    lock_step s (goto s c PGot l')
| step_holder s c l' :
    0 <= c < NUM_CPUS -> pcs s !!! c = PGot ->
    set_lock_holder c (lk s) = Ok (tt, l') ->
    lock_step s (goto s c PCrit l')
| step_release_holder s c l' :
    0 <= c < NUM_CPUS -> pcs s !!! c = PCrit ->
    set_lock_holder (NUM_CPUS + 1) (lk s) = Ok (tt, l') ->
    lock_step s (goto s c PRel l')
| step_release_lock s c l' old :
    0 <= c < NUM_CPUS -> pcs s !!! c = PRel ->
    xchg 0 (lk s) = Ok (old, l') ->
    lock_step s (goto s c PIdle l').

Definition inside (p : pc) : bool :=
  match p with PGot | PCrit | PRel => true | _ => false end.

(** The lock word is set exactly when one processor is past its [xchg]; the
    holder field names the processor in the critical section. *)
Record inv (s : st) : Prop := {
  inv_word : lock (lk s) = 0 \/ lock (lk s) = 1;
  inv_busy : forall c, inside (pcs s !!! c) = true -> lock (lk s) = 1;
  inv_free : lock (lk s) <> 0 -> exists c, inside (pcs s !!! c) = true;
  inv_excl : forall c d, inside (pcs s !!! c) = true ->
                         inside (pcs s !!! d) = true -> c = d;
  inv_crit : forall c, pcs s !!! c = PCrit -> lock_holder (lk s) = c;
  inv_other : (forall c, pcs s !!! c <> PCrit) -> lock_holder (lk s) = NUM_CPUS + 1;
}.

Lemma inv_init : inv init.
Proof.
  split; simpl; try done; try (intros; rewrite lookup_total_empty in *; done).
  by left.
Qed.

(** A step that moves one processor between two places outside the lock. *)
Lemma inv_goto_outside s c p l :
  inv s -> inside (pcs s !!! c) = false -> inside p = false ->
  lock l = lock (lk s) -> lock_holder l = lock_holder (lk s) ->
  inv (goto s c p l).
Proof.
  intros [Hw Hb Hf He Hc Ho] Hout Hp El Eh.
  assert (forall d, inside (<[c := p]> (pcs s) !!! d) = inside (pcs s !!! d)) as Hins.
  { intros d. rewrite lookup_total_upd. case_decide; congruence. }
  assert (forall d, <[c := p]> (pcs s) !!! d = PCrit <-> pcs s !!! d = PCrit) as Hcr.
  { intros d. rewrite lookup_total_upd. case_decide; [subst|done].
    destruct p, (pcs s !!! d); done. }
  split; simpl.
  - by rewrite El.
  - intros d. rewrite Hins, El. apply Hb.
  - rewrite El. intros (d & Hd)%Hf. exists d. by rewrite Hins.
  - intros d e. rewrite !Hins. apply He.
  - intros d. rewrite Hcr, Eh. apply Hc.
  - intros Hno. rewrite Eh. apply Ho. intros d. rewrite <-Hcr. apply Hno.
Qed.

(** A processor enters past its [xchg] when nobody is inside. *)
Lemma inv_goto_enter s c :
  inv s -> lock (lk s) = 0 ->
  inv (goto s c PGot {| lock_holder := lock_holder (lk s); lock := 1 |}).
Proof.
  intros [Hw Hb Hf He Hc Ho] E.
  assert (forall d, inside (pcs s !!! d) = false) as Hnone.
  { intros d. destruct (inside _) eqn:Ed; [|done]. apply Hb in Ed. lia. }
  assert (forall d, pcs s !!! d <> PCrit) as Hncr.
  { intros d Ed. specialize (Hnone d). by rewrite Ed in Hnone. }
  split; simpl.
  - by right.
  - done.
  - intros _. exists c. rewrite lookup_total_upd. by rewrite decide_True.
  - intros d e. rewrite !lookup_total_upd.
    repeat case_decide; subst; rewrite ?Hnone; done.
  - intros d. rewrite lookup_total_upd. case_decide; [done|]. intros []%Hncr.
  - intros _. by apply Ho.
Qed.

(** A processor that is inside moves to another place inside. *)
Lemma inv_goto_inside s c p h :
  inv s -> inside (pcs s !!! c) = true ->
  (p = PCrit /\ h = c) \/ ((p = PGot \/ p = PRel) /\ h = NUM_CPUS + 1) ->
  inv (goto s c p {| lock_holder := h; lock := lock (lk s) |}).
Proof.
  intros [Hw Hb Hf He Hc Ho] Hin Hp.
  assert (inside p = true) as Hpi by (destruct Hp as [[-> _]|[[->| ->] _]]; done).
  assert (forall d, inside (<[c := p]> (pcs s) !!! d) = inside (pcs s !!! d)) as Hins.
  { intros d. rewrite lookup_total_upd. case_decide; congruence. }
  assert (forall d, <[c := p]> (pcs s) !!! d = PCrit <-> d = c /\ p = PCrit) as Hcr.
  { intros d. rewrite lookup_total_upd. case_decide; [naive_solver|].
    split; [|naive_solver]. intros Ed. exfalso.
    assert (c = d); [|done]. apply He; [done|]. by rewrite Ed. }
  split; simpl.
  - done.
  - intros d. rewrite Hins. apply Hb.
  - intros (d & Hd)%Hf. exists d. by rewrite Hins.
  - intros d e. rewrite !Hins. apply He.
  - intros d [-> ->]%Hcr. destruct Hp as [[_ ->]|[[?|?] _]]; done.
  - intros Hno. destruct Hp as [[-> _]|[_ ->]]; [|done].
    exfalso. apply (Hno c). by apply Hcr.
Qed.

(** The processor that was inside leaves and clears the word. *)
Lemma inv_goto_leave s c :
  inv s -> pcs s !!! c = PRel ->
  inv (goto s c PIdle {| lock_holder := lock_holder (lk s); lock := 0 |}).
Proof.
  intros [Hw Hb Hf He Hc Ho] Hrel.
  assert (inside (pcs s !!! c) = true) as Hin by by rewrite Hrel.
  assert (forall d, inside (<[c := PIdle]> (pcs s) !!! d) = false) as Hnone.
  { intros d. rewrite lookup_total_upd. case_decide; [done|].
    destruct (inside (pcs s !!! d)) eqn:E; [|done].
    by rewrite (He c d) in *. }
  assert (forall d, pcs s !!! d <> PCrit) as Hncr.
  { intros d Ed. assert (c = d) as <-; [|congruence].
    apply He; [done|]. by rewrite Ed. }
  split; simpl.
  - by left.
  - intros d. by rewrite Hnone.
  - done.
  - intros d e. by rewrite Hnone.
  - intros d Ed. specialize (Hnone d). by rewrite Ed in Hnone.
  - intros _. by apply Ho.
Qed.

Lemma inv_step s s' : lock_step s s' -> inv s -> inv s'.
Proof.
  intros Hs Hi. pose proof (inv_word s Hi) as Hw.
  inversion Hs as [? c ? E|? c ?? ? E X|? c ? ? E X|? c ?? ? E X|? c ? ? E X
                  |? c ? ? E X|? c ? ? E X|? c ?? ? E X]; subst;
    try (unfold xchg, set_lock_holder, modify in X; simplify_eq).
  - apply inv_goto_outside; try done. by rewrite E.
  - apply inv_goto_outside; simpl; try done; [by rewrite E|lia].
  - apply inv_goto_enter; [done|congruence].
  - apply inv_goto_outside; simpl; try done; [by rewrite E|lia].
  - apply inv_goto_enter; [done|congruence].
  - apply inv_goto_inside; [done|by rewrite E|by left].
  - apply inv_goto_inside; [done|by rewrite E|]. right. by split; [right|].
  - by apply inv_goto_leave.
Qed.

Lemma inv_reachable s : rtc lock_step init s -> inv s.
Proof.
  intros H. eapply rtc_invariant; [apply inv_step|done|apply inv_init].
Qed.

(** C9. Mutual exclusion of spinlocks: in every state that any interleaving of
    acquires, try-acquires and releases on the eight processors can reach, at
    most one processor is between a successful [xchg] and the release. *)
Theorem spinlock_mutual_exclusion s c d :
  rtc lock_step init s ->
  inside (pcs s !!! c) = true -> inside (pcs s !!! d) = true -> c = d.
Proof. intros Hr. apply inv_excl. by apply inv_reachable. Qed.

(** In every reachable state [spinlock_holding], run on processor [c], says
    [true] exactly when [c] is in its critical section. *)
Theorem spinlock_holding_correct s c :
  rtc lock_step init s -> 0 <= c < NUM_CPUS ->
  exists b, spinlock_holding {| ks_cpu_idx := c; ks_magic := KSTACK_MAGIC |} (lk s)
              = Ok (b, lk s)
            /\ (b = true <-> pcs s !!! c = PCrit).
Proof.
  intros Hr Hc. apply inv_reachable in Hr as [Hw Hb Hf He Hcr Ho].
  unfold spinlock_holding, assert_kstack. mrun. case_decide as E.
  - exists false. split; [done|]. split; [done|]. intros Hp.
    specialize (Hb c). rewrite Hp in Hb. specialize (Hb eq_refl). lia.
  - rewrite decide_True by done. eexists. split; [done|].
    rewrite bool_decide_eq_true. split; [|intros; by apply Hcr].
    intros Eh. destruct (decide (pcs s !!! c = PCrit)) as [|Hn]; [done|].
    simpl in Eh. exfalso.
    assert (lock_holder (lk s) = NUM_CPUS + 1) as E9; [|unfold NUM_CPUS in *; lia].
    apply Ho. intros e He'. assert (e = c) as ->; [|done].
    rewrite <-Eh. symmetry. by apply Hcr.
Qed.

(** A run in which processor 2 takes the lock and processor 5 spins. *)
Definition trace_state : st :=
  goto (goto (goto (goto (goto init 2 PSpin free_lock)
    2 PGot {| lock_holder := 9; lock := 1 |}) 5 PSpin {| lock_holder := 9; lock := 1 |})
    5 PSpin {| lock_holder := 9; lock := 1 |}) 2 PCrit {| lock_holder := 2; lock := 1 |}.

Lemma trace_reachable : rtc lock_step init trace_state.
Proof.
  eapply rtc_l; [eapply (step_enter _ 2); [done|reflexivity]|].
  eapply rtc_l; [eapply (step_xchg_free _ 2); [done|reflexivity|reflexivity]|].
  eapply rtc_l; [eapply (step_enter _ 5); [done|reflexivity]|].
  eapply rtc_l; [eapply (step_xchg_busy _ 5 _ 1); [done|reflexivity|reflexivity|done]|].
  eapply rtc_l; [eapply (step_holder _ 2); [done|reflexivity|reflexivity]|].
  apply rtc_refl.
Defined.

Lemma spinlock_mutual_exclusion_witness :
  inside (pcs trace_state !!! 2) = true /\ inside (pcs trace_state !!! 5) = false /\
  (2 : Z) = 2.
Proof.
  split; [reflexivity|]. split; [reflexivity|].
  apply (spinlock_mutual_exclusion trace_state 2 2 trace_reachable); reflexivity.
Defined.

Lemma spinlock_holding_correct_witness :
  exists b, spinlock_holding {| ks_cpu_idx := 2; ks_magic := KSTACK_MAGIC |} (lk trace_state)
              = Ok (b, lk trace_state)
            /\ (b = true <-> pcs trace_state !!! 2 = PCrit).
Proof.
  apply (spinlock_holding_correct trace_state 2 trace_reachable). unfold NUM_CPUS; lia.
Defined.

End LockProto.
