(* ===== verification/Thread.v ===== *)
(** * Threads: control blocks, queues and contexts

    Models thread/PTCBIntro, thread/PTCBInit, thread/PTQueueIntro,
    thread/PTQueueInit, thread/PCurID, thread/PKCtxIntro and thread/PKCtxNew.
    The static arrays of those files are the fields of one record [thr]; each C
    function is an operation of the monad [M thr].  The lemmas at the end
    characterise the queue operations as operations on lists of thread ids,
    through the representation predicate of DList. *)

From S2P Require Import Prelude DList Machine.

(** lib/thread.h *)
Inductive t_state := TSTATE_READY | TSTATE_RUN | TSTATE_SLEEP | TSTATE_DEAD.

#[export] Instance t_state_eq_dec : EqDecision t_state.
Proof. solve_decision. Defined.

(** Addresses of the kernel objects that serve as sleep channels, and of the
    file system objects a control block points to.  Distinct objects have
    distinct addresses; [PNull] is the null pointer. *)
Inductive ptr :=
| PNull
| PWaitObj (i : Z)      (** [&wobjs[i]] *)
| PRecvCv (i : Z)       (** [&msgBlock[i].recv_cv] *)
| PSendCv (i : Z)       (** [&msgBlock[i].send_cv] *)
| PBuf (i : Z)          (** [&bcache.buf[i]] *)
| PInode (i : Z)        (** [&inode_cache.inode[i]] *)
| PFile (i : Z)         (** [&ftable.file[i]] *)
| PLog.                 (** [&log] *)

#[export] Instance ptr_eq_dec : EqDecision ptr.
Proof. solve_decision. Defined.
#[export] Instance ptr_inhabited : Inhabited ptr := populate PNull.

(** lib/signal.h; code addresses are 32-bit words. *)
Definition NSIG : Z := 32.
Definition SIGKILL : Z := 9.

Record sigaction := {
  sa_handler : Z;
  sa_sigaction : Z;
  sa_flags : Z;
  sa_restorer : Z;
  sa_mask : Z;
}.

#[export] Instance sigaction_eq_dec : EqDecision sigaction.
Proof. solve_decision. Defined.
#[export] Instance sigaction_inhabited : Inhabited sigaction :=
  populate {| sa_handler := 0; sa_sigaction := 0; sa_flags := 0;
              sa_restorer := 0; sa_mask := 0 |}.

Record sig_state := {
  sigactions : gmap Z sigaction;
  pending_signals : Z;
  signal_block_mask : Z;
  saved_esp_addr : Z;
  saved_eip_addr : Z;
  in_signal_handler : Z;
}.

Definition zero_sig_state : sig_state :=
  {| sigactions := ∅; pending_signals := 0; signal_block_mask := 0;
     saved_esp_addr := 0; saved_eip_addr := 0; in_signal_handler := 0 |}.

(** fs/params.h *)
Definition NOFILE : Z := 16.

Record TCB := {
  tcb_state : t_state;
  tcb_prev : Z;
  tcb_next : Z;
  tcb_channel : ptr;
  tcb_openfiles : gmap Z ptr;
  tcb_cwd : ptr;
  tcb_sigstate : sig_state;
}.

(** Static storage starts as zero bytes. *)
#[export] Instance TCB_inhabited : Inhabited TCB := populate
  {| tcb_state := TSTATE_READY; tcb_prev := 0; tcb_next := 0; tcb_channel := PNull;
     tcb_openfiles := ∅; tcb_cwd := PNull; tcb_sigstate := zero_sig_state |}.

Record TQueue := { tq_head : Z; tq_tail : Z }.

#[export] Instance TQueue_inhabited : Inhabited TQueue :=
  populate {| tq_head := 0; tq_tail := 0 |}.

Record kctx := {
  kc_esp : Z; kc_edi : Z; kc_esi : Z; kc_ebx : Z; kc_ebp : Z; kc_eip : Z;
}.

#[export] Instance kctx_inhabited : Inhabited kctx :=
  populate {| kc_esp := 0; kc_edi := 0; kc_esi := 0; kc_ebx := 0; kc_ebp := 0; kc_eip := 0 |}.

(** The thread subsystem: the static data of the files above, the callee-saved
    registers of the running processor ([regs], with the return address of the
    current call as [kc_eip]) and the kernel stack it runs on. *)
Record thr := {
  TCBPool : gmap Z TCB;
  TQueuePool : gmap (Z * Z) TQueue;
  CURID : gmap Z Z;
  kctx_pool : gmap Z kctx;
  regs : kctx;
  sched_lk : spinlock;
  sched_ticks : gmap Z Z;
  pcpus : gmap Z pcpu;
  cur_kstack : kstack;
}.

(** ** Field updates *)
Definition with_TCBPool (f : gmap Z TCB -> gmap Z TCB) (s : thr) : thr :=
  {| TCBPool := f (TCBPool s); TQueuePool := TQueuePool s; CURID := CURID s;
     kctx_pool := kctx_pool s; regs := regs s; sched_lk := sched_lk s;
     sched_ticks := sched_ticks s; pcpus := pcpus s; cur_kstack := cur_kstack s |}.
Definition with_TQueuePool (f : gmap (Z * Z) TQueue -> gmap (Z * Z) TQueue) (s : thr) : thr :=
  {| TCBPool := TCBPool s; TQueuePool := f (TQueuePool s); CURID := CURID s;
     kctx_pool := kctx_pool s; regs := regs s; sched_lk := sched_lk s;
     sched_ticks := sched_ticks s; pcpus := pcpus s; cur_kstack := cur_kstack s |}.
Definition with_CURID (f : gmap Z Z -> gmap Z Z) (s : thr) : thr :=
  {| TCBPool := TCBPool s; TQueuePool := TQueuePool s; CURID := f (CURID s);
     kctx_pool := kctx_pool s; regs := regs s; sched_lk := sched_lk s;
     sched_ticks := sched_ticks s; pcpus := pcpus s; cur_kstack := cur_kstack s |}.
Definition with_kctx (f : gmap Z kctx -> gmap Z kctx) (g : kctx -> kctx) (s : thr) : thr :=
  {| TCBPool := TCBPool s; TQueuePool := TQueuePool s; CURID := CURID s;
     kctx_pool := f (kctx_pool s); regs := g (regs s); sched_lk := sched_lk s;
     sched_ticks := sched_ticks s; pcpus := pcpus s; cur_kstack := cur_kstack s |}.
Definition set_sched_lk (l : spinlock) (s : thr) : thr :=
  {| TCBPool := TCBPool s; TQueuePool := TQueuePool s; CURID := CURID s;
     kctx_pool := kctx_pool s; regs := regs s; sched_lk := l;
     sched_ticks := sched_ticks s; pcpus := pcpus s; cur_kstack := cur_kstack s |}.
Definition with_sched_ticks (f : gmap Z Z -> gmap Z Z) (s : thr) : thr :=
  {| TCBPool := TCBPool s; TQueuePool := TQueuePool s; CURID := CURID s;
     kctx_pool := kctx_pool s; regs := regs s; sched_lk := sched_lk s;
     sched_ticks := f (sched_ticks s); pcpus := pcpus s; cur_kstack := cur_kstack s |}.

Definition set_state (v : t_state) (t : TCB) : TCB :=
  {| tcb_state := v; tcb_prev := tcb_prev t; tcb_next := tcb_next t;
     tcb_channel := tcb_channel t; tcb_openfiles := tcb_openfiles t;
     tcb_cwd := tcb_cwd t; tcb_sigstate := tcb_sigstate t |}.
Definition set_prev (v : Z) (t : TCB) : TCB :=
  {| tcb_state := tcb_state t; tcb_prev := v; tcb_next := tcb_next t;
     tcb_channel := tcb_channel t; tcb_openfiles := tcb_openfiles t;
     tcb_cwd := tcb_cwd t; tcb_sigstate := tcb_sigstate t |}.
Definition set_next (v : Z) (t : TCB) : TCB :=
  {| tcb_state := tcb_state t; tcb_prev := tcb_prev t; tcb_next := v;
     tcb_channel := tcb_channel t; tcb_openfiles := tcb_openfiles t;
     tcb_cwd := tcb_cwd t; tcb_sigstate := tcb_sigstate t |}.
Definition set_chan (v : ptr) (t : TCB) : TCB :=
  {| tcb_state := tcb_state t; tcb_prev := tcb_prev t; tcb_next := tcb_next t;
     tcb_channel := v; tcb_openfiles := tcb_openfiles t;
     tcb_cwd := tcb_cwd t; tcb_sigstate := tcb_sigstate t |}.
Definition set_openfile (fd : Z) (f : ptr) (t : TCB) : TCB :=
  {| tcb_state := tcb_state t; tcb_prev := tcb_prev t; tcb_next := tcb_next t;
     tcb_channel := tcb_channel t; tcb_openfiles := <[fd := f]> (tcb_openfiles t);
     tcb_cwd := tcb_cwd t; tcb_sigstate := tcb_sigstate t |}.
Definition set_cwd (d : ptr) (t : TCB) : TCB :=
  {| tcb_state := tcb_state t; tcb_prev := tcb_prev t; tcb_next := tcb_next t;
     tcb_channel := tcb_channel t; tcb_openfiles := tcb_openfiles t;
     tcb_cwd := d; tcb_sigstate := tcb_sigstate t |}.
Definition with_sigstate (f : sig_state -> sig_state) (t : TCB) : TCB :=
  {| tcb_state := tcb_state t; tcb_prev := tcb_prev t; tcb_next := tcb_next t;
     tcb_channel := tcb_channel t; tcb_openfiles := tcb_openfiles t;
     tcb_cwd := tcb_cwd t; tcb_sigstate := f (tcb_sigstate t) |}.

Definition upd_tcb (pid : Z) (f : TCB -> TCB) : thr -> thr :=
  with_TCBPool (fun m => <[pid := f (m !!! pid)]> m).

(** [TCBPool[pid]] read and write. *)
Definition tcb_read {A} (pid : Z) (f : TCB -> A) : M thr A :=
  check_index NUM_IDS pid ;; gets (fun s => f (TCBPool s !!! pid)).
Definition tcb_write (pid : Z) (f : TCB -> TCB) : M thr unit :=
  check_index NUM_IDS pid ;; modify (upd_tcb pid f).

(** ** PTCBIntro.c *)
Definition tcb_get_state (pid : Z) : M thr t_state := tcb_read pid tcb_state.
Definition tcb_set_state (pid : Z) (state : t_state) : M thr unit :=
  tcb_write pid (set_state state).
Definition tcb_get_prev (pid : Z) : M thr Z := tcb_read pid tcb_prev.
Definition tcb_set_prev (pid prev_pid : Z) : M thr unit := tcb_write pid (set_prev prev_pid).
Definition tcb_get_next (pid : Z) : M thr Z := tcb_read pid tcb_next.
Definition tcb_set_next (pid next_pid : Z) : M thr unit := tcb_write pid (set_next next_pid).

(** The first parameter, [cpu_idx], is not used by the body. *)
Definition tcb_init_at_id (cpu_idx pid : Z) : M thr unit :=
  tcb_write pid (fun _ =>
    {| tcb_state := TSTATE_DEAD; tcb_prev := NUM_IDS; tcb_next := NUM_IDS;
       tcb_channel := PNull; tcb_openfiles := ∅; tcb_cwd := PNull;
       tcb_sigstate := zero_sig_state |}).

Definition tcb_get_chan (pid : Z) : M thr ptr := tcb_read pid tcb_channel.
Definition tcb_set_chan (pid : Z) (chan : ptr) : M thr unit := tcb_write pid (set_chan chan).

(** [tcb_get_openfiles(pid)[fd]]. *)
Definition tcb_get_openfiles (pid fd : Z) : M thr ptr :=
  check_index NUM_IDS pid ;; check_index NOFILE fd ;;
  gets (fun s => tcb_openfiles (TCBPool s !!! pid) !!! fd).
Definition tcb_set_openfiles (pid fd : Z) (f : ptr) : M thr unit :=
  check_index NUM_IDS pid ;; check_index NOFILE fd ;;
  modify (upd_tcb pid (set_openfile fd f)).
Definition tcb_get_cwd (pid : Z) : M thr ptr := tcb_read pid tcb_cwd.
Definition tcb_set_cwd (pid : Z) (d : ptr) : M thr unit := tcb_write pid (set_cwd d).

(** The result is the address of the entry; [None] is [NULL]. *)
Definition tcb_get_sigaction (pid signum : Z) : M thr (option sigaction) :=
  if bool_decide (signum < 0) || bool_decide (signum >= NSIG) then mret None
  else tcb_read pid (fun t => Some (sigactions (tcb_sigstate t) !!! signum)).

Definition set_sigaction (signum : Z) (a : sigaction) (g : sig_state) : sig_state :=
  {| sigactions := <[signum := a]> (sigactions g); pending_signals := pending_signals g;
     signal_block_mask := signal_block_mask g; saved_esp_addr := saved_esp_addr g;
     saved_eip_addr := saved_eip_addr g; in_signal_handler := in_signal_handler g |}.
Definition set_pending (v : Z) (g : sig_state) : sig_state :=
  {| sigactions := sigactions g; pending_signals := v;
     signal_block_mask := signal_block_mask g; saved_esp_addr := saved_esp_addr g;
     saved_eip_addr := saved_eip_addr g; in_signal_handler := in_signal_handler g |}.
Definition set_sigcontext (esp eip inh : Z) (g : sig_state) : sig_state :=
  {| sigactions := sigactions g; pending_signals := pending_signals g;
     signal_block_mask := signal_block_mask g; saved_esp_addr := esp;
     saved_eip_addr := eip; in_signal_handler := inh |}.

Definition tcb_set_sigaction (pid signum : Z) (act : option sigaction) : M thr unit :=
  match act with
  | Some a =>
      if bool_decide (signum >= 0) && bool_decide (signum < NSIG)
      then tcb_write pid (with_sigstate (set_sigaction signum a)) else mret tt
  | None => mret tt
  end.

Definition tcb_get_pending_signals (pid : Z) : M thr Z :=
  tcb_read pid (fun t => pending_signals (tcb_sigstate t)).
Definition tcb_set_pending_signals (pid signals : Z) : M thr unit :=
  tcb_write pid (with_sigstate (set_pending signals)).

Definition tcb_add_pending_signal (pid signum : Z) : M thr unit :=
  if bool_decide (signum >= 0) && bool_decide (signum < NSIG)
  then tcb_write pid (with_sigstate (fun g =>
         set_pending (Z.lor (pending_signals g) (Z.shiftl 1 signum)) g))
  else mret tt.
Definition tcb_clear_pending_signal (pid signum : Z) : M thr unit :=
  if bool_decide (signum >= 0) && bool_decide (signum < NSIG)
  then tcb_write pid (with_sigstate (fun g =>
         set_pending (Z.land (pending_signals g) (Z.lnot (Z.shiftl 1 signum))) g))
  else mret tt.

Definition tcb_set_signal_context (pid esp eip : Z) : M thr unit :=
  tcb_write pid (with_sigstate (set_sigcontext esp eip 1)).
Definition tcb_get_signal_context (pid : Z) : M thr (Z * Z) :=
  tcb_read pid (fun t => (saved_esp_addr (tcb_sigstate t), saved_eip_addr (tcb_sigstate t))).
Definition tcb_clear_signal_context (pid : Z) : M thr unit :=
  tcb_write pid (with_sigstate (set_sigcontext 0 0 0)).
Definition tcb_in_signal_handler (pid : Z) : M thr Z :=
  tcb_read pid (fun t => in_signal_handler (tcb_sigstate t)).
Definition tcb_is_sleeping (pid : Z) : M thr Z :=
  tcb_read pid (fun t => if decide (tcb_state t = TSTATE_SLEEP) then 1 else 0).
Definition tcb_get_channel (pid : Z) : M thr ptr := tcb_read pid tcb_channel.

(** ** PTCBInit.c

    PTCBInit/import.h declares [tcb_init_at_id] with one parameter, while
    PTCBIntro defines it with two: the call [tcb_init_at_id(pid)] passes [pid]
    as [cpu_idx], and the callee reads its [pid] from the next stack word.
    That word is the parameter [stack_word] (as a function of the iteration).
    [paging_init] is vmm code outside this repository. *)
Definition tcb_init (paging_init : M thr unit) (stack_word : Z -> Z) : M thr unit :=
  paging_init ;;
  for_each (seqZ 0 NUM_IDS) (fun pid => tcb_init_at_id pid (stack_word pid)).

(** ** PCPUIntro.c on the thread state, PCurID.c *)
Definition cur_pcpu_idx : M thr Z :=
  fun s => match get_pcpu_idx (cur_kstack s) (pcpus s) with
           | Ok (c, _) => Ok (c, s)
           | Panic m => Panic m | Undef e => Undef e | Spin => Spin | Hang => Hang
           end.

Definition get_curid : M thr Z :=
  c ← cur_pcpu_idx; check_index NUM_CPUS c ;; gets (fun s => CURID s !!! c).
Definition set_curid (curid : Z) : M thr unit :=
  c ← cur_pcpu_idx; check_index NUM_CPUS c ;;
  modify (with_CURID (fun m => <[c := curid]> m)).

(** ** PTQueueIntro.c *)
Definition tq_read {A} (chid : Z) (f : TQueue -> A) : M thr A :=
  c ← cur_pcpu_idx; check_index NUM_CPUS c ;; check_index (NUM_IDS + 1) chid ;;
  gets (fun s => f (TQueuePool s !!! (c, chid))).
Definition tq_write (chid : Z) (f : TQueue -> TQueue) : M thr unit :=
  c ← cur_pcpu_idx; check_index NUM_CPUS c ;; check_index (NUM_IDS + 1) chid ;;
  modify (with_TQueuePool (fun m => <[(c, chid) := f (m !!! (c, chid))]> m)).

Definition tqueue_get_head (chid : Z) : M thr Z := tq_read chid tq_head.
Definition tqueue_set_head (chid head : Z) : M thr unit :=
  tq_write chid (fun q => {| tq_head := head; tq_tail := tq_tail q |}).
Definition tqueue_get_tail (chid : Z) : M thr Z := tq_read chid tq_tail.
Definition tqueue_set_tail (chid tail : Z) : M thr unit :=
  tq_write chid (fun q => {| tq_head := tq_head q; tq_tail := tail |}).

Definition tqueue_init_at_id (cpu_idx chid : Z) : M thr unit :=
  check_index NUM_CPUS cpu_idx ;; check_index (NUM_IDS + 1) chid ;;
  modify (with_TQueuePool (fun m =>
    <[(cpu_idx, chid) := {| tq_head := NUM_IDS; tq_tail := NUM_IDS |}]> m)).

(** ** PTQueueInit.c *)
Definition tqueue_init (paging_init : M thr unit) (stack_word : Z -> Z) : M thr unit :=
  tcb_init paging_init stack_word ;;
  for_each (seqZ 0 NUM_CPUS) (fun cpu_idx =>
    for_each (seqZ 0 (NUM_IDS + 1)) (fun chid => tqueue_init_at_id cpu_idx chid)).

Definition tqueue_enqueue (chid pid : Z) : M thr unit :=
  tail ← tqueue_get_tail chid;
  if decide (tail = NUM_IDS) then
    tcb_set_prev pid NUM_IDS ;;
    tcb_set_next pid NUM_IDS ;;
    tqueue_set_head chid pid ;;
    tqueue_set_tail chid pid
  else
    tcb_set_next tail pid ;;
    tcb_set_prev pid tail ;;
    tcb_set_next pid NUM_IDS ;;
    tqueue_set_tail chid pid.

Definition tqueue_dequeue (chid : Z) : M thr Z :=
  head ← tqueue_get_head chid;
  if decide (head <> NUM_IDS) then
    next ← tcb_get_next head;
    (if decide (next = NUM_IDS) then
       tqueue_set_head chid NUM_IDS ;;
       tqueue_set_tail chid NUM_IDS
     else
       tcb_set_prev next NUM_IDS ;;
       tqueue_set_head chid next) ;;
    tcb_set_prev head NUM_IDS ;;
    tcb_set_next head NUM_IDS ;;
    mret head
  else mret NUM_IDS.

Definition tqueue_remove (chid pid : Z) : M thr unit :=
  prev ← tcb_get_prev pid;
  next ← tcb_get_next pid;
  (if decide (prev = NUM_IDS) then
     if decide (next = NUM_IDS) then
       tqueue_set_head chid NUM_IDS ;;
       tqueue_set_tail chid NUM_IDS
     else
       tcb_set_prev next NUM_IDS ;;
       tqueue_set_head chid next
   else
     if decide (next = NUM_IDS) then
       tcb_set_next prev NUM_IDS ;;
       tqueue_set_tail chid prev
     else
       (if decide (prev <> next) then tcb_set_next prev next else mret tt) ;;
       tcb_set_prev next prev) ;;
  tcb_set_prev pid NUM_IDS ;;
  tcb_set_next pid NUM_IDS.

(** ** PKCtxIntro.c, cswitch.S *)
Definition set_kctx_esp (v : Z) (k : kctx) : kctx :=
  {| kc_esp := v; kc_edi := kc_edi k; kc_esi := kc_esi k; kc_ebx := kc_ebx k;
     kc_ebp := kc_ebp k; kc_eip := kc_eip k |}.
Definition set_kctx_eip (v : Z) (k : kctx) : kctx :=
  {| kc_esp := kc_esp k; kc_edi := kc_edi k; kc_esi := kc_esi k; kc_ebx := kc_ebx k;
     kc_ebp := kc_ebp k; kc_eip := v |}.

Definition kctx_set_esp (pid esp : Z) : M thr unit :=
  check_index NUM_IDS pid ;;
  modify (with_kctx (fun m => <[pid := set_kctx_esp esp (m !!! pid)]> m) id).
Definition kctx_set_eip (pid eip : Z) : M thr unit :=
  check_index NUM_IDS pid ;;
  modify (with_kctx (fun m => <[pid := set_kctx_eip eip (m !!! pid)]> m) id).

(** [cswitch]: save esp, edi, esi, ebx, ebp and the return address into
    [from], then load them from [to]; the stores come before the loads. *)
Definition cswitch (from to : Z) : thr -> thr :=
  fun s =>
    let saved := <[from := regs s]> (kctx_pool s) in
    with_kctx (fun _ => saved) (fun _ => saved !!! to) s.

Definition kctx_switch (from_pid to_pid : Z) : M thr unit :=
  check_index NUM_IDS from_pid ;; check_index NUM_IDS to_pid ;;
  modify (cswitch from_pid to_pid).

(** ** PKCtxNew.c

    [alloc_mem_quota] is vmm code outside this repository; [kstack_base] is the
    address of [proc_kstack], whose entries are [KSTACK_SIZE] bytes with
    [proc_kstack_hi] at the end. *)
Section kctx_new.
Context (alloc_mem_quota : Z -> Z -> M thr Z) (kstack_base : Z).

Definition proc_kstack_hi (pid : Z) : Z := u32 (kstack_base + (pid + 1) * KSTACK_SIZE).

Definition kctx_new (entry id quota : Z) : M thr Z :=
  pid ← alloc_mem_quota id quota;
  check_index NUM_IDS pid ;;
  kctx_set_esp pid (proc_kstack_hi pid) ;;
  kctx_set_eip pid entry ;;
  mret pid.

End kctx_new.

(** * Theory *)

(** The processor the code runs on is known and in range, and its kernel stack
    carries the magic number [spinlock_acquire] asserts. *)
Definition this_cpu (s : thr) : Z := pc_cpu_idx (pcpus s !!! ks_cpu_idx (cur_kstack s)).

Record cpu_ok (s : thr) : Prop := {
  cpu_ks : 0 <= ks_cpu_idx (cur_kstack s) < NUM_CPUS;
  cpu_idx_ok : 0 <= this_cpu s < NUM_CPUS;
  cpu_magic : ks_magic (cur_kstack s) = KSTACK_MAGIC;
}.

Lemma cur_pcpu_idx_ok s : cpu_ok s -> cur_pcpu_idx s = Ok (this_cpu s, s).
Proof.
  intros [Hk _ _]. unfold cur_pcpu_idx, get_pcpu_idx, get_kstack_cpu_idx.
  mrun. done.
Qed.

(** Parts of the state an operation leaves alone. *)
Lemma cpu_ok_ext s s' :
  pcpus s' = pcpus s -> cur_kstack s' = cur_kstack s -> cpu_ok s -> cpu_ok s'.
Proof. intros E1 E2 []. split; unfold this_cpu in *; by rewrite ?E1, ?E2. Qed.

Lemma tcb_read_ok {A} pid (f : TCB -> A) s :
  0 <= pid < NUM_IDS -> tcb_read pid f s = Ok (f (TCBPool s !!! pid), s).
Proof. intros. unfold tcb_read. by mrun. Qed.

Lemma tcb_write_ok pid f s :
  0 <= pid < NUM_IDS -> tcb_write pid f s = Ok (tt, upd_tcb pid f s).
Proof. intros. unfold tcb_write. by mrun. Qed.

Lemma tq_read_ok {A} c chid (f : TQueue -> A) s :
  cpu_ok s -> this_cpu s = c -> 0 <= chid < NUM_IDS + 1 ->
  tq_read chid f s = Ok (f (TQueuePool s !!! (c, chid)), s).
Proof.
  intros Hc <- Hr. unfold tq_read. rewrite (bind_ok _ _ _ _ _ (cur_pcpu_idx_ok s Hc)).
  destruct Hc. by mrun.
Qed.

Lemma tq_write_ok c chid f s :
  cpu_ok s -> this_cpu s = c -> 0 <= chid < NUM_IDS + 1 ->
  tq_write chid f s =
    Ok (tt, with_TQueuePool (fun m => <[(c, chid) := f (m !!! (c, chid))]> m) s).
Proof.
  intros Hc <- Hr. unfold tq_write. rewrite (bind_ok _ _ _ _ _ (cur_pcpu_idx_ok s Hc)).
  destruct Hc. by mrun.
Qed.

Lemma get_curid_ok c s :
  cpu_ok s -> this_cpu s = c -> get_curid s = Ok (CURID s !!! c, s).
Proof.
  intros Hc <-. unfold get_curid. rewrite (bind_ok _ _ _ _ _ (cur_pcpu_idx_ok s Hc)).
  destruct Hc. by mrun.
Qed.

Lemma set_curid_ok c v s :
  cpu_ok s -> this_cpu s = c ->
  set_curid v s = Ok (tt, with_CURID (fun m => <[c := v]> m) s).
Proof.
  intros Hc <-. unfold set_curid. rewrite (bind_ok _ _ _ _ _ (cur_pcpu_idx_ok s Hc)).
  destruct Hc. by mrun.
Qed.

Lemma kctx_switch_ok a b s :
  0 <= a < NUM_IDS -> 0 <= b < NUM_IDS -> kctx_switch a b s = Ok (tt, cswitch a b s).
Proof. intros. unfold kctx_switch. by mrun. Qed.

Ltac solve_cpu :=
  solve [assumption | eapply cpu_ok_ext; [| |eassumption]; reflexivity].
Ltac solve_range := solve [assumption | unfold NUM_IDS in *; lia].

(** Solve [op args s = Ok (?a, ?s')] for a basic operation. *)
Ltac tbase :=
  unfold tcb_get_state, tcb_set_state, tcb_get_prev, tcb_set_prev, tcb_get_next,
    tcb_set_next, tcb_get_chan, tcb_set_chan, tqueue_get_head, tqueue_set_head,
    tqueue_get_tail, tqueue_set_tail;
  first
    [ apply tcb_read_ok; solve_range
    | apply tcb_write_ok; solve_range
    | match goal with
      | H : cpu_ok ?s0 |- _ =>
          first
            [ apply (tq_read_ok (this_cpu s0)); [solve_cpu|reflexivity|solve_range]
            | apply (tq_write_ok (this_cpu s0)); [solve_cpu|reflexivity|solve_range]
            | apply (get_curid_ok (this_cpu s0)); [solve_cpu|reflexivity]
            | apply (set_curid_ok (this_cpu s0)); [solve_cpu|reflexivity] ]
      end
    | apply kctx_switch_ok; solve_range ].

(** Run one basic operation at the head of the code in the goal. *)
Ltac tstep :=
  first
    [ match goal with
      | |- context [((_ ≫= _) ≫= _) _] => rewrite bind_assoc
      end
    | match goal with
      | |- context [(?m ≫= ?f) ?s] => erewrite (bind_ok m f s) by tbase
      end; cbv beta ].

(** ** Queues as lists *)
Definition nx (s : thr) (y : Z) : Z := tcb_next (TCBPool s !!! y).
Definition pv (s : thr) (y : Z) : Z := tcb_prev (TCBPool s !!! y).
Definition qh (s : thr) (chid : Z) : Z := tq_head (TQueuePool s !!! (this_cpu s, chid)).
Definition qt (s : thr) (chid : Z) : Z := tq_tail (TQueuePool s !!! (this_cpu s, chid)).

Record queue_repr (s : thr) (chid : Z) (l : list Z) : Prop := {
  qr_dlist : dlist NUM_IDS (nx s) (pv s) (qh s chid) (qt s chid) l;
  qr_range : forall x, x ∈ l -> 0 <= x < NUM_IDS;
}.

(** A control block up to its links. *)
Definition unlink (t : TCB) : TCB := set_prev 0 (set_next 0 t).

(** What a queue operation on [chid] may change. *)
Record queue_frame (chid : Z) (s s' : thr) : Prop := {
  qf_tcb : forall y, unlink (TCBPool s' !!! y) = unlink (TCBPool s !!! y);
  qf_queues : forall k, k <> (this_cpu s, chid) -> TQueuePool s' !!! k = TQueuePool s !!! k;
  qf_curid : CURID s' = CURID s;
  qf_kctx : kctx_pool s' = kctx_pool s;
  qf_regs : regs s' = regs s;
  qf_lk : sched_lk s' = sched_lk s;
  qf_ticks : sched_ticks s' = sched_ticks s;
  qf_pcpus : pcpus s' = pcpus s;
  qf_kstack : cur_kstack s' = cur_kstack s;
}.

Lemma unlink_state t u : unlink t = unlink u -> tcb_state t = tcb_state u.
Proof. intros E. by injection E. Qed.
Lemma unlink_channel t u : unlink t = unlink u -> tcb_channel t = tcb_channel u.
Proof. intros E. by injection E. Qed.
Lemma unlink_sigstate t u : unlink t = unlink u -> tcb_sigstate t = tcb_sigstate u.
Proof. intros E. by injection E. Qed.

#[export] Instance queue_frame_refl chid : Reflexive (queue_frame chid).
Proof. intros s. by split. Qed.

Lemma queue_frame_cpu chid s s' : queue_frame chid s s' -> cpu_ok s -> cpu_ok s'.
Proof. intros []. by apply cpu_ok_ext. Qed.

Lemma queue_frame_this_cpu chid s s' : queue_frame chid s s' -> this_cpu s' = this_cpu s.
Proof. intros []. unfold this_cpu. congruence. Qed.

(** Reading a field of an updated state. *)
Lemma TCBPool_upd_tcb p f s y :
  TCBPool (upd_tcb p f s) !!! y = if decide (p = y) then f (TCBPool s !!! p) else TCBPool s !!! y.
Proof. unfold upd_tcb, with_TCBPool. cbn. apply lookup_total_upd. Qed.
Lemma TCBPool_with_TQueuePool f s : TCBPool (with_TQueuePool f s) = TCBPool s.
Proof. reflexivity. Qed.
Lemma TCBPool_with_CURID f s : TCBPool (with_CURID f s) = TCBPool s.
Proof. reflexivity. Qed.
Lemma TCBPool_with_kctx f g s : TCBPool (with_kctx f g s) = TCBPool s.
Proof. reflexivity. Qed.
Lemma TCBPool_cswitch a b s : TCBPool (cswitch a b s) = TCBPool s.
Proof. reflexivity. Qed.
Lemma TCBPool_set_sched_lk l s : TCBPool (set_sched_lk l s) = TCBPool s.
Proof. reflexivity. Qed.
Lemma TCBPool_with_sched_ticks f s : TCBPool (with_sched_ticks f s) = TCBPool s.
Proof. reflexivity. Qed.
Lemma TQueuePool_upd_tcb p f s : TQueuePool (upd_tcb p f s) = TQueuePool s.
Proof. reflexivity. Qed.
Lemma TQueuePool_with_TQueuePool f s : TQueuePool (with_TQueuePool f s) = f (TQueuePool s).
Proof. reflexivity. Qed.
Lemma TQueuePool_with_CURID f s : TQueuePool (with_CURID f s) = TQueuePool s.
Proof. reflexivity. Qed.
Lemma TQueuePool_cswitch a b s : TQueuePool (cswitch a b s) = TQueuePool s.
Proof. reflexivity. Qed.
Lemma TQueuePool_set_sched_lk l s : TQueuePool (set_sched_lk l s) = TQueuePool s.
Proof. reflexivity. Qed.
Lemma TQueuePool_with_sched_ticks f s : TQueuePool (with_sched_ticks f s) = TQueuePool s.
Proof. reflexivity. Qed.

#[export] Hint Rewrite TCBPool_upd_tcb TCBPool_with_TQueuePool TCBPool_with_CURID
  TCBPool_with_kctx TCBPool_cswitch TCBPool_set_sched_lk TCBPool_with_sched_ticks
  TQueuePool_upd_tcb TQueuePool_with_TQueuePool TQueuePool_with_CURID TQueuePool_cswitch
  TQueuePool_set_sched_lk TQueuePool_with_sched_ticks
  @lookup_total_upd : thr.

(** All states of one computation run on the same processor. *)
Ltac norm_cpu :=
  repeat match goal with
  | H : cpu_ok ?s0 |- context [this_cpu ?x] =>
      assert_fails (constr_eq x s0); change (this_cpu x) with (this_cpu s0)
  end.

(** Look through the pointwise updates of a computed state. *)
Ltac look :=
  unfold nx, pv, qh, qt; norm_cpu; autorewrite with thr;
  cbv beta;
  cbn [tcb_state tcb_prev tcb_next tcb_channel tcb_openfiles tcb_cwd
       tcb_sigstate tq_head tq_tail set_prev set_next set_state set_chan].

Lemma unlink_upd_prev p v s y :
  unlink (TCBPool (upd_tcb p (set_prev v) s) !!! y) = unlink (TCBPool s !!! y).
Proof. rewrite TCBPool_upd_tcb. by case_decide as E; [rewrite <-E|]. Qed.
Lemma unlink_upd_next p v s y :
  unlink (TCBPool (upd_tcb p (set_next v) s) !!! y) = unlink (TCBPool s !!! y).
Proof. rewrite TCBPool_upd_tcb. by case_decide as E; [rewrite <-E|]. Qed.

Ltac solve_frame :=
  split;
  [ intros y;
    repeat first [rewrite unlink_upd_prev | rewrite unlink_upd_next
                 | rewrite TCBPool_with_TQueuePool]; reflexivity
  | intros k Hk; look; repeat (rewrite decide_False by congruence); reflexivity
  | reflexivity .. ].

(** Decide every test in the goal from the (in)equalities at hand. *)
Ltac dtest :=
  repeat match goal with
  | |- context [decide (?x = ?x)] => rewrite (decide_True (P := x = x)) by reflexivity
  | H : ?x <> ?y |- context [decide (?x = ?y)] => rewrite (decide_False (P := x = y)) by exact H
  | H : ?x <> ?y |- context [decide (?y = ?x)] =>
      rewrite (decide_False (P := y = x)) by (intros ->; exact (H eq_refl))
  | H : ?x = ?y |- context [decide (?x = ?y)] => rewrite (decide_True (P := x = y)) by exact H
  end.

(** Compare two pointwise updates. *)
Ltac points :=
  unfold nx, pv in *; look;
  repeat match goal with H : forall _, _ |- _ => clear H end;
  repeat case_decide; try (exfalso; congruence);
  cbn [tcb_prev tcb_next set_prev set_next]; repeat split; congruence.

Section queue_ops.
Context (chid : Z) (s : thr).
Hypothesis Hcpu : cpu_ok s.
Hypothesis Hchid : 0 <= chid < NUM_IDS + 1.

(** The representation after an enqueue, from the pointwise effect of the code. *)
Lemma queue_repr_enqueue s' pid l :
  0 <= pid < NUM_IDS -> queue_repr s chid l -> pid ∉ l ->
  qh s' chid = (if decide (qt s chid = NUM_IDS) then pid else qh s chid) ->
  qt s' chid = pid ->
  (forall y, y ∈ l -> nx s' y = (if decide (y = qt s chid) then pid else nx s y)
                    /\ pv s' y = pv s y) ->
  nx s' pid = NUM_IDS -> pv s' pid = qt s chid ->
  queue_repr s' chid (l ++ [pid]).
Proof.
  intros Hpid [Hd Hr] Hx Eh Et Hl Hn Hp. split.
  - rewrite Eh, Et. apply (dlist_enqueue _ (nx s) (pv s)); try done. lia.
  - intros x [?|?%list_elem_of_singleton]%elem_of_app; subst; auto.
Qed.

(** Enqueue appends. *)
Lemma tqueue_enqueue_spec pid l :
  0 <= pid < NUM_IDS -> queue_repr s chid l -> pid ∉ l ->
  exists s', tqueue_enqueue chid pid s = Ok (tt, s')
    /\ queue_repr s' chid (l ++ [pid])
    /\ queue_frame chid s s'
    /\ (forall y, y ∉ l -> y <> pid -> TCBPool s' !!! y = TCBPool s !!! y).
Proof.
  intros Hpid HR Hx. pose proof HR as [Hd Hr].
  destruct (dlist_nil_iff _ _ _ _ _ _ Hd) as [_ Ht].
  unfold tqueue_enqueue. tstep. fold (qt s chid).
  case_decide as E.
  - assert (l = []) as -> by by apply Ht. repeat tstep.
    eexists. split; [tbase|]. split_and!.
    + apply queue_repr_enqueue; [exact Hpid|exact HR|exact Hx|..].
      * rewrite decide_True by exact E. look. dtest. reflexivity.
      * look. dtest. reflexivity.
      * intros y Hy%elem_of_nil. destruct Hy.
      * look. dtest. reflexivity.
      * rewrite E. look. dtest. reflexivity.
    + solve_frame.
    + intros y _ Hy. look. dtest. reflexivity.
  - assert (qt s chid ∈ l) as Hin.
    { rewrite (dl_tail _ _ _ _ _ _ Hd). apply last_or_in. intros ->. by apply E, Ht. }
    assert (qt s chid <> pid) as Hqp by congruence.
    pose proof (Hr _ Hin) as Hqt. repeat tstep.
    eexists. split; [tbase|]. split_and!.
    + apply queue_repr_enqueue; [exact Hpid|exact HR|exact Hx|..].
      * rewrite decide_False by exact E. look. dtest. reflexivity.
      * look. dtest. reflexivity.
      * intros y Hy. assert (pid <> y) as Hy1 by congruence. look. fold (qt s chid).
        dtest. destruct (decide (qt s chid = y)) as [<-|Hy2]; dtest; split; reflexivity.
      * look. dtest. reflexivity.
      * look. dtest. reflexivity.
    + solve_frame.
    + intros y Hy Hyp. assert (qt s chid <> y) as Hy2 by congruence.
      look. fold (qt s chid). dtest. reflexivity.
Qed.

(** The representation after an element has been unlinked. *)
Lemma queue_repr_remove s' l1 pid l2 :
  queue_repr s chid (l1 ++ pid :: l2) ->
  qh s' chid = (if decide (pv s pid = NUM_IDS) then nx s pid else qh s chid) ->
  qt s' chid = (if decide (nx s pid = NUM_IDS) then pv s pid else qt s chid) ->
  (forall y, y ∈ l1 ++ l2 ->
     nx s' y = (if decide (y = pv s pid) then nx s pid else nx s y) /\
     pv s' y = (if decide (y = nx s pid) then pv s pid else pv s y)) ->
  queue_repr s' chid (l1 ++ l2).
Proof.
  intros [Hd Hr] Eh Et Hl. split.
  - rewrite Eh, Et. by apply (dlist_remove _ (nx s) (pv s)).
  - intros x Hx. apply Hr. set_solver.
Qed.

(** The links of a member lead to other members or to the sentinel. *)
Lemma queue_links l1 pid l2 :
  queue_repr s chid (l1 ++ pid :: l2) ->
  0 <= pid < NUM_IDS
  /\ (pv s pid = NUM_IDS \/ (pv s pid ∈ l1 /\ 0 <= pv s pid < NUM_IDS))
  /\ (nx s pid = NUM_IDS \/ (nx s pid ∈ l2 /\ 0 <= nx s pid < NUM_IDS))
  /\ pid ∉ l1 /\ pid ∉ l2 /\ (forall y, y ∈ l1 -> y ∈ l2 -> False)
  /\ (qh s chid = NUM_IDS -> False).
Proof.
  intros [[Hh Ht Hs Hnd Hnull] Hr].
  destruct (seg_links _ _ _ _ _ _ _ Hs) as [-> ->].
  apply NoDup_app in Hnd as (Hnd1 & Hdisj & Hnd2). apply NoDup_cons in Hnd2 as [Hp Hnd2].
  assert (forall x, x ∈ l1 -> 0 <= x < NUM_IDS) as Hr1 by (intros; apply Hr; set_solver).
  assert (forall x, x ∈ l2 -> 0 <= x < NUM_IDS) as Hr2 by (intros; apply Hr; set_solver).
  split; [apply Hr; apply elem_of_app; right; by left|].
  split; [|split; [|split; [intros Hc; apply (Hdisj _ Hc); by left|split;
    [done|split; [intros y H1 H2; apply (Hdisj _ H1); by right|]]]]].
  - destruct l1 as [|a l1]; [by left|right].
    pose proof (last_or_in NUM_IDS (a :: l1)) as Hin. specialize (Hin ltac:(done)). auto.
  - destruct l2 as [|a l2]; [by left|right].
    pose proof (hd_or_in NUM_IDS (a :: l2)) as Hin. specialize (Hin ltac:(done)). auto.
  - rewrite Hh. intros E. apply Hnull. rewrite <-E. apply hd_or_in. by destruct l1.
Qed.

(** Removing a member unlinks it, wherever it stands. *)
Lemma tqueue_remove_spec pid l1 l2 :
  queue_repr s chid (l1 ++ pid :: l2) ->
  exists s', tqueue_remove chid pid s = Ok (tt, s')
    /\ queue_repr s' chid (l1 ++ l2)
    /\ queue_frame chid s s'
    /\ nx s' pid = NUM_IDS /\ pv s' pid = NUM_IDS
    /\ (forall y, y ∉ l1 ++ pid :: l2 -> TCBPool s' !!! y = TCBPool s !!! y).
Proof.
  intros HR. destruct (queue_links _ _ _ HR) as (Hpid & Hpv & Hnx & Hp1 & Hp2 & Hdisj & _).
  assert (forall y, y ∉ l1 ++ pid :: l2 -> pid <> y /\ y ∉ l1 /\ y ∉ l2) as Hout.
  { intros y Hy. set_solver. }
  assert (forall y, y ∈ l1 ++ l2 -> pid <> y) as Hne.
  { intros y [?|?]%elem_of_app; congruence. }
  unfold tqueue_remove. do 2 tstep. fold (pv s pid) (nx s pid).
  destruct Hpv as [Epv|[Ipv Rpv]], Hnx as [Enx|[Inx Rnx]].
  - rewrite decide_True, decide_True by done. repeat tstep.
    eexists. split; [tbase|]. split_and!.
    + apply (queue_repr_remove _ _ pid); [exact HR|..].
      * rewrite decide_True by done. look. dtest. cbn. by rewrite <-Enx.
      * rewrite decide_True by done. look. dtest. cbn. by rewrite <-Epv.
      * intros y Hy. specialize (Hne y Hy).
        assert (y <> pv s pid) as H1. { rewrite Epv. intros ->. destruct HR as [[] ?]. set_solver. }
        assert (y <> nx s pid) as H2. { rewrite Enx. intros ->. destruct HR as [[] ?]. set_solver. }
        dtest. look. dtest. by split.
    + solve_frame.
    + look. dtest. reflexivity.
    + look. dtest. reflexivity.
    + intros y Hy. destruct (Hout y Hy) as (H1 & _). look. dtest. reflexivity.
  - rewrite decide_True, decide_False by (done || lia).
    assert (pid <> nx s pid) as Hpn by congruence. repeat tstep.
    eexists. split; [tbase|]. split_and!.
    + apply (queue_repr_remove _ _ pid); [exact HR|..].
      * rewrite decide_True by done. look. dtest. reflexivity.
      * rewrite decide_False by lia. look. dtest. reflexivity.
      * intros y Hy. specialize (Hne y Hy).
        assert (y <> pv s pid) as H1. { rewrite Epv. intros ->. destruct HR as [[] ?]. set_solver. }
        points.
    + solve_frame.
    + look. dtest. reflexivity.
    + look. dtest. reflexivity.
    + intros y Hy. destruct (Hout y Hy) as (H1 & _ & H2).
      assert (nx s pid <> y) by congruence. look. fold (nx s pid). dtest. reflexivity.
  - rewrite decide_False, decide_True by (done || lia).
    assert (pid <> pv s pid) as Hpn by congruence. repeat tstep.
    eexists. split; [tbase|]. split_and!.
    + apply (queue_repr_remove _ _ pid); [exact HR|..].
      * rewrite decide_False by lia. look. dtest. reflexivity.
      * rewrite decide_True by done. look. dtest. reflexivity.
      * intros y Hy. specialize (Hne y Hy).
        assert (y <> nx s pid) as H1. { rewrite Enx. intros ->. destruct HR as [[] ?]. set_solver. }
        points.
    + solve_frame.
    + look. dtest. reflexivity.
    + look. dtest. reflexivity.
    + intros y Hy. destruct (Hout y Hy) as (H1 & H2 & _).
      assert (pv s pid <> y) by congruence. look. fold (pv s pid). dtest. reflexivity.
  - assert (pv s pid <> nx s pid) as Hpn. { intros E. rewrite E in Ipv. eauto. }
    rewrite decide_False, decide_False, decide_True by (done || lia).
    assert (pid <> pv s pid) by congruence. assert (pid <> nx s pid) by congruence.
    repeat tstep.
    eexists. split; [tbase|]. split_and!.
    + apply (queue_repr_remove _ _ pid); [exact HR|..].
      * rewrite decide_False by lia. look. reflexivity.
      * rewrite decide_False by lia. look. reflexivity.
      * intros y Hy. specialize (Hne y Hy). points.
    + solve_frame.
    + look. dtest. reflexivity.
    + look. dtest. reflexivity.
    + intros y Hy. destruct (Hout y Hy) as (H1 & H2 & H3).
      assert (pv s pid <> y) by congruence. assert (nx s pid <> y) by congruence.
      look. fold (pv s pid) (nx s pid). dtest. reflexivity.
Qed.

(** Dequeue takes the oldest element. *)
Lemma tqueue_dequeue_spec x l :
  queue_repr s chid (x :: l) ->
  exists s', tqueue_dequeue chid s = Ok (x, s')
    /\ queue_repr s' chid l
    /\ queue_frame chid s s'
    /\ nx s' x = NUM_IDS /\ pv s' x = NUM_IDS
    /\ (forall y, y ∉ x :: l -> TCBPool s' !!! y = TCBPool s !!! y).
Proof.
  intros HR. destruct (queue_links [] x l HR) as (Hx & _ & Hnx & _ & Hxl & _ & Hh).
  assert (qh s chid = x) as Eh by (destruct HR as [[] ?]; done).
  assert (forall s', qh s' chid = nx s x ->
     qt s' chid = (if decide (nx s x = NUM_IDS) then NUM_IDS else qt s chid) ->
     (forall y, y ∈ l -> nx s' y = nx s y /\
                pv s' y = (if decide (y = nx s x) then NUM_IDS else pv s y)) ->
     queue_repr s' chid l) as Hrepr.
  { intros s' E1 E2 Hl. destruct HR as [Hd Hr]. split.
    - rewrite E1, E2. by apply (dlist_dequeue _ _ _ _ _ _ _ _ _ Hd).
    - intros y Hy. apply Hr. by right. }
  assert (forall y, y ∈ l -> x <> y) as Hne by congruence.
  assert (forall y, y ∉ x :: l -> x <> y /\ y ∉ l) as Hout.
  { intros y Hy. split; [intros ->; apply Hy; by left|intros ?; apply Hy; by right]. }
  assert (x <> NUM_IDS) as Hx0 by (unfold NUM_IDS in *; lia).
  unfold tqueue_dequeue. tstep. fold (qh s chid). rewrite Eh, decide_True by done.
  tstep. fold (nx s x). destruct Hnx as [Enx|[Inx Rnx]].
  - rewrite decide_True by done. repeat tstep.
    eexists. split; [reflexivity|]. split_and!.
    + apply Hrepr; [look; dtest; done|rewrite decide_True by done; look; dtest; done|].
      intros y Hy. specialize (Hne y Hy).
      assert (y <> nx s x) as H1. { rewrite Enx. destruct HR as [[] ?]. set_solver. }
      points.
    + solve_frame.
    + look. dtest. reflexivity.
    + look. dtest. reflexivity.
    + intros y Hy. destruct (Hout y Hy) as [H1 _]. look. dtest. reflexivity.
  - assert (x <> nx s x) by congruence. rewrite decide_False by lia. repeat tstep.
    eexists. split; [reflexivity|]. split_and!.
    + apply Hrepr; [look; dtest; done|rewrite decide_False by lia; look; dtest; done|].
      intros y Hy. specialize (Hne y Hy). points.
    + solve_frame.
    + look. dtest. reflexivity.
    + look. dtest. reflexivity.
    + intros y Hy. destruct (Hout y Hy) as [H1 H2].
      assert (nx s x <> y) by congruence. look. fold (nx s x). dtest. reflexivity.
Qed.

Lemma tqueue_dequeue_nil :
  queue_repr s chid [] -> tqueue_dequeue chid s = Ok (NUM_IDS, s).
Proof.
  intros [[Hh _ _ _ _] _]. unfold tqueue_dequeue. tstep. fold (qh s chid).
  by rewrite Hh, decide_False by (intros H; by apply H).
Qed.

(** A control block that is in no queue has both links [NUM_IDS]; removing it
    takes the branch for a queue with one element and empties the queue. *)
Lemma tqueue_remove_unlinked pid :
  0 <= pid < NUM_IDS -> pv s pid = NUM_IDS -> nx s pid = NUM_IDS ->
  exists s', tqueue_remove chid pid s = Ok (tt, s')
    /\ queue_repr s' chid [] /\ queue_frame chid s s'.
Proof.
  intros Hpid Ep En. unfold tqueue_remove. do 2 tstep. fold (pv s pid) (nx s pid).
  rewrite decide_True, decide_True by done. repeat tstep.
  eexists. split; [tbase|]. split; [|solve_frame].
  split; [|intros x Hx%elem_of_nil; done].
  replace (qh _ chid) with NUM_IDS by (look; dtest; done).
  replace (qt _ chid) with NUM_IDS by (look; dtest; done).
  apply dlist_empty.
Qed.

End queue_ops.

(** ** Context switch *)

(** Switching away and back restores the saved registers. *)
Lemma cswitch_kctx a b s y :
  kctx_pool (cswitch a b s) !!! y = if decide (a = y) then regs s else kctx_pool s !!! y.
Proof. apply lookup_total_upd. Qed.

Lemma cswitch_regs a b s :
  regs (cswitch a b s) = if decide (a = b) then regs s else kctx_pool s !!! b.
Proof. apply lookup_total_upd. Qed.

