(* ===== verification/Scheduler.v ===== *)
(** * The scheduler: thread/PThread

    [sched_lk], [sched_ticks] and the ready queue (queue [NUM_IDS] of the
    processor) are fields of [thr].  A call of [kctx_switch] transfers the
    processor to another thread, so a C function that switches is modelled up
    to the switch; [thread_sleep], the only one with code after it, is split
    into the part before ([thread_sleep_enter]) and the part that runs when the
    thread is scheduled again ([thread_sleep_resume]).

    The second half states what the scheduler promises: an abstract scheduler
    [asched] (a running thread, a FIFO of ready threads, a sleep channel per
    thread), the relation [sched_abs] and a forward simulation for every
    operation. *)

From S2P Require Import Prelude DList Machine Thread.

(** lib/thread.h *)
Definition SCHED_SLICE : Z := 5.

(** [spinlock_acquire(&sched_lk)], [spinlock_release(&sched_lk)]. *)
Definition acquire_sched_lk : M thr unit :=
  s ← get; zoom sched_lk set_sched_lk (spinlock_acquire (cur_kstack s)).
Definition release_sched_lk : M thr unit :=
  zoom sched_lk set_sched_lk spinlock_release.

Definition thread_init (paging_init : M thr unit) (stack_word : Z -> Z) : M thr unit :=
  for_each (seqZ 0 NUM_CPUS) (fun i =>
    check_index NUM_CPUS i ;; modify (with_sched_ticks (fun m => <[i := 0]> m))) ;;
  zoom sched_lk set_sched_lk spinlock_init ;;
  tqueue_init paging_init stack_word ;;
  set_curid 0 ;;
  tcb_set_state 0 TSTATE_RUN.

Section thread_spawn.
Context (alloc_mem_quota : Z -> Z -> M thr Z) (kstack_base : Z).

Definition thread_spawn (entry id quota : Z) : M thr Z :=
  acquire_sched_lk ;;
  pid ← kctx_new alloc_mem_quota kstack_base entry id quota;
  tcb_set_state pid TSTATE_READY ;;
  tqueue_enqueue NUM_IDS pid ;;
  release_sched_lk ;;
  mret pid.

End thread_spawn.

Definition thread_yield : M thr unit :=
  acquire_sched_lk ;;
  old_cur_pid ← get_curid;
  tcb_set_state old_cur_pid TSTATE_READY ;;
  tqueue_enqueue NUM_IDS old_cur_pid ;;
  new_cur_pid ← tqueue_dequeue NUM_IDS;
  tcb_set_state new_cur_pid TSTATE_RUN ;;
  set_curid new_cur_pid ;;
  if decide (old_cur_pid <> new_cur_pid) then
    release_sched_lk ;;
    kctx_switch old_cur_pid new_cur_pid
  else release_sched_lk.

Definition thread_exit : M thr unit :=
  acquire_sched_lk ;;
  old_cur_pid ← get_curid;
  new_cur_pid ← tqueue_dequeue NUM_IDS;
  (if decide (new_cur_pid = NUM_IDS)
   then panic "thread_exit: no threads to switch to!" else mret tt) ;;
  tcb_set_state new_cur_pid TSTATE_RUN ;;
  set_curid new_cur_pid ;;
  release_sched_lk ;;
  kctx_switch old_cur_pid new_cur_pid.

(** [sched_ticks[get_pcpu_idx()]] *)
Definition sched_ticks_read : M thr Z :=
  c ← cur_pcpu_idx; check_index NUM_CPUS c ;; gets (fun s => sched_ticks s !!! c).
Definition sched_ticks_write (v : Z) : M thr unit :=
  c ← cur_pcpu_idx; check_index NUM_CPUS c ;;
  modify (with_sched_ticks (fun m => <[c := v]> m)).

Definition sched_update : M thr unit :=
  acquire_sched_lk ;;
  t ← sched_ticks_read;
  sched_ticks_write (u32 (t + 1000 / LAPIC_TIMER_INTR_FREQ)) ;;
  t' ← sched_ticks_read;
  if decide (t' > SCHED_SLICE) then
    sched_ticks_write 0 ;;
    release_sched_lk ;;
    thread_yield
  else release_sched_lk.

(** Run an operation on a lock that is not part of the thread state. *)
Definition on_lock (m : M spinlock unit) (lk : spinlock) : M thr spinlock :=
  fun s => match m lk with
           | Ok (_, l) => Ok (l, s)
           | Panic msg => Panic msg
           | Undef e => Undef e
           | Spin => Spin
           | Hang => Hang
           end.

(** The lock [lk] belongs to the caller: it is passed as its contents ([None]
    is the null pointer) and returned as its contents after the release. *)
Definition thread_sleep_enter (chan : ptr) (lk : option spinlock) : M thr spinlock :=
  curid ← get_curid;
  match lk with
  | None => panic "sleep without lock"
  | Some lk0 =>
      acquire_sched_lk ;;
      lk1 ← on_lock spinlock_release lk0;
      tcb_set_state curid TSTATE_SLEEP ;;
      tcb_set_chan curid chan ;;
      new_cur_pid ← tqueue_dequeue NUM_IDS;
      tcb_set_state new_cur_pid TSTATE_RUN ;;
      set_curid new_cur_pid ;;
      release_sched_lk ;;
      kctx_switch curid new_cur_pid ;;
      mret lk1
  end.

Definition thread_sleep_resume (curid : Z) (lk : spinlock) : M thr spinlock :=
  acquire_sched_lk ;;
  tcb_set_chan curid PNull ;;
  release_sched_lk ;;
  s ← get;
  on_lock (spinlock_acquire (cur_kstack s)) lk.

Definition thread_wakeup_body (chan : ptr) (pid : Z) : M thr unit :=
  c ← tcb_get_chan pid;
  st ← tcb_get_state pid;
  if decide (c = chan /\ st = TSTATE_SLEEP) then
    tcb_set_state pid TSTATE_READY ;;
    tcb_set_chan pid PNull ;;
    tqueue_enqueue NUM_IDS pid
  else mret tt.

Definition thread_wakeup (chan : ptr) : M thr unit :=
  acquire_sched_lk ;;
  for_each (seqZ 1 (NUM_IDS - 1)) (thread_wakeup_body chan) ;;
  release_sched_lk.

(** * The abstract scheduler *)

Record asched := {
  a_cur : Z;                   (** the running thread *)
  a_rq : list Z;               (** the ready threads, oldest first *)
  a_chan : Z -> option ptr;    (** what a sleeping thread waits for *)
}.

(** [a_pick cur rq]: run the oldest ready thread. *)
Definition a_run (x : Z) (rq : list Z) (ch : Z -> option ptr) : asched :=
  {| a_cur := x; a_rq := rq; a_chan := ch |}.

Definition a_yield (a : asched) : asched :=
  match a_rq a with
  | [] => a
  | x :: rq => a_run x (rq ++ [a_cur a]) (a_chan a)
  end.

Definition a_exit (a : asched) : option asched :=
  match a_rq a with
  | [] => None
  | x :: rq => Some (a_run x rq (a_chan a))
  end.

Definition a_sleep (ch : ptr) (a : asched) : option asched :=
  match a_rq a with
  | [] => None
  | x :: rq => Some (a_run x rq (fun y => if decide (y = a_cur a) then Some ch else a_chan a y))
  end.

Definition a_sleepers (ch : ptr) (a : asched) : list Z :=
  filter (fun y => a_chan a y = Some ch) (seqZ 1 (NUM_IDS - 1)).

Definition a_wakeup (ch : ptr) (a : asched) : asched :=
  {| a_cur := a_cur a; a_rq := a_rq a ++ a_sleepers ch a;
     a_chan := fun y => if decide (y ∈ a_sleepers ch a) then None else a_chan a y |}.

Definition a_spawn (p : Z) (a : asched) : asched :=
  {| a_cur := a_cur a; a_rq := a_rq a ++ [p];
     a_chan := fun y => if decide (y = p) then None else a_chan a y |}.

Definition chan_of (t : TCB) : option ptr :=
  if decide (tcb_state t = TSTATE_SLEEP) then Some (tcb_channel t) else None.

(** The scheduler state [s] represents [a], whatever the state of [sched_lk]. *)
Record sched_core (s : thr) (a : asched) : Prop := {
  sc_cpu : cpu_ok s;
  sc_cur : CURID s !!! this_cpu s = a_cur a;
  sc_cur_range : 0 <= a_cur a < NUM_IDS;
  sc_rq : queue_repr s NUM_IDS (a_rq a);
  sc_run : tcb_state (TCBPool s !!! a_cur a) = TSTATE_RUN;
  sc_ready : forall x, x ∈ a_rq a -> tcb_state (TCBPool s !!! x) = TSTATE_READY;
  sc_chan : forall x, a_chan a x = chan_of (TCBPool s !!! x);
}.

Definition sched_abs (s : thr) (a : asched) : Prop :=
  sched_core s a /\ lock (sched_lk s) = 0.

(** The parts of the thread state no scheduler operation changes. *)
Record sched_frame (s s' : thr) : Prop := {
  sf_tcb : forall y,
    tcb_openfiles (TCBPool s' !!! y) = tcb_openfiles (TCBPool s !!! y)
    /\ tcb_cwd (TCBPool s' !!! y) = tcb_cwd (TCBPool s !!! y)
    /\ tcb_sigstate (TCBPool s' !!! y) = tcb_sigstate (TCBPool s !!! y);
  sf_pcpus : pcpus s' = pcpus s;
  sf_kstack : cur_kstack s' = cur_kstack s;
}.

#[export] Instance sched_frame_preorder : PreOrder sched_frame.
Proof.
  split.
  - intros s. split; [|done..]. intros y; by split_and!.
  - intros s1 s2 s3 [H1 ? ?] [H2 ? ?]. split; [|congruence..].
    intros y. specialize (H1 y). specialize (H2 y). naive_solver congruence.
Qed.

Lemma sched_frame_queue chid s s' : queue_frame chid s s' -> sched_frame s s'.
Proof.
  intros [Ht _ _ _ _ _ _ Hp Hk]. split; [|done..]. intros y.
  specialize (Ht y). unfold unlink, set_prev, set_next in Ht. cbn in Ht.
  by injection Ht.
Qed.

Lemma acquire_sched_lk_ok s :
  cpu_ok s -> lock (sched_lk s) = 0 ->
  acquire_sched_lk s = Ok (tt, set_sched_lk (held_lock (cur_kstack s)) s).
Proof.
  intros [_ _ Hm] Hl. unfold acquire_sched_lk, get, zoom, mbind, M_bind.
  by rewrite spinlock_acquire_free.
Qed.

Lemma release_sched_lk_ok s : release_sched_lk s = Ok (tt, set_sched_lk free_lock s).
Proof. done. Qed.

(** [acquire_sched_lk] with the lock taken never returns on this processor. *)
Lemma acquire_sched_lk_taken s :
  lock (sched_lk s) <> 0 -> acquire_sched_lk s = Spin.
Proof.
  intros Hl. unfold acquire_sched_lk, get, zoom, mbind, M_bind.
  by rewrite spinlock_acquire_taken.
Qed.

(** Changes that keep the queue's representation. *)
Lemma queue_repr_ext s s' chid l :
  queue_repr s chid l -> qh s' chid = qh s chid -> qt s' chid = qt s chid ->
  (forall y, y ∈ l -> nx s' y = nx s y /\ pv s' y = pv s y) ->
  queue_repr s' chid l.
Proof.
  intros [Hd Hr] Eh Et Hl. split; [|done]. rewrite Eh, Et. by eapply dlist_ext.
Qed.

Lemma queue_repr_same s s' chid l :
  TCBPool s' = TCBPool s -> TQueuePool s' = TQueuePool s -> this_cpu s' = this_cpu s ->
  queue_repr s chid l -> queue_repr s' chid l.
Proof.
  intros E1 E2 E3 HR. apply (queue_repr_ext s); [done|..]; unfold qh, qt, nx, pv.
  - by rewrite E2, E3.
  - by rewrite E2, E3.
  - intros y _. by rewrite E1.
Qed.

Lemma queue_repr_upd s chid l p f :
  (forall t, tcb_next (f t) = tcb_next t /\ tcb_prev (f t) = tcb_prev t) ->
  queue_repr s chid l -> queue_repr (upd_tcb p f s) chid l.
Proof.
  intros Hf HR. apply (queue_repr_ext s); [done..|]. intros y _.
  unfold nx, pv. rewrite TCBPool_upd_tcb. case_decide; [subst|done]. apply Hf.
Qed.

(** The heart of every switch: dequeue, mark running, publish. *)
Definition switch_in : M thr Z :=
  new_cur_pid ← tqueue_dequeue NUM_IDS;
  tcb_set_state new_cur_pid TSTATE_RUN ;;
  set_curid new_cur_pid ;;
  mret new_cur_pid.

(** States between [tqueue_enqueue] and [switch_in]: nobody is running. *)
Record sched_idle (s : thr) (rq : list Z) (ch : Z -> option ptr) : Prop := {
  sd_cpu : cpu_ok s;
  sd_rq : queue_repr s NUM_IDS rq;
  sd_ready : forall x, x ∈ rq -> tcb_state (TCBPool s !!! x) = TSTATE_READY;
  sd_chan : forall x, ch x = chan_of (TCBPool s !!! x);
}.

Lemma switch_in_spec s x rq ch :
  sched_idle s (x :: rq) ch ->
  exists s', switch_in s = Ok (x, s') /\ sched_core s' (a_run x rq ch)
    /\ sched_frame s s' /\ regs s' = regs s /\ kctx_pool s' = kctx_pool s
    /\ sched_lk s' = sched_lk s /\ sched_ticks s' = sched_ticks s
    /\ (forall y, y <> x -> tcb_state (TCBPool s' !!! y) = tcb_state (TCBPool s !!! y)).
Proof.
  intros [Hcpu HR Hrd Hch].
  destruct (tqueue_dequeue_spec NUM_IDS s Hcpu ltac:(unfold NUM_IDS; lia) x rq HR)
    as (s1 & E & HR1 & HF & _ & _ & _).
  pose proof (qr_range _ _ _ HR x ltac:(by left)) as Hx.
  pose proof (queue_frame_cpu _ _ _ HF Hcpu) as Hcpu1.
  assert (x ∉ rq) as Hxr. { destruct HR as [[_ _ _ Hnd _] _]. by apply NoDup_cons in Hnd as []. }
  assert (forall y, tcb_state (TCBPool s1 !!! y) = tcb_state (TCBPool s !!! y)) as Hst.
  { intros y. apply unlink_state, HF. }
  assert (forall y, tcb_channel (TCBPool s1 !!! y) = tcb_channel (TCBPool s !!! y)) as Hcn.
  { intros y. apply unlink_channel, HF. }
  unfold switch_in. rewrite (bind_ok _ _ _ _ _ E). repeat tstep.
  eexists. split; [reflexivity|]. split_and!.
  - split.
    + solve_cpu.
    + cbn. by rewrite lookup_total_insert_eq.
    + done.
    + apply (queue_repr_same (upd_tcb x (set_state TSTATE_RUN) s1)); [done..|].
      by apply queue_repr_upd.
    + cbn [a_cur a_run]. look. by dtest.
    + cbn [a_rq a_run]. intros y Hy. assert (x <> y) by congruence. look. dtest.
      rewrite Hst. apply Hrd. by right.
    + intros y. cbn [a_chan a_run]. look. rewrite Hch. unfold chan_of.
      destruct (decide (x = y)) as [<-|Hne]; dtest.
      * cbn. rewrite Hrd; [done|by left].
      * by rewrite Hst, Hcn.
  - transitivity s1; [by apply (sched_frame_queue NUM_IDS)|].
    split; [|done..]. intros y. look. by case_decide; subst.
  - cbn. by apply HF.
  - cbn. by apply HF.
  - cbn. by apply HF.
  - cbn. by apply HF.
  - intros y Hy. look. rewrite decide_False by done. apply Hst.
Qed.

Lemma switch_in_bind {A} (k : Z -> M thr A) s :
  (n ← tqueue_dequeue NUM_IDS; tcb_set_state n TSTATE_RUN ;; set_curid n ;; k n) s
  = (switch_in ≫= k) s.
Proof.
  unfold switch_in. rewrite bind_assoc. unfold mbind, M_bind.
  destruct (tqueue_dequeue NUM_IDS s) as [[n s1]| | | |]; [|done..].
  destruct (tcb_set_state n TSTATE_RUN s1) as [[[] s2]| | | |]; [|done..].
  by destruct (set_curid n s2) as [[[] s3]| | | |].
Qed.

Lemma sched_core_lk l s a : sched_core s a -> sched_core (set_sched_lk l s) a.
Proof.
  intros [H1 ? ? H2 ? ? ?]. split; try done; [by eapply cpu_ok_ext; [| |exact H1]|].
  by apply (queue_repr_same s).
Qed.

Lemma sched_core_cswitch x y s a : sched_core s a -> sched_core (cswitch x y s) a.
Proof.
  intros [H1 ? ? H2 ? ? ?]. split; try done; [by eapply cpu_ok_ext; [| |exact H1]|].
  by apply (queue_repr_same s).
Qed.

Lemma sched_core_ticks f s a : sched_core s a -> sched_core (with_sched_ticks f s) a.
Proof.
  intros [H1 ? ? H2 ? ? ?]. split; try done; [by eapply cpu_ok_ext; [| |exact H1]|].
  by apply (queue_repr_same s).
Qed.

Lemma sched_core_cur_rq s a : sched_core s a -> a_cur a ∉ a_rq a.
Proof. intros [] Hin. specialize (sc_ready0 _ Hin). congruence. Qed.

(** Appending a thread that is in no queue, after its control block has been
    changed by [f] to be ready. *)
Lemma enqueue_ready s p rq ch f :
  cpu_ok s -> queue_repr s NUM_IDS rq -> 0 <= p < NUM_IDS -> p ∉ rq ->
  (forall t, tcb_next (f t) = tcb_next t /\ tcb_prev (f t) = tcb_prev t) ->
  tcb_state (f (TCBPool s !!! p)) = TSTATE_READY ->
  (forall x, x ∈ rq -> tcb_state (TCBPool s !!! x) = TSTATE_READY) ->
  (forall x, x <> p -> ch x = chan_of (TCBPool s !!! x)) -> ch p = None ->
  exists s', tqueue_enqueue NUM_IDS p (upd_tcb p f s) = Ok (tt, s')
    /\ sched_idle s' (rq ++ [p]) ch
    /\ queue_frame NUM_IDS (upd_tcb p f s) s'.
Proof.
  intros Hcpu HR Hp Hpr Hf Est Hrd Hch Hcp.
  assert (cpu_ok (upd_tcb p f s)) as Hcpu' by solve_cpu.
  destruct (tqueue_enqueue_spec NUM_IDS _ Hcpu' ltac:(unfold NUM_IDS; lia) p rq Hp
              (queue_repr_upd _ _ _ _ _ Hf HR) Hpr) as (s' & E & HR' & HF & _).
  assert (forall y, tcb_state (TCBPool s' !!! y) = tcb_state (TCBPool (upd_tcb p f s) !!! y)) as Hst.
  { intros y. apply unlink_state, HF. }
  assert (forall y, tcb_channel (TCBPool s' !!! y) = tcb_channel (TCBPool (upd_tcb p f s) !!! y)) as Hcn.
  { intros y. apply unlink_channel, HF. }
  exists s'. split_and!; [done| |done]. split.
  - by apply (queue_frame_cpu _ _ _ HF).
  - done.
  - intros y Hy. rewrite Hst, TCBPool_upd_tcb. case_decide as Epy; [done|].
    apply Hrd. apply elem_of_app in Hy as [?|Hy%list_elem_of_singleton]; congruence.
  - intros y. unfold chan_of. rewrite Hst, Hcn, TCBPool_upd_tcb.
    destruct (decide (p = y)) as [<-|Epy].
    + by rewrite Est, Hcp.
    + apply Hch. congruence.
Qed.

Lemma sched_frame_upd p f s :
  (forall t, tcb_openfiles (f t) = tcb_openfiles t /\ tcb_cwd (f t) = tcb_cwd t
             /\ tcb_sigstate (f t) = tcb_sigstate t) ->
  sched_frame s (upd_tcb p f s).
Proof.
  intros Hf. split; [|done..]. intros y. rewrite TCBPool_upd_tcb.
  case_decide; [subst; apply Hf|done].
Qed.

Lemma sched_frame_same s s' :
  TCBPool s' = TCBPool s -> pcpus s' = pcpus s -> cur_kstack s' = cur_kstack s ->
  sched_frame s s'.
Proof. intros E ? ?. split; [|done..]. intros y. by rewrite E. Qed.

(** What the registers and saved contexts are after switching from [p] to [q]. *)
Definition switched (p q : Z) (s s' : thr) : Prop :=
  if decide (p = q) then regs s' = regs s /\ kctx_pool s' = kctx_pool s
  else regs s' = kctx_pool s !!! q /\ kctx_pool s' = <[p := regs s]> (kctx_pool s).

Lemma switched_cswitch p q s s1 :
  p <> q -> regs s1 = regs s -> kctx_pool s1 = kctx_pool s -> switched p q s (cswitch p q s1).
Proof.
  intros Hne E1 E2. unfold switched. rewrite decide_False by done. cbn.
  rewrite E1, E2. split; [|done]. by rewrite lookup_total_insert_ne.
Qed.

Lemma a_yield_eq a x rq :
  a_rq a ++ [a_cur a] = x :: rq -> a_yield a = a_run x rq (a_chan a).
Proof.
  unfold a_yield. destruct a as [c [|y r] ch]; simpl; intros [= <- <-]; done.
Qed.

Lemma thread_yield_sim s a :
  sched_abs s a ->
  exists s', thread_yield s = Ok (tt, s') /\ sched_abs s' (a_yield a) /\ sched_frame s s'
    /\ switched (a_cur a) (a_cur (a_yield a)) s s' /\ sched_ticks s' = sched_ticks s.
Proof.
  intros [Ha Hlk]. pose proof (sched_core_cur_rq _ _ Ha) as Hcr.
  pose proof Ha as [Hcpu Hcur Hr HR Hrun Hrd Hch].
  unfold thread_yield. rewrite (bind_ok _ _ _ _ _ (acquire_sched_lk_ok s Hcpu Hlk)).
  set (s0 := set_sched_lk _ s).
  assert (cpu_ok s0) as Hcpu0 by solve_cpu. tstep.
  change (CURID s0 !!! this_cpu s0) with (CURID s !!! this_cpu s). rewrite Hcur. tstep.
  destruct (enqueue_ready s0 (a_cur a) (a_rq a) (a_chan a) (set_state TSTATE_READY))
    as (s1 & E1 & Hidle & HF); try done.
  { by apply (queue_repr_same s). }
  { rewrite Hch. unfold chan_of. by rewrite Hrun. }
  rewrite (bind_ok _ _ _ _ _ E1), switch_in_bind.
  destruct (a_rq a ++ [a_cur a]) as [|x rq] eqn:Eq; [by destruct (a_rq a)|].
  destruct (switch_in_spec _ _ _ _ Hidle) as (s2 & E2 & Hc2 & Hf2 & Er & Ek & El & Et & _).
  rewrite (bind_ok _ _ _ _ _ E2), (a_yield_eq _ _ _ Eq).
  assert (sched_frame s s2) as HFr.
  { transitivity s0; [by apply sched_frame_same|].
    transitivity (upd_tcb (a_cur a) (set_state TSTATE_READY) s0); [by apply sched_frame_upd|].
    transitivity s1; [by eapply sched_frame_queue|done]. }
  pose proof (sc_cur_range _ _ Hc2) as Hx. cbn in Hx.
  assert (regs s2 = regs s) as Er' by (rewrite Er; by rewrite (qf_regs _ _ _ HF)).
  assert (kctx_pool s2 = kctx_pool s) as Ek' by (rewrite Ek; by rewrite (qf_kctx _ _ _ HF)).
  assert (sched_ticks s2 = sched_ticks s) as Et' by (rewrite Et; by rewrite (qf_ticks _ _ _ HF)).
  case_decide as Hne.
  - rewrite (bind_ok _ _ _ _ _ (release_sched_lk_ok s2)), kctx_switch_ok by done.
    eexists. split; [reflexivity|]. split_and!; [| | |done].
    + split; [|done]. by apply sched_core_cswitch, sched_core_lk.
    + transitivity s2; [done|]. by apply sched_frame_same.
    + by apply switched_cswitch.
  - eexists. split; [reflexivity|]. split_and!; [| | |done].
    + split; [|done]. by apply sched_core_lk.
    + transitivity s2; [done|]. by apply sched_frame_same.
    + unfold switched. rewrite decide_True by (cbn; tauto). done.
Qed.

(** The timer tick: count, and yield once the slice is used up. *)
Lemma sched_ticks_read_ok c s :
  cpu_ok s -> this_cpu s = c -> sched_ticks_read s = Ok (sched_ticks s !!! c, s).
Proof.
  intros Hc <-. unfold sched_ticks_read. rewrite (bind_ok _ _ _ _ _ (cur_pcpu_idx_ok s Hc)).
  destruct Hc. by mrun.
Qed.

Lemma sched_ticks_write_ok c v s :
  cpu_ok s -> this_cpu s = c ->
  sched_ticks_write v s = Ok (tt, with_sched_ticks (fun m => <[c := v]> m) s).
Proof.
  intros Hc <-. unfold sched_ticks_write. rewrite (bind_ok _ _ _ _ _ (cur_pcpu_idx_ok s Hc)).
  destruct Hc. by mrun.
Qed.

Definition cpu_ticks (s : thr) : Z := sched_ticks s !!! this_cpu s.

Lemma sched_update_sim s a :
  sched_abs s a -> 0 <= cpu_ticks s < W32 - 1 ->
  exists s', sched_update s = Ok (tt, s') /\ sched_frame s s'
    /\ (if decide (cpu_ticks s >= SCHED_SLICE)
        then sched_abs s' (a_yield a) /\ cpu_ticks s' = 0
             /\ switched (a_cur a) (a_cur (a_yield a)) s s'
        else sched_abs s' a /\ cpu_ticks s' = cpu_ticks s + 1
             /\ switched (a_cur a) (a_cur a) s s').
Proof.
  intros [Ha Hlk] Ht. pose proof Ha as [Hcpu _ _ _ _ _ _].
  unfold sched_update. rewrite (bind_ok _ _ _ _ _ (acquire_sched_lk_ok s Hcpu Hlk)).
  set (s0 := set_sched_lk _ s). assert (cpu_ok s0) as Hcpu0 by solve_cpu.
  rewrite (bind_ok _ _ _ _ _ (sched_ticks_read_ok (this_cpu s) s0 Hcpu0 eq_refl)).
  change (sched_ticks s0 !!! this_cpu s) with (cpu_ticks s).
  change (1000 / LAPIC_TIMER_INTR_FREQ) with 1. rewrite u32_id by lia.
  rewrite (bind_ok _ _ _ _ _ (sched_ticks_write_ok (this_cpu s) _ s0 Hcpu0 eq_refl)).
  set (s1 := with_sched_ticks _ s0). assert (cpu_ok s1) as Hcpu1 by solve_cpu.
  rewrite (bind_ok _ _ _ _ _ (sched_ticks_read_ok (this_cpu s) s1 Hcpu1 eq_refl)).
  replace (sched_ticks s1 !!! this_cpu s) with (cpu_ticks s + 1)
    by (cbn; by rewrite lookup_total_insert_eq).
  destruct (decide (cpu_ticks s >= SCHED_SLICE)) as [Hge|Hlt].
  - rewrite decide_True by (unfold SCHED_SLICE in *; lia).
    rewrite (bind_ok _ _ _ _ _ (sched_ticks_write_ok (this_cpu s) _ s1 Hcpu1 eq_refl)).
    set (s2 := with_sched_ticks _ s1).
    rewrite (bind_ok _ _ _ _ _ (release_sched_lk_ok s2)).
    destruct (thread_yield_sim (set_sched_lk free_lock s2) a)
      as (s' & E & Ha' & Hf & Hsw & Etk).
    { split; [|done]. by apply sched_core_lk, sched_core_ticks, sched_core_ticks, sched_core_lk. }
    exists s'. split_and!; [done|..].
    + transitivity (set_sched_lk free_lock s2); [|done]. by apply sched_frame_same.
    + apply Ha'.
    + unfold cpu_ticks. rewrite Etk.
      replace (this_cpu s') with (this_cpu s)
        by (unfold this_cpu; by rewrite (sf_pcpus _ _ Hf), (sf_kstack _ _ Hf)).
      cbn. by rewrite lookup_total_insert_eq.
    + done.
  - rewrite decide_False by (unfold SCHED_SLICE in *; lia). eexists.
    split; [apply release_sched_lk_ok|]. split_and!.
    + by apply sched_frame_same.
    + split; [|done]. by apply sched_core_lk, sched_core_ticks, sched_core_lk.
    + unfold cpu_ticks. cbn. by rewrite lookup_total_insert_eq.
    + unfold switched. by rewrite decide_True.
Qed.

(** ** Exit and sleep *)

Lemma thread_exit_sim s x rq ch :
  sched_idle s (x :: rq) ch -> lock (sched_lk s) = 0 ->
  0 <= CURID s !!! this_cpu s < NUM_IDS -> CURID s !!! this_cpu s ∉ x :: rq ->
  exists s', thread_exit s = Ok (tt, s') /\ sched_abs s' (a_run x rq ch) /\ sched_frame s s'
    /\ switched (CURID s !!! this_cpu s) x s s'
    /\ (forall y, y <> x -> tcb_state (TCBPool s' !!! y) = tcb_state (TCBPool s !!! y)).
Proof.
  intros Hi Hlk Hc Hcr. pose proof (sd_cpu _ _ _ Hi) as Hcpu.
  assert (x <> NUM_IDS) as Hx64.
  { pose proof (qr_range _ _ _ (sd_rq _ _ _ Hi) x ltac:(by left)). unfold NUM_IDS in *. lia. }
  unfold thread_exit. rewrite (bind_ok _ _ _ _ _ (acquire_sched_lk_ok s Hcpu Hlk)).
  set (s0 := set_sched_lk _ s). assert (cpu_ok s0) as Hcpu0 by solve_cpu. tstep.
  change (CURID s0 !!! this_cpu s0) with (CURID s !!! this_cpu s).
  set (old := CURID s !!! this_cpu s) in *.
  assert (sched_idle s0 (x :: rq) ch) as Hi0.
  { destruct Hi as [? HR ? ?]. split; try done. by apply (queue_repr_same s). }
  destruct (switch_in_spec _ _ _ _ Hi0) as (s2 & E2 & Hc2 & Hf2 & Er & Ek & El & Et & Hst).
  pose proof (sc_cur_range _ _ Hc2) as Hx. cbn in Hx.
  assert (old <> x) as Hne by (intros ->; apply Hcr; by left).
  pose proof (bind_inv _ _ _ _ _ E2) as (n & s1 & Ed & Es).
  destruct (tqueue_dequeue_spec NUM_IDS s0 Hcpu0 ltac:(unfold NUM_IDS; lia) x rq
              (sd_rq _ _ _ Hi0)) as (s1' & Ed' & _).
  assert (n = x) as -> by congruence.
  rewrite (bind_ok _ _ _ _ _ Ed), decide_False by done.
  assert ((tcb_set_state x TSTATE_RUN ;; set_curid x ;;
           release_sched_lk ;; kctx_switch old x) s1
          = (release_sched_lk ;; kctx_switch old x) s2) as Erest.
  { apply bind_inv in Es as ([] & s3 & E3 & Es). apply bind_inv in Es as ([] & s4 & E4 & Es).
    rewrite (bind_ok _ _ _ _ _ E3), (bind_ok _ _ _ _ _ E4). by injection Es as ->. }
  exists (cswitch old x (set_sched_lk free_lock s2)). split_and!.
  - transitivity ((release_sched_lk ;; kctx_switch old x) s2); [exact Erest|].
    rewrite (bind_ok _ _ _ _ _ (release_sched_lk_ok s2)). by apply kctx_switch_ok.
  - split; [|done]. by apply sched_core_cswitch, sched_core_lk.
  - transitivity s0; [by apply sched_frame_same|]. transitivity s2; [done|].
    by apply sched_frame_same.
  - by apply switched_cswitch.
  - intros y Hy. rewrite TCBPool_cswitch, TCBPool_set_sched_lk. by apply Hst.
Qed.

(** With no other thread ready, exit panics. *)
Lemma thread_exit_empty s :
  cpu_ok s -> lock (sched_lk s) = 0 -> queue_repr s NUM_IDS [] ->
  thread_exit s = Panic "thread_exit: no threads to switch to!".
Proof.
  intros Hcpu Hlk HR. unfold thread_exit.
  rewrite (bind_ok _ _ _ _ _ (acquire_sched_lk_ok s Hcpu Hlk)).
  set (s0 := set_sched_lk _ s). assert (cpu_ok s0) as Hcpu0 by solve_cpu. tstep.
  erewrite bind_ok.
  2:{ apply tqueue_dequeue_nil; [done|unfold NUM_IDS; lia|by apply (queue_repr_same s)]. }
  by rewrite decide_True.
Qed.

Lemma upd_tcb_upd_tcb p f g s :
  upd_tcb p g (upd_tcb p f s) = upd_tcb p (fun t => g (f t)) s.
Proof.
  unfold upd_tcb, with_TCBPool. cbn. f_equal.
  by rewrite lookup_total_insert_eq, insert_insert_eq.
Qed.

Lemma on_lock_release lk s : on_lock spinlock_release lk s = Ok (free_lock, s).
Proof. done. Qed.

Lemma chan_of_sleep c t : chan_of (set_chan c (set_state TSTATE_SLEEP t)) = Some c.
Proof. done. Qed.

(** The control block of the running thread is marked asleep. *)
Lemma sleep_idle s a l ch :
  sched_core s a ->
  sched_idle (upd_tcb (a_cur a) (fun t => set_chan ch (set_state TSTATE_SLEEP t))
                (set_sched_lk l s)) (a_rq a)
             (fun y => if decide (y = a_cur a) then Some ch else a_chan a y).
Proof.
  intros Ha. pose proof (sched_core_cur_rq _ _ Ha) as Hcr.
  destruct Ha as [Hcpu Hcur Hr HR Hrun Hrd Hch]. split.
  - solve_cpu.
  - apply queue_repr_upd; [done|]. by apply (queue_repr_same s).
  - intros y Hy. rewrite TCBPool_upd_tcb, decide_False by congruence. by apply Hrd.
  - intros y. rewrite TCBPool_upd_tcb. destruct (decide (y = a_cur a)) as [->|Hy].
    + by rewrite decide_True, chan_of_sleep.
    + rewrite decide_False by congruence. apply Hch.
Qed.

Lemma thread_sleep_enter_sim s a ch lk a' :
  sched_abs s a -> a_sleep ch a = Some a' ->
  exists s', thread_sleep_enter ch (Some lk) s = Ok (free_lock, s')
    /\ sched_abs s' a' /\ sched_frame s s'
    /\ switched (a_cur a) (a_cur a') s s'.
Proof.
  intros [Ha Hlk] Es. pose proof (sched_core_cur_rq _ _ Ha) as Hcr.
  pose proof Ha as [Hcpu Hcur Hr HR Hrun Hrd Hch].
  unfold a_sleep in Es. destruct (a_rq a) as [|x rq] eqn:Eq; [done|]. injection Es as <-.
  unfold thread_sleep_enter. tstep. rewrite Hcur.
  rewrite (bind_ok _ _ _ _ _ (acquire_sched_lk_ok s Hcpu Hlk)).
  set (s0 := set_sched_lk _ s). assert (cpu_ok s0) as Hcpu0 by solve_cpu.
  rewrite (bind_ok _ _ _ _ _ (on_lock_release lk s0)). do 2 tstep.
  rewrite upd_tcb_upd_tcb, switch_in_bind.
  pose proof (sleep_idle s a (held_lock (cur_kstack s)) ch Ha) as Hidle. rewrite Eq in Hidle.
  destruct (switch_in_spec _ _ _ _ Hidle) as (s2 & E2 & Hc2 & Hf2 & Er & Ek & El & Et & _).
  unfold s0. rewrite (bind_ok _ _ _ _ _ E2).
  pose proof (sc_cur_range _ _ Hc2) as Hx. cbn in Hx.
  assert (a_cur a <> x) as Hne by (intros Ex; apply Hcr; rewrite Ex; by left).
  rewrite (bind_ok _ _ _ _ _ (release_sched_lk_ok s2)).
  rewrite (bind_ok _ _ _ _ _ (kctx_switch_ok (a_cur a) x _ Hr Hx)).
  eexists. split; [reflexivity|]. split_and!.
  - split; [|done]. by apply sched_core_cswitch, sched_core_lk.
  - transitivity s0; [by apply sched_frame_same|].
    etransitivity; [by apply (sched_frame_upd (a_cur a)
                               (fun t => set_chan ch (set_state TSTATE_SLEEP t)))|].
    transitivity s2; [done|]. by apply sched_frame_same.
  - by apply switched_cswitch.
Qed.

(** The comment "here we assume a new ready process always exists" is needed:
    with an empty ready queue [TCBPool[NUM_IDS]] is written. *)
Lemma thread_sleep_enter_empty s a ch lk :
  sched_abs s a -> a_rq a = [] -> thread_sleep_enter ch (Some lk) s = Undef OutOfBounds.
Proof.
  intros [Ha Hlk] Eq. pose proof Ha as [Hcpu Hcur Hr HR Hrun Hrd Hch].
  unfold thread_sleep_enter. tstep. rewrite Hcur.
  rewrite (bind_ok _ _ _ _ _ (acquire_sched_lk_ok s Hcpu Hlk)).
  set (s0 := set_sched_lk _ s). assert (cpu_ok s0) as Hcpu0 by solve_cpu.
  rewrite (bind_ok _ _ _ _ _ (on_lock_release lk s0)). do 2 tstep. rewrite upd_tcb_upd_tcb.
  pose proof (sleep_idle s a (held_lock (cur_kstack s)) ch Ha) as [Hc1 HR1 _ _].
  rewrite Eq in HR1.
  erewrite bind_ok by (apply tqueue_dequeue_nil; [exact Hc1|unfold NUM_IDS; lia|exact HR1]).
  done.
Qed.

Lemma thread_sleep_enter_null s a ch :
  sched_abs s a -> thread_sleep_enter ch None s = Panic "sleep without lock".
Proof. intros [[Hcpu _ _ _ _ _ _] _]. unfold thread_sleep_enter. by tstep. Qed.

(** When the thread runs again it reacquires its lock. *)
Lemma thread_sleep_resume_sim s a lk :
  sched_abs s a -> lock lk = 0 ->
  exists s', thread_sleep_resume (a_cur a) lk s = Ok (held_lock (cur_kstack s), s')
    /\ sched_abs s' a /\ sched_frame s s' /\ regs s' = regs s /\ kctx_pool s' = kctx_pool s.
Proof.
  intros [Ha Hlk] Hl. pose proof (sched_core_cur_rq _ _ Ha) as Hcr.
  pose proof Ha as [Hcpu Hcur Hr HR Hrun Hrd Hch].
  unfold thread_sleep_resume. rewrite (bind_ok _ _ _ _ _ (acquire_sched_lk_ok s Hcpu Hlk)).
  set (s0 := set_sched_lk _ s). assert (cpu_ok s0) as Hcpu0 by solve_cpu. tstep.
  set (s1 := upd_tcb _ _ s0). rewrite (bind_ok _ _ _ _ _ (release_sched_lk_ok s1)).
  set (s2 := set_sched_lk free_lock s1).
  exists s2. split_and!; [|split; [|done]|..]; try done.
  - unfold get, mbind, M_bind, on_lock. by rewrite spinlock_acquire_free by (done || apply Hcpu).
  - apply sched_core_lk. split; try done.
    + solve_cpu.
    + apply queue_repr_upd; [done|]. by apply (queue_repr_same s).
    + unfold s1. look. by dtest.
    + intros y Hy. assert (a_cur a <> y) by congruence. unfold s1. look. dtest. by apply Hrd.
    + intros y. unfold s1. rewrite TCBPool_upd_tcb, Hch.
      destruct (decide (a_cur a = y)) as [<-|_]; [|done].
      unfold chan_of. cbn [set_chan tcb_state].
      change (TCBPool s0) with (TCBPool s). by rewrite Hrun.
  - etransitivity; [|by apply (sched_frame_same s1)].
    etransitivity; [by apply (sched_frame_same s s0)|]. by apply sched_frame_upd.
Qed.

(** ** Wakeup *)

(** The abstract effect of the loop on the indices [d]. *)
Definition woken (ch : ptr) (a : asched) (d : list Z) : list Z :=
  filter (fun y => a_chan a y = Some ch) d.

Definition a_wakeup_on (ch : ptr) (a : asched) (d : list Z) : asched :=
  {| a_cur := a_cur a; a_rq := a_rq a ++ woken ch a d;
     a_chan := fun y => if decide (y ∈ woken ch a d) then None else a_chan a y |}.

Lemma chan_of_Some t ch :
  chan_of t = Some ch <-> tcb_channel t = ch /\ tcb_state t = TSTATE_SLEEP.
Proof. unfold chan_of. case_decide; naive_solver. Qed.

Lemma woken_snoc ch a d x :
  woken ch a (d ++ [x]) = woken ch a d ++ (if decide (a_chan a x = Some ch) then [x] else []).
Proof. unfold woken. by rewrite filter_app. Qed.

Lemma elem_of_woken ch a d y : y ∈ woken ch a d <-> a_chan a y = Some ch /\ y ∈ d.
Proof. unfold woken. by rewrite list_elem_of_filter. Qed.

Lemma thread_wakeup_body_sim ch a d x s :
  sched_core s (a_wakeup_on ch a d) -> x ∉ d -> 0 <= x < NUM_IDS ->
  exists s', thread_wakeup_body ch x s = Ok (tt, s')
    /\ sched_core s' (a_wakeup_on ch a (d ++ [x])) /\ sched_frame s s'
    /\ regs s' = regs s /\ kctx_pool s' = kctx_pool s.
Proof.
  intros Ha Hxd Hx. pose proof Ha as [Hcpu Hcur Hr HR Hrun Hrd Hch]. cbn in Hcur, Hr, Hrun.
  assert (chan_of (TCBPool s !!! x) = a_chan a x) as Ex.
  { rewrite <-Hch. cbn. rewrite decide_False; [done|]. rewrite elem_of_woken. tauto. }
  assert (a_rq (a_wakeup_on ch a (d ++ [x])) =
          a_rq (a_wakeup_on ch a d) ++ (if decide (a_chan a x = Some ch) then [x] else [])) as Erq.
  { cbn. by rewrite woken_snoc, app_assoc. }
  unfold thread_wakeup_body. do 2 tstep.
  match goal with |- context [decide (?p /\ ?q)] => destruct (decide (p /\ q)) as [Hs|Hs] end.
  - rewrite <-chan_of_Some, Ex in Hs. rewrite decide_True in Erq by done.
    assert (tcb_state (TCBPool s !!! x) = TSTATE_SLEEP) as Esl.
    { apply (chan_of_Some _ ch). congruence. }
    do 2 tstep. rewrite upd_tcb_upd_tcb.
    edestruct (enqueue_ready s x (a_rq (a_wakeup_on ch a d))
                (a_chan (a_wakeup_on ch a (d ++ [x])))
                (fun t => set_chan PNull (set_state TSTATE_READY t)))
      as (s' & E & [Hc' HR' Hrd' Hch'] & HF); try done.
    { intros Hin. specialize (Hrd _ Hin). congruence. }
    { intros y Hy. rewrite <-Hch. cbn. apply decide_ext.
      rewrite !elem_of_woken, elem_of_app, list_elem_of_singleton. tauto. }
    { cbn. rewrite decide_True; [done|]. rewrite elem_of_woken. set_solver. }
    exists s'. split; [done|]. split_and!; try by apply HF.
    + split; try done.
      * rewrite (queue_frame_this_cpu _ _ _ HF). rewrite (qf_curid _ _ _ HF). done.
      * by rewrite Erq.
      * cbn. rewrite (unlink_state _ _ (qf_tcb _ _ _ HF _)), TCBPool_upd_tcb.
        rewrite decide_False by congruence. done.
      * rewrite Erq. done.
    + etransitivity; [|by eapply sched_frame_queue]. by apply sched_frame_upd.
  - rewrite <-chan_of_Some, Ex in Hs. rewrite decide_False in Erq by done.
    rewrite app_nil_r in Erq.
    exists s. split_and!; try done. split; try done.
    + by rewrite Erq.
    + by rewrite Erq.
    + intros y. rewrite <-Hch. cbn. apply decide_ext.
      rewrite !elem_of_woken, elem_of_app, list_elem_of_singleton. naive_solver.
Qed.

Lemma a_wakeup_eq ch a : a_wakeup ch a = a_wakeup_on ch a (seqZ 1 (NUM_IDS - 1)).
Proof. done. Qed.

Lemma thread_wakeup_sim s a ch :
  sched_abs s a ->
  exists s', thread_wakeup ch s = Ok (tt, s') /\ sched_abs s' (a_wakeup ch a)
    /\ sched_frame s s' /\ regs s' = regs s /\ kctx_pool s' = kctx_pool s.
Proof.
  intros [Ha Hlk]. pose proof (sc_cpu _ _ Ha) as Hcpu. unfold thread_wakeup.
  rewrite (bind_ok _ _ _ _ _ (acquire_sched_lk_ok s Hcpu Hlk)).
  set (s0 := set_sched_lk _ s).
  destruct (for_each_ind (fun d s' => sched_core s' (a_wakeup_on ch a d) /\ sched_frame s s'
              /\ regs s' = regs s /\ kctx_pool s' = kctx_pool s)
              (thread_wakeup_body ch) (seqZ 1 (NUM_IDS - 1))) with (s := s0)
    as (s1 & E1 & Ha1 & Hf1 & Er & Ek).
  - intros d x r s2 Hl (Ha2 & Hf2 & Er2 & Ek2).
    assert (0 <= x < NUM_IDS) as Hx.
    { assert (x ∈ seqZ 1 (NUM_IDS - 1)) as Hin%elem_of_seqZ by (rewrite Hl; set_solver).
      unfold NUM_IDS in *. lia. }
    assert (x ∉ d) as Hxd.
    { pose proof (NoDup_seqZ 1 (NUM_IDS - 1)) as Hnd. rewrite Hl in Hnd.
      apply NoDup_app in Hnd as (_ & Hdis & _). intros Hin. apply (Hdis _ Hin). by left. }
    destruct (thread_wakeup_body_sim ch a d x s2 Ha2 Hxd Hx) as (s3 & E3 & Ha3 & Hf3 & ? & ?).
    exists s3. split_and!; [done|done|by transitivity s2|congruence|congruence].
  - split_and!; try done.
    apply sched_core_lk. destruct Ha as [? ? ? HR ? ? ?].
    split; try done; cbn; by rewrite app_nil_r.
  - rewrite (bind_ok _ _ _ _ _ E1), a_wakeup_eq.
    exists (set_sched_lk free_lock s1). split_and!; try done.
    + split; [|done]. by apply sched_core_lk.
    + transitivity s1; [done|]. by apply sched_frame_same.
Qed.

(** ** Spawn *)

Lemma kctx_new_ok alloc_mem_quota kstack_base entry id quota p s :
  alloc_mem_quota id quota s = Ok (p, s) -> 0 <= p < NUM_IDS ->
  kctx_new alloc_mem_quota kstack_base entry id quota s =
    Ok (p, with_kctx (fun m =>
             let m1 := <[p := set_kctx_esp (proc_kstack_hi kstack_base p) (m !!! p)]> m in
             <[p := set_kctx_eip entry (m1 !!! p)]> m1) Datatypes.id s).
Proof.
  intros Ha Hp. unfold kctx_new, kctx_set_esp, kctx_set_eip.
  rewrite (bind_ok _ _ _ _ _ Ha). by mrun.
Qed.

(** [alloc_mem_quota] returns the id of a fresh child and leaves the thread
    tables alone. *)
Lemma thread_spawn_sim alloc_mem_quota kstack_base entry id quota s a p :
  sched_abs s a ->
  (forall l, alloc_mem_quota id quota (set_sched_lk l s) = Ok (p, set_sched_lk l s)) ->
  0 <= p < NUM_IDS -> p ∉ a_rq a -> p <> a_cur a ->
  exists s', thread_spawn alloc_mem_quota kstack_base entry id quota s = Ok (p, s')
    /\ sched_abs s' (a_spawn p a) /\ sched_frame s s' /\ regs s' = regs s
    /\ kc_eip (kctx_pool s' !!! p) = entry
    /\ kc_esp (kctx_pool s' !!! p) = proc_kstack_hi kstack_base p
    /\ (forall y, y <> p -> kctx_pool s' !!! y = kctx_pool s !!! y).
Proof.
  intros [Ha Hlk] Halloc Hp Hpr Hpc. pose proof Ha as [Hcpu Hcur Hr HR Hrun Hrd Hch].
  unfold thread_spawn. rewrite (bind_ok _ _ _ _ _ (acquire_sched_lk_ok s Hcpu Hlk)).
  rewrite (bind_ok _ _ _ _ _ (kctx_new_ok _ _ _ _ _ _ _ (Halloc _) Hp)).
  match goal with |- context [(tcb_set_state p _ ≫= _) ?x] => set (s0 := x) end.
  assert (cpu_ok s0) as Hcpu0 by solve_cpu.
  tstep.
  destruct (enqueue_ready s0 p (a_rq a) (a_chan (a_spawn p a)) (set_state TSTATE_READY))
    as (s1 & E1 & [Hc1 HR1 Hrd1 Hch1] & HF); try done.
  { by apply (queue_repr_same s). }
  { intros x Hx. cbn. rewrite decide_False by done. apply Hch. }
  { cbn. by rewrite decide_True. }
  rewrite (bind_ok _ _ _ _ _ E1), (bind_ok _ _ _ _ _ (release_sched_lk_ok s1)).
  assert (kctx_pool s1 = kctx_pool s0) as Ek by (by rewrite (qf_kctx _ _ _ HF)).
  eexists. split; [reflexivity|]. split_and!.
  - split; [|done]. apply sched_core_lk. split; try done.
    + rewrite (queue_frame_this_cpu _ _ _ HF), (qf_curid _ _ _ HF). done.
    + cbn. rewrite (unlink_state _ _ (qf_tcb _ _ _ HF _)), TCBPool_upd_tcb.
      by rewrite decide_False.
  - transitivity (upd_tcb p (set_state TSTATE_READY) s0);
      [transitivity s0; [by apply sched_frame_same|by apply sched_frame_upd]|].
    transitivity s1; [by eapply sched_frame_queue|by apply sched_frame_same].
  - cbn. by rewrite (qf_regs _ _ _ HF).
  - cbn. rewrite Ek. cbn. by rewrite !lookup_total_insert_eq.
  - cbn. rewrite Ek. cbn. by rewrite !lookup_total_insert_eq.
  - intros y Hy. cbn. rewrite Ek. cbn. by rewrite !lookup_total_insert_ne.
Qed.

(** ** Fairness of the FIFO *)

Fixpoint n_yields (n : nat) : M thr unit :=
  match n with O => mret tt | S n => thread_yield ;; n_yields n end.

Lemma a_yield_iter n a :
  (n < length (a_rq a))%nat ->
  a_rq (Nat.iter (S n) a_yield a) =
    drop (S n) (a_rq a) ++ a_cur a :: take n (a_rq a)
  /\ a_rq a !! n = Some (a_cur (Nat.iter (S n) a_yield a)).
Proof.
  induction n as [|n IH]; intros Hn.
  - cbn. unfold a_yield. destruct (a_rq a) as [|x rq]; [simpl in Hn; lia|].
    split; [by destruct rq|done].
  - destruct IH as [IH1 IH2]; [lia|]. rewrite Nat.iter_succ.
    remember (Nat.iter (S n) a_yield a) as b eqn:Eb.
    destruct (a_rq a !! S n) as [x|] eqn:Ex; [|apply lookup_ge_None in Ex; lia].
    rewrite (drop_S _ x) in IH1 by done.
    unfold a_yield. rewrite IH1. cbn [app a_run a_rq a_cur].
    split; [|done]. rewrite <-app_assoc. cbn. do 2 f_equal.
    by rewrite (take_S_r _ _ (a_cur b)).
Qed.

(** ** What the scheduler promises to its clients

    sync/waitobj.c, lib/ipc.c and the file system call [thread_sleep] and
    [thread_wakeup]; the trap code yields.  [SchedOps] is that interface, [SchedLaws] its
    contract in terms of the abstract scheduler. *)
Class SchedOps (T : Type) := {
  so_kstack : T -> kstack;
  so_get_curid : M T Z;
  so_yield : M T unit;
  so_wakeup : ptr -> M T unit;
  so_sleep : ptr -> option spinlock -> M T spinlock;
  so_resume : Z -> spinlock -> M T spinlock;
}.

Class SchedLaws (T : Type) `{SchedOps T} := {
  so_rel : T -> asched -> Prop;
  so_magic s a : so_rel s a -> ks_magic (so_kstack s) = KSTACK_MAGIC;
  so_cur_rq s a : so_rel s a -> a_cur a ∉ a_rq a;
  so_rq_nodup s a : so_rel s a -> NoDup (a_rq a);
  so_awake s a x : so_rel s a -> x = a_cur a \/ x ∈ a_rq a -> a_chan a x = None;
  so_curid_law s a : so_rel s a -> so_get_curid s = Ok (a_cur a, s);
  so_yield_law s a : so_rel s a ->
    exists s', so_yield s = Ok (tt, s') /\ so_rel s' (a_yield a)
               /\ so_kstack s' = so_kstack s;
  so_wakeup_law ch s a : so_rel s a ->
    exists s', so_wakeup ch s = Ok (tt, s') /\ so_rel s' (a_wakeup ch a)
               /\ so_kstack s' = so_kstack s;
  so_sleep_law ch lk s a a' : so_rel s a -> a_sleep ch a = Some a' ->
    exists s', so_sleep ch (Some lk) s = Ok (free_lock, s') /\ so_rel s' a'
               /\ so_kstack s' = so_kstack s;
  so_sleep_empty ch lk s a : so_rel s a -> a_sleep ch a = None ->
    so_sleep ch (Some lk) s = Undef OutOfBounds;
  so_resume_law lk s a : so_rel s a -> lock lk = 0 ->
    exists s', so_resume (a_cur a) lk s = Ok (held_lock (so_kstack s), s')
               /\ so_rel s' a /\ so_kstack s' = so_kstack s;
}.

#[export] Instance thr_sched_ops : SchedOps thr := {
  so_kstack := cur_kstack;
  so_get_curid := get_curid;
  so_yield := thread_yield;
  so_wakeup := thread_wakeup;
  so_sleep := thread_sleep_enter;
  so_resume := thread_sleep_resume;
}.

Lemma sched_abs_awake s a x :
  sched_abs s a -> x = a_cur a \/ x ∈ a_rq a -> a_chan a x = None.
Proof.
  intros [[_ _ _ _ Hrun Hrd Hch] _] Hx. rewrite Hch. unfold chan_of.
  destruct Hx as [->|Hx]; [by rewrite Hrun|by rewrite Hrd].
Qed.

Lemma get_curid_abs s a : sched_abs s a -> get_curid s = Ok (a_cur a, s).
Proof. intros [[Hcpu Hcur _ _ _ _ _] _]. rewrite <-Hcur. by apply get_curid_ok. Qed.

#[export] Instance thr_sched_laws : SchedLaws thr.
Proof.
  refine {| so_rel := sched_abs |}.
  - intros s a [[[] ] _]. done.
  - intros s a [Ha _]. by apply (sched_core_cur_rq s).
  - intros s a [[_ _ _ [[] ?] _ _ _] _]. done.
  - intros s a x. apply sched_abs_awake.
  - apply get_curid_abs.
  - intros s a Ha. destruct (thread_yield_sim s a Ha) as (s' & ? & ? & Hf & _).
    exists s'. split_and!; [done..|]. apply Hf.
  - intros ch s a Ha. destruct (thread_wakeup_sim s a ch Ha) as (s' & ? & ? & Hf & _).
    exists s'. split_and!; [done..|]. apply Hf.
  - intros ch lk s a a' Ha Es.
    destruct (thread_sleep_enter_sim s a ch lk a' Ha Es) as (s' & ? & ? & Hf & _).
    exists s'. split_and!; [done..|]. apply Hf.
  - intros ch lk s a Ha Es. apply (thread_sleep_enter_empty s a ch lk Ha).
    unfold a_sleep in Es. by destruct (a_rq a).
  - intros lk s a Ha Hl. destruct (thread_sleep_resume_sim s a lk Ha Hl) as (s' & ? & ? & Hf & _).
    exists s'. split_and!; [done..|]. apply Hf.
Defined.

(** ** The tick counter

    Only [sched_update] changes it. *)
Definition keeps_ticks {A} (m : M thr A) : Prop :=
  forall s x s', m s = Ok (x, s') -> sched_ticks s' = sched_ticks s.

Create HintDb ticks.
Lemma kt_ret {A} (x : A) : keeps_ticks (mret x).
Proof. by intros s y s' [= _ <-]. Qed.
Lemma kt_bind {A B} (m : M thr A) (f : A -> M thr B) :
  keeps_ticks m -> (forall x, keeps_ticks (f x)) -> keeps_ticks (m ≫= f).
Proof.
  intros Hm Hf s y s' (x & s1 & E1 & E2)%bind_inv. rewrite (Hf _ _ _ _ E2). by eapply Hm.
Qed.
Lemma kt_if {A} P `{!Decision P} (m1 m2 : M thr A) :
  keeps_ticks m1 -> keeps_ticks m2 -> keeps_ticks (if decide P then m1 else m2).
Proof. by case_decide. Qed.
Lemma kt_gets {A} (f : thr -> A) : keeps_ticks (gets f).
Proof. by intros s y s' [= _ <-]. Qed.
Lemma kt_get : keeps_ticks get.
Proof. by intros s y s' [= _ <-]. Qed.
Lemma kt_panic {A} msg : keeps_ticks (A := A) (panic msg).
Proof. by intros s y s'. Qed.
Lemma kt_check n i : keeps_ticks (check_index n i).
Proof. intros s y s'. unfold check_index. case_decide; [|done]. by intros [= _ <-]. Qed.
Lemma kt_cpu : keeps_ticks cur_pcpu_idx.
Proof. intros s y s'. unfold cur_pcpu_idx. destruct (get_pcpu_idx _ _) as [[]| | | |]; try done. by intros [= _ <-]. Qed.
Lemma kt_lk (m : M spinlock unit) : keeps_ticks (zoom sched_lk set_sched_lk m).
Proof. intros s y s'. unfold zoom. destruct (m _) as [[]| | | |]; try done. by intros [= _ <-]. Qed.
Lemma kt_on_lock (m : M spinlock unit) lk : keeps_ticks (on_lock m lk).
Proof. intros s y s'. unfold on_lock. destruct (m _) as [[]| | | |]; try done. by intros [= _ <-]. Qed.
Lemma kt_upd pid f : keeps_ticks (modify (upd_tcb pid f)).
Proof. by intros s y s' [= _ <-]. Qed.
Lemma kt_curid f : keeps_ticks (modify (with_CURID f)).
Proof. by intros s y s' [= _ <-]. Qed.
Lemma kt_queue f : keeps_ticks (modify (with_TQueuePool f)).
Proof. by intros s y s' [= _ <-]. Qed.
Lemma kt_kctx f g : keeps_ticks (modify (with_kctx f g)).
Proof. by intros s y s' [= _ <-]. Qed.
Lemma kt_switch p q : keeps_ticks (modify (cswitch p q)).
Proof. by intros s y s' [= _ <-]. Qed.
Lemma kt_for_each {A} (l : list A) body : (forall x, keeps_ticks (body x)) -> keeps_ticks (for_each l body).
Proof. intros H. induction l as [|x l IH]; cbn [for_each]; [apply kt_ret|by apply kt_bind]. Qed.
#[export] Hint Resolve kt_ret kt_bind kt_if kt_gets kt_get kt_panic kt_check kt_cpu kt_lk kt_on_lock kt_upd kt_curid kt_queue
  kt_kctx kt_switch kt_for_each : ticks.

Lemma kt_enqueue chid p : keeps_ticks (tqueue_enqueue chid p).
Proof. unfold tqueue_enqueue, tqueue_get_tail, tqueue_set_head, tqueue_set_tail, tcb_set_prev, tcb_set_next, tcb_write, tq_read, tq_write. eauto 40 with ticks. Qed.
Lemma kt_dequeue chid : keeps_ticks (tqueue_dequeue chid).
Proof.
  unfold tqueue_dequeue, tqueue_get_head, tqueue_set_head, tqueue_set_tail, tcb_get_next, tcb_set_prev, tcb_set_next, tcb_read, tcb_write,
    tq_read, tq_write. eauto 40 with ticks.
Qed.
Lemma kt_set_state p st : keeps_ticks (tcb_set_state p st).
Proof. unfold tcb_set_state, tcb_write. auto with ticks. Qed.
Lemma kt_set_chan p ch : keeps_ticks (tcb_set_chan p ch).
Proof. unfold tcb_set_chan, tcb_write. auto with ticks. Qed.
Lemma kt_get_curid : keeps_ticks get_curid.
Proof. unfold get_curid. auto with ticks. Qed.
Lemma kt_set_curid p : keeps_ticks (set_curid p).
Proof. unfold set_curid. auto with ticks. Qed.
Lemma kt_kctx_switch p q : keeps_ticks (kctx_switch p q).
Proof. unfold kctx_switch. auto with ticks. Qed.
#[export] Hint Resolve kt_enqueue kt_dequeue kt_set_state kt_set_chan kt_get_curid kt_set_curid kt_kctx_switch : ticks.

Lemma kt_exit : keeps_ticks thread_exit.
Proof. unfold thread_exit, acquire_sched_lk, release_sched_lk. eauto 20 with ticks. Qed.
Lemma kt_sleep ch lk : keeps_ticks (thread_sleep_enter ch lk).
Proof. unfold thread_sleep_enter, acquire_sched_lk, release_sched_lk. destruct lk; eauto 30 with ticks. Qed.
Lemma kt_resume p lk : keeps_ticks (thread_sleep_resume p lk).
Proof. unfold thread_sleep_resume, acquire_sched_lk, release_sched_lk. eauto 30 with ticks. Qed.
Lemma kt_wakeup ch : keeps_ticks (thread_wakeup ch).
Proof. unfold thread_wakeup, thread_wakeup_body, tcb_get_chan, tcb_get_state, tcb_read, acquire_sched_lk, release_sched_lk. eauto 30 with ticks. Qed.
Lemma kt_spawn p kstack_base entry id quota : keeps_ticks (thread_spawn (fun _ _ => mret p) kstack_base entry id quota).
Proof. unfold thread_spawn, kctx_new, kctx_set_esp, kctx_set_eip, acquire_sched_lk, release_sched_lk. eauto 30 with ticks. Qed.

Lemma cpu_ticks_kept {A} (m : M thr A) s x s' :
  keeps_ticks m -> m s = Ok (x, s') -> sched_frame s s' -> cpu_ticks s' = cpu_ticks s.
Proof.
  intros Hm E [_ Hp Hk]. unfold cpu_ticks, this_cpu. by rewrite Hp, Hk, (Hm _ _ _ E).
Qed.

(** ** Sequences of calls

    [CSpawn p]: [kctx_new] calls [alloc_mem_quota], code outside the repository;
    the child id [p] it returns is part of the call.  [CCompute r] stands for
    the running thread's own code between the calls, which leaves [r] in the
    registers that a context switch saves. *)
Inductive sched_call :=
| CYield
| CTick                                  (* sched_update, from the timer interrupt *)
| CWakeup (ch : ptr)
| CSleep (ch : ptr) (lk : spinlock)
| CResume (lk : spinlock)
| CSpawn (p kstack_base entry id quota : Z)
| CExit
| CCompute (r : kctx).

Definition run_call (c : sched_call) : M thr unit :=
  match c with
  | CYield => thread_yield
  | CTick => sched_update
  | CWakeup ch => thread_wakeup ch
  | CSleep ch lk => thread_sleep_enter ch (Some lk) ;; mret tt
  | CResume lk => p ← get_curid; thread_sleep_resume p lk ;; mret tt
  | CSpawn p kstack_base entry id quota => thread_spawn (fun _ _ => mret p) kstack_base entry id quota ;; mret tt
  | CExit => thread_exit
  | CCompute r => modify (with_kctx id (fun _ => r))
  end.

(** The abstract scheduler with the ticks of the current slice; [None]: the
    call has no defined result. *)
Definition a_call (c : sched_call) (x : asched * Z) : option (asched * Z) :=
  let '(a, t) := x in
  match c with
  | CYield => Some (a_yield a, t)
  | CTick => Some (if decide (t >= SCHED_SLICE) then (a_yield a, 0) else (a, t + 1))
  | CWakeup ch => Some (a_wakeup ch a, t)
  | CSleep ch _ => a' ← a_sleep ch a; Some (a', t)
  | CResume lk => if decide (lock lk = 0) then Some (a, t) else None
  | CSpawn p _ _ _ _ =>
      if decide (0 <= p < NUM_IDS /\ p <> a_cur a /\ p ∉ a_rq a /\ a_chan a p = None)
      then Some (a_spawn p a, t) else None
  | CExit => a' ← a_exit a; Some (a', t)
  | CCompute _ => Some (a, t)
  end.

Fixpoint run_calls (l : list sched_call) : M thr unit :=
  match l with [] => mret tt | c :: l => run_call c ;; run_calls l end.

Fixpoint a_calls (l : list sched_call) (a : asched * Z) : option (asched * Z) :=
  match l with
  | [] => Some a
  | c :: l => match a_call c a with Some a' => a_calls l a' | None => None end
  end.

Record sched_rel (s : thr) (x : asched * Z) : Prop := {
  sr_abs : sched_abs s x.1;
  sr_ticks : cpu_ticks s = x.2;
  sr_slice : 0 <= x.2 <= SCHED_SLICE;
}.

(** What a call does to saved contexts: those of threads that do not run stay;
    a switch saves the registers of the thread that ran and loads those of the
    thread that runs. *)
Definition spawned (c : sched_call) : option Z :=
  match c with CSpawn p _ _ _ _ => Some p | _ => None end.
Definition contexts_step (c : sched_call) (p p' : Z) (s s' : thr) : Prop :=
  (forall q, q <> p -> spawned c <> Some q -> kctx_pool s' !!! q = kctx_pool s !!! q)
  /\ (p' <> p -> kctx_pool s' !!! p = regs s /\ regs s' = kctx_pool s !!! p').

Lemma contexts_switched c p p' s s' : switched p p' s s' -> contexts_step c p p' s s'.
Proof.
  unfold switched. case_decide as E; intros [H1 H2]; split.
  - intros q _ _. by rewrite H2.
  - congruence.
  - intros q Hq _. by rewrite H2, lookup_total_insert_ne.
  - intros _. by rewrite H2, lookup_total_insert_eq.
Qed.

Lemma contexts_same c p s s' : regs s' = regs s -> kctx_pool s' = kctx_pool s -> contexts_step c p p s s'.
Proof. intros H1 H2. split; [by rewrite H2|done]. Qed.

Lemma sched_abs_regs g s a : sched_abs s a -> sched_abs (with_kctx id g s) a.
Proof.
  intros [[H1 ? ? H2 ? ? ?] ?]. split; [|done].
  split; try done; [by eapply cpu_ok_ext; [| |exact H1]|]. by apply (queue_repr_same s).
Qed.

Lemma thread_exit_abs s a a' :
  sched_abs s a -> a_exit a = Some a' ->
  exists s', thread_exit s = Ok (tt, s') /\ sched_abs s' a' /\ sched_frame s s' /\ switched (a_cur a) (a_cur a') s s'.
Proof.
  intros [Ha Hlk]. pose proof (sched_core_cur_rq _ _ Ha) as Hcr. destruct Ha as [Hcpu Hcur Hr HR Hrun Hrd Hch].
  unfold a_exit. destruct (a_rq a) as [|x rq] eqn:Eq; [done|]. intros [= <-].
  destruct (thread_exit_sim s x rq (a_chan a)) as (s' & E & Ha' & Hf & Hsw & _); rewrite ?Hcur; try done.
  exists s'. by rewrite Hcur in Hsw.
Qed.

Lemma run_call_sim c s x x' :
  sched_rel s x -> a_call c x = Some x' ->
  exists s', run_call c s = Ok (tt, s') /\ sched_rel s' x' /\ sched_frame s s'
    /\ contexts_step c (a_cur x.1) (a_cur x'.1) s s'.
Proof.
  destruct x as [a t]. intros [Ha Ht Hr]. cbn [fst snd] in *.
  destruct c as [| |ch|ch lk|lk|p kb en id0 q| |r]; cbn [run_call a_call].
  - intros [= <-]. destruct (thread_yield_sim s a Ha) as (s' & E & ? & Hf & Hsw & Ek). exists s'.
    split; [done|]. split; [split; cbn; try done|split; [done|by apply contexts_switched]].
    rewrite <- Ht. unfold cpu_ticks, this_cpu. by rewrite Ek, (sf_pcpus _ _ Hf), (sf_kstack _ _ Hf).
  - destruct (sched_update_sim s a Ha) as (s' & E & Hf & H); [unfold SCHED_SLICE, W32 in *; lia|]. rewrite Ht in H.
    unfold SCHED_SLICE in *. intros [= <-]. exists s'. split; [done|].
    case_decide; destruct H as (? & ? & ?); (split; [|split; [done|by apply contexts_switched]]); split; cbn;
      unfold SCHED_SLICE; try done; lia.
  - intros [= <-]. destruct (thread_wakeup_sim s a ch Ha) as (s' & E & ? & Hf & ? & ?). exists s'.
    split; [done|]. split; [split; cbn; try done|split; [done|by apply contexts_same]].
    rewrite <- Ht. eapply cpu_ticks_kept; [apply kt_wakeup|exact E|done].
  - destruct (a_sleep ch a) as [a'|] eqn:Es; [|done]. intros [= <-].
    destruct (thread_sleep_enter_sim s a ch lk a' Ha Es) as (s' & E & ? & Hf & ?).
    exists s'. rewrite (bind_ok _ _ _ _ _ E). split; [done|]. split; [split; cbn; try done|split; [done|by apply contexts_switched]].
    rewrite <- Ht. eapply cpu_ticks_kept; [apply kt_sleep|exact E|done].
  - case_decide as Hl; intros [= <-].
    destruct (thread_sleep_resume_sim s a lk Ha Hl) as (s' & E & ? & Hf & ? & ?).
    exists s'. rewrite (bind_ok _ _ _ _ _ (get_curid_abs s a Ha)), (bind_ok _ _ _ _ _ E).
    split; [done|]. split; [split; cbn; try done|split; [done|by apply contexts_same]].
    rewrite <- Ht. eapply cpu_ticks_kept; [apply kt_resume|exact E|done].
  - case_decide as Hp; intros [= <-]. destruct Hp as (Hp & Hpc & Hpr & _).
    destruct (thread_spawn_sim (fun _ _ => mret (M := M thr) p) kb en id0 q s a p Ha) as (s' & E & ? & Hf & Er & _ & _ & Hk); try done.
    exists s'. rewrite (bind_ok _ _ _ _ _ E). split; [done|]. split; [split; cbn; try done|split; [done|]].
    + rewrite <- Ht. eapply cpu_ticks_kept; [apply kt_spawn|exact E|done].
    + split; [|done]. intros y _ Hy. apply Hk. cbn in Hy. congruence.
  - destruct (a_exit a) as [a'|] eqn:Es; [|done]. intros [= <-].
    destruct (thread_exit_abs s a a' Ha Es) as (s' & E & ? & Hf & ?). exists s'.
    split; [done|]. split; [split; cbn; try done|split; [done|by apply contexts_switched]].
    rewrite <- Ht. eapply cpu_ticks_kept; [apply kt_exit|exact E|done].
  - intros [= <-]. eexists. split; [reflexivity|]. split; [split; cbn; try done; by apply sched_abs_regs|].
    split; [by apply sched_frame_same|]. split; [done|]. cbn. done.
Qed.

Lemma run_calls_sim l : forall s x x',
  sched_rel s x -> a_calls l x = Some x' ->
  exists s', run_calls l s = Ok (tt, s') /\ sched_rel s' x' /\ sched_frame s s'.
Proof.
  induction l as [|c l IH]; intros s x x' Hx; cbn [a_calls run_calls].
  - intros [= <-]. by exists s.
  - destruct (a_call c x) as [x1|] eqn:Ec; [|done]. intros El.
    destruct (run_call_sim c s x x1 Hx Ec) as (s1 & E1 & Hx1 & Hf1 & _).
    destruct (IH s1 x1 x' Hx1 El) as (s2 & E2 & Hx2 & Hf2).
    exists s2. rewrite (bind_ok _ _ _ _ _ E1). split_and!; [done..|by transitivity s1].
Qed.

(** *** A thread that waits to run again: it is ready or asleep *)
Definition waits (p : Z) (a : asched) : Prop := a_cur a <> p /\ (p ∈ a_rq a \/ a_chan a p <> None).

Lemma not_spawned_while_waiting p c a t x : waits p a -> a_call c (a, t) = Some x -> spawned c <> Some p.
Proof.
  intros [Hc Hw] E [= Ep]. destruct c; try done. cbn in *. simplify_eq. case_decide; [|done]. naive_solver.
Qed.

(** It goes on waiting until it runs. *)
Lemma waits_step p c a t x : waits p a -> a_call c (a, t) = Some x -> a_cur x.1 <> p -> waits p x.1.
Proof.
  intros [Hc Hin].
  assert (forall rq' r ch' y, a_rq a = y :: rq' -> y <> p -> ch' p = a_chan a p -> waits p (a_run y (rq' ++ r) ch')) as Hrun.
  { intros rq' r ch' y Eq Hy Hch. rewrite Eq in Hin. split; [done|]. cbn. rewrite Hch.
    destruct Hin as [[?|Hin]%elem_of_cons|Hin]; [congruence|left; apply elem_of_app; by left|by right]. }
  assert (a_cur (a_yield a) <> p -> waits p (a_yield a)) as Hy.
  { unfold a_yield. destruct (a_rq a) as [|y rq'] eqn:Eq; [intros _; split; rewrite ?Eq; tauto|]. cbn. intros Hne. by apply Hrun. }
  destruct c as [| |ch|ch lk|lk|q kb en id0 qu| |r]; cbn [a_call]; intros E Hp; simplify_eq; try done.
  - by apply Hy.
  - case_decide; simplify_eq; [by apply Hy|done].
  - split; [done|]. cbn. destruct (decide (p ∈ a_sleepers ch a)).
    + left. apply elem_of_app. by right.
    + destruct Hin as [Hin|Hin]; [left; apply elem_of_app; by left|by right].
  - unfold a_sleep in E. destruct (a_rq a) as [|y rq'] eqn:Eq; [done|]. cbn in E. simplify_eq. cbn in Hp.
    rewrite <- (app_nil_r rq'). apply Hrun; [done|done|]. by rewrite decide_False by congruence.
  - case_decide; simplify_eq. done.
  - case_decide as Hq; simplify_eq. split; [done|]. cbn. destruct Hin as [Hin|Hin].
    + left. apply elem_of_app. by left.
    + right. case_decide; [subst; naive_solver|done].
  - unfold a_exit in E. destruct (a_rq a) as [|y rq'] eqn:Eq; [done|]. cbn in E. simplify_eq. cbn in Hp.
    rewrite <- (app_nil_r rq'). by apply Hrun.
Qed.

(** A thread that loses the processor without exiting waits to run again. *)
Lemma loses_processor c a t x : a_call c (a, t) = Some x -> c <> CExit -> a_cur x.1 <> a_cur a -> waits (a_cur a) x.1.
Proof.
  assert (a_cur (a_yield a) <> a_cur a -> waits (a_cur a) (a_yield a)) as Hy.
  { intros H. split; [done|]. unfold a_yield in *. destruct (a_rq a); [done|]. left. cbn. apply elem_of_app. right. by left. }
  destruct c as [| |ch|ch lk|lk|q kb en id0 qu| |r]; cbn [a_call]; intros E Hx Hp; simplify_eq; try done.
  - by apply Hy.
  - case_decide; simplify_eq. by apply Hy.
  - unfold a_sleep in E. destruct (a_rq a) as [|y rq']; [done|]. cbn in E. simplify_eq. split; [done|]. right. cbn.
    by rewrite decide_True.
  - case_decide; by simplify_eq.
  - case_decide; by simplify_eq.
Qed.

(** [p] does not run before the last call of [l] is done. *)
Fixpoint away (p : Z) (l : list sched_call) (x : asched * Z) : Prop :=
  match l with
  | [] => True
  | c :: l => a_cur x.1 <> p /\ match a_call c x with Some x' => away p l x' | None => False end
  end.

Lemma waiting_context p l : forall s x x',
  sched_rel s x -> waits p x.1 -> away p l x -> a_calls l x = Some x' -> a_cur x'.1 = p ->
  exists s', run_calls l s = Ok (tt, s') /\ sched_rel s' x' /\ regs s' = kctx_pool s !!! p.
Proof.
  induction l as [|c l IH]; intros s x x' Hx Hw Haw; cbn [a_calls run_calls away] in *.
  { intros [= <-] E. by destruct Hw. }
  destruct Haw as [Hne Haw]. destruct (a_call c x) as [x1|] eqn:Ec; [|done]. intros El Hp.
  destruct (run_call_sim c s x x1 Hx Ec) as (s1 & E1 & Hx1 & _ & Hk & Hsw). rewrite (bind_ok _ _ _ _ _ E1).
  destruct x as [a t]. cbn [fst] in *. destruct (decide (a_cur x1.1 = p)) as [Hc|Hc].
  - destruct l as [|c' l]; [|destruct Haw; done]. cbn in El. simplify_eq. exists s1. split_and!; try done.
    apply Hsw. congruence.
  - destruct (IH s1 x1 x' Hx1) as (s2 & E2 & Hx2 & Er); try done; [by eapply waits_step|].
    exists s2. split_and!; try done. rewrite Er. apply Hk; [congruence|by eapply not_spawned_while_waiting].
Qed.

Lemma n_yields_sim n s a :
  sched_abs s a ->
  exists s', n_yields n s = Ok (tt, s') /\ sched_abs s' (Nat.iter n a_yield a).
Proof.
  revert s a. induction n as [|n IH]; intros s a Ha; [by exists s|].
  destruct (thread_yield_sim s a Ha) as (s1 & E1 & Ha1 & _).
  destruct (IH _ _ Ha1) as (s2 & E2 & Ha2). exists s2. cbn [n_yields].
  rewrite (bind_ok _ _ _ _ _ E1). split; [done|].
  by rewrite Nat.iter_succ_r.
Qed.

Fixpoint n_ticks (n : nat) : M thr unit :=
  match n with O => mret tt | S n => sched_update ;; n_ticks n end.

Lemma n_ticks_snoc m t : n_ticks (m + 1) t = (n_ticks m ;; sched_update) t.
Proof.
  revert t. induction m as [|m IHm]; intros t; cbn [n_ticks Nat.add].
  - unfold mbind, M_bind, mret, M_ret. by destruct (sched_update t) as [[[] ?]| | | |].
  - rewrite bind_assoc. destruct (sched_update t) as [[[] t1]| | | |] eqn:E.
    + rewrite !(bind_ok _ _ _ _ _ E). apply IHm.
    + unfold mbind, M_bind. by rewrite E.
    + unfold mbind, M_bind. by rewrite E.
    + unfold mbind, M_bind. by rewrite E.
    + unfold mbind, M_bind. by rewrite E.
Qed.

Lemma n_ticks_sim n s a :
  sched_abs s a -> 0 <= cpu_ticks s -> cpu_ticks s + Z.of_nat n <= SCHED_SLICE ->
  exists s', n_ticks n s = Ok (tt, s') /\ sched_abs s' a
    /\ cpu_ticks s' = cpu_ticks s + Z.of_nat n.
Proof.
  revert s. induction n as [|n IH]; intros s Ha H0 Hn.
  - exists s. split_and!; [done..|lia].
  - destruct (sched_update_sim s a Ha) as (s1 & E1 & _ & H1);
      [unfold SCHED_SLICE, W32 in *; lia|].
    rewrite decide_False in H1 by lia. destruct H1 as (Ha1 & Ht & _).
    destruct (IH s1 Ha1) as (s2 & E2 & Ha2 & Ht2); [lia..|].
    exists s2. cbn [n_ticks]. rewrite (bind_ok _ _ _ _ _ E1). split_and!; [done..|lia].
Qed.

(** * Properties *)

Module SchedProps.

(** Two ready threads, one sleeping on the first wait object. *)
Definition demo_tcb (st : t_state) (p n : Z) (c : ptr) : TCB :=
  {| tcb_state := st; tcb_prev := p; tcb_next := n; tcb_channel := c;
     tcb_openfiles := ∅; tcb_cwd := PNull; tcb_sigstate := zero_sig_state |}.

Definition demo : thr :=
  {| TCBPool := list_to_map
       [(0, demo_tcb TSTATE_RUN 64 64 PNull); (1, demo_tcb TSTATE_READY 64 2 PNull);
        (2, demo_tcb TSTATE_READY 1 64 PNull); (3, demo_tcb TSTATE_SLEEP 64 64 (PWaitObj 0))];
     TQueuePool := {[ (0, 64) := {| tq_head := 1; tq_tail := 2 |} ]};
     CURID := ∅; kctx_pool := ∅; regs := inhabitant; sched_lk := free_lock;
     sched_ticks := ∅; pcpus := ∅;
     cur_kstack := {| ks_cpu_idx := 0; ks_magic := KSTACK_MAGIC |} |}.

Definition demo_a : asched :=
  {| a_cur := 0; a_rq := [1; 2]; a_chan := fun x => chan_of (TCBPool demo !!! x) |}.

Lemma demo_abs : sched_abs demo demo_a.
Proof.
  split; [|reflexivity]. split.
  - split; vm_compute; repeat split; congruence.
  - reflexivity.
  - vm_compute; split; congruence.
  - split.
    + split; [reflexivity..| |vm_compute; apply (bool_decide_unpack _); reflexivity
             |apply (bool_decide_unpack _); reflexivity].
      vm_compute. by repeat split.
    + intros x. cbn. rewrite elem_of_cons, list_elem_of_singleton. unfold NUM_IDS. lia.
  - reflexivity.
  - intros x. cbn. rewrite elem_of_cons, list_elem_of_singleton. by intros [->| ->].
  - reflexivity.
Qed.

(** C4 (refinement): the scheduler of PThread.c implements the abstract
    scheduler.  Any sequence of yields, timer ticks ([sched_update]), wakeups,
    sleeps, resumptions, spawns, exits and computing of the running thread that
    is defined on the abstract state runs without a fault, a panic or a spin on
    every concrete state that represents it, ends in a state that represents
    the abstract result, and leaves open files, working directories and signal
    state of every thread alone.  Defined means: another thread is ready when
    one sleeps or exits, the lock a sleeper takes again is free, a spawned id is
    that of no running, ready or sleeping thread.  As in the code, a wakeup
    wakes the sleepers among the threads 1 to 63 only, never thread 0. *)
Theorem scheduler_refines_abstract l s x x' :
  sched_rel s x -> a_calls l x = Some x' ->
  exists s', run_calls l s = Ok (tt, s') /\ sched_rel s' x' /\ sched_frame s s'.
Proof. apply run_calls_sim. Qed.

Lemma demo_rel : sched_rel demo (demo_a, 0).
Proof. split; [exact demo_abs|reflexivity|]. cbn. unfold SCHED_SLICE. lia. Qed.

(** Thread 0 sleeps; 1 wakes 3, spawns 5 and yields; 2 exits; a tick; 3 yields *)
Definition demo_calls : list sched_call :=
  [CSleep PLog (held_lock (cur_kstack demo)); CWakeup (PWaitObj 0); CSpawn 5 0x300000 0x100500 1 1000; CYield; CExit; CTick; CYield].
Lemma scheduler_refines_abstract_witness :
  exists x' s', a_calls demo_calls (demo_a, 0) = Some x' /\ a_cur x'.1 = 5 /\ a_rq x'.1 = [1; 3] /\ x'.2 = 1
    /\ run_calls demo_calls demo = Ok (tt, s') /\ sched_rel s' x' /\ sched_frame demo s'.
Proof.
  eexists. edestruct (scheduler_refines_abstract demo_calls demo (demo_a, 0)) as (s' & H); [exact demo_rel|cbn; reflexivity|].
  exists s'. split; [reflexivity|]. split; [vm_compute; reflexivity|].
  split; [vm_compute; reflexivity|]. split; [vm_compute; reflexivity|]. exact H.
Defined.

(** C17 (liveness): the ready queue is served first come, first served.  The
    thread at position [n] of the ready queue runs after exactly [n + 1]
    yields, each of which succeeds, and those that ran before it stand behind
    the rest of the queue in the order in which they ran. *)
Theorem yield_round_robin s a n :
  sched_abs s a -> (n < length (a_rq a))%nat ->
  exists s' a', n_yields (S n) s = Ok (tt, s') /\ sched_abs s' a'
    /\ a_rq a !! n = Some (CURID s' !!! this_cpu s')
    /\ a_rq a' = drop (S n) (a_rq a) ++ a_cur a :: take n (a_rq a).
Proof.
  intros Ha Hn. destruct (n_yields_sim (S n) s a Ha) as (s' & E & Ha').
  destruct (a_yield_iter n a Hn) as [Hrq Hc].
  exists s', (Nat.iter (S n) a_yield a). split_and!; [done..| |done].
  by rewrite (sc_cur _ _ (proj1 Ha')).
Qed.

Lemma yield_round_robin_witness :
  exists s' a', n_yields 2 demo = Ok (tt, s') /\ sched_abs s' a'
    /\ a_rq demo_a !! 1%nat = Some (CURID s' !!! this_cpu s') /\ a_rq a' = [0; 1].
Proof. apply (yield_round_robin demo demo_a 1 demo_abs). cbn. lia. Defined.

(** C29 (safety): a thread that loses the processor gets its registers and
    return address back.  Let the running thread yield, sleep or be preempted by
    a tick, and let any sequence of calls follow (yields, ticks, sleeps,
    wakeups, resumptions, spawns and exits of other threads, with any register
    contents they leave) up to the first switch back to it: it then runs with
    the context it had. *)
Theorem thread_gets_context_back c l s a t x1 x2 :
  sched_rel s (a, t) -> a_call c (a, t) = Some x1 -> c <> CExit -> a_cur x1.1 <> a_cur a ->
  away (a_cur a) l x1 -> a_calls l x1 = Some x2 -> a_cur x2.1 = a_cur a ->
  exists s', run_calls (c :: l) s = Ok (tt, s') /\ sched_rel s' x2 /\ regs s' = regs s.
Proof.
  intros Hx Ec Hex Hp Haw El Hc. destruct (run_call_sim c s _ _ Hx Ec) as (s1 & E1 & Hx1 & _ & _ & Hsw).
  destruct (waiting_context (a_cur a) l s1 x1 x2) as (s2 & E2 & Hx2 & Er); try done; [by eapply loses_processor|].
  exists s2. cbn [run_calls]. rewrite (bind_ok _ _ _ _ _ E1). split_and!; try done. rewrite Er. by apply Hsw.
Qed.

(** Thread 0 yields; 1 computes and sleeps; 2 spawns 5, wakes 1 and exits *)
Definition away_calls : list sched_call :=
  [CCompute {| kc_esp := 7; kc_edi := 7; kc_esi := 7; kc_ebx := 7; kc_ebp := 7; kc_eip := 7 |};
   CSleep PLog free_lock; CSpawn 5 0x300000 0x100500 2 1000; CWakeup PLog; CExit].
Lemma thread_gets_context_back_witness :
  exists s' x, run_calls (CYield :: away_calls) demo = Ok (tt, s') /\ sched_rel s' x /\ a_rq x.1 = [5; 1] /\ regs s' = regs demo.
Proof.
  edestruct (thread_gets_context_back CYield away_calls demo demo_a 0) as (s' & E & Hx & Er);
    [exact demo_rel|reflexivity|discriminate|vm_compute; discriminate| |vm_compute; reflexivity|reflexivity|].
  - vm_compute. repeat split; discriminate.
  - exists s'. eexists. split; [exact E|]. split; [exact Hx|]. split; [reflexivity|exact Er].
Defined.

(** [thread_wakeup(chan)] readies exactly the threads with
    ids 1 to 63 that sleep on [chan]: they join the ready queue behind the
    threads already in it, in the order of their ids; every other thread keeps
    its state and channel, and the running thread keeps running. *)
Theorem wakeup_readies_exactly_the_sleepers s a ch :
  sched_abs s a ->
  exists s' a', thread_wakeup ch s = Ok (tt, s') /\ sched_abs s' a'
    /\ a_cur a' = a_cur a
    /\ a_rq a' = a_rq a ++ filter (fun y => a_chan a y = Some ch) (seqZ 1 63)
    /\ (forall y, 1 <= y < NUM_IDS -> a_chan a y = Some ch ->
          tcb_state (TCBPool s' !!! y) = TSTATE_READY)
    /\ (forall y, a_chan a y <> Some ch -> a_chan a' y = a_chan a y).
Proof.
  intros Ha. destruct (thread_wakeup_sim s a ch Ha) as (s' & E & Ha' & _).
  exists s', (a_wakeup ch a). split_and!; try done.
  - intros y Hy Hc. apply (sc_ready _ _ (proj1 Ha')). cbn. apply elem_of_app. right.
    apply elem_of_woken. split; [done|]. apply elem_of_seqZ. unfold NUM_IDS in *. lia.
  - intros y Hy. cbn. rewrite decide_False; [done|]. intros Hin.
    apply elem_of_woken in Hin. tauto.
Qed.

Lemma wakeup_readies_exactly_the_sleepers_witness :
  exists s' a', thread_wakeup (PWaitObj 0) demo = Ok (tt, s') /\ sched_abs s' a'
    /\ a_cur a' = 0 /\ a_rq a' = [1; 2; 3].
Proof.
  destruct (wakeup_readies_exactly_the_sleepers demo demo_a (PWaitObj 0) demo_abs)
    as (s' & a' & E & Ha & Ec & Eq & _).
  exists s', a'. split_and!; [done..|]. rewrite Eq. vm_compute. reflexivity.
Defined.

(** Every way [thread_sleep] can end.  With a lock and a ready
    thread it releases the lock, marks the caller asleep on [chan] and switches
    to the oldest ready thread; without a lock it panics; and when the ready
    queue is empty it indexes [TCBPool] out of bounds, the case the source
    assumes away ("here we assume a new ready process always exists"). *)
Theorem thread_sleep_outcomes s a ch lk :
  sched_abs s a ->
  thread_sleep_enter ch None s = Panic "sleep without lock"
  /\ match a_rq a with
     | [] => thread_sleep_enter ch (Some lk) s = Undef OutOfBounds
     | x :: rq => exists s' a', thread_sleep_enter ch (Some lk) s = Ok (free_lock, s')
         /\ sched_abs s' a' /\ a_cur a' = x /\ a_rq a' = rq
         /\ (forall y, a_chan a' y = if decide (y = a_cur a) then Some ch else a_chan a y)
         /\ switched (a_cur a) x s s'
     end.
Proof.
  intros Ha. split; [by eapply thread_sleep_enter_null|].
  destruct (a_rq a) as [|x rq] eqn:Eq; [by eapply thread_sleep_enter_empty|].
  assert (a_sleep ch a = Some (a_run x rq
    (fun y => if decide (y = a_cur a) then Some ch else a_chan a y))) as Es
    by (unfold a_sleep; by rewrite Eq).
  destruct (thread_sleep_enter_sim s a ch lk _ Ha Es) as (s' & E & Ha' & _ & Hsw).
  eauto 10.
Qed.

Lemma thread_sleep_outcomes_witness :
  sched_abs demo demo_a /\
  exists s' a', thread_sleep_enter PLog (Some free_lock) demo = Ok (free_lock, s')
    /\ sched_abs s' a' /\ a_cur a' = 1 /\ a_rq a' = [2].
Proof.
  split; [exact demo_abs|].
  destruct (thread_sleep_outcomes demo demo_a PLog free_lock demo_abs) as [_ H].
  destruct H as (s' & a' & ? & ? & ? & ? & _). eauto 10.
Defined.

(** The time slice.  With the tick counter at 0, five timer
    interrupts leave the running thread in place, and the sixth resets the
    counter and yields: [SCHED_SLICE] is 5 and the test is strict. *)
Theorem time_slice s a n :
  sched_abs s a -> cpu_ticks s = 0 -> (n <= 6)%nat ->
  exists s', n_ticks n s = Ok (tt, s')
    /\ (if decide (n = 6%nat) then sched_abs s' (a_yield a) /\ cpu_ticks s' = 0
        else sched_abs s' a /\ cpu_ticks s' = Z.of_nat n).
Proof.
  intros Ha H0 Hn. case_decide as E.
  - subst n. destruct (n_ticks_sim 5 s a Ha) as (s1 & E1 & Ha1 & Ht1);
      [lia|unfold SCHED_SLICE; lia|].
    destruct (sched_update_sim s1 a Ha1) as (s2 & E2 & _ & H2); [unfold W32; lia|].
    rewrite decide_True in H2 by (unfold SCHED_SLICE; lia). destruct H2 as (Ha2 & Ht2 & _).
    exists s2. split; [|done].
    rewrite (n_ticks_snoc 5), (bind_ok _ _ _ _ _ E1). done.
  - destruct (n_ticks_sim n s a Ha) as (s1 & E1 & Ha1 & Ht1);
      [lia|unfold SCHED_SLICE; lia|].
    exists s1. split_and!; [done..|lia].
Qed.

Lemma time_slice_witness :
  cpu_ticks demo = 0 /\ exists s', n_ticks 6 demo = Ok (tt, s') /\ sched_abs s' (a_yield demo_a).
Proof.
  split; [reflexivity|].
  destruct (time_slice demo demo_a 6 demo_abs eq_refl ltac:(lia)) as (s' & E & H & _). eauto.
Defined.

End SchedProps.
