(* ===== verification/WaitObj.v ===== *)
(** * Wait objects: sync/waitobj.c, sync/waitobj.h

    A thread adds event sources (timer, keyboard, software) to a wait object it
    owns and blocks until one of them is ready.  Pointers to elements of the
    static tables [wobjs] and [esrc] are their indices, [None] is [NULL].  The
    scheduler is used through [SchedOps] only.

    [waitobj_wait] loops around [thread_sleep]; it is split at the sleep: the
    entry ([waitobj_wait_start]), one pass of the [for (;;)] loop up to a
    return or the switch away ([waitobj_wait_iter]) and what happens when the
    thread runs again ([waitobj_wait_resume]).  The locals that survive the
    sleep are a [wait_frame]. *)

From S2P Require Import Prelude DList Machine Thread Scheduler.

Definition EVENT_TIMER : Z := 1.
Definition EVENT_KEYBOARD : Z := 2.
Definition EVENT_SOFTWARE : Z := 3.

Definition MAX_WAIT_OBJECTS : Z := 16.
Definition MAX_EVENT_SOURCES : Z := 32.

Record event_source := {
  es_id : Z;
  es_type : Z;
  es_ready : Z;
  es_period_ms : Z;
  es_next_fire_tick : Z;
  es_parent : option Z;
  es_next : option Z;
}.

Record wait_object := {
  wo_wid : Z;
  wo_owner_pid : Z;
  wo_in_use : Z;
  wo_lk : spinlock;
  wo_sources : option Z;
}.

#[export] Instance event_source_inhabited : Inhabited event_source := populate
  {| es_id := 0; es_type := 0; es_ready := 0; es_period_ms := 0;
     es_next_fire_tick := 0; es_parent := None; es_next := None |}.
#[export] Instance wait_object_inhabited : Inhabited wait_object := populate
  {| wo_wid := 0; wo_owner_pid := 0; wo_in_use := 0; wo_lk := inhabitant;
     wo_sources := None |}.

(** The static data of waitobj.c. *)
Record wtables := {
  waitobj_ticks : Z;
  wobjs : gmap Z wait_object;
  esrc : gmap Z event_source;
}.

Record wsys (T : Type) := { wt : wtables; sch : T }.
Arguments wt {T}.
Arguments sch {T}.
Arguments Build_wsys {T}.

Definition set_ready (v : Z) (e : event_source) : event_source :=
  {| es_id := es_id e; es_type := es_type e; es_ready := v; es_period_ms := es_period_ms e;
     es_next_fire_tick := es_next_fire_tick e; es_parent := es_parent e; es_next := es_next e |}.
Definition set_timer (p n : Z) (e : event_source) : event_source :=
  {| es_id := es_id e; es_type := es_type e; es_ready := es_ready e; es_period_ms := p;
     es_next_fire_tick := n; es_parent := es_parent e; es_next := es_next e |}.
Definition set_lk (l : spinlock) (o : wait_object) : wait_object :=
  {| wo_wid := wo_wid o; wo_owner_pid := wo_owner_pid o; wo_in_use := wo_in_use o;
     wo_lk := l; wo_sources := wo_sources o |}.
Definition set_sources (p : option Z) (o : wait_object) : wait_object :=
  {| wo_wid := wo_wid o; wo_owner_pid := wo_owner_pid o; wo_in_use := wo_in_use o;
     wo_lk := wo_lk o; wo_sources := p |}.

Definition upd_wo (i : Z) (f : wait_object -> wait_object) (w : wtables) : wtables :=
  {| waitobj_ticks := waitobj_ticks w; esrc := esrc w;
     wobjs := <[i := f (wobjs w !!! i)]> (wobjs w) |}.
Definition upd_es (j : Z) (f : event_source -> event_source) (w : wtables) : wtables :=
  {| waitobj_ticks := waitobj_ticks w; wobjs := wobjs w;
     esrc := <[j := f (esrc w !!! j)]> (esrc w) |}.
Definition set_ticks (t : Z) (w : wtables) : wtables :=
  {| waitobj_ticks := t; wobjs := wobjs w; esrc := esrc w |}.

(** Results of one pass through the loop of [waitobj_wait]. *)
Inductive wait_res :=
| WReturn (ret out_src_id : Z)
| WAsleep.

Record wait_frame := {
  wf_wo : Z;
  wf_use_timeout : bool;
  wf_deadline : Z;
}.

Section waitobj.
Context {T : Type} `{SchedOps T}.

Notation WM := (M (wsys T)).

Definition on_wt (f : wtables -> wtables) (s : wsys T) : wsys T :=
  {| wt := f (wt s); sch := sch s |}.
Definition on_sch {A} (m : M T A) : WM A :=
  zoom sch (fun t s => {| wt := wt s; sch := t |}) m.

Definition wo_read {A} (i : Z) (f : wait_object -> A) : WM A :=
  check_index MAX_WAIT_OBJECTS i ;; gets (fun s => f (wobjs (wt s) !!! i)).
Definition wo_write (i : Z) (f : wait_object -> wait_object) : WM unit :=
  check_index MAX_WAIT_OBJECTS i ;; modify (on_wt (upd_wo i f)).
Definition es_read {A} (j : Z) (f : event_source -> A) : WM A :=
  check_index MAX_EVENT_SOURCES j ;; gets (fun s => f (esrc (wt s) !!! j)).
Definition es_write (j : Z) (f : event_source -> event_source) : WM unit :=
  check_index MAX_EVENT_SOURCES j ;; modify (on_wt (upd_es j f)).
Definition get_ticks : WM Z := gets (fun s => waitobj_ticks (wt s)).

(** [spinlock_acquire(&wobjs[i].lk)], [spinlock_release(&wobjs[i].lk)]. *)
Definition lock_wo (i : Z) : WM unit :=
  s ← get;
  zoom (fun s => wo_lk (wobjs (wt s) !!! i)) (fun l => on_wt (upd_wo i (set_lk l)))
       (spinlock_acquire (so_kstack (sch s))).
Definition unlock_wo (i : Z) : WM unit :=
  zoom (fun s => wo_lk (wobjs (wt s) !!! i)) (fun l => on_wt (upd_wo i (set_lk l)))
       spinlock_release.

Definition waitobj_init : WM unit :=
  modify (on_wt (set_ticks 0)) ;;
  for_each (seqZ 0 MAX_WAIT_OBJECTS) (fun i =>
    wo_write i (fun o => {| wo_wid := i; wo_owner_pid := NUM_IDS; wo_in_use := 0;
                            wo_lk := wo_lk o; wo_sources := None |}) ;;
    zoom (fun s => wo_lk (wobjs (wt s) !!! i)) (fun l => on_wt (upd_wo i (set_lk l)))
         spinlock_init) ;;
  for_each (seqZ 0 MAX_EVENT_SOURCES) (fun i =>
    es_write i (fun _ => {| es_id := 0; es_type := 0; es_ready := 0; es_period_ms := 0;
                            es_next_fire_tick := 0; es_parent := None; es_next := None |})).

Fixpoint alloc_source_loop (l : list Z) : WM (option Z) :=
  match l with
  | [] => mret None
  | i :: l =>
      e ← es_read i id;
      if decide (es_parent e = None /\ es_id e = 0) then mret (Some i)
      else alloc_source_loop l
  end.
Definition alloc_source : WM (option Z) := alloc_source_loop (seqZ 0 MAX_EVENT_SOURCES).

Definition get_wo (wid : Z) : WM (option Z) :=
  if decide (wid < 0 \/ wid >= MAX_WAIT_OBJECTS) then mret None
  else
    u ← wo_read wid wo_in_use;
    if decide (u = 0) then mret None else mret (Some wid).

Fixpoint waitobj_create_loop (owner_pid : Z) (l : list Z) : WM Z :=
  match l with
  | [] => mret (-1)
  | i :: l =>
      u ← wo_read i wo_in_use;
      if decide (u = 0) then
        lock_wo i ;;
        wo_write i (fun o => {| wo_wid := wo_wid o; wo_owner_pid := owner_pid;
                                wo_in_use := 1; wo_lk := wo_lk o; wo_sources := None |}) ;;
        unlock_wo i ;;
        mret i
      else waitobj_create_loop owner_pid l
  end.
Definition waitobj_create (owner_pid : Z) : WM Z :=
  waitobj_create_loop owner_pid (seqZ 0 MAX_WAIT_OBJECTS).

Definition waitobj_add (owner_pid wid type arg_ms : Z) : WM Z :=
  wo ← get_wo wid;
  match wo with
  | None => mret (-1)
  | Some i =>
      owner ← wo_read i wo_owner_pid;
      if decide (owner <> owner_pid) then mret (-1)
      else
        src ← alloc_source;
        match src with
        | None => mret (-1)
        | Some j =>
            lock_wo i ;;
            srcs ← wo_read i wo_sources;
            es_write j (fun e =>
              {| es_id := j + 1; es_type := type; es_ready := 0;
                 es_period_ms := es_period_ms e; es_next_fire_tick := es_next_fire_tick e;
                 es_parent := Some i; es_next := srcs |}) ;;
            wo_write i (set_sources (Some j)) ;;
            (if decide (type = EVENT_TIMER) then
               let period := if decide (arg_ms <> 0) then arg_ms else 1 in
               now ← get_ticks;
               es_write j (set_timer period (u32 (now + period)))
             else es_write j (set_timer 0 0)) ;;
            unlock_wo i ;;
            es_read j es_id
        end
  end.

(** [for (p = ...; p != NULL; p = p->next)].  A list of distinct sources has at
    most [MAX_EVENT_SOURCES] nodes; running out of fuel is the infinite loop of
    a cyclic list. *)
Definition list_fuel : nat := 33.

Fixpoint walk_sources (fuel : nat) (p : option Z) (body : Z -> WM unit) : WM unit :=
  match p with
  | None => mret tt
  | Some j =>
      match fuel with
      | O => fail Hang
      | S f => body j ;; n ← es_read j es_next; walk_sources f n body
      end
  end.

Definition reschedule_all_timer_sources (wo : Z) : WM unit :=
  now ← get_ticks;
  srcs ← wo_read wo wo_sources;
  walk_sources list_fuel srcs (fun p =>
    t ← es_read p es_type;
    if decide (t <> EVENT_TIMER) then mret tt
    else
      es_write p (set_ready 0) ;;
      per ← es_read p es_period_ms;
      es_write p (set_timer per (u32 (now + per)))).

(** The result is the id and the source found, [-1] and [NULL] if none. *)
Fixpoint first_ready_loop (fuel : nat) (p : option Z) : WM (Z * option Z) :=
  match p with
  | None => mret (-1, None)
  | Some j =>
      match fuel with
      | O => fail Hang
      | S f =>
          e ← es_read j id;
          if decide (es_ready e <> 0) then mret (es_id e, Some j)
          else first_ready_loop f (es_next e)
      end
  end.
Definition first_ready_source (wo : Z) : WM (Z * option Z) :=
  srcs ← wo_read wo wo_sources; first_ready_loop list_fuel srcs.

(** The entry of [waitobj_wait], up to and including the first acquire. *)
Definition waitobj_wait_start (owner_pid wid timeout_ms : Z) : WM (Z + wait_frame) :=
  wo ← get_wo wid;
  match wo with
  | None => mret (inl (-2))
  | Some i =>
      owner ← wo_read i wo_owner_pid;
      if decide (owner <> owner_pid) then mret (inl (-2))
      else
        t ← get_ticks;
        lock_wo i ;;
        mret (inr {| wf_wo := i; wf_use_timeout := bool_decide (timeout_ms <> 0);
                     wf_deadline := u32 (t + timeout_ms) |})
  end.

(** One pass of the loop; the lock of the wait object is held at its start. *)
Definition waitobj_wait_iter (fr : wait_frame) : WM wait_res :=
  r ← first_ready_source (wf_wo fr);
  let '(sid, ready_src) := r in
  if decide (sid >= 0) then
    match ready_src with
    | None => undef NullDeref
    | Some j =>
        es_write j (set_ready 0) ;;
        reschedule_all_timer_sources (wf_wo fr) ;;
        unlock_wo (wf_wo fr) ;;
        mret (WReturn 0 sid)
    end
  else
    t ← get_ticks;
    if decide (wf_use_timeout fr = true /\ t >= wf_deadline fr) then
      unlock_wo (wf_wo fr) ;;
      mret (WReturn (-1) (-1))
    else
      lk ← wo_read (wf_wo fr) wo_lk;
      lk' ← on_sch (so_sleep (PWaitObj (wf_wo fr)) (Some lk));
      wo_write (wf_wo fr) (set_lk lk') ;;
      mret WAsleep.

(** The sleeping thread [curid] is scheduled again. *)
Definition waitobj_wait_resume (curid : Z) (fr : wait_frame) : WM wait_res :=
  lk ← wo_read (wf_wo fr) wo_lk;
  lk' ← on_sch (so_resume curid lk);
  wo_write (wf_wo fr) (set_lk lk') ;;
  waitobj_wait_iter fr.

Definition event_notify (src : option Z) : WM unit :=
  match src with
  | None => mret tt
  | Some j =>
      p ← es_read j es_parent;
      match p with
      | None => mret tt
      | Some i =>
          es_write j (set_ready 1) ;;
          on_sch (so_wakeup (PWaitObj i))
      end
  end.

Definition waitobj_signal_source (owner_pid source_id : Z) : WM Z :=
  if decide (source_id < 1 \/ source_id > MAX_EVENT_SOURCES) then mret (-1)
  else
    let idx := source_id - 1 in
    e ← es_read idx id;
    if decide (es_id e <> source_id) then mret (-1)
    else match es_parent e with
    | None => mret (-1)
    | Some i =>
        owner ← wo_read i wo_owner_pid;
        if decide (owner <> owner_pid) then mret (-1)
        else if decide (es_type e <> EVENT_SOFTWARE) then mret (-1)
        else event_notify (Some idx) ;; mret 0
    end.

Definition waitobj_timer_tick_body (now i : Z) : WM unit :=
  s ← es_read i id;
  if decide (es_parent s = None \/ es_type s <> EVENT_TIMER) then mret tt
  else if decide (es_ready s <> 0) then mret tt
  else if decide (now >= es_next_fire_tick s) then event_notify (Some i)
  else mret tt.

Definition waitobj_timer_tick : WM unit :=
  now ← get_ticks;
  for_each (seqZ 0 MAX_EVENT_SOURCES) (waitobj_timer_tick_body now).

Definition waitobj_on_timer_irq : WM unit :=
  modify (on_wt (fun w => set_ticks (u32 (waitobj_ticks w + 1)) w)) ;;
  waitobj_timer_tick.

Definition waitobj_console_input_body (i : Z) : WM unit :=
  s ← es_read i id;
  if decide (es_parent s = None \/ es_type s <> EVENT_KEYBOARD) then mret tt
  else if decide (es_ready s <> 0) then mret tt
  else event_notify (Some i).

Definition waitobj_console_input_notify : WM unit :=
  for_each (seqZ 0 MAX_EVENT_SOURCES) waitobj_console_input_body.

End waitobj.

(** * Theory

    The operations as functions on the tables and the abstract scheduler.  With
    every lock free between operations, acquiring and releasing it leaves the
    tables as they were. *)

Definition w_create (i owner : Z) : wtables -> wtables :=
  upd_wo i (fun o => {| wo_wid := wo_wid o; wo_owner_pid := owner; wo_in_use := 1;
                        wo_lk := wo_lk o; wo_sources := None |}).

Definition new_source (i j type arg_ms now : Z) (srcs : option Z) : event_source :=
  let period := if decide (arg_ms <> 0) then arg_ms else 1 in
  {| es_id := j + 1; es_type := type; es_ready := 0;
     es_period_ms := if decide (type = EVENT_TIMER) then period else 0;
     es_next_fire_tick := if decide (type = EVENT_TIMER) then u32 (now + period) else 0;
     es_parent := Some i; es_next := srcs |}.

Definition w_add (i j type arg_ms : Z) (w : wtables) : wtables :=
  upd_wo i (set_sources (Some j))
    (upd_es j (fun _ => new_source i j type arg_ms (waitobj_ticks w)
                          (wo_sources (wobjs w !!! i))) w).

Definition w_resched1 (now j : Z) (w : wtables) : wtables :=
  if decide (es_type (esrc w !!! j) = EVENT_TIMER)
  then upd_es j (fun e => set_timer (es_period_ms e) (u32 (now + es_period_ms e))
                            (set_ready 0 e)) w
  else w.

Definition w_resched (l : list Z) (w : wtables) : wtables :=
  foldl (fun w' j => w_resched1 (waitobj_ticks w) j w') w l.

Definition w_deliver (j : Z) (l : list Z) (w : wtables) : wtables :=
  w_resched l (upd_es j (set_ready 0) w).

Definition p_notify (j : Z) (wa : wtables * asched) : wtables * asched :=
  match es_parent (esrc wa.1 !!! j) with
  | None => wa
  | Some i => (upd_es j (set_ready 1) wa.1, a_wakeup (PWaitObj i) wa.2)
  end.

(** Notify every source of [l] that satisfies [P]. *)
Definition notify_fold (P : event_source -> Prop) `{!forall e, Decision (P e)}
    (wa : wtables * asched) (l : list Z) : wtables * asched :=
  foldl (fun wa' j => if decide (P (esrc wa'.1 !!! j)) then p_notify j wa' else wa') wa l.

Definition expired (now : Z) (e : event_source) : Prop :=
  es_parent e <> None /\ es_type e = EVENT_TIMER /\ es_ready e = 0
  /\ now >= es_next_fire_tick e.
#[export] Instance expired_dec now e : Decision (expired now e).
Proof. apply _. Defined.

Definition p_tick (wa : wtables * asched) : wtables * asched :=
  let now := u32 (waitobj_ticks wa.1 + 1) in
  notify_fold (expired now) (set_ticks now wa.1, wa.2) (seqZ 0 MAX_EVENT_SOURCES).

Definition armed_key (e : event_source) : Prop :=
  es_parent e <> None /\ es_type e = EVENT_KEYBOARD /\ es_ready e = 0.
#[export] Instance armed_key_dec e : Decision (armed_key e).
Proof. apply _. Defined.

Definition p_console (wa : wtables * asched) : wtables * asched :=
  notify_fold armed_key wa (seqZ 0 MAX_EVENT_SOURCES).

(** The sources of a wait object, following [next] from [sources]. *)
Fixpoint chain (e : gmap Z event_source) (p : option Z) (l : list Z) : Prop :=
  match l with
  | [] => p = None
  | j :: l' => p = Some j /\ chain e (es_next (e !!! j)) l'
  end.

(** Well-formed tables: [ls i] is the source list of wait object [i]. *)
Record wt_inv (w : wtables) (ls : Z -> list Z) : Prop := {
  wi_ticks : is_u32 (waitobj_ticks w);
  wi_dom : forall i, 0 <= i < MAX_WAIT_OBJECTS -> is_Some (wobjs w !! i);
  wi_lk : forall i, 0 <= i < MAX_WAIT_OBJECTS -> wo_lk (wobjs w !!! i) = free_lock;
  wi_wid : forall i, 0 <= i < MAX_WAIT_OBJECTS -> wo_wid (wobjs w !!! i) = i;
  wi_chain : forall i, 0 <= i < MAX_WAIT_OBJECTS ->
    chain (esrc w) (wo_sources (wobjs w !!! i)) (ls i);
  wi_nodup : forall i, NoDup (ls i);
  wi_src : forall i j, 0 <= i < MAX_WAIT_OBJECTS ->
    j ∈ ls i <-> 0 <= j < MAX_EVENT_SOURCES /\ es_parent (esrc w !!! j) = Some i;
  wi_parent : forall i j, 0 <= j < MAX_EVENT_SOURCES ->
    es_parent (esrc w !!! j) = Some i ->
    0 <= i < MAX_WAIT_OBJECTS /\ wo_in_use (wobjs w !!! i) <> 0 /\ es_id (esrc w !!! j) = j + 1;
  wi_free : forall j, 0 <= j < MAX_EVENT_SOURCES ->
    es_parent (esrc w !!! j) = None -> es_id (esrc w !!! j) = 0;
}.

(** ** Pointwise effect of updates *)
Lemma wobjs_upd_wo i f w k :
  wobjs (upd_wo i f w) !!! k = if decide (i = k) then f (wobjs w !!! i) else wobjs w !!! k.
Proof. apply lookup_total_upd. Qed.
Lemma esrc_upd_es j f w k :
  esrc (upd_es j f w) !!! k = if decide (j = k) then f (esrc w !!! j) else esrc w !!! k.
Proof. apply lookup_total_upd. Qed.
Lemma upd_wo_upd_wo i f g w : upd_wo i g (upd_wo i f w) = upd_wo i (fun o => g (f o)) w.
Proof. unfold upd_wo. cbn. by rewrite lookup_total_insert_eq, insert_insert_eq. Qed.
Lemma upd_es_upd_es j f g w : upd_es j g (upd_es j f w) = upd_es j (fun e => g (f e)) w.
Proof. unfold upd_es. cbn. by rewrite lookup_total_insert_eq, insert_insert_eq. Qed.

Lemma upd_wo_ext i f g w :
  f (wobjs w !!! i) = g (wobjs w !!! i) -> upd_wo i f w = upd_wo i g w.
Proof. intros E. unfold upd_wo. by rewrite E. Qed.
Lemma upd_es_ext j f g w :
  f (esrc w !!! j) = g (esrc w !!! j) -> upd_es j f w = upd_es j g w.
Proof. intros E. unfold upd_es. by rewrite E. Qed.

#[export] Hint Rewrite wobjs_upd_wo esrc_upd_es : wobj.

Lemma chain_ext e e' p l :
  (forall j, j ∈ l -> es_next (e' !!! j) = es_next (e !!! j)) -> chain e p l -> chain e' p l.
Proof.
  revert p. induction l as [|j l IH]; intros p He; cbn; [done|].
  intros [-> Hc]. split; [done|]. rewrite He by (by left). apply IH; [|done].
  intros k Hk. apply He. by right.
Qed.

(** A duplicate-free source list fits in the fuel of the loops. *)
Lemma ls_length w ls i :
  wt_inv w ls -> 0 <= i < MAX_WAIT_OBJECTS -> (length (ls i) < list_fuel)%nat.
Proof.
  intros Hw Hi. unfold list_fuel.
  pose proof (nodup_range_length MAX_EVENT_SOURCES (ls i)) as Hl.
  enough (Z.of_nat (length (ls i)) <= MAX_EVENT_SOURCES) by (unfold MAX_EVENT_SOURCES in *; lia).
  apply Hl; [done|apply Hw|]. intros j Hj. by apply (wi_src _ _ Hw i) in Hj as [? _].
Qed.

Section simulation.
Context {T : Type} `{SchedLaws T}.

Definition srel (s : wsys T) (w : wtables) (a : asched) : Prop :=
  wt s = w /\ so_rel (sch s) a.

Lemma wo_read_ok {A} i (f : wait_object -> A) (s : wsys T) :
  0 <= i < MAX_WAIT_OBJECTS -> wo_read i f s = Ok (f (wobjs (wt s) !!! i), s).
Proof. intros. unfold wo_read. by mrun. Qed.
Lemma wo_write_ok i f (s : wsys T) :
  0 <= i < MAX_WAIT_OBJECTS -> wo_write i f s = Ok (tt, on_wt (upd_wo i f) s).
Proof. intros. unfold wo_write. by mrun. Qed.
Lemma es_read_ok {A} j (f : event_source -> A) (s : wsys T) :
  0 <= j < MAX_EVENT_SOURCES -> es_read j f s = Ok (f (esrc (wt s) !!! j), s).
Proof. intros. unfold es_read. by mrun. Qed.
Lemma es_write_ok j f (s : wsys T) :
  0 <= j < MAX_EVENT_SOURCES -> es_write j f s = Ok (tt, on_wt (upd_es j f) s).
Proof. intros. unfold es_write. by mrun. Qed.

Lemma lock_wo_ok i (s : wsys T) a :
  so_rel (sch s) a -> lock (wo_lk (wobjs (wt s) !!! i)) = 0 ->
  lock_wo i s = Ok (tt, on_wt (upd_wo i (set_lk (held_lock (so_kstack (sch s))))) s).
Proof.
  intros Hr Hl. unfold lock_wo, get, mbind, M_bind, zoom.
  by rewrite spinlock_acquire_free by (done || by eapply so_magic).
Qed.

Lemma unlock_wo_ok i (s : wsys T) :
  unlock_wo i s = Ok (tt, on_wt (upd_wo i (set_lk free_lock)) s).
Proof. done. Qed.

Lemma on_sch_ok {A} (m : M T A) x t (s : wsys T) :
  m (sch s) = Ok (x, t) -> on_sch m s = Ok (x, {| wt := wt s; sch := t |}).
Proof. intros E. unfold on_sch, zoom. by rewrite E. Qed.

Lemma get_ticks_ok (s : wsys T) : get_ticks s = Ok (waitobj_ticks (wt s), s).
Proof. done. Qed.

(** Run one table access at the head of the code. *)
Ltac wstep :=
  first
    [ match goal with |- context [((_ ≫= _) ≫= _) _] => rewrite bind_assoc end
    | match goal with
      | |- context [(?m ≫= ?f) ?s] =>
          erewrite (bind_ok m f s)
            by first [ apply wo_read_ok; assumption | apply es_read_ok; assumption
                     | apply wo_write_ok; assumption | apply es_write_ok; assumption
                     | apply get_ticks_ok | apply unlock_wo_ok
                     | eapply lock_wo_ok; [eassumption|]; solve [eauto] ]
      end; cbv beta ].

(** A wait object's lock is free between operations, so a critical section that
    only changes other fields restores it. *)
Lemma set_lk_id o : wo_lk o = free_lock -> set_lk free_lock o = o.
Proof. destruct o. cbn. by intros ->. Qed.

(** *** create *)
Lemma waitobj_create_loop_sim owner l : forall s w a ls,
  srel s w a -> wt_inv w ls -> (forall i, i ∈ l -> 0 <= i < MAX_WAIT_OBJECTS) ->
  waitobj_create_loop owner l s =
    match list_find (fun i => wo_in_use (wobjs w !!! i) = 0) l with
    | Some (_, i) => Ok (i, on_wt (w_create i owner) s)
    | None => Ok (-1, s)
    end.
Proof.
  induction l as [|i l IH]; intros s w a ls [<- Hr] Hw Hl; [done|].
  assert (0 <= i < MAX_WAIT_OBJECTS) as Hi by (apply Hl; by left).
  assert (wo_lk (wobjs (wt s) !!! i) = free_lock) as Hlk by by apply (wi_lk _ _ Hw).
  assert (lock (wo_lk (wobjs (wt s) !!! i)) = 0) as Hlk0 by by rewrite Hlk.
  cbn [waitobj_create_loop list_find]. wstep.
  case_decide as Hu.
  - repeat wstep. unfold mret, M_ret. do 2 f_equal. unfold on_wt. cbn. f_equal.
    rewrite !upd_wo_upd_wo. unfold w_create. apply upd_wo_ext. unfold set_lk. cbn.
    by rewrite Hlk.
  - rewrite (IH s (wt s) a ls) by (done || (intros; apply Hl; by right)).
    by destruct (list_find _ l) as [[]|].
Qed.

Lemma waitobj_create_sim owner s w a ls :
  srel s w a -> wt_inv w ls ->
  waitobj_create owner s =
    match list_find (fun i => wo_in_use (wobjs w !!! i) = 0) (seqZ 0 MAX_WAIT_OBJECTS) with
    | Some (_, i) => Ok (i, on_wt (w_create i owner) s)
    | None => Ok (-1, s)
    end.
Proof.
  intros. eapply waitobj_create_loop_sim; [done..|]. intros i ?%elem_of_seqZ. lia.
Qed.

(** *** add *)
Lemma alloc_source_loop_sim l : forall (s : wsys T) w,
  wt s = w -> (forall i, i ∈ l -> 0 <= i < MAX_EVENT_SOURCES) ->
  alloc_source_loop l s =
    Ok (snd <$> list_find (fun j => es_parent (esrc w !!! j) = None /\ es_id (esrc w !!! j) = 0) l, s).
Proof.
  induction l as [|j l IH]; intros s w Hs Hl; [done|].
  assert (0 <= j < MAX_EVENT_SOURCES) as Hj by (apply Hl; by left).
  cbn [alloc_source_loop list_find]. wstep. rewrite Hs. unfold id. case_decide as Hu.
  - done.
  - rewrite (IH s w) by (done || (intros; apply Hl; by right)).
    by destruct (list_find _ l) as [[]|].
Qed.

(** A source slot is free when it has no parent. *)
Definition free_slot (w : wtables) : option Z :=
  snd <$> list_find (fun j => es_parent (esrc w !!! j) = None /\ es_id (esrc w !!! j) = 0)
            (seqZ 0 MAX_EVENT_SOURCES).

Lemma free_slot_Some w j :
  free_slot w = Some j ->
  0 <= j < MAX_EVENT_SOURCES /\ es_parent (esrc w !!! j) = None
  /\ (forall k, 0 <= k < j -> es_parent (esrc w !!! k) <> None \/ es_id (esrc w !!! k) <> 0).
Proof.
  unfold free_slot. destruct (list_find _ _) as [[n k]|] eqn:E; [|done]. intros [= <-].
  apply list_find_Some in E as (Hk & [Hp _] & Hmin). apply lookup_seqZ in Hk as [-> Hn].
  split_and!; [lia|unfold MAX_EVENT_SOURCES in *; lia|done|].
  intros k Hk. specialize (Hmin (Z.to_nat k) k).
  assert (seqZ 0 MAX_EVENT_SOURCES !! Z.to_nat k = Some k) as Hl by (apply lookup_seqZ; lia).
  specialize (Hmin Hl ltac:(lia)). destruct (es_parent (esrc w !!! k)); [by left|].
  right. tauto.
Qed.

Lemma get_wo_sim wid (s : wsys T) w :
  wt s = w ->
  get_wo wid s =
    Ok (if decide (0 <= wid < MAX_WAIT_OBJECTS /\ wo_in_use (wobjs w !!! wid) <> 0)
        then Some wid else None, s).
Proof.
  intros Hs. unfold get_wo. case_decide as Hd.
  - rewrite decide_False by lia. done.
  - assert (0 <= wid < MAX_WAIT_OBJECTS) as Hi by lia. wstep. rewrite Hs.
    case_decide as Hu; [rewrite decide_False by tauto|rewrite decide_True by tauto]; done.
Qed.

(** The wait object [wid] exists and belongs to [owner]. *)
Definition owns (w : wtables) (owner wid : Z) : Prop :=
  0 <= wid < MAX_WAIT_OBJECTS /\ wo_in_use (wobjs w !!! wid) <> 0
  /\ wo_owner_pid (wobjs w !!! wid) = owner.
#[export] Instance owns_dec w owner wid : Decision (owns w owner wid).
Proof. apply _. Defined.

Lemma waitobj_add_sim owner wid type arg_ms s w a ls :
  srel s w a -> wt_inv w ls ->
  waitobj_add owner wid type arg_ms s =
    if decide (owns w owner wid) then
      match free_slot w with
      | Some j => Ok (j + 1, on_wt (w_add wid j type arg_ms) s)
      | None => Ok (-1, s)
      end
    else Ok (-1, s).
Proof.
  intros [<- Hr] Hw. unfold waitobj_add, owns.
  rewrite (bind_ok _ _ _ _ _ (get_wo_sim wid s _ eq_refl)).
  destruct (decide (_ /\ _)) as [[Hi Hu]|Hn].
  2:{ rewrite decide_False by tauto. done. }
  wstep. case_decide as Ho; [rewrite decide_False by tauto; done|].
  rewrite (decide_True (P := _ /\ _ /\ _)) by (split_and!; tauto).
  assert (alloc_source s = Ok (free_slot (wt s), s)) as Eal.
  { apply alloc_source_loop_sim; [done|]. intros i ?%elem_of_seqZ. lia. }
  rewrite (bind_ok _ _ _ _ _ Eal).
  destruct (free_slot (wt s)) as [j|] eqn:Ej; [|done].
  destruct (free_slot_Some _ _ Ej) as (Hj & _ & _).
  assert (wo_lk (wobjs (wt s) !!! wid) = free_lock) as Hlk by by apply (wi_lk _ _ Hw).
  assert (lock (wo_lk (wobjs (wt s) !!! wid)) = 0) as Hlk0 by by rewrite Hlk.
  do 4 wstep. case_decide as Ht; repeat wstep.
  all: rewrite es_read_ok by done; unfold w_add, new_source, on_wt, upd_es, upd_wo; cbn;
    repeat (rewrite ?lookup_total_insert_eq, ?insert_insert_eq; cbn);
    unfold set_lk, set_sources, set_timer; cbn; rewrite Hlk;
    first [rewrite !(decide_True (P := type = EVENT_TIMER)) by done
          |rewrite !(decide_False (P := type = EVENT_TIMER)) by done]; reflexivity.
Qed.
(** *** The loops over a source list *)
Lemma walk_sources_sim (body : Z -> M (wsys T) unit) f l : forall fuel p s,
  (length l <= fuel)%nat -> chain (esrc (wt s)) p l ->
  (forall j, j ∈ l -> 0 <= j < MAX_EVENT_SOURCES) ->
  (forall j s', j ∈ l -> body j s' = Ok (tt, on_wt (f j) s')) ->
  (forall j w k, es_next (esrc (f j w) !!! k) = es_next (esrc w !!! k)) ->
  walk_sources fuel p body s = Ok (tt, on_wt (fun w => foldl (fun w' j => f j w') w l) s).
Proof.
  induction l as [|j l IH]; intros fuel p s Hfuel Hc Hl Hb Hf; cbn in Hc.
  - subst p. destruct fuel, s; done.
  - destruct Hc as [-> Hc]. destruct fuel as [|fuel]; [cbn in Hfuel; lia|]. cbn [walk_sources].
    rewrite (bind_ok _ _ _ _ _ (Hb j s ltac:(by left))).
    rewrite (bind_ok _ _ _ _ _ (es_read_ok j es_next (on_wt (f j) s) ltac:(apply Hl; by left))).
    cbn [on_wt wt]. rewrite Hf.
    rewrite IH; [done|cbn in Hfuel; lia|..].
    + eapply chain_ext; [|exact Hc]. intros. apply Hf.
    + intros. apply Hl. by right.
    + intros. apply Hb. by right.
    + done.
Qed.

Lemma resched1_next now j w k :
  es_next (esrc (w_resched1 now j w) !!! k) = es_next (esrc w !!! k).
Proof.
  unfold w_resched1. case_decide; [|done]. autorewrite with wobj. by case_decide; subst.
Qed.

Lemma reschedule_sim i (s : wsys T) l :
  0 <= i < MAX_WAIT_OBJECTS -> chain (esrc (wt s)) (wo_sources (wobjs (wt s) !!! i)) l ->
  (forall j, j ∈ l -> 0 <= j < MAX_EVENT_SOURCES) -> (length l < list_fuel)%nat ->
  reschedule_all_timer_sources i s = Ok (tt, on_wt (w_resched l) s).
Proof.
  intros Hi Hc Hl Hn. unfold reschedule_all_timer_sources. do 2 wstep.
  rewrite (walk_sources_sim _ (w_resched1 (waitobj_ticks (wt s))) l); try done.
  - lia.
  - intros j s' Hj. specialize (Hl j Hj). wstep. unfold w_resched1. destruct s' as [w t]. cbn [wt].
    destruct (decide (es_type (esrc w !!! j) = EVENT_TIMER)) as [Ht|Ht].
    + rewrite decide_False by tauto. do 2 wstep. rewrite es_write_ok by done.
      unfold on_wt. cbn [wt sch]. rewrite decide_True by done. do 3 f_equal.
      rewrite upd_es_upd_es. apply upd_es_ext. autorewrite with wobj.
      by rewrite decide_True by done.
    + rewrite decide_True by done. unfold on_wt. cbn [wt sch]. by rewrite decide_False.
  - intros. apply resched1_next.
Qed.

Definition first_ready (w : wtables) (l : list Z) : option Z :=
  snd <$> list_find (fun j => es_ready (esrc w !!! j) <> 0) l.

Lemma first_ready_loop_sim l : forall fuel p (s : wsys T),
  (length l <= fuel)%nat -> chain (esrc (wt s)) p l ->
  (forall j, j ∈ l -> 0 <= j < MAX_EVENT_SOURCES) ->
  first_ready_loop fuel p s =
    Ok (match first_ready (wt s) l with
        | Some j => (es_id (esrc (wt s) !!! j), Some j)
        | None => (-1, None)
        end, s).
Proof.
  unfold first_ready. induction l as [|j l IH]; intros fuel p s Hfuel Hc Hl; cbn in Hc.
  - subst p. by destruct fuel.
  - destruct Hc as [-> Hc]. destruct fuel as [|fuel]; [cbn in Hfuel; lia|].
    assert (0 <= j < MAX_EVENT_SOURCES) as Hj by (apply Hl; by left).
    cbn [first_ready_loop list_find]. wstep. unfold id. case_decide; [done|].
    rewrite IH by (done || (cbn in Hfuel; lia) || (intros; apply Hl; by right)).
    by destruct (list_find _ l) as [[]|].
Qed.

Lemma first_ready_Some w l j :
  first_ready w l = Some j -> j ∈ l /\ es_ready (esrc w !!! j) <> 0.
Proof.
  unfold first_ready. destruct (list_find _ _) as [[n k]|] eqn:E; [|done]. intros [= <-].
  apply list_find_Some in E as (Hk & ? & _). split; [|done]. by eapply list_elem_of_lookup_2.
Qed.

Lemma first_ready_None w l :
  first_ready w l = None <-> forall j, j ∈ l -> es_ready (esrc w !!! j) = 0.
Proof.
  unfold first_ready. destruct (list_find _ _) as [[n k]|] eqn:E; cbn.
  - apply list_find_Some in E as (Hk & Hr & _). split; [done|]. intros Hall. exfalso.
    apply Hr, Hall. by eapply list_elem_of_lookup_2.
  - split; [intros _|done]. apply list_find_None in E. rewrite Forall_forall in E.
    intros j Hj. specialize (E j Hj). cbn in E. destruct (decide (es_ready (esrc w !!! j) = 0)); tauto.
Qed.

(** *** wait *)
Lemma upd_wo_id i f w :
  is_Some (wobjs w !! i) -> f (wobjs w !!! i) = wobjs w !!! i -> upd_wo i f w = w.
Proof.
  intros [o Ho] Hf. destruct w as [t m e]. unfold upd_wo. cbn in *. f_equal.
  apply insert_id. rewrite Hf. by rewrite lookup_total_alt, Ho.
Qed.

Lemma foldl_resched_upd_wo now i f l : forall w,
  foldl (fun w' j => w_resched1 now j w') (upd_wo i f w) l
  = upd_wo i f (foldl (fun w' j => w_resched1 now j w') w l).
Proof.
  induction l as [|j l IH]; intros w; [done|]. cbn [foldl]. rewrite <-IH. f_equal.
  unfold w_resched1. cbn [esrc upd_wo]. by case_decide.
Qed.

Lemma w_deliver_upd_wo j l i f w : w_deliver j l (upd_wo i f w) = upd_wo i f (w_deliver j l w).
Proof. unfold w_deliver, w_resched. apply (foldl_resched_upd_wo (waitobj_ticks w) i f l (upd_es j (set_ready 0) w)). Qed.

Lemma foldl_resched_wobjs now l : forall w,
  wobjs (foldl (fun w' j => w_resched1 now j w') w l) = wobjs w.
Proof.
  induction l as [|j l IH]; intros w; [done|]. cbn [foldl]. rewrite IH.
  unfold w_resched1. by case_decide.
Qed.

Lemma w_deliver_wobjs j l w : wobjs (w_deliver j l w) = wobjs w.
Proof. unfold w_deliver, w_resched. by rewrite foldl_resched_wobjs. Qed.

Lemma waitobj_wait_start_sim owner wid tmo (s : wsys T) w a ls :
  srel s w a -> wt_inv w ls ->
  waitobj_wait_start owner wid tmo s =
    if decide (owns w owner wid) then
      Ok (inr {| wf_wo := wid; wf_use_timeout := bool_decide (tmo <> 0);
                 wf_deadline := u32 (waitobj_ticks w + tmo) |},
          on_wt (upd_wo wid (set_lk (held_lock (so_kstack (sch s))))) s)
    else Ok (inl (-2), s).
Proof.
  intros [<- Hr] Hw. unfold waitobj_wait_start, owns.
  rewrite (bind_ok _ _ _ _ _ (get_wo_sim wid s _ eq_refl)).
  destruct (decide (_ /\ _)) as [[Hi Hu]|Hn].
  2:{ rewrite decide_False by tauto. done. }
  wstep. case_decide as Ho; [rewrite decide_False by tauto; done|].
  rewrite (decide_True (P := _ /\ _ /\ _)) by (split_and!; tauto).
  assert (lock (wo_lk (wobjs (wt s) !!! wid)) = 0) as Hlk0 by by rewrite (wi_lk _ _ Hw).
  by do 2 wstep.
Qed.

(** Re-releasing the lock restores the tables. *)
Lemma relock_id i l w :
  is_Some (wobjs w !! i) -> wo_lk (wobjs w !!! i) = free_lock ->
  upd_wo i (set_lk free_lock) (upd_wo i (set_lk l) w) = w.
Proof.
  intros Hd Hl. rewrite upd_wo_upd_wo. apply upd_wo_id; [done|].
  destruct (wobjs w !!! i). cbn in *. by rewrite Hl.
Qed.

Definition timed_out (fr : wait_frame) (w : wtables) : Prop :=
  wf_use_timeout fr = true /\ waitobj_ticks w >= wf_deadline fr.
#[export] Instance timed_out_dec fr w : Decision (timed_out fr w).
Proof. apply _. Defined.

Lemma waitobj_wait_iter_sim fr (s : wsys T) w a ls :
  srel s w a -> wt_inv w ls -> 0 <= wf_wo fr < MAX_WAIT_OBJECTS ->
  let s1 := on_wt (upd_wo (wf_wo fr) (set_lk (held_lock (so_kstack (sch s))))) s in
  match first_ready w (ls (wf_wo fr)) with
  | Some j => waitobj_wait_iter fr s1
              = Ok (WReturn 0 (j + 1), on_wt (w_deliver j (ls (wf_wo fr))) s)
  | None =>
      if decide (timed_out fr w) then waitobj_wait_iter fr s1 = Ok (WReturn (-1) (-1), s)
      else match a_sleep (PWaitObj (wf_wo fr)) a with
        | Some a' => exists t', waitobj_wait_iter fr s1 = Ok (WAsleep, {| wt := w; sch := t' |})
                                /\ so_rel t' a'
        | None => waitobj_wait_iter fr s1 = Undef OutOfBounds
        end
  end.
Proof.
  intros [<- Hr] Hw Hi s1. set (i := wf_wo fr) in *.
  assert (chain (esrc (wt s1)) (wo_sources (wobjs (wt s1) !!! i)) (ls i)) as Hch.
  { cbn [s1 on_wt wt]. autorewrite with wobj. rewrite decide_True by done.
    apply (wi_chain _ _ Hw i Hi). }
  assert (forall j, j ∈ ls i -> 0 <= j < MAX_EVENT_SOURCES) as Hl.
  { intros j Hj. by apply (wi_src _ _ Hw) in Hj as [? _]. }
  pose proof (ls_length _ _ i Hw Hi) as Hlen.
  pose proof (wi_lk _ _ Hw i Hi) as Hlk. pose proof (wi_dom _ _ Hw i Hi) as Hdom.
  assert (first_ready_source i s1 = Ok (match first_ready (wt s) (ls i) with
             | Some j => (es_id (esrc (wt s) !!! j), Some j) | None => (-1, None) end, s1)) as E1.
  { unfold first_ready_source. wstep. rewrite (first_ready_loop_sim (ls i)); [done|lia|done|done]. }
  unfold waitobj_wait_iter. fold i. rewrite (bind_ok _ _ _ _ _ E1).
  destruct (first_ready (wt s) (ls i)) as [j|] eqn:Ef.
  - apply first_ready_Some in Ef as [Hj Hready].
    destruct (proj1 (wi_src _ _ Hw i j Hi) Hj) as [Hjr Hp].
    destruct (wi_parent _ _ Hw i j Hjr Hp) as (_ & _ & ->).
    rewrite decide_True by lia. wstep.
    erewrite bind_ok.
    2:{ apply (reschedule_sim i _ (ls i)); [done| |done|done].
        cbn [on_wt wt]. eapply chain_ext; [|exact Hch]. intros k _. autorewrite with wobj.
        by case_decide; subst. }
    wstep. unfold mret, M_ret, on_wt. cbn [wt sch]. do 3 f_equal.
    change (upd_wo i (set_lk free_lock) (w_deliver j (ls i)
              (upd_wo i (set_lk (held_lock (so_kstack (sch s)))) (wt s))) = w_deliver j (ls i) (wt s)).
    rewrite w_deliver_upd_wo. apply relock_id; by rewrite w_deliver_wobjs.
  - cbv beta iota zeta. rewrite (decide_False (P := -1 >= 0)) by lia. wstep.
    change (waitobj_ticks (wt s1)) with (waitobj_ticks (wt s)).
    destruct (decide (timed_out fr (wt s))) as [Ht|Ht].
    + rewrite decide_True by exact Ht. wstep. unfold mret, M_ret, on_wt. cbn [wt sch]. destruct s as [w t]. cbn in *.
      by rewrite relock_id.
    + rewrite decide_False by exact Ht. wstep.
      destruct (a_sleep (PWaitObj i) a) as [a'|] eqn:Ea.
      2:{ unfold mbind, M_bind, on_sch, zoom.
          by rewrite (so_sleep_empty (PWaitObj i) _ (sch s1) a Hr Ea). }
      destruct (so_sleep_law (PWaitObj i) (wo_lk (wobjs (wt s1) !!! i)) (sch s1) a a' Hr Ea)
        as (t' & E2 & Hr' & _).
      rewrite (bind_ok _ _ _ _ _ (on_sch_ok _ _ _ _ E2)). wstep.
      eexists. split; [|exact Hr']. unfold mret, M_ret, on_wt. cbn [wt sch].
      unfold s1, on_wt. cbn [wt]. by rewrite relock_id.
Qed.

Lemma waitobj_wait_resume_sim fr (s : wsys T) w a ls :
  srel s w a -> wt_inv w ls -> 0 <= wf_wo fr < MAX_WAIT_OBJECTS ->
  exists s1, srel s1 w a /\ so_kstack (sch s1) = so_kstack (sch s) /\
    waitobj_wait_resume (a_cur a) fr s =
    waitobj_wait_iter fr (on_wt (upd_wo (wf_wo fr) (set_lk (held_lock (so_kstack (sch s1))))) s1).
Proof.
  intros [<- Hr] Hw Hi. unfold waitobj_wait_resume. wstep.
  destruct (so_resume_law (wo_lk (wobjs (wt s) !!! wf_wo fr)) (sch s) a Hr) as (t & E & Hr' & Ek).
  { by rewrite (wi_lk _ _ Hw). }
  exists {| wt := wt s; sch := t |}. split_and!; [done|done|].
  rewrite (bind_ok _ _ _ _ _ (on_sch_ok _ _ _ _ E)). wstep. cbn. by rewrite Ek.
Qed.

(** *** notification, signals and interrupts *)
Lemma event_notify_sim j (s : wsys T) w a :
  srel s w a -> 0 <= j < MAX_EVENT_SOURCES ->
  exists s', event_notify (Some j) s = Ok (tt, s')
    /\ srel s' (p_notify j (w, a)).1 (p_notify j (w, a)).2.
Proof.
  intros [<- Hr] Hj. unfold event_notify, p_notify. wstep. cbn [fst snd].
  destruct (es_parent (esrc (wt s) !!! j)) as [i|]; [|by exists s].
  wstep. destruct (so_wakeup_law (PWaitObj i) (sch s) a Hr) as (t & E & Hr' & _).
  eexists. split; [apply on_sch_ok; exact E|]. done.
Qed.

(** A loop over all sources that notifies those selected by [P]. *)
Lemma notify_loop_sim (P : event_source -> Prop) `{!forall e, Decision (P e)}
    (body : Z -> M (wsys T) unit) l : forall s w a,
  (forall j, j ∈ l -> 0 <= j < MAX_EVENT_SOURCES) ->
  (forall j s, j ∈ l -> body j s = if decide (P (esrc (wt s) !!! j))
                                   then event_notify (Some j) s else Ok (tt, s)) ->
  srel s w a ->
  let wa := notify_fold P (w, a) l in
  exists s', for_each l body s = Ok (tt, s') /\ srel s' wa.1 wa.2.
Proof.
  induction l as [|j l IH]; intros s w a Hl Hb Hs; [by exists s|].
  assert (0 <= j < MAX_EVENT_SOURCES) as Hj by (apply Hl; by left).
  unfold notify_fold. cbn [foldl for_each]. unfold mbind, M_bind. rewrite Hb by (by left).
  pose proof Hs as [-> Hr]. cbn [fst].
  assert (forall s1 w1 a1, srel s1 w1 a1 ->
    let wa := notify_fold P (w1, a1) l in
    exists s', for_each l body s1 = Ok (tt, s') /\ srel s' wa.1 wa.2) as IH'.
  { intros s1 w1 a1. apply IH; intros; [apply Hl|apply Hb]; by right. }
  case_decide as Hp.
  - destruct (event_notify_sim j s w a Hs Hj) as (s1 & E & Hs1). rewrite E.
    destruct (p_notify j (w, a)) as [w1 a1]. by apply IH'.
  - by apply IH'.
Qed.

Lemma waitobj_on_timer_irq_sim (s : wsys T) w a :
  srel s w a ->
  exists s', waitobj_on_timer_irq s = Ok (tt, s')
    /\ srel s' (p_tick (w, a)).1 (p_tick (w, a)).2.
Proof.
  intros [<- Hr]. unfold waitobj_on_timer_irq, waitobj_timer_tick, p_tick. cbn [fst snd].
  unfold modify, mbind at 1, M_bind at 1. wstep.
  apply (notify_loop_sim (expired (u32 (waitobj_ticks (wt s) + 1)))).
  - intros j ?%elem_of_seqZ. lia.
  - intros j s1 Hj%elem_of_seqZ. unfold waitobj_timer_tick_body, expired.
    assert (0 <= j < MAX_EVENT_SOURCES) as Hj' by lia. wstep. unfold id. cbn [on_wt wt set_ticks waitobj_ticks].
    repeat case_decide; try done; tauto.
  - done.
Qed.

Lemma waitobj_console_input_notify_sim (s : wsys T) w a :
  srel s w a ->
  exists s', waitobj_console_input_notify s = Ok (tt, s')
    /\ srel s' (p_console (w, a)).1 (p_console (w, a)).2.
Proof.
  intros Hs. apply (notify_loop_sim armed_key); [| |done].
  - intros j ?%elem_of_seqZ. lia.
  - intros j s1 Hj%elem_of_seqZ. unfold waitobj_console_input_body, armed_key.
    assert (0 <= j < MAX_EVENT_SOURCES) as Hj' by lia. wstep. unfold id.
    repeat case_decide; try done; tauto.
Qed.

(** The source [sid] can be signalled by [owner]. *)
Definition signalable (w : wtables) (owner sid : Z) : Prop :=
  1 <= sid <= MAX_EVENT_SOURCES /\ es_id (esrc w !!! (sid - 1)) = sid
  /\ es_type (esrc w !!! (sid - 1)) = EVENT_SOFTWARE
  /\ match es_parent (esrc w !!! (sid - 1)) with
     | None => False | Some i => wo_owner_pid (wobjs w !!! i) = owner end.
#[export] Instance signalable_dec w owner sid : Decision (signalable w owner sid).
Proof. unfold signalable. destruct (es_parent _); apply _. Defined.

Lemma waitobj_signal_source_sim owner sid (s : wsys T) w a ls :
  srel s w a -> wt_inv w ls ->
  if decide (signalable w owner sid)
  then exists s', waitobj_signal_source owner sid s = Ok (0, s')
         /\ srel s' (p_notify (sid - 1) (w, a)).1 (p_notify (sid - 1) (w, a)).2
  else waitobj_signal_source owner sid s = Ok (-1, s).
Proof.
  intros Hs Hw. pose proof Hs as [E Hr]. unfold waitobj_signal_source. subst w.
  destruct (decide (sid < 1 \/ sid > MAX_EVENT_SOURCES)) as [Hd|Hd].
  { rewrite decide_False; [done|]. unfold signalable. lia. }
  assert (0 <= sid - 1 < MAX_EVENT_SOURCES) as Hj by lia. wstep. unfold id.
  destruct (decide (es_id _ <> sid)) as [Hid|Hid].
  { rewrite decide_False; [done|]. unfold signalable. tauto. }
  destruct (es_parent (esrc (wt s) !!! (sid - 1))) as [i|] eqn:Ep.
  2:{ rewrite decide_False; [done|]. unfold signalable. rewrite Ep. tauto. }
  destruct (wi_parent _ _ Hw i _ Hj Ep) as (Hi & _ & _). wstep.
  destruct (decide (wo_owner_pid _ <> owner)) as [Ho|Ho].
  { rewrite decide_False; [done|]. unfold signalable. rewrite Ep. tauto. }
  destruct (decide (es_type _ <> EVENT_SOFTWARE)) as [Ht|Ht].
  { rewrite decide_False; [done|]. unfold signalable. tauto. }
  rewrite decide_True.
  2:{ unfold signalable. rewrite Ep. split_and!; [lia..| | |]; apply dec_stable; done. }
  destruct (event_notify_sim (sid - 1) s (wt s) a Hs Hj) as (s' & E & Hs').
  exists s'. by rewrite (bind_ok _ _ _ _ _ E).
Qed.

End simulation.
