(* ===== verification/WaitSys.v ===== *)
(** * The wait-object system

    The operations of sync/waitobj.c interleaved with the scheduler: a state is
    the tables, the scheduler and the frames of the threads that are inside
    [waitobj_wait].  Kernel code runs with interrupts off on one processor, so
    one step is one operation between two switches.  The invariant [sys_inv]
    holds in every reachable state; its last part is that no thread sleeps on a
    wait object one of whose sources is ready (no wakeup is lost). *)

From S2P Require Import Prelude DList Machine Thread Scheduler WaitObj.

(** ** The tables stay well formed *)

Definition same_links (e e' : event_source) : Prop :=
  es_parent e' = es_parent e /\ es_id e' = es_id e /\ es_next e' = es_next e.

#[export] Instance same_links_preorder : PreOrder same_links.
Proof. split; [by intros ?|]. intros x y z (?&?&?) (?&?&?). repeat split; congruence. Qed.

Lemma wt_inv_ext w w' ls :
  wt_inv w ls -> wobjs w' = wobjs w -> is_u32 (waitobj_ticks w') ->
  (forall j, same_links (esrc w !!! j) (esrc w' !!! j)) -> wt_inv w' ls.
Proof.
  intros Hw Eo Et Hs. split; try rewrite Eo; try apply Hw; [done|..].
  - intros i Hi. eapply chain_ext; [|by apply (wi_chain _ _ Hw)]. intros j _. apply Hs.
  - intros i j Hi. destruct (Hs j) as (-> & _ & _). by apply Hw.
  - intros i j Hj. destruct (Hs j) as (-> & -> & _). by apply Hw.
  - intros j Hj. destruct (Hs j) as (-> & -> & _). by apply Hw.
Qed.

Lemma wt_inv_upd_es w ls j f :
  wt_inv w ls -> (forall e, same_links e (f e)) -> wt_inv (upd_es j f w) ls.
Proof.
  intros Hw Hf. apply (wt_inv_ext w); [done..|apply Hw|]. intros k.
  autorewrite with wobj. case_decide; [subst; apply Hf|done].
Qed.

Lemma wt_inv_unused w ls i :
  wt_inv w ls -> 0 <= i < MAX_WAIT_OBJECTS -> wo_in_use (wobjs w !!! i) = 0 -> ls i = [].
Proof.
  intros Hw Hi Hu. destruct (ls i) as [|j l] eqn:E; [done|].
  assert (j ∈ ls i) as Hj by (rewrite E; by left).
  apply (wi_src _ _ Hw i j Hi) in Hj as [Hj Hp].
  by destruct (wi_parent _ _ Hw i j Hj Hp) as (_ & ? & _).
Qed.

Lemma wt_inv_create w ls i owner :
  wt_inv w ls -> 0 <= i < MAX_WAIT_OBJECTS -> wo_in_use (wobjs w !!! i) = 0 ->
  wt_inv (w_create i owner w) ls.
Proof.
  intros Hw Hi Hu. pose proof (wt_inv_unused _ _ _ Hw Hi Hu) as El. unfold w_create.
  split; try apply Hw; intros k.
  - intros Hk. unfold upd_wo. cbn. destruct (decide (i = k)) as [->|Hne].
    + rewrite lookup_insert_eq. by eexists.
    + rewrite lookup_insert_ne by done. by apply Hw.
  - intros Hk. autorewrite with wobj. case_decide; [subst|]; by apply Hw.
  - intros Hk. autorewrite with wobj. case_decide; [subst|]; by apply Hw.
  - intros Hk. autorewrite with wobj. case_decide; [subst; by rewrite El|by apply Hw].
  - intros j Hj Hp. destruct (wi_parent _ _ Hw k j Hj Hp) as (? & ? & ?).
    split; [done|]. split; [|done]. autorewrite with wobj. by case_decide.
Qed.

Definition ls_add (i j : Z) (ls : Z -> list Z) : Z -> list Z :=
  fun k => if decide (k = i) then j :: ls i else ls k.

Lemma wt_inv_add w ls i j type arg_ms :
  wt_inv w ls -> 0 <= i < MAX_WAIT_OBJECTS -> wo_in_use (wobjs w !!! i) <> 0 ->
  free_slot w = Some j -> wt_inv (w_add i j type arg_ms w) (ls_add i j ls).
Proof.
  intros Hw Hi Hu Hfree. destruct (free_slot_Some _ _ Hfree) as (Hj & Hp & _).
  assert (forall k, 0 <= k < MAX_WAIT_OBJECTS -> j ∉ ls k) as Hnl.
  { intros k Hk Hin. apply (wi_src _ _ Hw) in Hin as [_ ?]; congruence. }
  unfold w_add, ls_add. split.
  - apply Hw.
  - intros k Hk. unfold upd_wo. cbn. destruct (decide (i = k)) as [->|Hne].
    + rewrite lookup_insert_eq. by eexists.
    + rewrite lookup_insert_ne by done. by apply Hw.
  - intros k Hk. autorewrite with wobj. case_decide; [subst|]; by apply Hw.
  - intros k Hk. autorewrite with wobj. case_decide; [subst|]; by apply Hw.
  - intros k Hk. autorewrite with wobj.
    assert (forall p l, j ∉ l -> chain (esrc w) p l ->
      chain (esrc (upd_wo i (set_sources (Some j)) (upd_es j (fun _ =>
        new_source i j type arg_ms (waitobj_ticks w) (wo_sources (wobjs w !!! i))) w))) p l) as Hce.
    { intros p l Hjl. apply chain_ext. intros x Hx. cbn [esrc upd_wo]. autorewrite with wobj.
      by rewrite decide_False by congruence. }
    destruct (decide (k = i)) as [->|Hne].
    + rewrite decide_True by done. cbn [chain set_sources wo_sources]. split; [done|].
      cbn [esrc upd_wo]. autorewrite with wobj. rewrite decide_True by done.
      apply Hce; [by apply Hnl|]. by apply Hw.
    + rewrite decide_False by done. apply Hce; [by apply Hnl|]. by apply Hw.
  - intros k. case_decide as Ek; [|apply Hw]. constructor; [by apply Hnl|apply Hw].
  - intros k x Hk. cbn [esrc upd_wo]. autorewrite with wobj.
    destruct (decide (k = i)) as [->|Hne].
    + rewrite elem_of_cons, (wi_src _ _ Hw) by done.
      destruct (decide (j = x)) as [<-|]; cbn; naive_solver.
    + rewrite (wi_src _ _ Hw) by done. destruct (decide (j = x)) as [<-|]; cbn; [|done].
      rewrite Hp. naive_solver.
  - intros k x Hx. cbn [esrc upd_wo]. autorewrite with wobj.
    destruct (decide (j = x)) as [<-|Hne]; cbn.
    + intros [= <-]. split; [done|]. by rewrite decide_True by done.
    + intros Hpx. destruct (wi_parent _ _ Hw k x Hx Hpx) as (? & ? & ?).
      split; [done|]. split; [|done]. by case_decide; subst.
  - intros x Hx. cbn [esrc upd_wo]. autorewrite with wobj.
    case_decide; [done|]. by apply Hw.
Qed.

(** ** Rescheduling and notifying, pointwise *)
Lemma resched1_esrc now j w k :
  esrc (w_resched1 now j w) !!! k =
    (if decide (j = k /\ es_type (esrc w !!! k) = EVENT_TIMER)
     then set_timer (es_period_ms (esrc w !!! k)) (u32 (now + es_period_ms (esrc w !!! k)))
            (set_ready 0 (esrc w !!! k))
     else esrc w !!! k).
Proof.
  unfold w_resched1. case_decide as Ht.
  - autorewrite with wobj. destruct (decide (j = k)) as [->|Hne].
    + by rewrite decide_True.
    + by rewrite decide_False by tauto.
  - destruct (decide (j = k)) as [->|Hne]; by rewrite decide_False by tauto.
Qed.

Lemma resched_esrc now l : forall w k,
  esrc (foldl (fun w' j => w_resched1 now j w') w l) !!! k =
    (if decide (k ∈ l /\ es_type (esrc w !!! k) = EVENT_TIMER)
     then set_timer (es_period_ms (esrc w !!! k)) (u32 (now + es_period_ms (esrc w !!! k)))
            (set_ready 0 (esrc w !!! k))
     else esrc w !!! k).
Proof.
  induction l as [|j l IH]; intros w k.
  - cbn. rewrite decide_False; [done|]. intros [Hk _]. by apply elem_of_nil in Hk.
  - cbn [foldl]. rewrite IH, resched1_esrc.
    destruct (decide (es_type (esrc w !!! k) = EVENT_TIMER)) as [Ht|Ht].
    + destruct (decide (j = k /\ _)) as [[-> _]|Hjk].
      * rewrite (decide_True (P := k ∈ k :: l /\ _)) by (split; [by left|done]).
        by case_decide.
      * apply decide_ext. rewrite elem_of_cons. naive_solver.
    + rewrite (decide_False (P := j = k /\ _)) by tauto.
      by rewrite !decide_False by tauto.
Qed.

Lemma resched_ticks now l : forall w,
  waitobj_ticks (foldl (fun w' j => w_resched1 now j w') w l) = waitobj_ticks w.
Proof.
  induction l as [|j l IH]; intros w; [done|]. cbn [foldl]. rewrite IH.
  unfold w_resched1. by case_decide.
Qed.

Lemma deliver_esrc j l w k :
  esrc (w_deliver j l w) !!! k =
    let e := if decide (j = k) then set_ready 0 (esrc w !!! k) else esrc w !!! k in
    if decide (k ∈ l /\ es_type (esrc w !!! k) = EVENT_TIMER)
    then set_timer (es_period_ms e) (u32 (waitobj_ticks w + es_period_ms e)) (set_ready 0 e)
    else e.
Proof.
  unfold w_deliver, w_resched. rewrite resched_esrc. autorewrite with wobj.
  destruct (decide (j = k)) as [->|Hne]; done.
Qed.

Lemma wt_inv_deliver w ls j l : wt_inv w ls -> wt_inv (w_deliver j l w) ls.
Proof.
  intros Hw. apply (wt_inv_ext w); [done|apply w_deliver_wobjs|..].
  - unfold w_deliver, w_resched. rewrite resched_ticks. apply Hw.
  - intros k. rewrite deliver_esrc. cbv zeta. by repeat case_decide.
Qed.

Section notify_fold.
Context (P : event_source -> Prop) `{!forall e, Decision (P e)}.
Hypothesis P_parent : forall e, P e -> es_parent e <> None.

Lemma notify_fold_wobjs l : forall wa,
  wobjs (notify_fold P wa l).1 = wobjs wa.1
  /\ waitobj_ticks (notify_fold P wa l).1 = waitobj_ticks wa.1
  /\ a_cur (notify_fold P wa l).2 = a_cur wa.2.
Proof.
  induction l as [|j l IH]; intros wa; [done|]. unfold notify_fold. cbn [foldl].
  destruct (IH (if decide (P (esrc wa.1 !!! j)) then p_notify j wa else wa)) as (E1 & E2 & E3).
  unfold notify_fold in *. rewrite E1, E2, E3. case_decide; [|done].
  unfold p_notify. by destruct (es_parent _).
Qed.

Lemma notify_fold_esrc l : NoDup l -> forall wa k,
  esrc (notify_fold P wa l).1 !!! k =
    if decide (k ∈ l /\ P (esrc wa.1 !!! k)) then set_ready 1 (esrc wa.1 !!! k)
    else esrc wa.1 !!! k.
Proof.
  induction l as [|j l IH]; intros Hnd wa k.
  - cbn. rewrite decide_False; [done|]. intros [Hk _]. by apply elem_of_nil in Hk.
  - apply NoDup_cons in Hnd as [Hjl Hnd].
    change (notify_fold P wa (j :: l)) with
      (notify_fold P (if decide (P (esrc wa.1 !!! j)) then p_notify j wa else wa) l).
    rewrite IH by done. destruct (decide (P (esrc wa.1 !!! j))) as [Hp|Hp].
    + unfold p_notify. destruct (es_parent _) as [i|] eqn:Epar.
      2:{ exfalso. by apply (P_parent _ Hp). }
      cbn [fst]. autorewrite with wobj.
      destruct (decide (j = k)) as [<-|Hne].
      * rewrite decide_False by tauto. rewrite decide_True by (split; [by left|done]). done.
      * apply decide_ext. rewrite elem_of_cons. naive_solver.
    + apply decide_ext. rewrite elem_of_cons. naive_solver.
Qed.

(** Only threads waiting for a notified parent are woken. *)
Lemma notify_fold_chan l : forall wa p c,
  (forall j i, j ∈ l -> P (esrc wa.1 !!! j) -> es_parent (esrc wa.1 !!! j) = Some i ->
     c <> PWaitObj i) ->
  NoDup l -> a_chan wa.2 p = Some c -> a_chan (notify_fold P wa l).2 p = Some c.
Proof.
  induction l as [|j l IH]; intros wa p c Hc Hnd Hp; [done|].
  apply NoDup_cons in Hnd as [Hjl Hnd].
  change (notify_fold P wa (j :: l)) with
    (notify_fold P (if decide (P (esrc wa.1 !!! j)) then p_notify j wa else wa) l).
  destruct (decide (P (esrc wa.1 !!! j))) as [HP|HP].
  - unfold p_notify. destruct (es_parent (esrc wa.1 !!! j)) as [i|] eqn:Epar.
    2:{ exfalso. by apply (P_parent _ HP). }
    assert (c <> PWaitObj i) as Hci by (apply (Hc j i); [by left|done..]).
    apply IH; [|done|].
    + intros k i' Hk. cbn [fst]. autorewrite with wobj.
      rewrite decide_False by congruence. apply Hc. by right.
    + cbn. rewrite decide_False; [done|]. intros Hin.
      apply elem_of_woken in Hin as [? _]. congruence.
  - apply IH; [|done..]. intros. apply (Hc j0); [by right|done..].
Qed.

Lemma wt_inv_notify_fold ls l wa : NoDup l -> wt_inv wa.1 ls -> wt_inv (notify_fold P wa l).1 ls.
Proof.
  intros Hnd Hw. destruct (notify_fold_wobjs l wa) as (E1 & E2 & _).
  apply (wt_inv_ext wa.1); [done..|rewrite E2; apply Hw|].
  intros k. rewrite notify_fold_esrc by done. by case_decide.
Qed.

End notify_fold.

Lemma p_tick_eq w a :
  p_tick (w, a) = notify_fold (expired (u32 (waitobj_ticks w + 1)))
    (set_ticks (u32 (waitobj_ticks w + 1)) w, a) (seqZ 0 MAX_EVENT_SOURCES).
Proof. reflexivity. Qed.
Lemma p_console_eq wa : p_console wa = notify_fold armed_key wa (seqZ 0 MAX_EVENT_SOURCES).
Proof. reflexivity. Qed.

Lemma expired_parent now e : expired now e -> es_parent e <> None.
Proof. by intros [? _]. Qed.
Lemma armed_key_parent e : armed_key e -> es_parent e <> None.
Proof. by intros [? _]. Qed.

(** ** No lost wakeup *)

(** Threads asleep on a wait object have an id [thread_wakeup] scans, and wait
    for an object without a ready source. *)
Definition no_lost (w : wtables) (a : asched) : Prop :=
  forall p i, a_chan a p = Some (PWaitObj i) ->
    1 <= p < NUM_IDS /\
    forall j, 0 <= j < MAX_EVENT_SOURCES -> es_parent (esrc w !!! j) = Some i ->
      es_ready (esrc w !!! j) = 0.

Lemma woken_chan_None c a p :
  1 <= p < NUM_IDS -> a_chan a p = Some c -> a_chan (a_wakeup c a) p = None.
Proof.
  intros Hp Hc. cbn. rewrite decide_True; [done|]. apply elem_of_woken.
  split; [done|]. apply elem_of_seqZ. unfold NUM_IDS in *. lia.
Qed.

Lemma a_wakeup_chan c a p x : a_chan (a_wakeup c a) p = Some x -> a_chan a p = Some x.
Proof. cbn. by case_decide. Qed.

Lemma no_lost_wakeup_any c w a : no_lost w a -> no_lost w (a_wakeup c a).
Proof. intros Hn p i Hp. apply Hn. by eapply a_wakeup_chan. Qed.

Lemma no_lost_notify j wa : no_lost wa.1 wa.2 -> no_lost (p_notify j wa).1 (p_notify j wa).2.
Proof.
  intros Hn. unfold p_notify. destruct (es_parent (esrc wa.1 !!! j)) as [i|] eqn:Ep; [|done].
  cbn [fst snd]. intros p k Hp. pose proof (a_wakeup_chan _ _ _ _ Hp) as Hp'.
  destruct (Hn p k Hp') as [Hr Hk]. split; [done|]. intros x Hx. autorewrite with wobj.
  destruct (decide (j = x)) as [<-|Hne]; [|by apply Hk].
  cbn. rewrite Ep. intros [= <-]. rewrite woken_chan_None in Hp by done. done.
Qed.

Lemma no_lost_fold P `{!forall e, Decision (P e)} l : forall wa,
  no_lost wa.1 wa.2 -> no_lost (notify_fold P wa l).1 (notify_fold P wa l).2.
Proof.
  induction l as [|j l IH]; intros wa Hn; [done|].
  change (notify_fold P wa (j :: l)) with
    (notify_fold P (if decide (P (esrc wa.1 !!! j)) then p_notify j wa else wa) l).
  apply IH. case_decide; [by apply no_lost_notify|done].
Qed.

Lemma no_lost_mono w w' a :
  (forall j, 0 <= j < MAX_EVENT_SOURCES ->
     es_parent (esrc w' !!! j) = es_parent (esrc w !!! j) /\
     (es_ready (esrc w !!! j) = 0 -> es_ready (esrc w' !!! j) = 0)) ->
  no_lost w a -> no_lost w' a.
Proof.
  intros Hm Hn p i Hp. destruct (Hn p i Hp) as [Hr Hk]. split; [done|].
  intros j Hj. destruct (Hm j Hj) as [-> Hz]. eauto.
Qed.

Lemma no_lost_deliver j l w a : no_lost w a -> no_lost (w_deliver j l w) a.
Proof.
  apply no_lost_mono. intros k _. rewrite deliver_esrc. cbv zeta.
  by repeat case_decide.
Qed.

Lemma no_lost_add w a ls i j type arg_ms :
  wt_inv w ls -> free_slot w = Some j -> no_lost w a -> no_lost (w_add i j type arg_ms w) a.
Proof.
  intros Hw Hf Hn p k Hp. destruct (Hn p k Hp) as [Hr Hk]. split; [done|].
  intros x Hx. cbn [esrc upd_wo w_add]. unfold w_add. cbn [esrc upd_wo].
  autorewrite with wobj. case_decide; [done|]. by apply Hk.
Qed.

Lemma no_lost_sleep w a a' ls i :
  wt_inv w ls -> 0 <= i < MAX_WAIT_OBJECTS -> first_ready w (ls i) = None ->
  1 <= a_cur a < NUM_IDS -> a_sleep (PWaitObj i) a = Some a' -> no_lost w a -> no_lost w a'.
Proof.
  intros Hw Hi Hf Hc Es Hn. unfold a_sleep in Es.
  destruct (a_rq a) as [|x rq]; [done|]. injection Es as <-. intros p k. cbn.
  destruct (decide (p = a_cur a)) as [->|Hne]; [|apply Hn].
  intros [= <-]. split; [done|]. intros j Hj Hp.
  apply (proj1 (first_ready_None w (ls i)) Hf). by apply (wi_src _ _ Hw).
Qed.

(** ** The system as a step relation *)
Section system.
Context {T : Type} `{SchedLaws T}.

Record sys := { sy : wsys T; frames : gmap Z wait_frame }.

(** The frame of thread [c] after a pass of the wait loop. *)
Definition after_iter (c : Z) (fr : wait_frame) (res : wait_res) (f : gmap Z wait_frame) :
    gmap Z wait_frame :=
  match res with WReturn _ _ => delete c f | WAsleep => <[c := fr]> f end.

(** What the running thread [c], or an interrupt, can do next.  A thread with a
    frame is inside [waitobj_wait]: all it does when it runs is resume.  System
    calls come from user processes, whose ids are not 0. *)
Inductive sys_step : sys -> sys -> Prop :=
| st_create x c r s' :
    so_get_curid (sch (sy x)) = Ok (c, sch (sy x)) -> frames x !! c = None ->
    waitobj_create c (sy x) = Ok (r, s') ->
    sys_step x {| sy := s'; frames := frames x |}
| st_add x c wid type arg_ms r s' :
    so_get_curid (sch (sy x)) = Ok (c, sch (sy x)) -> frames x !! c = None ->
    waitobj_add c wid type arg_ms (sy x) = Ok (r, s') ->
    sys_step x {| sy := s'; frames := frames x |}
| st_signal x c sid r s' :
    so_get_curid (sch (sy x)) = Ok (c, sch (sy x)) -> frames x !! c = None ->
    waitobj_signal_source c sid (sy x) = Ok (r, s') ->
    sys_step x {| sy := s'; frames := frames x |}
| st_wait_inval x c wid tmo r s' :
    so_get_curid (sch (sy x)) = Ok (c, sch (sy x)) -> frames x !! c = None ->
    waitobj_wait_start c wid tmo (sy x) = Ok (inl r, s') ->
    sys_step x {| sy := s'; frames := frames x |}
| st_wait x c wid tmo fr s1 res s' :
    so_get_curid (sch (sy x)) = Ok (c, sch (sy x)) -> frames x !! c = None ->
    1 <= c < NUM_IDS ->
    waitobj_wait_start c wid tmo (sy x) = Ok (inr fr, s1) ->
    waitobj_wait_iter fr s1 = Ok (res, s') ->
    sys_step x {| sy := s'; frames := after_iter c fr res (frames x) |}
| st_resume x c fr res s' :
    so_get_curid (sch (sy x)) = Ok (c, sch (sy x)) -> frames x !! c = Some fr ->
    waitobj_wait_resume c fr (sy x) = Ok (res, s') ->
    sys_step x {| sy := s'; frames := after_iter c fr res (frames x) |}
| st_timer x s' :
    waitobj_on_timer_irq (sy x) = Ok (tt, s') ->
    sys_step x {| sy := s'; frames := frames x |}
| st_console x s' :
    waitobj_console_input_notify (sy x) = Ok (tt, s') ->
    sys_step x {| sy := s'; frames := frames x |}
| st_yield x s' :
    on_sch so_yield (sy x) = Ok (tt, s') ->
    sys_step x {| sy := s'; frames := frames x |}
| st_other_wakeup x ch s' :
    on_sch (so_wakeup ch) (sy x) = Ok (tt, s') ->
    sys_step x {| sy := s'; frames := frames x |}
| st_other_sleep x c ch lk l' s' :
    so_get_curid (sch (sy x)) = Ok (c, sch (sy x)) -> frames x !! c = None ->
    (forall i, ch <> PWaitObj i) ->
    on_sch (so_sleep ch (Some lk)) (sy x) = Ok (l', s') ->
    sys_step x {| sy := s'; frames := frames x |}.

Record sys_inv' (x : sys) (ls : Z -> list Z) (a : asched) : Prop := {
  sv_rel : srel (sy x) (wt (sy x)) a;
  sv_wt : wt_inv (wt (sy x)) ls;
  sv_lost : no_lost (wt (sy x)) a;
  sv_frames : forall p fr, frames x !! p = Some fr ->
    0 <= wf_wo fr < MAX_WAIT_OBJECTS /\ 1 <= p < NUM_IDS;
  sv_sleep : forall p i, a_chan a p = Some (PWaitObj i) ->
    exists fr, frames x !! p = Some fr /\ wf_wo fr = i;
}.

Definition sys_inv (x : sys) : Prop := exists ls a, sys_inv' x ls a.

(** Steps that change neither sleepers' channels (except to wake them) nor frames. *)
Lemma sys_inv_step x s' ls ls' a a' :
  sys_inv' x ls a -> srel s' (wt s') a' -> wt_inv (wt s') ls' -> no_lost (wt s') a' ->
  (forall p i, a_chan a' p = Some (PWaitObj i) -> a_chan a p = Some (PWaitObj i)) ->
  sys_inv' {| sy := s'; frames := frames x |} ls' a'.
Proof.
  intros Hx Hr Hw Hn Hc. split; try done; cbn.
  - apply Hx.
  - intros p i Hp. by apply (sv_sleep _ _ _ Hx), Hc.
Qed.

Lemma notify_fold_chan_back P `{!forall e, Decision (P e)} l : forall wa p c,
  a_chan (notify_fold P wa l).2 p = Some c -> a_chan wa.2 p = Some c.
Proof.
  induction l as [|j l IH]; intros wa p c; [done|].
  change (notify_fold P wa (j :: l)) with
    (notify_fold P (if decide (P (esrc wa.1 !!! j)) then p_notify j wa else wa) l).
  intros Hp%IH. revert Hp. case_decide; [|done]. unfold p_notify.
  destruct (es_parent _); [apply a_wakeup_chan|done].
Qed.

(** A pass of the wait loop by the running thread [c = a_cur a]. *)
Lemma sys_inv_iter x s0 fr res s' ls a :
  sys_inv' x ls a -> srel s0 (wt (sy x)) a ->
  0 <= wf_wo fr < MAX_WAIT_OBJECTS -> 1 <= a_cur a < NUM_IDS ->
  waitobj_wait_iter fr
    (on_wt (upd_wo (wf_wo fr) (set_lk (held_lock (so_kstack (sch s0))))) s0) = Ok (res, s') ->
  exists a', sys_inv' {| sy := s'; frames := after_iter (a_cur a) fr res (frames x) |} ls a'.
Proof.
  intros Hx Hs0 Hi Hcur E. pose proof Hx as [Hr Hw Hn Hf Hc].
  assert (a_chan a (a_cur a) = None) as Hawake.
  { apply (so_awake (sch s0)); [apply Hs0|by left]. }
  pose proof (waitobj_wait_iter_sim fr s0 _ a ls Hs0 Hw Hi) as Hsim. cbv zeta in Hsim.
  assert (forall w t r o, res = WReturn r o -> s' = {| wt := w; sch := t |} ->
     so_rel t a -> wt_inv w ls -> no_lost w a ->
     exists a', sys_inv' {| sy := s'; frames := after_iter (a_cur a) fr res (frames x) |} ls a') as Hret.
  { intros w t r o -> -> Hr' Hw' Hn'. exists a. split; try done; cbn.
    - intros p f [_ Hp]%lookup_delete_Some. by apply Hf.
    - intros p i Hp. destruct (Hc p i Hp) as (f & Hpf & Ef). exists f. split; [|done].
      apply lookup_delete_Some. split; [congruence|done]. }
  destruct s0 as [w0 t0]. destruct Hs0 as [Ew Hr0]. cbn in Ew, Hr0. subst w0.
  destruct (first_ready (wt (sy x)) (ls (wf_wo fr))) as [j|] eqn:Ef.
  - rewrite Hsim in E. injection E as <- <-. eapply Hret; [done..| |].
    + by apply wt_inv_deliver.
    + by apply no_lost_deliver.
  - destruct (decide (timed_out fr _)).
    + rewrite Hsim in E. injection E as <- <-. by eapply Hret.
    + destruct (a_sleep _ a) as [a'|] eqn:Ea; [|congruence].
      destruct Hsim as (t' & E' & Hr'). rewrite E' in E. injection E as <- <-.
      exists a'. split; try done; cbn.
      * by eapply no_lost_sleep.
      * intros p f. destruct (decide (a_cur a = p)) as [<-|Hne].
        -- rewrite lookup_insert_eq. intros [= <-]. done.
        -- rewrite lookup_insert_ne by done. by apply Hf.
      * intros p i Hp. unfold a_sleep in Ea. destruct (a_rq a) as [|y rq]; [done|].
        injection Ea as <-. cbn in Hp. destruct (decide (p = a_cur a)) as [->|Hne].
        -- injection Hp as <-. exists fr. by rewrite lookup_insert_eq.
        -- destruct (Hc p i Hp) as (f & Hpf & Efr). exists f. by rewrite lookup_insert_ne by done.
Qed.

Lemma cur_unique c s a : so_rel s a -> so_get_curid s = Ok (c, s) -> c = a_cur a.
Proof. intros Hr E. rewrite (so_curid_law s a Hr) in E. congruence. Qed.

Section one_step.
Context (x : sys) (ls : Z -> list Z) (a : asched).
Hypothesis Hx : sys_inv' x ls a.

Lemma inv_same s' a' :
  wt s' = wt (sy x) -> so_rel (sch s') a' ->
  (forall p i, a_chan a' p = Some (PWaitObj i) -> a_chan a p = Some (PWaitObj i)) ->
  sys_inv {| sy := s'; frames := frames x |}.
Proof.
  intros Ew Hr Hc. exists ls, a'. apply (sys_inv_step x _ ls ls a a' Hx); try rewrite Ew; try done.
  - apply Hx.
  - intros p i Hp. by apply (sv_lost _ _ _ Hx), Hc.
Qed.

Lemma inv_unchanged : sys_inv {| sy := sy x; frames := frames x |}.
Proof. apply (inv_same _ a); [done|apply Hx|done]. Qed.

Lemma inv_create c r s' :
  waitobj_create c (sy x) = Ok (r, s') -> sys_inv {| sy := s'; frames := frames x |}.
Proof.
  pose proof Hx as [Hr Hw Hn _ _]. rewrite (waitobj_create_sim c _ _ _ _ Hr Hw).
  destruct (list_find _ _) as [[n i]|] eqn:Ef; intros [= <- <-]; [|apply inv_unchanged].
  apply list_find_Some in Ef as (Hi%list_elem_of_lookup_2%elem_of_seqZ & Hu & _).
  exists ls, a. apply (sys_inv_step x _ ls ls a a Hx); try done.
  - split; [done|apply Hr].
  - apply wt_inv_create; [done|lia|done].
Qed.

Lemma inv_add c wid type arg r s' :
  waitobj_add c wid type arg (sy x) = Ok (r, s') ->
  sys_inv {| sy := s'; frames := frames x |}.
Proof.
  pose proof Hx as [Hr Hw Hn _ _]. rewrite (waitobj_add_sim c wid type arg _ _ _ _ Hr Hw).
  case_decide as Ho; [destruct (free_slot _) as [j|] eqn:Ej|]; intros [= <- <-];
    [|apply inv_unchanged..].
  destruct Ho as (Hi & Hu & _). exists (ls_add wid j ls), a.
  apply (sys_inv_step x _ ls _ a a Hx); try done.
  - split; [done|apply Hr].
  - by apply wt_inv_add.
  - by eapply no_lost_add.
Qed.

Lemma inv_signal c sid r s' :
  waitobj_signal_source c sid (sy x) = Ok (r, s') ->
  sys_inv {| sy := s'; frames := frames x |}.
Proof.
  pose proof Hx as [Hr Hw Hn _ _]. intros E.
  pose proof (waitobj_signal_source_sim c sid _ _ _ _ Hr Hw) as Hsim.
  case_decide as Hd; [|rewrite Hsim in E; injection E as <- <-; apply inv_unchanged].
  destruct Hsim as (s1 & E1 & Ew & Hr1). rewrite E1 in E. injection E as <- <-.
  exists ls, (p_notify (sid - 1) (wt (sy x), a)).2.
  apply (sys_inv_step x _ ls ls a _ Hx); try done.
  - rewrite Ew. unfold p_notify. destruct (es_parent _); [|done]. by apply wt_inv_upd_es.
  - rewrite Ew. by apply (no_lost_notify (sid - 1) (wt (sy x), a)).
  - intros p i. unfold p_notify. destruct (es_parent _); [apply a_wakeup_chan|done].
Qed.

Lemma inv_wait c wid tmo fr s1 res s' :
  c = a_cur a -> 1 <= c < NUM_IDS ->
  waitobj_wait_start c wid tmo (sy x) = Ok (inr fr, s1) ->
  waitobj_wait_iter fr s1 = Ok (res, s') ->
  sys_inv {| sy := s'; frames := after_iter c fr res (frames x) |}.
Proof.
  pose proof Hx as [Hr Hw Hn _ _]. intros -> Hc E1 E.
  rewrite (waitobj_wait_start_sim _ wid tmo _ _ _ _ Hr Hw) in E1.
  case_decide as Ho; [|done]. injection E1 as Ef <-. destruct Ho as (Hi & _).
  destruct (sys_inv_iter x (sy x) fr res s' ls a) as [a' Ha']; [done..| | | |by exists ls, a'];
    subst fr; done.
Qed.

Lemma inv_resume c fr res s' :
  c = a_cur a -> frames x !! c = Some fr ->
  waitobj_wait_resume c fr (sy x) = Ok (res, s') ->
  sys_inv {| sy := s'; frames := after_iter c fr res (frames x) |}.
Proof.
  pose proof Hx as [Hr Hw _ Hf _]. intros -> Hfr E. destruct (Hf _ _ Hfr) as [Hi Hc1].
  destruct (waitobj_wait_resume_sim fr _ _ _ _ Hr Hw Hi) as (s1 & Hs1 & _ & E1).
  rewrite E1 in E.
  destruct (sys_inv_iter x s1 fr res s' ls a Hx Hs1 Hi Hc1 E) as [a' Ha']. by exists ls, a'.
Qed.

(** Interrupt handlers: a loop of notifications over tables with the same
    objects and links. *)
Lemma inv_notify_fold P `{!forall e, Decision (P e)} s' w :
  (forall e, P e -> es_parent e <> None) ->
  wobjs w = wobjs (wt (sy x)) -> esrc w = esrc (wt (sy x)) -> is_u32 (waitobj_ticks w) ->
  srel s' (notify_fold P (w, a) (seqZ 0 MAX_EVENT_SOURCES)).1
          (notify_fold P (w, a) (seqZ 0 MAX_EVENT_SOURCES)).2 ->
  sys_inv {| sy := s'; frames := frames x |}.
Proof.
  pose proof Hx as [Hr Hw Hn _ _]. intros HP Eo Ee Et [Ew Hr1]. eexists ls, _.
  apply (sys_inv_step x _ ls ls a _ Hx); [by split|..]; rewrite ?Ew.
  - apply wt_inv_notify_fold; [done|apply NoDup_seqZ|].
    apply (wt_inv_ext (wt (sy x))); [done..|]. intros j. cbn. by rewrite Ee.
  - apply no_lost_fold. cbn. intros p i Hp. rewrite Ee. by apply Hn.
  - intros p i Hp. by apply notify_fold_chan_back in Hp.
Qed.

Lemma inv_timer s' :
  waitobj_on_timer_irq (sy x) = Ok (tt, s') -> sys_inv {| sy := s'; frames := frames x |}.
Proof.
  intros E. destruct (waitobj_on_timer_irq_sim _ _ _ (sv_rel _ _ _ Hx)) as (s1 & E1 & Hs1).
  rewrite E1 in E. injection E as <-.
  rewrite p_tick_eq in Hs1. set (now := u32 (waitobj_ticks (wt (sy x)) + 1)) in *.
  apply (inv_notify_fold (expired now) s1 (set_ticks now (wt (sy x)))).
  - apply expired_parent.
  - reflexivity.
  - reflexivity.
  - apply u32_range.
  - exact Hs1.
Qed.

Lemma inv_console s' :
  waitobj_console_input_notify (sy x) = Ok (tt, s') ->
  sys_inv {| sy := s'; frames := frames x |}.
Proof.
  intros E. destruct (waitobj_console_input_notify_sim _ _ _ (sv_rel _ _ _ Hx))
    as (s1 & E1 & Hs1).
  rewrite E1 in E. injection E as <-.
  rewrite p_console_eq in Hs1. apply (inv_notify_fold armed_key s1 (wt (sy x))).
  - apply armed_key_parent.
  - reflexivity.
  - reflexivity.
  - apply Hx.
  - exact Hs1.
Qed.

Lemma inv_yield s' :
  on_sch so_yield (sy x) = Ok (tt, s') -> sys_inv {| sy := s'; frames := frames x |}.
Proof.
  intros E. destruct (so_yield_law _ _ (proj2 (sv_rel _ _ _ Hx))) as (t & E1 & Hr1 & _).
  rewrite (on_sch_ok _ _ _ _ E1) in E. injection E as <-.
  apply (inv_same _ (a_yield a)); [done..|].
  intros p i. unfold a_yield. by destruct (a_rq a).
Qed.

Lemma inv_other_wakeup ch s' :
  on_sch (so_wakeup ch) (sy x) = Ok (tt, s') -> sys_inv {| sy := s'; frames := frames x |}.
Proof.
  intros E. destruct (so_wakeup_law ch _ _ (proj2 (sv_rel _ _ _ Hx))) as (t & E1 & Hr1 & _).
  rewrite (on_sch_ok _ _ _ _ E1) in E. injection E as <-.
  apply (inv_same _ (a_wakeup ch a)); [done..|]. intros p i. apply a_wakeup_chan.
Qed.

Lemma inv_other_sleep ch lk l' s' :
  (forall i, ch <> PWaitObj i) -> on_sch (so_sleep ch (Some lk)) (sy x) = Ok (l', s') ->
  sys_inv {| sy := s'; frames := frames x |}.
Proof.
  intros Hch E. pose proof (proj2 (sv_rel _ _ _ Hx)) as Hr.
  destruct (a_sleep ch a) as [a'|] eqn:Ea.
  2:{ unfold on_sch, zoom in E. rewrite (so_sleep_empty ch lk _ a Hr Ea) in E. done. }
  destruct (so_sleep_law ch lk _ _ _ Hr Ea) as (t & E1 & Hr1 & _).
  rewrite (on_sch_ok _ _ _ _ E1) in E. injection E as <- <-.
  apply (inv_same _ a'); [done..|].
  unfold a_sleep in Ea. destruct (a_rq a); [done|]. injection Ea as <-. cbn.
  intros p i. case_decide; [|done]. intros [= Hci]. by destruct (Hch i).
Qed.

End one_step.

Lemma sys_step_inv x y : sys_step x y -> sys_inv x -> sys_inv y.
Proof.
  intros Hstep (ls & a & Hx).
  destruct Hstep;
    try match goal with
        | Hc : so_get_curid _ = Ok (?c, _) |- _ =>
            pose proof (cur_unique _ _ _ (proj2 (sv_rel _ _ _ Hx)) Hc)
        end;
    eauto using inv_create, inv_add, inv_signal, inv_wait, inv_resume, inv_timer, inv_console,
      inv_yield, inv_other_wakeup, inv_other_sleep.
  rename H3 into E. rewrite (waitobj_wait_start_sim _ wid tmo _ _ _ _ (sv_rel _ _ _ Hx)
    (sv_wt _ _ _ Hx)) in E. case_decide; [done|]. injection E as <- <-.
  by eapply inv_unchanged.
Qed.

End system.

(** ** Initial states *)
Section init.
Context {T : Type} `{SchedOps T}.

Definition wo_ok (w : wtables) (i : Z) : Prop :=
  is_Some (wobjs w !! i) /\ wo_lk (wobjs w !!! i) = free_lock
  /\ wo_wid (wobjs w !!! i) = i /\ wo_in_use (wobjs w !!! i) = 0
  /\ wo_sources (wobjs w !!! i) = None.

Definition es_clear (w : wtables) (j : Z) : Prop := esrc w !!! j = inhabitant.

Lemma waitobj_init_objs (s : wsys T) :
  exists s', for_each (seqZ 0 MAX_WAIT_OBJECTS) (fun i =>
      wo_write i (fun o => {| wo_wid := i; wo_owner_pid := NUM_IDS; wo_in_use := 0;
                              wo_lk := wo_lk o; wo_sources := None |}) ;;
      zoom (fun s => wo_lk (wobjs (wt s) !!! i)) (fun l => on_wt (upd_wo i (set_lk l)))
           spinlock_init) s = Ok (tt, s')
    /\ (forall i, 0 <= i < MAX_WAIT_OBJECTS -> wo_ok (wt s') i)
    /\ waitobj_ticks (wt s') = waitobj_ticks (wt s) /\ sch s' = sch s.
Proof.
  match goal with |- context [for_each _ ?b s] => set (body := b) end.
  destruct (for_each_ind (fun d s' => (forall i, i ∈ d -> wo_ok (wt s') i)
    /\ waitobj_ticks (wt s') = waitobj_ticks (wt s) /\ sch s' = sch s) body
    (seqZ 0 MAX_WAIT_OBJECTS)) with (s := s) as (s' & E & Hall & Et & Es).
  - intros d i r s1 Hl (Hd & Et & Es).
    assert (0 <= i < MAX_WAIT_OBJECTS) as Hi.
    { assert (i ∈ seqZ 0 MAX_WAIT_OBJECTS) as Hin%elem_of_seqZ by (rewrite Hl; set_solver). lia. }
    unfold body. rewrite (bind_ok _ _ _ _ _ (wo_write_ok i _ s1 Hi)).
    eexists. split; [reflexivity|]. split; [|done].
    intros k Hk. unfold wo_ok. unfold on_wt. cbn [wt]. rewrite upd_wo_upd_wo, wobjs_upd_wo.
    unfold upd_wo. cbn [wobjs]. destruct (decide (i = k)) as [->|Hne].
    + rewrite lookup_insert_eq. split; [by eexists|done].
    + rewrite lookup_insert_ne by done. apply Hd. set_solver.
  - split_and!; [|done..]. intros i Hi%elem_of_nil. done.
  - exists s'. split_and!; [done| |done..]. intros i Hi. apply Hall, elem_of_seqZ. lia.
Qed.

Lemma waitobj_init_srcs (s : wsys T) :
  exists s', for_each (seqZ 0 MAX_EVENT_SOURCES) (fun i =>
      es_write i (fun _ => {| es_id := 0; es_type := 0; es_ready := 0; es_period_ms := 0;
                              es_next_fire_tick := 0; es_parent := None; es_next := None |})) s
      = Ok (tt, s')
    /\ (forall j, 0 <= j < MAX_EVENT_SOURCES -> es_clear (wt s') j)
    /\ waitobj_ticks (wt s') = waitobj_ticks (wt s) /\ wobjs (wt s') = wobjs (wt s)
    /\ sch s' = sch s.
Proof.
  match goal with |- context [for_each _ ?b s] => set (body := b) end.
  destruct (for_each_ind (fun d s' => (forall j, j ∈ d -> es_clear (wt s') j)
    /\ waitobj_ticks (wt s') = waitobj_ticks (wt s) /\ wobjs (wt s') = wobjs (wt s)
    /\ sch s' = sch s) body (seqZ 0 MAX_EVENT_SOURCES)) with (s := s)
    as (s' & E & Hall & Et & Eo & Es).
  - intros d i r s1 Hl (Hd & Et & Eo & Es).
    assert (0 <= i < MAX_EVENT_SOURCES) as Hi.
    { assert (i ∈ seqZ 0 MAX_EVENT_SOURCES) as Hin%elem_of_seqZ by (rewrite Hl; set_solver). lia. }
    unfold body. rewrite es_write_ok by done. eexists. split; [reflexivity|]. split; [|done].
    intros k Hk. unfold es_clear, on_wt. cbn [wt]. autorewrite with wobj.
    destruct (decide (i = k)); [done|]. apply Hd. set_solver.
  - split_and!; [|done..]. intros i Hi%elem_of_nil. done.
  - exists s'. split_and!; [done| |done..]. intros i Hi. apply Hall, elem_of_seqZ. lia.
Qed.

Lemma waitobj_init_spec (s : wsys T) :
  exists s', waitobj_init s = Ok (tt, s') /\ wt_inv (wt s') (fun _ => []) /\ sch s' = sch s
    /\ waitobj_ticks (wt s') = 0
    /\ (forall i, 0 <= i < MAX_WAIT_OBJECTS -> wo_in_use (wobjs (wt s') !!! i) = 0).
Proof.
  unfold waitobj_init. unfold modify, mbind at 1, M_bind at 1.
  destruct (waitobj_init_objs (on_wt (set_ticks 0) s)) as (s1 & E1 & Ho & Et1 & Es1).
  destruct (waitobj_init_srcs s1) as (s2 & E2 & Hs & Et2 & Eo & Es2).
  exists s2. rewrite (bind_ok _ _ _ _ _ E1). split; [exact E2|]. cbn in Et1, Es1.
  assert (waitobj_ticks (wt s2) = 0) as Et by congruence.
  split; [|split; [congruence|split; [done|intros i Hi; rewrite Eo; apply (Ho i Hi)]]].
  split; try rewrite Eo; try (intros i Hi; by apply Ho).
  - rewrite Et. unfold is_u32, W32. lia.
  - constructor.
  - intros i j Hi. split; [intros Hj%elem_of_nil; done|]. intros [Hj Hp].
    rewrite (Hs j Hj) in Hp. done.
  - intros i j Hj. by rewrite (Hs j Hj).
  - intros j Hj. by rewrite (Hs j Hj).
Qed.

End init.

(** ** Timer interrupts *)
Lemma p_tick_esrc w a k :
  esrc (p_tick (w, a)).1 !!! k =
    if decide (k ∈ seqZ 0 MAX_EVENT_SOURCES /\ expired (u32 (waitobj_ticks w + 1)) (esrc w !!! k))
    then set_ready 1 (esrc w !!! k) else esrc w !!! k.
Proof.
  rewrite p_tick_eq, notify_fold_esrc by (apply expired_parent || apply NoDup_seqZ). done.
Qed.

Lemma p_tick_ticks w a : waitobj_ticks (p_tick (w, a)).1 = u32 (waitobj_ticks w + 1).
Proof. rewrite p_tick_eq. by destruct (notify_fold_wobjs (expired (u32 (waitobj_ticks w + 1)))
  (seqZ 0 MAX_EVENT_SOURCES) (set_ticks (u32 (waitobj_ticks w + 1)) w, a)) as (_ & -> & _). Qed.

Section irqs.
Context {T : Type} `{SchedLaws T}.

(** [n] ticks as the wait objects see them.  The timer interrupt makes the call
    after [sched_update]; when that ends a time slice, only when the interrupted
    thread runs again. *)
Fixpoint n_wait_ticks (n : nat) : M (wsys T) unit :=
  match n with O => mret tt | S n => waitobj_on_timer_irq ;; n_wait_ticks n end.

(** An armed timer that is due at [nf]. *)
Definition timer_at (nf : Z) (t : Z) (e : event_source) : Prop :=
  es_parent e <> None /\ es_type e = EVENT_TIMER /\ es_next_fire_tick e = nf
  /\ es_ready e = if decide (t >= nf) then 1 else 0.

Lemma n_wait_ticks_timer n : forall (s : wsys T) w a j nf,
  srel s w a -> 0 <= j < MAX_EVENT_SOURCES -> 0 <= waitobj_ticks w ->
  timer_at nf (waitobj_ticks w) (esrc w !!! j) -> waitobj_ticks w + Z.of_nat n < W32 ->
  exists s' a', n_wait_ticks n s = Ok (tt, s') /\ srel s' (wt s') a'
    /\ waitobj_ticks (wt s') = waitobj_ticks w + Z.of_nat n
    /\ timer_at nf (waitobj_ticks w + Z.of_nat n) (esrc (wt s') !!! j).
Proof.
  induction n as [|n IH]; intros s w a j nf Hs Hj H0t Ht Hn.
  - exists s, a. pose proof Hs as [-> ?]. rewrite Z.add_0_r. done.
  - destruct (waitobj_on_timer_irq_sim s w a Hs) as (s1 & E1 & Hs1).
    destruct (p_tick (w, a)) as [w1 a1] eqn:Ep. cbn [fst snd] in Hs1.
    assert (waitobj_ticks w1 = waitobj_ticks w + 1) as Et1.
    { pose proof (p_tick_ticks w a) as E. rewrite Ep in E. cbn in E. rewrite E.
      apply u32_id. lia. }
    destruct (IH s1 w1 a1 j nf Hs1 Hj) as (s2 & a2 & E2 & Hs2 & Et2 & Ht2); [lia| |lia|].
    + pose proof (p_tick_esrc w a j) as E. rewrite Ep, u32_id in E by lia. cbn [fst] in E.
      destruct Ht as (Hp & Hty & Hnf & Hr). unfold expired in E.
      case_decide as Hd; rewrite Et1, E.
      * destruct Hd as (_ & _ & _ & _ & Hge). repeat split; cbn; try done.
        by rewrite decide_True by lia.
      * repeat split; try done. rewrite Hr. repeat case_decide; try done; try lia.
        exfalso. apply Hd. split; [apply elem_of_seqZ; lia|].
        split_and!; try done. lia.
    + exists s2, a2. cbn [n_wait_ticks]. rewrite (bind_ok _ _ _ _ _ E1). split_and!; [done..|lia|].
      by rewrite Et1, <-Z.add_assoc, <-(Nat2Z.inj_add 1) in Ht2.
Qed.

(** *** Steps that signal no source of object [i] and do not wake its waiters:
    ticks, yields, and sleeps and wakeups by other kernel code *)
Inductive quiet_step (i : Z) : sys (T := T) -> sys -> Prop :=
| qs_timer x s' :
    waitobj_on_timer_irq (sy x) = Ok (tt, s') -> quiet_step i x {| sy := s'; frames := frames x |}
| qs_yield x s' :
    on_sch so_yield (sy x) = Ok (tt, s') -> quiet_step i x {| sy := s'; frames := frames x |}
| qs_wakeup x ch s' :
    ch <> PWaitObj i -> on_sch (so_wakeup ch) (sy x) = Ok (tt, s') ->
    quiet_step i x {| sy := s'; frames := frames x |}
| qs_sleep x ch lk l' s' :
    on_sch (so_sleep ch (Some lk)) (sy x) = Ok (l', s') -> quiet_step i x {| sy := s'; frames := frames x |}.

Definition no_timer (w : wtables) (i : Z) : Prop :=
  forall j, 0 <= j < MAX_EVENT_SOURCES -> es_parent (esrc w !!! j) = Some i -> es_type (esrc w !!! j) <> EVENT_TIMER.

(** [p] sleeps on object [i], which has no timer. *)
Definition dozes (p i : Z) (x : sys (T := T)) : Prop :=
  exists a, so_rel (sch (sy x)) a /\ a_chan a p = Some (PWaitObj i) /\ no_timer (wt (sy x)) i.

Lemma quiet_step_dozes p i x y : quiet_step i x y -> dozes p i x -> dozes p i y /\ frames y = frames x.
Proof.
  intros Hq (a & Hr & Hp & Hty). split; [|by destruct Hq]. destruct Hq as [x s' E|x s' E|x ch s' Hch E|x ch lk l' s' E].
  - destruct (waitobj_on_timer_irq_sim (sy x) _ a (conj eq_refl Hr)) as (s1 & E1 & Ew & Hr1).
    rewrite E1 in E. injection E as <-. exists (p_tick (wt (sy x), a)).2. cbn [sy]. split; [done|]. split.
    + rewrite p_tick_eq. apply notify_fold_chan; [apply expired_parent| |apply NoDup_seqZ|done].
      intros j k Hin%elem_of_seqZ (_ & Hj & _) Hpar [= ->]. apply (Hty j); [lia|done..].
    + intros j Hj. rewrite Ew, p_tick_esrc. case_decide as Hd; [cbn|]; by apply Hty.
  - destruct (so_yield_law _ _ Hr) as (t & E1 & Hr1 & _). rewrite (on_sch_ok _ _ _ _ E1) in E. injection E as <-.
    exists (a_yield a). split; [done|]. split; [|done]. unfold a_yield. by destruct (a_rq a).
  - destruct (so_wakeup_law ch _ _ Hr) as (t & E1 & Hr1 & _). rewrite (on_sch_ok _ _ _ _ E1) in E. injection E as <-.
    exists (a_wakeup ch a). split; [done|]. split; [|done]. cbn. rewrite decide_False; [done|].
    intros Hin%list_elem_of_filter. destruct Hin. congruence.
  - destruct (a_sleep ch a) as [a'|] eqn:Ea.
    2:{ unfold on_sch, zoom in E. by rewrite (so_sleep_empty ch lk _ a Hr Ea) in E. }
    destruct (so_sleep_law ch lk _ _ _ Hr Ea) as (t & E1 & Hr1 & _). rewrite (on_sch_ok _ _ _ _ E1) in E. injection E as <- <-.
    exists a'. split; [done|]. split; [|done]. unfold a_sleep in Ea. destruct (a_rq a); [done|]. injection Ea as <-. cbn.
    rewrite decide_False; [done|]. intros ->. rewrite (so_awake _ a (a_cur a) Hr) in Hp by (by left). done.
Qed.

Lemma quiet_steps_doze p i x y : rtc (quiet_step i) x y -> dozes p i x -> dozes p i y /\ frames y = frames x.
Proof.
  induction 1 as [x|x y z Hxy _ IH]; intros Hx; [done|].
  destruct (quiet_step_dozes p i x y Hxy Hx) as [Hy Ef]. destruct (IH Hy) as [Hz Ef']. by rewrite Ef', Ef.
Qed.

End irqs.

(** * Properties *)
Module WaitProps.

(** A freshly booted system: the tables have just been initialised and no
    thread sleeps on a wait object. *)
Definition booted (x : sys (T := thr)) : Prop :=
  (exists s, waitobj_init s = Ok (tt, sy x)) /\ frames x = ∅ /\
  exists a, sched_abs (sch (sy x)) a /\ forall p i, a_chan a p <> Some (PWaitObj i).

Lemma booted_inv x : booted x -> sys_inv x.
Proof.
  intros ((s & Ei) & Ef & a & Ha & Hns).
  destruct (waitobj_init_spec s) as (s' & E & Hw & Es & _). rewrite Ei in E. injection E as E. subst s'.
  exists (fun _ => []), a. split; try done.
  - intros p i Hp. by destruct (Hns p i).
  - intros p fr. by rewrite Ef, lookup_empty.
  - intros p i Hp. by destruct (Hns p i).
Qed.

Lemma reachable_inv x y : booted x -> rtc sys_step x y -> sys_inv y.
Proof. intros Hb Hr. eapply (rtc_invariant _ _ sys_step_inv); [done|by apply booted_inv]. Qed.

(** A concrete booted system: thread 1 runs, threads 0 and 2 are ready. *)
Definition demo_sched : thr :=
  {| TCBPool := list_to_map
       [(1, SchedProps.demo_tcb TSTATE_RUN 64 64 PNull);
        (0, SchedProps.demo_tcb TSTATE_READY 64 2 PNull);
        (2, SchedProps.demo_tcb TSTATE_READY 0 64 PNull)];
     TQueuePool := {[ (0, 64) := {| tq_head := 0; tq_tail := 2 |} ]};
     CURID := {[ 0 := 1 ]}; kctx_pool := ∅; regs := inhabitant; sched_lk := free_lock;
     sched_ticks := ∅; pcpus := ∅;
     cur_kstack := {| ks_cpu_idx := 0; ks_magic := KSTACK_MAGIC |} |}.

Definition demo_abs1 : asched :=
  {| a_cur := 1; a_rq := [0; 2]; a_chan := fun x => chan_of (TCBPool demo_sched !!! x) |}.

Lemma demo_sched_abs : sched_abs demo_sched demo_abs1.
Proof.
  split; [|reflexivity]. split.
  - split; vm_compute; repeat split; congruence.
  - reflexivity.
  - vm_compute; split; congruence.
  - split.
    + split; [reflexivity..| |vm_compute; apply (bool_decide_unpack _); reflexivity
             |apply (bool_decide_unpack _); reflexivity].
      vm_compute. by repeat split.
    + intros x. cbn. rewrite elem_of_cons, list_elem_of_singleton. unfold NUM_IDS. lia.
  - reflexivity.
  - intros x. cbn. rewrite elem_of_cons, list_elem_of_singleton. by intros [->| ->].
  - reflexivity.
Qed.

Lemma demo_no_sleep p i : a_chan demo_abs1 p <> Some (PWaitObj i).
Proof.
  cbn [a_chan demo_abs1]. unfold chan_of. case_decide as E; [|done]. exfalso. revert E.
  unfold demo_sched. cbn [TCBPool]. cbn [list_to_map foldr fst snd].
  repeat (rewrite lookup_total_upd; case_decide; [done|]).
  rewrite lookup_total_empty. done.
Qed.

Definition ok_state {S A} `{Inhabited S} (r : result (A * S)) : S :=
  match r with Ok (_, s) => s | _ => inhabitant end.

Definition demo_ws0 : wsys thr :=
  {| wt := {| waitobj_ticks := 0; wobjs := ∅; esrc := ∅ |}; sch := demo_sched |}.
#[local] Instance wsys_inhabited : Inhabited (wsys thr) := populate demo_ws0.
Definition demo_ws : wsys thr := ok_state (waitobj_init demo_ws0).
Definition demo_sys : sys (T := thr) := {| sy := demo_ws; frames := ∅ |}.

Lemma demo_booted : booted demo_sys.
Proof.
  split; [exists demo_ws0; vm_compute; reflexivity|]. split; [reflexivity|].
  exists demo_abs1. split; [exact demo_sched_abs|exact demo_no_sleep].
Qed.

(** C1 (safety): no wakeup is lost.  In every state reachable from boot by any
    interleaving of [waitobj_create], [waitobj_add], [waitobj_wait] (entry,
    passes of its loop and resumption), [waitobj_signal_source], timer and
    keyboard interrupts, yields, and sleeps and wakeups by other kernel code, a
    thread that sleeps on a wait object waits for an object none of whose
    sources is ready, and is one of the threads [thread_wakeup] scans. *)
Theorem no_lost_wakeup x y p i j :
  booted x -> rtc sys_step x y ->
  tcb_state (TCBPool (sch (sy y)) !!! p) = TSTATE_SLEEP ->
  tcb_channel (TCBPool (sch (sy y)) !!! p) = PWaitObj i ->
  0 <= j < MAX_EVENT_SOURCES -> es_parent (esrc (wt (sy y)) !!! j) = Some i ->
  es_ready (esrc (wt (sy y)) !!! j) = 0 /\ 1 <= p < NUM_IDS.
Proof.
  intros Hb Hr Hst Hch Hj Hp.
  destruct (reachable_inv x y Hb Hr) as (ls & a & [[_ [Hs _]] _ Hn _ _]).
  assert (a_chan a p = Some (PWaitObj i)) as Hc.
  { rewrite (sc_chan _ _ Hs). by apply chan_of_Some. }
  destruct (Hn p i Hc) as [? Hk]. split; [by apply Hk|done].
Qed.

(** Thread 1 creates an object, adds a software source and waits. *)
Definition demo_ws1 : wsys thr := ok_state (waitobj_create 1 demo_ws).
Definition demo_ws2 : wsys thr := ok_state (waitobj_add 1 0 EVENT_SOFTWARE 0 demo_ws1).
Definition demo_fr : wait_frame := {| wf_wo := 0; wf_use_timeout := false; wf_deadline := 0 |}.
Definition demo_ws3 : wsys thr := ok_state (waitobj_wait_start 1 0 0 demo_ws2).
Definition demo_ws4 : wsys thr := ok_state (waitobj_wait_iter demo_fr demo_ws3).
Definition demo_sys4 : sys (T := thr) := {| sy := demo_ws4; frames := {[ 1 := demo_fr ]} |}.

Lemma demo_reach : rtc sys_step demo_sys demo_sys4.
Proof.
  apply (rtc_l _ _ {| sy := demo_ws1; frames := ∅ |}).
  { apply (st_create demo_sys 1 0); vm_compute; reflexivity. }
  apply (rtc_l _ _ {| sy := demo_ws2; frames := ∅ |}).
  { apply (st_add {| sy := demo_ws1; frames := ∅ |} 1 0 EVENT_SOFTWARE 0 1);
      vm_compute; reflexivity. }
  apply rtc_once.
  apply (st_wait {| sy := demo_ws2; frames := ∅ |} 1 0 0 demo_fr demo_ws3 WAsleep demo_ws4).
  - vm_compute; reflexivity.
  - reflexivity.
  - unfold NUM_IDS. lia.
  - vm_compute; reflexivity.
  - vm_compute; reflexivity.
Qed.

Lemma no_lost_wakeup_witness :
  es_ready (esrc (wt (sy demo_sys4)) !!! 0) = 0 /\ 1 <= 1 < NUM_IDS.
Proof.
  apply (no_lost_wakeup demo_sys demo_sys4 1 0 0 demo_booted demo_reach).
  - vm_compute; reflexivity.
  - vm_compute; reflexivity.
  - unfold MAX_EVENT_SOURCES. lia.
  - vm_compute; reflexivity.
Defined.

(** C6 (invariant): the tables stay well formed.  In every reachable state each
    wait object's [next] list is finite, duplicate free and holds exactly the
    sources whose [parent] is that object; a source with a parent has id
    [index + 1] and belongs to an object in use; a source without one has id 0
    and can be allocated; and every wait-object lock is free. *)
Theorem waitobj_tables_invariant x y :
  booted x -> rtc sys_step x y -> exists ls, wt_inv (wt (sy y)) ls.
Proof. intros Hb Hr. destruct (reachable_inv x y Hb Hr) as (ls & a & []). by exists ls. Qed.

Lemma waitobj_tables_invariant_witness : exists ls, wt_inv (wt (sy demo_sys4)) ls.
Proof. apply (waitobj_tables_invariant demo_sys demo_sys4 demo_booted demo_reach). Defined.

(** C10 (termination): no wait-object operation gets stuck.  In every reachable
    state creation, adding a source, signalling, the timer interrupt's call and
    the keyboard interrupt's call return: they never index out of bounds, never
    spin on a lock that is held, and their loops over source lists end within 33
    steps.  A call of [waitobj_wait] up to its first sleep, and the resumption of
    any thread inside it, return too, with one exception: when the thread has to
    sleep and the ready queue is empty, [thread_sleep] indexes the thread table
    out of bounds. *)
Theorem waitobj_ops_return x y c wid type arg sid tmo :
  booted x -> rtc sys_step x y ->
  let s := sy y in
  let returns (r : result (wait_res * wsys thr)) :=
    (exists v s', r = Ok (v, s')) \/ (qh (sch s) NUM_IDS = NUM_IDS /\ r = Undef OutOfBounds) in
  (exists r s', waitobj_create c s = Ok (r, s'))
  /\ (exists r s', waitobj_add c wid type arg s = Ok (r, s'))
  /\ (exists r s', waitobj_signal_source c sid s = Ok (r, s'))
  /\ (exists s', waitobj_on_timer_irq s = Ok (tt, s'))
  /\ (exists s', waitobj_console_input_notify s = Ok (tt, s'))
  /\ (exists r s1, waitobj_wait_start c wid tmo s = Ok (r, s1)
      /\ forall fr, r = inr fr -> returns (waitobj_wait_iter fr s1))
  /\ (forall p fr, so_get_curid (sch s) = Ok (p, sch s) -> frames y !! p = Some fr ->
      returns (waitobj_wait_resume p fr s)).
Proof.
  intros Hb Hr s returns. destruct (reachable_inv x y Hb Hr) as (ls & a & [Hs Hw _ Hf _]).
  fold s in Hs, Hw.
  assert (forall fr (s0 : wsys thr), srel s0 (wt s) a -> 0 <= wf_wo fr < MAX_WAIT_OBJECTS ->
    returns (waitobj_wait_iter fr (on_wt (upd_wo (wf_wo fr) (set_lk (held_lock (so_kstack (sch s0))))) s0))) as Hiter.
  { intros fr s0 Hs0 Hi. pose proof (waitobj_wait_iter_sim fr _ _ _ _ Hs0 Hw Hi) as Hsim. cbv zeta in Hsim.
    destruct (first_ready _ _); [left; eauto|]. case_decide; [left; eauto|].
    destruct (a_sleep _ a) as [a'|] eqn:Ea; [destruct Hsim as (t' & ? & _); left; eauto|].
    right. split; [|exact Hsim]. unfold a_sleep in Ea. destruct (a_rq a) eqn:Erq; [|done].
    destruct Hs as [_ [Hs _]]. destruct (sc_rq _ _ Hs) as [Hd _]. by rewrite (dl_head _ _ _ _ _ _ Hd), Erq. }
  split_and!.
  - rewrite (waitobj_create_sim c _ _ _ _ Hs Hw). destruct (list_find _ _) as [[]|]; eauto.
  - rewrite (waitobj_add_sim c wid type arg _ _ _ _ Hs Hw).
    case_decide; [destruct (free_slot _)|]; eauto.
  - pose proof (waitobj_signal_source_sim c sid _ _ _ _ Hs Hw) as Hsim.
    case_decide; [destruct Hsim as (s' & ? & _)|]; eauto.
  - destruct (waitobj_on_timer_irq_sim _ _ _ Hs) as (s' & ? & _). eauto.
  - destruct (waitobj_console_input_notify_sim _ _ _ Hs) as (s' & ? & _). eauto.
  - rewrite (waitobj_wait_start_sim c wid tmo _ _ _ _ Hs Hw).
    case_decide as Ho; [|eexists _, _; split; [done|]; done].
    eexists _, _. split; [done|]. intros fr [= <-].
    match goal with |- returns (waitobj_wait_iter ?f _) => exact (Hiter f s Hs (proj1 Ho)) end.
  - intros p fr Hc Hfr. rewrite (cur_unique _ _ _ (proj2 Hs) Hc) in *. destruct (Hf _ _ Hfr) as [Hi _].
    destruct (waitobj_wait_resume_sim fr _ _ _ _ Hs Hw Hi) as (s1 & Hs1 & _ & ->). by apply Hiter.
Qed.

(** Thread 1 waits for a timer; three ticks make it ready, two yields later it
    runs. *)
Definition demo_wt2 : wsys thr := ok_state (waitobj_add 1 0 EVENT_TIMER 3 demo_ws1).
Definition demo_wt3 : wsys thr := ok_state (waitobj_wait_start 1 0 0 demo_wt2).
Definition demo_wt4 : wsys thr := ok_state (waitobj_wait_iter demo_fr demo_wt3).
Definition tick_of (s : wsys thr) : wsys thr := ok_state (waitobj_on_timer_irq s).
Definition yield_of (s : wsys thr) : wsys thr := ok_state (on_sch so_yield s).
Definition asleep1 (s : wsys thr) : sys (T := thr) := {| sy := s; frames := {[ 1 := demo_fr ]} |}.
Definition demo_wt9 : wsys thr := yield_of (yield_of (tick_of (tick_of (tick_of demo_wt4)))).
Definition demo_sys9 : sys (T := thr) := asleep1 demo_wt9.

Lemma demo_wakes : rtc sys_step demo_sys demo_sys9.
Proof.
  apply (rtc_l _ _ {| sy := demo_ws1; frames := ∅ |}).
  { apply (st_create demo_sys 1 0); vm_compute; reflexivity. }
  apply (rtc_l _ _ {| sy := demo_wt2; frames := ∅ |}).
  { apply (st_add {| sy := demo_ws1; frames := ∅ |} 1 0 EVENT_TIMER 3 1); vm_compute; reflexivity. }
  apply (rtc_l _ _ (asleep1 demo_wt4)).
  { apply (st_wait {| sy := demo_wt2; frames := ∅ |} 1 0 0 demo_fr demo_wt3 WAsleep demo_wt4).
    - vm_compute; reflexivity.
    - reflexivity.
    - unfold NUM_IDS. lia.
    - vm_compute; reflexivity.
    - vm_compute; reflexivity. }
  apply (rtc_l _ _ (asleep1 (tick_of demo_wt4))).
  { apply (st_timer (asleep1 demo_wt4)). vm_compute; reflexivity. }
  apply (rtc_l _ _ (asleep1 (tick_of (tick_of demo_wt4)))).
  { apply (st_timer (asleep1 (tick_of demo_wt4))). vm_compute; reflexivity. }
  apply (rtc_l _ _ (asleep1 (tick_of (tick_of (tick_of demo_wt4))))).
  { apply (st_timer (asleep1 (tick_of (tick_of demo_wt4)))). vm_compute; reflexivity. }
  apply (rtc_l _ _ (asleep1 (yield_of (tick_of (tick_of (tick_of demo_wt4)))))).
  { apply (st_yield (asleep1 (tick_of (tick_of (tick_of demo_wt4))))). vm_compute; reflexivity. }
  apply rtc_once. apply (st_yield (asleep1 (yield_of (tick_of (tick_of (tick_of demo_wt4)))))). vm_compute; reflexivity.
Qed.

(** The resumption of thread 1 *)
Lemma waitobj_ops_return_witness :
  exists r s', waitobj_wait_resume 1 demo_fr (sy demo_sys9) = Ok (r, s').
Proof.
  destruct (waitobj_ops_return demo_sys demo_sys9 2 0 EVENT_TIMER 5 1 0 demo_booted demo_wakes)
    as (_ & _ & _ & _ & _ & _ & H).
  destruct (H 1 demo_fr) as [H1|[H1 _]].
  - vm_compute; reflexivity.
  - reflexivity.
  - exact H1.
  - exfalso. revert H1. vm_compute. discriminate.
Defined.

(** C15 (functional): a timer source fires exactly once its period of ticks has
    been counted.  Adding a timer with period [P] to an object the caller owns
    succeeds while a slot is free; after [n] further calls of
    [waitobj_on_timer_irq] the source is ready if and only if [n >= P], as long
    as the 32-bit tick counter does not wrap.  (The timer interrupt makes that
    call after [sched_update], which postpones it when a time slice ends.) *)
Theorem timer_fires_after_period (s : wsys thr) a ls owner wid j P n :
  sched_abs (sch s) a -> wt_inv (wt s) ls -> owns (wt s) owner wid ->
  free_slot (wt s) = Some j -> 1 <= P -> waitobj_ticks (wt s) + P < W32 ->
  waitobj_ticks (wt s) + Z.of_nat n < W32 ->
  exists s1 s2, waitobj_add owner wid EVENT_TIMER P s = Ok (j + 1, s1)
    /\ es_ready (esrc (wt s1) !!! j) = 0
    /\ n_wait_ticks n s1 = Ok (tt, s2)
    /\ es_ready (esrc (wt s2) !!! j) = if decide (Z.of_nat n >= P) then 1 else 0.
Proof.
  intros Ha Hw Ho Hf HP Hnf Hn. destruct (free_slot_Some _ _ Hf) as (Hj & _ & _).
  pose proof (wi_ticks _ _ Hw) as Ht0. unfold is_u32 in Ht0.
  eexists (on_wt (w_add wid j EVENT_TIMER P) s).
  assert (esrc (wt (on_wt (w_add wid j EVENT_TIMER P) s)) !!! j =
    new_source wid j EVENT_TIMER P (waitobj_ticks (wt s)) (wo_sources (wobjs (wt s) !!! wid))) as Ee.
  { unfold on_wt, w_add. cbn [wt esrc upd_wo]. autorewrite with wobj. by rewrite decide_True. }
  assert (srel (on_wt (w_add wid j EVENT_TIMER P) s)
            (wt (on_wt (w_add wid j EVENT_TIMER P) s)) a) as Hs by (split; [done|exact Ha]).
  destruct (n_wait_ticks_timer n _ _ a j (waitobj_ticks (wt s) + P) Hs Hj)
    as (s2 & a2 & E2 & _ & Et & _ & _ & _ & Hr).
  - cbn. lia.
  - rewrite Ee. unfold timer_at, new_source. rewrite (decide_True (P := P <> 0)) by lia.
    cbn [es_parent es_type es_next_fire_tick es_ready].
    rewrite (decide_True (P := EVENT_TIMER = EVENT_TIMER)), u32_id by (done || lia).
    split_and!; [done..|]. rewrite decide_False; [done|]. cbn. lia.
  - exact Hn.
  - exists s2. rewrite (waitobj_add_sim owner wid EVENT_TIMER P s _ a ls) by done.
    rewrite decide_True, Hf by done. split_and!; [done|by rewrite Ee|done|].
    rewrite Hr. cbn [wt on_wt w_add waitobj_ticks upd_wo upd_es].
    apply decide_ext. unfold on_wt, w_add, upd_wo, upd_es. cbn. lia.
Qed.

Lemma demo_ws1_inv : exists ls, wt_inv (wt demo_ws1) ls.
Proof.
  destruct (waitobj_init_spec demo_ws0) as (s & E & Hw & Es & _ & Hu).
  exists (fun _ => []).
  assert (srel s (wt s) demo_abs1) as Hs by (split; [done|]; rewrite Es; exact demo_sched_abs).
  assert (waitobj_create 1 s = Ok (0, on_wt (w_create 0 1) s)) as Ec.
  { rewrite (waitobj_create_sim 1 s _ _ _ Hs Hw).
    destruct (list_find _ _) as [[n i]|] eqn:Ef.
    - apply list_find_Some in Ef as (Hi & _ & Hmin). apply lookup_seqZ in Hi as [-> Hn].
      destruct n as [|n]; [done|]. exfalso.
      apply (Hmin 0%nat 0); [done|lia|]. apply Hu. unfold MAX_WAIT_OBJECTS. lia.
    - exfalso. apply list_find_None in Ef. rewrite Forall_forall in Ef.
      apply (Ef 0); [apply elem_of_seqZ|apply Hu]; unfold MAX_WAIT_OBJECTS; lia. }
  replace (wt demo_ws1) with (w_create 0 1 (wt s)).
  - apply wt_inv_create; [done|unfold MAX_WAIT_OBJECTS; lia|].
    apply Hu. unfold MAX_WAIT_OBJECTS. lia.
  - unfold demo_ws1, demo_ws. rewrite E. cbn [ok_state]. by rewrite Ec.
Qed.

Lemma timer_fires_after_period_witness :
  exists s1 s2, waitobj_add 1 0 EVENT_TIMER 3 demo_ws1 = Ok (1, s1)
    /\ es_ready (esrc (wt s1) !!! 0) = 0 /\ n_wait_ticks 3 s1 = Ok (tt, s2)
    /\ es_ready (esrc (wt s2) !!! 0) = 1.
Proof.
  destruct demo_ws1_inv as [ls Hw].
  apply (timer_fires_after_period demo_ws1 demo_abs1 ls 1 0 0 3 3).
  - replace (sch demo_ws1) with demo_sched by (vm_compute; reflexivity). exact demo_sched_abs.
  - exact Hw.
  - split; [unfold MAX_WAIT_OBJECTS; lia|]. split; [vm_compute; congruence|vm_compute; reflexivity].
  - vm_compute. reflexivity.
  - lia.
  - replace (waitobj_ticks (wt demo_ws1)) with 0 by (vm_compute; reflexivity). unfold W32. lia.
  - replace (waitobj_ticks (wt demo_ws1)) with 0 by (vm_compute; reflexivity). unfold W32. lia.
Defined.

(** C40 (error): a timeout does not wake the waiter.  Let a thread sleep in
    [waitobj_wait] with a timeout on an object without timer sources.  After any
    sequence of ticks, yields, and sleeps and wakeups by other kernel code (none
    on this object) that brings the tick counter to its deadline, the test of the
    wait loop says that the call has timed out, yet the thread still sleeps inside
    it: the test is made only when some event wakes the thread.  (waitobj.h
    documents that the call returns -1 on timeout.) *)
Theorem timeout_does_not_wake x y z p fr :
  booted x -> rtc sys_step x y -> frames y !! p = Some fr ->
  tcb_state (TCBPool (sch (sy y)) !!! p) = TSTATE_SLEEP ->
  tcb_channel (TCBPool (sch (sy y)) !!! p) = PWaitObj (wf_wo fr) ->
  no_timer (wt (sy y)) (wf_wo fr) -> rtc (quiet_step (wf_wo fr)) y z ->
  wf_use_timeout fr = true -> waitobj_ticks (wt (sy z)) >= wf_deadline fr ->
  timed_out fr (wt (sy z)) /\ tcb_state (TCBPool (sch (sy z)) !!! p) = TSTATE_SLEEP
  /\ tcb_channel (TCBPool (sch (sy z)) !!! p) = PWaitObj (wf_wo fr) /\ frames z !! p = Some fr.
Proof.
  intros Hb Hr Hfr Hst Hch Hty Hz Hu Hd. split; [by split|].
  destruct (reachable_inv x y Hb Hr) as (ls & a & [[_ Hs] _ _ _ _]).
  destruct (quiet_steps_doze p (wf_wo fr) y z Hz) as [(a' & [Hs' _] & Hc' & _) ->].
  - exists a. split; [done|]. split; [|done]. destruct Hs as [Hs _]. rewrite (sc_chan _ _ Hs). by apply chan_of_Some.
  - rewrite (sc_chan _ _ Hs') in Hc'. by apply chan_of_Some in Hc' as [? ?].
Qed.

(** Thread 1 waits for a software source, for at most 2 ticks; 3 ticks and a
    yield later it still does. *)
Definition fr2 : wait_frame := {| wf_wo := 0; wf_use_timeout := true; wf_deadline := 2 |}.
Definition late3 : wsys thr := ok_state (waitobj_wait_start 1 0 2 demo_ws2).
Definition late4 : wsys thr := ok_state (waitobj_wait_iter fr2 late3).
Definition late (s : wsys thr) : sys (T := thr) := {| sy := s; frames := {[ 1 := fr2 ]} |}.
Definition late8 : wsys thr := yield_of (tick_of (tick_of (tick_of late4))).
Lemma timeout_does_not_wake_witness :
  let z := late late8 in waitobj_ticks (wt (sy z)) = 3 /\ tcb_state (TCBPool (sch (sy z)) !!! 1) = TSTATE_SLEEP.
Proof.
  intros z. split; [vm_compute; reflexivity|].
  refine (proj1 (proj2 (timeout_does_not_wake demo_sys (late late4) z 1 fr2 demo_booted _ _ _ _ _ _ _ _))).
  - apply (rtc_l _ _ {| sy := demo_ws1; frames := ∅ |}).
    { apply (st_create demo_sys 1 0); vm_compute; reflexivity. }
    apply (rtc_l _ _ {| sy := demo_ws2; frames := ∅ |}).
    { apply (st_add {| sy := demo_ws1; frames := ∅ |} 1 0 EVENT_SOFTWARE 0 1); vm_compute; reflexivity. }
    apply rtc_once. apply (st_wait {| sy := demo_ws2; frames := ∅ |} 1 0 2 fr2 late3 WAsleep late4).
    + vm_compute; reflexivity.
    + reflexivity.
    + unfold NUM_IDS. lia.
    + vm_compute; reflexivity.
    + vm_compute; reflexivity.
  - reflexivity.
  - vm_compute; reflexivity.
  - vm_compute; reflexivity.
  - assert (Forall (fun j => es_parent (esrc (wt (sy (late late4))) !!! j) = Some 0 ->
      es_type (esrc (wt (sy (late late4))) !!! j) <> EVENT_TIMER) (seqZ 0 MAX_EVENT_SOURCES)) as Hall.
    { apply (bool_decide_unpack _). vm_compute. reflexivity. }
    rewrite Forall_forall in Hall. intros j Hj. apply Hall, elem_of_seqZ. lia.
  - apply (rtc_l _ _ (late (tick_of late4))); [apply (qs_timer 0 (late late4)); vm_compute; reflexivity|].
    apply (rtc_l _ _ (late (tick_of (tick_of late4)))); [apply (qs_timer 0 (late (tick_of late4))); vm_compute; reflexivity|].
    apply (rtc_l _ _ (late (tick_of (tick_of (tick_of late4)))));
      [apply (qs_timer 0 (late (tick_of (tick_of late4)))); vm_compute; reflexivity|].
    apply rtc_once. apply (qs_yield 0 (late (tick_of (tick_of (tick_of late4))))). vm_compute; reflexivity.
  - reflexivity.
  - vm_compute. discriminate.
Defined.

(** C12 (functional): what a resumed waiter observes.  When the thread inside
    [waitobj_wait] runs again, the call returns 0 with the id of the first ready
    source in list order if there is one; that source is then no longer ready,
    every timer of the object is disarmed and due one period from now, and
    every other source is untouched.  With no ready source it returns -1 if the
    deadline has passed and otherwise goes back to sleep with the tables
    unchanged. *)
Theorem wait_resume_delivers (s : wsys thr) a ls fr x rq :
  sched_abs (sch s) a -> wt_inv (wt s) ls -> 0 <= wf_wo fr < MAX_WAIT_OBJECTS ->
  a_rq a = x :: rq ->
  exists res s', waitobj_wait_resume (a_cur a) fr s = Ok (res, s') /\
  match list_find (fun j => es_ready (esrc (wt s) !!! j) <> 0) (ls (wf_wo fr)) with
  | Some (_, j) => res = WReturn 0 (j + 1) /\
      es_ready (esrc (wt s') !!! j) = 0 /\
      (forall k, es_parent (esrc (wt s) !!! k) = Some (wf_wo fr) -> 0 <= k < MAX_EVENT_SOURCES ->
         es_type (esrc (wt s) !!! k) = EVENT_TIMER ->
         es_ready (esrc (wt s') !!! k) = 0 /\
         es_next_fire_tick (esrc (wt s') !!! k)
           = u32 (waitobj_ticks (wt s) + es_period_ms (esrc (wt s) !!! k))) /\
      (forall k, k <> j ->
         es_parent (esrc (wt s) !!! k) <> Some (wf_wo fr) \/
         es_type (esrc (wt s) !!! k) <> EVENT_TIMER ->
         esrc (wt s') !!! k = esrc (wt s) !!! k)
  | None =>
      wt s' = wt s /\
      res = if decide (wf_use_timeout fr = true /\ waitobj_ticks (wt s) >= wf_deadline fr)
            then WReturn (-1) (-1) else WAsleep
  end.
Proof.
  intros Ha Hw Hi Erq.
  assert (srel s (wt s) a) as Hs by (split; [done|exact Ha]).
  destruct (waitobj_wait_resume_sim fr s _ a ls Hs Hw Hi) as (s1 & Hs1 & _ & ->).
  pose proof (waitobj_wait_iter_sim fr s1 _ a ls Hs1 Hw Hi) as Hsim. cbv zeta in Hsim.
  unfold first_ready in Hsim.
  destruct (list_find _ (ls (wf_wo fr))) as [[n j]|] eqn:Ef; cbn [fmap option_fmap option_map snd] in Hsim.
  - eexists _, _. split; [exact Hsim|]. destruct Hs1 as [Ew _].
    apply list_find_Some in Ef as (Hj%list_elem_of_lookup_2 & _ & _).
    unfold on_wt. cbn [wt]. rewrite Ew. split_and!; [done|..].
    + rewrite deliver_esrc. cbv zeta. rewrite (decide_True (P := j = j)) by done. by case_decide.
    + intros k Hp Hk Ht. rewrite deliver_esrc. cbv zeta.
      rewrite (decide_True (P := _ /\ _)) by (split; [by apply (wi_src _ _ Hw)|done]).
      by case_decide.
    + intros k Hne Hk. rewrite deliver_esrc. cbv zeta. rewrite (decide_False (P := j = k)) by done.
      rewrite decide_False; [done|]. intros [Hin Ht].
      apply (wi_src _ _ Hw _ k Hi) in Hin as [? ?]. destruct Hk; congruence.
  - destruct (decide (timed_out fr (wt s))) as [Hd|Hd].
    + eexists _, _. split; [exact Hsim|].
      rewrite decide_True by exact Hd. destruct Hs1 as [-> _]. done.
    + unfold a_sleep in Hsim. rewrite Erq in Hsim.
      destruct Hsim as (t' & E & _). eexists _, _. split; [exact E|].
      rewrite decide_False by exact Hd. done.
Qed.

(** Thread 1, woken by its timer, is told the source. *)
Lemma demo_wt9_abs : exists ls a x rq, sched_abs (sch (sy demo_sys9)) a /\ wt_inv (wt (sy demo_sys9)) ls /\ a_cur a = 1 /\ a_rq a = x :: rq.
Proof.
  destruct (reachable_inv demo_sys demo_sys9 demo_booted demo_wakes) as (ls & a & [[_ Ha] Hw _ _ _]).
  exists ls, a. pose proof Ha as [[_ Hc _ [Hd _] _ _ _] _].
  destruct (a_rq a) as [|x rq].
  - exfalso. pose proof (dl_head _ _ _ _ _ _ Hd) as Eh. revert Eh. vm_compute. discriminate.
  - exists x, rq. split; [done|]. split; [done|]. split; [|done]. rewrite <- Hc. vm_compute. reflexivity.
Qed.
Lemma demo_wt9_source k : 0 <= k < MAX_EVENT_SOURCES -> es_parent (esrc (wt (sy demo_sys9)) !!! k) = Some 0 -> k = 0.
Proof.
  assert (Forall (fun k => es_parent (esrc (wt (sy demo_sys9)) !!! k) = Some 0 -> k = 0) (seqZ 0 MAX_EVENT_SOURCES)) as Hall.
  { apply (bool_decide_unpack _). vm_compute. reflexivity. }
  rewrite Forall_forall in Hall. intros Hk. apply Hall, elem_of_seqZ. lia.
Qed.
Lemma demo_wt9_ready : es_ready (esrc (wt (sy demo_sys9)) !!! 0) <> 0 /\ es_parent (esrc (wt (sy demo_sys9)) !!! 0) = Some 0.
Proof. split; [vm_compute; discriminate|vm_compute; reflexivity]. Qed.

Lemma wait_resume_delivers_witness :
  exists s', waitobj_wait_resume 1 demo_fr (sy demo_sys9) = Ok (WReturn 0 1, s') /\ es_ready (esrc (wt s') !!! 0) = 0.
Proof.
  destruct demo_wt9_abs as (ls & a & x & rq & Ha & Hw & Hc & Erq). destruct demo_wt9_ready as [Hr Hp].
  destruct (wait_resume_delivers (sy demo_sys9) a ls demo_fr x rq Ha Hw
              ltac:(cbn; unfold MAX_WAIT_OBJECTS; lia) Erq) as (res & s' & E & H).
  exists s'. rewrite Hc in E. cbn [wf_wo demo_fr] in H.
  destruct (list_find _ (ls 0)) as [[n j]|] eqn:Ef.
  - apply list_find_Some in Ef as (Hj%list_elem_of_lookup_2 & _ & _).
    apply (wi_src _ _ Hw 0 j ltac:(unfold MAX_WAIT_OBJECTS; lia)) in Hj as [Hj Hjp].
    rewrite (demo_wt9_source j Hj Hjp) in H. destruct H as (-> & H0 & _). exact (conj E H0).
  - exfalso. apply list_find_None in Ef. rewrite Forall_forall in Ef. apply (Ef 0); [|exact Hr].
    apply (wi_src _ _ Hw); [unfold MAX_WAIT_OBJECTS; lia|]. split; [unfold MAX_EVENT_SOURCES; lia|exact Hp].
Defined.

(** The deadline is computed modulo 2^32.  A wait on an owned
    object with no ready source returns -1 at once exactly when a timeout is
    given and adding it to the tick counter wraps around; otherwise the thread
    goes to sleep.  A call on a foreign or unused object returns -2. *)
Theorem wait_entry_outcomes (s : wsys thr) a ls owner wid tmo x rq :
  sched_abs (sch s) a -> wt_inv (wt s) ls -> a_rq a = x :: rq -> is_u32 tmo ->
  if decide (owns (wt s) owner wid) then
    exists fr s1 res s', waitobj_wait_start owner wid tmo s = Ok (inr fr, s1)
      /\ waitobj_wait_iter fr s1 = Ok (res, s')
      /\ ((forall j, 0 <= j < MAX_EVENT_SOURCES -> es_parent (esrc (wt s) !!! j) = Some wid ->
             es_ready (esrc (wt s) !!! j) = 0) ->
          wt s' = wt s /\
          res = if decide (tmo <> 0 /\ waitobj_ticks (wt s) + tmo >= W32)
                then WReturn (-1) (-1) else WAsleep)
  else waitobj_wait_start owner wid tmo s = Ok (inl (-2), s).
Proof.
  intros Ha Hw Erq Htmo.
  assert (srel s (wt s) a) as Hs by (split; [done|exact Ha]).
  pose proof (wi_ticks _ _ Hw) as Ht.
  rewrite (waitobj_wait_start_sim owner wid tmo s _ a ls Hs Hw).
  case_decide as Ho; [|done]. set (fr := {| wf_wo := wid |}).
  pose proof (waitobj_wait_iter_sim fr s _ a ls Hs Hw (proj1 Ho)) as Hsim. cbv zeta in Hsim.
  assert (timed_out fr (wt s) <-> tmo <> 0 /\ waitobj_ticks (wt s) + tmo >= W32) as Htime.
  { unfold timed_out. cbn [fr wf_use_timeout wf_deadline]. rewrite bool_decide_eq_true.
    unfold is_u32 in *. destruct (decide (waitobj_ticks (wt s) + tmo >= W32)) as [Hge|Hlt].
    - assert (u32 (waitobj_ticks (wt s) + tmo) = waitobj_ticks (wt s) + tmo - W32) as ->.
      { unfold u32. symmetry. apply (Zmod_unique _ _ 1); unfold W32 in *; lia. }
      lia.
    - rewrite u32_id by lia. lia. }
  destruct (first_ready (wt s) (ls (wf_wo fr))) as [j|] eqn:Ef.
  - eexists _, _, _, _. split_and!; [done|exact Hsim|]. intros Hnone. exfalso.
    apply first_ready_Some in Ef as [Hj Hr]. apply Hr.
    apply (wi_src _ _ Hw _ _ (proj1 Ho)) in Hj as [? ?]. by apply Hnone.
  - destruct (decide (timed_out fr (wt s))) as [Hd|Hd].
    + eexists _, _, _, _. split_and!; [done|exact Hsim|]. intros _.
      rewrite decide_True by tauto. done.
    + unfold a_sleep in Hsim. rewrite Erq in Hsim. destruct Hsim as (t' & E & _).
      eexists _, _, _, _. split_and!; [done|exact E|]. intros _.
      rewrite decide_False by tauto. done.
Qed.

Lemma wait_entry_outcomes_witness :
  exists fr s1 res s', waitobj_wait_start 1 0 7 demo_ws1 = Ok (inr fr, s1)
    /\ waitobj_wait_iter fr s1 = Ok (res, s').
Proof.
  destruct demo_ws1_inv as [ls Hw].
  assert (sched_abs (sch demo_ws1) demo_abs1) as Ha.
  { replace (sch demo_ws1) with demo_sched by (vm_compute; reflexivity). exact demo_sched_abs. }
  pose proof (wait_entry_outcomes demo_ws1 demo_abs1 ls 1 0 7 0 [2] Ha Hw eq_refl
                ltac:(unfold is_u32, W32; lia)) as H.
  rewrite decide_True in H.
  - destruct H as (fr & s1 & res & s' & E1 & E2 & _). eauto 10.
  - split; [unfold MAX_WAIT_OBJECTS; lia|]. split; [vm_compute; congruence|vm_compute; reflexivity].
Defined.

End WaitProps.
