(* ===== verification/Mboot.v ===== *)
(** * The boot memory map: dev/mboot.c

    The map the boot loader passes is copied into a list sorted by start
    address, overlapping neighbours of the same type are merged, and the rest
    of the kernel reads the list by index.  An SLIST is a list of its elements:
    slots are never shared between lists while they are changed. *)

From stdpp Require Import sorting.
From S2P Require Import Prelude Machine.

(** dev/mboot.h *)
Record mboot_mmap := {
  mm_size : Z;
  base_addr_low : Z;
  base_addr_high : Z;
  length_low : Z;
  length_high : Z;
  mm_type : Z;
}.

Definition MEM_RAM : Z := 1.
Definition MEM_RESERVED : Z := 2.
Definition MEM_ACPI : Z := 3.
Definition MEM_NVS : Z := 4.

Record pmmap := { pm_start : Z; pm_end : Z; pm_type : Z }.

Definition PMMAP_SUBLIST_NR (type : Z) : Z :=
  if decide (type = MEM_RAM) then 0
  else if decide (type = MEM_RESERVED) then 1
  else if decide (type = MEM_ACPI) then 2
  else if decide (type = MEM_NVS) then 3 else -1.

(** The static data of the file; the last field are the four sublists. *)
Record mboot := {
  pmmap_slots_next_free : Z;
  pmmap_list : list pmmap;
  max_usable_memory : Z;
  mem_npages : Z;
  pmmap_nentries : Z;
  pmmap_sublist : gmap Z (list pmmap);
}.

Definition with_list (f : list pmmap -> list pmmap) (b : mboot) : mboot :=
  {| pmmap_slots_next_free := pmmap_slots_next_free b; pmmap_list := f (pmmap_list b);
     max_usable_memory := max_usable_memory b; mem_npages := mem_npages b;
     pmmap_nentries := pmmap_nentries b; pmmap_sublist := pmmap_sublist b |}.
Definition with_sublists (f : gmap Z (list pmmap) -> gmap Z (list pmmap)) (b : mboot) : mboot :=
  {| pmmap_slots_next_free := pmmap_slots_next_free b; pmmap_list := pmmap_list b;
     max_usable_memory := max_usable_memory b; mem_npages := mem_npages b;
     pmmap_nentries := pmmap_nentries b; pmmap_sublist := f (pmmap_sublist b) |}.
Definition set_slots (n : Z) (b : mboot) : mboot :=
  {| pmmap_slots_next_free := n; pmmap_list := pmmap_list b;
     max_usable_memory := max_usable_memory b; mem_npages := mem_npages b;
     pmmap_nentries := pmmap_nentries b; pmmap_sublist := pmmap_sublist b |}.
Definition set_totals (mx np ne : Z) (b : mboot) : mboot :=
  {| pmmap_slots_next_free := pmmap_slots_next_free b; pmmap_list := pmmap_list b;
     max_usable_memory := mx; mem_npages := np; pmmap_nentries := ne;
     pmmap_sublist := pmmap_sublist b |}.

(** [None] when the 128 slots are used up. *)
Definition pmmap_alloc_slot : M mboot (option Z) :=
  n ← gets pmmap_slots_next_free;
  if decide (n = 128) then mret None
  else modify (set_slots (n + 1)) ;; mret (Some n).

(** The walk stops before the first slot with a larger start. *)
Fixpoint insert_slot (e : pmmap) (l : list pmmap) : list pmmap :=
  match l with
  | [] => [e]
  | slot :: l' => if decide (pm_start e < pm_start slot) then e :: l
                  else slot :: insert_slot e l'
  end.

Definition pmmap_insert (start end_ type : Z) : M mboot unit :=
  free_slot ← pmmap_alloc_slot;
  match free_slot with
  | None => panic "More than 128 E820 entries."
  | Some _ =>
      modify (with_list (insert_slot {| pm_start := start; pm_end := end_; pm_type := type |}))
  end.

(** Step 1 of [pmmap_merge].  After [SLIST_REMOVE_AFTER] the walk goes on from
    the element behind the removed one: a merged slot is not compared again. *)
Definition can_merge (slot next_slot : pmmap) : bool :=
  (pm_start slot <=? pm_start next_slot) && (pm_start next_slot <=? pm_end slot)
  && (pm_type slot =? pm_type next_slot).

Fixpoint merge_slots (l : list pmmap) : list pmmap :=
  match l with
  | [] => []
  | slot :: l' =>
      match l' with
      | [] => [slot]
      | next_slot :: r =>
          if can_merge slot next_slot then
            {| pm_start := pm_start slot;
               pm_end := Types.max (pm_end slot) (pm_end next_slot);
               pm_type := pm_type slot |} :: merge_slots r
          else slot :: merge_slots l'
      end
  end.

(** Step 2: append every slot to the sublist of its type. *)
Definition pmmap_merge : M mboot unit :=
  modify (with_list merge_slots) ;;
  l ← gets pmmap_list;
  for_each l (fun slot =>
    let sublist_nr := PMMAP_SUBLIST_NR (pm_type slot) in
    if decide (sublist_nr = -1) then
      panic "Kernel assertion failed: sublist_nr != -1"
    else modify (with_sublists (fun m => <[sublist_nr := (m !!! sublist_nr) ++ [slot]]> m))) ;;
  b ← get;
  match last (pmmap_sublist b !!! 0) with
  | Some slot => modify (set_totals (pm_end slot) (mem_npages b) (pmmap_nentries b))
  | None => mret tt
  end.

(** The body of the loop over the boot loader's map. *)
Definition pmmap_add (p : mboot_mmap) : M mboot unit :=
  if decide (base_addr_high p <> 0) then mret tt
  else
    let start := base_addr_low p in
    let end_ := if decide (length_high p <> 0 \/ length_low p >= 0xffffffff - start)
                then 0xffffffff else start + length_low p in
    pmmap_insert start end_ (mm_type p).

Definition pmmap_init (mmap : list mboot_mmap) : M mboot unit :=
  modify (with_list (fun _ => [])) ;;
  modify (with_sublists (fun m => <[3 := []]> (<[2 := []]> (<[1 := []]> (<[0 := []]> m))))) ;;
  for_each mmap pmmap_add ;;
  pmmap_merge ;;
  b ← get;
  for_each (pmmap_list b) (fun _ =>
    modify (fun b => set_totals (max_usable_memory b) (mem_npages b) (pmmap_nentries b + 1) b)) ;;
  modify (fun b => set_totals (max_usable_memory b)
                     (Types.rounddown (max_usable_memory b) PAGESIZE / PAGESIZE)
                     (pmmap_nentries b) b).

Definition get_size (b : mboot) : Z := pmmap_nentries b.

(** The walk of [get_mms], [get_mml] and [is_usable]: the slot at which it
    stops (or [NULL]) and the counter. *)
Fixpoint slot_walk (l : list pmmap) (i idx : Z) : option pmmap * Z :=
  match l with
  | [] => (None, i)
  | slot :: l' => if decide (i = idx) then (Some slot, i) else slot_walk l' (i + 1) idx
  end.

Definition slot_get (f : pmmap -> Z) (b : mboot) (idx : Z) : Z :=
  match slot_walk (pmmap_list b) 0 idx with
  | (None, _) => 0
  | (Some slot, i) => if decide (i = pmmap_nentries b) then 0 else f slot
  end.

Definition get_mms (b : mboot) (idx : Z) : Z := slot_get pm_start b idx.
Definition get_mml (b : mboot) (idx : Z) : Z :=
  slot_get (fun slot => u32 (pm_end slot - pm_start slot)) b idx.
Definition is_usable (b : mboot) (idx : Z) : Z :=
  slot_get (fun slot => if decide (pm_type slot = MEM_RAM) then 1 else 0) b idx.

(** * Theory *)

(** Regions with 32-bit bounds, start before end, and a known type. *)
Record region_ok (r : pmmap) : Prop := {
  ro_start : 0 <= pm_start r;
  ro_order : pm_start r <= pm_end r;
  ro_end : pm_end r < W32;
}.

Definition sorted_starts (l : list pmmap) : Prop :=
  StronglySorted (fun a b => pm_start a <= pm_start b) l.

Lemma insert_slot_elem e l x : x ∈ insert_slot e l <-> x = e \/ x ∈ l.
Proof.
  induction l as [|y l IH]; cbn.
  - rewrite list_elem_of_singleton, elem_of_nil. tauto.
  - case_decide; rewrite !elem_of_cons; [tauto|]. rewrite IH. tauto.
Qed.

Lemma insert_slot_sorted e l : sorted_starts l -> sorted_starts (insert_slot e l).
Proof.
  induction 1 as [|y l Hs IH Hy]; cbn; [repeat constructor|].
  case_decide as Hlt.
  - constructor; [by constructor|]. constructor; [lia|].
    eapply Forall_impl; [done|]. cbn. intros. lia.
  - constructor; [done|]. apply Forall_forall. intros x Hx%insert_slot_elem.
    rewrite Forall_forall in Hy. destruct Hx as [->|Hx]; [lia|by apply Hy].
Qed.

(** The address [x] lies in a region of type [t]. *)
Definition covered (l : list pmmap) (t x : Z) : Prop :=
  exists r, r ∈ l /\ pm_type r = t /\ pm_start r <= x < pm_end r.

Lemma types_max_eq a b : Types.max a b = Z.max a b.
Proof. unfold Types.max. destruct (Z.gtb_spec a b); lia. Qed.

Lemma can_merge_spec a b :
  can_merge a b = true <->
  pm_start a <= pm_start b /\ pm_start b <= pm_end a /\ pm_type a = pm_type b.
Proof. unfold can_merge. rewrite !andb_true_iff, !Z.leb_le, Z.eqb_eq. tauto. Qed.

(** Merging walks two elements at a time at most. *)
Lemma merge_slots_ind (P : list pmmap -> Prop) :
  P [] -> (forall a, P [a]) ->
  (forall a b r, P r -> P (b :: r) -> P (a :: b :: r)) -> forall l, P l.
Proof.
  intros H0 H1 H2 l. enough (P l /\ forall a, P (a :: l)) by tauto.
  induction l as [|b l [IH1 IH2]]; split; auto.
Qed.

Lemma covered_cons a l t x :
  covered (a :: l) t x <-> (pm_type a = t /\ pm_start a <= x < pm_end a) \/ covered l t x.
Proof.
  unfold covered. split.
  - intros (r & [->|Hr]%elem_of_cons & ? & ?); [by left|right; eauto].
  - intros [[? ?]|(r & ? & ? & ?)]; [exists a|exists r]; rewrite elem_of_cons; auto.
Qed.

Lemma merge_slots_covered l t x : covered (merge_slots l) t x <-> covered l t x.
Proof.
  induction l as [|a|a b r IH1 IH2] using merge_slots_ind;
    [reflexivity|reflexivity|].
  cbn [merge_slots]. destruct (can_merge a b) eqn:E.
  - apply can_merge_spec in E as (H1 & H2 & H3). rewrite !covered_cons, IH1. cbn.
    rewrite types_max_eq. split; [intros [[? ?]|?]|intros [[? ?]|[[? ?]|?]]]; auto.
    + destruct (decide (x < pm_end a)); [left|right; left]; (split; first [congruence | lia]).
    + left. split; [done|lia].
    + left. split; [congruence|lia].
  - rewrite (covered_cons a (merge_slots (b :: r))), IH2, (covered_cons a). reflexivity.
Qed.

Lemma merge_slots_from l a :
  a ∈ merge_slots l -> exists b, b ∈ l /\ pm_start b = pm_start a /\ pm_type b = pm_type a.
Proof.
  revert a. induction l as [|y|y z r IH1 IH2] using merge_slots_ind; intros a; cbn [merge_slots].
  - intros Ha%elem_of_nil. done.
  - intros ->%list_elem_of_singleton. exists y. split; [by left|done].
  - destruct (can_merge y z).
    + intros [->|Ha]%elem_of_cons; [exists y; split; [by left|done]|].
      destruct (IH1 a Ha) as (b & ? & ?). exists b. split; [by do 2 right|done].
    + intros [->|Ha]%elem_of_cons; [exists y; split; [by left|done]|].
      destruct (IH2 a Ha) as (b & ? & ?). exists b. split; [by right|done].
Qed.

Lemma merge_slots_sorted l : sorted_starts l -> sorted_starts (merge_slots l).
Proof.
  unfold sorted_starts.
  induction l as [|a|a b r IH1 IH2] using merge_slots_ind; intros Hs; [done..|].
  apply StronglySorted_inv in Hs as [Hs Ha].
  rewrite Forall_forall in Ha.
  assert (forall l', (forall x, x ∈ l' -> x ∈ b :: r) ->
    Forall (fun x => pm_start a <= pm_start x) (merge_slots l')) as Hall.
  { intros l' Hl. apply Forall_forall. intros x (y & Hy & <- & _)%merge_slots_from.
    by apply Ha, Hl. }
  cbn [merge_slots]. destruct (can_merge a b).
  - apply StronglySorted_inv in Hs as [Hr _].
    constructor; [by apply IH1|]. cbn. apply Hall. intros. by right.
  - constructor; [by apply IH2|]. by apply (Hall (b :: r)).
Qed.

(** The region an entry of the boot loader's map stands for. *)
Definition entry_region (p : mboot_mmap) : pmmap :=
  {| pm_start := base_addr_low p;
     pm_end := if decide (length_high p <> 0 \/ length_low p >= 0xffffffff - base_addr_low p)
               then 0xffffffff else base_addr_low p + length_low p;
     pm_type := mm_type p |}.

Definition low_entries (mmap : list mboot_mmap) : list mboot_mmap :=
  filter (fun p => base_addr_high p = 0) mmap.

Definition entry_ok (p : mboot_mmap) : Prop :=
  is_u32 (base_addr_low p) /\ is_u32 (length_low p) /\ is_u32 (length_high p) /\ 1 <= mm_type p <= 4.

Lemma entry_region_ok p : entry_ok p -> region_ok (entry_region p).
Proof.
  intros (Hb & Hl & _). unfold entry_region, is_u32, W32 in *.
  split; cbn; unfold W32; try case_decide; lia.
Qed.

(** The bytes of an entry: from its base on, as many as its 64-bit length says,
    below 0xffffffff *)
Definition entry_covers (p : mboot_mmap) (x : Z) : Prop :=
  base_addr_low p <= x < base_addr_low p + (length_low p + 2 ^ 32 * length_high p) /\ x < 0xffffffff.

Lemma entry_region_covers p x :
  entry_ok p -> pm_start (entry_region p) <= x < pm_end (entry_region p) <-> entry_covers p x.
Proof.
  unfold entry_ok, entry_covers, is_u32, W32. intros (Hb & Hl & Hh & _). cbn. case_decide; lia.
Qed.

Lemma pmmap_add_high p b : base_addr_high p <> 0 -> pmmap_add p b = Ok (tt, b).
Proof. intros. unfold pmmap_add. by rewrite decide_True. Qed.

Lemma pmmap_add_low p b :
  base_addr_high p = 0 -> pmmap_slots_next_free b <> 128 ->
  pmmap_add p b = Ok (tt, with_list (insert_slot (entry_region p))
                            (set_slots (pmmap_slots_next_free b + 1) b)).
Proof.
  intros Hh Hn. unfold pmmap_add. rewrite decide_False by lia.
  unfold pmmap_insert, pmmap_alloc_slot. mrun. by rewrite decide_False.
Qed.

(** The copy loop builds the sorted list of regions. *)
Lemma pmmap_add_loop l : forall b,
  0 <= pmmap_slots_next_free b ->
  pmmap_slots_next_free b + Z.of_nat (length (low_entries l)) <= 128 ->
  exists b', for_each l pmmap_add b = Ok (tt, b')
    /\ pmmap_list b' = foldl (fun l p => insert_slot (entry_region p) l)
                             (pmmap_list b) (low_entries l)
    /\ pmmap_sublist b' = pmmap_sublist b /\ pmmap_nentries b' = pmmap_nentries b
    /\ max_usable_memory b' = max_usable_memory b.
Proof.
  induction l as [|p l IH]; intros b H0 Hn; [by exists b|].
  cbn [for_each]. unfold low_entries in *. rewrite filter_cons in *.
  destruct (decide (base_addr_high p = 0)) as [Hh|Hh].
  - rewrite length_cons in Hn. rewrite (bind_ok _ _ _ _ _ (pmmap_add_low p b Hh ltac:(lia))).
    edestruct IH as (b' & E & El & Es & Ene & Em); [| |exists b'; split; [exact E|]].
    + cbn. lia.
    + cbn. lia.
    + rewrite El, Es, Ene, Em. done.
  - rewrite (bind_ok _ _ _ _ _ (pmmap_add_high p b Hh)). by apply IH.
Qed.

Lemma fold_insert_elem ps : forall l x,
  x ∈ foldl (fun l p => insert_slot (entry_region p) l) l ps <->
  x ∈ l \/ exists p, p ∈ ps /\ x = entry_region p.
Proof.
  induction ps as [|p ps IH]; intros l x; cbn [foldl].
  - split; [by left|]. intros [?|(p & Hp%elem_of_nil & _)]; done.
  - rewrite IH, insert_slot_elem. split.
    + intros [[->|?]|(q & ? & ->)]; [|by left|].
      * right. exists p. split; [by left|done].
      * right. exists q. split; [by right|done].
    + intros [?|(q & [->|?]%elem_of_cons & ->)]; eauto.
Qed.

Lemma fold_insert_sorted ps : forall l,
  sorted_starts l -> sorted_starts (foldl (fun l p => insert_slot (entry_region p) l) l ps).
Proof. induction ps; intros l Hl; cbn; auto using insert_slot_sorted. Qed.

Lemma sublist_nr_ok t : 1 <= t <= 4 -> PMMAP_SUBLIST_NR t <> -1.
Proof. intros. unfold PMMAP_SUBLIST_NR, MEM_RAM, MEM_RESERVED, MEM_ACPI, MEM_NVS. repeat case_decide; lia. Qed.

(** Step 2 of the merge only fills the sublists and [max_usable_memory]. *)
Lemma pmmap_merge_ok b :
  (forall r, r ∈ pmmap_list b -> 1 <= pm_type r <= 4) ->
  exists b', pmmap_merge b = Ok (tt, b') /\ pmmap_list b' = merge_slots (pmmap_list b)
    /\ pmmap_nentries b' = pmmap_nentries b.
Proof.
  intros Ht. unfold pmmap_merge.
  rewrite (bind_ok _ _ b tt (with_list merge_slots b) eq_refl).
  set (b1 := with_list merge_slots b).
  rewrite (bind_ok _ _ b1 (pmmap_list b1) b1 eq_refl).
  match goal with |- context [for_each _ ?body] => set (body0 := body) end.
  destruct (for_each_ind (fun _ b' => pmmap_list b' = pmmap_list b1
              /\ pmmap_nentries b' = pmmap_nentries b) body0 (pmmap_list b1)) with (s := b1)
    as (b2 & E2 & El & En).
  - intros d r rest b' Hl (El & En). unfold body0. rewrite decide_False.
    2:{ apply sublist_nr_ok. destruct (merge_slots_from (pmmap_list b) r) as (x & Hx & _ & <-).
        - change (merge_slots (pmmap_list b)) with (pmmap_list b1). rewrite Hl. set_solver.
        - by apply Ht. }
    eexists. split; [reflexivity|]. done.
  - done.
  - rewrite (bind_ok _ _ _ _ _ E2), (bind_ok _ _ b2 b2 b2 eq_refl).
    destruct (last _) as [r|]; eexists; (split; [reflexivity|]); done.
Qed.

Lemma count_entries (l : list pmmap) : forall b,
  for_each l (fun _ => modify (fun b => set_totals (max_usable_memory b) (mem_npages b)
                                          (pmmap_nentries b + 1) b)) b
  = Ok (tt, set_totals (max_usable_memory b) (mem_npages b)
              (pmmap_nentries b + Z.of_nat (length l)) b).
Proof.
  induction l as [|r l IH]; intros b.
  - destruct b. cbn. by rewrite Z.add_0_r.
  - cbn [for_each]. rewrite (bind_ok _ _ _ _ _ eq_refl), IH. unfold set_totals. cbn.
    do 3 f_equal. lia.
Qed.

(** ** Reading the map by index *)
Lemma slot_walk_lookup l : forall i (n : nat),
  slot_walk l i (i + Z.of_nat n) =
    match l !! n with
    | Some r => (Some r, i + Z.of_nat n)
    | None => (None, i + Z.of_nat (length l))
    end.
Proof.
  induction l as [|r l IH]; intros i n; cbn [slot_walk].
  - cbn. by rewrite Z.add_0_r.
  - destruct n as [|n]; cbn [lookup list_lookup].
    + by rewrite Z.add_0_r, decide_True.
    + rewrite decide_False by lia.
      replace (i + Z.of_nat (S n)) with (i + 1 + Z.of_nat n) by lia. rewrite IH.
      destruct (l !! n); f_equal; cbn [length]; lia.
Qed.

Lemma slot_get_lookup f b (n : nat) r :
  pmmap_nentries b = Z.of_nat (length (pmmap_list b)) ->
  pmmap_list b !! n = Some r -> slot_get f b (Z.of_nat n) = f r.
Proof.
  intros Hn Hr. unfold slot_get.
  pose proof (slot_walk_lookup (pmmap_list b) 0 n) as E. rewrite Z.add_0_l, Hr in E. rewrite E.
  apply lookup_lt_Some in Hr. rewrite decide_False by lia. done.
Qed.

(** * Properties *)
Module MbootProps.

(** The static data before [pmmap_init]. *)
Definition zero_mboot : mboot :=
  {| pmmap_slots_next_free := 0; pmmap_list := []; max_usable_memory := 0; mem_npages := 0;
     pmmap_nentries := 0; pmmap_sublist := ∅ |}.

(** C35 (functional): the kernel's memory map is the boot loader's.  With at
    most 128 entries below 4 GB, all of known type, [pmmap_init] succeeds; the
    list it builds is sorted by start address, [get_size] is its length,
    [get_mms], [get_mml] and [is_usable] read its elements, and for every type
    and address the list covers the address exactly when an entry of the boot
    loader's map does, by its base and 64-bit length (entries that start above
    4 GB are dropped, and no entry covers addresses from 0xffffffff on):
    insertion and merging lose and invent nothing. *)
Theorem memory_map_faithful mmap :
  (forall p, p ∈ mmap -> entry_ok p) -> (length (low_entries mmap) <= 128)%nat ->
  exists b, pmmap_init mmap zero_mboot = Ok (tt, b)
    /\ sorted_starts (pmmap_list b)
    /\ get_size b = Z.of_nat (length (pmmap_list b))
    /\ (forall n r, pmmap_list b !! n = Some r ->
          get_mms b (Z.of_nat n) = pm_start r
          /\ get_mml b (Z.of_nat n) = u32 (pm_end r - pm_start r)
          /\ is_usable b (Z.of_nat n) = (if decide (pm_type r = MEM_RAM) then 1 else 0))
    /\ (forall t x, covered (pmmap_list b) t x <->
          exists p, p ∈ mmap /\ base_addr_high p = 0 /\ mm_type p = t /\ entry_covers p x).
Proof.
  intros Hok Hlen. unfold pmmap_init.
  rewrite (bind_ok _ _ zero_mboot _ _ eq_refl), (bind_ok _ _ _ _ _ eq_refl).
  match goal with |- context [(for_each mmap pmmap_add ≫= _) ?b] => set (b1 := b) end.
  destruct (pmmap_add_loop mmap b1) as (b2 & E2 & El & _ & En & _); [cbn; lia|cbn; lia|].
  cbn [pmmap_list with_sublists with_list b1 pmmap_nentries zero_mboot] in El, En.
  rewrite (bind_ok _ _ _ _ _ E2).
  assert (forall x, x ∈ pmmap_list b2 <->
    exists p, (p ∈ mmap /\ base_addr_high p = 0) /\ x = entry_region p) as Hin.
  { intros x. rewrite El, fold_insert_elem, elem_of_nil. unfold low_entries.
    setoid_rewrite list_elem_of_filter. naive_solver. }
  destruct (pmmap_merge_ok b2) as (b3 & E3 & El3 & En3).
  { intros r (p & [Hp _] & ->)%Hin. cbn. by apply Hok. }
  rewrite (bind_ok _ _ _ _ _ E3), (bind_ok _ _ b3 b3 b3 eq_refl).
  rewrite (bind_ok _ _ _ _ _ (count_entries (pmmap_list b3) b3)).
  eexists. split; [reflexivity|]. cbn [pmmap_list set_totals].
  assert (pmmap_nentries b3 = 0) as Hn0 by congruence.
  split_and!.
  - rewrite El3, El. apply merge_slots_sorted, fold_insert_sorted. constructor.
  - unfold get_size. cbn. rewrite Hn0. lia.
  - intros n r Hr. unfold get_mms, get_mml, is_usable.
    by rewrite !(slot_get_lookup _ _ n r) by (cbn; first [lia|done]).
  - intros t x. rewrite El3, merge_slots_covered. unfold covered. split.
    + intros (r & (p & [Hp ?] & ->)%Hin & ? & Hx). exists p. rewrite <-entry_region_covers by auto. done.
    + intros (p & Hp & ? & ? & Hx). exists (entry_region p). rewrite entry_region_covers by auto. split; [|done].
      apply Hin. eauto.
Qed.

(** Out of order and overlapping: address 0x8000000 is usable. *)
Lemma memory_map_faithful_witness :
  let p1 := {| mm_size := 24; base_addr_low := 0x100000; base_addr_high := 0;
               length_low := 0x7ee0000; length_high := 0; mm_type := 1 |} in
  let p2 := {| mm_size := 24; base_addr_low := 0; base_addr_high := 0;
               length_low := 0x180000; length_high := 1; mm_type := 1 |} in
  exists b, pmmap_init [p1; p2] zero_mboot = Ok (tt, b) /\ sorted_starts (pmmap_list b)
    /\ covered (pmmap_list b) MEM_RAM 0x8000000.
Proof.
  intros p1 p2. destruct (memory_map_faithful [p1; p2]) as (b & E & Hs & _ & _ & Hc).
  - intros p. rewrite elem_of_cons, list_elem_of_singleton. unfold entry_ok, is_u32, W32.
    intros [->| ->]; cbn; lia.
  - apply Nat.leb_le. vm_compute. reflexivity.
  - exists b. split; [exact E|]. split; [exact Hs|]. apply Hc. exists p2.
    split; [rewrite elem_of_cons, list_elem_of_singleton; by right|]. unfold entry_covers. cbn. split_and!; done || lia.
Defined.

(** The merge step does not merge every overlapping pair.  After
    two regions are merged the walk moves past the merged one, so of three
    usable regions that overlap in turn the last stays separate, although the
    call is commented "merge overlapped memory regions". *)
Theorem merge_is_not_exhaustive :
  let r s e := {| pm_start := s; pm_end := e; pm_type := MEM_RAM |} in
  merge_slots [r 0 100; r 50 200; r 150 300] = [r 0 200; r 150 300]
  /\ can_merge (r 0 200) (r 150 300) = true.
Proof. split; reflexivity. Qed.

End MbootProps.
