(* ===== verification/PMM.v ===== *)
(** * Physical memory: pmm/MATIntro, pmm/MATInit, pmm/MATOp, pmm/MContainer

    The allocation table and its setters, its initialisation from the boot
    memory map, the page allocator, and the containers that account for the
    pages of each process. *)

From S2P Require Import Prelude Machine Mboot.

(** ** MATIntro.c *)
Record ATStruct := { at_perm : Z; at_allocated : Z }.

#[export] Instance ATStruct_inhabited : Inhabited ATStruct :=
  populate {| at_perm := 0; at_allocated := 0 |}.

Definition AT_SIZE : Z := 1048576.

(** ** MContainer.c: the fields are C [int]s. *)
Record SContainer := {
  c_quota : Z;
  c_usage : Z;
  c_parent : Z;
  c_nchildren : Z;
  c_used : Z;
}.

#[export] Instance SContainer_inhabited : Inhabited SContainer := populate
  {| c_quota := 0; c_usage := 0; c_parent := 0; c_nchildren := 0; c_used := 0 |}.

(** The static data of the four files, and the kernel stack of the processor. *)
Record pmm := {
  mem_lk : spinlock;
  NUM_PAGES : Z;
  AT : gmap Z ATStruct;
  last_palloc_index : Z;
  CONTAINER : gmap Z SContainer;
  pm_kstack : kstack;
}.

Definition set_mem_lk (l : spinlock) (s : pmm) : pmm :=
  {| mem_lk := l; NUM_PAGES := NUM_PAGES s; AT := AT s;
     last_palloc_index := last_palloc_index s; CONTAINER := CONTAINER s; pm_kstack := pm_kstack s |}.
Definition set_NUM_PAGES (n : Z) (s : pmm) : pmm :=
  {| mem_lk := mem_lk s; NUM_PAGES := n; AT := AT s;
     last_palloc_index := last_palloc_index s; CONTAINER := CONTAINER s; pm_kstack := pm_kstack s |}.
Definition with_AT (f : gmap Z ATStruct -> gmap Z ATStruct) (s : pmm) : pmm :=
  {| mem_lk := mem_lk s; NUM_PAGES := NUM_PAGES s; AT := f (AT s);
     last_palloc_index := last_palloc_index s; CONTAINER := CONTAINER s; pm_kstack := pm_kstack s |}.
Definition set_last (n : Z) (s : pmm) : pmm :=
  {| mem_lk := mem_lk s; NUM_PAGES := NUM_PAGES s; AT := AT s;
     last_palloc_index := n; CONTAINER := CONTAINER s; pm_kstack := pm_kstack s |}.
Definition with_CONTAINER (f : gmap Z SContainer -> gmap Z SContainer) (s : pmm) : pmm :=
  {| mem_lk := mem_lk s; NUM_PAGES := NUM_PAGES s; AT := AT s;
     last_palloc_index := last_palloc_index s; CONTAINER := f (CONTAINER s);
     pm_kstack := pm_kstack s |}.

Definition mem_spinlock_init : M pmm unit := zoom mem_lk set_mem_lk spinlock_init.
Definition mem_lock : M pmm unit :=
  s ← get; zoom mem_lk set_mem_lk (spinlock_acquire (pm_kstack s)).
Definition mem_unlock : M pmm unit := zoom mem_lk set_mem_lk spinlock_release.

Definition get_nps : M pmm Z := gets NUM_PAGES.
Definition set_nps (nps : Z) : M pmm unit := modify (set_NUM_PAGES nps).

Definition at_read {A} (i : Z) (f : ATStruct -> A) : M pmm A :=
  check_index AT_SIZE i ;; gets (fun s => f (AT s !!! i)).
Definition at_write (i : Z) (f : ATStruct -> ATStruct) : M pmm unit :=
  check_index AT_SIZE i ;; modify (with_AT (fun m => <[i := f (m !!! i)]> m)).

Definition at_is_norm (page_index : Z) : M pmm Z :=
  tperm ← at_read page_index at_perm;
  mret (if decide (tperm = 0) then 0 else if decide (tperm = 1) then 0 else 1).

Definition at_set_perm (page_index norm_val : Z) : M pmm unit :=
  at_write page_index (fun _ => {| at_perm := norm_val; at_allocated := 0 |}).

Definition at_is_allocated (page_index : Z) : M pmm Z :=
  allocated ← at_read page_index at_allocated;
  mret (if decide (allocated = 0) then 0 else 1).

Definition at_set_allocated (page_index allocated : Z) : M pmm unit :=
  at_write page_index (fun a => {| at_perm := at_perm a; at_allocated := allocated |}).

(** ** MATInit.c *)
Definition VM_USERLO_PI : Z := VM_USERLO / PAGESIZE.
Definition VM_USERHI_PI : Z := VM_USERHI / PAGESIZE.

(** The first loop: the highest page number of the memory map, plus one. *)
Fixpoint count_pages (b : mboot) (idx : list Z) (nps : Z) : Z :=
  match idx with
  | [] => nps
  | i :: idx =>
      let s := get_mms b i in
      let l := get_mml b i in
      let maxs := u32 (u32 (s + l) / PAGESIZE + 1) in
      count_pages b idx (if decide (maxs > nps) then maxs else nps)
  end.

(** The search for the range that holds page [i]: [flag] and [isnorm] when the
    loop [while (j < size && flag == 0)] ends. *)
Fixpoint find_range (b : mboot) (i : Z) (js : list Z) (flag isnorm : Z) : Z * Z :=
  match js with
  | [] => (flag, isnorm)
  | j :: js =>
      if decide (flag = 0) then
        let s := get_mms b j in
        let l := get_mml b j in
        let isnorm' := is_usable b j in
        let flag' := if decide (s <= u32 (i * PAGESIZE) /\ u32 (l + s) >= u32 ((i + 1) * PAGESIZE))
                     then 1 else flag in
        find_range b i js flag' isnorm'
      else (flag, isnorm)
  end.

Definition page_perm (b : mboot) (i : Z) : Z :=
  if decide (i < VM_USERLO_PI \/ i >= VM_USERHI_PI) then 1
  else
    let '(flag, isnorm) := find_range b i (seqZ 0 (get_size b)) 0 0 in
    if decide (flag = 1 /\ isnorm = 1) then 2 else 0.

(** [b] is the memory map [devinit] has read. *)
Definition pmem_init (b : mboot) : M pmm unit :=
  mem_spinlock_init ;;
  let nps := count_pages b (seqZ 0 (get_size b)) 0 in
  set_nps nps ;;
  for_each (seqZ 0 nps) (fun i => at_set_perm i (page_perm b i)).

(** ** MATOp.c *)

(** The scan; the fuel is at least the number of pages left, plus one. *)
Fixpoint palloc_loop (fuel : nat) (tnps palloc_index palloc_free_index : Z) : M pmm Z :=
  match fuel with
  | O => fail Hang
  | S fuel =>
      if decide (palloc_index < tnps /\ palloc_free_index = tnps) then
        palloc_is_norm ← at_is_norm palloc_index;
        f ← (if decide (palloc_is_norm = 1) then
               palloc_cur_at ← at_is_allocated palloc_index;
               mret (if decide (palloc_cur_at = 0) then palloc_index else palloc_free_index)
             else mret palloc_free_index);
        palloc_loop fuel tnps (palloc_index + 1) f
      else mret palloc_free_index
  end.

Definition palloc : M pmm Z :=
  mem_lock ;;
  tnps ← get_nps;
  last ← gets last_palloc_index;
  free ← palloc_loop (S (Z.to_nat tnps)) tnps (u32 (last + 1)) tnps;
  palloc_free_index ← (if decide (free = tnps) then mret 0
                       else at_set_allocated free 1 ;; mret free);
  (if decide (tnps = 0) then undef DivByZero
   else modify (set_last (palloc_free_index mod tnps))) ;;
  mem_unlock ;;
  mret palloc_free_index.

Definition pfree (pfree_index : Z) : M pmm unit :=
  mem_lock ;; at_set_allocated pfree_index 0 ;; mem_unlock.

(** ** MContainer.c *)
Definition c_read {A} (id : Z) (f : SContainer -> A) : M pmm A :=
  check_index NUM_IDS id ;; gets (fun s => f (CONTAINER s !!! id)).
Definition c_write (id : Z) (f : SContainer -> SContainer) : M pmm unit :=
  check_index NUM_IDS id ;; modify (with_CONTAINER (fun m => <[id := f (m !!! id)]> m)).

(** The loop that counts the free normal pages. *)
Fixpoint count_quota (idx : list Z) (real_quota : Z) : M pmm Z :=
  match idx with
  | [] => mret real_quota
  | i :: idx =>
      norm ← at_is_norm i;
      used ← at_is_allocated i;
      count_quota idx (if decide (norm = 1 /\ used = 0) then u32 (real_quota + 1) else real_quota)
  end.

Definition container_init (b : mboot) : M pmm unit :=
  pmem_init b ;;
  nps ← get_nps;
  real_quota ← count_quota (seqZ 1 (nps - 1)) 0;
  c_write 0 (fun _ => {| c_quota := s32 real_quota; c_usage := 0; c_parent := 0;
                         c_nchildren := 0; c_used := 1 |}).

Definition container_get_parent (id : Z) : M pmm Z := c_read id (fun c => u32 (c_parent c)).
Definition container_get_nchildren (id : Z) : M pmm Z := c_read id (fun c => u32 (c_nchildren c)).
Definition container_get_quota (id : Z) : M pmm Z := c_read id (fun c => u32 (c_quota c)).
Definition container_get_usage (id : Z) : M pmm Z := c_read id (fun c => u32 (c_usage c)).

(** [usage + n] is unsigned, so the comparison is too. *)
Definition container_can_consume (id n : Z) : M pmm Z :=
  c_read id (fun c => if decide (u32 (c_usage c + n) > u32 (c_quota c)) then 0 else 1).

Definition container_split (id quota : Z) : M pmm Z :=
  nc ← c_read id c_nchildren;
  let child := u32 (id * MAX_CHILDREN + 1 + nc) in
  c_write child (fun c => {| c_quota := s32 quota; c_usage := 0; c_parent := s32 id;
                             c_nchildren := 0; c_used := 1 |}) ;;
  c_write id (fun c => {| c_quota := c_quota c; c_usage := s32 (c_usage c + quota);
                          c_parent := c_parent c; c_nchildren := s32 (nc + 1);
                          c_used := c_used c |}) ;;
  mret child.

Definition set_usage (v : Z) (c : SContainer) : SContainer :=
  {| c_quota := c_quota c; c_usage := v; c_parent := c_parent c;
     c_nchildren := c_nchildren c; c_used := c_used c |}.

Definition container_alloc (id : Z) : M pmm Z :=
  u ← c_read id c_usage;
  q ← c_read id c_quota;
  if decide (u32 u = u32 q) then mret 0
  else
    c_write id (set_usage (s32 (u + 1))) ;;
    palloc.

Definition container_free (id page_index : Z) : M pmm unit :=
  a ← at_is_allocated page_index;
  if decide (a <> 0) then
    pfree page_index ;;
    u ← c_read id c_usage;
    if decide (u > 0) then c_write id (set_usage (u - 1)) else mret tt
  else mret tt.

(** * Theory *)

Lemma at_read_ok {A} i (f : ATStruct -> A) s :
  0 <= i < AT_SIZE -> at_read i f s = Ok (f (AT s !!! i), s).
Proof. intros. unfold at_read. by mrun. Qed.
Lemma at_write_ok i f s :
  0 <= i < AT_SIZE -> at_write i f s = Ok (tt, with_AT (fun m => <[i := f (m !!! i)]> m) s).
Proof. intros. unfold at_write. by mrun. Qed.

Definition normal (a : ATStruct) : Prop := at_perm a <> 0 /\ at_perm a <> 1.
Definition free_page (s : pmm) (p : Z) : Prop :=
  normal (AT s !!! p) /\ at_allocated (AT s !!! p) = 0.
#[export] Instance free_page_dec s p : Decision (free_page s p).
Proof. unfold free_page, normal. apply _. Defined.

Lemma at_is_norm_ok i s :
  0 <= i < AT_SIZE -> at_is_norm i s = Ok (if decide (normal (AT s !!! i)) then 1 else 0, s).
Proof.
  intros Hi. unfold at_is_norm. rewrite (bind_ok _ _ _ _ _ (at_read_ok i at_perm s Hi)).
  unfold mret, M_ret, normal. do 2 f_equal. repeat case_decide; tauto.
Qed.

Lemma at_is_allocated_ok i s :
  0 <= i < AT_SIZE ->
  at_is_allocated i s = Ok (if decide (at_allocated (AT s !!! i) = 0) then 0 else 1, s).
Proof.
  intros Hi. unfold at_is_allocated. by rewrite (bind_ok _ _ _ _ _ (at_read_ok i at_allocated s Hi)).
Qed.

(** ** The page allocator *)
Lemma palloc_loop_found fuel tnps i f s :
  f <> tnps -> (0 < fuel)%nat -> palloc_loop fuel tnps i f s = Ok (f, s).
Proof. intros Hf Hn. destruct fuel; [lia|]. cbn [palloc_loop]. by rewrite decide_False by tauto. Qed.

(** The scan returns the first free page from [i] on, and [tnps] if none. *)
Lemma palloc_loop_spec fuel : forall tnps i s,
  0 <= i -> tnps <= AT_SIZE -> (Z.to_nat (tnps - i) < fuel)%nat ->
  exists r, palloc_loop fuel tnps i tnps s = Ok (r, s)
    /\ ((r = tnps /\ forall q, i <= q < tnps -> ~ free_page s q)
        \/ (i <= r < tnps /\ free_page s r /\ forall q, i <= q < r -> ~ free_page s q)).
Proof.
  induction fuel as [|fuel IH]; intros tnps i s Hi Ht Hf; [lia|]. cbn [palloc_loop].
  destruct (decide (i < tnps /\ tnps = tnps)) as [[Hlt _]|Hge].
  - assert (0 <= i < AT_SIZE) as Hr by lia.
    rewrite (bind_ok _ _ _ _ _ (at_is_norm_ok i s Hr)).
    assert (forall f, f = (if decide (free_page s i) then i else tnps) ->
      exists r, palloc_loop fuel tnps (i + 1) f s = Ok (r, s)
        /\ ((r = tnps /\ forall q, i <= q < tnps -> ~ free_page s q)
            \/ (i <= r < tnps /\ free_page s r /\ forall q, i <= q < r -> ~ free_page s q))) as Hnext.
    { intros f ->. case_decide as Hfree.
      - exists i. rewrite palloc_loop_found by lia. split; [done|]. right.
        split; [lia|]. split; [done|]. intros; lia.
      - destruct (IH tnps (i + 1) s) as (r & E & Hr'); [lia..|]. exists r. split; [done|].
        destruct Hr' as [[-> Hn]|(Hr' & Hfr & Hn)]; [left|right].
        + split; [done|]. intros q Hq. destruct (decide (q = i)) as [->|]; [done|]. apply Hn. lia.
        + split; [lia|]. split; [done|]. intros q Hq.
          destruct (decide (q = i)) as [->|]; [done|]. apply Hn. lia. }
    unfold free_page in Hnext at 1.
    destruct (decide (normal (AT s !!! i))) as [Hn|Hn].
    + rewrite decide_True by done. rewrite bind_assoc.
      rewrite (bind_ok _ _ _ _ _ (at_is_allocated_ok i s Hr)).
      rewrite (bind_ok _ _ _ _ _ eq_refl). apply Hnext.
      destruct (decide (at_allocated (AT s !!! i) = 0)) as [Ha|Ha].
      * rewrite decide_True by done. by rewrite decide_True by (by split).
      * rewrite decide_False by done. by rewrite decide_False by (intros []; done).
    + rewrite decide_False by done. rewrite (bind_ok _ _ _ _ _ eq_refl). apply Hnext.
      by rewrite decide_False by (intros []; done).
  - exists tnps. split; [done|]. left. split; [done|]. intros; lia.
Qed.

(** The allocator's state between calls. *)
Record pmm_ok (s : pmm) : Prop := {
  po_lk : mem_lk s = free_lock;
  po_magic : ks_magic (pm_kstack s) = KSTACK_MAGIC;
  po_nps : 0 < NUM_PAGES s <= AT_SIZE;
  po_last : 0 <= last_palloc_index s < AT_SIZE;
}.

Lemma mem_lock_ok s :
  pmm_ok s -> mem_lock s = Ok (tt, set_mem_lk (held_lock (pm_kstack s)) s).
Proof.
  intros [Hl Hm _ _]. unfold mem_lock, get, mbind, M_bind, zoom.
  rewrite spinlock_acquire_free; [done|by rewrite Hl|done].
Qed.

Definition alloc_at (p : Z) (s : pmm) : pmm :=
  set_last p (with_AT (fun m => <[p := {| at_perm := at_perm (m !!! p); at_allocated := 1 |}]> m) s).

Lemma palloc_ok s :
  pmm_ok s ->
  exists p s', palloc s = Ok (p, s')
    /\ ((p = 0 /\ s' = set_last 0 s
         /\ forall q, last_palloc_index s < q < NUM_PAGES s -> ~ free_page s q)
        \/ (last_palloc_index s < p < NUM_PAGES s /\ free_page s p /\ s' = alloc_at p s
            /\ forall q, last_palloc_index s < q < p -> ~ free_page s q)).
Proof.
  intros Hok. pose proof Hok as [Hl Hm [Hn1 Hn2] Hla]. unfold palloc.
  rewrite (bind_ok _ _ _ _ _ (mem_lock_ok s Hok)).
  set (s0 := set_mem_lk _ s). rewrite (bind_ok _ _ _ _ _ eq_refl), (bind_ok _ _ _ _ _ eq_refl).
  change (NUM_PAGES s0) with (NUM_PAGES s).
  change (last_palloc_index s0) with (last_palloc_index s).
  rewrite u32_id by (unfold W32, AT_SIZE in *; lia).
  destruct (palloc_loop_spec (S (Z.to_nat (NUM_PAGES s))) (NUM_PAGES s)
              (last_palloc_index s + 1) s0) as (r & E & Hr); [lia..|].
  rewrite (bind_ok _ _ _ _ _ E).
  assert (forall q, free_page s0 q <-> free_page s q) as Hfp by done.
  destruct Hr as [[-> Hnone]|(Hr & Hfree & Hmin)].
  - rewrite decide_True by done. rewrite (bind_ok _ _ _ _ _ eq_refl), decide_False by lia.
    rewrite (bind_ok _ _ _ _ _ eq_refl), (bind_ok _ _ _ _ _ eq_refl).
    eexists 0, _. split; [reflexivity|]. left. split; [done|]. split.
    + rewrite Z.mod_0_l by lia. unfold s0, set_mem_lk, set_last. cbn. by rewrite Hl.
    + intros q Hq. apply Hnone. lia.
  - rewrite decide_False by lia. rewrite bind_assoc.
    unfold at_set_allocated. erewrite bind_ok by (apply at_write_ok; lia).
    rewrite (bind_ok _ _ _ _ _ eq_refl), decide_False by lia.
    rewrite (bind_ok _ _ _ _ _ eq_refl), (bind_ok _ _ _ _ _ eq_refl).
    eexists r, _. split; [reflexivity|]. right. split; [lia|]. split; [done|]. split.
    + rewrite Z.mod_small by lia. unfold alloc_at, s0, set_mem_lk, set_last, with_AT. cbn. by rewrite Hl.
    + intros q Hq. apply Hmin. lia.
Qed.

Lemma pmm_ok_alloc s p : pmm_ok s -> 0 <= p < NUM_PAGES s -> pmm_ok (alloc_at p s).
Proof. intros [] Hp. split; cbn; try done. lia. Qed.

Lemma pmm_ok_last0 s : pmm_ok s -> pmm_ok (set_last 0 s).
Proof. intros []. split; cbn; try done. Qed.

(** ** The allocation table after [pmem_init] *)
Lemma count_pages_bound b idx : forall nps,
  nps <= AT_SIZE -> nps <= count_pages b idx nps <= AT_SIZE.
Proof.
  induction idx as [|i idx IH]; intros nps Hn; cbn [count_pages]; [lia|].
  set (m := u32 (u32 (get_mms b i + get_mml b i) / PAGESIZE + 1)).
  assert (m <= AT_SIZE) as Hm.
  { unfold m. pose proof (u32_range (get_mms b i + get_mml b i)) as Hr. unfold AT_SIZE.
    assert (u32 (get_mms b i + get_mml b i) / PAGESIZE < 1048576) as Hd.
    { apply Z.div_lt_upper_bound; unfold PAGESIZE, W32 in *; lia. }
    assert (0 <= u32 (get_mms b i + get_mml b i) / PAGESIZE) by (apply Z.div_pos; unfold PAGESIZE; lia).
    rewrite u32_id; unfold W32; lia. }
  case_decide as Hd.
  - destruct (IH m); [done|]. lia.
  - destruct (IH nps); [done|]. lia.
Qed.

Lemma at_set_perm_loop b l : forall s,
  NoDup l -> (forall i, i ∈ l -> 0 <= i < AT_SIZE) ->
  exists s', for_each l (fun i => at_set_perm i (page_perm b i)) s = Ok (tt, s')
    /\ (forall i, i ∈ l -> AT s' !!! i = {| at_perm := page_perm b i; at_allocated := 0 |})
    /\ NUM_PAGES s' = NUM_PAGES s /\ mem_lk s' = mem_lk s
    /\ last_palloc_index s' = last_palloc_index s /\ pm_kstack s' = pm_kstack s
    /\ CONTAINER s' = CONTAINER s.
Proof.
  intros s Hnd Hl.
  destruct (for_each_ind (fun d s' =>
      (forall i, i ∈ d -> AT s' !!! i = {| at_perm := page_perm b i; at_allocated := 0 |})
      /\ NUM_PAGES s' = NUM_PAGES s /\ mem_lk s' = mem_lk s
      /\ last_palloc_index s' = last_palloc_index s /\ pm_kstack s' = pm_kstack s
      /\ CONTAINER s' = CONTAINER s) (fun i => at_set_perm i (page_perm b i)) l) with (s := s)
    as (s' & E & H); [| |by exists s'].
  - intros d i r s1 Hd (H1 & H2). assert (0 <= i < AT_SIZE) as Hi by (apply Hl; rewrite Hd; set_solver).
    unfold at_set_perm. rewrite at_write_ok by done. eexists. split; [reflexivity|].
    split; [|done]. intros k Hk. cbn. rewrite lookup_total_upd. case_decide; [by subst|].
    apply H1. set_solver.
  - split_and!; try done. intros i Hi%elem_of_nil. done.
Qed.

(** What [find_range] finds: the first region of the map that holds the page. *)
Definition holds_page (b : mboot) (i j : Z) : Prop :=
  get_mms b j <= u32 (i * PAGESIZE) /\ u32 (get_mml b j + get_mms b j) >= u32 ((i + 1) * PAGESIZE).
#[export] Instance holds_page_dec b i j : Decision (holds_page b i j).
Proof. apply _. Defined.

Lemma find_range_done b i js n : find_range b i js 1 n = (1, n).
Proof. by destruct js. Qed.

Lemma find_range_spec b i js n :
  match list_find (holds_page b i) js with
  | Some (_, j) => find_range b i js 0 n = (1, is_usable b j)
  | None => fst (find_range b i js 0 n) = 0
  end.
Proof.
  revert n. induction js as [|j js IH]; intros n; [done|]. cbn [find_range list_find].
  rewrite (decide_True (P := 0 = 0)) by done.
  destruct (decide (holds_page b i j)) as [Hp|Hp].
  - rewrite decide_True by exact Hp. apply find_range_done.
  - rewrite decide_False by exact Hp. specialize (IH (is_usable b j)).
    destruct (list_find _ js) as [[k j']|]; exact IH.
Qed.

Lemma page_perm_spec b i :
  page_perm b i =
    if decide (VM_USERLO_PI <= i < VM_USERHI_PI) then
      match list_find (holds_page b i) (seqZ 0 (get_size b)) with
      | Some (_, j) => if decide (is_usable b j = 1) then 2 else 0
      | None => 0
      end
    else 1.
Proof.
  unfold page_perm. destruct (decide (VM_USERLO_PI <= i < VM_USERHI_PI)) as [H|H].
  - rewrite decide_False by lia. pose proof (find_range_spec b i (seqZ 0 (get_size b)) 0) as Hf.
    destruct (list_find _ _) as [[k j]|].
    + rewrite Hf. apply decide_ext. tauto.
    + destruct (find_range _ _ _ _ _) as [fl n]. cbn in Hf. subst.
      by rewrite decide_False by (intros []; lia).
  - by rewrite decide_True by lia.
Qed.

(** ** Containers *)
Lemma c_read_ok {A} id (f : SContainer -> A) s :
  0 <= id < NUM_IDS -> c_read id f s = Ok (f (CONTAINER s !!! id), s).
Proof. intros. unfold c_read. by mrun. Qed.
Lemma c_write_ok id f s :
  0 <= id < NUM_IDS ->
  c_write id f s = Ok (tt, with_CONTAINER (fun m => <[id := f (m !!! id)]> m) s).
Proof. intros. unfold c_write. by mrun. Qed.

Definition zsum (l : list Z) (f : Z -> Z) : Z := foldr (fun i acc => f i + acc) 0 l.

Lemma zsum_cons i l f : zsum (i :: l) f = f i + zsum l f.
Proof. done. Qed.

Lemma zsum_ext l f g : (forall i, i ∈ l -> f i = g i) -> zsum l f = zsum l g.
Proof.
  induction l as [|i l IH]; intros H; [done|]. rewrite !zsum_cons, (H i) by (by left).
  f_equal. apply IH. intros. apply H. by right.
Qed.

Lemma zsum_le l f g : (forall i, i ∈ l -> f i <= g i) -> zsum l f <= zsum l g.
Proof.
  induction l as [|i l IH]; intros H; [done|]. rewrite !zsum_cons.
  pose proof (H i ltac:(by left)). enough (zsum l f <= zsum l g) by lia.
  apply IH. intros. apply H. by right.
Qed.

Lemma zsum_change l f g k :
  NoDup l -> k ∈ l -> (forall i, i ∈ l -> i <> k -> g i = f i) ->
  zsum l g = zsum l f - f k + g k.
Proof.
  induction l as [|i l IH]; intros Hnd Hk Hs; [by apply elem_of_nil in Hk|].
  apply NoDup_cons in Hnd as [Hi Hnd]. rewrite !zsum_cons. apply elem_of_cons in Hk as [->|Hk].
  - rewrite (zsum_ext l g f); [lia|]. intros j Hj. apply Hs; [by right|congruence].
  - rewrite IH; [|done|done|intros; apply Hs; [by right|done]].
    rewrite (Hs i); [lia|by left|congruence].
Qed.

Definition ids : list Z := seqZ 0 NUM_IDS.
Lemma elem_of_ids i : i ∈ ids <-> 0 <= i < NUM_IDS.
Proof. unfold ids. rewrite elem_of_seqZ. lia. Qed.

(** [own id]: the pages charged to [id] itself, not given to a child. *)
Record cont_inv (C : gmap Z SContainer) (own : Z -> Z) : Prop := {
  ci_root : c_used (C !!! 0) <> 0;
  ci_unused : forall id, 0 <= id < NUM_IDS -> c_used (C !!! id) = 0 -> C !!! id = inhabitant;
  ci_tree : forall c, 1 <= c < NUM_IDS -> c_used (C !!! c) <> 0 ->
    c_used (C !!! ((c - 1) / 3)) <> 0 /\ (c - 1) mod 3 < c_nchildren (C !!! ((c - 1) / 3));
  ci_range : forall id, 0 <= id < NUM_IDS ->
    0 <= own id <= c_usage (C !!! id) /\ c_usage (C !!! id) <= c_quota (C !!! id) <= 2147483647
    /\ 0 <= c_nchildren (C !!! id) <= 3;
  ci_sum : zsum ids (fun i => c_usage (C !!! i)) + c_quota (C !!! 0)
           = zsum ids own + zsum ids (fun i => c_quota (C !!! i));
}.

(** The pages charged to all processes never exceed the root's quota. *)
Lemma cont_inv_bound C own : cont_inv C own -> zsum ids own <= c_quota (C !!! 0).
Proof.
  intros H. pose proof (ci_sum _ _ H).
  enough (zsum ids (fun i => c_usage (C !!! i)) <= zsum ids (fun i => c_quota (C !!! i))) by lia.
  apply zsum_le. intros i Hi%elem_of_ids. pose proof (ci_range _ _ H i Hi). lia.
Qed.

Definition upd (f : Z -> Z) (k v : Z) : Z -> Z := fun i => if decide (i = k) then v else f i.

(** Changing the usage of one container and its own pages alike. *)
Lemma cont_inv_usage C own id d :
  cont_inv C own -> 0 <= id < NUM_IDS -> c_used (C !!! id) <> 0 ->
  0 <= own id + d -> c_usage (C !!! id) + d <= c_quota (C !!! id) ->
  cont_inv (<[id := set_usage (c_usage (C !!! id) + d) (C !!! id)]> C) (upd own id (own id + d)).
Proof.
  intros H Hid Hu Ho Hq. pose proof (ci_range _ _ H id Hid) as Hr.
  assert (forall (P : SContainer -> Prop) k, (k = id -> P (set_usage (c_usage (C !!! id) + d) (C !!! id))) ->
    (k <> id -> P (C !!! k)) ->
    P (<[id := set_usage (c_usage (C !!! id) + d) (C !!! id)]> C !!! k)) as Hcase.
  { intros P k H1 H2. rewrite lookup_total_upd. case_decide; [subst; by apply H1|apply H2; congruence]. }
  assert (forall k, c_used (<[id := set_usage (c_usage (C !!! id) + d) (C !!! id)]> C !!! k)
                    = c_used (C !!! k)
                 /\ c_quota (<[id := set_usage (c_usage (C !!! id) + d) (C !!! id)]> C !!! k)
                    = c_quota (C !!! k)
                 /\ c_nchildren (<[id := set_usage (c_usage (C !!! id) + d) (C !!! id)]> C !!! k)
                    = c_nchildren (C !!! k)) as Hsame.
  { intros k. rewrite lookup_total_upd. by case_decide; subst. }
  split.
  - destruct (Hsame 0) as (-> & _). apply H.
  - intros k Hk. apply (Hcase (fun c => c_used c = 0 -> c = inhabitant)); [done|].
    intros _. by apply H.
  - intros c Hc. destruct (Hsame c) as (-> & _). destruct (Hsame ((c - 1) / 3)) as (-> & _ & ->).
    by apply H.
  - intros k Hk. unfold upd. destruct (Hsame k) as (_ & -> & ->).
    rewrite lookup_total_upd. destruct (decide (id = k)) as [<-|Hne].
    + rewrite decide_True by done. cbn. lia.
    + rewrite decide_False by congruence. by apply H.
  - destruct (Hsame 0) as (_ & -> & _).
    rewrite (zsum_ext ids (fun i => c_quota (<[id := set_usage (c_usage (C !!! id) + d)
      (C !!! id)]> C !!! i)) (fun i => c_quota (C !!! i))) by (intros; apply Hsame).
    assert (id ∈ ids) as Hin by by apply elem_of_ids.
    rewrite (zsum_change ids (fun i => c_usage (C !!! i)) _ id (NoDup_seqZ _ _) Hin).
    2:{ intros i _ Hne. cbn. by rewrite lookup_total_insert_ne. }
    rewrite (zsum_change ids own (upd own id (own id + d)) id (NoDup_seqZ _ _) Hin).
    2:{ intros i _ Hne. unfold upd. by rewrite decide_False. }
    unfold upd. rewrite decide_True by done. rewrite lookup_total_insert_eq. cbn.
    pose proof (ci_sum _ _ H). lia.
Qed.

(** A child slot below [MAX_CHILDREN] is fresh. *)
Lemma cont_inv_fresh C own id :
  cont_inv C own -> 0 <= id < NUM_IDS -> c_nchildren (C !!! id) < MAX_CHILDREN ->
  let child := id * 3 + 1 + c_nchildren (C !!! id) in
  child < NUM_IDS -> 1 <= child /\ child <> id /\ C !!! child = inhabitant.
Proof.
  intros H Hid Hn child Hc. pose proof (ci_range _ _ H id Hid) as (_ & _ & Hr).
  unfold MAX_CHILDREN in *. split; [lia|]. split; [lia|].
  destruct (decide (c_used (C !!! child) = 0)) as [Hz|Hz].
  - apply (ci_unused _ _ H); [lia|done].
  - exfalso. destruct (ci_tree _ _ H child) as [_ Hlt]; [lia|done|].
    assert ((child - 1) / 3 = id) as Ed by (unfold child; symmetry; apply (Z.div_unique _ _ _ (c_nchildren (C !!! id))); lia).
    assert ((child - 1) mod 3 = c_nchildren (C !!! id)) as Em by (unfold child; symmetry; apply (Z.mod_unique _ _ id); lia).
    rewrite Ed, Em in Hlt. lia.
Qed.

(** The containers after [container_split]. *)
Definition split_at (C : gmap Z SContainer) (id q : Z) : gmap Z SContainer :=
  let nc := c_nchildren (C !!! id) in
  <[id := {| c_quota := c_quota (C !!! id); c_usage := c_usage (C !!! id) + q;
             c_parent := c_parent (C !!! id); c_nchildren := nc + 1; c_used := c_used (C !!! id) |}]>
  (<[id * 3 + 1 + nc := {| c_quota := q; c_usage := 0; c_parent := id; c_nchildren := 0;
                           c_used := 1 |}]> C).

Section split.
Context (C : gmap Z SContainer) (own : Z -> Z) (id q : Z).
Hypothesis H : cont_inv C own.
Hypothesis Hid : 0 <= id < NUM_IDS.
Hypothesis Hu : c_used (C !!! id) <> 0.
Hypothesis Hn : c_nchildren (C !!! id) < 3.
Let nc := c_nchildren (C !!! id).
Let child := id * 3 + 1 + nc.
Hypothesis Hc : child < NUM_IDS.

Lemma split_at_lookup k :
  split_at C id q !!! k =
    if decide (k = id) then {| c_quota := c_quota (C !!! id); c_usage := c_usage (C !!! id) + q;
             c_parent := c_parent (C !!! id); c_nchildren := nc + 1; c_used := c_used (C !!! id) |}
    else if decide (k = child) then {| c_quota := q; c_usage := 0; c_parent := id;
             c_nchildren := 0; c_used := 1 |} else C !!! k.
Proof.
  clear H Hid Hu Hn Hc. unfold split_at. fold nc child. rewrite !lookup_total_upd. dec_eq; done.
Qed.

Lemma split_child : 1 <= child /\ child <> id /\ C !!! child = inhabitant /\ own child = 0.
Proof.
  destruct (cont_inv_fresh C own id H Hid Hn Hc) as (Hc1 & Hci & Hz).
  split_and!; try done. pose proof (ci_range _ _ H child ltac:(unfold child, nc in *; lia)) as (Ho & _).
  unfold child, nc in *. rewrite Hz in Ho. cbn in Ho. lia.
Qed.

(** Both totals grow by the child's quota. *)
Lemma split_usage :
  zsum ids (fun i => c_usage (split_at C id q !!! i)) = zsum ids (fun i => c_usage (C !!! i)) + q.
Proof.
  destruct split_child as (Hc1 & Hci & Hz & _).
  assert (id ∈ ids) as Hin1 by by apply elem_of_ids.
  assert (child ∈ ids) as Hin2 by (apply elem_of_ids; lia).
  set (u1 := fun i => if decide (i = child) then 0 else c_usage (C !!! i)).
  rewrite (zsum_change ids u1 _ id (NoDup_seqZ _ _) Hin1).
  2:{ intros i _ Hne. rewrite split_at_lookup, decide_False by done. unfold u1. by case_decide. }
  rewrite (zsum_change ids (fun i => c_usage (C !!! i)) u1 child (NoDup_seqZ _ _) Hin2).
  2:{ intros i _ Hne. unfold u1. by rewrite decide_False. }
  rewrite split_at_lookup, (decide_True (P := id = id)) by done. unfold u1. rewrite Hz.
  rewrite (decide_True (P := child = child)), (decide_False (P := id = child)) by congruence.
  cbn. lia.
Qed.

Lemma split_quota :
  zsum ids (fun i => c_quota (split_at C id q !!! i)) = zsum ids (fun i => c_quota (C !!! i)) + q.
Proof.
  destruct split_child as (Hc1 & Hci & Hz & _).
  assert (child ∈ ids) as Hin2 by (apply elem_of_ids; lia).
  rewrite (zsum_change ids (fun i => c_quota (C !!! i)) _ child (NoDup_seqZ _ _) Hin2).
  2:{ intros i _ Hne. rewrite split_at_lookup. case_decide as Ei; [by subst|]. by rewrite decide_False. }
  rewrite split_at_lookup, decide_False, decide_True, Hz by congruence. cbn. lia.
Qed.

Lemma split_mono k :
  c_used (C !!! k) <> 0 -> c_used (split_at C id q !!! k) <> 0
  /\ c_nchildren (C !!! k) <= c_nchildren (split_at C id q !!! k).
Proof.
  destruct split_child as (_ & _ & Hz & _). intros Hk. rewrite split_at_lookup.
  destruct (decide (k = id)) as [->|]; [cbn; unfold nc; split; [done|lia]|].
  destruct (decide (k = child)) as [->|]; [rewrite Hz in Hk; done|split; [done|lia]].
Qed.

Lemma child_parent : (child - 1) / 3 = id /\ (child - 1) mod 3 = nc.
Proof.
  pose proof (ci_range _ _ H id Hid) as (_ & _ & Hr).
  split; symmetry; [apply (Z.div_unique _ _ _ nc)|apply (Z.mod_unique _ _ id)];
    unfold child, nc in *; lia.
Qed.

Lemma cont_inv_split :
  0 <= q -> c_usage (C !!! id) + q <= c_quota (C !!! id) -> cont_inv (split_at C id q) own.
Proof.
  intros Hq Hle. destruct split_child as (Hc1 & Hci & Hz & Hoc).
  pose proof (ci_range _ _ H id Hid) as (Hr1 & Hr2 & Hr3). split.
  - apply split_mono, H.
  - intros k Hk. rewrite split_at_lookup. repeat case_decide; try done. by apply H.
  - intros c Hcr Huc. rewrite split_at_lookup in Huc.
    destruct (decide (c = child)) as [->|Hne2].
    + destruct child_parent as [-> ->]. rewrite split_at_lookup, decide_True by done.
      cbn. split; [done|lia].
    + assert (c_used (C !!! c) <> 0) as Hu'.
      { revert Huc. case_decide; [by subst|]. by rewrite ?decide_False by done. }
      destruct (ci_tree _ _ H c Hcr Hu') as [Hp Hp']. destruct (split_mono _ Hp). split; [done|lia].
  - intros k Hk. pose proof (ci_range _ _ H k Hk) as Hrk. rewrite split_at_lookup.
    destruct (decide (k = id)) as [->|]; [cbn; unfold nc; lia|].
    destruct (decide (k = child)) as [->|]; [cbn; rewrite Hoc; lia|done].
  - rewrite split_usage, split_quota.
    assert (c_quota (split_at C id q !!! 0) = c_quota (C !!! 0)) as ->.
    { rewrite split_at_lookup. case_decide as E0; [by subst|]. rewrite decide_False by lia. done. }
    pose proof (ci_sum _ _ H). lia.
Qed.

End split.

(** ** The operations on containers

    [own id] counts the pages handed out to process [id] that it has not given
    back.  The premises are conditions on the caller, which the code does not
    check.  For a split: "it is safe to allocate [quota] pages (i.e., the check
    is already done outside before calling this function)"
    (pmm/MContainer/MContainer.c:92), and there is a place for the child.  For a
    release: the process has a page to give back. *)
Inductive cont_step : pmm * (Z -> Z) -> pmm * (Z -> Z) -> Prop :=
| cs_split s own id q nc child s' :
    0 <= q -> c_usage (CONTAINER s !!! id) + q <= c_quota (CONTAINER s !!! id) ->
    container_get_nchildren id s = Ok (nc, s) -> nc < MAX_CHILDREN ->
    id * MAX_CHILDREN + 1 + nc < NUM_IDS -> c_used (CONTAINER s !!! id) <> 0 ->
    container_split id q s = Ok (child, s') ->
    cont_step (s, own) (s', own)
| cs_alloc s own id p s' :
    0 <= id < NUM_IDS -> c_used (CONTAINER s !!! id) <> 0 ->
    container_alloc id s = Ok (p, s') ->
    cont_step (s, own)
      (s', if decide (c_usage (CONTAINER s !!! id) = c_quota (CONTAINER s !!! id))
           then own else upd own id (own id + 1))
| cs_free s own id page s' :
    0 <= id < NUM_IDS -> c_used (CONTAINER s !!! id) <> 0 -> 0 < own id ->
    container_free id page s = Ok (tt, s') ->
    cont_step (s, own)
      (s', if decide (at_allocated (AT s !!! page) = 0) then own else upd own id (own id - 1)).

Lemma check_index_inv {S A} n i (k : M S A) s r :
  (check_index n i ;; k) s = Ok r -> 0 <= i < n /\ k s = Ok r.
Proof.
  unfold check_index, mbind, M_bind. case_decide; [|done]. intros E. done.
Qed.

Lemma c_read_inv {A} id (f : SContainer -> A) s a s' :
  c_read id f s = Ok (a, s') -> 0 <= id < NUM_IDS /\ a = f (CONTAINER s !!! id) /\ s' = s.
Proof. intros [Hi E]%check_index_inv. unfold gets in E. by simplify_eq. Qed.

Lemma split_inv s own id q child s' :
  cont_inv (CONTAINER s) own -> 0 <= id < NUM_IDS -> 0 <= q < 2147483648 ->
  c_usage (CONTAINER s !!! id) + q <= c_quota (CONTAINER s !!! id) ->
  c_nchildren (CONTAINER s !!! id) < MAX_CHILDREN ->
  id * MAX_CHILDREN + 1 + c_nchildren (CONTAINER s !!! id) < NUM_IDS ->
  container_split id q s = Ok (child, s') ->
  CONTAINER s' = split_at (CONTAINER s) id q
  /\ child = id * 3 + 1 + c_nchildren (CONTAINER s !!! id).
Proof.
  intros H Hid Hq Hle Hn Hc E. pose proof (ci_range _ _ H id Hid) as (Hr1 & Hr2 & Hr3).
  unfold MAX_CHILDREN, NUM_IDS in *.
  unfold container_split in E. rewrite (bind_ok _ _ _ _ _ (c_read_ok id _ s Hid)) in E.
  cbv zeta in E. unfold MAX_CHILDREN in E. rewrite u32_id in E by (unfold W32; lia).
  erewrite bind_ok in E by (apply c_write_ok; unfold NUM_IDS; lia).
  erewrite bind_ok in E by (apply c_write_ok; unfold NUM_IDS; lia).
  unfold mret, M_ret in E. injection E as <- <-. split; [|done].
  unfold with_CONTAINER, split_at. cbn [CONTAINER].
  rewrite !lookup_total_insert_ne by lia.
  rewrite !s32_id by lia. done.
Qed.

Lemma palloc_frame s p s' :
  pmm_ok s -> palloc s = Ok (p, s') -> pmm_ok s' /\ CONTAINER s' = CONTAINER s.
Proof.
  intros Hok E. destruct (palloc_ok s Hok) as (p' & s1 & E1 & H). rewrite E1 in E.
  injection E as <- <-. destruct H as [(_ & -> & _)|(Hr & _ & -> & _)].
  - split; [by apply pmm_ok_last0|done].
  - split; [apply pmm_ok_alloc; [done|]|done]. destruct Hok. lia.
Qed.

Lemma pfree_ok s i :
  pmm_ok s -> 0 <= i < AT_SIZE ->
  pfree i s = Ok (tt, with_AT (fun m => <[i := {| at_perm := at_perm (m !!! i);
                                                  at_allocated := 0 |}]> m) s).
Proof.
  intros Hok Hi. unfold pfree. rewrite (bind_ok _ _ _ _ _ (mem_lock_ok s Hok)).
  unfold at_set_allocated. erewrite bind_ok by by apply at_write_ok.
  destruct Hok as [Hl _ _ _]. unfold mem_unlock, zoom, set_mem_lk, with_AT. cbn. by rewrite Hl.
Qed.

Lemma pmm_ok_same s s' :
  pmm_ok s -> mem_lk s' = mem_lk s -> pm_kstack s' = pm_kstack s ->
  NUM_PAGES s' = NUM_PAGES s -> last_palloc_index s' = last_palloc_index s -> pmm_ok s'.
Proof. intros [] E1 E2 E3 E4. split; congruence. Qed.

Lemma set_usage_quota (C : gmap Z SContainer) id v k :
  c_quota (<[id := set_usage v (C !!! id)]> C !!! k) = c_quota (C !!! k).
Proof. rewrite lookup_total_upd. by case_decide; subst. Qed.

Lemma alloc_inv s own id p s' :
  pmm_ok s -> cont_inv (CONTAINER s) own -> 0 <= id < NUM_IDS ->
  c_used (CONTAINER s !!! id) <> 0 -> container_alloc id s = Ok (p, s') ->
  pmm_ok s' /\ cont_inv (CONTAINER s')
    (if decide (c_usage (CONTAINER s !!! id) = c_quota (CONTAINER s !!! id))
     then own else upd own id (own id + 1))
  /\ c_quota (CONTAINER s' !!! 0) = c_quota (CONTAINER s !!! 0).
Proof.
  intros Hok H Hid Hu E. pose proof (ci_range _ _ H id Hid) as (Hr1 & Hr2 & _).
  unfold container_alloc in E. rewrite (bind_ok _ _ _ _ _ (c_read_ok id _ s Hid)) in E.
  rewrite (bind_ok _ _ _ _ _ (c_read_ok id _ s Hid)) in E.
  rewrite !u32_id in E by (unfold W32; lia).
  destruct (decide (c_usage (CONTAINER s !!! id) = c_quota (CONTAINER s !!! id))) as [Heq|Hne].
  - injection E as <- <-. done.
  - erewrite bind_ok in E by by apply c_write_ok.
    apply palloc_frame in E as [Hok' Ec]; [|by apply (pmm_ok_same s)].
    split; [done|]. rewrite Ec. cbn [CONTAINER with_CONTAINER]. rewrite s32_id by lia.
    split; [apply cont_inv_usage; first [done|lia]|apply set_usage_quota].
Qed.

Lemma free_inv s own id page s' :
  pmm_ok s -> cont_inv (CONTAINER s) own -> 0 <= id < NUM_IDS ->
  c_used (CONTAINER s !!! id) <> 0 -> 0 < own id -> container_free id page s = Ok (tt, s') ->
  pmm_ok s' /\ cont_inv (CONTAINER s')
    (if decide (at_allocated (AT s !!! page) = 0) then own else upd own id (own id - 1))
  /\ c_quota (CONTAINER s' !!! 0) = c_quota (CONTAINER s !!! 0).
Proof.
  intros Hok H Hid Hu Hown E. pose proof (ci_range _ _ H id Hid) as (Hr1 & Hr2 & _).
  unfold container_free in E. pose proof E as E0. apply bind_inv in E0 as (a & s1 & Ea & _).
  assert (0 <= page < AT_SIZE) as Hp.
  { unfold at_is_allocated in Ea. apply bind_inv in Ea as (x & s2 & Ex & _).
    by apply check_index_inv in Ex as [? _]. }
  rewrite (bind_ok _ _ _ _ _ (at_is_allocated_ok page s Hp)) in E.
  destruct (decide (at_allocated (AT s !!! page) = 0)) as [Hz|Hz].
  - rewrite decide_False in E by lia. by injection E as <-.
  - rewrite decide_True in E by lia. rewrite (bind_ok _ _ _ _ _ (pfree_ok s page Hok Hp)) in E.
    erewrite bind_ok in E by by apply c_read_ok. cbn [CONTAINER with_AT] in E.
    rewrite decide_True in E by lia. rewrite c_write_ok in E by done. injection E as <-.
    split; [by apply (pmm_ok_same s)|]. cbn [CONTAINER with_AT with_CONTAINER].
    split; [apply (cont_inv_usage (CONTAINER s) own id (-1)); first [done|lia]
           |apply set_usage_quota].
Qed.

Lemma cont_step_inv x y :
  cont_step x y -> pmm_ok x.1 /\ cont_inv (CONTAINER x.1) x.2 ->
  (pmm_ok y.1 /\ cont_inv (CONTAINER y.1) y.2)
  /\ c_quota (CONTAINER y.1 !!! 0) = c_quota (CONTAINER x.1 !!! 0).
Proof.
  intros Hs [Hok H]. destruct Hs as [s own id q nc child s' Hq Hle Hnc Hn Hc Hu E
    |s own id p s' Hid Hu E|s own id page s' Hid Hu Hown E]; cbn [fst snd] in *.
  - apply c_read_inv in Hnc as (Hid & -> & _).
    pose proof (ci_range _ _ H id Hid) as (Hr1 & Hr2 & Hr3).
    rewrite u32_id in Hn, Hc by (unfold W32; lia).
    pose proof (split_inv s own id q child s' H Hid ltac:(lia) Hle Hn Hc E) as [EC _].
    assert (cont_inv (CONTAINER s') own) as Hinv.
    { rewrite EC. apply cont_inv_split; unfold MAX_CHILDREN in *; first [done|lia]. }
    split; [split; [|done]|].
    + clear -E Hok. unfold container_split in E.
      apply bind_inv in E as (? & ? & E1 & E). apply c_read_inv in E1 as (_ & _ & ->).
      apply bind_inv in E as ([] & s1 & E1 & E). apply bind_inv in E as ([] & s2 & E2 & E).
      apply check_index_inv in E1 as [_ E1]. apply check_index_inv in E2 as [_ E2].
      injection E1 as <-. injection E2 as <-. injection E as _ <-. by apply (pmm_ok_same s).
    + rewrite EC, split_at_lookup. destruct (decide (0 = id)) as [<-|]; [done|].
      rewrite decide_False by (unfold MAX_CHILDREN in *; lia). done.
  - destruct (alloc_inv s own id p s' Hok H Hid Hu E) as (? & ? & ?). done.
  - destruct (free_inv s own id page s' Hok H Hid Hu Hown E) as (? & ? & ?). done.
Qed.

(** ** The containers after boot *)
Lemma count_quota_spec l : forall q s,
  (forall i, i ∈ l -> 0 <= i < AT_SIZE) -> 0 <= q -> q + Z.of_nat (length l) < W32 ->
  count_quota l q s = Ok (q + Z.of_nat (length (filter (free_page s) l)), s).
Proof.
  induction l as [|i l IH]; intros q s Hl Hq Hn; cbn [count_quota].
  - cbn. by rewrite Z.add_0_r.
  - assert (0 <= i < AT_SIZE) as Hi by (apply Hl; by left).
    rewrite (bind_ok _ _ _ _ _ (at_is_norm_ok i s Hi)).
    rewrite (bind_ok _ _ _ _ _ (at_is_allocated_ok i s Hi)). rewrite filter_cons.
    rewrite length_cons in Hn.
    destruct (decide (free_page s i)) as [[H1 H2]|Hno].
    + rewrite (decide_True (P := normal _)), (decide_True (P := at_allocated _ = 0)) by done.
      rewrite (decide_True (P := 1 = 1 /\ 0 = 0)), u32_id by (done || lia).
      rewrite IH by (try lia; intros; apply Hl; by right).
      cbn [length]. do 2 f_equal. lia.
    + rewrite (decide_False (P := _ = 1 /\ _ = 0)).
      2:{ intros [H1 H2]. apply Hno. repeat case_decide; done. }
      by rewrite IH by (try lia; intros; apply Hl; by right).
Qed.

Lemma pmem_init_ok b s :
  exists s', pmem_init b s = Ok (tt, s')
    /\ NUM_PAGES s' = count_pages b (seqZ 0 (get_size b)) 0
    /\ (forall i, 0 <= i < NUM_PAGES s' ->
          AT s' !!! i = {| at_perm := page_perm b i; at_allocated := 0 |})
    /\ mem_lk s' = free_lock /\ last_palloc_index s' = last_palloc_index s
    /\ pm_kstack s' = pm_kstack s /\ CONTAINER s' = CONTAINER s /\ 0 <= NUM_PAGES s' <= AT_SIZE.
Proof.
  unfold pmem_init. rewrite (bind_ok _ _ _ _ _ eq_refl). cbv zeta.
  rewrite (bind_ok _ _ _ _ _ eq_refl).
  pose proof (count_pages_bound b (seqZ 0 (get_size b)) 0 ltac:(unfold AT_SIZE; lia)) as Hb.
  set (nps := count_pages b _ 0) in *.
  match goal with |- context [for_each (seqZ 0 nps) _ ?x] => set (s1 := x) end.
  destruct (at_set_perm_loop b (seqZ 0 nps) s1 (NoDup_seqZ _ _)) as (s2 & E & Hat & H1 & H2 & H3 & H4 & H5).
  { intros i ?%elem_of_seqZ. lia. }
  exists s2. rewrite H1. change (NUM_PAGES s1) with nps.
  split_and!; try done; try lia.
  intros i Hi. apply Hat, elem_of_seqZ. lia.
Qed.

(** * Properties *)
Module PmmProps.

(** The state before boot: zeroed tables, [last_palloc_index] as in the source. *)
Definition zero_pmm : pmm :=
  {| mem_lk := inhabitant; NUM_PAGES := 0; AT := ∅; last_palloc_index := 262144;
     CONTAINER := ∅; pm_kstack := {| ks_cpu_idx := 0; ks_magic := KSTACK_MAGIC |} |}.

(** Which pages may be handed out.  For every memory map,
    [pmem_init] succeeds and marks page [i] as kernel only (1) outside the user
    range, as available (2) if the first range of the map that contains the
    whole page is usable, and as reserved (0) otherwise; no page is allocated. *)
Theorem pmem_init_permissions b s :
  exists s', pmem_init b s = Ok (tt, s')
    /\ NUM_PAGES s' <= AT_SIZE
    /\ forall i, 0 <= i < NUM_PAGES s' ->
       at_allocated (AT s' !!! i) = 0 /\
       at_perm (AT s' !!! i) =
         if decide (VM_USERLO_PI <= i < VM_USERHI_PI) then
           match list_find (fun j => get_mms b j <= i * PAGESIZE
                     /\ u32 (get_mml b j + get_mms b j) >= (i + 1) * PAGESIZE)
                   (seqZ 0 (get_size b)) with
           | Some (_, j) => if decide (is_usable b j = 1) then 2 else 0
           | None => 0
           end
         else 1.
Proof.
  destruct (pmem_init_ok b s) as (s' & E & _ & Hat & _ & _ & _ & _ & Hn).
  exists s'. split_and!; [done|lia|]. intros i Hi. rewrite (Hat i Hi). cbn [at_allocated at_perm].
  split; [done|]. rewrite page_perm_spec. case_decide as Hr; [|done].
  unfold VM_USERHI_PI, VM_USERHI, PAGESIZE in Hr. change (4026531840 / 4096) with 983040 in Hr.
  assert (u32 (i * PAGESIZE) = i * PAGESIZE) as E1 by (apply u32_id; unfold PAGESIZE, W32; lia).
  assert (u32 ((i + 1) * PAGESIZE) = (i + 1) * PAGESIZE) as E2
    by (apply u32_id; unfold PAGESIZE, W32; lia).
  erewrite (list_find_ext (holds_page b i)); [reflexivity|].
  intros j. unfold holds_page. by rewrite E1, E2.
Qed.

(** The page allocator.  [palloc] takes the first free normal
    page above the page it gave out last, marks it allocated and nothing else;
    it returns 0, and changes nothing but its position, exactly when no page
    above that position is free. *)
Theorem palloc_takes_next_free_page s :
  pmm_ok s ->
  exists p s', palloc s = Ok (p, s') /\ pmm_ok s' /\
    match list_find (free_page s)
            (seqZ (last_palloc_index s + 1) (NUM_PAGES s - last_palloc_index s - 1)) with
    | Some (_, q) => p = q /\ last_palloc_index s' = q
        /\ (forall i, AT s' !!! i = if decide (i = q)
              then {| at_perm := at_perm (AT s !!! q); at_allocated := 1 |} else AT s !!! i)
    | None => p = 0 /\ last_palloc_index s' = 0 /\ AT s' = AT s
    end.
Proof.
  intros Hok. pose proof Hok as [_ _ Hn Hla].
  destruct (palloc_ok s Hok) as (p & s' & E & Hp). exists p, s'. split; [done|].
  split; [by apply (palloc_frame s p s' Hok E)|].
  destruct (list_find _ _) as [[k q]|] eqn:Ef.
  - apply list_find_Some in Ef as (Hq & Hfree & Hmin). apply lookup_seqZ in Hq as [Hq1 Hq2].
    destruct Hp as [(_ & _ & Hnone)|(Hr & Hfr & -> & Hmin')].
    { exfalso. apply (Hnone q); [lia|done]. }
    assert (p = q) as ->.
    { destruct (Z.lt_trichotomy p q) as [Hlt|[->|Hgt]]; [exfalso|done|exfalso].
      - apply (Hmin (Z.to_nat (p - last_palloc_index s - 1)) p); [apply lookup_seqZ; lia|lia|done].
      - apply (Hmin' q); [lia|done]. }
    split; [done|]. split; [done|]. intros i. cbn. rewrite lookup_total_upd.
    destruct (decide (q = i)) as [->|]; [by rewrite decide_True|by rewrite decide_False].
  - apply list_find_None in Ef. rewrite Forall_forall in Ef.
    destruct Hp as [(-> & -> & _)|(Hr & Hfr & _ & _)]; [done|].
    exfalso. apply (Ef p); [apply elem_of_seqZ; lia|done].
Qed.

Definition demo_pmm : pmm :=
  {| mem_lk := free_lock; NUM_PAGES := 8;
     AT := list_to_map [(3, {| at_perm := 2; at_allocated := 0 |});
                        (5, {| at_perm := 2; at_allocated := 0 |})];
     last_palloc_index := 3; CONTAINER := ∅;
     pm_kstack := {| ks_cpu_idx := 0; ks_magic := KSTACK_MAGIC |} |}.

Lemma demo_pmm_ok : pmm_ok demo_pmm.
Proof. split; vm_compute; intuition congruence. Qed.

Lemma palloc_takes_next_free_page_witness :
  pmm_ok demo_pmm /\ exists s', palloc demo_pmm = Ok (5, s').
Proof.
  split; [exact demo_pmm_ok|].
  destruct (palloc_takes_next_free_page demo_pmm demo_pmm_ok) as (p & s' & E & _ & H).
  vm_compute in H. destruct H as [-> _]. by exists s'.
Defined.

(** Palloc may fail while a page is free, but not twice.  If any
    page with a non-zero index is free, then either the call succeeds or the
    next one does: after a failure the scan starts over from page 1.  (The
    comment on [palloc] promises 0 only when no page is available.) *)
Theorem palloc_succeeds_within_two_calls s q :
  pmm_ok s -> 1 <= q < NUM_PAGES s -> free_page s q ->
  exists p1 s1 p2 s2, palloc s = Ok (p1, s1) /\ palloc s1 = Ok (p2, s2)
    /\ (p1 <> 0 \/ (p2 <> 0 /\ free_page s p2)).
Proof.
  intros Hok Hq Hfree. destruct (palloc_ok s Hok) as (p1 & s1 & E1 & H1).
  destruct (palloc_frame s p1 s1 Hok E1) as [Hok1 _].
  destruct (palloc_ok s1 Hok1) as (p2 & s2 & E2 & H2).
  exists p1, s1, p2, s2. split_and!; [done..|].
  destruct H1 as [(-> & -> & _)|(Hr & _)].
  - right. destruct H2 as [(_ & _ & Hno)|(Hr2 & Hf2 & _)].
    + exfalso. apply (Hno q); [cbn; lia|done].
    + cbn in Hr2. split; [lia|done].
  - left. destruct Hok. lia.
Qed.

Lemma palloc_succeeds_within_two_calls_witness :
  exists p1 s1 p2 s2, palloc (set_last 6 demo_pmm) = Ok (p1, s1) /\ palloc s1 = Ok (p2, s2)
    /\ (p1 <> 0 \/ (p2 <> 0 /\ free_page (set_last 6 demo_pmm) p2)).
Proof.
  apply (palloc_succeeds_within_two_calls _ 5).
  - split; vm_compute; intuition congruence.
  - vm_compute. intuition congruence.
  - vm_compute. intuition congruence.
Defined.

(** C36 (invariant): quotas bound memory.  From any well-formed container tree,
    after any sequence of splits of a quota the parent has left (the condition
    that the comment of [container_split] puts on its caller), page allocations,
    and releases by processes that hold a page, every container's usage is
    within its quota and the pages charged to all processes together do not
    exceed the quota of the root container, which never changes. *)
Theorem quotas_bound_charged_pages x y :
  pmm_ok x.1 -> cont_inv (CONTAINER x.1) x.2 -> rtc cont_step x y ->
  zsum ids y.2 <= c_quota (CONTAINER x.1 !!! 0)
  /\ forall id, 0 <= id < NUM_IDS ->
       c_usage (CONTAINER y.1 !!! id) <= c_quota (CONTAINER y.1 !!! id).
Proof.
  intros Hok Hinv Hr.
  assert ((pmm_ok y.1 /\ cont_inv (CONTAINER y.1) y.2)
    /\ c_quota (CONTAINER y.1 !!! 0) = c_quota (CONTAINER x.1 !!! 0)) as [[_ Hy] Eq].
  { revert Hok Hinv. induction Hr as [x|x y z Hxy _ IH]; intros Hok Hinv; [done|].
    destruct (cont_step_inv x y Hxy (conj Hok Hinv)) as [[Hok' Hinv'] Eq].
    destruct (IH Hok' Hinv') as [Hz Eq']. split; [done|congruence]. }
  split.
  - rewrite <-Eq. by apply cont_inv_bound.
  - intros id Hid. apply (ci_range _ _ Hy id Hid).
Qed.

(** The containers as [container_init] leaves them, with 10 pages. *)
Definition demo_cont : pmm :=
  with_CONTAINER (fun _ => {[ 0 := {| c_quota := 10; c_usage := 0; c_parent := 0;
                                      c_nchildren := 0; c_used := 1 |} ]}) demo_pmm.

Lemma demo_cont_inv : cont_inv (CONTAINER demo_cont) (fun _ => 0).
Proof.
  assert (forall k, CONTAINER demo_cont !!! k =
    if decide (0 = k) then {| c_quota := 10; c_usage := 0; c_parent := 0;
                              c_nchildren := 0; c_used := 1 |} else inhabitant) as Hl.
  { intros k. unfold demo_cont. cbn. rewrite <-insert_empty, lookup_total_upd. by case_decide. }
  split.
  - done.
  - intros id _. rewrite Hl. by case_decide.
  - intros c Hc. rewrite Hl, decide_False by lia. done.
  - intros id Hid. rewrite Hl. case_decide; cbn; lia.
  - vm_compute. reflexivity.
Qed.

(** The root dedicates 4 pages to a child, and takes a page itself. *)
Definition cont_of {A} (r : result (A * pmm)) : pmm := match r with Ok (_, s) => s | _ => demo_cont end.
Definition demo_cont1 : pmm := cont_of (container_split 0 4 demo_cont).
Definition demo_cont2 : pmm := cont_of (container_alloc 0 demo_cont1).

Lemma demo_cont_steps : rtc cont_step (demo_cont, fun _ => 0) (demo_cont2, upd (fun _ => 0) 0 1).
Proof.
  apply (rtc_l _ _ (demo_cont1, fun _ => 0)).
  - apply (cs_split demo_cont (fun _ => 0) 0 4 0 1 demo_cont1); try lia; vm_compute; congruence.
  - apply rtc_once, (cs_alloc demo_cont1 (fun _ => 0) 0 5 demo_cont2);
      [unfold NUM_IDS; lia|vm_compute; congruence|vm_compute; reflexivity].
Qed.

Lemma quotas_bound_charged_pages_witness :
  zsum ids (upd (fun _ => 0) 0 1) <= 10 /\ c_usage (CONTAINER demo_cont2 !!! 0) = 5.
Proof.
  destruct (quotas_bound_charged_pages (demo_cont, fun _ => 0) (demo_cont2, upd (fun _ => 0) 0 1)
              ltac:(by apply (pmm_ok_same demo_pmm); [apply demo_pmm_ok|..])
              demo_cont_inv demo_cont_steps) as [H _].
  split; [exact H|vm_compute; reflexivity].
Defined.

(** A release by a process without pages takes the page of another one and
    lowers its own usage: here the root, whose whole quota is the child's, may
    take a page afterwards, in addition to the child's ten. *)
Lemma foreign_release_uncharges :
  let s1 := cont_of (container_split 0 10 demo_cont) in
  let s2 := cont_of (container_alloc 1 s1) in
  let s3 := cont_of (container_free 0 5 s2) in
  container_can_consume 0 1 s1 = Ok (0, s1)
  /\ c_usage (CONTAINER s3 !!! 1) = 1 /\ c_quota (CONTAINER s3 !!! 1) = 10
  /\ container_can_consume 0 1 s3 = Ok (1, s3).
Proof. vm_compute. repeat split; congruence. Qed.

(** The quota check is unsigned and wraps.  For an argument that
    does not overflow, [container_can_consume] answers 1 exactly when the
    request fits; but with any usage above 0 a request close enough to 2^32
    wraps to a small sum and is granted, whatever the quota. *)
Theorem container_can_consume_wraps s id n :
  0 <= id < NUM_IDS -> is_u32 n ->
  0 <= c_usage (CONTAINER s !!! id) <= c_quota (CONTAINER s !!! id) ->
  c_quota (CONTAINER s !!! id) < 2147483648 ->
  container_can_consume id n s =
    Ok (if decide (c_usage (CONTAINER s !!! id) + n < W32)
        then (if decide (c_usage (CONTAINER s !!! id) + n <= c_quota (CONTAINER s !!! id))
              then 1 else 0)
        else 1, s).
Proof.
  intros Hid Hn Hu Hq. unfold container_can_consume. rewrite c_read_ok by done.
  do 2 f_equal. unfold is_u32 in Hn. rewrite (u32_id (c_quota _)) by (unfold W32; lia).
  set (u := c_usage (CONTAINER s !!! id)) in *. set (q := c_quota (CONTAINER s !!! id)) in *.
  destruct (decide (u + n < W32)) as [Hw|Hw].
  - rewrite u32_id by lia. repeat case_decide; first [done|lia].
  - assert (u32 (u + n) = u + n - W32) as ->.
    { unfold u32. symmetry. apply (Zmod_unique _ _ 1); unfold W32 in *; lia. }
    rewrite decide_False by (unfold W32 in *; lia). done.
Qed.

Lemma container_can_consume_wraps_witness :
  container_can_consume 0 4294967295
    (with_CONTAINER (fun m => <[0 := set_usage 1 (m !!! 0)]> m) demo_cont)
  = Ok (1, with_CONTAINER (fun m => <[0 := set_usage 1 (m !!! 0)]> m) demo_cont).
Proof.
  rewrite container_can_consume_wraps; [reflexivity|..]; vm_compute; intuition congruence.
Defined.

End PmmProps.
