(* ===== verification/KString.v ===== *)
(** * Memory and string routines: lib/string.c, proc/proc.c, mm/pmm.c

    Memory is a map from addresses to bytes.  The x86 string instructions move
    a unit of 1 or 4 bytes at a time: a unit is read as a whole before it is
    written. *)

From S2P Require Import Prelude.

Notation mem := (gmap Z Z).

(** ** Bulk memory *)

(** One [movsb] ([w = 1]) or [movsl] ([w = 4]). *)
Definition movs (w d s : Z) (m : mem) : mem :=
  foldl (fun m' i => <[d + i := m !!! (s + i)]> m') m (seqZ 0 w).

(** [cld; rep movs] and [std; rep movs] *)
Fixpoint rep_movs_fwd (w : Z) (cnt : nat) (d s : Z) (m : mem) : mem :=
  match cnt with
  | O => m
  | S c => rep_movs_fwd w c (d + w) (s + w) (movs w d s m)
  end.
Fixpoint rep_movs_bwd (w : Z) (cnt : nat) (d s : Z) (m : mem) : mem :=
  match cnt with
  | O => m
  | S c => rep_movs_bwd w c (d - w) (s - w) (movs w d s m)
  end.

(** One [stosb] or [stosl]: the low [w] bytes of the accumulator. *)
Definition stos (w d c : Z) (m : mem) : mem :=
  foldl (fun m' i => <[d + i := u8 (Z.shiftr c (8 * i))]> m') m (seqZ 0 w).
Fixpoint rep_stos (w : Z) (cnt : nat) (d c : Z) (m : mem) : mem :=
  match cnt with
  | O => m
  | S k => rep_stos w k (d + w) c (stos w d c m)
  end.

Definition memset (v c n : Z) (m : mem) : mem :=
  if decide (n = 0) then m
  else if decide (v mod 4 = 0 /\ n mod 4 = 0) then
    let c := Z.land c 0xff in
    let c := Z.lor (Z.lor (Z.lor (Z.shiftl c 24) (Z.shiftl c 16)) (Z.shiftl c 8)) c in
    rep_stos 4 (Z.to_nat (n / 4)) v c m
  else rep_stos 1 (Z.to_nat n) v c m.

Definition memmove (dst src n : Z) (m : mem) : mem :=
  let s := src in
  let d := dst in
  if decide (s < d /\ s + n > d) then
    let s := s + n in
    let d := d + n in
    if decide (s mod 4 = 0 /\ d mod 4 = 0 /\ n mod 4 = 0)
    then rep_movs_bwd 4 (Z.to_nat (n / 4)) (d - 4) (s - 4) m
    else rep_movs_bwd 1 (Z.to_nat n) (d - 1) (s - 1) m
  else
    if decide (s mod 4 = 0 /\ d mod 4 = 0 /\ n mod 4 = 0)
    then rep_movs_fwd 4 (Z.to_nat (n / 4)) d s m
    else rep_movs_fwd 1 (Z.to_nat n) d s m.

Definition memcpy (dst src n : Z) (m : mem) : mem := memmove dst src n m.
Definition memzero (v n : Z) (m : mem) : mem := memset v 0 n m.

(** mm/pmm.c: the portable version, a byte at a time. *)
Fixpoint copy_down (n : nat) (d s : Z) (m : mem) : mem :=
  match n with
  | O => m
  | S n => copy_down n (d - 1) (s - 1) (<[d - 1 := m !!! (s - 1)]> m)
  end.
Fixpoint copy_up (n : nat) (d s : Z) (m : mem) : mem :=
  match n with
  | O => m
  | S n => copy_up n (d + 1) (s + 1) (<[d := m !!! s]> m)
  end.

Definition pmm_memmove (dst src n : Z) (m : mem) : mem :=
  if decide (src < dst /\ src + n > dst)
  then copy_down (Z.to_nat n) (dst + n) (src + n) m
  else copy_up (Z.to_nat n) dst src m.

(** ** Strings *)

(** Loops over strings that are not bounded by an argument take fuel; a string
    without a terminator runs out of it. *)
Fixpoint strncmp (p q : Z) (n : nat) (m : mem) : Z :=
  match n with
  | O => 0
  | S n' =>
      if decide (m !!! p <> 0 /\ m !!! p = m !!! q) then strncmp (p + 1) (q + 1) n' m
      else u8 (m !!! p) - u8 (m !!! q)
  end.

Fixpoint strnlen (s : Z) (size : nat) (m : mem) : Z :=
  match size with
  | O => 0
  | S size => if decide (m !!! s <> 0) then 1 + strnlen (s + 1) size m else 0
  end.

Fixpoint strcmp (fuel : nat) (p q : Z) (m : mem) : result Z :=
  match fuel with
  | O => Hang
  | S fuel =>
      if decide (m !!! p <> 0 /\ m !!! p = m !!! q) then strcmp fuel (p + 1) (q + 1) m
      else Ok (u8 (m !!! p) - u8 (m !!! q))
  end.

(** [None] is the null pointer. *)
Fixpoint strchr (fuel : nat) (s c : Z) (m : mem) : result (option Z) :=
  match fuel with
  | O => Hang
  | S fuel =>
      if decide (m !!! s = 0) then Ok None
      else if decide (m !!! s = c) then Ok (Some s)
      else strchr fuel (s + 1) c m
  end.

Fixpoint memcmp (v1 v2 : Z) (n : nat) (m : mem) : Z :=
  match n with
  | O => 0
  | S n => if decide (m !!! v1 <> m !!! v2) then m !!! v1 - m !!! v2
           else memcmp (v1 + 1) (v2 + 1) n m
  end.

(** The two loops of [strncpy]; the first stops after the terminator. *)
Fixpoint strncpy_pad (s : Z) (n : nat) (m : mem) : mem :=
  match n with
  | O => m
  | S n => strncpy_pad (s + 1) n (<[s := 0]> m)
  end.
Fixpoint strncpy (s t : Z) (n : nat) (m : mem) : mem :=
  match n with
  | O => m
  | S n' =>
      let m' := <[s := m !!! t]> m in
      if decide (m !!! t <> 0) then strncpy (s + 1) (t + 1) n' m' else strncpy_pad (s + 1) n' m'
  end.

Fixpoint strlen (fuel : nat) (s : Z) (m : mem) : result Z :=
  match fuel with
  | O => Hang
  | S fuel =>
      if decide (m !!! s <> 0)
      then match strlen fuel (s + 1) m with Ok cnt => Ok (cnt + 1) | r => r end
      else Ok 0
  end.

(** proc/proc.c: a second copy of [strncmp]. *)
Fixpoint proc_strncmp (p q : Z) (n : nat) (m : mem) : Z :=
  match n with
  | O => 0
  | S n' =>
      if decide (m !!! p <> 0 /\ m !!! p = m !!! q) then proc_strncmp (p + 1) (q + 1) n' m
      else u8 (m !!! p) - u8 (m !!! q)
  end.

(** * Theory *)

(** [m'] is [m] with the [n] bytes at [d] replaced by [f]. *)
Definition patched (m m' : mem) (d n : Z) (f : Z -> Z) : Prop :=
  forall a, m' !!! a = if decide (d <= a < d + n) then f (a - d) else m !!! a.

Lemma foldl_insert_patched (l : list Z) (d : Z) (f : Z -> Z) : forall (m : mem) a,
  foldl (fun m' i => <[d + i := f i]> m') m l !!! a =
    if decide (a - d ∈ l) then f (a - d) else m !!! a.
Proof.
  induction l as [|i l IH]; intros m a; cbn [foldl].
  - rewrite decide_False; [done|]. apply not_elem_of_nil.
  - rewrite IH. destruct (decide (a - d ∈ l)) as [Hin|Hin].
    + rewrite decide_True; [done|by right].
    + rewrite lookup_total_upd. destruct (decide (d + i = a)) as [<-|Hne].
      * replace (d + i - d) with i by lia. rewrite decide_True; [done|by left].
      * rewrite decide_False; [done|]. rewrite elem_of_cons. intros [?|?]; [lia|done].
Qed.

Lemma movs_patched w d s m : 0 <= w -> patched m (movs w d s m) d w (fun i => m !!! (s + i)).
Proof.
  intros Hw a. unfold movs. rewrite (foldl_insert_patched _ d (fun i => m !!! (s + i))).
  apply decide_ext. rewrite elem_of_seqZ. lia.
Qed.

Lemma stos_patched w d c m :
  0 <= w -> patched m (stos w d c m) d w (fun i => u8 (Z.shiftr c (8 * i))).
Proof.
  intros Hw a. unfold stos. rewrite (foldl_insert_patched _ d (fun i => u8 (Z.shiftr c (8 * i)))).
  apply decide_ext. rewrite elem_of_seqZ. lia.
Qed.

(** Copying upwards is right when the destination does not start inside the
    source. *)
Lemma rep_movs_fwd_patched w cnt : forall d s m,
  0 < w -> (d <= s \/ s + w * Z.of_nat cnt <= d) ->
  patched m (rep_movs_fwd w cnt d s m) d (w * Z.of_nat cnt) (fun i => m !!! (s + i)).
Proof.
  induction cnt as [|cnt IH]; intros d s m Hw Hd a; cbn [rep_movs_fwd].
  - rewrite decide_False; [done|lia].
  - rewrite (IH (d + w) (s + w) (movs w d s m)) by lia.
    rewrite !(movs_patched w d s m) by lia. rewrite Nat2Z.inj_succ.
    destruct (decide (d + w <= a < d + w + w * Z.of_nat cnt)) as [H1|H1].
    + rewrite (decide_True (P := d <= a < _)) by lia.
      rewrite decide_False by lia. f_equal. lia.
    + destruct (decide (d <= a < d + w)) as [H2|H2].
      * by rewrite decide_True by lia.
      * by rewrite decide_False by lia.
Qed.

(** Copying downwards is right when the destination lies above the source. *)
Lemma rep_movs_bwd_patched w cnt : forall d s m,
  0 < w -> s <= d ->
  patched m (rep_movs_bwd w cnt (d + w * (Z.of_nat cnt - 1)) (s + w * (Z.of_nat cnt - 1)) m)
    d (w * Z.of_nat cnt) (fun i => m !!! (s + i)).
Proof.
  induction cnt as [|cnt IH]; intros d s m Hw Hd a; cbn [rep_movs_bwd].
  - rewrite decide_False; [done|lia].
  - set (D := d + w * (Z.of_nat (S cnt) - 1)). set (S0 := s + w * (Z.of_nat (S cnt) - 1)).
    replace (D - w) with (d + w * (Z.of_nat cnt - 1)) by (unfold D; lia).
    replace (S0 - w) with (s + w * (Z.of_nat cnt - 1)) by (unfold S0; lia).
    rewrite (IH d s (movs w D S0 m)) by lia. rewrite !(movs_patched w D S0 m) by lia.
    assert (D = d + w * Z.of_nat cnt) as ED by (unfold D; lia).
    assert (S0 = s + w * Z.of_nat cnt) as ES by (unfold S0; lia).
    clearbody D S0. subst. rewrite Nat2Z.inj_succ.
    destruct (decide (d <= a < d + w * Z.of_nat cnt)) as [H1|H1].
    + rewrite decide_False by lia. by rewrite decide_True by lia.
    + destruct (decide (d + w * Z.of_nat cnt <= a < d + w * Z.of_nat cnt + w)) as [H2|H2].
      * rewrite decide_True by lia. f_equal. lia.
      * by rewrite decide_False by lia.
Qed.

Lemma rep_stos_patched w c cnt : forall d m,
  0 < w ->
  patched m (rep_stos w cnt d c m) d (w * Z.of_nat cnt)
    (fun i => u8 (Z.shiftr c (8 * (i mod w)))).
Proof.
  induction cnt as [|cnt IH]; intros d m Hw a; cbn [rep_stos].
  - rewrite decide_False; [done|lia].
  - rewrite (IH (d + w)) by lia. rewrite (stos_patched w d c m) by lia. rewrite Nat2Z.inj_succ.
    destruct (decide (d + w <= a < d + w + w * Z.of_nat cnt)) as [H1|H1].
    + rewrite (decide_True (P := d <= a < _)) by lia. do 3 f_equal.
      replace (a - d) with (a - (d + w) + 1 * w) by lia. by rewrite Z_mod_plus_full.
    + destruct (decide (d <= a < d + w)) as [H2|H2].
      * rewrite decide_True by lia. do 3 f_equal. rewrite Z.mod_small; lia.
      * by rewrite decide_False by lia.
Qed.

(** *** The portable copy *)
Lemma movs_1 d s m : movs 1 d s m = <[d := m !!! s]> m.
Proof.
  unfold movs. change (seqZ 0 1) with [0]. cbn [foldl fold_left foldr].
  by rewrite !Z.add_0_r.
Qed.

Lemma copy_up_movs n : forall d s m, copy_up n d s m = rep_movs_fwd 1 n d s m.
Proof.
  induction n as [|n IH]; intros d s m; [done|]. cbn [copy_up rep_movs_fwd].
  rewrite IH. by rewrite movs_1.
Qed.

Lemma copy_down_movs n : forall d s m,
  copy_down n d s m = rep_movs_bwd 1 n (d - 1) (s - 1) m.
Proof.
  induction n as [|n IH]; intros d s m; [done|]. cbn [copy_down rep_movs_bwd].
  rewrite IH. by rewrite movs_1.
Qed.

Lemma memmove_patched dst src n m :
  0 <= n -> patched m (memmove dst src n m) dst n (fun i => m !!! (src + i)).
Proof.
  intros Hn. unfold memmove.
  assert (forall w, 0 < w -> n mod w = 0 -> w * Z.of_nat (Z.to_nat (n / w)) = n) as Hdiv.
  { intros w Hw Hm. rewrite Z2Nat.id by (apply Z.div_pos; lia).
    rewrite (Z.div_mod n w) at 2 by lia. lia. }
  destruct (decide (src < dst /\ src + n > dst)) as [Hov|Hov].
  - destruct (decide _) as [(_ & _ & H4)|_].
    + pose proof (rep_movs_bwd_patched 4 (Z.to_nat (n / 4)) dst src m ltac:(lia) ltac:(lia)) as H.
      specialize (Hdiv 4 ltac:(lia) H4). rewrite Hdiv in H.
      replace (dst + n - 4) with (dst + 4 * (Z.of_nat (Z.to_nat (n / 4)) - 1)) by lia.
      replace (src + n - 4) with (src + 4 * (Z.of_nat (Z.to_nat (n / 4)) - 1)) by lia. done.
    + pose proof (rep_movs_bwd_patched 1 (Z.to_nat n) dst src m ltac:(lia) ltac:(lia)) as H.
      rewrite Z2Nat.id in H by done. rewrite !Z.mul_1_l in H.
      replace (dst + n - 1) with (dst + (n - 1)) by lia.
      replace (src + n - 1) with (src + (n - 1)) by lia. done.
  - destruct (decide _) as [(_ & _ & H4)|_].
    + specialize (Hdiv 4 ltac:(lia) H4).
      pose proof (rep_movs_fwd_patched 4 (Z.to_nat (n / 4)) dst src m ltac:(lia)) as H.
      rewrite Hdiv in H. apply H. lia.
    + pose proof (rep_movs_fwd_patched 1 (Z.to_nat n) dst src m ltac:(lia)) as H.
      rewrite Z2Nat.id, Z.mul_1_l in H by done. apply H. lia.
Qed.

Lemma pmm_memmove_patched dst src n m :
  0 <= n -> patched m (pmm_memmove dst src n m) dst n (fun i => m !!! (src + i)).
Proof.
  intros Hn. unfold pmm_memmove. case_decide as Hov.
  - rewrite copy_down_movs.
    pose proof (rep_movs_bwd_patched 1 (Z.to_nat n) dst src m ltac:(lia) ltac:(lia)) as H.
    rewrite Z2Nat.id in H by done. rewrite !Z.mul_1_l in H.
    replace (dst + n - 1) with (dst + (n - 1)) by lia.
    replace (src + n - 1) with (src + (n - 1)) by lia. done.
  - rewrite copy_up_movs.
    pose proof (rep_movs_fwd_patched 1 (Z.to_nat n) dst src m ltac:(lia)) as H.
    rewrite Z2Nat.id, Z.mul_1_l in H by done. apply H. lia.
Qed.

(** *** Filling *)
Definition spread (c : Z) : Z :=
  Z.lor (Z.lor (Z.lor (Z.shiftl c 24) (Z.shiftl c 16)) (Z.shiftl c 8)) c.

Lemma spread_bytes c i : 0 <= c < 256 -> 0 <= i < 4 -> u8 (Z.shiftr (spread c) (8 * i)) = c.
Proof.
  intros Hc Hi.
  assert (Forall (fun c => Forall (fun i => u8 (Z.shiftr (spread c) (8 * i)) = c) (seqZ 0 4))
            (seqZ 0 256)) as Hall.
  { apply (bool_decide_unpack _). vm_compute. reflexivity. }
  rewrite Forall_forall in Hall. specialize (Hall c ltac:(apply elem_of_seqZ; lia)).
  rewrite Forall_forall in Hall. apply Hall. apply elem_of_seqZ. lia.
Qed.

Lemma land_255 c : Z.land c 0xff = u8 c.
Proof. change 0xff with (Z.ones 8). rewrite Z.land_ones by lia. done. Qed.

Lemma memset_patched v c n m : 0 <= n -> patched m (memset v c n m) v n (fun _ => u8 c).
Proof.
  intros Hn a. unfold memset. destruct (decide (n = 0)) as [->|Hn0].
  { rewrite decide_False by lia. done. }
  destruct (decide (v mod 4 = 0 /\ n mod 4 = 0)) as [[_ H4]|_].
  - rewrite land_255. change (Z.lor _ (u8 c)) with (spread (u8 c)).
    rewrite rep_stos_patched by lia.
    rewrite Z2Nat.id by (apply Z.div_pos; lia).
    replace (4 * (n / 4)) with n by (rewrite (Z.div_mod n 4) at 1 by lia; lia).
    destruct (decide (v <= a < v + n)); [|done].
    apply spread_bytes; [apply Z.mod_pos_bound; lia|apply Z.mod_pos_bound; lia].
  - rewrite rep_stos_patched by lia. rewrite Z2Nat.id, Z.mul_1_l by lia.
    destruct (decide (v <= a < v + n)); [|done].
    rewrite Z.mod_1_r, Z.mul_0_r, Z.shiftr_0_r. done.
Qed.

(** *** Copying a string *)
Lemma strncpy_pad_patched n : forall s m,
  patched m (strncpy_pad s n m) s (Z.of_nat n) (fun _ => 0).
Proof.
  induction n as [|n IH]; intros s m a; cbn [strncpy_pad].
  - by rewrite decide_False by lia.
  - rewrite IH, lookup_total_upd. destruct (decide (s + 1 <= a < s + 1 + Z.of_nat n)).
    + by rewrite decide_True by lia.
    + destruct (decide (s = a)); [rewrite decide_True by lia|rewrite decide_False by lia]; done.
Qed.

Lemma strnlen_nonneg n : forall s m, 0 <= strnlen s n m <= Z.of_nat n.
Proof.
  induction n as [|n IH]; intros s m; cbn [strnlen]; [lia|].
  case_decide; [specialize (IH (s + 1) m); lia|lia].
Qed.

Lemma strnlen_ext n : forall t m m',
  (forall a, t <= a < t + Z.of_nat n -> m' !!! a = m !!! a) -> strnlen t n m' = strnlen t n m.
Proof.
  induction n as [|n IH]; intros t m m' He; cbn [strnlen]; [done|].
  rewrite (He t) by lia. case_decide; [|done]. f_equal. apply IH. intros. apply He. lia.
Qed.

Lemma strncpy_patched n : forall s t m,
  s + Z.of_nat n <= t \/ t + Z.of_nat n <= s ->
  patched m (strncpy s t n m) s (Z.of_nat n)
    (fun i => if decide (i < strnlen t n m) then m !!! (t + i) else 0).
Proof.
  induction n as [|n IH]; intros s t m Hd a; cbn [strncpy strnlen].
  - by rewrite decide_False by lia.
  - destruct (decide (m !!! t <> 0)) as [Hz|Hz].
    + assert (forall a, t + 1 <= a < t + 1 + Z.of_nat n -> <[s := m !!! t]> m !!! a = m !!! a) as He.
      { intros b Hb. rewrite lookup_total_upd. by rewrite decide_False by lia. }
      rewrite IH by lia. rewrite (strnlen_ext n (t + 1) m) by exact He.
      rewrite (lookup_total_upd m s a). pose proof (strnlen_nonneg n (t + 1) m) as Hk.
      destruct (decide (s + 1 <= a < s + 1 + Z.of_nat n)) as [H1|H1].
      * rewrite (decide_True (P := s <= a < _)) by lia.
        destruct (decide (a - (s + 1) < strnlen (t + 1) n m)).
        -- rewrite decide_True by lia. rewrite He by lia. f_equal. lia.
        -- by rewrite decide_False by lia.
      * destruct (decide (s = a)) as [<-|Hne].
        -- rewrite (decide_True (P := s <= s < _)) by lia.
           rewrite decide_True by lia. f_equal. lia.
        -- by rewrite decide_False by lia.
    + rewrite strncpy_pad_patched, lookup_total_upd.
      assert (m !!! t = 0) as Hz' by (destruct (decide (m !!! t = 0)); tauto).
      destruct (decide (s + 1 <= a < s + 1 + Z.of_nat n)) as [H1|H1].
      * rewrite (decide_True (P := s <= a < _)) by lia. by rewrite decide_False by lia.
      * destruct (decide (s = a)) as [<-|Hne].
        -- rewrite decide_True by lia. by rewrite decide_False by lia.
        -- by rewrite decide_False by lia.
Qed.

(** *** Comparing strings *)

(** The strings at [p] and [q] agree on their first [n] characters, up to and
    including the terminator. *)
Definition same_prefix (p q : Z) (n : nat) (m : mem) : Prop :=
  forall i, 0 <= i < Z.of_nat n ->
    (forall j, 0 <= j < i -> m !!! (p + j) <> 0) -> m !!! (p + i) = m !!! (q + i).

Lemma same_prefix_S p q n m :
  same_prefix p q (S n) m <->
  m !!! p = m !!! q /\ (m !!! p <> 0 -> same_prefix (p + 1) (q + 1) n m).
Proof.
  unfold same_prefix. split.
  - intros H. split.
    + rewrite <- (Z.add_0_r p), <- (Z.add_0_r q). apply H; lia.
    + intros Hz i Hi Hj. rewrite <- !Z.add_assoc. apply H; [lia|]. intros j Hj'.
      destruct (decide (j = 0)) as [->|]; [by rewrite Z.add_0_r|].
      replace (p + j) with (p + 1 + (j - 1)) by lia. apply Hj. lia.
  - intros [H0 H] i Hi Hj. destruct (decide (i = 0)) as [->|]; [by rewrite !Z.add_0_r|].
    replace (p + i) with (p + 1 + (i - 1)) by lia. replace (q + i) with (q + 1 + (i - 1)) by lia.
    apply H; [|lia|].
    + specialize (Hj 0). rewrite Z.add_0_r in Hj. apply Hj. lia.
    + intros j Hj'. rewrite <- Z.add_assoc. apply Hj. lia.
Qed.

Lemma strncmp_zero n : forall p q m,
  (forall a, 0 <= m !!! a < 256) -> strncmp p q n m = 0 <-> same_prefix p q n m.
Proof.
  induction n as [|n IH]; intros p q m Hb; cbn [strncmp].
  - split; [|done]. intros _ i Hi. lia.
  - rewrite same_prefix_S. unfold u8. rewrite !Z.mod_small by apply Hb.
    destruct (decide (m !!! p <> 0 /\ m !!! p = m !!! q)) as [[Hz He]|Hne].
    + rewrite IH by done. tauto.
    + split; [|lia]. intros E. assert (m !!! p = m !!! q) as He by lia. split; [done|]. tauto.
Qed.

Lemma proc_strncmp_strncmp n : forall p q m, proc_strncmp p q n m = strncmp p q n m.
Proof.
  induction n as [|n IH]; intros p q m; cbn [strncmp proc_strncmp]; [done|]. by rewrite IH.
Qed.

(** * Properties *)
Module KStringProps.

(** [memmove] copies, also between overlapping blocks.  For
    every source, destination and length, whichever of the four instruction
    sequences is chosen, the [n] bytes at [dst] become the bytes that were at
    [src] and all other memory is unchanged; the byte-at-a-time version in
    mm/pmm.c has the same effect. *)
Theorem memmove_overlap_safe dst src n m a :
  0 <= n ->
  memmove dst src n m !!! a =
    (if decide (dst <= a < dst + n) then m !!! (src + (a - dst)) else m !!! a)
  /\ pmm_memmove dst src n m !!! a = memmove dst src n m !!! a.
Proof.
  intros Hn. split; [by apply memmove_patched|].
  rewrite (pmm_memmove_patched dst src n m Hn a), (memmove_patched dst src n m Hn a). done.
Qed.

(** An overlapping copy by one word, 8 bytes. *)
Lemma memmove_overlap_safe_witness :
  let m : mem := list_to_map (zip (seqZ 100 12) (seqZ 1 12)) in
  memmove 104 100 8 m !!! 111 = 8.
Proof.
  intros m. destruct (memmove_overlap_safe 104 100 8 m 111 ltac:(lia)) as [E _].
  rewrite E. vm_compute. reflexivity.
Defined.

(** [memset] fills.  The word-wise and the byte-wise
    instruction sequence both set the [n] bytes at [v] to the low byte of [c]
    and nothing else. *)
Theorem memset_fills v c n m a :
  0 <= n ->
  memset v c n m !!! a = if decide (v <= a < v + n) then c mod 256 else m !!! a.
Proof. intros Hn. by apply memset_patched. Qed.

Lemma memset_fills_witness : memset 16 0x1ab 8 ∅ !!! 23 = 0xab.
Proof.
  pose proof (memset_fills 16 0x1ab 8 ∅ 23 ltac:(lia)) as E. rewrite E. reflexivity.
Defined.

(** [strncpy] writes exactly [n] bytes: the source up to its
    terminator or [n], then zeros; so the copy is not terminated when the
    source has [n] or more characters. *)
Theorem strncpy_writes_n_bytes s t n m a :
  s + Z.of_nat n <= t \/ t + Z.of_nat n <= s ->
  strncpy s t n m !!! a =
    if decide (s <= a < s + Z.of_nat n)
    then (if decide (a - s < strnlen t n m) then m !!! (t + (a - s)) else 0)
    else m !!! a.
Proof. intros Hd. by apply strncpy_patched. Qed.

Lemma strncpy_writes_n_bytes_witness :
  let m : mem := list_to_map (zip (seqZ 100 3) [104; 105; 0]) in
  strncpy 200 100 5 m !!! 201 = 105.
Proof.
  intros m. pose proof (strncpy_writes_n_bytes 200 100 5 m 201 ltac:(right; cbn; lia)) as E.
  rewrite E. vm_compute. reflexivity.
Defined.

(** [strncmp] returns 0 exactly when the two strings agree on
    their first [n] characters, where the comparison ends at a terminator; the
    copy in proc/proc.c computes the same. *)
Theorem strncmp_zero_iff_same p q n m :
  (forall a, 0 <= m !!! a < 256) ->
  (strncmp p q n m = 0 <->
   forall i, 0 <= i < Z.of_nat n ->
     (forall j, 0 <= j < i -> m !!! (p + j) <> 0) -> m !!! (p + i) = m !!! (q + i))
  /\ proc_strncmp p q n m = strncmp p q n m.
Proof. intros Hb. split; [by apply strncmp_zero|apply proc_strncmp_strncmp]. Qed.

(** Equal strings of two characters, followed by different bytes. *)
Lemma strncmp_zero_iff_same_witness :
  let m : mem := list_to_map (zip (seqZ 100 10) [104; 105; 0; 7; 0; 104; 105; 0; 9; 9]) in
  proc_strncmp 100 105 5 m = 0 /\ m !!! 101 = m !!! 106.
Proof.
  intros m.
  assert (forall a, 0 <= m !!! a < 256) as Hb.
  { intros a. destruct (decide (a ∈ seqZ 100 10)) as [Ha|Ha].
    - revert a Ha. apply Forall_forall. apply (bool_decide_unpack _). vm_compute. reflexivity.
    - subst m. rewrite lookup_total_alt, not_elem_of_list_to_map_1; [cbn; lia|].
      rewrite fst_zip; [done|vm_compute; lia]. }
  destruct (strncmp_zero_iff_same 100 105 5 m Hb) as [[H _] E]. split.
  - rewrite E. vm_compute. reflexivity.
  - apply (H ltac:(vm_compute; reflexivity) 1 ltac:(lia)).
    intros j Hj. replace j with 0 by lia. vm_compute. discriminate.
Defined.

End KStringProps.
