(* ===== verification/Bytes.v ===== *)
(** * Words as bytes

    Little-endian words in kernel memory and in the 512-byte blocks of the
    disk.  A block is a list of bytes; [splice] overwrites a part of it. *)

From S2P Require Import Prelude KString.

(** ** Bytes in memory *)
Fixpoint store_bytes (a : Z) (l : list Z) (m : mem) : mem :=
  match l with [] => m | b :: l => store_bytes (a + 1) l (<[a := b]> m) end.
Definition load_bytes (m : mem) (a n : Z) : list Z := map (fun i => m !!! (a + i)) (seqZ 0 n).

Definition word_bytes (w : Z) : list Z := map (fun i => u8 (Z.shiftr w (8 * i))) [0; 1; 2; 3].
Definition half_bytes (w : Z) : list Z := map (fun i => u8 (Z.shiftr w (8 * i))) [0; 1].

(** The word made of four bytes *)
Definition word_of (f : Z -> Z) (x : Z) : Z :=
  u8 (f x) + 2^8 * u8 (f (x + 1)) + 2^16 * u8 (f (x + 2)) + 2^24 * u8 (f (x + 3)).
Definition half_of (f : Z -> Z) (x : Z) : Z := u8 (f x) + 2^8 * u8 (f (x + 1)).

(** ** Bytes in a block *)
Definition at_ (l : list Z) (i : Z) : Z := l !!! Z.to_nat i.
Definition slice (o n : Z) (l : list Z) : list Z := take (Z.to_nat n) (drop (Z.to_nat o) l).
Definition splice (o : Z) (bs l : list Z) : list Z :=
  take (Z.to_nat o) l ++ bs ++ drop (Z.to_nat o + length bs) l.
Definition get32 (l : list Z) (o : Z) : Z := word_of (at_ l) o.
Definition set32 (o w : Z) (l : list Z) : list Z := splice o (word_bytes w) l.
Definition get16 (l : list Z) (o : Z) : Z := half_of (at_ l) o.
Definition set16 (o w : Z) (l : list Z) : list Z := splice o (half_bytes w) l.
Definition get8 (l : list Z) (o : Z) : Z := u8 (at_ l o).
Definition set8 (o w : Z) (l : list Z) : list Z := splice o [u8 w] l.

(** * Theory *)

Lemma store_bytes_lookup l : forall a m x,
  store_bytes a l m !!! x =
    if decide (a <= x < a + Z.of_nat (length l)) then l !!! Z.to_nat (x - a) else m !!! x.
Proof.
  induction l as [|b l IH]; intros a m x; cbn [store_bytes length].
  - by rewrite decide_False by lia.
  - rewrite IH, lookup_total_upd.
    destruct (decide (a + 1 <= x < a + 1 + Z.of_nat (length l))) as [H|H].
    + rewrite decide_True by lia. replace (Z.to_nat (x - a)) with (S (Z.to_nat (x - (a + 1)))) by lia. done.
    + destruct (decide (a = x)) as [->|Hne].
      * rewrite decide_True by lia. by rewrite Z.sub_diag.
      * by rewrite decide_False by lia.
Qed.

Lemma word_bytes_word w : 0 <= w < W32 -> word_of (fun i => word_bytes w !!! Z.to_nat i) 0 = w.
Proof.
  intros Hw.
  change (u8 (u8 (Z.shiftr w 0)) + 2^8 * u8 (u8 (Z.shiftr w 8)) + 2^16 * u8 (u8 (Z.shiftr w 16))
          + 2^24 * u8 (u8 (Z.shiftr w 24)) = w).
  unfold u8. rewrite !Z.mod_mod by lia.
  rewrite !Z.shiftr_div_pow2 by lia. rewrite Z.pow_0_r, Z.div_1_r.
  change (2 ^ 24) with (2 ^ 8 * (2 ^ 8 * 2 ^ 8)). change (2 ^ 16) with (2 ^ 8 * 2 ^ 8).
  change (2 ^ 8) with 256. rewrite <- !Z.div_div by lia.
  assert (w / 256 / 256 / 256 < 256) as Hlt.
  { repeat (apply Z.div_lt_upper_bound; [lia|]). unfold W32 in Hw. lia. }
  assert (0 <= w / 256 / 256 / 256) as Hge by (repeat (apply Z.div_pos; [|lia]); lia).
  rewrite (Z.mod_small (w / 256 / 256 / 256)) by lia.
  pose proof (Z.div_mod w 256). pose proof (Z.div_mod (w / 256) 256).
  pose proof (Z.div_mod (w / 256 / 256) 256). lia.
Qed.

Lemma half_bytes_half w : 0 <= w < 65536 -> half_of (fun i => half_bytes w !!! Z.to_nat i) 0 = w.
Proof.
  intros Hw. change (u8 (u8 (Z.shiftr w 0)) + 2^8 * u8 (u8 (Z.shiftr w 8)) = w).
  unfold u8. rewrite !Z.mod_mod by lia. rewrite !Z.shiftr_div_pow2 by lia.
  rewrite Z.pow_0_r, Z.div_1_r. change (2 ^ 8) with 256.
  assert (0 <= w / 256 < 256) as H by (split; [apply Z.div_pos|apply Z.div_lt_upper_bound]; lia).
  rewrite (Z.mod_small (w / 256)) by lia. pose proof (Z.div_mod w 256). lia.
Qed.

Lemma word_of_ext f g x : (forall i, 0 <= i < 4 -> f (x + i) = g (x + i)) -> word_of f x = word_of g x.
Proof.
  intros H. unfold word_of. rewrite <- (H 1), <- (H 2), <- (H 3) by lia.
  pose proof (H 0 ltac:(lia)) as H0. rewrite Z.add_0_r in H0. by rewrite H0.
Qed.
Lemma word_of_shift f x : word_of f x = word_of (fun i => f (x + i)) 0.
Proof. unfold word_of. rewrite !Z.add_0_l. by rewrite Z.add_0_r. Qed.
Lemma half_of_ext f g x : (forall i, 0 <= i < 2 -> f (x + i) = g (x + i)) -> half_of f x = half_of g x.
Proof.
  intros H. unfold half_of. rewrite <- (H 1) by lia.
  pose proof (H 0 ltac:(lia)) as H0. rewrite Z.add_0_r in H0. by rewrite H0.
Qed.
Lemma half_of_shift f x : half_of f x = half_of (fun i => f (x + i)) 0.
Proof. unfold half_of. by rewrite !Z.add_0_l, Z.add_0_r. Qed.

Lemma u8_range z : 0 <= u8 z < 256.
Proof. unfold u8. apply Z.mod_pos_bound. lia. Qed.
Lemma word_of_range f x : 0 <= word_of f x < W32.
Proof.
  unfold word_of, W32. pose proof (u8_range (f x)). pose proof (u8_range (f (x + 1))).
  pose proof (u8_range (f (x + 2))). pose proof (u8_range (f (x + 3))). lia.
Qed.
Lemma half_of_range f x : 0 <= half_of f x < 65536.
Proof. unfold half_of. pose proof (u8_range (f x)). pose proof (u8_range (f (x + 1))). lia. Qed.

Lemma splice_length o bs l :
  0 <= o -> (Z.to_nat o + length bs <= length l)%nat -> length (splice o bs l) = length l.
Proof. intros Ho H. unfold splice. rewrite !length_app, length_take, length_drop. lia. Qed.

Lemma splice_at o bs l i :
  0 <= o -> (Z.to_nat o + length bs <= length l)%nat -> 0 <= i ->
  at_ (splice o bs l) i =
    if decide (o <= i < o + Z.of_nat (length bs)) then at_ bs (i - o) else at_ l i.
Proof.
  intros Ho H Hi. unfold at_, splice. rewrite !list_lookup_total_alt. f_equal.
  destruct (decide (i < o)).
  - rewrite decide_False by lia. rewrite lookup_app_l by (rewrite length_take; lia).
    by rewrite lookup_take_lt by lia.
  - rewrite lookup_app_r by (rewrite length_take; lia). rewrite length_take.
    destruct (decide (o <= i < o + Z.of_nat (length bs))).
    + rewrite lookup_app_l by lia. do 2 f_equal. lia.
    + rewrite lookup_app_r by lia. rewrite lookup_drop. do 2 f_equal. lia.
Qed.

Lemma slice_at o n l i :
  0 <= o -> 0 <= i < n -> at_ (slice o n l) i = at_ l (o + i).
Proof.
  intros Ho Hi. unfold at_, slice. rewrite !list_lookup_total_alt. f_equal.
  rewrite lookup_take_lt by lia. rewrite lookup_drop. f_equal. lia.
Qed.

Lemma slice_length o n l :
  0 <= o -> 0 <= n -> (Z.to_nat (o + n) <= length l)%nat -> length (slice o n l) = Z.to_nat n.
Proof. intros. unfold slice. rewrite length_take, length_drop. lia. Qed.

(** Two blocks of the same length with the same bytes are equal. *)
Lemma block_ext (l l' : list Z) :
  length l = length l' -> (forall i, 0 <= i < Z.of_nat (length l) -> at_ l i = at_ l' i) -> l = l'.
Proof.
  intros Hl H. apply list_eq. intros k. destruct (decide (k < length l)%nat) as [Hk|Hk].
  - specialize (H (Z.of_nat k) ltac:(lia)). unfold at_ in H. rewrite Nat2Z.id in H.
    rewrite !list_lookup_total_alt in H.
    destruct (lookup_lt_is_Some_2 l k Hk) as [x Ex].
    destruct (lookup_lt_is_Some_2 l' k ltac:(lia)) as [y Ey]. rewrite Ex, Ey in *. cbn in H. by f_equal.
  - rewrite !lookup_ge_None_2 by lia. done.
Qed.

Lemma get32_set32 o w l :
  0 <= o -> (Z.to_nat o + 4 <= length l)%nat -> 0 <= w < W32 -> get32 (set32 o w l) o = w.
Proof.
  intros Ho Hl Hw. unfold get32, set32. rewrite word_of_shift.
  etransitivity; [|apply (word_bytes_word w Hw)]. apply word_of_ext. intros i Hi.
  rewrite Z.add_0_l. rewrite splice_at by (cbn; lia). rewrite decide_True by (cbn; lia).
  unfold at_. do 2 f_equal. lia.
Qed.

Lemma get32_splice_other o bs p l :
  0 <= o -> 0 <= p -> (Z.to_nat o + length bs <= length l)%nat ->
  p + 4 <= o \/ o + Z.of_nat (length bs) <= p -> get32 (splice o bs l) p = get32 l p.
Proof.
  intros Ho Hp Hl Hd. unfold get32. apply word_of_ext. intros i Hi.
  rewrite splice_at by lia. rewrite decide_False by lia. done.
Qed.

Lemma get16_set16 o w l :
  0 <= o -> (Z.to_nat o + 2 <= length l)%nat -> 0 <= w < 65536 -> get16 (set16 o w l) o = w.
Proof.
  intros Ho Hl Hw. unfold get16, set16. rewrite half_of_shift.
  etransitivity; [|apply (half_bytes_half w Hw)]. apply half_of_ext. intros i Hi.
  rewrite Z.add_0_l. rewrite splice_at by (cbn; lia). rewrite decide_True by (cbn; lia).
  unfold at_. do 2 f_equal. lia.
Qed.

Lemma get16_splice_other o bs p l :
  0 <= o -> 0 <= p -> (Z.to_nat o + length bs <= length l)%nat ->
  p + 2 <= o \/ o + Z.of_nat (length bs) <= p -> get16 (splice o bs l) p = get16 l p.
Proof.
  intros Ho Hp Hl Hd. unfold get16. apply half_of_ext. intros i Hi.
  rewrite splice_at by lia. rewrite decide_False by lia. done.
Qed.

Lemma set32_length o w l :
  0 <= o -> (Z.to_nat o + 4 <= length l)%nat -> length (set32 o w l) = length l.
Proof. intros. apply splice_length; cbn; lia. Qed.
Lemma set16_length o w l :
  0 <= o -> (Z.to_nat o + 2 <= length l)%nat -> length (set16 o w l) = length l.
Proof. intros. apply splice_length; cbn; lia. Qed.

Lemma load_bytes_length m a n : length (load_bytes m a n) = Z.to_nat n.
Proof. unfold load_bytes. rewrite length_map, length_seqZ. done. Qed.
Lemma load_bytes_at m a n i : 0 <= i < n -> at_ (load_bytes m a n) i = m !!! (a + i).
Proof.
  intros Hi. unfold at_, load_bytes. rewrite list_lookup_total_alt, list_lookup_fmap.
  rewrite lookup_seqZ_lt by lia. cbn. f_equal. lia.
Qed.

Lemma get8_range l o : 0 <= get8 l o < 256.
Proof. apply u8_range. Qed.
Lemma set8_length o w l :
  0 <= o < Z.of_nat (length l) -> length (set8 o w l) = length l.
Proof. intros. apply splice_length; cbn; lia. Qed.
Lemma get8_set8 o w l p :
  0 <= o < Z.of_nat (length l) -> 0 <= p ->
  get8 (set8 o w l) p = if decide (p = o) then u8 w else get8 l p.
Proof.
  intros Ho Hp. unfold get8, set8. rewrite splice_at by (cbn; lia). cbn [length].
  destruct (decide (p = o)) as [->|Hne].
  - rewrite decide_True by lia. rewrite Z.sub_diag. cbn. unfold u8. apply Z.mod_mod. lia.
  - by rewrite decide_False by lia.
Qed.
