(* ===== verification/Printfmt.v ===== *)
(** * Formatted output: lib/printfmt.c and lib/dprintf.c

    The format string, the strings printed by [%s] and the stack words that
    [va_arg] reads all live in one byte memory [m]: on i386 a [va_list] is a
    pointer that moves over the caller's argument words.  [putch] is a callback
    on a state of type [D]; [vprintfmt] is written over any such callback. *)

From S2P Require Import Prelude KString.
From Stdlib Require Import Ascii.

Definition chr (a : ascii) : Z := Z.of_N (N_of_ascii a).

(** [unsigned char] and [char] reads, and a little-endian word *)
Definition ldb (m : mem) (a : Z) : Z := u8 (m !!! a).
Definition ldc (m : mem) (a : Z) : Z := if ldb m a <? 128 then ldb m a else ldb m a - 256.
Definition ldw (m : mem) (a : Z) : Z :=
  ldb m a + 2^8 * ldb m (a + 1) + 2^16 * ldb m (a + 2) + 2^24 * ldb m (a + 3).
Definition s64 (z : Z) : Z := if u64 z <? 2^63 then u64 z else u64 z - 2^64.

(** A string in a memory of its own *)
Definition literal (s : string) : mem :=
  list_to_map (zip (seqZ 0 (Z.of_nat (String.length s))) (map chr (String.list_ascii_of_string s))).

(** [strnlen] of lib/string.c where the bound may be [SIZE_MAX]. *)
Fixpoint strnlen_fuel (fuel : nat) (s size : Z) (m : mem) : result Z :=
  match fuel with
  | O => Hang
  | S fuel =>
      if decide (0 < size /\ ldb m s <> 0)
      then match strnlen_fuel fuel (s + 1) (size - 1) m with Ok k => Ok (k + 1) | r => r end
      else Ok 0
  end.

(** [getuint] and [getint] return the value and the advanced [va_list]. *)
Definition getuint (m : mem) (ap lflag : Z) : Z * Z :=
  if decide (lflag >= 2) then (ldw m ap + 2^32 * ldw m (ap + 4), ap + 8)
  else if decide (lflag <> 0) then (ldw m ap, ap + 4)
  else (ldw m ap, ap + 4).
Definition getint (m : mem) (ap lflag : Z) : Z * Z :=
  if decide (lflag >= 2) then (s64 (ldw m ap + 2^32 * ldw m (ap + 4)), ap + 8)
  else if decide (lflag <> 0) then (s32 (ldw m ap), ap + 4)
  else (s32 (ldw m ap), ap + 4).

(** The decimal width of a conversion. *)
Fixpoint scan_width (m : mem) (fuel : nat) (precision ch fmt : Z) : result (Z * Z) :=
  match fuel with
  | O => Hang
  | S fuel =>
      let precision := s32 (precision * 10 + ch - chr "0") in
      let ch := ldc m fmt in
      if decide (ch < chr "0" \/ ch > chr "9") then Ok (precision, fmt)
      else scan_width m fuel precision ch (fmt + 1)
  end.

(** Back to just after the last ['%']. *)
Fixpoint back_up (m : mem) (fuel : nat) (fmt : Z) : result Z :=
  match fuel with
  | O => Hang
  | S fuel => if decide (ldc m (fmt - 1) <> chr "%") then back_up m fuel (fmt - 1) else Ok fmt
  end.

Definition lift {S A} (r : result A) : M S A := fun s =>
  match r with
  | Ok a => Ok (a, s)
  | Panic msg => Panic msg
  | Undef e => Undef e
  | Spin => Spin
  | Hang => Hang
  end.

(** Where [vprintfmt] is: copying text, or at the label [reswitch] *)
Inductive fmode :=
| Text
| Reswitch (padc width precision lflag altflag : Z).

Section Vprintfmt.
Context {D : Type} (putch : Z -> D -> D).

Definition putc (ch : Z) : M D unit := modify (putch ch).

(** [n] pad characters *)
Fixpoint pad (n : nat) (padc : Z) : M D unit :=
  match n with
  | O => mret tt
  | S n => putc padc ;; pad n padc
  end.

Definition digit (d : Z) : Z := ldb (literal "0123456789abcdef") d.

Fixpoint printnum (fuel : nat) (num base width padc : Z) : M D unit :=
  match fuel with
  | O => fail Hang
  | S fuel =>
      (if decide (num >= base) then printnum fuel (num / base) base (width - 1) padc
       else pad (Z.to_nat (width - 1)) padc) ;;
      putc (digit (num mod base))
  end.

Definition PRINTNUM_FUEL : nat := 64.

(** The characters of [%s]; returns the remaining width. *)
Fixpoint put_string (m : mem) (fuel : nat) (p precision altflag width : Z) : M D Z :=
  match fuel with
  | O => fail Hang
  | S fuel =>
      let ch := ldc m p in
      if decide (ch <> 0 /\ (precision < 0 \/ precision - 1 >= 0)) then
        let precision := if decide (precision < 0) then precision else precision - 1 in
        (if decide (altflag <> 0 /\ (ch < chr " " \/ ch > chr "~"))
         then putc (chr "?") else putc ch) ;;
        put_string m fuel (p + 1) precision altflag (width - 1)
      else mret width
  end.

Definition conv_string (m : mem) (fuel : nat) (p padc width precision altflag : Z) : M D unit :=
  let '(m, p) := if decide (p = 0) then (literal "(null)", 0) else (m, p) in
  width ← (if decide (width > 0 /\ padc <> chr "-") then
             len ← lift (strnlen_fuel fuel p (u32 precision) m);
             pad (Z.to_nat (width - len)) padc ;;
             mret (Z.min (width - len) 0)
           else mret width);
  width ← put_string m fuel p precision altflag width;
  pad (Z.to_nat width) (chr " ").

(** [number:]; the fuel is enough for every 64-bit number (base at least 2). *)
Definition number (num base width padc : Z) : M D unit :=
  printnum PRINTNUM_FUEL num base width padc.

Fixpoint vprintfmt_loop (m : mem) (sfuel fuel : nat) (md : fmode) (fmt ap : Z) : M D unit :=
  match fuel with
  | O => fail Hang
  | S fuel =>
      let ch := ldb m fmt in
      let fmt := fmt + 1 in
      match md with
      | Text =>
          if decide (ch <> chr "%") then
            if decide (ch = 0) then mret tt
            else putc ch ;; vprintfmt_loop m sfuel fuel Text fmt ap
          else vprintfmt_loop m sfuel fuel (Reswitch (chr " ") (-1) (-1) 0 0) fmt ap
      | Reswitch padc width precision lflag altflag =>
          let reswitch padc width precision lflag altflag :=
            vprintfmt_loop m sfuel fuel (Reswitch padc width precision lflag altflag) in
          let process_precision precision :=
            if decide (width < 0) then reswitch padc precision (-1) lflag altflag
            else reswitch padc width precision lflag altflag in
          let next := vprintfmt_loop m sfuel fuel Text in
          if decide (ch = chr "-") then reswitch (chr "-") width precision lflag altflag fmt ap
          else if decide (ch = chr "0") then reswitch (chr "0") width precision lflag altflag fmt ap
          else if decide (chr "1" <= ch <= chr "9") then
            '(precision, fmt) ← lift (scan_width m sfuel 0 ch fmt);
            process_precision precision fmt ap
          else if decide (ch = chr "*") then
            process_precision (s32 (ldw m ap)) fmt (ap + 4)
          else if decide (ch = chr ".") then
            reswitch padc (if decide (width < 0) then 0 else width) precision lflag altflag fmt ap
          else if decide (ch = chr "#") then reswitch padc width precision lflag 1 fmt ap
          else if decide (ch = chr "l") then reswitch padc width precision (lflag + 1) altflag fmt ap
          else if decide (ch = chr "c") then
            putc (s32 (ldw m ap)) ;; next fmt (ap + 4)
          else if decide (ch = chr "s") then
            conv_string m sfuel (ldw m ap) padc width precision altflag ;; next fmt (ap + 4)
          else if decide (ch = chr "d") then
            let '(num, ap) := getint m ap lflag in
            (if decide (num < 0)
             then putc (chr "-") ;; number (u64 (- num)) 10 width padc
             else number (u64 num) 10 width padc) ;; next fmt ap
          else if decide (ch = chr "u") then
            let '(num, ap) := getuint m ap lflag in
            number num 10 width padc ;; next fmt ap
          else if decide (ch = chr "o") then
            let '(num, ap) := getuint m ap lflag in
            number num 8 width padc ;; next fmt ap
          else if decide (ch = chr "p") then
            putc (chr "0") ;; putc (chr "x") ;;
            number (ldw m ap) 16 width padc ;; next fmt (ap + 4)
          else if decide (ch = chr "x") then
            let '(num, ap) := getuint m ap lflag in
            number num 16 width padc ;; next fmt ap
          else if decide (ch = chr "%") then putc ch ;; next fmt ap
          else
            putc (chr "%") ;;
            fmt ← lift (back_up m sfuel (fmt - 1));
            next fmt ap
      end
  end.

Definition vprintfmt (m : mem) (sfuel fuel : nat) (fmt ap : Z) : M D unit :=
  vprintfmt_loop m sfuel fuel Text fmt ap.

End Vprintfmt.

(** ** dprintf: a line buffer in front of the console *)

Definition CONSOLE_BUFFER_SIZE : Z := 512.

(** The buffer on the stack, and what has been sent to [cons_putc]. *)
Record dprintbuf := mk_dprintbuf {
  idx : Z;
  cnt : Z;
  buf : mem;
  console : list Z;
}.

Fixpoint cputs (fuel : nat) (b : mem) (str : Z) : list Z :=
  match fuel with
  | O => []
  | S fuel => if decide (b !!! str <> 0) then b !!! str :: cputs fuel b (str + 1) else []
  end.

Definition flush (b : dprintbuf) : dprintbuf :=
  let bf := <[idx b := 0]> (buf b) in
  mk_dprintbuf (idx b) (cnt b) bf (console b ++ cputs (Z.to_nat CONSOLE_BUFFER_SIZE) bf 0).

Definition dputch (ch : Z) (b : dprintbuf) : dprintbuf :=
  let b := mk_dprintbuf (idx b + 1) (cnt b) (<[idx b := u8 ch]> (buf b)) (console b) in
  let b := if decide (idx b = CONSOLE_BUFFER_SIZE - 1)
           then let b := flush b in mk_dprintbuf 0 (cnt b) (buf b) (console b)
           else b in
  mk_dprintbuf (idx b) (cnt b + 1) (buf b) (console b).

(** The formatted output as a list, and the same through the buffer. *)
Definition collect : Z -> list Z -> list Z := fun ch l => l ++ [ch].

Definition vdprintf (m : mem) (sfuel fuel : nat) (fmt ap : Z) (stack : mem) : result (Z * list Z) :=
  match vprintfmt dputch m sfuel fuel fmt ap (mk_dprintbuf 0 0 stack []) with
  | Ok (_, b) => let b := flush b in Ok (cnt b, console b)
  | Panic msg => Panic msg
  | Undef e => Undef e
  | Spin => Spin
  | Hang => Hang
  end.

(** * Theory *)

(** ** Output does not depend on the callback

    What [vprintfmt] sends to [putch] is the same for every callback: the list
    that [collect] gathers. *)
Definition feed {D} (putch : Z -> D -> D) (d : D) (l : list Z) : D :=
  foldl (fun d ch => putch ch d) d l.

Definition follows {D A} (putch : Z -> D -> D) (x : M D A) (y : M (list Z) A) : Prop :=
  forall d l, x (feed putch d l) =
    match y l with
    | Ok (a, l') => Ok (a, feed putch d l')
    | Panic msg => Panic msg
    | Undef e => Undef e
    | Spin => Spin
    | Hang => Hang
    end.

Section Follows.
Context {D : Type} (putch : Z -> D -> D).

Lemma follows_ret {A} (a : A) : follows putch (mret a) (mret a).
Proof. done. Qed.
Lemma follows_hang {A} : follows (A := A) putch (fail Hang) (fail Hang).
Proof. done. Qed.
Lemma follows_lift {A} (r : result A) : follows putch (lift r) (lift r).
Proof. intros d l. by destruct r. Qed.
Lemma follows_putc ch : follows putch (putc putch ch) (putc collect ch).
Proof. intros d l. unfold putc, modify, collect, feed. by rewrite foldl_app. Qed.
Lemma follows_bind {A B} (x : M D A) y (f : A -> M D B) g :
  follows putch x y -> (forall a, follows putch (f a) (g a)) ->
  follows putch (x ≫= f) (y ≫= g).
Proof.
  intros Hx Hf d l. unfold mbind, M_bind. rewrite Hx.
  destruct (y l) as [[a l']| | | |]; try done. apply Hf.
Qed.

#[local] Hint Resolve follows_ret follows_hang follows_lift follows_putc : follows.

(** Walk through two copies of the same code. *)
#[local] Ltac walk :=
  repeat first
    [ progress auto with follows
    | apply follows_bind; [|intros ?]
    | case_decide
    | match goal with |- follows _ (let '(_, _) := ?p in _) _ => destruct p end ].

Lemma follows_pad n : forall c, follows putch (pad putch n c) (pad collect n c).
Proof. induction n as [|n IH]; intros c; cbn [pad]; walk. Qed.
#[local] Hint Resolve follows_pad : follows.

Lemma follows_printnum fuel : forall num base width padc,
  follows putch (printnum putch fuel num base width padc) (printnum collect fuel num base width padc).
Proof. induction fuel as [|fuel IH]; intros; cbn [printnum]; walk. Qed.
#[local] Hint Resolve follows_printnum : follows.

Lemma follows_number num base width padc :
  follows putch (number putch num base width padc) (number collect num base width padc).
Proof. apply follows_printnum. Qed.
#[local] Hint Resolve follows_number : follows.

Lemma follows_put_string m fuel : forall p precision altflag width,
  follows putch (put_string putch m fuel p precision altflag width)
    (put_string collect m fuel p precision altflag width).
Proof. induction fuel as [|fuel IH]; intros; cbn [put_string]; walk. Qed.
#[local] Hint Resolve follows_put_string : follows.

Lemma follows_conv_string m fuel p padc width precision altflag :
  follows putch (conv_string putch m fuel p padc width precision altflag)
    (conv_string collect m fuel p padc width precision altflag).
Proof. unfold conv_string. walk. Qed.
#[local] Hint Resolve follows_conv_string : follows.

Lemma follows_loop m sfuel fuel : forall md fmt ap,
  follows putch (vprintfmt_loop putch m sfuel fuel md fmt ap)
    (vprintfmt_loop collect m sfuel fuel md fmt ap).
Proof.
  induction fuel as [|fuel IH]; intros md fmt ap; cbn [vprintfmt_loop]; [walk|].
  destruct md as [|padc width precision lflag altflag]; walk.
Qed.

End Follows.

(** ** The buffer of dprintf *)

Lemma cputs_reads l : forall fuel (b : mem) a,
  (length l < fuel)%nat -> Forall (fun c => c <> 0) l ->
  (forall i c, l !! i = Some c -> b !!! (a + Z.of_nat i) = c) ->
  b !!! (a + Z.of_nat (length l)) = 0 ->
  cputs fuel b a = l.
Proof.
  induction l as [|c l IH]; intros fuel b a Hf Hnz Hl Hz; destruct fuel as [|fuel];
    cbn [length] in Hf; try lia; cbn [cputs].
  - cbn in Hz. rewrite Z.add_0_r in Hz. by rewrite decide_False by tauto.
  - pose proof (Hl 0%nat c eq_refl) as E. rewrite Z.add_0_r in E. rewrite E.
    inversion Hnz; subst. rewrite decide_True by done. f_equal. apply IH; [lia|done| |].
    + intros i x Hi. rewrite <- (Hl (S i) x Hi). f_equal. lia.
    + rewrite <- Hz. f_equal. cbn [length]. lia.
Qed.

(** [pend] is what the buffer holds and the console has not seen. *)
Record buffered (b : dprintbuf) (pend : list Z) : Prop := {
  bf_idx : idx b = Z.of_nat (length pend);
  bf_lt : Z.of_nat (length pend) < CONSOLE_BUFFER_SIZE;
  bf_nz : Forall (fun c => c <> 0) pend;
  bf_data : forall i c, pend !! i = Some c -> buf b !!! Z.of_nat i = c;
}.

Lemma flush_console b pend : buffered b pend -> console (flush b) = console b ++ pend.
Proof.
  intros [Hi Hlt Hnz Hd]. unfold flush. cbn. f_equal. apply cputs_reads; [lia|done| |].
  - intros i c Hc. cbn. rewrite lookup_total_upd, decide_False; [by apply Hd|].
    apply lookup_lt_Some in Hc. lia.
  - cbn. rewrite lookup_total_upd, decide_True; [done|lia].
Qed.

Lemma buffered_put b pend ch :
  buffered b pend -> Z.of_nat (length pend) < CONSOLE_BUFFER_SIZE - 1 -> u8 ch <> 0 ->
  buffered (mk_dprintbuf (idx b + 1) (cnt b) (<[idx b := u8 ch]> (buf b)) (console b))
    (pend ++ [u8 ch]).
Proof.
  intros [Hi Hlt Hnz Hd] Hl Hc. split; cbn.
  - rewrite length_app. cbn. lia.
  - rewrite length_app. cbn. lia.
  - rewrite Forall_app. by repeat constructor.
  - intros i c Hic. rewrite lookup_total_upd. destruct (decide (idx b = Z.of_nat i)) as [E|E].
    + assert (i = length pend) as -> by lia.
      rewrite list_lookup_middle in Hic by done. by inversion Hic.
    + apply Hd. rewrite lookup_app_l in Hic; [done|].
      apply lookup_lt_Some in Hic. rewrite length_app in Hic. cbn in Hic. lia.
Qed.

Lemma feed_dputch l : forall b pend,
  buffered b pend -> Z.of_nat (length pend) < CONSOLE_BUFFER_SIZE - 1 ->
  Forall (fun c => u8 c <> 0) l ->
  exists pend', buffered (feed dputch b l) pend'
    /\ console (feed dputch b l) ++ pend' = console b ++ pend ++ map u8 l
    /\ cnt (feed dputch b l) = cnt b + Z.of_nat (length l).
Proof.
  induction l as [|c l IH]; intros b pend Hb Hl Hnz.
  - exists pend. cbn. rewrite app_nil_r. split_and!; [done|done|lia].
  - inversion Hnz as [|? ? Hc Hnz']; subst. change (feed dputch b (c :: l)) with (feed dputch (dputch c b) l).
    set (b1 := mk_dprintbuf (idx b + 1) (cnt b) (<[idx b := u8 c]> (buf b)) (console b)).
    pose proof (buffered_put b pend c Hb Hl Hc) as Hb1. fold b1 in Hb1.
    destruct (decide (idx b1 = CONSOLE_BUFFER_SIZE - 1)) as [E|E].
    + assert (dputch c b = mk_dprintbuf 0 (cnt b1 + 1) (buf (flush b1)) (console (flush b1))) as ->.
      { unfold dputch. fold b1. by rewrite decide_True. }
      edestruct (IH (mk_dprintbuf 0 (cnt b1 + 1) (buf (flush b1)) (console (flush b1))) [])
        as (pend' & Hb' & Hc' & Hn'); [|cbn; unfold CONSOLE_BUFFER_SIZE; lia|done|].
      { by split; cbn; unfold CONSOLE_BUFFER_SIZE; try lia. }
      exists pend'. split; [exact Hb'|]. split.
      * etransitivity; [exact Hc'|]. cbn [console]. rewrite (flush_console _ _ Hb1). cbn.
        by rewrite <- !app_assoc.
      * etransitivity; [exact Hn'|]. cbn. lia.
    + assert (dputch c b = mk_dprintbuf (idx b1) (cnt b1 + 1) (buf b1) (console b1)) as ->.
      { unfold dputch. fold b1. by rewrite decide_False. }
      edestruct (IH (mk_dprintbuf (idx b1) (cnt b1 + 1) (buf b1) (console b1)) (pend ++ [u8 c]))
        as (pend' & Hb' & Hc' & Hn'); [| |done|].
      { by destruct Hb1. }
      { destruct Hb1 as [Hi Hlt _ _]. cbn in *. lia. }
      exists pend'. split; [exact Hb'|]. split.
      * etransitivity; [exact Hc'|]. cbn. by rewrite <- !app_assoc.
      * etransitivity; [exact Hn'|]. cbn. lia.
Qed.

Lemma vdprintf_spec m sfuel fuel fmt ap stack l :
  vprintfmt collect m sfuel fuel fmt ap [] = Ok (tt, l) ->
  Forall (fun c => u8 c <> 0) l ->
  vdprintf m sfuel fuel fmt ap stack = Ok (Z.of_nat (length l), map u8 l).
Proof.
  intros Hv Hnz. unfold vdprintf.
  pose proof (follows_loop dputch m sfuel fuel Text fmt ap (mk_dprintbuf 0 0 stack []) []) as F.
  unfold vprintfmt in *. cbn [feed foldl] in F. rewrite F, Hv.
  destruct (feed_dputch l (mk_dprintbuf 0 0 stack []) []) as (pend & Hb & Hc & Hn).
  { by split; cbn; unfold CONSOLE_BUFFER_SIZE; try lia. }
  { cbn; unfold CONSOLE_BUFFER_SIZE; lia. }
  { done. }
  do 2 f_equal.
  - unfold flush. cbn. rewrite Hn. cbn. lia.
  - rewrite (flush_console _ _ Hb), Hc. done.
Qed.

(** ** Numerals *)

Definition value (base : Z) (vs : list Z) : Z := foldl (fun a v => a * base + v) 0 vs.

(** [ds] is the numeral of [num]: digits of the base, without leading zeros. *)
Definition is_numeral (base num : Z) (ds : list Z) : Prop :=
  exists v vs, ds = map digit (v :: vs) /\ Forall (fun x => 0 <= x < base) (v :: vs)
    /\ value base (v :: vs) = num /\ (v = 0 -> vs = []).

Lemma is_numeral_digit base num : 0 <= num < base -> is_numeral base num [digit num].
Proof.
  intros H. exists num, []. unfold value. cbn. split; [done|]. split; [by constructor|]. split; [lia|done].
Qed.

Lemma is_numeral_snoc base num r ds :
  is_numeral base num ds -> 0 < num -> 0 <= r < base ->
  is_numeral base (num * base + r) (ds ++ [digit r]).
Proof.
  intros (v & vs & -> & Hd & Hv & Hz) Hn Hr. exists v, (vs ++ [r]). split_and!.
  - cbn. by rewrite map_app.
  - rewrite app_comm_cons. apply Forall_app. split; [done|]. by apply Forall_singleton.
  - unfold value in *. rewrite app_comm_cons, foldl_app. cbn [foldl] in *. by rewrite Hv.
  - intros E. rewrite (Hz E), E in Hv. cbn in Hv. lia.
Qed.

Section Numbers.
Context {D : Type} (putch : Z -> D -> D).

Lemma feed_app (d : D) l1 l2 : feed putch d (l1 ++ l2) = feed putch (feed putch d l1) l2.
Proof. apply foldl_app. Qed.

Lemma pad_spec n c d : pad putch n c d = Ok (tt, feed putch d (replicate n c)).
Proof. revert d. induction n as [|n IH]; intros d; [done|]. cbn [pad replicate]. apply IH. Qed.

Lemma printnum_spec fuel : forall num base width padc,
  2 <= base -> 0 <= num < base ^ (Z.of_nat fuel + 1) ->
  exists ds, is_numeral base num ds /\ forall d,
    printnum putch (S fuel) num base width padc d =
      Ok (tt, feed putch d (replicate (Z.to_nat (width - Z.of_nat (length ds))) padc ++ ds)).
Proof.
  assert (forall num base width padc f d, 0 <= num < base ->
    printnum putch (S f) num base width padc d =
      Ok (tt, feed putch d (replicate (Z.to_nat (width - 1)) padc ++ [digit num]))) as Hleaf.
  { intros num base width padc f d H. cbn [printnum]. rewrite decide_False by lia.
    rewrite (bind_ok _ _ _ _ _ (pad_spec _ _ _)), feed_app, Z.mod_small by lia. done. }
  induction fuel as [|fuel IH]; intros num base width padc Hb Hn.
  { rewrite Z.add_0_l, Z.pow_1_r in Hn. exists [digit num].
    split; [apply is_numeral_digit; lia|]. intros d. by apply Hleaf. }
  destruct (decide (num < base)) as [Hlt|Hge].
  { exists [digit num]. split; [apply is_numeral_digit; lia|]. intros d. apply Hleaf. lia. }
  assert (0 <= num / base < base ^ (Z.of_nat fuel + 1)) as Hq.
  { split; [apply Z.div_pos; lia|]. apply Z.div_lt_upper_bound; [lia|].
    rewrite <- Z.pow_succ_r by lia. replace (Z.succ _) with (Z.of_nat (S fuel) + 1) by lia. lia. }
  destruct (IH (num / base) base (width - 1) padc Hb Hq) as (ds & Hds & Hp).
  exists (ds ++ [digit (num mod base)]). split.
  - rewrite (Z.div_mod num base) at 1 by lia. rewrite (Z.mul_comm base).
    apply is_numeral_snoc; [done| |apply Z.mod_pos_bound; lia].
    apply Z.div_str_pos. lia.
  - intros d. cbn [printnum]. rewrite decide_True by lia. cbn [printnum] in Hp.
    rewrite (bind_ok _ _ _ _ _ (Hp d)), !feed_app, length_app. cbn [length].
    replace (width - Z.of_nat (length ds + 1)) with (width - 1 - Z.of_nat (length ds)) by lia. done.
Qed.

Lemma number_spec num base width padc :
  2 <= base -> 0 <= num < 2 ^ 64 ->
  exists ds, is_numeral base num ds /\ forall d,
    number putch num base width padc d =
      Ok (tt, feed putch d (replicate (Z.to_nat (width - Z.of_nat (length ds))) padc ++ ds)).
Proof.
  intros Hb Hn. apply (printnum_spec 63); [done|]. split; [lia|].
  change (Z.of_nat 63 + 1) with 64. eapply Z.lt_le_trans; [apply Hn|].
  apply Z.pow_le_mono_l. lia.
Qed.

End Numbers.

(** ** Termination *)

Definition returns {D A} (x : M D A) (Q : A -> Prop) : Prop :=
  forall d, exists a d', x d = Ok (a, d') /\ Q a.

Lemma returns_bind {D A B} (x : M D A) (f : A -> M D B) Q R :
  returns x Q -> (forall a, Q a -> returns (f a) R) -> returns (x ≫= f) R.
Proof.
  intros Hx Hf d. destruct (Hx d) as (a & d' & E & HQ). rewrite (bind_ok _ _ _ _ _ E).
  by apply Hf.
Qed.
Lemma returns_ret {D A} (a : A) (Q : A -> Prop) : Q a -> returns (D := D) (mret a) Q.
Proof. intros H d. by exists a, d. Qed.
Lemma returns_lift {D A} (r : result A) a (Q : A -> Prop) :
  r = Ok a -> Q a -> returns (D := D) (lift r) Q.
Proof. intros -> H d. by exists a, d. Qed.

Lemma ldb_range m a : 0 <= ldb m a < 256.
Proof. unfold ldb, u8. apply Z.mod_pos_bound. lia. Qed.
Lemma ldc_zero m a : ldc m a = 0 <-> ldb m a = 0.
Proof. unfold ldc. pose proof (ldb_range m a). destruct (Z.ltb_spec (ldb m a) 128); lia. Qed.
Lemma ldc_ascii m a c : 0 <= c < 128 -> ldc m a = c <-> ldb m a = c.
Proof. unfold ldc. pose proof (ldb_range m a). destruct (Z.ltb_spec (ldb m a) 128); lia. Qed.
Lemma ldw_range m a : 0 <= ldw m a < 2 ^ 32.
Proof.
  unfold ldw. pose proof (ldb_range m a). pose proof (ldb_range m (a + 1)).
  pose proof (ldb_range m (a + 2)). pose proof (ldb_range m (a + 3)). lia.
Qed.
Lemma u64_range z : 0 <= u64 z < 2 ^ 64.
Proof. unfold u64. apply Z.mod_pos_bound. lia. Qed.
Lemma getuint_range m ap lflag num ap' : getuint m ap lflag = (num, ap') -> 0 <= num < 2 ^ 64.
Proof.
  unfold getuint. pose proof (ldw_range m ap). pose proof (ldw_range m (ap + 4)).
  repeat case_decide; intros [= <- <-]; lia.
Qed.

(** A terminator within [k] bytes of [p]. *)
Definition terminated (m : mem) (p k : Z) : Prop :=
  exists i, 0 <= i <= k /\ ldb m (p + i) = 0.

Lemma terminated_step m p k : terminated m p k -> ldb m p <> 0 -> terminated m (p + 1) (k - 1).
Proof.
  intros (i & Hi & E) Hp. exists (i - 1). replace (p + 1 + (i - 1)) with (p + i) by lia.
  assert (i <> 0) by (intros ->; by rewrite Z.add_0_r in E). split; [lia|done].
Qed.

Lemma strnlen_fuel_returns m fuel : forall p size k,
  terminated m p k -> k < Z.of_nat fuel -> exists len, strnlen_fuel fuel p size m = Ok len.
Proof.
  induction fuel as [|fuel IH]; intros p size k Ht Hk; cbn [strnlen_fuel].
  { destruct Ht as (i & Hi & _). lia. }
  destruct (decide _) as [[_ Hnz]|_]; [|by exists 0].
  destruct (IH (p + 1) (size - 1) (k - 1) (terminated_step _ _ _ Ht Hnz)) as [len E]; [lia|].
  rewrite E. by exists (len + 1).
Qed.

Lemma back_up_returns m fuel : forall f p,
  ldb m f = chr "%" -> f < p -> p - f <= Z.of_nat fuel ->
  exists h, back_up m fuel p = Ok h /\ f < h <= p.
Proof.
  induction fuel as [|fuel IH]; intros f p Hf Hp Hk; [lia|]. cbn [back_up].
  destruct (decide _) as [Hne|_]; [|by exists p; split; [done|lia]].
  rewrite (ldc_ascii m (p - 1) (chr "%")) in Hne by (vm_compute; split; congruence).
  assert (p - 1 <> f) by congruence.
  destruct (IH f (p - 1)) as (h & E & Hh); [done|lia|lia|]. exists h. split; [done|lia].
Qed.

Lemma scan_width_returns m fuel : forall e precision ch p,
  ldb m e = 0 -> p <= e -> e - p < Z.of_nat fuel ->
  exists precision' p', scan_width m fuel precision ch p = Ok (precision', p') /\ p <= p' <= e.
Proof.
  induction fuel as [|fuel IH]; intros e precision ch p He Hp Hk; [lia|]. cbn [scan_width].
  destruct (decide _) as [_|Hd]; [by eexists _, p; split; [done|lia]|].
  assert (p <> e). { intros ->. apply ldc_zero in He. rewrite He in Hd. apply Hd. left. by vm_compute. }
  destruct (IH e (s32 (precision * 10 + ch - chr "0")) (ldc m p) (p + 1))
    as (pr & p' & E & Hp'); [done|lia|lia|].
  exists pr, p'. split; [done|lia].
Qed.

Section Termination.
Context {D : Type} (putch : Z -> D -> D).

Lemma returns_putc c : returns (putc putch c) (fun _ => True).
Proof. intros d. by eexists tt, _. Qed.
Lemma returns_pad n c : returns (pad putch n c) (fun _ => True).
Proof. intros d. exists tt. rewrite pad_spec. by eexists. Qed.
Lemma returns_number num base width padc :
  2 <= base -> 0 <= num < 2 ^ 64 -> returns (number putch num base width padc) (fun _ => True).
Proof.
  intros Hb Hn d. destruct (number_spec putch num base width padc Hb Hn) as (ds & _ & E).
  eexists tt, _. by rewrite E.
Qed.

Lemma returns_put_string m fuel : forall p precision altflag width k,
  terminated m p k -> k < Z.of_nat fuel ->
  returns (put_string putch m fuel p precision altflag width) (fun _ => True).
Proof.
  induction fuel as [|fuel IH]; intros p precision altflag width k Ht Hk; cbn [put_string].
  { destruct Ht as (i & Hi & _). lia. }
  destruct (decide _) as [[Hnz _]|_]; [|by apply returns_ret].
  rewrite ldc_zero in Hnz.
  apply (returns_bind _ _ (fun _ => True)); [destruct (decide _); apply returns_putc|].
  intros _ _. eapply (IH _ _ _ _ (k - 1)); [by apply terminated_step|lia].
Qed.

Lemma returns_conv_string m fuel p padc width precision altflag k :
  terminated m p k -> k < Z.of_nat fuel -> 6 < Z.of_nat fuel ->
  returns (conv_string putch m fuel p padc width precision altflag) (fun _ => True).
Proof.
  intros Ht Hk H6. unfold conv_string.
  destruct (if decide (p = 0) then (literal "(null)", 0) else (m, p)) as [m' p'] eqn:E.
  assert (exists k', terminated m' p' k' /\ k' < Z.of_nat fuel) as (k' & Ht' & Hk').
  { destruct (decide (p = 0)); injection E as <- <-; [|by exists k].
    exists 6. split; [|done]. exists 6. split; [lia|]. vm_compute. reflexivity. }
  clear E. apply (returns_bind _ _ (fun _ => True)).
  - destruct (decide _); [|by apply returns_ret].
    destruct (strnlen_fuel_returns m' fuel p' (u32 precision) k' Ht' Hk') as [len El].
    apply (returns_bind _ _ (fun _ => True)); [by eapply returns_lift|]. intros len' _.
    apply (returns_bind _ _ (fun _ => True)); [apply returns_pad|]. intros _ _. by apply returns_ret.
  - intros w _. apply (returns_bind _ _ (fun _ => True)); [by eapply returns_put_string|].
    intros w' _. apply returns_pad.
Qed.

Section Loop.
(** A format of length [n] at [fmt0], and string arguments that end within [k]
    bytes. *)
Context (m : mem) (fmt0 n k : Z) (sfuel : nat).
Context (Hn : 0 <= n) (Hend : ldb m (fmt0 + n) = 0) (Hstr : forall p, terminated m p k).
Context (Hs : n + 2 < Z.of_nat sfuel) (Hsk : k < Z.of_nat sfuel) (Hs6 : 6 < Z.of_nat sfuel).

(** Each character is read at most once per ['%'] before it. *)
Lemma returns_loop fuel :
  (forall pos ap, fmt0 <= pos <= fmt0 + n ->
     (fmt0 + n - pos + 1) * (fmt0 + n - pos + 1) <= Z.of_nat fuel ->
     returns (vprintfmt_loop putch m sfuel fuel Text pos ap) (fun _ => True))
  /\ (forall f pos padc width precision lflag altflag ap,
     fmt0 <= f < pos -> pos <= fmt0 + n -> ldb m f = chr "%" ->
     fmt0 + n - pos + 1 + (fmt0 + n - f) * (fmt0 + n - f) <= Z.of_nat fuel ->
     returns (vprintfmt_loop putch m sfuel fuel (Reswitch padc width precision lflag altflag) pos ap)
       (fun _ => True)).
Proof.
  induction fuel as [|fuel [IHT IHR]].
  { split; intros; nia. }
  split; cbn [vprintfmt_loop].
  - intros pos ap Hpos Hf. destruct (decide (ldb m pos <> chr "%")) as [Hp|Hp].
    + destruct (decide (ldb m pos = 0)) as [Hz|Hz]; [by apply returns_ret|].
      assert (pos <> fmt0 + n) by congruence.
      apply (returns_bind _ _ (fun _ => True)); [apply returns_putc|]. intros _ _.
      apply IHT; [lia|nia].
    + assert (pos <> fmt0 + n).
      { intros ->. rewrite Hend in Hp. apply Hp. by vm_compute. }
      apply dec_stable in Hp. apply (IHR pos); [lia|lia|done|nia].
  - intros f pos padc width precision lflag altflag ap Hf Hpos Hpc Hfuel.
    assert (ldb m pos <> 0 -> pos < fmt0 + n) as Hlt.
    { intros H. destruct (decide (pos = fmt0 + n)); [congruence|lia]. }
    assert (forall p' ap', f < p' <= fmt0 + n ->
      returns (vprintfmt_loop putch m sfuel fuel Text p' ap') (fun _ => True)) as HN.
    { intros p' ap' H. apply IHT; [lia|nia]. }
    assert (forall p' a b c d e ap', pos < p' <= fmt0 + n ->
      returns (vprintfmt_loop putch m sfuel fuel (Reswitch a b c d e) p' ap') (fun _ => True)) as HR.
    { intros p' a b c d e ap' H. apply (IHR f); [lia|lia|done|nia]. }
    clear IHT IHR Hfuel.
    repeat match goal with
    | |- returns (if decide (ldb m pos = chr ?c) then _ else _) _ =>
        destruct (decide (ldb m pos = chr c)) as [E|_];
        [assert (pos < fmt0 + n) by (apply Hlt; rewrite E; by vm_compute)|]
    | |- returns (if decide (chr "1" <= ldb m pos <= _) then _ else _) _ =>
        destruct (decide (chr "1" <= ldb m pos <= chr "9")) as [E|_];
        [assert (pos < fmt0 + n)
           by (apply Hlt; intros Z0; rewrite Z0 in E; vm_compute in E; destruct E; congruence)|]
    end.
    all: repeat first
      [ apply HR; lia | apply HN; lia
      | apply returns_putc
      | apply returns_number; [lia|]; first [apply u64_range | eapply getuint_range; eassumption
                                            | pose proof (ldw_range m ap); lia ]
      | eapply returns_conv_string; [apply Hstr|lia|lia]
      | match goal with
        | |- returns (lift (scan_width _ _ _ _ _) ≫= _) _ =>
            destruct (scan_width_returns m sfuel (fmt0 + n) 0 (ldb m pos) (pos + 1))
              as (pr & p' & Es & Hp'); [done|lia|lia|];
            eapply (returns_bind _ _ (fun x => x = (pr, p'))); [by eapply returns_lift|];
            intros ? ->
        | |- returns (lift (back_up _ _ _) ≫= _) _ =>
            destruct (back_up_returns m sfuel f (pos + 1 - 1)) as (h & Eb & Hh); [done|lia|lia|];
            eapply (returns_bind _ _ (fun x => x = h)); [by eapply returns_lift|]; intros ? ->
        | |- returns (let '(_, _) := ?p in _) _ => destruct p as [? ?] eqn:?
        | |- returns (if decide ?P then _ else _) _ => destruct (decide P)
        | |- returns ((if decide ?P then _ else _) _ _) _ => destruct (decide P)
        end
      | apply (returns_bind _ _ (fun _ => True)); [|intros _ _] ].
Qed.
End Loop.

End Termination.

Example fmt_demo :
  let m := literal "n=%5d %-x %l %08x|" in
  let m := <[1000 := 254]> (<[1001 := 255]> (<[1002 := 255]> (<[1003 := 255]> m))) in
  let m := <[1004 := 0xab]> (<[1008 := 0x12]> m) in
  vprintfmt collect m 40 100 0 1000 [] =
  Ok (tt, map chr (String.list_ascii_of_string "n=-    2 ab %l 00000012|")).
Proof. vm_compute. reflexivity. Qed.

(** * Properties *)
Module PrintfmtProps.

(** Printed numbers parse back.  For every base from 2 to 16,
    64-bit number, width and pad character, the number conversion returns and
    emits pad characters up to the width followed by the numeral of the
    number: digits of the base whose value is the number, without leading
    zeros.  The recursion over the digits ends within its 64 levels. *)
Theorem printed_number_parses_back {D} (putch : Z -> D -> D) num base width padc :
  2 <= base <= 16 -> 0 <= num < 2 ^ 64 ->
  exists v vs,
    value base (v :: vs) = num /\ Forall (fun x => 0 <= x < base) (v :: vs) /\ (v = 0 -> vs = [])
    /\ forall d, number putch num base width padc d =
         Ok (tt, feed putch d
               (replicate (Z.to_nat (width - Z.of_nat (length (v :: vs)))) padc ++ map digit (v :: vs))).
Proof.
  intros Hb Hn.
  destruct (number_spec putch num base width padc ltac:(lia) Hn) as (ds & (v & vs & -> & Hd & Hv & Hz) & E).
  exists v, vs. rewrite length_map in E. done.
Qed.

Lemma printed_number_parses_back_witness :
  exists vs, value 16 vs = 48879 /\
    number collect 48879 16 6 48 [] =
      Ok (tt, feed collect [] (replicate (Z.to_nat (6 - Z.of_nat (length vs))) 48 ++ map digit vs)).
Proof.
  destruct (printed_number_parses_back collect 48879 16 6 48 ltac:(lia) ltac:(lia))
    as (v & vs & Hv & _ & _ & E).
  exists (v :: vs). split; [exact Hv|apply E].
Defined.

(** [vprintfmt] returns on every terminated format string,
    whatever conversions it contains (unknown ones and a ['%'] before the
    terminator included), provided the strings passed for [%s] end within [k]
    bytes: the number of characters examined is at most the square of the
    length of the format. *)
Theorem vprintfmt_returns {D} (putch : Z -> D -> D) m fmt n k sfuel fuel ap :
  0 <= n -> ldb m (fmt + n) = 0 ->
  (forall p, exists i, 0 <= i <= k /\ ldb m (p + i) = 0) ->
  n + 2 < Z.of_nat sfuel -> k < Z.of_nat sfuel -> 6 < Z.of_nat sfuel ->
  (n + 1) * (n + 1) <= Z.of_nat fuel ->
  forall d, exists d', vprintfmt putch m sfuel fuel fmt ap d = Ok (tt, d').
Proof.
  intros Hn He Hs H1 H2 H3 Hf d.
  destruct (returns_loop putch m fmt n k sfuel Hn He Hs H1 H2 H3 fuel) as [HT _].
  destruct (HT fmt ap ltac:(lia) ltac:(nia) d) as ([] & d' & E & _). by exists d'.
Qed.

(** The format ["%"] alone. *)
Lemma vprintfmt_returns_witness :
  exists d', vprintfmt collect (literal "%") 10 4 0 100 [] = Ok (tt, d').
Proof.
  apply (vprintfmt_returns collect (literal "%") 0 1 1 10 4 100);
    [lia|reflexivity| |cbn; lia|cbn; lia|cbn; lia|cbn; lia].
  intros p. destruct (decide (p = 0)) as [->|Hp].
  - exists 1. split; [lia|reflexivity].
  - exists 0. split; [lia|]. rewrite Z.add_0_r. unfold ldb.
    change (literal "%") with (<[0 := 37]> (∅ : mem)).
    rewrite lookup_total_upd, decide_False by congruence. reflexivity.
Defined.

(** The conversion [%d] prints the signed 32-bit argument word:
    a minus sign for a negative one (also for the smallest integer, whose
    absolute value is not an int), then the decimal numeral of its absolute
    value. *)
Theorem percent_d_prints_int {D} (putch : Z -> D -> D) m fmt ap sfuel fuel :
  ldb m fmt = chr "%" -> ldb m (fmt + 1) = chr "d" -> ldb m (fmt + 1 + 1) = 0 ->
  exists ds, is_numeral 10 (Z.abs (s32 (ldw m ap))) ds /\
    forall d, vprintfmt putch m sfuel (3 + fuel) fmt ap d =
      Ok (tt, feed putch d ((if decide (s32 (ldw m ap) < 0) then [chr "-"] else []) ++ ds)).
Proof.
  intros H0 H1 H2. set (x := s32 (ldw m ap)).
  assert (-2147483648 <= x < 2147483648) as Hx by apply s32_range.
  destruct (number_spec putch (Z.abs x) 10 (-1) (chr " ") ltac:(lia) ltac:(lia)) as (ds & Hds & E).
  exists ds. split; [done|]. intros d. unfold vprintfmt. cbn [Nat.add vprintfmt_loop].
  rewrite H0, decide_False by tauto. rewrite H1.
  repeat rewrite (decide_False (P := chr "d" = _)) by (vm_compute; discriminate).
  rewrite (decide_False (P := chr "1" <= _ <= _)) by (vm_compute; intuition congruence).
  repeat rewrite (decide_False (P := chr "d" = _)) by (vm_compute; discriminate).
  rewrite (decide_True (P := chr "d" = _)) by done.
  unfold getint. rewrite (decide_False (P := 0 >= 2)), (decide_False (P := 0 <> 0)) by lia. fold x.
  rewrite H2. rewrite (decide_True (P := 0 <> chr "%")) by (vm_compute; discriminate).
  rewrite (decide_True (P := 0 = 0)) by done.
  replace (Z.to_nat (-1 - Z.of_nat (length ds))) with 0%nat in E by lia. cbn [replicate app] in E.
  destruct (decide (x < 0)) as [Hneg|Hpos].
  - rewrite bind_assoc. unfold putc, modify at 1, mbind at 1, M_bind at 1.
    unfold u64. rewrite Z.mod_small, <- Z.abs_neq by lia.
    by rewrite (bind_ok _ _ _ _ _ (E _)).
  - unfold u64. rewrite Z.mod_small by lia. rewrite Z.abs_eq in E by lia.
    by rewrite (bind_ok _ _ _ _ _ (E _)).
Qed.

Lemma percent_d_prints_int_witness :
  let m := <[103 := 128]> (literal "%d") in
  exists ds, is_numeral 10 2147483648 ds /\
    vprintfmt collect m 0 3 0 100 [] = Ok (tt, feed collect [] (chr "-" :: ds)).
Proof.
  intros m.
  destruct (percent_d_prints_int collect m 0 100 0 0 ltac:(reflexivity) ltac:(reflexivity)
              ltac:(reflexivity)) as (ds & Hds & E).
  exists ds. split; [exact Hds|exact (E [])].
Defined.

(** The line buffer of [dprintf] is transparent.  Whatever the
    stack contents and however often the 512-byte buffer fills up, the console
    receives exactly the bytes that [vprintfmt] produces, in order, and the
    returned count is their number, as long as none of them is a NUL. *)
Theorem dprintf_buffer_transparent m sfuel fuel fmt ap stack l :
  vprintfmt collect m sfuel fuel fmt ap [] = Ok (tt, l) ->
  Forall (fun c => u8 c <> 0) l ->
  vdprintf m sfuel fuel fmt ap stack = Ok (Z.of_nat (length l), map u8 l).
Proof. apply vdprintf_spec. Qed.

Lemma dprintf_buffer_transparent_witness :
  vdprintf (literal "tick %d") 20 20 0 1000 ∅ =
  Ok (6, map chr (String.list_ascii_of_string "tick 0")).
Proof.
  apply (dprintf_buffer_transparent (literal "tick %d") 20 20 0 1000 ∅
           (map chr (String.list_ascii_of_string "tick 0"))).
  - vm_compute. reflexivity.
  - vm_compute. repeat constructor; discriminate.
Defined.

End PrintfmtProps.
