(* ===== verification/Pmap.v ===== *)
(** * Copying between kernel and user memory: lib/pmap.c

    The page tables are not part of the repository: [get_ptbl_entry_by_va] and
    [alloc_page] are the operations of an interface [VmmOps] over an abstract
    page-table state [V].  Physical memory is a byte map [mem]; the kernel runs
    identity-mapped, so kernel addresses and frame addresses index it directly. *)

From S2P Require Import Prelude Machine KString Printfmt.

Definition PTE_P : Z := 0x001.
Definition PTE_W : Z := 0x002.
Definition PTE_U : Z := 0x004.

(** ** The page-table interface *)
Class VmmOps (V : Type) := {
  get_ptbl_entry_by_va : Z -> Z -> V -> Z;
  (* returns MagicNumber on failure, see trap/TTrapHandler/TTrapHandler.c *)
  alloc_page : Z -> Z -> Z -> V * mem -> Z * (V * mem);
}.

Section Ops.
Context {V : Type} `{!VmmOps V}.

Definition call_alloc_page (pid va perm : Z) : M (V * mem) Z := fun s => Ok (alloc_page pid va perm s).
Definition ptbl_entry (pid va : Z) : M (V * mem) Z := gets (fun s => get_ptbl_entry_by_va pid va s.1).
Definition on_ram (f : mem -> mem) : M (V * mem) unit := modify (fun s => (s.1, f s.2)).

(** The page-table walk at the head of each loop: the entry, after an
    allocation when the page is absent. *)
Definition translate (pmap_id uva : Z) : M (V * mem) Z :=
  uva_pa ← ptbl_entry pmap_id uva;
  uva_pa ← (if decide (Z.land uva_pa PTE_P = 0)
            then call_alloc_page pmap_id uva (Z.lor (Z.lor PTE_P PTE_U) PTE_W) ;;
                 ptbl_entry pmap_id uva
            else mret uva_pa);
  mret (Z.land uva_pa 0xfffff000 + uva mod PAGESIZE).

Definition chunk (len pa : Z) : Z :=
  if decide (len < PAGESIZE - pa mod PAGESIZE) then len else PAGESIZE - pa mod PAGESIZE.

Fixpoint pt_copyin_loop (fuel : nat) (pmap_id uva kva len copied : Z) : M (V * mem) Z :=
  if decide (len = 0) then mret copied
  else
    match fuel with
    | O => fail Hang
    | S fuel =>
        uva_pa ← translate pmap_id uva;
        let size := chunk len uva_pa in
        on_ram (memcpy kva uva_pa size) ;;
        pt_copyin_loop fuel pmap_id (u32 (uva + size)) (kva + size) (len - size) (copied + size)
    end.

(** Each round but the first and the last copies a whole page. *)
Definition copy_fuel (len : Z) : nat := Z.to_nat (len / PAGESIZE + 2).

Definition pt_copyin (pmap_id uva kva len : Z) : M (V * mem) Z :=
  if decide (~ (VM_USERLO <= uva /\ u32 (uva + len) <= VM_USERHI)) then mret 0
  else if decide (u32 (kva + len) > VM_USERHI) then mret 0
  else pt_copyin_loop (copy_fuel len) pmap_id uva kva len 0.

Fixpoint pt_copyout_loop (fuel : nat) (kva pmap_id uva len copied : Z) : M (V * mem) Z :=
  if decide (len = 0) then mret copied
  else
    match fuel with
    | O => fail Hang
    | S fuel =>
        uva_pa ← translate pmap_id uva;
        let size := chunk len uva_pa in
        on_ram (memcpy uva_pa kva size) ;;
        pt_copyout_loop fuel (kva + size) pmap_id (u32 (uva + size)) (len - size) (copied + size)
    end.

Definition pt_copyout (kva pmap_id uva len : Z) : M (V * mem) Z :=
  if decide (~ (VM_USERLO <= uva /\ u32 (uva + len) <= VM_USERHI)) then mret 0
  else if decide (u32 (kva + len) > VM_USERHI) then mret 0
  else pt_copyout_loop (copy_fuel len) kva pmap_id uva len 0.

Fixpoint pt_memset_loop (fuel : nat) (pmap_id va c len set : Z) : M (V * mem) Z :=
  if decide (len = 0) then mret set
  else
    match fuel with
    | O => fail Hang
    | S fuel =>
        pa ← translate pmap_id va;
        let size := chunk len pa in
        on_ram (memset pa c size) ;;
        pt_memset_loop fuel pmap_id (u32 (va + size)) c (len - size) (set + size)
    end.

Definition pt_memset (pmap_id va c len : Z) : M (V * mem) Z :=
  pt_memset_loop (copy_fuel len) pmap_id va c len 0.

End Ops.

(** ** What the copies rely on

    The laws speak of the _user addresses of user processes_ only: an address in
    [VM_USERLO .. VM_USERHI) of a process other than 0.  Outside them (all of
    page table 0, and the kernel's part of every other page table) the kernel
    runs identity-mapped, as trap/TTrapHandler/TTrapHandler.c:320 says, and the
    laws ask for nothing but that an entry is a 32-bit word per page.

    For the user addresses [vm_inv] is what the allocator's design gives.
    Memory below [VM_USERLO] is the kernel's and pages are handed out from
    [VM_USERLO] on (pmm/MATInit/MATInit.c:55-58); [palloc] hands out a page
    that is not allocated, so no two user pages share a frame.  [alloc_page]
    maps one page: it changes the entry of that page, and neither the kernel's
    memory nor a frame that is already mapped.  The tables of the page-table
    code itself are the state [V], not part of the bytes [mem]. *)
Section Laws.
Context {V : Type} `{!VmmOps V}.

Definition page (va : Z) : Z := va / PAGESIZE.
Definition user_va (pid va : Z) : Prop := 0 < pid < NUM_IDS /\ VM_USERLO <= va < VM_USERHI.
#[export] Instance user_va_dec pid va : Decision (user_va pid va) := _.
(** The user address [va] of the process [pid] is mapped. *)
Definition present (pid va : Z) (v : V) : Prop :=
  user_va pid va /\ Z.land (get_ptbl_entry_by_va pid va v) PTE_P <> 0.
(** The physical address of [va] *)
Definition phys (pid va : Z) (v : V) : Z :=
  Z.land (get_ptbl_entry_by_va pid va v) 0xfffff000 + va mod PAGESIZE.

Class VmmLaws := {
  vm_inv : V -> Prop;
  entry_range : forall v pid va, 0 <= get_ptbl_entry_by_va pid va v < W32;
  entry_per_page : forall v pid va va',
    page va = page va' -> get_ptbl_entry_by_va pid va v = get_ptbl_entry_by_va pid va' v;
  frames_user : forall v pid va, vm_inv v -> present pid va v -> VM_USERLO <= phys pid va v;
  frames_distinct : forall v pid va pid' va', vm_inv v ->
    present pid va v -> present pid' va' v ->
    phys pid va v / PAGESIZE = phys pid' va' v / PAGESIZE -> pid = pid' /\ page va = page va';
  alloc_inv : forall pid va perm v m,
    vm_inv v -> user_va pid va -> vm_inv (alloc_page pid va perm (v, m)).2.1;
  alloc_other : forall pid va perm v m pid' va',
    vm_inv v -> user_va pid va -> (pid' <> pid \/ page va' <> page va) ->
    get_ptbl_entry_by_va pid' va' (alloc_page pid va perm (v, m)).2.1 =
    get_ptbl_entry_by_va pid' va' v;
  alloc_present : forall pid va perm v m,
    vm_inv v -> user_va pid va ->
    (alloc_page pid va perm (v, m)).1 <> MagicNumber -> Z.land perm PTE_P <> 0 ->
    present pid va (alloc_page pid va perm (v, m)).2.1;
  alloc_ram : forall pid va perm v m a,
    vm_inv v -> user_va pid va ->
    a < VM_USERLO \/ (exists pid' va', present pid' va' v /\ a = phys pid' va' v) ->
    (alloc_page pid va perm (v, m)).2.2 !!! a = m !!! a;
}.

End Laws.
Arguments VmmLaws V {_}.

(** * Theory *)

Lemma frame_of_entry e : 0 <= e < W32 -> Z.land e 0xfffff000 = PAGESIZE * (e / PAGESIZE).
Proof.
  intros He. change 0xfffff000 with (Z.ldiff (Z.ones 32) (Z.ones 12)).
  rewrite Z.ldiff_land, Z.land_assoc, Z.land_ones by lia.
  rewrite (Z.mod_small e) by (change (2 ^ 32) with W32; lia).
  rewrite <- Z.ldiff_land, Z.ldiff_ones_r, Z.shiftl_mul_pow2, Z.shiftr_div_pow2 by lia.
  change (2 ^ 12) with PAGESIZE. lia.
Qed.

Lemma div_eq_interval a q : PAGESIZE * q <= a < PAGESIZE * q + PAGESIZE -> a / PAGESIZE = q.
Proof. intros H. unfold PAGESIZE in *. symmetry. apply (Z.div_unique a 4096 q (a - 4096 * q)); lia. Qed.

Lemma page_bounds a : PAGESIZE * (a / PAGESIZE) <= a < PAGESIZE * (a / PAGESIZE) + PAGESIZE.
Proof. unfold PAGESIZE. pose proof (Z.div_mod a 4096). pose proof (Z.mod_pos_bound a 4096). lia. Qed.

Lemma page_mod a : a mod PAGESIZE = a - PAGESIZE * (a / PAGESIZE).
Proof. unfold PAGESIZE. pose proof (Z.div_mod a 4096). lia. Qed.

Section Theory.
Context {V : Type} `{!VmmOps V} `{!VmmLaws V}.
Implicit Types (v : V) (m : mem).

Lemma phys_eq pid va v :
  phys pid va v = PAGESIZE * (get_ptbl_entry_by_va pid va v / PAGESIZE) + va mod PAGESIZE.
Proof. unfold phys. by rewrite frame_of_entry by apply entry_range. Qed.

Lemma phys_same_page pid va va' v :
  page va' = page va -> phys pid va' v = phys pid va v + (va' - va).
Proof.
  intros H. rewrite !phys_eq, (entry_per_page v pid va' va H), !page_mod. unfold page in H.
  rewrite H. lia.
Qed.

Lemma phys_mod pid va v : phys pid va v mod PAGESIZE = va mod PAGESIZE.
Proof.
  rewrite phys_eq, Z.add_comm, Z.mul_comm, Z_mod_plus_full. apply Z.mod_mod. done.
Qed.

Lemma phys_entry pid va v v' :
  get_ptbl_entry_by_va pid va v' = get_ptbl_entry_by_va pid va v -> phys pid va v' = phys pid va v.
Proof. unfold phys. by intros ->. Qed.

Lemma present_entry pid va v v' :
  get_ptbl_entry_by_va pid va v' = get_ptbl_entry_by_va pid va v -> present pid va v' <-> present pid va v.
Proof. unfold present. by intros ->. Qed.

Lemma user_va_page pid va va' : page va' = page va -> user_va pid va -> user_va pid va'.
Proof.
  unfold user_va, page, VM_USERLO, VM_USERHI. intros H [? ?]. split; [done|].
  pose proof (page_bounds va). pose proof (page_bounds va'). unfold PAGESIZE in *. lia.
Qed.

Lemma present_user_va pid va v : present pid va v -> user_va pid va.
Proof. by intros [? _]. Qed.

Lemma present_same_page pid va va' v : page va' = page va -> present pid va' v <-> present pid va v.
Proof.
  intros H. unfold present. rewrite (entry_per_page v pid va' va H).
  split; intros [Hu ?]; (split; [|done]); by eapply user_va_page.
Qed.

(** Two mapped bytes at the same physical address are the same byte. *)
Lemma phys_inj v pid va pid' va' :
  vm_inv v -> present pid va v -> present pid' va' v -> phys pid va v = phys pid' va' v ->
  pid = pid' /\ va = va'.
Proof.
  intros Hv Hp Hp' E.
  destruct (frames_distinct v pid va pid' va' Hv Hp Hp') as [-> Hpg]; [by rewrite E|].
  split; [done|]. rewrite (phys_same_page pid' va' va v Hpg) in E. lia.
Qed.

(** From [v] to [v'] at most the absent pages [lo..hi] of [pid] have changed. *)
Definition kept (pid lo hi : Z) (v v' : V) : Prop :=
  forall pid' va', present pid' va' v \/ pid' <> pid \/ ~ (lo <= page va' <= hi) ->
    get_ptbl_entry_by_va pid' va' v' = get_ptbl_entry_by_va pid' va' v.

Lemma kept_refl pid lo hi v : kept pid lo hi v v.
Proof. done. Qed.

Lemma kept_trans pid lo hi lo1 hi1 lo2 hi2 v v1 v2 :
  kept pid lo1 hi1 v v1 -> kept pid lo2 hi2 v1 v2 ->
  lo <= lo1 -> hi1 <= hi -> lo <= lo2 -> hi2 <= hi -> kept pid lo hi v v2.
Proof.
  intros H1 H2 ? ? ? ? pid' va' H.
  assert (get_ptbl_entry_by_va pid' va' v1 = get_ptbl_entry_by_va pid' va' v) as E1.
  { apply H1. destruct H as [H|[H|H]]; [tauto|tauto|right; right; lia]. }
  rewrite <- E1. apply H2. rewrite (present_entry _ _ _ _ E1).
  destruct H as [H|[H|H]]; [tauto|tauto|right; right; lia].
Qed.

Lemma kept_present pid lo hi v v' pid' va' :
  kept pid lo hi v v' -> present pid' va' v -> present pid' va' v'.
Proof. intros H Hp. rewrite (present_entry _ _ v); [done|]. apply H. tauto. Qed.

Lemma kept_phys pid lo hi v v' pid' va' :
  kept pid lo hi v v' -> present pid' va' v -> phys pid' va' v' = phys pid' va' v.
Proof. intros H Hp. apply phys_entry, H. tauto. Qed.

(** Memory that [alloc_page] leaves alone. *)
Definition stable (v : V) (a : Z) : Prop :=
  a < VM_USERLO \/ (exists pid va, present pid va v /\ a = phys pid va v).

Lemma translate_spec pid uva v m :
  vm_inv v -> user_va pid uva -> exists v' m', translate pid uva (v, m) = Ok (phys pid uva v', (v', m'))
    /\ vm_inv v' /\ kept pid (page uva) (page uva) v v'
    /\ (forall a, stable v a -> m' !!! a = m !!! a).
Proof.
  intros Hv Hu. unfold translate, ptbl_entry, call_alloc_page. mrun. cbn [fst].
  destruct (decide (Z.land (get_ptbl_entry_by_va pid uva v) PTE_P = 0)) as [Ha|Ha].
  - mrun. pose proof (alloc_inv pid uva (Z.lor (Z.lor PTE_P PTE_U) PTE_W) v m Hv Hu) as Hi.
    pose proof (fun pid' va' => alloc_other pid uva (Z.lor (Z.lor PTE_P PTE_U) PTE_W) v m pid' va' Hv Hu) as Ho.
    pose proof (fun a => alloc_ram pid uva (Z.lor (Z.lor PTE_P PTE_U) PTE_W) v m a Hv Hu) as Hm.
    destruct (alloc_page pid uva (Z.lor (Z.lor PTE_P PTE_U) PTE_W) (v, m)) as [r [v' m']].
    cbn [fst snd] in *. exists v', m'. split_and!; [done|done| |exact Hm].
    intros pid' va' H. apply Ho. destruct H as [H|[H|H]]; [|by left|right; lia].
    destruct (decide (pid' = pid)) as [->|]; [|by left]. right. intros Hp.
    apply (present_same_page pid uva va' v Hp) in H as [_ H]. done.
  - exists v, m. split_and!; [done|done|apply kept_refl|done].
Qed.

(** ** One loop for all three routines

    [work off pa size] is what a round does to memory for the [size] bytes at
    offset [off], whose physical address is [pa]. *)
Fixpoint user_loop (work : Z -> Z -> Z -> mem -> mem) (fuel : nat) (pid uva off len : Z) :
    M (V * mem) Z :=
  if decide (len = 0) then mret off
  else
    match fuel with
    | O => fail Hang
    | S fuel =>
        pa ← translate pid uva;
        let size := chunk len pa in
        on_ram (work off pa size) ;;
        user_loop work fuel pid (u32 (uva + size)) (off + size) (len - size)
    end.

Lemma copyout_user_loop kva fuel : forall pid uva off len s,
  pt_copyout_loop fuel (kva + off) pid uva len off s =
  user_loop (fun off pa size => memcpy pa (kva + off) size) fuel pid uva off len s.
Proof.
  induction fuel as [|fuel IH]; intros pid uva off len s; cbn [pt_copyout_loop user_loop]; [done|].
  case_decide; [done|]. unfold mbind, M_bind.
  destruct (translate pid uva s) as [[pa s1]| | | |]; try done. cbn.
  rewrite <- Z.add_assoc. apply IH.
Qed.

Lemma copyin_user_loop kva fuel : forall pid uva off len s,
  pt_copyin_loop fuel pid uva (kva + off) len off s =
  user_loop (fun off pa size => memcpy (kva + off) pa size) fuel pid uva off len s.
Proof.
  induction fuel as [|fuel IH]; intros pid uva off len s; cbn [pt_copyin_loop user_loop]; [done|].
  case_decide; [done|]. unfold mbind, M_bind.
  destruct (translate pid uva s) as [[pa s1]| | | |]; try done. cbn.
  rewrite <- Z.add_assoc. apply IH.
Qed.

Lemma memset_user_loop c fuel : forall pid va off len s,
  pt_memset_loop fuel pid va c len off s =
  user_loop (fun _ pa size => memset pa c size) fuel pid va off len s.
Proof.
  induction fuel as [|fuel IH]; intros pid va off len s; cbn [pt_memset_loop user_loop]; [done|].
  case_decide; [done|]. unfold mbind, M_bind.
  destruct (translate pid va s) as [[pa s1]| | | |]; try done. cbn. apply IH.
Qed.

(** The chunk of a round stays within the page of [uva] and, unless it is the
    last, reaches its end. *)
Lemma chunk_spec pid uva v len :
  0 < len ->
  let size := chunk len (phys pid uva v) in
  0 < size <= len /\ (forall j, 0 <= j < size -> page (uva + j) = page uva)
  /\ (size < len -> page (uva + size) = page uva + 1).
Proof.
  intros Hlen size. unfold size, chunk. rewrite phys_mod, page_mod.
  pose proof (page_bounds uva) as Hb. unfold page.
  destruct (decide _) as [Hs|Hs]; split_and!; try lia; intros.
  - apply div_eq_interval. lia.
  - apply div_eq_interval. lia.
  - apply div_eq_interval. lia.
Qed.

(** A range that is mapped already needs no allocation. *)
Lemma user_loop_present work fuel : forall pid uva off len v m r v' m',
  VM_USERLO <= uva -> uva + len <= VM_USERHI -> 0 <= len ->
  (forall i, 0 <= i < len -> present pid (uva + i) v) ->
  user_loop work fuel pid uva off len (v, m) = Ok (r, (v', m')) -> v' = v.
Proof.
  induction fuel as [|fuel IH]; intros pid uva off len v m r v' m' Hlo Hhi Hl Hp; cbn [user_loop];
    (destruct (decide (len = 0)) as [->|Hnz]; [by intros [= _ <- _]|]); [done|].
  assert (translate pid uva (v, m) = Ok (phys pid uva v, (v, m))) as Et.
  { unfold translate, ptbl_entry. mrun. cbn [fst]. destruct (Hp 0 ltac:(lia)) as [_ H].
    rewrite Z.add_0_r in H. by rewrite decide_False. }
  rewrite (bind_ok _ _ _ _ _ Et). cbv zeta. destruct (chunk_spec pid uva v len ltac:(lia)) as (Hsz & _ & _).
  unfold on_ram, modify. mrun. cbn [fst snd].
  rewrite u32_id by (unfold W32, VM_USERLO, VM_USERHI in *; lia). apply IH; [lia..|].
  intros i Hi. rewrite <- Z.add_assoc. apply Hp. lia.
Qed.

(** The last page of a range; before its first page when it is empty. *)
Definition touched (uva len : Z) : Z :=
  if decide (len = 0) then page uva - 1 else page (uva + len - 1).

Lemma touched_step uva len size :
  0 < size <= len ->
  touched (uva + size) (len - size) <= touched uva len
  /\ (size < len -> touched (uva + size) (len - size) = touched uva len).
Proof.
  intros H. unfold touched, page. rewrite (decide_False (P := len = 0)) by lia.
  pose proof (page_bounds (uva + size)). pose proof (page_bounds (uva + len - 1)).
  destruct (decide (len - size = 0)); (split; [|intros; f_equal; lia]).
  - unfold PAGESIZE in *. lia.
  - replace (uva + size + (len - size) - 1) with (uva + len - 1) by lia. lia.
Qed.

Lemma touched_ge uva len : 0 < len -> page uva <= touched uva len.
Proof.
  intros H. unfold touched, page, PAGESIZE. rewrite decide_False by lia. apply Z.div_le_mono; lia.
Qed.

Lemma copy_fuel_enough uva len :
  0 < len -> touched uva len - page uva < Z.of_nat (copy_fuel len).
Proof.
  intros Hl. unfold copy_fuel, touched, page. rewrite decide_False by lia.
  pose proof (page_bounds uva). pose proof (page_bounds (uva + len - 1)).
  pose proof (page_bounds len). unfold PAGESIZE in *.
  assert (0 <= len / 4096) by (apply Z.div_pos; lia). lia.
Qed.

(** ** Rounds that write the user's frames *)
Definition kernel_eq (m m' : mem) : Prop := forall a, a < VM_USERLO -> m !!! a = m' !!! a.

(** The effect of a write of [data] to [uva .. uva + len] *)
Definition written (pid uva len : Z) (data : Z -> Z) (v : V) (m : mem) (v' : V) (m' : mem) : Prop :=
  (forall i, 0 <= i < len -> m' !!! phys pid (uva + i) v' = data i)
  /\ kernel_eq m' m
  /\ (forall pid' va', present pid' va' v -> ~ (pid' = pid /\ uva <= va' < uva + len) ->
       m' !!! phys pid' va' v = m !!! phys pid' va' v).

Lemma written_step pid uva len size data hi v m v1 m1 m2 v' m' :
  0 < size <= len -> (forall j, 0 <= j < size -> page (uva + j) = page uva) ->
  (size < len -> page uva < page (uva + size)) ->
  vm_inv v1 -> present pid uva v1 ->
  kept pid (page uva) (page uva) v v1 -> (forall a, stable v a -> m1 !!! a = m !!! a) ->
  patched m1 m2 (phys pid uva v1) size data ->
  kept pid (page (uva + size)) hi v1 v' ->
  written pid (uva + size) (len - size) (fun i => data (size + i)) v1 m2 v' m' ->
  written pid uva len data v m v' m'.
Proof.
  intros Hsz Hpg Hnx Hv1 Hp1 Hk1 Hst Hpatch Hk (Hd & Hker & Hoth).
  assert (forall j, 0 <= j < size -> present pid (uva + j) v1) as Hpj.
  { intros j Hj. by rewrite (present_same_page pid uva (uva + j) v1 (Hpg j Hj)). }
  assert (forall j, 0 <= j < size -> phys pid (uva + j) v1 = phys pid uva v1 + j) as Hphj.
  { intros j Hj. rewrite (phys_same_page pid uva (uva + j) v1 (Hpg j Hj)). lia. }
  assert (VM_USERLO <= phys pid uva v1) as Hlo by (by apply frames_user).
  split; [|split].
  - intros i Hi. destruct (decide (i < size)) as [His|His].
    + rewrite (kept_phys _ _ _ _ _ _ _ Hk) by (apply Hpj; lia).
      rewrite Hoth; [|apply Hpj; lia|lia]. rewrite Hpatch, Hphj by lia.
      rewrite decide_True by lia. f_equal. lia.
    + replace (uva + i) with (uva + size + (i - size)) by lia. rewrite Hd by lia. f_equal. lia.
  - intros a Ha. rewrite Hker by done. rewrite Hpatch, decide_False by lia.
    apply Hst. by left.
  - intros pid' va' Hp Hn.
    rewrite <- (kept_phys _ _ _ _ _ _ _ Hk1 Hp).
    pose proof (kept_present _ _ _ _ _ _ _ Hk1 Hp) as Hp'.
    rewrite Hoth; [|done|lia]. rewrite Hpatch, decide_False.
    + rewrite (kept_phys _ _ _ _ _ _ _ Hk1 Hp). apply Hst. right. by exists pid', va'.
    + intros Hin. destruct (phys_inj v1 pid' va' pid (uva + (phys pid' va' v1 - phys pid uva v1)))
        as [-> E]; [done|done|apply Hpj; lia|rewrite Hphj by lia; lia|lia].
Qed.

Lemma kernel_eq_sym m m' : kernel_eq m m' -> kernel_eq m' m.
Proof. intros H a Ha. symmetry. by apply H. Qed.
Lemma kernel_eq_trans m1 m2 m3 : kernel_eq m1 m2 -> kernel_eq m2 m3 -> kernel_eq m1 m3.
Proof. intros H1 H2 a Ha. rewrite H1 by done. by apply H2. Qed.

Section WriteLoop.
Context (work : Z -> Z -> Z -> mem -> mem) (data : Z -> Z) (total : Z) (m0 : mem) (pid : Z).
Context (Hwork : forall off pa size m,
  0 <= off -> 0 <= size -> off + size <= total -> VM_USERLO <= pa -> kernel_eq m m0 ->
  patched m (work off pa size m) pa size (fun j => data (off + j))).

Lemma write_loop fuel : forall uva off len v m,
  vm_inv v -> 0 <= off -> 0 <= len -> off + len = total ->
  0 < pid < NUM_IDS -> VM_USERLO <= uva -> uva + len <= VM_USERHI ->
  (0 < len -> touched uva len - page uva < Z.of_nat fuel) ->
  exists v' m', user_loop work fuel pid uva off len (v, m) = Ok (total, (v', m'))
    /\ vm_inv v' /\ kept pid (page uva) (touched uva len) v v'
    /\ (kernel_eq m m0 -> (forall i, 0 <= i < len -> present pid (uva + i) v') ->
        written pid uva len (fun i => data (off + i)) v m v' m').
Proof.
  induction fuel as [|fuel IH]; intros uva off len v m Hv Hoff Hlen Htot Hpid Huva Hw Hf; cbn [user_loop];
    (destruct (decide (len = 0)) as [->|Hnz];
     [exists v, m; split; [unfold mret, M_ret; do 2 f_equal; lia|];
      split; [done|]; split; [apply kept_refl|]; intros _ _; split; [lia|by split]|]).
  { pose proof (touched_ge uva len). lia. }
  destruct (translate_spec pid uva v m Hv ltac:(split; lia)) as (v1 & m1 & Et & Hv1 & Hk1 & Hst).
  rewrite (bind_ok _ _ _ _ _ Et). cbv zeta.
  destruct (chunk_spec pid uva v1 len ltac:(lia)) as (Hsz & Hpg & Hnx).
  set (size := chunk len (phys pid uva v1)) in *. clearbody size.
  unfold on_ram, modify. mrun. cbn [fst snd].
  rewrite u32_id by (unfold W32, VM_USERLO, VM_USERHI in *; lia). set (m2 := work off (phys pid uva v1) size m1).
  destruct (touched_step uva len size Hsz) as [Hle Heq].
  pose proof (touched_ge uva len ltac:(lia)) as Hge.
  destruct (IH (uva + size) (off + size) (len - size) v1 m2)
    as (v' & m' & E & Hv' & Hk & Hwr); try lia; try done.
  assert (page uva <= page (uva + size)) as Hmono.
  { unfold page, PAGESIZE. apply Z.div_le_mono; lia. }
  exists v', m'. split; [exact E|]. split; [done|]. split.
  { eapply kept_trans; [exact Hk1|exact Hk|lia..]. }
  intros Hm0 Hpres.
  assert (present pid uva v1) as Hp1.
  { specialize (Hpres 0 ltac:(lia)). rewrite Z.add_0_r in Hpres.
    rewrite (present_entry pid uva v1 v') in Hpres; [done|]. apply Hk. right. right.
    destruct (decide (size < len)); [lia|]. unfold touched. rewrite decide_True; lia. }
  assert (kernel_eq m1 m0) as Hm1.
  { apply (kernel_eq_trans _ m); [|done]. intros a Ha. apply Hst. by left. }
  assert (patched m1 m2 (phys pid uva v1) size (fun j => data (off + j))) as Hpatch.
  { apply Hwork; [lia|lia|lia| |done]. by apply frames_user. }
  apply (written_step pid uva len size _ (touched (uva + size) (len - size)) v m v1 m1 m2 v' m');
    try assumption; [lia|].
  assert (kernel_eq m2 m0) as Hm2.
  { intros a Ha. rewrite Hpatch, decide_False by (pose proof (frames_user v1 pid uva Hv1 Hp1); lia).
    by apply Hm1. }
  destruct Hwr as (W1 & W2 & W3); [done| |].
  { intros i Hi. rewrite <- Z.add_assoc. apply Hpres. lia. }
  split; [|by split]. intros i Hi. rewrite W1 by done. f_equal. lia.
Qed.
End WriteLoop.

Lemma write_all work data len m0 pid uva v m :
  (forall off pa size m, 0 <= off -> 0 <= size -> off + size <= len -> VM_USERLO <= pa ->
     kernel_eq m m0 -> patched m (work off pa size m) pa size (fun j => data (off + j))) ->
  vm_inv v -> 0 <= len -> 0 < pid < NUM_IDS -> VM_USERLO <= uva -> uva + len <= VM_USERHI -> kernel_eq m m0 ->
  exists v' m', user_loop work (copy_fuel len) pid uva 0 len (v, m) = Ok (len, (v', m'))
    /\ vm_inv v' /\ kept pid (page uva) (touched uva len) v v'
    /\ ((forall i, 0 <= i < len -> present pid (uva + i) v') ->
        written pid uva len data v m v' m').
Proof.
  intros Hwork Hv Hl Hpid Hu Hw Hm.
  destruct (write_loop work data len m0 pid Hwork (copy_fuel len) uva 0 len v m)
    as (v' & m' & E & Hv' & Hk & Hwr); try lia; try done.
  { intros. by apply copy_fuel_enough. }
  exists v', m'. split_and!; [done..|]. intros Hp. destruct (Hwr Hm Hp) as (H1 & H2 & H3).
  by split.
Qed.

(** ** Writing to user memory *)
Lemma pt_copyout_spec kva pid uva len v m :
  vm_inv v -> 0 <= len -> 0 < pid < NUM_IDS -> VM_USERLO <= uva -> uva + len <= VM_USERHI ->
  0 <= kva -> kva + len <= VM_USERLO ->
  exists v' m', pt_copyout kva pid uva len (v, m) = Ok (len, (v', m'))
    /\ vm_inv v' /\ kept pid (page uva) (touched uva len) v v'
    /\ ((forall i, 0 <= i < len -> present pid (uva + i) v') ->
        written pid uva len (fun i => m !!! (kva + i)) v m v' m').
Proof.
  intros Hv Hl Hpid Hlo Hhi Hk0 Hk1. unfold pt_copyout.
  unfold VM_USERLO, VM_USERHI in *.
  rewrite decide_False by (rewrite u32_id; unfold W32; lia).
  rewrite decide_False by (rewrite u32_id; unfold W32; lia).
  pose proof (copyout_user_loop kva (copy_fuel len) pid uva 0 len (v, m)) as Ec.
  rewrite Z.add_0_r in Ec. rewrite Ec.
  apply (write_all _ _ _ m); try done; unfold W32; try lia.
  intros off pa size m1 H1 H2 H3 H4 H5 a. unfold memcpy. rewrite memmove_patched by done.
  destruct (decide _) as [Ha|]; [|done]. rewrite H5 by (unfold VM_USERLO; lia). f_equal. lia.
Qed.

Lemma pt_memset_spec pid va c len v m :
  vm_inv v -> 0 <= len -> 0 < pid < NUM_IDS -> VM_USERLO <= va -> va + len <= VM_USERHI ->
  exists v' m', pt_memset pid va c len (v, m) = Ok (len, (v', m'))
    /\ vm_inv v' /\ kept pid (page va) (touched va len) v v'
    /\ ((forall i, 0 <= i < len -> present pid (va + i) v') ->
        written pid va len (fun _ => u8 c) v m v' m').
Proof.
  intros Hv Hl Hpid Hlo Hhi. unfold pt_memset. rewrite memset_user_loop.
  apply (write_all _ _ _ m); try done. intros off pa size m1 H1 H2 H3 H4 H5.
  by apply memset_patched.
Qed.

(** ** Reading from user memory *)

(** The effect of a read of [uva .. uva + len] into the kernel buffer [kva] *)
Definition read_into (kva pid uva len : Z) (v : V) (m : mem) (v' : V) (m' : mem) : Prop :=
  (forall i, 0 <= i < len -> m' !!! (kva + i) = m' !!! phys pid (uva + i) v')
  /\ (forall a, a < VM_USERLO -> ~ (kva <= a < kva + len) -> m' !!! a = m !!! a)
  /\ (forall pid' va', present pid' va' v -> m' !!! phys pid' va' v = m !!! phys pid' va' v).

Lemma read_loop fuel : forall kva pid uva off len v m,
  vm_inv v -> 0 <= off -> 0 <= len -> 0 < pid < NUM_IDS -> VM_USERLO <= uva -> uva + len <= VM_USERHI ->
  kva + off + len <= VM_USERLO ->
  (0 < len -> touched uva len - page uva < Z.of_nat fuel) ->
  exists v' m',
    user_loop (fun off pa size => memcpy (kva + off) pa size) fuel pid uva off len (v, m) =
      Ok (off + len, (v', m'))
    /\ vm_inv v' /\ kept pid (page uva) (touched uva len) v v'
    /\ ((forall i, 0 <= i < len -> present pid (uva + i) v') ->
        read_into (kva + off) pid uva len v m v' m').
Proof.
  induction fuel as [|fuel IH]; intros kva pid uva off len v m Hv Hoff Hlen Hpid Huva Hw Hkv Hf;
    cbn [user_loop];
    (destruct (decide (len = 0)) as [->|Hnz];
     [exists v, m; split; [unfold mret, M_ret; do 2 f_equal; lia|];
      split; [done|]; split; [apply kept_refl|]; intros _; split; [lia|by split]|]).
  { pose proof (touched_ge uva len). lia. }
  destruct (translate_spec pid uva v m Hv ltac:(split; lia)) as (v1 & m1 & Et & Hv1 & Hk1 & Hst).
  rewrite (bind_ok _ _ _ _ _ Et). cbv zeta.
  destruct (chunk_spec pid uva v1 len ltac:(lia)) as (Hsz & Hpg & Hnx).
  set (size := chunk len (phys pid uva v1)) in *. clearbody size.
  unfold on_ram, modify. mrun. cbn [fst snd].
  rewrite u32_id by (unfold W32, VM_USERLO, VM_USERHI in *; lia).
  pose proof (memmove_patched (kva + off) (phys pid uva v1) size m1 ltac:(lia)) as Hpatch.
  change (memmove (kva + off) (phys pid uva v1) size m1)
    with (memcpy (kva + off) (phys pid uva v1) size m1) in Hpatch.
  set (m2 := memcpy (kva + off) (phys pid uva v1) size m1) in *. clearbody m2.
  destruct (touched_step uva len size Hsz) as [Hle Heq].
  pose proof (touched_ge uva len ltac:(lia)) as Hge.
  destruct (IH kva pid (uva + size) (off + size) (len - size) v1 m2)
    as (v' & m' & E & Hv' & Hk & Hwr); try lia; try done.
  assert (page uva <= page (uva + size)) as Hmono.
  { unfold page, PAGESIZE. apply Z.div_le_mono; lia. }
  exists v', m'. split; [rewrite E; do 2 f_equal; lia|]. split; [done|]. split.
  { eapply kept_trans; [exact Hk1|exact Hk|lia..]. }
  intros Hpres.
  assert (present pid uva v1) as Hp1.
  { specialize (Hpres 0 ltac:(lia)). rewrite Z.add_0_r in Hpres.
    rewrite (present_entry pid uva v1 v') in Hpres; [done|]. apply Hk. right. right.
    destruct (decide (size < len)); [lia|]. unfold touched. rewrite decide_True; lia. }
  destruct Hwr as (W1 & W2 & W3).
  { intros i Hi. rewrite <- Z.add_assoc. apply Hpres. lia. }
  assert (forall pid' va', present pid' va' v1 -> m2 !!! phys pid' va' v1 = m1 !!! phys pid' va' v1) as H21.
  { intros pid' va' Hp. rewrite Hpatch, decide_False; [done|].
    pose proof (frames_user v1 pid' va' Hv1 Hp). lia. }
  split; [|split].
  - intros i Hi. destruct (decide (i < size)) as [His|His].
    + assert (present pid (uva + i) v1) as Hpi.
      { rewrite (present_same_page pid uva (uva + i) v1); [done|]. apply Hpg. lia. }
      rewrite W2 by lia. rewrite (kept_phys _ _ _ _ _ _ _ Hk Hpi), W3, H21 by done.
      rewrite Hpatch, decide_True by lia.
      rewrite (phys_same_page pid uva (uva + i) v1) by (apply Hpg; lia). f_equal. lia.
    + replace (kva + off + i) with (kva + (off + size) + (i - size)) by lia.
      replace (uva + i) with (uva + size + (i - size)) by lia. apply W1. lia.
  - intros a Ha Hna. rewrite W2 by lia. rewrite Hpatch, decide_False by lia. apply Hst. by left.
  - intros pid' va' Hp. rewrite <- (kept_phys _ _ _ _ _ _ _ Hk1 Hp).
    pose proof (kept_present _ _ _ _ _ _ _ Hk1 Hp) as Hp'. rewrite W3, H21 by done.
    rewrite (kept_phys _ _ _ _ _ _ _ Hk1 Hp). apply Hst. right. by exists pid', va'.
Qed.

Lemma pt_copyin_spec pid uva kva len v m :
  vm_inv v -> 0 <= len -> 0 < pid < NUM_IDS -> VM_USERLO <= uva -> uva + len <= VM_USERHI ->
  0 <= kva -> kva + len <= VM_USERLO ->
  exists v' m', pt_copyin pid uva kva len (v, m) = Ok (len, (v', m'))
    /\ vm_inv v' /\ kept pid (page uva) (touched uva len) v v'
    /\ ((forall i, 0 <= i < len -> present pid (uva + i) v') -> read_into kva pid uva len v m v' m').
Proof.
  intros Hv Hl Hpid Hlo Hhi Hk0 Hk1. unfold pt_copyin. unfold VM_USERLO, VM_USERHI in *.
  rewrite decide_False by (rewrite u32_id; unfold W32; lia).
  rewrite decide_False by (rewrite u32_id; unfold W32; lia).
  pose proof (copyin_user_loop kva (copy_fuel len) pid uva 0 len (v, m)) as Ec.
  rewrite Z.add_0_r in Ec. rewrite Ec.
  destruct (read_loop (copy_fuel len) kva pid uva 0 len v m) as (v' & m' & E & Hv' & Hk & Hr);
    try done; unfold W32, VM_USERLO; try lia.
  { intros. by apply copy_fuel_enough. }
  exists v', m'. rewrite Z.add_0_r in Hr. done.
Qed.

End Theory.

(** ** An instance of the interface

    Page tables of which page table 0 and the kernel's part of the others are
    the identity map, and which hand out frames for user addresses in order,
    from [VM_USERLO] upwards. *)
Record pages := mk_pages { frames : gmap (Z * Z) Z; next_frame : Z }.

Definition pages_entry (pid va : Z) (v : pages) : Z :=
  if decide (user_va pid va) then
    match frames v !! (pid, va / PAGESIZE) with
    | Some f => u32 (f * PAGESIZE + 7)
    | None => 0
    end
  else u32 (va / PAGESIZE * PAGESIZE + 3).

Definition pages_alloc (pid va perm : Z) (s : pages * mem) : Z * (pages * mem) :=
  let '(v, m) := s in
  match frames v !! (pid, va / PAGESIZE) with
  | Some f => (f, (v, m))
  | None =>
      if decide (user_va pid va /\ next_frame v < 2 ^ 20) then
        (next_frame v, (mk_pages (<[(pid, va / PAGESIZE) := next_frame v]> (frames v)) (next_frame v + 1), m))
      else (MagicNumber, s)
  end.

#[export] Instance pages_ops : VmmOps pages := {|
  get_ptbl_entry_by_va := pages_entry;
  alloc_page := pages_alloc;
|}.

Definition no_pages : pages := mk_pages ∅ (VM_USERLO / PAGESIZE).

Record pages_inv (v : pages) : Prop := {
  pi_next : VM_USERLO / PAGESIZE <= next_frame v <= 2 ^ 20;
  pi_range : forall k f, frames v !! k = Some f -> VM_USERLO / PAGESIZE <= f < next_frame v;
  pi_inj : forall k k' f, frames v !! k = Some f -> frames v !! k' = Some f -> k = k';
}.

Lemma no_pages_inv : pages_inv no_pages.
Proof. split; cbn; [vm_compute; intuition congruence| |]; intros *; rewrite lookup_empty; done. Qed.

Lemma pages_entry_frame v pid va f :
  pages_inv v -> user_va pid va -> frames v !! (pid, va / PAGESIZE) = Some f ->
  pages_entry pid va v = f * PAGESIZE + 7 /\ VM_USERLO / PAGESIZE <= f < 2 ^ 20.
Proof.
  intros Hv Hu E. unfold pages_entry. rewrite decide_True, E by done. pose proof (pi_range v Hv _ _ E) as Hr.
  pose proof (pi_next v Hv) as Hn. split; [|lia].
  rewrite u32_id; [done|]. unfold W32, PAGESIZE, VM_USERLO in *. vm_compute (0x40000000 / 4096) in Hr. lia.
Qed.

Lemma pages_present v pid va :
  present (V := pages) pid va v -> exists f, frames v !! (pid, va / PAGESIZE) = Some f.
Proof.
  intros [Hu Hp]. revert Hp. cbn. unfold pages_entry. rewrite decide_True by done.
  case_match; [by eexists|done].
Qed.

(** The kernel's view: page table 0 and the addresses outside the user area
    are identity-mapped. *)
Lemma pages_identity v pid va :
  is_u32 va -> ~ user_va pid va ->
  Z.land (pages_entry pid va v) PTE_P <> 0 /\ phys (V := pages) pid va v = va.
Proof.
  intros Hva Hu. unfold phys. cbn. unfold pages_entry. rewrite decide_False by done.
  pose proof (page_bounds va) as Hb. unfold is_u32 in Hva.
  assert (0 <= va / PAGESIZE * PAGESIZE + 3 < W32) as Hr.
  { unfold PAGESIZE, W32 in *. lia. }
  rewrite u32_id by done. split.
  - replace (va / PAGESIZE * PAGESIZE + 3) with (1 + (va / PAGESIZE * 2048 + 1) * 2) by (unfold PAGESIZE; lia).
    change PTE_P with (Z.ones 1). rewrite Z.land_ones, Z_mod_plus_full by lia. done.
  - rewrite frame_of_entry by done. rewrite (div_eq_interval _ (va / PAGESIZE)) by (unfold PAGESIZE in *; lia).
    rewrite page_mod. lia.
Qed.

Lemma pages_phys v pid va f :
  pages_inv v -> user_va pid va -> frames v !! (pid, va / PAGESIZE) = Some f ->
  phys (V := pages) pid va v / PAGESIZE = f /\ phys (V := pages) pid va v = PAGESIZE * f + va mod PAGESIZE.
Proof.
  intros Hv Hu E. destruct (pages_entry_frame v pid va f Hv Hu E) as [Ee Hf].
  assert (phys (V := pages) pid va v = PAGESIZE * f + va mod PAGESIZE) as Hp.
  { unfold phys. cbn. rewrite Ee, frame_of_entry.
    - do 2 f_equal. unfold PAGESIZE. symmetry. apply (Z.div_unique _ 4096 f 7); lia.
    - unfold W32, PAGESIZE. vm_compute (VM_USERLO / PAGESIZE) in Hf. lia. }
  split; [|done]. rewrite Hp. apply div_eq_interval.
  pose proof (Z.mod_pos_bound va PAGESIZE). unfold PAGESIZE in *. lia.
Qed.

Lemma pages_alloc_inv pid va perm v m : pages_inv v -> pages_inv (pages_alloc pid va perm (v, m)).2.1.
Proof.
  intros Hv. unfold pages_alloc. destruct (frames v !! _) as [f|] eqn:E; [done|].
  case_decide as Hn; [|done]. cbn. pose proof (pi_next v Hv) as Hr. split; cbn; [lia| |].
  - intros k f Hk. apply lookup_insert_Some in Hk as [[<- <-]|[_ Hk]]; [lia|].
    pose proof (pi_range v Hv _ _ Hk). lia.
  - intros k k' f Hk Hk'.
    apply lookup_insert_Some in Hk as [[<- <-]|[_ Hk]];
      apply lookup_insert_Some in Hk' as [[<- Hf]|[_ Hk']]; try done.
    + pose proof (pi_range v Hv _ _ Hk'). lia.
    + subst f. pose proof (pi_range v Hv _ _ Hk). lia.
    + by eapply (pi_inj v Hv).
Qed.

#[export] Program Instance pages_laws : VmmLaws pages := {| vm_inv := pages_inv |}.
Next Obligation.
  intros v pid va. cbn. unfold pages_entry. repeat case_match; try apply u32_range. unfold W32. lia.
Qed.
Next Obligation.
  intros v pid va va' H. cbn. unfold pages_entry. fold (page va) (page va'). rewrite H.
  destruct (decide (user_va pid va)) as [Hu|Hu], (decide (user_va pid va')) as [Hu'|Hu']; try done;
    exfalso; [apply Hu'|apply Hu]; by eapply user_va_page.
Qed.
Next Obligation.
  intros v pid va Hv Hp. destruct (pages_present v pid va Hp) as [f E].
  pose proof (present_user_va _ _ _ Hp) as Hu.
  destruct (pages_phys v pid va f Hv Hu E) as [_ ->]. destruct (pages_entry_frame v pid va f Hv Hu E) as [_ Hf].
  pose proof (Z.mod_pos_bound va PAGESIZE). unfold VM_USERLO, PAGESIZE in *.
  vm_compute (0x40000000 / 4096) in Hf. lia.
Qed.
Next Obligation.
  intros v pid va pid' va' Hv Hp Hp' E. destruct (pages_present v pid va Hp) as [f Ef].
  destruct (pages_present v pid' va' Hp') as [f' Ef'].
  destruct (pages_phys v pid va f Hv (present_user_va _ _ _ Hp) Ef) as [E1 _].
  destruct (pages_phys v pid' va' f' Hv (present_user_va _ _ _ Hp') Ef') as [E2 _].
  rewrite E1, E2 in E. subst f'. pose proof (pi_inj v Hv _ _ _ Ef Ef') as Hk. by inversion Hk.
Qed.
Next Obligation. intros. by apply pages_alloc_inv. Qed.
Next Obligation.
  intros pid va perm v m pid' va' _ _ H. cbn. unfold pages_alloc.
  destruct (frames v !! _); [done|]. case_decide; [|done]. cbn. unfold pages_entry. cbn.
  rewrite lookup_insert_ne; [done|]. unfold page in H. intros [=]. destruct H; congruence.
Qed.
Next Obligation.
  intros pid va perm v m Hv Hu Hr _. pose proof (pages_alloc_inv pid va perm v m Hv) as Hv'.
  cbn in Hr. assert (exists f, frames (pages_alloc pid va perm (v, m)).2.1 !! (pid, va / PAGESIZE) = Some f)
    as [f E].
  { unfold pages_alloc in *. destruct (frames v !! _) as [f|] eqn:E; [by exists f|].
    case_decide; [|done]. cbn. eexists. apply lookup_insert_eq. }
  split; [done|]. change (Z.land (pages_entry pid va (pages_alloc pid va perm (v, m)).2.1) PTE_P <> 0).
  destruct (pages_entry_frame _ pid va f Hv' Hu E) as [-> _].
  replace (f * PAGESIZE + 7) with (1 + 2 * (f * 2048 + 3)) by (unfold PAGESIZE; lia).
  intros H0. apply (f_equal Z.odd) in H0. change PTE_P with (Z.ones 1) in H0.
  rewrite Z.land_ones in H0 by lia. change (2 ^ 1) with 2 in H0.
  rewrite (Z.mul_comm 2), Z_mod_plus_full in H0. done.
Qed.
Next Obligation.
  intros pid va perm v m a _ _ _. cbn. unfold pages_alloc. destruct (frames v !! _); [done|].
  by case_decide.
Qed.

(** Evaluate that a range is mapped after a copy. *)
Definition all_present `{!VmmOps V} (pid uva len : Z) (r : result (Z * (V * mem))) : bool :=
  match r with
  | Ok (_, (v, _)) =>
      forallb (fun i => bool_decide (user_va pid (uva + i)) && negb (Z.land (get_ptbl_entry_by_va pid (uva + i) v) PTE_P =? 0))%bool (seqZ 0 len)
  | _ => false
  end.

Lemma all_present_spec `{!VmmOps V} pid uva len n (v : V) (m : mem) :
  all_present pid uva len (Ok (n, (v, m))) = true ->
  forall i, 0 <= i < len -> present pid (uva + i) v.
Proof.
  cbn. rewrite forallb_forall. intros H i Hi. specialize (H i).
  rewrite <- list_elem_of_In, elem_of_seqZ, andb_true_iff in H. destruct (H ltac:(lia)) as [Hu Hp].
  split; [by apply bool_decide_eq_true in Hu|]. intros E. by rewrite E in Hp.
Qed.

(** * Properties *)
Module PmapProps.

(** C31 (roundtrip): bytes copied out to a process and back in are unchanged.
    For every page-table implementation that satisfies the interface's laws,
    every user process and every legal user range (crossing pages or not,
    mapped or not), both copies return the full length; if every page of the
    range is mapped after the first copy (no allocation failed), the second
    buffer receives the bytes of the first, and no other kernel memory and no
    mapped user byte of any process outside the range changes. *)
Theorem user_copy_roundtrip `{!VmmOps V} `{!VmmLaws V} (v : V) (m : mem) pid uva len kva kva' :
  vm_inv v -> 0 < pid < NUM_IDS -> 0 <= len -> VM_USERLO <= uva -> uva + len <= VM_USERHI ->
  0 <= kva -> kva + len <= VM_USERLO -> 0 <= kva' -> kva' + len <= VM_USERLO ->
  exists v1 m1 v2 m2,
    pt_copyout kva pid uva len (v, m) = Ok (len, (v1, m1))
    /\ pt_copyin pid uva kva' len (v1, m1) = Ok (len, (v2, m2))
    /\ ((forall i, 0 <= i < len -> present pid (uva + i) v1) ->
         (forall i, 0 <= i < len -> m2 !!! (kva' + i) = m !!! (kva + i))
         /\ (forall a, a < VM_USERLO -> ~ (kva' <= a < kva' + len) -> m2 !!! a = m !!! a)
         /\ (forall pid' va', present pid' va' v -> ~ (pid' = pid /\ uva <= va' < uva + len) ->
              m2 !!! phys pid' va' v2 = m !!! phys pid' va' v)).
Proof.
  intros Hv Hpid Hl Hlo Hhi Hk0 Hk1 Hk0' Hk1'.
  destruct (pt_copyout_spec kva pid uva len v m) as (v1 & m1 & E1 & Hv1 & Hkp1 & Hw); [done..|].
  destruct (pt_copyin_spec pid uva kva' len v1 m1) as (v2 & m2 & E2 & Hv2 & Hkp2 & Hr); [done..|].
  exists v1, m1, v2, m2. split_and!; [done|done|]. intros Hp.
  destruct (Hw Hp) as (W1 & W2 & W3).
  destruct Hr as (R1 & R2 & R3); [intros i Hi; eapply kept_present; [done|by apply Hp]|].
  split_and!.
  - intros i Hi. rewrite R1, (kept_phys _ _ _ _ _ _ _ Hkp2), R3, W1 by auto. done.
  - intros a Ha Hn. rewrite R2 by done. by apply W2.
  - intros pid' va' Hpv Hn. pose proof (kept_present _ _ _ _ _ _ _ Hkp1 Hpv) as Hp1.
    rewrite (kept_phys _ _ _ _ _ _ _ Hkp2 Hp1), R3 by done.
    rewrite (kept_phys _ _ _ _ _ _ _ Hkp1 Hpv). by apply W3.
Qed.

(** Five bytes across a page boundary, with no page mapped before. *)
Lemma user_copy_roundtrip_witness :
  exists v1 m1 v2 m2,
    pt_copyout 100 1 0x40000ffe 5 (no_pages, list_to_map (zip (seqZ 100 5) [1; 2; 3; 4; 5])) =
      Ok (5, (v1, m1))
    /\ pt_copyin 1 0x40000ffe 200 5 (v1, m1) = Ok (5, (v2, m2)) /\ m2 !!! 204 = 5.
Proof.
  destruct (user_copy_roundtrip no_pages (list_to_map (zip (seqZ 100 5) [1; 2; 3; 4; 5]))
              1 0x40000ffe 5 100 200) as (v1 & m1 & v2 & m2 & E1 & E2 & H);
    try (unfold VM_USERLO, VM_USERHI, NUM_IDS; lia); [apply no_pages_inv|].
  exists v1, m1, v2, m2. split; [exact E1|]. split; [exact E2|].
  destruct H as [H _].
  - assert (all_present 1 0x40000ffe 5
              (pt_copyout 100 1 0x40000ffe 5 (no_pages, list_to_map (zip (seqZ 100 5) [1; 2; 3; 4; 5])))
            = true) as Hp by (vm_compute; reflexivity).
    rewrite E1 in Hp. exact (all_present_spec 1 0x40000ffe 5 5 v1 m1 Hp).
  - exact (H 4 ltac:(lia)).
Defined.

(** What the range check of [pt_copyin] accepts.  A range that
    starts below the user area, or that ends above it without wrapping, is
    rejected with 0 and nothing changes; but the end is computed modulo 2^32,
    so a range that runs past the top of the address space is accepted, and
    the copy loop starts. *)
Theorem copyin_range_check `{!VmmOps V} (s : V * mem) pid uva kva len :
  is_u32 uva -> is_u32 len -> 0 <= kva -> kva + len <= VM_USERLO ->
  (uva < VM_USERLO \/ VM_USERHI < uva + len < W32 -> pt_copyin pid uva kva len s = Ok (0, s))
  /\ (VM_USERLO <= uva -> uva + len <= VM_USERHI \/ W32 <= uva + len ->
      pt_copyin pid uva kva len s = pt_copyin_loop (copy_fuel len) pid uva kva len 0 s).
Proof.
  unfold is_u32. intros Hu Hl Hk0 Hk. unfold pt_copyin.
  assert (~ u32 (kva + len) > VM_USERHI) as Hkk.
  { rewrite u32_id; unfold W32, VM_USERHI, VM_USERLO in *; lia. }
  split.
  - intros H. rewrite decide_True; [done|]. intros [H1 H2].
    destruct H as [H|H]; [lia|]. rewrite u32_id in H2; lia.
  - intros Hlo H. rewrite decide_False, decide_False; [done|done|].
    intros Hn. apply Hn. split; [done|]. destruct H as [H|H].
    + rewrite u32_id; unfold VM_USERHI, VM_USERLO, W32 in *; lia.
    + assert (u32 (uva + len) = uva + len - W32) as ->.
      { unfold u32. rewrite <- (Z.mod_small (uva + len - W32) W32) by (unfold W32 in *; lia).
        symmetry. rewrite <- (Z.mul_1_l W32) at 1. apply (Z_mod_plus_full (uva + len) (-1)). }
      unfold VM_USERHI, VM_USERLO, W32 in *. lia.
Qed.

(** 8 KB from the last page of the address space. *)
Lemma copyin_range_check_witness :
  pt_copyin 1 0xfffff000 100 0x2000 (no_pages, ∅) =
  pt_copyin_loop (copy_fuel 0x2000) 1 0xfffff000 100 0x2000 0 (no_pages, ∅).
Proof.
  apply (copyin_range_check (no_pages, ∅) 1 0xfffff000 100 0x2000);
    unfold is_u32, W32, VM_USERLO; lia.
Defined.

End PmapProps.
