(* ===== verification/Elf.v ===== *)
(** * Loading programs: lib/elf.c

    An executable image lies in kernel memory; its headers are read field by
    field from the byte memory. *)

From S2P Require Import Prelude Machine KString Printfmt Pmap.

(** ** lib/elf.h: the fields the loader reads, as offsets into the image *)
Definition ldh (m : mem) (a : Z) : Z := ldb m a + 2^8 * ldb m (a + 1).

Definition ELF_MAGIC : Z := 0x464C457F.
Definition ELF_PROG_LOAD : Z := 1.
Definition ELF_PROG_FLAG_WRITE : Z := 2.
Definition ELF_SHT_STRTAB : Z := 3.
Definition ELF_SHN_UNDEF : Z := 0.

Record elfhdr := mk_elfhdr {
  e_magic : Z; e_entry : Z; e_phoff : Z; e_shoff : Z;
  e_phnum : Z; e_shnum : Z; e_shstrndx : Z;
}.
Definition read_elfhdr (m : mem) (a : Z) : elfhdr :=
  mk_elfhdr (ldw m a) (ldw m (a + 24)) (ldw m (a + 28)) (ldw m (a + 32))
    (ldh m (a + 44)) (ldh m (a + 48)) (ldh m (a + 50)).

Record proghdr := mk_proghdr {
  p_type : Z; p_offset : Z; p_va : Z; p_filesz : Z; p_memsz : Z; p_flags : Z;
}.
Definition sizeof_proghdr : Z := 32.
Definition read_proghdr (m : mem) (a : Z) : proghdr :=
  mk_proghdr (ldw m a) (ldw m (a + 4)) (ldw m (a + 8)) (ldw m (a + 16)) (ldw m (a + 20))
    (ldw m (a + 24)).

Record sechdr := mk_sechdr { sh_type : Z; sh_offset : Z }.
Definition sizeof_sechdr : Z := 40.
Definition read_sechdr (m : mem) (a : Z) : sechdr := mk_sechdr (ldw m (a + 4)) (ldw m (a + 16)).

Section Elf.
Context {V : Type} `{!VmmOps V}.

(** One page of a segment: the body of the inner loop. *)
Definition load_page (pid perm zva filesz va fa : Z) : M (V * mem) unit :=
  call_alloc_page pid va perm ;;
  if decide (va < Types.rounddown zva PAGESIZE) then
    pt_copyout fa pid va PAGESIZE ;; mret tt
  else if decide (va < zva /\ filesz <> 0) then
    pt_memset pid va 0 PAGESIZE ;;
    pt_copyout fa pid va (zva - va) ;; mret tt
  else
    pt_memset pid va 0 PAGESIZE ;; mret tt.

Fixpoint load_pages (fuel : nat) (pid perm zva filesz eva va fa : Z) : M (V * mem) unit :=
  if decide (va < eva) then
    match fuel with
    | O => fail Hang
    | S fuel =>
        load_page pid perm zva filesz va fa ;;
        load_pages fuel pid perm zva filesz eva (u32 (va + PAGESIZE)) (u32 (fa + PAGESIZE))
    end
  else mret tt.

Definition load_segment (eh pid : Z) (ph : proghdr) : M (V * mem) unit :=
  if decide (p_type ph <> ELF_PROG_LOAD) then mret tt
  else
    let fa := u32 (eh + Types.rounddown (p_offset ph) PAGESIZE) in
    let va := Types.rounddown (p_va ph) PAGESIZE in
    let zva := u32 (p_va ph + p_filesz ph) in
    let eva := Types.roundup (u32 (p_va ph + p_memsz ph)) PAGESIZE in
    let perm := Z.lor PTE_U PTE_P in
    let perm := if decide (Z.land (p_flags ph) ELF_PROG_FLAG_WRITE <> 0) then Z.lor perm PTE_W
                else perm in
    load_pages (Z.to_nat ((eva - va) / PAGESIZE)) pid perm zva (p_filesz ph) eva va fa.

Definition elf_load (exe_ptr pid : Z) : M (V * mem) unit :=
  let exe := exe_ptr in
  eh ← gets (fun s => read_elfhdr s.2 exe);
  if decide (e_magic eh <> ELF_MAGIC) then panic "eh->e_magic == ELF_MAGIC"
  else if decide (e_shstrndx eh = ELF_SHN_UNDEF) then panic "eh->e_shstrndx != ELF_SHN_UNDEF"
  else
    let sh := exe + e_shoff eh in
    strsec ← gets (fun s => read_sechdr s.2 (sh + sizeof_sechdr * e_shstrndx eh));
    if decide (sh_type strsec <> ELF_SHT_STRTAB)
    then panic "sh[eh->e_shstrndx].sh_type == ELF_SHT_STRTAB"
    else
      let ph := exe + e_phoff eh in
      for_each (seqZ 0 (e_phnum eh)) (fun k =>
        h ← gets (fun s => read_proghdr s.2 (ph + sizeof_proghdr * k));
        load_segment exe pid h).

Definition elf_entry (exe_ptr : Z) : M (V * mem) Z :=
  eh ← gets (fun s => read_elfhdr s.2 exe_ptr);
  if decide (e_magic eh <> ELF_MAGIC) then panic "eh->e_magic == ELF_MAGIC"
  else mret (e_entry eh).

End Elf.

(** * Theory *)

Lemma rounddown_page a : 0 <= a < W32 -> Types.rounddown a PAGESIZE = PAGESIZE * page a.
Proof. intros Ha. by apply Types.rounddown_spec. Qed.

Section Theory.
Context {V : Type} `{!VmmOps V} `{!VmmLaws V}.
Implicit Types (v : V) (m : mem).

(** Only pages [lo..hi] of [pid] may have changed. *)
Definition kept_out (pid lo hi : Z) (v v' : V) : Prop :=
  forall pid' va', pid' <> pid \/ ~ (lo <= page va' <= hi) ->
    get_ptbl_entry_by_va pid' va' v' = get_ptbl_entry_by_va pid' va' v.

Lemma kept_weaken pid lo hi v v' : kept pid lo hi v v' -> kept_out pid lo hi v v'.
Proof. intros H pid' va' Ho. apply H. by right. Qed.

Lemma kept_out_trans pid lo hi lo1 hi1 lo2 hi2 v v1 v2 :
  kept_out pid lo1 hi1 v v1 -> kept_out pid lo2 hi2 v1 v2 ->
  lo <= lo1 -> hi1 <= hi -> lo <= lo2 -> hi2 <= hi -> kept_out pid lo hi v v2.
Proof.
  intros H1 H2 ? ? ? ? pid' va' H. rewrite H2, H1; [done| |]; (destruct H; [tauto|right; lia]).
Qed.

Lemma kept_out_present pid lo hi v v' pid' va' :
  kept_out pid lo hi v v' -> pid' <> pid \/ ~ (lo <= page va' <= hi) ->
  present pid' va' v' <-> present pid' va' v.
Proof. intros H Ho. apply present_entry. by apply H. Qed.

Lemma kept_out_phys pid lo hi v v' pid' va' :
  kept_out pid lo hi v v' -> pid' <> pid \/ ~ (lo <= page va' <= hi) ->
  phys pid' va' v' = phys pid' va' v.
Proof. intros H Ho. apply phys_entry. by apply H. Qed.

(** Memory outside pages [lo..hi] of [pid] is unchanged. *)
Definition same_out (pid lo hi : Z) (v : V) (m m' : mem) : Prop :=
  kernel_eq m' m /\
  forall pid' va', present pid' va' v -> pid' <> pid \/ ~ (lo <= page va' <= hi) ->
    m' !!! phys pid' va' v = m !!! phys pid' va' v.

Lemma same_out_trans pid lo hi lo1 hi1 lo2 hi2 v m v1 m1 m2 :
  same_out pid lo1 hi1 v m m1 -> kept_out pid lo1 hi1 v v1 -> same_out pid lo2 hi2 v1 m1 m2 ->
  lo <= lo1 -> hi1 <= hi -> lo <= lo2 -> hi2 <= hi -> same_out pid lo hi v m m2.
Proof.
  intros [K1 S1] Hk [K2 S2] ? ? ? ?. split; [by eapply kernel_eq_trans|].
  intros pid' va' Hp Ho.
  assert (pid' <> pid \/ ~ (lo1 <= page va' <= hi1)) as Ho1 by (destruct Ho; [tauto|right; lia]).
  rewrite <- (S1 pid' va' Hp Ho1). rewrite <- (kept_out_phys _ _ _ _ _ _ _ Hk Ho1).
  apply S2; [by rewrite (kept_out_present _ _ _ _ _ _ _ Hk Ho1)|]. destruct Ho; [tauto|right; lia].
Qed.

(** The page allocator has room for a user page of each process of [l], in this
    order: none of these allocations fails, whatever the addresses. *)
Fixpoint room (l : list Z) (v : V) : Prop :=
  match l with
  | [] => True
  | p :: l => forall x perm (m : mem), user_va p x ->
      (alloc_page p x perm (v, m)).1 <> MagicNumber /\ room l (alloc_page p x perm (v, m)).2.1
  end.

(** ** One page *)
Section Page.
Context (pid q : Z).
Let va := PAGESIZE * q.

Lemma page_of j : 0 <= j < PAGESIZE -> page (va + j) = q.
Proof. intros Hj. apply div_eq_interval. unfold va. lia. Qed.

Lemma touched_page len : 0 < len <= PAGESIZE -> touched va len = q /\ page va = q.
Proof.
  intros Hl. unfold touched. rewrite decide_False by lia. rewrite <- Z.add_sub_assoc, page_of by lia.
  split; [done|]. rewrite <- (Z.add_0_r va). apply page_of. unfold PAGESIZE. lia.
Qed.

Lemma present_page j v : 0 <= j < PAGESIZE -> present pid va v -> present pid (va + j) v.
Proof.
  intros Hj Hp. apply (present_same_page pid va); [|done].
  rewrite page_of by done. rewrite <- (Z.add_0_r va), page_of; [done|unfold PAGESIZE; lia].
Qed.

Lemma written_same_out len data v m v' m' :
  0 < len <= PAGESIZE -> written pid va len data v m v' m' -> same_out pid q q v m m'.
Proof.
  intros Hl (_ & K & O). split; [done|]. intros pid' va' Hp Ho. apply O; [done|].
  intros [-> Hr]. destruct Ho as [?|Ho]; [done|]. apply Ho.
  rewrite <- (page_of (va' - va)) by lia. replace (va + (va' - va)) with va' by lia. lia.
Qed.

Context (Hpid : 0 < pid < NUM_IDS) (Hlo : VM_USERLO <= va) (Hhi : va + PAGESIZE <= VM_USERHI).

Lemma page_user_va : user_va pid va.
Proof. split; [done|]. unfold PAGESIZE in *. lia. Qed.

Lemma alloc_page_spec perm v m :
  vm_inv v -> Z.land perm PTE_P <> 0 -> (alloc_page pid va perm (v, m)).1 <> MagicNumber ->
  exists r v' m', alloc_page pid va perm (v, m) = (r, (v', m'))
    /\ vm_inv v' /\ present pid va v' /\ kept_out pid q q v v' /\ same_out pid q q v m m'.
Proof.
  intros Hv Hperm Hr. pose proof page_user_va as Hu. pose proof (alloc_inv pid va perm v m Hv Hu) as Hi.
  pose proof (alloc_present pid va perm v m Hv Hu Hr Hperm) as Hp.
  pose proof (fun pid' va' => alloc_other pid va perm v m pid' va' Hv Hu) as Ho.
  pose proof (fun a => alloc_ram pid va perm v m a Hv Hu) as Hm.
  destruct (alloc_page pid va perm (v, m)) as [r [v' m']]. cbn [fst snd] in *.
  exists r, v', m'. split_and!; [done|done|done| |split].
  - intros pid' va' H. apply Ho. rewrite (proj2 (touched_page 1 ltac:(unfold PAGESIZE; lia))).
    destruct H; [tauto|right; lia].
  - intros a Ha. apply Hm. by left.
  - intros pid' va' Hpv _. apply Hm. right. by exists pid', va'.
Qed.

(** Zero the page, then copy a prefix of it: the page is mapped, so the page
    tables do not change. *)
Lemma zero_page v m :
  vm_inv v -> present pid va v ->
  exists m', pt_memset pid va 0 PAGESIZE (v, m) = Ok (PAGESIZE, (v, m')) /\ same_out pid q q v m m'
    /\ forall j, 0 <= j < PAGESIZE -> m' !!! phys pid (va + j) v = 0.
Proof.
  intros Hv Hp.
  destruct (pt_memset_spec pid va 0 PAGESIZE v m) as (v' & m' & E & _ & _ & Hw);
    [done|unfold PAGESIZE; lia|done..|].
  assert (v' = v) as ->.
  { unfold pt_memset in E. rewrite memset_user_loop in E.
    eapply user_loop_present, E; [done|done|unfold PAGESIZE; lia|]. intros. by apply present_page. }
  specialize (Hw ltac:(intros; by apply present_page)).
  exists m'. split_and!; [done| |].
  - eapply written_same_out; [|done]. unfold PAGESIZE. lia.
  - intros j Hj. apply Hw. done.
Qed.

Lemma copy_page kva len v m :
  vm_inv v -> present pid va v -> 0 < len <= PAGESIZE -> 0 <= kva -> kva + len <= VM_USERLO ->
  exists m', pt_copyout kva pid va len (v, m) = Ok (len, (v, m')) /\ same_out pid q q v m m'
    /\ forall j, 0 <= j < PAGESIZE ->
        m' !!! phys pid (va + j) v =
          if decide (j < len) then m !!! (kva + j) else m !!! phys pid (va + j) v.
Proof.
  intros Hv Hp Hl Hk0 Hk1.
  destruct (pt_copyout_spec kva pid va len v m) as (v' & m' & E & _ & _ & Hw);
    [done|lia|done|lia..|].
  assert (v' = v) as ->.
  { unfold pt_copyout in E. unfold VM_USERLO, VM_USERHI in *.
    rewrite decide_False in E by (rewrite u32_id; unfold W32, PAGESIZE in *; lia).
    rewrite decide_False in E by (rewrite u32_id; unfold W32, PAGESIZE in *; lia).
    pose proof (copyout_user_loop kva (copy_fuel len) pid va 0 len (v, m)) as Ec.
    rewrite Z.add_0_r in Ec. rewrite Ec in E.
    eapply user_loop_present, E; [done|unfold VM_USERHI; lia|lia|]. intros. apply present_page; [lia|done]. }
  specialize (Hw ltac:(intros; apply present_page; [lia|done])).
  exists m'. split_and!; [done|by eapply written_same_out|].
  intros j Hj. destruct Hw as (W1 & _ & W3). destruct (decide (j < len)); [apply W1; lia|].
  apply W3; [by apply present_page|lia].
Qed.

Lemma load_page_spec perm zva filesz fa l v m :
  vm_inv v -> Z.land perm PTE_P <> 0 -> room (pid :: l) v ->
  0 <= fa -> fa + PAGESIZE <= VM_USERLO -> 0 <= zva < W32 -> filesz <> 0 ->
  exists v' m', load_page pid perm zva filesz va fa (v, m) = Ok (tt, (v', m'))
    /\ vm_inv v' /\ room l v' /\ present pid va v' /\ kept_out pid q q v v' /\ same_out pid q q v m m'
    /\ forall j, 0 <= j < PAGESIZE ->
        m' !!! phys pid (va + j) v' = if decide (va + j < zva) then m !!! (fa + j) else 0.
Proof.
  intros Hv Hperm Hrm Hf0 Hf1 Hz Hfs. unfold load_page, call_alloc_page.
  destruct (Hrm va perm m page_user_va) as [Hr Hn].
  destruct (alloc_page_spec perm v m Hv Hperm Hr) as (r & v1 & m1 & E1 & Hv1 & Hp1 & K1 & S1).
  rewrite E1 in Hn. cbn [fst snd] in Hn. mrun. rewrite E1. rewrite (rounddown_page zva Hz).
  pose proof (page_bounds zva) as Hzb. fold (page zva) in Hzb.
  destruct (decide (va < PAGESIZE * page zva)) as [Hfull|Hpart].
  { destruct (copy_page fa PAGESIZE v1 m1) as (m2 & E2 & S2 & D2); try done.
    rewrite E2. exists v1, m2. split_and!; [done..| |].
    - eapply same_out_trans; [exact S1|exact K1|exact S2|lia..].
    - intros j Hj. rewrite D2, decide_True by lia. rewrite decide_True; [apply S1; lia|].
      unfold va in *. assert (q < page zva) by (unfold PAGESIZE in *; lia). unfold PAGESIZE in *. lia. }
  destruct (zero_page v1 m1) as (m2 & E2 & S2 & D2); try done.
  assert (same_out pid q q v m m2) as S02 by (eapply same_out_trans; [exact S1|exact K1|exact S2|lia..]).
  destruct (decide (va < zva /\ filesz <> 0)) as [[Hlt _]|Hge].
  - rewrite E2. destruct (copy_page fa (zva - va) v1 m2) as (m3 & E3 & S3 & D3);
      try done; [unfold va, PAGESIZE in *; lia|unfold va, PAGESIZE in *; lia|].
    rewrite E3. exists v1, m3. split_and!; [done..| |].
    + eapply same_out_trans; [exact S02|exact K1|exact S3|lia..].
    + intros j Hj. rewrite D3 by done. destruct (decide (j < zva - va)).
      * rewrite decide_True by lia. apply S02. lia.
      * rewrite decide_False by lia. by apply D2.
  - rewrite E2. exists v1, m2. split_and!; [done..|]. intros j Hj. rewrite decide_False by lia.
    by apply D2.
Qed.

End Page.

(** ** A segment *)
Section Segment.
Context (pid : Z) (Hpid : 0 < pid < NUM_IDS).

Lemma load_pages_spec perm zva filesz n l : forall q fa v m,
  vm_inv v -> Z.land perm PTE_P <> 0 -> 0 <= zva < W32 -> filesz <> 0 ->
  room (replicate n pid ++ l) v ->
  VM_USERLO <= PAGESIZE * q -> PAGESIZE * (q + Z.of_nat n) <= VM_USERHI ->
  0 <= fa -> fa + PAGESIZE * Z.of_nat n <= VM_USERLO ->
  exists v' m',
    load_pages n pid perm zva filesz (PAGESIZE * (q + Z.of_nat n)) (PAGESIZE * q) fa (v, m) =
      Ok (tt, (v', m'))
    /\ vm_inv v' /\ room l v' /\ kept_out pid q (q + Z.of_nat n - 1) v v'
    /\ same_out pid q (q + Z.of_nat n - 1) v m m'
    /\ forall x, PAGESIZE * q <= x < PAGESIZE * (q + Z.of_nat n) -> present pid x v' /\
        m' !!! phys pid x v' = if decide (x < zva) then m !!! (fa + (x - PAGESIZE * q)) else 0.
Proof.
  induction n as [|n IH]; intros q fa v m Hv Hperm Hz Hfs Hal Hlo Hhi Hf0 Hf1; cbn [load_pages].
  { rewrite decide_False by lia. exists v, m. split; [done|]. split; [done|]. split; [done|].
    split; [done|]. split; [by split|]. intros x Hx. lia. }
  rewrite Nat2Z.inj_succ in *. rewrite decide_True by (unfold PAGESIZE; lia).
  destruct (load_page_spec pid q Hpid Hlo ltac:(unfold PAGESIZE in *; lia) perm zva filesz fa (replicate n pid ++ l) v m)
    as (v1 & m1 & E1 & Hv1 & Hrm & Hp1 & K1 & S1 & D1); try done.
  { unfold PAGESIZE in *; lia. }
  rewrite (bind_ok _ _ _ _ _ E1).
  rewrite !u32_id by (unfold PAGESIZE, VM_USERHI, VM_USERLO, W32 in *; lia).
  replace (PAGESIZE * q + PAGESIZE) with (PAGESIZE * (q + 1)) by lia.
  replace (q + Z.succ (Z.of_nat n)) with (q + 1 + Z.of_nat n) in * by lia.
  destruct (IH (q + 1) (fa + PAGESIZE) v1 m1) as (v2 & m2 & E2 & Hv2 & Hrm2 & K2 & S2 & D2); try done.
  { unfold PAGESIZE in *; lia. } { unfold PAGESIZE in *; lia. } { unfold PAGESIZE in *; lia. }
  exists v2, m2. split; [done|]. split; [done|]. split; [done|].
  split; [eapply kept_out_trans; [exact K1|exact K2|lia..]|].
  split; [eapply same_out_trans; [exact S1|exact K1|exact S2|lia..]|].
  intros x Hx. destruct (decide (PAGESIZE * (q + 1) <= x)) as [Hge|Hlt].
  - destruct (D2 x ltac:(lia)) as [Hp2 ->]. split; [done|].
    destruct (decide (x < zva)); [|done].
    replace (fa + PAGESIZE + (x - PAGESIZE * (q + 1))) with (fa + (x - PAGESIZE * q)) by lia.
    apply S1. lia.
  - assert (x = PAGESIZE * q + (x - PAGESIZE * q)) as Ex by lia.
    assert (0 <= x - PAGESIZE * q < PAGESIZE) as Hj by lia.
    assert (page x = q) as Hpg by (rewrite Ex; by apply page_of).
    assert (present pid x v1) as Hpx by (rewrite Ex; by apply present_page).
    assert (pid <> pid \/ ~ (q + 1 <= page x <= q + 1 + Z.of_nat n - 1)) as Ho by (right; lia).
    split; [by rewrite (kept_out_present _ _ _ _ _ _ _ K2 Ho)|].
    rewrite (kept_out_phys _ _ _ _ _ _ _ K2 Ho). rewrite (proj2 S2 pid x Hpx Ho).
    rewrite Ex at 1. rewrite D1 by done. rewrite <- Ex. done.
Qed.

(** What the loader relies on in a program header. *)
Record seg_ok (exe : Z) (ph : proghdr) : Prop := {
  so_off : 0 <= p_offset ph < W32;
  so_va : VM_USERLO <= p_va ph;
  so_end : p_va ph + p_memsz ph + PAGESIZE <= VM_USERHI;
  so_filesz : 0 < p_filesz ph <= p_memsz ph;
  so_align : p_offset ph mod PAGESIZE = p_va ph mod PAGESIZE;
  so_image : exe + p_offset ph + p_memsz ph + PAGESIZE <= VM_USERLO;
}.

Definition first_page (ph : proghdr) : Z := page (p_va ph).
Definition last_page (ph : proghdr) : Z := page (p_va ph + p_memsz ph - 1).
Definition seg_pages (ph : proghdr) : nat := Z.to_nat (last_page ph + 1 - first_page ph).

(** Byte [x] of the process is the byte of the image, or zero beyond it. *)
Definition loaded (exe : Z) (ph : proghdr) (m : mem) (v' : V) (m' : mem) : Prop :=
  forall x, p_va ph <= x < p_va ph + p_memsz ph -> present pid x v' /\
    m' !!! phys pid x v' =
      if decide (x < p_va ph + p_filesz ph) then m !!! (exe + p_offset ph + (x - p_va ph)) else 0.

Lemma load_segment_spec exe ph l v m :
  vm_inv v -> 0 <= exe -> p_type ph = ELF_PROG_LOAD -> seg_ok exe ph -> room (replicate (seg_pages ph) pid ++ l) v ->
  exists v' m', load_segment exe pid ph (v, m) = Ok (tt, (v', m'))
    /\ vm_inv v' /\ room l v' /\ kept_out pid (first_page ph) (last_page ph) v v'
    /\ same_out pid (first_page ph) (last_page ph) v m m' /\ loaded exe ph m v' m'.
Proof.
  intros Hv Hexe Hty [Ho Hlo Hhi Hfs Hal Him] Hca. unfold load_segment.
  rewrite decide_False by tauto. cbv zeta.
  unfold VM_USERLO, VM_USERHI in *.
  assert (Types.rounddown (p_offset ph) PAGESIZE = PAGESIZE * page (p_offset ph)) as ->
    by (apply rounddown_page; done).
  assert (Types.rounddown (p_va ph) PAGESIZE = PAGESIZE * page (p_va ph)) as ->
    by (apply rounddown_page; unfold PAGESIZE, W32 in *; lia).
  rewrite !(u32_id (p_va ph + _)) by (unfold PAGESIZE, W32 in *; lia).
  assert (Types.roundup (p_va ph + p_memsz ph) PAGESIZE = PAGESIZE * (last_page ph + 1)) as ->.
  { unfold Types.roundup. rewrite !u32_id by (rewrite ?u32_id; unfold PAGESIZE, W32 in *; lia).
    rewrite rounddown_page by (unfold PAGESIZE, W32 in *; lia). f_equal. unfold last_page, page.
    replace (p_va ph + p_memsz ph + PAGESIZE - 1) with (p_va ph + p_memsz ph - 1 + 1 * PAGESIZE) by lia.
    rewrite Z_div_plus_full; [done|done]. }
  pose proof (page_bounds (p_offset ph)) as Hbo. pose proof (page_bounds (p_va ph)) as Hbv.
  pose proof (page_bounds (p_va ph + p_memsz ph - 1)) as Hbe.
  rewrite !page_mod in Hal.
  assert (first_page ph <= last_page ph) as Hfl.
  { unfold first_page, last_page, page, PAGESIZE. apply Z.div_le_mono; lia. }
  fold (page (p_offset ph)) in *. fold (first_page ph) in *.
  fold (page (p_va ph)) (first_page ph) in *. fold (page (p_va ph + p_memsz ph - 1)) (last_page ph) in *.
  assert (0 <= page (p_offset ph)) as Hpo by (apply Z.div_pos; unfold PAGESIZE; lia).
  rewrite (u32_id (exe + _)) by (unfold PAGESIZE, W32 in *; lia).
  set (perm := if decide (Z.land (p_flags ph) ELF_PROG_FLAG_WRITE <> 0) then _ else _).
  assert (Z.land perm PTE_P <> 0) as Hperm by (unfold perm; case_decide; done). clearbody perm.
  unfold seg_pages in Hca. set (n := Z.to_nat (last_page ph + 1 - first_page ph)) in *.
  assert ((PAGESIZE * (last_page ph + 1) - PAGESIZE * first_page ph) / PAGESIZE =
    last_page ph + 1 - first_page ph) as ->.
  { rewrite <- Z.mul_sub_distr_l, Z.mul_comm. by apply Z_div_mult_full. }
  fold n. assert (last_page ph + 1 = first_page ph + Z.of_nat n) as -> by (unfold n; lia).
  assert (Z.of_nat n = last_page ph + 1 - first_page ph) as Hn by (unfold n; lia).
  destruct (load_pages_spec perm (p_va ph + p_filesz ph) (p_filesz ph) n l (first_page ph)
              (exe + PAGESIZE * page (p_offset ph)) v m) as (v' & m' & E & Hv' & Hrm & K & S & D);
    try done; unfold VM_USERLO, VM_USERHI, W32, PAGESIZE in *; try lia.
  exists v', m'. replace (first_page ph + Z.of_nat n - 1) with (last_page ph) in * by lia.
  split_and!; [done..|]. intros x Hx. destruct (D x ltac:(lia)) as [Hp ->]. split; [done|].
  destruct (decide _); [|done]. f_equal. lia.
Qed.

End Segment.

(** ** The image *)
Lemma ldw_kernel m m' a : kernel_eq m' m -> a + 4 <= VM_USERLO -> ldw m' a = ldw m a.
Proof. intros H Ha. unfold ldw, ldb. by rewrite !H by lia. Qed.

Lemma read_proghdr_kernel m m' a :
  kernel_eq m' m -> a + sizeof_proghdr <= VM_USERLO -> read_proghdr m' a = read_proghdr m a.
Proof.
  intros H Ha. unfold read_proghdr, sizeof_proghdr in *. by rewrite !(ldw_kernel m m') by (done || lia).
Qed.

Lemma same_page_between x ph :
  p_va ph <= x < p_va ph + p_memsz ph -> first_page ph <= page x <= last_page ph.
Proof.
  intros Hx. unfold first_page, last_page, page, PAGESIZE.
  split; apply Z.div_le_mono; lia.
Qed.

Definition disjoint_pages (ph ph' : proghdr) : Prop :=
  last_page ph < first_page ph' \/ last_page ph' < first_page ph.

(** Loading another segment leaves a loaded one intact. *)
Lemma loaded_frame pid exe ph ph' m v1 m1 v2 m2 :
  loaded pid exe ph m v1 m1 -> disjoint_pages ph ph' ->
  kept_out pid (first_page ph') (last_page ph') v1 v2 ->
  same_out pid (first_page ph') (last_page ph') v1 m1 m2 ->
  loaded pid exe ph m v2 m2.
Proof.
  intros HL Hd K S x Hx. destruct (HL x Hx) as [Hp E]. pose proof (same_page_between x ph Hx) as Hpg.
  assert (pid <> pid \/ ~ (first_page ph' <= page x <= last_page ph')) as Ho.
  { right. unfold disjoint_pages in Hd. lia. }
  split; [by rewrite (kept_out_present _ _ _ _ _ _ _ K Ho)|].
  rewrite (kept_out_phys _ _ _ _ _ _ _ K Ho), <- E. by apply S.
Qed.

(** The [k]-th program header of the image at [exe] *)
Definition prog (m : mem) (exe k : Z) : proghdr :=
  read_proghdr m (exe + e_phoff (read_elfhdr m exe) + sizeof_proghdr * k).

Record image_ok (m : mem) (exe : Z) : Prop := {
  io_magic : e_magic (read_elfhdr m exe) = ELF_MAGIC;
  io_strndx : e_shstrndx (read_elfhdr m exe) <> ELF_SHN_UNDEF;
  io_strtab : sh_type (read_sechdr m (exe + e_shoff (read_elfhdr m exe)
                + sizeof_sechdr * e_shstrndx (read_elfhdr m exe))) = ELF_SHT_STRTAB;
  io_headers : exe + e_phoff (read_elfhdr m exe)
                 + sizeof_proghdr * e_phnum (read_elfhdr m exe) <= VM_USERLO;
  io_segs : forall k, 0 <= k < e_phnum (read_elfhdr m exe) ->
    p_type (prog m exe k) = ELF_PROG_LOAD -> seg_ok exe (prog m exe k);
  io_disjoint : forall k k', 0 <= k < k' -> k' < e_phnum (read_elfhdr m exe) ->
    p_type (prog m exe k) = ELF_PROG_LOAD -> p_type (prog m exe k') = ELF_PROG_LOAD ->
    disjoint_pages (prog m exe k) (prog m exe k');
}.

(** The pages of the loadable segments of the headers [ks], and of the image *)
Definition pages_of (m : mem) (exe : Z) (ks : list Z) : nat :=
  sum_list_with (fun k => if decide (p_type (prog m exe k) = ELF_PROG_LOAD) then seg_pages (prog m exe k) else 0%nat) ks.
Definition image_pages (m : mem) (exe : Z) : nat := pages_of m exe (seqZ 0 (e_phnum (read_elfhdr m exe))).

(** The memory of other processes stays. *)
Definition others_same (pid : Z) (v : V) (m : mem) (v' : V) (m' : mem) : Prop :=
  forall p x, p <> pid -> present p x v -> present p x v' /\ m' !!! phys p x v' = m !!! phys p x v.

Lemma others_same_step pid lo hi v m v1 m1 v2 m2 :
  others_same pid v m v1 m1 -> kept_out pid lo hi v1 v2 -> same_out pid lo hi v1 m1 m2 -> others_same pid v m v2 m2.
Proof.
  intros H K [_ S] p x Hp Hx. destruct (H p x Hp Hx) as [Hx1 E1]. assert (p <> pid \/ ~ (lo <= page x <= hi)) as Ho by (by left).
  split; [by rewrite (kept_out_present _ _ _ _ _ _ _ K Ho)|]. rewrite (kept_out_phys _ _ _ _ _ _ _ K Ho), <- E1. by apply S.
Qed.

Lemma elf_load_spec exe pid l v m :
  vm_inv v -> 0 <= exe -> 0 < pid < NUM_IDS -> image_ok m exe -> room (replicate (image_pages m exe) pid ++ l) v ->
  exists v' m', elf_load exe pid (v, m) = Ok (tt, (v', m'))
    /\ vm_inv v' /\ room l v' /\ kernel_eq m' m /\ others_same pid v m v' m'
    /\ forall k, 0 <= k < e_phnum (read_elfhdr m exe) -> p_type (prog m exe k) = ELF_PROG_LOAD ->
        loaded pid exe (prog m exe k) m v' m'.
Proof.
  intros Hv Hexe Hpid [Hmg Hsx Hst Hhd Hsg Hdj] Hca. unfold elf_load. mrun. cbn [snd].
  rewrite decide_False by tauto. rewrite decide_False by done. mrun. rewrite decide_False by tauto.
  unfold image_pages in Hca. set (N := e_phnum (read_elfhdr m exe)) in *.
  edestruct (for_each_ind (fun d (s : V * mem) =>
      vm_inv s.1 /\ (forall r, seqZ 0 N = d ++ r -> room (replicate (pages_of m exe r) pid ++ l) s.1) /\ kernel_eq s.2 m /\ others_same pid v m s.1 s.2 /\
      forall k, k ∈ d -> p_type (prog m exe k) = ELF_PROG_LOAD -> loaded pid exe (prog m exe k) m s.1 s.2))
    as ([v' m'] & E & Hv' & Hrm' & Hk' & Ho' & HL'); [| |exists v', m'; split; [exact E|]].
  - intros d x r [v1 m1] Hd (Hv1 & Hrm1 & Hk1 & Ho1 & HL1). specialize (Hrm1 _ Hd).
    assert (forall r', seqZ 0 N = (d ++ [x]) ++ r' -> r' = r) as Hr.
    { intros r' E. rewrite Hd, <- app_assoc in E. apply app_inv_head in E. by injection E. }
    unfold pages_of in Hrm1. cbn [sum_list_with fst] in Hrm1. fold (pages_of m exe r) in Hrm1. destruct (seqZ_split N d x r Hd) as [Hx Hin]. cbn [fst snd] in *.
    mrun. cbn [snd]. rewrite (read_proghdr_kernel m m1) by (done || unfold sizeof_proghdr in *; lia).
    fold (prog m exe x).
    destruct (decide (p_type (prog m exe x) = ELF_PROG_LOAD)) as [Hty|Hty].
    + rewrite replicate_add, <- app_assoc in Hrm1.
      destruct (load_segment_spec pid Hpid exe (prog m exe x) (replicate (pages_of m exe r) pid ++ l) v1 m1)
        as (v2 & m2 & E2 & Hv2 & Hrm2 & K2 & S2 & L2); try done; [by apply Hsg|].
      exists (v2, m2). split; [exact E2|]. cbn [fst snd].
      split; [done|]. split; [by intros r' ->%Hr|]. split; [eapply kernel_eq_trans; [apply S2|done]|].
      split; [by eapply others_same_step|].
      intros k Hkd Hk. apply elem_of_app in Hkd as [Hkd| ->%list_elem_of_singleton].
      * eapply loaded_frame; [by apply HL1| |exact K2|exact S2].
        apply Hin in Hkd. apply Hdj; [lia|lia|done|done].
      * intros y Hy. destruct (L2 y Hy) as [Hp ->]. split; [done|].
        destruct (decide _); [|done]. apply Hk1.
        destruct (Hsg x Hx Hty) as [_ _ _ _ _ Him]. unfold PAGESIZE in Him. lia.
    + exists (v1, m1). unfold load_segment. rewrite decide_True by done. split; [done|].
      split; [done|]. split; [by intros r' ->%Hr|]. split; [done|]. split; [done|]. intros k Hkd Hk.
      apply elem_of_app in Hkd as [Hkd| ->%list_elem_of_singleton]; [by apply HL1|done].
  - cbn [fst snd]. split; [done|]. split; [by intros r E; cbn in E; subst r|]. split; [done|]. split; [done|]. intros k Hk. by apply elem_of_nil in Hk.
  - split; [done|]. split; [apply (Hrm' []); by rewrite app_nil_r|]. split; [done|]. split; [done|]. intros k Hkr. apply HL'. apply elem_of_seqZ. lia.
Qed.

End Theory.

(** The page tables of Pmap.v serve as many pages as they have frames left. *)
Lemma pages_room l : forall v : pages, pages_inv v -> next_frame v + Z.of_nat (length l) <= 2 ^ 20 -> room l v.
Proof.
  induction l as [|p l IH]; intros v Hv Hn; cbn [room length] in *; [done|]. intros x perm m Hu.
  pose proof (pages_alloc_inv p x perm v m Hv) as Hi. pose proof (pi_next v Hv) as Hnx.
  change (alloc_page p x perm (v, m)) with (pages_alloc p x perm (v, m)). revert Hi. unfold pages_alloc.
  destruct (frames v !! (p, x / PAGESIZE)) as [f|] eqn:E.
  - intros Hi. pose proof (pi_range v Hv _ _ E). split; [cbn; unfold MagicNumber; lia|].
    apply IH; [done|cbn [fst snd]; lia].
  - rewrite decide_True by (split; [done|lia]). intros Hi. split; [cbn; unfold MagicNumber; lia|].
    apply IH; [done|cbn [fst snd next_frame]; lia].
Qed.

(** A small image: one segment of 4 bytes at 0x400000c8, followed by 4 zeros. *)
Definition put_bytes (a : Z) (l : list Z) (m : mem) : mem :=
  foldl (fun m' '(i, b) => <[a + i := b]> m') m (zip (seqZ 0 (Z.of_nat (length l))) l).

Definition demo_image : mem :=
  put_bytes 4096 [0x7f; 0x45; 0x4c; 0x46] (put_bytes (4096 + 24) [0xc8; 0; 0; 0x40]
  (put_bytes (4096 + 28) [52; 0; 0; 0; 84; 0; 0; 0]
  (put_bytes (4096 + 44) [1; 0; 40; 0; 2; 0; 1; 0]
  (put_bytes (4096 + 52) [1; 0; 0; 0; 200; 0; 0; 0; 0xc8; 0; 0; 0x40; 0; 0; 0; 0; 4; 0; 0; 0; 8; 0; 0; 0; 5]
  (put_bytes (4096 + 84 + 40 + 4) [3] (put_bytes (4096 + 200) [0xde; 0xad; 0xbe; 0xef] ∅)))))).

Lemma demo_image_ok : image_ok demo_image 4096.
Proof.
  split.
  - by vm_compute.
  - by vm_compute.
  - by vm_compute.
  - by vm_compute.
  - intros k Hk _. change (e_phnum _) with 1 in Hk. assert (k = 0) as -> by lia.
    split; vm_compute; intuition congruence.
  - intros k k' Hk Hk'. change (e_phnum _) with 1 in Hk'. lia.
Qed.

(** * Properties *)
Module ElfProps.



End ElfProps.
