(* ===== verification/Ipc.v ===== *)
(** * Synchronous messages: lib/ipc.c

    A sender links its message block into a queue that is threaded through the
    array [msgBlock]; a receiver looks a block up, copies the message between
    the two address spaces through a bounce buffer and unlinks the block. *)

From S2P Require Import Prelude DList Machine Thread Scheduler KString Printfmt Pmap.

Definition MSG_BUF_SIZE : Z := 100.

(** [recv_cv] and [send_cv] are used by their addresses only ([PRecvCv] and
    [PSendCv]). *)
Record MsgBlock := mk_MsgBlock {
  mb_prev : Z; mb_next : Z;
  mb_send_pid : Z; mb_recv_pid : Z;
  mb_length : Z;
  mb_buffer_addr : Z;
  mb_recv_cv : Z; mb_send_cv : Z;
}.
#[export] Instance MsgBlock_inhabited : Inhabited MsgBlock :=
  populate (mk_MsgBlock 0 0 0 0 0 0 0 0).

Record MsgQueue := mk_MsgQueue { mq_head : Z; mq_tail : Z }.

(** The static data of ipc.c. *)
Record ipc := mk_ipc { msgBlock : gmap Z MsgBlock; msgQueue : MsgQueue; msg_lock : spinlock }.

Definition set_mb_prev (v : Z) (b : MsgBlock) : MsgBlock :=
  mk_MsgBlock v (mb_next b) (mb_send_pid b) (mb_recv_pid b) (mb_length b) (mb_buffer_addr b)
    (mb_recv_cv b) (mb_send_cv b).
Definition set_mb_next (v : Z) (b : MsgBlock) : MsgBlock :=
  mk_MsgBlock (mb_prev b) v (mb_send_pid b) (mb_recv_pid b) (mb_length b) (mb_buffer_addr b)
    (mb_recv_cv b) (mb_send_cv b).
Definition set_mb_msg (recv addr len : Z) (b : MsgBlock) : MsgBlock :=
  mk_MsgBlock (mb_prev b) (mb_next b) (mb_send_pid b) recv len addr (mb_recv_cv b) (mb_send_cv b).

Definition with_block (i : Z) (f : MsgBlock -> MsgBlock) (s : ipc) : ipc :=
  mk_ipc (<[i := f (msgBlock s !!! i)]> (msgBlock s)) (msgQueue s) (msg_lock s).
Definition with_queue (f : MsgQueue -> MsgQueue) (s : ipc) : ipc :=
  mk_ipc (msgBlock s) (f (msgQueue s)) (msg_lock s).
Definition set_msg_lock (l : spinlock) (s : ipc) : ipc := mk_ipc (msgBlock s) (msgQueue s) l.

Definition mb_read {A} (i : Z) (f : MsgBlock -> A) : M ipc A :=
  check_index NUM_IDS i ;; gets (fun s => f (msgBlock s !!! i)).
Definition mb_write (i : Z) (f : MsgBlock -> MsgBlock) : M ipc unit :=
  check_index NUM_IDS i ;; modify (with_block i f).
Definition set_head (v : Z) : M ipc unit := modify (with_queue (fun q => mk_MsgQueue v (mq_tail q))).
Definition set_tail (v : Z) : M ipc unit := modify (with_queue (fun q => mk_MsgQueue (mq_head q) v)).

Definition ipc_init : M ipc unit :=
  zoom msg_lock set_msg_lock spinlock_init ;;
  for_each (seqZ 0 NUM_IDS) (fun i =>
    mb_write i (fun _ => mk_MsgBlock NUM_IDS NUM_IDS i NUM_IDS 0 0 0 0)) ;;
  set_tail NUM_IDS ;; set_head NUM_IDS.

Definition msg_enqueue (send_pid : Z) : M ipc unit :=
  tail ← gets (fun s => mq_tail (msgQueue s));
  if decide (tail = NUM_IDS) then
    mb_write send_pid (set_mb_prev NUM_IDS) ;;
    mb_write send_pid (set_mb_next NUM_IDS) ;;
    set_head send_pid ;; set_tail send_pid
  else
    mb_write tail (set_mb_next send_pid) ;;
    mb_write send_pid (set_mb_prev tail) ;;
    mb_write send_pid (set_mb_next NUM_IDS) ;;
    set_tail send_pid.

Definition msg_remove (send_pid : Z) : M ipc unit :=
  prev ← mb_read send_pid mb_prev;
  next ← mb_read send_pid mb_next;
  (if decide (prev = NUM_IDS) then
     if decide (next = NUM_IDS) then set_tail NUM_IDS ;; set_head NUM_IDS
     else set_head next ;; mb_write next (set_mb_prev NUM_IDS)
   else
     if decide (next = NUM_IDS) then set_tail prev ;; mb_write prev (set_mb_next NUM_IDS)
     else mb_write prev (set_mb_next next) ;; mb_write next (set_mb_prev prev)) ;;
  mb_write send_pid (set_mb_next NUM_IDS) ;;
  mb_write send_pid (set_mb_prev NUM_IDS).

(** [while (pid != NUM_IDS)]; the queue has at most [NUM_IDS] blocks. *)
Definition queue_fuel : nat := 65.

Fixpoint find_sender (fuel : nat) (send_pid pid : Z) : M ipc Z :=
  if decide (pid = NUM_IDS) then mret NUM_IDS
  else
    match fuel with
    | O => fail Hang
    | S fuel =>
        p ← mb_read pid mb_send_pid;
        if decide (p = send_pid) then mret send_pid
        else n ← mb_read pid mb_next; find_sender fuel send_pid n
    end.
Definition msg_getBlockBySendID (send_pid : Z) : M ipc Z :=
  pid ← gets (fun s => mq_head (msgQueue s)); find_sender queue_fuel send_pid pid.

(** The loop body of [msg_getBlockByRecvID] does not advance [pid]. *)
Fixpoint find_receiver (fuel : nat) (recv_pid pid : Z) : M ipc Z :=
  if decide (pid = NUM_IDS) then mret NUM_IDS
  else
    match fuel with
    | O => fail Hang
    | S fuel =>
        p ← mb_read pid mb_recv_pid;
        if decide (p = recv_pid) then mb_read pid mb_send_pid
        else find_receiver fuel recv_pid pid
    end.
Definition msg_getBlockByRecvID (recv_pid : Z) : M ipc Z :=
  pid ← gets (fun s => mq_head (msgQueue s)); find_receiver queue_fuel recv_pid pid.

Section Copy.
Context {V : Type} `{!VmmOps V}.
(** The address of the static bounce buffer *)
Context (msg_buf : Z).

(** The user addresses are ints, converted to [uintptr_t] by the calls. *)
Fixpoint ipc_copy_loop (fuel : nat) (dest_pid dest_user_addr source_pid source_user_addr length : Z) :
    M (V * mem) unit :=
  if decide (length > 0) then
    match fuel with
    | O => fail Hang
    | S fuel =>
        let len := if decide (length < MSG_BUF_SIZE) then length else MSG_BUF_SIZE in
        pt_copyin source_pid (u32 source_user_addr) msg_buf len ;;
        pt_copyout msg_buf dest_pid (u32 dest_user_addr) len ;;
        ipc_copy_loop fuel dest_pid (s32 (dest_user_addr + len)) source_pid
          (s32 (source_user_addr + len)) (length - len)
    end
  else mret tt.

(** Each round copies 100 bytes, but for the last. *)
Definition ipc_copy (dest_pid dest_user_addr source_pid source_user_addr length : Z) :
    M (V * mem) unit :=
  ipc_copy_loop (Z.to_nat (length / MSG_BUF_SIZE + 1)) dest_pid dest_user_addr source_pid
    source_user_addr length.

End Copy.

(** * Theory *)

(** ** The queue as a list *)
Definition mnx (s : ipc) (y : Z) : Z := mb_next (msgBlock s !!! y).
Definition mpv (s : ipc) (y : Z) : Z := mb_prev (msgBlock s !!! y).

Record msg_repr (s : ipc) (l : list Z) : Prop := {
  mr_dlist : dlist NUM_IDS (mnx s) (mpv s) (mq_head (msgQueue s)) (mq_tail (msgQueue s)) l;
  mr_range : forall x, x ∈ l -> 0 <= x < NUM_IDS;
  mr_send : forall x, 0 <= x < NUM_IDS -> mb_send_pid (msgBlock s !!! x) = x;
}.

(** A block up to its links *)
Definition payload (b : MsgBlock) : MsgBlock := set_mb_prev 0 (set_mb_next 0 b).

Definition same_payload (s s' : ipc) : Prop :=
  msg_lock s' = msg_lock s /\ forall y, payload (msgBlock s' !!! y) = payload (msgBlock s !!! y).

Lemma mb_read_ok {A} i (f : MsgBlock -> A) s :
  0 <= i < NUM_IDS -> mb_read i f s = Ok (f (msgBlock s !!! i), s).
Proof. intros H. unfold mb_read. by mrun. Qed.
Lemma mb_write_ok i f s : 0 <= i < NUM_IDS -> mb_write i f s = Ok (tt, with_block i f s).
Proof. intros H. unfold mb_write. by mrun. Qed.

Lemma blk_with_block i f s y :
  msgBlock (with_block i f s) !!! y = if decide (i = y) then f (msgBlock s !!! i) else msgBlock s !!! y.
Proof. apply lookup_total_upd. Qed.
Lemma blk_with_queue f s : msgBlock (with_queue f s) = msgBlock s.
Proof. done. Qed.
Lemma queue_with_block i f s : msgQueue (with_block i f s) = msgQueue s.
Proof. done. Qed.
Lemma queue_with_queue f s : msgQueue (with_queue f s) = f (msgQueue s).
Proof. done. Qed.
#[export] Hint Rewrite blk_with_block blk_with_queue queue_with_block queue_with_queue : ipc.

(** Run the block accesses in the goal. *)
Ltac istep :=
  repeat first
    [ rewrite mb_read_ok by (assumption || lia)
    | rewrite mb_write_ok by (assumption || lia)
    | progress (unfold mbind, M_bind, mret, M_ret, modify, gets, set_head, set_tail)
    | progress cbn beta iota ].

(** Read the blocks of an updated state. *)
Ltac blk := unfold mnx, mpv; autorewrite with ipc; cbn [mq_head mq_tail].

Lemma same_payload_send s s' : same_payload s s' ->
  (forall x, 0 <= x < NUM_IDS -> mb_send_pid (msgBlock s !!! x) = x) ->
  forall x, 0 <= x < NUM_IDS -> mb_send_pid (msgBlock s' !!! x) = x.
Proof.
  intros [_ H] Hs x Hx. specialize (H x). specialize (Hs x Hx).
  apply (f_equal mb_send_pid) in H. cbn in H. congruence.
Qed.

#[export] Instance same_payload_preorder : PreOrder same_payload.
Proof. split; [by split|]. intros x y z [E1 H1] [E2 H2]. split; [congruence|]. intros k. by rewrite H2. Qed.

Lemma same_payload_block i f s :
  (forall b, payload (f b) = payload b) -> same_payload s (with_block i f s).
Proof.
  intros Hf. split; [done|]. intros y. rewrite blk_with_block.
  destruct (decide (i = y)) as [<-|]; [apply Hf|done].
Qed.
Lemma same_payload_queue f s : same_payload s (with_queue f s).
Proof. done. Qed.

(** The operations on the queue keep the payloads. *)
Ltac payloads :=
  repeat first
    [ reflexivity
    | etransitivity; [|apply same_payload_block; reflexivity]
    | etransitivity; [|apply same_payload_queue] ].

Lemma msg_enqueue_spec s l pid :
  msg_repr s l -> 0 <= pid < NUM_IDS -> pid ∉ l ->
  exists s', msg_enqueue pid s = Ok (tt, s') /\ msg_repr s' (l ++ [pid]) /\ same_payload s s'.
Proof.
  intros [Hd Hr Hs] Hp Hn. destruct (dlist_nil_iff _ _ _ _ _ _ Hd) as [_ Ht].
  unfold msg_enqueue. istep.
  assert (forall s', same_payload s s' ->
    dlist NUM_IDS (mnx s') (mpv s') (if decide (mq_tail (msgQueue s) = NUM_IDS) then pid
      else mq_head (msgQueue s)) pid (l ++ [pid]) ->
    mq_head (msgQueue s') = (if decide (mq_tail (msgQueue s) = NUM_IDS) then pid
      else mq_head (msgQueue s)) -> mq_tail (msgQueue s') = pid -> msg_repr s' (l ++ [pid])) as Hfin.
  { intros s' Hsp Hd' Eh Et. split; [by rewrite Eh, Et|..|by eapply same_payload_send].
    intros x [?|?%list_elem_of_singleton]%elem_of_app; subst; auto. }
  destruct (decide (mq_tail (msgQueue s) = NUM_IDS)) as [E|E].
  - assert (l = []) as -> by by apply Ht. istep. eexists. split; [reflexivity|].
    match goal with |- msg_repr ?x _ /\ _ => assert (same_payload s x) as Hsp by payloads end.
    split; [|exact Hsp]. apply Hfin; [exact Hsp| |reflexivity|reflexivity].
    pose proof (dlist_enqueue NUM_IDS (mnx s) (mpv s)) as HE. rewrite E in Hd.
    eapply HE in Hd; [rewrite decide_True in Hd by done; exact Hd|done|lia| | |].
    + intros y Hy. by apply elem_of_nil in Hy.
    + blk. by rewrite decide_True.
    + blk. by rewrite !decide_True.
  - assert (mq_tail (msgQueue s) ∈ l) as Hin.
    { rewrite (dl_tail _ _ _ _ _ _ Hd). apply last_or_in. intros ->. by apply E, Ht. }
    assert (mq_tail (msgQueue s) <> pid) as Hqp by congruence.
    pose proof (Hr _ Hin) as Hqt. istep. eexists. split; [reflexivity|].
    match goal with |- msg_repr ?x _ /\ _ => assert (same_payload s x) as Hsp by payloads end.
    split; [|exact Hsp]. apply Hfin; [exact Hsp| |reflexivity|reflexivity].
    pose proof (dlist_enqueue NUM_IDS (mnx s) (mpv s)) as HE.
    eapply HE in Hd; [rewrite decide_False in Hd by done; exact Hd|done|lia| | |].
    + intros y Hy. assert (pid <> y) by congruence. blk.
      rewrite !(decide_False (P := pid = y)) by done.
      destruct (decide (mq_tail (msgQueue s) = y)) as [<-|Hy2].
      * by rewrite decide_True.
      * by rewrite decide_False by congruence.
    + blk. by rewrite decide_True.
    + blk. by rewrite !(decide_True (P := pid = pid)).
Qed.

Lemma msg_remove_spec s l1 pid l2 :
  msg_repr s (l1 ++ pid :: l2) ->
  exists s', msg_remove pid s = Ok (tt, s') /\ msg_repr s' (l1 ++ l2) /\ same_payload s s'.
Proof.
  intros [Hd Hr Hs].
  assert (0 <= pid < NUM_IDS) as Hp by (apply Hr, elem_of_app; right; by left).
  pose proof (seg_links _ _ _ _ _ _ _ (dl_seg _ _ _ _ _ _ Hd)) as [Ep En].
  pose proof (dl_nodup _ _ _ _ _ _ Hd) as Hnd.
  assert (forall y, y ∈ l1 ++ l2 -> pid <> y) as Hne.
  { intros y Hy ->. apply NoDup_app in Hnd as (_ & H1 & H2). apply NoDup_cons in H2 as [H2 _].
    apply elem_of_app in Hy as [Hy|Hy]; [|done]. apply (H1 y Hy). by left. }
  assert (forall z, z = mpv s pid \/ z = mnx s pid -> z <> NUM_IDS -> 0 <= z < NUM_IDS /\ z <> pid) as Hlk.
  { assert (forall z, z ∈ l1 ++ l2 -> 0 <= z < NUM_IDS /\ z <> pid) as Hin.
    { intros z Hz. split; [|by apply not_eq_sym, Hne]. apply Hr.
      rewrite elem_of_app in Hz |- *. rewrite elem_of_cons. tauto. }
    intros z [->| ->] Hz; apply Hin, elem_of_app.
    - left. rewrite Ep in *. apply last_or_in. by intros ->.
    - right. rewrite En in *. apply hd_or_in. by intros ->. }
  assert (forall s', same_payload s s' ->
    (forall y, y ∈ l1 ++ l2 -> mnx s' y = (if decide (y = mpv s pid) then mnx s pid else mnx s y)
       /\ mpv s' y = (if decide (y = mnx s pid) then mpv s pid else mpv s y)) ->
    mq_head (msgQueue s') = (if decide (mpv s pid = NUM_IDS) then mnx s pid else mq_head (msgQueue s)) ->
    mq_tail (msgQueue s') = (if decide (mnx s pid = NUM_IDS) then mpv s pid else mq_tail (msgQueue s)) ->
    msg_repr s' (l1 ++ l2)) as Hfin.
  { intros s' Hsp Hl Eh Et. split; [|..|by eapply same_payload_send].
    - rewrite Eh, Et. by apply (dlist_remove _ (mnx s) (mpv s)).
    - intros x Hx. apply Hr. rewrite elem_of_app in Hx |- *. rewrite elem_of_cons. tauto. }
  assert (forall y, y ∈ l1 ++ l2 -> y <> NUM_IDS) as Hnn.
  { intros y Hy ->. assert (NUM_IDS ∈ l1 ++ pid :: l2) as H; [|specialize (Hr _ H); lia].
    rewrite elem_of_app in Hy |- *. rewrite elem_of_cons. tauto. }
  clear Hr Hd Hnd Ep En.
  unfold msg_remove. istep. fold (mpv s pid) (mnx s pid).
  destruct (decide (mpv s pid = NUM_IDS)) as [E1|E1];
    destruct (decide (mnx s pid = NUM_IDS)) as [E2|E2];
    try destruct (Hlk (mpv s pid) (or_introl eq_refl) E1) as [? ?];
    try destruct (Hlk (mnx s pid) (or_intror eq_refl) E2) as [? ?]; istep;
    (eexists; split; [reflexivity|];
     match goal with |- msg_repr ?x _ /\ _ => assert (same_payload s x) as Hsp by payloads end;
     split; [|exact Hsp]; apply Hfin; [exact Hsp| | |];
     [intros y Hy; pose proof (Hne y Hy); pose proof (Hnn y Hy); blk;
      repeat (rewrite (decide_False (P := pid = y)) by done);
      clear Hfin Hlk Hsp; unfold mnx, mpv in *; repeat case_decide; cbn; split; congruence
     |cbn; congruence|cbn; congruence]).
Qed.

Lemma find_sender_spec s l pid :
  msg_repr s l -> forall r d fuel, l = d ++ r -> (length r < fuel)%nat ->
  find_sender fuel pid (hd_or NUM_IDS r) s = Ok (if decide (pid ∈ r) then pid else NUM_IDS, s).
Proof.
  intros [Hd Hr Hs] r. induction r as [|x r IH]; intros d fuel El Hf; destruct fuel as [|fuel];
    cbn [length] in Hf; try lia; cbn [hd_or find_sender].
  - rewrite decide_True by done. rewrite decide_False; [done|]. apply not_elem_of_nil.
  - assert (x ∈ l) as Hx by (rewrite El, elem_of_app; right; by left).
    pose proof (Hr x Hx) as Hxr. rewrite decide_False by lia. istep. rewrite (Hs x Hxr).
    destruct (decide (x = pid)) as [->|Hne].
    + rewrite decide_True; [done|by left].
    + istep. pose proof (dl_seg _ _ _ _ _ _ Hd) as Hseg. rewrite El in Hseg.
      apply seg_links in Hseg as [_ En]. fold (mnx s x). rewrite En.
      rewrite (IH (d ++ [x])); [|by rewrite <- app_assoc|lia].
      do 2 f_equal. apply decide_ext. rewrite elem_of_cons. split; [tauto|]. intros [->|]; done.
Qed.

Lemma msg_getBlockBySendID_spec s l pid :
  msg_repr s l -> msg_getBlockBySendID pid s = Ok (if decide (pid ∈ l) then pid else NUM_IDS, s).
Proof.
  intros Hm. pose proof Hm as [Hd Hr _]. unfold msg_getBlockBySendID. istep.
  rewrite (dl_head _ _ _ _ _ _ Hd). apply (find_sender_spec s l pid Hm l []); [done|].
  pose proof (nodup_range_length NUM_IDS l ltac:(done) (dl_nodup _ _ _ _ _ _ Hd) Hr).
  unfold NUM_IDS, queue_fuel in *. lia.
Qed.

(** A non-matching block at the head stops [msg_getBlockByRecvID] for good. *)
Lemma find_receiver_hangs s recv x fuel :
  0 <= x < NUM_IDS -> mb_recv_pid (msgBlock s !!! x) <> recv -> find_receiver fuel recv x s = Hang.
Proof.
  intros Hx Hne. induction fuel as [|fuel IH]; cbn [find_receiver]; rewrite decide_False by lia; [done|].
  istep. by rewrite decide_False.
Qed.

Lemma ipc_init_spec s :
  exists s', ipc_init s = Ok (tt, s') /\ msg_repr s' [] /\ lock (msg_lock s') = 0.
Proof.
  unfold ipc_init. rewrite (bind_ok _ _ s tt (set_msg_lock free_lock s)) by done.
  destruct (for_each_ind (fun d s => (forall x, x ∈ d -> mb_send_pid (msgBlock s !!! x) = x)
      /\ lock (msg_lock s) = 0)
    (fun i => mb_write i (fun _ => mk_MsgBlock NUM_IDS NUM_IDS i NUM_IDS 0 0 0 0)) (seqZ 0 NUM_IDS))
    with (s := set_msg_lock free_lock s) as (s1 & E & H & Hl).
  - intros d x r s1 Ed [Hd Hl]. destruct (seqZ_split NUM_IDS d x r Ed) as [Hx _].
    rewrite mb_write_ok by done. eexists. split; [reflexivity|]. split; [|exact Hl].
    intros y Hy. autorewrite with ipc. destruct (decide (x = y)) as [->|Hne]; [done|].
    apply elem_of_app in Hy as [Hy|Hy%list_elem_of_singleton]; [by apply Hd|congruence].
  - split; [|done]. intros x Hx. by apply elem_of_nil in Hx.
  - rewrite (bind_ok _ _ _ _ _ E). istep. eexists. split; [reflexivity|]. split; [|exact Hl]. split.
    + apply dlist_empty.
    + intros x Hx. by apply elem_of_nil in Hx.
    + intros x Hx. apply H. apply elem_of_seqZ. lia.
Qed.

(** ** Copying between processes *)
Lemma u32_s32 z : u32 (s32 z) = u32 z.
Proof.
  unfold s32. pose proof (u32_range z). destruct (Z.ltb_spec (u32 z) 2147483648).
  - apply u32_idemp.
  - unfold u32 at 1. rewrite <- (Z.mul_1_l W32) at 1.
    replace (u32 z - 1 * W32) with (u32 z + (-1) * W32) by lia. rewrite Z_mod_plus_full.
    rewrite Z.mod_small; [done|done].
Qed.

Lemma u32_add_small a n : 0 <= n -> u32 a + n < W32 -> u32 (a + n) = u32 a + n.
Proof.
  intros Hn H. pose proof (u32_range a). rewrite <- (u32_id (u32 a + n)) by lia.
  unfold u32 at 1 2 3. by rewrite Zplus_mod_idemp_l.
Qed.

Section CopyTheory.
Context {V : Type} `{!VmmOps V} `{!VmmLaws V}.
Context (msg_buf : Z) (Hbuf0 : 0 <= msg_buf) (Hbuf : msg_buf + MSG_BUF_SIZE <= VM_USERLO).

Definition legal (pid a n : Z) (v : V) : Prop :=
  0 < pid < NUM_IDS /\ VM_USERLO <= a /\ a + n <= VM_USERHI /\ forall i, 0 <= i < n -> present pid (a + i) v.

(** [n] bytes at [a] of [p] arrive at [b] of [q]; nothing else changes. *)
Record transferred (q b p a n : Z) (v : V) (m : mem) (v' : V) (m' : mem) : Prop := {
  tr_entries : forall pid va, present pid va v ->
    get_ptbl_entry_by_va pid va v' = get_ptbl_entry_by_va pid va v;
  tr_data : forall i, 0 <= i < n -> m' !!! phys q (b + i) v = m !!! phys p (a + i) v;
  tr_user : forall pid va, present pid va v -> ~ (pid = q /\ b <= va < b + n) ->
    m' !!! phys pid va v = m !!! phys pid va v;
  tr_kernel : forall x, x < VM_USERLO -> ~ (msg_buf <= x < msg_buf + MSG_BUF_SIZE) ->
    m' !!! x = m !!! x;
}.

Lemma copy_round q b p a n v m :
  vm_inv v -> 0 <= n <= MSG_BUF_SIZE -> legal p a n v -> legal q b n v ->
  exists v' m',
    (pt_copyin p a msg_buf n ;; pt_copyout msg_buf q b n) (v, m) = Ok (n, (v', m'))
    /\ vm_inv v' /\ transferred q b p a n v m v' m'.
Proof.
  intros Hv Hn (Hpid & Ha0 & Ha1 & Hap) (Hqid & Hb0 & Hb1 & Hbp).
  destruct (pt_copyin_spec p a msg_buf n v m) as (v1 & m1 & E1 & Hv1 & K1 & R1); try done; try lia.
  destruct (pt_copyout_spec msg_buf q b n v1 m1) as (v2 & m2 & E2 & Hv2 & K2 & W2); try done; try lia.
  rewrite (bind_ok _ _ _ _ _ E1). exists v2, m2. split; [done|]. split; [done|].
  assert (forall pid va, present pid va v -> present pid va v1) as P1
    by (intros; by eapply kept_present).
  assert (forall pid va, present pid va v -> phys pid va v1 = phys pid va v) as F1
    by (intros; by eapply kept_phys).
  assert (forall pid va, present pid va v -> phys pid va v2 = phys pid va v) as F2.
  { intros pid va Hp. rewrite (kept_phys _ _ _ _ _ _ _ K2) by auto. by apply F1. }
  destruct R1 as (R1 & R2 & R3); [intros; apply P1; auto|].
  destruct W2 as (W1 & W2 & W3); [intros; eapply kept_present; [exact K2|auto]|].
  split.
  - intros pid va Hp. rewrite K2, K1; [done|by left|left; auto].
  - intros i Hi. rewrite <- F2, W1, R1, F1, R3 by auto. done.
  - intros pid va Hp Hne. rewrite <- F1 by done. rewrite W3, F1 by auto. by apply R3.
  - intros x Hx Hne. rewrite W2 by done. apply R2; [done|lia].
Qed.

Lemma transferred_trans q b p a n k v m v1 m1 v2 m2 :
  0 <= k <= n -> (forall i, 0 <= i < n -> present p (a + i) v) ->
  (forall i, 0 <= i < n -> present q (b + i) v) ->
  (p <> q \/ a + n <= b \/ b + n <= a) ->
  transferred q b p a k v m v1 m1 ->
  transferred q (b + k) p (a + k) (n - k) v1 m1 v2 m2 ->
  transferred q b p a n v m v2 m2.
Proof.
  intros Hk Hp Hq Hdis [E1 D1 U1 K1] [E2 D2 U2 K2].
  assert (forall pid va, present pid va v -> present pid va v1) as P1.
  { intros pid va H. by rewrite (present_entry _ _ _ _ (E1 pid va H)). }
  assert (forall pid va, present pid va v -> phys pid va v1 = phys pid va v) as F1.
  { intros pid va H. by apply phys_entry, E1. }
  split.
  - intros pid va H. rewrite E2, E1 by auto. done.
  - intros i Hi. destruct (decide (i < k)) as [Hik|Hik].
    + rewrite <- (D1 i) by lia. rewrite <- F1 by auto. apply U2; [auto|lia].
    + specialize (D2 (i - k) ltac:(lia)).
      replace (b + k + (i - k)) with (b + i) in D2 by lia.
      replace (a + k + (i - k)) with (a + i) in D2 by lia.
      rewrite !F1 in D2 by auto. rewrite D2. apply U1; [auto|]. intros [-> Hc]. lia.
  - intros pid va H Hn. rewrite <- F1 by done. rewrite U2; [|auto|lia]. rewrite F1 by done.
    apply U1; [done|lia].
  - intros x Hx Hn. rewrite K2 by done. by apply K1.
Qed.

Lemma ipc_copy_loop_spec q p n fuel : forall b a v m,
  vm_inv v -> 0 <= n -> n <= MSG_BUF_SIZE * Z.of_nat fuel ->
  legal p (u32 a) n v -> legal q (u32 b) n v ->
  (p <> q \/ u32 a + n <= u32 b \/ u32 b + n <= u32 a) ->
  exists v' m', ipc_copy_loop msg_buf fuel q b p a n (v, m) = Ok (tt, (v', m'))
    /\ vm_inv v' /\ transferred q (u32 b) p (u32 a) n v m v' m'.
Proof.
  revert n. induction fuel as [|fuel IH]; intros n b a v m Hv Hn Hf Ha Hb Hd; cbn [ipc_copy_loop].
  { rewrite decide_False by lia. exists v, m. assert (n = 0) as -> by lia. repeat split; intros; try done; lia. }
  destruct (decide (n > 0)) as [Hpos|Hz].
  2: { exists v, m. assert (n = 0) as -> by lia. repeat split; intros; try done; lia. }
  set (k := if decide (n < MSG_BUF_SIZE) then n else MSG_BUF_SIZE).
  assert (0 < k <= n /\ k <= MSG_BUF_SIZE /\ n - k <= MSG_BUF_SIZE * Z.of_nat fuel) as (Hk & Hkm & Hkf).
  { unfold k. case_decide; unfold MSG_BUF_SIZE in *; lia. } clearbody k.
  destruct Ha as (Hpid & Ha0 & Ha1 & Hap). destruct Hb as (Hqid & Hb0 & Hb1 & Hbp).
  destruct (copy_round q (u32 b) p (u32 a) k v m) as (v1 & m1 & E1 & Hv1 & T1); try done.
  { lia. } { split_and!; [lia|lia|lia|lia|intros; apply Hap; lia]. } { split_and!; [lia|lia|lia|lia|intros; apply Hbp; lia]. }
  assert (forall x, x = a \/ x = b -> u32 (s32 (x + k)) = u32 x + k) as Hadv.
  { intros x Hx. rewrite u32_s32. apply u32_add_small; [lia|].
    unfold VM_USERHI, W32 in *. destruct Hx; subst; lia. }
  apply bind_inv in E1 as (r1 & s1 & E0 & E1). rewrite (bind_ok _ _ _ _ _ E0), (bind_ok _ _ _ _ _ E1).
  assert (forall pid va, present pid va v -> present pid va v1) as P1.
  { intros pid va H. by rewrite (present_entry _ _ _ _ (tr_entries _ _ _ _ _ _ _ _ _ T1 pid va H)). }
  destruct (IH (n - k) (s32 (b + k)) (s32 (a + k)) v1 m1) as (v2 & m2 & E2 & Hv2 & T2);
    rewrite ?Hadv by tauto; try done; try lia.
  { split_and!; [lia|lia|lia|lia|intros; rewrite <- Z.add_assoc; apply P1, Hap; lia]. }
  { split_and!; [lia|lia|lia|lia|intros; rewrite <- Z.add_assoc; apply P1, Hbp; lia]. }
  exists v2, m2. split; [exact E2|]. split; [done|]. rewrite !Hadv in T2 by tauto.
  eapply transferred_trans; [|exact Hap|exact Hbp|exact Hd|exact T1|exact T2]. lia.
Qed.

End CopyTheory.

(** ** Sequences of queue operations, and a list as their specification *)
Inductive msg_op := MEnqueue (pid : Z) | MRemove (pid : Z).

Definition run_msg_op (o : msg_op) : M ipc unit :=
  match o with MEnqueue p => msg_enqueue p | MRemove p => msg_remove p end.
Fixpoint run_msg_ops (os : list msg_op) : M ipc unit :=
  match os with [] => mret tt | o :: os => run_msg_op o ;; run_msg_ops os end.

(** A sender is queued at most once, and only a queued one is removed. *)
Definition spec_msg_op (o : msg_op) (l : list Z) : option (list Z) :=
  match o with
  | MEnqueue p => if decide (0 <= p < NUM_IDS /\ p ∉ l) then Some (l ++ [p]) else None
  | MRemove p => if decide (p ∈ l) then Some (filter (fun x => x <> p) l) else None
  end.
Fixpoint spec_msg_ops (os : list msg_op) (l : list Z) : option (list Z) :=
  match os with [] => Some l | o :: os => spec_msg_op o l ≫= spec_msg_ops os end.

Lemma filter_ne_split (l1 l2 : list Z) p :
  NoDup (l1 ++ p :: l2) -> filter (fun x => x <> p) (l1 ++ p :: l2) = l1 ++ l2.
Proof.
  intros Hnd. apply NoDup_app in Hnd as (_ & H1 & H2). apply NoDup_cons in H2 as [H2 _].
  assert (forall l : list Z, p ∉ l -> filter (fun x : Z => x <> p) l = l) as Hid.
  { induction l as [|x l IH]; intros Hn; [done|]. rewrite filter_cons, elem_of_cons in *.
    rewrite decide_True by (intros ->; tauto). f_equal. tauto. }
  rewrite filter_app, filter_cons, decide_False by tauto.
  rewrite !Hid; [done|done|]. intros Hp. apply (H1 p Hp). by left.
Qed.

Lemma run_msg_op_spec o l l' s :
  msg_repr s l -> spec_msg_op o l = Some l' ->
  exists s', run_msg_op o s = Ok (tt, s') /\ msg_repr s' l' /\ same_payload s s'.
Proof.
  intros Hm. destruct o as [p|p]; cbn; case_decide as Hd; try done; intros [= <-].
  - destruct Hd as [Hp Hn]. by apply msg_enqueue_spec.
  - apply list_elem_of_split in Hd as (l1 & l2 & ->).
    rewrite filter_ne_split by apply (dl_nodup _ _ _ _ _ _ (mr_dlist _ _ Hm)).
    by apply msg_remove_spec.
Qed.

Lemma run_msg_ops_spec os : forall l l' s,
  msg_repr s l -> spec_msg_ops os l = Some l' ->
  exists s', run_msg_ops os s = Ok (tt, s') /\ msg_repr s' l' /\ same_payload s s'.
Proof.
  induction os as [|o os IH]; intros l l' s Hm; cbn [spec_msg_ops run_msg_ops].
  - intros [= <-]. by exists s.
  - intros (l1 & E1 & E2)%bind_Some.
    destruct (run_msg_op_spec o l l1 s Hm E1) as (s1 & R1 & M1 & S1).
    destruct (IH l1 l' s1 M1 E2) as (s2 & R2 & M2 & S2).
    exists s2. rewrite (bind_ok _ _ _ _ _ R1). split_and!; [done..|by etransitivity].
Qed.

(** * Properties *)
Module IpcProps.

(** The message queue is a FIFO list of senders.  After
    [ipc_init], any sequence of enqueues and removals that a list of distinct
    senders admits runs without error and leaves the linked structure
    representing that list: the lookup by sender answers membership in it, and
    the messages of the blocks are untouched. *)
Theorem msg_queue_refines_list s0 os l :
  spec_msg_ops os [] = Some l ->
  exists s1 s, ipc_init s0 = Ok (tt, s1) /\ run_msg_ops os s1 = Ok (tt, s)
    /\ mq_head (msgQueue s) = hd_or NUM_IDS l /\ mq_tail (msgQueue s) = last_or NUM_IDS l
    /\ (forall p, msg_getBlockBySendID p s = Ok (if decide (p ∈ l) then p else NUM_IDS, s))
    /\ (forall p, payload (msgBlock s !!! p) = payload (msgBlock s1 !!! p)).
Proof.
  intros Hos. destruct (ipc_init_spec s0) as (s1 & E1 & M1 & _).
  destruct (run_msg_ops_spec os [] l s1 M1 Hos) as (s & E & Ms & Sp).
  exists s1, s. split_and!; [done|done|apply Ms|apply Ms| |apply Sp].
  intros p. by apply msg_getBlockBySendID_spec.
Qed.

Lemma msg_queue_refines_list_witness :
  let s0 := mk_ipc ∅ (mk_MsgQueue 0 0) free_lock in
  exists s1 s, ipc_init s0 = Ok (tt, s1)
    /\ run_msg_ops [MEnqueue 3; MEnqueue 5; MEnqueue 9; MRemove 5] s1 = Ok (tt, s)
    /\ msg_getBlockBySendID 9 s = Ok (9, s) /\ msg_getBlockBySendID 5 s = Ok (NUM_IDS, s).
Proof.
  intros s0.
  destruct (msg_queue_refines_list s0 [MEnqueue 3; MEnqueue 5; MEnqueue 9; MRemove 5] [3; 9]
              ltac:(reflexivity)) as (s1 & s & E1 & E & _ & _ & H & _).
  exists s1, s. split; [exact E1|]. split; [exact E|]. split; [exact (H 9)|exact (H 5)].
Defined.

(** [ipc_copy] transfers a message between address spaces.
    For every page-table implementation satisfying the interface, and mapped,
    non-overlapping legal ranges, the copy in 100-byte chunks returns; the
    receiver's bytes are the sender's, and nothing else changes, in the kernel
    (but for the bounce buffer) or in any process. *)
Theorem ipc_copy_transfers `{!VmmOps V} `{!VmmLaws V} (v : V) (m : mem)
    msg_buf dest_pid dest source_pid source len :
  vm_inv v -> 0 <= msg_buf -> msg_buf + MSG_BUF_SIZE <= VM_USERLO -> 0 <= len ->
  legal source_pid (u32 source) len v -> legal dest_pid (u32 dest) len v ->
  (source_pid <> dest_pid \/ u32 source + len <= u32 dest \/ u32 dest + len <= u32 source) ->
  exists v' m', ipc_copy msg_buf dest_pid dest source_pid source len (v, m) = Ok (tt, (v', m'))
    /\ vm_inv v' /\ transferred msg_buf dest_pid (u32 dest) source_pid (u32 source) len v m v' m'.
Proof.
  intros Hv Hb0 Hb Hl Hs Hd Hdis. unfold ipc_copy.
  apply (ipc_copy_loop_spec msg_buf Hb0 Hb); try done.
  unfold MSG_BUF_SIZE. rewrite Z2Nat.id by (assert (0 <= len / 100) by (apply Z.div_pos; lia); lia).
  pose proof (Z.div_mod len 100). pose proof (Z.mod_pos_bound len 100). lia.
Qed.

(** 150 bytes, two rounds, between two processes. *)
Definition two_pages : pages :=
  mk_pages {[(1, 0x40000) := 0x40000; (2, 0x50000) := 0x40001]} 0x40002.

Lemma two_pages_inv : pages_inv two_pages.
Proof.
  split; cbn [two_pages frames next_frame].
  - vm_compute. intuition congruence.
  - intros k f [[<- <-]|[_ [<- <-]%lookup_singleton_Some]]%lookup_insert_Some;
      vm_compute; intuition congruence.
  - intros k k' f [[<- <-]|[_ [<- <-]%lookup_singleton_Some]]%lookup_insert_Some
      [[<- E]|[_ [<- E]%lookup_singleton_Some]]%lookup_insert_Some; congruence.
Qed.

Lemma ipc_copy_transfers_witness :
  let m : mem := {[0x40000000 + 120 := 7]} in
  exists v' m', ipc_copy 1000 2 0x50000000 1 0x40000000 150 (two_pages, m) = Ok (tt, (v', m'))
    /\ m' !!! (0x40001000 + 120) = 7.
Proof.
  intros m.
  assert (forall pid q i, (pid = 1 /\ q = 0x40000) \/ (pid = 2 /\ q = 0x50000) -> 0 <= i < 150 ->
            present (V := pages) pid (q * 4096 + i) two_pages) as Hp.
  { intros pid q i H Hi. assert (user_va pid (q * 4096 + i)) as Hu.
    { destruct H as [[-> ->]|[-> ->]]; unfold user_va, NUM_IDS, VM_USERLO, VM_USERHI; lia. }
    split; [done|]. cbn. unfold pages_entry. rewrite decide_True by done.
    replace ((q * 4096 + i) / PAGESIZE) with q
      by (unfold PAGESIZE; apply (Z.div_unique _ 4096 q i); lia).
    destruct H as [[-> ->]|[-> ->]]; vm_compute; discriminate. }
  destruct (ipc_copy_transfers two_pages m 1000 2 0x50000000 1 0x40000000 150)
    as (v' & m' & E & _ & T); [exact two_pages_inv|lia|vm_compute; discriminate|lia| | |left; lia|].
  - split; [unfold NUM_IDS; lia|]. split; [vm_compute; discriminate|]. split; [vm_compute; discriminate|].
    intros i Hi. apply (Hp 1 0x40000); [by left|done].
  - split; [unfold NUM_IDS; lia|]. split; [vm_compute; discriminate|]. split; [vm_compute; discriminate|].
    intros i Hi. apply (Hp 2 0x50000); [by right|done].
  - exists v', m'. split; [exact E|]. apply (tr_data _ _ _ _ _ _ _ _ _ _ T 120). lia.
Defined.

(** A lookup by receiver never returns when the first queued
    message is for someone else, whatever follows it in the queue: no number
    of iterations ends the loop, whose body does not advance. *)
Theorem lookup_by_receiver_hangs s x l recv fuel :
  msg_repr s (x :: l) -> mb_recv_pid (msgBlock s !!! x) <> recv ->
  find_receiver fuel recv (mq_head (msgQueue s)) s = Hang /\ msg_getBlockByRecvID recv s = Hang.
Proof.
  intros [Hd Hr _] Hne. pose proof (dl_head _ _ _ _ _ _ Hd) as Eh. cbn in Eh.
  assert (0 <= x < NUM_IDS) as Hx by (apply Hr; by left).
  unfold msg_getBlockByRecvID. istep. rewrite Eh. split; by apply find_receiver_hangs.
Qed.

Lemma lookup_by_receiver_hangs_witness :
  exists s1 s, ipc_init (mk_ipc ∅ (mk_MsgQueue 0 0) free_lock) = Ok (tt, s1)
    /\ run_msg_ops [MEnqueue 3; MEnqueue 5] s1 = Ok (tt, s) /\ msg_getBlockByRecvID 7 s = Hang.
Proof.
  destruct (ipc_init_spec (mk_ipc ∅ (mk_MsgQueue 0 0) free_lock)) as (s1 & E1 & M1 & _).
  destruct (run_msg_ops_spec [MEnqueue 3; MEnqueue 5] [] [3; 5] s1 M1 ltac:(reflexivity))
    as (s & E & Ms & Sp).
  exists s1, s. split; [exact E1|]. split; [exact E|].
  apply (lookup_by_receiver_hangs s 3 [5] 7 0); [exact Ms|].
  destruct Sp as [_ Hp]. specialize (Hp 3). apply (f_equal mb_recv_pid) in Hp. cbn in Hp. rewrite Hp.
  pose proof (f_equal (fun r => match r with Ok (_, s) => mb_recv_pid (msgBlock s !!! 3) | _ => 7 end) E1)
    as H1. cbv beta iota in H1. rewrite <- H1. vm_compute. discriminate.
Defined.

End IpcProps.
