(* ===== verification/Syscall.v ===== *)
(** * System calls: trap/TSyscallArg, trap/TSyscall, proc/PProc

    A handler takes the trap frame of the calling process and returns the
    changed one.  Arguments come in eax, ebx, ecx, edx, esi, edi and results go
    back in eax (the error number) and ebx.

    A handler that blocks is cut at the switch, as in WaitObj: it returns
    either the frame to go back to user mode with, or what it needs to continue
    when the process runs again. *)

From S2P Require Import Prelude DList Machine Thread Scheduler WaitObj WaitSys PMM KString Bytes Printfmt Pmap Elf Ipc.

(** ** lib/trap.h *)
Record pushregs := mk_pushregs {
  edi : Z; esi : Z; ebp : Z; oesp : Z; ebx : Z; edx : Z; ecx : Z; eax : Z;
}.
Record tf_t := mk_tf {
  tf_regs : pushregs;
  tf_es : Z; tf_ds : Z;
  tf_trapno : Z; tf_err : Z;
  tf_eip : Z; tf_cs : Z; tf_eflags : Z;
  tf_esp : Z; tf_ss : Z;
}.
#[export] Instance tf_inhabited : Inhabited tf_t :=
  populate (mk_tf (mk_pushregs 0 0 0 0 0 0 0 0) 0 0 0 0 0 0 0 0 0).

Definition FL_IF : Z := 0x200.

Definition with_regs (f : pushregs -> pushregs) (t : tf_t) : tf_t :=
  mk_tf (f (tf_regs t)) (tf_es t) (tf_ds t) (tf_trapno t) (tf_err t) (tf_eip t) (tf_cs t)
    (tf_eflags t) (tf_esp t) (tf_ss t).
Definition set_eip_esp (eip esp : Z) (t : tf_t) : tf_t :=
  mk_tf (tf_regs t) (tf_es t) (tf_ds t) (tf_trapno t) (tf_err t) eip (tf_cs t) (tf_eflags t) esp
    (tf_ss t).

(** ** TSyscallArg.c *)
Definition syscall_get_arg1 (tf : tf_t) : Z := eax (tf_regs tf).
Definition syscall_get_arg2 (tf : tf_t) : Z := ebx (tf_regs tf).
Definition syscall_get_arg3 (tf : tf_t) : Z := ecx (tf_regs tf).
Definition syscall_get_arg4 (tf : tf_t) : Z := edx (tf_regs tf).
Definition syscall_get_arg5 (tf : tf_t) : Z := esi (tf_regs tf).
Definition syscall_get_arg6 (tf : tf_t) : Z := edi (tf_regs tf).

Definition syscall_set_errno (tf : tf_t) (errno : Z) : tf_t := with_regs (fun r =>
  mk_pushregs (edi r) (esi r) (ebp r) (oesp r) (ebx r) (edx r) (ecx r) errno) tf.
Definition syscall_set_retval1 (tf : tf_t) (retval : Z) : tf_t := with_regs (fun r =>
  mk_pushregs (edi r) (esi r) (ebp r) (oesp r) retval (edx r) (ecx r) (eax r)) tf.
Definition syscall_set_retval2 (tf : tf_t) (retval : Z) : tf_t := with_regs (fun r =>
  mk_pushregs (edi r) (esi r) (ebp r) (oesp r) (ebx r) (edx r) retval (eax r)) tf.
Definition syscall_set_retval3 (tf : tf_t) (retval : Z) : tf_t := with_regs (fun r =>
  mk_pushregs (edi r) (esi r) (ebp r) (oesp r) (ebx r) retval (ecx r) (eax r)) tf.
Definition syscall_set_retval4 (tf : tf_t) (retval : Z) : tf_t := with_regs (fun r =>
  mk_pushregs (edi r) retval (ebp r) (oesp r) (ebx r) (edx r) (ecx r) (eax r)) tf.
Definition syscall_set_retval5 (tf : tf_t) (retval : Z) : tf_t := with_regs (fun r =>
  mk_pushregs retval (esi r) (ebp r) (oesp r) (ebx r) (edx r) (ecx r) (eax r)) tf.

(** Errno and first result at once, a frequent end of a handler *)
Definition set_result (tf : tf_t) (errno retval : Z) : tf_t :=
  syscall_set_retval1 (syscall_set_errno tf errno) retval.

(** ** lib/syscall.h *)
Inductive syscall_nr :=
| SYS_puts | SYS_spawn | SYS_yield | SYS_produce | SYS_consume
| SYS_open | SYS_close | SYS_read | SYS_write | SYS_mkdir | SYS_chdir | SYS_link | SYS_unlink | SYS_stat
| SYS_sync_send | SYS_sync_recv
| SYS_is_dir | SYS_ls | SYS_mv | SYS_rm | SYS_pwd | SYS_cp | SYS_cat | SYS_touch | SYS_readline
| SYS_sigaction | SYS_kill | SYS_pause | SYS_sigreturn
| SYS_waitobj_create | SYS_waitobj_add | SYS_waitobj_wait | SYS_waitobj_signal.

(** In the order of the enumeration: a call number is an index into the list. *)
Definition syscall_nrs : list syscall_nr :=
  [SYS_puts; SYS_spawn; SYS_yield; SYS_produce; SYS_consume;
   SYS_open; SYS_close; SYS_read; SYS_write; SYS_mkdir; SYS_chdir; SYS_link; SYS_unlink; SYS_stat;
   SYS_sync_send; SYS_sync_recv;
   SYS_is_dir; SYS_ls; SYS_mv; SYS_rm; SYS_pwd; SYS_cp; SYS_cat; SYS_touch; SYS_readline;
   SYS_sigaction; SYS_kill; SYS_pause; SYS_sigreturn;
   SYS_waitobj_create; SYS_waitobj_add; SYS_waitobj_wait; SYS_waitobj_signal].

#[export] Instance syscall_nr_eq_dec : EqDecision syscall_nr.
Proof. solve_decision. Defined.

Definition nr_of (c : syscall_nr) : Z :=
  match list_find (fun d => d = c) syscall_nrs with Some (i, _) => Z.of_nat i | None => -1 end.

Definition E_SUCC : Z := 0.
Definition E_MEM : Z := 1.
Definition E_INVAL_CALLNR : Z := 3.
Definition E_INVAL_ADDR : Z := 4.
Definition E_INVAL_PID : Z := 5.
Definition E_INVAL_ID : Z := 12.
Definition E_EXCEEDS_QUOTA : Z := 23.
Definition E_MAX_NUM_CHILDEN_REACHED : Z := 24.
Definition E_INVAL_CHILD_ID : Z := 25.
Definition E_INVAL_SIGNUM : Z := 30.
Definition E_WAIT_TIMEOUT : Z := 32.

(** ** The kernel state the handlers work on *)
Record kst (V : Type) := mk_kst {
  k_w : wsys thr;               (** wait objects and threads *)
  k_ipc : ipc;
  k_vm : V * mem;               (** page tables and physical memory *)
  k_pmm : pmm;                  (** containers *)
  k_console : list Z;           (** bytes printed by [sys_puts] *)
  k_uctx : gmap Z tf_t;         (** [uctx_pool] *)
  k_proc_kstack : gmap Z kstack;
}.
Arguments mk_kst {V}.
Arguments k_w {V}. Arguments k_ipc {V}. Arguments k_vm {V}. Arguments k_pmm {V}.
Arguments k_console {V}. Arguments k_uctx {V}. Arguments k_proc_kstack {V}.

Section Lifts.
Context {V : Type}.
Definition set_k_w (w : wsys thr) (s : kst V) : kst V :=
  mk_kst w (k_ipc s) (k_vm s) (k_pmm s) (k_console s) (k_uctx s) (k_proc_kstack s).
Definition set_k_ipc (i : ipc) (s : kst V) : kst V :=
  mk_kst (k_w s) i (k_vm s) (k_pmm s) (k_console s) (k_uctx s) (k_proc_kstack s).
Definition set_k_vm (v : V * mem) (s : kst V) : kst V :=
  mk_kst (k_w s) (k_ipc s) v (k_pmm s) (k_console s) (k_uctx s) (k_proc_kstack s).
Definition set_k_pmm (p : pmm) (s : kst V) : kst V :=
  mk_kst (k_w s) (k_ipc s) (k_vm s) p (k_console s) (k_uctx s) (k_proc_kstack s).
Definition set_k_console (c : list Z) (s : kst V) : kst V :=
  mk_kst (k_w s) (k_ipc s) (k_vm s) (k_pmm s) c (k_uctx s) (k_proc_kstack s).
Definition set_k_uctx (u : gmap Z tf_t) (s : kst V) : kst V :=
  mk_kst (k_w s) (k_ipc s) (k_vm s) (k_pmm s) (k_console s) u (k_proc_kstack s).
Definition set_k_proc_kstack (k : gmap Z kstack) (s : kst V) : kst V :=
  mk_kst (k_w s) (k_ipc s) (k_vm s) (k_pmm s) (k_console s) (k_uctx s) k.

Definition k_thr (s : kst V) : thr := sch (k_w s).
Definition set_k_thr (t : thr) (s : kst V) : kst V := set_k_w {| wt := wt (k_w s); sch := t |} s.

Definition in_thr {A} (x : M thr A) : M (kst V) A := zoom k_thr set_k_thr x.
Definition in_w {A} (x : M (wsys thr) A) : M (kst V) A := zoom k_w set_k_w x.
Definition in_ipc {A} (x : M ipc A) : M (kst V) A := zoom k_ipc set_k_ipc x.
Definition in_vm {A} (x : M (V * mem) A) : M (kst V) A := zoom k_vm set_k_vm x.
Definition in_pmm {A} (x : M pmm A) : M (kst V) A := zoom k_pmm set_k_pmm x.
End Lifts.

(** Kernel variables whose address is passed to a copy: words in memory. *)
Definition store_word (a w : Z) (m : mem) : mem :=
  foldl (fun m' i => <[a + i := u8 (Z.shiftr w (8 * i))]> m') m [0; 1; 2; 3].

Section Handlers.
Context {V : Type} `{!VmmOps V}.
(** Outside the repository: quota allocation for a new process. *)
Context (alloc_mem_quota : Z -> Z -> M thr Z).
(** Addresses of static data, code and of a handler's local variable *)
Context (proc_kstack_addr sys_buf msg_buf local_var proc_start_user_addr : Z).
(** The address of [sigactions[signum]] in the control block of [pid] *)
Context (sigaction_addr : Z -> Z -> Z).
(** The linked user programs, by [elf_id] 1 to 6 *)
Context (elf_image : Z -> Z).

Notation K := (M (kst V)).

(** ** proc/PProc *)
Definition proc_kstack_set (pid : Z) (ks : kstack) : K unit :=
  modify (fun s => set_k_proc_kstack (<[pid := ks]> (k_proc_kstack s)) s).

(** lib/seg.c: what the kernel reads of the new stack page later; the segment
    descriptors and the TSS are left out. *)
Definition seg_init_proc_fields (cpu_idx pid : Z) : K unit :=
  proc_kstack_set pid {| ks_cpu_idx := cpu_idx; ks_magic := KSTACK_MAGIC |}.

Definition init_uctx (eip : Z) (u : tf_t) : tf_t :=
  mk_tf (tf_regs u) (Z.lor CPU_GDT_UDATA 3) (Z.lor CPU_GDT_UDATA 3) (tf_trapno u) (tf_err u) eip
    (Z.lor CPU_GDT_UCODE 3) FL_IF VM_USERHI (Z.lor CPU_GDT_UDATA 3).

Definition proc_create (elf_addr quota : Z) : K Z :=
  id ← in_thr get_curid;
  pid ← in_thr (thread_spawn alloc_mem_quota proc_kstack_addr proc_start_user_addr id quota);
  in_vm (elf_load elf_addr pid) ;;
  entry ← in_vm (elf_entry elf_addr);
  check_index NUM_IDS pid ;;
  modify (fun s => set_k_uctx (<[pid := init_uctx entry (k_uctx s !!! pid)]> (k_uctx s)) s) ;;
  cpu ← in_thr cur_pcpu_idx;
  seg_init_proc_fields cpu pid ;;
  mret pid.

(** ** Output *)

(** [KERN_INFO("%s", str)] *)
Definition print_str (str : Z) : K unit :=
  modify (fun s => set_k_console (k_console s ++ cputs (Z.to_nat PAGESIZE) (k_vm s).2 str) s).
Definition on_kmem (f : mem -> mem) : K unit := in_vm (on_ram f).

Fixpoint puts_loop (fuel : nat) (cur_pid remain cur_pos : Z) : K Z :=
  if decide (remain = 0) then mret E_SUCC
  else
    match fuel with
    | O => fail Hang
    | S fuel =>
        let nbytes := if decide (remain < PAGESIZE - 1) then remain else PAGESIZE - 1 in
        let buf := sys_buf + cur_pid * PAGESIZE in
        n ← in_vm (pt_copyin cur_pid cur_pos buf nbytes);
        if decide (n <> nbytes) then mret E_MEM
        else
          on_kmem (fun m => <[buf + nbytes := 0]> m) ;;
          print_str buf ;;
          puts_loop fuel cur_pid (remain - nbytes) (u32 (cur_pos + nbytes))
    end.

Definition sys_puts (tf : tf_t) : K tf_t :=
  cur_pid ← in_thr get_curid;
  let str_uva := syscall_get_arg2 tf in
  let str_len := syscall_get_arg3 tf in
  if decide (~ (VM_USERLO <= str_uva /\ u32 (str_uva + str_len) <= VM_USERHI))
  then mret (syscall_set_errno tf E_INVAL_ADDR)
  else
    check_index NUM_IDS cur_pid ;;
    e ← puts_loop (Z.to_nat (str_len / (PAGESIZE - 1) + 1)) cur_pid str_len str_uva;
    mret (syscall_set_errno tf e).

(** ** Processes *)

(** [curid] is read before it is assigned; [uninit] is its value then. *)
Definition sys_spawn (uninit : Z) (tf : tf_t) : K tf_t :=
  let elf_id := syscall_get_arg2 tf in
  let quota := syscall_get_arg3 tf in
  qok ← in_pmm (container_can_consume uninit quota);
  nc ← in_pmm (container_get_nchildren uninit);
  curid ← in_thr get_curid;
  if decide (qok = 0) then mret (set_result tf E_EXCEEDS_QUOTA NUM_IDS)
  else if decide (NUM_IDS < u32 (u32 (u32 (curid * MAX_CHILDREN) + 1) + MAX_CHILDREN))
  then mret (set_result tf E_MAX_NUM_CHILDEN_REACHED NUM_IDS)
  else if decide (nc = MAX_CHILDREN) then mret (set_result tf E_INVAL_CHILD_ID NUM_IDS)
  else if decide (1 <= elf_id <= 6) then
    new_pid ← proc_create (elf_image elf_id) quota;
    if decide (new_pid = NUM_IDS) then mret (set_result tf E_INVAL_PID NUM_IDS)
    else mret (set_result tf E_SUCC new_pid)
  else mret (set_result tf E_INVAL_PID NUM_IDS).

Definition sys_yield (tf : tf_t) : K tf_t :=
  in_thr thread_yield ;;
  mret (syscall_set_errno tf E_SUCC).

(** ** Messages *)

(** [while (msg_getBlockBySendID(cur_pid) != NUM_IDS) thread_sleep(...)]: the
    result is [None] when the process has gone to sleep. *)
Definition in_lock {A} (x : spinlock -> M thr (A * spinlock)) : K A :=
  s ← get;
  r ← in_thr (x (msg_lock (k_ipc s)));
  modify (fun s => set_k_ipc (set_msg_lock r.2 (k_ipc s)) s) ;;
  mret r.1.
Definition msg_sleep (chan : ptr) : K unit :=
  in_lock (fun lk => l ← thread_sleep_enter chan (Some lk); mret (tt, l)).
Definition msg_resume (curid : Z) : K unit :=
  in_lock (fun lk => l ← thread_sleep_resume curid lk; mret (tt, l)).

Definition sync_send_loop (cur_pid : Z) (tf : tf_t) : K (option tf_t) :=
  b ← in_ipc (msg_getBlockBySendID cur_pid);
  if decide (b <> NUM_IDS) then
    msg_sleep (PRecvCv cur_pid) ;; mret None
  else mret (Some (syscall_set_errno tf E_SUCC)).

Definition sys_sync_send (tf : tf_t) : K (option tf_t) :=
  let recv_pid := syscall_get_arg2 tf in
  let user_addr := syscall_get_arg3 tf in
  let length := syscall_get_arg4 tf in
  cur_pid ← in_thr get_curid;
  in_ipc (mb_write cur_pid (set_mb_msg (s32 recv_pid) (s32 user_addr) (s32 length))) ;;
  in_ipc (msg_enqueue cur_pid) ;;
  in_thr (thread_wakeup (PSendCv cur_pid)) ;;
  sync_send_loop cur_pid tf.
Definition sys_sync_send_resume (cur_pid : Z) (tf : tf_t) : K (option tf_t) :=
  msg_resume cur_pid ;; sync_send_loop cur_pid tf.

Definition sync_recv_loop (cur_pid : Z) (tf : tf_t) : K (option tf_t) :=
  let send_pid := syscall_get_arg2 tf in
  let user_recv_addr := syscall_get_arg3 tf in
  let recv_length := syscall_get_arg4 tf in
  b ← in_ipc (msg_getBlockBySendID (s32 send_pid));
  waiting ← (if decide (u32 b = NUM_IDS) then mret true
             else r ← in_ipc (mb_read send_pid mb_recv_pid); mret (bool_decide (u32 r <> cur_pid)));
  if (waiting : bool) then
    msg_sleep (PSendCv send_pid) ;; mret None
  else
    user_send_addr ← in_ipc (mb_read send_pid (fun x => u32 (mb_buffer_addr x)));
    send_length ← in_ipc (mb_read send_pid (fun x => u32 (mb_length x)));
    let copy_length := if decide (send_length < recv_length) then send_length else recv_length in
    in_vm (ipc_copy msg_buf (s32 cur_pid) (s32 user_recv_addr) (s32 send_pid) (s32 user_send_addr)
             (s32 copy_length)) ;;
    in_ipc (msg_remove send_pid) ;;
    in_thr (thread_wakeup (PRecvCv send_pid)) ;;
    mret (Some (set_result tf E_SUCC copy_length)).

Definition sys_sync_recv (tf : tf_t) : K (option tf_t) :=
  cur_pid ← in_thr get_curid; sync_recv_loop cur_pid tf.
Definition sys_sync_recv_resume (cur_pid : Z) (tf : tf_t) : K (option tf_t) :=
  msg_resume cur_pid ;; sync_recv_loop cur_pid tf.

(** ** Signals *)
Definition sizeof_sigaction : Z := 20.
Definition store_sigaction (a : Z) (x : sigaction) (m : mem) : mem :=
  store_word (a + 16) (sa_mask x) (store_word (a + 12) (sa_restorer x)
    (store_word (a + 8) (sa_flags x) (store_word (a + 4) (sa_sigaction x)
      (store_word a (sa_handler x) m)))).
Definition load_sigaction (m : mem) (a : Z) : sigaction :=
  {| sa_handler := ldw m a; sa_sigaction := ldw m (a + 4); sa_flags := s32 (ldw m (a + 8));
     sa_restorer := ldw m (a + 12); sa_mask := ldw m (a + 16) |}.

(** [local_var] is the address of [kern_act]; control blocks are not kept in
    the byte memory, so the entry's bytes are put at its address before they
    are copied out. *)
Definition sys_sigaction (tf : tf_t) : K tf_t :=
  let signum := s32 (syscall_get_arg2 tf) in
  let user_act := syscall_get_arg3 tf in
  let user_oldact := syscall_get_arg4 tf in
  cur_pid ← in_thr get_curid;
  if decide (signum < 1 \/ signum >= NSIG) then mret (syscall_set_errno tf E_INVAL_SIGNUM)
  else
    (if decide (user_oldact <> 0) then
       cur_act ← in_thr (tcb_get_sigaction cur_pid signum);
       match cur_act with
       | Some a =>
           on_kmem (store_sigaction (sigaction_addr cur_pid signum) a) ;;
           in_vm (pt_copyout (sigaction_addr cur_pid signum) cur_pid user_oldact sizeof_sigaction) ;;
           mret tt
       | None => mret tt
       end
     else mret tt) ;;
    (if decide (user_act <> 0) then
       in_vm (pt_copyin cur_pid user_act local_var sizeof_sigaction) ;;
       a ← gets (fun s => load_sigaction (k_vm s).2 local_var);
       in_thr (tcb_set_sigaction cur_pid signum (Some a))
     else mret tt) ;;
    mret (syscall_set_errno tf E_SUCC).

Definition sys_kill (tf : tf_t) : K tf_t :=
  let pid := s32 (syscall_get_arg2 tf) in
  let signum := s32 (syscall_get_arg3 tf) in
  if decide (signum < 1 \/ signum >= NSIG) then mret (syscall_set_errno tf E_INVAL_SIGNUM)
  else
    invalid ← (if decide (pid < 0 \/ pid >= NUM_IDS) then mret true
               else st ← in_thr (tcb_get_state pid); mret (bool_decide (st = TSTATE_DEAD)));
    if (invalid : bool) then mret (syscall_set_errno tf E_INVAL_PID)
    else if decide (signum = SIGKILL) then
      in_thr (tcb_set_state pid TSTATE_DEAD ;;
              tqueue_remove NUM_IDS pid ;;
              tcb_set_pending_signals pid 0) ;;
      mret (syscall_set_errno tf E_SUCC)
    else
      in_thr (tcb_add_pending_signal pid signum) ;;
      sl ← in_thr (tcb_is_sleeping pid);
      (if decide (sl <> 0) then
         chan ← in_thr (tcb_get_channel pid);
         if decide (chan <> PNull) then in_thr (thread_wakeup chan) else mret tt
       else mret tt) ;;
      mret (syscall_set_errno tf E_SUCC).

Definition sys_pause (tf : tf_t) : K tf_t :=
  cur_pid ← in_thr get_curid;
  p ← in_thr (tcb_get_pending_signals cur_pid);
  if decide (p <> 0) then mret (syscall_set_errno tf E_SUCC)
  else
    in_thr (tcb_set_state cur_pid TSTATE_SLEEP) ;;
    in_thr thread_yield ;;
    mret (syscall_set_errno tf E_SUCC).

(** [local_var] is the address of [saved_esp], and then of [saved_eip]. *)
Definition copyin_word (cur_pid uva : Z) : K (option Z) :=
  n ← in_vm (pt_copyin cur_pid uva local_var 4);
  if decide (n <> 4) then mret None
  else w ← gets (fun s => ldw (k_vm s).2 local_var); mret (Some w).

Definition sys_sigreturn (tf : tf_t) : K tf_t :=
  cur_pid ← in_thr get_curid;
  ctx ← in_thr (tcb_get_signal_context cur_pid);
  let '(esp_addr, eip_addr) := ctx in
  if decide (esp_addr = 0 \/ eip_addr = 0) then mret (syscall_set_errno tf E_INVAL_ADDR)
  else
    saved_esp ← copyin_word cur_pid esp_addr;
    match saved_esp with
    | None => mret (syscall_set_errno tf E_MEM)
    | Some saved_esp =>
        saved_eip ← copyin_word cur_pid eip_addr;
        match saved_eip with
        | None => mret (syscall_set_errno tf E_MEM)
        | Some saved_eip =>
            in_thr (tcb_clear_signal_context cur_pid) ;;
            mret (syscall_set_errno (set_eip_esp saved_eip saved_esp tf) E_SUCC)
        end
    end.

(** ** Wait objects *)
Definition sys_waitobj_create (tf : tf_t) : K tf_t :=
  cur ← in_thr get_curid;
  wid ← in_w (waitobj_create cur);
  if decide (wid < 0) then mret (set_result tf E_MEM (u32 (-1)))
  else mret (set_result tf E_SUCC (u32 wid)).

Definition sys_waitobj_add (tf : tf_t) : K tf_t :=
  cur ← in_thr get_curid;
  sid ← in_w (waitobj_add cur (s32 (syscall_get_arg2 tf)) (s32 (syscall_get_arg3 tf))
                (syscall_get_arg4 tf));
  if decide (sid < 0) then mret (set_result tf E_INVAL_ID (u32 (-1)))
  else mret (set_result tf E_SUCC (u32 sid)).

(** The end of [sys_waitobj_wait], from the result of [waitobj_wait] *)
Definition wait_result (tf : tf_t) (rc out_sid : Z) : tf_t :=
  if decide (rc = -2) then set_result tf E_INVAL_ID (u32 (-1))
  else if decide (rc < 0) then set_result tf E_WAIT_TIMEOUT (u32 (-1))
  else set_result tf E_SUCC (u32 out_sid).

Definition after_iter (tf : tf_t) (fr : wait_frame) (r : wait_res) : tf_t + wait_frame :=
  match r with WReturn rc sid => inl (wait_result tf rc sid) | WAsleep => inr fr end.

Definition sys_waitobj_wait (tf : tf_t) : K (tf_t + wait_frame) :=
  cur ← in_thr get_curid;
  st ← in_w (waitobj_wait_start cur (s32 (syscall_get_arg2 tf)) (syscall_get_arg3 tf));
  match st with
  | inl rc => mret (inl (wait_result tf rc 0))
  | inr fr => r ← in_w (waitobj_wait_iter fr); mret (after_iter tf fr r)
  end.
Definition sys_waitobj_wait_resume (cur : Z) (tf : tf_t) (fr : wait_frame) : K (tf_t + wait_frame) :=
  r ← in_w (waitobj_wait_resume cur fr); mret (after_iter tf fr r).

Definition sys_waitobj_signal (tf : tf_t) : K tf_t :=
  cur ← in_thr get_curid;
  rc ← in_w (waitobj_signal_source cur (s32 (syscall_get_arg2 tf)));
  if decide (rc < 0) then mret (syscall_set_errno tf E_INVAL_ID)
  else mret (syscall_set_errno tf E_SUCC).

(** ** Unfinished handlers *)
Definition sys_mv (tf : tf_t) : K tf_t := mret tf.
Definition sys_cat (tf : tf_t) : K tf_t := mret tf.
Definition sys_cp (tf : tf_t) : K tf_t := mret tf.
Definition sys_touch (tf : tf_t) : K tf_t := mret tf.
Definition sys_rm (tf : tf_t) : K tf_t :=
  let user_addr_path := syscall_get_arg2 tf in
  let length := s32 (syscall_get_arg3 tf) in
  cur_pid ← in_thr get_curid;
  check_index NUM_IDS cur_pid ;;
  let length := if decide (length < PAGESIZE - 1) then length else PAGESIZE - 1 in
  let buf := sys_buf + cur_pid * PAGESIZE in
  in_vm (pt_copyin cur_pid user_addr_path buf (u32 length)) ;;
  on_kmem (fun m => <[buf + length := 0]> m) ;;
  mret tf.

End Handlers.

(** * Theory *)
Section Theory.
Context {V : Type}.
Implicit Types (s : kst V).

Lemma in_thr_ok {A} (x : M thr A) s a t : x (k_thr s) = Ok (a, t) -> in_thr x s = Ok (a, set_k_thr t s).
Proof. intros E. unfold in_thr, zoom. by rewrite E. Qed.
Lemma in_thr_spin {A} (x : M thr A) s : x (k_thr s) = Spin -> in_thr x s = Spin.
Proof. intros E. unfold in_thr, zoom. by rewrite E. Qed.
Lemma in_vm_ok {A} (x : M (V * mem) A) s a t : x (k_vm s) = Ok (a, t) -> in_vm x s = Ok (a, set_k_vm t s).
Proof. intros E. unfold in_vm, zoom. by rewrite E. Qed.
Lemma in_ipc_ok {A} (x : M ipc A) s a t : x (k_ipc s) = Ok (a, t) -> in_ipc x s = Ok (a, set_k_ipc t s).
Proof. intros E. unfold in_ipc, zoom. by rewrite E. Qed.

Lemma k_thr_set t s : k_thr (set_k_thr t s) = t.
Proof. done. Qed.
Lemma set_k_thr_same s : set_k_thr (k_thr s) s = s.
Proof. by destruct s as [[? ?] ? ? ? ? ? ?]. Qed.
Lemma set_k_vm_same s : set_k_vm (k_vm s) s = s.
Proof. by destruct s. Qed.

Lemma in_get_curid s a : sched_abs (k_thr s) a -> in_thr get_curid s = Ok (a_cur a, s).
Proof.
  intros Ha. rewrite (in_thr_ok _ _ (a_cur a) (k_thr s)); [by rewrite set_k_thr_same|].
  by apply get_curid_abs.
Qed.

(** ** SIGKILL *)
Definition a_kill (pid : Z) (a : asched) : asched :=
  {| a_cur := a_cur a; a_rq := filter (fun x => x <> pid) (a_rq a); a_chan := a_chan a |}.

Definition kill_now (pid : Z) : M thr unit :=
  tcb_set_state pid TSTATE_DEAD ;; tqueue_remove NUM_IDS pid ;; tcb_set_pending_signals pid 0.

Lemma kill_now_ready t a pid :
  sched_abs t a -> pid ∈ a_rq a ->
  exists t', kill_now pid t = Ok (tt, t') /\ sched_abs t' (a_kill pid a)
    /\ tcb_state (TCBPool t' !!! pid) = TSTATE_DEAD.
Proof.
  intros [[Hcpu Hcur Hcr Hq Hrun Hrd Hch] Hlk] Hin.
  pose proof (qr_range _ _ _ Hq pid Hin) as Hpid.
  assert (a_cur a <> pid) as Hcp.
  { intros E. rewrite E in Hrun. by rewrite (Hrd pid Hin) in Hrun. }
  pose proof (dl_nodup _ _ _ _ _ _ (qr_dlist _ _ _ Hq)) as Hnd.
  apply list_elem_of_split in Hin as (l1 & l2 & El).
  set (t1 := upd_tcb pid (set_state TSTATE_DEAD) t).
  assert (queue_repr t1 NUM_IDS (l1 ++ pid :: l2)) as Hq1.
  { rewrite <- El. apply queue_repr_upd; [by intros|done]. }
  assert (cpu_ok t1) as Hcpu1 by solve_cpu.
  destruct (tqueue_remove_spec NUM_IDS t1 Hcpu1 ltac:(unfold NUM_IDS; lia) pid l1 l2 Hq1)
    as (t2 & E2 & Hq2 & Hf & _ & _ & _).
  assert (a_rq (a_kill pid a) = l1 ++ l2) as Ekq.
  { cbn. rewrite El. apply filter_ne_split. by rewrite <- El. }
  exists (upd_tcb pid (with_sigstate (set_pending 0)) t2).
  assert (forall y, tcb_state (TCBPool (upd_tcb pid (with_sigstate (set_pending 0)) t2) !!! y) =
            if decide (pid = y) then TSTATE_DEAD else tcb_state (TCBPool t !!! y)) as Hst.
  { intros y. rewrite TCBPool_upd_tcb.
    pose proof (unlink_state _ _ (qf_tcb _ _ _ Hf y)) as E. unfold t1 in E.
    rewrite TCBPool_upd_tcb in E. destruct (decide (pid = y)) as [->|]; cbn; by rewrite E. }
  assert (forall y, tcb_channel (TCBPool (upd_tcb pid (with_sigstate (set_pending 0)) t2) !!! y) =
            tcb_channel (TCBPool t !!! y)) as Hcc.
  { intros y. rewrite TCBPool_upd_tcb.
    pose proof (unlink_channel _ _ (qf_tcb _ _ _ Hf y)) as E. unfold t1 in E.
    rewrite TCBPool_upd_tcb in E. destruct (decide (pid = y)) as [->|]; cbn; by rewrite E. }
  split; [|split].
  - unfold kill_now, tcb_set_state, tcb_set_pending_signals.
    rewrite (bind_ok _ _ _ _ _ (tcb_write_ok pid _ t Hpid)). fold t1.
    rewrite (bind_ok _ _ _ _ _ E2). by apply tcb_write_ok.
  - split; [|change (lock (sched_lk t2) = 0); by rewrite (qf_lk _ _ _ Hf)]. split.
    + pose proof (queue_frame_cpu _ _ _ Hf Hcpu1). solve_cpu.
    + change (this_cpu (upd_tcb _ _ t2)) with (this_cpu t2).
      rewrite (queue_frame_this_cpu _ _ _ Hf). cbn. rewrite (qf_curid _ _ _ Hf). exact Hcur.
    + done.
    + rewrite Ekq. apply queue_repr_upd; [by intros|done].
    + cbn [a_kill a_cur]. rewrite Hst, decide_False by congruence. done.
    + intros x Hx. cbn in Hx. apply list_elem_of_filter in Hx as [Hne Hx].
      rewrite Hst, decide_False by congruence. by apply Hrd.
    + intros x. cbn. rewrite Hch. unfold chan_of. rewrite Hst, Hcc.
      destruct (decide (pid = x)) as [<-|]; [|done].
      rewrite (Hrd pid); [done|]. rewrite El. apply elem_of_app. right. by left.
  - by rewrite Hst, decide_True.
Qed.

Lemma kill_now_unlinked t a pid :
  sched_abs t a -> 0 <= pid < NUM_IDS -> pv t pid = NUM_IDS -> nx t pid = NUM_IDS ->
  exists t', kill_now pid t = Ok (tt, t') /\ queue_repr t' NUM_IDS []
    /\ forall x, x ∈ a_rq a -> x <> pid -> tcb_state (TCBPool t' !!! x) = TSTATE_READY.
Proof.
  intros [[Hcpu Hcur Hcr Hq Hrun Hrd Hch] Hlk] Hpid Hp Hn.
  set (t1 := upd_tcb pid (set_state TSTATE_DEAD) t).
  assert (pv t1 pid = NUM_IDS /\ nx t1 pid = NUM_IDS) as [Hp1 Hn1].
  { unfold pv, nx, t1 in *. rewrite !TCBPool_upd_tcb, !decide_True by done. done. }
  assert (cpu_ok t1) as Hcpu1 by solve_cpu.
  destruct (tqueue_remove_unlinked NUM_IDS t1 Hcpu1 ltac:(unfold NUM_IDS; lia) pid Hpid Hp1 Hn1)
    as (t2 & E2 & Hq2 & Hf).
  exists (upd_tcb pid (with_sigstate (set_pending 0)) t2). split; [|split].
  - unfold kill_now, tcb_set_state, tcb_set_pending_signals.
    rewrite (bind_ok _ _ _ _ _ (tcb_write_ok pid _ t Hpid)). fold t1.
    rewrite (bind_ok _ _ _ _ _ E2). by apply tcb_write_ok.
  - apply queue_repr_upd; [by intros|done].
  - intros x Hx Hne. rewrite TCBPool_upd_tcb, decide_False by congruence.
    rewrite (unlink_state _ _ (qf_tcb _ _ _ Hf x)). unfold t1.
    rewrite TCBPool_upd_tcb, decide_False by congruence. by apply Hrd.
Qed.

Lemma sys_kill_sigkill tf s pid t' :
  s32 (syscall_get_arg2 tf) = pid -> s32 (syscall_get_arg3 tf) = SIGKILL ->
  0 <= pid < NUM_IDS -> tcb_state (TCBPool (k_thr s) !!! pid) <> TSTATE_DEAD ->
  kill_now pid (k_thr s) = Ok (tt, t') ->
  sys_kill tf s = Ok (syscall_set_errno tf E_SUCC, set_k_thr t' s).
Proof.
  intros E1 E2 Hpid Hnd Ek. unfold sys_kill. rewrite E1, E2.
  rewrite (decide_False (P := SIGKILL < 1 \/ _)) by (unfold SIGKILL, NSIG; lia).
  rewrite (decide_False (P := pid < 0 \/ _)) by lia.
  rewrite (bind_ok _ _ s false s).
  2: { rewrite (bind_ok _ _ _ (tcb_state (TCBPool (k_thr s) !!! pid)) s).
       - by rewrite bool_decide_eq_false_2.
       - rewrite (in_thr_ok _ _ (tcb_state (TCBPool (k_thr s) !!! pid)) (k_thr s));
           [by rewrite set_k_thr_same|]. by apply tcb_read_ok. }
  rewrite decide_True by done. by rewrite (bind_ok _ _ _ _ _ (in_thr_ok _ _ _ _ Ek)).
Qed.

(** ** pause *)
Lemma yield_after_sleep_mark t a :
  sched_abs t a -> thread_yield (upd_tcb (a_cur a) (set_state TSTATE_SLEEP) t) = thread_yield t.
Proof.
  intros [[Hcpu Hcur Hcr Hq Hrun Hrd Hch] Hlk]. unfold thread_yield.
  set (t1 := upd_tcb (a_cur a) (set_state TSTATE_SLEEP) t).
  rewrite (bind_ok _ _ _ _ _ (acquire_sched_lk_ok t Hcpu Hlk)).
  assert (cpu_ok t1) as Hcpu1 by solve_cpu.
  rewrite (bind_ok _ _ _ _ _ (acquire_sched_lk_ok t1 Hcpu1 Hlk)).
  set (u := set_sched_lk (held_lock (cur_kstack t)) t).
  set (u1 := set_sched_lk (held_lock (cur_kstack t1)) t1).
  assert (get_curid u = Ok (a_cur a, u)) as E.
  { rewrite (get_curid_ok (this_cpu u) u); [|solve_cpu|done]. do 2 f_equal. exact Hcur. }
  assert (get_curid u1 = Ok (a_cur a, u1)) as E1.
  { rewrite (get_curid_ok (this_cpu u1) u1); [|solve_cpu|done]. do 2 f_equal. exact Hcur. }
  rewrite (bind_ok _ _ _ _ _ E), (bind_ok _ _ _ _ _ E1).
  assert (forall x, tcb_set_state (a_cur a) TSTATE_READY x =
    Ok (tt, upd_tcb (a_cur a) (set_state TSTATE_READY) x)) as W by (intros; by apply tcb_write_ok).
  rewrite (bind_ok _ _ _ _ _ (W u)), (bind_ok _ _ _ _ _ (W u1)).
  f_equal. unfold u, u1, t1, upd_tcb, with_TCBPool, set_sched_lk. cbn. f_equal.
  apply map_eq. intros y. destruct (decide (a_cur a = y)) as [<-|Hne].
  - rewrite !lookup_insert_eq. f_equal. rewrite lookup_total_insert_eq. done.
  - by rewrite !lookup_insert_ne.
Qed.

(** ** The message lock *)
Lemma thread_sleep_resume_taken t a lk :
  sched_abs t a -> lock lk <> 0 -> thread_sleep_resume (a_cur a) lk t = Spin.
Proof.
  intros [[Hcpu _ Hcr _ _ _ _] Hlk] Hl. unfold thread_sleep_resume.
  rewrite (bind_ok _ _ _ _ _ (acquire_sched_lk_ok t Hcpu Hlk)).
  rewrite (bind_ok _ _ _ _ _ (tcb_write_ok (a_cur a) (set_chan PNull) _ Hcr)).
  rewrite (bind_ok _ _ _ _ _ (release_sched_lk_ok _)).
  unfold get, mbind, M_bind, on_lock. by rewrite spinlock_acquire_taken.
Qed.

Lemma msg_resume_taken s a :
  sched_abs (k_thr s) a -> lock (msg_lock (k_ipc s)) <> 0 -> msg_resume (a_cur a) s = Spin.
Proof.
  intros Ha Hl. unfold msg_resume, in_lock, get, mbind at 1, M_bind at 1.
  unfold mbind at 1, M_bind at 1. rewrite in_thr_spin; [done|].
  unfold mbind, M_bind. by rewrite (thread_sleep_resume_taken _ a).
Qed.

Lemma msg_resume_free s a :
  sched_abs (k_thr s) a -> lock (msg_lock (k_ipc s)) = 0 ->
  exists t', sched_abs t' a /\ msg_resume (a_cur a) s =
    Ok (tt, set_k_ipc (set_msg_lock (held_lock (cur_kstack (k_thr s))) (k_ipc s)) (set_k_thr t' s)).
Proof.
  intros Ha Hl.
  destruct (thread_sleep_resume_sim (k_thr s) a (msg_lock (k_ipc s)) Ha Hl) as (t' & E & Ha' & _).
  exists t'. split; [done|]. unfold msg_resume, in_lock, get, mbind at 1, M_bind at 1.
  rewrite (bind_ok _ _ _ (tt, held_lock (cur_kstack (k_thr s))) (set_k_thr t' s)); [done|].
  apply in_thr_ok. by rewrite (bind_ok _ _ _ _ _ E).
Qed.

Section Puts.
Context `{!VmmOps V} `{!VmmLaws V}.
Context (sys_buf : Z) (Hbuf0 : 0 <= sys_buf) (Hbuf : sys_buf + NUM_IDS * PAGESIZE <= VM_USERLO).
Context (pid : Z) (Hpid : 0 < pid < NUM_IDS).

(** Bytes [data] of the process at [uva], none of them zero *)
Definition user_string (uva len : Z) (data : Z -> Z) (v : V) (m : mem) : Prop :=
  forall i, 0 <= i < len ->
    present pid (uva + i) v /\ m !!! phys pid (uva + i) v = data i /\ data i <> 0.

Lemma seqZ_shift_map (data : Z -> Z) k n :
  0 <= k <= n ->
  map data (seqZ 0 n) = map data (seqZ 0 k) ++ map (fun i => data (k + i)) (seqZ 0 (n - k)).
Proof.
  intros H. replace n with (k + (n - k)) at 1 by lia. rewrite seqZ_app by lia. rewrite map_app.
  f_equal. rewrite Z.add_0_l. rewrite <- (Z.add_0_r k) at 1. rewrite <- fmap_add_seqZ.
  change (Z.add k <$> seqZ 0 (n - k)) with (map (Z.add k) (seqZ 0 (n - k))). by rewrite map_map.
Qed.

Lemma puts_loop_spec fuel : forall s v m uva len data,
  k_vm s = (v, m) -> vm_inv v -> VM_USERLO <= uva -> uva + len <= VM_USERHI -> 0 <= len ->
  len <= (PAGESIZE - 1) * Z.of_nat fuel -> user_string uva len data v m ->
  exists s', puts_loop sys_buf fuel pid len uva s = Ok (E_SUCC, s')
    /\ k_console s' = k_console s ++ map data (seqZ 0 len).
Proof.
  induction fuel as [|fuel IH]; intros s v m uva len data Es Hv Hlo Hhi Hl Hf Hd; cbn [puts_loop];
    (destruct (decide (len = 0)) as [->|Hnz]; [exists s; split; [done|by rewrite app_nil_r]|]); [lia|].
  set (n := if decide (len < PAGESIZE - 1) then len else PAGESIZE - 1).
  assert (0 < n <= len /\ n < PAGESIZE /\ len - n <= (PAGESIZE - 1) * Z.of_nat fuel) as (Hn & Hnp & Hnf).
  { unfold n. case_decide; unfold PAGESIZE in *; lia. } clearbody n.
  set (buf := sys_buf + pid * PAGESIZE).
  assert (0 <= buf /\ buf + PAGESIZE <= VM_USERLO) as [Hb0 Hb1] by (unfold buf, PAGESIZE, NUM_IDS in *; lia).
  clearbody buf.
  destruct (pt_copyin_spec pid uva buf n v m) as (v1 & m1 & E1 & Hv1 & K1 & R1); try done; try lia.
  rewrite <- Es in E1. rewrite (bind_ok _ _ _ _ _ (in_vm_ok _ _ _ _ E1)).
  rewrite (decide_False (P := n <> n)) by tauto.
  destruct R1 as (R1 & R2 & R3); [intros; eapply kept_present; [done|apply Hd; lia]|].
  assert (forall i, 0 <= i < len -> present pid (uva + i) v1 /\ phys pid (uva + i) v1 = phys pid (uva + i) v)
    as Hpr.
  { intros i Hi. destruct (Hd i Hi) as [Hp _]. split; [by eapply kept_present|by eapply kept_phys]. }
  set (m2 := <[buf + n := 0]> m1).
  rewrite (bind_ok _ _ _ tt (set_k_vm (v1, m2) s)) by done.
  assert (forall i, 0 <= i < len -> m2 !!! phys pid (uva + i) v1 = data i) as Hm2.
  { intros i Hi. destruct (Hd i Hi) as (Hp & Hdi & _). destruct (Hpr i Hi) as [Hp1 Ep].
    unfold m2. rewrite lookup_total_upd, decide_False.
    - rewrite Ep, R3 by done. done.
    - pose proof (frames_user v1 pid (uva + i) Hv1 Hp1). lia. }
  assert (cputs (Z.to_nat PAGESIZE) m2 buf = map data (seqZ 0 n)) as Ec.
  { apply cputs_reads.
    - rewrite length_map, length_seqZ. lia.
    - apply Forall_forall. intros c Hc. apply list_elem_of_fmap in Hc as (i & -> & Hi).
      apply elem_of_seqZ in Hi. apply Hd. lia.
    - intros i c Hc. change (map data (seqZ 0 n)) with (data <$> seqZ 0 n) in Hc.
      rewrite list_lookup_fmap in Hc. apply fmap_Some in Hc as (j & Hj & ->).
      apply lookup_seqZ in Hj as [-> Hj]. unfold m2. rewrite lookup_total_upd, decide_False by lia.
      rewrite R1 by lia. specialize (Hm2 (0 + Z.of_nat i) ltac:(lia)). unfold m2 in Hm2.
      rewrite lookup_total_upd, decide_False in Hm2; [done|].
      pose proof (frames_user v1 pid (uva + (0 + Z.of_nat i)) Hv1 (proj1 (Hpr (0 + Z.of_nat i) ltac:(lia)))). lia.
    - rewrite length_map, length_seqZ. unfold m2. rewrite lookup_total_upd, decide_True by lia. done. }
  assert (print_str buf (set_k_vm (v1, m2) s) =
    Ok (tt, set_k_console (k_console s ++ map data (seqZ 0 n)) (set_k_vm (v1, m2) s))) as Ep.
  { unfold print_str, modify. cbn [k_vm k_console set_k_vm snd]. by rewrite Ec. }
  rewrite (bind_ok _ _ _ _ _ Ep). rewrite u32_id by (unfold VM_USERLO, VM_USERHI, W32 in *; lia).
  destruct (IH (set_k_console (k_console s ++ map data (seqZ 0 n)) (set_k_vm (v1, m2) s))
              v1 m2 (uva + n) (len - n) (fun i => data (n + i))) as (s' & E' & Hc'); try done; try lia.
  { intros i Hi. rewrite <- Z.add_assoc. destruct (Hd (n + i) ltac:(lia)) as (_ & _ & Hnz').
    split; [apply Hpr; lia|]. split; [apply Hm2; lia|done]. }
  exists s'. split; [exact E'|]. rewrite Hc'. cbn [k_console set_k_console].
  rewrite <- app_assoc. f_equal. symmetry. apply seqZ_shift_map. lia.
Qed.

End Puts.

End Theory.

(** A state for the witnesses: process 0 runs, 1 and 2 are ready, 3 sleeps. *)
Definition demo_kst {V} (vm : V * mem) (i : ipc) : kst V :=
  mk_kst {| wt := {| waitobj_ticks := 0; wobjs := ∅; esrc := ∅ |}; sch := SchedProps.demo |}
    i vm PmmProps.zero_pmm [] ∅ ∅.
(** The same, with the user process 1 running *)
Definition user_kst {V} (vm : V * mem) (i : ipc) : kst V :=
  mk_kst {| wt := {| waitobj_ticks := 0; wobjs := ∅; esrc := ∅ |}; sch := WaitProps.demo_sched |}
    i vm PmmProps.zero_pmm [] ∅ ∅.
Definition no_msgs : ipc := mk_ipc
  (list_to_map (map (fun p => (p, mk_MsgBlock NUM_IDS NUM_IDS p NUM_IDS 0 0 0 0)) (seqZ 0 NUM_IDS)))
  (mk_MsgQueue NUM_IDS NUM_IDS) free_lock.
Definition demo_tf (arg2 arg3 : Z) : tf_t :=
  mk_tf (mk_pushregs 0 0 0 0 arg2 0 arg3 0) 0 0 48 0 0x40001000 0 0 0xefffff00 0.

Lemma no_msgs_repr : msg_repr no_msgs [].
Proof.
  split; [apply dlist_empty|intros x Hx; by apply elem_of_nil in Hx|].
  intros x Hx. assert (x ∈ seqZ 0 NUM_IDS) as Hin by (apply elem_of_seqZ; lia).
  clear Hx. revert x Hin. apply Forall_forall. apply (bool_decide_unpack _). vm_compute. reflexivity.
Qed.

(** * Properties *)
Module SyscallProps.

(** SIGKILL terminates a ready process.  [sys_kill] with signal
    9 on a process in the ready queue succeeds, marks it dead and takes exactly
    it out of the ready queue; the scheduler's abstraction is otherwise
    unchanged. *)
Theorem sigkill_removes_ready_process {V} (s : kst V) a tf pid :
  sched_abs (k_thr s) a -> pid ∈ a_rq a ->
  s32 (syscall_get_arg2 tf) = pid -> s32 (syscall_get_arg3 tf) = SIGKILL ->
  exists s', sys_kill tf s = Ok (syscall_set_errno tf E_SUCC, s')
    /\ sched_abs (k_thr s') (a_kill pid a)
    /\ tcb_state (TCBPool (k_thr s') !!! pid) = TSTATE_DEAD.
Proof.
  intros Ha Hin E1 E2. destruct (kill_now_ready (k_thr s) a pid Ha Hin) as (t' & Ek & Ha' & Hd).
  pose proof Ha as [[_ _ _ Hq _ Hrd _] _]. pose proof (qr_range _ _ _ Hq pid Hin) as Hpid.
  exists (set_k_thr t' s). split; [|by rewrite k_thr_set].
  apply (sys_kill_sigkill tf s pid t'); try done. by rewrite (Hrd pid Hin).
Qed.

Lemma sigkill_removes_ready_process_witness :
  exists s', sys_kill (demo_tf 1 9) (demo_kst (no_pages, ∅) no_msgs) =
      Ok (syscall_set_errno (demo_tf 1 9) E_SUCC, s')
    /\ sched_abs (k_thr s') (a_kill 1 SchedProps.demo_a)
    /\ tcb_state (TCBPool (k_thr s') !!! 1) = TSTATE_DEAD.
Proof.
  apply (sigkill_removes_ready_process (demo_kst (no_pages, ∅) no_msgs) SchedProps.demo_a (demo_tf 1 9) 1);
    [exact SchedProps.demo_abs|by left|reflexivity|reflexivity].
Defined.

(** SIGKILL of a process that is in no queue (one that runs or
    sleeps, whose links are NUM_IDS) empties the ready queue: [tqueue_remove]
    takes it for the queue's only member.  All ready processes are lost: they
    stay marked ready, but the queue no longer contains them. *)
Theorem sigkill_of_unqueued_empties_ready_queue {V} (s : kst V) a tf pid :
  sched_abs (k_thr s) a -> 0 <= pid < NUM_IDS ->
  tcb_state (TCBPool (k_thr s) !!! pid) <> TSTATE_DEAD ->
  pv (k_thr s) pid = NUM_IDS -> nx (k_thr s) pid = NUM_IDS ->
  s32 (syscall_get_arg2 tf) = pid -> s32 (syscall_get_arg3 tf) = SIGKILL ->
  exists s', sys_kill tf s = Ok (syscall_set_errno tf E_SUCC, s')
    /\ queue_repr (k_thr s') NUM_IDS []
    /\ forall x, x ∈ a_rq a -> x <> pid -> tcb_state (TCBPool (k_thr s') !!! x) = TSTATE_READY.
Proof.
  intros Ha Hpid Hnd Hp Hn E1 E2.
  destruct (kill_now_unlinked (k_thr s) a pid Ha Hpid Hp Hn) as (t' & Ek & Hq & Hr).
  exists (set_k_thr t' s). split; [|by rewrite k_thr_set].
  by apply (sys_kill_sigkill tf s pid t').
Qed.

(** Killing the sleeping process 3 loses the ready processes 1 and 2. *)
Lemma sigkill_of_unqueued_empties_ready_queue_witness :
  exists s', sys_kill (demo_tf 3 9) (demo_kst (no_pages, ∅) no_msgs) =
      Ok (syscall_set_errno (demo_tf 3 9) E_SUCC, s')
    /\ queue_repr (k_thr s') NUM_IDS [] /\ tcb_state (TCBPool (k_thr s') !!! 1) = TSTATE_READY.
Proof.
  destruct (sigkill_of_unqueued_empties_ready_queue (demo_kst (no_pages, ∅) no_msgs) SchedProps.demo_a
              (demo_tf 3 9) 3) as (s' & E & Hq & Hr);
    [exact SchedProps.demo_abs|unfold NUM_IDS; lia|vm_compute; discriminate|reflexivity|reflexivity
    |reflexivity|reflexivity|].
  exists s'. split; [exact E|]. split; [exact Hq|]. apply Hr; [by left|lia].
Defined.

(** [sys_pause] never sleeps.  Without a pending signal it
    marks the process as sleeping and yields; the yield marks it ready and
    queues it, so the whole call is the same as [sys_yield]. *)
Theorem pause_is_yield {V} (s : kst V) a tf :
  sched_abs (k_thr s) a ->
  pending_signals (tcb_sigstate (TCBPool (k_thr s) !!! a_cur a)) = 0 ->
  sys_pause tf s = sys_yield tf s.
Proof.
  intros Ha Hp. pose proof Ha as [[_ _ Hcr _ _ _ _] _]. unfold sys_pause, sys_yield.
  rewrite (bind_ok _ _ _ _ _ (in_get_curid s a Ha)).
  rewrite (bind_ok _ _ s 0 s).
  2: { rewrite (in_thr_ok _ _ 0 (k_thr s)); [by rewrite set_k_thr_same|]. rewrite <- Hp.
       by apply tcb_read_ok. }
  rewrite decide_False by tauto.
  rewrite (bind_ok _ _ _ _ _ (in_thr_ok _ _ _ _ (tcb_write_ok (a_cur a) (set_state TSTATE_SLEEP) (k_thr s) Hcr))).
  unfold mbind, M_bind, in_thr, zoom. rewrite k_thr_set.
  rewrite (yield_after_sleep_mark (k_thr s) a Ha). by destruct (thread_yield (k_thr s)) as [[]| | | |].
Qed.

Lemma pause_is_yield_witness :
  sys_pause (demo_tf 0 0) (demo_kst (no_pages, ∅) no_msgs) =
  sys_yield (demo_tf 0 0) (demo_kst (no_pages, ∅) no_msgs).
Proof.
  apply (pause_is_yield (demo_kst (no_pages, ∅) no_msgs) SchedProps.demo_a (demo_tf 0 0));
    [exact SchedProps.demo_abs|reflexivity].
Defined.

(** Synchronous messages leak their lock.  A sender that is resumed
    after its message has been received returns with [msg_lock] held (nothing
    releases it); until some process goes to sleep on a message again, every
    other sender or receiver that is resumed spins forever. *)
Theorem resumed_sender_leaves_lock_held `{!VmmOps V} (s : kst V) a l tf :
  sched_abs (k_thr s) a -> msg_repr (k_ipc s) l -> a_cur a ∉ l -> lock (msg_lock (k_ipc s)) = 0 ->
  exists s', sys_sync_send_resume (a_cur a) tf s = Ok (Some (syscall_set_errno tf E_SUCC), s')
    /\ sched_abs (k_thr s') a
    /\ forall s2 a2 tf2 msg_buf, msg_lock (k_ipc s2) = msg_lock (k_ipc s') -> sched_abs (k_thr s2) a2 ->
         sys_sync_send_resume (a_cur a2) tf2 s2 = Spin
         /\ sys_sync_recv_resume msg_buf (a_cur a2) tf2 s2 = Spin.
Proof.
  intros Ha Hm Hn Hl. destruct (msg_resume_free s a Ha Hl) as (t' & Ha' & E).
  set (s' := set_k_ipc _ _) in E. exists s'.
  assert (msg_repr (k_ipc s') l) as Hm' by (by destruct Hm).
  split; [|split].
  - unfold sys_sync_send_resume, sync_send_loop. rewrite (bind_ok _ _ _ _ _ E).
    rewrite (bind_ok _ _ _ NUM_IDS s').
    + rewrite decide_False by tauto. done.
    + rewrite (in_ipc_ok _ _ NUM_IDS (k_ipc s')); [done|].
      rewrite (msg_getBlockBySendID_spec _ l) by done. by rewrite decide_False.
  - exact Ha'.
  - intros s2 a2 tf2 mb El Ha2.
    assert (msg_resume (a_cur a2) s2 = Spin) as Es by (apply msg_resume_taken; [done|by rewrite El]).
    unfold sys_sync_send_resume, sys_sync_recv_resume, mbind, M_bind. by rewrite Es.
Qed.

Lemma resumed_sender_leaves_lock_held_witness :
  exists s', sys_sync_send_resume 0 (demo_tf 1 0) (demo_kst (no_pages, ∅) no_msgs) =
      Ok (Some (syscall_set_errno (demo_tf 1 0) E_SUCC), s')
    /\ sys_sync_send_resume 0 (demo_tf 1 0) s' = Spin.
Proof.
  destruct (resumed_sender_leaves_lock_held (demo_kst (no_pages, ∅) no_msgs) SchedProps.demo_a []
              (demo_tf 1 0)) as (s' & E & Ha & H);
    [exact SchedProps.demo_abs|exact no_msgs_repr|apply not_elem_of_nil|reflexivity|].
  exists s'. split; [exact E|]. exact (proj1 (H s' SchedProps.demo_a (demo_tf 1 0) 0 eq_refl Ha)).
Defined.

(** [sys_puts] prints the caller's string.  For every mapped
    string of the calling user process in the user area without a NUL byte, of any
    length, the call succeeds and the console receives exactly its bytes, in
    order, in pieces of at most 4095 bytes through the per-process buffer. *)
Theorem puts_prints_user_string `{!VmmOps V} `{!VmmLaws V} (s : kst V) a tf sys_buf v m data :
  sched_abs (k_thr s) a -> 0 < a_cur a -> k_vm s = (v, m) -> vm_inv v ->
  0 <= sys_buf -> sys_buf + NUM_IDS * PAGESIZE <= VM_USERLO ->
  let uva := syscall_get_arg2 tf in
  let len := syscall_get_arg3 tf in
  0 <= len -> VM_USERLO <= uva -> uva + len <= VM_USERHI ->
  user_string (a_cur a) uva len data v m ->
  exists s', sys_puts sys_buf tf s = Ok (syscall_set_errno tf E_SUCC, s')
    /\ k_console s' = k_console s ++ map data (seqZ 0 len).
Proof.
  intros Ha Hc0 Ev Hv Hb0 Hb1 uva len Hl Hlo Hhi Hd. pose proof Ha as [[_ _ Hcr _ _ _ _] _].
  unfold sys_puts. rewrite (bind_ok _ _ _ _ _ (in_get_curid s a Ha)). fold uva len.
  rewrite decide_False by (rewrite u32_id; unfold VM_USERLO, VM_USERHI, W32 in *; lia).
  rewrite (bind_ok _ _ _ _ _ (check_index_ok NUM_IDS (a_cur a) s Hcr)).
  destruct (puts_loop_spec sys_buf Hb0 Hb1 (a_cur a) ltac:(lia) (Z.to_nat (len / (PAGESIZE - 1) + 1))
              s v m uva len data) as (s' & E & Hc); try done.
  { assert (0 <= len / 4095) by (apply Z.div_pos; lia). unfold PAGESIZE.
    change (4096 - 1) with 4095. pose proof (Z.div_mod len 4095). pose proof (Z.mod_pos_bound len 4095). lia. }
  exists s'. split; [|done]. by rewrite (bind_ok _ _ _ _ _ E).
Qed.

(** Process 1 prints two characters. *)
Definition hi_pages : pages := mk_pages {[(1, 0x40000) := 0x40000]} 0x40001.

Lemma hi_pages_inv : pages_inv hi_pages.
Proof.
  split; cbn [hi_pages frames next_frame].
  - vm_compute. intuition congruence.
  - intros k f [<- <-]%lookup_singleton_Some. vm_compute. intuition congruence.
  - intros k k' f [<- <-]%lookup_singleton_Some [<- E]%lookup_singleton_Some. done.
Qed.

Lemma puts_prints_user_string_witness :
  let s := user_kst (hi_pages, {[0x40000010 := 104; 0x40000011 := 105]}) no_msgs in
  exists s', sys_puts 0x100000 (demo_tf 0x40000010 2) s =
      Ok (syscall_set_errno (demo_tf 0x40000010 2) E_SUCC, s')
    /\ k_console s' = [104; 105].
Proof.
  intros s.
  destruct (puts_prints_user_string s WaitProps.demo_abs1 (demo_tf 0x40000010 2) 0x100000 hi_pages
              {[0x40000010 := 104; 0x40000011 := 105]} (fun i => 104 + i)) as (s' & E & Hc);
    [exact WaitProps.demo_sched_abs|reflexivity|reflexivity|exact hi_pages_inv|lia|vm_compute; discriminate
    |vm_compute; discriminate|vm_compute; discriminate|vm_compute; discriminate| |].
  - intros i Hi. change (syscall_get_arg3 _) with 2 in Hi.
    assert (i = 0 \/ i = 1) as [-> | ->] by lia; vm_compute; repeat split; discriminate.
  - exists s'. split; [exact E|exact Hc].
Defined.

End SyscallProps.
