(* ===== verification/Trap.v ===== *)
(** * Traps: trap/TDispatch, trap/TTrapHandler

    The way into and out of the kernel: dispatch of system calls, exceptions
    and interrupts, and the delivery of signals on the way back to user mode.
    A result [None] means that the processor now runs another thread. *)

From S2P Require Import Prelude DList Machine Thread Scheduler WaitObj WaitSys PMM KString Bytes Printfmt Pmap Elf Ipc Syscall.

(** ** TDispatch.c *)
Definition decode_nr (nr : Z) : option syscall_nr :=
  if decide (0 <= nr) then syscall_nrs !! Z.to_nat nr else None.

Section Dispatch.
Context {V : Type}.
Notation K := (M (kst V)).
Notation handler := (tf_t -> K (option tf_t)).

(** The handlers by call; [SYS_stat] is [sys_fstat].  The prototype of
    [syscall_set_errno] in TDispatch/import.h has one parameter: the error
    number is passed as the frame pointer, and the error number written is
    whatever lies next on the stack ([stack_word]); regs.eax is at offset 28. *)
Definition syscall_dispatch (h : syscall_nr -> handler) (stack_word : Z) : handler := fun tf =>
  let nr := syscall_get_arg1 tf in
  match decode_nr nr with
  | Some SYS_touch =>
      (* no break: falls through to SYS_readline *)
      r ← h SYS_touch tf;
      match r with Some tf' => h SYS_readline tf' | None => mret None end
  | Some c => h c tf
  | None =>
      in_vm (on_ram (store_word (E_INVAL_CALLNR + 28) stack_word)) ;;
      mret (Some tf)
  end.
End Dispatch.

(** ** TTrapHandler.c *)
Definition T_PGFLT : Z := 14.
Definition IRQ_KBD : Z := 1.
Definition IRQ_IDE1 : Z := 14.
Definition IRQ_IDE2 : Z := 15.
Definition PFE_PR : Z := 1.

Section Handlers.
Context {V : Type} `{!VmmOps V}.
(** Device routines: acknowledge the interrupt, read the keyboard, the disk *)
Context (intr_eoi keyboard_intr ide_intr : M (kst V) unit).
Context (local_var : Z).
Notation K := (M (kst V)).

Definition default_exception_handler (tf : tf_t) : K (option tf_t) :=
  in_thr get_curid ;; panic "Trap".

(** [fault_va] is the contents of cr2. *)
Definition pgflt_handler (fault_va : Z) (tf : tf_t) : K (option tf_t) :=
  cur_pid ← in_thr get_curid;
  if decide (Z.land (tf_err tf) PFE_PR <> 0) then panic "Permission denied"
  else
    r ← in_vm (call_alloc_page cur_pid fault_va (Z.lor (Z.lor PTE_W PTE_U) PTE_P));
    if decide (r = MagicNumber) then panic "Page allocation failed" else mret (Some tf).

Definition exception_handler (fault_va : Z) (tf : tf_t) : K (option tf_t) :=
  in_thr get_curid ;;
  if decide (tf_trapno tf = T_PGFLT) then pgflt_handler fault_va tf
  else default_exception_handler tf.

Definition spurious_intr_handler : K unit := mret tt.
Definition default_intr_handler : K unit := intr_eoi.
Definition kbd_intr_handler : K unit := keyboard_intr ;; intr_eoi.

(** The call of [sched_update] switches to another thread when the slice is
    over; the rest of the handler then runs when this thread runs again.  The
    result says whether the handler is done. *)
Definition timer_intr_handler : K bool :=
  intr_eoi ;;
  cur ← in_thr get_curid;
  in_thr sched_update ;;
  cur' ← in_thr get_curid;
  if decide (cur' = cur) then in_w waitobj_on_timer_irq ;; mret true else mret false.
Definition timer_intr_resume : K unit := in_w waitobj_on_timer_irq.

Definition interrupt_handler (tf : tf_t) : K (option tf_t) :=
  in_thr get_curid ;;
  let trapno := tf_trapno tf in
  if decide (trapno = T_IRQ0 + IRQ_SPURIOUS) then spurious_intr_handler ;; mret (Some tf)
  else if decide (trapno = T_IRQ0 + IRQ_TIMER) then
    fin ← timer_intr_handler; mret (if (fin : bool) then Some tf else None)
  else if decide (trapno = T_IRQ0 + IRQ_KBD) then kbd_intr_handler ;; mret (Some tf)
  else if decide (trapno = T_IRQ0 + IRQ_IDE1) then ide_intr ;; intr_eoi ;; mret (Some tf)
  else if decide (trapno = T_IRQ0 + IRQ_IDE2) then mret (Some tf)
  else default_intr_handler ;; mret (Some tf).

(** ** Signals *)

(** A push onto the user stack from the variable at [local_var] *)
Definition push_bytes (cur_pid uva : Z) (l : list Z) : K unit :=
  in_vm (on_ram (store_bytes local_var l)) ;;
  in_vm (pt_copyout local_var cur_pid uva (Z.of_nat (length l))) ;;
  mret tt.

Definition trampoline : list Z :=
  [0xB8; nr_of SYS_sigreturn; 0; 0; 0; 0xCD; 0x30; 0xEB; 0xFE; 0x90; 0x90; 0x90].

Definition deliver_signal (tf : tf_t) (signum : Z) : K tf_t :=
  cur_pid ← in_thr get_curid;
  sa ← in_thr (tcb_get_sigaction cur_pid signum);
  match sa with
  | Some a =>
      if decide (sa_handler a <> 0) then
        let orig_esp := tf_esp tf in
        let orig_eip := tf_eip tf in
        let new_esp := u32 (orig_esp - 4) in
        push_bytes cur_pid new_esp (word_bytes orig_eip) ;;
        let saved_eip_addr := new_esp in
        let new_esp := u32 (new_esp - 4) in
        push_bytes cur_pid new_esp (word_bytes orig_esp) ;;
        let saved_esp_addr := new_esp in
        let new_esp := u32 (new_esp - 12) in
        push_bytes cur_pid new_esp trampoline ;;
        let trampoline_addr := new_esp in
        let new_esp := Z.land new_esp 0xfffffffc in
        let new_esp := u32 (new_esp - 4) in
        push_bytes cur_pid new_esp (word_bytes signum) ;;
        let new_esp := u32 (new_esp - 4) in
        push_bytes cur_pid new_esp (word_bytes trampoline_addr) ;;
        in_thr (tcb_set_signal_context cur_pid saved_esp_addr saved_eip_addr) ;;
        mret (set_eip_esp (sa_handler a) new_esp tf)
      else mret tf
  | None => mret tf
  end.

Definition terminate_process (pid : Z) : K unit :=
  in_thr (tcb_set_state pid TSTATE_DEAD ;;
          tqueue_remove NUM_IDS pid ;;
          tcb_set_pending_signals pid 0).

Fixpoint pending_loop (cur_pid pending_signals : Z) (signums : list Z) (tf : tf_t) : K (option tf_t) :=
  match signums with
  | [] => mret (Some tf)
  | signum :: rest =>
      if decide (Z.land pending_signals (Z.shiftl 1 signum) <> 0) then
        in_thr (tcb_clear_pending_signal cur_pid signum) ;;
        if decide (signum = SIGKILL) then
          terminate_process cur_pid ;;
          in_thr thread_exit ;;
          mret None
        else
          tf' ← deliver_signal tf signum;
          mret (Some tf')
      else pending_loop cur_pid pending_signals rest tf
  end.

Definition handle_pending_signals (tf : tf_t) : K (option tf_t) :=
  cur_pid ← in_thr get_curid;
  pending ← in_thr (tcb_get_pending_signals cur_pid);
  if decide (pending <> 0) then pending_loop cur_pid pending (seqZ 1 (NSIG - 1)) tf
  else mret (Some tf).

(** [TRAP_HANDLER] of this processor is filled, and [set_pdir_base] implemented,
    by code outside the repository; [kstack_switch] is that of Seg.v.  The
    result is the frame that [trap_return] restores. *)
Definition trap (set_pdir_base kstack_switch : Z -> K unit)
    (TRAP_HANDLER : Z -> option (tf_t -> K (option tf_t))) (tf : tf_t) : K (option tf_t) :=
  cur_pid ← in_thr get_curid;
  set_pdir_base 0 ;;
  r ← match TRAP_HANDLER (tf_trapno tf) with
      | Some f => f tf
      | None => mret (Some tf)
      end;
  match r with
  | None => mret None
  | Some tf1 =>
      kstack_switch cur_pid ;;
      r2 ← handle_pending_signals tf1;
      match r2 with
      | None => mret None
      | Some tf2 => set_pdir_base cur_pid ;; mret (Some tf2)
      end
  end.

End Handlers.

(** * Theory *)

Section Theory.
Context {V : Type} `{!VmmOps V} `{!VmmLaws V}.
Context (local_var : Z) (Hlv0 : 0 <= local_var) (Hlv : local_var + PAGESIZE <= VM_USERLO).
Implicit Types (s : kst V).

(** User memory of a process, by virtual address *)
Definition ubyte (pid : Z) (vm : V * mem) (x : Z) : Z := vm.2 !!! phys pid x vm.1.
Definition uword (pid : Z) (vm : V * mem) (x : Z) : Z := word_of (ubyte pid vm) x.

Record pushed (pid uva : Z) (l : list Z) (vm vm' : V * mem) : Prop := {
  pu_inv : vm_inv vm'.1;
  pu_present : forall pid' x, present pid' x vm.1 -> present pid' x vm'.1;
  pu_bytes : forall x, present pid x vm.1 ->
    ubyte pid vm' x =
      if decide (uva <= x < uva + Z.of_nat (length l)) then l !!! Z.to_nat (x - uva) else ubyte pid vm x;
}.

Lemma push_bytes_spec pid uva l s :
  vm_inv (k_vm s).1 -> Z.of_nat (length l) <= PAGESIZE ->
  0 < pid < NUM_IDS -> VM_USERLO <= uva -> uva + Z.of_nat (length l) <= VM_USERHI ->
  (forall i, 0 <= i < Z.of_nat (length l) -> present pid (uva + i) (k_vm s).1) ->
  exists vm', push_bytes local_var pid uva l s = Ok (tt, set_k_vm vm' s)
    /\ pushed pid uva l (k_vm s) vm'.
Proof.
  intros Hv Hl Hpid Hlo Hhi Hp. set (n := Z.of_nat (length l)) in *.
  destruct (k_vm s) as [v m] eqn:Es. cbn [fst snd] in *.
  set (m1 := store_bytes local_var l m).
  destruct (pt_copyout_spec local_var pid uva n v m1) as (v' & m' & E & Hv' & Hk & Hw);
    try done; try lia.
  destruct Hw as (W1 & W2 & W3); [intros; eapply kept_present; [done|auto]|].
  exists (v', m'). split.
  - unfold push_bytes. rewrite (bind_ok _ _ s tt (set_k_vm (v, m1) s)).
    2: { unfold in_vm, zoom, on_ram, modify. by rewrite Es. }
    fold n. rewrite (bind_ok _ _ _ n (set_k_vm (v', m') s)); [done|].
    unfold in_vm, zoom. cbn [k_vm set_k_vm]. by rewrite E.
  - split; cbn [fst snd]; [done|intros; by eapply kept_present|].
    intros x Hx. unfold ubyte. cbn [fst snd].
    assert (m1 !!! phys pid x v = m !!! phys pid x v) as Hm1.
    { unfold m1. rewrite store_bytes_lookup, decide_False; [done|].
      pose proof (frames_user v pid x Hv Hx). lia. }
    fold n. destruct (decide (uva <= x < uva + n)) as [Hin|Hout].
    + specialize (W1 (x - uva) ltac:(lia)). replace (uva + (x - uva)) with x in W1 by lia.
      rewrite W1. unfold m1. rewrite store_bytes_lookup. fold n.
      rewrite decide_True by lia. f_equal. lia.
    + rewrite (kept_phys _ _ _ _ _ _ _ Hk Hx). rewrite W3, Hm1; [done|done|]. intros [_ ?]. done.
Qed.

(** The word pushed is the word read, and other words are unchanged. *)
Lemma pushed_word pid uva w vm vm' :
  pushed pid uva (word_bytes w) vm vm' -> 0 <= w < W32 ->
  (forall i, 0 <= i < 4 -> present pid (uva + i) vm.1) -> uword pid vm' uva = w.
Proof.
  intros [_ _ B] Hw Hp. unfold uword.
  etransitivity; [|exact (word_bytes_word w Hw)]. unfold word_of. pose proof (B uva) as B0. pose proof (B (uva + 1)) as B1.
  pose proof (B (uva + 2)) as B2. pose proof (B (uva + 3)) as B3.
  change (Z.of_nat (length (word_bytes w))) with 4 in *.
  pose proof (Hp 0 ltac:(lia)) as P0. rewrite Z.add_0_r in P0.
  rewrite (B0 P0), (B1 (Hp 1 ltac:(lia))), (B2 (Hp 2 ltac:(lia))), (B3 (Hp 3 ltac:(lia))).
  rewrite !decide_True by lia.
  replace (uva - uva) with 0 by lia. replace (uva + 1 - uva) with (0 + 1) by lia.
  replace (uva + 2 - uva) with (0 + 2) by lia. replace (uva + 3 - uva) with (0 + 3) by lia. done.
Qed.

Lemma pushed_other pid uva l vm vm' x :
  pushed pid uva l vm vm' -> present pid x vm.1 ->
  ~ (uva <= x < uva + Z.of_nat (length l)) -> ubyte pid vm' x = ubyte pid vm x.
Proof. intros [_ _ B] Hp Hn. by rewrite B, decide_False. Qed.

Lemma pushed_word_other pid uva l vm vm' x :
  pushed pid uva l vm vm' -> (forall i, 0 <= i < 4 -> present pid (x + i) vm.1) ->
  x + 4 <= uva \/ uva + Z.of_nat (length l) <= x -> uword pid vm' x = uword pid vm x.
Proof.
  intros Hpu Hp Hd. apply word_of_ext. intros i Hi. eapply pushed_other; [done|by apply Hp|lia].
Qed.

(** ** Delivering a signal *)
Definition align4 (x : Z) : Z := 4 * (x / 4).

Lemma land_align4 x : 0 <= x < W32 -> Z.land x 0xfffffffc = align4 x.
Proof.
  intros Hx. change 0xfffffffc with (Z.ldiff (Z.ones 32) (Z.ones 2)).
  rewrite Z.ldiff_land, Z.land_assoc, Z.land_ones by lia.
  rewrite (Z.mod_small x) by (change (2 ^ 32) with W32; lia).
  rewrite <- Z.ldiff_land, Z.ldiff_ones_r, Z.shiftl_mul_pow2, Z.shiftr_div_pow2 by lia.
  unfold align4. change (2 ^ 2) with 4. lia.
Qed.

Lemma align4_bounds x : x - 3 <= align4 x <= x.
Proof. unfold align4. pose proof (Z.div_mod x 4). pose proof (Z.mod_pos_bound x 4). lia. Qed.

(** The user stack a handler starts with, for a process interrupted at [eip]
    with stack pointer [esp] *)
Record signal_frame (pid esp eip signum : Z) (vm : V * mem) : Prop := {
  fr_inv : vm_inv vm.1;
  fr_present : forall x, esp - 32 <= x < esp -> present pid x vm.1;
  fr_eip : uword pid vm (esp - 4) = eip;
  fr_esp : uword pid vm (esp - 8) = esp;
  fr_code : forall i, 0 <= i < 12 -> ubyte pid vm (esp - 20 + i) = trampoline !!! Z.to_nat i;
  fr_arg : uword pid vm (align4 (esp - 20) - 4) = signum;
  fr_ret : uword pid vm (align4 (esp - 20) - 8) = esp - 20;
}.

Definition in_handler (pid esp : Z) (t : thr) : thr :=
  upd_tcb pid (with_sigstate (set_sigcontext (esp - 8) (esp - 4) 1)) t.

(** One push of [deliver_signal], when the whole frame is mapped *)
Lemma push_in_frame pid esp uva l s :
  vm_inv (k_vm s).1 -> 0 < pid < NUM_IDS -> VM_USERLO + 32 <= esp <= VM_USERHI ->
  (forall x, esp - 32 <= x < esp -> present pid x (k_vm s).1) ->
  esp - 32 <= uva -> uva + Z.of_nat (length l) <= esp ->
  exists vm', push_bytes local_var pid uva l s = Ok (tt, set_k_vm vm' s)
    /\ pushed pid uva l (k_vm s) vm'
    /\ forall x, esp - 32 <= x < esp -> present pid x vm'.1.
Proof.
  intros Hv Hpid He Hp H1 H2.
  destruct (push_bytes_spec pid uva l s) as (vm' & E & Hpu); try done; try lia.
  { unfold PAGESIZE. lia. } { intros. apply Hp. lia. }
  exists vm'. split_and!; [done|done|]. intros x Hx. by apply Hpu, Hp.
Qed.

Lemma deliver_signal_spec s a tf signum act :
  sched_abs (k_thr s) a -> 0 < a_cur a -> 0 <= signum < NSIG ->
  sigactions (tcb_sigstate (TCBPool (k_thr s) !!! a_cur a)) !!! signum = act -> sa_handler act <> 0 ->
  vm_inv (k_vm s).1 -> VM_USERLO + 32 <= tf_esp tf <= VM_USERHI -> is_u32 (tf_eip tf) ->
  (forall x, tf_esp tf - 32 <= x < tf_esp tf -> present (a_cur a) x (k_vm s).1) ->
  exists vm',
    deliver_signal local_var tf signum s =
      Ok (set_eip_esp (sa_handler act) (align4 (tf_esp tf - 20) - 8) tf,
          set_k_thr (in_handler (a_cur a) (tf_esp tf) (k_thr s)) (set_k_vm vm' s))
    /\ signal_frame (a_cur a) (tf_esp tf) (tf_eip tf) signum vm'.
Proof.
  intros Ha Hc0 Hsig Hact Hh Hv He Hip Hp. pose proof Ha as [[_ _ Hcr _ _ _ _] _].
  assert (0 < a_cur a < NUM_IDS) as Hpid by lia.
  set (pid := a_cur a) in *. set (esp := tf_esp tf) in *.
  pose proof (align4_bounds (esp - 20)) as Hal.
  unfold deliver_signal. fold pid. rewrite (bind_ok _ _ _ _ _ (in_get_curid s a Ha)). fold pid.
  rewrite (bind_ok _ _ s (Some act) s).
  2: { rewrite (in_thr_ok _ _ (Some act) (k_thr s)); [by rewrite set_k_thr_same|].
       unfold tcb_get_sigaction. rewrite !bool_decide_eq_false_2 by lia. cbn.
       rewrite tcb_read_ok by done. by rewrite Hact. }
  rewrite decide_True by done. cbv zeta. fold esp. unfold is_u32 in Hip.
  assert (forall x, esp - 32 <= x < esp -> u32 x = x) as Hu.
  { intros x Hx. apply u32_id. unfold VM_USERLO, VM_USERHI, W32 in *. lia. }
  rewrite (Hu (esp - 4)) by lia. replace (esp - 4 - 4) with (esp - 8) by lia.
  rewrite (Hu (esp - 8)) by lia. replace (esp - 8 - 12) with (esp - 20) by lia.
  rewrite (Hu (esp - 20)) by lia.
  rewrite land_align4 by (unfold VM_USERLO, VM_USERHI, W32 in *; lia).
  rewrite (Hu (align4 (esp - 20) - 4)) by lia.
  replace (align4 (esp - 20) - 4 - 4) with (align4 (esp - 20) - 8) by lia.
  rewrite (Hu (align4 (esp - 20) - 8)) by lia.
  assert (forall w, Z.of_nat (length (word_bytes w)) = 4) as L4 by done.
  assert (Z.of_nat (length trampoline) = 12) as L12 by done.
  destruct (push_in_frame pid esp (esp - 4) (word_bytes (tf_eip tf)) s) as (vm1 & E1 & U1 & P1);
    rewrite ?L4; try done; try lia.
  destruct (push_in_frame pid esp (esp - 8) (word_bytes esp) (set_k_vm vm1 s)) as (vm2 & E2 & U2 & P2);
    rewrite ?L4; cbn [k_vm set_k_vm] in *; try done; try lia; [apply U1|].
  destruct (push_in_frame pid esp (esp - 20) trampoline (set_k_vm vm2 s)) as (vm3 & E3 & U3 & P3);
    rewrite ?L12; cbn [k_vm set_k_vm] in *; try done; try lia; [apply U2|].
  destruct (push_in_frame pid esp (align4 (esp - 20) - 4) (word_bytes signum) (set_k_vm vm3 s))
    as (vm4 & E4 & U4 & P4); rewrite ?L4; cbn [k_vm set_k_vm] in *; try done; try lia; [apply U3|].
  destruct (push_in_frame pid esp (align4 (esp - 20) - 8) (word_bytes (esp - 20)) (set_k_vm vm4 s))
    as (vm5 & E5 & U5 & P5); rewrite ?L4; cbn [k_vm set_k_vm] in *; try done; try lia; [apply U4|].
  exists vm5. split.
  - rewrite (bind_ok _ _ _ _ _ E1), (bind_ok _ _ _ _ _ E2), (bind_ok _ _ _ _ _ E3),
      (bind_ok _ _ _ _ _ E4), (bind_ok _ _ _ _ _ E5).
    rewrite (bind_ok _ _ _ tt (set_k_thr (in_handler pid esp (k_thr s)) (set_k_vm vm5 s))); [done|].
    apply in_thr_ok. by apply tcb_write_ok.
  - assert (forall b i, esp - 32 <= b -> b + 4 <= esp -> 0 <= i < 4 -> esp - 32 <= b + i < esp) as Hr by (intros; lia).
    assert (esp < W32) as HW by (unfold VM_USERHI, W32 in *; lia).
    assert (0 <= esp - 32) as HW0 by (unfold VM_USERLO in *; lia).
    split; [apply U5|done|..].
    + rewrite (pushed_word_other _ _ _ _ _ _ U5) by (rewrite ?L4; intros; try apply P4; lia).
      rewrite (pushed_word_other _ _ _ _ _ _ U4) by (rewrite ?L4; intros; try apply P3; lia).
      rewrite (pushed_word_other _ _ _ _ _ _ U3) by (rewrite ?L12; intros; try apply P2; lia).
      rewrite (pushed_word_other _ _ _ _ _ _ U2) by (rewrite ?L4; intros; try apply P1; lia).
      apply (pushed_word _ _ _ _ _ U1); [done|]. intros; apply Hp; lia.
    + rewrite (pushed_word_other _ _ _ _ _ _ U5) by (rewrite ?L4; intros; try apply P4; lia).
      rewrite (pushed_word_other _ _ _ _ _ _ U4) by (rewrite ?L4; intros; try apply P3; lia).
      rewrite (pushed_word_other _ _ _ _ _ _ U3) by (rewrite ?L12; intros; try apply P2; lia).
      apply (pushed_word _ _ _ _ _ U2); [lia|]. intros; apply P1; lia.
    + intros i Hi.
      rewrite (pushed_other _ _ _ _ _ _ U5) by (rewrite ?L4; try apply P4; lia).
      rewrite (pushed_other _ _ _ _ _ _ U4) by (rewrite ?L4; try apply P3; lia).
      rewrite (pu_bytes _ _ _ _ _ U3) by (apply P2; lia). rewrite L12, decide_True by lia. f_equal. lia.
    + rewrite (pushed_word_other _ _ _ _ _ _ U5) by (rewrite ?L4; intros; try apply P4; lia).
      apply (pushed_word _ _ _ _ _ U4); [unfold NSIG, W32 in *; lia|]. intros; apply P3; lia.
    + apply (pushed_word _ _ _ _ _ U5); [lia|]. intros; apply P4; lia.
Qed.

(** ** Returning from a handler *)
Lemma copyin_word_spec pid uva s :
  vm_inv (k_vm s).1 -> 0 < pid < NUM_IDS -> VM_USERLO <= uva -> uva + 4 <= VM_USERHI ->
  (forall i, 0 <= i < 4 -> present pid (uva + i) (k_vm s).1) ->
  exists vm', copyin_word local_var pid uva s = Ok (Some (uword pid (k_vm s) uva), set_k_vm vm' s)
    /\ vm_inv vm'.1
    /\ forall pid' x, present pid' x (k_vm s).1 ->
        present pid' x vm'.1 /\ ubyte pid' vm' x = ubyte pid' (k_vm s) x.
Proof.
  intros Hv Hpid Hlo Hhi Hp. destruct (k_vm s) as [v m] eqn:Es. cbn [fst snd] in *.
  destruct (pt_copyin_spec pid uva local_var 4 v m) as (v' & m' & E & Hv' & Hk & HR);
    try done; try (unfold PAGESIZE in *; lia).
  destruct HR as (R1 & R2 & R3); [intros; eapply kept_present; [done|auto]|].
  assert (forall pid' x, present pid' x v ->
    present pid' x v' /\ ubyte pid' (v', m') x = ubyte pid' (v, m) x) as Hu.
  { intros pid' x Hx. split; [by eapply kept_present|]. unfold ubyte. cbn [fst snd].
    rewrite (kept_phys _ _ _ _ _ _ _ Hk Hx). by apply R3. }
  exists (v', m'). split; [|by split].
  unfold copyin_word. rewrite (bind_ok _ _ _ 4 (set_k_vm (v', m') s)).
  2: { unfold in_vm, zoom. by rewrite Es, E. }
  rewrite decide_False by tauto. unfold gets, mbind, M_bind, mret, M_ret. cbn [k_vm set_k_vm snd].
  do 3 f_equal. unfold uword.
  etransitivity; [|apply (word_of_ext (ubyte pid (v', m')) _ uva); intros i Hi; by apply Hu, Hp].
  unfold ldw, ldb, word_of, ubyte. cbn [fst snd].
  pose proof (R1 0 ltac:(lia)) as E0. rewrite !Z.add_0_r in E0. rewrite E0.
  by rewrite (R1 1), (R1 2), (R1 3) by lia.
Qed.

Lemma sys_sigreturn_spec s a tf esp_addr eip_addr :
  sched_abs (k_thr s) a -> 0 < a_cur a ->
  let g := tcb_sigstate (TCBPool (k_thr s) !!! a_cur a) in
  saved_esp_addr g = esp_addr -> saved_eip_addr g = eip_addr ->
  vm_inv (k_vm s).1 ->
  VM_USERLO <= esp_addr -> esp_addr + 4 <= VM_USERHI ->
  VM_USERLO <= eip_addr -> eip_addr + 4 <= VM_USERHI ->
  (forall i, 0 <= i < 4 -> present (a_cur a) (esp_addr + i) (k_vm s).1) ->
  (forall i, 0 <= i < 4 -> present (a_cur a) (eip_addr + i) (k_vm s).1) ->
  exists vm',
    sys_sigreturn local_var tf s =
      Ok (syscall_set_errno (set_eip_esp (uword (a_cur a) (k_vm s) eip_addr)
                               (uword (a_cur a) (k_vm s) esp_addr) tf) E_SUCC,
          set_k_thr (upd_tcb (a_cur a) (with_sigstate (set_sigcontext 0 0 0)) (k_thr s))
            (set_k_vm vm' s)).
Proof.
  intros Ha Hc0 g E1 E2 Hv H1 H2 H3 H4 P1 P2. pose proof Ha as [[_ _ Hcr _ _ _ _] _].
  unfold sys_sigreturn. rewrite (bind_ok _ _ _ _ _ (in_get_curid s a Ha)).
  rewrite (bind_ok _ _ s (esp_addr, eip_addr) s).
  2: { rewrite (in_thr_ok _ _ (esp_addr, eip_addr) (k_thr s)); [by rewrite set_k_thr_same|].
       unfold tcb_get_signal_context. rewrite tcb_read_ok by done. fold g. by rewrite E1, E2. }
  rewrite decide_False by (unfold VM_USERLO in *; lia).
  destruct (copyin_word_spec (a_cur a) esp_addr s Hv ltac:(lia) H1 H2 P1) as (vm1 & C1 & Hv1 & U1).
  rewrite (bind_ok _ _ _ _ _ C1).
  destruct (copyin_word_spec (a_cur a) eip_addr (set_k_vm vm1 s)) as (vm2 & C2 & Hv2 & U2);
    cbn [k_vm set_k_vm]; try done; [lia| |]. { intros i Hi. by apply U1, P2. }
  rewrite (bind_ok _ _ _ _ _ C2). cbn [k_vm set_k_vm].
  exists vm2. rewrite (bind_ok _ _ _ tt
    (set_k_thr (upd_tcb (a_cur a) (with_sigstate (set_sigcontext 0 0 0)) (k_thr s)) (set_k_vm vm2 s))).
  - unfold mret, M_ret. do 4 f_equal. apply word_of_ext. intros i Hi. by apply U1, P2.
  - apply in_thr_ok. by apply tcb_write_ok.
Qed.

(** Without a saved context, [sys_sigreturn] changes nothing but the errno. *)
Lemma sys_sigreturn_refused s a tf :
  sched_abs (k_thr s) a ->
  saved_esp_addr (tcb_sigstate (TCBPool (k_thr s) !!! a_cur a)) = 0 ->
  sys_sigreturn local_var tf s = Ok (syscall_set_errno tf E_INVAL_ADDR, s).
Proof.
  intros Ha E. pose proof Ha as [[_ _ Hcr _ _ _ _] _].
  unfold sys_sigreturn. rewrite (bind_ok _ _ _ _ _ (in_get_curid s a Ha)).
  set (p := (saved_esp_addr (tcb_sigstate (TCBPool (k_thr s) !!! a_cur a)),
             saved_eip_addr (tcb_sigstate (TCBPool (k_thr s) !!! a_cur a)))).
  rewrite (bind_ok _ _ s p s).
  2: { rewrite (in_thr_ok _ _ p (k_thr s)); [by rewrite set_k_thr_same|].
       unfold tcb_get_signal_context. by rewrite tcb_read_ok. }
  unfold p. by rewrite decide_True by (left; exact E).
Qed.

(** Changes of a signal state do not concern the scheduler. *)
Lemma sched_abs_sigstate t a pid f :
  sched_abs t a -> sched_abs (upd_tcb pid (with_sigstate f) t) a.
Proof.
  intros [[Hcpu Hcur Hcr Hq Hrun Hrd Hch] Hlk].
  assert (forall y, tcb_state (TCBPool (upd_tcb pid (with_sigstate f) t) !!! y) = tcb_state (TCBPool t !!! y)
    /\ tcb_channel (TCBPool (upd_tcb pid (with_sigstate f) t) !!! y) = tcb_channel (TCBPool t !!! y)) as H.
  { intros y. rewrite TCBPool_upd_tcb. by destruct (decide (pid = y)) as [->|]. }
  split; [|exact Hlk]. split.
  - solve_cpu.
  - exact Hcur.
  - done.
  - apply queue_repr_upd; [by intros|done].
  - by rewrite (proj1 (H _)).
  - intros x Hx. rewrite (proj1 (H x)). by apply Hrd.
  - intros x. rewrite Hch. unfold chan_of. destruct (H x) as [-> ->]. done.
Qed.

(** ** Choosing a pending signal *)
Lemma bit_test p n : 0 <= n -> Z.land p (Z.shiftl 1 n) <> 0 <-> Z.testbit p n = true.
Proof.
  intros Hn. rewrite Z.shiftl_1_l. split.
  - intros H. destruct (Z.testbit p n) eqn:E; [done|]. exfalso. apply H.
    apply Z.bits_inj'. intros k Hk. rewrite Z.land_spec, Z.bits_0, Z.pow2_bits_eqb by lia.
    destruct (Z.eqb_spec n k); [subst; by rewrite E|by rewrite andb_false_r].
  - intros E H. apply (f_equal (fun z => Z.testbit z n)) in H.
    rewrite Z.land_spec, Z.bits_0, Z.pow2_bits_true, E in H by lia. done.
Qed.

Lemma pending_loop_lowest cur p tf s n : forall k,
  1 <= k <= n -> n < NSIG ->
  (forall i, k <= i < n -> Z.testbit p i = false) -> Z.testbit p n = true -> n <> SIGKILL ->
  pending_loop local_var cur p (seqZ k (NSIG - k)) tf s =
    (in_thr (tcb_clear_pending_signal cur n) ;;
     tf' ← deliver_signal local_var tf n; mret (Some tf')) s.
Proof.
  intros k Hk Hn Hz Hb Hs. remember (Z.to_nat (n - k)) as d eqn:Ed. revert k Hk Hz Ed.
  induction d as [|d IH]; intros k Hk Hz Ed; rewrite seqZ_cons by lia; cbn [pending_loop].
  - assert (k = n) as -> by lia. rewrite decide_True by (apply bit_test; [lia|done]).
    unfold mbind, M_bind.
    destruct (in_thr (tcb_clear_pending_signal cur n) s) as [[[] s1]| | | |]; try done.
    by rewrite decide_False by done.
  - rewrite decide_False.
    + replace (Z.pred (NSIG - k)) with (NSIG - (k + 1)) by lia.
      apply IH; [lia|intros; apply Hz; lia|lia].
    + rewrite bit_test by lia. rewrite Hz by lia. done.
Qed.

End Theory.

(** A process with a mapped stack for the witnesses: process 1, page 0xeffff. *)
Definition stack_pages : pages := mk_pages {[(1, 0xeffff) := 0x40000]} 0x40001.
Definition sig_thr (pending : Z) : thr :=
  upd_tcb 1 (with_sigstate (fun g => set_pending pending
    (set_sigaction 10 {| sa_handler := 0x40002000; sa_sigaction := 0; sa_flags := 0;
                         sa_restorer := 0; sa_mask := 0 |} g))) WaitProps.demo_sched.
Definition sig_kst (pending : Z) : kst pages :=
  set_k_thr (sig_thr pending) (user_kst (stack_pages, ∅) no_msgs).

Lemma stack_pages_inv : pages_inv stack_pages.
Proof.
  split; cbn [stack_pages frames next_frame].
  - vm_compute. intuition congruence.
  - intros k f [<- <-]%lookup_singleton_Some. vm_compute. intuition congruence.
  - intros k k' f [<- <-]%lookup_singleton_Some [<- E]%lookup_singleton_Some. done.
Qed.

Lemma stack_pages_present x :
  0xefffff00 - 32 <= x < 0xefffff00 -> present (V := pages) 1 x stack_pages.
Proof.
  intros Hx. assert (user_va 1 x) as Hu by (unfold user_va, NUM_IDS, VM_USERLO, VM_USERHI; lia).
  split; [done|]. cbn. unfold pages_entry. rewrite decide_True by done.
  replace (x / PAGESIZE) with 0xeffff
    by (unfold PAGESIZE; apply (Z.div_unique _ 4096 _ (x - 0xeffff * 4096)); lia).
  vm_compute. discriminate.
Qed.

(** * Properties *)
Module TrapProps.



(** Pending signals are handled lowest number first, one per
    return to user mode: if [n] is the smallest pending signal (and not
    SIGKILL), [handle_pending_signals] clears its bit and delivers it, and does
    nothing else. *)
Theorem lowest_pending_signal_first `{!VmmOps V} (s : kst V) a tf n local_var :
  sched_abs (k_thr s) a -> 1 <= n < NSIG -> n <> SIGKILL ->
  let p := pending_signals (tcb_sigstate (TCBPool (k_thr s) !!! a_cur a)) in
  Z.testbit p n = true -> (forall i, 1 <= i < n -> Z.testbit p i = false) ->
  handle_pending_signals local_var tf s =
    (in_thr (tcb_clear_pending_signal (a_cur a) n) ;;
     tf' ← deliver_signal local_var tf n; mret (Some tf')) s.
Proof.
  intros Ha Hn Hk p Hb Hlow. pose proof Ha as [[_ _ Hcr _ _ _ _] _].
  unfold handle_pending_signals. rewrite (bind_ok _ _ _ _ _ (in_get_curid s a Ha)).
  rewrite (bind_ok _ _ s p s).
  2: { rewrite (in_thr_ok _ _ p (k_thr s)); [by rewrite set_k_thr_same|]. by apply tcb_read_ok. }
  rewrite decide_True by (intros E; rewrite E, Z.bits_0 in Hb; done).
  apply pending_loop_lowest; try done; lia.
Qed.

(** Signals 10 and 12 are pending. *)
Lemma lowest_pending_signal_first_witness :
  handle_pending_signals 0x1000 (demo_tf 0 0) (sig_kst 0x1400) =
    (in_thr (tcb_clear_pending_signal 1 10) ;;
     tf' ← deliver_signal 0x1000 (demo_tf 0 0) 10; mret (Some tf')) (sig_kst 0x1400).
Proof.
  apply (lowest_pending_signal_first (sig_kst 0x1400) WaitProps.demo_abs1 (demo_tf 0 0) 10 0x1000).
  - apply sched_abs_sigstate. exact WaitProps.demo_sched_abs.
  - unfold NSIG. lia.
  - discriminate.
  - reflexivity.
  - intros i Hi.
    assert (i = 1 \/ i = 2 \/ i = 3 \/ i = 4 \/ i = 5 \/ i = 6 \/ i = 7 \/ i = 8 \/ i = 9)
      as [->|[->|[->|[->|[->|[->|[->|[->| ->]]]]]]]] by lia; reflexivity.
Defined.

(** Dispatch of system calls.  A valid number other than SYS_touch
    runs exactly its handler; SYS_touch also runs SYS_readline's.  An invalid
    number does not report E_INVAL_CALLNR: the frame is returned unchanged (eax
    still holds the number), and a stray word is written to physical address
    31. *)
Theorem syscall_dispatch_routes {V} (h : syscall_nr -> tf_t -> M (kst V) (option tf_t)) w tf s :
  (forall c, decode_nr (syscall_get_arg1 tf) = Some c -> c <> SYS_touch ->
     syscall_dispatch h w tf s = h c tf s)
  /\ (decode_nr (syscall_get_arg1 tf) = Some SYS_touch -> forall tf' s',
     h SYS_touch tf s = Ok (Some tf', s') -> syscall_dispatch h w tf s = h SYS_readline tf' s')
  /\ (0 <= syscall_get_arg1 tf < Z.of_nat (length syscall_nrs) ->
      exists c, decode_nr (syscall_get_arg1 tf) = Some c /\ nr_of c = syscall_get_arg1 tf)
  /\ (~ 0 <= syscall_get_arg1 tf < Z.of_nat (length syscall_nrs) ->
     syscall_dispatch h w tf s =
       Ok (Some tf, set_k_vm ((k_vm s).1, store_word 31 w (k_vm s).2) s)).
Proof.
  split_and!.
  - intros c E Hc. unfold syscall_dispatch. rewrite E. by destruct c.
  - intros E tf' s' Ht. unfold syscall_dispatch. rewrite E. by rewrite (bind_ok _ _ _ _ _ Ht).
  - generalize (syscall_get_arg1 tf). intros n Hn. unfold decode_nr. rewrite decide_True by lia.
    destruct (lookup_lt_is_Some_2 syscall_nrs (Z.to_nat n) ltac:(lia)) as [c Ec]. exists c.
    split; [exact Ec|]. replace n with (Z.of_nat (Z.to_nat n)) by lia.
    revert Ec. generalize (Z.to_nat n). clear n Hn.
    intros k Ek.
    do 33 (destruct k as [|k]; [injection Ek as <-; reflexivity|]). done.
  - intros Hn. unfold syscall_dispatch, decode_nr. destruct (decide (0 <= syscall_get_arg1 tf)) as [H0|H0].
    + rewrite lookup_ge_None_2 by lia. done.
    + done.
Qed.

(** The tick that ends a time slice is not counted in time.  The
    timer interrupt calls the scheduler before the wait objects: when the slice
    is over and another thread is ready, the processor switches away and the
    tick count and the timer sources of the wait objects are left as they were;
    the rest of the handler runs only when the interrupted thread is scheduled
    again. *)
Theorem slice_end_defers_wait_tick {V} (s : kst V) a x rq (intr_eoi : M (kst V) unit) :
  sched_abs (k_thr s) a -> a_rq a = x :: rq -> SCHED_SLICE <= cpu_ticks (k_thr s) < W32 - 1 ->
  intr_eoi s = Ok (tt, s) ->
  exists s', timer_intr_handler intr_eoi s = Ok (false, s')
    /\ wt (k_w s') = wt (k_w s) /\ sched_abs (k_thr s') (a_yield a) /\ a_cur (a_yield a) = x.
Proof.
  intros Ha Erq Ht Hi. unfold timer_intr_handler. rewrite (bind_ok _ _ _ _ _ Hi).
  rewrite (bind_ok _ _ _ _ _ (in_get_curid s a Ha)).
  destruct (sched_update_sim (k_thr s) a Ha ltac:(unfold SCHED_SLICE in *; lia)) as (t' & E & _ & H).
  rewrite decide_True in H by lia. destruct H as (Ha' & _ & _).
  rewrite (bind_ok _ _ _ _ _ (in_thr_ok _ _ _ _ E)).
  assert (a_cur (a_yield a) = x) as Ex by (unfold a_yield; by rewrite Erq).
  rewrite (bind_ok _ _ _ _ _ (in_get_curid (set_k_thr t' s) (a_yield a) Ha')). rewrite Ex.
  exists (set_k_thr t' s). rewrite decide_False; [by split_and!|]. intros ->.
  pose proof Ha as [[_ _ _ _ Hrun Hrd _] _].
  assert (a_cur a ∈ a_rq a) as Hin by (rewrite Erq; by left).
  rewrite (Hrd _ Hin) in Hrun. done.
Qed.

(** Five ticks have passed when the interrupt comes. *)
Definition slice_over : kst pages :=
  set_k_thr (with_sched_ticks (fun _ => {[0 := 5]}) SchedProps.demo) (demo_kst (no_pages, ∅) no_msgs).

Lemma slice_end_defers_wait_tick_witness :
  exists s', timer_intr_handler (mret tt) slice_over = Ok (false, s')
    /\ wt (k_w s') = wt (k_w slice_over).
Proof.
  destruct (slice_end_defers_wait_tick slice_over SchedProps.demo_a 1 [2] (mret tt)) as (s' & E & Hw & _).
  - destruct SchedProps.demo_abs as [H Hl]. split; [|exact Hl]. by apply sched_core_ticks.
  - reflexivity.
  - vm_compute. split; [discriminate|reflexivity].
  - reflexivity.
  - exists s'. split; [exact E|exact Hw].
Defined.

End TrapProps.
