(* ===== verification/Start.v ===== *)
(** * Start of the kernel (init/init.c)

    [kern_init] sets up the thread tables, creates the idle process and the
    first user process and switches to the latter.  The
    specifications say what its parts do: [thread_init] leaves the initial state
    of the scheduler's specification, [proc_create] loads an image and makes the
    process ready, the end of [kern_main] enters it. *)

From S2P Require Import Prelude DList Machine Thread Scheduler WaitObj WaitSys PMM KString Bytes Printfmt Pmap Elf Ipc Syscall.

Section Init.
Context {V : Type} `{!VmmOps V}.
(** Outside the repository, as in [thread_init] and [proc_create] *)
Context (paging_init : M thr unit) (stack_word : Z -> Z) (alloc_mem_quota : Z -> Z -> M thr Z).
Context (proc_kstack_addr proc_start_user_addr : Z).
(** The images linked into the kernel *)
Context (idle_image wait_demo_image : Z).

Notation K := (M (kst V)).

(** Up to the switch: what follows it in C is a panic that is never reached. *)
Definition kern_main : K unit :=
  _ ← in_thr cur_pcpu_idx;
  _ ← proc_create alloc_mem_quota proc_kstack_addr proc_start_user_addr idle_image 1000;
  pid ← proc_create alloc_mem_quota proc_kstack_addr proc_start_user_addr wait_demo_image 1000;
  in_thr (tqueue_remove NUM_IDS pid) ;;
  in_thr (tcb_set_state pid TSTATE_RUN) ;;
  in_thr (set_curid pid) ;;
  in_thr (kctx_switch 0 pid).

Definition kern_init : K unit :=
  in_thr (thread_init paging_init stack_word) ;;
  kern_main.

(** [all_ready] and [cpu_booted] *)
Record boot_vars := mk_boot_vars { all_ready : bool; cpu_booted : Z }.

Definition with_pcpus (p : gmap Z pcpu) (s : thr) : thr :=
  {| TCBPool := TCBPool s; TQueuePool := TQueuePool s; CURID := CURID s; kctx_pool := kctx_pool s; regs := regs s;
     sched_lk := sched_lk s; sched_ticks := sched_ticks s; pcpus := p; cur_kstack := cur_kstack s |}.
Definition in_pcpus {A} (m : M (gmap Z pcpu) A) : M (thr * boot_vars) A :=
  zoom (fun s => pcpus s.1) (fun p s => (with_pcpus p s.1, s.2)) m.

Definition kern_main_ap : M (thr * boot_vars) unit :=
  cpu_idx ← zoom fst (fun t s => (t, s.2)) cur_pcpu_idx;
  in_pcpus (set_pcpu_boot_info cpu_idx true) ;;
  b ← gets (fun s : thr * boot_vars => s.2);
  if decide (all_ready b = false) then fail Spin
  else modify (fun s => (s.1, mk_boot_vars (all_ready s.2) (s32 (cpu_booted s.2 + 1)))).
End Init.

(** ** The thread tables *)

(** Nobody but thread 0 runs, nobody is ready and nobody sleeps. *)
Definition a_start : asched := {| a_cur := 0; a_rq := []; a_chan := fun _ => None |}.

(** What the initialisation keeps *)
Record starting (s s' : thr) : Prop := {
  st_pcpus : pcpus s' = pcpus s;
  st_kstack : cur_kstack s' = cur_kstack s;
  st_kctx : kctx_pool s' = kctx_pool s;
  st_regs : regs s' = regs s;
  st_lk : sched_lk s' = sched_lk s;
  st_awake x : tcb_state (TCBPool s' !!! x) <> TSTATE_SLEEP;
}.

Lemma starting_cpu s s' : starting s s' -> cpu_ok s -> cpu_ok s'.
Proof. intros []. by apply cpu_ok_ext. Qed.
Lemma starting_upd s s' p f :
  (forall t, tcb_state t <> TSTATE_SLEEP -> tcb_state (f t) <> TSTATE_SLEEP) -> starting s s' -> starting s (upd_tcb p f s').
Proof. intros Hf [? ? ? ? ? Ha]. split; try done. intros x. rewrite TCBPool_upd_tcb. case_decide; [by apply Hf|done]. Qed.

Definition empty_queue : TQueue := {| tq_head := NUM_IDS; tq_tail := NUM_IDS |}.

Lemma ticks_loop s0 s : starting s0 s ->
  exists s', for_each (seqZ 0 NUM_CPUS) (fun i => check_index NUM_CPUS i ;; modify (with_sched_ticks (fun m => <[i := 0]> m))) s = Ok (tt, s')
    /\ starting s0 s'.
Proof.
  intros H. apply (for_range_ind (fun _ s' => starting s0 s')); [done| |done]. intros k s1 Hk [].
  rewrite (bind_ok _ _ _ _ _ (check_index_ok _ _ _ Hk)). eexists. split; [reflexivity|]. by split.
Qed.

Lemma tcb_loop s0 s w : (forall k, 0 <= w k < NUM_IDS) -> starting s0 s ->
  exists s', for_each (seqZ 0 NUM_IDS) (fun pid => tcb_init_at_id pid (w pid)) s = Ok (tt, s') /\ starting s0 s'.
Proof.
  intros Hw H. apply (for_range_ind (fun _ s' => starting s0 s')); [done| |done]. intros k s1 Hk H1.
  unfold tcb_init_at_id. rewrite tcb_write_ok by apply Hw. eexists. split; [reflexivity|]. by apply starting_upd.
Qed.

Lemma queue_loop s0 s : starting s0 s ->
  exists s', for_each (seqZ 0 NUM_CPUS) (fun c => for_each (seqZ 0 (NUM_IDS + 1)) (fun chid => tqueue_init_at_id c chid)) s = Ok (tt, s')
    /\ starting s0 s' /\ forall c ch, 0 <= c < NUM_CPUS -> 0 <= ch <= NUM_IDS -> TQueuePool s' !!! (c, ch) = empty_queue.
Proof.
  intros H.
  destruct (for_range_ind (fun k s' => starting s0 s' /\ forall c ch, 0 <= c < k -> 0 <= ch <= NUM_IDS -> TQueuePool s' !!! (c, ch) = empty_queue)
    (fun c => for_each (seqZ 0 (NUM_IDS + 1)) (fun chid => tqueue_init_at_id c chid)) NUM_CPUS ltac:(done)) with (s := s)
    as (s' & E & H' & Q); [|split; [done|lia]|by exists s'].
  intros k s1 Hk [H1 Q1].
  destruct (for_range_ind (fun j s' => starting s0 s'
      /\ forall c ch, 0 <= ch <= NUM_IDS -> 0 <= c < k \/ c = k /\ ch < j -> TQueuePool s' !!! (c, ch) = empty_queue)
    (fun chid => tqueue_init_at_id k chid) (NUM_IDS + 1) ltac:(done)) with (s := s1) as (s' & E & H' & Q).
  - intros j s2 Hj [[] Q2]. unfold tqueue_init_at_id.
    rewrite (bind_ok _ _ _ _ _ (check_index_ok _ _ _ Hk)), (bind_ok _ _ _ _ _ (check_index_ok _ _ _ Hj)).
    eexists. split; [reflexivity|]. split; [by split|]. intros c ch Hch Hc. cbn.
    destruct (decide ((c, ch) = (k, j))) as [[= -> ->]|Hne]; [by rewrite lookup_total_insert_eq|].
    rewrite lookup_total_insert_ne by done. apply Q2; [done|]. destruct Hc as [Hc|[-> Hc]]; [by left|right].
    split; [done|]. destruct (decide (ch = j)); [congruence|lia].
  - split; [done|]. intros c ch Hch [Hc|[_ Hc]]; [by apply Q1|lia].
  - exists s'. split; [done|]. split; [done|]. intros c ch Hc Hch. apply Q; lia.
Qed.

Lemma thread_init_spec paging_init stack_word s :
  cpu_ok s -> (forall t, paging_init t = Ok (tt, t)) -> (forall k, 0 <= stack_word k < NUM_IDS) ->
  (forall x, tcb_state (TCBPool s !!! x) <> TSTATE_SLEEP) ->
  exists s', thread_init paging_init stack_word s = Ok (tt, s') /\ sched_abs s' a_start
    /\ kctx_pool s' = kctx_pool s /\ regs s' = regs s.
Proof.
  intros Hc Hp Hw Hs. unfold thread_init.
  destruct (ticks_loop s s ltac:(by split)) as (s1 & E1 & H1). rewrite (bind_ok _ _ _ _ _ E1).
  set (s2 := set_sched_lk free_lock s1). assert (starting s2 s2) as H2 by (destruct H1; by split).
  assert (zoom sched_lk set_sched_lk spinlock_init s1 = Ok (tt, s2)) as E2 by done. rewrite (bind_ok _ _ _ _ _ E2).
  unfold tqueue_init, tcb_init. rewrite !bind_assoc. rewrite (bind_ok _ _ _ _ _ (Hp _)).
  destruct (tcb_loop s2 s2 stack_word Hw H2) as (s3 & E3 & H3). rewrite (bind_ok _ _ _ _ _ E3).
  destruct (queue_loop s2 s3 H3) as (s4 & E4 & H4 & Q). rewrite (bind_ok _ _ _ _ _ E4).
  assert (cpu_ok s2) as Hc2 by (apply (cpu_ok_ext s); [apply H1|apply H1|done]).
  pose proof (starting_cpu _ _ H4 Hc2) as Hc4.
  rewrite (bind_ok _ _ _ _ _ (set_curid_ok _ 0 s4 Hc4 eq_refl)). unfold tcb_set_state. rewrite tcb_write_ok by (unfold NUM_IDS; lia).
  eexists. split; [reflexivity|]. destruct H4 as [Hpc Hks Hkc Hrg Hlk Haw]. destruct H1 as [_ _ Hkc1 Hrg1 _ _].
  split; [|split; [exact (eq_trans Hkc Hkc1)|exact (eq_trans Hrg Hrg1)]]. split; [|cbn; by rewrite Hlk]. split; try done.
  - solve_cpu.
  - cbn. by rewrite lookup_total_insert_eq.
  - split; [|by intros x ?%elem_of_nil]. unfold qh, qt.
    lazymatch goal with |- dlist _ ?n ?p _ _ _ => change (dlist NUM_IDS n p (tq_head (TQueuePool s4 !!! (this_cpu s4, NUM_IDS)))
      (tq_tail (TQueuePool s4 !!! (this_cpu s4, NUM_IDS))) []) end.
    destruct Hc4 as [_ Hcpu _]. rewrite (Q (this_cpu s4) NUM_IDS Hcpu) by (unfold NUM_IDS; lia). apply dlist_empty.
  - look. by rewrite decide_True.
  - by intros x ?%elem_of_nil.
  - intros x. look. unfold chan_of. destruct (decide (0 = x)) as [<-|Hn]; [done|]. by rewrite decide_False by apply Haw.
Qed.

(** ** A new process *)

(** An image that lies in the kernel's memory *)
Record kernel_image (m : mem) (exe : Z) : Prop := {
  ki_start : 0 <= exe /\ exe + 52 <= VM_USERLO;
  ki_names : exe + e_shoff (read_elfhdr m exe) + sizeof_sechdr * e_shstrndx (read_elfhdr m exe) + sizeof_sechdr <= VM_USERLO;
  ki_ok : image_ok m exe;
}.

Lemma elfhdr_kernel m m' a : kernel_eq m' m -> a + 52 <= VM_USERLO -> read_elfhdr m' a = read_elfhdr m a.
Proof. intros H Ha. unfold read_elfhdr, ldh, ldb. by rewrite !(ldw_kernel m m'), !H by (done || lia). Qed.

Section Create.
Context {V : Type} `{!VmmOps V} `{!VmmLaws V}.
Context (alloc_mem_quota : Z -> Z -> M thr Z) (proc_kstack_addr proc_start_user_addr : Z).
Implicit Types s : kst V.

Notation create := (proc_create alloc_mem_quota proc_kstack_addr proc_start_user_addr).

(** The process [p] runs the image at [exe] of memory [m]: its segments are
    loaded, its user context enters the image and its kernel context enters
    [proc_start_user] on its own kernel stack. *)
Record runs_image (m : mem) (exe p : Z) s : Prop := {
  ri_loaded k : 0 <= k < e_phnum (read_elfhdr m exe) -> p_type (prog m exe k) = ELF_PROG_LOAD ->
    loaded p exe (prog m exe k) m (k_vm s).1 (k_vm s).2;
  ri_uctx : exists u, k_uctx s !!! p = init_uctx (e_entry (read_elfhdr m exe)) u;
  ri_kstack : k_proc_kstack s !!! p = {| ks_cpu_idx := this_cpu (k_thr s); ks_magic := KSTACK_MAGIC |};
}.
Definition enters_user (p : Z) (c : kctx) : Prop := kc_eip c = proc_start_user_addr /\ kc_esp c = proc_kstack_hi proc_kstack_addr p.

Lemma proc_create_spec s a p exe quota l :
  sched_abs (k_thr s) a ->
  (forall l, alloc_mem_quota (a_cur a) quota (set_sched_lk l (k_thr s)) = Ok (p, set_sched_lk l (k_thr s))) ->
  0 < p < NUM_IDS -> p ∉ a_rq a -> p <> a_cur a ->
  vm_inv (k_vm s).1 -> kernel_image (k_vm s).2 exe -> room (replicate (image_pages (k_vm s).2 exe) p ++ l) (k_vm s).1 ->
  exists s', create exe quota s = Ok (p, s') /\ sched_abs (k_thr s') (a_spawn p a) /\ sched_frame (k_thr s) (k_thr s')
    /\ runs_image (k_vm s).2 exe p s' /\ enters_user p (kctx_pool (k_thr s') !!! p)
    /\ vm_inv (k_vm s').1 /\ room l (k_vm s').1 /\ kernel_eq (k_vm s').2 (k_vm s).2 /\ others_same p (k_vm s).1 (k_vm s).2 (k_vm s').1 (k_vm s').2
    /\ (forall y, y <> p -> kctx_pool (k_thr s') !!! y = kctx_pool (k_thr s) !!! y
          /\ k_uctx s' !!! y = k_uctx s !!! y /\ k_proc_kstack s' !!! y = k_proc_kstack s !!! y)
    /\ regs (k_thr s') = regs (k_thr s) /\ wt (k_w s') = wt (k_w s).
Proof.
  intros Ha Hq Hp0 Hpr Hpc Hv [Hexe Hnm Hi] Hl. assert (0 <= p < NUM_IDS) as Hp by lia. unfold proc_create. rewrite (bind_ok _ _ _ _ _ (in_get_curid s a Ha)).
  destruct (thread_spawn_sim alloc_mem_quota proc_kstack_addr proc_start_user_addr (a_cur a) quota (k_thr s) a p Ha Hq Hp Hpr Hpc)
    as (t & E & Ha' & F & Er & Hip & Hsp & Hk).
  rewrite (bind_ok _ _ _ _ _ (in_thr_ok _ _ _ _ E)). set (s1 := set_k_thr t s).
  destruct (elf_load_spec exe p l (k_vm s).1 (k_vm s).2 Hv (proj1 Hexe) Hp0 Hi Hl) as (v & m & El & Hv' & Hrm & Hke & Ho & HL).
  rewrite <- (surjective_pairing (k_vm s)) in El. rewrite (bind_ok _ _ _ _ _ (in_vm_ok _ s1 _ _ El)). set (s2 := set_k_vm (v, m) s1).
  assert (elf_entry exe (k_vm s2) = Ok (e_entry (read_elfhdr (k_vm s).2 exe), k_vm s2)) as Ee.
  { unfold elf_entry. rewrite gets_bind. change ((k_vm s2).2) with m. rewrite (elfhdr_kernel _ _ _ Hke (proj2 Hexe)).
    by rewrite decide_False by (rewrite (io_magic _ _ Hi); tauto). }
  rewrite (bind_ok _ _ _ _ _ (in_vm_ok _ s2 _ _ Ee)), set_k_vm_same.
  rewrite (bind_ok _ _ _ _ _ (check_index_ok _ _ _ Hp)). rewrite modify_bind.
  set (s3 := set_k_uctx _ s2). assert (cpu_ok (k_thr s3)) as Hc by apply Ha'.
  rewrite (bind_ok _ _ _ _ _ (in_thr_ok _ s3 _ _ (cur_pcpu_idx_ok _ Hc))), set_k_thr_same.
  eexists. split; [reflexivity|].
  split; [exact Ha'|]. split; [exact F|]. split; [split; [exact HL|eexists; cbn; by rewrite lookup_total_insert_eq|cbn; by rewrite lookup_total_insert_eq]|].
  split; [done|]. split; [done|]. split; [done|]. split; [done|]. split; [done|]. split; [|done].
  intros y Hy. split; [by apply Hk|]. cbn. by rewrite !lookup_total_insert_ne.
Qed.
End Create.

(** ** The first process *)

(** [kern_main] takes a process out of the ready queue, wherever it is, and
    switches to it. *)
Definition enter (pid : Z) : M thr unit :=
  tqueue_remove NUM_IDS pid ;; tcb_set_state pid TSTATE_RUN ;; set_curid pid ;; kctx_switch 0 pid.

Lemma enter_spec t a p l1 l2 :
  sched_abs t a -> a_rq a = l1 ++ p :: l2 -> p <> 0 ->
  exists t', enter p t = Ok (tt, t') /\ sched_abs t' (a_run p (l1 ++ l2) (a_chan a)) /\ sched_frame t t'
    /\ regs t' = kctx_pool t !!! p /\ (forall y, y <> 0 -> kctx_pool t' !!! y = kctx_pool t !!! y).
Proof.
  intros [[Hcpu Hcur Hcr Hq Hrun Hrd Hch] Hlk] El Hp0. rewrite El in Hq.
  pose proof (qr_range _ _ _ Hq p ltac:(set_solver)) as Hp.
  destruct (tqueue_remove_spec NUM_IDS t Hcpu ltac:(unfold NUM_IDS; lia) p l1 l2 Hq) as (t1 & E1 & Hq1 & Hf & _).
  pose proof (queue_frame_cpu _ _ _ Hf Hcpu) as Hcpu1. unfold enter. rewrite (bind_ok _ _ _ _ _ E1). repeat tstep.
  rewrite kctx_switch_ok by solve_range. eexists. split; [reflexivity|].
  assert (p ∉ l1 ++ l2) as Hnd.
  { destruct Hq as [[_ _ _ Hnd _] _]. apply NoDup_app in Hnd as (_ & H1 & [H2 _]%NoDup_cons). intros [H|H]%elem_of_app; [|done].
    apply (H1 p H). by left. }
  split; [split; [apply sched_core_cswitch; split|]|].
  - solve_cpu.
  - cbn. by rewrite lookup_total_insert_eq.
  - done.
  - apply (queue_repr_same (upd_tcb p (set_state TSTATE_RUN) t1)); [done..|]. by apply queue_repr_upd.
  - cbn [a_cur a_run]. look. by dtest.
  - cbn [a_rq a_run]. intros y Hy. assert (p <> y) by congruence. look. dtest.
    rewrite (unlink_state _ _ (qf_tcb _ _ _ Hf y)). apply Hrd. rewrite El. set_solver.
  - intros y. cbn [a_chan a_run]. look. rewrite Hch. unfold chan_of. destruct (decide (p = y)) as [<-|Hne]; dtest.
    + cbn. rewrite Hrd; [done|]. rewrite El. set_solver.
    + by rewrite (unlink_state _ _ (qf_tcb _ _ _ Hf y)), (unlink_channel _ _ (qf_tcb _ _ _ Hf y)).
  - cbn. by rewrite (qf_lk _ _ _ Hf).
  - split; [|split].
    + transitivity t1; [by eapply sched_frame_queue|]. split; [|done..]. intros y. look. by case_decide; subst.
    + cbn. rewrite lookup_total_insert_ne by done. by rewrite (qf_kctx _ _ _ Hf).
    + intros y Hy. cbn. rewrite lookup_total_insert_ne by done. by rewrite (qf_kctx _ _ _ Hf).
Qed.

Section Main.
Context {V : Type}.
Implicit Types s : kst V.

(** The end of [kern_main] *)
Lemma enter_in p s t : enter p (k_thr s) = Ok (tt, t) ->
  (in_thr (tqueue_remove NUM_IDS p) ;; in_thr (tcb_set_state p TSTATE_RUN) ;; in_thr (set_curid p) ;; in_thr (kctx_switch 0 p)) s
    = Ok (tt, set_k_thr t s).
Proof.
  intros ([] & t1 & E1 & ([] & t2 & E2 & ([] & t3 & E3 & E4)%bind_inv)%bind_inv)%bind_inv.
  rewrite (bind_ok _ _ _ _ _ (in_thr_ok _ s _ _ E1)), (bind_ok _ _ _ _ _ (in_thr_ok _ (set_k_thr t1 s) _ _ E2)),
    (bind_ok _ _ _ _ _ (in_thr_ok _ (set_k_thr t2 (set_k_thr t1 s)) _ _ E3)).
  by rewrite (in_thr_ok _ (set_k_thr t3 (set_k_thr t2 (set_k_thr t1 s))) _ _ E4).
Qed.

(** The process [kern_main] enters runs with the context it was created with,
    and the others stay ready in their order. *)
Lemma kern_main_enters s a p l1 l2 :
  sched_abs (k_thr s) a -> a_rq a = l1 ++ p :: l2 -> p <> 0 ->
  exists s', (in_thr (tqueue_remove NUM_IDS p) ;; in_thr (tcb_set_state p TSTATE_RUN) ;; in_thr (set_curid p) ;; in_thr (kctx_switch 0 p)) s
      = Ok (tt, s')
    /\ sched_abs (k_thr s') (a_run p (l1 ++ l2) (a_chan a)) /\ regs (k_thr s') = kctx_pool (k_thr s) !!! p.
Proof.
  intros Ha El Hp. destruct (enter_spec _ a p l1 l2 Ha El Hp) as (t & E & Ha' & _ & Er & _).
  exists (set_k_thr t s). split; [by apply enter_in|done].
Qed.
End Main.

(** A further processor waits in [kern_main_ap] until somebody sets [all_ready]. *)
Lemma ap_waits_for_all_ready t b :
  cpu_ok t -> all_ready b = false -> kern_main_ap (t, b) = Spin.
Proof.
  intros Hc Hb. unfold kern_main_ap, in_pcpus. erewrite bind_ok by (apply zoom_ok, cur_pcpu_idx_ok, Hc).
  unfold set_pcpu_boot_info. erewrite bind_ok; [|apply zoom_ok; by rewrite (bind_ok _ _ _ _ _ (check_index_ok _ _ _ (cpu_idx_ok _ Hc)))].
  by rewrite gets_bind, decide_True.
Qed.
