(* ===== verification/Debug.v ===== *)
(** * Debugging support: lib/debug.c

    Messages to the log are printed under two locks; a panic also shows the
    calls that led to it, which it finds by a walk over the frames of the stack.
    The rest of the library leaves messages out and takes a panic for the end:
    here is what they do. *)

From S2P Require Import Prelude Machine KString Bytes Printfmt Pmap Syscall.

(** The locks, memory, and what has been sent to the console *)
Record dbg := mk_dbg { debug_lk : spinlock; serial_lk : spinlock; dbg_kstack : kstack; dbg_mem : mem; dbg_out : list Z }.
Definition set_debug_lk (l : spinlock) (s : dbg) : dbg := mk_dbg l (serial_lk s) (dbg_kstack s) (dbg_mem s) (dbg_out s).
Definition set_serial_lk (l : spinlock) (s : dbg) : dbg := mk_dbg (debug_lk s) l (dbg_kstack s) (dbg_mem s) (dbg_out s).
Definition with_dbg_mem (f : mem -> mem) (s : dbg) : dbg := mk_dbg (debug_lk s) (serial_lk s) (dbg_kstack s) (f (dbg_mem s)) (dbg_out s).
Definition put_out (l : list Z) (s : dbg) : dbg := mk_dbg (debug_lk s) (serial_lk s) (dbg_kstack s) (dbg_mem s) (dbg_out s ++ l).

(** ** The locks *)
Definition debug_init : M dbg unit :=
  zoom debug_lk set_debug_lk spinlock_init ;; zoom serial_lk set_serial_lk spinlock_init.
Definition debug_lock : M dbg unit := s ← get; zoom debug_lk set_debug_lk (spinlock_acquire (dbg_kstack s)).
Definition debug_unlock : M dbg unit := zoom debug_lk set_debug_lk spinlock_release.
Definition serial_lock : M dbg unit := s ← get; zoom serial_lk set_serial_lk (spinlock_acquire (dbg_kstack s)).
Definition serial_unlock : M dbg unit := zoom serial_lk set_serial_lk spinlock_release.

(** ** The frames *)
Definition DEBUG_TRACEFRAMES : nat := 10.

(** The two loops of [debug_trace], with [n] turns to go: saved instruction
    pointers, then zeros. *)
Fixpoint trace_loop (n : nat) (m : mem) (frame : Z) : list Z :=
  match n with
  | O => []
  | S n => if decide (frame = 0) then replicate (S n) 0
           else ldw m (u32 (frame + 4)) :: trace_loop n m (ldw m frame)
  end.
Definition debug_trace (m : mem) (ebp : Z) : list Z := trace_loop DEBUG_TRACEFRAMES m ebp.

(** [for (i = 0; i < DEBUG_TRACEFRAMES && eips[i] != 0; i++)] *)
Fixpoint shown_frames (eips : list Z) : list Z :=
  match eips with
  | [] => []
  | e :: eips => if decide (e <> 0) then e :: shown_frames eips else []
  end.

(** ** Messages *)

(** A call of [dprintf]: the addresses of its format and of its arguments *)
Notation call := (Z * Z)%type.

Section Messages.
(** Fuel of [vprintfmt], and the uninitialised buffer of [vdprintf] *)
Context (sfuel fuel : nat) (stack : mem).

Definition locked_vdprintf (c : call) : M dbg Z :=
  serial_lock ;;
  m ← gets dbg_mem;
  r ← lift (vdprintf m sfuel fuel c.1 c.2 stack);
  modify (put_out r.2) ;;
  serial_unlock ;;
  mret r.1.

Definition debug_info (msg : call) : M dbg unit :=
  debug_lock ;; locked_vdprintf msg ;; debug_unlock.

(** [prefix] is the call that prints the file and the line. *)
Definition debug_normal (prefix msg : call) : M dbg unit :=
  debug_lock ;; locked_vdprintf prefix ;; locked_vdprintf msg ;; debug_unlock.
Definition debug_warn (prefix msg : call) : M dbg unit :=
  debug_lock ;; locked_vdprintf prefix ;; locked_vdprintf msg ;; debug_unlock.

(** Up to [halt()]; [from] and [last] are the calls that print one return address
    and the last line. *)
Definition debug_panic (prefix msg from last : call) (ebp : Z) : M dbg unit :=
  debug_lock ;;
  locked_vdprintf prefix ;;
  locked_vdprintf msg ;;
  m ← gets dbg_mem;
  for_each (shown_frames (debug_trace m ebp)) (fun eip =>
    modify (with_dbg_mem (store_word from.2 eip)) ;; locked_vdprintf from ;; mret tt) ;;
  locked_vdprintf last ;;
  debug_unlock.

(** ** Theory *)

(** The call prints the characters [l] in memory [m]. *)
Definition prints (m : mem) (c : call) (l : list Z) : Prop :=
  vprintfmt collect m sfuel fuel c.1 c.2 [] = Ok (tt, l) /\ Forall (fun x => 0 < x < 256) l.

(** A processor may print: the serial lock is free. *)
Record may_print (s : dbg) : Prop := {
  mp_serial : serial_lk s = free_lock;
  mp_magic : ks_magic (dbg_kstack s) = KSTACK_MAGIC;
}.

Lemma u8_chars l : Forall (fun x => 0 < x < 256) l -> Forall (fun x => u8 x <> 0) l /\ map u8 l = l.
Proof.
  induction 1 as [|x l Hx _ [H1 H2]]; [done|]. assert (u8 x = x) as E by (apply Z.mod_small; lia).
  split; [constructor; [lia|done]|]. cbn. by rewrite E, H2.
Qed.

Lemma locked_vdprintf_ok s c l : may_print s -> prints (dbg_mem s) c l ->
  exists n, locked_vdprintf c s = Ok (n, put_out l s).
Proof.
  intros [Hs Hm] [Hp Hl]. destruct (u8_chars l Hl) as [Hz Hu]. unfold locked_vdprintf, serial_lock.
  erewrite bind_ok by (rewrite (bind_ok _ _ _ _ _ eq_refl); apply (zoom_ok serial_lk), spinlock_acquire_free; [by rewrite Hs|done]).
  rewrite gets_bind. cbn [dbg_mem set_serial_lk]. rewrite (vdprintf_spec _ _ _ _ _ _ _ Hp Hz), Hu.
  eexists. destruct s. cbn in *. by subst.
Qed.

Lemma debug_lock_ok s : debug_lk s = free_lock -> may_print s -> exists l, debug_lock s = Ok (tt, set_debug_lk l s).
Proof.
  intros Hd [_ Hm]. unfold debug_lock. rewrite (bind_ok _ _ _ _ _ eq_refl). eexists.
  apply (zoom_ok debug_lk), spinlock_acquire_free; [by rewrite Hd|done].
Qed.
Lemma debug_unlock_ok s l : debug_lk s = free_lock -> debug_unlock (set_debug_lk l s) = Ok (tt, s).
Proof. intros H. destruct s. cbn in *. by subst. Qed.

Lemma debug_info_ok s msg l : debug_lk s = free_lock -> may_print s -> prints (dbg_mem s) msg l ->
  debug_info msg s = Ok (tt, put_out l s).
Proof.
  intros Hd Hs Hp. destruct (debug_lock_ok s Hd Hs) as [k E]. unfold debug_info. rewrite (bind_ok _ _ _ _ _ E).
  destruct (locked_vdprintf_ok (set_debug_lk k s) msg l) as [n E1]; [by destruct Hs|done|].
  rewrite (bind_ok _ _ _ _ _ E1). by apply (debug_unlock_ok (put_out l s)).
Qed.

(** [chain m ebp l]: from [ebp] on the stack holds frames with the return
    addresses [l], and the last frame has no caller. *)
Fixpoint chain (m : mem) (ebp : Z) (l : list Z) : Prop :=
  match l with
  | [] => ebp = 0
  | eip :: l => ebp <> 0 /\ ldw m (u32 (ebp + 4)) = eip /\ chain m (ldw m ebp) l
  end.

Lemma trace_loop_spec n : forall m ebp l, chain m ebp l -> trace_loop n m ebp = take n l ++ replicate (n - length l) 0.
Proof.
  induction n as [|n IH]; intros m ebp [|e l]; [done..| |].
  - cbn. intros ->. by rewrite decide_True.
  - intros (Hn & <- & Hc). cbn [trace_loop take length Nat.sub]. rewrite decide_False by done. cbn. f_equal. by apply IH.
Qed.

Lemma shown_app l n : Forall (fun e => e <> 0) l -> shown_frames (l ++ replicate n 0) = l.
Proof. induction 1 as [|e l He _ IH]; [by destruct n|]. cbn. rewrite decide_True by done. by rewrite IH. Qed.

Lemma trace_shown m ebp l : chain m ebp l -> Forall (fun e => e <> 0) l -> shown_frames (debug_trace m ebp) = take 10 l.
Proof.
  intros Hc Hz. unfold debug_trace, DEBUG_TRACEFRAMES. rewrite (trace_loop_spec _ _ _ _ Hc). apply shown_app. by apply Forall_take.
Qed.

(** Memory is the same but for the argument of a call. *)
Definition same_but_arg (a : Z) (m m' : mem) : Prop := forall x, ~ (a <= x < a + 4) -> m' !!! x = m !!! x.
Lemma store_word_same a w m m' : same_but_arg a m m' -> same_but_arg a m (store_word a w m').
Proof.
  intros H x Hx. unfold store_word. cbn [foldl]. rewrite !lookup_total_insert_ne by lia. by apply H.
Qed.

(** A state after more output, with the argument of the call at [a] changed *)
Record after_output (a : Z) (out : list Z) (s s' : dbg) : Prop := {
  ao_debug : debug_lk s' = debug_lk s;
  ao_serial : serial_lk s' = serial_lk s;
  ao_kstack : dbg_kstack s' = dbg_kstack s;
  ao_mem : same_but_arg a (dbg_mem s) (dbg_mem s');
  ao_out : dbg_out s' = dbg_out s ++ out;
}.

(** One line for each return address *)
Lemma trace_lines from line l : forall s, may_print s ->
  (forall m eip, same_but_arg from.2 (dbg_mem s) m -> prints (store_word from.2 eip m) from (line eip)) ->
  exists s', for_each l (fun eip => modify (with_dbg_mem (store_word from.2 eip)) ;; locked_vdprintf from ;; mret tt) s = Ok (tt, s')
    /\ after_output from.2 (mjoin (map line l)) s s'.
Proof.
  induction l as [|eip l IH]; intros s Hs Hp.
  { exists s. split; [done|]. split; try done. by rewrite app_nil_r. }
  cbn [for_each]. rewrite bind_assoc, modify_bind, bind_assoc. set (s1 := with_dbg_mem _ s).
  destruct (locked_vdprintf_ok s1 from (line eip)) as [n E]; [by destruct Hs|by apply Hp|].
  rewrite (bind_ok _ _ _ _ _ E), mret_bind.
  assert (same_but_arg from.2 (dbg_mem s) (dbg_mem s1)) as H1 by (by apply store_word_same).
  destruct (IH (put_out (line eip) s1)) as (s' & E' & [H2 H3 H4 H5 H6]).
  - by destruct Hs.
  - intros m e Hm. apply Hp. intros x Hx. rewrite (Hm x Hx). by apply H1.
  - exists s'. split; [done|]. split; try done.
    + intros x Hx. rewrite (H5 x Hx). by apply H1.
    + rewrite H6. cbn. by rewrite app_assoc.
Qed.

Lemma debug_panic_ok s prefix msg from last ebp l1 l2 line l3 calls :
  debug_lk s = free_lock -> may_print s ->
  prints (dbg_mem s) prefix l1 -> prints (dbg_mem s) msg l2 ->
  (forall m eip, same_but_arg from.2 (dbg_mem s) m -> prints (store_word from.2 eip m) from (line eip)) ->
  (forall m, same_but_arg from.2 (dbg_mem s) m -> prints m last l3) ->
  chain (dbg_mem s) ebp calls -> Forall (fun e => e <> 0) calls ->
  exists s', debug_panic prefix msg from last ebp s = Ok (tt, s')
    /\ after_output from.2 (l1 ++ l2 ++ mjoin (map line (take 10 calls)) ++ l3) s s'.
Proof.
  intros Hd Hs P1 P2 P3 P4 Hc Hz. destruct (debug_lock_ok s Hd Hs) as [k E]. unfold debug_panic. rewrite (bind_ok _ _ _ _ _ E).
  destruct (locked_vdprintf_ok (set_debug_lk k s) prefix l1) as [n1 E1]; [by destruct Hs|done|]. rewrite (bind_ok _ _ _ _ _ E1).
  destruct (locked_vdprintf_ok (put_out l1 (set_debug_lk k s)) msg l2) as [n2 E2]; [by destruct Hs|done|]. rewrite (bind_ok _ _ _ _ _ E2).
  rewrite gets_bind. set (s2 := put_out l2 _). change (dbg_mem s2) with (dbg_mem s). rewrite (trace_shown _ _ _ Hc Hz).
  destruct (trace_lines from line (take 10 calls) s2) as (s3 & E3 & [H1 H2 H3 H4 H5]); [by destruct Hs|done|].
  rewrite (bind_ok _ _ _ _ _ E3).
  destruct (locked_vdprintf_ok s3 last l3) as [n4 E4]; [split; [rewrite H2|rewrite H3]; apply Hs|by apply P4|].
  rewrite (bind_ok _ _ _ _ _ E4). eexists. split; [reflexivity|]. split; try done.
  cbn [dbg_out put_out set_debug_lk]. rewrite H5. cbn. by rewrite <- !app_assoc.
Qed.
End Messages.

Module DebugProps.
(** What a panic prints.  With free locks [debug_panic] prints the place, the
    message, one line for each return address of the ten innermost frames on the
    stack, or of all of them, and its last line, in this order, and leaves both
    locks free, up to its [halt]. *)
Theorem panic_shows_calls sfuel fuel stack s prefix msg from last ebp l1 l2 line l3 calls :
  debug_lk s = free_lock -> may_print s ->
  prints sfuel fuel (dbg_mem s) prefix l1 -> prints sfuel fuel (dbg_mem s) msg l2 ->
  (forall m eip, same_but_arg from.2 (dbg_mem s) m -> prints sfuel fuel (store_word from.2 eip m) from (line eip)) ->
  (forall m, same_but_arg from.2 (dbg_mem s) m -> prints sfuel fuel m last l3) ->
  chain (dbg_mem s) ebp calls -> Forall (fun e => e <> 0) calls ->
  exists s', debug_panic sfuel fuel stack prefix msg from last ebp s = Ok (tt, s')
    /\ dbg_out s' = dbg_out s ++ l1 ++ l2 ++ mjoin (map line (take 10 calls)) ++ l3
    /\ debug_lk s' = free_lock /\ serial_lk s' = free_lock.
Proof.
  intros Hd Hs P1 P2 P3 P4 Hc Hz.
  destruct (debug_panic_ok sfuel fuel stack s prefix msg from last ebp l1 l2 line l3 calls Hd Hs P1 P2 P3 P4 Hc Hz)
    as (s' & E & [H1 H2 _ _ H5]). exists s'. split_and!; try done; [by rewrite H1|by rewrite H2; apply Hs].
Qed.

(** A panic in line 7 of "a.c" with the message "bad", two calls deep: the
    strings, the arguments and the frames in memory *)
Definition place (a : Z) (str : string) (m : mem) : mem :=
  store_bytes a (map chr (String.list_ascii_of_string str) ++ [0]) m.
Definition tab_from : string := String (Ascii.ascii_of_nat 9) "from 0x%08x".
Definition demo_dbg : dbg :=
  mk_dbg free_lock free_lock {| ks_cpu_idx := 0; ks_magic := KSTACK_MAGIC |}
    (place 100 "[P] %s:%d: " (place 130 "a.c" (store_word 200 130 (store_word 204 7
      (place 300 "bad" (place 400 tab_from (place 500 " Kernel Panic !!!"
        (store_word 0x1000 0x1010 (store_word 0x1004 0x100abc (store_word 0x1014 0x100def ∅)))))))))) [].
Example panic_demo :
  match debug_panic 64 200 ∅ (100, 200) (300, 600) (400, 700) (500, 600) 0x1000 demo_dbg with
  | Ok (_, s) => dbg_out s = map chr (String.list_ascii_of_string ("[P] a.c:7: bad" +:+ String (Ascii.ascii_of_nat 9) "from 0x00100abc"
      +:+ String (Ascii.ascii_of_nat 9) "from 0x00100def" +:+ " Kernel Panic !!!"))
  | _ => False
  end.
Proof. vm_compute. reflexivity. Qed.
End DebugProps.
