(* ===== verification/UnitTests.v ===== *)
(** * The kernel's own tests: pmm/*/test.c and thread/*/test.c

    A test returns 0 when it passes.  The tests of physical memory all pass on
    a machine with more than 10000 available pages; those of the threads pass
    after the initialisation they are written for, with one exception that is
    stated as an equivalence.  [PKCtxNew_test1] is left out: it looks at the
    containers and the kernel contexts at once. *)

From S2P Require Import Prelude DList Machine Thread Scheduler Mboot PMM Start.

(** ** pmm/MATIntro/test.c *)
Definition rn10 : list Z := [1; 3; 5; 6; 78; 3576; 32; 8; 0; 100].

Definition MATIntro_test1 : M pmm Z :=
  nps ← get_nps;
  let nps := s32 nps in
  r ← first_of rn10 (fun n =>
    set_nps n ;;
    got ← get_nps;
    if decide (got <> n) then set_nps (u32 nps) ;; mret (Some 1) else mret None);
  match r with
  | Some e => mret e
  | None => set_nps (u32 nps) ;; mret 0
  end.

(** One case of the second test: after [at_set_perm(0, perm)] page 0 is normal
    or not as expected, and it is not allocated. *)
Definition perm_case (perm norm : Z) : M pmm (option Z) :=
  at_set_perm 0 perm ;;
  n ← at_is_norm 0;
  bad ← (if decide (n <> norm) then mret true
         else a ← at_is_allocated 0; mret (bool_decide (a <> 0)));
  if bad : bool then at_set_perm 0 0 ;; mret (Some 1) else mret None.

Definition MATIntro_test2 : M pmm Z :=
  r ← first_of [(0, 0); (1, 0); (2, 1); (100, 1)] (fun '(perm, norm) => perm_case perm norm);
  match r with
  | Some e => mret e
  | None => at_set_perm 0 0 ;; mret 0
  end.

Definition alloc_case (v expected : Z) : M pmm (option Z) :=
  at_set_allocated 1 v ;;
  a ← at_is_allocated 1;
  if decide (a <> expected) then at_set_allocated 1 0 ;; mret (Some 1) else mret None.

Definition MATIntro_test3 : M pmm Z :=
  r ← first_of [(0, 0); (1, 1); (100, 1)] (fun '(v, expected) => alloc_case v expected);
  match r with
  | Some e => mret e
  | None => at_set_allocated 1 0 ;; mret 0
  end.

Definition MATIntro_test_own : M pmm Z := mret 0.

Definition test_MATIntro : M pmm Z :=
  a ← MATIntro_test1; b ← MATIntro_test2; c ← MATIntro_test3; d ← MATIntro_test_own;
  mret (a + b + c + d).

(** ** pmm/MATOp/test.c *)
Definition MATOp_test1 : M pmm Z :=
  p ← palloc;
  let page_index := s32 p in
  if decide (page_index < 262144) then pfree (u32 page_index) ;; mret 1
  else
    n ← at_is_norm (u32 page_index);
    if decide (n <> 1) then pfree (u32 page_index) ;; mret 1
    else
      a ← at_is_allocated (u32 page_index);
      if decide (a <> 1) then pfree (u32 page_index) ;; mret 1
      else
        pfree (u32 page_index) ;;
        a ← at_is_allocated (u32 page_index);
        if decide (a <> 0) then mret 1 else mret 0.

Definition MATOp_test_own : M pmm Z := mret 0.
Definition test_MATOp : M pmm Z := a ← MATOp_test1; b ← MATOp_test_own; mret (a + b).

(** ** pmm/MATInit/test.c *)
Definition MATInit_test1 : M pmm Z :=
  nps ← get_nps;
  let nps := s32 nps in
  if decide (nps <= 1000) then mret 1
  else
    r ← first_of (seqZ 0 nps) (fun i =>
      a ← at_is_allocated i;
      if decide (a <> 0) then mret (Some 1)
      else if decide (i < 0x40000000 / 4096 \/ i >= 0xF0000000 / 4096) then
        n ← at_is_norm i;
        mret (if decide (n <> 0) then Some 1 else None)
      else mret None);
    mret (default 0 r).

Definition MATInit_test_own : M pmm Z := mret 0.
Definition test_MATInit : M pmm Z := a ← MATInit_test1; b ← MATInit_test_own; mret (a + b).

(** ** pmm/MContainer/test.c *)
Definition MContainer_test1 : M pmm Z :=
  q ← container_get_quota 0;
  if decide (q <= 10000) then mret 1
  else
    c ← container_can_consume 0 10000;
    if decide (c <> 1) then mret 1
    else
      c ← container_can_consume 0 10000000;
      if decide (c <> 0) then mret 1 else mret 0.

(** [if (a != x || b != y || ...)], the operands from left to right *)
Fixpoint any_differs {St} (l : list (M St Z * Z)) : M St bool :=
  match l with
  | [] => mret false
  | (m, x) :: l => v ← m; if decide (v <> x) then mret true else any_differs l
  end.

Definition MContainer_test2 : M pmm Z :=
  old_usage ← container_get_usage 0;
  old_nchildren ← container_get_nchildren 0;
  chid ← container_split 0 100;
  bad ← any_differs [(container_get_quota chid, 100); (container_get_parent chid, 0);
    (container_get_usage chid, 0); (container_get_nchildren chid, 0);
    (container_get_usage 0, u32 (old_usage + 100)); (container_get_nchildren 0, u32 (old_nchildren + 1))];
  if bad : bool then mret 1
  else
    container_alloc chid ;;
    u ← container_get_usage chid;
    if decide (u <> 1) then mret 1 else mret 0.

Definition MContainer_test_own : M pmm Z := mret 0.
Definition test_MContainer : M pmm Z :=
  a ← MContainer_test1; b ← MContainer_test2; c ← MContainer_test_own; mret (a + b + c).

(** ** thread/PTCBInit/test.c *)
(** [prev] and [next] of a thread *)
Definition links (pid prev next : Z) : list (M thr Z * Z) := [(tcb_get_prev pid, prev); (tcb_get_next pid, next)].

Definition PTCBInit_test1 : M thr Z :=
  r ← first_of (seqZ 1 (NUM_IDS - 1)) (fun i =>
    st ← tcb_get_state i;
    bad ← (if decide (st <> TSTATE_DEAD) then mret true else any_differs (links i NUM_IDS NUM_IDS));
    mret (if bad : bool then Some 1 else None));
  mret (default 0 r).

Definition PTCBInit_test_own : M thr Z := mret 0.
Definition test_PTCBInit : M thr Z := a ← PTCBInit_test1; b ← PTCBInit_test_own; mret (a + b).

(** ** thread/PTQueueInit/test.c *)
Definition PTQueueInit_test1 : M thr Z :=
  r ← first_of (seqZ 0 NUM_IDS) (fun i =>
    bad ← any_differs [(tqueue_get_head i, NUM_IDS); (tqueue_get_tail i, NUM_IDS)];
    mret (if bad : bool then Some 1 else None));
  mret (default 0 r).

Definition PTQueueInit_test2 : M thr Z :=
  tqueue_enqueue 0 2 ;;
  tqueue_enqueue 0 3 ;;
  tqueue_enqueue 0 4 ;;
  bad ← any_differs (links 2 NUM_IDS 3 ++ links 3 2 4 ++ links 4 3 NUM_IDS);
  if bad : bool then mret 1
  else
    tqueue_remove 0 3 ;;
    bad ← any_differs (links 2 NUM_IDS 4 ++ links 3 NUM_IDS NUM_IDS ++ links 4 2 NUM_IDS);
    if bad : bool then mret 1
    else
      pid ← tqueue_dequeue 0;
      bad ← any_differs ((mret pid, 2) :: links pid NUM_IDS NUM_IDS ++ [(tqueue_get_head 0, 4); (tqueue_get_tail 0, 4)]);
      if bad : bool then mret 1 else mret 0.

Definition PTQueueInit_test_own : M thr Z := mret 0.
Definition test_PTQueueInit : M thr Z :=
  a ← PTQueueInit_test1; b ← PTQueueInit_test2; c ← PTQueueInit_test_own; mret (a + b + c).

(** ** thread/PThread/test.c *)
Section PThread.
Context (alloc_mem_quota : Z -> Z -> M thr Z) (kstack_base : Z).

Definition PThread_test1 : M thr Z :=
  chid ← thread_spawn alloc_mem_quota kstack_base 0 0 1000;
  st ← tcb_get_state chid;
  if decide (st <> TSTATE_READY) then mret 1
  else
    t ← tqueue_get_tail NUM_IDS;
    if decide (t <> chid) then mret 1 else mret 0.

Definition PThread_test_own : M thr Z := mret 0.
Definition test_PThread : M thr Z := a ← PThread_test1; b ← PThread_test_own; mret (a + b).
End PThread.

(** * The tests of physical memory *)

Lemma any_differs_none {St} (l : list (M St Z * Z)) s :
  Forall (fun p => p.1 s = Ok (p.2, s)) l -> any_differs l s = Ok (false, s).
Proof.
  induction l as [|[m x] l IH]; intros H; [done|]. apply Forall_cons in H as [Hm H]. cbn in Hm |- *.
  rewrite (bind_ok _ _ _ _ _ Hm), decide_False by (intros C; by apply C). by apply IH.
Qed.

(** A loop over cases that all pass *)
Lemma first_of_pass {St A B} (step : St -> A -> St) (body : A -> M St (option B)) l : forall s,
  (forall x s, x ∈ l -> body x s = Ok (None, step s x)) -> first_of l body s = Ok (None, fold_left step l s).
Proof.
  induction l as [|x l IH]; intros s H; [done|]. cbn. rewrite (bind_ok _ _ _ _ _ (H x s ltac:(by left))).
  apply IH. intros y t Hy. apply H. by right.
Qed.

Lemma first_of_same {St A B} (body : A -> M St (option B)) l s :
  (forall x, x ∈ l -> body x s = Ok (None, s)) -> first_of l body s = Ok (None, s).
Proof.
  induction l as [|x l IH]; intros H; [done|]. cbn. rewrite (bind_ok _ _ _ _ _ (H x ltac:(by left))).
  apply IH. intros y Hy. apply H. by right.
Qed.

(** The tables after [MATIntro]'s tests: pages 0 and 1 are not allocated, page 0
    is reserved, and nothing else has changed. *)
Record probed (s s' : pmm) : Prop := {
  pb_nps : NUM_PAGES s' = NUM_PAGES s;
  pb_zero : AT s' !!! 0 = {| at_perm := 0; at_allocated := 0 |};
  pb_one : AT s' !!! 1 = {| at_perm := at_perm (AT s !!! 1); at_allocated := 0 |};
  pb_at i : 2 <= i -> AT s' !!! i = AT s !!! i;
  pb_lk : mem_lk s' = mem_lk s;
  pb_last : last_palloc_index s' = last_palloc_index s;
  pb_cont : CONTAINER s' = CONTAINER s;
  pb_kstack : pm_kstack s' = pm_kstack s;
}.

Lemma MATIntro_test1_ok s : 0 <= NUM_PAGES s <= AT_SIZE -> MATIntro_test1 s = Ok (0, s).
Proof. intros H. unfold MATIntro_test1, get_nps. rewrite gets_bind. cbv zeta. rewrite s32_id, u32_id by (unfold AT_SIZE, W32 in *; lia). by destruct s. Qed.

Definition set_at (i : Z) (a : ATStruct) (s : pmm) : pmm := with_AT (<[i := a]>) s.
Lemma set_at_twice i a b s : set_at i a (set_at i b s) = set_at i a s.
Proof. unfold set_at, with_AT. cbn. by rewrite insert_insert_eq. Qed.

Lemma perm_case_ok perm norm s :
  norm = (if decide (perm <> 0 /\ perm <> 1) then 1 else 0) ->
  perm_case perm norm s = Ok (None, set_at 0 {| at_perm := perm; at_allocated := 0 |} s).
Proof.
  intros Hn. unfold perm_case, at_set_perm. rewrite (bind_ok _ _ _ _ _ (at_write_ok 0 _ s ltac:(unfold AT_SIZE; lia))).
  rewrite (bind_ok _ _ _ _ _ (at_is_norm_ok 0 _ ltac:(unfold AT_SIZE; lia))). cbn [AT with_AT]. rewrite lookup_total_insert_eq.
  assert ((if decide (normal {| at_perm := perm; at_allocated := 0 |}) then 1 else 0) = norm) as -> by done.
  rewrite decide_False by (intros C; by apply C). rewrite bind_assoc.
  rewrite (bind_ok _ _ _ _ _ (at_is_allocated_ok 0 _ ltac:(unfold AT_SIZE; lia))). cbn [AT with_AT]. by rewrite lookup_total_insert_eq.
Qed.

Lemma MATIntro_test2_ok s : MATIntro_test2 s = Ok (0, set_at 0 {| at_perm := 0; at_allocated := 0 |} s).
Proof.
  unfold MATIntro_test2.
  erewrite bind_ok.
  2:{ apply (first_of_pass (fun s '(perm, _) => set_at 0 {| at_perm := perm; at_allocated := 0 |} s)).
      intros [perm norm] t Hx. apply perm_case_ok. set_unfold in Hx. naive_solver. }
  unfold at_set_perm. rewrite (bind_ok _ _ _ _ _ (at_write_ok 0 _ _ ltac:(unfold AT_SIZE; lia))).
  cbn [fold_left]. unfold mret, M_ret. do 2 f_equal. etransitivity; [exact (set_at_twice 0 _ _ _)|]. by rewrite !set_at_twice.
Qed.

Lemma alloc_case_ok v expected s :
  expected = (if decide (v = 0) then 0 else 1) ->
  alloc_case v expected s = Ok (None, set_at 1 {| at_perm := at_perm (AT s !!! 1); at_allocated := v |} s).
Proof.
  intros Hn. unfold alloc_case, at_set_allocated. rewrite (bind_ok _ _ _ _ _ (at_write_ok 1 _ s ltac:(unfold AT_SIZE; lia))).
  rewrite (bind_ok _ _ _ _ _ (at_is_allocated_ok 1 _ ltac:(unfold AT_SIZE; lia))). cbn [AT with_AT].
  rewrite lookup_total_insert_eq. cbn [at_allocated]. rewrite <- Hn. by rewrite decide_False by (intros C; by apply C).
Qed.

Lemma MATIntro_test3_ok s :
  MATIntro_test3 s = Ok (0, set_at 1 {| at_perm := at_perm (AT s !!! 1); at_allocated := 0 |} s).
Proof.
  unfold MATIntro_test3.
  erewrite bind_ok.
  2:{ apply (first_of_pass (fun s '(v, _) => set_at 1 {| at_perm := at_perm (AT s !!! 1); at_allocated := v |} s)).
      intros [v e] t Hx. apply alloc_case_ok. set_unfold in Hx. naive_solver. }
  unfold at_set_allocated. rewrite (bind_ok _ _ _ _ _ (at_write_ok 1 _ _ ltac:(unfold AT_SIZE; lia))).
  cbn [fold_left]. unfold set_at. cbn [AT with_AT]. rewrite !lookup_total_insert_eq. cbn [at_perm].
  unfold mret, M_ret, with_AT. cbn. by rewrite !lookup_total_insert_eq, !insert_insert_eq.
Qed.

Lemma test_MATIntro_ok s : 0 <= NUM_PAGES s <= AT_SIZE -> exists s', test_MATIntro s = Ok (0, s') /\ probed s s'.
Proof.
  intros H. unfold test_MATIntro. rewrite (bind_ok _ _ _ _ _ (MATIntro_test1_ok s H)), (bind_ok _ _ _ _ _ (MATIntro_test2_ok s)).
  rewrite (bind_ok _ _ _ _ _ (MATIntro_test3_ok _)). eexists. split; [reflexivity|].
  split; try done; cbn; [by rewrite lookup_total_insert_ne, lookup_total_insert_eq by done
    |by rewrite lookup_total_insert_eq, lookup_total_insert_ne by done|].
  intros i Hi. by rewrite !lookup_total_insert_ne by lia.
Qed.

(** The table as [pmem_init] leaves it: nothing is allocated, and normal pages
    are in the range of user memory. *)
Record fresh_table (s : pmm) : Prop := {
  ft_free i : 0 <= i < NUM_PAGES s -> at_allocated (AT s !!! i) = 0;
  ft_user i : 0 <= i < NUM_PAGES s -> normal (AT s !!! i) -> VM_USERLO_PI <= i < VM_USERHI_PI;
}.

Lemma fresh_same s s' : NUM_PAGES s' = NUM_PAGES s -> (forall i, AT s' !!! i = AT s !!! i) -> fresh_table s -> fresh_table s'.
Proof. intros En E [H1 H2]. split; intros i; rewrite En, E; auto. Qed.

Lemma probed_fresh s s' : probed s s' -> fresh_table s -> fresh_table s'.
Proof.
  intros [En E0 E1 Ei _ _ _ _] [H1 H2].
  assert (forall i, 0 <= i -> i = 0 \/ i = 1 \/ 2 <= i) as Hi by lia.
  split; intros i; rewrite En; intros Hr; destruct (Hi i (proj1 Hr)) as [->|[->|H]]; rewrite ?E0, ?E1, ?Ei by done; try done; auto.
  intros [C _]. by destruct C.
Qed.

Lemma test_MATInit_ok s : fresh_table s -> 1000 < NUM_PAGES s <= AT_SIZE -> test_MATInit s = Ok (0, s).
Proof.
  intros [H1 H2] Hn. unfold test_MATInit, MATInit_test1, get_nps. rewrite bind_assoc, gets_bind. cbv zeta.
  rewrite s32_id by (unfold AT_SIZE in *; lia). rewrite decide_False by lia. rewrite bind_assoc.
  erewrite bind_ok; [|apply first_of_same]; [reflexivity|]. intros i Hi%elem_of_seqZ.
  rewrite (bind_ok _ _ _ _ _ (at_is_allocated_ok i s ltac:(lia))), (decide_True (P := at_allocated _ = 0)) by (apply H1; lia).
  rewrite (decide_False (P := 0 <> 0)) by (intros C; by apply C). case_decide as Hr; [|done].
  rewrite (bind_ok _ _ _ _ _ (at_is_norm_ok i s ltac:(lia))). rewrite (decide_False (P := normal _)).
  2:{ intros Hno. pose proof (H2 i ltac:(lia) Hno) as Hu. unfold VM_USERLO_PI, VM_USERHI_PI, VM_USERLO, VM_USERHI, PAGESIZE in Hu. lia. }
  by rewrite decide_False by (intros C; by apply C).
Qed.

Lemma test_MATOp_ok s q :
  pmm_ok s -> fresh_table s -> last_palloc_index s < q < NUM_PAGES s -> free_page s q ->
  exists s', test_MATOp s = Ok (0, s') /\ pmm_ok s' /\ CONTAINER s' = CONTAINER s.
Proof.
  intros Hok [Hf Hu] Hq Hfree. unfold test_MATOp, MATOp_test1. rewrite bind_assoc.
  destruct (palloc_ok s Hok) as (p & s1 & E & [(_ & _ & Hno)|(Hp & [Hn _] & -> & _)]); [by destruct (Hno q Hq)|].
  rewrite (bind_ok _ _ _ _ _ E). pose proof (po_nps _ Hok) as Hnps. pose proof (po_last _ Hok) as Hlast.
  pose proof (Hu p ltac:(lia) Hn) as Hr. change VM_USERLO_PI with 262144 in Hr.
  rewrite s32_id, u32_id by (unfold AT_SIZE, W32 in *; lia). rewrite decide_False by lia.
  assert (pmm_ok (alloc_at p s)) as Hok1 by (apply pmm_ok_alloc; [done|lia]).
  assert (AT (alloc_at p s) !!! p = {| at_perm := at_perm (AT s !!! p); at_allocated := 1 |}) as Ea by apply lookup_total_insert_eq.
  rewrite bind_assoc, (bind_ok _ _ _ _ _ (at_is_norm_ok p _ ltac:(lia))), Ea.
  rewrite (decide_True (P := normal _)) by exact Hn. rewrite decide_False by (intros C; by apply C).
  rewrite bind_assoc, (bind_ok _ _ _ _ _ (at_is_allocated_ok p _ ltac:(lia))), Ea.
  rewrite (decide_False (P := at_allocated _ = 0)) by done. rewrite decide_False by (intros C; by apply C).
  rewrite bind_assoc, (bind_ok _ _ _ _ _ (pfree_ok _ p Hok1 ltac:(lia))). set (s2 := with_AT _ _).
  rewrite bind_assoc, (bind_ok _ _ _ _ _ (at_is_allocated_ok p s2 ltac:(lia))).
  assert (at_allocated (AT s2 !!! p) = 0) as -> by (cbn; by rewrite lookup_total_insert_eq).
  exists s2. split; [done|]. split; [by apply (pmm_ok_same (alloc_at p s))|done].
Qed.

(** The root container after [container_init] *)
Definition root_container (q : Z) : SContainer :=
  {| c_quota := q; c_usage := 0; c_parent := 0; c_nchildren := 0; c_used := 1 |}.

Lemma MContainer_test1_ok s q :
  CONTAINER s !!! 0 = root_container q -> 10000 < q <= AT_SIZE -> MContainer_test1 s = Ok (0, s).
Proof.
  intros H0 Hq. unfold MContainer_test1, container_get_quota, container_can_consume.
  assert (forall n, u32 (c_usage (root_container q) + n) = u32 n /\ u32 (c_quota (root_container q)) = q) as Hc.
  { intros n. split; [done|]. apply u32_id. unfold AT_SIZE, W32 in *. cbn. lia. }
  rewrite (bind_ok _ _ _ _ _ (c_read_ok 0 _ s ltac:(unfold NUM_IDS; lia))), H0, (proj2 (Hc 0)), decide_False by lia.
  rewrite (bind_ok _ _ _ _ _ (c_read_ok 0 _ s ltac:(unfold NUM_IDS; lia))), H0, !(proj1 (Hc _)), !(proj2 (Hc 0)).
  rewrite (decide_False (P := u32 10000 > q)) by (change (u32 10000) with 10000; lia). rewrite decide_False by (intros C; by apply C).
  rewrite (bind_ok _ _ _ _ _ (c_read_ok 0 _ s ltac:(unfold NUM_IDS; lia))), H0, !(proj1 (Hc _)), !(proj2 (Hc 0)).
  rewrite (decide_True (P := u32 10000000 > q)) by (change (u32 10000000) with 10000000; unfold AT_SIZE in *; lia).
  by rewrite decide_False by (intros C; by apply C).
Qed.

Lemma MContainer_test2_ok s q :
  pmm_ok s -> CONTAINER s !!! 0 = root_container q -> exists s', MContainer_test2 s = Ok (0, s').
Proof.
  intros Hok H0. assert (0 <= 0 < NUM_IDS /\ 0 <= 1 < NUM_IDS) as [R0 R1] by (unfold NUM_IDS; lia).
  unfold MContainer_test2, container_get_usage, container_get_nchildren, container_get_parent, container_get_quota.
  rewrite (bind_ok _ _ _ _ _ (c_read_ok 0 _ s R0)), (bind_ok _ _ _ _ _ (c_read_ok 0 _ s R0)), H0.
  unfold container_split. rewrite bind_assoc, (bind_ok _ _ _ _ _ (c_read_ok 0 _ s R0)), H0. cbv zeta.
  change (u32 (0 * MAX_CHILDREN + 1 + c_nchildren (root_container q))) with 1.
  rewrite bind_assoc, (bind_ok _ _ _ _ _ (c_write_ok 1 _ s R1)), bind_assoc, (bind_ok _ _ _ _ _ (c_write_ok 0 _ _ R0)), mret_bind.
  match goal with |- context [(any_differs _ ≫= _) ?x] => set (s1 := x) end.
  assert (CONTAINER s1 !!! 1 = {| c_quota := 100; c_usage := 0; c_parent := 0; c_nchildren := 0; c_used := 1 |}) as E1
    by (cbn; by rewrite lookup_total_insert_ne, lookup_total_insert_eq by done).
  assert (CONTAINER s1 !!! 0 = {| c_quota := q; c_usage := 100; c_parent := 0; c_nchildren := 1; c_used := 1 |}) as E0
    by (cbn; by rewrite lookup_total_insert_eq, lookup_total_insert_ne, H0 by done).
  erewrite bind_ok.
  2:{ apply any_differs_none. repeat apply Forall_cons_2; [..|apply Forall_nil_2]; cbn [fst snd]; rewrite c_read_ok by done;
        rewrite ?E0, ?E1; done. }
  cbv beta iota. unfold container_alloc. rewrite bind_assoc, (bind_ok _ _ _ _ _ (c_read_ok 1 _ s1 R1)).
  rewrite bind_assoc, (bind_ok _ _ _ _ _ (c_read_ok 1 _ s1 R1)), E1. cbn [c_usage c_quota]. rewrite decide_False by done.
  rewrite bind_assoc, (bind_ok _ _ _ _ _ (c_write_ok 1 _ s1 R1)). set (s2 := with_CONTAINER _ s1).
  assert (pmm_ok s2) as Hok2 by (by apply (pmm_ok_same s)). destruct (palloc_ok s2 Hok2) as (p & s3 & E & _).
  pose proof (palloc_frame s2 p s3 Hok2 E) as [_ Ec]. rewrite (bind_ok _ _ _ _ _ E).
  rewrite (bind_ok _ _ _ _ _ (c_read_ok 1 _ s3 R1)), Ec.
  assert (c_usage (CONTAINER s2 !!! 1) = 1) as -> by (unfold s2, with_CONTAINER; cbn [CONTAINER]; rewrite lookup_total_insert_eq; done).
  by exists s3.
Qed.

Lemma test_MContainer_ok s q :
  pmm_ok s -> CONTAINER s !!! 0 = root_container q -> 10000 < q <= AT_SIZE -> exists s', test_MContainer s = Ok (0, s').
Proof.
  intros Hok H0 Hq. unfold test_MContainer. rewrite (bind_ok _ _ _ _ _ (MContainer_test1_ok s q H0 Hq)).
  destruct (MContainer_test2_ok s q Hok H0) as [s' E]. rewrite (bind_ok _ _ _ _ _ E). by exists s'.
Qed.

(** ** After boot *)

(** The pages of the memory map that [container_init] counts *)
Definition available (b : mboot) : list Z :=
  filter (fun i => page_perm b i = 2) (seqZ 1 (count_pages b (seqZ 0 (get_size b)) 0 - 1)).

Lemma page_perm_cases b i : page_perm b i = 0 \/ page_perm b i = 1 \/ page_perm b i = 2 /\ VM_USERLO_PI <= i < VM_USERHI_PI.
Proof. unfold page_perm. case_decide; [by right; left|]. destruct (find_range _ _ _ _ _). case_decide; [right; right; lia|by left]. Qed.

Lemma filter_ext_in {A} (P Q : A -> Prop) `{!forall x, Decision (P x)} `{!forall x, Decision (Q x)} (l : list A) :
  (forall x, x ∈ l -> P x <-> Q x) -> filter P l = filter Q l.
Proof.
  induction l as [|x l IH]; intros Hpq; [done|]. rewrite !filter_cons, IH by (intros y Hy; apply Hpq; by right).
  pose proof (Hpq x ltac:(by left)) as Hx. destruct (decide (P x)), (decide (Q x)); tauto.
Qed.

Lemma container_init_ok b s (q := Z.of_nat (length (available b))) :
  ks_magic (pm_kstack s) = KSTACK_MAGIC -> 0 <= last_palloc_index s < AT_SIZE -> 0 < q ->
  exists s', container_init b s = Ok (tt, s') /\ pmm_ok s' /\ fresh_table s' /\ CONTAINER s' !!! 0 = root_container q
    /\ last_palloc_index s' = last_palloc_index s /\ q < NUM_PAGES s'
    /\ forall i, i ∈ available b -> 0 <= i < NUM_PAGES s' /\ free_page s' i.
Proof.
  intros Hm Hl Hq. unfold container_init. destruct (pmem_init_ok b s) as (s1 & E & En & Hat & Hlk & Hla & Hks & _ & Hn).
  rewrite (bind_ok _ _ _ _ _ E). unfold get_nps. rewrite gets_bind.
  assert (forall i, 0 <= i < NUM_PAGES s1 -> free_page s1 i <-> page_perm b i = 2) as Hfree.
  { intros i Hi. unfold free_page, normal. rewrite (Hat i Hi). cbn [at_perm at_allocated]. destruct (page_perm_cases b i) as [->|[->|[-> _]]]; lia. }
  assert (filter (free_page s1) (seqZ 1 (NUM_PAGES s1 - 1)) = available b) as Ef.
  { unfold available. rewrite <- En. apply filter_ext_in. intros i Hi%elem_of_seqZ. apply Hfree. lia. }
  assert (q <= NUM_PAGES s1 - 1) as Hqn.
  { unfold q in Hq |- *. rewrite <- Ef in Hq |- *. pose proof (length_filter (free_page s1) (seqZ 1 (NUM_PAGES s1 - 1))) as H. rewrite length_seqZ in H. lia. }
  erewrite bind_ok by (apply count_quota_spec; [intros i Hi%elem_of_seqZ; lia|lia|rewrite length_seqZ; unfold AT_SIZE, W32 in *; lia]).
  rewrite Ef, Z.add_0_l. fold q. rewrite c_write_ok by (unfold NUM_IDS; lia). rewrite s32_id by (unfold AT_SIZE in *; lia).
  eexists. split; [reflexivity|]. split; [by split; cbn; try lia; congruence|].
  split; [|split; [exact (lookup_total_insert_eq _ _ _)|split; [done|split; [cbn; lia|]]]].
  - split; cbn; intros i Hi; rewrite (Hat i Hi); [done|]. intros [H0 H1].
    by destruct (page_perm_cases b i) as [E0|[E1|[_ Hr]]].
  - intros i Hi. rewrite <- Ef in Hi. apply list_elem_of_filter in Hi as [Hf Hi%elem_of_seqZ]. split; [cbn; lia|exact Hf].
Qed.

Lemma available_above b : (1 < length (available b))%nat -> exists p, p ∈ available b /\ VM_USERLO_PI < p.
Proof.
  intros Hl. assert (NoDup (available b)) as Hnd by apply NoDup_filter, NoDup_seqZ.
  assert (forall p, p ∈ available b -> VM_USERLO_PI <= p) as Hlo.
  { intros p [Hp _]%list_elem_of_filter. destruct (page_perm_cases b p) as [E|[E|[_ Hr]]]; [congruence..|lia]. }
  destruct (available b) as [|x [|y l]] eqn:E; [cbn in Hl; lia..|]. apply NoDup_cons in Hnd as [Hx _].
  assert (x <> y) by (intros ->; apply Hx; by left).
  pose proof (Hlo x ltac:(by left)). pose proof (Hlo y ltac:(right; by left)).
  destruct (decide (x = VM_USERLO_PI)) as [Hx0|Hx0]; [exists y|exists x]; (split; [set_solver|lia]).
Qed.

(** * The tests of the threads *)

Lemma links_ok pid prev next s : 0 <= pid < NUM_IDS -> pv s pid = prev -> nx s pid = next ->
  Forall (fun p => p.1 s = Ok (p.2, s)) (links pid prev next).
Proof. intros Hr <- <-. repeat constructor; cbn; by apply tcb_read_ok. Qed.

Lemma repr_links s chid l1 x l2 : queue_repr s chid (l1 ++ x :: l2) ->
  0 <= x < NUM_IDS /\ pv s x = last_or NUM_IDS l1 /\ nx s x = hd_or NUM_IDS l2.
Proof. intros [[_ _ H _ _] Hr]. split; [apply Hr, elem_of_app; right; by left|]. exact (seg_links _ _ _ _ _ _ _ H). Qed.

Lemma repr_links_ok s chid l1 x l2 : queue_repr s chid (l1 ++ x :: l2) ->
  Forall (fun p => p.1 s = Ok (p.2, s)) (links x (last_or NUM_IDS l1) (hd_or NUM_IDS l2)).
Proof. intros H. destruct (repr_links _ _ _ _ _ H) as (Hr & Hp & Hn). by apply links_ok. Qed.

(** Queue 0 is empty at first. *)
Lemma PTQueueInit_test2_ok s : cpu_ok s -> queue_repr s 0 [] -> exists s', PTQueueInit_test2 s = Ok (0, s').
Proof.
  intros Hc Q0. assert (0 <= 0 < NUM_IDS + 1) as Hch by (unfold NUM_IDS; lia).
  assert (forall x, x = 2 \/ x = 3 \/ x = 4 -> 0 <= x < NUM_IDS) as Hx by (unfold NUM_IDS; lia).
  destruct (tqueue_enqueue_spec 0 s Hc Hch 2 [] (Hx 2 ltac:(lia)) Q0) as (s1 & E1 & Q1 & F1 & _); [set_solver|].
  pose proof (queue_frame_cpu _ _ _ F1 Hc) as Hc1.
  destruct (tqueue_enqueue_spec 0 s1 Hc1 Hch 3 [2] (Hx 3 ltac:(lia)) Q1) as (s2 & E2 & Q2 & F2 & _); [set_solver|].
  pose proof (queue_frame_cpu _ _ _ F2 Hc1) as Hc2.
  destruct (tqueue_enqueue_spec 0 s2 Hc2 Hch 4 [2; 3] (Hx 4 ltac:(lia)) Q2) as (s3 & E3 & Q3 & F3 & _); [set_solver|].
  pose proof (queue_frame_cpu _ _ _ F3 Hc2) as Hc3.
  destruct (tqueue_remove_spec 0 s3 Hc3 Hch 3 [2] [4] Q3) as (s4 & E4 & Q4 & F4 & N4 & P4 & _).
  pose proof (queue_frame_cpu _ _ _ F4 Hc3) as Hc4.
  destruct (tqueue_dequeue_spec 0 s4 Hc4 Hch 2 [4] Q4) as (s5 & E5 & Q5 & F5 & N5 & P5 & _).
  pose proof (queue_frame_cpu _ _ _ F5 Hc4) as Hc5.
  unfold PTQueueInit_test2. rewrite (bind_ok _ _ _ _ _ E1), (bind_ok _ _ _ _ _ E2), (bind_ok _ _ _ _ _ E3).
  erewrite bind_ok by (apply any_differs_none; repeat apply Forall_app_2;
    [exact (repr_links_ok s3 0 [] 2 [3; 4] Q3)|exact (repr_links_ok s3 0 [2] 3 [4] Q3)|exact (repr_links_ok s3 0 [2; 3] 4 [] Q3)]).
  cbv beta iota. rewrite (bind_ok _ _ _ _ _ E4).
  erewrite bind_ok by (apply any_differs_none; repeat apply Forall_app_2;
    [exact (repr_links_ok s4 0 [] 2 [4] Q4)|apply links_ok; [apply Hx; lia|done..]|exact (repr_links_ok s4 0 [2] 4 [] Q4)]).
  cbv beta iota. rewrite (bind_ok _ _ _ _ _ E5). exists s5.
  destruct Q5 as [[Hh Ht _ _ _] _]. rewrite (bind_ok _ _ s5 false s5); [done|]. apply any_differs_none.
  apply Forall_cons_2; [done|]. apply Forall_app_2; [apply links_ok; [apply Hx; lia|done..]|].
  apply Forall_cons_2; [|apply Forall_cons_2; [|apply Forall_nil_2]]; cbn [fst snd];
    [change 4 with (hd_or NUM_IDS [4]); rewrite <- Hh|change 4 with (last_or NUM_IDS [4]); rewrite <- Ht]; by apply (tq_read_ok (this_cpu s5)).
Qed.

Lemma test_PTQueueInit_ok s :
  cpu_ok s -> (forall ch, 0 <= ch <= NUM_IDS -> TQueuePool s !!! (this_cpu s, ch) = empty_queue) ->
  exists s', test_PTQueueInit s = Ok (0, s').
Proof.
  intros Hc Q. unfold test_PTQueueInit, PTQueueInit_test1. rewrite bind_assoc.
  destruct (PTQueueInit_test2_ok s Hc) as [s' E].
  { split; [|by intros x ?%elem_of_nil]. unfold qh, qt. rewrite (Q 0) by (unfold NUM_IDS; lia). apply dlist_empty. }
  erewrite bind_ok; [|apply first_of_same; intros i Hi%elem_of_seqZ].
  { rewrite mret_bind, (bind_ok _ _ _ _ _ E). by exists s'. }
  rewrite (bind_ok _ _ s false s); [done|]. apply any_differs_none.
  apply Forall_cons_2; [|apply Forall_cons_2; [|apply Forall_nil_2]]; cbn [fst snd]; unfold tqueue_get_head, tqueue_get_tail;
    rewrite (tq_read_ok (this_cpu s)) by (try done; lia); by rewrite (Q i) by lia.
Qed.

(** A control block as [tcb_init_at_id] leaves it, as far as the test looks *)
Definition blank (t : TCB) : Prop := tcb_state t = TSTATE_DEAD /\ tcb_prev t = NUM_IDS /\ tcb_next t = NUM_IDS.
#[export] Instance blank_dec t : Decision (blank t).
Proof. unfold blank. apply _. Defined.

Lemma check_blank i s : 0 <= i < NUM_IDS ->
  (st ← tcb_get_state i;
   bad ← (if decide (st <> TSTATE_DEAD) then mret true else any_differs (links i NUM_IDS NUM_IDS));
   mret (if bad : bool then Some 1 else None)) s = Ok (if decide (blank (TCBPool s !!! i)) then None else Some 1, s).
Proof.
  intros Hi. unfold tcb_get_state, links, tcb_get_prev, tcb_get_next. rewrite (bind_ok _ _ _ _ _ (tcb_read_ok i _ s Hi)).
  set (t := TCBPool s !!! i). unfold blank. destruct (decide (tcb_state t <> TSTATE_DEAD)) as [H1|H1].
  { by rewrite mret_bind, decide_False by tauto. }
  cbn [any_differs]. rewrite bind_assoc, (bind_ok _ _ _ _ _ (tcb_read_ok i _ s Hi)). fold t.
  destruct (decide (tcb_prev t <> NUM_IDS)) as [H2|H2]; [by rewrite mret_bind, decide_False by tauto|].
  rewrite bind_assoc, (bind_ok _ _ _ _ _ (tcb_read_ok i _ s Hi)). fold t.
  destruct (decide (tcb_next t <> NUM_IDS)) as [H3|H3]; [by rewrite mret_bind, decide_False by tauto|].
  rewrite mret_bind, decide_True; [done|]. split_and!; by apply dec_stable.
Qed.

(** The test looks at every control block but the first. *)
Lemma test_PTCBInit_spec s :
  test_PTCBInit s = Ok (if decide (Forall (fun i => blank (TCBPool s !!! i)) (seqZ 1 (NUM_IDS - 1))) then 0 else 1, s).
Proof.
  unfold test_PTCBInit, PTCBInit_test1. rewrite bind_assoc. case_decide as H.
  - rewrite Forall_forall in H. erewrite bind_ok; [|apply first_of_same; intros i Hi]; [done|].
    pose proof (H i Hi : blank (TCBPool s !!! i)) as Hb. apply elem_of_seqZ in Hi. rewrite check_blank by lia. by rewrite decide_True.
  - assert (forall l, (forall i, i ∈ l -> 0 <= i < NUM_IDS) -> ~ Forall (fun i => blank (TCBPool s !!! i)) l ->
      first_of l (fun i => st ← tcb_get_state i;
        bad ← (if decide (st <> TSTATE_DEAD) then mret true else any_differs (links i NUM_IDS NUM_IDS));
        mret (if bad : bool then Some 1 else None)) s = Ok (Some 1, s)) as E.
    { induction l as [|i l IH]; intros Hr Hn; [by destruct Hn|]. cbn [first_of].
      rewrite (bind_ok _ _ _ _ _ (check_blank i s (Hr i ltac:(by left)))). case_decide as Hb; [|done].
      apply IH; [intros j Hj; apply Hr; by right|]. intros C. apply Hn. by constructor. }
    rewrite (bind_ok _ _ _ _ _ (E (seqZ 1 (NUM_IDS - 1)) ltac:(intros i Hi%elem_of_seqZ; lia) H)). done.
Qed.

(** After [tcb_init] exactly the control blocks it has reached are blank, if none was before. *)
Lemma tcb_init_reaches paging_init w s :
  (forall t, paging_init t = Ok (tt, t)) -> (forall k, 0 <= w k < NUM_IDS) -> (forall i, ~ blank (TCBPool s !!! i)) ->
  exists s', tcb_init paging_init w s = Ok (tt, s') /\ forall i, blank (TCBPool s' !!! i) <-> exists k, 0 <= k < NUM_IDS /\ w k = i.
Proof.
  intros Hp Hw Hs. unfold tcb_init. rewrite (bind_ok _ _ _ _ _ (Hp s)).
  apply (for_range_ind (fun n s' => forall i, blank (TCBPool s' !!! i) <-> exists k, 0 <= k < n /\ w k = i)); [done| |].
  - intros n s1 Hn IH. unfold tcb_init_at_id. rewrite tcb_write_ok by apply Hw. eexists. split; [reflexivity|].
    intros i. rewrite TCBPool_upd_tcb. case_decide as Hi.
    + split; [intros _; exists n; split; [lia|done]|]. intros _. by split.
    + rewrite IH. split; intros (k & Hk & E); exists k; (split; [|done]); [lia|]. destruct (decide (k = n)) as [->|]; [done|lia].
  - intros i. split; [intros H; by destruct (Hs i)|intros (k & Hk & _); lia].
Qed.

Lemma test_PThread_ok alloc_mem_quota kstack_base s a p :
  sched_abs s a -> (forall l, alloc_mem_quota 0 1000 (set_sched_lk l s) = Ok (p, set_sched_lk l s)) ->
  0 <= p < NUM_IDS -> p ∉ a_rq a -> p <> a_cur a ->
  exists s', test_PThread alloc_mem_quota kstack_base s = Ok (0, s').
Proof.
  intros Ha Hq Hp Hr Hc. destruct (thread_spawn_sim _ kstack_base 0 _ _ s a p Ha Hq Hp Hr Hc) as (s' & E & [Ha' _] & _).
  unfold test_PThread, PThread_test1. rewrite bind_assoc, (bind_ok _ _ _ _ _ E). exists s'.
  unfold tcb_get_state. rewrite bind_assoc, (bind_ok _ _ _ _ _ (tcb_read_ok p _ s' Hp)).
  rewrite (sc_ready _ _ Ha' p) by (cbn; apply elem_of_app; right; by left). rewrite decide_False by (intros C; by apply C).
  erewrite bind_assoc, bind_ok by (apply (tq_read_ok (this_cpu s')); [apply Ha'|done|unfold NUM_IDS; lia]).
  destruct (sc_rq _ _ Ha') as [[_ Ht _ _ _] _]. fold (qt s' NUM_IDS). rewrite Ht. cbn [a_rq a_spawn]. rewrite last_or_snoc.
  by rewrite decide_False by (intros C; by apply C).
Qed.

Module UnitTestProps.

(** The kernel's tests of physical memory pass.  On a machine
    whose memory map has more than 10000 available pages, [container_init]
    returns, and the tests of MATIntro, MATInit, MATOp and MContainer, run in
    this order, all return 0. *)
Theorem memory_tests_pass b s :
  ks_magic (pm_kstack s) = KSTACK_MAGIC -> last_palloc_index s = VM_USERLO_PI -> 10000 < Z.of_nat (length (available b)) ->
  exists s0 s1 s2 s3, container_init b s = Ok (tt, s0) /\ test_MATIntro s0 = Ok (0, s1) /\ test_MATInit s1 = Ok (0, s1)
    /\ test_MATOp s1 = Ok (0, s2) /\ test_MContainer s2 = Ok (0, s3).
Proof.
  intros Hm Hl Hq. destruct (container_init_ok b s Hm) as (s0 & E0 & Hok & Hf & Hc & Hl0 & Hn & Hav);
    [by rewrite Hl|lia|]. pose proof (po_nps _ Hok) as Hnps.
  destruct (test_MATIntro_ok s0 ltac:(lia)) as (s1 & E1 & P). pose proof (probed_fresh s0 s1 P Hf) as Hf1.
  assert (pmm_ok s1) as Hok1 by (destruct P; by apply (pmm_ok_same s0)).
  destruct (available_above b ltac:(lia)) as (p & Hp & Hpl). destruct (Hav p Hp) as [Hpr Hpf].
  destruct P as [En E0' E1' Ei _ El Ec _].
  destruct (test_MATOp_ok s1 p Hok1 Hf1) as (s2 & E2 & Hok2 & Ec2).
  { rewrite El, Hl0, Hl, En. lia. }
  { unfold free_page. rewrite Ei; [done|]. assert (2 <= VM_USERLO_PI) by done. lia. }
  destruct (test_MContainer_ok s2 _ Hok2 ltac:(by rewrite Ec2, Ec)) as [s3 E3]; [lia|].
  exists s0, s1, s2, s3. split_and!; try done. apply test_MATInit_ok; [done|]. rewrite En. lia.
Qed.

(** The test of the control blocks passes if and only if the stack words that
    [tcb_init_at_id] takes for its second argument name every control block but
    the first.  A word that stays the same makes it fail. *)
Theorem tcb_test_needs_every_word paging_init w s :
  (forall t, paging_init t = Ok (tt, t)) -> (forall k, 0 <= w k < NUM_IDS) -> (forall i, ~ blank (TCBPool s !!! i)) ->
  exists s', tcb_init paging_init w s = Ok (tt, s')
    /\ (test_PTCBInit s' = Ok (0, s') <-> forall i, 1 <= i < NUM_IDS -> exists k, 0 <= k < NUM_IDS /\ w k = i).
Proof.
  intros Hp Hw Hs. destruct (tcb_init_reaches paging_init w s Hp Hw Hs) as (s' & E & Hb). exists s'. split; [done|].
  rewrite test_PTCBInit_spec. case_decide as H; rewrite Forall_forall in H; [split; [intros _ i Hi|done]|split; [done|intros Hall]].
  - apply Hb, H, elem_of_seqZ. lia.
  - destruct H. intros i Hi%elem_of_seqZ. apply Hb, Hall. lia.
Qed.

Lemma tcb_test_needs_every_word_witness : exists s s' : thr, tcb_init (mret tt) (fun _ => 5) s = Ok (tt, s')
  /\ ~ test_PTCBInit s' = Ok (0, s').
Proof.
  exists (with_TCBPool (fun _ => ∅) SchedProps.demo).
  destruct (tcb_test_needs_every_word (mret tt : M thr unit) (fun _ => 5) (with_TCBPool (fun _ => ∅) SchedProps.demo)) as (s' & E & H).
  - done.
  - intros _. unfold NUM_IDS. lia.
  - intros i [C _]. cbn in C. by rewrite lookup_total_empty in C.
  - exists s'. split; [done|]. intros C. destruct (proj1 H C 1) as (k & _ & Hk); [by vm_compute|done].
Defined.

(** A machine with 10100 pages of memory from 1 GB on *)
Definition demo_map : mboot :=
  {| pmmap_slots_next_free := 1; pmmap_list := [{| pm_start := 0x40000000; pm_end := 0x40000000 + 10100 * 4096; pm_type := MEM_RAM |}];
     max_usable_memory := 0; mem_npages := 0; pmmap_nentries := 1; pmmap_sublist := ∅ |}.
Lemma demo_map_perm i : 262144 <= i < 262144 + 10100 -> page_perm demo_map i = 2.
Proof.
  intros Hi. unfold page_perm. rewrite decide_False by (change VM_USERLO_PI with 262144; change VM_USERHI_PI with 983040; lia).
  change (seqZ 0 (get_size demo_map)) with [0]. cbn [find_range]. rewrite (decide_True (P := 0 = 0)) by done.
  rewrite (decide_True (P := _ /\ _)); [by vm_compute|].
  change (get_mms demo_map 0) with 1073741824. change (u32 (get_mml demo_map 0 + 1073741824)) with (1073741824 + 10100 * 4096).
  rewrite !u32_id by (unfold PAGESIZE, W32; lia).
  split; [|by vm_compute]. apply decide_True. unfold PAGESIZE. lia.
Qed.
Lemma demo_map_pages : 10000 < Z.of_nat (length (available demo_map)).
Proof.
  assert (seqZ 262144 10100 ⊆+ available demo_map) as H%submseteq_length; [|rewrite length_seqZ in H; lia].
  apply NoDup_submseteq; [apply NoDup_seqZ|]. intros i Hi%elem_of_seqZ. apply list_elem_of_filter. split; [by apply demo_map_perm|].
  apply elem_of_seqZ. change (count_pages demo_map (seqZ 0 (get_size demo_map)) 0) with (262144 + 10101). lia.
Qed.

Lemma memory_tests_pass_witness : exists s0 s1 s2 s3, container_init demo_map PmmProps.zero_pmm = Ok (tt, s0)
  /\ test_MATIntro s0 = Ok (0, s1) /\ test_MATOp s1 = Ok (0, s2) /\ test_MContainer s2 = Ok (0, s3).
Proof.
  destruct (memory_tests_pass demo_map PmmProps.zero_pmm) as (s0 & s1 & s2 & s3 & E0 & E1 & _ & E2 & E3);
    [done|done|exact demo_map_pages|].
  exists s0, s1, s2, s3. exact (conj E0 (conj E1 (conj E2 E3))).
Defined.

End UnitTestProps.
