(* ===== verification/Console.v ===== *)
(** * The console: dev/console.c, dev/keyboard.c, dev/video.c, dev/serial.c

    Characters come from the keyboard and the serial line into a ring buffer
    and go out to the serial line and the screen; [readline] is a line editor on
    top.  The devices are modelled behind [inb] and [outb]: the keyboard
    controller holds scan codes that wait to be read, the serial port received
    bytes, the display adapter a text memory and the registers of its
    controller.  [sent] records every byte written to a port.

    [linebuf] is in kernel memory, where [pt_copyout] reads it; its address is
    an argument.  Of the rest of the kernel the console uses the kernel stack,
    memory and the notification of wait objects, through [ConsKernel]. *)

From S2P Require Import Prelude Machine Thread Scheduler WaitObj KString Bytes Printfmt Pmap Syscall.

(** ** Constants *)
Definition KBSTATP : Z := 0x64.
Definition KBS_DIB : Z := 0x01.
Definition KBDATAP : Z := 0x60.
Definition KEY_HOME : Z := 0xE0.
Definition KEY_END : Z := 0xE1.
Definition KEY_UP : Z := 0xE2.
Definition KEY_DN : Z := 0xE3.
Definition KEY_LF : Z := 0xE4.
Definition KEY_RT : Z := 0xE5.
Definition KEY_PGUP : Z := 0xE6.
Definition KEY_PGDN : Z := 0xE7.
Definition KEY_INS : Z := 0xE8.
Definition KEY_DEL : Z := 0xE9.

Definition COM1 : Z := 0x3F8.
Definition COM_RX : Z := 0.
Definition COM_TX : Z := 0.
Definition COM_DLL : Z := 0.
Definition COM_DLM : Z := 1.
Definition COM_IER : Z := 1.
Definition COM_IIR : Z := 2.
Definition COM_FCR : Z := 2.
Definition COM_LCR : Z := 3.
Definition COM_LCR_DLAB : Z := 0x80.
Definition COM_LCR_WLEN8 : Z := 0x03.
Definition COM_MCR : Z := 4.
Definition COM_LSR : Z := 5.
Definition COM_LSR_DATA : Z := 0x01.
Definition COM_LSR_TXRDY : Z := 0x20.

Definition MONO_BASE : Z := 0x3B4.
Definition MONO_BUF : Z := 0xB0000.
Definition CGA_BASE : Z := 0x3D4.
Definition CGA_BUF : Z := 0xB8000.
Definition CRT_ROWS : Z := 25.
Definition CRT_COLS : Z := 80.
Definition CRT_SIZE : Z := CRT_ROWS * CRT_COLS.

Definition BUFLEN : Z := 1024.

(** A [char] is signed. *)
Definition s8 (z : Z) : Z := let u := u8 z in if u <? 128 then u else u - 256.

(** ** State *)
Record devices := mk_devices {
  kbd_q : list Z;               (* scan codes in the keyboard controller *)
  ser_present : bool;           (* is there a serial port? *)
  ser_q : list Z;               (* bytes received on the serial line *)
  tx_polls : nat;               (* polls until the transmitter is ready *)
  tx_delay : nat;               (* polls it takes after a byte is sent *)
  cga : bool;                   (* is the colour adapter present? *)
  crtc_idx : Z;                 (* index register of the 6845 *)
  crtc : gmap Z Z;              (* its data registers *)
  vram : gmap Z Z;              (* text memory: 16-bit cells by address *)
  sent : list (Z * Z);          (* what was written to the ports *)
}.

Record cstate (T : Type) := mk_cstate {
  cons_lk : spinlock;
  cbuf : gmap Z Z; rpos : Z; wpos : Z;      (* cons *)
  kshift : Z;                               (* shift of kbd_proc_data *)
  serial_exists : bool;
  addr_6845 : Z;
  crt_buf : Z; crt_pos : Z; active_console : Z;   (* terminal *)
  dev : devices;
  ckern : T;
}.
Arguments mk_cstate {T}. Arguments cons_lk {T}. Arguments cbuf {T}. Arguments rpos {T}.
Arguments wpos {T}. Arguments kshift {T}. Arguments serial_exists {T}. Arguments addr_6845 {T}.
Arguments crt_buf {T}. Arguments crt_pos {T}. Arguments active_console {T}. Arguments dev {T}.
Arguments ckern {T}.

Definition set_kbd_q v d := mk_devices v (ser_present d) (ser_q d) (tx_polls d) (tx_delay d) (cga d)
  (crtc_idx d) (crtc d) (vram d) (sent d).
Definition set_ser_q v d := mk_devices (kbd_q d) (ser_present d) v (tx_polls d) (tx_delay d) (cga d)
  (crtc_idx d) (crtc d) (vram d) (sent d).
Definition set_tx_polls v d := mk_devices (kbd_q d) (ser_present d) (ser_q d) v (tx_delay d) (cga d)
  (crtc_idx d) (crtc d) (vram d) (sent d).
Definition set_crtc i r d := mk_devices (kbd_q d) (ser_present d) (ser_q d) (tx_polls d) (tx_delay d)
  (cga d) i r (vram d) (sent d).
Definition set_vram v d := mk_devices (kbd_q d) (ser_present d) (ser_q d) (tx_polls d) (tx_delay d)
  (cga d) (crtc_idx d) (crtc d) v (sent d).
Definition set_sent v d := mk_devices (kbd_q d) (ser_present d) (ser_q d) (tx_polls d) (tx_delay d)
  (cga d) (crtc_idx d) (crtc d) (vram d) v.

(** What the console uses of the rest of the kernel *)
Class ConsKernel (T : Type) := {
  ck_kstack : T -> kstack;
  ck_notify : M T unit;         (* waitobj_console_input_notify *)
  ck_mem : T -> mem;
  ck_set_mem : mem -> T -> T;
}.

Class ConsKernelLaws (T : Type) `{ConsKernel T} := {
  ck_inv : T -> Prop;
  ck_magic t : ck_inv t -> ks_magic (ck_kstack t) = KSTACK_MAGIC;
  ck_notify_law t : ck_inv t ->
    exists t', ck_notify t = Ok (tt, t') /\ ck_inv t' /\ ck_mem t' = ck_mem t;
  ck_mem_set m t : ck_mem (ck_set_mem m t) = m;
  ck_set_inv m t : ck_inv t -> ck_inv (ck_set_mem m t);
}.

Section Setters.
Context {T : Type}.
Implicit Type s : cstate T.
Definition set_cons_lk v s := mk_cstate v (cbuf s) (rpos s) (wpos s) (kshift s) (serial_exists s)
  (addr_6845 s) (crt_buf s) (crt_pos s) (active_console s) (dev s) (ckern s).
Definition set_ring b r w s := mk_cstate (cons_lk s) b r w (kshift s) (serial_exists s)
  (addr_6845 s) (crt_buf s) (crt_pos s) (active_console s) (dev s) (ckern s).
Definition set_kshift v s := mk_cstate (cons_lk s) (cbuf s) (rpos s) (wpos s) v (serial_exists s)
  (addr_6845 s) (crt_buf s) (crt_pos s) (active_console s) (dev s) (ckern s).
Definition set_serial_exists v s := mk_cstate (cons_lk s) (cbuf s) (rpos s) (wpos s) (kshift s) v
  (addr_6845 s) (crt_buf s) (crt_pos s) (active_console s) (dev s) (ckern s).
Definition set_addr_6845 v s := mk_cstate (cons_lk s) (cbuf s) (rpos s) (wpos s) (kshift s)
  (serial_exists s) v (crt_buf s) (crt_pos s) (active_console s) (dev s) (ckern s).
Definition set_crt_pos v s := mk_cstate (cons_lk s) (cbuf s) (rpos s) (wpos s) (kshift s)
  (serial_exists s) (addr_6845 s) (crt_buf s) v (active_console s) (dev s) (ckern s).
Definition set_terminal b p a s := mk_cstate (cons_lk s) (cbuf s) (rpos s) (wpos s) (kshift s)
  (serial_exists s) (addr_6845 s) b p a (dev s) (ckern s).
Definition set_dev v s := mk_cstate (cons_lk s) (cbuf s) (rpos s) (wpos s) (kshift s)
  (serial_exists s) (addr_6845 s) (crt_buf s) (crt_pos s) (active_console s) v (ckern s).
Definition set_ckern (v : T) s := mk_cstate (cons_lk s) (cbuf s) (rpos s) (wpos s) (kshift s)
  (serial_exists s) (addr_6845 s) (crt_buf s) (crt_pos s) (active_console s) (dev s) v.
End Setters.

(** ** The devices behind the ports *)
Definition crtc_base (d : devices) : Z := if cga d then CGA_BASE else MONO_BASE.

Definition lsr (d : devices) : Z :=
  if ser_present d then
    Z.lor (if decide (ser_q d = []) then 0 else COM_LSR_DATA)
          (if decide (tx_polls d = O) then COM_LSR_TXRDY else 0)
  else 0xFF.

Definition dev_in (p : Z) (d : devices) : Z * devices :=
  if decide (p = KBSTATP) then ((if decide (kbd_q d = []) then 0 else KBS_DIB), d)
  else if decide (p = KBDATAP) then (default 0 (head (kbd_q d)), set_kbd_q (tail (kbd_q d)) d)
  else if decide (p = COM1 + COM_LSR) then (lsr d, set_tx_polls (pred (tx_polls d)) d)
  else if decide (p = COM1 + COM_RX) then (default 0 (head (ser_q d)), set_ser_q (tail (ser_q d)) d)
  else if decide (p = crtc_base d + 1) then (crtc d !!! crtc_idx d, d)
  else (0, d).

Definition dev_out (p v : Z) (d : devices) : devices :=
  let d := set_sent (sent d ++ [(p, v)]) d in
  if decide (p = COM1 + COM_TX) then set_tx_polls (tx_delay d) d
  else if decide (p = COM1 + COM_FCR) then (if Z.testbit v 1 then set_ser_q [] d else d)
  else if decide (p = crtc_base d) then set_crtc v (crtc d) d
  else if decide (p = crtc_base d + 1) then set_crtc (crtc_idx d) (<[crtc_idx d := v]> (crtc d)) d
  else d.

(** Text memory: an adapter that is absent reads as ones and keeps nothing. *)
Definition vram_there (a : Z) (d : devices) : bool := bool_decide (a < CGA_BUF) || cga d.
Definition vram_in (a : Z) (d : devices) : Z := if vram_there a d then vram d !!! a else 0xFFFF.
Definition vram_out (a v : Z) (d : devices) : devices :=
  if vram_there a d then set_vram (<[a := u16 v]> (vram d)) d else d.

Section Console.
Context {T : Type} `{!ConsKernel T}.
Notation C := (M (cstate T)).

(** ** lib/x86.c: port input and output *)
Definition inb (port : Z) : C Z :=
  fun s => let '(v, d) := dev_in port (dev s) in Ok (u8 v, set_dev d s).
Definition outb (port data : Z) : C unit :=
  modify (fun s => set_dev (dev_out port (u8 data) (dev s)) s).

(** A 16-bit cell of text memory *)
Definition vread (a : Z) : C Z :=
  if decide (MONO_BUF <= a < 0xC0000) then gets (fun s => vram_in a (dev s)) else undef BadAddress.
Definition vwrite (a v : Z) : C unit :=
  if decide (MONO_BUF <= a < 0xC0000) then modify (fun s => set_dev (vram_out a v (dev s)) s)
  else undef BadAddress.

(** ** dev/serial.c: output *)
Definition delay : C unit := inb 0x84 ;; inb 0x84 ;; inb 0x84 ;; inb 0x84 ;; mret tt.

Definition serial_reformatnewline (c p : Z) : C Z :=
  let cr := 13 in
  let nl := 10 in
  if decide (c = nl) then
    outb p cr ;;
    outb p nl ;;
    mret 1
  else mret 0.

(** [n] polls are left: [12800 - i]. *)
Fixpoint tx_wait (n : nat) : C unit :=
  l ← inb (COM1 + COM_LSR);
  if decide (Z.land l COM_LSR_TXRDY <> 0) then mret tt
  else match n with O => mret tt | S n => delay ;; tx_wait n end.

Definition serial_putc (c : Z) : C unit :=
  e ← gets serial_exists;
  if negb e then mret tt
  else
    tx_wait (Z.to_nat 12800) ;;
    r ← serial_reformatnewline c (COM1 + COM_TX);
    if decide (r = 0) then outb (COM1 + COM_TX) c else mret tt.

(** ** dev/video.c *)
Definition put_crt_pos (p : Z) : C unit := modify (set_crt_pos (u16 p)).
Definition cell_read (i : Z) : C Z :=
  b ← gets crt_buf; if decide (b = 0) then undef NullDeref else vread (b + 2 * i).
Definition cell_write (i v : Z) : C unit :=
  b ← gets crt_buf; if decide (b = 0) then undef NullDeref else vwrite (b + 2 * i) v.

Definition video_scroll : C unit :=
  for_each (seqZ 0 (CRT_SIZE - CRT_COLS)) (fun i => v ← cell_read (i + CRT_COLS); cell_write i v) ;;
  for_each (seqZ (CRT_SIZE - CRT_COLS) CRT_COLS) (fun i => cell_write i (Z.lor 0x0700 32)) ;;
  p ← gets crt_pos;
  put_crt_pos (p - CRT_COLS).

Definition move_cursor : C unit :=
  a ← gets addr_6845;
  p ← gets crt_pos;
  outb a 14 ;;
  outb (a + 1) (Z.shiftr p 8) ;;
  outb a 15 ;;
  outb (a + 1) p.

(** The body of [video_putc]; [rec] is the call it makes of itself. *)
Definition video_putc_body (rec : Z -> C unit) (c : Z) : C unit :=
  let c := if decide (Z.land c (Z.lnot 0xFF) = 0) then Z.lor c 0x0700 else c in
  let ch := Z.land c 0xff in
  (if decide (ch = 8) then
     p ← gets crt_pos;
     if decide (p > 0) then
       put_crt_pos (p - 1) ;;
       p ← gets crt_pos;
       cell_write p (Z.lor (Z.land c (Z.lnot 0xff)) 32)
     else mret tt
   else if decide (ch = 10) then
     p ← gets crt_pos;
     put_crt_pos (p + CRT_COLS) ;;
     p ← gets crt_pos;
     put_crt_pos (p - p mod CRT_COLS)
   else if decide (ch = 13) then
     p ← gets crt_pos;
     put_crt_pos (p - p mod CRT_COLS)
   else if decide (ch = 9) then
     rec 32 ;; rec 32 ;; rec 32 ;; rec 32 ;; rec 32
   else
     p ← gets crt_pos;
     put_crt_pos (p + 1) ;;
     cell_write p c) ;;
  p ← gets crt_pos;
  (if decide (p >= CRT_SIZE) then video_scroll else mret tt) ;;
  move_cursor.

(** A tab prints spaces, which do not recur. *)
Definition video_putc : Z -> C unit := video_putc_body (video_putc_body (fun _ => fail Hang)).

Definition video_set_cursor (x y : Z) : C unit := put_crt_pos (x * CRT_COLS + y).

Definition video_clear_screen : C unit :=
  for_each (seqZ 0 CRT_SIZE) (fun i => cell_write i 32).

(** ** dev/console.c: output *)
Definition cons_putc (c : Z) : C unit := serial_putc c ;; video_putc c.
Definition putchar (c : Z) : C unit := cons_putc c.

(** [dprintf] of text without conversions: each character goes to [cons_putc]
    (Printfmt.v). *)
Definition print_text (l : list Z) : C unit := for_each l (fun c => cons_putc (s8 c)).
Definition chars (s : string) : list Z := map chr (String.list_ascii_of_string s).

(** ** dev/video.c: initialisation *)
Definition video_init : C unit :=
  was ← vread CGA_BUF;
  vwrite CGA_BUF 0xA55A ;;
  v ← vread CGA_BUF;
  cp ← (if decide (v <> 0xA55A) then
          modify (set_addr_6845 MONO_BASE) ;;
          print_text (chars "addr_6845:3b4" ++ [10]) ;;
          mret MONO_BUF
        else
          vwrite CGA_BUF was ;;
          modify (set_addr_6845 CGA_BASE) ;;
          print_text (chars "addr_6845:3d4" ++ [10]) ;;
          mret CGA_BUF);
  a ← gets addr_6845;
  outb a 14 ;;
  hi ← inb (a + 1);
  outb a 15 ;;
  lo ← inb (a + 1);
  modify (set_terminal cp (u16 (Z.lor (Z.shiftl hi 8) lo)) 0).

(** ** dev/serial.c: start-up *)
Definition serial_init : C unit :=
  outb (COM1 + COM_IER) 0 ;;
  outb (COM1 + COM_LCR) COM_LCR_DLAB ;;
  outb (COM1 + COM_DLL) (Z.land 0x0001 0xff) ;;
  outb (COM1 + COM_DLM) (Z.shiftr 0x0001 8) ;;
  outb (COM1 + COM_LCR) (Z.land COM_LCR_WLEN8 (Z.lnot COM_LCR_DLAB)) ;;
  outb (COM1 + COM_FCR) 0xc7 ;;
  outb (COM1 + COM_MCR) 0x0b ;;
  l ← inb (COM1 + COM_LSR);
  modify (set_serial_exists (bool_decide (l <> 0xFF))) ;;
  inb (COM1 + COM_IIR) ;;
  inb (COM1 + COM_RX) ;;
  mret tt.

Definition cons_init : C unit :=
  modify (set_ring ∅ 0 0) ;;
  serial_init ;;
  video_init ;;
  zoom cons_lk set_cons_lk spinlock_init.

(** ** dev/keyboard.c *)
Definition NO : Z := 0.
Definition SHIFT : Z := 1.
Definition CTL : Z := 2.
Definition ALT : Z := 4.
Definition CAPSLOCK : Z := 8.
Definition NUMLOCK : Z := 16.
Definition SCROLLLOCK : Z := 32.
Definition E0ESC : Z := 64.

(** An array given by its first elements and by some designated ones *)
Definition table (first : list Z) (designated : list (Z * Z)) (i : Z) : Z :=
  match list_find (fun p => p.1 = i) designated with
  | Some (_, p) => p.2
  | None => default 0 (first !! Z.to_nat i)
  end.

Definition shiftcode : Z -> Z :=
  table [] [(0x1D, CTL); (0x2A, SHIFT); (0x36, SHIFT); (0x38, ALT); (0x9D, CTL); (0xB8, ALT)].
Definition togglecode : Z -> Z := table [] [(0x3A, CAPSLOCK); (0x45, NUMLOCK); (0x46, SCROLLLOCK)].

(** The keypad, the same in [normalmap] and [shiftmap] *)
Definition keypad : list (Z * Z) :=
  [(0xC7, KEY_HOME); (0x9C, 10); (0xB5, 47); (0xC8, KEY_UP); (0xC9, KEY_PGUP); (0xCB, KEY_LF);
   (0xCD, KEY_RT); (0xCF, KEY_END); (0xD0, KEY_DN); (0xD1, KEY_PGDN); (0xD2, KEY_INS); (0xD3, KEY_DEL)].

Definition normalmap : Z -> Z := table
  ([NO; 0x1B] ++ chars "1234567890-=" ++ [8; 9]
   ++ chars "qwertyuiop[]" ++ [10; NO] ++ chars "asdfghjkl;'`" ++ [NO]
   ++ chars "\zxcvbnm,./" ++ [NO] ++ chars "*" ++ [NO; 32] ++ replicate 13 NO
   ++ chars "789-456+1230." ++ [NO; NO; NO; NO]) keypad.

Definition shiftmap : Z -> Z := table
  ([NO; 27] ++ chars "!@#$%^&*()_+" ++ [8; 9]
   ++ chars "QWERTYUIOP{}" ++ [10; NO] ++ chars "ASDFGHJKL:" ++ [34] ++ chars "~" ++ [NO]
   ++ chars "|ZXCVBNM<>?" ++ [NO] ++ chars "*" ++ [NO; 32] ++ replicate 13 NO
   ++ chars "789-456+1230." ++ [NO; NO; NO; NO]) keypad.

(** [C(x)], stored in a [uint8_t] *)
Definition ctl_of (l : list Z) : list Z := map (fun x => u8 (x - 64)) l.

Definition ctlmap : Z -> Z := table
  (replicate 16 NO ++ ctl_of (chars "QWERTYUIOP") ++ [NO; NO; 13; NO] ++ ctl_of (chars "ASDFGHJKL")
   ++ [NO; NO; NO; NO] ++ ctl_of (chars "\ZXCVBNM") ++ [NO; NO] ++ ctl_of (chars "/") ++ [NO; NO])
  ([(0x97, KEY_HOME); (0xB5, u8 (47 - 64))]
   ++ [(0xC8, KEY_UP); (0xC9, KEY_PGUP); (0xCB, KEY_LF); (0xCD, KEY_RT); (0xCF, KEY_END);
       (0xD0, KEY_DN); (0xD1, KEY_PGDN); (0xD2, KEY_INS); (0xD3, KEY_DEL)]).

Definition charcode (i : Z) : Z -> Z :=
  if decide (i = 0) then normalmap else if decide (i = 1) then shiftmap else ctlmap.

Definition capslock (c : Z) : Z :=
  if decide (97 <= c /\ c <= 122) then c + (65 - 97)
  else if decide (65 <= c /\ c <= 90) then c + (97 - 65) else c.

Definition kbd_proc_data : C Z :=
  st ← inb KBSTATP;
  if decide (Z.land st KBS_DIB = 0) then mret (-1)
  else
    data ← inb KBDATAP;
    shift ← gets kshift;
    if decide (data = 0xE0) then
      modify (set_kshift (Z.lor shift E0ESC)) ;;
      mret 0
    else if decide (Z.land data 0x80 <> 0) then
      let data := if decide (Z.land shift E0ESC <> 0) then data else Z.land data 0x7F in
      modify (set_kshift (Z.land shift (Z.lnot (Z.lor (shiftcode data) E0ESC)))) ;;
      mret 0
    else
      let esc := bool_decide (Z.land shift E0ESC <> 0) in
      let data := if esc then Z.lor data 0x80 else data in
      let shift := if esc then Z.land shift (Z.lnot E0ESC) else shift in
      let shift := Z.lor shift (shiftcode data) in
      let shift := Z.lxor shift (togglecode data) in
      modify (set_kshift shift) ;;
      let c := charcode (Z.land shift (Z.lor CTL SHIFT)) data in
      let c := if decide (Z.land shift CAPSLOCK <> 0) then capslock c else c in
      (if decide (Z.land (Z.lnot shift) (Z.lor CTL ALT) = 0 /\ c = KEY_DEL) then
         print_text (chars "Rebooting!" ++ [10]) ;;
         outb 0x92 0x3
       else mret tt) ;;
      mret c.

(** ** dev/console.c: input *)
Definition cons_acquire : C unit :=
  ks ← gets (fun s => ck_kstack (ckern s)); zoom cons_lk set_cons_lk (spinlock_acquire ks).
Definition cons_release : C unit := zoom cons_lk set_cons_lk spinlock_release.

Definition cons_store (c : Z) : C unit :=
  w ← gets wpos;
  check_index CONSOLE_BUFFER_SIZE w ;;
  modify (fun s => set_ring (<[w := s8 c]> (cbuf s)) (rpos s) (u32 (w + 1)) s) ;;
  w ← gets wpos;
  if decide (w = CONSOLE_BUFFER_SIZE) then modify (fun s => set_ring (cbuf s) (rpos s) 0 s) else mret tt.

Fixpoint cons_intr_loop (fuel : nat) (proc : C Z) : C unit :=
  match fuel with
  | O => fail Hang
  | S fuel =>
      c ← proc;
      if decide (c = -1) then mret tt
      else
        (if decide (c = 0) then mret tt else cons_store c) ;;
        cons_intr_loop fuel proc
  end.

(** Every pass but the last takes a byte from a device. *)
Definition cons_intr (proc : C Z) : C unit :=
  cons_acquire ;;
  fuel ← gets (fun s => S (length (kbd_q (dev s)) + length (ser_q (dev s))));
  cons_intr_loop fuel proc ;;
  cons_release ;;
  zoom ckern set_ckern ck_notify.

Definition serial_proc_data : C Z :=
  l ← inb (COM1 + COM_LSR);
  if decide (Z.land l COM_LSR_DATA = 0) then mret (-1)
  else inb (COM1 + COM_RX).

Definition serial_intr : C unit :=
  e ← gets serial_exists;
  if e : bool then cons_intr serial_proc_data else mret tt.

Definition keyboard_intr : C unit := cons_intr kbd_proc_data.

Definition serial_intenable : C unit :=
  e ← gets serial_exists;
  if e : bool then
    outb (COM1 + COM_IER) 1 ;;
    serial_intr
  else mret tt.

Definition cons_getc : C Z :=
  serial_intr ;;
  keyboard_intr ;;
  cons_acquire ;;
  r ← gets rpos;
  w ← gets wpos;
  if decide (r <> w) then
    check_index CONSOLE_BUFFER_SIZE r ;;
    c ← gets (fun s => cbuf s !!! r);
    modify (fun s => set_ring (cbuf s) (u32 (r + 1)) (wpos s) s) ;;
    r ← gets rpos;
    (if decide (r = CONSOLE_BUFFER_SIZE) then modify (fun s => set_ring (cbuf s) 0 (wpos s) s)
     else mret tt) ;;
    cons_release ;;
    mret c
  else
    cons_release ;;
    mret 0.

(** A pass without a character leaves nothing unread, so that after as many
    passes as the buffer has places only a device can end the loop. *)
Fixpoint getchar_loop (fuel : nat) : C Z :=
  match fuel with
  | O => fail Spin
  | S fuel =>
      c ← cons_getc;
      if decide (c = 0) then getchar_loop fuel else mret c
  end.
Definition getchar : C Z := getchar_loop (Z.to_nat CONSOLE_BUFFER_SIZE).

Context (linebuf : Z).

Definition linebuf_set (i c : Z) : C unit :=
  check_index BUFLEN i ;;
  modify (fun s => set_ckern (ck_set_mem (<[linebuf + i := u8 c]> (ck_mem (ckern s))) (ckern s)) s).

(** A pass takes at least one character. *)
Fixpoint readline_loop (fuel : nat) (i : Z) : C Z :=
  match fuel with
  | O => fail Hang
  | S fuel =>
      c ← getchar;
      if decide (c < 0) then
        print_text (chars "read error: %e" ++ [10]) ;;
        mret 0
      else if decide ((c = 8 \/ c = 127) /\ i > 0) then
        putchar 8 ;;
        readline_loop fuel (i - 1)
      else if decide (c >= 32 /\ i < BUFLEN - 1) then
        putchar c ;;
        linebuf_set i c ;;
        readline_loop fuel (i + 1)
      else if decide (c = 10 \/ c = 13) then
        putchar 10 ;;
        linebuf_set i 0 ;;
        mret linebuf
      else readline_loop fuel i
  end.

Definition readline_fuel (s : cstate T) : nat :=
  S (Z.to_nat CONSOLE_BUFFER_SIZE + length (kbd_q (dev s)) + length (ser_q (dev s))).

Definition readline (prompt : option string) : C Z :=
  match prompt with Some p => print_text (chars p) | None => mret tt end ;;
  fuel ← gets readline_fuel;
  readline_loop fuel 0.
End Console.

(** ** The console in the kernel of Syscall.v, and sys_readline of trap/TSyscall *)
#[export] Instance kst_console {V} : ConsKernel (kst V) := {
  ck_kstack k := cur_kstack (k_thr k);
  ck_notify := in_w waitobj_console_input_notify;
  ck_mem k := (k_vm k).2;
  ck_set_mem m k := set_k_vm ((k_vm k).1, m) k;
}.
#[export] Instance kst_console_laws {V} : ConsKernelLaws (kst V).
Proof.
  refine {| ck_inv k := exists a, so_rel (k_thr k) a |}.
  - intros k [a Ha]. exact (so_magic _ a Ha).
  - intros k [a Ha].
    destruct (waitobj_console_input_notify_sim (k_w k) (wt (k_w k)) a (conj eq_refl Ha)) as (w' & E & _ & Hs).
    exists (set_k_w w' k). unfold ck_notify, kst_console, in_w, zoom. rewrite E. split; [done|]. split; [|done]. by eexists.
  - done.
  - intros m k H. exact H.
Defined.

Section Syscall.
Context {V : Type} `{!VmmOps V}.

Definition in_kst {A} (m : M (kst V) A) : M (cstate (kst V)) A := zoom ckern set_ckern m.

Definition sys_readline (linebuf : Z) (tf : tf_t) : M (cstate (kst V)) tf_t :=
  kernbuf ← readline linebuf (Some ">:");
  let userbuf := syscall_get_arg2 tf in
  if decide (kernbuf = 0) then undef NullDeref     (* strnlen(NULL, 1000) *)
  else
    m ← gets (fun s => ck_mem (ckern s));
    let n_len := strnlen kernbuf 1000 m + 1 in
    pid ← in_kst (in_thr get_curid);
    n ← in_kst (in_vm (pt_copyout kernbuf pid userbuf n_len));
    if decide (n <> n_len) then panic "Readline fails!"
    else mret (set_result tf E_SUCC 0).
End Syscall.
