(* ===== verification/ConsoleSpec.v ===== *)
(** * The console: specification

    What the drivers of Console.v do to a queue of unread characters, a terminal
    and a line out; [readline] as a line editor; keys that were pressed as text. *)

From S2P Require Import Prelude Machine Thread Scheduler WaitObj WaitSys KString Bytes Printfmt Pmap Syscall Console.

(** ** The terminal as a list of cells and a cursor *)
Record term := mk_term { cells : list Z; apos : Z }.

Definition blank : Z := 0x0720.
Definition t_scroll (t : term) : term :=
  if decide (apos t >= CRT_SIZE)
  then mk_term (drop 80 (cells t) ++ replicate 80 blank) (apos t - CRT_COLS) else t.

(** The cell that shows a character: white on black, unless it has attributes. *)
Definition glyph (c : Z) : Z := if decide (0 <= c < 256) then 0x0700 + c else c.

Definition t_plain (c : Z) (t : term) : term :=
  t_scroll (mk_term (<[Z.to_nat (apos t) := u16 (glyph c)]> (cells t)) (apos t + 1)).

Definition t_putc (c : Z) (t : term) : term :=
  let ch := c mod 256 in
  if decide (ch = 8) then
    if decide (apos t > 0)
    then mk_term (<[Z.to_nat (apos t - 1) := u16 (glyph c - ch + 32)]> (cells t)) (apos t - 1) else t
  else if decide (ch = 10) then t_scroll (mk_term (cells t) ((apos t / 80 + 1) * 80))
  else if decide (ch = 13) then mk_term (cells t) (apos t / 80 * 80)
  else if decide (ch = 9) then Nat.iter 5 (t_plain 32) t
  else t_plain c t.

Definition t_ok (t : term) : Prop := length (cells t) = 2000%nat /\ 0 <= apos t < CRT_SIZE.

(** What is sent on the serial line *)
Definition serial_bytes (c : Z) : list Z := if decide (c = 10) then [13; 10] else [u8 c].
Definition ser_out (d : devices) : list Z := omap (fun p => if decide (p.1 = COM1 + COM_TX) then Some p.2 else None) (sent d).

Ltac crt_lia := unfold CRT_SIZE, CRT_ROWS, CRT_COLS in *; lia.

Lemma u16_idemp z : u16 (u16 z) = u16 z.
Proof. unfold u16. by rewrite Z.mod_mod. Qed.

(** The bit operations of [video_putc] *)
Lemma land_ff c : Z.land c 0xff = c mod 256.
Proof. exact (Z.land_ones c 8 ltac:(lia)). Qed.
Lemma land_not_ff c : Z.land c (Z.lnot 0xff) = c - c mod 256.
Proof.
  change (Z.lnot 0xff) with (Z.lnot (Z.ones 8)). rewrite <-Z.ldiff_land, Z.ldiff_ones_r by lia.
  rewrite Z.shiftr_div_pow2, Z.shiftl_mul_pow2 by lia. pose proof (Z.div_mod c (2^8)). change (2^8) with 256 in *. lia.
Qed.
Lemma lor_high q b : 0 <= b < 256 -> Z.lor (q * 256) b = q * 256 + b.
Proof.
  intros Hb. rewrite <-Z.add_nocarry_lor; [done|].
  apply Z.bits_inj'. intros n Hn. rewrite Z.land_spec, Z.bits_0. change 256 with (2 ^ 8).
  destruct (decide (n < 8)).
  - by rewrite Z.mul_pow2_bits_low.
  - rewrite <-(Z.mod_small b (2 ^ 8)) by done. rewrite Z.mod_pow2_bits_high by lia. apply andb_false_r.
Qed.
Lemma glyph_mod c : glyph c mod 256 = c mod 256.
Proof.
  unfold glyph. case_decide; [|done]. change 0x0700 with (7 * 256). rewrite Z.add_comm. apply Z_mod_plus_full.
Qed.
Lemma glyph_bits c : (if decide (Z.land c (Z.lnot 0xFF) = 0) then Z.lor c 0x0700 else c) = glyph c.
Proof.
  unfold glyph. rewrite land_not_ff. pose proof (Z.mod_pos_bound c 256 ltac:(lia)).
  destruct (decide (0 <= c < 256)) as [Hc|Hc].
  - rewrite decide_True by (rewrite Z.mod_small; lia). rewrite Z.lor_comm. exact (lor_high 7 c Hc).
  - rewrite decide_False; [done|]. intros E. apply Hc. rewrite <-(Z.mod_small c 256) at 1 2; lia.
Qed.

Section Output.
Context {T : Type} `{!ConsKernel T}.
Implicit Types s : cstate T.

Definition adapter s : Prop :=
  crt_buf s = (if cga (dev s) then CGA_BUF else MONO_BUF) /\ addr_6845 s = crtc_base (dev s).

Definition screen_rel s (cs : list Z) : Prop :=
  adapter s /\ (length cs = 2000%nat /\ Forall (fun v => u16 v = v) cs)
  /\ forall i, 0 <= i < CRT_SIZE -> vram (dev s) !!! (crt_buf s + 2 * i) = cs !!! Z.to_nat i.

Definition term_rel s (t : term) : Prop :=
  screen_rel s (cells t) /\ crt_pos s = apos t /\ 0 <= apos t < CRT_SIZE.

(** What printing leaves alone *)
Definition input_of s :=
  (cons_lk s, (cbuf s, rpos s, wpos s), kshift s, serial_exists s, ckern s,
   (kbd_q (dev s), ser_q (dev s), ser_present (dev s))).

Definition with_vram (v : gmap Z Z) s : cstate T := set_dev (set_vram v (dev s)) s.

Definition display_of s := (crt_buf s, crt_pos s, addr_6845 s, cga (dev s), vram (dev s)).

Lemma screen_rel_ext s s' cs :
  crt_buf s' = crt_buf s -> addr_6845 s' = addr_6845 s -> cga (dev s') = cga (dev s) ->
  vram (dev s') = vram (dev s) -> screen_rel s cs -> screen_rel s' cs.
Proof.
  intros E1 E2 E3 E4 ((Ha1 & Ha2) & Hl & Hc). unfold screen_rel, adapter, crtc_base in *.
  rewrite E1, E2, E3, E4. done.
Qed.
Lemma term_rel_ext s s' t : display_of s' = display_of s -> term_rel s t -> term_rel s' t.
Proof.
  intros [=E1 E2 E3 E4 E5] (Hs & Hp & Hr). split; [by apply (screen_rel_ext s)|]. split; [congruence|done].
Qed.

Lemma vram_addr s i :
  adapter s -> 0 <= i < CRT_SIZE ->
  MONO_BUF <= crt_buf s + 2 * i < 0xC0000 /\ crt_buf s <> 0
  /\ vram_there (crt_buf s + 2 * i) (dev s) = true.
Proof.
  intros [E _] Hi. unfold vram_there, CRT_SIZE, CRT_ROWS, CRT_COLS, MONO_BUF, CGA_BUF in *.
  rewrite E. destruct (cga (dev s)); split_and!; try lia. rewrite bool_decide_true by lia. done.
Qed.

Lemma cell_read_ok s i :
  adapter s -> 0 <= i < CRT_SIZE ->
  cell_read i s = Ok (vram (dev s) !!! (crt_buf s + 2 * i), s).
Proof.
  intros Ha Hi. destruct (vram_addr s i Ha Hi) as (H1 & H2 & H3).
  unfold cell_read, vread. mrun. rewrite decide_False by done. rewrite decide_True by done.
  unfold vram_in. by rewrite H3.
Qed.

Lemma cell_write_ok s i v :
  adapter s -> 0 <= i < CRT_SIZE ->
  cell_write i v s = Ok (tt, with_vram (<[crt_buf s + 2 * i := u16 v]> (vram (dev s))) s).
Proof.
  intros Ha Hi. destruct (vram_addr s i Ha Hi) as (H1 & H2 & H3).
  unfold cell_write, vwrite. mrun. rewrite decide_False by done. rewrite decide_True by done.
  unfold vram_out, with_vram. by rewrite H3.
Qed.

Lemma screen_insert s cs i v :
  screen_rel s cs -> 0 <= i < CRT_SIZE ->
  screen_rel (with_vram (<[crt_buf s + 2 * i := u16 v]> (vram (dev s))) s) (<[Z.to_nat i := u16 v]> cs).
Proof.
  intros (Ha & (Hl & Hf) & Hc) Hi. split; [exact Ha|]. split; [split|].
  - by rewrite length_insert.
  - apply Forall_insert; [done|apply u16_idemp].
  - intros j Hj. cbn. rewrite lookup_total_upd. destruct (decide (i = j)) as [->|Hne].
    + rewrite decide_True by done. rewrite list_lookup_total_insert_eq by crt_lia. done.
    + rewrite decide_False by lia. rewrite list_lookup_total_insert_ne by lia. by apply Hc.
Qed.

Lemma with_vram_id s : with_vram (vram (dev s)) s = s.
Proof. unfold with_vram. by destruct s as [? ? ? ? ? ? ? ? ? ? [] ?]. Qed.

(** A loop over cells, as the list of cells it leaves after each pass *)
Lemma cells_loop (g : Z -> list Z -> list Z) (body : Z -> M (cstate T) unit) (a n : Z) :
  (forall i s cs, a <= i < a + n -> screen_rel s cs ->
     exists v, body i s = Ok (tt, with_vram v s) /\ screen_rel (with_vram v s) (g i cs)) ->
  forall s cs, screen_rel s cs ->
    exists v, for_each (seqZ a n) body s = Ok (tt, with_vram v s)
      /\ screen_rel (with_vram v s) (foldl (fun cs i => g i cs) cs (seqZ a n)).
Proof.
  intros Hb.
  assert (forall l, (forall i, i ∈ l -> a <= i < a + n) -> forall s cs, screen_rel s cs ->
    exists v, for_each l body s = Ok (tt, with_vram v s)
      /\ screen_rel (with_vram v s) (foldl (fun cs i => g i cs) cs l)) as Hl.
  { induction l as [|i l IH]; intros Hin s cs Hs.
    - exists (vram (dev s)). rewrite with_vram_id. done.
    - destruct (Hb i s cs) as (v & E & Hv); [apply Hin; by left|done|].
      cbn [for_each foldl]. rewrite (bind_ok _ _ _ _ _ E).
      destruct (IH ltac:(intros k Hk; apply Hin; by right) _ _ Hv) as (v' & E' & Hv').
      exists v'. split; [exact E'|exact Hv']. }
  intros s cs. apply Hl. intros i Hi%elem_of_seqZ. lia.
Qed.

Lemma shift_cells (cs : list Z) k :
  (k + 80 <= length cs)%nat -> forall j,
  foldl (fun cs i => <[Z.to_nat i := cs !!! Z.to_nat (i + 80)]> cs) cs (seqZ 0 (Z.of_nat k)) !! j
  = if decide (j < k)%nat then cs !! (j + 80)%nat else cs !! j.
Proof.
  induction k as [|k IH]; intros Hk j; [done|].
  rewrite seqZ_S, foldl_app. cbn [foldl]. specialize (IH ltac:(lia)).
  set (L := foldl _ _ _) in *. replace (Z.to_nat (0 + Z.of_nat k)) with k by lia.
  replace (Z.to_nat (0 + Z.of_nat k + 80)) with (k + 80)%nat by lia.
  assert (L !!! (k + 80)%nat = cs !!! (k + 80)%nat) as ->.
  { rewrite !list_lookup_total_alt, IH, decide_False by lia. done. }
  destruct (decide (j = k)) as [->|Hne].
  - assert (k < length L)%nat.
    { apply lookup_lt_is_Some. rewrite IH, decide_False by lia. apply lookup_lt_is_Some. lia. }
    rewrite list_lookup_insert_eq by done. rewrite decide_True by lia.
    symmetry. apply list_lookup_lookup_total_lt. lia.
  - rewrite list_lookup_insert_ne by done. rewrite IH. repeat case_decide; done || lia.
Qed.

Lemma fill_cells (cs : list Z) v a k :
  (a + k <= length cs)%nat -> forall j,
  foldl (fun cs i => <[Z.to_nat i := v]> cs) cs (seqZ (Z.of_nat a) (Z.of_nat k)) !! j
  = if decide (a <= j < a + k)%nat then Some v else cs !! j.
Proof.
  induction k as [|k IH]; intros Hk j; [rewrite decide_False by lia; done|].
  rewrite seqZ_S, foldl_app. cbn [foldl]. specialize (IH ltac:(lia)).
  set (L := foldl _ _ _) in *. replace (Z.to_nat (Z.of_nat a + Z.of_nat k)) with (a + k)%nat by lia.
  destruct (decide (j = a + k)%nat) as [->|Hne].
  - assert (a + k < length L)%nat.
    { apply lookup_lt_is_Some. rewrite IH, decide_False by lia. apply lookup_lt_is_Some. lia. }
    rewrite list_lookup_insert_eq by done. by rewrite decide_True by lia.
  - rewrite list_lookup_insert_ne by done. rewrite IH. repeat case_decide; done || lia.
Qed.

Lemma scrolled_cells (cs : list Z) :
  length cs = 2000%nat ->
  foldl (fun cs i => <[Z.to_nat i := blank]> cs)
    (foldl (fun cs i => <[Z.to_nat i := cs !!! Z.to_nat (i + 80)]> cs) cs (seqZ 0 (CRT_SIZE - CRT_COLS)))
    (seqZ (CRT_SIZE - CRT_COLS) CRT_COLS)
  = drop 80 cs ++ replicate 80 blank.
Proof.
  intros Hl. set (L := foldl _ cs _).
  assert (forall j, L !! j = if decide (j < 1920)%nat then cs !! (j + 80)%nat else cs !! j) as HL.
  { intros j. apply (shift_cells cs 1920). rewrite Hl. cbv. lia. }
  assert (length L = 2000%nat) as HLl.
  { apply Nat.le_antisymm.
    - apply lookup_ge_None. rewrite HL, decide_False by lia. apply lookup_ge_None. lia.
    - assert (1999 < length L)%nat; [|lia]. apply lookup_lt_is_Some. rewrite HL, decide_False by lia.
      apply lookup_lt_is_Some. lia. }
  apply list_eq. intros j. rewrite (fill_cells L blank 1920 80), HL by (rewrite HLl; lia).
  destruct (decide (j < 1920)%nat).
  - rewrite decide_False by lia. rewrite lookup_app_l by (rewrite length_drop; lia).
    rewrite lookup_drop. f_equal. lia.
  - rewrite lookup_app_r by (rewrite length_drop; lia). rewrite length_drop, Hl.
    case_decide.
    + symmetry. apply lookup_replicate. split; [done|lia].
    + rewrite (lookup_ge_None_2 cs) by lia. symmetry. apply lookup_ge_None. rewrite length_replicate. lia.
Qed.

Lemma video_scroll_spec s cs p :
  screen_rel s cs -> crt_pos s = p -> CRT_SIZE <= p <= CRT_SIZE + CRT_COLS ->
  exists v, let s' := set_crt_pos (p - CRT_COLS) (with_vram v s) in
    video_scroll s = Ok (tt, s') /\ screen_rel s' (drop 80 cs ++ replicate 80 blank).
Proof.
  intros Hs Hp Hle. unfold video_scroll.
  destruct (cells_loop (fun i cs => <[Z.to_nat i := cs !!! Z.to_nat (i + 80)]> cs)
    (fun i => v ← cell_read (i + CRT_COLS); cell_write i v) 0 (CRT_SIZE - CRT_COLS)) with (s := s) (cs := cs)
    as (v1 & E1 & H1); [|done|].
  { intros i s1 cs1 Hi H1. assert (0 <= i + 80 < CRT_SIZE) as Hi2 by crt_lia.
    rewrite (bind_ok _ _ _ _ _ (cell_read_ok s1 _ (proj1 H1) Hi2)), (proj2 (proj2 H1) _ Hi2).
    eexists. split; [apply cell_write_ok; [apply H1|crt_lia]|].
    destruct H1 as (Ha & (Hl1 & Hf1) & Hc1).
    assert (u16 (cs1 !!! Z.to_nat (i + 80)) = cs1 !!! Z.to_nat (i + 80)) as Eu.
    { apply (Forall_lookup_total_1 (fun v => u16 v = v) _ _ Hf1). crt_lia. }
    pose proof (screen_insert s1 cs1 i (cs1 !!! Z.to_nat (i + 80)) (conj Ha (conj (conj Hl1 Hf1) Hc1)) ltac:(crt_lia)) as Hi3.
    rewrite Eu in *. exact Hi3. }
  rewrite (bind_ok _ _ _ _ _ E1).
  destruct (cells_loop (fun i cs => <[Z.to_nat i := blank]> cs)
    (fun i => cell_write i (Z.lor 0x0700 32)) (CRT_SIZE - CRT_COLS) CRT_COLS) with (s := with_vram v1 s)
    (cs := foldl (fun cs i => <[Z.to_nat i := cs !!! Z.to_nat (i + 80)]> cs) cs (seqZ 0 (CRT_SIZE - CRT_COLS)))
    as (v2 & E2 & H2); [|done|].
  { intros i s1 cs1 Hi H2. eexists. split; [apply cell_write_ok; [apply H2|crt_lia]|].
    apply (screen_insert _ _ i blank H2). crt_lia. }
  rewrite (bind_ok _ _ _ _ _ E2). rewrite scrolled_cells in H2 by apply Hs. exists v2.
  unfold put_crt_pos. mrun. cbn. rewrite Hp.
  assert (u16 (p - CRT_COLS) = p - CRT_COLS) as -> by (unfold u16; apply Z.mod_small; crt_lia).
  split; [done|]. exact H2.
Qed.

(** ** The cursor *)
Definition cursor_at s (p : Z) : Prop := crtc (dev s) !!! 14 = p / 256 /\ crtc (dev s) !!! 15 = p mod 256.

(** Nothing but the display has changed. *)
Definition on_display s s' : Prop :=
  input_of s' = input_of s /\ ser_out (dev s') = ser_out (dev s).

Lemma on_display_trans s1 s2 s3 : on_display s1 s2 -> on_display s2 s3 -> on_display s1 s3.
Proof. intros [E1 E2] [E3 E4]. split; congruence. Qed.

Lemma ser_out_snoc d p v :
  ser_out (set_sent (sent d ++ [(p, v)]) d) = ser_out d ++ (if decide (p = COM1 + COM_TX) then [v] else []).
Proof. unfold ser_out. cbn. rewrite omap_app. cbn. by case_decide. Qed.

(** Select a register of the display controller, write it *)
Lemma crtc_select s i :
  adapter s -> exists d, outb (addr_6845 s) i s = Ok (tt, set_dev d s)
    /\ d = set_crtc (u8 i) (crtc (dev s)) (set_sent (sent (dev s) ++ [(addr_6845 s, u8 i)]) (dev s)).
Proof.
  intros [_ E]. eexists. split; [|done]. unfold outb, modify. do 3 f_equal. unfold dev_out. rewrite E.
  unfold crtc_base. cbn [cga set_sent]. by destruct (cga (dev s)).
Qed.
Lemma crtc_write s v :
  adapter s -> exists d, outb (addr_6845 s + 1) v s = Ok (tt, set_dev d s)
    /\ d = set_crtc (crtc_idx (dev s)) (<[crtc_idx (dev s) := u8 v]> (crtc (dev s)))
              (set_sent (sent (dev s) ++ [(addr_6845 s + 1, u8 v)]) (dev s)).
Proof.
  intros [_ E]. eexists. split; [|done]. unfold outb, modify. do 3 f_equal. unfold dev_out. rewrite E.
  unfold crtc_base. cbn [cga set_sent]. by destruct (cga (dev s)).
Qed.

Lemma move_cursor_spec s t :
  term_rel s t ->
  exists s', move_cursor s = Ok (tt, s') /\ term_rel s' t /\ on_display s s' /\ cursor_at s' (apos t).
Proof.
  intros ((Ha & Hl & Hc) & Hp & Hr). unfold move_cursor. mrun.
  destruct (crtc_select s 14 Ha) as (d1 & E1 & D1). unfold mbind, M_bind. rewrite E1.
  set (s1 := set_dev d1 s). assert (adapter s1) as Ha1 by (subst s1 d1; exact Ha).
  destruct (crtc_write s1 (Z.shiftr (crt_pos s) 8) Ha1) as (d2 & E2 & D2). change (addr_6845 s) with (addr_6845 s1). rewrite E2.
  set (s2 := set_dev d2 s1). assert (adapter s2) as Ha2 by (subst s2 d2; exact Ha1).
  destruct (crtc_select s2 15 Ha2) as (d3 & E3 & D3). change (addr_6845 s1) with (addr_6845 s2). rewrite E3.
  set (s3 := set_dev d3 s2). assert (adapter s3) as Ha3 by (subst s3 d3; exact Ha2).
  destruct (crtc_write s3 (crt_pos s) Ha3) as (d4 & E4 & D4). change (addr_6845 s2) with (addr_6845 s3).
  exists (set_dev d4 s3). split; [exact E4|]. clear E1 E2 E3 E4. subst s3 s2 s1. subst d4 d3 d2 d1.
  split; [|split; [split|split]].
  - apply (term_rel_ext s); [reflexivity|]. exact (conj (conj Ha (conj Hl Hc)) (conj Hp Hr)).
  - done.
  - unfold ser_out. cbn. rewrite !omap_app. cbn.
    destruct Ha as [_ Eb]. rewrite Eb. unfold crtc_base. destruct (cga (dev s)); cbn; by rewrite !app_nil_r.
  - cbn. rewrite !lookup_total_upd. cbn. rewrite decide_False by done. rewrite decide_True by done. rewrite Hp.
    unfold u8. rewrite Z.shiftr_div_pow2 by lia. change (2 ^ 8) with 256. apply Z.mod_small.
    assert (apos t < 256 * 256) by crt_lia. split; [apply Z.div_pos; lia|by apply Z.div_lt_upper_bound].
  - cbn. rewrite lookup_total_upd. rewrite decide_True by done. by rewrite Hp.
Qed.

(** Scroll if the cursor left the screen, then move it *)
Lemma putc_end_spec s cs p :
  screen_rel s cs -> crt_pos s = p -> 0 <= p <= CRT_SIZE + 79 ->
  exists s', (p ← gets crt_pos; (if decide (p >= CRT_SIZE) then video_scroll else mret tt) ;; move_cursor) s
      = Ok (tt, s')
    /\ term_rel s' (t_scroll (mk_term cs p)) /\ on_display s s'
    /\ cursor_at s' (apos (t_scroll (mk_term cs p))).
Proof.
  intros Hs Hp Hr. mrun. rewrite Hp. unfold t_scroll. cbn [cells apos]. case_decide as Hge.
  - destruct (video_scroll_spec s cs p Hs Hp) as (v & E & Hs'); [crt_lia|]. rewrite E.
    destruct (move_cursor_spec (set_crt_pos (p - CRT_COLS) (with_vram v s))
      (mk_term (drop 80 cs ++ replicate 80 blank) (p - CRT_COLS))) as (s' & E' & Ht & Hd & Hcu).
    { split; [exact Hs'|]. split; [done|]. cbn. crt_lia. }
    rewrite E'. exists s'. split; [done|]. split; [done|]. split; [|done].
    apply (on_display_trans _ (set_crt_pos (p - CRT_COLS) (with_vram v s))); [done|exact Hd].
  - destruct (move_cursor_spec s (mk_term cs p)) as (s' & E' & H'); [|rewrite E'; by exists s'].
    split; [exact Hs|]. split; [done|]. cbn. crt_lia.
Qed.

Definition putc_spec (c : Z) (f : M (cstate T) unit) : Prop :=
  forall s t, term_rel s t ->
  exists s', f s = Ok (tt, s') /\ term_rel s' (t_putc c t) /\ on_display s s'
    /\ cursor_at s' (apos (t_putc c t)).

(** Writing a character cell *)
Lemma plain_spec c s t :
  term_rel s t ->
  exists s1, (p ← gets crt_pos; put_crt_pos (p + 1) ;; cell_write p (glyph c)) s = Ok (tt, s1)
    /\ screen_rel s1 (<[Z.to_nat (apos t) := u16 (glyph c)]> (cells t))
    /\ crt_pos s1 = apos t + 1 /\ on_display s s1.
Proof.
  intros (Hs & Hp & Hr). unfold put_crt_pos. mrun. rewrite Hp.
  assert (u16 (apos t + 1) = apos t + 1) as -> by (unfold u16; apply Z.mod_small; crt_lia).
  rewrite (cell_write_ok (set_crt_pos (apos t + 1) s)) by (exact (proj1 Hs) || done).
  eexists. split; [done|]. split; [|done].
  exact (screen_insert (set_crt_pos (apos t + 1) s) (cells t) (apos t) (glyph c) Hs Hr).
Qed.

(** Any case of the switch, then the end of [video_putc] *)
Lemma switch_then_finish (f : M (cstate T) unit) s s1 cs p c t :
  f s = Ok (tt, s1) -> screen_rel s1 cs -> crt_pos s1 = p -> 0 <= p <= CRT_SIZE + 79 ->
  on_display s s1 -> t_scroll (mk_term cs p) = t_putc c t ->
  exists s', (f ;; p ← gets crt_pos; (if decide (p >= CRT_SIZE) then video_scroll else mret tt) ;; move_cursor) s
      = Ok (tt, s')
    /\ term_rel s' (t_putc c t) /\ on_display s s' /\ cursor_at s' (apos (t_putc c t)).
Proof.
  intros E Hs Hp Hr Hd Et. rewrite (bind_ok _ _ _ _ _ E).
  destruct (putc_end_spec s1 cs p Hs Hp Hr) as (s' & E' & Ht & Hd' & Hc). exists s'.
  rewrite <-Et. split; [exact E'|]. split; [done|]. split; [by apply (on_display_trans _ s1)|done].
Qed.

Lemma put_pos_ok q s : 0 <= q < 65536 -> put_crt_pos q s = Ok (tt, set_crt_pos q s).
Proof. intros. unfold put_crt_pos, modify, u16. by rewrite Z.mod_small. Qed.

Lemma t_scroll_id t : apos t < CRT_SIZE -> t_scroll t = t.
Proof. intros. unfold t_scroll. by rewrite decide_False by lia. Qed.

Lemma line_start p : p - p mod 80 = p / 80 * 80.
Proof. pose proof (Z.div_mod p 80). lia. Qed.
Lemma next_line p : p + 80 - (p + 80) mod 80 = (p / 80 + 1) * 80.
Proof. rewrite line_start. replace (p + 80) with (p + 1 * 80) by lia. rewrite Z.div_add by lia. lia. Qed.

(** A character that is no control character *)
Lemma body_plain rec c :
  (c mod 256) ∉ [8; 10; 13; 9] -> putc_spec c (video_putc_body rec c).
Proof.
  intros Hc s t Ht. unfold video_putc_body. rewrite glyph_bits, land_ff, glyph_mod.
  apply not_elem_of_cons in Hc as [H1 Hc]. apply not_elem_of_cons in Hc as [H2 Hc].
  apply not_elem_of_cons in Hc as [H3 Hc]. apply not_elem_of_cons in Hc as [H4 _].
  rewrite !decide_False by done.
  destruct (plain_spec c s t Ht) as (s1 & E & Hs & Hp & Hd). destruct Ht as (_ & _ & Hr).
  eapply (switch_then_finish _ s s1 _ _ c t E Hs Hp); [crt_lia|done|].
  unfold t_putc. by rewrite !decide_False by done.
Qed.

Lemma body_control rec c :
  (c mod 256) ∈ [8; 10; 13] -> putc_spec c (video_putc_body rec c).
Proof.
  intros Hc s t Ht. unfold video_putc_body. rewrite glyph_bits, land_ff, glyph_mod. pose proof Ht as (Hs & Hp & Hr).
  apply elem_of_cons in Hc as [H1|Hc]; [|apply elem_of_cons in Hc as [H1|H1%list_elem_of_singleton]];
    rewrite H1; repeat (rewrite decide_False by done); rewrite decide_True by done.
  - destruct (decide (apos t > 0)).
    + eapply (switch_then_finish _ s (set_crt_pos (apos t - 1) (with_vram _ s)) _ (apos t - 1)).
      * mrun. rewrite Hp, decide_True by done. rewrite put_pos_ok by crt_lia. cbn [crt_pos set_crt_pos].
        rewrite cell_write_ok by (exact (proj1 Hs) || crt_lia). done.
      * apply (screen_insert (set_crt_pos (apos t - 1) s)); [exact Hs|crt_lia].
      * done.
      * crt_lia.
      * done.
      * rewrite t_scroll_id by (cbn; crt_lia). unfold t_putc. rewrite H1, decide_True, decide_True by done.
        rewrite land_not_ff, glyph_mod, H1. f_equal. f_equal. f_equal.
        rewrite <-H1, <-glyph_mod. pose proof (Z.div_mod (glyph c) 256) as Hdm.
        replace (glyph c - glyph c mod 256) with (glyph c / 256 * 256) by lia. by rewrite lor_high.
    + eapply (switch_then_finish _ s s (cells t) (apos t)); [|exact Hs|done|crt_lia|done|].
      * mrun. rewrite Hp. by rewrite decide_False by done.
      * rewrite t_scroll_id by (cbn; crt_lia). unfold t_putc. rewrite H1, decide_True, decide_False by done. by destruct t.
  - eapply (switch_then_finish _ s (set_crt_pos ((apos t / 80 + 1) * 80) s) (cells t)); [|exact Hs|done| |done|].
    + mrun. rewrite Hp, put_pos_ok by crt_lia. cbn [crt_pos set_crt_pos]. unfold CRT_COLS. rewrite next_line.
      rewrite put_pos_ok; [done|]. pose proof (Z.div_mod (apos t) 80 ltac:(lia)). pose proof (Z.mod_pos_bound (apos t) 80 ltac:(lia)). crt_lia.
    + cbn [crt_pos set_crt_pos]. pose proof (Z.div_mod (apos t) 80 ltac:(lia)). pose proof (Z.mod_pos_bound (apos t) 80 ltac:(lia)). crt_lia.
    + unfold t_putc. rewrite H1. by rewrite decide_False, decide_True by done.
  - pose proof (Z.div_mod (apos t) 80 ltac:(lia)). pose proof (Z.mod_pos_bound (apos t) 80 ltac:(lia)).
    eapply (switch_then_finish _ s (set_crt_pos (apos t / 80 * 80) s) (cells t)); [|exact Hs|done|cbn [crt_pos set_crt_pos]; crt_lia|done|].
    + mrun. rewrite Hp. unfold CRT_COLS. rewrite line_start. apply put_pos_ok. crt_lia.
    + rewrite t_scroll_id by (cbn; crt_lia). unfold t_putc. rewrite H1.
      rewrite decide_False, decide_False, decide_True by done. done.
Qed.

Lemma t_plain_ok c t : t_ok t -> t_ok (t_plain c t).
Proof.
  intros [Hl Hr]. unfold t_plain, t_scroll. cbn [apos cells]. case_decide; split; cbn [cells apos]; try crt_lia.
  - rewrite length_app, length_drop, length_insert, length_replicate. lia.
  - by rewrite length_insert.
Qed.

(** [n] spaces *)
Lemma spaces_spec (rec : Z -> M (cstate T) unit) :
  putc_spec 32 (rec 32) -> forall n s t, term_rel s t ->
  exists s', for_each (replicate n 32) rec s = Ok (tt, s') /\ term_rel s' (Nat.iter n (t_plain 32) t) /\ on_display s s'.
Proof.
  intros Hrec n. induction n as [|n IH]; intros s t Ht; [by exists s|].
  destruct (Hrec s t Ht) as (s1 & E1 & Ht1 & Hd1 & _).
  destruct (IH s1 (t_plain 32 t) Ht1) as (s2 & E2 & Ht2 & Hd2). exists s2.
  cbn [replicate for_each]. rewrite (bind_ok _ _ _ _ _ E1). split; [done|].
  split; [|by apply (on_display_trans _ s1)]. by rewrite Nat.iter_succ_r.
Qed.

Lemma video_putc_spec c : putc_spec c (video_putc c).
Proof.
  destruct (decide ((c mod 256) ∈ [8; 10; 13])); [by apply body_control|].
  destruct (decide (c mod 256 = 9)) as [E9|N9].
  2: { apply body_plain. rewrite !not_elem_of_cons in *. naive_solver. }
  intros s t Ht. unfold video_putc. set (rec := video_putc_body (fun _ => fail Hang)).
  assert (putc_spec 32 (rec 32)) as Hrec.
  { apply body_plain. rewrite !not_elem_of_cons. split_and!; try done. apply not_elem_of_nil. }
  destruct (spaces_spec rec Hrec 5 s t Ht) as (s1 & E1 & (Hs1 & Hp1 & Hr1) & Hd1).
  unfold video_putc_body. rewrite glyph_bits, land_ff, glyph_mod, E9.
  rewrite (decide_False (P := 9 = 8)), (decide_False (P := 9 = 10)), (decide_False (P := 9 = 13)), decide_True by done.
  eapply (switch_then_finish _ s s1 _ _ c t); [|exact Hs1|exact Hp1|crt_lia|exact Hd1|].
  - cbn [replicate for_each] in E1. revert E1. unfold mbind, M_bind, mret, M_ret.
    repeat (destruct (rec 32 _) as [[[] ?]| | | |]; try done).
  - rewrite t_scroll_id by (cbn [apos]; lia). unfold t_putc. rewrite E9.
    rewrite (decide_False (P := 9 = 8)), (decide_False (P := 9 = 10)), (decide_False (P := 9 = 13)), decide_True by done.
    by destruct (Nat.iter 5 _ t).
Qed.

(** ** The serial line *)
Lemma set_dev_id s : set_dev (dev s) s = s.
Proof. by destruct s. Qed.

Lemma inb_none s p : p = 0x84 -> inb p s = Ok (0, s).
Proof.
  intros ->. unfold inb, dev_in.
  rewrite !decide_False by (unfold crtc_base; by destruct (cga (dev s))). by rewrite set_dev_id.
Qed.

Lemma inb_lsr s : inb (COM1 + COM_LSR) s = Ok (u8 (lsr (dev s)), set_dev (set_tx_polls (pred (tx_polls (dev s))) (dev s)) s).
Proof. done. Qed.

Lemma inb_rx s :
  inb (COM1 + COM_RX) s = Ok (u8 (default 0 (head (ser_q (dev s)))), set_dev (set_ser_q (tail (ser_q (dev s))) (dev s)) s).
Proof. done. Qed.

(** Waiting for the transmitter ends, whatever the device does. *)
Lemma tx_wait_spec n : forall s, exists k, tx_wait n s = Ok (tt, set_dev (set_tx_polls k (dev s)) s).
Proof.
  induction n as [|n IH]; intros s; cbn [tx_wait]; unfold mbind, M_bind; rewrite inb_lsr; case_decide; try by eexists.
  unfold delay, mbind, M_bind. rewrite !inb_none by done. cbn beta iota.
  destruct (IH (set_dev (set_tx_polls (pred (tx_polls (dev s))) (dev s)) s)) as (k & E). exists k.
  unfold mret, M_ret. by rewrite E.
Qed.

Lemma outb_tx s v :
  outb (COM1 + COM_TX) v s
  = Ok (tt, set_dev (set_tx_polls (tx_delay (dev s)) (set_sent (sent (dev s) ++ [(COM1 + COM_TX, u8 v)]) (dev s))) s).
Proof. done. Qed.

Lemma serial_putc_spec c s :
  exists s', serial_putc c s = Ok (tt, s') /\ display_of s' = display_of s /\ input_of s' = input_of s
    /\ ser_out (dev s') = ser_out (dev s) ++ if serial_exists s then serial_bytes c else [].
Proof.
  unfold serial_putc. mrun. destruct (serial_exists s) eqn:Es; cbn [negb].
  2: { exists s. by rewrite app_nil_r. }
  destruct (tx_wait_spec (Z.to_nat 12800) s) as (k & E). rewrite E.
  unfold serial_reformatnewline, serial_bytes. case_decide; mrun.
  1: rewrite outb_tx; mrun; rewrite outb_tx; mrun; rewrite (decide_False (P := 1 = 0)) by done.
  2: rewrite (decide_True (P := 0 = 0)), outb_tx by done.
  all: eexists; split; [reflexivity|]; split; [done|]; split; [done|].
  all: unfold ser_out; cbn; rewrite !omap_app; cbn; by rewrite <-?app_assoc.
Qed.

(** ** A character on the console *)
Definition echo (s : cstate T) (c : Z) : list Z := if serial_exists s then serial_bytes c else [].

Lemma cons_putc_spec c s t :
  term_rel s t ->
  exists s', cons_putc c s = Ok (tt, s') /\ term_rel s' (t_putc c t) /\ input_of s' = input_of s
    /\ ser_out (dev s') = ser_out (dev s) ++ echo s c /\ cursor_at s' (apos (t_putc c t)).
Proof.
  intros Ht. destruct (serial_putc_spec c s) as (s1 & E1 & Hd1 & Hi1 & Ho1).
  destruct (video_putc_spec c s1 t (term_rel_ext _ _ _ Hd1 Ht)) as (s2 & E2 & Ht2 & (Hi2 & Ho2) & Hc2).
  exists s2. unfold cons_putc. rewrite (bind_ok _ _ _ _ _ E1). split; [exact E2|]. split; [done|].
  split; [congruence|]. split; [|done]. by rewrite Ho2, Ho1.
Qed.

Lemma input_serial s s' : input_of s' = input_of s -> serial_exists s' = serial_exists s.
Proof. by intros [=]. Qed.

Lemma print_text_spec l : forall s t,
  term_rel s t ->
  exists s', print_text l s = Ok (tt, s') /\ term_rel s' (foldl (fun t c => t_putc (s8 c) t) t l)
    /\ input_of s' = input_of s
    /\ ser_out (dev s') = ser_out (dev s) ++ mjoin (map (fun c => echo s (s8 c)) l).
Proof.
  unfold print_text. induction l as [|c l IH]; intros s t Ht.
  { exists s. cbn. by rewrite app_nil_r. }
  destruct (cons_putc_spec (s8 c) s t Ht) as (s1 & E1 & Ht1 & Hi1 & Ho1 & _).
  destruct (IH s1 _ Ht1) as (s2 & E2 & Ht2 & Hi2 & Ho2). exists s2.
  cbn [for_each foldl map mjoin]. rewrite (bind_ok _ _ _ _ _ E1). split; [done|]. split; [done|].
  split; [congruence|]. rewrite Ho2, Ho1, <-app_assoc. unfold echo. rewrite (input_serial _ _ Hi1). done.
Qed.
End Output.

(** ** The console as a queue of characters, a terminal and a line out

    The queue holds what was typed and not read; its 512th unread character
    makes the ring look empty, and everything unread is lost. *)
Record acon := mk_acon {
  a_q : list Z;                 (* unread characters *)
  a_kbd : list Z; a_ser : list Z;   (* waiting in the devices *)
  a_shift : Z;
  a_serial : bool;
  a_term : term;
  a_out : list Z;               (* sent on the serial line *)
  a_mem : mem;
}.

Definition set_a_q v a := mk_acon v (a_kbd a) (a_ser a) (a_shift a) (a_serial a) (a_term a) (a_out a) (a_mem a).
Definition set_a_kbd v a := mk_acon (a_q a) v (a_ser a) (a_shift a) (a_serial a) (a_term a) (a_out a) (a_mem a).
Definition set_a_ser v a := mk_acon (a_q a) (a_kbd a) v (a_shift a) (a_serial a) (a_term a) (a_out a) (a_mem a).
Definition set_a_shift v a := mk_acon (a_q a) (a_kbd a) (a_ser a) v (a_serial a) (a_term a) (a_out a) (a_mem a).

Definition a_putc (c : Z) (a : acon) : acon :=
  mk_acon (a_q a) (a_kbd a) (a_ser a) (a_shift a) (a_serial a) (t_putc c (a_term a))
    (a_out a ++ if a_serial a then serial_bytes c else []) (a_mem a).
Definition a_print (l : list Z) (a : acon) : acon := foldl (fun a c => a_putc (s8 c) a) a l.

Definition enq (q : list Z) (c : Z) : list Z := if decide (length q = 511%nat) then [] else q ++ [c].
Definition a_enq (c : Z) (a : acon) : acon := if decide (c = 0) then a else set_a_q (enq (a_q a) (s8 c)) a.

(** One scan code: the new shift state and the character, 0 for none *)
Definition kbd_step (shift data : Z) : Z * Z :=
  if decide (data = 0xE0) then (Z.lor shift E0ESC, 0)
  else if decide (Z.land data 0x80 <> 0) then
    let data := if decide (Z.land shift E0ESC <> 0) then data else Z.land data 0x7F in
    (Z.land shift (Z.lnot (Z.lor (shiftcode data) E0ESC)), 0)
  else
    let esc := bool_decide (Z.land shift E0ESC <> 0) in
    let data := if esc then Z.lor data 0x80 else data in
    let shift := if esc then Z.land shift (Z.lnot E0ESC) else shift in
    let shift := Z.lxor (Z.lor shift (shiftcode data)) (togglecode data) in
    let c := charcode (Z.land shift (Z.lor CTL SHIFT)) data in
    (shift, if decide (Z.land shift CAPSLOCK <> 0) then capslock c else c).

Definition reboots (shift c : Z) : Prop := Z.land (Z.lnot shift) (Z.lor CTL ALT) = 0 /\ c = KEY_DEL.
#[export] Instance reboots_dec shift c : Decision (reboots shift c) := _.

Definition a_key (d : Z) (a : acon) : acon :=
  let '(shift, c) := kbd_step (a_shift a) d in
  let a := set_a_shift shift a in
  if decide (reboots shift c) then a_print (chars "Rebooting!" ++ [10]) a else a.
Definition a_scan (d : Z) (a : acon) : acon := a_enq (kbd_step (a_shift a) d).2 (a_key d a).

Definition a_keyboard_intr (a : acon) : acon := set_a_kbd [] (foldl (fun a d => a_scan d a) a (a_kbd a)).
Definition a_serial_intr (a : acon) : acon :=
  if a_serial a then set_a_ser [] (foldl (fun a c => a_enq c a) a (a_ser a)) else a.

Definition a_getc (a : acon) : Z * acon :=
  let a := a_keyboard_intr (a_serial_intr a) in
  match a_q a with [] => (0, a) | c :: q => (c, set_a_q q a) end.

Definition byte (c : Z) : Prop := 0 <= c < 256.

Lemma s8_range z : -128 <= s8 z < 128.
Proof. unfold s8, u8. pose proof (Z.mod_pos_bound z 256). destruct (Z.ltb_spec (z mod 256) 128); lia. Qed.

(** *** The ring buffer *)
Record ring_rep {T} (s : cstate T) (q : list Z) : Prop := {
  rr_len : (length q < 512)%nat;
  rr_rpos : 0 <= rpos s < 512;
  rr_wpos : wpos s = (rpos s + Z.of_nat (length q)) mod 512;
  rr_buf i c : q !! i = Some c -> cbuf s !!! ((rpos s + Z.of_nat i) mod 512) = c;
}.

Section Input.
Context {T : Type} `{!ConsKernel T} `{!ConsKernelLaws T}.
Implicit Types s : cstate T.

Record crel s (a : acon) : Prop := {
  cr_ring : ring_rep s (a_q a);
  cr_kbd : kbd_q (dev s) = a_kbd a; cr_kbd_b : Forall byte (a_kbd a);
  cr_ser : ser_q (dev s) = a_ser a; cr_ser_b : Forall byte (a_ser a);
  cr_shift : kshift s = a_shift a;
  cr_exists : serial_exists s = a_serial a;
  cr_present : serial_exists s = true -> ser_present (dev s) = true;
  cr_inv : ck_inv (ckern s);
  cr_term : term_rel s (a_term a);
  cr_out : ser_out (dev s) = a_out a;
  cr_mem : ck_mem (ckern s) = a_mem a;
}.

Lemma ring_ext s s' q :
  cbuf s' = cbuf s -> rpos s' = rpos s -> wpos s' = wpos s -> ring_rep s q -> ring_rep s' q.
Proof. intros E1 E2 E3 [H1 H2 H3 H4]. split; [done|congruence|congruence|]. by rewrite E1, E2. Qed.

(** A character after the unread ones *)
Lemma ring_store s q c :
  ring_rep s q ->
  exists b w, cons_store c s = Ok (tt, set_ring b (rpos s) w s)
    /\ ring_rep (set_ring b (rpos s) w s) (enq q (s8 c)).
Proof.
  intros [Hl Hr Hw Hb]. pose proof (Z.mod_pos_bound (rpos s + Z.of_nat (length q)) 512 ltac:(lia)) as Hm.
  unfold cons_store. mrun. rewrite check_index_ok by (unfold CONSOLE_BUFFER_SIZE; lia).
  cbn [wpos set_ring]. rewrite (u32_id (wpos s + 1)) by (unfold W32; lia).
  set (w' := if decide (wpos s + 1 = 512) then 0 else wpos s + 1).
  exists (<[wpos s := s8 c]> (cbuf s)), w'. split.
  { subst w'. unfold CONSOLE_BUFFER_SIZE. by case_decide. }
  assert (w' = (rpos s + Z.of_nat (length q) + 1) mod 512) as Ew.
  { subst w'. rewrite <-Z.add_mod_idemp_l, <-Hw by lia. case_decide as E; [by rewrite E|].
    symmetry. apply Z.mod_small. lia. }
  unfold enq. case_decide as Hfull.
  - split; cbn; [lia|lia| |by intros []]. rewrite Ew, Hfull.
    replace (rpos s + Z.of_nat 511 + 1) with (rpos s + 1 * 512) by lia. rewrite Z_mod_plus_full, Z.add_0_r. done.
  - split; cbn [rpos wpos cbuf set_ring]; [rewrite length_app; cbn; lia|lia| |].
    + rewrite Ew, length_app. cbn [length]. f_equal. lia.
    + intros i x Hi. rewrite lookup_total_upd. apply lookup_app_Some in Hi as [Hi|[Hge Hi]].
      * pose proof (lookup_lt_Some _ _ _ Hi). rewrite decide_False; [by apply Hb|]. rewrite Hw. intros E.
        apply (f_equal (fun x => (x - rpos s) mod 512)) in E. rewrite !Zminus_mod_idemp_l in E.
        replace (rpos s + Z.of_nat (length q) - rpos s) with (Z.of_nat (length q)) in E by lia.
        replace (rpos s + Z.of_nat i - rpos s) with (Z.of_nat i) in E by lia.
        rewrite !Z.mod_small in E by lia. lia.
      * apply list_lookup_singleton_Some in Hi as [Hi <-].
        rewrite decide_True; [done|]. rewrite Hw. f_equal. lia.
Qed.

(** *** Output *)
Lemma crel_putc c s a :
  crel s a -> exists s', cons_putc c s = Ok (tt, s') /\ crel s' (a_putc c a) /\ cons_lk s' = cons_lk s
    /\ ckern s' = ckern s.
Proof.
  intros R. destruct (cons_putc_spec c s (a_term a) (cr_term _ _ R)) as (s' & E & Ht & Hi & Ho & _).
  exists s'. split; [done|]. injection Hi as E1 E2 E3 E4 E5 E6 E7 E8 E9 E10. split; [|done].
  destruct R as [R1 R2 R3 R4 R5 R6 R7 R8 R9 R10 R11 R12]. split; cbn; try congruence; try done.
  - by apply (ring_ext s).
  - rewrite E6, E10. done.
  - rewrite Ho, R11. unfold echo. by rewrite R7.
Qed.

Lemma crel_print l : forall s a,
  crel s a -> exists s', print_text l s = Ok (tt, s') /\ crel s' (a_print l a) /\ cons_lk s' = cons_lk s
    /\ ckern s' = ckern s.
Proof.
  unfold print_text, a_print. induction l as [|c l IH]; intros s a R; [by exists s|].
  destruct (crel_putc (s8 c) s a R) as (s1 & E1 & R1 & L1 & K1). destruct (IH _ _ R1) as (s2 & E2 & R2 & L2 & K2).
  exists s2. cbn [for_each foldl]. rewrite (bind_ok _ _ _ _ _ E1). split; [done|]. split; [done|]. split; congruence.
Qed.

(** *** The keyboard *)
Lemma kbd_proc_none s a : crel s a -> a_kbd a = [] -> kbd_proc_data s = Ok (-1, s).
Proof.
  intros R E. unfold kbd_proc_data, inb, dev_in. mrun. rewrite decide_True by done.
  rewrite (cr_kbd _ _ R), E. cbn. by rewrite set_dev_id.
Qed.

Lemma byte_u8 c : byte c -> u8 c = c.
Proof. intros. unfold u8. by apply Z.mod_small. Qed.

(** The registers of the keyboard do not show in the rest of the state. *)
Lemma crel_key s a q shift :
  crel s a -> Forall byte q ->
  crel (set_kshift shift (set_dev (set_kbd_q q (dev s)) s)) (set_a_shift shift (set_a_kbd q a)).
Proof.
  intros [R1 R2 R3 R4 R5 R6 R7 R8 R9 R10 R11 R12] Hq. split; try done.
  - by apply (ring_ext s).
Qed.

(** The reset port *)
Lemma outb_reset s : outb 0x92 3 s = Ok (tt, set_dev (set_sent (sent (dev s) ++ [(0x92, 3)]) (dev s)) s).
Proof.
  unfold outb, modify, dev_out. rewrite !decide_False; [done|unfold crtc_base; cbn; by destruct (cga (dev s))..].
Qed.
Lemma crel_reset s a : crel s a -> crel (set_dev (set_sent (sent (dev s) ++ [(0x92, 3)]) (dev s)) s) a.
Proof.
  intros [R1 R2 R3 R4 R5 R6 R7 R8 R9 R10 R11 R12]. split; try done.
  - by apply (ring_ext s).
  - cbn [dev set_dev]. rewrite ser_out_snoc, decide_False by done. by rewrite app_nil_r.
Qed.

Lemma a_print_kbd q l : forall a, a_print l (set_a_kbd q a) = set_a_kbd q (a_print l a).
Proof. unfold a_print. induction l as [|c l IH]; intros a; [done|]. cbn [foldl]. by rewrite <-IH. Qed.

Lemma kbd_proc_one s a d q :
  crel s a -> a_kbd a = d :: q ->
  exists s', kbd_proc_data s = Ok ((kbd_step (a_shift a) d).2, s') /\ crel s' (set_a_kbd q (a_key d a)).
Proof.
  intros R E. pose proof (cr_kbd_b _ _ R) as Hb. rewrite E in Hb. apply Forall_cons in Hb as [Hd Hq].
  pose proof (crel_key s a q (kbd_step (a_shift a) d).1 R Hq) as R1.
  assert (inb KBSTATP s = Ok (KBS_DIB, s)) as I1.
  { unfold inb, dev_in. rewrite decide_True by done. rewrite (cr_kbd _ _ R), E. cbn. by rewrite set_dev_id. }
  assert (inb KBDATAP s = Ok (d, set_dev (set_kbd_q q (dev s)) s)) as I2.
  { unfold inb, dev_in. rewrite decide_False, decide_True by done. rewrite (cr_kbd _ _ R), E. cbn. by rewrite byte_u8. }
  unfold kbd_proc_data. rewrite (bind_ok _ _ _ _ _ I1). cbv beta.
  rewrite (decide_False (P := Z.land KBS_DIB KBS_DIB = 0)) by done. rewrite (bind_ok _ _ _ _ _ I2).
  unfold a_key. mrun. cbn [kshift set_dev]. rewrite (cr_shift _ _ R). unfold kbd_step in *.
  destruct (decide (d = 0xE0)).
  { cbn [fst snd] in *. rewrite (decide_False (P := reboots _ _)) by (intros [_ Hc]; discriminate Hc). by eexists. }
  destruct (decide (Z.land d 0x80 <> 0)).
  { cbn [fst snd] in *. rewrite (decide_False (P := reboots _ _)) by (intros [_ Hc]; discriminate Hc). by eexists. }
  cbv zeta in *. cbn [fst snd] in *.
  set (sh := Z.lxor _ _) in *. set (c := if decide (Z.land sh CAPSLOCK <> 0) then _ else _) in *.
  destruct (decide (reboots sh c)) as [Hrb|Hrb]; unfold reboots in Hrb.
  - rewrite decide_True by done. destruct (crel_print (chars "Rebooting!" ++ [10]) _ _ R1) as (s2 & E2 & R2 & _).
    rewrite E2. rewrite outb_reset. eexists. split; [done|]. rewrite <-a_print_kbd. by apply crel_reset.
  - rewrite decide_False by done. by eexists.
Qed.

(** *** Draining the devices into the ring *)
Lemma crel_store c s a : crel s a -> c <> 0 -> exists s', cons_store c s = Ok (tt, s') /\ crel s' (a_enq c a).
Proof.
  intros R Hc. destruct (ring_store s (a_q a) c (cr_ring _ _ R)) as (b & w & E & Hr). eexists. split; [done|].
  unfold a_enq. rewrite decide_False by done. destruct R as [R1 R2 R3 R4 R5 R6 R7 R8 R9 R10 R11 R12]. by split.
Qed.

(** One pass of the loop, given what [proc] does *)
Lemma intr_pass fuel proc c s s' a :
  proc s = Ok (c, s') -> c <> -1 -> crel s' a ->
  exists s2, cons_intr_loop (S fuel) proc s = cons_intr_loop fuel proc s2 /\ crel s2 (a_enq c a).
Proof.
  intros E Hc R. cbn [cons_intr_loop]. rewrite (bind_ok _ _ _ _ _ E). rewrite decide_False by done.
  destruct (decide (c = 0)) as [->|Hn].
  - exists s'. done.
  - destruct (crel_store c s' a R Hn) as (s2 & E2 & R2). exists s2. by rewrite (bind_ok _ _ _ _ _ E2).
Qed.

(** The characters of the tables are bytes. *)
Lemma table_byte first des i :
  Forall byte first -> Forall (fun p => byte p.2) des -> byte (table first des i).
Proof.
  intros Hf Hd. unfold table. destruct (list_find _ des) as [[n p]|] eqn:E.
  - apply list_find_Some in E as (E & _). by apply (Forall_lookup_1 _ _ _ _ Hd E).
  - destruct (first !! Z.to_nat i) as [x|] eqn:E2; [|done]. by apply (Forall_lookup_1 _ _ _ _ Hf E2).
Qed.
Lemma charcode_byte k i : byte (charcode k i).
Proof.
  unfold charcode. repeat case_decide; apply table_byte; unfold byte; apply (bool_decide_unpack _); vm_compute; done.
Qed.
Lemma capslock_byte c : byte c -> byte (capslock c).
Proof. unfold capslock, byte. repeat case_decide; lia. Qed.
Lemma kbd_step_byte shift d : byte (kbd_step shift d).2.
Proof.
  unfold kbd_step. repeat case_decide; cbn [snd];
    first [done | apply capslock_byte, charcode_byte | apply charcode_byte].
Qed.

(** The abstract operations leave the scan codes alone. *)
Lemma a_enq_kbd q c a : a_enq c (set_a_kbd q a) = set_a_kbd q (a_enq c a).
Proof. unfold a_enq. by case_decide. Qed.
Lemma a_scan_kbd q d a : a_scan d (set_a_kbd q a) = set_a_kbd q (a_scan d a).
Proof.
  unfold a_scan, a_key. cbn [a_shift set_a_kbd]. destruct (kbd_step (a_shift a) d) as [sh c]. cbn [snd].
  rewrite <-a_enq_kbd. f_equal. case_decide; [|done]. by rewrite <-a_print_kbd.
Qed.
Lemma a_scans_kbd q l : forall a,
  foldl (fun a d => a_scan d a) (set_a_kbd q a) l = set_a_kbd q (foldl (fun a d => a_scan d a) a l).
Proof. induction l as [|d l IH]; intros a; [done|]. cbn [foldl]. by rewrite a_scan_kbd, IH. Qed.

Lemma set_a_kbd_id a : set_a_kbd (a_kbd a) a = a.
Proof. by destruct a. Qed.

Lemma kbd_loop l : forall s a fuel,
  crel s a -> a_kbd a = l -> (length l < fuel)%nat ->
  exists s', cons_intr_loop fuel kbd_proc_data s = Ok (tt, s')
    /\ crel s' (set_a_kbd [] (foldl (fun a d => a_scan d a) a l)).
Proof.
  induction l as [|d q IH]; intros s a [|fuel] R E Hf; cbn [length] in Hf; try lia.
  - exists s. cbn [cons_intr_loop foldl]. rewrite (bind_ok _ _ _ _ _ (kbd_proc_none s a R E)).
    split; [done|]. rewrite <-E, set_a_kbd_id. done.
  - destruct (kbd_proc_one s a d q R E) as (s1 & E1 & R1).
    pose proof (kbd_step_byte (a_shift a) d) as [Hn _].
    destruct (intr_pass fuel kbd_proc_data _ s s1 _ E1 ltac:(lia) R1) as (s2 & E2 & R2).
    rewrite E2. rewrite a_enq_kbd in R2. fold (a_scan d a) in R2.
    destruct (IH s2 _ fuel R2 eq_refl ltac:(lia)) as (s3 & E3 & R3). exists s3. split; [done|].
    rewrite a_scans_kbd in R3. exact R3.
Qed.

(** *** The serial line *)
Lemma crel_tx k s a : crel s a -> crel (set_dev (set_tx_polls k (dev s)) s) a.
Proof. intros [R1 R2 R3 R4 R5 R6 R7 R8 R9 R10 R11 R12]. split; try done. by apply (ring_ext s). Qed.

Lemma crel_ser s a q : crel s a -> Forall byte q -> crel (set_dev (set_ser_q q (dev s)) s) (set_a_ser q a).
Proof. intros [R1 R2 R3 R4 R5 R6 R7 R8 R9 R10 R11 R12] Hq. split; try done. by apply (ring_ext s). Qed.

Lemma lsr_data d : ser_present d = true -> Z.land (u8 (lsr d)) COM_LSR_DATA = if decide (ser_q d = []) then 0 else 1.
Proof. intros E. unfold lsr. rewrite E. repeat case_decide; done. Qed.

Lemma serial_loop l : forall s a fuel,
  crel s a -> a_serial a = true -> a_ser a = l -> (length l < fuel)%nat ->
  exists s', cons_intr_loop fuel serial_proc_data s = Ok (tt, s')
    /\ crel s' (set_a_ser [] (foldl (fun a c => a_enq c a) a l)).
Proof.
  induction l as [|c q IH]; intros s a [|fuel] R Ha E Hf; cbn [length] in Hf; try lia;
    pose proof (cr_present _ _ R ltac:(rewrite (cr_exists _ _ R); done)) as Hp;
    pose proof (crel_tx (pred (tx_polls (dev s))) s a R) as R0.
  - cbn [cons_intr_loop foldl]. unfold serial_proc_data, mbind, M_bind. rewrite inb_lsr.
    rewrite lsr_data by done. rewrite (cr_ser _ _ R), E. cbn.
    eexists. split; [done|]. rewrite <-E. by destruct a.
  - assert (serial_proc_data s = Ok (c, set_dev (set_ser_q q (set_tx_polls (pred (tx_polls (dev s))) (dev s))) s)) as Ep.
    { pose proof (cr_ser_b _ _ R) as Hb. rewrite E in Hb. apply Forall_cons in Hb as [Hc _].
      unfold serial_proc_data, mbind, M_bind. rewrite inb_lsr. rewrite lsr_data by done.
      rewrite (cr_ser _ _ R), E. rewrite (decide_False (P := c :: q = [])), (decide_False (P := 1 = 0)), inb_rx by done.
      cbn [dev set_dev ser_q set_tx_polls]. rewrite (cr_ser _ _ R), E. cbn [head tail default]. by rewrite byte_u8. }
    pose proof (cr_ser_b _ _ R) as Hb. rewrite E in Hb. apply Forall_cons in Hb as [Hc Hq].
    pose proof (crel_ser _ _ q R0 Hq) as R1.
    destruct (intr_pass fuel _ c s _ _ Ep ltac:(unfold byte in Hc; lia) R1) as (s2 & E2 & R2). rewrite E2.
    destruct (IH s2 _ fuel R2) as (s3 & E3 & R3); [unfold a_enq; by case_decide|unfold a_enq; by case_decide|lia|].
    exists s3. split; [done|]. cbn [foldl].
    assert (forall l b, foldl (fun a c => a_enq c a) (set_a_ser q b) l = set_a_ser q (foldl (fun a c => a_enq c a) b l)) as Hc2.
    { clear. induction l as [|x l IH]; intros b; [done|]. cbn [foldl]. rewrite <-IH. f_equal. unfold a_enq. by case_decide. }
    replace (a_enq c (set_a_ser q a)) with (set_a_ser q (a_enq c a)) in R3 by (unfold a_enq; by case_decide).
    rewrite Hc2 in R3. exact R3.
Qed.

(** *** Interrupts *)
Definition console_rel s (a : acon) : Prop := crel s a /\ lock (cons_lk s) = 0.

Lemma crel_lk k s a : crel s a -> crel (set_cons_lk k s) a.
Proof. intros [R1 R2 R3 R4 R5 R6 R7 R8 R9 R10 R11 R12]. split; try done. by apply (ring_ext s). Qed.

Lemma cons_acquire_ok s a :
  console_rel s a -> exists s', cons_acquire s = Ok (tt, s') /\ crel s' a.
Proof.
  intros [R L]. unfold cons_acquire. mrun. unfold zoom.
  rewrite spinlock_acquire_free by (done || apply ck_magic, (cr_inv _ _ R)).
  eexists. split; [done|]. by apply crel_lk.
Qed.
Lemma cons_release_ok s a : crel s a -> exists s', cons_release s = Ok (tt, s') /\ console_rel s' a.
Proof.
  intros R. unfold cons_release, zoom. rewrite spinlock_release_any. eexists. split; [done|].
  split; [by apply crel_lk|done].
Qed.

Lemma crel_notify s a :
  console_rel s a -> exists s', zoom ckern set_ckern ck_notify s = Ok (tt, s') /\ console_rel s' a.
Proof.
  intros [[R1 R2 R3 R4 R5 R6 R7 R8 R9 R10 R11 R12] L].
  destruct (ck_notify_law _ R9) as (t' & E & Hi & Hm). unfold zoom. rewrite E. eexists. split; [done|].
  split; [|done]. split; try done.
  - by apply (ring_ext s).
  - cbn [ckern set_ckern]. congruence.
Qed.

Lemma intr_spec proc s a a' :
  (forall s fuel, crel s a -> (length (a_kbd a) + length (a_ser a) < fuel)%nat ->
     exists s', cons_intr_loop fuel proc s = Ok (tt, s') /\ crel s' a') ->
  console_rel s a -> exists s', cons_intr proc s = Ok (tt, s') /\ console_rel s' a'.
Proof.
  intros Hl R. destruct (cons_acquire_ok s a R) as (s1 & E1 & R1).
  destruct (Hl s1 (S (length (kbd_q (dev s1)) + length (ser_q (dev s1)))) R1) as (s2 & E2 & R2).
  { rewrite (cr_kbd _ _ R1), (cr_ser _ _ R1). lia. }
  destruct (cons_release_ok s2 a' R2) as (s3 & E3 & R3). destruct (crel_notify s3 a' R3) as (s4 & E4 & R4).
  exists s4. split; [|done]. unfold cons_intr. rewrite (bind_ok _ _ _ _ _ E1). mrun.
  by rewrite E2, E3, E4.
Qed.

Lemma keyboard_intr_spec s a :
  console_rel s a -> exists s', keyboard_intr s = Ok (tt, s') /\ console_rel s' (a_keyboard_intr a).
Proof. apply intr_spec. intros s1 fuel R Hf. apply kbd_loop; [done|done|lia]. Qed.

Lemma serial_intr_spec s a :
  console_rel s a -> exists s', serial_intr s = Ok (tt, s') /\ console_rel s' (a_serial_intr a).
Proof.
  intros R. unfold serial_intr, a_serial_intr. mrun. rewrite (cr_exists _ _ (proj1 R)).
  destruct (a_serial a) eqn:E; [|by exists s].
  apply (intr_spec _ _ a); [|done]. intros s1 fuel R1 Hf. apply serial_loop; [done..|lia].
Qed.

(** *** Reading a character *)
Lemma ring_take s c q :
  ring_rep s (c :: q) -> rpos s <> wpos s /\ cbuf s !!! rpos s = c
    /\ ring_rep (set_ring (cbuf s) ((rpos s + 1) mod 512) (wpos s) s) q.
Proof.
  intros [Hl Hr Hw Hb]. cbn [length] in *. split_and!.
  - rewrite Hw. intros E. apply (f_equal (fun x => (x - rpos s) mod 512)) in E. rewrite Zminus_mod_idemp_l, Z.sub_diag in E.
    replace (rpos s + Z.of_nat (S (length q)) - rpos s) with (Z.of_nat (S (length q))) in E by lia.
    rewrite (Z.mod_small 0), (Z.mod_small (Z.of_nat (S (length q)))) in E by lia. lia.
  - rewrite <-(Hb 0%nat c) by done. f_equal. rewrite Z.add_0_r. symmetry. by apply Z.mod_small.
  - split; cbn [cbuf rpos wpos set_ring].
    + lia.
    + apply Z.mod_pos_bound. lia.
    + rewrite Hw, Z.add_mod_idemp_l by lia. f_equal. lia.
    + intros i x Hi. rewrite <-(Hb (S i) x) by done. f_equal. rewrite Z.add_mod_idemp_l by lia. f_equal. lia.
Qed.
Lemma ring_empty s : ring_rep s [] -> rpos s = wpos s.
Proof. intros [Hl Hr Hw Hb]. rewrite Hw. cbn. rewrite Z.add_0_r. symmetry. by apply Z.mod_small. Qed.

Lemma crel_ring b r w s a q :
  crel s a -> ring_rep (set_ring b r w s) q -> crel (set_ring b r w s) (set_a_q q a).
Proof. intros [R1 R2 R3 R4 R5 R6 R7 R8 R9 R10 R11 R12] Hr. by split. Qed.

Lemma cons_getc_spec s a :
  console_rel s a -> exists s', cons_getc s = Ok ((a_getc a).1, s') /\ console_rel s' (a_getc a).2.
Proof.
  intros R. destruct (serial_intr_spec s a R) as (s1 & E1 & R1). destruct (keyboard_intr_spec s1 _ R1) as (s2 & E2 & R2).
  unfold a_getc. set (a2 := a_keyboard_intr _) in *. destruct (cons_acquire_ok s2 a2 R2) as (s3 & E3 & R3).
  unfold cons_getc. rewrite (bind_ok _ _ _ _ _ E1), (bind_ok _ _ _ _ _ E2), (bind_ok _ _ _ _ _ E3). mrun.
  pose proof (cr_ring _ _ R3) as Hr. destruct (a_q a2) as [|c q] eqn:Eq.
  - rewrite decide_False by (rewrite (ring_empty s3 Hr); tauto).
    destruct (cons_release_ok s3 a2 R3) as (s4 & E4 & R4). rewrite E4. by exists s4.
  - destruct (ring_take s3 c q Hr) as (Hne & Hc & Hr'). rewrite decide_True by done.
    pose proof (rr_rpos _ _ Hr) as Hrp. rewrite check_index_ok by exact Hrp. cbn [rpos set_ring].
    rewrite (u32_id (rpos s3 + 1)) by (unfold W32; lia).
    destruct (cons_release_ok _ _ (crel_ring _ _ _ _ _ _ R3 Hr')) as (s4 & E4 & R4).
    exists s4. cbn [fst snd]. split; [|done]. rewrite <-Hc. unfold CONSOLE_BUFFER_SIZE. case_decide as E5.
    + rewrite E5 in E4. cbn in *. change ((512 mod 512)) with 0 in E4.
      match goal with |- context [cons_release ?x] => change x with (set_ring (cbuf s3) 0 (wpos s3) s3) end. by rewrite E4.
    + rewrite Z.mod_small in E4 by lia. by rewrite E4.
Qed.

(** *** Waiting for a character *)
Definition a_drain (a : acon) : acon := a_keyboard_intr (a_serial_intr a).
Definition nonzero (a : acon) : Prop := Forall (fun c => c <> 0) (a_q a).

Lemma s8_nonzero c : byte c -> c <> 0 -> s8 c <> 0.
Proof. intros Hb Hc. unfold s8. rewrite byte_u8 by done. unfold byte in Hb. destruct (Z.ltb_spec c 128); lia. Qed.

Lemma enq_nonzero c a : byte c -> nonzero a -> nonzero (a_enq c a).
Proof.
  intros Hb Ha. unfold a_enq. case_decide; [done|]. unfold nonzero, enq. cbn [a_q set_a_q]. case_decide; [done|].
  apply Forall_app_2; [done|]. apply Forall_singleton. by apply s8_nonzero.
Qed.

(** Printing touches neither the queue nor the devices nor memory. *)
Lemma a_print_input l : forall a, a_q (a_print l a) = a_q a /\ a_ser (a_print l a) = a_ser a
  /\ a_serial (a_print l a) = a_serial a /\ a_mem (a_print l a) = a_mem a.
Proof. unfold a_print. induction l as [|c l IH]; intros a; [done|]. exact (IH (a_putc (s8 c) a)). Qed.

Lemma a_key_input d a : a_q (a_key d a) = a_q a /\ a_ser (a_key d a) = a_ser a
  /\ a_serial (a_key d a) = a_serial a /\ a_mem (a_key d a) = a_mem a.
Proof. unfold a_key. destruct (kbd_step _ _) as [sh c]. case_decide; [|done]. apply (a_print_input _ (set_a_shift sh a)). Qed.

Lemma a_enq_input c a : a_kbd (a_enq c a) = a_kbd a /\ a_ser (a_enq c a) = a_ser a
  /\ a_serial (a_enq c a) = a_serial a /\ a_mem (a_enq c a) = a_mem a.
Proof. unfold a_enq. by case_decide. Qed.

Lemma scans_input l : forall a, let a' := foldl (fun a d => a_scan d a) a l in
  a_ser a' = a_ser a /\ a_serial a' = a_serial a /\ a_mem a' = a_mem a /\ (nonzero a -> nonzero a').
Proof.
  induction l as [|d l IH]; intros a; cbn [foldl]; [done|]. destruct (IH (a_scan d a)) as (E1 & E2 & E3 & E4).
  destruct (a_enq_input (kbd_step (a_shift a) d).2 (a_key d a)) as (_ & F2 & F3 & F4).
  destruct (a_key_input d a) as (G1 & G2 & G3 & G4). unfold a_scan in *. cbv zeta in *.
  split_and!; [congruence..|]. intros Ha. apply E4, enq_nonzero; [apply kbd_step_byte|]. unfold nonzero. by rewrite G1.
Qed.
Lemma enqs_input l : forall a, let a' := foldl (fun a c => a_enq c a) a l in
  a_kbd a' = a_kbd a /\ a_serial a' = a_serial a /\ a_mem a' = a_mem a /\ (Forall byte l -> nonzero a -> nonzero a').
Proof.
  induction l as [|c l IH]; intros a; cbn [foldl]; [done|]. destruct (IH (a_enq c a)) as (E1 & E2 & E3 & E4).
  destruct (a_enq_input c a) as (F1 & F2 & F3 & F4). cbv zeta in *. split_and!; [congruence..|].
  intros [Hc Hl]%Forall_cons Ha. apply E4; [done|]. by apply enq_nonzero.
Qed.

Definition drained (a : acon) : Prop := a_kbd a = [] /\ (a_serial a = true -> a_ser a = []).

Lemma drain_drained a : drained (a_drain a) /\ a_serial (a_drain a) = a_serial a /\ a_mem (a_drain a) = a_mem a
  /\ (Forall byte (a_ser a) -> nonzero a -> nonzero (a_drain a)).
Proof.
  unfold a_drain, a_keyboard_intr. set (b := a_serial_intr a).
  destruct (scans_input (a_kbd b) b) as (E1 & E2 & E3 & E4).
  assert (a_serial b = a_serial a /\ a_mem b = a_mem a /\ (a_serial a = true -> a_ser b = [])
    /\ (Forall byte (a_ser a) -> nonzero a -> nonzero b)) as (F1 & F2 & F3 & F4).
  { subst b. unfold a_serial_intr. destruct (a_serial a) eqn:Es; [|done].
    destruct (enqs_input (a_ser a) a) as (G1 & G2 & G3 & G4). split_and!; [|done..]. cbn. congruence. }
  cbn [a_serial a_mem set_a_kbd]. split_and!; [|congruence|congruence|].
  - split; [done|]. cbn [a_serial a_ser set_a_kbd]. rewrite E1, E2, F1. done.
  - intros Hb Ha. exact (E4 (F4 Hb Ha)).
Qed.

Lemma drain_id a : drained a -> a_drain a = a.
Proof.
  intros [E1 E2]. assert (a_serial_intr a = a) as Es.
  { unfold a_serial_intr. destruct (a_serial a) eqn:Ea; [|done]. rewrite E2 by done. cbn. specialize (E2 eq_refl).
    destruct a. cbn in *. by subst. }
  unfold a_drain, a_keyboard_intr. rewrite Es, E1. cbn. rewrite <-E1. apply set_a_kbd_id.
Qed.

Lemma getchar_some s a c q :
  console_rel s a -> a_q (a_drain a) = c :: q -> c <> 0 ->
  exists s', getchar s = Ok (c, s') /\ console_rel s' (set_a_q q (a_drain a)).
Proof.
  intros R Eq Hc. destruct (cons_getc_spec s a R) as (s' & E & R').
  unfold a_getc in *. fold (a_drain a) in *. rewrite Eq in *. exists s'. split; [|done].
  unfold getchar. change (Z.to_nat CONSOLE_BUFFER_SIZE) with 512%nat. cbn [getchar_loop].
  rewrite (bind_ok _ _ _ _ _ E). cbn [fst]. by rewrite decide_False by done.
Qed.

Lemma getchar_none s a : console_rel s a -> a_q (a_drain a) = [] -> getchar s = Spin.
Proof.
  intros R Eq. unfold getchar. generalize (Z.to_nat CONSOLE_BUFFER_SIZE). intros n. revert s a R Eq.
  induction n as [|n IH]; intros s a R Eq; [done|]. destruct (cons_getc_spec s a R) as (s' & E & R').
  unfold a_getc in *. fold (a_drain a) in *. rewrite Eq in *. cbn [getchar_loop]. rewrite (bind_ok _ _ _ _ _ E).
  cbn [fst snd] in *. rewrite decide_True by done. apply (IH s' _ R').
  rewrite drain_id by apply drain_drained. done.
Qed.
End Input.

(** ** The line editor *)
Inductive edited :=
| Line (line rest : list Z)     (* the line, and what is typed after it *)
| ReadError (rest : list Z)     (* a negative character *)
| More.                         (* the line is not finished *)

(** How a line is edited: the characters it may have, the echo of a backspace
    and of a character *)
Record style := mk_style { sy_lim : nat; sy_bs : list Z; sy_echo : Z -> list Z }.

(** [edit_as y line cs]: the characters [cs] are typed after [line]; the second
    component is the echo. *)
Fixpoint edit_as (y : style) (line cs : list Z) : edited * list Z :=
  match cs with
  | [] => (More, [])
  | c :: cs =>
      if decide (c < 0) then (ReadError cs, [])
      else if decide ((c = 8 \/ c = 127) /\ line <> []) then
        let '(r, e) := edit_as y (take (pred (length line)) line) cs in (r, sy_bs y ++ e)
      else if decide (32 <= c /\ (length line < sy_lim y)%nat) then
        let '(r, e) := edit_as y (line ++ [c]) cs in (r, sy_echo y c ++ e)
      else if decide (c = 10 \/ c = 13) then (Line line cs, [10])
      else edit_as y line cs
  end.

(** [readline]: 1023 characters, each echoed as it is *)
Definition edit : list Z -> list Z -> edited * list Z := edit_as (mk_style 1023 [8] (fun c => [c])).

(** The console after [echo] is printed, with [rest] left to read *)
Definition a_after (a : acon) (rest echo : list Z) (m : mem) : acon :=
  mk_acon rest (a_kbd a) (a_ser a) (a_shift a) (a_serial a) (foldl (fun t c => t_putc c t) (a_term a) echo)
    (a_out a ++ mjoin (map (fun c => if a_serial a then serial_bytes c else []) echo)) m.

(** Characters as they are *)
Definition a_puts (l : list Z) (a : acon) : acon := foldl (fun a c => a_putc c a) a l.
Lemma a_after_puts l : forall a rest e m, a_after (a_puts l a) rest e m = a_after a rest (l ++ e) m.
Proof.
  induction l as [|c l IH]; intros a rest e m; [done|]. change (a_puts (c :: l) a) with (a_puts l (a_putc c a)). rewrite IH.
  unfold a_after. cbn. by rewrite <-app_assoc.
Qed.
Lemma a_puts_input l : forall a, a_q (a_puts l a) = a_q a /\ a_kbd (a_puts l a) = a_kbd a /\ a_ser (a_puts l a) = a_ser a
  /\ a_serial (a_puts l a) = a_serial a /\ a_mem (a_puts l a) = a_mem a.
Proof. induction l as [|c l IH]; intros a; [done|]. exact (IH (a_putc c a)). Qed.

Definition set_a_mem v a := mk_acon (a_q a) (a_kbd a) (a_ser a) (a_shift a) (a_serial a) (a_term a) (a_out a) v.
Lemma a_puts_mem l a : a_puts l a = set_a_mem (a_mem a) (a_puts l a).
Proof. destruct (a_puts_input l a) as (_ & _ & _ & _ & E). rewrite <- E. by destruct (a_puts l a). Qed.

Section Line.
Context {T : Type} `{!ConsKernel T} `{!ConsKernelLaws T}.
Context (linebuf size : Z).
Implicit Types s : cstate T.

Definition line_at (m : mem) (line : list Z) : Prop :=
  forall i c, line !! i = Some c -> m !!! (linebuf + Z.of_nat i) = u8 c.
Definition same_outside (m m' : mem) : Prop :=
  forall x, ~ (linebuf <= x < linebuf + size) -> m' !! x = m !! x.

Definition line_set (i c : Z) : M (cstate T) unit :=
  check_index size i ;;
  modify (fun s => set_ckern (ck_set_mem (<[linebuf + i := u8 c]> (ck_mem (ckern s))) (ckern s)) s).

(** Kernel memory is written *)
Lemma crel_mem s a m : console_rel s a -> console_rel (set_ckern (ck_set_mem m (ckern s)) s) (set_a_mem m a).
Proof.
  intros [[R1 R2 R3 R4 R5 R6 R7 R8 R9 R10 R11 R12] L]. split; [|done]. split; try done.
  - by apply (ring_ext s).
  - by apply ck_set_inv.
  - cbn [ckern set_ckern a_mem set_a_mem]. by rewrite ck_mem_set.
Qed.

Lemma line_set_spec i c s a :
  console_rel s a -> 0 <= i < size ->
  exists s', line_set i c s = Ok (tt, s') /\ console_rel s' (set_a_mem (<[linebuf + i := u8 c]> (a_mem a)) a).
Proof. intros R Hi. unfold line_set. mrun. eexists. split; [done|]. rewrite (cr_mem _ _ (proj1 R)). by apply crel_mem. Qed.

Lemma line_at_snoc m line c :
  line_at m line -> line_at (<[linebuf + Z.of_nat (length line) := u8 c]> m) (line ++ [c]).
Proof.
  intros H i x Hi. rewrite lookup_total_upd. apply lookup_app_Some in Hi as [Hi|[Hge Hi]].
  - pose proof (lookup_lt_Some _ _ _ Hi). rewrite decide_False by lia. by apply H.
  - apply list_lookup_singleton_Some in Hi as [Hi <-]. by rewrite decide_True by lia.
Qed.
Lemma line_at_end m line : line_at m line -> line_at (<[linebuf + Z.of_nat (length line) := 0]> m) (line ++ [0]).
Proof. exact (line_at_snoc m line 0). Qed.
Lemma line_at_take m line n : line_at m line -> line_at m (take n line).
Proof. intros H i x Hi. apply H. apply lookup_take_Some in Hi. tauto. Qed.

(** What a reader of lines makes of the characters *)
Definition line_post (a : acon) (m : mem) (r : edited * list Z) (x : result (Z * cstate T)) : Prop :=
  match r with
  | (Line line rest, echo) => exists s' m', x = Ok (linebuf, s') /\ console_rel s' (a_after a rest echo m')
      /\ line_at m' (line ++ [0]) /\ same_outside m m'
  | (ReadError rest, echo) => exists s' m', x = Ok (0, s')
      /\ console_rel s' (a_print (chars "read error: %e" ++ [10]) (a_after a rest echo m')) /\ same_outside m m'
  | (More, _) => x = Spin
  end.

Lemma line_post_step a b l m m' r x :
  (forall rest e mm, a_after b rest e mm = a_after (a_puts l a) rest e mm) -> same_outside m m' ->
  line_post b m' r x -> line_post a m (r.1, l ++ r.2) x.
Proof.
  intros Eb Hm H. assert (forall rest e mm, a_after b rest e mm = a_after a rest (l ++ e) mm) as Ea.
  { intros. by rewrite Eb, a_after_puts. }
  destruct r as [[line rest|rest|] e]; cbn in *.
  - destruct H as (s' & mm & E & R & Hl & Ho). exists s', mm. rewrite <-Ea. split_and!; [done..|].
    intros y Hy. rewrite Ho by done. by apply Hm.
  - destruct H as (s' & mm & E & R & Ho). exists s', mm. rewrite <-Ea. split_and!; [done..|].
    intros y Hy. rewrite Ho by done. by apply Hm.
  - done.
Qed.

Lemma a_after_nil a rest : a_after a rest [] (a_mem a) = set_a_q rest a.
Proof. unfold a_after. cbn. by rewrite app_nil_r. Qed.

Lemma same_outside_set m i v : 0 <= i < size -> same_outside m (<[linebuf + i := v]> m).
Proof. intros Hi x Hx. apply lookup_insert_ne. lia. Qed.

(** The loop of [readline] and of the monitor, with the echo as a parameter *)
Context (echo_bs : M (cstate T) unit) (echo : Z -> M (cstate T) unit) (echo_nl : M (cstate T) unit).
Fixpoint line_loop (fuel : nat) (i : Z) : M (cstate T) Z :=
  match fuel with
  | O => fail Hang
  | S fuel =>
      c ← getchar;
      if decide (c < 0) then
        print_text (chars "read error: %e" ++ [10]) ;;
        mret 0
      else if decide ((c = 8 \/ c = 127) /\ i > 0) then
        echo_bs ;;
        line_loop fuel (i - 1)
      else if decide (c >= 32 /\ i < size - 1) then
        echo c ;;
        line_set i c ;;
        line_loop fuel (i + 1)
      else if decide (c = 10 \/ c = 13) then
        echo_nl ;;
        line_set i 0 ;;
        mret linebuf
      else line_loop fuel i
  end.

Definition echoes (m : M (cstate T) unit) (l : list Z) : Prop :=
  forall s a, console_rel s a -> exists s', m s = Ok (tt, s') /\ console_rel s' (a_puts l a).

Context (y : style) (Hsize : Z.of_nat (sy_lim y) + 1 = size).
Context (Hbs : echoes echo_bs (sy_bs y)) (Hecho : forall c, echoes (echo c) (sy_echo y c)) (Hnl : echoes echo_nl [10]).

(** A step that prints [l] and leaves the memory [m'] *)
Lemma line_step a0 a2 l m' cs fuel i line' s2 s3 :
  drained a0 -> (forall line' s2 a2, console_rel s2 a2 -> drained a2 -> a_q a2 = cs -> line_at (a_mem a2) line' ->
    (length line' <= sy_lim y)%nat -> line_post a2 (a_mem a2) (edit_as y line' cs) (line_loop fuel (Z.of_nat (length line')) s2)) ->
  a_q a0 = cs -> console_rel s3 a2 -> a2 = set_a_mem m' (a_puts l a0) -> same_outside (a_mem a0) m' -> line_at m' line' ->
  (length line' <= sy_lim y)%nat -> i = Z.of_nat (length line') -> s2 = s3 ->
  line_post a0 (a_mem a0) (let '(r, e) := edit_as y line' cs in (r, l ++ e)) (line_loop fuel i s2).
Proof.
  intros Hd Hnext Eq R -> Ho Hl Hlen -> ->. destruct (a_puts_input l a0) as (Q & K & S & P & _).
  specialize (Hnext line' s3 _ R). destruct (edit_as y line' cs) as [r e].
  refine (line_post_step _ _ l _ _ (r, e) _ _ Ho (Hnext _ _ Hl Hlen)); [done| |by rewrite <- Eq, <- Q].
  unfold drained in *. cbn. rewrite K, S, P. exact Hd.
Qed.

Lemma line_loop_spec cs : forall fuel line s a,
  console_rel s a -> nonzero a -> a_q (a_drain a) = cs -> (length cs < fuel)%nat ->
  line_at (a_mem a) line -> (length line <= sy_lim y)%nat ->
  line_post (a_drain a) (a_mem a) (edit_as y line cs) (line_loop fuel (Z.of_nat (length line)) s).
Proof.
  induction cs as [|c q IH]; intros [|fuel] line s a R Hnz Eq Hf Hl Hlen; cbn [length] in Hf; try lia; cbn [line_loop edit_as].
  { cbn. unfold mbind, M_bind. by rewrite (getchar_none s a R Eq). }
  destruct (drain_drained a) as (Hdr & _ & Em & Hnz'). specialize (Hnz' (cr_ser_b _ _ (proj1 R)) Hnz).
  unfold nonzero in Hnz'. rewrite Eq in Hnz'. apply Forall_cons in Hnz' as [Hc0 Hnq].
  destruct (getchar_some s a c q R Eq Hc0) as (s1 & E1 & R1). rewrite (bind_ok _ _ _ _ _ E1).
  set (a1 := set_a_q q (a_drain a)) in *. assert (drained a1) as D1 by exact Hdr.
  assert (a_mem a1 = a_mem a) as Em1 by exact Em. rewrite <- Em1 in Hl |- *.
  change (line_post (a_drain a) (a_mem a1)) with (line_post a1 (a_mem a1)).
  (* the rest of the line, from a state in which the devices are empty *)
  assert (forall line' s2 a2, console_rel s2 a2 -> drained a2 -> a_q a2 = q -> line_at (a_mem a2) line' ->
    (length line' <= sy_lim y)%nat -> line_post a2 (a_mem a2) (edit_as y line' q) (line_loop fuel (Z.of_nat (length line')) s2)) as Hnext.
  { intros line' s2 a2 R2 D2 Q2 L2 N2. rewrite <-(drain_id a2 D2) at 1. apply IH; try done; try lia.
    - unfold nonzero. by rewrite Q2.
    - by rewrite drain_id. }
  destruct (decide (c < 0)).
  { destruct R1 as [R1 L1]. destruct (crel_print (chars "read error: %e" ++ [10]) s1 _ R1) as (s2 & E2 & R2 & L2 & _).
    rewrite (bind_ok _ _ _ _ _ E2). exists s2, (a_mem a1). rewrite a_after_nil. split; [done|].
    split; [split; [done|by rewrite L2]|done]. }
  assert (Z.of_nat (length line) > 0 <-> line <> []) as Hpos.
  { destruct line; cbn; [|split; [done|lia]]. split; [lia|done]. }
  destruct (decide ((c = 8 \/ c = 127) /\ line <> [])) as [Hbk|Hbk].
  { rewrite decide_True by tauto. destruct (Hbs s1 _ R1) as (s2 & E2 & R2). rewrite (bind_ok _ _ _ _ _ E2).
    apply (line_step a1 _ (sy_bs y) (a_mem a1) _ _ _ _ _ s2 D1 Hnext eq_refl R2); try done; [by apply (a_puts_mem _ a1)|by apply line_at_take| |];
      rewrite length_take; [lia|]. apply proj2 in Hpos. specialize (Hpos (proj2 Hbk)). lia. }
  rewrite (decide_False (P := _ /\ Z.of_nat (length line) > 0)) by tauto.
  destruct (decide (32 <= c /\ (length line < sy_lim y)%nat)) as [Hch|Hch].
  { rewrite decide_True by lia. destruct (Hecho c s1 _ R1) as (s2 & E2 & R2). rewrite (bind_ok _ _ _ _ _ E2).
    destruct (line_set_spec (Z.of_nat (length line)) c s2 _ R2 ltac:(lia)) as (s3 & E3 & R3). rewrite (bind_ok _ _ _ _ _ E3).
    destruct (a_puts_input (sy_echo y c) a1) as (_ & _ & _ & _ & Mp). rewrite Mp in R3.
    eapply (line_step a1 _ (sy_echo y c) (<[linebuf + Z.of_nat (length line) := u8 c]> (a_mem a1)) _ _ _ (line ++ [c]) _ s3 D1 Hnext eq_refl R3); try done;
      [apply same_outside_set; lia|by apply line_at_snoc|rewrite length_app; cbn; lia..]. }
  rewrite (decide_False (P := c >= 32 /\ _)) by lia.
  destruct (decide (c = 10 \/ c = 13)).
  { destruct (Hnl s1 _ R1) as (s2 & E2 & R2). rewrite (bind_ok _ _ _ _ _ E2).
    destruct (line_set_spec (Z.of_nat (length line)) 0 s2 _ R2 ltac:(lia)) as (s3 & E3 & R3). rewrite (bind_ok _ _ _ _ _ E3).
    exists s3, (<[linebuf + Z.of_nat (length line) := 0]> (a_mem a1)). split; [done|]. split; [|split].
    - unfold a_after. cbn [map mjoin list_join foldl]. by rewrite app_nil_r.
    - by apply line_at_end.
    - apply same_outside_set. lia. }
  specialize (Hnext line s1 _ R1 D1 eq_refl Hl Hlen). exact Hnext.
Qed.
End Line.

Lemma putchar_spec {T} `{!ConsKernel T} `{!ConsKernelLaws T} c : echoes (T := T) (putchar c) [c].
Proof.
  intros s a [R L]. destruct (crel_putc c s a R) as (s' & E & R' & L' & _). exists s'. split; [done|].
  split; [done|]. by rewrite L'.
Qed.

Definition readline_post {T} `{!ConsKernel T} `{!ConsKernelLaws T} (linebuf : Z) := line_post (T := T) linebuf BUFLEN.
Lemma readline_loop_spec {T} `{!ConsKernel T} `{!ConsKernelLaws T} linebuf fuel (s : cstate T) a :
  console_rel s a -> nonzero a -> (length (a_q (a_drain a)) < fuel)%nat ->
  readline_post linebuf (a_drain a) (a_mem a) (edit [] (a_q (a_drain a))) (readline_loop linebuf fuel 0 s).
Proof.
  intros R Hnz Hf. apply (line_loop_spec linebuf BUFLEN (putchar 8) putchar (putchar 10) (mk_style 1023 [8] (fun c => [c]))
    eq_refl (putchar_spec 8) putchar_spec (putchar_spec 10) _ fuel [] s a R Hnz eq_refl Hf); [|cbn; lia].
  intros i c Hi. by rewrite lookup_nil in Hi.
Qed.

Lemma drain_short {T} `{!ConsKernel T} `{!ConsKernelLaws T} (s : cstate T) a : console_rel s a -> (length (a_q (a_drain a)) < 512)%nat.
Proof.
  intros R. destruct (serial_intr_spec s a R) as (s2 & _ & R2). destruct (keyboard_intr_spec s2 _ R2) as (s3 & _ & R3).
  exact (rr_len _ _ (cr_ring _ _ (proj1 R3))).
Qed.

Section ReadlineCall.
Context {T : Type} `{!ConsKernel T} `{!ConsKernelLaws T}.
Context (linebuf : Z).
Implicit Types s : cstate T.

Definition a_prompt (prompt : option string) (a : acon) : acon :=
  match prompt with Some p => a_print (chars p) a | None => a end.

Lemma readline_spec prompt s a :
  console_rel s a -> nonzero a ->
  let b := a_drain (a_prompt prompt a) in
  readline_post linebuf b (a_mem a) (edit [] (a_q b)) (readline linebuf prompt s).
Proof.
  intros R Hnz. set (a1 := a_prompt prompt a).
  assert (exists s1, match prompt with Some p => print_text (chars p) | None => mret tt end s = Ok (tt, s1)
    /\ console_rel s1 a1 /\ nonzero a1 /\ a_mem a1 = a_mem a) as (s1 & E1 & R1 & N1 & M1).
  { subst a1. destruct prompt as [p|]; [|by exists s]. destruct R as [R L].
    destruct (crel_print (chars p) s a R) as (s1 & E1 & R1 & L1 & _). exists s1. cbn [a_prompt].
    destruct (a_print_input (chars p) a) as (Q & _ & _ & Hm). split; [done|]. split; [split; [done|by rewrite L1]|].
    split; [|done]. unfold nonzero. by rewrite Q. }
  cbv zeta. unfold readline. rewrite (bind_ok _ _ _ _ _ E1). mrun.
  rewrite <-M1. apply (readline_loop_spec linebuf _ s1 a1 R1 N1).
  assert (length (a_q (a_drain a1)) < 512)%nat; [|unfold readline_fuel; change (Z.to_nat CONSOLE_BUFFER_SIZE) with 512%nat; lia].
  by apply (drain_short s1).
Qed.
End ReadlineCall.

(** ** Text typed on the keyboard *)

(** A US keyboard: the code (set 1) a key sends when it is pressed, and the
    characters on its cap, without and with shift; the code of its release is
    128 more. *)
Definition us_keys : list (Z * (Z * Z)) :=
  zip [0x1E; 0x30; 0x2E; 0x20; 0x12; 0x21; 0x22; 0x23; 0x17; 0x24; 0x25; 0x26; 0x32;
       0x31; 0x18; 0x19; 0x10; 0x13; 0x1F; 0x14; 0x16; 0x2F; 0x11; 0x2D; 0x15; 0x2C]
    (zip (chars "abcdefghijklmnopqrstuvwxyz") (chars "ABCDEFGHIJKLMNOPQRSTUVWXYZ"))
  ++ zip [0x02; 0x03; 0x04; 0x05; 0x06; 0x07; 0x08; 0x09; 0x0A; 0x0B]
    (zip (chars "1234567890") (chars "!@#$%^&*()"))
  ++ [(0x0C, (45, 95)); (0x0D, (61, 43)); (0x1A, (91, 123)); (0x1B, (93, 125)); (0x27, (59, 58)); (0x28, (39, 34));
      (0x29, (96, 126)); (0x2B, (92, 124)); (0x33, (44, 60)); (0x34, (46, 62)); (0x35, (47, 63));
      (0x39, (32, 32)) (* space *); (0x1C, (10, 10)) (* Enter *)].

(** Press and release the key, with the left shift key where it is needed *)
Definition keys (c : Z) : list Z :=
  match list_find (fun k => k.2.1 = c) us_keys, list_find (fun k => k.2.2 = c) us_keys with
  | Some (_, (k, _)), _ => [k; k + 128]
  | None, Some (_, (k, _)) => [0x2A; k; k + 128; 0xAA]
  | None, None => []
  end.
Definition typed (text : list Z) : list Z := mjoin (map keys text).

(** The characters a sequence of scan codes stands for, if it never asks for a
    restart *)
Fixpoint decode (shift : Z) (l : list Z) : option (Z * list Z) :=
  match l with
  | [] => Some (shift, [])
  | d :: l =>
      let '(sh, c) := kbd_step shift d in
      if decide (reboots sh c) then None
      else match decode sh l with
           | Some (sh', cs) => Some (sh', if decide (c = 0) then cs else c :: cs)
           | None => None
           end
  end.

Definition printable (c : Z) : Prop := 32 <= c <= 126.

Lemma keys_decode c : printable c \/ c = 10 -> decode 0 (keys c) = Some (0, [c]).
Proof.
  intros Hc. assert (c ∈ 10 :: seqZ 32 95) as Hin.
  { destruct Hc as [Hc| ->]; [right; apply elem_of_seqZ; unfold printable in Hc; lia|left]. }
  clear Hc. revert c Hin. apply Forall_forall. apply (bool_decide_unpack _). by vm_compute.
Qed.

Lemma decode_app l1 : forall sh sh1 c1 l2 r2,
  decode sh l1 = Some (sh1, c1) -> decode sh1 l2 = Some r2 -> decode sh (l1 ++ l2) = Some (r2.1, c1 ++ r2.2).
Proof.
  induction l1 as [|d l1 IH]; intros sh sh1 c1 l2 [sh2 c2] E1 E2.
  - cbn in *. simplify_eq. done.
  - cbn [decode app] in *. destruct (kbd_step sh d) as [sh' c]. case_decide; [done|].
    destruct (decode sh' l1) as [[x cs]|] eqn:E; [|done]. simplify_eq.
    rewrite (IH _ _ _ _ _ E E2). cbn. by case_decide.
Qed.

Lemma typed_decode text :
  Forall (fun c => printable c \/ c = 10) text -> decode 0 (typed text) = Some (0, text).
Proof.
  induction 1 as [|c text Hc _ IH]; [done|]. change (typed (c :: text)) with (keys c ++ typed text).
  by rewrite (decode_app _ _ _ _ _ _ (keys_decode c Hc) IH).
Qed.

Lemma a_enq_shift c sh a : a_enq c (set_a_shift sh a) = set_a_shift sh (a_enq c a).
Proof. unfold a_enq. by case_decide. Qed.
Lemma enqs_shift sh l : forall a,
  foldl (fun a c => a_enq c a) (set_a_shift sh a) l = set_a_shift sh (foldl (fun a c => a_enq c a) a l).
Proof. induction l as [|c l IH]; intros a; [done|]. cbn [foldl]. by rewrite a_enq_shift, IH. Qed.

Lemma scans_decode l : forall a sh cs,
  decode (a_shift a) l = Some (sh, cs) ->
  foldl (fun a d => a_scan d a) a l = set_a_shift sh (foldl (fun a c => a_enq c a) a cs).
Proof.
  induction l as [|d l IH]; intros a sh cs E; cbn [decode foldl] in *.
  { simplify_eq. by destruct a. }
  unfold a_scan at 2, a_key. destruct (kbd_step (a_shift a) d) as [sh1 c] eqn:Ek. cbn [snd]. case_decide; [done|].
  destruct (decode sh1 l) as [[x cs1]|] eqn:El; [|done]. simplify_eq.
  rewrite (IH _ sh cs1) by (rewrite a_enq_shift; exact El). rewrite a_enq_shift, enqs_shift.
  unfold set_a_shift. cbn. case_decide as Hc; [|done]. unfold a_enq. by rewrite decide_True by done.
Qed.

(** While there is room the ring is a queue. *)
Lemma enqs_room cs : forall a,
  (length (a_q a) + length cs < 512)%nat -> Forall (fun c => 0 < c < 128) cs ->
  foldl (fun a c => a_enq c a) a cs = set_a_q (a_q a ++ cs) a.
Proof.
  induction cs as [|c cs IH]; intros a Hl Hc; cbn [foldl length] in *.
  { rewrite app_nil_r. by destruct a. }
  apply Forall_cons in Hc as [Hc Hcs]. unfold a_enq at 2. rewrite decide_False by lia.
  unfold enq. rewrite decide_False by lia.
  assert (s8 c = c) as ->.
  { unfold s8, u8. rewrite Z.mod_small by lia. destruct (Z.ltb_spec c 128); lia. }
  rewrite IH; [|cbn; rewrite length_app; cbn; lia|done]. cbn. by rewrite <-app_assoc.
Qed.

(** Printable text and Enter are the line and nothing else. *)
Lemma edit_as_text y text : forall line,
  Forall printable text -> (length line + length text <= sy_lim y)%nat ->
  edit_as y line (text ++ [10]) = (Line (line ++ text) [], mjoin (map (sy_echo y) text) ++ [10]).
Proof.
  induction text as [|c text IH]; intros line Hp Hl; cbn [app edit_as length map] in *.
  { rewrite (decide_False (P := 10 < 0)) by done.
    rewrite (decide_False (P := _ /\ line <> [])) by (intros [[|] _]; done).
    rewrite (decide_False (P := 32 <= 10 /\ _)) by (intros [? _]; done). by rewrite app_nil_r. }
  apply Forall_cons in Hp as [Hc Hp]. unfold printable in Hc.
  rewrite (decide_False (P := c < 0)) by lia. rewrite (decide_False (P := _ /\ line <> [])) by lia.
  rewrite (decide_True (P := 32 <= c /\ _)) by lia. rewrite IH; [|done|rewrite length_app; cbn; lia].
  cbn. by rewrite <-!app_assoc.
Qed.
Lemma join_single y (l : list Z) : mjoin (map (sy_echo (mk_style y [8] (fun c => [c]))) l) = l.
Proof. induction l as [|c l IH]; [done|]. exact (f_equal (cons c) IH). Qed.
Lemma edit_text text line :
  Forall printable text -> (length line + length text <= 1023)%nat ->
  edit line (text ++ [10]) = (Line (line ++ text) [], text ++ [10]).
Proof.
  intros Hp Hl. unfold edit. rewrite edit_as_text by done. by rewrite join_single.
Qed.

(** ** Operations in any order *)
Inductive cop :=
| Press (scan : Z)              (* the keyboard sends a scan code *)
| Receive (c : Z)               (* a byte arrives on the serial line *)
| KeyboardIntr | SerialIntr
| Getc
| Putc (c : Z).

Definition cop_ok (o : cop) : Prop := match o with Press d => byte d | Receive c => byte c | _ => True end.

Section Ops.
Context {T : Type} `{!ConsKernel T}.
Definition crun1 (o : cop) : M (cstate T) (list Z) :=
  match o with
  | Press d => modify (fun s => set_dev (set_kbd_q (kbd_q (dev s) ++ [d]) (dev s)) s) ;; mret []
  | Receive c => modify (fun s => set_dev (set_ser_q (ser_q (dev s) ++ [c]) (dev s)) s) ;; mret []
  | KeyboardIntr => keyboard_intr ;; mret []
  | SerialIntr => serial_intr ;; mret []
  | Getc => c ← cons_getc; mret [c]
  | Putc c => cons_putc c ;; mret []
  end.
Fixpoint crun (os : list cop) : M (cstate T) (list Z) :=
  match os with
  | [] => mret []
  | o :: os => r ← crun1 o; l ← crun os; mret (r ++ l)
  end.
End Ops.

Definition arun1 (o : cop) (a : acon) : list Z * acon :=
  match o with
  | Press d => ([], set_a_kbd (a_kbd a ++ [d]) a)
  | Receive c => ([], set_a_ser (a_ser a ++ [c]) a)
  | KeyboardIntr => ([], a_keyboard_intr a)
  | SerialIntr => ([], a_serial_intr a)
  | Getc => ([(a_getc a).1], (a_getc a).2)
  | Putc c => ([], a_putc c a)
  end.
Fixpoint arun (os : list cop) (a : acon) : list Z * acon :=
  match os with
  | [] => ([], a)
  | o :: os => let '(r, a) := arun1 o a in let '(l, a) := arun os a in (r ++ l, a)
  end.

Lemma crun1_spec {T} `{!ConsKernel T} `{!ConsKernelLaws T} o (s : cstate T) a :
  console_rel s a -> cop_ok o ->
  exists s', crun1 o s = Ok ((arun1 o a).1, s') /\ console_rel s' (arun1 o a).2.
Proof.
  intros R Ho. destruct o as [d|c| | | |c]; cbn [crun1 arun1 cop_ok fst snd] in *.
  - destruct R as [R L]. eexists. split; [done|]. split; [|done].
    destruct R as [R1 R2 R3 R4 R5 R6 R7 R8 R9 R10 R11 R12]. rewrite R2. split; try done.
    + by apply (ring_ext s).
    + apply Forall_app_2; [done|by apply Forall_singleton].
  - destruct R as [R L]. eexists. split; [done|]. split; [|done]. rewrite (cr_ser _ _ R).
    apply crel_ser; [done|]. apply Forall_app_2; [apply R|by apply Forall_singleton].
  - destruct (keyboard_intr_spec s a R) as (s' & E & R'). rewrite (bind_ok _ _ _ _ _ E). by exists s'.
  - destruct (serial_intr_spec s a R) as (s' & E & R'). rewrite (bind_ok _ _ _ _ _ E). by exists s'.
  - destruct (cons_getc_spec s a R) as (s' & E & R'). rewrite (bind_ok _ _ _ _ _ E). by exists s'.
  - destruct (putchar_spec c s a R) as (s' & E & R'). unfold putchar in E. rewrite (bind_ok _ _ _ _ _ E). by exists s'.
Qed.

(** ** sys_readline *)

(** The kernel while process [pid] reads, with the page tables [v] *)
Lemma p_console_cur w a : a_cur (p_console (w, a)).2 = a_cur a.
Proof.
  unfold p_console, notify_fold. generalize (seqZ 0 MAX_EVENT_SOURCES). intros l.
  assert (forall l wa, a_cur (foldl (fun wa' j => if decide (armed_key (esrc wa'.1 !!! j)) then p_notify j wa' else wa') wa l).2
    = a_cur wa.2) as H; [|apply H]. clear. induction l as [|j l IH]; intros wa; [done|]. cbn [foldl]. rewrite IH.
  case_decide; [|done]. unfold p_notify. by destruct (es_parent _).
Qed.

Definition reader_laws {V} (pid : Z) (v : V) : ConsKernelLaws (kst V).
Proof.
  refine {| ck_inv k := (exists a, so_rel (k_thr k) a /\ a_cur a = pid) /\ (k_vm k).1 = v |}.
  - intros k [(a & Ha & _) _]. exact (so_magic _ a Ha).
  - intros k [(a & Ha & Hc) Hv].
    destruct (waitobj_console_input_notify_sim (k_w k) (wt (k_w k)) a (conj eq_refl Ha)) as (w' & E & _ & Hs).
    exists (set_k_w w' k). unfold ck_notify, kst_console, in_w, zoom. rewrite E. split; [done|]. split; [|done].
    split; [|done]. eexists. split; [exact Hs|]. by rewrite p_console_cur.
  - done.
  - intros m k H. exact H.
Defined.

Lemma strnlen_line l : forall n m a,
  (length l <= n)%nat -> Forall (fun c => c <> 0) l ->
  (forall i c, l !! i = Some c -> m !!! (a + Z.of_nat i) = c) -> m !!! (a + Z.of_nat (length l)) = 0 ->
  strnlen a n m = Z.of_nat (length l).
Proof.
  induction l as [|c l IH]; intros [|n] m a Hn Hz Hl He; cbn [length] in *; try lia; cbn [strnlen].
  - done.
  - rewrite Z.add_0_r in He. by rewrite decide_False by tauto.
  - apply Forall_cons in Hz as [Hc Hz]. pose proof (Hl 0%nat c eq_refl) as H0. cbn in H0. rewrite Z.add_0_r in H0.
    rewrite decide_True by congruence. rewrite (IH n m (a + 1)); [lia|lia|done| |].
    + intros i x Hi. rewrite <-(Hl (S i) x Hi). f_equal. lia.
    + rewrite <-He. f_equal. lia.
Qed.

Section SysReadline.
Context {V : Type} `{!VmmOps V} `{!VmmLaws V}.

(** A line that was read is copied to the caller's buffer, its end included. *)
Lemma sys_readline_line linebuf tf (s s1 : cstate (kst V)) a pid (v : V) m line :
  let uva := syscall_get_arg2 tf in
  let len := Z.of_nat (length line) + 1 in
  readline linebuf (Some ">:"%string) s = Ok (linebuf, s1) -> console_rel (ConsKernelLaws0 := reader_laws pid v) s1 a -> a_mem a = m ->
  line_at linebuf m (line ++ [0]) -> Forall (fun c => 0 < c < 256) line -> (length line <= 1000)%nat ->
  0 < linebuf -> linebuf + BUFLEN <= VM_USERLO -> vm_inv v -> 0 < pid < NUM_IDS ->
  VM_USERLO <= uva -> uva + len <= VM_USERHI -> (forall i, 0 <= i < len -> present pid (uva + i) v) ->
  exists s', sys_readline linebuf tf s = Ok (set_result tf E_SUCC 0, s')
    /\ forall i c, (line ++ [0]) !! i = Some c ->
         (k_vm (ckern s')).2 !!! phys pid (uva + Z.of_nat i) (k_vm (ckern s')).1 = c.
Proof.
  intros uva len Er [R L] Em Hl Hb Hn H0 Hk Hv Hpid Hu1 Hu2 Hp.
  destruct (cr_inv _ _ R) as [(a0 & Ha0 & Hc0) Ev].
  assert (forall i c, (line ++ [0]) !! i = Some c -> m !!! (linebuf + Z.of_nat i) = c) as Hl'.
  { intros i c Hi. rewrite (Hl i c Hi). unfold u8. apply Z.mod_small.
    apply lookup_app_Some in Hi as [Hi|[_ Hi]]; [|apply list_lookup_singleton_Some in Hi as [_ <-]; lia].
    pose proof (Forall_lookup_1 _ _ _ _ Hb Hi). cbn in *. lia. }
  assert (strnlen linebuf 1000 m = Z.of_nat (length line)) as Es.
  { apply strnlen_line; [lia|apply (Forall_impl _ _ _ Hb); lia| |].
    - intros i c Hi. apply Hl'. by apply lookup_app_l_Some.
    - apply Hl'. by apply list_lookup_middle. }
  unfold sys_readline. rewrite (bind_ok _ _ _ _ _ Er). rewrite decide_False by lia. mrun.
  rewrite (cr_mem _ _ R), Em, Es. fold len uva. unfold in_kst at 1, zoom. rewrite (in_get_curid _ a0 Ha0), Hc0.
  cbn [ckern set_ckern]. unfold in_kst, zoom, in_vm, zoom. destruct (k_vm (ckern s1)) as [v0 m0] eqn:Ekv. cbn [fst] in Ev. subst v0.
  assert (m0 = m) as ->.
  { pose proof (cr_mem _ _ R) as Hm. cbn in Hm. rewrite Ekv in Hm. cbn in Hm. congruence. }
  destruct (pt_copyout_spec linebuf pid uva len v m) as (v' & m' & E & Hv' & Hkp & Hw); [done|lia|done|done|done|lia|unfold BUFLEN in *; lia|].
  change (ckern (set_ckern (ckern s1) s1)) with (ckern s1). rewrite Ekv, E. cbn beta iota.
  rewrite decide_False by tauto. eexists. split; [done|].
  destruct Hw as (W1 & _ & _); [intros i Hi; eapply kept_present; [done|by apply Hp]|].
  intros i c Hi. cbn. pose proof (lookup_lt_Some _ _ _ Hi) as Hlt. rewrite length_app in Hlt. cbn in Hlt.
  rewrite W1 by lia. by apply Hl'.
Qed.
End SysReadline.

(** ** Typing a line *)

(** Nothing unread, no modifier key held, the keyboard holds typed text *)
Definition typing (text : list Z) (a : acon) : Prop :=
  a_q a = [] /\ a_kbd a = typed text /\ a_ser a = [] /\ a_shift a = 0.

Lemma a_print_shift l : forall a, a_shift (a_print l a) = a_shift a /\ a_kbd (a_print l a) = a_kbd a.
Proof. unfold a_print. induction l as [|c l IH]; intros a; [done|]. exact (IH (a_putc (s8 c) a)). Qed.

Lemma typing_prompt text prompt a : typing text a -> typing text (a_prompt prompt a).
Proof.
  intros (H1 & H2 & H3 & H4). destruct prompt as [p|]; [|done]. cbn [a_prompt].
  destruct (a_print_input (chars p) a) as (E1 & E2 & _). destruct (a_print_shift (chars p) a) as (E3 & E4).
  unfold typing. rewrite E1, E2, E3, E4. done.
Qed.

(** The keys as they come out of the drivers *)
Lemma typing_drain text a :
  typing text a -> Forall (fun c => printable c \/ c = 10) text -> (length text < 512)%nat ->
  a_drain a = set_a_kbd [] (set_a_q text a).
Proof.
  intros (H1 & H2 & H3 & H4) Hp Hl. unfold a_drain.
  assert (a_serial_intr a = a) as ->.
  { unfold a_serial_intr. destruct (a_serial a); [|done]. rewrite H3. cbn. rewrite <-H3. by destruct a. }
  unfold a_keyboard_intr. rewrite H2, (scans_decode _ a 0 text) by (rewrite H4; by apply typed_decode).
  rewrite enqs_room.
  - rewrite H1. cbn. unfold set_a_shift, set_a_kbd, set_a_q. cbn. by rewrite H4.
  - rewrite H1. cbn. lia.
  - apply (Forall_impl _ _ _ Hp). unfold printable. lia.
Qed.

Module ConsoleProps.

(** ** A console for the witnesses: nothing unread, an empty screen *)
Definition cons_with (v : pages) (kq sq : list Z) : cstate (kst pages) :=
  mk_cstate free_lock ∅ 0 0 0 true CGA_BASE CGA_BUF 0 0
    (mk_devices kq true sq 0 3 true 0 ∅ ∅ []) (user_kst (v, ∅) no_msgs).
Definition cons0 : list Z -> list Z -> cstate (kst pages) := cons_with no_pages.
Definition acon0 (kq sq : list Z) : acon := mk_acon [] kq sq 0 true (mk_term (replicate 2000 0) 0) [] ∅.

Lemma cons_with_rel (L : ConsKernelLaws (kst pages)) v kq sq :
  ck_inv (user_kst (v, ∅) no_msgs) -> Forall byte kq -> Forall byte sq -> console_rel (cons_with v kq sq) (acon0 kq sq).
Proof.
  intros Hi Hk Hs. split; [|done]. split; try done.
  - split; [cbn; lia|done|done|]. intros i c Hq. cbn [a_q acon0] in Hq. by rewrite lookup_nil in Hq.
  - split; [|done]. split; [done|]. split.
    + split; [apply length_replicate|]. by apply Forall_replicate.
    + intros i Hr. cbn [dev vram cons_with cells a_term acon0]. rewrite lookup_total_empty.
      symmetry. apply lookup_total_replicate_2. unfold CRT_SIZE, CRT_ROWS, CRT_COLS in Hr. lia.
Qed.
Lemma cons0_rel kq sq : Forall byte kq -> Forall byte sq -> console_rel (cons0 kq sq) (acon0 kq sq).
Proof. apply cons_with_rel. exists WaitProps.demo_abs1. exact WaitProps.demo_sched_abs. Qed.

(** C20 (refinement): scan codes and serial bytes that arrive, interrupts,
    reads and writes of characters in any order behave as on a queue of
    unread characters, a terminal of 25 lines and a serial line: every
    operation returns, and the characters read are those of the queue (whose
    512th unread character loses all of them). *)
Theorem console_refines_queue {T} `{!ConsKernel T} `{!ConsKernelLaws T} (os : list cop) (s : cstate T) a :
  console_rel s a -> Forall cop_ok os ->
  exists s', crun os s = Ok ((arun os a).1, s') /\ console_rel s' (arun os a).2.
Proof.
  revert s a. induction os as [|o os IH]; intros s a R Ho; [by exists s|]. apply Forall_cons in Ho as [Ho Hos].
  destruct (crun1_spec o s a R Ho) as (s1 & E1 & R1). cbn [crun arun]. rewrite (bind_ok _ _ _ _ _ E1).
  destruct (arun1 o a) as [r a1]. cbn [fst snd] in *. destruct (IH s1 a1 R1 Hos) as (s2 & E2 & R2).
  rewrite (bind_ok _ _ _ _ _ E2). destruct (arun os a1) as [l a2]. by exists s2.
Qed.

(** The keys h and i, the second with shift *)
Lemma console_refines_queue_witness :
  exists s', crun [Press 0x23; Press 0xA3; Press 0x2A; Press 0x17; KeyboardIntr; Getc; Putc 104; Receive 33; Getc; Getc; Getc]
      (cons0 [] []) = Ok ([104; 73; 33; 0], s').
Proof.
  destruct (console_refines_queue
    [Press 0x23; Press 0xA3; Press 0x2A; Press 0x17; KeyboardIntr; Getc; Putc 104; Receive 33; Getc; Getc; Getc]
    (cons0 [] []) (acon0 [] []) (cons0_rel _ _ (Forall_nil_2 _) (Forall_nil_2 _))) as (s' & E & _).
  - repeat apply Forall_cons_2; try exact I; try exact (Forall_nil_2 _); unfold cop_ok, byte; lia.
  - exists s'. exact E.
Defined.

(** C37 (equivalence): [readline] is a line editor.  On the characters that
    are unread when it starts, [edit] tells whether it returns the edited line
    (in [linebuf], ended by a zero byte, echoed to the screen and the serial
    line, with the characters after it left unread), fails with a null
    pointer on a negative character, or waits for more. *)
Theorem readline_is_line_editor {T} `{!ConsKernel T} `{!ConsKernelLaws T} (linebuf : Z) prompt (s : cstate T) a :
  console_rel s a -> nonzero a ->
  let b := a_drain (a_prompt prompt a) in
  readline_post linebuf b (a_mem a) (edit [] (a_q b)) (readline linebuf prompt s).
Proof. apply readline_spec. Qed.

(** "ab", backspace, "c", Enter on the serial line *)
Lemma readline_is_line_editor_witness :
  exists s' m', readline 5000 (Some ">:"%string) (cons0 [] [97; 98; 8; 99; 13]) = Ok (5000, s')
    /\ line_at 5000 m' [97; 99; 0]
    /\ ser_out (dev s') = [62; 58; 97; 98; 8; 99; 13; 10].
Proof.
  set (a := acon0 [] [97; 98; 8; 99; 13]).
  assert (edit [] (a_q (a_drain (a_prompt (Some ">:"%string) a))) = (Line [97; 99] [], [97; 98; 8; 99; 10])) as Ee
    by (vm_compute; reflexivity).
  pose proof (readline_is_line_editor 5000 (Some ">:"%string) (cons0 [] [97; 98; 8; 99; 13]) a) as H.
  cbv zeta in H. rewrite Ee in H. destruct H as (s' & m' & E & [R _] & Hl & _).
  - apply cons0_rel; [exact (Forall_nil_2 _)|]. apply (bool_decide_unpack _). by vm_compute.
  - exact (Forall_nil_2 _).
  - exists s', m'. split; [exact E|]. split; [exact Hl|]. rewrite (cr_out _ _ R). vm_compute. reflexivity.
Defined.

(** C23 (roundtrip): a line of at most 510 printable characters typed on a US
    keyboard (the scan codes of [us_keys], shift and release codes included) and
    ended with Enter is what [sys_readline] stores in the mapped buffer of the
    calling user process, with a zero byte after it. *)
Theorem typed_line_reaches_user `{!VmmOps V} `{!VmmLaws V} linebuf tf (s : cstate (kst V)) a pid (v : V) text :
  let uva := syscall_get_arg2 tf in
  console_rel (ConsKernelLaws0 := reader_laws pid v) s a -> typing (text ++ [10]) a ->
  Forall printable text -> (length text <= 510)%nat ->
  0 < linebuf -> linebuf + BUFLEN <= VM_USERLO -> vm_inv v -> 0 < pid < NUM_IDS ->
  VM_USERLO <= uva -> uva + (Z.of_nat (length text) + 1) <= VM_USERHI ->
  (forall i, 0 <= i < Z.of_nat (length text) + 1 -> present pid (uva + i) v) ->
  exists s', sys_readline linebuf tf s = Ok (set_result tf E_SUCC 0, s')
    /\ forall i c, (text ++ [0]) !! i = Some c ->
         (k_vm (ckern s')).2 !!! phys pid (uva + Z.of_nat i) (k_vm (ckern s')).1 = c.
Proof.
  intros uva R Ht Hp Hl H0 Hk Hv Hpid Hu1 Hu2 Hpr.
  assert (nonzero a) as Hnz by (destruct Ht as [E _]; unfold nonzero; by rewrite E).
  pose proof (readline_spec (ConsKernelLaws0 := reader_laws pid v) linebuf (Some ">:"%string) s a R Hnz) as H.
  cbv zeta in H. rewrite (typing_drain (text ++ [10])) in H.
  - cbn [a_q set_a_kbd set_a_q] in H. rewrite (edit_text text []) in H; [|done|cbn; lia].
    destruct H as (s1 & m1 & E1 & R1 & L1 & _). cbn [app] in L1.
    apply (sys_readline_line linebuf tf s s1 _ pid v m1 text E1 R1 eq_refl L1); try done; [|lia].
    apply (Forall_impl _ _ _ Hp). unfold printable. lia.
  - by apply typing_prompt.
  - apply Forall_app_2; [|apply Forall_singleton; by right]. apply (Forall_impl _ _ _ Hp). by left.
  - rewrite length_app. cbn. lia.
Qed.

(** "Hi!" and Enter, read by process 1 *)
Lemma typed_line_reaches_user_witness :
  exists s', sys_readline 5000 (demo_tf 0x40000010 0) (cons_with SyscallProps.hi_pages (typed [72; 105; 33; 10]) [])
      = Ok (set_result (demo_tf 0x40000010 0) E_SUCC 0, s')
    /\ (k_vm (ckern s')).2 !!! phys 1 0x40000012 (k_vm (ckern s')).1 = 33.
Proof.
  destruct (typed_line_reaches_user 5000 (demo_tf 0x40000010 0) (cons_with SyscallProps.hi_pages (typed [72; 105; 33; 10]) [])
    (acon0 (typed [72; 105; 33; 10]) []) 1 SyscallProps.hi_pages [72; 105; 33]) as (s' & E & H).
  - apply cons_with_rel; [|apply (bool_decide_unpack _); by vm_compute|exact (Forall_nil_2 _)].
    split; [|reflexivity]. exists WaitProps.demo_abs1. split; [exact WaitProps.demo_sched_abs|reflexivity].
  - split; [reflexivity|]. split; [reflexivity|]. split; reflexivity.
  - repeat apply Forall_cons_2; try exact (Forall_nil_2 _); unfold printable; lia.
  - cbn. lia.
  - lia.
  - unfold BUFLEN, VM_USERLO. lia.
  - exact SyscallProps.hi_pages_inv.
  - unfold NUM_IDS. lia.
  - vm_compute. discriminate.
  - vm_compute. discriminate.
  - intros i Hi. cbn [length] in Hi. change (syscall_get_arg2 _) with 0x40000010.
    assert (i = 0 \/ i = 1 \/ i = 2 \/ i = 3) as [-> |[-> |[-> | ->]]] by lia; vm_compute; repeat split; discriminate.
  - exists s'. split; [exact E|]. exact (H 2%nat 33 eq_refl).
Defined.



(** A special key ends a read with a null pointer.  [getchar]
    gives the codes of the cursor keys as negative characters, [readline]
    takes those for read errors and returns NULL, and [sys_readline] passes
    it to [strnlen]. *)
Theorem special_key_breaks_readline `{!VmmOps V} linebuf tf (s : cstate (kst V)) a rest echo :
  console_rel s a -> nonzero a ->
  edit [] (a_q (a_drain (a_prompt (Some ">:"%string) a))) = (ReadError rest, echo) ->
  sys_readline linebuf tf s = Undef NullDeref.
Proof.
  intros R Hnz E. pose proof (readline_spec linebuf (Some ">:"%string) s a R Hnz) as H. cbv zeta in H. rewrite E in H.
  destruct H as (s1 & m1 & E1 & _). unfold sys_readline. rewrite (bind_ok _ _ _ _ _ E1). done.
Qed.

(** The key "cursor up" *)
Lemma special_key_breaks_readline_witness :
  sys_readline 5000 (demo_tf 0x40000000 0) (cons0 [0xE0; 0x48] []) = Undef NullDeref.
Proof.
  apply (special_key_breaks_readline 5000 (demo_tf 0x40000000 0) (cons0 [0xE0; 0x48] []) (acon0 [0xE0; 0x48] []) [] []).
  - apply cons0_rel; [|exact (Forall_nil_2 _)]. apply (bool_decide_unpack _). by vm_compute.
  - exact (Forall_nil_2 _).
  - vm_compute. reflexivity.
Defined.

(** When 512 characters are unread, the ring looks empty and they are lost. *)
Lemma full_ring_reads_as_empty {T} `{!ConsKernel T} `{!ConsKernelLaws T} (s : cstate T) a (cs : list Z) :
  console_rel s a -> a_q a = [] -> a_kbd a = [] -> a_serial a = true -> a_ser a = cs ->
  length cs = 512%nat -> Forall (fun c => 0 < c < 128) cs ->
  exists s' a', cons_getc s = Ok (0, s') /\ console_rel s' a' /\ a_q a' = [].
Proof.
  intros R Hq Hkb Hs Ha Hl Hc. destruct (cons_getc_spec s a R) as (s' & E & R').
  destruct (exists_last (l := cs)) as (cs' & c & Ecs); [by destruct cs|].
  assert (length cs' = 511%nat) as Hl' by (rewrite Ecs, length_app in Hl; cbn in Hl; lia).
  rewrite Ecs in Hc. apply Forall_app in Hc as [Hc' Hc]. rewrite Forall_singleton in Hc.
  assert (a_getc a = (0, set_a_ser [] (set_a_q [] a))) as Eg.
  { unfold a_getc. assert (a_serial_intr a = set_a_ser [] (set_a_q [] a)) as ->.
    { unfold a_serial_intr. rewrite Hs, Ha, Ecs, foldl_app, (enqs_room cs' a); [|rewrite Hq; cbn; lia|done].
      cbn [foldl]. cbn beta in Hc. rewrite Hq. unfold a_enq. rewrite decide_False by lia. unfold enq. cbn [a_q set_a_q app].
      rewrite decide_True by done. done. }
    unfold a_keyboard_intr. cbn [a_kbd set_a_ser set_a_q]. rewrite Hkb. cbn. unfold set_a_ser, set_a_q, set_a_kbd. cbn. by rewrite Hkb. }
  rewrite Eg in E, R'. exists s', (set_a_ser [] (set_a_q [] a)). done.
Qed.

(** [video_init] announces the port of the display controller before
    [terminal.crt_buf] is set: the first character is written through a null
    pointer. *)
Lemma video_init_prints_through_null {T} `{!ConsKernel T} (s : cstate T) :
  crt_buf s = 0 -> video_init s = Undef NullDeref.
Proof.
  assert (forall s1 : cstate T, crt_buf s1 = 0 -> video_putc 97 s1 = Undef NullDeref) as Hv.
  { intros s1 E1. unfold video_putc. set (rec := video_putc_body (fun _ => fail Hang)). unfold video_putc_body.
    rewrite glyph_bits, land_ff, glyph_mod. change (97 mod 256) with 97. rewrite !decide_False by done.
    unfold cell_write, put_crt_pos. mrun. cbn [crt_buf set_crt_pos]. rewrite E1. done. }
  assert (forall (s1 : cstate T) l, crt_buf s1 = 0 -> print_text (97 :: l) s1 = Undef NullDeref) as Hp.
  { intros s1 l E1. unfold print_text. cbn [for_each]. change (s8 97) with 97. unfold cons_putc.
    destruct (serial_putc_spec 97 s1) as (s2 & E2 & Hd & _). injection Hd as Hd _ _ _ _.
    unfold mbind, M_bind. rewrite E2. by rewrite (Hv s2) by congruence. }
  intros Eb. unfold video_init, vread, vwrite. mrun.
  rewrite !(decide_True (P := MONO_BUF <= CGA_BUF < 0xC0000)) by (unfold MONO_BUF, CGA_BUF; lia). mrun.
  case_decide; [change (chars "addr_6845:3b4" ++ [10]) with (97 :: tail (chars "addr_6845:3b4" ++ [10]))
               |change (chars "addr_6845:3d4" ++ [10]) with (97 :: tail (chars "addr_6845:3d4" ++ [10]))].
  all: by rewrite Hp.
Qed.
End ConsoleProps.
