(* ===== verification/Monitor.v ===== *)
(** * The kernel monitor (lib/monitor.c)

    A command interpreter on the console of Console.v: a line is read, cut into
    words in place, and the first word selects a command.  Both commands return 0,
    so that the monitor never ends.  Then its theory: reading is the line editor
    of ConsoleSpec with other limits and echo, and what is printed is the answer
    of a reference interpreter to the words of the line. *)

From S2P Require Import Prelude DList Machine Thread Scheduler WaitObj PMM KString Bytes Printfmt Pmap Elf Ipc Syscall Console ConsoleSpec.

Definition MAXARGS : Z := 16.
(** [WHITESPACE] *)
Definition whitespace : mem := list_to_map [(0, 9); (1, 13); (2, 10); (3, 32); (4, 0)].
(** [buf] of [monitor_readline] *)
Definition MONBUF : Z := 256.

Section Parse.
(** A string of the monitor's buffer has fewer than 256 characters. *)
Definition cmd_fuel : nat := Z.to_nat MONBUF.

(** [while ( *buf && strchr(WHITESPACE, *buf)) *buf++ = 0;] *)
Fixpoint gobble (fuel : nat) (buf : Z) : M mem Z :=
  match fuel with
  | O => fail Hang
  | S fuel =>
      c ← gets (fun m : mem => m !!! buf);
      if decide (c = 0) then mret buf
      else
        w ← lift (strchr 5 0 c whitespace);
        match w with
        | Some _ => modify (fun m : mem => <[buf := 0]> m) ;; gobble fuel (buf + 1)
        | None => mret buf
        end
  end.

(** [while ( *buf && !strchr(WHITESPACE, *buf)) buf++;] *)
Fixpoint scan_arg (fuel : nat) (buf : Z) : M mem Z :=
  match fuel with
  | O => fail Hang
  | S fuel =>
      c ← gets (fun m : mem => m !!! buf);
      if decide (c = 0) then mret buf
      else
        w ← lift (strchr 5 0 c whitespace);
        match w with Some _ => mret buf | None => scan_arg fuel (buf + 1) end
  end.

(** The loop of [runcmd]; [None] when there are too many arguments *)
Fixpoint parse_args (fuel : nat) (buf : Z) (argv : list Z) : M mem (option (list Z)) :=
  match fuel with
  | O => fail Hang
  | S fuel =>
      buf ← gobble cmd_fuel buf;
      c ← gets (fun m : mem => m !!! buf);
      if decide (c = 0) then mret (Some argv)
      else if decide (Z.of_nat (length argv) = MAXARGS - 1) then mret None
      else
        end_ ← scan_arg cmd_fuel buf;
        parse_args fuel end_ (argv ++ [buf])
  end.
End Parse.

Section Monitor.
Context {T : Type} `{!ConsKernel T}.
(** The addresses of the names of the commands, of [buf] and of the symbols
    that the linker defines *)
Context (name : Z -> Z) (buf : Z) (start etext edata end_ : Z).
Notation C := (M (cstate T)).

Definition on_kmem {A} (m : M mem A) : C A :=
  zoom (fun s => ck_mem (ckern s)) (fun m s => set_ckern (ck_set_mem m (ckern s)) s) m.

(** A number as [%08x] or [%d] prints it *)
Definition shown (num base width padc : Z) : list Z :=
  match number collect num base width padc [] with Ok (_, l) => l | _ => [] end.

Definition shown_int (num : Z) : list Z :=
  if decide (num < 0) then 45 :: shown (u64 (- num)) 10 (-1) 32 else shown (u64 num) 10 (-1) 32.

Definition help_text : list Z :=
  chars "help - Display this list of commands" ++ [10] ++ chars "kerninfo - Display information about the kernel" ++ [10].
Definition symbol_line (label : string) (a : Z) : list Z := chars label ++ shown (u32 a) 16 8 48 ++ [10].
Definition kerninfo_text : list Z :=
  chars "Special kernel symbols:" ++ [10]
  ++ symbol_line "  start  " start ++ symbol_line "  etext  " etext ++ symbol_line "  edata  " edata ++ symbol_line "  end    " end_
  ++ chars "Kernel executable memory footprint: " ++ shown_int (Z.quot (s32 (Types.roundup (u32 (end_ - start)) 1024)) 1024) ++ chars "KB" ++ [10].

Definition mon_help : C Z := print_text help_text ;; mret 0.
Definition mon_kerninfo : C Z := print_text kerninfo_text ;; mret 0.

(** [commands[i].func] *)
Definition command (i : Z) : C Z := if decide (i = 0) then mon_help else mon_kerninfo.

(** A string as [%s] prints it *)
Fixpoint string_at (fuel : nat) (m : mem) (p : Z) : list Z :=
  match fuel with
  | O => []
  | S fuel => if decide (m !!! p = 0) then [] else m !!! p :: string_at fuel m (p + 1)
  end.

Definition too_many : list Z := chars "Too many arguments (max 16)" ++ [10].
Definition unknown (w : list Z) : list Z := chars "Unknown command '" ++ w ++ chars "'" ++ [10].

Definition runcmd (line : Z) : C Z :=
  argv ← on_kmem (parse_args cmd_fuel line []);
  match argv with
  | None => print_text too_many ;; mret 0
  | Some [] => mret 0
  | Some (arg0 :: _) =>
      r ← first_of [0; 1] (fun i =>
        d ← on_kmem (fun m => lift (strcmp cmd_fuel arg0 (name i) m) m);
        if decide (d = 0) then v ← command i; mret (Some v) else mret None);
      match r with
      | Some v => mret v
      | None =>
          w ← on_kmem (gets (fun m => string_at cmd_fuel m arg0));
          print_text (unknown w) ;; mret 0
      end
  end.

Definition mon_set (i c : Z) : C unit :=
  check_index MONBUF i ;;
  modify (fun s => set_ckern (ck_set_mem (<[buf + i := u8 c]> (ck_mem (ckern s))) (ckern s)) s).

Fixpoint monitor_readline_loop (fuel : nat) (i : Z) : C Z :=
  match fuel with
  | O => fail Hang
  | S fuel =>
      c ← getchar;
      if decide (c < 0) then
        print_text (chars "read error: %e" ++ [10]) ;;
        mret 0
      else if decide ((c = 8 \/ c = 127) /\ i > 0) then
        print_text [8; 32; 8] ;;
        monitor_readline_loop fuel (i - 1)
      else if decide (c >= 32 /\ i < MONBUF - 1) then
        print_text [c] ;;
        mon_set i c ;;
        monitor_readline_loop fuel (i + 1)
      else if decide (c = 10 \/ c = 13) then
        print_text [10] ;;
        mon_set i 0 ;;
        mret buf
      else monitor_readline_loop fuel i
  end.

Definition monitor_readline (prompt : string) : C Z :=
  print_text (chars prompt) ;;
  fuel ← gets readline_fuel;
  monitor_readline_loop fuel 0.

Definition welcome : list Z :=
  let stars := [10] ++ replicate 40 42 ++ [10; 10] in
  stars ++ chars "Welcome to the mCertiKOS kernel monitor!" ++ [10] ++ stars ++ chars "Type 'help' for a list of commands." ++ [10].

(** One pass of the loop; [true] when the monitor ends *)
Definition monitor_pass : C bool :=
  line ← monitor_readline "$> ";
  if decide (line <> 0) then r ← runcmd line; mret (bool_decide (r < 0)) else mret false.

(** [n] passes *)
Fixpoint monitor_loop (n : nat) : C unit :=
  match n with
  | O => fail Hang
  | S n => q ← monitor_pass; match q with true => mret tt | false => monitor_loop n end
  end.
Definition monitor (n : nat) : C unit := print_text welcome ;; monitor_loop n.
End Monitor.

(** * Theory *)

(** ** Words *)
Definition space (c : Z) : Prop := c = 9 \/ c = 13 \/ c = 10 \/ c = 32.
#[export] Instance space_dec c : Decision (space c).
Proof. unfold space. apply _. Defined.

(** A line is cut at every space; the words are the pieces that are not empty. *)
Fixpoint pieces (l : list Z) : list (list Z) :=
  match l with
  | [] => [[]]
  | c :: l => if decide (space c) then [] :: pieces l else match pieces l with w :: t => (c :: w) :: t | [] => [[c]] end
  end.
Definition words (l : list Z) : list (list Z) := filter (fun w => w <> []) (pieces l).

Lemma words_space c l : space c -> words (c :: l) = words l.
Proof. intros H. unfold words. cbn [pieces]. rewrite decide_True by done. by rewrite filter_cons_False by tauto. Qed.
Lemma pieces_word w l : Forall (fun c => ~ space c) w -> pieces (w ++ l) = match pieces l with v :: t => (w ++ v) :: t | [] => [] end.
Proof.
  induction 1 as [|c w Hc Hw IH]; cbn [app pieces]; [by destruct l as [|x l]; cbn; [|case_decide; [|destruct (pieces l)]]|].
  rewrite decide_False, IH by done. destruct l as [|x l]; cbn; [done|]. case_decide; [done|]. by destruct (pieces l).
Qed.
(** A word ends at the end of the line or at a space. *)
Lemma words_word w l :
  w <> [] -> Forall (fun c => ~ space c) w -> (forall c r, l = c :: r -> space c) -> words (w ++ l) = w :: words l.
Proof.
  intros Hw Hs Hl. unfold words. rewrite pieces_word by done. destruct l as [|c l]; cbn [pieces].
  - rewrite app_nil_r. by rewrite filter_cons_True.
  - rewrite (decide_True (P := space c)) by (by apply (Hl c l)). rewrite app_nil_r, filter_cons_True by done.
    by rewrite (filter_cons_False _ []) by tauto.
Qed.

Lemma strchr_space c : 0 < c < 256 -> space c -> exists p, strchr 5 0 c whitespace = Ok (Some p).
Proof. intros _ [->|[->|[->| ->]]]; eexists; by vm_compute. Qed.
Lemma strchr_other c : 0 < c < 256 -> ~ space c -> strchr 5 0 c whitespace = Ok None.
Proof.
  intros H0 Hs. unfold space in Hs. cbn [strchr].
  change (whitespace !!! 0) with 9. change (whitespace !!! (0 + 1)) with 13. change (whitespace !!! (0 + 1 + 1)) with 10.
  change (whitespace !!! (0 + 1 + 1 + 1)) with 32. change (whitespace !!! (0 + 1 + 1 + 1 + 1)) with 0.
  by repeat (rewrite decide_False by lia).
Qed.

(** ** Strings in memory *)

(** The characters [l], then a zero, at [p] *)
Record text_at (m : mem) (p : Z) (l : list Z) : Prop := {
  cs_char i c : l !! i = Some c -> m !!! (p + Z.of_nat i) = c /\ 0 < c < 256;
  cs_end : m !!! (p + Z.of_nat (length l)) = 0;
}.
Lemma text_cons m p c l : text_at m p (c :: l) <-> m !!! p = c /\ 0 < c < 256 /\ text_at m (p + 1) l.
Proof.
  split.
  - intros [H He]. destruct (H O c eq_refl) as [H0 Hc]. rewrite Z.add_0_r in H0. split; [done|]. split; [done|]. split.
    + intros i x Hi. destruct (H (S i) x Hi) as [<- ?]. split; [f_equal; lia|done].
    + rewrite <- He. cbn [length]. f_equal. lia.
  - intros (H0 & Hc & [H He]). split.
    + intros [|i] x Hi; [injection Hi as <-; by rewrite Z.add_0_r|]. destruct (H i x Hi) as [<- ?]. split; [f_equal; lia|done].
    + rewrite <- He. cbn [length]. f_equal. lia.
Qed.
Lemma text_nil m p : text_at m p [] <-> m !!! p = 0.
Proof. split; [intros [_ H]; by rewrite Z.add_0_r in H|]. intros H. split; [done|]. by rewrite Z.add_0_r. Qed.
Lemma text_tail m p l1 l2 : text_at m p (l1 ++ l2) -> text_at m (p + Z.of_nat (length l1)) l2.
Proof.
  revert p. induction l1 as [|c l1 IH]; intros p; cbn [app length]; [by rewrite Z.add_0_r|].
  intros (_ & _ & H)%text_cons. apply IH in H. replace (p + Z.of_nat (S (length l1))) with (p + 1 + Z.of_nat (length l1)) by lia. done.
Qed.
Lemma text_same m m' p l : (forall x, p <= x <= p + Z.of_nat (length l) -> m' !!! x = m !!! x) -> text_at m p l -> text_at m' p l.
Proof.
  intros E [H He]. split.
  - intros i c Hi. pose proof (lookup_lt_Some _ _ _ Hi). rewrite E by lia. by apply H.
  - by rewrite E by lia.
Qed.

(** ** Cutting the line *)

(** The line ends here, or a space follows. *)
Definition at_end (l : list Z) : Prop := forall c r, l = c :: r -> space c.
Definition at_word (l : list Z) : Prop := forall c r, l = c :: r -> ~ space c.

Lemma lift_bind {S A B} (r : result A) a (k : A -> M S B) s : r = Ok a -> (lift r ≫= k) s = k a s.
Proof. by intros ->. Qed.

Lemma gobble_spec l : forall fuel p m, text_at m p l -> (length l < fuel)%nat ->
  exists r m', let q := p + Z.of_nat (length l - length r) in
    gobble fuel p m = Ok (q, m') /\ text_at m' q r /\ words r = words l /\ at_word r /\ (length r <= length l)%nat
    /\ (forall x, x < p \/ q <= x -> m' !!! x = m !!! x) /\ (at_end l -> m' !!! p = 0).
Proof.
  induction l as [|c l IH]; intros [|fuel] p m H Hf; cbn [length] in Hf; try lia; cbn [gobble]; rewrite gets_bind.
  - apply text_nil in H. rewrite decide_True by done. exists [], m. cbn. rewrite Z.add_0_r. split_and!; try done. by apply text_nil.
  - apply text_cons in H as (Hc & H0 & H). rewrite Hc, decide_False by lia. destruct (decide (space c)) as [Hs|Hs].
    + destruct (strchr_space c H0 Hs) as [a Ea]. rewrite (lift_bind _ _ _ _ Ea). rewrite modify_bind.
      destruct (IH fuel (p + 1) (<[p := 0]> m)) as (r & m' & E & C & W & A & L & Sm & _); [|lia|].
      { apply (text_same m); [|done]. intros x Hx. rewrite lookup_total_insert_ne by lia. done. }
      exists r, m'. cbn [length]. replace (p + Z.of_nat (S (length l) - length r)) with (p + 1 + Z.of_nat (length l - length r)) by lia.
      split_and!; try done; [by rewrite words_space|lia| |].
      * intros x Hx. rewrite Sm by lia. by rewrite lookup_total_insert_ne by lia.
      * intros _. rewrite Sm by lia. by rewrite lookup_total_insert_eq.
    + rewrite (lift_bind _ _ _ _ (strchr_other c H0 Hs)). exists (c :: l), m. cbv zeta.
      rewrite Nat.sub_diag, Z.add_0_r. split_and!; try done; [apply text_cons; done|congruence|].
      intros He. by specialize (He c l eq_refl).
Qed.

Lemma scan_spec l : forall fuel p m, text_at m p l -> (length l < fuel)%nat ->
  exists w r, l = w ++ r /\ scan_arg fuel p m = Ok (p + Z.of_nat (length w), m) /\ Forall (fun c => ~ space c) w /\ at_end r.
Proof.
  induction l as [|c l IH]; intros [|fuel] p m H Hf; cbn [length] in Hf; try lia; cbn [scan_arg]; rewrite gets_bind.
  - apply text_nil in H. rewrite decide_True by done. exists [], []. cbn. rewrite Z.add_0_r. by split_and!.
  - apply text_cons in H as (Hc & H0 & H). rewrite Hc, decide_False by lia. destruct (decide (space c)) as [Hs|Hs].
    + destruct (strchr_space c H0 Hs) as [a Ea]. rewrite (lift_bind _ _ _ _ Ea).
      exists [], (c :: l). cbn. rewrite Z.add_0_r. split_and!; try done. intros d r [= <- <-]. done.
    + rewrite (lift_bind _ _ _ _ (strchr_other c H0 Hs)).
      destruct (IH fuel (p + 1) m H ltac:(lia)) as (w & r & -> & E & W & A). exists (c :: w), r.
      split_and!; try done; [|by constructor]. rewrite E. do 2 f_equal. cbn [length]. lia.
Qed.

(** What [parse_args] returns for the words [ws] after the arguments [argv] *)
Definition parsed (argv : list Z) (ws : list (list Z)) (m' : mem) (r : option (list Z)) : Prop :=
  if decide (length argv + length ws <= 15)%nat then exists ps, r = Some (argv ++ ps) /\ Forall2 (text_at m') ps ws else r = None.

Lemma parse_spec fuel : forall l p argv m, text_at m p l -> (length l < fuel)%nat -> (length l < 256)%nat -> (length argv <= 15)%nat ->
  exists r m', parse_args fuel p argv m = Ok (r, m') /\ parsed argv (words l) m' r
    /\ (forall x, ~ (p <= x < p + Z.of_nat (length l)) -> m' !!! x = m !!! x) /\ (at_end l -> m' !!! p = 0).
Proof.
  induction fuel as [|fuel IH]; intros l p argv m H Hf H2 Ha; [lia|]. cbn [parse_args].
  destruct (gobble_spec l cmd_fuel p m H ltac:(change cmd_fuel with 256%nat; lia)) as (r & m1 & E & C & W & A & L & Sm & Z0).
  cbv zeta in *. set (q := p + Z.of_nat (length l - length r)) in *. rewrite (bind_ok _ _ _ _ _ E), gets_bind. rewrite <- W.
  destruct r as [|c r].
  { apply text_nil in C. rewrite decide_True by done. exists (Some argv), m1. split; [done|]. split; [|split; [|done]].
    - unfold parsed. change (words []) with (@nil (list Z)). rewrite decide_True by (cbn; lia). exists []. by rewrite app_nil_r.
    - intros x Hx. apply Sm. unfold q. cbn [length]. lia. }
  pose proof C as C0. apply text_cons in C0 as (Hc & H0 & _). rewrite Hc, decide_False by lia.
  destruct (scan_spec (c :: r) cmd_fuel q m1 C ltac:(change cmd_fuel with 256%nat; lia)) as (w & r' & Ew & E2 & Hw & He).
  assert (w <> []) as Hne. { intros ->. cbn in Ew. subst r'. by apply (A c r eq_refl), (He c r). }
  assert (words (c :: r) = w :: words r') as Ww by (rewrite Ew; by apply words_word).
  assert (length r = length w + length r' - 1)%nat as Elen by (apply (f_equal length) in Ew; rewrite length_app in Ew; cbn in Ew; lia).
  assert (0 < length w)%nat as Hlw by (destruct w; [done|cbn; lia]). cbn [length] in L. rewrite Ww.
  destruct (decide (Z.of_nat (length argv) = MAXARGS - 1)) as [Hmax|Hmax]; unfold MAXARGS in Hmax.
  { exists None, m1. split; [done|]. split; [unfold parsed; cbn; by rewrite decide_False by lia|]. split; [|done].
    intros x Hx. apply Sm. unfold q. cbn [length]. lia. }
  rewrite (bind_ok _ _ _ _ _ E2).
  assert (text_at m1 (q + Z.of_nat (length w)) r') as C' by (apply text_tail; by rewrite <- Ew).
  destruct (IH r' (q + Z.of_nat (length w)) (argv ++ [q]) m1 C') as (res & m2 & E3 & P3 & S3 & Z3); [lia|lia|rewrite length_app; cbn; lia|].
  assert (q + Z.of_nat (length w) + Z.of_nat (length r') = p + Z.of_nat (length l)) as Hend by (unfold q; cbn [length]; lia).
  exists res, m2. split; [done|]. split; [|split].
  - unfold parsed in *. rewrite length_app in P3. cbn [length] in *. destruct (decide _) as [Hd|Hd] in P3;
      [rewrite decide_True by lia|by rewrite decide_False by lia]. destruct P3 as (ps & -> & F). exists (q :: ps).
    split; [by rewrite <- app_assoc|]. constructor; [|done]. split; [|by apply Z3].
    intros i x Hi. pose proof (lookup_lt_Some _ _ _ Hi). rewrite S3 by lia. apply (cs_char _ _ _ C). rewrite Ew. by apply lookup_app_l_Some.
  - intros x Hx. rewrite S3 by (unfold q in *; cbn [length] in *; lia). apply Sm. unfold q in *. cbn [length] in *. lia.
  - intros Hl. rewrite S3 by (unfold q; lia). by apply Z0.
Qed.

(** ** Comparing with the names *)
Lemma u8_small c : 0 <= c < 256 -> u8 c = c.
Proof. intros H. apply Z.mod_small. lia. Qed.

Lemma strcmp_spec m l1 : forall fuel p q l2, text_at m p l1 -> text_at m q l2 -> (length l1 < fuel)%nat ->
  exists d, strcmp fuel p q m = Ok d /\ (d = 0 <-> l1 = l2).
Proof.
  induction l1 as [|c l1 IH]; intros [|fuel] p q l2 H1 H2 Hf; cbn [length] in Hf; try lia; cbn [strcmp].
  - apply text_nil in H1. rewrite H1, decide_False by tauto. eexists. split; [done|]. destruct l2 as [|c2 l2].
    + apply text_nil in H2. by rewrite H2.
    + apply text_cons in H2 as (-> & Hc & _). rewrite (u8_small c2) by lia. change (u8 0) with 0. split; [lia|done].
  - apply text_cons in H1 as (-> & Hc & H1). destruct l2 as [|c2 l2].
    + apply text_nil in H2. rewrite H2, decide_False by lia. eexists. split; [done|]. rewrite (u8_small c) by lia. change (u8 0) with 0.
      split; [lia|done].
    + apply text_cons in H2 as (-> & Hc2 & H2). destruct (decide (c = c2)) as [->|Hne].
      * rewrite decide_True by lia. destruct (IH fuel (p + 1) (q + 1) l2 H1 H2) as (d & E & Hd); [lia|]. exists d. split; [done|].
        rewrite Hd. split; [by intros ->|by intros [= ->]].
      * rewrite decide_False by tauto. eexists. split; [done|]. rewrite !u8_small by lia. split; [lia|by intros [= -> _]].
Qed.

Lemma string_at_spec m l : forall fuel p, text_at m p l -> (length l < fuel)%nat -> string_at fuel m p = l.
Proof.
  induction l as [|c l IH]; intros [|fuel] p H Hf; cbn [length] in Hf; try lia; cbn [string_at].
  - apply text_nil in H. by rewrite decide_True.
  - apply text_cons in H as (-> & Hc & H). rewrite decide_False by lia. by rewrite IH by (done || lia).
Qed.

Lemma word_length w l : w ∈ words l -> (length w <= length l)%nat.
Proof.
  unfold words. intros [_ H]%list_elem_of_filter. revert w H. induction l as [|c l IH]; intros w; cbn [pieces].
  - by intros ->%list_elem_of_singleton.
  - case_decide as Hs.
    + intros [->|H%IH]%elem_of_cons; cbn; lia.
    + destruct (pieces l) as [|v t].
      * intros ->%list_elem_of_singleton. cbn. lia.
      * intros [->|H]%elem_of_cons; [specialize (IH v ltac:(by left)); cbn; lia|]. specialize (IH w ltac:(by right)). cbn. lia.
Qed.

(** ** The interpreter *)
Section Answers.
Context {T : Type} `{!ConsKernel T} `{!ConsKernelLaws T}.
Context (name : Z -> Z) (buf start etext edata end_ : Z).
Implicit Types s : cstate T.
Notation kerninfo := (kerninfo_text start etext edata end_).

(** What is printed for a line of the words [ws] *)
Definition answer (ws : list (list Z)) : list Z :=
  match ws with
  | [] => []
  | w :: _ =>
      if decide (15 < length ws)%nat then too_many
      else if decide (w = chars "help") then help_text
      else if decide (w = chars "kerninfo") then kerninfo
      else unknown w
  end.

(** The names of the commands are in memory, away from the line. *)
Record names_at (m : mem) (p n : Z) : Prop := {
  na_help : text_at m (name 0) (chars "help") /\ (name 0 + 4 < p \/ p + n <= name 0);
  na_kerninfo : text_at m (name 1) (chars "kerninfo") /\ (name 1 + 8 < p \/ p + n <= name 1);
}.
Lemma names_same m m' p n : (forall x, ~ (p <= x < p + n) -> m' !!! x = m !!! x) -> names_at m p n -> names_at m' p n.
Proof.
  intros E [[H1 D1] [H2 D2]]. split; (split; [|done]); (eapply text_same; [|done]); intros x Hx; apply E;
    [change (Z.of_nat (length (chars "help"))) with 4 in Hx|change (Z.of_nat (length (chars "kerninfo"))) with 8 in Hx]; lia.
Qed.

Lemma names_narrow m p n k : k <= n -> names_at m p n -> names_at m p k.
Proof. intros H [[H1 D1] [H2 D2]]. split; (split; [done|lia]). Qed.

Lemma on_kmem_ok {A} (m : M mem A) s a x m' :
  console_rel s a -> m (a_mem a) = Ok (x, m') ->
  exists s', on_kmem m s = Ok (x, s') /\ console_rel s' (set_a_mem m' a).
Proof.
  intros R E. rewrite <- (cr_mem _ _ (proj1 R)) in E. eexists. split; [by apply zoom_ok|]. by apply crel_mem.
Qed.
Lemma print_step l s a : console_rel s a -> exists s', print_text l s = Ok (tt, s') /\ console_rel s' (a_print l a).
Proof. intros [R L]. destruct (crel_print l s a R) as (s' & E & R' & L' & _). exists s'. split; [done|]. split; [done|]. by rewrite L'. Qed.
Lemma set_a_mem_same a : set_a_mem (a_mem a) a = a.
Proof. by destruct a. Qed.

(** The search for the command of [w] *)
Lemma commands_spec s a p n arg0 w :
  console_rel s a -> names_at (a_mem a) p n -> text_at (a_mem a) arg0 w -> (length w < 256)%nat ->
  exists r s', first_of [0; 1] (fun i =>
      d ← on_kmem (fun m => lift (strcmp cmd_fuel arg0 (name i) m) m);
      if decide (d = 0) then v ← command start etext edata end_ i; mret (Some v) else mret None) s = Ok (r, s')
    /\ if decide (w = chars "help") then r = Some 0 /\ console_rel s' (a_print help_text a)
       else if decide (w = chars "kerninfo") then r = Some 0 /\ console_rel s' (a_print kerninfo a)
       else r = None /\ console_rel s' a.
Proof.
  intros R [[N0 _] [N1 _]] Hw Hl.
  assert (forall i l s1, console_rel s1 a -> text_at (a_mem a) (name i) l -> exists d s2,
    on_kmem (fun m => lift (strcmp cmd_fuel arg0 (name i) m) m) s1 = Ok (d, s2) /\ console_rel s2 a /\ (d = 0 <-> w = l)) as Hc.
  { intros i l s1 R1 Hn. destruct (strcmp_spec (a_mem a) w cmd_fuel arg0 (name i) l Hw Hn ltac:(change cmd_fuel with 256%nat; lia)) as (d & E & Hd).
    destruct (on_kmem_ok (fun m => lift (strcmp cmd_fuel arg0 (name i) m) m) s1 a d (a_mem a) R1) as (s2 & E2 & R2).
    { by rewrite E. } rewrite set_a_mem_same in R2. by exists d, s2. }
  destruct (Hc 0 _ s R N0) as (d & s1 & E1 & R1 & Hd). cbn [first_of]. rewrite !bind_assoc, (bind_ok _ _ _ _ _ E1).
  destruct (decide (d = 0)) as [D|D].
  { destruct (print_step help_text s1 a R1) as (s2 & E2 & R2). exists (Some 0), s2. rewrite (decide_True (P := w = _)) by tauto. split; [|done].
    unfold command, mon_help. rewrite (decide_True (P := 0 = 0)) by done. rewrite !bind_assoc, (bind_ok _ _ _ _ _ E2). done. }
  rewrite mret_bind. destruct (Hc 1 _ s1 R1 N1) as (d' & s2 & E2 & R2 & Hd'). rewrite !bind_assoc, (bind_ok _ _ _ _ _ E2).
  destruct (decide (d' = 0)) as [D'|D'].
  { destruct (print_step kerninfo s2 a R2) as (s3 & E3 & R3). exists (Some 0), s3.
    rewrite (decide_False (P := w = chars "help")), (decide_True (P := w = _)) by tauto. split; [|done].
    unfold command, mon_kerninfo. rewrite (decide_False (P := 1 = 0)) by done. rewrite !bind_assoc, (bind_ok _ _ _ _ _ E3). done. }
  exists None, s2. rewrite !(decide_False (P := w = _)) by tauto. done.
Qed.

Lemma runcmd_spec s a p l :
  console_rel s a -> text_at (a_mem a) p l -> (length l < 256)%nat -> names_at (a_mem a) p (Z.of_nat (length l)) ->
  exists s' m', runcmd name start etext edata end_ p s = Ok (0, s')
    /\ console_rel s' (a_print (answer (words l)) (set_a_mem m' a))
    /\ (forall x, ~ (p <= x < p + Z.of_nat (length l)) -> m' !!! x = a_mem a !!! x).
Proof.
  intros R H Hl N. destruct (parse_spec cmd_fuel l p [] (a_mem a) H) as (r & m' & E & P & Sm & _); [change cmd_fuel with 256%nat; lia|done|cbn; lia|].
  destruct (on_kmem_ok (parse_args cmd_fuel p []) s a r m' R E) as (s1 & E1 & R1).
  unfold runcmd. rewrite (bind_ok _ _ _ _ _ E1). unfold parsed in P. cbn [length Nat.add app] in P.
  destruct (decide (length (words l) <= 15)%nat) as [Hn|Hn].
  2: { subst r. destruct (print_step too_many s1 _ R1) as (s2 & E2 & R2). exists s2, m'. split; [by rewrite (bind_ok _ _ _ _ _ E2)|]. split; [|done].
       unfold answer. destruct (words l) as [|w ws] eqn:Ew; [cbn in Hn; lia|]. by rewrite decide_True by lia. }
  destruct P as (ps & -> & F). destruct (words l) as [|w ws] eqn:Ew.
  { apply Forall2_nil_inv_r in F as ->. by exists s1, m'. }
  apply Forall2_cons_inv_r in F as (arg0 & ps' & Hw & _ & ->).
  assert (length w < 256)%nat as Hlw by (pose proof (word_length w l ltac:(rewrite Ew; by left)); lia).
  destruct (commands_spec s1 _ p (Z.of_nat (length l)) arg0 w R1) as (r & s2 & E2 & P2); try done; [by apply (names_same (a_mem a))|].
  rewrite (bind_ok _ _ _ _ _ E2). unfold answer. rewrite (decide_False (P := (15 < _)%nat)) by lia.
  destruct (decide (w = chars "help")) as [Hh|Hh]; [destruct P2 as [-> R2]; by exists s2, m'|].
  destruct (decide (w = chars "kerninfo")) as [Hk|Hk]; [destruct P2 as [-> R2]; by exists s2, m'|]. destruct P2 as [-> R2].
  destruct (on_kmem_ok (gets (fun m => string_at cmd_fuel m arg0)) s2 _ _ _ R2 eq_refl) as (s3 & E3 & R3).
  rewrite (bind_ok _ _ _ _ _ E3). rewrite set_a_mem_same in R3. cbn [a_mem set_a_mem].
  rewrite (string_at_spec m' w) by (done || (change cmd_fuel with 256%nat; lia)).
  destruct (print_step (unknown w) s3 _ R3) as (s4 & E4 & R4). exists s4, m'. by rewrite (bind_ok _ _ _ _ _ E4).
Qed.

(** ** Reading a line *)
Definition mon_style : style := mk_style 255 [8; 32; 8] (fun c => [s8 c]).

Lemma a_print_puts l : forall a, a_print l a = a_puts (map s8 l) a.
Proof. induction l as [|c l IH]; intros a; [done|]. exact (IH (a_putc (s8 c) a)). Qed.
Lemma print_echoes l : echoes (T := T) (print_text l) (map s8 l).
Proof. intros s a R. destruct (print_step l s a R) as (s' & E & R'). rewrite a_print_puts in R'. by exists s'. Qed.

Lemma monitor_readline_spec s a prompt :
  console_rel s a -> nonzero a ->
  let b := a_drain (a_print (chars prompt) a) in
  line_post buf MONBUF b (a_mem a) (edit_as mon_style [] (a_q b)) (monitor_readline buf prompt s).
Proof.
  intros R Hnz b. destruct (print_step (chars prompt) s a R) as (s1 & E1 & R1).
  destruct (a_print_input (chars prompt) a) as (Q & _ & _ & Hm). unfold monitor_readline. rewrite (bind_ok _ _ _ _ _ E1), gets_bind.
  rewrite <- Hm. apply (line_loop_spec buf MONBUF (print_text [8; 32; 8]) (fun c => print_text [c]) (print_text [10]) mon_style
    eq_refl (print_echoes _) (fun c => print_echoes [c]) (print_echoes [10]) _ (readline_fuel s1) [] s1 _ R1); try done.
  - unfold nonzero. by rewrite Q.
  - pose proof (drain_short s1 _ R1) as Hd. unfold readline_fuel. change (Z.to_nat CONSOLE_BUFFER_SIZE) with 512%nat. fold b in Hd |- *. lia.
  - cbn. lia.
Qed.

(** The echo of printable text is the text. *)
Lemma mon_echo text : Forall printable text -> mjoin (map (sy_echo mon_style) text) = text.
Proof.
  induction 1 as [|c l Hc Hl IH]; [done|].
  change (s8 c :: mjoin (map (sy_echo mon_style) l) = c :: l). rewrite IH. f_equal. unfold printable in Hc. unfold s8. rewrite u8_small by lia.
  destruct (Z.ltb_spec c 128); lia.
Qed.

Lemma line_text m text : Forall printable text -> line_at buf m (text ++ [0]) -> text_at m buf text.
Proof.
  intros Hp H. rewrite Forall_forall in Hp. split.
  - intros i c Hi. rewrite (H i c) by (by apply lookup_app_l_Some). specialize (Hp c ltac:(by eapply list_elem_of_lookup_2)).
    unfold printable in Hp. rewrite u8_small by lia. lia.
  - rewrite (H (length text) 0); [done|]. by rewrite lookup_app_r, Nat.sub_diag by lia.
Qed.

Lemma monitor_pass_spec s a text :
  console_rel s a -> nonzero a -> buf <> 0 -> names_at (a_mem a) buf MONBUF ->
  let b := a_drain (a_print (chars "$> ") a) in
  a_q b = text ++ [10] -> Forall printable text -> (length text <= 255)%nat ->
  exists s' m', monitor_pass name buf start etext edata end_ s = Ok (false, s')
    /\ console_rel s' (a_print (answer (words text)) (a_after b [] (text ++ [10]) m'))
    /\ (forall x, ~ (buf <= x < buf + MONBUF) -> m' !!! x = a_mem a !!! x).
Proof.
  intros R Hnz Hb0 N b Eq Hp Hl. pose proof (monitor_readline_spec s a "$> " R Hnz) as H. cbv zeta in H. fold b in H.
  rewrite Eq, (edit_as_text mon_style text [] Hp) in H by (cbn; lia). rewrite mon_echo in H by done. cbn [app] in H.
  destruct H as (s1 & m1 & E1 & R1 & Ha & Ho). unfold monitor_pass. rewrite (bind_ok _ _ _ _ _ E1), decide_True by done.
  assert (forall x, ~ (buf <= x < buf + MONBUF) -> m1 !!! x = a_mem a !!! x) as Ho'.
  { intros x Hx. rewrite !lookup_total_alt. by rewrite (Ho x Hx). }
  destruct (runcmd_spec s1 _ buf text R1) as (s2 & m2 & E2 & R2 & S2); [by apply line_text|lia| |].
  { apply (names_narrow _ _ MONBUF); [unfold MONBUF; lia|]. by apply (names_same (a_mem a)). }
  rewrite (bind_ok _ _ _ _ _ E2). exists s2, m2. split; [done|]. split; [done|].
  intros x Hx. rewrite S2 by (unfold MONBUF in Hx; lia). by apply Ho'.
Qed.
End Answers.

(** No command asks the monitor to end. *)
Lemma runcmd_returns_zero {T} `{!ConsKernel T} name start etext edata end_ p (s s' : cstate T) r :
  runcmd name start etext edata end_ p s = Ok (r, s') -> r = 0.
Proof.
  assert (forall l (x y : cstate T) v, (print_text l ;; mret 0) x = Ok (v, y) -> v = 0) as Hp.
  { intros l x y v ([] & z & _ & E)%bind_inv. by injection E. }
  intros ([[|arg0 ps]|] & s1 & _ & E)%bind_inv; [by injection E| |by apply Hp in E].
  apply bind_inv in E as ([v|] & s2 & E1 & E2); [injection E2 as <- _|by apply bind_inv in E2 as (w & s3 & _ & E2); apply Hp in E2].
  assert (forall i (x y : cstate T) v, command start etext edata end_ i x = Ok (v, y) -> v = 0) as Hc.
  { intros i x y u. unfold command. case_decide; apply Hp. }
  assert (forall (l : list Z) (x y : cstate T), first_of l (fun i =>
      d ← on_kmem (fun m => lift (strcmp cmd_fuel arg0 (name i) m) m);
      if decide (d = 0) then v ← command start etext edata end_ i; mret (Some v) else mret None) x = Ok (Some v, y) -> v = 0) as Hf.
  { induction l as [|i l IH]; intros x y; [done|]. cbn [first_of]. intros (o & z & Eo & Er)%bind_inv.
    apply bind_inv in Eo as (d & z1 & _ & Eo). case_decide.
    - apply bind_inv in Eo as (u & z2 & Eu & Eo). injection Eo as <- <-. injection Er as <- <-. by apply Hc in Eu.
    - injection Eo as <- <-. by apply IH in Er. }
  by apply Hf in E1.
Qed.
Lemma monitor_never_returns {T} `{!ConsKernel T} name buf start etext edata end_ n (s s' : cstate T) :
  monitor name buf start etext edata end_ n s <> Ok (tt, s').
Proof.
  intros ([] & s1 & _ & E)%bind_inv. revert s1 E. induction n as [|n IH]; intros s1 E; [done|]. cbn [monitor_loop] in E.
  apply bind_inv in E as (q & s2 & Eq & E). assert (q = false) as ->; [|by apply IH in E].
  apply bind_inv in Eq as (line & s3 & _ & Eq). case_decide; [|by injection Eq as <-].
  apply bind_inv in Eq as (r & s4 & Er & Eq). apply runcmd_returns_zero in Er as ->. by injection Eq as <-.
Qed.

Module MonitorProps.

(** C34 (equivalence): the monitor answers lines as a reference interpreter.
    When printable text of up to 255 characters and Enter wait to be read, a pass
    of the monitor's loop prints the prompt, echoes the text and prints the
    answer to its words (the pieces between spaces that are not empty): nothing
    for no words, the list of commands for help, the kernel's addresses for
    kerninfo, a complaint for another first word and another one for more
    than 15 words.  Cutting the line in place changes nothing outside of the
    monitor's buffer, and the loop goes on. *)
Theorem monitor_is_interpreter {T} `{!ConsKernel T} `{!ConsKernelLaws T} name buf start etext edata end_ (s : cstate T) a text :
  console_rel s a -> nonzero a -> buf <> 0 -> names_at name (a_mem a) buf MONBUF ->
  let b := a_drain (a_print (chars "$> ") a) in
  a_q b = text ++ [10] -> Forall printable text -> (length text <= 255)%nat ->
  exists s' m', monitor_pass name buf start etext edata end_ s = Ok (false, s')
    /\ console_rel s' (a_print (answer start etext edata end_ (words text)) (a_after b [] (text ++ [10]) m'))
    /\ (forall x, ~ (buf <= x < buf + MONBUF) -> m' !!! x = a_mem a !!! x).
Proof. intros R Hnz Hb N b Eq Hp Hl. by apply monitor_pass_spec. Qed.

Definition demo_names (i : Z) : Z := 100 + 20 * i.
Definition demo_mem : mem := list_to_map
  (zip (seqZ 100 5) (chars "help" ++ [0]) ++ zip (seqZ 120 9) (chars "kerninfo" ++ [0])).

Lemma demo_names_at : names_at demo_names demo_mem 5000 MONBUF.
Proof.
  split; (split; [|unfold demo_names, MONBUF; lia]).
  - change (chars "help") with [104; 101; 108; 112].
    do 4 (apply text_cons; split; [by vm_compute|split; [lia|]]). apply text_nil. by vm_compute.
  - change (chars "kerninfo") with [107; 101; 114; 110; 105; 110; 102; 111].
    do 8 (apply text_cons; split; [by vm_compute|split; [lia|]]). apply text_nil. by vm_compute.
Qed.

(** Two spaces, help, a space and me on the serial line *)
Lemma monitor_is_interpreter_witness : exists s s' : cstate (kst pages),
  monitor_pass demo_names 5000 0x100000 0x110000 0x120000 0x130000 s = Ok (false, s').
Proof.
  set (text := [32; 32; 104; 101; 108; 112; 32; 109; 101]).
  set (s0 := ConsoleProps.cons0 [] (text ++ [10])). set (a0 := ConsoleProps.acon0 [] (text ++ [10])).
  exists (set_ckern (ck_set_mem demo_mem (ckern s0)) s0).
  destruct (monitor_is_interpreter demo_names 5000 0x100000 0x110000 0x120000 0x130000 (set_ckern (ck_set_mem demo_mem (ckern s0)) s0)
    (set_a_mem demo_mem a0) text) as (s' & m' & E & _).
  - apply crel_mem. apply ConsoleProps.cons0_rel; [done|]. apply (bool_decide_unpack _). vm_compute. exact I.
  - exact (Forall_nil_2 _).
  - done.
  - exact demo_names_at.
  - by vm_compute.
  - apply (bool_decide_unpack _). vm_compute. exact I.
  - cbn. lia.
  - by exists s'.
Defined.
End MonitorProps.
