(* ===== verification/Pic.v ===== *)
(** * The 8259A interrupt controllers: dev/pic.c, dev/disk/picirq.c

    The two controllers as their data sheet describes them: a write to the
    command port with bit 4 set (ICW1) starts an initialisation of three more
    words at the data port, after which the data port is the interrupt mask.
    The drivers write these ports.  [MAX_IRQS], the edge/level registers and the
    words that only select what is read back have no effect here. *)

From S2P Require Import Prelude Machine.

(** ** The devices *)
Inductive pic_phase := PReady | PIcw2 | PIcw3 | PIcw4.
#[export] Instance pic_phase_eq_dec : EqDecision pic_phase.
Proof. solve_decision. Defined.

Record i8259 := mk_i8259 {
  ph : pic_phase;
  ic4 : bool;         (* ICW1: a word ICW4 follows *)
  imr : Z;            (* mask *)
  vbase : Z;          (* vector of line 0 *)
  cascade : Z;        (* ICW3 *)
  mode : Z;           (* ICW4 *)
  isr : Z;            (* interrupts in service *)
}.

(** A write to the command port ... *)
Definition i8259_command (v : Z) (c : i8259) : i8259 :=
  if Z.testbit v 4 then mk_i8259 PIcw2 (Z.testbit v 0) 0 (vbase c) (cascade c) 0 0
  else if decide (Z.land v 0x38 = 0x20) then
    (* non-specific end of interrupt: the line of highest priority *)
    mk_i8259 (ph c) (ic4 c) (imr c) (vbase c) (cascade c) (mode c) (Z.land (isr c) (isr c - 1))
  else c.
(** ... and to the data port *)
Definition i8259_data (v : Z) (c : i8259) : i8259 :=
  match ph c with
  | PReady => mk_i8259 PReady (ic4 c) v (vbase c) (cascade c) (mode c) (isr c)
  | PIcw2 => mk_i8259 PIcw3 (ic4 c) (imr c) (Z.land v 0xF8) (cascade c) (mode c) (isr c)
  | PIcw3 => mk_i8259 (if ic4 c then PIcw4 else PReady) (ic4 c) (imr c) (vbase c) v (mode c) (isr c)
  | PIcw4 => mk_i8259 PReady (ic4 c) (imr c) (vbase c) (cascade c) v (isr c)
  end.

Record picst := mk_picst {
  master : i8259;
  slave : i8259;
  irqmask : Z;        (* static variables of the driver *)
  pic_inited : bool;
}.
Definition set_chips (m s : i8259) (p : picst) : picst := mk_picst m s (irqmask p) (pic_inited p).
Definition set_irqmask (v : Z) (p : picst) : picst := mk_picst (master p) (slave p) v (pic_inited p).
Definition set_pic_inited (v : bool) (p : picst) : picst := mk_picst (master p) (slave p) (irqmask p) v.

Definition IO_PIC1 : Z := 0x20.
Definition IO_PIC2 : Z := 0xA0.
Definition IRQ_SLAVE : Z := 2.

Notation P := (M picst).

Definition pic_out (port v : Z) : P unit :=
  modify (fun p =>
    if decide (port = IO_PIC1) then set_chips (i8259_command (u8 v) (master p)) (slave p) p
    else if decide (port = IO_PIC1 + 1) then set_chips (i8259_data (u8 v) (master p)) (slave p) p
    else if decide (port = IO_PIC2) then set_chips (master p) (i8259_command (u8 v) (slave p)) p
    else if decide (port = IO_PIC2 + 1) then set_chips (master p) (i8259_data (u8 v) (slave p)) p
    else p).

(** ** dev/pic.c *)
Definition irqmask0 : Z := Z.land 0xFFFF (Z.lnot (Z.shiftl 1 IRQ_SLAVE)).

Definition pic_init : P unit :=
  i ← gets pic_inited;
  if (i : bool) then mret tt
  else
    modify (set_pic_inited true) ;;
    pic_out (IO_PIC1 + 1) 0xff ;; pic_out (IO_PIC2 + 1) 0xff ;;
    pic_out IO_PIC1 0x11 ;;
    pic_out (IO_PIC1 + 1) T_IRQ0 ;;
    pic_out (IO_PIC1 + 1) (Z.shiftl 1 IRQ_SLAVE) ;;
    pic_out (IO_PIC1 + 1) 0x1 ;;
    pic_out IO_PIC2 0x11 ;;
    pic_out (IO_PIC2 + 1) (T_IRQ0 + 8) ;;
    pic_out (IO_PIC2 + 1) IRQ_SLAVE ;;
    pic_out (IO_PIC2 + 1) 0x01 ;;
    pic_out IO_PIC1 0x68 ;; pic_out IO_PIC1 0x0a ;;
    pic_out IO_PIC2 0x68 ;; pic_out IO_PIC2 0x0a ;;
    pic_out (IO_PIC1 + 1) 0xFF ;; pic_out (IO_PIC2 + 1) 0xFF.

Definition pic_setmask (mask : Z) : P unit :=
  modify (set_irqmask mask) ;;
  pic_out (IO_PIC1 + 1) mask ;;
  pic_out (IO_PIC2 + 1) (Z.shiftr mask 8).

Definition pic_enable (irq : Z) : P unit :=
  m ← gets irqmask;
  pic_setmask (u16 (Z.land m (Z.lnot (Z.shiftl 1 irq)))).

Definition pic_eoi : P unit := pic_out IO_PIC1 0x20 ;; pic_out IO_PIC2 0x20.

Definition pic_reset : P unit :=
  pic_out (IO_PIC1 + 1) 0x00 ;; pic_out (IO_PIC2 + 1) 0x00 ;;
  pic_out IO_PIC1 0x11 ;;
  pic_out (IO_PIC1 + 1) T_IRQ0 ;;
  pic_out (IO_PIC1 + 1) (Z.shiftl 1 IRQ_SLAVE) ;;
  pic_out (IO_PIC1 + 1) 0x3 ;;
  pic_out IO_PIC2 0x11 ;;
  pic_out (IO_PIC2 + 1) (T_IRQ0 + 8) ;;
  pic_out (IO_PIC2 + 1) IRQ_SLAVE ;;
  pic_out (IO_PIC2 + 1) 0x01 ;;
  pic_out IO_PIC1 0x68 ;; pic_out IO_PIC1 0x0a ;;
  pic_out IO_PIC2 0x68 ;; pic_out IO_PIC2 0x0a.

(** ** dev/disk/picirq.c, a second driver for the same controllers *)
Definition picsetmask (mask : Z) : P unit :=
  modify (set_irqmask mask) ;;
  pic_out (IO_PIC1 + 1) mask ;;
  pic_out (IO_PIC2 + 1) (Z.shiftr mask 8).

Definition picenable (irq : Z) : P unit :=
  m ← gets irqmask;
  picsetmask (u16 (Z.land m (Z.lnot (Z.shiftl 1 irq)))).

Definition picinit : P unit :=
  pic_out (IO_PIC1 + 1) 0xFF ;; pic_out (IO_PIC2 + 1) 0xFF ;;
  pic_out IO_PIC1 0x11 ;;
  pic_out (IO_PIC1 + 1) T_IRQ0 ;;
  pic_out (IO_PIC1 + 1) (Z.shiftl 1 IRQ_SLAVE) ;;
  pic_out (IO_PIC1 + 1) 0x3 ;;
  pic_out IO_PIC2 0x11 ;;
  pic_out (IO_PIC2 + 1) (T_IRQ0 + 8) ;;
  pic_out (IO_PIC2 + 1) IRQ_SLAVE ;;
  pic_out (IO_PIC2 + 1) 0x3 ;;
  pic_out IO_PIC1 0x68 ;; pic_out IO_PIC1 0x0a ;;
  pic_out IO_PIC2 0x68 ;; pic_out IO_PIC2 0x0a ;;
  m ← gets irqmask;
  if decide (m <> 0xFFFF) then picsetmask m else mret tt.

(** ** What the controllers do *)

(** The vector the processor gets for a request at line [irq] *)
Definition pic_vector (p : picst) (irq : Z) : option Z :=
  if decide (irq < 8) then
    if Z.testbit (imr (master p)) irq then None else Some (vbase (master p) + irq)
  else if Z.testbit (imr (master p)) IRQ_SLAVE then None
  else if Z.testbit (imr (slave p)) (irq - 8) then None
  else Some (vbase (slave p) + (irq - 8)).

(** Both controllers have got all their words and are wired as the slave is
    connected to line 2. *)
Definition pic_ready (p : picst) : Prop :=
  ph (master p) = PReady /\ ph (slave p) = PReady /\ vbase (master p) = T_IRQ0 /\ vbase (slave p) = T_IRQ0 + 8
  /\ cascade (master p) = 4 /\ cascade (slave p) = 2.

(** Initialisation leaves both ready and everything masked, whatever they were
    doing before. *)
Lemma pic_init_spec p : pic_inited p = false ->
  exists p', pic_init p = Ok (tt, p') /\ pic_ready p' /\ imr (master p') = 255 /\ imr (slave p') = 255
    /\ irqmask p' = irqmask p /\ pic_inited p' = true.
Proof.
  intros Hi. destruct p as [[ph0 ? ? ? ? ? ?] [ph1 ? ? ? ? ? ?] m i]. cbn in Hi. subst i.
  destruct ph0, ph1; (eexists; split; [vm_compute; reflexivity|by repeat split]).
Qed.

(** The words of [picinit], then [k] *)
Definition picinit_words (k : P unit) : P unit :=
  pic_out (IO_PIC1 + 1) 0xFF ;; pic_out (IO_PIC2 + 1) 0xFF ;;
  pic_out IO_PIC1 0x11 ;; pic_out (IO_PIC1 + 1) T_IRQ0 ;; pic_out (IO_PIC1 + 1) (Z.shiftl 1 IRQ_SLAVE) ;; pic_out (IO_PIC1 + 1) 0x3 ;;
  pic_out IO_PIC2 0x11 ;; pic_out (IO_PIC2 + 1) (T_IRQ0 + 8) ;; pic_out (IO_PIC2 + 1) IRQ_SLAVE ;; pic_out (IO_PIC2 + 1) 0x3 ;;
  pic_out IO_PIC1 0x68 ;; pic_out IO_PIC1 0x0a ;; pic_out IO_PIC2 0x68 ;; pic_out IO_PIC2 0x0a ;; k.
Lemma picinit_eq : picinit = picinit_words (m ← gets irqmask; if decide (m <> 0xFFFF) then picsetmask m else mret tt).
Proof. unfold picinit, picinit_words. reflexivity. Qed.
Lemma picinit_words_spec p : exists p1, (forall k, picinit_words k p = k p1) /\ pic_ready p1 /\ irqmask p1 = irqmask p.
Proof.
  destruct p as [[ph0 ? ? ? ? ? ?] [ph1 ? ? ? ? ? ?] m i].
  destruct ph0, ph1; (eexists; split; [intros k; vm_compute; reflexivity|by repeat split]).
Qed.

Lemma setmask_spec p m : pic_ready p ->
  exists p', pic_setmask m p = Ok (tt, p') /\ pic_ready p' /\ imr (master p') = u8 m /\ imr (slave p') = u8 (Z.shiftr m 8) /\ irqmask p' = m.
Proof.
  intros (Hm & Hs & H1 & H2 & H3 & H4). destruct p as [[? ? ? ? ? ? ?] [? ? ? ? ? ? ?] q i].
  cbn [master slave ph vbase cascade] in *. subst. eexists. split; [reflexivity|]. by split_and!.
Qed.
Lemma picinit_spec p : irqmask p <> 0xFFFF ->
  exists p', picinit p = Ok (tt, p') /\ pic_ready p' /\ imr (master p') = u8 (irqmask p)
    /\ imr (slave p') = u8 (Z.shiftr (irqmask p) 8) /\ irqmask p' = irqmask p.
Proof.
  intros Hm. destruct (picinit_words_spec p) as (p1 & E & R1 & M1).
  destruct (setmask_spec p1 (irqmask p) R1) as (p' & E' & R'). exists p'. split; [|done].
  rewrite picinit_eq, E. mrun. rewrite M1, decide_True by done. exact E'.
Qed.

(** ** Enabling lines *)

(** The lines [E] are enabled; line 2 belongs to the slave. *)
Definition pic_lines (E : gset Z) (p : picst) : Prop :=
  pic_ready p /\ (forall irq, 0 <= irq < 16 -> Z.testbit (irqmask p) irq = bool_decide (irq ∉ E /\ irq <> 2))
  /\ ((E = ∅ /\ imr (master p) = 255 /\ imr (slave p) = 255)
      \/ (imr (master p) = u8 (irqmask p) /\ imr (slave p) = u8 (Z.shiftr (irqmask p) 8))).

Lemma u8_low_bit m k : 0 <= k < 8 -> Z.testbit (u8 m) k = Z.testbit m k.
Proof. intros Hk. unfold u8. change 256 with (2 ^ 8). apply Z.mod_pow2_bits_low. lia. Qed.

Lemma enable_spec E p irq : pic_lines E p -> 0 <= irq < 16 ->
  exists p', pic_enable irq p = Ok (tt, p') /\ pic_lines ({[irq]} ∪ E) p'.
Proof.
  intros (R & Hm & _) Hi. unfold pic_enable. mrun. set (m := u16 (Z.land (irqmask p) (Z.lnot (Z.shiftl 1 irq)))).
  destruct (setmask_spec p m R) as (p' & E' & R' & M1 & M2 & M3). exists p'. split; [done|]. split; [done|]. rewrite M3.
  split; [|by right]. intros k Hk. unfold m, u16. change 65536 with (2 ^ 16).
  rewrite Z.mod_pow2_bits_low, Z.land_spec, Z.lnot_spec, Hm by lia. rewrite Z.shiftl_1_l, Z.pow2_bits_eqb by lia.
  destruct (decide (k = irq)) as [->|Hne].
  - rewrite Z.eqb_refl. etransitivity; [apply andb_false_r|]. symmetry. apply bool_decide_false.
    rewrite elem_of_union, elem_of_singleton. tauto.
  - rewrite (proj2 (Z.eqb_neq irq k)) by lia. rewrite andb_true_r. apply bool_decide_ext. rewrite elem_of_union, elem_of_singleton. tauto.
Qed.

Lemma all_masked k : 0 <= k < 8 -> Z.testbit 255 k = true.
Proof. intros Hk. change 255 with (Z.ones 8). by apply Z.ones_spec_low. Qed.

Lemma lines_vector E p irq : pic_lines E p -> 0 <= irq < 16 -> irq <> 2 ->
  pic_vector p irq = if decide (irq ∈ E) then Some (T_IRQ0 + irq) else None.
Proof.
  intros ((_ & _ & V1 & V2 & _) & Hm & Hc) Hi H2. unfold pic_vector. rewrite V1, V2.
  destruct Hc as [(-> & -> & ->)|[-> ->]].
  - rewrite (decide_False (P := irq ∈ ∅)) by apply not_elem_of_empty. case_decide; by rewrite all_masked by (unfold IRQ_SLAVE; lia).
  - case_decide as H8.
    + rewrite u8_low_bit, Hm by lia. destruct (decide (irq ∈ E)); [by rewrite bool_decide_false by tauto|].
      by rewrite bool_decide_true.
    + rewrite u8_low_bit, Hm by (unfold IRQ_SLAVE; lia). rewrite bool_decide_false by tauto.
      rewrite u8_low_bit, Z.shiftr_spec by lia. replace (irq - 8 + 8) with irq by lia. rewrite Hm by lia.
      destruct (decide (irq ∈ E)); [|by rewrite bool_decide_true]. rewrite bool_decide_false by tauto. f_equal. lia.
Qed.

Lemma enables_spec irqs E p : pic_lines E p -> Forall (fun i => 0 <= i < 16) irqs ->
  exists p', for_each irqs pic_enable p = Ok (tt, p') /\ pic_lines (E ∪ list_to_set irqs) p'.
Proof.
  intros L. rewrite Forall_forall. intros Hi.
  destruct (for_each_ind (fun d q => pic_lines (E ∪ list_to_set d) q) pic_enable irqs) with (s := p) as (p' & E' & L').
  - intros d x r q -> Lq. destruct (enable_spec _ q x Lq) as (q' & Eq & Lq'); [apply Hi; set_solver|].
    exists q'. split; [done|].
    replace (E ∪ list_to_set (d ++ [x])) with ({[x]} ∪ (E ∪ list_to_set d) : gset Z) by set_solver. done.
  - by replace (E ∪ list_to_set []) with E by set_solver.
  - by exists p'.
Qed.

Lemma irqmask0_lines (E : gset Z) irq : E = ∅ -> 0 <= irq < 16 -> Z.testbit irqmask0 irq = bool_decide (irq ∉ E /\ irq <> 2).
Proof.
  intros -> Hi. transitivity (bool_decide (irq <> 2)).
  - revert irq Hi. apply (seqZ_forall 16). repeat constructor.
  - apply bool_decide_ext. split; [|tauto]. intros H. split; [apply not_elem_of_empty|done].
Qed.

Module PicProps.

(** C28 (refinement): the interrupt controllers follow the lines that were
    enabled.  Whatever state the two 8259A controllers are in, [pic_init] and
    then [pic_enable] for any lines, in any order and any number of times, leave
    them initialised so that a request at a line other than the slave's own is
    delivered, with vector [T_IRQ0] plus its number, exactly if the line was
    enabled; and so does the second driver with [picinit] and [picenable]. *)
Theorem pic_delivers_enabled_lines p irqs :
  pic_inited p = false -> irqmask p = irqmask0 -> Forall (fun i => 0 <= i < 16) irqs ->
  (exists p', (pic_init ;; for_each irqs pic_enable) p = Ok (tt, p') /\ pic_ready p'
     /\ forall irq, 0 <= irq < 16 -> irq <> IRQ_SLAVE ->
          pic_vector p' irq = if decide (irq ∈ irqs) then Some (T_IRQ0 + irq) else None)
  /\ (exists p', (picinit ;; for_each irqs picenable) p = Ok (tt, p') /\ pic_ready p'
     /\ forall irq, 0 <= irq < 16 -> irq <> IRQ_SLAVE ->
          pic_vector p' irq = if decide (irq ∈ irqs) then Some (T_IRQ0 + irq) else None).
Proof.
  intros Hi Hm Hf.
  assert (forall q, pic_lines ∅ q -> exists p', for_each irqs pic_enable q = Ok (tt, p') /\ pic_ready p'
     /\ forall irq, 0 <= irq < 16 -> irq <> IRQ_SLAVE ->
          pic_vector p' irq = if decide (irq ∈ irqs) then Some (T_IRQ0 + irq) else None) as H.
  { intros q L. destruct (enables_spec irqs ∅ q L Hf) as (p' & E & L'). exists p'. split; [done|]. split; [apply L'|].
    intros irq Hr Hn. rewrite (lines_vector _ _ _ L' Hr Hn).
    destruct (decide (irq ∈ irqs)) as [Hx|Hx]; [rewrite decide_True by set_solver|rewrite decide_False by set_solver]; done. }
  split.
  - destruct (pic_init_spec p Hi) as (p1 & E1 & R1 & M1 & M2 & M3 & _). rewrite (bind_ok _ _ _ _ _ E1). apply H.
    split; [done|]. split; [rewrite M3, Hm; intros k; by apply irqmask0_lines|by left].
  - destruct (picinit_spec p) as (p1 & E1 & R1 & M1 & M2 & M3); [by rewrite Hm|]. rewrite (bind_ok _ _ _ _ _ E1). apply H.
    split; [done|]. split; [rewrite M3, Hm; intros k; by apply irqmask0_lines|]. right. by rewrite M1, M2, M3.
Qed.

Definition cold_chip : i8259 := mk_i8259 PIcw3 true 0 0 0 0 0.
Definition cold : picst := mk_picst cold_chip cold_chip irqmask0 false.
Lemma pic_delivers_enabled_lines_witness :
  exists p', (pic_init ;; for_each [1; 14] pic_enable) cold = Ok (tt, p') /\ pic_vector p' 14 = Some 46 /\ pic_vector p' 12 = None.
Proof.
  destruct (pic_delivers_enabled_lines cold [1; 14] eq_refl eq_refl) as [(p' & E & _ & H) _];
    [repeat constructor; lia|]. exists p'. split; [exact E|]. split.
  - exact (H 14 ltac:(lia) ltac:(unfold IRQ_SLAVE; lia)).
  - exact (H 12 ltac:(lia) ltac:(unfold IRQ_SLAVE; lia)).
Defined.

(** [pic_reset] says that it masks all interrupts; it opens them all. *)
Lemma pic_reset_unmasks p : exists p', pic_reset p = Ok (tt, p') /\ pic_ready p' /\ imr (master p') = 0 /\ imr (slave p') = 0.
Proof.
  destruct p as [[ph0 ? ? ? ? ? ?] [ph1 ? ? ? ? ? ?] m i].
  destruct ph0, ph1; (eexists; split; [vm_compute; reflexivity|by repeat split]).
Qed.
End PicProps.
