(* ===== verification/Apic.v ===== *)
(** * I/O APICs and the local APIC: dev/ioapic.c, dev/disk/ioapic.c, dev/lapic.c

    An I/O APIC is a set of 32-bit registers behind a select register and a data
    window; the local APIC is an array of registers of which the command
    register sends interrupts to other processors.  Both are modelled by the
    registers and by the commands sent.  An access where no device is mapped is
    undefined. *)

From S2P Require Import Prelude Machine Bytes Pic.

(** ** The devices *)
Record ioapic_hw := mk_ioapic_hw { io_sel : Z; io_regs : gmap Z Z }.
#[export] Instance ioapic_hw_inhabited : Inhabited ioapic_hw := populate (mk_ioapic_hw 0 ∅).

Record apicst := mk_apicst {
  io_hw : gmap Z ioapic_hw;     (* I/O APICs, by address *)
  ioapics : gmap Z Z;           (* dev/ioapic.c *)
  ioapicid : gmap Z Z;
  gsi : gmap Z Z;
  ioapic_num : Z;
  ioapic : Z;                   (* dev/disk/ioapic.c *)
  lapic : Z;                    (* dev/lapic.c *)
  lregs : gmap Z Z;             (* registers of the local APIC *)
  ipis : list (Z * Z);          (* commands sent, the last one first *)
  ports : list (Z * Z);         (* writes to ports, the last one first *)
  port61 : Z;
  pmem : gmap Z Z;              (* physical memory *)
}.
Definition set_io_hw v s := mk_apicst v (ioapics s) (ioapicid s) (gsi s) (ioapic_num s) (ioapic s) (lapic s) (lregs s) (ipis s) (ports s) (port61 s) (pmem s).
Definition set_registered a i g n s := mk_apicst (io_hw s) a i g n (ioapic s) (lapic s) (lregs s) (ipis s) (ports s) (port61 s) (pmem s).
Definition set_ioapic v s := mk_apicst (io_hw s) (ioapics s) (ioapicid s) (gsi s) (ioapic_num s) v (lapic s) (lregs s) (ipis s) (ports s) (port61 s) (pmem s).
Definition set_lapic v s := mk_apicst (io_hw s) (ioapics s) (ioapicid s) (gsi s) (ioapic_num s) (ioapic s) v (lregs s) (ipis s) (ports s) (port61 s) (pmem s).
Definition set_lregs v w s := mk_apicst (io_hw s) (ioapics s) (ioapicid s) (gsi s) (ioapic_num s) (ioapic s) (lapic s) v w (ports s) (port61 s) (pmem s).
Definition set_ports v s := mk_apicst (io_hw s) (ioapics s) (ioapicid s) (gsi s) (ioapic_num s) (ioapic s) (lapic s) (lregs s) (ipis s) v (port61 s) (pmem s).
Definition set_pmem v s := mk_apicst (io_hw s) (ioapics s) (ioapicid s) (gsi s) (ioapic_num s) (ioapic s) (lapic s) (lregs s) (ipis s) (ports s) (port61 s) v.

Notation A := (M apicst).

Definition IOAPIC_ID : Z := 0x00.
Definition IOAPIC_VER : Z := 0x01.
Definition IOAPIC_TABLE : Z := 0x10.
Definition IOAPIC_INT_DISABLED : Z := 0x00010000.
Definition MAX_IOAPIC : Z := 16.

(** [base->reg = v], [base->data = v] and [base->data] *)
Definition mmio_sel (base v : Z) : A unit :=
  s ← get;
  match io_hw s !! base with
  | Some d => modify (set_io_hw (<[base := mk_ioapic_hw (u32 v) (io_regs d)]> (io_hw s)))
  | None => undef BadAddress
  end.
Definition mmio_data_write (base v : Z) : A unit :=
  s ← get;
  match io_hw s !! base with
  | Some d => modify (set_io_hw (<[base := mk_ioapic_hw (io_sel d) (<[io_sel d := u32 v]> (io_regs d))]> (io_hw s)))
  | None => undef BadAddress
  end.
Definition mmio_data_read (base : Z) : A Z :=
  s ← get;
  match io_hw s !! base with Some d => mret (io_regs d !!! io_sel d) | None => undef BadAddress end.

(** ** dev/ioapic.c *)
Definition ioapic_read (base reg : Z) : A Z := mmio_sel base reg ;; mmio_data_read base.
Definition ioapic_write (base reg data : Z) : A unit := mmio_sel base reg ;; mmio_data_write base data.

Definition ioapic_register (addr id g : Z) : A unit :=
  s ← get;
  let n := ioapic_num s in
  if decide (n >= MAX_IOAPIC) then mret tt
  else modify (set_registered (<[n := addr]> (ioapics s)) (<[n := u8 id]> (ioapicid s)) (<[n := s32 g]> (gsi s)) (n + 1)).

(** [(ioapic_read(ioapic, IOAPIC_VER) >> 16) & 0xFF] *)
Definition max_intr (base : Z) : A Z :=
  v ← ioapic_read base IOAPIC_VER;
  mret (Z.land (Z.shiftr v 16) 0xFF).

Definition mask_entry (base j : Z) : A unit :=
  ioapic_write base (IOAPIC_TABLE + 2 * j) (Z.lor IOAPIC_INT_DISABLED (T_IRQ0 + j)) ;;
  ioapic_write base (IOAPIC_TABLE + 2 * j + 1) 0.

Definition ioapic_init_one (i : Z) : A unit :=
  base ← gets (fun s => ioapics s !!! i);
  if decide (base = 0) then panic "ioapic_init"
  else
    r ← ioapic_read base IOAPIC_ID;
    own ← gets (fun s => ioapicid s !!! i);
    (if decide (u8 (Z.shiftr r 24) = 0) then ioapic_write base IOAPIC_ID (Z.shiftl own 24) else mret tt) ;;
    maxintr ← max_intr base;
    for_each (seqZ 0 (maxintr + 1)) (mask_entry base).

Definition ioapic_init : A unit :=
  n ← gets ioapic_num;
  for_each (seqZ 0 n) ioapic_init_one.

Definition ioapic_enable (irq apicid : Z) (trigger_mode polarity : bool) : A unit :=
  n ← gets ioapic_num;
  r ← first_of (seqZ 0 n) (fun i =>
    base ← gets (fun s => ioapics s !!! i);
    maxintr ← max_intr base;
    g ← gets (fun s => gsi s !!! i);
    if decide (irq >= g /\ irq <= g + maxintr) then
      ioapic_write base (IOAPIC_TABLE + 2 * (irq - g))
        (Z.lor (Z.lor (Z.shiftl (Z.b2z trigger_mode) 15) (Z.shiftl (Z.b2z polarity) 13)) (T_IRQ0 + irq)) ;;
      ioapic_write base (IOAPIC_TABLE + 2 * (irq - g) + 1) (Z.shiftl apicid 24) ;;
      mret (Some tt)
    else mret None);
  match r with
  | Some _ => mret tt
  | None => panic "Cannot enable IRQ on IOAPIC"
  end.

Definition ioapic_number : A Z := gets ioapic_num.
Definition ioapic_get (idx : Z) : A Z :=
  s ← get;
  mret (if decide (idx >= ioapic_num s) then 0 else ioapics s !!! idx).

(** ** dev/disk/ioapic.c, a driver for the I/O APIC at its usual address *)
Definition IOAPIC : Z := 0xFEC00000.
Definition ioapicread (reg : Z) : A Z := b ← gets ioapic; ioapic_read b reg.
Definition ioapicwrite (reg data : Z) : A unit := b ← gets ioapic; ioapic_write b reg data.

Definition ioapicinit : A unit :=
  modify (set_ioapic IOAPIC) ;;
  v ← ioapicread IOAPIC_VER;
  let maxintr := Z.land (Z.shiftr v 16) 0xFF in
  _ ← ioapicread IOAPIC_ID;
  for_each (seqZ 0 (maxintr + 1)) (fun i =>
    ioapicwrite (IOAPIC_TABLE + 2 * i) (Z.lor IOAPIC_INT_DISABLED (T_IRQ0 + i)) ;;
    ioapicwrite (IOAPIC_TABLE + 2 * i + 1) 0).

Definition ioapicenable (irq cpunum : Z) : A unit :=
  ioapicwrite (IOAPIC_TABLE + 2 * irq) (T_IRQ0 + irq) ;;
  ioapicwrite (IOAPIC_TABLE + 2 * irq + 1) (Z.shiftl cpunum 24).

(** ** dev/lapic.c *)
Definition LAPIC_ID : Z := 0x0020 / 4.
Definition LAPIC_VER : Z := 0x0030 / 4.
Definition LAPIC_TPR : Z := 0x0080 / 4.
Definition LAPIC_EOI : Z := 0x00B0 / 4.
Definition LAPIC_LDR : Z := 0x00D0 / 4.
Definition LAPIC_DFR : Z := 0x000E0 / 4.
Definition LAPIC_DFR_FLAT_MODE : Z := Z.shiftl 0xF 28.
Definition LAPIC_SVR : Z := 0x00F0 / 4.
Definition LAPIC_SVR_ENABLE : Z := 0x00000100.
Definition LAPIC_ESR : Z := 0x0280 / 4.
Definition LAPIC_ICRLO : Z := 0x0300 / 4.
Definition LAPIC_ICRLO_VECTOR : Z := 0xFF.
Definition LAPIC_ICRLO_INIT : Z := 0x00000500.
Definition LAPIC_ICRLO_STARTUP : Z := 0x00000600.
Definition LAPIC_ICRLO_DELIVS : Z := 0x00001000.
Definition LAPIC_ICRLO_ASSERT : Z := 0x00004000.
Definition LAPIC_ICRLO_LEVEL : Z := 0x00008000.
Definition LAPIC_ICRLO_NOBCAST : Z := 0x00000000.
Definition LAPIC_ICRLO_BCAST : Z := 0x00080000.
Definition LAPIC_ICRHI : Z := 0x0310 / 4.
Definition LAPIC_ICRHI_DEST_MASK : Z := 0xFF000000.
Definition LAPIC_ICRHI_DEST_SHIFT : Z := 24.
Definition LAPIC_TIMER : Z := 0x0320 / 4.
Definition LAPIC_TIMER_X1 : Z := 0x0000000B.
Definition LAPIC_TIMER_PERIODIC : Z := 0x00020000.
Definition LAPIC_PCINT : Z := 0x0340 / 4.
Definition APIC_LVTT_M : Z := 0x00010000.
Definition LAPIC_LINT0 : Z := 0x0350 / 4.
Definition LAPIC_LINT1 : Z := 0x0360 / 4.
Definition LAPIC_LINT_MASKED : Z := 0x00010000.
Definition LAPIC_ERROR : Z := 0x0370 / 4.
Definition LAPIC_TICR : Z := 0x0380 / 4.
Definition LAPIC_TCCR : Z := 0x0390 / 4.
Definition LAPIC_TDCR : Z := 0x03E0 / 4.
Definition T_LERROR : Z := 50.
Definition T_IPI0 : Z := 63.
Definition CAL_MS : Z := 10.
Definition CAL_LATCH : Z := 1193182 / (1000 / CAL_MS).
Definition CAL_PIT_LOOPS : Z := 1000.

(** The delivery status bit is read-only; a write to the low half of the command
    register sends the command to the processor named in the high half. *)
Definition lapic_store (index value : Z) (s : apicst) : apicst :=
  if decide (index = LAPIC_ICRLO) then
    let v := Z.land (u32 value) (Z.lnot LAPIC_ICRLO_DELIVS) in
    set_lregs (<[index := v]> (lregs s)) ((lregs s !!! LAPIC_ICRHI, v) :: ipis s) s
  else set_lregs (<[index := u32 value]> (lregs s)) (ipis s) s.

Definition lapic_read (index : Z) : A Z :=
  s ← get;
  if decide (lapic s = 0) then undef NullDeref else mret (lregs s !!! index).
Definition lapic_write (index value : Z) : A unit :=
  s ← get;
  if decide (lapic s = 0) then undef NullDeref
  else modify (lapic_store index value) ;; _ ← lapic_read LAPIC_ID; mret tt.
Definition port_out (port v : Z) : A unit := modify (fun s => set_ports ((port, u8 v) :: ports s) s).

Definition lapic_register (lapic_addr : Z) : A unit := modify (set_lapic lapic_addr).

(** The loop of [lapic_calibrate_timer]: the counts read until the output of the
    PIT is high *)
Record cal := mk_cal { c_timer : Z; c_min : Z; c_max : Z; c_cnt : Z }.
Definition cal_step (c : cal) (timer2 : Z) : cal :=
  let delta := u32 (c_timer c - timer2) in
  mk_cal timer2 (if decide (delta < c_min c) then delta else c_min c) (if decide (delta > c_max c) then delta else c_max c)
    (c_cnt c + 1).

(** [t1] is the count read before the loop, [reads] those in the loop. *)
Definition lapic_calibrate_timer (t1 : Z) (reads : list Z) (latch ms loopmin : Z) : A Z :=
  lapic_write LAPIC_TICR 0xFFFFFFFF ;;
  p ← gets port61;
  port_out 0x61 (Z.lor (Z.land p (Z.lnot 0x02)) 0x01) ;;
  port_out 0x43 0xb0 ;;
  port_out 0x42 (Z.land latch 0xff) ;;
  port_out 0x42 (Z.shiftr latch 8) ;;
  _ ← lapic_read LAPIC_TCCR;
  let c := foldl cal_step (mk_cal t1 0xFFFFFFFF 0 0) reads in
  if decide (c_cnt c < loopmin \/ c_max c > u32 (10 * c_min c)) then mret 0xFFFFFFFF
  else if decide (ms = 0) then undef DivByZero
  else mret (u32 (t1 - c_timer c) / ms).

(** Up to five attempts; [env i] are the counts of attempt [i]. *)
Fixpoint calibrate_tries (n : nat) (i : Z) (env : Z -> Z * list Z) : A Z :=
  match n with
  | O => mret 0xFFFFFFFF
  | S n =>
      t ← lapic_calibrate_timer (env i).1 (env i).2 CAL_LATCH CAL_MS CAL_PIT_LOOPS;
      if decide (t <> 0xFFFFFFFF) then mret t else calibrate_tries n (i + 1) env
  end.

Definition wait_delivered : A unit :=
  v ← lapic_read LAPIC_ICRLO;
  if decide (Z.land v LAPIC_ICRLO_DELIVS = 0) then mret tt else fail Spin.

Definition lapic_init (env : Z -> Z * list Z) : A unit :=
  l ← gets lapic;
  if decide (l = 0) then panic "NO LAPIC"
  else
    lapic_write LAPIC_SVR (Z.lor LAPIC_SVR_ENABLE (T_IRQ0 + IRQ_SPURIOUS)) ;;
    lapic_write LAPIC_TDCR LAPIC_TIMER_X1 ;;
    lapic_write LAPIC_TIMER (Z.lor LAPIC_TIMER_PERIODIC (T_IRQ0 + IRQ_TIMER)) ;;
    t ← calibrate_tries 5 0 env;
    let lapic_ticks_per_ms := if decide (t = 0xFFFFFFFF) then 500000 else t in
    let ticr := u32 (lapic_ticks_per_ms * 1000) / LAPIC_TIMER_INTR_FREQ in
    lapic_write LAPIC_TICR ticr ;;
    lapic_write LAPIC_LINT0 LAPIC_LINT_MASKED ;;
    lapic_write LAPIC_LINT1 LAPIC_LINT_MASKED ;;
    v ← lapic_read LAPIC_VER;
    (if decide (Z.land (Z.shiftr v 16) 0xFF >= 4) then lapic_write LAPIC_PCINT APIC_LVTT_M else mret tt) ;;
    lapic_write LAPIC_DFR LAPIC_DFR_FLAT_MODE ;;
    lapic_write LAPIC_LDR 0 ;;
    lapic_write LAPIC_ERROR T_LERROR ;;
    lapic_write LAPIC_ESR 0 ;;
    lapic_write LAPIC_ESR 0 ;;
    lapic_write LAPIC_EOI 0 ;;
    lapic_write LAPIC_ICRHI 0 ;;
    lapic_write LAPIC_ICRLO (Z.lor (Z.lor LAPIC_ICRLO_BCAST LAPIC_ICRLO_INIT) LAPIC_ICRLO_LEVEL) ;;
    wait_delivered ;;
    lapic_write LAPIC_TPR 0.

Definition lapic_eoi : A unit :=
  l ← gets lapic;
  if decide (l = 0) then mret tt else lapic_write LAPIC_EOI 0.

(** A 16-bit word of memory *)
Definition store16 (a v : Z) : A unit :=
  modify (fun s => set_pmem (<[a + 1 := u8 (Z.shiftr v 8)]> (<[a := u8 v]> (pmem s))) s).
Definition IO_RTC : Z := 0x70.

Definition lapic_startcpu (apicid addr : Z) : A unit :=
  port_out IO_RTC 0xF ;;
  port_out (IO_RTC + 1) 0x0A ;;
  let wrv := Z.lor (Z.shiftl 0x40 4) 0x67 in
  store16 wrv 0 ;;
  store16 (wrv + 2) (Z.shiftr addr 4) ;;
  lapic_write LAPIC_ICRHI (Z.shiftl apicid 24) ;;
  lapic_write LAPIC_ICRLO (Z.lor (Z.lor LAPIC_ICRLO_INIT LAPIC_ICRLO_LEVEL) LAPIC_ICRLO_ASSERT) ;;
  lapic_write LAPIC_ICRLO (Z.lor LAPIC_ICRLO_INIT LAPIC_ICRLO_LEVEL) ;;
  for_each [0; 1] (fun _ =>
    lapic_write LAPIC_ICRHI (Z.shiftl apicid 24) ;;
    lapic_write LAPIC_ICRLO (Z.lor LAPIC_ICRLO_STARTUP (Z.shiftr addr 12))).

Definition lapic_send_ipi (apicid vector deliver_mode shorthand_mode : Z) : A unit :=
  if decide (deliver_mode <> LAPIC_ICRLO_INIT /\ deliver_mode <> LAPIC_ICRLO_STARTUP) then
    if decide (vector >= T_IPI0) then
      wait_delivered ;;
      (if decide (shorthand_mode = LAPIC_ICRLO_NOBCAST) then
         lapic_write LAPIC_ICRHI (Z.land (u32 (Z.shiftl apicid LAPIC_ICRHI_DEST_SHIFT)) LAPIC_ICRHI_DEST_MASK)
       else mret tt) ;;
      lapic_write LAPIC_ICRLO (Z.lor (Z.lor shorthand_mode deliver_mode) (Z.land vector LAPIC_ICRLO_VECTOR))
    else panic "KERN_ASSERT"
  else panic "KERN_ASSERT".
