(* ===== verification/ApicSpec.v ===== *)
(** * Interrupt routing

    What the drivers of Apic.v leave in the I/O APICs, and how a processor is
    started through the local APIC. *)

From S2P Require Import Prelude Machine Bytes Pic Apic.

(** ** Registers *)
Definition dev (s : apicst) (base : Z) : Prop := is_Some (io_hw s !! base).
Definition rg (s : apicst) (base r : Z) : Z := io_regs (io_hw s !!! base) !!! r.
(** Only the registers of I/O APICs differ. *)
Definition same_drv (s s' : apicst) : Prop := s' = set_io_hw (io_hw s') s.

Lemma same_drv_refl s : same_drv s s.
Proof. by destruct s. Qed.
Lemma same_drv_trans s1 s2 s3 : same_drv s1 s2 -> same_drv s2 s3 -> same_drv s1 s3.
Proof. unfold same_drv. intros -> ->. done. Qed.

(** [s'] is [s] with the registers of [base] changed by [f]. *)
Record regs_now (s s' : apicst) (f : Z -> Z -> Z) : Prop := {
  rn_drv : same_drv s s';
  rn_dev b : dev s' b <-> dev s b;
  rn_reg b r : rg s' b r = f b r;
}.
Definition upd (g : Z -> Z -> Z) (base reg v : Z) (b r : Z) : Z := if decide (b = base /\ r = reg) then v else g b r.

Lemma insert_dev s base d b : dev s base -> dev (set_io_hw (<[base := d]> (io_hw s)) s) b <-> dev s b.
Proof.
  intros Hb. unfold dev. cbn [io_hw set_io_hw]. destruct (decide (b = base)) as [->|Hne].
  - rewrite lookup_insert_eq. split; [done|by eexists].
  - by rewrite lookup_insert_ne.
Qed.

Lemma ioapic_read_ok s base reg : dev s base -> 0 <= reg < W32 ->
  exists s', ioapic_read base reg s = Ok (rg s base reg, s') /\ regs_now s s' (rg s).
Proof.
  intros [d Hd] Hr. unfold ioapic_read, mmio_sel, mmio_data_read. mrun. rewrite Hd. cbn [io_hw set_io_hw].
  rewrite lookup_insert_eq. cbn [io_regs io_sel]. rewrite (u32_id reg) by done.
  assert (io_hw s !!! base = d) as Ed by (rewrite lookup_total_alt, Hd; done).
  eexists. split; [unfold rg; by rewrite Ed|]. split.
  - done.
  - intros b. apply insert_dev. by eexists.
  - intros b r. unfold rg. cbn [io_hw set_io_hw]. destruct (decide (b = base)) as [->|Hne].
    + by rewrite lookup_total_insert_eq, Ed.
    + by rewrite lookup_total_insert_ne.
Qed.

Lemma ioapic_write_ok s base reg v : dev s base -> 0 <= reg < W32 ->
  exists s', ioapic_write base reg v s = Ok (tt, s') /\ regs_now s s' (upd (rg s) base reg (u32 v)).
Proof.
  intros [d Hd] Hr. unfold ioapic_write, mmio_sel, mmio_data_write. mrun. rewrite Hd. cbn [io_hw set_io_hw].
  rewrite lookup_insert_eq. cbn [io_regs io_sel]. rewrite (u32_id reg) by done.
  assert (io_hw s !!! base = d) as Ed by (rewrite lookup_total_alt, Hd; done).
  eexists. split; [done|]. rewrite insert_insert_eq. split.
  - done.
  - intros b. apply (insert_dev s). by eexists.
  - intros b r. unfold rg, upd. cbn [io_hw set_io_hw]. destruct (decide (b = base)) as [->|Hne].
    + rewrite lookup_total_insert_eq. cbn [io_regs]. rewrite Ed. destruct (decide (r = reg)) as [->|Hn].
      * rewrite lookup_total_insert_eq. by rewrite decide_True.
      * rewrite lookup_total_insert_ne by done. by rewrite decide_False by tauto.
    + rewrite lookup_total_insert_ne by done. by rewrite decide_False by tauto.
Qed.

Lemma regs_now_trans s1 s2 s3 f g : regs_now s1 s2 f -> regs_now s2 s3 g -> regs_now s1 s3 g.
Proof.
  intros [A1 B1 _] [A2 B2 C2]. split; [by eapply same_drv_trans| |done]. intros b. rewrite B2. apply B1.
Qed.

Definition maxof (s : apicst) (base : Z) : Z := Z.land (Z.shiftr (rg s base IOAPIC_VER) 16) 0xFF.
Lemma maxof_range s base : 0 <= maxof s base < 256.
Proof. unfold maxof. change 0xFF with (Z.ones 8). rewrite Z.land_ones by lia. by apply Z.mod_pos_bound. Qed.
Lemma max_intr_ok s base : dev s base -> exists s', max_intr base s = Ok (maxof s base, s') /\ regs_now s s' (rg s).
Proof.
  intros Hd. destruct (ioapic_read_ok s base IOAPIC_VER Hd) as (s' & E & R); [unfold IOAPIC_VER, W32; lia|].
  exists s'. unfold max_intr. by rewrite (bind_ok _ _ _ _ _ E).
Qed.

(** ** Redirection entries *)

(** Entry [j]: nothing if it is masked, else destination, vector, level
    triggering and low polarity *)
Definition route (s : apicst) (base j : Z) : option (Z * Z * bool * bool) :=
  let lo := rg s base (IOAPIC_TABLE + 2 * j) in
  if Z.testbit lo 16 then None
  else Some (Z.shiftr (rg s base (IOAPIC_TABLE + 2 * j + 1)) 24, Z.land lo 0xFF, Z.testbit lo 15, Z.testbit lo 13).

Lemma mask_entry_ok s base j : dev s base -> 0 <= j < 256 ->
  exists s', mask_entry base j s = Ok (tt, s')
    /\ regs_now s s' (upd (upd (rg s) base (IOAPIC_TABLE + 2 * j) (u32 (Z.lor IOAPIC_INT_DISABLED (T_IRQ0 + j))))
                          base (IOAPIC_TABLE + 2 * j + 1) 0).
Proof.
  intros Hd Hj. unfold mask_entry.
  destruct (ioapic_write_ok s base (IOAPIC_TABLE + 2 * j) (Z.lor IOAPIC_INT_DISABLED (T_IRQ0 + j)) Hd) as (s1 & E1 & R1);
    [unfold IOAPIC_TABLE, W32; lia|].
  destruct (ioapic_write_ok s1 base (IOAPIC_TABLE + 2 * j + 1) 0) as (s2 & E2 & R2);
    [by apply (rn_dev _ _ _ R1)|unfold IOAPIC_TABLE, W32; lia|].
  exists s2. rewrite (bind_ok _ _ _ _ _ E1). split; [done|]. split.
  - eapply same_drv_trans; [apply R1|apply R2].
  - intros b. rewrite (rn_dev _ _ _ R2). apply R1.
  - intros b r. rewrite (rn_reg _ _ _ R2). unfold upd at 1 2. case_decide; [done|]. apply R1.
Qed.

(** The registers of [base] other than the first [n] entries are those of [s]. *)
Record masked (s : apicst) (base n : Z) (s' : apicst) : Prop := {
  mk_drv : same_drv s s';
  mk_dev b : dev s' b <-> dev s b;
  mk_keep b r : b <> base \/ ~ (IOAPIC_TABLE <= r < IOAPIC_TABLE + 2 * n) -> rg s' b r = rg s b r;
  mk_route j : 0 <= j < n -> route s' base j = None;
}.

Lemma disabled_bit j : 0 <= j < 256 -> Z.testbit (u32 (Z.lor IOAPIC_INT_DISABLED (T_IRQ0 + j))) 16 = true.
Proof.
  intros Hj. unfold u32, W32. change 4294967296 with (2 ^ 32). rewrite Z.mod_pow2_bits_low by lia. by rewrite Z.lor_spec.
Qed.

Lemma mask_all_ok s base n : dev s base -> 0 <= n <= 256 ->
  exists s', for_each (seqZ 0 n) (mask_entry base) s = Ok (tt, s') /\ masked s base n s'.
Proof.
  intros Hd Hn. apply (for_range_ind (fun k s' => masked s base k s')); [lia| |].
  - intros k s1 Hk M1. destruct (mask_entry_ok s1 base k) as (s2 & E2 & R2); [by apply (mk_dev _ _ _ _ M1)|lia|].
    exists s2. split; [done|]. destruct M1 as [D1 V1 K1 T1]. destruct R2 as [D2 V2 G2]. split.
    + by eapply same_drv_trans.
    + intros b. by rewrite V2.
    + intros b r Hr. rewrite G2. unfold upd. rewrite !decide_False by lia. apply K1. lia.
    + intros j Hj. unfold route. rewrite !G2. unfold upd. destruct (decide (j = k)) as [->|Hne].
      * rewrite decide_False by lia. rewrite decide_True by done. by rewrite disabled_bit by lia.
      * rewrite !decide_False by lia. apply T1. lia.
  - split; [apply same_drv_refl|done|done|lia].
Qed.

(** ** ioapic_init *)
Record ioapics_ok (s : apicst) : Prop := {
  io_num : 0 <= ioapic_num s <= MAX_IOAPIC;
  io_dev i : 0 <= i < ioapic_num s -> dev s (ioapics s !!! i) /\ ioapics s !!! i <> 0;
  io_apart i k : 0 <= i < ioapic_num s -> 0 <= k < ioapic_num s -> ioapics s !!! i = ioapics s !!! k -> i = k;
}.

(** Device [base] is initialised: its table is masked, nothing but the table and
    its identification changed, and no other device. *)
Record inited (s : apicst) (base : Z) (s' : apicst) : Prop := {
  it_drv : same_drv s s';
  it_dev b : dev s' b <-> dev s b;
  it_ver b : rg s' b IOAPIC_VER = rg s b IOAPIC_VER;
  it_other b r : b <> base -> rg s' b r = rg s b r;
  it_route j : 0 <= j <= maxof s base -> route s' base j = None;
}.

Lemma same_drv_fields s s' : same_drv s s' ->
  ioapics s' = ioapics s /\ ioapicid s' = ioapicid s /\ gsi s' = gsi s /\ ioapic_num s' = ioapic_num s.
Proof. intros ->. done. Qed.

Lemma init_one_ok s i (base := ioapics s !!! i) : dev s base -> base <> 0 ->
  exists s', ioapic_init_one i s = Ok (tt, s') /\ inited s base s'.
Proof.
  intros Hd Hb. unfold ioapic_init_one. rewrite gets_bind. fold base. rewrite decide_False by done.
  destruct (ioapic_read_ok s base IOAPIC_ID Hd) as (s1 & E1 & R1); [done|]. rewrite (bind_ok _ _ _ _ _ E1), gets_bind.
  assert (dev s1 base) as Hd1 by by apply (rn_dev _ _ _ R1).
  assert (exists s2, (if decide (u8 (Z.shiftr (rg s base IOAPIC_ID) 24) = 0)
      then ioapic_write base IOAPIC_ID (Z.shiftl (ioapicid s1 !!! i) 24) else mret tt) s1 = Ok (tt, s2)
    /\ same_drv s s2 /\ (forall b, dev s2 b <-> dev s b) /\ (forall b r, b <> base \/ r <> IOAPIC_ID -> rg s2 b r = rg s b r))
    as (s2 & E2 & D2 & V2 & G2).
  { case_decide.
    - destruct (ioapic_write_ok s1 base IOAPIC_ID (Z.shiftl (ioapicid s1 !!! i) 24) Hd1) as (s2 & E2 & R2); [done|].
      exists s2. split; [done|]. split; [eapply same_drv_trans; [apply R1|apply R2]|].
      split; [intros b; rewrite (rn_dev _ _ _ R2); apply R1|].
      intros b r Hr. rewrite (rn_reg _ _ _ R2). unfold upd. rewrite decide_False by tauto. apply R1.
    - exists s1. split; [done|]. split; [apply R1|]. split; [apply R1|]. intros b r _. apply R1. }
  rewrite (bind_ok _ _ _ _ _ E2). destruct (max_intr_ok s2 base) as (s3 & E3 & R3); [by apply V2|].
  rewrite (bind_ok _ _ _ _ _ E3). assert (maxof s2 base = maxof s base) as Em.
  { unfold maxof. rewrite G2; [done|]. by right. }
  pose proof (maxof_range s base) as Hm. rewrite Em.
  destruct (mask_all_ok s3 base (maxof s base + 1)) as (s4 & E4 & [D4 V4 K4 T4]);
    [apply (rn_dev _ _ _ R3); by apply V2|lia|].
  exists s4. split; [done|].
  assert (forall b r, rg s3 b r = rg s2 b r) as G3 by apply R3. split.
  - eapply same_drv_trans; [exact D2|]. eapply same_drv_trans; [apply R3|done].
  - intros b. rewrite V4, (rn_dev _ _ _ R3). apply V2.
  - intros b. rewrite K4, G3 by (right; unfold IOAPIC_TABLE, IOAPIC_VER; lia). apply G2. by right.
  - intros b r Hne. rewrite K4, G3 by by left. apply G2. by left.
  - intros j Hj. apply T4. lia.
Qed.

(** All devices are initialised. *)
Record all_masked_from (s : apicst) (k : Z) (s' : apicst) : Prop := {
  am_drv : same_drv s s';
  am_dev b : dev s' b <-> dev s b;
  am_ver b : rg s' b IOAPIC_VER = rg s b IOAPIC_VER;
  am_other b r : (forall i, 0 <= i < ioapic_num s -> ioapics s !!! i <> b) -> rg s' b r = rg s b r;
  am_route i j : 0 <= i < k -> 0 <= j <= maxof s (ioapics s !!! i) -> route s' (ioapics s !!! i) j = None;
}.

Lemma route_ext s s' b j : (forall r, rg s' b r = rg s b r) -> route s' b j = route s b j.
Proof. intros H. unfold route. by rewrite !H. Qed.

Lemma ioapic_init_ok s : ioapics_ok s ->
  exists s', ioapic_init s = Ok (tt, s') /\ all_masked_from s (ioapic_num s) s'.
Proof.
  intros [Hn Hd Ha]. unfold ioapic_init. rewrite gets_bind.
  apply (for_range_ind (fun k s' => all_masked_from s k s')); [lia| |].
  - intros k s1 Hk [D1 V1 R1 O1 T1]. destruct (same_drv_fields _ _ D1) as (Ea & _). destruct (Hd k Hk) as [Hdk H0k].
    destruct (init_one_ok s1 k) as (s2 & E2 & [D2 V2 R2 O2 T2]); [rewrite Ea; by apply V1|by rewrite Ea|].
    rewrite Ea in *. exists s2. split; [done|].
    assert (maxof s1 (ioapics s !!! k) = maxof s (ioapics s !!! k)) as Em by (unfold maxof; by rewrite R1). split.
    + by eapply same_drv_trans.
    + intros b. by rewrite V2.
    + intros b. by rewrite R2.
    + intros b r Hb. rewrite O2; [by apply O1|]. intros ->. by apply (Hb k).
    + intros i j Hi Hj. destruct (decide (i = k)) as [->|Hne]; [apply T2; by rewrite Em|].
      rewrite (route_ext s1 s2); [apply T1; [lia|done]|]. intros r. apply O2. intros E. apply Hne. apply Ha; done || lia.
  - split; [apply same_drv_refl|done|done|done|lia].
Qed.

(** ** ioapic_enable *)

(** Line [irq] belongs to entry [irq - gsi] of device [i]. *)
Definition covers (s : apicst) (irq i : Z) : Prop :=
  0 <= i < ioapic_num s /\ gsi s !!! i <= irq <= gsi s !!! i + maxof s (ioapics s !!! i).

Definition entry_lo (irq : Z) (t p : bool) : Z := Z.lor (Z.lor (Z.shiftl (Z.b2z t) 15) (Z.shiftl (Z.b2z p) 13)) (T_IRQ0 + irq).

Definition enabled (s : apicst) (irq apicid : Z) (t p : bool) (i : Z) : Z -> Z -> Z :=
  let base := ioapics s !!! i in
  let j := irq - gsi s !!! i in
  upd (upd (rg s) base (IOAPIC_TABLE + 2 * j) (u32 (entry_lo irq t p))) base (IOAPIC_TABLE + 2 * j + 1) (u32 (Z.shiftl apicid 24)).

Lemma write_entry_ok s irq apicid t p i (base := ioapics s !!! i) (j := irq - gsi s !!! i) : dev s base -> covers s irq i ->
  exists s', (ioapic_write base (IOAPIC_TABLE + 2 * j) (entry_lo irq t p) ;;
      ioapic_write base (IOAPIC_TABLE + 2 * j + 1) (Z.shiftl apicid 24) ;; mret (Some tt)) s = Ok (Some tt, s')
    /\ regs_now s s' (enabled s irq apicid t p i).
Proof.
  intros Hd [Hi Hr]. fold base in Hr. pose proof (maxof_range s base) as Hm.
  destruct (ioapic_write_ok s base (IOAPIC_TABLE + 2 * j) (entry_lo irq t p) Hd) as (s1 & E1 & R1);
    [unfold IOAPIC_TABLE, W32, j; lia|].
  destruct (ioapic_write_ok s1 base (IOAPIC_TABLE + 2 * j + 1) (Z.shiftl apicid 24)) as (s2 & E2 & R2);
    [by apply (rn_dev _ _ _ R1)|unfold IOAPIC_TABLE, W32, j; lia|].
  exists s2. rewrite (bind_ok _ _ _ _ _ E1), (bind_ok _ _ _ _ _ E2). split; [done|]. split.
  - eapply same_drv_trans; [apply R1|apply R2].
  - intros b. rewrite (rn_dev _ _ _ R2). apply R1.
  - intros b r. rewrite (rn_reg _ _ _ R2). unfold enabled, upd at 1 2. fold base j. case_decide; [done|]. apply R1.
Qed.

Lemma ioapic_enable_ok s irq apicid t p i :
  ioapics_ok s -> covers s irq i -> (forall k, covers s irq k -> k = i) ->
  exists s', ioapic_enable irq apicid t p s = Ok (tt, s') /\ regs_now s s' (enabled s irq apicid t p i).
Proof.
  intros [Hn Hd Ha] Hi Hu. unfold ioapic_enable. rewrite gets_bind.
  destruct (first_of_ind (fun d s1 => regs_now s s1 (rg s) /\ i ∉ d) (fun _ _ _ s1 => regs_now s s1 (enabled s irq apicid t p i))
    (fun k => base ← gets (fun s => ioapics s !!! k);
      maxintr ← max_intr base;
      g ← gets (fun s => gsi s !!! k);
      if decide (irq >= g /\ irq <= g + maxintr) then
        ioapic_write base (IOAPIC_TABLE + 2 * (irq - g)) (entry_lo irq t p) ;;
        ioapic_write base (IOAPIC_TABLE + 2 * (irq - g) + 1) (Z.shiftl apicid 24) ;;
        mret (Some tt)
      else mret None) (seqZ 0 (ioapic_num s))) with (s := s) as (o & s' & E & H).
  - intros d x r s1 El [R1 Hnd].
    destruct (seqZ_split _ _ _ _ El) as [Hx _].
    destruct (same_drv_fields _ _ (rn_drv _ _ _ R1)) as (Ea & _ & Eg & En). destruct (Hd x Hx) as [Hdx _].
    rewrite gets_bind, Ea. destruct (max_intr_ok s1 (ioapics s !!! x)) as (s2 & E2 & R2); [by apply (rn_dev _ _ _ R1)|].
    rewrite (bind_ok _ _ _ _ _ E2), gets_bind. destruct (same_drv_fields _ _ (rn_drv _ _ _ R2)) as (Ea2 & _ & Eg2 & En2).
    rewrite Eg2, Eg. assert (maxof s1 (ioapics s !!! x) = maxof s (ioapics s !!! x)) as Em by (unfold maxof; by rewrite (rn_reg _ _ _ R1)).
    rewrite Em. pose proof (regs_now_trans _ _ _ _ _ R1 R2) as R12.
    assert (forall b r, rg s2 b r = rg s b r) as G2 by (intros b q; rewrite (rn_reg _ _ _ R2); apply R1).
    case_decide as Hc.
    + assert (covers s irq x) as Hcx by (split; [done|lia]). pose proof (Hu x Hcx) as ->.
      destruct (write_entry_ok s2 irq apicid t p i) as (s3 & E3 & R3).
      * rewrite Ea2, Ea. by apply (rn_dev _ _ _ R12).
      * unfold covers. rewrite En2, En, Eg2, Eg, Ea2, Ea. unfold maxof. rewrite G2. exact Hcx.
      * rewrite Ea2, Ea, Eg2, Eg in E3. exists (Some tt), s3. split; [exact E3|].
        split; [eapply same_drv_trans; [apply R12|apply R3]|intros b; rewrite (rn_dev _ _ _ R3); apply R12|].
        intros b q. rewrite (rn_reg _ _ _ R3). unfold enabled, upd. rewrite Ea2, Ea, Eg2, Eg. repeat case_decide; done || apply G2.
    + exists None, s2. split; [done|]. split.
      * split; [apply R12|apply R12|exact G2].
      * rewrite not_elem_of_app, list_elem_of_singleton. split; [done|]. intros ->. destruct Hi as [_ Hi]. lia.
  - split; [|apply not_elem_of_nil]. by split; [apply same_drv_refl| |].
  - unfold entry_lo in E. rewrite (bind_ok _ _ _ _ _ E). destruct o as [[]|].
    + exists s'. split; [done|]. by destruct H as (d & x & r & _ & H).
    + destruct H as [_ H]. exfalso. apply H, elem_of_seqZ. destruct Hi as [Hi _]. lia.
Qed.

Lemma entry_bits irq t p : 0 <= irq <= 223 ->
  Z.testbit (u32 (entry_lo irq t p)) 16 = false /\ Z.testbit (u32 (entry_lo irq t p)) 15 = t
  /\ Z.testbit (u32 (entry_lo irq t p)) 13 = p /\ Z.land (u32 (entry_lo irq t p)) 0xFF = T_IRQ0 + irq.
Proof.
  intros Hi. unfold u32, W32. change 4294967296 with (2 ^ 32). rewrite !Z.mod_pow2_bits_low by lia.
  assert (forall n, 8 <= n -> Z.testbit (T_IRQ0 + irq) n = false) as Hb.
  { intros n Hn. apply Z.bits_above_log2; [unfold T_IRQ0; lia|]. apply Z.log2_lt_pow2; [unfold T_IRQ0; lia|].
    apply Z.lt_le_trans with (2 ^ 8); [unfold T_IRQ0; lia|]. apply Z.pow_le_mono_r; lia. }
  assert (entry_lo irq t p mod 2 ^ 8 = T_IRQ0 + irq) as El.
  { apply Z.bits_inj'. intros n Hn. destruct (decide (n < 8)) as [H8|H8].
    - rewrite Z.mod_pow2_bits_low by lia. unfold entry_lo. rewrite !Z.lor_spec, !Z.shiftl_spec_low by lia. done.
    - rewrite Z.mod_pow2_bits_high by lia. by rewrite Hb by lia. }
  split_and!.
  1-3: unfold entry_lo; rewrite !Z.lor_spec, Hb by lia; by destruct t, p.
  change 0xFF with (Z.ones 8). rewrite Z.land_ones by lia. rewrite <- El. symmetry.
  apply Z.bits_inj'. intros n Hn. destruct (decide (n < 8)).
  - by rewrite !Z.mod_pow2_bits_low by lia.
  - by rewrite !Z.mod_pow2_bits_high by lia.
Qed.

Lemma dest_bits d : 0 <= d < 256 -> Z.shiftr (u32 (Z.shiftl d 24)) 24 = d.
Proof.
  intros Hd. rewrite Z.shiftl_mul_pow2 by lia. rewrite u32_id by (unfold W32; lia). rewrite Z.shiftr_div_pow2 by lia.
  apply Z.div_mul. lia.
Qed.

(** The last of the calls that enabled [irq] *)
Definition ioapic_op : Type := Z * Z * bool * bool.
Definition last_op (ops : list ioapic_op) (irq : Z) : option (Z * bool * bool) :=
  foldl (fun r '(n, d, t, p) => if decide (n = irq) then Some (d, t, p) else r) None ops.

Lemma last_op_snoc ops irq n d t p :
  last_op (ops ++ [(n, d, t, p)]) irq = if decide (n = irq) then Some (d, t, p) else last_op ops irq.
Proof. unfold last_op. by rewrite foldl_app. Qed.

Record routed (s : apicst) (ops : list ioapic_op) (s' : apicst) : Prop := {
  ro_drv : same_drv s s';
  ro_dev b : dev s' b <-> dev s b;
  ro_ver b : rg s' b IOAPIC_VER = rg s b IOAPIC_VER;
  ro_route i j : 0 <= i < ioapic_num s -> 0 <= j <= maxof s (ioapics s !!! i) ->
    route s' (ioapics s !!! i) j =
      match last_op ops (gsi s !!! i + j) with
      | Some (d, t, p) => Some (d, T_IRQ0 + (gsi s !!! i + j), t, p)
      | None => None
      end;
}.

Lemma routed_enable s ops s1 irq d t p i :
  ioapics_ok s -> routed s ops s1 -> covers s irq i -> (forall k, covers s irq k -> k = i) -> 0 <= irq <= 223 -> 0 <= d < 256 ->
  exists s2, ioapic_enable irq d t p s1 = Ok (tt, s2) /\ routed s (ops ++ [(irq, d, t, p)]) s2.
Proof.
  intros Hok [D1 V1 R1 T1] Hc Hu Hi Hd. destruct (same_drv_fields _ _ D1) as (Ea & Ei & Eg & En).
  assert (forall b, maxof s1 b = maxof s b) as Em by (intros b; unfold maxof; by rewrite R1).
  assert (forall n k, covers s1 n k <-> covers s n k) as Hcov.
  { intros n k. unfold covers. rewrite Ea, Eg, En, Em. done. }
  destruct (ioapic_enable_ok s1 irq d t p i) as (s2 & E2 & [D2 V2 G2]).
  { destruct Hok as [Hn Hdv Ha]. split; rewrite ?En, ?Ea; [done| |done]. intros k Hk. split; [apply V1|]; by apply Hdv. }
  { by apply Hcov. }
  { intros k Hk. apply Hu. by apply Hcov. }
  exists s2. split; [done|]. destruct Hc as [Hci Hcr]. split.
  - by eapply same_drv_trans.
  - intros b. by rewrite V2.
  - intros b. rewrite G2. unfold enabled, upd. rewrite Eg. rewrite !decide_False by (unfold IOAPIC_VER, IOAPIC_TABLE; lia). apply R1.
  - intros k j Hk Hj. rewrite last_op_snoc. unfold route. rewrite !G2. unfold enabled, upd. rewrite Ea, Eg.
    destruct (decide (irq = gsi s !!! k + j)) as [E|E].
    + assert (k = i) as -> by (apply Hu; split; [done|lia]).
      rewrite (decide_False (P := _ /\ IOAPIC_TABLE + 2 * j = IOAPIC_TABLE + 2 * (irq - gsi s !!! i) + 1)) by lia.
      rewrite (decide_True (P := _ /\ IOAPIC_TABLE + 2 * j = IOAPIC_TABLE + 2 * (irq - gsi s !!! i))) by (split; [done|lia]).
      rewrite (decide_True (P := _ /\ IOAPIC_TABLE + 2 * j + 1 = _)) by (split; [done|lia]).
      destruct (entry_bits irq t p Hi) as (-> & -> & -> & ->). rewrite dest_bits by done. by rewrite <- E.
    + assert (~ (ioapics s !!! k = ioapics s !!! i /\ j = irq - gsi s !!! i)) as Hne.
      { intros [Eb Ej]. assert (k = i) as -> by by apply (io_apart _ Hok). lia. }
      rewrite !(decide_False (P := ioapics s !!! k = ioapics s !!! i /\ _)) by (intros [? ?]; apply Hne; split; [done|lia]).
      exact (T1 k j Hk Hj).
Qed.

(** ** Starting a processor *)

(** A processor seen from outside: running something, waiting for a start-up
    message, or started at an address.  A command is for it if it names its APIC;
    an INIT message resets it, a start-up message starts it if it waits. *)
Inductive ap_state := ApOther | ApWaits | ApRuns (addr : Z).
Definition ap_command (id : Z) (st : ap_state) (c : Z * Z) : ap_state :=
  let '(hi, lo) := c in
  if decide (Z.shiftr hi 24 <> id \/ Z.land lo 0xC0000 <> 0) then st
  else if decide (Z.land lo 0x700 = LAPIC_ICRLO_INIT) then
    if decide (Z.land lo LAPIC_ICRLO_ASSERT = 0) then st else ApWaits
  else if decide (Z.land lo 0x700 = LAPIC_ICRLO_STARTUP) then
    match st with ApWaits => ApRuns (Z.shiftl (Z.land lo 0xFF) 12) | _ => st end
  else st.
Definition ap_after (id : Z) (st : ap_state) (cs : list (Z * Z)) : ap_state := foldr (fun c st => ap_command id st c) st cs.

(** The commands of [lapic_startcpu], the last one first *)
Definition start_commands (apicid page : Z) : list (Z * Z) :=
  [(Z.shiftl apicid 24, Z.lor LAPIC_ICRLO_STARTUP page); (Z.shiftl apicid 24, Z.lor LAPIC_ICRLO_STARTUP page);
   (Z.shiftl apicid 24, 0x8500); (Z.shiftl apicid 24, 0xC500)].

Lemma startup_bits page : 0 <= page < 256 ->
  Z.land (u32 (Z.lor LAPIC_ICRLO_STARTUP page)) (Z.lnot LAPIC_ICRLO_DELIVS) = Z.lor LAPIC_ICRLO_STARTUP page
  /\ Z.land (Z.lor LAPIC_ICRLO_STARTUP page) 0xC0000 = 0 /\ Z.land (Z.lor LAPIC_ICRLO_STARTUP page) 0x700 = LAPIC_ICRLO_STARTUP
  /\ Z.land (Z.lor LAPIC_ICRLO_STARTUP page) 0xFF = page.
Proof.
  intros Hp. revert page Hp. apply (seqZ_forall 256). apply (bool_decide_unpack _). by vm_compute.
Qed.

Lemma lapic_write_ok s index v : lapic s <> 0 -> lapic_write index v s = Ok (tt, lapic_store index v s).
Proof.
  intros Hl. unfold lapic_write, lapic_read. mrun. rewrite decide_False by done.
  assert (lapic (lapic_store index v s) = lapic s) as -> by (unfold lapic_store; by case_decide). by rewrite decide_False by done.
Qed.
(** The high half of the command register, then the low half *)
Lemma send_ok s hi lo : lapic s <> 0 ->
  exists s', (forall k : A unit, (lapic_write LAPIC_ICRHI hi ;; lapic_write LAPIC_ICRLO lo ;; k) s = k s')
    /\ lapic s' = lapic s /\ pmem s' = pmem s /\ lregs s' !!! LAPIC_ICRHI = u32 hi
    /\ ipis s' = (u32 hi, Z.land (u32 lo) (Z.lnot LAPIC_ICRLO_DELIVS)) :: ipis s.
Proof.
  intros Hl. assert (lapic (lapic_store LAPIC_ICRHI hi s) <> 0) as Hl1 by done. eexists. split.
  { intros k. rewrite (bind_ok _ _ _ _ _ (lapic_write_ok s LAPIC_ICRHI hi Hl)).
    rewrite (bind_ok _ _ _ _ _ (lapic_write_ok _ LAPIC_ICRLO lo Hl1)). reflexivity. }
  unfold lapic_store. rewrite (decide_False (P := LAPIC_ICRHI = LAPIC_ICRLO)) by done. rewrite decide_True by done.
  cbn [set_lregs lapic pmem lregs ipis]. rewrite lookup_total_insert_eq. split; [done|]. split; [done|]. split; [|done].
  rewrite lookup_total_insert_ne by done. by rewrite lookup_total_insert_eq.
Qed.
Lemma send_low_ok s lo : lapic s <> 0 ->
  exists s', (forall k : A unit, (lapic_write LAPIC_ICRLO lo ;; k) s = k s')
    /\ lapic s' = lapic s /\ pmem s' = pmem s
    /\ ipis s' = (lregs s !!! LAPIC_ICRHI, Z.land (u32 lo) (Z.lnot LAPIC_ICRLO_DELIVS)) :: ipis s.
Proof.
  intros Hl. eexists. split; [intros k; by rewrite (bind_ok _ _ _ _ _ (lapic_write_ok s LAPIC_ICRLO lo Hl))|].
  unfold lapic_store. by rewrite decide_True by done.
Qed.

Lemma lapic_startcpu_ok s apicid page (addr := Z.shiftl page 12) : lapic s <> 0 -> 0 <= apicid < 256 -> 0 <= page < 256 ->
  exists s', lapic_startcpu apicid addr s = Ok (tt, s') /\ lapic s' = lapic s /\ ipis s' = start_commands apicid page ++ ipis s
    /\ pmem s' = <[1130 := u8 (Z.shiftr (Z.shiftr addr 4) 8)]> (<[1129 := u8 (Z.shiftr addr 4)]> (<[1128 := 0]> (<[1127 := 0]> (pmem s)))).
Proof.
  intros Hl Hi Hp. unfold lapic_startcpu, port_out, store16. change (Z.lor (Z.shiftl 0x40 4) 0x67) with 1127.
  rewrite !modify_bind. set (s0 := set_pmem _ _). assert (lapic s0 = lapic s /\ ipis s0 = ipis s) as [L0 I0] by done.
  assert (Z.shiftr addr 12 = page) as -> by (unfold addr; by rewrite Z.shiftr_shiftl_r, Z.shiftr_0_r by lia).
  assert (u32 (Z.shiftl apicid 24) = Z.shiftl apicid 24) as Eh.
  { rewrite Z.shiftl_mul_pow2 by lia. apply u32_id. unfold W32. lia. }
  destruct (startup_bits page Hp) as (Eb & _).
  destruct (send_ok s0 (Z.shiftl apicid 24) (Z.lor (Z.lor LAPIC_ICRLO_INIT LAPIC_ICRLO_LEVEL) LAPIC_ICRLO_ASSERT)) as (s1 & E1 & L1 & P1 & H1 & I1);
    [by rewrite L0|]. rewrite E1.
  destruct (send_low_ok s1 (Z.lor LAPIC_ICRLO_INIT LAPIC_ICRLO_LEVEL)) as (s2 & E2 & L2 & P2 & I2); [by rewrite L1, L0|]. rewrite E2.
  cbn [for_each]. rewrite !bind_assoc.
  destruct (send_ok s2 (Z.shiftl apicid 24) (Z.lor LAPIC_ICRLO_STARTUP page)) as (s3 & E3 & L3 & P3 & _ & I3); [by rewrite L2, L1, L0|].
  destruct (send_ok s3 (Z.shiftl apicid 24) (Z.lor LAPIC_ICRLO_STARTUP page)) as (s4 & E4 & L4 & P4 & _ & I4); [by rewrite L3, L2, L1, L0|].
  exists s4. rewrite E3, bind_assoc, E4. split; [done|]. split; [by rewrite L4, L3, L2, L1|].
  rewrite I4, I3, I2, I1, I0, H1, Eh, Eb. split; [done|]. by rewrite P4, P3, P2, P1.
Qed.

(** The processor that is named runs at the page, the others go on. *)
Lemma start_commands_run id page : 0 <= id < 256 -> 0 <= page < 256 ->
  (forall st, ap_after id st (start_commands id page) = ApRuns (Z.shiftl page 12))
  /\ (forall k st, k <> id -> ap_after k st (start_commands id page) = st).
Proof.
  intros Hi Hp. destruct (startup_bits page Hp) as (_ & B1 & B2 & B3).
  assert (Z.shiftr (Z.shiftl id 24) 24 = id) as Hs by (rewrite Z.shiftr_shiftl_r, Z.shiftr_0_r by lia; done).
  split; intros; unfold ap_after, start_commands; cbn [foldr]; unfold ap_command; rewrite Hs.
  - rewrite B1, B2, B3. rewrite !(decide_False (P := id <> id \/ _)) by (intros [?|?]; done). destruct st; cbn; done.
  - by rewrite !(decide_True (P := id <> k \/ _)) by (left; congruence).
Qed.

(** ** Calibration *)

(** The counter goes down by [lo] to [hi] from one read to the next. *)
Inductive counts_down (lo hi : Z) : Z -> list Z -> Prop :=
| cd_nil t : counts_down lo hi t []
| cd_cons t t' l : lo <= t - t' <= hi -> counts_down lo hi t' l -> counts_down lo hi t (t' :: l).

Lemma counts_down_last lo hi t l : 0 <= lo -> counts_down lo hi t l -> default t (last l) <= t.
Proof.
  intros Hlo H. induction H as [|t t' l Hd H IH]; [done|]. rewrite last_cons. cbn [default]. destruct (last l); cbn in *; lia.
Qed.

Lemma cal_loop_ok lo hi t l : 0 < lo -> hi < W32 -> counts_down lo hi t l -> 0 <= default t (last l) -> t < W32 ->
  forall mn mx n, lo <= mn -> mx <= hi -> (l <> [] \/ mn <= hi) ->
  exists mn' mx', foldl cal_step (mk_cal t mn mx n) l = mk_cal (default t (last l)) mn' mx' (n + Z.of_nat (length l))
    /\ lo <= mn' <= hi /\ mx' <= hi.
Proof.
  intros Hlo Hhi H. induction H as [t|t t' l Hd H IH]; intros H0 Ht mn mx n Hmn Hmx Hne.
  - exists mn, mx. cbn. rewrite Z.add_0_r. split; [done|]. destruct Hne; [done|]. lia.
  - cbn [foldl]. unfold cal_step at 2. cbn [c_timer c_min c_max c_cnt].
    assert (u32 (t - t') = t - t') as -> by (apply u32_id; lia).
    rewrite last_cons in *. cbn [default] in *.
    assert (default t (Some (default t' (last l))) = default t' (last l)) as El by done.
    destruct (IH) with (mn := if decide (t - t' < mn) then t - t' else mn) (mx := if decide (t - t' > mx) then t - t' else mx) (n := n + 1)
      as (mn' & mx' & E & Hb); try (repeat case_decide; lia).
    + by destruct (last l).
    + exists mn', mx'. rewrite E. split; [|done]. f_equal; [by destruct (last l)|]. cbn [length]. lia.
Qed.

Lemma calibrate_ok s t l lo hi : lapic s <> 0 -> 0 < lo <= hi -> hi <= 10 * lo -> 10 * hi < W32 -> CAL_PIT_LOOPS <= Z.of_nat (length l) ->
  counts_down lo hi t l -> 0 <= default t (last l) -> t < W32 ->
  exists s', lapic_calibrate_timer t l CAL_LATCH CAL_MS CAL_PIT_LOOPS s = Ok ((t - default t (last l)) / CAL_MS, s').
Proof.
  intros Hl Hlo Hr Hhi Hn Hc H0 Ht. unfold lapic_calibrate_timer.
  rewrite (bind_ok _ _ _ _ _ (lapic_write_ok s LAPIC_TICR 0xFFFFFFFF Hl)). unfold port_out. rewrite gets_bind, !modify_bind.
  set (s1 := set_ports _ _). unfold lapic_read. mrun. change (lapic s1) with (lapic s). rewrite decide_False by done.
  destruct (cal_loop_ok lo hi t l (proj1 Hlo) ltac:(unfold W32 in *; lia) Hc H0 Ht 0xFFFFFFFF 0 0) as (mn & mx & E & Hmn & Hmx);
    [unfold W32 in *; lia|lia|left; intros ->; cbn in Hn; unfold CAL_PIT_LOOPS in Hn; lia|].
  rewrite E. cbn [c_cnt c_max c_min c_timer].
  rewrite (u32_id (10 * mn)) by lia. rewrite decide_False by (unfold CAL_PIT_LOOPS in *; lia). rewrite decide_False by done.
  exists s1. pose proof (counts_down_last lo hi t l ltac:(lia) Hc). rewrite u32_id by lia. done.
Qed.

Module ApicProps.

(** I/O APICs route the interrupts that were enabled.  For
    registered devices at different addresses whose ranges of interrupt numbers
    do not overlap, [ioapic_init] and any sequence of [ioapic_enable] calls for
    numbers up to 223 of these ranges leave every entry of every device as the
    last call for it asked (destination, trigger mode, polarity, vector [T_IRQ0]
    plus the number), and masked if there was none. *)
Theorem ioapic_routes_enabled_irqs s (ops : list ioapic_op) :
  ioapics_ok s -> (forall irq i k, covers s irq i -> covers s irq k -> i = k) ->
  Forall (fun '(irq, d, _, _) => (exists i, covers s irq i) /\ 0 <= irq <= 223 /\ 0 <= d < 256) ops ->
  exists s', (ioapic_init ;; for_each ops (fun '(irq, d, t, p) => ioapic_enable irq d t p)) s = Ok (tt, s')
    /\ forall i j, 0 <= i < ioapic_num s -> 0 <= j <= maxof s (ioapics s !!! i) ->
         route s' (ioapics s !!! i) j =
           match last_op ops (gsi s !!! i + j) with
           | Some (d, t, p) => Some (d, T_IRQ0 + (gsi s !!! i + j), t, p)
           | None => None
           end.
Proof.
  intros Hok Hu Hf. destruct (ioapic_init_ok s Hok) as (s1 & E1 & [D1 V1 R1 _ T1]). rewrite (bind_ok _ _ _ _ _ E1).
  rewrite Forall_forall in Hf.
  destruct (for_each_ind (fun d s' => routed s d s') (fun '(irq, d, t, p) => ioapic_enable irq d t p) ops) with (s := s1)
    as (s2 & E2 & R2).
  - intros d [[[irq dst] t] p] r s' El Rd. destruct (Hf (irq, dst, t, p)) as ([i Hi] & Hr & Hd); [set_solver|].
    apply (routed_enable s d s' irq dst t p i); try done. intros k Hk. by apply (Hu irq).
  - split; [done..|]. intros i j Hi Hj. by apply T1.
  - exists s2. split; [done|]. intros i j Hi Hj. by apply (ro_route _ _ _ R2).
Qed.

Definition board : apicst :=
  mk_apicst {[0xFEC00000 := mk_ioapic_hw 0 {[1 := 0x170011]}]} {[0 := 0xFEC00000]} {[0 := 2]} {[0 := 0]} 1 0 0xFEE00000 ∅ [] [] 0 ∅.
Lemma ioapic_routes_enabled_irqs_witness :
  exists s', (ioapic_init ;; for_each [(14, 0, false, false); (1, 3, false, false)] (fun '(irq, d, t, p) => ioapic_enable irq d t p)) board = Ok (tt, s')
    /\ route s' 0xFEC00000 1 = Some (3, 33, false, false) /\ route s' 0xFEC00000 2 = None.
Proof.
  assert (maxof board 0xFEC00000 = 23) as Em by (vm_compute; reflexivity).
  assert (ioapics board !!! 0 = 0xFEC00000 /\ gsi board !!! 0 = 0) as [Ea Eg] by (vm_compute; split; reflexivity).
  assert (ioapic_num board = 1) as En by reflexivity.
  destruct (ioapic_routes_enabled_irqs board [(14, 0, false, false); (1, 3, false, false)]) as (s' & E & H).
  - split; rewrite ?En; unfold MAX_IOAPIC.
    + lia.
    + intros i Hi. assert (i = 0) as -> by lia. rewrite Ea. split; [by eexists|lia].
    + intros i k Hi Hk _. lia.
  - intros irq i k [Hi _] [Hk _]. rewrite En in Hi, Hk. lia.
  - repeat constructor; try lia; exists 0; unfold covers; rewrite En, Ea, Eg, Em; lia.
  - exists s'. split; [exact E|]. specialize (H 0). rewrite Ea, Eg, Em, En in H. split.
    + exact (H 1 ltac:(lia) ltac:(lia)).
    + exact (H 2 ltac:(lia) ltac:(lia)).
Defined.

(** A processor is started where it is told.  With the local
    APIC registered, [lapic_startcpu] for APIC [id] and a page-aligned address
    below 1 MB sends messages after which the processor [id] runs at this
    address, whatever it did before, and every other processor goes on as it
    was; the warm reset vector in low memory points to the same address. *)
Theorem startcpu_starts_processor s id page (addr := Z.shiftl page 12) :
  lapic s <> 0 -> 0 <= id < 256 -> 0 <= page < 256 ->
  exists s' cs, lapic_startcpu id addr s = Ok (tt, s') /\ ipis s' = cs ++ ipis s
    /\ (forall st, ap_after id st cs = ApRuns addr) /\ (forall k st, 0 <= k < 256 -> k <> id -> ap_after k st cs = st)
    /\ half_of (fun a => pmem s' !!! a) 0x467 + 16 * half_of (fun a => pmem s' !!! a) 0x469 = addr.
Proof.
  intros Hl Hi Hp. destruct (lapic_startcpu_ok s id page Hl Hi Hp) as (s' & E & _ & Ei & Em). fold addr in E, Em.
  exists s', (start_commands id page). split; [done|]. split; [done|].
  destruct (start_commands_run id page Hi Hp) as [Hr Ho]. split; [exact Hr|]. split; [intros k st _; apply Ho|].
  rewrite Em. unfold half_of. change (0x467 + 1) with 1128. change (0x469 + 1) with 1130. change 0x467 with 1127. change 0x469 with 1129.
  repeat first [rewrite lookup_total_insert_eq | rewrite lookup_total_insert_ne by lia].
  assert (Z.shiftr addr 4 = page * 256) as -> by (unfold addr; rewrite Z.shiftr_shiftl_l, Z.shiftl_mul_pow2 by lia; done).
    assert (Z.shiftr (page * 256) 8 = page) as -> by (rewrite Z.shiftr_div_pow2 by lia; apply Z.div_mul; lia).
    unfold addr, u8. rewrite Z.shiftl_mul_pow2 by lia. change (0 mod 256) with 0.
    rewrite !Zmod_mod, Z.mod_mul, (Z.mod_small page 256) by lia. lia.
Qed.

Lemma startcpu_starts_processor_witness :
  exists s' cs, lapic_startcpu 3 0x8000 board = Ok (tt, s') /\ ipis s' = cs ++ [] /\ ap_after 3 ApOther cs = ApRuns 0x8000
    /\ ap_after 2 ApOther cs = ApOther.
Proof.
  destruct (startcpu_starts_processor board 3 8 ltac:(done) ltac:(lia) ltac:(lia)) as (s' & cs & E & Ei & H1 & H2 & _).
  exists s', cs. split; [exact E|]. split; [exact Ei|]. split; [exact (H1 ApOther)|exact (H2 2 ApOther ltac:(lia) ltac:(lia))].
Defined.

(** Interrupt 16 of an I/O APIC arrives as a system call. *)
Lemma irq16_is_syscall : Z.land (entry_lo 16 false false) 0xFF = 48.
Proof. by vm_compute. Qed.
End ApicProps.
