(* ===== verification/Acpi.v ===== *)
(** * ACPI tables: dev/acpi.c

    The search for the tables the firmware leaves in memory.  A pointer is an
    address, null is 0; the structures are laid out as the compiler lays them out
    for i386 (64-bit fields aligned to four bytes).  Tables do not reach the end
    of the address space. *)

From S2P Require Import Prelude KString Bytes Pic Apic.

Definition rd8 (m : mem) (a : Z) : Z := u8 (m !!! a).
Definition rd16 (m : mem) (a : Z) : Z := half_of (fun x => m !!! x) a.
Definition rd32 (m : mem) (a : Z) : Z := word_of (fun x => m !!! x) a.

Definition ACPI_RSDP_SIG1 : Z := 0x20445352.
Definition ACPI_RSDP_SIG2 : Z := 0x20525450.
Definition ACPI_RSDT_SIG : Z := 0x54445352.
Definition ACPI_XSDT_SIG : Z := 0x54445358.
Definition ACPI_MADT_SIG : Z := 0x43495041.

(** Structures: the offsets of the fields that are read *)
Definition sizeof_rsdp : Z := 36.
Definition rsdp_rsdt_addr : Z := 16.
Definition rsdp_xsdt_addr : Z := 24.
Definition sdt_length : Z := 4.
Definition sdt_ent : Z := 36.

(** [for (i = 0; i < len; i++) sum += addr[i]], as a byte; [len] is an [int]. *)
Definition sum (m : mem) (addr len : Z) : Z :=
  u8 (foldl (fun s i => s + rd8 m (addr + i)) 0 (seqZ 0 (s32 len))).

(** The addresses [p], [p + w], ... below [e] *)
Definition steps (p e w : Z) : list Z := map (fun i => p + w * i) (seqZ 0 ((e - p + w - 1) / w)).
(** The first of them that passes a test, or null *)
Definition search (test : Z -> bool) (l : list Z) : Z := default 0 (List.find test l).

Definition rsdp_here (m : mem) (p : Z) : bool :=
  bool_decide (rd32 m p = ACPI_RSDP_SIG1) && bool_decide (rd32 m (p + 4) = ACPI_RSDP_SIG2)
  && bool_decide (sum m p sizeof_rsdp = 0).

Definition acpi_probe_rsdp_aux (addr length : Z) : A Z :=
  m ← gets pmem;
  mret (search (rsdp_here m) (steps addr (addr + length) 16)).

(** [((bda[hi] << 8) | bda[lo]) << 4], the address of the extended BIOS area *)
Definition ebda (m : mem) : Z := Z.shiftl (Z.lor (Z.shiftl (rd8 m 0x40F) 8) (rd8 m 0x40E)) 4.

Definition acpi_probe_rsdp : A Z :=
  m ← gets pmem;
  let p := ebda m in
  r ← (if decide (p <> 0) then acpi_probe_rsdp_aux p 1024 else mret 0);
  if decide (r <> 0) then mret r else acpi_probe_rsdp_aux 0xE0000 0x1FFFF.

Definition table_ok (m : mem) (sig a : Z) : bool :=
  bool_decide (rd32 m a = sig) && bool_decide (sum m a (rd32 m (a + sdt_length)) = 0).

Definition acpi_probe_rsdt (rsdp : Z) : A Z :=
  if decide (rsdp = 0) then panic "KERN_ASSERT"
  else
    m ← gets pmem;
    let rsdt := rd32 m (rsdp + rsdp_rsdt_addr) in
    if decide (rsdt = 0) then mret 0
    else if table_ok m ACPI_RSDT_SIG rsdt then mret rsdt else mret 0.

Definition acpi_probe_rsdt_ent (rsdt sig : Z) : A Z :=
  if decide (rsdt = 0) then panic "KERN_ASSERT"
  else
    m ← gets pmem;
    let e := rsdt + rd32 m (rsdt + sdt_length) in
    mret (search (table_ok m sig) (map (rd32 m) (steps (rsdt + sdt_ent) e 4))).

Definition acpi_probe_xsdt (rsdp : Z) : A Z :=
  if decide (rsdp = 0) then panic "KERN_ASSERT"
  else
    m ← gets pmem;
    let xsdt := rd32 m (rsdp + rsdp_xsdt_addr) in
    if decide (xsdt = 0) then mret 0
    else if table_ok m ACPI_XSDT_SIG xsdt then mret xsdt else mret 0.

(** The low halves of the 64-bit entries *)
Definition acpi_probe_xsdt_ent (xsdt sig : Z) : A Z :=
  if decide (xsdt = 0) then panic "KERN_ASSERT"
  else
    m ← gets pmem;
    let e := xsdt + rd32 m (xsdt + sdt_length) in
    mret (search (table_ok m sig) (map (rd32 m) (steps (xsdt + sdt_ent) e 8))).
