(* ===== verification/Mp.v ===== *)
(** * Processors: dev/pcpu_mp.c, pcpu/PCPUInit

    The processors found in the ACPI or MP tables, the identification of a
    processor with [cpuid] (an argument: leaf and subleaf to four registers), and
    the start of another processor, up to where the code waits for it.  The
    bytes of the start-up code of other processors are an argument too. *)

From S2P Require Import Prelude Machine KString Bytes Pic Apic Acpi.

(** ** Data *)
Inductive cpu_vendor := UNKNOWN_CPU | INTEL | AMD.
#[export] Instance cpu_vendor_eq_dec : EqDecision cpu_vendor.
Proof. solve_decision. Defined.

Record pcpuinfo := mk_pcpuinfo {
  lapicid : Z;
  bsp : bool;
  cpuid_high : Z;
  vendor : list Z;
  ci_vendor : cpu_vendor;
  family : Z; model : Z; step : Z; ext_family : Z; ext_model : Z;
  brand_idx : Z; clflush_size : Z; max_cpu_id : Z; apic_id : Z;
  feature1 : Z; feature2 : Z;
  l1_cache_size : Z; l1_cache_line_size : Z;
  cpuid_exthigh : Z;
}.
#[export] Instance pcpuinfo_inhabited : Inhabited pcpuinfo :=
  populate (mk_pcpuinfo 0 false 0 [] UNKNOWN_CPU 0 0 0 0 0 0 0 0 0 0 0 0 0 0).

Record mpst := mk_mpst {
  apic : apicst;                (* APICs and memory *)
  ncpu : Z;
  mp_inited : bool;
  ismp : bool;
  arch_info : gmap Z pcpuinfo;
  pcpus : gmap Z pcpu;
  pcpu_inited : bool;
  port23 : Z;                   (* the register behind port 0x23 *)
}.
Definition set_apic v s := mk_mpst v (ncpu s) (mp_inited s) (ismp s) (arch_info s) (pcpus s) (pcpu_inited s) (port23 s).
Definition set_ncpu v s := mk_mpst (apic s) v (mp_inited s) (ismp s) (arch_info s) (pcpus s) (pcpu_inited s) (port23 s).
Definition set_mp_inited v s := mk_mpst (apic s) (ncpu s) v (ismp s) (arch_info s) (pcpus s) (pcpu_inited s) (port23 s).
Definition set_ismp v s := mk_mpst (apic s) (ncpu s) (mp_inited s) v (arch_info s) (pcpus s) (pcpu_inited s) (port23 s).
Definition set_arch_info v s := mk_mpst (apic s) (ncpu s) (mp_inited s) (ismp s) v (pcpus s) (pcpu_inited s) (port23 s).
Definition set_pcpus v s := mk_mpst (apic s) (ncpu s) (mp_inited s) (ismp s) (arch_info s) v (pcpu_inited s) (port23 s).
Definition set_pcpu_inited v s := mk_mpst (apic s) (ncpu s) (mp_inited s) (ismp s) (arch_info s) (pcpus s) v (port23 s).
Definition set_port23 v s := mk_mpst (apic s) (ncpu s) (mp_inited s) (ismp s) (arch_info s) (pcpus s) (pcpu_inited s) v.

Notation C := (M mpst).
Definition on_apic {X} (m : A X) : C X := zoom apic set_apic m.
Definition on_pcpu {X} (m : M (gmap Z pcpu) X) : C X := zoom pcpus set_pcpus m.
Definition rd (f : mem -> Z) : C Z := gets (fun s => f (pmem (apic s))).

(** ** Registering processors *)
Definition pcpu_mp_init_cpu (idx lapic_id : Z) (is_bsp : bool) : C unit :=
  if decide ((is_bsp = true /\ idx = 0) \/ is_bsp = false) then
    if decide (idx >= NUM_CPUS) then mret tt
    else
      modify (fun s =>
        let i := arch_info s !!! idx in
        set_arch_info (<[idx := mk_pcpuinfo (u8 lapic_id) is_bsp (cpuid_high i) (vendor i) (ci_vendor i) (family i) (model i) (step i)
          (ext_family i) (ext_model i) (brand_idx i) (clflush_size i) (max_cpu_id i) (apic_id i) (feature1 i) (feature2 i)
          (l1_cache_size i) (l1_cache_line_size i) (cpuid_exthigh i)]> (arch_info s)) s)
  else panic "KERN_ASSERT".

(** [outb(0x22, 0x70); outb(0x23, inb(0x23) | 1)] *)
Definition imcr_to_apic : C unit :=
  on_apic (port_out 0x22 0x70) ;;
  v ← gets port23;
  on_apic (port_out 0x23 (Z.lor v 1)) ;;
  modify (set_port23 (Z.lor v 1)).

(** The start-up code for other processors goes to 0x8000. *)
Definition copy_boot_code (code : list Z) : C unit :=
  on_apic (modify (fun s => set_pmem (store_bytes 0x8000 code (pmem s)) s)).

(** *** The MP tables *)
Definition MPPROC : Z := 0x00.
Definition MPBUS : Z := 0x01.
Definition MPIOAPIC : Z := 0x02.
Definition MPIOINTR : Z := 0x03.
Definition MPLINTR : Z := 0x04.
Definition MPENAB : Z := 0x01.
Definition MPBOOT : Z := 0x02.
Definition sizeof_mp : Z := 16.
Definition sizeof_mpconf : Z := 44.

Definition mp_here (m : mem) (p : Z) : bool :=
  bool_decide (rd32 m p = 0x5F504D5F) && bool_decide (sum m p sizeof_mp = 0).
Definition mpsearch1 (addr len : Z) : A Z :=
  m ← gets pmem;
  mret (search (mp_here m) (steps addr (addr + len) sizeof_mp)).

Definition mpsearch : A Z :=
  m ← gets pmem;
  let p := ebda m in
  r ← (if decide (p <> 0) then mpsearch1 p 1024
       else
         let p := Z.lor (Z.shiftl (rd8 m 0x414) 8) (rd8 m 0x413) * 1024 in
         mpsearch1 (u32 (p - 1024)) 1024);
  if decide (r <> 0) then mret r else mpsearch1 0xF0000 0x10000.

(** The configuration table and the structure that points to it *)
Definition mpconfig : A (option (Z * Z)) :=
  mp ← mpsearch;
  m ← gets pmem;
  let conf := rd32 m (mp + 4) in
  if decide (mp = 0 \/ conf = 0) then mret None
  else if decide (rd32 m conf <> 0x504D4350) then mret None
  else if decide (rd8 m (conf + 6) <> 1 /\ rd8 m (conf + 6) <> 4) then mret None
  else if decide (sum m conf (rd16 m (conf + 4)) <> 0) then mret None
  else mret (Some (conf, mp)).

(** Each pass goes on with a larger address or never ends. *)
Fixpoint mp_entries (fuel : nat) (p e ap_idx : Z) : C unit :=
  if decide (p < e) then
    match fuel with
    | O => fail Hang
    | S fuel =>
        t ← rd (fun m => rd8 m p);
        if decide (t = MPPROC) then
          flags ← rd (fun m => rd8 m (p + 3));
          apicid ← rd (fun m => rd8 m (p + 1));
          if decide (Z.land flags MPENAB = 0) then mp_entries fuel (p + 20) e ap_idx
          else if decide (Z.land flags MPBOOT <> 0) then
            pcpu_mp_init_cpu 0 apicid true ;;
            modify (fun s => set_ncpu (u32 (ncpu s + 1)) s) ;;
            mp_entries fuel (p + 20) e ap_idx
          else
            pcpu_mp_init_cpu ap_idx apicid false ;;
            modify (fun s => set_ncpu (u32 (ncpu s + 1)) s) ;;
            mp_entries fuel (p + 20) e (u32 (ap_idx + 1))
        else if decide (t = MPIOAPIC) then
          addr ← rd (fun m => rd32 m (p + 4));
          apicno ← rd (fun m => rd8 m (p + 1));
          on_apic (ioapic_register addr apicno 0) ;;
          mp_entries fuel (p + 8) e ap_idx
        else if decide (t = MPBUS \/ t = MPIOINTR \/ t = MPLINTR) then mp_entries fuel (p + 8) e ap_idx
        else mp_entries fuel p e ap_idx
    end
  else mret tt.
Definition walk_fuel (p e : Z) : nat := Z.to_nat (e - p) + 1.

Definition mp_init_fallback (code : list Z) : C bool :=
  i ← gets mp_inited;
  if (i : bool) then mret true
  else
    r ← on_apic mpconfig;
    match r with
    | None => mret false
    | Some (conf, mp) =>
        modify (set_ismp true) ;;
        modify (set_ncpu 0) ;;
        l ← rd (fun m => rd32 m (conf + 36));
        on_apic (lapic_register l) ;;
        len ← rd (fun m => rd16 m (conf + 4));
        mp_entries (walk_fuel (conf + sizeof_mpconf) (conf + len)) (conf + sizeof_mpconf) (conf + len) 1 ;;
        imcrp ← rd (fun m => rd8 m (mp + 12));
        (if decide (imcrp <> 0) then imcr_to_apic else mret tt) ;;
        copy_boot_code code ;;
        modify (set_mp_inited true) ;;
        mret true
    end.

(** *** The ACPI tables *)
Definition ACPI_MADT_APIC_LAPIC : Z := 0.
Definition ACPI_MADT_APIC_IOAPIC : Z := 1.
Definition ACPI_APIC_ENABLED : Z := 0x1.
Definition APIC_MADT_PCAT_COMPAT : Z := 0x1.
Definition madt_ent : Z := 44.

Fixpoint madt_entries (fuel : nat) (p e ap_idx : Z) (found_bsp : bool) : C unit :=
  if decide (p < e) then
    match fuel with
    | O => fail Hang
    | S fuel =>
        t ← rd (fun m => rd8 m p);
        n ← rd (fun m => rd8 m (p + 1));
        if decide (t = ACPI_MADT_APIC_LAPIC) then
          flags ← rd (fun m => rd32 m (p + 4));
          id ← rd (fun m => rd8 m (p + 3));
          if decide (Z.land flags ACPI_APIC_ENABLED = 0) then madt_entries fuel (p + n) e ap_idx found_bsp
          else if found_bsp then
            pcpu_mp_init_cpu ap_idx id false ;;
            modify (fun s => set_ncpu (u32 (ncpu s + 1)) s) ;;
            madt_entries fuel (p + n) e (u32 (ap_idx + 1)) true
          else
            pcpu_mp_init_cpu 0 id true ;;
            modify (fun s => set_ncpu (u32 (ncpu s + 1)) s) ;;
            madt_entries fuel (p + n) e ap_idx true
        else if decide (t = ACPI_MADT_APIC_IOAPIC) then
          addr ← rd (fun m => rd32 m (p + 4));
          id ← rd (fun m => rd8 m (p + 2));
          g ← rd (fun m => rd32 m (p + 8));
          on_apic (ioapic_register addr id g) ;;
          madt_entries fuel (p + n) e ap_idx found_bsp
        else madt_entries fuel (p + n) e ap_idx found_bsp
    end
  else mret tt.

(** The MADT, or null *)
Definition find_madt : A Z :=
  rsdp ← acpi_probe_rsdp;
  if decide (rsdp = 0) then mret 0
  else
    xsdt ← acpi_probe_xsdt rsdp;
    if decide (xsdt <> 0) then acpi_probe_xsdt_ent xsdt ACPI_MADT_SIG
    else
      rsdt ← acpi_probe_rsdt rsdp;
      if decide (rsdt = 0) then mret 0 else acpi_probe_rsdt_ent rsdt ACPI_MADT_SIG.

Definition pcpu_mp_init (code : list Z) : C bool :=
  i ← gets mp_inited;
  if (i : bool) then mret true
  else
    madt ← on_apic find_madt;
    if decide (madt = 0) then
      r ← mp_init_fallback code;
      if (r : bool) then mret true
      else modify (set_ismp false) ;; modify (set_ncpu 1) ;; mret false
    else
      modify (set_ismp true) ;;
      l ← rd (fun m => rd32 m (madt + 36));
      on_apic (lapic_register l) ;;
      modify (set_ncpu 0) ;;
      len ← rd (fun m => rd32 m (madt + sdt_length));
      madt_entries (walk_fuel (madt + madt_ent) (madt + len)) (madt + madt_ent) (madt + len) 1 false ;;
      flags ← rd (fun m => rd32 m (madt + 40));
      (if decide (Z.land flags APIC_MADT_PCAT_COMPAT = 0) then imcr_to_apic else mret tt) ;;
      copy_boot_code code ;;
      modify (set_mp_inited true) ;;
      mret true.

(** ** Identification *)
Record regs4 := mk_regs4 { r_eax : Z; r_ebx : Z; r_ecx : Z; r_edx : Z }.
Definition byte_of (r j : Z) : Z := u8 (Z.shiftr r (8 * j)).

(** L1 cache sizes in KB and line sizes, by descriptor; the array has 0xff
    elements. *)
Definition intel_cache_info (d : Z) : Z * Z :=
  match d with
  | 0x0a => (8, 32) | 0x0c => (16, 32) | 0x0d => (16, 64) | 0x0e => (24, 64) | 0x2c => (32, 64)
  | 0x60 => (16, 64) | 0x66 => (8, 64) | 0x67 => (16, 64) | 0x68 => (32, 64) | _ => (0, 0)
  end.

Definition set_l1 (a b : Z) (i : pcpuinfo) : pcpuinfo :=
  mk_pcpuinfo (lapicid i) (bsp i) (cpuid_high i) (vendor i) (ci_vendor i) (family i) (model i) (step i) (ext_family i) (ext_model i)
    (brand_idx i) (clflush_size i) (max_cpu_id i) (apic_id i) (feature1 i) (feature2 i) a b (cpuid_exthigh i).

Definition GenuineIntel : list Z := [71; 101; 110; 117; 105; 110; 101; 73; 110; 116; 101; 108].
Definition AuthenticAMD : list Z := [65; 117; 116; 104; 101; 110; 116; 105; 99; 65; 77; 68].

Section Identify.
Context (cpuid : Z -> Z -> regs4).

Definition vendor_of (v : list Z) : cpu_vendor :=
  if decide (v = GenuineIntel) then INTEL else if decide (v = AuthenticAMD) then AMD else UNKNOWN_CPU.

(** The fields read with leaves 0 and 1 *)
Definition identify_basic (i : pcpuinfo) : pcpuinfo :=
  let c0 := cpuid 0 0 in
  let v := word_bytes (r_ebx c0) ++ word_bytes (r_edx c0) ++ word_bytes (r_ecx c0) in
  let c1 := cpuid 1 0 in
  mk_pcpuinfo (lapicid i) (bsp i) (r_eax c0) v (vendor_of v)
    (Z.land (Z.shiftr (r_eax c1) 8) 0xf) (Z.land (Z.shiftr (r_eax c1) 4) 0xf) (Z.land (r_eax c1) 0xf)
    (Z.land (Z.shiftr (r_eax c1) 20) 0xff) (Z.land (Z.shiftr (r_eax c1) 16) 0xff)
    (Z.land (r_ebx c1) 0xff) (Z.land (Z.shiftr (r_ebx c1) 8) 0xff) (Z.land (Z.shiftr (r_ebx c1) 16) 0xff)
    (Z.land (Z.shiftr (r_ebx c1) 24) 0xff) (r_ecx c1) (r_edx c1) (l1_cache_size i) (l1_cache_line_size i) (cpuid_exthigh i).

(** The descriptors of leaf 2, register by register and byte by byte; every one
    overwrites the sizes found before it. *)
Definition cache_bytes : list Z :=
  let c := cpuid 2 0 in
  map (byte_of (r_eax c)) [0; 1; 2; 3] ++ map (byte_of (r_ebx c)) [0; 1; 2; 3]
  ++ map (byte_of (r_ecx c)) [0; 1; 2; 3] ++ map (byte_of (r_edx c)) [0; 1; 2; 3].
Fixpoint cache_loop (l : list Z) (i : pcpuinfo) : result pcpuinfo :=
  match l with
  | [] => Ok i
  | d :: l =>
      if decide (d < 0xff) then cache_loop l (set_l1 (intel_cache_info d).1 (intel_cache_info d).2 i)
      else Undef OutOfBounds
  end.

(** Leaf 4: the first of three caches that is a data cache of level 1 *)
Definition leaf4_l1 : option regs4 :=
  List.find (fun r => bool_decide (Z.land (r_eax r) 0xf = 1) && bool_decide (Z.shiftr (Z.land (r_eax r) 0xe0) 5 = 1))
    (map (cpuid 4) [0; 1; 2]).
Definition identify_intel (i : pcpuinfo) : result pcpuinfo :=
  match cache_loop cache_bytes i with
  | Ok i =>
      if decide (l1_cache_size i <> 0 /\ l1_cache_line_size i <> 0) then Ok i
      else
        match leaf4_l1 with
        | None => Ok i
        | Some r =>
            let ways := Z.shiftr (Z.land (r_ebx r) 0xffc00000) 22 + 1 in
            let partitions := Z.shiftr (Z.land (r_ebx r) 0x003ff000) 12 + 1 in
            let line := Z.land (r_ebx r) 0x00000fff + 1 in
            Ok (set_l1 (u32 (ways * partitions * line * (r_ecx r + 1)) / 1024) line i)
        end
  | e => e
  end.

Definition identify_cache (i : pcpuinfo) : result pcpuinfo :=
  match ci_vendor i with
  | INTEL => identify_intel i
  | AMD =>
      let c := cpuid 0x80000005 0 in
      Ok (set_l1 (Z.shiftr (Z.land (r_ecx c) 0xff000000) 24) (Z.land (r_ecx c) 0x000000ff) i)
  | UNKNOWN_CPU => Ok (set_l1 0 0 i)
  end.

Definition set_exthigh (v : Z) (i : pcpuinfo) : pcpuinfo :=
  mk_pcpuinfo (lapicid i) (bsp i) (cpuid_high i) (vendor i) (ci_vendor i) (family i) (model i) (step i) (ext_family i) (ext_model i)
    (brand_idx i) (clflush_size i) (max_cpu_id i) (apic_id i) (feature1 i) (feature2 i) (l1_cache_size i) (l1_cache_line_size i) v.

Definition pcpu_identify (ks : kstack) : C unit :=
  cpu_idx ← on_pcpu (get_pcpu_idx ks);
  check_index NUM_CPUS cpu_idx ;;
  s ← get;
  match identify_cache (identify_basic (arch_info s !!! cpu_idx)) with
  | Ok i => modify (set_arch_info (<[cpu_idx := set_exthigh (r_eax (cpuid 0x80000000 0)) i]> (arch_info s)))
  | Panic e => panic e
  | Undef f => undef f
  | Spin => fail Spin
  | Hang => fail Hang
  end.

Definition pcpu_init_cpu (ks : kstack) : C unit := pcpu_identify ks.

(** ** pcpu/PCPUInit *)
Definition pcpu_init (code : list Z) (ks : kstack) (ks_addr : Z) : C unit :=
  let cpu_idx := ks_cpu_idx ks in
  i ← gets pcpu_inited;
  if decide (cpu_idx = 0 /\ i = true) then mret tt
  else
    (if decide (cpu_idx = 0) then
       modify (fun s => set_arch_info ∅ (set_pcpus (pcpu_set_zero (pcpus s)) s)) ;;
       _ ← pcpu_mp_init code;
       for_each (seqZ 0 NUM_CPUS) (fun i => on_pcpu (pcpu_fields_init i)) ;;
       modify (set_pcpu_inited true)
     else mret tt) ;;
    on_pcpu (set_pcpu_idx cpu_idx cpu_idx) ;;
    on_pcpu (set_pcpu_kstack_pointer cpu_idx ks_addr) ;;
    on_pcpu (set_pcpu_boot_info cpu_idx true) ;;
    pcpu_init_cpu ks.
End Identify.

(** ** Queries *)
Definition pcpu_ncpu : C Z := gets ncpu.
Definition pcpu_is_smp : C bool := gets ismp.
Definition pcpu_onboot (ks : kstack) : C bool :=
  cpu_idx ← on_pcpu (get_pcpu_idx ks);
  check_index NUM_CPUS cpu_idx ;;
  s ← get;
  mret (if mp_inited s then bsp (arch_info s !!! cpu_idx) else bool_decide (cpu_idx = 0)).
Definition pcpu_cpu_lapicid (cpu_idx : Z) : C Z :=
  s ← get;
  if decide (0 <= cpu_idx < ncpu s) then
    check_index NUM_CPUS cpu_idx ;;
    mret (u8 (lapicid (arch_info s !!! cpu_idx)))
  else panic "KERN_ASSERT".

(** ** Starting another processor *)
Definition PCPU_AP_START_ADDR : Z := 0x8000.
Definition store32 (a v : Z) : A unit := modify (fun s => set_pmem (store_bytes a (word_bytes v) (pmem s)) s).

(** What is left for the new processor, and the messages that start it *)
Definition launch (cpu_idx f stack_addr kern_init_ap : Z) : C unit :=
  on_apic (store32 (PCPU_AP_START_ADDR - 4) (u32 (stack_addr + 4096))) ;;
  on_apic (store32 (PCPU_AP_START_ADDR - 8) f) ;;
  on_apic (store32 (PCPU_AP_START_ADDR - 12) kern_init_ap) ;;
  id ← pcpu_cpu_lapicid cpu_idx;
  on_apic (lapic_startcpu id PCPU_AP_START_ADDR).

Definition wait_booted (cpu_idx : Z) : C unit :=
  b ← on_pcpu (get_pcpu_boot_info cpu_idx);
  if (b : bool) then mret tt else fail Spin.

Definition pcpu_boot_ap (ks : kstack) (kern_init_ap cpu_idx f stack_addr : Z) : C Z :=
  n ← pcpu_ncpu;
  if decide (0 < cpu_idx < n) then
    i ← on_pcpu (get_pcpu_inited_info cpu_idx);
    if (i : bool) then
      if decide (f <> 0) then
        b ← pcpu_onboot ks;
        if (b : bool) then
          booted ← on_pcpu (get_pcpu_boot_info cpu_idx);
          if (booted : bool) then mret 0
          else launch cpu_idx f stack_addr kern_init_ap ;; wait_booted cpu_idx ;; mret 0
        else mret 1
      else panic "KERN_ASSERT"
    else panic "KERN_ASSERT"
  else panic "KERN_ASSERT".
