(* ===== verification/MpSpec.v ===== *)
(** * The processors found at start-up

    What [pcpu_mp_init] of Mp.v makes of a MADT with given entries, and what a
    processor that is started finds. *)

From S2P Require Import Prelude Machine KString Bytes Pic Apic ApicSpec Acpi Mp.

(** ** The entries of a MADT *)
Inductive madt_entry :=
| MLapic (acpi_id id flags : Z)
| MIoapic (id addr g : Z)
| MOther (type : Z) (body : list Z).

Definition encode (e : madt_entry) : list Z :=
  match e with
  | MLapic a id flags => [0; 8; a; id] ++ word_bytes flags
  | MIoapic id addr g => [1; 12; id; 0] ++ word_bytes addr ++ word_bytes g
  | MOther t body => [t; 2 + Z.of_nat (length body)] ++ body
  end.
Definition entry_ok (e : madt_entry) : Prop :=
  match e with
  | MLapic a id flags => 0 <= id < 256 /\ 0 <= flags < W32
  | MIoapic id addr g => 0 <= id < 256 /\ 0 <= addr < W32 /\ 0 <= g < 2147483648
  | MOther t body => 2 <= t < 256 /\ (length body <= 253)%nat
  end.
Definition cpu_of (e : madt_entry) : option Z :=
  match e with MLapic _ id flags => if decide (Z.land flags ACPI_APIC_ENABLED = 0) then None else Some id | _ => None end.
Definition ioapic_of (e : madt_entry) : option (Z * Z * Z) :=
  match e with MIoapic id addr g => Some (addr, id, g) | _ => None end.

(** [l] is in memory at [p]. *)
Definition bytes_at (m : mem) (p : Z) (l : list Z) : Prop :=
  forall i b, l !! i = Some b -> rd8 m (p + Z.of_nat i) = b.

Lemma bytes_at_app m p l l' : bytes_at m p (l ++ l') -> bytes_at m p l /\ bytes_at m (p + Z.of_nat (length l)) l'.
Proof.
  intros H. split.
  - intros i b Hi. apply (H i). by apply lookup_app_l_Some.
  - intros i b Hi. rewrite <- Z.add_assoc, <- Nat2Z.inj_add. apply (H (length l + i)%nat).
    rewrite lookup_app_r by lia. by replace (length l + i - length l)%nat with i by lia.
Qed.
Lemma word_of_u8 f g x : (forall i, 0 <= i < 4 -> u8 (f (x + i)) = u8 (g (x + i))) -> word_of f x = word_of g x.
Proof.
  intros H. unfold word_of. pose proof (H 0 ltac:(lia)) as H0. rewrite Z.add_0_r in H0.
  by rewrite H0, (H 1), (H 2), (H 3) by lia.
Qed.
Lemma bytes_at_word m p w : 0 <= w < W32 -> bytes_at m p (word_bytes w) -> rd32 m p = w.
Proof.
  intros Hw H. etransitivity; [|exact (word_bytes_word w Hw)]. unfold rd32. rewrite word_of_shift. apply word_of_u8.
  intros i Hi. rewrite Z.add_0_l. fold (rd8 m (p + i)).
  destruct (lookup_lt_is_Some_2 (word_bytes w) (Z.to_nat i)) as [b Hb]; [change (length (word_bytes w)) with 4%nat; lia|].
  rewrite (list_lookup_total_correct _ _ _ Hb), <- (H _ _ Hb). unfold rd8, u8. rewrite Zmod_mod. do 2 f_equal. lia.
Qed.

(** ** What an entry does *)
Definition note_info (idx id : Z) (i : pcpuinfo) : pcpuinfo :=
  mk_pcpuinfo (u8 id) (bool_decide (idx = 0)) (cpuid_high i) (vendor i) (ci_vendor i) (family i) (model i) (step i)
    (ext_family i) (ext_model i) (brand_idx i) (clflush_size i) (max_cpu_id i) (apic_id i) (feature1 i) (feature2 i)
    (l1_cache_size i) (l1_cache_line_size i) (cpuid_exthigh i).
Definition note_cpu (idx id : Z) (s : mpst) : mpst :=
  let s1 := if decide (idx >= NUM_CPUS) then s
            else set_arch_info (<[idx := note_info idx id (arch_info s !!! idx)]> (arch_info s)) s in
  set_ncpu (u32 (ncpu s1 + 1)) s1.
Definition note_ioapic (addr id g : Z) (a : apicst) : apicst :=
  if decide (ioapic_num a >= MAX_IOAPIC) then a
  else set_registered (<[ioapic_num a := addr]> (ioapics a)) (<[ioapic_num a := u8 id]> (ioapicid a))
         (<[ioapic_num a := s32 g]> (gsi a)) (ioapic_num a + 1) a.

(** [n] processors have been found before. *)
Definition note (e : madt_entry) (n : Z) (s : mpst) : mpst :=
  match cpu_of e, ioapic_of e with
  | Some id, _ => note_cpu n id s
  | None, Some (addr, id, g) => set_apic (note_ioapic addr id g (apic s)) s
  | None, None => s
  end.
Definition found (e : madt_entry) : Z := if cpu_of e then 1 else 0.
Fixpoint notes (es : list madt_entry) (n : Z) (s : mpst) : mpst :=
  match es with [] => s | e :: es => notes es (n + found e) (note e n s) end.

Lemma note_mem e n s : pmem (apic (note e n s)) = pmem (apic s).
Proof.
  unfold note, note_cpu, note_ioapic. destruct (cpu_of e); [by case_decide|]. destruct (ioapic_of e) as [[[??]?]|]; [by case_decide|done].
Qed.

Lemma init_cpu_ok idx id s : 0 <= idx ->
  (pcpu_mp_init_cpu idx id (bool_decide (idx = 0)) ;; modify (fun s => set_ncpu (u32 (ncpu s + 1)) s)) s = Ok (tt, note_cpu idx id s).
Proof.
  intros Hi. unfold pcpu_mp_init_cpu, note_cpu. rewrite decide_True by (destruct (decide (idx = 0)); [left|right];
    [by rewrite bool_decide_true|by rewrite bool_decide_false]).
  case_decide; [by rewrite mret_bind|by rewrite modify_bind].
Qed.

Lemma encode_length e : entry_ok e -> 2 <= Z.of_nat (length (encode e)) < 256.
Proof.
  assert (forall w, length (word_bytes w) = 4%nat) as Hw by done.
  destruct e; cbn [encode entry_ok]; intros H; rewrite !length_app, ?Hw; cbn [length]; lia.
Qed.

Lemma rd_bind {B} (f : mem -> Z) (k : Z -> M mpst B) s : (rd f ≫= k) s = k (f (pmem (apic s))) s.
Proof. done. Qed.
Lemma register_ok addr id g s (k : unit -> M mpst unit) :
  (on_apic (ioapic_register addr id g) ≫= k) s = k tt (set_apic (note_ioapic addr id g (apic s)) s).
Proof. unfold on_apic, zoom, ioapic_register, note_ioapic. mrun. case_decide; [by destruct s as [[]]|done]. Qed.

Lemma byte_read m p l i b : bytes_at m p l -> l !! i = Some b -> rd8 m (p + Z.of_nat i) = b.
Proof. intros H. apply H. Qed.

(** The fields of the entry at [p] *)
Record entry_at (m : mem) (p : Z) (en : madt_entry) : Prop := {
  ea_type : rd8 m p = match en with MLapic _ _ _ => 0 | MIoapic _ _ _ => 1 | MOther t _ => t end;
  ea_len : rd8 m (p + 1) = Z.of_nat (length (encode en));
  ea_lapic a id flags : en = MLapic a id flags -> rd8 m (p + 3) = id /\ rd32 m (p + 4) = flags;
  ea_ioapic id addr g : en = MIoapic id addr g -> rd8 m (p + 2) = id /\ rd32 m (p + 4) = addr /\ rd32 m (p + 8) = g;
}.
Lemma entry_reads m p en : entry_ok en -> bytes_at m p (encode en) -> entry_at m p en.
Proof.
  intros Hok Hb. assert (forall i b, encode en !! i = Some b -> rd8 m (p + Z.of_nat i) = b) as Hr by exact Hb.
  pose proof (Hr 0%nat) as H0. pose proof (Hr 1%nat) as H1. change (Z.of_nat 0) with 0 in H0. rewrite Z.add_0_r in H0. split.
  - apply H0. by destruct en.
  - apply H1. destruct en; [done|done|]. cbn [encode app lookup list_lookup length]. f_equal. lia.
  - intros a id flags ->. split; [by apply (Hr 3%nat)|]. apply bytes_at_app in Hb as [_ Hw]. apply bytes_at_word; [apply Hok|exact Hw].
  - intros id addr g ->. destruct Hok as (_ & Ha & Hg). split; [by apply (Hr 2%nat)|]. apply bytes_at_app in Hb as [_ Hw].
    apply bytes_at_app in Hw as [Hw1 Hw2]. split; [by apply bytes_at_word|]. apply bytes_at_word; [unfold W32; lia|].
    cbn [length] in Hw2. change (length (word_bytes addr)) with 4%nat in Hw2.
    replace (p + 8) with (p + Z.of_nat 4 + Z.of_nat 4) by lia. exact Hw2.
Qed.

(** One entry, and the rest of the walk *)
Lemma madt_step fuel p e s n en :
  0 <= n < W32 - 1 -> entry_ok en -> bytes_at (pmem (apic s)) p (encode en) -> p < e ->
  madt_entries (S fuel) p e (Z.max 1 n) (bool_decide (0 < n)) s
  = madt_entries fuel (p + Z.of_nat (length (encode en))) e (Z.max 1 (n + found en)) (bool_decide (0 < n + found en)) (note en n s).
Proof.
  intros Hn Hok Hb Hlt. destruct (entry_reads _ _ _ Hok Hb) as [Et El Ea Ei]. cbn [madt_entries]. rewrite decide_True by done.
  rewrite !rd_bind, Et, El. unfold note, found. destruct en as [a id flags|id addr g|t body].
  - destruct (Ea a id flags eq_refl) as [E3 E4]. rewrite decide_True by done. rewrite !rd_bind, E3, E4. cbn [cpu_of ioapic_of].
    case_decide as Hf; [by rewrite Z.add_0_r|].
    destruct (decide (0 < n)) as [Hp|Hp].
    + rewrite (bool_decide_true (0 < n)) by done. rewrite (bool_decide_true (0 < n + 1)) by lia.
      pose proof (init_cpu_ok n id s ltac:(lia)) as E. rewrite (bool_decide_false (n = 0)) in E by lia.
      rewrite (Z.max_r 1 n) by lia. rewrite <- bind_assoc, (bind_ok _ _ _ _ _ E). rewrite u32_id by lia. by rewrite Z.max_r by lia.
    + assert (n = 0) as -> by lia. rewrite (bool_decide_false (0 < 0)) by lia.
      pose proof (init_cpu_ok 0 id s ltac:(lia)) as E. rewrite (bool_decide_true (0 = 0)) in E by lia.
      by rewrite <- bind_assoc, (bind_ok _ _ _ _ _ E).
  - destruct (Ei id addr g eq_refl) as (E2 & E4 & E8). rewrite decide_False by done. rewrite decide_True by done.
    rewrite !rd_bind, E2, E4, E8, register_ok. cbn [cpu_of ioapic_of]. by rewrite Z.add_0_r.
  - destruct Hok as [Ht _]. rewrite !decide_False by (unfold ACPI_MADT_APIC_LAPIC, ACPI_MADT_APIC_IOAPIC; lia).
    cbn [cpu_of ioapic_of]. by rewrite Z.add_0_r.
Qed.

Definition entries_len (es : list madt_entry) : Z := Z.of_nat (length (concat (map encode es))).

Lemma madt_entries_ok es : forall fuel p s n,
  Forall entry_ok es -> bytes_at (pmem (apic s)) p (concat (map encode es)) -> 0 <= n -> n + Z.of_nat (length es) < W32 ->
  (length es <= fuel)%nat ->
  madt_entries fuel p (p + entries_len es) (Z.max 1 n) (bool_decide (0 < n)) s = Ok (tt, notes es n s).
Proof.
  induction es as [|en es IH]; intros fuel p s n Hok Hb Hn Hw Hf.
  - unfold entries_len. cbn. destruct fuel; cbn [madt_entries]; by rewrite decide_False by lia.
  - inversion Hok as [|? ? Hen Hes]; subst. unfold entries_len in *. cbn [map concat length] in *. destruct fuel as [|fuel]; [lia|].
    apply bytes_at_app in Hb as [Hb1 Hb2]. pose proof (encode_length en Hen) as Hl. rewrite length_app, Nat2Z.inj_add.
    assert (0 <= found en <= 1) as Hfd by (unfold found; destruct (cpu_of en); lia).
    rewrite (madt_step fuel p _ s n en) by (done || lia). cbn [notes]. rewrite Z.add_assoc.
    apply IH; [done|by rewrite note_mem|lia|lia|lia].
Qed.

(** ** The result of the walk *)
Definition cpus_of (es : list madt_entry) : list Z := omap cpu_of es.
Definition cpu_view (s : mpst) (k : Z) : Z * bool := (lapicid (arch_info s !!! k), bsp (arch_info s !!! k)).
Definition registered (a : apicst) : list (Z * Z * Z) :=
  map (fun i => (ioapics a !!! i, ioapicid a !!! i, gsi a !!! i)) (seqZ 0 (ioapic_num a)).

Lemma cpu_id_ok e id : entry_ok e -> cpu_of e = Some id -> 0 <= id < 256.
Proof. destruct e; cbn [cpu_of entry_ok]; [|done..]. case_decide; [done|]. intros [Hr _] [= <-]. done. Qed.

Lemma note_cpu_view n id s k : 0 <= id < 256 -> 0 <= k < NUM_CPUS ->
  cpu_view (note_cpu n id s) k = if decide (k = n) then (id, bool_decide (n = 0)) else cpu_view s k.
Proof.
  intros Hid Hk. unfold cpu_view, note_cpu. case_decide as Hn.
  - by rewrite decide_False by lia.
  - cbn [set_ncpu set_arch_info arch_info]. destruct (decide (k = n)) as [->|Hne].
    + rewrite lookup_total_insert_eq. cbn [note_info lapicid bsp]. f_equal. by apply Z.mod_small.
    + by rewrite lookup_total_insert_ne by done.
Qed.

Lemma notes_cpus es : forall n s k, Forall entry_ok es -> 0 <= n -> 0 <= k < NUM_CPUS ->
  cpu_view (notes es n s) k =
    match cpus_of es !! Z.to_nat (k - n) with
    | Some id => if decide (n <= k) then (id, bool_decide (k = 0)) else cpu_view s k
    | None => cpu_view s k
    end.
Proof.
  induction es as [|en es IH]; intros n s k Hok Hn Hk; [done|]. inversion Hok as [|? ? Hen Hes]; subst.
  cbn [notes]. assert (0 <= found en <= 1) as Hf by (unfold found; destruct (cpu_of en); lia).
  rewrite (IH _ _ k Hes) by (done || lia). unfold cpus_of, found, note in *. cbn [omap list_omap]. destruct (cpu_of en) as [id|] eqn:E.
  - pose proof (cpu_id_ok en id Hen E) as Hid. rewrite (note_cpu_view n id s k Hid Hk).
    destruct (decide (k = n)) as [->|Hne].
    + rewrite Z.sub_diag. change ((id :: omap cpu_of es) !! Z.to_nat 0) with (Some id). cbn iota beta.
      rewrite (decide_True (P := n <= n)) by lia.
      destruct (omap cpu_of es !! Z.to_nat (n - (n + 1))); [by rewrite decide_False by lia|done].
    + destruct (decide (n < k)) as [Hlt|Hlt].
      * replace (Z.to_nat (k - n)) with (S (Z.to_nat (k - (n + 1)))) by lia.
        change ((id :: omap cpu_of es) !! S (Z.to_nat (k - (n + 1)))) with (omap cpu_of es !! Z.to_nat (k - (n + 1))).
        destruct (omap cpu_of es !! _); [by rewrite !decide_True by lia|done].
      * destruct (omap cpu_of es !! _), ((id :: omap cpu_of es) !! _);
          rewrite ?(decide_False (P := n + 1 <= k)), ?(decide_False (P := n <= k)) by lia; done.
  - rewrite Z.add_0_r. destruct (ioapic_of en) as [[[??]?]|]; done.
Qed.

Lemma notes_ncpu es : forall n s, 0 <= ncpu s -> ncpu s + Z.of_nat (length es) < W32 ->
  ncpu (notes es n s) = ncpu s + Z.of_nat (length (cpus_of es)).
Proof.
  induction es as [|en es IH]; intros n s H0 Hw; [cbn; lia|]. cbn [notes length] in *. unfold cpus_of, note in *. cbn [omap list_omap].
  destruct (cpu_of en) as [id|].
  - assert (ncpu (note_cpu n id s) = ncpu s + 1) as En.
    { unfold note_cpu. assert (u32 (ncpu s + 1) = ncpu s + 1) as Eu by (apply u32_id; lia). case_decide; exact Eu. }
    rewrite IH; rewrite ?En; cbn [length]; lia.
  - destruct (ioapic_of en) as [[[a i] g]|]; rewrite IH; try done; cbn [ncpu set_apic]; lia.
Qed.

Lemma registered_length a : 0 <= ioapic_num a -> length (registered a) = Z.to_nat (ioapic_num a).
Proof. intros H. unfold registered. by rewrite length_map, length_seqZ. Qed.

Lemma note_ioapic_registered addr id g a : 0 <= ioapic_num a <= MAX_IOAPIC -> 0 <= id < 256 -> 0 <= g < 2147483648 ->
  registered (note_ioapic addr id g a) = take 16 (registered a ++ [(addr, id, g)])
  /\ 0 <= ioapic_num (note_ioapic addr id g a) <= MAX_IOAPIC.
Proof.
  intros Hn Hid Hg. pose proof (registered_length a ltac:(lia)) as Hl. unfold note_ioapic, MAX_IOAPIC in *. case_decide as Hc.
  - split; [|lia]. rewrite take_app_le by lia. rewrite take_ge by lia. done.
  - rewrite take_ge by (rewrite length_app; cbn [length]; lia). cbn [ioapic_num set_registered]. split; [|lia].
    unfold registered. cbn [ioapics ioapicid gsi ioapic_num set_registered].
    replace (ioapic_num a + 1) with (Z.of_nat (S (Z.to_nat (ioapic_num a)))) by lia. rewrite seqZ_S, map_app. rewrite Z2Nat.id, Z.add_0_l by lia.
    f_equal.
    + apply list_fmap_ext. intros i x Hx. apply list_elem_of_lookup_2, elem_of_seqZ in Hx. by rewrite !lookup_total_insert_ne by lia.
    + cbn [map]. rewrite !lookup_total_insert_eq. unfold u8. rewrite Z.mod_small by done. by rewrite s32_id by lia.
Qed.

Lemma notes_ioapics es : forall n s, Forall entry_ok es -> 0 <= ioapic_num (apic s) <= MAX_IOAPIC ->
  registered (apic (notes es n s)) = take 16 (registered (apic s) ++ omap ioapic_of es).
Proof.
  induction es as [|en es IH]; intros n s Hok Hn.
  - cbn. rewrite app_nil_r, take_ge; [done|]. rewrite registered_length by lia. unfold MAX_IOAPIC in *. lia.
  - inversion Hok as [|? ? Hen Hes]; subst. cbn [notes omap list_omap]. unfold note.
    destruct en as [a id flags|id addr g|t body]; cbn [cpu_of ioapic_of].
    + case_decide; [by apply IH|]. assert (apic (note_cpu n id s) = apic s) as Ea by (unfold note_cpu; by case_decide).
      rewrite IH by (done || by rewrite Ea). by rewrite Ea.
    + destruct Hen as (Hid & _ & Hg). destruct (note_ioapic_registered addr id g (apic s) Hn Hid Hg) as [Er Hn'].
      rewrite IH; [|done|exact Hn']. cbn [apic set_apic]. rewrite Er.
      set (l := registered (apic s) ++ [(addr, id, g)]). set (r := omap ioapic_of es).
      assert (registered (apic s) ++ (addr, id, g) :: r = l ++ r) as -> by (unfold l; by rewrite <- app_assoc).
      destruct (decide (length l <= 16)%nat) as [Hl|Hl]; [by rewrite (take_ge l) by done|].
      rewrite (take_app_le l) by lia. rewrite take_app_le by (rewrite length_take; lia). rewrite take_take. by rewrite Nat.min_id.
    + by apply IH.
Qed.

Lemma notes_mem es : forall n s, pmem (apic (notes es n s)) = pmem (apic s) /\ lapic (apic (notes es n s)) = lapic (apic s).
Proof.
  induction es as [|en es IH]; intros n s; [done|]. cbn [notes]. destruct (IH (n + found en) (note en n s)) as [-> ->].
  split; [apply note_mem|]. unfold note, note_cpu, note_ioapic.
  destruct (cpu_of en); [by case_decide|]. destruct (ioapic_of en) as [[[??]?]|]; [by case_decide|done].
Qed.

Lemma notes_ismp es : forall n s, ismp (notes es n s) = ismp s.
Proof.
  induction es as [|en es IH]; intros n s; [done|]. cbn [notes]. rewrite IH. unfold note, note_cpu.
  destruct (cpu_of en); [by case_decide|]. by destruct (ioapic_of en) as [[[??]?]|].
Qed.

(** ** pcpu_mp_init *)

(** A MADT at [madt] with the entries [es] *)
Record madt_at (m : mem) (madt : Z) (es : list madt_entry) : Prop := {
  mt_ok : Forall entry_ok es;
  mt_len : rd32 m (madt + sdt_length) = madt_ent + entries_len es;
  mt_bytes : bytes_at m (madt + madt_ent) (concat (map encode es));
}.

Lemma entries_count es : Forall entry_ok es -> 2 * Z.of_nat (length es) <= entries_len es.
Proof.
  induction 1 as [|en es Hen Hes IH]; [done|]. unfold entries_len in *. cbn [map concat length]. rewrite length_app.
  pose proof (encode_length en Hen). lia.
Qed.

Lemma imcr_ok s : exists s', imcr_to_apic s = Ok (tt, s') /\ ncpu s' = ncpu s /\ arch_info s' = arch_info s
  /\ ismp s' = ismp s /\ lapic (apic s') = lapic (apic s) /\ registered (apic s') = registered (apic s).
Proof. eexists. split; [reflexivity|]. done. Qed.

Lemma pcpu_mp_init_ok s code madt es :
  mp_inited s = false -> find_madt (apic s) = Ok (madt, apic s) -> madt <> 0 -> madt_at (pmem (apic s)) madt es ->
  0 <= ioapic_num (apic s) <= MAX_IOAPIC ->
  exists s', pcpu_mp_init code s = Ok (true, s') /\ mp_inited s' = true /\ ismp s' = true
    /\ ncpu s' = Z.of_nat (length (cpus_of es))
    /\ (forall k, 0 <= k < NUM_CPUS -> cpu_view s' k = match cpus_of es !! Z.to_nat k with Some id => (id, bool_decide (k = 0)) | None => cpu_view s k end)
    /\ registered (apic s') = take 16 (registered (apic s) ++ omap ioapic_of es)
    /\ lapic (apic s') = rd32 (pmem (apic s)) (madt + 36).
Proof.
  intros Hi Hm H0 [Hok Hlen Hb] Hn. pose proof (entries_count es Hok) as Hcnt. unfold pcpu_mp_init. rewrite gets_bind, Hi.
  assert (on_apic find_madt s = Ok (madt, s)) as E0 by (unfold on_apic, zoom; rewrite Hm; by destruct s).
  rewrite (bind_ok _ _ _ _ _ E0). rewrite decide_False by done. rewrite modify_bind, rd_bind.
  set (m := pmem (apic s)) in *. change (pmem (apic (set_ismp true s))) with m.
  rewrite (bind_ok _ _ _ tt (set_apic (set_lapic (rd32 m (madt + 36)) (apic s)) (set_ismp true s))) by done.
  rewrite modify_bind, rd_bind. set (s1 := set_ncpu 0 _). change (pmem (apic s1)) with m. rewrite Hlen.
  replace (madt + (madt_ent + entries_len es)) with (madt + madt_ent + entries_len es) by lia.
  assert (rd32 m (madt + sdt_length) < W32) as Hw by apply word_of_range.
  pose proof (madt_entries_ok es (walk_fuel (madt + madt_ent) (madt + madt_ent + entries_len es)) (madt + madt_ent) s1 0 Hok Hb
    ltac:(lia) ltac:(unfold madt_ent in *; lia) ltac:(unfold walk_fuel; lia)) as E1.
  change (Z.max 1 0) with 1 in E1. change (bool_decide (0 < 0)) with false in E1. rewrite (bind_ok _ _ _ _ _ E1), rd_bind.
  destruct (notes_mem es 0 s1) as [Em El]. pose proof (notes_ncpu es 0 s1 ltac:(done) ltac:(unfold madt_ent in *; cbn [ncpu s1 set_ncpu]; lia)) as En.
  pose proof (fun k => notes_cpus es 0 s1 k Hok ltac:(lia)) as Ec. pose proof (notes_ioapics es 0 s1 Hok Hn) as Ei.
  assert (ismp (notes es 0 s1) = true) as Es by by rewrite notes_ismp.
  set (s2 := notes es 0 s1) in *.
  assert (exists s3, (if decide (Z.land (rd32 (pmem (apic s2)) (madt + 40)) APIC_MADT_PCAT_COMPAT = 0) then imcr_to_apic else mret tt) s2 = Ok (tt, s3)
    /\ ncpu s3 = ncpu s2 /\ arch_info s3 = arch_info s2 /\ ismp s3 = ismp s2 /\ lapic (apic s3) = lapic (apic s2)
    /\ registered (apic s3) = registered (apic s2)) as (s3 & E3 & N3 & A3 & S3 & L3 & R3).
  { case_decide; [apply imcr_ok|]. by exists s2. }
  rewrite (bind_ok _ _ _ _ _ E3). eexists. split; [reflexivity|]. cbn [set_mp_inited mp_inited ismp ncpu arch_info apic].
  split; [done|]. split; [exact (eq_trans S3 Es)|]. split; [exact (eq_trans N3 En)|]. split; [|split].
  - intros k Hk. unfold cpu_view in *. cbn [set_apic set_mp_inited arch_info]. rewrite A3, Ec by done.
    rewrite Z.sub_0_r. destruct (cpus_of es !! Z.to_nat k); [by rewrite decide_True by lia|done].
  - etransitivity; [exact R3|]. exact Ei.
  - etransitivity; [exact L3|]. exact El.
Qed.

(** ** Starting another processor *)
Lemma stored_word a v m : 0 <= v < W32 -> rd32 (store_bytes a (word_bytes v) m) a = v.
Proof.
  intros Hv. apply bytes_at_word; [done|]. intros i c Hi. unfold rd8.
  rewrite store_bytes_lookup. pose proof (lookup_lt_Some _ _ _ Hi) as Hl. rewrite decide_True by lia.
  replace (Z.to_nat (a + Z.of_nat i - a)) with i by lia. rewrite (list_lookup_total_correct _ _ _ Hi).
  assert (Forall (fun b => u8 b = b) (word_bytes v)) as Hf by (repeat constructor; apply Zmod_mod).
  by apply (proj1 (Forall_lookup _ _) Hf _ _ Hi).
Qed.
Lemma rd32_frame m m' b : (forall x, b <= x < b + 4 -> m' !!! x = m !!! x) -> rd32 m' b = rd32 m b.
Proof. intros H. unfold rd32. apply word_of_u8. intros i Hi. by rewrite H by lia. Qed.
Lemma stored_word_other a v m b : a + 4 <= b \/ b + 4 <= a -> rd32 (store_bytes a (word_bytes v) m) b = rd32 m b.
Proof.
  intros H. apply rd32_frame. intros x Hx. rewrite store_bytes_lookup. change (length (word_bytes v)) with 4%nat.
  by rewrite decide_False by lia.
Qed.

Lemma on_apic_modify f (k : unit -> M mpst unit) s : (on_apic (modify f) ≫= k) s = k tt (set_apic (f (apic s)) s).
Proof. done. Qed.

Lemma launch_ok s cpu_idx f stack_addr kern_init_ap (id := lapicid (arch_info s !!! cpu_idx)) :
  0 <= cpu_idx < ncpu s -> cpu_idx < NUM_CPUS -> lapic (apic s) <> 0 -> 0 <= id < 256 -> 0 <= f < W32 -> 0 <= kern_init_ap < W32 ->
  exists s' cs, launch cpu_idx f stack_addr kern_init_ap s = Ok (tt, s') /\ pcpus s' = pcpus s /\ ipis (apic s') = cs ++ ipis (apic s)
    /\ (forall st, ap_after id st cs = ApRuns PCPU_AP_START_ADDR) /\ (forall k st, k <> id -> ap_after k st cs = st)
    /\ (let m := pmem (apic s') in rd32 m (PCPU_AP_START_ADDR - 4) = u32 (stack_addr + 4096)
          /\ rd32 m (PCPU_AP_START_ADDR - 8) = f /\ rd32 m (PCPU_AP_START_ADDR - 12) = kern_init_ap).
Proof.
  intros Hc Hn Hl Hid Hf Hk. unfold launch, store32. rewrite !on_apic_modify. set (s1 := set_apic _ _).
  assert (pcpu_cpu_lapicid cpu_idx s1 = Ok (id, s1)) as E1.
  { unfold pcpu_cpu_lapicid. mrun. change (ncpu s1) with (ncpu s). rewrite decide_True by done. rewrite check_index_ok by lia.
    cbn iota beta. change (arch_info s1) with (arch_info s). fold id. unfold u8. by rewrite Z.mod_small. }
  rewrite (bind_ok _ _ _ _ _ E1).
  destruct (lapic_startcpu_ok (apic s1) id 8 Hl Hid ltac:(lia)) as (a2 & E2 & _ & I2 & M2).
  exists (set_apic a2 s1), (start_commands id 8). change (Z.shiftl 8 12) with PCPU_AP_START_ADDR in E2.
  split; [unfold on_apic, zoom; by rewrite E2|]. split; [done|]. split; [exact I2|].
  destruct (start_commands_run id 8 Hid ltac:(lia)) as [Hr Ho]. split; [exact Hr|]. split; [exact Ho|].
  cbv zeta. change (apic (set_apic a2 s1)) with a2. rewrite M2.
  assert (forall b, 2000 <= b -> forall m, rd32 (<[1130 := u8 (Z.shiftr (Z.shiftr (Z.shiftl 8 12) 4) 8)]> (<[1129 := u8 (Z.shiftr (Z.shiftl 8 12) 4)]>
    (<[1128 := 0]> (<[1127 := 0]> m)))) b = rd32 m b) as Hw.
  { intros b Hb m. apply rd32_frame. intros x Hx. by rewrite !lookup_total_insert_ne by lia. }
  rewrite !Hw by (unfold PCPU_AP_START_ADDR; lia). cbn [s1 set_apic apic pmem set_pmem]. unfold PCPU_AP_START_ADDR.
  split; [|split].
  - rewrite !stored_word_other by lia. apply stored_word, u32_range.
  - rewrite stored_word_other by lia. by apply stored_word.
  - by apply stored_word.
Qed.

Lemma stored_bytes_at p l m : Forall (fun b => 0 <= b < 256) l -> bytes_at (store_bytes p l m) p l.
Proof.
  intros Hf i b Hi. unfold rd8. rewrite store_bytes_lookup. pose proof (lookup_lt_Some _ _ _ Hi). rewrite decide_True by lia.
  replace (Z.to_nat (p + Z.of_nat i - p)) with i by lia. rewrite (list_lookup_total_correct _ _ _ Hi).
  apply Z.mod_small. by apply (proj1 (Forall_lookup _ _) Hf _ _ Hi).
Qed.

(** A walk that meets an entry of length 0 never ends. *)
Lemma zero_length_hangs fuel p e ap b s : p < e -> rd8 (pmem (apic s)) p >= 2 -> rd8 (pmem (apic s)) (p + 1) = 0 ->
  madt_entries fuel p e ap b s = Hang.
Proof.
  intros Hp Ht Hn. revert ap b. induction fuel as [|fuel IH]; intros ap b; cbn [madt_entries]; rewrite decide_True by done; [done|].
  rewrite !rd_bind, Hn, Z.add_0_r. rewrite !decide_False by (unfold ACPI_MADT_APIC_LAPIC, ACPI_MADT_APIC_IOAPIC; lia). apply IH.
Qed.

(** ** The cache descriptors *)
Lemma cache_bytes_range cpuid : Forall (fun d => 0 <= d < 256) (cache_bytes cpuid).
Proof. unfold cache_bytes. repeat constructor; apply u8_range. Qed.
Lemma cache_loop_ff l : forall i, Forall (fun d => 0 <= d < 256) l -> 0xff ∈ l -> cache_loop l i = Undef OutOfBounds.
Proof.
  induction l as [|d l IH]; intros i Hr Hin; [by apply not_elem_of_nil in Hin|]. inversion Hr; subst. cbn [cache_loop].
  case_decide; [|done]. apply IH; [done|]. apply elem_of_cons in Hin as [<-|]; [lia|done].
Qed.
Lemma cache_loop_ok l : forall i, Forall (fun d => 0 <= d < 256) l -> 0xff ∉ l ->
  exists i', cache_loop l i = Ok i' /\ forall d, last l = Some d -> l1_cache_size i' = (intel_cache_info d).1 /\ l1_cache_line_size i' = (intel_cache_info d).2.
Proof.
  induction l as [|d l IH]; intros i Hr Hin; [by exists i|]. inversion Hr; subst. rewrite not_elem_of_cons in Hin. destruct Hin as [Hd Hin].
  cbn [cache_loop]. rewrite decide_True by lia.
  destruct (IH (set_l1 (intel_cache_info d).1 (intel_cache_info d).2 i) ltac:(done) Hin) as (i' & E & H).
  exists i'. split; [done|]. intros c Hc. destruct l as [|d' l]; [|by apply H].
  injection Hc as <-. cbn [cache_loop] in E. by injection E as <-.
Qed.
Definition set_vendor (v : cpu_vendor) (i : pcpuinfo) : pcpuinfo :=
  mk_pcpuinfo (lapicid i) (bsp i) (cpuid_high i) (vendor i) v (family i) (model i) (step i) (ext_family i) (ext_model i)
    (brand_idx i) (clflush_size i) (max_cpu_id i) (apic_id i) (feature1 i) (feature2 i) (l1_cache_size i) (l1_cache_line_size i) (cpuid_exthigh i).

Module MpProps.

(** C26 (functional): the processors of the machine are found.  If the ACPI
    tables lead to a MADT with the entries [es], [pcpu_mp_init] registers the
    enabled processors in the order of their entries: their number is [ncpu],
    the k-th of them (up to the eight there is room for) has the APIC of its
    entry, and the first one, and only it, is the boot processor.  The I/O APICs
    of the entries are registered in order up to the sixteen there is room for,
    the address of the local APIC is that of the table, and entries of other
    types are skipped. *)
Theorem madt_processors_found s code madt es :
  mp_inited s = false -> find_madt (apic s) = Ok (madt, apic s) -> madt <> 0 -> madt_at (pmem (apic s)) madt es ->
  0 <= ioapic_num (apic s) <= MAX_IOAPIC ->
  exists s', pcpu_mp_init code s = Ok (true, s') /\ mp_inited s' = true /\ ismp s' = true
    /\ ncpu s' = Z.of_nat (length (cpus_of es))
    /\ (forall k, 0 <= k < NUM_CPUS -> cpu_view s' k = match cpus_of es !! Z.to_nat k with Some id => (id, bool_decide (k = 0)) | None => cpu_view s k end)
    /\ registered (apic s') = take 16 (registered (apic s) ++ omap ioapic_of es)
    /\ lapic (apic s') = rd32 (pmem (apic s)) (madt + 36).
Proof. apply pcpu_mp_init_ok. Qed.

(** Tables with checksums *)
Definition with_sum (at_byte : nat) (l : list Z) : list Z := <[at_byte := (- foldr Z.add 0 l) mod 256]> l.
Definition table (sig : Z) (rest : list Z) : list Z :=
  with_sum 9 (word_bytes sig ++ word_bytes (36 + Z.of_nat (length rest)) ++ replicate 28 0 ++ rest).
Definition sample_entries : list madt_entry :=
  [MLapic 0 0 1; MLapic 1 4 1; MIoapic 2 0xFEC00000 0; MLapic 2 5 0; MOther 4 [255; 0; 0; 1]; MLapic 3 6 1].
Definition sample_madt : list Z :=
  table ACPI_MADT_SIG (word_bytes 0xFEE00000 ++ word_bytes 1 ++ concat (map encode sample_entries)).
Definition sample_memory : mem :=
  store_bytes 0x2000 sample_madt
    (store_bytes 0x1000 (table ACPI_XSDT_SIG (word_bytes 0x2000 ++ word_bytes 0))
      (store_bytes 0xE0010 (with_sum 8 (word_bytes ACPI_RSDP_SIG1 ++ word_bytes ACPI_RSDP_SIG2 ++ replicate 16 0 ++ word_bytes 0x1000 ++ replicate 8 0)) ∅)).
Definition sample : mpst :=
  mk_mpst (mk_apicst ∅ ∅ ∅ ∅ 0 0 0 ∅ [] [] 0 sample_memory) 0 false false ∅ ∅ false 0.
Lemma sample_madt_at : madt_at (pmem (apic sample)) 0x2000 sample_entries.
Proof.
  split.
  - repeat constructor; cbn; unfold W32; lia.
  - by vm_compute.
  - assert (bytes_at sample_memory 0x2000 sample_madt) as H.
    { apply stored_bytes_at. apply (bool_decide_unpack _). by vm_compute. }
    assert (sample_madt = take 44 sample_madt ++ concat (map encode sample_entries)) as E by by vm_compute.
    rewrite E in H. apply bytes_at_app in H as [_ H]. exact H.
Qed.

Lemma madt_processors_found_witness :
  exists s', pcpu_mp_init [] sample = Ok (true, s') /\ ncpu s' = 3 /\ cpu_view s' 2 = (6, false)
    /\ registered (apic s') = [(0xFEC00000, 2, 0)].
Proof.
  assert (find_madt (apic sample) = Ok (0x2000, apic sample)) as Ef by (vm_compute; reflexivity).
  destruct (madt_processors_found sample [] 0x2000 sample_entries eq_refl Ef ltac:(lia) sample_madt_at) as (s' & E & _ & _ & En & Ec & Er & _).
  { cbn. unfold MAX_IOAPIC. lia. }
  exists s'. split; [exact E|]. split; [rewrite En; vm_compute; reflexivity|]. split; [|rewrite Er; vm_compute; reflexivity].
  rewrite (Ec 2) by (vm_compute; split; congruence). vm_compute. reflexivity.
Defined.

(** C27 (functional): another processor starts in the kernel.  Called on the boot
    processor for a registered processor that has not been started,
    [pcpu_boot_ap] leaves the top of its stack, the function to run and
    [kern_init_ap] in the words below 0x8000, sends its APIC the messages after
    which it runs the code at 0x8000, whatever it did before, disturbs no other
    processor, and waits for it. *)
Theorem boot_ap_starts_processor s ks kern_init_ap cpu_idx f stack_addr (id := lapicid (arch_info s !!! cpu_idx)) :
  0 < cpu_idx < ncpu s -> cpu_idx < NUM_CPUS -> pc_inited (pcpus s !!! cpu_idx) = true -> pc_booted (pcpus s !!! cpu_idx) = false ->
  pcpu_onboot ks s = Ok (true, s) -> lapic (apic s) <> 0 -> 0 <= id < 256 -> 0 < f < W32 -> 0 <= kern_init_ap < W32 ->
  exists s' cs, pcpu_boot_ap ks kern_init_ap cpu_idx f stack_addr s = (wait_booted cpu_idx ;; mret 0) s' /\ wait_booted cpu_idx s' = Spin
    /\ ipis (apic s') = cs ++ ipis (apic s)
    /\ (forall st, ap_after id st cs = ApRuns PCPU_AP_START_ADDR) /\ (forall k st, k <> id -> ap_after k st cs = st)
    /\ (let m := pmem (apic s') in rd32 m (PCPU_AP_START_ADDR - 4) = u32 (stack_addr + 4096)
          /\ rd32 m (PCPU_AP_START_ADDR - 8) = f /\ rd32 m (PCPU_AP_START_ADDR - 12) = kern_init_ap).
Proof.
  intros Hc Hn Hi Hb Ho Hl Hid Hf Hk.
  destruct (launch_ok s cpu_idx f stack_addr kern_init_ap ltac:(lia) Hn Hl Hid ltac:(lia) Hk) as (s' & cs & E & Hp & H).
  exists s', cs. unfold pcpu_boot_ap, pcpu_ncpu. rewrite gets_bind, decide_True by done.
  assert (forall t, pcpus t = pcpus s -> on_pcpu (get_pcpu_inited_info cpu_idx) t = Ok (true, t)
    /\ on_pcpu (get_pcpu_boot_info cpu_idx) t = Ok (false, t)) as Hg.
  { intros t Ht. unfold on_pcpu, zoom, get_pcpu_inited_info, get_pcpu_boot_info. mrun. rewrite Ht, Hi, Hb. destruct t; cbn in Ht; by subst. }
  destruct (Hg s eq_refl) as [Ei Eb]. rewrite (bind_ok _ _ _ _ _ Ei). rewrite decide_True by lia.
  rewrite (bind_ok _ _ _ _ _ Ho), (bind_ok _ _ _ _ _ Eb), (bind_ok _ _ _ _ _ E). split; [done|]. split; [|done].
  destruct (Hg s' Hp) as [_ Eb']. unfold wait_booted. by rewrite (bind_ok _ _ _ _ _ Eb').
Qed.

Definition two_cpus : mpst :=
  mk_mpst (mk_apicst ∅ ∅ ∅ ∅ 0 0 0xFEE00000 ∅ [] [] 0 ∅) 2 true true
    (<[1 := note_info 1 4 inhabitant]> {[0 := note_info 0 0 inhabitant]})
    (<[1 := {| pc_inited := true; pc_booted := false; pc_kstack := 0; pc_cpu_idx := 1 |}]>
      {[0 := {| pc_inited := true; pc_booted := true; pc_kstack := 0; pc_cpu_idx := 0 |}]}) true 0.
Lemma boot_ap_starts_processor_witness :
  exists s' cs, wait_booted 1 s' = Spin /\ ipis (apic s') = cs ++ [] /\ ap_after 4 ApOther cs = ApRuns 0x8000
    /\ rd32 (pmem (apic s')) 0x7FF8 = 0x101000.
Proof.
  assert (lapicid (arch_info two_cpus !!! 1) = 4) as El by (vm_compute; reflexivity).
  assert (pcpu_onboot {| ks_cpu_idx := 0; ks_magic := 0 |} two_cpus = Ok (true, two_cpus)) as Eo by (vm_compute; reflexivity).
  assert (pc_inited (pcpus two_cpus !!! 1) = true) as H1 by (vm_compute; reflexivity).
  assert (pc_booted (pcpus two_cpus !!! 1) = false) as H2 by (vm_compute; reflexivity).
  assert (ncpu two_cpus = 2) as H3 by reflexivity.
  assert (lapic (apic two_cpus) <> 0) as H4 by (change (0xFEE00000 <> 0); lia).
  destruct (boot_ap_starts_processor two_cpus {| ks_cpu_idx := 0; ks_magic := 0 |} 0x100000 1 0x101000 0x200000
    ltac:(rewrite H3; lia) ltac:(unfold NUM_CPUS; lia) H1 H2 Eo H4 ltac:(rewrite El; lia) ltac:(unfold W32; lia) ltac:(unfold W32; lia))
    as (s' & cs & _ & Ew & Ei & Hr & _ & _ & Hf & _).
  exists s', cs. rewrite El in Hr. split; [exact Ew|]. split; [exact Ei|]. split; [exact (Hr ApOther)|exact Hf].
Defined.

(** A descriptor the cache table has no element for.  On an Intel
    processor whose leaf 2 of [cpuid] contains the descriptor 0xff (it asks to
    use leaf 4 instead), [pcpu_identify] reads behind the end of its table of
    0xff elements; without this descriptor it finishes, and the cache
    sizes come from the last of the sixteen descriptor bytes or from leaf 4. *)
Theorem cache_descriptor_ff_out_of_bounds cpuid i :
  ci_vendor i = INTEL ->
  (0xff ∈ cache_bytes cpuid -> identify_cache cpuid i = Undef OutOfBounds)
  /\ (0xff ∉ cache_bytes cpuid -> exists i', identify_cache cpuid i = Ok i'
        /\ forall a b, intel_cache_info (byte_of (r_edx (cpuid 2 0)) 3) = (a, b) -> a <> 0 -> b <> 0 ->
             l1_cache_size i' = a /\ l1_cache_line_size i' = b).
Proof.
  intros Hv. unfold identify_cache, identify_intel. rewrite Hv. pose proof (cache_bytes_range cpuid) as Hr. split; intros Hin.
  - by rewrite (cache_loop_ff _ i Hr Hin).
  - destruct (cache_loop_ok _ i Hr Hin) as (i1 & E & Hlast). rewrite E.
    specialize (Hlast (byte_of (r_edx (cpuid 2 0)) 3) eq_refl) as [H1 H2]. case_decide as Hz.
    + exists i1. split; [done|]. intros a b Eab _ _. by rewrite H1, H2, Eab.
    + destruct (leaf4_l1 cpuid) as [r|]; eexists; (split; [done|]); intros a b Eab Ha Hb; exfalso; apply Hz; by rewrite H1, H2, Eab.
Qed.
Definition sample_cpuid (last : Z) (leaf sub : Z) : regs4 := mk_regs4 1 0 0 (Z.shiftl last 24).
Lemma cache_descriptor_ff_out_of_bounds_witness :
  let i := set_vendor INTEL inhabitant in
  identify_cache (sample_cpuid 0xff) i = Undef OutOfBounds
  /\ exists i', identify_cache (sample_cpuid 0x2c) i = Ok i' /\ l1_cache_size i' = 32.
Proof.
  cbv zeta. split.
  - apply (cache_descriptor_ff_out_of_bounds (sample_cpuid 0xff)); [reflexivity|]. apply (bool_decide_unpack _). vm_compute. exact I.
  - destruct (proj2 (cache_descriptor_ff_out_of_bounds (sample_cpuid 0x2c) (set_vendor INTEL inhabitant) eq_refl)) as (i' & E & H).
    + apply (bool_decide_unpack _). vm_compute. exact I.
    + exists i'. split; [exact E|]. apply (H 32 64); [vm_compute; reflexivity|lia|lia].
Defined.
End MpProps.
