(* ===== verification/Seg.v ===== *)
(** * Segments, task state and interrupt gates: lib/seg.h, lib/seg.c, dev/intr.c

    Descriptors as records of their bit fields, with the reading the processor
    makes of them.  A kernel stack is addressed by the array it is in and its
    index; the addresses of the arrays are [bsp_kstack] and [proc_kstack], those of
    the interrupt handlers are [addr].  Clearing the uninitialised data, which
    [seg_init] does on the first processor, is seen in the arrays only. *)

From S2P Require Import Prelude Machine Pic.

(** ** Descriptors *)
Record segdesc := mk_segdesc {
  sd_lim_15_0 : Z; sd_base_15_0 : Z; sd_base_23_16 : Z; sd_type : Z; sd_s : Z; sd_dpl : Z; sd_p : Z;
  sd_lim_19_16 : Z; sd_avl : Z; sd_rsv1 : Z; sd_db : Z; sd_g : Z; sd_base_31_24 : Z;
}.
Definition SEGDESC_NULL : segdesc := mk_segdesc 0 0 0 0 0 0 0 0 0 0 0 0 0.
#[export] Instance segdesc_inhabited : Inhabited segdesc := populate SEGDESC_NULL.
Definition set_sd_s (v : Z) (d : segdesc) : segdesc :=
  mk_segdesc (sd_lim_15_0 d) (sd_base_15_0 d) (sd_base_23_16 d) (sd_type d) v (sd_dpl d) (sd_p d) (sd_lim_19_16 d) (sd_avl d)
    (sd_rsv1 d) (sd_db d) (sd_g d) (sd_base_31_24 d).
Definition set_sd_type (v : Z) (d : segdesc) : segdesc :=
  mk_segdesc (sd_lim_15_0 d) (sd_base_15_0 d) (sd_base_23_16 d) v (sd_s d) (sd_dpl d) (sd_p d) (sd_lim_19_16 d) (sd_avl d)
    (sd_rsv1 d) (sd_db d) (sd_g d) (sd_base_31_24 d).

(** A value in a bit field of [n] bits *)
Definition bits_of (n v : Z) : Z := v mod 2 ^ n.

Definition SEGDESC32 (type base lim dpl : Z) : segdesc :=
  mk_segdesc (Z.land (Z.shiftr lim 12) 0xffff) (Z.land base 0xffff) (Z.land (Z.shiftr base 16) 0xff)
    (bits_of 4 type) 1 (bits_of 2 dpl) 1 (bits_of 4 (Z.shiftr (u32 lim) 28)) 0 0 1 1 (bits_of 8 (Z.shiftr (u32 base) 24)).
Definition SEGDESC16 (type base lim dpl : Z) : segdesc :=
  mk_segdesc (Z.land lim 0xffff) (Z.land base 0xffff) (Z.land (Z.shiftr base 16) 0xff)
    (bits_of 4 type) 1 (bits_of 2 dpl) 1 (bits_of 4 (Z.shiftr (u32 lim) 16)) 0 0 1 0 (bits_of 8 (Z.shiftr (u32 base) 24)).

Definition STA_X : Z := 0x8.
Definition STA_W : Z := 0x2.
Definition STA_R : Z := 0x2.
Definition STS_T32A : Z := 0x9.
Definition STS_T32B : Z := 0xB.
Definition STS_IG32 : Z := 0xE.
Definition STS_TG32 : Z := 0xF.
Definition CPU_GDT_KCODE : Z := 0x08.
Definition CPU_GDT_KDATA : Z := 0x10.
Definition CPU_GDT_TSS : Z := 0x28.

(** What the processor reads in a descriptor *)
Definition seg_base (d : segdesc) : Z := sd_base_15_0 d + 2 ^ 16 * sd_base_23_16 d + 2 ^ 24 * sd_base_31_24 d.
Definition seg_limit (d : segdesc) : Z :=
  let l := sd_lim_15_0 d + 2 ^ 16 * sd_lim_19_16 d in
  if decide (sd_g d = 0) then l else 4096 * l + 4095.

(** ** Task state and kernel stacks *)
Record tss := mk_tss { ts_esp0 : Z; ts_ss0 : Z; ts_iomb : Z; ts_iopm : gmap Z Z }.
Definition sizeof_tss : Z := 236.
Definition offsetof_iopm : Z := 104.
Record kstk := mk_kstk { gdt : gmap Z segdesc; k_tss : tss; k_cpu_idx : Z; k_magic : Z }.
#[export] Instance kstk_inhabited : Inhabited kstk := populate (mk_kstk ∅ (mk_tss 0 0 0 ∅) 0 0).

Definition set_gdt (i : Z) (d : segdesc) (k : kstk) : kstk := mk_kstk (<[i := d]> (gdt k)) (k_tss k) (k_cpu_idx k) (k_magic k).
Definition set_stack (esp0 ss0 : Z) (k : kstk) : kstk :=
  mk_kstk (gdt k) (mk_tss esp0 ss0 (ts_iomb (k_tss k)) (ts_iopm (k_tss k))) (k_cpu_idx k) (k_magic k).
Definition set_io (iomb : Z) (iopm : gmap Z Z) (k : kstk) : kstk :=
  mk_kstk (gdt k) (mk_tss (ts_esp0 (k_tss k)) (ts_ss0 (k_tss k)) iomb iopm) (k_cpu_idx k) (k_magic k).
Definition set_k_magic (v : Z) (k : kstk) : kstk := mk_kstk (gdt k) (k_tss k) (k_cpu_idx k) v.
Definition set_k_cpu (v : Z) (k : kstk) : kstk := mk_kstk (gdt k) (k_tss k) v (k_magic k).

Record segst := mk_segst {
  bspk : gmap Z kstk;            (* bsp_kstack[] *)
  prock : gmap Z kstk;           (* proc_kstack[] *)
  gdtr : gmap Z Z;              (* the GDT each processor uses: its own stack's *)
  tr : gmap Z (Z * Z);          (* base and limit of the TSS each processor uses *)
}.
Definition set_bspk v s := mk_segst v (prock s) (gdtr s) (tr s).
Definition set_prock v s := mk_segst (bspk s) v (gdtr s) (tr s).
Definition set_gdtr v s := mk_segst (bspk s) (prock s) v (tr s).
Definition set_tr v s := mk_segst (bspk s) (prock s) (gdtr s) v.

Definition KSTACK : Z := 4096.      (* sizeof(struct kstack) *)
Definition NUM_IDS_STACKS : Z := 64.
Definition tss_offset : Z := 48.

Section Seg.
Context (bsp_kstack proc_kstack : Z).
Notation G := (M segst).

(** Addresses of [kstack_hi] and [tss] of an element *)
Definition kstack_hi (base i : Z) : Z := base + KSTACK * (i + 1).
Definition tss_addr (base i : Z) : Z := base + KSTACK * i + tss_offset.

Definition upd_bsp (i : Z) (f : kstk -> kstk) : G unit :=
  check_index NUM_CPUS i ;; modify (fun s => set_bspk (<[i := f (bspk s !!! i)]> (bspk s)) s).
Definition upd_proc (i : Z) (f : kstk -> kstk) : G unit :=
  check_index NUM_IDS_STACKS i ;; modify (fun s => set_prock (<[i := f (prock s !!! i)]> (prock s)) s).

(** [ltr]: the descriptor must be an available TSS; it becomes busy. *)
Definition ltr (cpu sel : Z) : G unit :=
  s ← get;
  match gdtr s !! cpu with
  | None => undef BadAddress
  | Some g =>
      let d := gdt (bspk s !!! g) !!! Z.shiftr sel 3 in
      if decide (sd_p d = 1 /\ sd_s d = 0 /\ sd_type d = STS_T32A) then
        modify (set_tr (<[cpu := (seg_base d, seg_limit d)]> (tr s))) ;;
        upd_bsp g (set_gdt (Z.shiftr sel 3) (set_sd_type STS_T32B d))
      else undef BadAddress
  end.

(** Kernel and user segments of a stack *)
Definition gdt_segments (k : kstk) : kstk :=
  set_gdt (Z.shiftr CPU_GDT_UDATA 3) (SEGDESC32 STA_W 0x00000000 0xffffffff 3)
    (set_gdt (Z.shiftr CPU_GDT_UCODE 3) (SEGDESC32 (Z.lor STA_X STA_R) 0x00000000 0xffffffff 3)
      (set_gdt (Z.shiftr CPU_GDT_KDATA 3) (SEGDESC32 STA_W 0x0 0xffffffff 0)
        (set_gdt (Z.shiftr CPU_GDT_KCODE 3) (SEGDESC32 (Z.lor STA_X STA_R) 0x0 0xffffffff 0)
          (set_gdt 0 SEGDESC_NULL k)))).
Definition tss_desc (base i : Z) : segdesc := set_sd_s 0 (SEGDESC16 STS_T32A (tss_addr base i) (sizeof_tss - 1) 0).

Definition kstack_switch (cpu_idx pid : Z) : G unit :=
  check_index NUM_IDS_STACKS pid ;;
  upd_bsp cpu_idx (fun ks =>
    set_gdt (Z.shiftr CPU_GDT_TSS 3) (tss_desc proc_kstack pid) (set_stack (kstack_hi proc_kstack pid) CPU_GDT_KDATA ks)) ;;
  ltr cpu_idx CPU_GDT_TSS.

Definition seg_init (cpu_idx : Z) : G unit :=
  upd_bsp cpu_idx (fun ks =>
    set_k_magic KSTACK_MAGIC
      (set_gdt (Z.shiftr CPU_GDT_TSS 3) (tss_desc bsp_kstack cpu_idx)
        (set_stack (kstack_hi bsp_kstack cpu_idx) CPU_GDT_KDATA (gdt_segments ks)))) ;;
  modify (fun s => set_gdtr (<[cpu_idx := cpu_idx]> (gdtr s)) s) ;;
  ltr cpu_idx CPU_GDT_TSS ;;
  if decide (cpu_idx = 0) then
    modify (fun s => set_prock ∅ (set_bspk {[0 := bspk s !!! 0]} s))
  else mret tt.

(** The 128 bytes of the permission map are cleared, the byte after them is 0xff. *)
Definition seg_init_proc (cpu_idx pid : Z) : G unit :=
  upd_proc pid (fun ks =>
    set_k_cpu cpu_idx
      (set_k_magic KSTACK_MAGIC
        (set_gdt (Z.shiftr CPU_GDT_TSS 3) (tss_desc proc_kstack pid)
          (set_io offsetof_iopm (<[128 := 0xff]> (foldl (fun m i => <[i := 0]> m) (ts_iopm (k_tss ks)) (seqZ 0 128)))
            (set_stack (kstack_hi proc_kstack pid) CPU_GDT_KDATA (gdt_segments ks)))))).
End Seg.

(** ** Interrupt gates *)
Record gatedesc := mk_gatedesc {
  gd_off_15_0 : Z; gd_ss : Z; gd_args : Z; gd_rsv1 : Z; gd_type : Z; gd_s : Z; gd_dpl : Z; gd_p : Z; gd_off_31_16 : Z;
}.
#[export] Instance gatedesc_inhabited : Inhabited gatedesc := populate (mk_gatedesc 0 0 0 0 0 0 0 0 0).

Definition SETGATE (istrap : bool) (sel off dpl : Z) : gatedesc :=
  mk_gatedesc (Z.land (u32 off) 0xffff) (bits_of 16 sel) 0 0 (if istrap then STS_TG32 else STS_IG32) 0 (bits_of 2 dpl) 1
    (Z.shiftr (u32 off) 16).

Inductive handler :=
| Xdivide | Xdebug | Xnmi | Xbrkpt | Xoflow | Xbound | Xillop | Xdevice | Xdblflt | Xtss | Xsegnp | Xstack | Xgpflt | Xpgflt
| Xfperr | Xalign | Xmchk
| Xirq_timer | Xirq_kbd | Xirq_slave | Xirq_serial2 | Xirq_serial1 | Xirq_lpt | Xirq_floppy | Xirq_spurious | Xirq_rtc | Xirq9
| Xirq10 | Xirq11 | Xirq_mouse | Xirq_coproc | Xirq_ide1 | Xirq_ide2
| Xsyscall | Xdefault.
#[export] Instance handler_eq_dec : EqDecision handler.
Proof. solve_decision. Defined.

Definition T_SYSCALL : Z := 48.
Definition T_DEFAULT : Z := 254.

(** The number a handler's entry pushes for [trap] (dev/idt.S) *)
Definition trap_number (h : handler) : Z :=
  match h with
  | Xdivide => 0 | Xdebug => 1 | Xnmi => 2 | Xbrkpt => 3 | Xoflow => 4 | Xbound => 5 | Xillop => 6 | Xdevice => 7
  | Xdblflt => 8 | Xtss => 10 | Xsegnp => 11 | Xstack => 12 | Xgpflt => 13 | Xpgflt => 14 | Xfperr => 16 | Xalign => 17
  | Xmchk => 18
  | Xirq_timer => T_IRQ0 + 0 | Xirq_kbd => T_IRQ0 + 1 | Xirq_slave => T_IRQ0 + 2 | Xirq_serial2 => T_IRQ0 + 3
  | Xirq_serial1 => T_IRQ0 + 4 | Xirq_lpt => T_IRQ0 + 5 | Xirq_floppy => T_IRQ0 + 6 | Xirq_spurious => T_IRQ0 + 7
  | Xirq_rtc => T_IRQ0 + 8 | Xirq9 => T_IRQ0 + 9 | Xirq10 => T_IRQ0 + 10 | Xirq11 => T_IRQ0 + 11 | Xirq_mouse => T_IRQ0 + 12
  | Xirq_coproc => T_IRQ0 + 13 | Xirq_ide1 => T_IRQ0 + 14 | Xirq_ide2 => T_IRQ0 + 15
  | Xsyscall => T_SYSCALL | Xdefault => T_DEFAULT
  end.

(** The assignments of [intr_init_idt] after the default ones: vector, handler
    and privilege *)
Definition idt_entries : list (Z * handler * Z) :=
  [(0, Xdivide, 0); (1, Xdebug, 0); (2, Xnmi, 0); (3, Xbrkpt, 3); (4, Xoflow, 3); (5, Xbound, 0); (6, Xillop, 0); (7, Xdevice, 0);
   (8, Xdblflt, 0); (10, Xtss, 0); (11, Xsegnp, 0); (12, Xstack, 0); (13, Xgpflt, 0); (14, Xpgflt, 0); (16, Xfperr, 0);
   (17, Xalign, 0); (18, Xmchk, 0);
   (T_IRQ0 + 0, Xirq_timer, 0); (T_IRQ0 + 1, Xirq_kbd, 0); (T_IRQ0 + 2, Xirq_slave, 0); (T_IRQ0 + 3, Xirq_serial2, 0);
   (T_IRQ0 + 4, Xirq_serial1, 0); (T_IRQ0 + 5, Xirq_lpt, 0); (T_IRQ0 + 6, Xirq_floppy, 0); (T_IRQ0 + 7, Xirq_spurious, 0);
   (T_IRQ0 + 8, Xirq_rtc, 0); (T_IRQ0 + 9, Xirq9, 0); (T_IRQ0 + 10, Xirq10, 0); (T_IRQ0 + 11, Xirq11, 0); (T_IRQ0 + 12, Xirq_mouse, 0);
   (T_IRQ0 + 13, Xirq_coproc, 0); (T_IRQ0 + 14, Xirq_ide1, 0); (T_IRQ0 + 15, Xirq_ide2, 0);
   (T_SYSCALL, Xsyscall, 3); (T_DEFAULT, Xdefault, 0)].

Definition intr_init_idt (addr : handler -> Z) : gmap Z gatedesc :=
  foldl (fun m '(v, h, dpl) => <[v := SETGATE false CPU_GDT_KCODE (addr h) dpl]> m)
    (foldl (fun m i => <[i := SETGATE false CPU_GDT_KCODE (addr Xdefault) 0]> m) ∅ (seqZ 0 256)) idt_entries.

(** What the processor reads in a gate *)
Definition gate_offset (g : gatedesc) : Z := gd_off_15_0 g + 2 ^ 16 * gd_off_31_16 g.
