(* ===== verification/SegSpec.v ===== *)
(** * Segments, kernel stacks and gates: theorems

    What the processor reads in the descriptor tables: the segments, the stack a
    trap enters on, the handler of every vector. *)

From S2P Require Import Prelude Machine Pic Seg.

(** ** Decoding *)
Lemma land_mod x n m : 0 <= n -> m = 2 ^ n - 1 -> Z.land x m = x mod 2 ^ n.
Proof. intros Hn ->. rewrite <-Z.land_ones, Z.ones_equiv by done. by rewrite Z.sub_1_r. Qed.

Lemma split_base a :
  Z.land a 0xffff + 2 ^ 16 * Z.land (Z.shiftr a 16) 0xff + 2 ^ 24 * bits_of 8 (Z.shiftr (u32 a) 24) = a mod 2 ^ 32.
Proof.
  rewrite (land_mod _ 16), (land_mod _ 8), !Z.shiftr_div_pow2 by done. unfold bits_of, u32, W32.
  Z.to_euclidean_division_equations. lia.
Qed.

Lemma gate_offset_ok t sel off dpl : 0 <= off < 2 ^ 32 -> gate_offset (SETGATE t sel off dpl) = off.
Proof.
  intros H. unfold gate_offset, SETGATE. cbn [gd_off_15_0 gd_off_31_16]. rewrite u32_id by done.
  rewrite (land_mod _ 16), Z.shiftr_div_pow2 by done. Z.to_euclidean_division_equations. lia.
Qed.

Lemma tss_desc_reads base i :
  0 <= tss_addr base i < 2 ^ 32 ->
  seg_base (tss_desc base i) = tss_addr base i /\ seg_limit (tss_desc base i) = 235
  /\ sd_p (tss_desc base i) = 1 /\ sd_s (tss_desc base i) = 0 /\ sd_type (tss_desc base i) = STS_T32A.
Proof.
  intros H. split; [|done]. unfold tss_desc, SEGDESC16, seg_base, set_sd_s.
  cbn [sd_base_15_0 sd_base_23_16 sd_base_31_24]. rewrite split_base. by apply Z.mod_small.
Qed.

(** ** Interrupt gates *)

(** The handler meant for a vector *)
Definition handler_of (v : Z) : handler :=
  match list_find (fun e : Z * handler * Z => e.1.1 = v) idt_entries with Some (_, e) => e.1.2 | None => Xdefault end.
Definition user_vector (v : Z) : bool := bool_decide (v = 3 \/ v = 4 \/ v = T_SYSCALL).

(** The table before the handlers have addresses *)
Definition idt_plan : gmap Z (handler * Z) :=
  foldl (fun m '(v, h, dpl) => <[v := (h, dpl)]> m) (foldl (fun m i => <[i := (Xdefault, 0)]> m) ∅ (seqZ 0 256)) idt_entries.

Lemma foldl_insert_fmap {A B C} (f : B -> C) (key : A -> Z) (val : A -> B) l (m : gmap Z B) :
  f <$> foldl (fun m x => <[key x := val x]> m) m l = foldl (fun m x => <[key x := f (val x)]> m) (f <$> m) l.
Proof. revert m. induction l as [|x l IH]; intros m; [done|]. cbn [foldl]. by rewrite IH, fmap_insert. Qed.

Lemma foldl_ext {A B} (f g : B -> A -> B) l b : (forall b a, f b a = g b a) -> foldl f b l = foldl g b l.
Proof. intros H. revert b. induction l as [|x l IH]; intros b; [done|]. cbn [foldl]. by rewrite H, IH. Qed.

Lemma idt_plan_ok addr :
  intr_init_idt addr = (fun e => SETGATE false CPU_GDT_KCODE (addr e.1) e.2) <$> idt_plan.
Proof.
  unfold idt_plan, intr_init_idt.
  symmetry. rewrite (foldl_ext _ (fun (m : gmap Z (handler * Z)) e => <[e.1.1 := (e.1.2, e.2)]> m) idt_entries)
    by (by intros b [[??]?]).
  rewrite (foldl_insert_fmap _ (fun e : Z * handler * Z => e.1.1) (fun e => (e.1.2, e.2))).
  rewrite (foldl_insert_fmap _ (fun i => i) (fun _ => (Xdefault, 0))), fmap_empty.
  apply foldl_ext. by intros b [[??]?].
Qed.

Lemma idt_lookup addr v :
  0 <= v < 256 ->
  intr_init_idt addr !! v = Some (SETGATE false CPU_GDT_KCODE (addr (handler_of v)) (if user_vector v then 3 else 0)).
Proof.
  intros Hv. rewrite idt_plan_ok, lookup_fmap.
  assert (idt_plan !! v = Some (handler_of v, if user_vector v then 3 else 0)) as ->; [|done].
  revert v Hv. apply seqZ_forall. apply (bool_decide_unpack _). vm_compute. exact I.
Qed.

(** ** Stacks of traps *)

(** The task state at an address of the two arrays of kernel stacks *)
Section Stacks.
Context (bsp_kstack proc_kstack : Z).

Definition tss_at (s : segst) (a : Z) : tss :=
  if decide (proc_kstack <= a < proc_kstack + KSTACK * NUM_IDS_STACKS)
  then k_tss (prock s !!! ((a - proc_kstack) / KSTACK)) else k_tss (bspk s !!! ((a - bsp_kstack) / KSTACK)).

(** The stack segment and pointer a trap from user mode loads on processor [c] *)
Definition trap_stack (s : segst) (c : Z) : option (Z * Z) :=
  '(a, lim) ← tr s !! c; if decide (103 <= lim) then Some (ts_ss0 (tss_at s a), ts_esp0 (tss_at s a)) else None.

(** The process whose stack the switches [sws] leave on processor [c] *)
Definition on_cpu (sws : list (Z * Z)) (c : Z) : option Z :=
  foldl (fun o '(d, p) => if decide (d = c) then Some p else o) None sws.

Definition stacks_placed : Prop :=
  0 <= bsp_kstack /\ bsp_kstack + KSTACK * NUM_CPUS <= 2 ^ 32 /\ 0 <= proc_kstack
  /\ proc_kstack + KSTACK * NUM_IDS_STACKS <= 2 ^ 32
  /\ (bsp_kstack + KSTACK * NUM_CPUS <= proc_kstack \/ proc_kstack + KSTACK * NUM_IDS_STACKS <= bsp_kstack).

(** A segment of all of memory *)
Definition flat (d : segdesc) (type dpl : Z) : Prop :=
  seg_base d = 0 /\ seg_limit d = 2 ^ 32 - 1 /\ sd_type d = type /\ sd_dpl d = dpl /\ sd_p d = 1 /\ sd_s d = 1.
Definition segments_ok (k : kstk) : Prop :=
  gdt k !!! 0 = SEGDESC_NULL
  /\ flat (gdt k !!! 1) 0xA 0 /\ flat (gdt k !!! 2) 0x2 0 /\ flat (gdt k !!! 3) 0xA 3 /\ flat (gdt k !!! 4) 0x2 3.

Lemma gdt_segments_ok k : segments_ok (gdt_segments k).
Proof.
  assert (forall j, gdt (gdt_segments k) !!! j = gdt (gdt_segments (mk_kstk ∅ (k_tss k) 0 0)) !!! j
                    \/ ~ (0 <= j <= 4)) as H.
  { intros j. destruct (decide (0 <= j <= 4)); [left|by right].
    assert (j = 0 \/ j = 1 \/ j = 2 \/ j = 3 \/ j = 4) as Hj by lia. unfold gdt_segments, set_gdt. cbn [gdt].
    destruct Hj as [->|[->|[->|[->| ->]]]]; repeat (rewrite lookup_total_insert_eq || rewrite lookup_total_insert_ne by done);
      reflexivity. }
  unfold segments_ok. destruct (H 0) as [->|]; [|lia]. destruct (H 1) as [->|]; [|lia]. destruct (H 2) as [->|]; [|lia].
  destruct (H 3) as [->|]; [|lia]. destruct (H 4) as [->|]; [|lia]. repeat split; vm_compute; reflexivity.
Qed.

Lemma segments_set_tss d k : segments_ok k -> segments_ok (set_gdt 5 d k).
Proof. unfold segments_ok, set_gdt. cbn [gdt]. by rewrite !lookup_total_insert_ne by done. Qed.

Definition stack_of (t : tss) : Z * Z := (ts_ss0 t, ts_esp0 t).

(** The processors [cs] and the processes [ps] are set up and the switches [sws] made *)
Record stacks_inv (cs ps : list Z) (sws : list (Z * Z)) (s : segst) : Prop := {
  si_gdtr c : c ∈ cs -> gdtr s !! c = Some c;
  si_segs c : c ∈ cs -> segments_ok (bspk s !!! c);
  si_tr c : c ∈ cs ->
    tr s !! c = Some (match on_cpu sws c with Some p => tss_addr proc_kstack p | None => tss_addr bsp_kstack c end, 235);
  si_bsp c : c ∈ cs -> on_cpu sws c = None -> stack_of (k_tss (bspk s !!! c)) = (CPU_GDT_KDATA, kstack_hi bsp_kstack c);
  si_proc p : p ∈ ps -> stack_of (k_tss (prock s !!! p)) = (CPU_GDT_KDATA, kstack_hi proc_kstack p);
}.

Lemma ltr_ok s c base i :
  0 <= c < NUM_CPUS -> gdtr s !! c = Some c -> gdt (bspk s !!! c) !!! 5 = tss_desc base i -> 0 <= tss_addr base i < 2 ^ 32 ->
  ltr c CPU_GDT_TSS s =
    Ok (tt, set_bspk (<[c := set_gdt 5 (set_sd_type STS_T32B (tss_desc base i)) (bspk s !!! c)]> (bspk s))
              (set_tr (<[c := (tss_addr base i, 235)]> (tr s)) s)).
Proof.
  intros Hc Hg Hd Ha. destruct (tss_desc_reads base i Ha) as (Eb & El & Ep & Es & Et).
  unfold ltr. mrun. rewrite Hg. change (Z.shiftr CPU_GDT_TSS 3) with 5. rewrite Hd, Ep, Es, Et, Eb, El.
  rewrite decide_True by done. unfold upd_bsp. mrun. done.
Qed.

Lemma bsp_addr c : stacks_placed -> 0 <= c < NUM_CPUS -> 0 <= tss_addr bsp_kstack c < 2 ^ 32.
Proof. unfold stacks_placed, tss_addr, KSTACK, NUM_CPUS, tss_offset. lia. Qed.
Lemma proc_addr p : stacks_placed -> 0 <= p < NUM_IDS_STACKS -> 0 <= tss_addr proc_kstack p < 2 ^ 32.
Proof. unfold stacks_placed, tss_addr, KSTACK, NUM_IDS_STACKS, tss_offset. lia. Qed.

(** The stack [seg_init] leaves, before the TSS descriptor becomes busy *)
Definition init_kstk (c : Z) (k : kstk) : kstk :=
  set_k_magic KSTACK_MAGIC
    (set_gdt 5 (tss_desc bsp_kstack c) (set_stack (kstack_hi bsp_kstack c) CPU_GDT_KDATA (gdt_segments k))).

Lemma init_kstk_ok c k : segments_ok (init_kstk c k) /\ stack_of (k_tss (init_kstk c k)) = (CPU_GDT_KDATA, kstack_hi bsp_kstack c).
Proof. split; [|done]. exact (segments_set_tss (tss_desc bsp_kstack c) _ (gdt_segments_ok k)). Qed.

Lemma seg_init_run s c :
  stacks_placed -> 0 <= c < NUM_CPUS ->
  let k := init_kstk c (bspk s !!! c) in
  let busy := set_gdt 5 (set_sd_type STS_T32B (tss_desc bsp_kstack c)) k in
  exists s', seg_init bsp_kstack c s = Ok (tt, s') /\ gdtr s' = <[c := c]> (gdtr s)
    /\ tr s' = <[c := (tss_addr bsp_kstack c, 235)]> (tr s) /\ bspk s' !!! c = busy
    /\ (c <> 0 -> (forall d, d <> c -> bspk s' !!! d = bspk s !!! d) /\ prock s' = prock s).
Proof.
  intros Hp Hc k busy. unfold seg_init, upd_bsp. rewrite !bind_assoc.
  rewrite (bind_ok _ _ _ _ _ (check_index_ok _ _ _ Hc)), modify_bind, modify_bind.
  change (set_k_magic _ _) with k. set (s1 := set_gdtr _ _).
  assert (bspk s1 !!! c = k) as Ek by apply lookup_total_insert_eq.
  rewrite (bind_ok _ _ _ _ _ (ltr_ok s1 c bsp_kstack c Hc (lookup_insert_eq _ _ _) ltac:(rewrite Ek; apply lookup_total_insert_eq)
     (bsp_addr c Hp Hc))). rewrite Ek. fold busy.
  destruct (decide (c = 0)) as [->|Hn].
  - eexists. split; [reflexivity|]. repeat (split; [done|]). split; [|done].
    cbn. rewrite !lookup_total_insert_eq. apply lookup_total_insert_eq.
  - eexists. split; [reflexivity|]. repeat (split; [done|]). split; [apply lookup_total_insert_eq|].
    intros _. split; [|done]. intros d Hd. cbn. by rewrite !lookup_total_insert_ne.
Qed.

Lemma seg_init_first s : stacks_placed -> exists s', seg_init bsp_kstack 0 s = Ok (tt, s') /\ stacks_inv [0] [] [] s'.
Proof.
  intros Hp. destruct (seg_init_run s 0 Hp ltac:(unfold NUM_CPUS; lia)) as (s' & E & G & T & K & _). exists s'. split; [done|].
  destruct (init_kstk_ok 0 (bspk s !!! 0)) as [Hs Ht].
  split; intros c H%list_elem_of_singleton || intros c H; try subst c.
  - by rewrite G, lookup_insert_eq.
  - rewrite K. by apply segments_set_tss.
  - by rewrite T, lookup_insert_eq.
  - intros _. by rewrite K.
  - by apply elem_of_nil in H.
Qed.

Lemma seg_init_next cs s c :
  stacks_placed -> 0 < c < NUM_CPUS -> stacks_inv cs [] [] s ->
  exists s', seg_init bsp_kstack c s = Ok (tt, s') /\ stacks_inv (cs ++ [c]) [] [] s'.
Proof.
  intros Hp Hc I. destruct (seg_init_run s c Hp ltac:(lia)) as (s' & E & G & T & K & F). exists s'. split; [done|].
  destruct F as [F _]; [lia|]. destruct (init_kstk_ok c (bspk s !!! c)) as [Hs Ht].
  assert (forall d, d ∈ cs ++ [c] -> d = c \/ d <> c /\ d ∈ cs) as Hd.
  { intros d. rewrite elem_of_app, list_elem_of_singleton. destruct (decide (d = c)); naive_solver. }
  split.
  - intros d [->|[Hn Hi]]%Hd; rewrite G; [by rewrite lookup_insert_eq|]. rewrite lookup_insert_ne by done. by apply (si_gdtr _ _ _ _ I).
  - intros d [->|[Hn Hi]]%Hd; [rewrite K; by apply segments_set_tss|]. rewrite F by done. by apply (si_segs _ _ _ _ I).
  - intros d [->|[Hn Hi]]%Hd; rewrite T; [by rewrite lookup_insert_eq|]. rewrite lookup_insert_ne by done. by apply (si_tr _ _ _ _ I).
  - intros d [->|[Hn Hi]]%Hd; [by rewrite K|]. rewrite F by done. by apply (si_bsp _ _ _ _ I).
  - intros p Hi. by apply elem_of_nil in Hi.
Qed.

Lemma seg_init_proc_next cs ps s c p :
  0 <= p < NUM_IDS_STACKS -> stacks_inv cs ps [] s ->
  exists s', seg_init_proc proc_kstack c p s = Ok (tt, s') /\ stacks_inv cs (ps ++ [p]) [] s'.
Proof.
  intros Hp I. eexists. split; [unfold seg_init_proc, upd_proc; by rewrite (bind_ok _ _ _ _ _ (check_index_ok _ _ _ Hp))|].
  split; [apply I..|]. intros q Hq. cbn [prock]. cbn.
  destruct (decide (q = p)) as [->|Hn]; [by rewrite lookup_total_insert_eq|]. rewrite lookup_total_insert_ne by done.
  apply (si_proc _ _ _ _ I). apply elem_of_app in Hq as [Hq|Hq%list_elem_of_singleton]; done.
Qed.

Lemma on_cpu_snoc sws d p c : on_cpu (sws ++ [(d, p)]) c = if decide (d = c) then Some p else on_cpu sws c.
Proof. unfold on_cpu. by rewrite foldl_app. Qed.

Lemma kstack_switch_next cs ps sws s c p :
  stacks_placed -> 0 <= c < NUM_CPUS -> 0 <= p < NUM_IDS_STACKS -> c ∈ cs -> stacks_inv cs ps sws s ->
  exists s', kstack_switch proc_kstack c p s = Ok (tt, s') /\ stacks_inv cs ps (sws ++ [(c, p)]) s'.
Proof.
  intros Hp Hc Hq Hi I. unfold kstack_switch, upd_bsp.
  rewrite (bind_ok _ _ _ _ _ (check_index_ok _ _ _ Hq)), bind_assoc, (bind_ok _ _ _ _ _ (check_index_ok _ _ _ Hc)), modify_bind.
  change (Z.shiftr CPU_GDT_TSS 3) with 5. set (k := set_gdt 5 _ _). set (s1 := set_bspk _ _).
  assert (bspk s1 !!! c = k) as Ek by apply lookup_total_insert_eq.
  rewrite (ltr_ok s1 c proc_kstack p Hc (si_gdtr _ _ _ _ I c Hi) ltac:(rewrite Ek; apply lookup_total_insert_eq)
     (proc_addr p Hp Hq)). rewrite Ek. eexists. split; [reflexivity|].
  assert (segments_ok k) as Hk by (apply segments_set_tss; exact (si_segs _ _ _ _ I c Hi)).
  split; cbn [set_bspk set_tr bspk prock gdtr tr].
  - apply (si_gdtr _ _ _ _ I).
  - intros d Hd. destruct (decide (d = c)) as [->|Hn].
    + rewrite lookup_total_insert_eq. by apply segments_set_tss.
    + cbn. rewrite !lookup_total_insert_ne by done. by apply (si_segs _ _ _ _ I).
  - intros d Hd. rewrite on_cpu_snoc. destruct (decide (c = d)) as [->|Hn]; [by rewrite lookup_insert_eq|].
    rewrite lookup_insert_ne by done. by apply (si_tr _ _ _ _ I).
  - intros d Hd. rewrite on_cpu_snoc. destruct (decide (c = d)) as [->|Hn]; [done|].
    cbn. rewrite !lookup_total_insert_ne by done. by apply (si_bsp _ _ _ _ I).
  - apply (si_proc _ _ _ _ I).
Qed.

(** The stack a trap enters on, from the invariant *)
Lemma inv_trap_stack cs ps sws s c :
  stacks_placed -> 0 <= c < NUM_CPUS -> c ∈ cs ->
  (forall p, on_cpu sws c = Some p -> 0 <= p < NUM_IDS_STACKS /\ p ∈ ps) -> stacks_inv cs ps sws s ->
  trap_stack s c =
    Some (CPU_GDT_KDATA, match on_cpu sws c with Some p => kstack_hi proc_kstack p | None => kstack_hi bsp_kstack c end).
Proof.
  intros (H1 & H2 & H3 & H4 & H5) Hc Hi Hs I. unfold trap_stack. rewrite (si_tr _ _ _ _ I c Hi). cbn.
  rewrite decide_True by lia. destruct (on_cpu sws c) as [p|] eqn:Eo.
  - destruct (Hs p eq_refl) as [Hp Hm]. pose proof (si_proc _ _ _ _ I p Hm) as E. injection E as Ea Eb.
    unfold tss_at. rewrite decide_True by (unfold tss_addr, KSTACK, tss_offset, NUM_IDS_STACKS in *; lia).
    replace ((tss_addr proc_kstack p - proc_kstack) / KSTACK) with p; [by rewrite Ea, Eb|].
    unfold tss_addr, KSTACK, tss_offset. Z.to_euclidean_division_equations. lia.
  - pose proof (si_bsp _ _ _ _ I c Hi Eo) as E. injection E as Ea Eb.
    unfold tss_at. rewrite decide_False by (unfold tss_addr, KSTACK, tss_offset, NUM_IDS_STACKS, NUM_CPUS in *; lia).
    replace ((tss_addr bsp_kstack c - bsp_kstack) / KSTACK) with c; [by rewrite Ea, Eb|].
    unfold tss_addr, KSTACK, tss_offset. Z.to_euclidean_division_equations. lia.
Qed.

Lemma on_cpu_elem sws c p : on_cpu sws c = Some p -> (c, p) ∈ sws.
Proof.
  induction sws as [|[d q] sws IH] using rev_ind; [done|]. rewrite on_cpu_snoc, elem_of_app, list_elem_of_singleton.
  destruct (decide (d = c)) as [->|]; [intros [= ->]; by right|]. intros H. left. by apply IH.
Qed.

(** The 129 bytes of the permission map [seg_init_proc] leaves: ports 0 to 1023 open *)
Lemma ports_open s c p :
  0 <= p < NUM_IDS_STACKS ->
  exists s', seg_init_proc proc_kstack c p s = Ok (tt, s')
    /\ forall port, 0 <= port < 1024 -> Z.testbit (ts_iopm (k_tss (prock s' !!! p)) !!! (port / 8)) (port mod 8) = false.
Proof.
  intros Hp. eexists. split; [unfold seg_init_proc, upd_proc; by rewrite (bind_ok _ _ _ _ _ (check_index_ok _ _ _ Hp))|].
  intros port Hr. cbn [set_prock prock]. rewrite lookup_total_insert_eq. cbn [k_tss set_k_cpu set_k_magic set_gdt set_io ts_iopm].
  assert (0 <= port / 8 < 128) as Hb by (Z.to_euclidean_division_equations; lia).
  rewrite lookup_total_insert_ne by lia.
  assert (forall l (m : gmap Z Z) i, i ∈ l -> foldl (fun m i => <[i := 0]> m) m l !!! i = 0) as Hf.
  { intros l. induction l as [|j l IH] using rev_ind; intros m i Hi; [by apply elem_of_nil in Hi|].
    rewrite foldl_app. cbn. destruct (decide (i = j)) as [->|Hn]; [apply lookup_total_insert_eq|].
    rewrite lookup_total_insert_ne by done. apply IH. apply elem_of_app in Hi as [?|?%list_elem_of_singleton]; done. }
  rewrite Hf; [apply Z.testbit_0_l|]. apply elem_of_seqZ. lia.
Qed.

End Stacks.

Module SegProps.

(** The interrupt table sends every vector to its handler.  For
    handlers at 32-bit addresses, after [intr_init_idt] the gate of each of the 256
    vectors is a present interrupt gate into the kernel code segment, the address
    the processor reads in it is that of the vector's handler ([Xdefault] where none
    is assigned), and only breakpoints, overflows and system calls may be raised from
    user mode. *)
Theorem idt_dispatches_vectors (addr : handler -> Z) v :
  (forall h, 0 <= addr h < 2 ^ 32) -> 0 <= v < 256 ->
  let g := intr_init_idt addr !!! v in
  gate_offset g = addr (handler_of v) /\ gd_ss g = CPU_GDT_KCODE /\ gd_type g = STS_IG32 /\ gd_p g = 1 /\ gd_s g = 0
  /\ (3 <= gd_dpl g <-> v = 3 \/ v = 4 \/ v = T_SYSCALL).
Proof.
  intros Ha Hv g. assert (g = SETGATE false CPU_GDT_KCODE (addr (handler_of v)) (if user_vector v then 3 else 0)) as ->.
  { unfold g. by rewrite lookup_total_alt, idt_lookup. }
  rewrite gate_offset_ok by apply Ha. repeat (split; [done|]). unfold SETGATE. cbn [gd_dpl]. unfold user_vector.
  case_bool_decide; vm_compute bits_of; split; try done; intros ?; naive_solver.
Qed.

Lemma idt_dispatches_vectors_witness :
  let g := intr_init_idt (fun _ => 0x101000) !!! 33 in gate_offset g = 0x101000 /\ (3 <= gd_dpl g <-> 33 = 3 \/ 33 = 4 \/ 33 = T_SYSCALL).
Proof.
  destruct (idt_dispatches_vectors (fun _ => 0x101000) 33) as (H & _ & _ & _ & _ & H'); [lia..|]. exact (conj H H').
Defined.

(** C25 (invariant): traps enter on the stack of the running process.  Kernel stacks at
    different addresses, [seg_init] on the first processor and then on others,
    [seg_init_proc] for processes, and any sequence of [kstack_switch] calls on these
    processors for these processes: all of it succeeds, and afterwards every
    processor has flat code and data segments of levels 0 and 3, and a trap from user
    mode loads the top of the kernel stack of the process last switched to on this
    processor (the processor's own boot stack before the first switch). *)
Theorem trap_enters_on_process_stack bsp_kstack proc_kstack s c0 cpus pids sws :
  stacks_placed bsp_kstack proc_kstack ->
  Forall (fun c => 0 < c < NUM_CPUS) cpus -> Forall (fun p => 0 <= p < NUM_IDS_STACKS) pids ->
  Forall (fun '(c, p) => c ∈ 0 :: cpus /\ p ∈ pids) sws ->
  exists s', (seg_init bsp_kstack 0 ;; for_each cpus (seg_init bsp_kstack) ;; for_each pids (seg_init_proc proc_kstack c0) ;;
       for_each sws (fun '(c, p) => kstack_switch proc_kstack c p)) s = Ok (tt, s')
    /\ forall c, c ∈ 0 :: cpus ->
         gdtr s' !! c = Some c /\ segments_ok (bspk s' !!! c)
         /\ trap_stack bsp_kstack proc_kstack s' c =
              Some (CPU_GDT_KDATA, match on_cpu sws c with Some p => kstack_hi proc_kstack p | None => kstack_hi bsp_kstack c end).
Proof.
  intros Hp Hcs Hps Hsw. rewrite Forall_forall in Hcs, Hps. rewrite Forall_forall in Hsw.
  assert (forall c, c ∈ 0 :: cpus -> 0 <= c < NUM_CPUS) as Hc.
  { intros c [->|H]%elem_of_cons; [unfold NUM_CPUS; lia|]. specialize (Hcs c H). lia. }
  destruct (seg_init_first bsp_kstack proc_kstack s Hp) as (s1 & E1 & I1). rewrite (bind_ok _ _ _ _ _ E1).
  destruct (for_each_ind (fun d => stacks_inv bsp_kstack proc_kstack (0 :: d) [] []) (seg_init bsp_kstack) cpus)
    with (s := s1) as (s2 & E2 & I2); [|done|].
  { intros d x r t -> It. apply (seg_init_next _ _ (0 :: d)); try done. apply Hcs, elem_of_app. right. apply elem_of_cons. by left. }
  rewrite (bind_ok _ _ _ _ _ E2).
  destruct (for_each_ind (fun d => stacks_inv bsp_kstack proc_kstack (0 :: cpus) d []) (seg_init_proc proc_kstack c0) pids)
    with (s := s2) as (s3 & E3 & I3); [|done|].
  { intros d x r t -> It. apply seg_init_proc_next; [|done]. apply Hps, elem_of_app. right. apply elem_of_cons. by left. }
  rewrite (bind_ok _ _ _ _ _ E3).
  destruct (for_each_ind (stacks_inv bsp_kstack proc_kstack (0 :: cpus) pids) (fun '(c, p) => kstack_switch proc_kstack c p) sws)
    with (s := s3) as (s4 & E4 & I4); [|done|].
  { intros d [c p] r t -> It. destruct (Hsw (c, p)) as [Hi Hq]; [apply elem_of_app; right; apply elem_of_cons; by left|].
    apply kstack_switch_next; auto. }
  exists s4. split; [done|]. intros c Hi. split; [by apply (si_gdtr _ _ _ _ _ _ I4)|]. split; [by apply (si_segs _ _ _ _ _ _ I4)|].
  apply (inv_trap_stack _ _ (0 :: cpus) pids); auto. intros p Ho%on_cpu_elem. destruct (Hsw (c, p) Ho). auto.
Qed.

Lemma trap_enters_on_process_stack_witness :
  exists s', (seg_init 0x200000 0 ;; for_each [1] (seg_init 0x200000) ;; for_each [0; 5] (seg_init_proc 0x300000 0) ;;
       for_each [(0, 0); (0, 5)] (fun '(c, p) => kstack_switch 0x300000 c p)) (mk_segst ∅ ∅ ∅ ∅) = Ok (tt, s')
    /\ trap_stack 0x200000 0x300000 s' 0 = Some (16, 0x306000) /\ trap_stack 0x200000 0x300000 s' 1 = Some (16, 0x202000).
Proof.
  destruct (trap_enters_on_process_stack 0x200000 0x300000 (mk_segst ∅ ∅ ∅ ∅) 0 [1] [0; 5] [(0, 0); (0, 5)]) as (s' & E & H).
  - unfold stacks_placed, KSTACK, NUM_CPUS, NUM_IDS_STACKS. lia.
  - repeat constructor; unfold NUM_CPUS; lia.
  - repeat constructor; unfold NUM_IDS_STACKS; lia.
  - repeat constructor; rewrite !elem_of_cons; lia.
  - exists s'. split; [exact E|]. split.
    + apply (H 0). apply elem_of_cons. by left.
    + apply (H 1). apply elem_of_cons. right. apply elem_of_cons. by left.
Defined.

End SegProps.
