(* ===== verification/Intr.v ===== *)
(** * Interrupts: dev/intr.c

    The interface of the kernel to the controllers, over the models of the PIC,
    the APICs, the processors and the gates: set-up, enabling a line for a
    processor, acknowledgement, the interrupt flag; and the theorem that an enabled
    line reaches its handler. *)

From S2P Require Import Prelude Machine Pic Apic ApicSpec Acpi Mp Seg SegSpec.

Record intrst := mk_intrst {
  i_pic : picst;
  i_mp : mpst;                  (* processors and APICs *)
  i_idt : gmap Z gatedesc;      (* idt[] *)
  using_apic : bool;
  intr_inited : bool;
  if_flag : bool;               (* the processor accepts interrupts *)
}.
Definition set_i_pic v s := mk_intrst v (i_mp s) (i_idt s) (using_apic s) (intr_inited s) (if_flag s).
Definition set_i_mp v s := mk_intrst (i_pic s) v (i_idt s) (using_apic s) (intr_inited s) (if_flag s).
Definition set_i_idt v s := mk_intrst (i_pic s) (i_mp s) v (using_apic s) (intr_inited s) (if_flag s).
Definition set_using_apic v s := mk_intrst (i_pic s) (i_mp s) (i_idt s) v (intr_inited s) (if_flag s).
Definition set_intr_inited v s := mk_intrst (i_pic s) (i_mp s) (i_idt s) (using_apic s) v (if_flag s).
Definition set_if_flag v s := mk_intrst (i_pic s) (i_mp s) (i_idt s) (using_apic s) (intr_inited s) v.

Notation I := (M intrst).
Definition on_pic {X} (m : M picst X) : I X := zoom i_pic set_i_pic m.
Definition on_mp {X} (m : M mpst X) : I X := zoom i_mp set_i_mp m.

Definition CPUID_FEATURE_APIC : Z := Z.shiftl 1 9.

Section Intr.
Context (cpuid : Z -> Z -> regs4) (addr : handler -> Z).

(** [env] are the counts [lapic_init] reads from its timer. *)
Definition intr_init (ks : kstack) (env : Z -> Z * list Z) : I unit :=
  on_pic pic_init ;;
  let edx := r_edx (cpuid 1 0) in
  modify (set_using_apic (bool_decide (Z.land edx CPUID_FEATURE_APIC <> 0))) ;;
  a ← gets using_apic;
  if (a : bool) then
    b ← on_mp (pcpu_onboot ks);
    (if (b : bool) then on_mp (on_apic ioapic_init) else mret tt) ;;
    on_mp (on_apic (lapic_init env)) ;;
    modify (set_i_idt (intr_init_idt addr)) ;;
    modify (set_intr_inited true)
  else panic "KERN_ASSERT".
End Intr.

Definition enable_line (irq dest : Z) : I unit :=
  a ← gets using_apic;
  if (a : bool) then on_mp (on_apic (ioapic_enable irq dest false false))
  else if decide (irq < 16) then on_pic (pic_enable irq) else panic "KERN_ASSERT".

(** [pcpu_cpu_lapicid] is called only where its result is used. *)
Definition intr_enable (irq cpunum : Z) : I unit :=
  n ← on_mp pcpu_ncpu;
  if decide (cpunum = 0xff \/ 0 <= cpunum < n) then
    if decide (irq >= 24) then mret tt
    else
      a ← gets using_apic;
      dest ← (if (a : bool) then if decide (cpunum = 0xff) then mret 0xff else on_mp (pcpu_cpu_lapicid cpunum) else mret 0);
      enable_line irq dest
  else panic "KERN_ASSERT".

Definition intr_enable_lapicid (irq lapic_id : Z) : I unit :=
  if decide (irq > 24) then mret tt else enable_line irq (u8 lapic_id).

Definition intr_eoi : I unit :=
  a ← gets using_apic;
  if (a : bool) then on_mp (on_apic lapic_eoi) else on_pic pic_eoi.

Definition intr_local_enable : I unit := modify (set_if_flag true).
Definition intr_local_disable : I unit := modify (set_if_flag false).

(** ** Frames *)

(** Everything but the local APIC, the ports and memory is as before. *)
Record same_io (s s' : apicst) : Prop := {
  sio_hw : io_hw s' = io_hw s;
  sio_ioapics : ioapics s' = ioapics s;
  sio_gsi : gsi s' = gsi s;
  sio_num : ioapic_num s' = ioapic_num s;
  sio_lapic : lapic s' = lapic s;
}.
Lemma same_io_refl s : same_io s s.
Proof. by split. Qed.
Lemma same_io_trans s1 s2 s3 : same_io s1 s2 -> same_io s2 s3 -> same_io s1 s3.
Proof. intros [] []. split; congruence. Qed.

(** [m] keeps them when there is a local APIC. *)
Definition keeps {X} (m : A X) : Prop :=
  forall s, lapic s <> 0 -> exists x s', m s = Ok (x, s') /\ same_io s s'.

Lemma keeps_bind {X Y} (m : A X) (k : X -> A Y) : keeps m -> (forall x, keeps (k x)) -> keeps (m ≫= k).
Proof.
  intros Hm Hk s Hl. destruct (Hm s Hl) as (x & s1 & E1 & F1).
  destruct (Hk x s1) as (y & s2 & E2 & F2); [by rewrite (sio_lapic _ _ F1)|].
  exists y, s2. rewrite (bind_ok _ _ _ _ _ E1). split; [done|]. by eapply same_io_trans.
Qed.
Lemma keeps_ret {X} (x : X) : keeps (mret x).
Proof. intros s _. exists x, s. split; [done|apply same_io_refl]. Qed.
Lemma keeps_gets {X} (f : apicst -> X) : keeps (gets f).
Proof. intros s _. exists (f s), s. split; [done|apply same_io_refl]. Qed.
Lemma keeps_write i v : keeps (lapic_write i v).
Proof. intros s Hl. eexists tt, _. split; [by apply lapic_write_ok|]. unfold lapic_store. by case_decide; split. Qed.
Lemma keeps_read i : keeps (lapic_read i).
Proof. intros s Hl. exists (lregs s !!! i), s. unfold lapic_read. mrun. rewrite decide_False by done. split; [done|apply same_io_refl]. Qed.
Lemma keeps_port p v : keeps (port_out p v).
Proof. intros s _. eexists tt, _. split; [done|by split]. Qed.

Ltac keeps_one := lazymatch goal with
  | |- keeps (lapic_write _ _) => apply keeps_write
  | |- keeps (lapic_read _) => apply keeps_read
  | |- keeps (port_out _ _) => apply keeps_port
  | |- keeps (mret _) => apply keeps_ret
  | |- keeps (gets _) => apply keeps_gets
  | |- keeps (_ ≫= _) => apply keeps_bind; [|intros ?]
  | |- keeps (if decide _ then _ else _) => case_decide
  end.

Lemma keeps_calibrate t1 reads latch ms loopmin : ms <> 0 -> keeps (lapic_calibrate_timer t1 reads latch ms loopmin).
Proof. intros H. unfold lapic_calibrate_timer. cbv zeta. repeat keeps_one. done. Qed.
Lemma keeps_tries n i env : keeps (calibrate_tries n i env).
Proof.
  revert i. induction n as [|n IH]; intros i; cbn [calibrate_tries]; [apply keeps_ret|].
  apply keeps_bind; [by apply keeps_calibrate|]. intros t. case_decide; [apply keeps_ret|apply IH].
Qed.

(** The command register is never seen busy after a command. *)
Lemma broadcast_delivered v :
  keeps (lapic_write LAPIC_ICRLO v ;; wait_delivered ;; lapic_write LAPIC_TPR 0).
Proof.
  intros s Hl. rewrite (bind_ok _ _ _ _ _ (lapic_write_ok s _ _ Hl)).
  set (s1 := lapic_store LAPIC_ICRLO v s). assert (lapic s1 <> 0) as Hl1 by done.
  unfold wait_delivered, lapic_read. mrun. rewrite decide_False by done.
  assert (Z.land (lregs s1 !!! LAPIC_ICRLO) LAPIC_ICRLO_DELIVS = 0) as ->.
  { unfold s1, lapic_store. rewrite decide_True by done. cbn [set_lregs lregs]. rewrite lookup_total_insert_eq.
    rewrite <-Z.land_assoc. change (Z.land _ LAPIC_ICRLO_DELIVS) with 0 at 1. apply Z.land_0_r. }
  rewrite decide_True by done. eexists tt, _. split; [by apply lapic_write_ok|]. by split.
Qed.

Lemma keeps_lapic_init env : keeps (lapic_init env).
Proof.
  intros s Hl. unfold lapic_init. rewrite gets_bind, decide_False by done.
  match goal with |- exists x s', ?m s = _ /\ _ => assert (keeps m) as K end; [|by apply K]. clear s Hl.
  repeat first [ lazymatch goal with |- keeps (calibrate_tries _ _ _) => apply keeps_tries end
    | lazymatch goal with |- keeps (lapic_write LAPIC_ICRLO _ ≫= _) => apply broadcast_delivered end | keeps_one ].
Qed.

(** ** Lines *)
(** The local APIC a processor number stands for *)
Definition dest_of (s : mpst) (c : Z) : Z := if decide (c = 0xff) then 0xff else u8 (lapicid (arch_info s !!! c)).
Definition line_op (s : mpst) (l : Z * Z) : option ioapic_op :=
  if decide (l.1 >= 24) then None else Some (l.1, dest_of s l.2, false, false).
(** The processor of the last call for a line *)
Definition last_line (lines : list (Z * Z)) (irq : Z) : option Z :=
  foldl (fun o l => if decide (l.1 = irq) then Some l.2 else o) None lines.

Lemma last_line_op s lines irq : irq < 24 ->
  last_op (omap (line_op s) lines) irq = (fun c => (dest_of s c, false, false)) <$> last_line lines irq.
Proof.
  intros Hi. induction lines as [|[n c] lines IH] using rev_ind; [done|].
  unfold last_line. rewrite foldl_app. fold (last_line lines irq). rewrite omap_app. cbn [foldl fst snd omap list_omap].
  unfold line_op at 2. cbn [fst snd]. destruct (decide (n >= 24)) as [Hn|Hn].
  - rewrite app_nil_r, IH. by rewrite decide_False by lia.
  - rewrite last_op_snoc. destruct (decide (n = irq)); [done|]. apply IH.
Qed.

Lemma dest_range s c : 0 <= dest_of s c < 256.
Proof. unfold dest_of, u8. case_decide; [lia|]. by apply Z.mod_pos_bound. Qed.

(** The lines [d] are enabled over APICs [b], processors [mp] and the state [s0]. *)
Record lines_on (b : apicst) (s0 : intrst) (d : list (Z * Z)) (s : intrst) : Prop := {
  lo_apic : using_apic s = true;
  lo_ncpu : ncpu (i_mp s) = ncpu (i_mp s0);
  lo_cpus : arch_info (i_mp s) = arch_info (i_mp s0);
  lo_idt : i_idt s = i_idt s0;
  lo_pic : i_pic s = i_pic s0;
  lo_routes : routed b (omap (line_op (i_mp s0)) d) (apic (i_mp s));
}.

Lemma intr_enable_step b s0 d s irq c :
  ioapics_ok b -> (forall n i k, covers b n i -> covers b n k -> i = k) -> lines_on b s0 d s ->
  0 <= irq -> (irq < 24 -> exists i, covers b irq i) -> c = 0xff \/ 0 <= c < ncpu (i_mp s0) -> ncpu (i_mp s0) <= NUM_CPUS ->
  exists s', intr_enable irq c s = Ok (tt, s') /\ lines_on b s0 (d ++ [(irq, c)]) s'.
Proof.
  intros Hok Hu [La Ln Lc Li Lp Lr] Hr Hcov Hc Hn. unfold intr_enable.
  rewrite (bind_ok _ _ _ (ncpu (i_mp s0)) s); [|unfold on_mp; erewrite zoom_ok; [|reflexivity]; rewrite Ln; by destruct s].
  rewrite decide_True by done. destruct (decide (irq >= 24)) as [H24|H24].
  { exists s. split; [done|]. split; try done. rewrite omap_app. cbn. unfold line_op at 2. rewrite decide_True by done.
    by rewrite app_nil_r. }
  rewrite gets_bind, La. rewrite (bind_ok _ _ _ (dest_of (i_mp s0) c) s).
  2: { unfold dest_of. destruct (decide (c = 255)) as [|Hne]; [done|]. unfold on_mp. erewrite zoom_ok; cycle 1.
       - unfold pcpu_cpu_lapicid. mrun. rewrite decide_True by (rewrite Ln; lia). rewrite check_index_ok by lia. reflexivity.
       - rewrite Lc. by destruct s. }
  unfold enable_line. rewrite gets_bind, La. destruct Hcov as [i Hi]; [lia|].
  destruct (routed_enable b _ _ irq (dest_of (i_mp s0) c) false false i Hok Lr Hi) as (a & Ea & Ra);
    [intros k Hk; by apply (Hu irq)|lia|apply dest_range|].
  eexists. split; [apply zoom_ok, zoom_ok, Ea|]. split; try done. cbn [i_mp set_i_mp apic set_apic]. rewrite omap_app. cbn [omap list_omap].
  unfold line_op at 2. cbn [fst snd]. by rewrite decide_False.
Qed.

(** After [intr_init] on the first processor *)
Record ready (cpuid : Z -> Z -> regs4) (addr : handler -> Z) (s s' : intrst) : Prop := {
  rd_apic : using_apic s' = true;
  rd_ncpu : ncpu (i_mp s') = ncpu (i_mp s);
  rd_cpus : arch_info (i_mp s') = arch_info (i_mp s);
  rd_idt : i_idt s' = intr_init_idt addr;
  rd_pic : pic_lines ∅ (i_pic s');
  rd_io : exists a, all_masked_from (apic (i_mp s)) (ioapic_num (apic (i_mp s))) a /\ same_io a (apic (i_mp s'));
}.

Lemma intr_init_ok cpuid addr ks env s :
  pcpu_onboot ks (i_mp s) = Ok (true, i_mp s) -> Z.land (r_edx (cpuid 1 0)) CPUID_FEATURE_APIC <> 0 ->
  pic_inited (i_pic s) = false -> irqmask (i_pic s) = irqmask0 -> lapic (apic (i_mp s)) <> 0 -> ioapics_ok (apic (i_mp s)) ->
  exists s', intr_init cpuid addr ks env s = Ok (tt, s') /\ ready cpuid addr s s'.
Proof.
  intros Hb Hc Hi Hm Hl Hok. destruct (pic_init_spec _ Hi) as (p & Ep & R1 & M1 & M2 & M3 & _).
  unfold intr_init. rewrite (bind_ok _ _ _ _ _ (zoom_ok i_pic set_i_pic _ _ _ _ Ep)). cbv zeta.
  rewrite modify_bind, gets_bind. rewrite bool_decide_true by done. cbn [using_apic set_using_apic]. unfold on_mp.
  erewrite bind_ok; [|apply zoom_ok, Hb]. cbn [i_mp set_i_mp set_i_pic set_using_apic i_pic].
  destruct (ioapic_init_ok _ Hok) as (a1 & E1 & F1). erewrite bind_ok; [|apply zoom_ok, zoom_ok, E1].
  cbn [i_mp set_i_mp set_i_pic set_using_apic apic set_apic].
  assert (lapic a1 <> 0) as Hl1. { rewrite (am_drv _ _ _ F1). done. }
  destruct (keeps_lapic_init env a1 Hl1) as ([] & a2 & E2 & F2). erewrite bind_ok; [|apply zoom_ok, zoom_ok, E2].
  rewrite modify_bind. eexists. split; [reflexivity|]. split; try done.
  - split; [done|]. split; [|by left]. intros k Hk. cbn. rewrite M3, Hm. by apply irqmask0_lines.
  - by exists a1.
Qed.

Lemma same_io_reg s s' b r : same_io s s' -> rg s' b r = rg s b r.
Proof. intros F. unfold rg. by rewrite (sio_hw _ _ F). Qed.

Lemma init_routes a a1 b :
  ioapics_ok a -> all_masked_from a (ioapic_num a) a1 -> same_io a1 b ->
  ioapics_ok b /\ (forall n i, covers b n i <-> covers a n i) /\ routed b [] b
  /\ ioapics b = ioapics a /\ gsi b = gsi a /\ ioapic_num b = ioapic_num a /\ forall x, maxof b x = maxof a x.
Proof.
  intros Hok [D1 V1 R1 _ T1] F. destruct (same_drv_fields _ _ D1) as (Ea & _ & Eg & En).
  rewrite <-(sio_ioapics _ _ F) in Ea. rewrite <-(sio_gsi _ _ F) in Eg. rewrite <-(sio_num _ _ F) in En.
  assert (forall x, maxof b x = maxof a x) as Em by (intros x; unfold maxof; by rewrite (same_io_reg _ _ _ _ F), R1).
  split; [|split; [|split; [|done]]].
  - destruct Hok as [Hn Hd Ha]. split; rewrite ?Ea, ?En; [done| |done]. intros i Hi. split; [|by apply Hd].
    unfold dev. rewrite (sio_hw _ _ F). apply V1. by apply Hd.
  - intros n i. unfold covers. by rewrite Ea, Eg, En, Em.
  - split; [apply same_drv_refl|done|done|]. intros i j Hi Hj. rewrite Ea, Em in *. rewrite En in Hi.
    unfold route. rewrite !(same_io_reg _ _ _ _ F). exact (T1 i j Hi Hj).
Qed.

(** The entry of a line reports the line's vector. *)
Lemma line_entry irq : 0 <= irq < 16 -> trap_number (handler_of (T_IRQ0 + irq)) = T_IRQ0 + irq.
Proof.
  intros H. assert (irq ∈ seqZ 0 16) as Hin by (apply elem_of_seqZ; lia). clear H. revert irq Hin.
  apply Forall_forall, (bool_decide_unpack _). by vm_compute.
Qed.
(** Line 16 raises the vector of the system call. *)
Lemma line_16_is_syscall : handler_of (T_IRQ0 + 16) = Xsyscall.
Proof. by vm_compute. Qed.

Module IntrProps.

(** C24 (refinement): an enabled interrupt line reaches its handler on its
    processor.  [intr_init] on the first processor of a machine with APICs whose
    I/O APICs have different addresses and ranges, and then any calls of
    [intr_enable], each for the processor number 255 (all) or an existing one: all
    succeed; the PIC delivers no line; a line below 24 is delivered to the local
    APIC of the processor of the last call for it, with vector [T_IRQ0] plus its
    number, and not at all if there was none (calls for lines from 24 on do
    nothing).  For a line below 16 the gate of that vector leads to the entry
    that reports this very number to [trap] (dev/idt.S).  The lines 16 to 23
    have no entries of their own: the vector of line 16 is that of the system
    call. *)
Theorem interrupts_reach_handlers cpuid addr ks env s lines (a := apic (i_mp s)) :
  pcpu_onboot ks (i_mp s) = Ok (true, i_mp s) -> Z.land (r_edx (cpuid 1 0)) CPUID_FEATURE_APIC <> 0 ->
  pic_inited (i_pic s) = false -> irqmask (i_pic s) = irqmask0 ->
  lapic a <> 0 -> ioapics_ok a -> (forall irq i k, covers a irq i -> covers a irq k -> i = k) ->
  (forall h, 0 <= addr h < 2 ^ 32) -> ncpu (i_mp s) <= NUM_CPUS ->
  Forall (fun '(irq, c) => 0 <= irq < 256 /\ (irq < 24 -> exists i, covers a irq i) /\ (c = 0xff \/ 0 <= c < ncpu (i_mp s))) lines ->
  exists s', (intr_init cpuid addr ks env ;; for_each lines (fun '(irq, c) => intr_enable irq c)) s = Ok (tt, s')
    /\ (forall irq, 0 <= irq < 16 -> irq <> IRQ_SLAVE -> pic_vector (i_pic s') irq = None)
    /\ forall irq i, 0 <= irq < 24 -> covers a irq i ->
         route (apic (i_mp s')) (ioapics a !!! i) (irq - gsi a !!! i) =
           (fun c => (dest_of (i_mp s) c, T_IRQ0 + irq, false, false)) <$> last_line lines irq
         /\ (irq < 16 -> exists h, gate_offset (i_idt s' !!! (T_IRQ0 + irq)) = addr h /\ trap_number h = T_IRQ0 + irq).
Proof.
  intros Hb Hc Hi Hm Hl Hok Hu Ha Hn Hf. rewrite Forall_forall in Hf.
  destruct (intr_init_ok cpuid addr ks env s Hb Hc Hi Hm Hl Hok) as (s1 & E1 & [Ra Rn Rc Ri Rp (a1 & Rm & Rs)]).
  rewrite (bind_ok _ _ _ _ _ E1). destruct (init_routes _ _ _ Hok Rm Rs) as (Kok & Kc & Kr & Ka & Kg & Kn & Km).
  set (b := apic (i_mp s1)) in *.
  destruct (for_each_ind (lines_on b s1) (fun '(irq, c) => intr_enable irq c) lines) with (s := s1) as (s2 & E2 & L2).
  - intros d [irq c] r t El Lt. destruct (Hf (irq, c)) as (Hr & Hx & Hy); [rewrite El; apply elem_of_app; right; apply elem_of_cons; by left|].
    apply intr_enable_step; rewrite ?Rn; try done; [|lia|].
    + intros n j k. rewrite !Kc. apply Hu.
    + intros H24. destruct (Hx H24) as [j Hj]. exists j. by apply Kc.
  - by split.
  - exists s2. split; [done|]. destruct L2 as [_ _ _ Li Lp Lr]. split.
    + intros irq Hr Hs. rewrite Lp, (lines_vector ∅) by done. by rewrite decide_False by apply not_elem_of_empty.
    + intros irq i Hr Hv. rewrite Li, Ri. split.
      * destruct Hv as [Hv1 Hv2]. rewrite <-Ka, <-Kg. rewrite (ro_route _ _ _ Lr) by (rewrite ?Ka, ?Kg, ?Kn, ?Km; lia || done).
        replace (gsi b !!! i + (irq - gsi b !!! i)) with irq by lia. rewrite last_line_op by lia. unfold dest_of. rewrite Rc.
        by destruct (last_line lines irq).
      * intros H16. exists (handler_of (T_IRQ0 + irq)). split; [|apply line_entry; lia].
        rewrite lookup_total_alt, idt_lookup by (unfold T_IRQ0; lia). cbn [default]. apply gate_offset_ok, Ha.
Qed.

Definition boot_ks : kstack := {| ks_cpu_idx := 0; ks_magic := KSTACK_MAGIC |}.
Definition boot_cpu : pcpuinfo := mk_pcpuinfo 7 true 0 [] INTEL 0 0 0 0 0 0 0 0 0 0 0 0 0 0.
Definition one_chip : apicst :=
  mk_apicst {[0xFEC00000 := mk_ioapic_hw 0 {[1 := 0x170011]}]} {[0 := 0xFEC00000]} {[0 := 2]} {[0 := 0]} 1 0 0xFEE00000 ∅ [] [] 0 ∅.
Definition power_on_pic : i8259 := mk_i8259 PIcw3 true 0 0 0 0 0.
Definition machine : intrst :=
  mk_intrst (mk_picst power_on_pic power_on_pic irqmask0 false) (mk_mpst one_chip 1 true true {[0 := boot_cpu]} ∅ true 0) ∅ false false false.
Definition features (leaf sub : Z) : regs4 := mk_regs4 0 0 0 0x200.
Definition at_1M (h : handler) : Z := 0x100000 + 16 * trap_number h.
Definition idle (i : Z) : Z * list Z := (0, []).

Lemma interrupts_reach_handlers_witness :
  exists s', (intr_init features at_1M boot_ks idle ;; for_each [(1, 0); (40, 0); (14, 255)] (fun '(irq, c) => intr_enable irq c)) machine
      = Ok (tt, s')
    /\ route (apic (i_mp s')) 0xFEC00000 1 = Some (7, 33, false, false) /\ route (apic (i_mp s')) 0xFEC00000 4 = None
    /\ gate_offset (i_idt s' !!! 46) = 0x1002e0.
Proof.
  assert (maxof one_chip 0xFEC00000 = 23) as Em by (vm_compute; reflexivity).
  assert (ioapics one_chip !!! 0 = 0xFEC00000 /\ gsi one_chip !!! 0 = 0) as [Ea Eg] by (vm_compute; split; reflexivity).
  assert (forall irq, covers one_chip irq 0 <-> 0 <= irq <= 23) as Hc by (intros; unfold covers; rewrite Ea, Eg, Em; cbn; lia).
  destruct (interrupts_reach_handlers features at_1M boot_ks idle machine [(1, 0); (40, 0); (14, 255)]) as (s' & E & _ & H).
  - vm_compute. reflexivity.
  - done.
  - done.
  - done.
  - done.
  - split; cbn [machine i_mp apic].
    + cbn. unfold MAX_IOAPIC. lia.
    + cbn. intros i Hi. assert (i = 0) as -> by lia. split; [|done]. by eexists.
    + cbn. lia.
  - intros irq i k [Hi _] [Hk _]. cbn in Hi, Hk. lia.
  - intros h. unfold at_1M. destruct h; vm_compute; split; congruence.
  - done.
  - constructor; [|constructor; [|constructor; [|constructor]]]; (split; [lia|split; [intros ?; exists 0; apply Hc; lia|cbn; lia]]).
  - exists s'. split; [exact E|]. cbn [machine i_mp apic] in H.
    destruct (H 1 0) as [H1 _]; [lia|apply Hc; lia|]. destruct (H 4 0) as [H4 _]; [lia|apply Hc; lia|].
    destruct (H 14 0) as [_ H14]; [lia|apply Hc; lia|]. destruct H14 as (h & H14 & Hh); [lia|]. rewrite Ea, Eg in H1, H4. split; [|split].
    + exact H1.
    + exact H4.
    + change (T_IRQ0 + 14) with 46 in *. rewrite H14. unfold at_1M. rewrite Hh. reflexivity.
Defined.

End IntrProps.

(** Line 24 passes the test of [intr_enable_lapicid], and an I/O APIC has only
    lines 0 to 23. *)
Lemma line_24_panics :
  (intr_init IntrProps.features IntrProps.at_1M IntrProps.boot_ks IntrProps.idle ;; intr_enable 24 0 ;; intr_enable_lapicid 24 0)
    IntrProps.machine = Panic "Cannot enable IRQ on IOAPIC".
Proof. vm_compute. reflexivity. Qed.
