(* ===== verification/Tsc.v ===== *)
(** * Time: dev/timer.c, dev/tsc.c

    The programmable interval timer as its channels, written through the control
    port and the data ports; the time stamp counter as the values read from it.
    The readings of a loop are given as a list: the loop of [tsc_calibrate] ends
    with the list (the output of the timer is high then), a waiting loop that
    gets no large enough reading goes on ([Spin]). *)

From S2P Require Import Prelude Apic.

(** ** The timer *)
Record chan := mk_chan { ch_mode : Z; ch_lsb : option Z; ch_reload : Z }.
#[export] Instance chan_inhabited : Inhabited chan := populate (mk_chan 0 None 0).
Record tscst := mk_tscst { pit : gmap Z chan; gate61 : Z; tsc_per_ms : Z }.
Definition set_pit v s := mk_tscst v (gate61 s) (tsc_per_ms s).
Definition set_gate61 v s := mk_tscst (pit s) v (tsc_per_ms s).
Definition set_tsc_per_ms v s := mk_tscst (pit s) (gate61 s) v.
Notation T := (M tscst).

(** A control word with access to both bytes selects channel and mode; the next
    two bytes of data are the count, low byte first. *)
Definition pit_write (port v : Z) (s : tscst) : tscst :=
  if decide (port = 0x43) then set_pit (<[Z.shiftr v 6 := mk_chan (Z.land (Z.shiftr v 1) 7) None 0]> (pit s)) s
  else if decide (port = 0x61) then set_gate61 v s
  else
    let c := pit s !!! (port - 0x40) in
    set_pit (<[port - 0x40 :=
      match ch_lsb c with
      | None => mk_chan (ch_mode c) (Some v) (ch_reload c)
      | Some l => mk_chan (ch_mode c) None (l + 256 * v)
      end]> (pit s)) s.
Definition tout (port v : Z) : T unit := modify (pit_write port (u8 v)).

(** ** dev/timer.c *)
Definition PIT_CHANNEL0 : Z := 0x040.
Definition PIT_CONTROL : Z := 0x043.
Definition TIMER_FREQ : Z := 1193182.
Definition FREQ : Z := 100.
Definition TIMER_DIV (x : Z) : Z := (TIMER_FREQ + x / 2) / x.
Definition LATCH : Z := TIMER_DIV FREQ.
Definition TIMER_SEL0 : Z := 0x00.
Definition TIMER_RATEGEN : Z := 0x04.
Definition TIMER_16BIT : Z := 0x30.

Definition timer_hw_init : T unit :=
  tout PIT_CONTROL (Z.lor (Z.lor TIMER_SEL0 TIMER_RATEGEN) TIMER_16BIT) ;;
  tout PIT_CHANNEL0 (Z.land LATCH 0xff) ;;
  tout PIT_CHANNEL0 (Z.land (Z.shiftr LATCH 8) 0xff).

(** ** dev/tsc.c *)
Record tcal := mk_tcal { tc_tsc : Z; tc_min : Z; tc_max : Z; tc_cnt : Z }.
Definition tcal_step (c : tcal) (t2 : Z) : tcal :=
  let delta := u64 (t2 - tc_tsc c) in
  mk_tcal t2 (if decide (delta < tc_min c) then delta else tc_min c) (if decide (delta > tc_max c) then delta else tc_max c)
    (tc_cnt c + 1).

Definition FAILED : Z := 2 ^ 64 - 1.   (* ~(uint64_t) 0x0 *)

Definition tsc_calibrate (t1 : Z) (reads : list Z) (latch ms loopmin : Z) : T Z :=
  p ← gets gate61;
  tout 0x61 (Z.lor (Z.land p (Z.lnot 0x02)) 0x01) ;;
  tout 0x43 0xb0 ;;
  tout 0x42 (Z.land latch 0xff) ;;
  tout 0x42 (Z.shiftr latch 8) ;;
  let c := foldl tcal_step (mk_tcal t1 FAILED 0 0) reads in
  if decide (tc_cnt c < loopmin \/ tc_max c > u64 (10 * tc_min c)) then mret FAILED
  else if decide (ms = 0) then undef DivByZero
  else mret (u64 (tc_tsc c - t1) / ms).

(** [env i] are the readings of attempt [i]. *)
Fixpoint tsc_tries (n : nat) (i : Z) (env : Z -> Z * list Z) : T Z :=
  match n with
  | O => mret FAILED
  | S n =>
      ret ← tsc_calibrate (env i).1 (env i).2 CAL_LATCH CAL_MS CAL_PIT_LOOPS;
      if decide (ret <> FAILED) then mret ret else tsc_tries n (i + 1) env
  end.

Definition tsc_init (env : Z -> Z * list Z) : T Z :=
  timer_hw_init ;;
  modify (set_tsc_per_ms 0) ;;
  ret ← tsc_tries 10 0 env;
  if decide (ret = FAILED) then modify (set_tsc_per_ms 1000000) ;; timer_hw_init ;; mret 1
  else modify (set_tsc_per_ms ret) ;; timer_hw_init ;; mret 0.

(** [while (rdtsc() < limit);]: the readings left *)
Fixpoint rdtsc_wait (limit : Z) (reads : list Z) : T (list Z) :=
  match reads with
  | [] => fail Spin
  | r :: reads => if decide (r < limit) then rdtsc_wait limit reads else mret reads
  end.
Definition tsc_delay (ms start : Z) (reads : list Z) : T (list Z) :=
  f ← gets tsc_per_ms;
  rdtsc_wait (u64 (start + u64 (f * ms))) reads.
Definition udelay (us start : Z) (reads : list Z) : T (list Z) :=
  f ← gets tsc_per_ms;
  rdtsc_wait (u64 (start + u64 (f / 1000 * us))) reads.

(** ** Calibration *)

(** Differences of successive readings *)
Fixpoint deltas (t : Z) (l : list Z) : list Z :=
  match l with [] => [] | t2 :: l => (t2 - t) :: deltas t2 l end.

(** The clock does not go back, and a difference times ten fits a word. *)
Definition clock_ok (a : Z * list Z) : Prop :=
  Forall (fun d => 0 <= d /\ 10 * d < 2 ^ 64) (deltas a.1 a.2) /\ 0 <= a.1 /\ default a.1 (last a.2) < 2 ^ 64.

(** Enough readings, none of the steps more than ten times another *)
Definition steady (a : Z * list Z) : bool :=
  bool_decide (CAL_PIT_LOOPS <= Z.of_nat (length a.2))
  && forallb (fun d => forallb (fun d' => bool_decide (d <= 10 * d')) (deltas a.1 a.2)) (deltas a.1 a.2).
Definition per_ms (a : Z * list Z) : Z := (default a.1 (last a.2) - a.1) / CAL_MS.

Lemma last_cons_default {X} (t d : X) l : default t (last (d :: l)) = default d (last l).
Proof. rewrite last_cons. by destruct (last l). Qed.

Lemma deltas_last t l : Forall (fun d => 0 <= d /\ 10 * d < 2 ^ 64) (deltas t l) -> t <= default t (last l).
Proof.
  revert t. induction l as [|x l IH]; intros t; [done|]. cbn [deltas]. intros [[Hd _] Hl]%Forall_cons.
  rewrite last_cons_default. specialize (IH x Hl). lia.
Qed.

Lemma cal_fold t l mn mx n :
  Forall (fun d => 0 <= d /\ 10 * d < 2 ^ 64) (deltas t l) ->
  foldl tcal_step (mk_tcal t mn mx n) l =
    mk_tcal (default t (last l)) (foldl Z.min mn (deltas t l)) (foldl Z.max mx (deltas t l)) (n + Z.of_nat (length l)).
Proof.
  revert t mn mx n. induction l as [|x l IH]; intros t mn mx n; [by rewrite Z.add_0_r|].
  cbn [deltas]. intros [Hd Hl]%Forall_cons. cbn [foldl]. unfold tcal_step at 2. cbn [tc_tsc tc_min tc_max tc_cnt].
  assert (u64 (x - t) = x - t) as -> by (unfold u64; apply Z.mod_small; lia). rewrite IH by done. rewrite last_cons_default.
  f_equal; [f_equal; case_decide; lia|f_equal; case_decide; lia|rewrite length_cons; lia].
Qed.

Lemma fold_min l m : foldl Z.min m l <= m /\ (forall d, d ∈ l -> foldl Z.min m l <= d) /\ (foldl Z.min m l = m \/ foldl Z.min m l ∈ l).
Proof.
  revert m. induction l as [|x l IH]; intros m; cbn [foldl]; [split; [lia|split; [by intros d ?%elem_of_nil|by left]]|].
  destruct (IH (Z.min m x)) as (H1 & H2 & H3). split; [lia|]. split.
  - intros d [->|Hd]%elem_of_cons; [lia|by apply H2].
  - destruct H3 as [H3|H3]; [|right; by apply elem_of_cons; right]. destruct (Z.min_spec m x) as [[_ E]|[_ E]]; rewrite E in *; [by left|].
    right. apply elem_of_cons. by left.
Qed.
Lemma fold_max l m : m <= foldl Z.max m l /\ (forall d, d ∈ l -> d <= foldl Z.max m l) /\ (foldl Z.max m l = m \/ foldl Z.max m l ∈ l).
Proof.
  revert m. induction l as [|x l IH]; intros m; cbn [foldl]; [split; [lia|split; [by intros d ?%elem_of_nil|by left]]|].
  destruct (IH (Z.max m x)) as (H1 & H2 & H3). split; [lia|]. split.
  - intros d [->|Hd]%elem_of_cons; [lia|by apply H2].
  - destruct H3 as [H3|H3]; [|right; by apply elem_of_cons; right]. destruct (Z.max_spec m x) as [[_ E]|[_ E]]; rewrite E in *; [|by left].
    right. apply elem_of_cons. by left.
Qed.

Lemma steady_range a :
  clock_ok a -> CAL_PIT_LOOPS <= Z.of_nat (length a.2) ->
  (foldl Z.max 0 (deltas a.1 a.2) <= 10 * foldl Z.min FAILED (deltas a.1 a.2) <-> steady a = true)
  /\ 0 <= 10 * foldl Z.min FAILED (deltas a.1 a.2) < 2 ^ 64.
Proof.
  destruct a as [t l]. cbn [fst snd]. intros (Hd & _) Hn. cbn [fst snd] in Hd. rewrite Forall_forall in Hd.
  destruct (fold_min (deltas t l) FAILED) as (_ & M2 & M3). destruct (fold_max (deltas t l) 0) as (_ & X2 & X3).
  assert (exists d, d ∈ deltas t l) as [d0 H0].
  { destruct l as [|x l]; [by cbn in Hn|]. exists (x - t). apply elem_of_cons. by left. }
  assert (foldl Z.min FAILED (deltas t l) ∈ deltas t l) as Hm.
  { destruct M3 as [E|]; [|done]. specialize (M2 d0 H0). specialize (Hd d0 H0). unfold FAILED in *. lia. }
  split; [|by destruct (Hd _ Hm); lia]. unfold steady. cbn [fst snd]. rewrite bool_decide_true by done.
  cbn [andb]. rewrite forallb_forall. split.
  - intros H d Hi%list_elem_of_In. rewrite forallb_forall. intros d' Hi'%list_elem_of_In. apply bool_decide_eq_true.
    specialize (X2 d Hi). specialize (M2 d' Hi'). lia.
  - intros H. destruct X3 as [->|Hx]; [destruct (Hd _ Hm); lia|]. apply list_elem_of_In in Hx. specialize (H _ Hx).
    rewrite forallb_forall in H. apply list_elem_of_In in Hm. specialize (H _ Hm). by apply bool_decide_eq_true in H.
Qed.

Lemma tout_ok port v s (k : unit -> T Z) : (tout port v ≫= k) s = k tt (pit_write port (u8 v) s).
Proof. done. Qed.
Lemma pit_write_keeps port v s : tsc_per_ms (pit_write port v s) = tsc_per_ms s.
Proof. unfold pit_write. by repeat case_decide. Qed.

Lemma tsc_calibrate_ok s a :
  clock_ok a ->
  exists s', tsc_calibrate a.1 a.2 CAL_LATCH CAL_MS CAL_PIT_LOOPS s = Ok (if steady a then per_ms a else FAILED, s').
Proof.
  intros Ha. eexists. unfold tsc_calibrate. rewrite gets_bind, !tout_ok. cbv zeta.
  pose proof Ha as (Hd & H0 & Hl). rewrite cal_fold by done. cbn [tc_cnt tc_max tc_min tc_tsc]. rewrite Z.add_0_l.
  destruct (decide (CAL_PIT_LOOPS <= Z.of_nat (length a.2))) as [Hn|Hn].
  - destruct (steady_range a Ha Hn) as [Hs Hr]. assert (u64 (10 * foldl Z.min FAILED (deltas a.1 a.2)) = 10 * foldl Z.min FAILED (deltas a.1 a.2)) as ->
      by by apply Z.mod_small.
    destruct (steady a) eqn:Es.
    + rewrite decide_False by (destruct Hs as [_ Hs]; specialize (Hs eq_refl); lia). rewrite decide_False by done.
      unfold per_ms. pose proof (deltas_last _ _ Hd). replace (u64 _) with (default a.1 (last a.2) - a.1); [reflexivity|].
      symmetry. apply Z.mod_small. lia.
    + rewrite decide_True; [reflexivity|]. right. destruct (Z.le_gt_cases (foldl Z.max 0 (deltas a.1 a.2)) (10 * foldl Z.min FAILED (deltas a.1 a.2)));
        [|lia]. by apply Hs in H.
  - rewrite decide_True by (left; lia). assert (steady a = false) as ->; [|reflexivity].
    unfold steady. by rewrite bool_decide_false.
Qed.

Lemma per_ms_ok a : clock_ok a -> per_ms a <> FAILED.
Proof.
  intros (Hd & H0 & Hl). pose proof (deltas_last _ _ Hd). unfold per_ms, CAL_MS, FAILED. Z.to_euclidean_division_equations. lia.
Qed.

Lemma tsc_tries_ok env n : forall i s, (forall k, i <= k < i + Z.of_nat n -> clock_ok (env k)) ->
  exists s', tsc_tries n i env s =
    Ok (match list_find (fun a => steady a = true) (env <$> seqZ i (Z.of_nat n)) with Some (_, a) => per_ms a | None => FAILED end, s').
Proof.
  induction n as [|n IH]; intros i s Hc; [by exists s|].
  destruct (tsc_calibrate_ok s (env i)) as [s1 E1]; [apply Hc; lia|]. cbn [tsc_tries]. rewrite (bind_ok _ _ _ _ _ E1).
  rewrite seqZ_cons by lia. rewrite fmap_cons. cbn [list_find]. destruct (steady (env i)) eqn:Es.
  - rewrite decide_True by (apply per_ms_ok, Hc; lia). rewrite decide_True by done. by exists s1.
  - rewrite decide_False by auto. rewrite (decide_False (P := false = true)) by done.
    destruct (IH (i + 1) s1) as [s2 E2]; [intros k Hk; apply Hc; lia|]. exists s2. rewrite E2.
    replace (Z.pred (Z.of_nat (S n))) with (Z.of_nat n) by lia. replace (Z.succ i) with (i + 1) by lia.
    by destruct (list_find _ _) as [[? ?]|].
Qed.

Lemma timer_hw_init_ok s {X} (k : unit -> T X) :
  exists s', (timer_hw_init ≫= k) s = k tt s' /\ pit s' !! 0 = Some (mk_chan 2 None LATCH) /\ tsc_per_ms s' = tsc_per_ms s.
Proof.
  unfold timer_hw_init, tout. eexists. split; [rewrite !bind_assoc, modify_bind, !bind_assoc, !modify_bind; reflexivity|].
  rewrite !pit_write_keeps. split; [|done]. unfold pit_write.
  rewrite !(decide_False (P := PIT_CHANNEL0 = 67)), !(decide_False (P := PIT_CHANNEL0 = 97)) by done.
  rewrite (decide_True (P := PIT_CONTROL = 67)) by done. cbn [pit set_pit].
  change (PIT_CHANNEL0 - 64) with 0. change (Z.shiftr (u8 (Z.lor (Z.lor TIMER_SEL0 TIMER_RATEGEN) TIMER_16BIT)) 6) with 0.
  rewrite !lookup_total_insert_eq, lookup_insert_eq. cbn [ch_lsb ch_mode]. reflexivity.
Qed.

(** ** Waiting *)
Lemma rdtsc_wait_ok limit pre r post s :
  Forall (fun x => x < limit) pre -> limit <= r -> rdtsc_wait limit (pre ++ r :: post) s = Ok (post, s).
Proof.
  induction pre as [|x pre IH]; cbn [rdtsc_wait app].
  - intros _ H. by rewrite decide_False by lia.
  - intros [Hx Hp]%Forall_cons Hr. rewrite decide_True by done. by apply IH.
Qed.

(** A clock that advances reaches every limit. *)
Lemma clock_reaches t n l :
  Forall (fun d => 0 < d) (deltas t l) -> 0 <= n < Z.of_nat (length l) ->
  exists pre r post, l = pre ++ r :: post /\ Forall (fun x => x - t < n) pre /\ n <= r - t.
Proof.
  revert t n. induction l as [|x l IH]; intros t n; cbn [deltas length].
  - intros _ Hn. lia.
  - intros [Hx Hl]%Forall_cons Hn. destruct (decide (n <= x - t)) as [Hr|Hr]; [by exists [], x, l|].
    destruct (IH x (n - (x - t)) Hl) as (pre & r & post & -> & Hp & Hq); [lia|].
    exists (x :: pre), r, post. split; [done|]. split; [|lia]. constructor; [lia|]. eapply Forall_impl; [exact Hp|]. cbn. lia.
Qed.

Lemma wait_for n start reads s :
  0 <= n -> 0 <= start -> start + n < 2 ^ 64 -> Forall (fun d => 0 < d) (deltas start reads) -> n < Z.of_nat (length reads) ->
  exists pre r post, reads = pre ++ r :: post /\ rdtsc_wait (u64 (start + u64 n)) reads s = Ok (post, s)
    /\ n <= r - start /\ Forall (fun x => x - start < n) pre.
Proof.
  intros Hn Hs Hb Hd Hl. destruct (clock_reaches start n reads Hd) as (pre & r & post & -> & Hp & Hr); [lia|].
  exists pre, r, post. split; [done|]. split; [|done].
  assert (u64 n = n) as -> by (apply Z.mod_small; lia). assert (u64 (start + n) = start + n) as -> by (apply Z.mod_small; lia).
  apply rdtsc_wait_ok; [|lia]. eapply Forall_impl; [exact Hp|]. cbn. lia.
Qed.

Module TscProps.

(** The clock rate is that of the first steady measurement.  When
    the counter never runs backwards in the ten measurements, [tsc_init] stores the
    ticks per millisecond of the first one with at least 1000 readings and no step
    more than ten times another, and returns 0; with no such measurement it stores
    1000000 and returns 1.  The timer is left as a rate generator that divides by
    11932 (100 Hz). *)
Theorem tsc_init_measures (env : Z -> Z * list Z) s :
  (forall i, 0 <= i < 10 -> clock_ok (env i)) ->
  exists r s', tsc_init env s = Ok (r, s') /\ pit s' !! 0 = Some (mk_chan 2 None 11932)
    /\ match list_find (fun a => steady a = true) (env <$> seqZ 0 10) with
       | Some (_, a) => r = 0 /\ tsc_per_ms s' = per_ms a
       | None => r = 1 /\ tsc_per_ms s' = 1000000
       end.
Proof.
  intros Hc. unfold tsc_init. destruct (timer_hw_init_ok s (fun _ => modify (set_tsc_per_ms 0) ;;
    ret ← tsc_tries 10 0 env;
    if decide (ret = FAILED) then modify (set_tsc_per_ms 1000000) ;; timer_hw_init ;; mret 1
    else modify (set_tsc_per_ms ret) ;; timer_hw_init ;; mret 0)) as (s1 & -> & _ & _).
  rewrite modify_bind. destruct (tsc_tries_ok env 10 0 (set_tsc_per_ms 0 s1)) as [s2 E2]; [intros k Hk; apply Hc; lia|].
  rewrite (bind_ok _ _ _ _ _ E2). change (Z.of_nat 10) with 10. clear E2.
  destruct (list_find _ _) as [[k a]|] eqn:El.
  - apply list_find_Some in El as (Hk & _). apply list_lookup_fmap_Some in Hk as (i & -> & Hk). apply lookup_seqZ in Hk.
    rewrite decide_False by (apply per_ms_ok, Hc; lia). rewrite modify_bind.
    destruct (timer_hw_init_ok (set_tsc_per_ms (per_ms (env i)) s2) (fun _ => mret 0 : T Z)) as (s3 & -> & Hp & Ht). by exists 0, s3.
  - rewrite decide_True by done. rewrite modify_bind.
    destruct (timer_hw_init_ok (set_tsc_per_ms 1000000 s2) (fun _ => mret 1 : T Z)) as (s3 & -> & Hp & Ht). by exists 1, s3.
Qed.

(** Ten measurements with no readings, but for the fourth: 1000 steps of 30 ticks *)
Definition bench (i : Z) : Z * list Z := if decide (i = 3) then (100, (fun k => 100 + 30 * k) <$> seqZ 1 1000) else (7, []).
Lemma tsc_init_measures_witness :
  exists s', tsc_init bench (mk_tscst ∅ 0 0) = Ok (0, s') /\ tsc_per_ms s' = 3000.
Proof.
  destruct (tsc_init_measures bench (mk_tscst ∅ 0 0)) as (r & s' & E & _ & H).
  - intros i Hi. unfold bench. case_decide; (split; [|split; [done|vm_compute; reflexivity]]).
    + apply (bool_decide_unpack _). vm_compute. exact I.
    + constructor.
  - assert (list_find (fun a => steady a = true) (bench <$> seqZ 0 10) = Some (3%nat, bench 3)) as El by (vm_compute; reflexivity).
    rewrite El in H. destruct H as [-> H]. exists s'. split; [exact E|]. rewrite H. vm_compute. reflexivity.
Defined.

(** The waiting loops end, and not early.  With a counter that
    advances between any two readings and does not overflow before the end, [tsc_delay]
    and [udelay] return at the first reading at which the requested number of ticks
    has passed since the start; as many readings as ticks are enough. *)
Theorem delay_returns_in_time s n start reads (f := tsc_per_ms s) :
  0 <= n -> 0 <= f -> 0 <= start -> start + f * n < 2 ^ 64 -> Forall (fun d => 0 < d) (deltas start reads) ->
  f * n < Z.of_nat (length reads) ->
  (exists pre r post, reads = pre ++ r :: post /\ tsc_delay n start reads s = Ok (post, s)
     /\ f * n <= r - start /\ Forall (fun x => x - start < f * n) pre)
  /\ (exists pre r post, reads = pre ++ r :: post /\ udelay n start reads s = Ok (post, s)
     /\ f / 1000 * n <= r - start /\ Forall (fun x => x - start < f / 1000 * n) pre).
Proof.
  intros Hn Hf Hs Hb Hd Hl. assert (0 <= f / 1000 <= f) as Hq by (Z.to_euclidean_division_equations; lia).
  assert (0 <= f / 1000 * n <= f * n) as Hm.
  { split; [apply Z.mul_nonneg_nonneg; lia|]. apply Z.mul_le_mono_nonneg_r; lia. }
  split; [apply (wait_for (f * n) start reads s)|apply (wait_for (f / 1000 * n) start reads s)]; done || lia.
Qed.

Lemma delay_returns_in_time_witness :
  exists pre r post, [101; 103; 104; 106; 109; 110; 113] = pre ++ r :: post
    /\ tsc_delay 2 100 [101; 103; 104; 106; 109; 110; 113] (mk_tscst ∅ 0 3) = Ok (post, mk_tscst ∅ 0 3)
    /\ 6 <= r - 100 /\ Forall (fun x => x - 100 < 6) pre.
Proof.
  destruct (delay_returns_in_time (mk_tscst ∅ 0 3) 2 100 [101; 103; 104; 106; 109; 110; 113]) as [H _];
    [cbn; lia..|repeat constructor|cbn; lia|]. exact H.
Defined.

End TscProps.
