(* ===== verification/Boot.v ===== *)
(** * The boot loader: boot/boot1

    The second stage of the boot loader: it prints the memory map the BIOS found,
    looks for the bootable partition, loads the kernel's segments from the disk and
    jumps to the kernel, which is where the model ends.  Memory is a map of bytes
    that contains the text screen; the disk has 512-byte sectors and is driven
    through its registers.  Negation of an [int] wraps; the program headers do not
    reach the end of the address space. *)

From Stdlib Require Import Ascii.
From S2P Require Import Prelude KString Bytes Acpi.

(** ** State *)
Record bootst := mk_bootst {
  bmem : mem;
  row : Z;
  puti_str : list Z;            (* char puti_str[40] *)
  ata : gmap Z Z;               (* registers written to the disk controller, by port *)
  ata_status : Z;               (* its status, read from port 0x1F7 *)
  mmap_length : Z;              (* mboot_info *)
  mmap_addr : Z;
}.
Definition set_bmem v s := mk_bootst v (row s) (puti_str s) (ata s) (ata_status s) (mmap_length s) (mmap_addr s).
Definition set_row v s := mk_bootst (bmem s) v (puti_str s) (ata s) (ata_status s) (mmap_length s) (mmap_addr s).
Definition set_puti_str v s := mk_bootst (bmem s) (row s) v (ata s) (ata_status s) (mmap_length s) (mmap_addr s).
Definition set_ata v s := mk_bootst (bmem s) (row s) (puti_str s) v (ata_status s) (mmap_length s) (mmap_addr s).
Definition set_mmap l a s := mk_bootst (bmem s) (row s) (puti_str s) (ata s) (ata_status s) l a.
Notation B := (M bootst).

(** The characters of a literal *)
Definition text (s : string) : list Z := map (fun a => Z.of_N (N_of_ascii a)) (String.list_ascii_of_string s).

(** ** Strings *)
Notation Str := (M (list Z)).
Definition ch_get (i : Z) : Str Z :=
  s ← get; match s !! Z.to_nat i with Some c => if decide (0 <= i) then mret c else undef OutOfBounds | None => undef OutOfBounds end.
Definition ch_set (i c : Z) : Str unit :=
  s ← get;
  if decide (0 <= i < Z.of_nat (length s)) then modify (fun s => <[Z.to_nat i := c]> s) else undef OutOfBounds.

Fixpoint strlen_loop (fuel : nat) (n : Z) : Str Z :=
  match fuel with
  | O => fail Hang
  | S fuel => c ← ch_get n; if decide (c <> 0) then strlen_loop fuel (n + 1) else mret n
  end.
Definition boot_strlen : Str Z := s ← get; strlen_loop (S (length s)) 0.

Fixpoint reverse_loop (fuel : nat) (i j : Z) : Str unit :=
  if decide (i < j) then
    match fuel with
    | O => fail Hang
    | S fuel =>
        c ← ch_get i;
        d ← ch_get j;
        ch_set i d ;;
        ch_set j c ;;
        reverse_loop fuel (i + 1) (j - 1)
    end
  else mret tt.
Definition reverse : Str unit := n ← boot_strlen; reverse_loop (Z.to_nat n) 0 (n - 1).

(** [do s[i++] = table[n % root]; while ((n /= root) > 0);] *)
Fixpoint digits_loop (fuel : nat) (n root : Z) (table : list Z) (i : Z) : Str Z :=
  match fuel with
  | O => fail Hang
  | S fuel =>
      match table !! Z.to_nat (Z.rem n root) with
      | Some c => if decide (0 <= Z.rem n root) then ch_set i c else undef OutOfBounds
      | None => undef OutOfBounds
      end ;;
      let n := Z.quot n root in
      if decide (n > 0) then digits_loop fuel n root table (i + 1) else mret (i + 1)
  end.
Definition itox (n root : Z) (table : list Z) : Str unit :=
  let sign := n in
  let n := if decide (sign < 0) then s32 (- n) else n in
  i ← digits_loop 32 n root table 0;
  i ← (if decide (sign < 0) then ch_set i 45 ;; mret (i + 1) else mret i);
  ch_set i 0 ;;
  reverse.

(** ["0123456789"] and ["0123456789abcdef"], with their final zeros *)
Definition dec_digits : list Z := seqZ 48 10 ++ [0].
Definition hex_digits : list Z := seqZ 48 10 ++ seqZ 97 6 ++ [0].
Definition itoa (n : Z) : Str unit := itox n 10 dec_digits.
Definition itoh (n : Z) : Str unit := itox n 16 hex_digits.

(** ** Screen *)
Definition video : Z := 0xB8000.
Definition BOOT_CRT_ROWS : Z := 25.
Definition VGA_CLR_BLACK : Z := 0.
Definition VGA_CLR_RED : Z := 4.
Definition VGA_CLR_WHITE : Z := 15.

Definition store8 (a v : Z) : B unit := modify (fun s => set_bmem (<[a := v]> (bmem s)) s).
Definition boot_putc (l color ch : Z) : B unit := store8 (video + l * 2) (u8 ch) ;; store8 (video + l * 2 + 1) (u8 color).

(** The characters of [string] up to its final zero *)
Fixpoint boot_puts_loop (string : list Z) (l color : Z) : B Z :=
  match string with
  | [] => mret l
  | c :: string => boot_putc l color c ;; boot_puts_loop string (l + 1) color
  end.
Definition puts (r c color : Z) (string : list Z) : B Z := boot_puts_loop string (r * 80 + c) color.

Definition boot_blank : list Z := replicate 80 32.
Definition putline (s : list Z) : B unit :=
  r ← gets row;
  modify (set_row (if decide (r >= BOOT_CRT_ROWS) then 0 else r + 1)) ;;
  r ← gets row;
  _ ← puts r 0 VGA_CLR_BLACK boot_blank;
  _ ← puts r 0 VGA_CLR_WHITE s;
  mret tt.
Definition roll (r : Z) : B unit := modify (set_row r).
Definition boot_panic {X} (m : string) : B X := _ ← puts 0 0 VGA_CLR_RED (text m); panic m.

(** A string in a buffer: the characters before the first zero *)
Fixpoint c_string (l : list Z) : list Z :=
  match l with [] => [] | c :: l => if decide (c = 0) then [] else c :: c_string l end.
Definition puti (i : Z) : B unit :=
  zoom puti_str set_puti_str (itoh i) ;;
  s ← gets puti_str;
  putline (c_string s).

(** ** Disk *)
Section Disk.
Context (sector : Z -> list Z).

Definition SECTOR_SIZE : Z := 512.
Definition ata_out (port v : Z) : B unit := modify (fun s => set_ata (<[port := u8 v]> (ata s)) s).

(** Bits 6 and 7 of the status: ready and busy *)
Definition waitdisk : B unit :=
  s ← get; if decide (Z.land (ata_status s) 0xC0 = 0x40) then mret tt else fail Spin.

(** [insl]: the sector the registers name, when one sector is to be read *)
Definition ata_sector (r : gmap Z Z) : Z :=
  r !!! 0x1F3 + 2 ^ 8 * r !!! 0x1F4 + 2 ^ 16 * r !!! 0x1F5 + 2 ^ 24 * Z.land (r !!! 0x1F6) 0xF.
Definition insl (dst : Z) : B unit :=
  s ← get;
  if decide (ata s !!! 0x1F2 = 1 /\ ata s !!! 0x1F7 = 0x20 /\ Z.land (ata s !!! 0x1F6) 0xE0 = 0xE0) then
    modify (set_bmem (store_bytes dst (sector (ata_sector (ata s))) (bmem s)))
  else fail Spin.

Definition readsector (dst offset : Z) : B unit :=
  waitdisk ;;
  ata_out 0x1F2 1 ;;
  ata_out 0x1F3 offset ;;
  ata_out 0x1F4 (Z.shiftr offset 8) ;;
  ata_out 0x1F5 (Z.shiftr offset 16) ;;
  ata_out 0x1F6 (Z.lor (Z.shiftr offset 24) 0xE0) ;;
  ata_out 0x1F7 0x20 ;;
  waitdisk ;;
  insl dst.

(** When [va] wraps before it reaches [end_va], the loop never ends. *)
Fixpoint readsection_loop (fuel : nat) (va end_va offset : Z) : B unit :=
  if decide (va < end_va) then
    match fuel with
    | O => fail Hang
    | S fuel => readsector va offset ;; readsection_loop fuel (u32 (va + SECTOR_SIZE)) end_va (u32 (offset + 1))
    end
  else mret tt.
Definition readsection (va count offset lba : Z) : B unit :=
  let va := Z.land va 0xFFFFFF in
  let end_va := u32 (va + count) in
  let va := Z.land va (Z.lnot (SECTOR_SIZE - 1)) in
  let offset := u32 (offset / SECTOR_SIZE + lba) in
  readsection_loop (Z.to_nat ((end_va - va) / SECTOR_SIZE + 1)) va end_va offset.

(** ** boot1main.c *)
Definition BOOTABLE_PARTITION : Z := 0x80.
Definition BOOT_ELF_MAGIC : Z := 0x464C457F.
Definition ELFHDR : Z := 0x20000.
Definition sizeof_proghdr : Z := 32.
Definition sizeof_smap : Z := 24.
Definition partition (mbr i : Z) : Z := mbr + 446 + 16 * i.

Definition load_kernel (dkernel : Z) : B Z :=
  readsection ELFHDR (SECTOR_SIZE * 8) 0 dkernel ;;
  m ← gets bmem;
  if decide (rd32 m ELFHDR <> BOOT_ELF_MAGIC) then boot_panic "Kernel is not a valid elf."
  else
    let ph := u32 (ELFHDR + rd32 m (ELFHDR + 28)) in
    let n := rd16 m (ELFHDR + 44) in
    for_each (seqZ 0 n) (fun i =>
      m ← gets bmem;
      let p := ph + sizeof_proghdr * i in
      readsection (rd32 m (p + 8)) (rd32 m (p + 20)) (rd32 m (p + 4)) dkernel) ;;
    m ← gets bmem;
    mret (Z.land (rd32 m (ELFHDR + 24)) 0xFFFFFF).

(** The entry after the last one is all zero but for its size. *)
Definition smap_end (m : mem) (p : Z) : bool :=
  bool_decide (rd32 m (p + 4) = 0 /\ rd32 m (p + 8) = 0 /\ rd32 m (p + 12) = 0 /\ rd32 m (p + 16) = 0 /\ rd32 m (p + 20) = 0).
Fixpoint e820_loop (fuel : nat) (p len : Z) : B Z :=
  m ← gets bmem;
  if smap_end m p then mret len
  else
    match fuel with
    | O => fail Hang
    | S fuel => puti (s32 (rd32 m (p + 4))) ;; e820_loop fuel (p + sizeof_smap) (u32 (len + sizeof_smap))
    end.
Definition parse_e820 (fuel : nat) (smap : Z) : B unit :=
  putline (text "* E820 Memory Map *") ;;
  mmap_len ← e820_loop fuel smap 0;
  modify (set_mmap mmap_len smap).

(** The index of the bootable partition, or 4 *)
Definition find_bootable (m : mem) (mbr : Z) : Z :=
  match List.find (fun i => bool_decide (rd8 m (partition mbr i) = BOOTABLE_PARTITION)) [0; 1; 2; 3] with
  | Some i => i
  | None => 4
  end.

(** The entry point given to [exec_kernel], which does not return.  [fuel] bounds
    the entries of the memory map. *)
Definition boot1main (fuel : nat) (mbr smap : Z) : B Z :=
  roll 3 ;;
  putline (text "Start boot1 main ...") ;;
  m ← gets bmem;
  let i := find_bootable m mbr in
  if decide (i = 4) then boot_panic "Cannot find bootable partition!"
  else
    let bootable_lba := rd32 m (partition mbr i + 8) in
    parse_e820 fuel smap ;;
    putline (text "Load kernel ..." ++ [10]) ;;
    entry ← load_kernel bootable_lba;
    putline (text "Start kernel ..." ++ [10]) ;;
    mret entry.
End Disk.
