(* ===== verification/BootSpec.v ===== *)
(** * The boot loader: theorems

    Numbers are printed in hexadecimal, text stays on the screen, sections and the
    kernel are loaded where their headers say. *)

From S2P Require Import Prelude KString Bytes Acpi Boot.

(** ** Strings *)
Lemma ch_get_ok a c r : ch_get (Z.of_nat (length a)) (a ++ c :: r) = Ok (c, a ++ c :: r).
Proof.
  unfold ch_get. mrun. rewrite Nat2Z.id, lookup_app_r, Nat.sub_diag by lia. cbn. by rewrite decide_True by lia.
Qed.
Lemma ch_set_ok a c d r : ch_set (Z.of_nat (length a)) d (a ++ c :: r) = Ok (tt, a ++ d :: r).
Proof.
  unfold ch_set. mrun. rewrite decide_True by (rewrite length_app; cbn; lia).
  rewrite Nat2Z.id, insert_app_r_alt, Nat.sub_diag by lia. done.
Qed.

Lemma strlen_loop_ok l : forall fuel a r, Forall (fun c => c <> 0) l -> (length l < fuel)%nat ->
  strlen_loop fuel (Z.of_nat (length a)) (a ++ l ++ 0 :: r) = Ok (Z.of_nat (length a + length l), a ++ l ++ 0 :: r).
Proof.
  induction l as [|c l IH]; intros fuel a r Hn Hf; (destruct fuel as [|fuel]; [cbn in Hf; lia|]); cbn [strlen_loop app length].
  - rewrite (bind_ok _ _ _ _ _ (ch_get_ok a 0 r)). rewrite decide_False by lia. by rewrite Nat.add_0_r.
  - apply Forall_cons in Hn as [Hc Hl]. rewrite (bind_ok _ _ _ _ _ (ch_get_ok a c (l ++ 0 :: r))). rewrite decide_True by done.
    specialize (IH fuel (a ++ [c]) r Hl). rewrite length_app, <-app_assoc in IH. cbn in IH, Hf.
    replace (Z.of_nat (length a) + 1) with (Z.of_nat (length a + 1)) by lia. rewrite IH by lia. do 2 f_equal. lia.
Qed.
Lemma boot_strlen_ok l r : Forall (fun c => c <> 0) l -> boot_strlen (l ++ 0 :: r) = Ok (Z.of_nat (length l), l ++ 0 :: r).
Proof.
  intros Hl. unfold boot_strlen. mrun. apply (strlen_loop_ok l _ []); [done|]. rewrite length_app. lia.
Qed.

(** Swapping from both ends reverses the part between them. *)
Lemma reverse_loop_ok n : forall mid fuel a b, (length mid <= n)%nat -> (n <= fuel)%nat ->
  reverse_loop fuel (Z.of_nat (length a)) (Z.of_nat (length a + length mid) - 1) (a ++ mid ++ b) = Ok (tt, a ++ rev mid ++ b).
Proof.
  induction n as [n IH] using (well_founded_induction lt_wf). intros mid fuel a b Hm Hf.
  destruct mid as [|x mid]; [destruct fuel; cbn [reverse_loop length]; by rewrite decide_False by lia|].
  destruct mid as [|y mid _] using rev_ind; [destruct fuel; cbn [reverse_loop length]; by rewrite decide_False by lia|].
  cbn in Hm. rewrite length_app in Hm. cbn in Hm. destruct fuel as [|fuel]; [lia|]. cbn [reverse_loop].
  rewrite decide_True by (cbn; rewrite length_app; cbn; lia). cbn [app].
  rewrite (bind_ok _ _ _ _ _ (ch_get_ok a x ((mid ++ [y]) ++ b))).
  assert (Z.of_nat (length a + length (x :: mid ++ [y])) - 1 = Z.of_nat (length (a ++ x :: mid))) as ->
    by (cbn; rewrite !length_app; cbn; lia).
  replace (a ++ x :: (mid ++ [y]) ++ b) with ((a ++ x :: mid) ++ y :: b) at 1 by (rewrite <-!app_assoc; done).
  rewrite (bind_ok _ _ _ _ _ (ch_get_ok (a ++ x :: mid) y b)).
  rewrite <-app_assoc. cbn [app]. rewrite (bind_ok _ _ _ _ _ (ch_set_ok a x y (mid ++ y :: b))).
  replace (length (a ++ x :: mid)) with (length (a ++ y :: mid)) by (rewrite !length_app; done).
  replace (a ++ y :: mid ++ y :: b) with ((a ++ y :: mid) ++ y :: b) by (rewrite <-!app_assoc; done).
  rewrite (bind_ok _ _ _ _ _ (ch_set_ok (a ++ y :: mid) y x b)).
  pose proof (IH (length mid) ltac:(lia) mid fuel (a ++ [y]) (x :: b) ltac:(lia) ltac:(lia)) as H.
  rewrite !length_app in H. cbn [length] in H. rewrite <-!app_assoc in H. cbn [app] in H.
  replace (Z.of_nat (length a) + 1) with (Z.of_nat (length a + 1)) by lia.
  replace (Z.of_nat (length (a ++ y :: mid)) - 1) with (Z.of_nat (length a + 1 + length mid) - 1) by (rewrite length_app; cbn; lia).
  rewrite <-app_assoc. cbn [app]. rewrite H. do 2 f_equal. cbn [rev]. rewrite rev_app_distr. cbn. by rewrite <-!app_assoc.
Qed.
Lemma boot_reverse_ok l r : Forall (fun c => c <> 0) l -> reverse (l ++ 0 :: r) = Ok (tt, rev l ++ 0 :: r).
Proof.
  intros Hl. unfold reverse. rewrite (bind_ok _ _ _ _ _ (boot_strlen_ok l r Hl)).
  apply (reverse_loop_ok (length l) l _ [] (0 :: r)); lia.
Qed.

(** Digits of [n] in base [root], the last one first *)
Fixpoint digs (fuel : nat) (n root : Z) : list Z :=
  match fuel with
  | O => []
  | S fuel => n mod root :: if decide (n / root > 0) then digs fuel (n / root) root else []
  end.
Definition value (root : Z) (ds : list Z) : Z := foldr (fun d v => d + root * v) 0 ds.

Lemma digs_value root fuel : forall n, 1 < root -> 0 <= n < root ^ Z.of_nat fuel -> (0 < fuel)%nat -> value root (digs fuel n root) = n.
Proof.
  induction fuel as [|fuel IH]; intros n Hr Hn Hf; [lia|]. cbn [digs value foldr].
  assert (0 <= n / root) as Hq by (apply Z.div_pos; lia).
  case_decide as Hd.
  - fold (value root (digs fuel (n / root) root)). rewrite IH; [|done| |].
    + pose proof (Z.div_mod n root). lia.
    + split; [done|]. apply Z.div_lt_upper_bound; [lia|]. replace (Z.of_nat (S fuel)) with (1 + Z.of_nat fuel) in Hn by lia.
      rewrite Z.pow_add_r, Z.pow_1_r in Hn by lia. lia.
    + destruct fuel; [|lia]. cbn in Hn. rewrite Z.pow_1_r in Hn. rewrite Z.div_small in Hd by lia. lia.
  - cbn. pose proof (Z.div_mod n root). assert (n / root = 0) as E by lia. rewrite E in *. lia.
Qed.
Lemma digs_range root fuel : forall n, 1 < root -> 0 <= n -> Forall (fun d => 0 <= d < root) (digs fuel n root).
Proof.
  induction fuel as [|fuel IH]; intros n Hr Hn; cbn [digs]; constructor; [by apply Z.mod_pos_bound; lia|].
  case_decide; [apply IH; [done|by apply Z.div_pos; lia]|constructor].
Qed.
Lemma digs_length fuel n root k : 1 < root -> 0 <= n < root ^ Z.of_nat k -> (0 < k)%nat -> (length (digs fuel n root) <= k)%nat.
Proof.
  intros Hr. revert n k. induction fuel as [|fuel IH]; intros n k Hn Hk; cbn [digs length]; [lia|].
  case_decide as Hd; cbn [length]; [|lia]. destruct k as [|k]; [lia|].
  replace (Z.of_nat (S k)) with (1 + Z.of_nat k) in Hn by lia. rewrite Z.pow_add_r, Z.pow_1_r in Hn by lia.
  assert (0 <= n / root < root ^ Z.of_nat k) as Hq by (split; [apply Z.div_pos; lia|apply Z.div_lt_upper_bound; lia]).
  assert (0 < k)%nat as Hk'. { destruct k; [|lia]. cbn in Hq. lia. }
  specialize (IH (n / root) k Hq Hk'). lia.
Qed.

(** [tbl] gives a character other than zero for every digit. *)
Definition digit_table (root : Z) (table : list Z) : Prop :=
  1 < root /\ forall d, 0 <= d < root -> exists c, table !! Z.to_nat d = Some c /\ c <> 0 /\ c <> 45.
Lemma hex_table : digit_table 16 hex_digits.
Proof.
  split; [lia|]. apply seqZ_forall. vm_compute. repeat (constructor; [eexists; split; [reflexivity|done]|]). constructor.
Qed.

Lemma digits_loop_ok root table n : forall fuel a r, digit_table root table -> 0 <= n < root ^ Z.of_nat fuel ->
  (length (digs fuel n root) <= length r)%nat -> (0 < fuel)%nat ->
  digits_loop fuel n root table (Z.of_nat (length a)) (a ++ r) =
    Ok (Z.of_nat (length a + length (digs fuel n root)),
        a ++ map (fun d => table !!! Z.to_nat d) (digs fuel n root) ++ drop (length (digs fuel n root)) r).
Proof.
  intros fuel. revert n. induction fuel as [|fuel IH]; intros n a r Ht Hn Hl Hf; [lia|]. pose proof Ht as [Hr Htab].
  cbn [digs digits_loop] in *. cbn [length] in Hl. destruct r as [|c0 r]; [cbn in Hl; lia|].
  rewrite Z.rem_mod_nonneg, Z.quot_div_nonneg by lia.
  assert (0 <= n mod root < root) as Hb by (apply Z.mod_pos_bound; lia). destruct (Htab (n mod root) Hb) as (c & Hc & _). rewrite Hc.
  assert (table !!! Z.to_nat (n mod root) = c) as Et by by apply list_lookup_total_correct.
  rewrite (decide_True (P := 0 <= _)) by apply Hb. rewrite (bind_ok _ _ _ _ _ (ch_set_ok a c0 c r)).
  revert Hl. destruct (decide (n / root > 0)) as [Hd|Hd]; intros Hl; cbn [map length drop]; rewrite Et.
  - assert (0 <= n / root < root ^ Z.of_nat fuel) as Hq.
    { split; [lia|]. apply Z.div_lt_upper_bound; [lia|]. replace (Z.of_nat (S fuel)) with (1 + Z.of_nat fuel) in Hn by lia.
      rewrite Z.pow_add_r, Z.pow_1_r in Hn by lia. lia. }
    assert (0 < fuel)%nat as Hf'. { destruct fuel; [|lia]. cbn in Hq. lia. }
    cbn in Hl. pose proof (IH (n / root) (a ++ [c]) r Ht Hq ltac:(lia) Hf') as H.
    rewrite length_app, <-!app_assoc in H. cbn in H. replace (Z.of_nat (length a) + 1) with (Z.of_nat (length a + 1)) by lia.
    rewrite H. do 2 f_equal. lia.
  - replace (Z.of_nat (length a) + 1) with (Z.of_nat (length a + 1)) by lia. done.
Qed.

(** The text of a number: its sign and its digits *)
Definition number_text (root : Z) (table : list Z) (n : Z) : list Z :=
  (if decide (n < 0) then [45] else []) ++ rev (map (fun d => table !!! Z.to_nat d) (digs 32 (Z.abs n) root)).

Lemma table_chars root table l : digit_table root table -> Forall (fun d => 0 <= d < root) l ->
  Forall (fun c => c <> 0 /\ c <> 45) (map (fun d => table !!! Z.to_nat d) l).
Proof.
  intros [_ H] Hl. apply Forall_map. eapply Forall_impl; [exact Hl|]. intros d Hd. destruct (H d Hd) as (c & E & Hc). cbn.
  by rewrite (list_lookup_total_correct _ _ _ E).
Qed.

Lemma itox_ok root table n s :
  digit_table root table -> - 2 ^ 31 < n < 2 ^ 31 -> 2 ^ 31 <= root ^ 32 -> (length (digs 32 (Z.abs n) root) + 2 <= length s)%nat ->
  exists r, itox n root table s = Ok (tt, number_text root table n ++ 0 :: r)
    /\ length (number_text root table n ++ 0 :: r) = length s.
Proof.
  intros Ht Hn Hp Hl. unfold itox, number_text. cbv zeta.
  assert ((if decide (n < 0) then s32 (- n) else n) = Z.abs n) as ->.
  { unfold s32, u32, W32. case_decide; [|lia]. rewrite Z.mod_small by lia. case_match eqn:E; [lia|]. apply Z.ltb_ge in E. lia. }
  pose proof (digits_loop_ok root table (Z.abs n) 32 [] s Ht) as H. cbn [length app] in H. change (Z.of_nat 0) with 0 in H.
  rewrite (bind_ok _ _ _ _ _ (H ltac:(change (Z.of_nat 32) with 32; lia) ltac:(lia) ltac:(lia))). clear H.
  set (ds := map _ (digs 32 (Z.abs n) root)).
  assert (length ds = length (digs 32 (Z.abs n) root)) as Ed by apply length_map. rewrite Nat.add_0_l, <-Ed in *.
  assert (Forall (fun c => c <> 0 /\ c <> 45) ds) as Hc by (apply (table_chars root); [done|apply digs_range; destruct Ht; lia]).
  assert (Forall (fun c => c <> 0) ds) as Hz by (eapply Forall_impl; [exact Hc|]; by intros ? []).
  clearbody ds. destruct (drop (length ds) s) as [|c0 [|c1 r]] eqn:Er; try (apply (f_equal length) in Er; rewrite length_drop in Er; cbn in Er; lia).
  assert (length s = length ds + (2 + length r))%nat as Es.
  { apply (f_equal length) in Er. rewrite length_drop in Er. cbn in Er. lia. }
  destruct (decide (n < 0)).
  - rewrite bind_assoc, (bind_ok _ _ _ _ _ (ch_set_ok ds c0 45 (c1 :: r))). rewrite mret_bind.
    pose proof (ch_set_ok (ds ++ [45]) c1 0 r) as H2. rewrite length_app, <-!app_assoc in H2. cbn [app length] in H2.
    replace (Z.of_nat (length ds) + 1) with (Z.of_nat (length ds + 1)) by lia. rewrite (bind_ok _ _ _ _ _ H2).
    pose proof (boot_reverse_ok (ds ++ [45]) r) as H3. rewrite <-app_assoc, rev_app_distr in H3. cbn [app rev] in H3.
    exists r. rewrite H3; [|apply Forall_app; split; [done|by repeat constructor]]. split; [done|].
    cbn [app length]. rewrite length_app, length_rev, Es. cbn. lia.
  - rewrite mret_bind, (bind_ok _ _ _ _ _ (ch_set_ok ds c0 0 (c1 :: r))). rewrite boot_reverse_ok by done.
    exists (c1 :: r). split; [done|]. cbn [app]. rewrite length_app, length_rev, Es. cbn. lia.
Qed.

Lemma itoh_any n s : - 2 ^ 31 <= n < 2 ^ 31 -> length s = 40%nat ->
  exists l r, itoh n s = Ok (tt, l ++ 0 :: r) /\ Forall (fun c => c <> 0) l /\ (length l <= 9)%nat
    /\ length (l ++ 0 :: r) = 40%nat /\ (- 2 ^ 31 < n -> l = number_text 16 hex_digits n).
Proof.
  intros Hn Hs. destruct (decide (n = - 2 ^ 31)) as [->|Hne].
  - do 40 (destruct s as [|? s]; [done|]). destruct s; [|done]. exists [45; 48]. eexists. split; [vm_compute; reflexivity|].
    split; [by repeat constructor|]. split; [cbn; lia|]. split; [done|lia].
  - pose proof (digs_length 32 (Z.abs n) 16 8 ltac:(lia) ltac:(change (16 ^ Z.of_nat 8) with (2 ^ 32); lia) ltac:(lia)) as Hd.
    destruct (itox_ok 16 hex_digits n s hex_table ltac:(lia) ltac:(lia) ltac:(lia)) as (r & E & El).
    exists (number_text 16 hex_digits n), r. split; [exact E|]. split; [|split; [|split; [lia|done]]].
    + unfold number_text. apply Forall_app. split; [case_decide; by repeat constructor|]. apply Forall_rev.
      eapply Forall_impl; [apply (table_chars 16); [exact hex_table|apply digs_range; lia]|]. by intros ? [].
    + unfold number_text. rewrite length_app, length_rev, length_map. case_decide; cbn [length]; lia.
Qed.

Lemma c_string_ok l r : Forall (fun c => c <> 0) l -> c_string (l ++ 0 :: r) = l.
Proof. induction 1 as [|c l Hc _ IH]; cbn; [done|]. rewrite decide_False by done. by rewrite IH. Qed.

(** Reading a number *)
Definition digit_of (c : Z) : Z := if decide (97 <= c) then c - 87 else c - 48.
Definition hex_value (l : list Z) : Z := foldl (fun v c => digit_of c + 16 * v) 0 l.
Definition parse_number (l : list Z) : Z := match l with 45 :: l => - hex_value l | _ => hex_value l end.

Lemma hex_value_rev l : Forall (fun d => 0 <= d < 16) l ->
  hex_value (rev (map (fun d => hex_digits !!! Z.to_nat d) l)) = value 16 l.
Proof.
  unfold hex_value, value.
  induction 1 as [|d l Hd _ IH]; [done|]. cbn [map rev foldr]. rewrite foldl_app, IH. cbn [foldl]. f_equal. revert d Hd. apply seqZ_forall. vm_compute.
  repeat (constructor; [reflexivity|]). constructor.
Qed.

Lemma parse_digits l : Forall (fun c => c <> 45) l -> parse_number l = hex_value l.
Proof. intros H. destruct l as [|c l]; [done|]. apply Forall_cons in H as [Hc _]. cbn. by repeat case_match; subst. Qed.

(** ** Screen *)
Definition screen (a : Z) : Prop := video <= a < video + 2 * 26 * 80.

(** Only the screen, the row and the number buffer change. *)
Record printed (s s' : bootst) : Prop := {
  pr_mem a : ~ screen a -> bmem s' !!! a = bmem s !!! a;
  pr_row : 0 <= row s' <= BOOT_CRT_ROWS;
  pr_str : length (puti_str s') = 40%nat;
  pr_status : ata_status s' = ata_status s;
  pr_len : mmap_length s' = mmap_length s;
  pr_addr : mmap_addr s' = mmap_addr s;
}.
Lemma printed_trans s1 s2 s3 : printed s1 s2 -> printed s2 s3 -> printed s1 s3.
Proof.
  intros [A1 _ _ A4 A5 A6] [B1 B2 B3 B4 B5 B6]. split; [|done|done|congruence..].
  intros a Ha. rewrite B1 by done. by apply A1.
Qed.

Lemma puts_loop_ok str : forall l color s,
  exists m, boot_puts_loop str l color s = Ok (l + Z.of_nat (length str), set_bmem m s)
    /\ forall a, ~ (video + 2 * l <= a < video + 2 * (l + Z.of_nat (length str))) -> m !!! a = bmem s !!! a.
Proof.
  induction str as [|c str IH]; intros l color s; cbn [boot_puts_loop length].
  - exists (bmem s). split; [|done]. rewrite Z.add_0_r. by destruct s.
  - unfold boot_putc, store8. rewrite bind_assoc, !modify_bind.
    destruct (IH (l + 1) color (set_bmem (<[video + l * 2 + 1:=u8 color]> (bmem (set_bmem (<[video + l * 2:=u8 c]> (bmem s)) s)))
        (set_bmem (<[video + l * 2:=u8 c]> (bmem s)) s))) as (m & E & H).
    exists m. rewrite E. split; [do 2 f_equal; lia|].
    intros a Ha. rewrite H by lia. cbn. by rewrite !lookup_total_insert_ne by lia.
Qed.

Lemma putline_ok str s : (length str <= 80)%nat -> 0 <= row s <= BOOT_CRT_ROWS -> length (puti_str s) = 40%nat ->
  exists s', putline str s = Ok (tt, s') /\ printed s s'.
Proof.
  intros Hl Hr Hs. unfold putline. rewrite gets_bind, modify_bind, gets_bind.
  set (r := if decide (row s >= BOOT_CRT_ROWS) then 0 else row s + 1). assert (0 <= r <= BOOT_CRT_ROWS) as Hr' by (unfold r, BOOT_CRT_ROWS in *; case_decide; lia).
  unfold puts. cbn [row set_row]. destruct (puts_loop_ok boot_blank (r * 80 + 0) VGA_CLR_BLACK (set_row r s)) as (m1 & E1 & H1).
  rewrite (bind_ok _ _ _ _ _ E1). destruct (puts_loop_ok str (r * 80 + 0) VGA_CLR_WHITE (set_bmem m1 (set_row r s))) as (m2 & E2 & H2).
  rewrite (bind_ok _ _ _ _ _ E2). eexists. split; [reflexivity|]. split; try done.
  change (Z.of_nat (length boot_blank)) with 80 in H1. cbn [bmem set_bmem set_row] in *. unfold screen, BOOT_CRT_ROWS in *.
  intros a Ha. rewrite H2, H1; [done|lia|lia].
Qed.

Lemma puti_ok n s : - 2 ^ 31 <= n < 2 ^ 31 -> 0 <= row s <= BOOT_CRT_ROWS -> length (puti_str s) = 40%nat ->
  exists s', puti n s = Ok (tt, s') /\ printed s s'.
Proof.
  intros Hn Hr Hs. destruct (itoh_any n (puti_str s) Hn Hs) as (l & r & E & Hz & Hl & Hlen & _). unfold puti.
  rewrite (bind_ok _ _ _ _ _ (zoom_ok puti_str set_puti_str _ _ _ _ E)), gets_bind. cbn [puti_str set_puti_str]. rewrite c_string_ok by done.
  destruct (putline_ok l (set_puti_str (l ++ 0 :: r) s)) as (s' & E' & [P1 P2 P3 P4 P5 P6]); [lia|done|done|]. by exists s'.
Qed.

(** ** Disk *)
Lemma lba_bytes o : 0 <= o < 2 ^ 28 ->
  u8 o + 2 ^ 8 * u8 (Z.shiftr o 8) + 2 ^ 16 * u8 (Z.shiftr o 16) + 2 ^ 24 * Z.land (u8 (Z.lor (Z.shiftr o 24) 0xE0)) 0xF = o
  /\ Z.land (u8 (Z.lor (Z.shiftr o 24) 0xE0)) 0xE0 = 0xE0.
Proof.
  intros Ho. rewrite !Z.shiftr_div_pow2 by lia. assert (0 <= o / 2 ^ 24 < 16) as Hq.
  { split; [apply Z.div_pos; lia|apply Z.div_lt_upper_bound; lia]. }
  assert (Z.land (u8 (Z.lor (o / 2 ^ 24) 0xE0)) 0xF = o / 2 ^ 24 /\ Z.land (u8 (Z.lor (o / 2 ^ 24) 0xE0)) 0xE0 = 0xE0) as [-> ->].
  { revert Hq. generalize (o / 2 ^ 24). apply seqZ_forall. vm_compute. repeat (constructor; [by split|]). constructor. }
  split; [|done]. unfold u8. Z.to_euclidean_division_equations. lia.
Qed.

(** Only memory and the registers of the disk change. *)
Record disk_read (s s' : bootst) : Prop := {
  dr_row : row s' = row s;
  dr_str : puti_str s' = puti_str s;
  dr_status : ata_status s' = ata_status s;
  dr_len : mmap_length s' = mmap_length s;
  dr_addr : mmap_addr s' = mmap_addr s;
}.
Lemma disk_read_refl s : disk_read s s.
Proof. by split. Qed.
Lemma disk_read_trans s1 s2 s3 : disk_read s1 s2 -> disk_read s2 s3 -> disk_read s1 s3.
Proof. intros [] []. split; congruence. Qed.

Section Load.
Context (sector : Z -> list Z) (img : Z -> Z) (lba : Z).

(** The image is on the disk from sector [lba] on. *)
Definition on_disk : Prop := forall k, 0 <= k -> lba + k < 2 ^ 28 -> sector (lba + k) = map (fun i => img (512 * k + i)) (seqZ 0 512).

Definition drive_ready (s : bootst) : Prop := Z.land (ata_status s) 0xC0 = 0x40.

Lemma waitdisk_ok s : drive_ready s -> waitdisk s = Ok (tt, s).
Proof. intros H. unfold waitdisk. mrun. by rewrite decide_True. Qed.

Lemma readsector_ok dst o s : drive_ready s -> 0 <= o < 2 ^ 28 ->
  exists s', readsector sector dst o s = Ok (tt, s') /\ disk_read s s' /\ bmem s' = store_bytes dst (sector o) (bmem s).
Proof.
  intros Hs Ho. destruct (lba_bytes o Ho) as [Hb He]. unfold readsector. rewrite (bind_ok _ _ _ _ _ (waitdisk_ok s Hs)).
  unfold ata_out. rewrite !modify_bind.
  match goal with |- context [(waitdisk ≫= _) ?t] => rewrite (bind_ok _ _ _ _ _ (waitdisk_ok t Hs)) end. unfold insl. mrun.
  cbn [ata set_ata bmem row puti_str ata_status mmap_length mmap_addr].
  set (r := <[0x1F7:=_]> _).
  assert (r !!! 0x1F2 = 1 /\ r !!! 0x1F7 = 0x20 /\ r !!! 0x1F6 = u8 (Z.lor (Z.shiftr o 24) 0xE0) /\ r !!! 0x1F5 = u8 (Z.shiftr o 16)
    /\ r !!! 0x1F4 = u8 (Z.shiftr o 8) /\ r !!! 0x1F3 = u8 o) as (R2 & R7 & R6 & R5 & R4 & R3).
  { unfold r. repeat split; repeat (rewrite lookup_total_insert_eq || rewrite lookup_total_insert_ne by done); done. }
  unfold ata_sector. rewrite R2, R7, R6, R5, R4, R3. rewrite decide_True by done. rewrite Hb. eexists. split; [reflexivity|]. by split.
Qed.
Lemma readsection_loop_ok n : on_disk -> 0 <= lba -> forall fuel va end_va k s,
  drive_ready s -> 0 <= va -> 0 <= k -> (n <= fuel)%nat -> va + 512 * Z.of_nat n < W32 -> lba + k + Z.of_nat n <= 2 ^ 28 ->
  end_va <= va + 512 * Z.of_nat n -> ((0 < n)%nat -> va + 512 * (Z.of_nat n - 1) < end_va) ->
  exists s', readsection_loop sector fuel va end_va (lba + k) s = Ok (tt, s') /\ disk_read s s'
    /\ forall a, bmem s' !!! a = if decide (va <= a < va + 512 * Z.of_nat n) then img (512 * k + (a - va)) else bmem s !!! a.
Proof.
  intros Hd Hl. induction n as [|n IH]; intros fuel va end_va k s Hs Hv Hk Hf Hw Ho He Hn.
  - exists s. split; [destruct fuel; cbn; by rewrite decide_False by lia|]. split; [apply disk_read_refl|].
    intros a. by rewrite decide_False by lia.
  - destruct fuel as [|fuel]; [lia|]. cbn [readsection_loop]. rewrite decide_True by lia.
    destruct (readsector_ok va (lba + k) s Hs) as (s1 & E1 & D1 & M1); [lia|]. rewrite (bind_ok _ _ _ _ _ E1).
    unfold SECTOR_SIZE. rewrite u32_id by lia. rewrite u32_id by (unfold W32; lia).
    replace (lba + k + 1) with (lba + (k + 1)) by lia.
    destruct (IH fuel (va + 512) end_va (k + 1) s1) as (s2 & E2 & D2 & M2); try lia.
    { unfold drive_ready. by rewrite (dr_status _ _ D1). }
    exists s2. split; [done|]. split; [by eapply disk_read_trans|]. intros a. rewrite M2, M1, store_bytes_lookup, (Hd k) by lia.
    rewrite length_map, length_seqZ. change (Z.of_nat (Z.to_nat 512)) with 512. repeat case_decide; try lia; [f_equal; lia|].
    assert (0 <= a - va < 512) as Ha by lia. rewrite (list_lookup_total_correct _ _ (img (512 * k + (a - va)))); [done|].
    rewrite list_lookup_fmap, (lookup_seqZ_lt 0 512) by lia. cbn. do 2 f_equal. lia.
Qed.

(** The bytes that [readsection] overwrites: whole sectors *)
Definition covered (va count a : Z) : Prop := va - va mod 512 <= a < (va + count + 511) / 512 * 512.
#[global] Instance covered_dec va count a : Decision (covered va count a).
Proof. unfold covered. apply _. Defined.

Lemma readsection_ok va0 count off s (va := Z.land va0 0xFFFFFF) :
  on_disk -> 0 <= lba -> drive_ready s -> 0 <= count -> 0 <= off -> va mod 512 = off mod 512 ->
  va + count < W32 - 512 -> lba + (off + count) / 512 + 2 <= 2 ^ 28 ->
  exists s', readsection sector va0 count off lba s = Ok (tt, s') /\ disk_read s s'
    /\ forall a, bmem s' !!! a = if decide (covered va count a) then img (off + (a - va)) else bmem s !!! a.
Proof.
  intros Hd Hl Hs Hc Ho Hm Hw Hb. unfold readsection. fold va. cbv zeta. assert (0 <= va) as Hv by (apply Z.land_nonneg; lia).
  rewrite u32_id by lia. change (Z.lnot (SECTOR_SIZE - 1)) with (Z.lnot (Z.ones 9)). rewrite <-Z.ldiff_land, Z.ldiff_ones_r by lia.
  rewrite Z.shiftl_mul_pow2, Z.shiftr_div_pow2 by lia. change (2 ^ 9) with 512. unfold SECTOR_SIZE.
  assert (0 <= (off + count) / 512 /\ 0 <= off / 512 <= (off + count) / 512) as [Hq1 Hq2].
  { split; [apply Z.div_pos; lia|]. split; [apply Z.div_pos; lia|apply Z.div_le_mono; lia]. }
  rewrite (u32_id (off / 512 + lba)) by (unfold W32; lia). rewrite (Z.add_comm (off / 512) lba).
  set (b := va / 512 * 512). assert (b = va - va mod 512) as Eb by (unfold b; pose proof (Z.div_mod va 512); lia).
  assert (0 <= va mod 512 < 512) as Hr by by apply Z.mod_pos_bound.
  set (n := (va + count - b + 511) / 512).
  assert (0 <= n /\ 512 * n < va + count - b + 512 /\ va + count - b <= 512 * n) as (N0 & N1 & N2).
  { unfold n. pose proof (Z.div_mod (va + count - b + 511) 512). pose proof (Z.mod_pos_bound (va + count - b + 511) 512).
    split; [apply Z.div_pos; lia|lia]. }
  assert (off / 512 + n <= (off + count) / 512 + 1) as Hn.
  { unfold n. rewrite Eb, Hm. Z.to_euclidean_division_equations. lia. }
  destruct (readsection_loop_ok (Z.to_nat n) Hd Hl (Z.to_nat ((va + count - b) / 512 + 1)) b (va + count) (off / 512) s)
    as (s' & E & D & M); rewrite ?Z2Nat.id by done; try done; try lia.
  { unfold n. apply Z2Nat.inj_le; [done|pose proof (Z.div_pos (va + count - b) 512); lia|]. Z.to_euclidean_division_equations. lia. }
  exists s'. split; [done|]. split; [done|]. intros a. rewrite M, Z2Nat.id by done.
  assert ((va + count + 511) / 512 * 512 = b + 512 * n) as En.
  { unfold n. rewrite Eb. Z.to_euclidean_division_equations. lia. }
  assert (covered va count a <-> b <= a < b + 512 * n) as Hi by (unfold covered; rewrite En, <-Eb; done).
  destruct (decide (b <= a < b + 512 * n)) as [Hy|Hy].
  - rewrite decide_True by by apply Hi. f_equal. pose proof (Z.div_mod off 512). lia.
  - rewrite decide_False by by rewrite Hi. done.
Qed.

(** ** The kernel's image *)
Definition phnum : Z := half_of img 44.
Definition ph (i : Z) : Z := word_of img 28 + 32 * i.
Definition seg_va (i : Z) : Z := Z.land (word_of img (ph i + 8)) 0xFFFFFF.
Definition seg_sz (i : Z) : Z := word_of img (ph i + 20).
Definition seg_off (i : Z) : Z := word_of img (ph i + 4).

(** An ELF file with its program headers in the first 4096 bytes; segments at
    addresses from 1 MB on that are congruent to their offsets modulo the sector
    size, in ascending order and in different sectors *)
Record loadable : Prop := {
  ld_magic : word_of img 0 = BOOT_ELF_MAGIC;
  ld_table : word_of img 28 + 32 * phnum <= 4096;
  ld_align i : 0 <= i < phnum -> seg_va i mod 512 = seg_off i mod 512;
  ld_high i : 0 <= i < phnum -> 0x100000 <= seg_va i;
  ld_fits i : 0 <= i < phnum -> seg_va i + seg_sz i < W32 - 512;
  ld_disk i : 0 <= i < phnum -> lba + (seg_off i + seg_sz i) / 512 + 2 <= 2 ^ 28;
  ld_order i j : 0 <= i -> i < j -> j < phnum -> seg_va i + seg_sz i <= seg_va j - seg_va j mod 512;
  ld_lba : 0 <= lba /\ lba + 10 <= 2 ^ 28;
}.

(** The header is in memory, the first [n] segments are loaded, the rest of the first
    megabyte is as before. *)
Record loaded (s : bootst) (n : Z) (s' : bootst) : Prop := {
  lo_read : disk_read s s';
  lo_hdr x : 0 <= x < 4096 -> bmem s' !!! (ELFHDR + x) = img x;
  lo_low a : a < 0x100000 -> ~ (ELFHDR <= a < ELFHDR + 4096) -> bmem s' !!! a = bmem s !!! a;
  lo_segs i k : 0 <= i < n -> 0 <= k < seg_sz i -> bmem s' !!! (seg_va i + k) = img (seg_off i + k);
}.

Lemma hdr_word s n s' o : loaded s n s' -> 0 <= o -> o + 4 <= 4096 -> rd32 (bmem s') (ELFHDR + o) = word_of img o.
Proof.
  intros L H0 H1. unfold rd32. rewrite word_of_shift, (word_of_shift img). apply word_of_ext. intros i Hi. cbn beta.
  rewrite <-(lo_hdr _ _ _ L) by lia. f_equal. lia.
Qed.
Lemma hdr_half s n s' o : loaded s n s' -> 0 <= o -> o + 2 <= 4096 -> rd16 (bmem s') (ELFHDR + o) = half_of img o.
Proof.
  intros L H0 H1. unfold rd16, half_of. rewrite <-Z.add_assoc, !(lo_hdr _ _ _ L) by lia. done.
Qed.

Lemma phnum_nonneg : 0 <= phnum.
Proof. apply half_of_range. Qed.

Lemma load_header s : on_disk -> loadable -> drive_ready s ->
  exists s', readsection sector ELFHDR (SECTOR_SIZE * 8) 0 lba s = Ok (tt, s') /\ loaded s 0 s'.
Proof.
  intros Hd [_ _ _ _ _ _ _ [Hl Hb]] Hs.
  destruct (readsection_ok ELFHDR (SECTOR_SIZE * 8) 0 s) as (s' & E & D & M); try done.
  { change ((0 + SECTOR_SIZE * 8) / 512) with 8. lia. }
  exists s'. split; [done|]. change (Z.land ELFHDR 0xFFFFFF) with ELFHDR in M.
  assert (forall a, covered ELFHDR (SECTOR_SIZE * 8) a <-> ELFHDR <= a < ELFHDR + 4096) as Hc.
  { intros a. unfold covered. change (ELFHDR - ELFHDR mod 512) with ELFHDR.
    by change ((ELFHDR + SECTOR_SIZE * 8 + 511) / 512 * 512) with (ELFHDR + 4096). }
  split; [done| | |lia].
  - intros x Hx. rewrite M, decide_True by (apply Hc; lia). f_equal. lia.
  - intros a _ Ha. rewrite M, decide_False; [done|]. by rewrite Hc.
Qed.

Lemma load_segment s i s1 : on_disk -> loadable -> drive_ready s -> loaded s i s1 -> 0 <= i < phnum ->
  exists s2, readsection sector (word_of img (ph i + 8)) (seg_sz i) (seg_off i) lba s1 = Ok (tt, s2) /\ loaded s (i + 1) s2.
Proof.
  intros Hd [_ _ A1 A2 A3 A4 A5 [Hl _]] Hs [D1 H1 L1 S1] Hi. pose proof (A2 i Hi) as Hhi.
  destruct (readsection_ok (word_of img (ph i + 8)) (seg_sz i) (seg_off i) s1) as (s2 & E & D & M);
    try done; try apply word_of_range; try (by apply A1); try (by apply A3); try (by apply A4).
  { unfold drive_ready. by rewrite (dr_status _ _ D1). }
  fold (seg_va i) in M. exists s2. split; [done|].
  assert (0x100000 <= seg_va i - seg_va i mod 512) as Hlow by (Z.to_euclidean_division_equations; lia).
  split.
  - by eapply disk_read_trans.
  - intros x Hx. rewrite M, decide_False; [by apply H1|]. unfold covered, ELFHDR. lia.
  - intros a Ha Hn. rewrite M, decide_False; [by apply L1|]. unfold covered. lia.
  - intros j k Hj Hk. rewrite M. destruct (decide (j = i)) as [->|Hne].
    + rewrite decide_True; [f_equal; lia|]. unfold covered. Z.to_euclidean_division_equations. lia.
    + rewrite decide_False; [by apply S1; lia|]. unfold covered. pose proof (A5 j i). lia.
Qed.

Lemma load_kernel_ok s : on_disk -> loadable -> drive_ready s ->
  exists s', load_kernel sector lba s = Ok (Z.land (word_of img 24) 0xFFFFFF, s') /\ loaded s phnum s'.
Proof.
  intros Hd Hk Hs. destruct (load_header s Hd Hk Hs) as (s1 & E1 & L1). unfold load_kernel. rewrite (bind_ok _ _ _ _ _ E1), gets_bind.
  pose proof (hdr_word s 0 s1 0 L1 ltac:(lia) ltac:(lia)) as E0. rewrite Z.add_0_r in E0. rewrite E0, (ld_magic Hk), decide_False by (intros H; by apply H).
  rewrite (hdr_word s 0 s1 28 L1), (hdr_half s 0 s1 44 L1) by lia. fold phnum. pose proof (ld_table Hk) as Ht.
  pose proof (word_of_range img 28) as H28. pose proof phnum_nonneg as Hp. rewrite u32_id by (unfold ELFHDR, W32; lia).
  match goal with |- context [for_each (seqZ 0 phnum) ?b] =>
    destruct (for_range_ind (fun i t => loaded s i t) b phnum) with (s := s1) as (s2 & E2 & L2) end; [done| |done|].
  - intros i t Hi Lt. rewrite gets_bind. unfold sizeof_proghdr.
    assert (forall o, ELFHDR + word_of img 28 + 32 * i + o = ELFHDR + (ph i + o)) as Eo by (intros o; unfold ph; lia). rewrite !Eo.
    assert (0 <= ph i /\ ph i + 32 <= 4096) as Hph by (unfold ph; lia).
    rewrite !(hdr_word s i t) by (done || lia). by apply load_segment.
  - rewrite (bind_ok _ _ _ _ _ E2), gets_bind. rewrite (hdr_word s phnum s2 24 L2) by lia. by exists s2.
Qed.

End Load.

(** ** The memory map *)
Lemma printed_refl s : 0 <= row s <= BOOT_CRT_ROWS -> length (puti_str s) = 40%nat -> printed s s.
Proof. by split. Qed.

(** Memory below the ELF header is not on the screen. *)
Lemma low_not_screen a : a < ELFHDR -> ~ screen a.
Proof. unfold screen, ELFHDR, video. lia. Qed.
Lemma printed_rd32 s s' a : printed s s' -> a + 4 <= ELFHDR -> rd32 (bmem s') a = rd32 (bmem s) a.
Proof. intros P Ha. apply word_of_ext. intros i Hi. apply (pr_mem _ _ P), low_not_screen. lia. Qed.
Lemma printed_rd8 s s' a : printed s s' -> a < ELFHDR -> rd8 (bmem s') a = rd8 (bmem s) a.
Proof. intros P Ha. unfold rd8. by rewrite (pr_mem _ _ P) by by apply low_not_screen. Qed.

(** A memory map of [n] entries, ended by an empty one, below the ELF header *)
Record smap_at (m : mem) (smap n : Z) : Prop := {
  sm_n : 0 <= n;
  sm_entry k : 0 <= k < n -> smap_end m (smap + 24 * k) = false;
  sm_end : smap_end m (smap + 24 * n) = true;
  sm_place : 0 <= smap /\ smap + 24 * n + 24 <= ELFHDR;
}.
Lemma printed_smap s s' smap n : printed s s' -> smap_at (bmem s) smap n -> smap_at (bmem s') smap n.
Proof.
  intros P [H0 H1 H2 H3].
  assert (forall k, 0 <= k <= n -> smap_end (bmem s') (smap + 24 * k) = smap_end (bmem s) (smap + 24 * k)) as E.
  { intros k Hk. unfold smap_end. by rewrite !(printed_rd32 _ _ _ P) by lia. }
  split; [done| | |done].
  - intros k Hk. rewrite E by lia. by apply H1.
  - rewrite E by lia. done.
Qed.

Lemma e820_ok smap n d : forall fuel k s, smap_at (bmem s) smap n -> 0 <= row s <= BOOT_CRT_ROWS -> length (puti_str s) = 40%nat ->
  0 <= k -> k + Z.of_nat d = n -> (d <= fuel)%nat ->
  exists s', e820_loop fuel (smap + 24 * k) (24 * k) s = Ok (24 * n, s') /\ printed s s'.
Proof.
  induction d as [|d IH]; intros fuel k s H Hr Hl Hk Hn Hf.
  - exists s. split; [|by apply printed_refl]. assert (k = n) as -> by lia.
    destruct fuel; cbn [e820_loop]; by rewrite gets_bind, (sm_end _ _ _ H).
  - destruct fuel as [|fuel]; [lia|]. cbn [e820_loop]. rewrite gets_bind, (sm_entry _ _ _ H) by lia.
    destruct (puti_ok (s32 (rd32 (bmem s) (smap + 24 * k + 4))) s (s32_range _) Hr Hl) as (s1 & E1 & P1).
    rewrite (bind_ok _ _ _ _ _ E1). unfold sizeof_smap. pose proof (sm_place _ _ _ H) as Hp. unfold ELFHDR in Hp.
    rewrite u32_id by (unfold W32; lia). replace (24 * k + 24) with (24 * (k + 1)) by lia.
    replace (smap + 24 * k + 24) with (smap + 24 * (k + 1)) by lia.
    destruct (IH fuel (k + 1) s1) as (s2 & E2 & P2); try lia; [by eapply printed_smap|apply P1|apply P1|].
    exists s2. split; [done|]. by eapply printed_trans.
Qed.

Module BootProps.

(** Numbers of the boot loader read back.  For every [int] but the
    smallest, [itoh] leaves in the 40-byte buffer a zero-terminated text that reads
    back, as a hexadecimal number with an optional sign, as the number given. *)
Theorem itoh_reads_back n s :
  - 2 ^ 31 < n < 2 ^ 31 -> length s = 40%nat ->
  exists s', itoh n s = Ok (tt, s') /\ length s' = 40%nat /\ parse_number (c_string s') = n.
Proof.
  intros Hn Hs. destruct (itoh_any n s ltac:(lia) Hs) as (l & r & E & Hz & _ & Hl & Hx). exists (l ++ 0 :: r). split; [done|].
  split; [done|]. rewrite c_string_ok by done. rewrite Hx by lia. unfold number_text.
  assert (hex_value (rev (map (fun d => hex_digits !!! Z.to_nat d) (digs 32 (Z.abs n) 16))) = Z.abs n) as Hv.
  { rewrite hex_value_rev by (apply digs_range; lia). apply digs_value; [lia| |lia]. change (16 ^ Z.of_nat 32) with (2 ^ 128). lia. }
  destruct (decide (n < 0)).
  - cbn [app parse_number]. rewrite Hv. lia.
  - cbn [app]. rewrite parse_digits, Hv; [lia|]. apply Forall_rev.
    eapply Forall_impl; [apply (table_chars 16); [exact hex_table|apply digs_range; lia]|]. by intros ? [].
Qed.

Lemma itoh_reads_back_witness :
  exists s', itoh (-0x1ff) (replicate 40 7) = Ok (tt, s') /\ parse_number (c_string s') = -0x1ff.
Proof.
  destruct (itoh_reads_back (-0x1ff) (replicate 40 7)) as (s' & E & _ & H); [lia|reflexivity|]. exists s'. exact (conj E H).
Defined.

(** C22 (functional): the boot loader loads the kernel and starts it.  With a
    bootable partition in the partition table, an image on the disk from its first
    sector on that is an ELF file with its headers in the first 4096 bytes and
    segments above 1 MB in ascending order, congruent to their offsets modulo 512,
    and a memory map of [n] entries, [boot1main] reaches the kernel's entry point
    (its low 24 bits) with every byte of every segment (all [p_memsz] of them) from
    the image in place, and the length and address of the unchanged memory map in
    the information passed to the kernel. *)
Theorem boot_loads_kernel sector img lba fuel mbr smap n i s :
  on_disk sector img lba -> loadable img lba -> drive_ready s -> length (puti_str s) = 40%nat ->
  find_bootable (bmem s) mbr = i -> i <> 4 -> rd32 (bmem s) (partition mbr i + 8) = lba -> 0 <= mbr -> mbr + 512 <= ELFHDR ->
  smap_at (bmem s) smap n -> n <= Z.of_nat fuel ->
  exists s', boot1main sector fuel mbr smap s = Ok (Z.land (word_of img 24) 0xFFFFFF, s')
    /\ mmap_length s' = 24 * n /\ mmap_addr s' = smap
    /\ (forall k, 0 <= k < 24 * n -> bmem s' !!! (smap + k) = bmem s !!! (smap + k))
    /\ forall j k, 0 <= j < phnum img -> 0 <= k < seg_sz img j -> bmem s' !!! (seg_va img j + k) = img (seg_off img j + k).
Proof.
  intros Hd Hk Hs Hl Hi H4 Hlba Hm0 Hm1 Hsm Hf. unfold boot1main, roll. rewrite modify_bind.
  destruct (putline_ok (text "Start boot1 main ...") (set_row 3 s)) as (s1 & E1 & P1); [cbn; lia|cbn; unfold BOOT_CRT_ROWS; lia|done|].
  rewrite (bind_ok _ _ _ _ _ E1), gets_bind.
  assert (forall j, 0 <= j < 4 -> rd8 (bmem s1) (partition mbr j) = rd8 (bmem s) (partition mbr j)) as Hb.
  { intros j Hj. apply (printed_rd8 _ _ _ P1). unfold partition. lia. }
  assert (find_bootable (bmem s1) mbr = i) as ->.
  { rewrite <-Hi. unfold find_bootable. cbn [List.find]. by rewrite !Hb by lia. }
  assert (0 <= i < 4) as Hi4. { subst i. unfold find_bootable in *. cbn [List.find] in *. repeat case_match; simplify_eq; lia. }
  rewrite decide_False by done. rewrite (printed_rd32 _ _ _ P1) by (unfold partition; lia). cbn [bmem set_row]. rewrite Hlba.
  unfold parse_e820. rewrite bind_assoc.
  destruct (putline_ok (text "* E820 Memory Map *") s1) as (s2 & E2 & P2); [cbn; lia|apply P1|apply P1|]. rewrite (bind_ok _ _ _ _ _ E2).
  pose proof (printed_trans _ _ _ P1 P2) as P12.
  assert (smap_at (bmem s2) smap n) as Hsm2 by (apply (printed_smap _ _ _ _ P12); exact Hsm).
  pose proof (sm_n _ _ _ Hsm) as Hn. pose proof (sm_place _ _ _ Hsm) as Hpl.
  destruct (e820_ok smap n (Z.to_nat n) fuel 0 s2 Hsm2) as (s3 & E3 & P3); [apply P2|apply P2|lia|lia|lia|].
  rewrite Z.mul_0_r, Z.add_0_r in E3. rewrite bind_assoc, (bind_ok _ _ _ _ _ E3), modify_bind.
  pose proof (printed_trans _ _ _ P12 P3) as P13. set (s4 := set_mmap (24 * n) smap s3).
  destruct (putline_ok (text "Load kernel ..." ++ [10]) s4) as (s5 & E5 & P5); [cbn; lia|apply P3|apply P3|]. rewrite (bind_ok _ _ _ _ _ E5).
  assert (drive_ready s5) as Hs5. { unfold drive_ready. rewrite (pr_status _ _ P5). cbn. by rewrite (pr_status _ _ P13). }
  destruct (load_kernel_ok sector img lba s5 Hd Hk Hs5) as (s6 & E6 & [D6 _ L6 S6]). rewrite (bind_ok _ _ _ _ _ E6).
  destruct (putline_ok (text "Start kernel ..." ++ [10]) s6) as (s7 & E7 & P7);
    [cbn; lia|rewrite (dr_row _ _ D6); apply P5|rewrite (dr_str _ _ D6); apply P5|]. rewrite (bind_ok _ _ _ _ _ E7).
  exists s7. split; [done|]. split; [by rewrite (pr_len _ _ P7), (dr_len _ _ D6), (pr_len _ _ P5)|].
  split; [by rewrite (pr_addr _ _ P7), (dr_addr _ _ D6), (pr_addr _ _ P5)|]. split.
  - intros k Hk'. rewrite (pr_mem _ _ P7), L6, (pr_mem _ _ P5) by (try apply low_not_screen; unfold ELFHDR in *; lia).
    cbn [s4 set_mmap bmem]. rewrite (pr_mem _ _ P13) by (apply low_not_screen; lia). done.
  - intros j k Hj Hk'. rewrite (pr_mem _ _ P7); [by apply S6|]. pose proof (ld_high _ _ Hk j Hj). unfold screen, video. lia.
Qed.

(** A kernel of one segment: eight bytes at offset 512, for 1 MB *)
Definition tiny_elf : list Z :=
  word_bytes BOOT_ELF_MAGIC ++ replicate 12 0 ++ half_bytes 2 ++ half_bytes 3 ++ word_bytes 1 ++ word_bytes 0xC0100004 ++ word_bytes 52
  ++ word_bytes 0 ++ word_bytes 0 ++ half_bytes 52 ++ half_bytes 32 ++ half_bytes 1 ++ replicate 6 0
  ++ concat (map word_bytes [1; 512; 0xC0100000; 0x100000; 4; 8; 5; 512]) ++ replicate 428 0 ++ [1; 2; 3; 4; 5; 6; 7; 8].
Definition tiny_img (x : Z) : Z := tiny_elf !!! Z.to_nat x.
Definition tiny_sector (k : Z) : list Z := map (fun i => tiny_img (512 * (k - 5) + i)) (seqZ 0 512).
Definition tiny_memory : mem :=
  store_bytes (0x7c00 + 462) ([0x80; 0; 0; 0; 0; 0; 0; 0] ++ word_bytes 5)
    (store_bytes 0x9000 (concat (map word_bytes [20; 0; 0; 0x9fc00; 0; 1])) ∅).
Definition tiny_machine : bootst := mk_bootst tiny_memory 0 (replicate 40 0) ∅ 0x50 0 0.

Lemma tiny_loadable : loadable tiny_img 5.
Proof.
  assert (phnum tiny_img = 1) as Hp by (vm_compute; reflexivity).
  assert (seg_va tiny_img 0 = 0x100000 /\ seg_off tiny_img 0 = 512 /\ seg_sz tiny_img 0 = 8) as (Hv & Ho & Hz)
    by (vm_compute; repeat split; reflexivity).
  split; rewrite ?Hp.
  - vm_compute. reflexivity.
  - vm_compute. discriminate.
  - intros i Hi. assert (i = 0) as -> by lia. by rewrite Hv, Ho.
  - intros i Hi. assert (i = 0) as -> by lia. by rewrite Hv.
  - intros i Hi. assert (i = 0) as -> by lia. by rewrite Hv, Hz.
  - intros i Hi. assert (i = 0) as -> by lia. by rewrite Ho, Hz.
  - lia.
  - lia.
Qed.

Lemma boot_loads_kernel_witness :
  exists s', boot1main tiny_sector 4 0x7c00 0x9000 tiny_machine = Ok (0x100004, s') /\ mmap_length s' = 24
    /\ bmem s' !!! 0x100003 = 4.
Proof.
  assert (phnum tiny_img = 1) as Hp by (vm_compute; reflexivity).
  assert (seg_va tiny_img 0 = 0x100000 /\ seg_off tiny_img 0 = 512 /\ seg_sz tiny_img 0 = 8) as (Hv & Ho & Hz)
    by (vm_compute; repeat split; reflexivity).
  destruct (boot_loads_kernel tiny_sector tiny_img 5 4 0x7c00 0x9000 1 1 tiny_machine) as (s' & E & El & _ & _ & H).
  - intros k _ _. unfold tiny_sector. by replace (5 + k - 5) with k by lia.
  - exact tiny_loadable.
  - vm_compute. reflexivity.
  - reflexivity.
  - vm_compute. reflexivity.
  - discriminate.
  - vm_compute. reflexivity.
  - lia.
  - unfold ELFHDR. lia.
  - split; [lia| |vm_compute; reflexivity|unfold ELFHDR; lia]. intros k Hk. assert (k = 0) as -> by lia. vm_compute. reflexivity.
  - lia.
  - exists s'. assert (Z.land (word_of tiny_img 24) 0xFFFFFF = 0x100004) as Ee by (vm_compute; reflexivity). rewrite Ee in E.
    split; [exact E|]. split; [exact El|]. specialize (H 0 3). rewrite Hv, Ho, Hz, Hp in H.
    assert (tiny_img (512 + 3) = 4) as E4 by (vm_compute; reflexivity). rewrite E4 in H. apply H; lia.
Defined.

End BootProps.

(** The smallest [int] is printed as minus zero. *)
Lemma itoh_smallest_int : exists s', itoh (- 2 ^ 31) (replicate 40 0) = Ok (tt, s') /\ c_string s' = [45; 48].
Proof. eexists. split; [vm_compute; reflexivity|vm_compute; reflexivity]. Qed.

(** The rows of the screen are 0 to 24; [putline] goes on to row 25. *)
Lemma putline_below_screen s : row s = 24 -> length (puti_str s) = 40%nat ->
  exists s', putline [] s = Ok (tt, s') /\ row s' = 25.
Proof.
  intros Hr Hl. unfold putline. rewrite gets_bind, Hr, decide_False by (unfold BOOT_CRT_ROWS; lia). rewrite modify_bind, gets_bind.
  unfold puts. destruct (puts_loop_ok boot_blank (row (set_row (24 + 1) s) * 80 + 0) VGA_CLR_BLACK (set_row (24 + 1) s)) as (m & E & _).
  rewrite (bind_ok _ _ _ _ _ E). eexists. split; [reflexivity|done].
Qed.
