(* ===== verification/FsData.v ===== *)
(** * File system: data structures and kernel state

    The structures of fs/*.h, lib/buf.h and fs/log.c, and one record with all
    static data of the file system and of the disk driver.

    The file system is modelled as one process executes it while no other
    process is inside it: a wait for a buffer, an inode or the log that is held
    by someone else is the outcome [Spin]; the wait for the disk ends with the
    disk's interrupt.  Of the rest of the kernel the file system uses
    [thread_wakeup], the kernel stack (for spinlocks) and memory, through
    [FsKernel]. *)

From S2P Require Import Prelude DList Machine Thread Scheduler KString Bytes.

(** ** fs/params.h, fs/dinode.h, fs/stat.h, fs/dir.h *)
Definition NFILE : Z := 100.
Definition NBUF : Z := 10.
Definition NINODE : Z := 50.
Definition NDEV : Z := 10.
Definition ROOTDEV : Z := 1.
Definition LOGSIZE : Z := 10.
Definition ROOTINO : Z := 1.
Definition BSIZE : Z := 512.

Definition NDIRECT : Z := 12.
Definition NINDIRECT : Z := BSIZE / 4.
Definition MAXFILE : Z := NDIRECT + NINDIRECT.
Definition sizeof_dinode : Z := 64.
Definition IPB : Z := BSIZE / sizeof_dinode.
Definition IBLOCK (i : Z) : Z := i / IPB + 2.
Definition BPB : Z := BSIZE * 8.
Definition BBLOCK (b ninodes : Z) : Z := b / BPB + ninodes / IPB + 3.

Definition I_BUSY : Z := 1.
Definition I_VALID : Z := 2.

Definition T_DIR : Z := 1.
Definition T_FILE : Z := 2.
Definition T_DEV : Z := 3.

Definition DIRSIZ : Z := 14.

(** ** lib/buf.h *)
Definition B_BUSY : Z := 1.
Definition B_VALID : Z := 2.
Definition B_DIRTY : Z := 4.

(** Buffers are named by their index in [bcache.buf]; [HEAD] is [&bcache.head]. *)
Definition HEAD : Z := NBUF.

Record buf := mk_buf {
  b_flags : Z; b_dev : Z; b_sector : Z;
  b_prev : Z; b_next : Z; b_qnext : option Z;
  b_data : list Z;
}.
Definition zero_block : list Z := replicate 512 0.
#[export] Instance buf_inhabited : Inhabited buf := populate (mk_buf 0 0 0 0 0 None zero_block).

Definition set_b_flags (v : Z) (b : buf) : buf :=
  mk_buf v (b_dev b) (b_sector b) (b_prev b) (b_next b) (b_qnext b) (b_data b).
Definition set_b_key (flags dev sector : Z) (b : buf) : buf :=
  mk_buf flags dev sector (b_prev b) (b_next b) (b_qnext b) (b_data b).
Definition set_b_dev (v : Z) (b : buf) : buf :=
  mk_buf (b_flags b) v (b_sector b) (b_prev b) (b_next b) (b_qnext b) (b_data b).
Definition set_b_prev (v : Z) (b : buf) : buf :=
  mk_buf (b_flags b) (b_dev b) (b_sector b) v (b_next b) (b_qnext b) (b_data b).
Definition set_b_next (v : Z) (b : buf) : buf :=
  mk_buf (b_flags b) (b_dev b) (b_sector b) (b_prev b) v (b_qnext b) (b_data b).
Definition set_b_qnext (v : option Z) (b : buf) : buf :=
  mk_buf (b_flags b) (b_dev b) (b_sector b) (b_prev b) (b_next b) v (b_data b).
Definition set_b_data (v : list Z) (b : buf) : buf :=
  mk_buf (b_flags b) (b_dev b) (b_sector b) (b_prev b) (b_next b) (b_qnext b) v.

(** ** fs/log.c *)
Record logheader := mk_lh { lh_n : Z; lh_sector : gmap Z Z }.
Record log_t := mk_log {
  l_lock : spinlock; l_start : Z; l_size : Z; l_busy : Z; l_dev : Z; l_lh : logheader;
}.
#[export] Instance log_inhabited : Inhabited log_t :=
  populate (mk_log inhabitant 0 0 0 0 (mk_lh 0 ∅)).

Definition set_l_lock (v : spinlock) (l : log_t) : log_t :=
  mk_log v (l_start l) (l_size l) (l_busy l) (l_dev l) (l_lh l).
Definition set_l_busy (v : Z) (l : log_t) : log_t :=
  mk_log (l_lock l) (l_start l) (l_size l) v (l_dev l) (l_lh l).
Definition set_l_lh (v : logheader) (l : log_t) : log_t :=
  mk_log (l_lock l) (l_start l) (l_size l) (l_busy l) (l_dev l) v.

(** ** fs/inode.h, fs/file.h *)
Record inode := mk_inode {
  i_dev : Z; i_inum : Z; i_ref : Z; i_flags : Z;
  i_type : Z; i_major : Z; i_minor : Z; i_nlink : Z; i_size : Z;
  i_addrs : gmap Z Z;
}.
#[export] Instance inode_inhabited : Inhabited inode := populate (mk_inode 0 0 0 0 0 0 0 0 0 ∅).

Inductive file_type := FD_NONE | FD_PIPE | FD_INODE.
Record file := mk_file {
  fl_type : file_type; fl_ref : Z; fl_readable : Z; fl_writable : Z;
  fl_ip : ptr; fl_off : Z;
}.
#[export] Instance file_inhabited : Inhabited file := populate (mk_file FD_NONE 0 0 0 PNull 0).

(** fs/stat.h *)
Record file_stat_t := mk_stat { st_type : Z; st_dev : Z; st_ino : Z; st_nlink : Z; st_size : Z }.

(** fs/dinode.h *)
Record superblock := mk_sb { sb_size : Z; sb_nblocks : Z; sb_ninodes : Z; sb_nlog : Z }.

(** ** State *)

(** A sector of a disk: drive and address, as the controller gets them. *)
Notation image := (gmap (Z * Z) (list Z)).
Definition dread (d : image) (k : Z * Z) : list Z := default zero_block (d !! k).

Record fsys (T : Type) := mk_fsys {
  bc_lock : spinlock;             (* bcache.lock *)
  bufs : gmap Z buf;              (* bcache.buf and, at HEAD, bcache.head *)
  ide_lk : spinlock;
  idequeue : option Z;
  havedisk1 : Z;
  ide_fault : bool;               (* does the controller report an error? *)
  disk : image;
  past : list image;              (* earlier contents of the disk, latest first *)
  log : log_t;
  ic_lock : spinlock;             (* inode_cache.lock *)
  inodes : gmap Z inode;
  ft_lock : spinlock;             (* ftable.lock *)
  files : gmap Z file;
  kern : T;                       (* the rest of the kernel *)
}.
Arguments mk_fsys {T}.
Arguments bc_lock {T}. Arguments bufs {T}. Arguments ide_lk {T}. Arguments idequeue {T}.
Arguments havedisk1 {T}. Arguments ide_fault {T}. Arguments disk {T}. Arguments past {T}.
Arguments log {T}. Arguments ic_lock {T}. Arguments inodes {T}. Arguments ft_lock {T}.
Arguments files {T}. Arguments kern {T}.

(** What the file system uses of the rest of the kernel *)
Class FsKernel (T : Type) := {
  fk_kstack : T -> kstack;
  fk_wakeup : ptr -> M T unit;
  fk_mem : T -> mem;
  fk_set_mem : mem -> T -> T;
}.

Class FsKernelLaws (T : Type) `{FsKernel T} := {
  fk_inv : T -> Prop;
  fk_magic t : fk_inv t -> ks_magic (fk_kstack t) = KSTACK_MAGIC;
  fk_wakeup_law ch t : fk_inv t ->
    exists t', fk_wakeup ch t = Ok (tt, t') /\ fk_inv t' /\ fk_mem t' = fk_mem t;
  fk_mem_set m t : fk_mem (fk_set_mem m t) = m;
  fk_set_inv m t : fk_inv t -> fk_inv (fk_set_mem m t);
}.

(** The threads of Scheduler.v and kernel memory *)
#[export] Instance thr_mem_kernel : FsKernel (thr * mem) := {
  fk_kstack t := cur_kstack t.1;
  fk_wakeup ch := zoom fst (fun x t => (x, t.2)) (thread_wakeup ch);
  fk_mem := snd;
  fk_set_mem m t := (t.1, m);
}.
#[export] Instance thr_mem_kernel_laws : FsKernelLaws (thr * mem).
Proof.
  refine {| fk_inv t := exists a, so_rel t.1 a |}.
  - intros [t m] [a Ha]. exact (so_magic t a Ha).
  - intros ch [t m] [a Ha]. destruct (so_wakeup_law ch t a Ha) as (t' & E & Ha' & _).
    exists (t', m). cbn in *. unfold zoom. cbn. change (thread_wakeup ch t = Ok (tt, t')) in E.
    rewrite E. split_and!; [done|by eexists|done].
  - done.
  - intros m [t m0] H. exact H.
Defined.

Section Setters.
Context {T : Type}.
Implicit Type s : fsys T.

Definition set_bc_lock (v : spinlock) s : fsys T :=
  mk_fsys v (bufs s) (ide_lk s) (idequeue s) (havedisk1 s) (ide_fault s) (disk s) (past s) (log s)
    (ic_lock s) (inodes s) (ft_lock s) (files s) (kern s).
Definition set_bufs (v : gmap Z buf) s : fsys T :=
  mk_fsys (bc_lock s) v (ide_lk s) (idequeue s) (havedisk1 s) (ide_fault s) (disk s) (past s) (log s)
    (ic_lock s) (inodes s) (ft_lock s) (files s) (kern s).
Definition set_ide_lk (v : spinlock) s : fsys T :=
  mk_fsys (bc_lock s) (bufs s) v (idequeue s) (havedisk1 s) (ide_fault s) (disk s) (past s) (log s)
    (ic_lock s) (inodes s) (ft_lock s) (files s) (kern s).
Definition set_idequeue (v : option Z) s : fsys T :=
  mk_fsys (bc_lock s) (bufs s) (ide_lk s) v (havedisk1 s) (ide_fault s) (disk s) (past s) (log s)
    (ic_lock s) (inodes s) (ft_lock s) (files s) (kern s).
(** A sector of the disk is overwritten. *)
Definition disk_write (k : Z * Z) (d : list Z) s : fsys T :=
  mk_fsys (bc_lock s) (bufs s) (ide_lk s) (idequeue s) (havedisk1 s) (ide_fault s)
    (<[k := d]> (disk s)) (disk s :: past s) (log s)
    (ic_lock s) (inodes s) (ft_lock s) (files s) (kern s).
Definition set_log (v : log_t) s : fsys T :=
  mk_fsys (bc_lock s) (bufs s) (ide_lk s) (idequeue s) (havedisk1 s) (ide_fault s) (disk s) (past s) v
    (ic_lock s) (inodes s) (ft_lock s) (files s) (kern s).
Definition set_ic_lock (v : spinlock) s : fsys T :=
  mk_fsys (bc_lock s) (bufs s) (ide_lk s) (idequeue s) (havedisk1 s) (ide_fault s) (disk s) (past s) (log s)
    v (inodes s) (ft_lock s) (files s) (kern s).
Definition set_inodes (v : gmap Z inode) s : fsys T :=
  mk_fsys (bc_lock s) (bufs s) (ide_lk s) (idequeue s) (havedisk1 s) (ide_fault s) (disk s) (past s) (log s)
    (ic_lock s) v (ft_lock s) (files s) (kern s).
Definition set_ft_lock (v : spinlock) s : fsys T :=
  mk_fsys (bc_lock s) (bufs s) (ide_lk s) (idequeue s) (havedisk1 s) (ide_fault s) (disk s) (past s) (log s)
    (ic_lock s) (inodes s) v (files s) (kern s).
Definition set_files (v : gmap Z file) s : fsys T :=
  mk_fsys (bc_lock s) (bufs s) (ide_lk s) (idequeue s) (havedisk1 s) (ide_fault s) (disk s) (past s) (log s)
    (ic_lock s) (inodes s) (ft_lock s) v (kern s).
Definition set_kern (v : T) s : fsys T :=
  mk_fsys (bc_lock s) (bufs s) (ide_lk s) (idequeue s) (havedisk1 s) (ide_fault s) (disk s) (past s) (log s)
    (ic_lock s) (inodes s) (ft_lock s) (files s) v.
End Setters.

(** ** Flag tests *)
Lemma has_bit f k : 0 <= k -> Z.land f (2 ^ k) <> 0 <-> Z.testbit f k = true.
Proof.
  intros Hk. split.
  - intros H. destruct (Z.testbit f k) eqn:E; [done|]. exfalso. apply H.
    apply Z.bits_inj'. intros n Hn. rewrite Z.land_spec, Z.bits_0.
    destruct (decide (n = k)) as [->|Hne]; [by rewrite E|].
    rewrite Z.pow2_bits_false by done. apply andb_false_r.
  - intros E H. apply (f_equal (fun x => Z.testbit x k)) in H.
    rewrite Z.land_spec, E, Z.pow2_bits_true, Z.bits_0 in H by done. done.
Qed.
Lemma hasnt_bit f k : 0 <= k -> Z.land f (2 ^ k) = 0 <-> Z.testbit f k = false.
Proof.
  intros Hk. pose proof (has_bit f k Hk) as H. destruct (Z.testbit f k).
  - split; [|done]. intros E. exfalso. by apply (proj2 H).
  - split; [done|]. intros _. destruct (decide (Z.land f (2 ^ k) = 0)) as [|Hn]; [done|].
    apply (proj1 H) in Hn. done.
Qed.
