(* ===== verification/BufCache.v ===== *)
(** * Disk driver and buffer cache: dev/disk/ide.c, fs/bufcache.c

    The driver keeps a queue of requests; the head of the queue is being
    served.  The controller is modelled by what it does to the disk: a write
    command with its data overwrites the sector, a read gives the sector's
    contents when the interrupt is handled.  Sectors are written as a whole.

    [ide_rw] sleeps until its request is done.  Here the sleep is the next disk
    interrupt: the lock is released, [ide_intr] runs, the lock is taken
    again. *)

From S2P Require Import Prelude DList Machine Thread Scheduler KString Bytes FsData.

Section Ops.
Context {T : Type} `{!FsKernel T}.

Notation F := (M (fsys T)).

Definition buf_read {A} (i : Z) (f : buf -> A) : F A :=
  check_index (NBUF + 1) i ;; gets (fun s => f (bufs s !!! i)).
Definition upd_buf (i : Z) (f : buf -> buf) (s : fsys T) : fsys T :=
  set_bufs (<[i := f (bufs s !!! i)]> (bufs s)) s.
Definition buf_write (i : Z) (f : buf -> buf) : F unit :=
  check_index (NBUF + 1) i ;; modify (upd_buf i f).

(** [spinlock_acquire] and [spinlock_release] of a lock of the file system *)
Definition acquire (g : fsys T -> spinlock) (p : spinlock -> fsys T -> fsys T) : F unit :=
  s ← get; zoom g p (spinlock_acquire (fk_kstack (kern s))).
Definition release (g : fsys T -> spinlock) (p : spinlock -> fsys T -> fsys T) : F unit :=
  zoom g p spinlock_release.
Definition wakeup (ch : ptr) : F unit := zoom kern set_kern (fk_wakeup ch).

(** ** ide.c *)

(** The drive and sector that [ide_start] sends to the controller *)
Definition hw_addr (b : buf) : Z * Z := (Z.land (b_dev b) 1, Z.land (b_sector b) 0x0fffffff).

Definition ide_start (p : option Z) : F unit :=
  match p with
  | None => panic "ide_start"
  | Some i =>
      b ← buf_read i id;
      if decide (Z.land (b_flags b) B_DIRTY <> 0) then modify (disk_write (hw_addr b) (b_data b))
      else mret tt
  end.

(** [ide_wait(1)] after the command is done *)
Definition ide_wait_err : F Z := gets (fun s => if ide_fault s then -1 else 0).

Definition ide_intr : F unit :=
  acquire ide_lk set_ide_lk ;;
  q ← gets idequeue;
  match q with
  | None => release ide_lk set_ide_lk
  | Some i =>
      nxt ← buf_read i b_qnext;
      modify (set_idequeue nxt) ;;
      f ← buf_read i b_flags;
      r ← ide_wait_err;
      (if decide (Z.land f B_DIRTY = 0 /\ r >= 0) then
         k ← buf_read i hw_addr;
         d ← gets (fun s => dread (disk s) k);
         buf_write i (set_b_data d)
       else mret tt) ;;
      buf_write i (fun b => set_b_flags (Z.lor (b_flags b) B_VALID) b) ;;
      buf_write i (fun b => set_b_flags (Z.land (b_flags b) (Z.lnot B_DIRTY)) b) ;;
      wakeup (PBuf i) ;;
      q' ← gets idequeue;
      (match q' with None => mret tt | Some _ => ide_start q' end) ;;
      release ide_lk set_ide_lk
  end.

(** Follow [qnext] from a queued request to the last one and append [b]. *)
Fixpoint ide_append (fuel : nat) (p b : Z) : F unit :=
  match fuel with
  | O => fail Hang
  | S fuel =>
      n ← buf_read p b_qnext;
      match n with
      | None => buf_write p (set_b_qnext (Some b))
      | Some n => ide_append fuel n b
      end
  end.

(** A queue has at most [NBUF] requests. *)
Definition ide_fuel : nat := 11.

Definition synced (f : Z) : Prop := Z.land f (Z.lor B_VALID B_DIRTY) = B_VALID.
#[global] Instance synced_dec f : Decision (synced f).
Proof. unfold synced. apply _. Defined.

Fixpoint ide_rw_wait (fuel : nat) (b : Z) : F unit :=
  f ← buf_read b b_flags;
  if decide (synced f) then mret tt
  else
    match fuel with
    | O => fail Hang
    | S fuel =>
        release ide_lk set_ide_lk ;;
        ide_intr ;;
        acquire ide_lk set_ide_lk ;;
        ide_rw_wait fuel b
    end.

Definition ide_rw (b : Z) : F unit :=
  f ← buf_read b b_flags;
  if decide (Z.land f B_BUSY = 0) then panic "ide_rw: buf not busy"
  else if decide (synced f) then panic "ide_rw: nothing to do"
  else
    dev ← buf_read b b_dev;
    hd ← gets havedisk1;
    if decide (dev <> 0 /\ hd = 0) then panic "ide_rw: ide disk 1 not present"
    else
      acquire ide_lk set_ide_lk ;;
      buf_write b (set_b_qnext None) ;;
      q ← gets idequeue;
      (match q with
       | None => modify (set_idequeue (Some b))
       | Some p => ide_append ide_fuel p b
       end) ;;
      q ← gets idequeue;
      (if decide (q = Some b) then ide_start (Some b) else mret tt) ;;
      ide_rw_wait ide_fuel b ;;
      release ide_lk set_ide_lk.

(** ** bufcache.c *)

Definition bufcache_init : F unit :=
  zoom bc_lock set_bc_lock spinlock_init ;;
  buf_write HEAD (set_b_prev HEAD) ;;
  buf_write HEAD (set_b_next HEAD) ;;
  for_each (seqZ 0 NBUF) (fun b =>
    n ← buf_read HEAD b_next;
    buf_write b (set_b_next n) ;;
    buf_write b (set_b_prev HEAD) ;;
    buf_write b (set_b_dev (-1)) ;;
    n ← buf_read HEAD b_next;
    buf_write n (set_b_prev b) ;;
    buf_write HEAD (set_b_next b)).

(** The list has [NBUF] buffers. *)
Definition list_fuel : nat := 11.

(** [for (b = bcache.head.next; b != &bcache.head; b = b->next)] *)
Fixpoint find_cached (fuel : nat) (b dev sector : Z) : F (option Z) :=
  if decide (b = HEAD) then mret None
  else
    match fuel with
    | O => fail Hang
    | S fuel =>
        x ← buf_read b id;
        if decide (u32 (b_dev x) = dev /\ b_sector x = sector) then mret (Some b)
        else find_cached fuel (b_next x) dev sector
    end.

(** [for (b = bcache.head.prev; b != &bcache.head; b = b->prev)] *)
Fixpoint find_unused (fuel : nat) (b : Z) : F (option Z) :=
  if decide (b = HEAD) then mret None
  else
    match fuel with
    | O => fail Hang
    | S fuel =>
        x ← buf_read b id;
        if decide (Z.land (b_flags x) B_BUSY = 0 /\ Z.land (b_flags x) B_DIRTY = 0) then mret (Some b)
        else find_unused fuel (b_prev x)
    end.

Definition bufcache_get (dev sector : Z) : F Z :=
  acquire bc_lock set_bc_lock ;;
  h ← buf_read HEAD b_next;
  c ← find_cached list_fuel h dev sector;
  match c with
  | Some b =>
      f ← buf_read b b_flags;
      if decide (Z.land f B_BUSY = 0) then
        buf_write b (set_b_flags (Z.lor f B_BUSY)) ;;
        release bc_lock set_bc_lock ;;
        mret b
      else fail Spin (* thread_sleep until another process releases it *)
  | None =>
      t ← buf_read HEAD b_prev;
      u ← find_unused list_fuel t;
      match u with
      | Some b =>
          buf_write b (set_b_key B_BUSY (s32 dev) sector) ;;
          release bc_lock set_bc_lock ;;
          mret b
      | None => panic "bufcache_get: no buffers"
      end
  end.

Definition bufcache_read (dev sector : Z) : F Z :=
  b ← bufcache_get dev sector;
  f ← buf_read b b_flags;
  (if decide (Z.land f B_VALID = 0) then ide_rw b else mret tt) ;;
  mret b.

Definition bufcache_write (b : Z) : F unit :=
  f ← buf_read b b_flags;
  if decide (Z.land f B_BUSY = 0) then panic "bwrite"
  else
    buf_write b (set_b_flags (Z.lor f B_DIRTY)) ;;
    ide_rw b.

Definition bufcache_release (b : Z) : F unit :=
  f ← buf_read b b_flags;
  if decide (Z.land f B_BUSY = 0) then panic "brelse"
  else
    acquire bc_lock set_bc_lock ;;
    n ← buf_read b b_next;
    p ← buf_read b b_prev;
    buf_write n (set_b_prev p) ;;
    n ← buf_read b b_next;
    p ← buf_read b b_prev;
    buf_write p (set_b_next n) ;;
    h ← buf_read HEAD b_next;
    buf_write b (set_b_next h) ;;
    buf_write b (set_b_prev HEAD) ;;
    h ← buf_read HEAD b_next;
    buf_write h (set_b_prev b) ;;
    buf_write HEAD (set_b_next b) ;;
    buf_write b (fun x => set_b_flags (Z.land (b_flags x) (Z.lnot B_BUSY)) x) ;;
    wakeup (PBuf b) ;;
    release bc_lock set_bc_lock.
End Ops.

(** * Theory *)

Definition busy (b : buf) : bool := Z.testbit (b_flags b) 0.
Definition valid (b : buf) : bool := Z.testbit (b_flags b) 1.
Definition dirty (b : buf) : bool := Z.testbit (b_flags b) 2.

Lemma flag_busy b : Z.land (b_flags b) B_BUSY = 0 <-> busy b = false.
Proof. apply (hasnt_bit _ 0). lia. Qed.
Lemma flag_valid b : Z.land (b_flags b) B_VALID = 0 <-> valid b = false.
Proof. apply (hasnt_bit _ 1). lia. Qed.
Lemma flag_dirty b : Z.land (b_flags b) B_DIRTY = 0 <-> dirty b = false.
Proof. apply (hasnt_bit _ 2). lia. Qed.

Lemma synced_spec b : synced (b_flags b) <-> valid b = true /\ dirty b = false.
Proof.
  unfold synced, valid, dirty. change (Z.lor B_VALID B_DIRTY) with (Z.lor (2 ^ 1) (2 ^ 2)).
  change B_VALID with (2 ^ 1). split.
  - intros E. split; [apply (f_equal (fun x => Z.testbit x 1)) in E|apply (f_equal (fun x => Z.testbit x 2)) in E];
      rewrite Z.land_spec, andb_true_r in E; done.
  - intros [E1 E2]. apply Z.bits_inj'. intros n Hn. rewrite Z.land_spec, Z.lor_spec.
    destruct (decide (n = 1)) as [->|]; [by rewrite E1|].
    destruct (decide (n = 2)) as [->|]; [by rewrite E2|].
    rewrite !Z.pow2_bits_false by done. apply andb_false_r.
Qed.

Lemma lor_bit f k n : 0 <= k -> Z.testbit (Z.lor f (2 ^ k)) n = (Z.testbit f n || bool_decide (n = k))%bool.
Proof.
  intros Hk. rewrite Z.lor_spec. f_equal. case_bool_decide as E.
  - subst. by apply Z.pow2_bits_true.
  - by apply Z.pow2_bits_false.
Qed.
Lemma clear_bit f k n : 0 <= k -> 0 <= n ->
  Z.testbit (Z.land f (Z.lnot (2 ^ k))) n = (Z.testbit f n && negb (bool_decide (n = k)))%bool.
Proof.
  intros Hk Hn. rewrite Z.land_spec, Z.lnot_spec by done. do 2 f_equal. case_bool_decide as E.
  - subst. by apply Z.pow2_bits_true.
  - by apply Z.pow2_bits_false.
Qed.

Section Steps.
Context {T : Type} `{!FsKernel T} `{!FsKernelLaws T}.
Implicit Types s : fsys T.

Lemma buf_read_ok {A} i (f : buf -> A) s : 0 <= i <= NBUF -> buf_read i f s = Ok (f (bufs s !!! i), s).
Proof. intros. unfold buf_read. rewrite (bind_ok _ _ _ _ _ (check_index_ok (NBUF + 1) i s ltac:(lia))). done. Qed.
Lemma buf_write_ok i f s : 0 <= i <= NBUF -> buf_write i f s = Ok (tt, upd_buf i f s).
Proof. intros. unfold buf_write. rewrite (bind_ok _ _ _ _ _ (check_index_ok (NBUF + 1) i s ltac:(lia))). done. Qed.

Lemma upd_buf_lookup i f s j :
  bufs (upd_buf i f s) !!! j = if decide (i = j) then f (bufs s !!! i) else bufs s !!! j.
Proof. unfold upd_buf. cbn [bufs set_bufs]. apply lookup_total_upd. Qed.

Lemma acquire_ok g p s :
  fk_inv (kern s) -> lock (g s) = 0 ->
  acquire g p s = Ok (tt, p (held_lock (fk_kstack (kern s))) s).
Proof.
  intros Hk Hl. unfold acquire, get, zoom, mbind, M_bind.
  by rewrite spinlock_acquire_free by (try apply fk_magic; done).
Qed.
Lemma release_ok g p s : release (T := T) g p s = Ok (tt, p free_lock s).
Proof. done. Qed.
Lemma wakeup_ok ch s :
  fk_inv (kern s) ->
  exists t, wakeup ch s = Ok (tt, set_kern t s) /\ fk_inv t /\ fk_mem t = fk_mem (kern s).
Proof.
  intros Hk. destruct (fk_wakeup_law ch _ Hk) as (t & E & Hi & Hm). exists t. split_and!; [|done..].
  unfold wakeup, zoom. by rewrite E.
Qed.
End Steps.

(** Simplify projections of updated states. *)
Ltac fs_cbn := cbn [bc_lock bufs ide_lk idequeue havedisk1 ide_fault disk past log ic_lock inodes
  ft_lock files kern set_bc_lock set_bufs set_ide_lk set_idequeue disk_write set_log set_ic_lock
  set_inodes set_ft_lock set_files set_kern upd_buf].
Ltac fs_cbn_in H := cbn [bc_lock bufs ide_lk idequeue havedisk1 ide_fault disk past log ic_lock inodes
  ft_lock files kern set_bc_lock set_bufs set_ide_lk set_idequeue disk_write set_log set_ic_lock
  set_inodes set_ft_lock set_files set_kern upd_buf] in H.
Ltac b_cbn := unfold set_b_flags, set_b_key, set_b_dev, set_b_prev, set_b_next, set_b_qnext, set_b_data; cbn [b_flags b_dev b_sector b_prev b_next b_qnext b_data set_b_flags set_b_key set_b_dev
  set_b_prev set_b_next set_b_qnext set_b_data].
Ltac dec_refl := repeat match goal with
  |- context [decide (?x = ?x)] => rewrite (decide_True (P := x = x)) by reflexivity end.
Ltac fs_look := fs_cbn; repeat (rewrite lookup_total_upd; fs_cbn); dec_refl.
Lemma release_bind {T B} g p (k : unit -> M (fsys T) B) s :
  (release g p ≫= k) s = k tt (p free_lock s).
Proof. done. Qed.
(** Run one statement at the head of the goal. *)
Ltac in_bounds := unfold HEAD, NBUF in *; lia.
Ltac fstep :=
  match goal with
  | |- context [mbind (M := M (fsys ?T)) ?k (buf_read ?i ?f) ?s] =>
      rewrite (bind_ok (buf_read i f) k s _ _ (buf_read_ok i f s ltac:(in_bounds)))
  | |- context [mbind (M := M (fsys ?T)) ?k (buf_write ?i ?f) ?s] =>
      rewrite (bind_ok (buf_write i f) k s _ _ (buf_write_ok i f s ltac:(in_bounds)))
  | |- context [mbind ?k (gets ?f) ?s] => rewrite (gets_bind f k s)
  | |- context [mbind ?k (modify ?f) ?s] => rewrite (modify_bind f k s)
  | |- context [mbind ?k (mret ?f) ?s] => rewrite (mret_bind f k s)
  | |- context [mbind ?k (release ?g ?p) ?s] => rewrite (release_bind g p k s)
  end.

(** Take a lock that is free. *)
Tactic Notation "facquire" uconstr(Hk) uconstr(Hl) :=
  match goal with |- context [mbind ?k (acquire ?g ?p) ?x] =>
    rewrite (bind_ok _ k _ _ _ (acquire_ok g p x Hk Hl)) end.

Section Driver.
Context {T : Type} `{!FsKernel T} `{!FsKernelLaws T}.
Implicit Types s : fsys T.

(** No request is pending and both disks work. *)
Record ide_idle s : Prop := {
  id_kern : fk_inv (kern s);
  id_lock : lock (ide_lk s) = 0;
  id_queue : idequeue s = None;
  id_disk1 : havedisk1 s <> 0;
  id_fault : ide_fault s = false;
}.

(** The parts of the state that the layers below the log never change *)
Record same_rest s s' : Prop := {
  sr_log : log s' = log s;
  sr_ic_lock : ic_lock s' = ic_lock s;
  sr_inodes : inodes s' = inodes s;
  sr_ft_lock : ft_lock s' = ft_lock s;
  sr_files : files s' = files s;
  sr_mem : fk_mem (kern s') = fk_mem (kern s);
}.
Lemma same_rest_refl s : same_rest s s.
Proof. done. Qed.
Lemma same_rest_trans s1 s2 s3 : same_rest s1 s2 -> same_rest s2 s3 -> same_rest s1 s3.
Proof. intros [] []. split; congruence. Qed.

(** Flags and data of a buffer after its request is done *)
Definition done_buf (d : list Z) (b : buf) : buf :=
  mk_buf (Z.land (Z.lor (b_flags b) B_VALID) (Z.lnot B_DIRTY)) (b_dev b) (b_sector b) (b_prev b)
    (b_next b) None (if dirty b then b_data b else d).

(** The effect of a request on the disk *)
Definition request_effect (b : buf) s s' : Prop :=
  if dirty b then disk s' = <[hw_addr b := b_data b]> (disk s) /\ past s' = disk s :: past s
  else disk s' = disk s /\ past s' = past s.

Lemma ide_intr_spec i s :
  0 <= i < NBUF -> fk_inv (kern s) -> lock (ide_lk s) = 0 -> idequeue s = Some i ->
  b_qnext (bufs s !!! i) = None -> ide_fault s = false ->
  exists t, fk_inv t /\ fk_mem t = fk_mem (kern s) /\ ide_intr s = Ok (tt,
    set_kern t (set_ide_lk free_lock (set_idequeue None
      (set_bufs (<[i := done_buf (dread (disk s) (hw_addr (bufs s !!! i))) (bufs s !!! i)]> (bufs s)) s)))).
Proof.
  intros Hi Hk Hl Hq Hn Hf. unfold ide_intr.
  facquire Hk Hl. fstep. fs_cbn. rewrite Hq.
  fstep. fs_cbn. rewrite Hn. fstep. fstep. fs_cbn. unfold ide_wait_err. fstep. fs_cbn. rewrite Hf.
  set (b := bufs s !!! i) in *.
  destruct (decide (Z.land (b_flags b) B_DIRTY = 0 /\ 0 >= 0)) as [[Hd _]|Hd].
  - apply flag_dirty in Hd. rewrite bind_assoc. fstep. rewrite bind_assoc. fstep. fstep. fstep. fstep.
    match goal with |- context [mbind ?k (wakeup ?c) ?x] =>
      destruct (wakeup_ok c x Hk) as (t & E & Ht & Hm); rewrite (bind_ok _ k _ _ _ E) end.
    fstep. fs_cbn. fstep. exists t. split_and!; [done..|]. rewrite release_ok.
    unfold set_ide_lk, set_idequeue, set_bufs, set_kern. fs_look.
    rewrite !insert_insert_eq. unfold done_buf. fold b. b_cbn. by rewrite Hd, Hn.
  - assert (dirty b = true) as Hd'.
    { destruct (dirty b) eqn:E; [done|]. exfalso. apply Hd. split; [by apply flag_dirty|done]. }
    fstep. fstep. fstep.
    match goal with |- context [mbind ?k (wakeup ?c) ?x] =>
      destruct (wakeup_ok c x Hk) as (t & E & Ht & Hm); rewrite (bind_ok _ k _ _ _ E) end.
    fstep. fs_cbn. fstep. exists t. split_and!; [done..|]. rewrite release_ok.
    unfold set_ide_lk, set_idequeue, set_bufs, set_kern. fs_look.
    rewrite !insert_insert_eq. unfold done_buf. fold b. b_cbn. by rewrite Hd', Hn.
Qed.

Lemma done_buf_flags d b :
  busy (done_buf d b) = busy b /\ valid (done_buf d b) = true /\ dirty (done_buf d b) = false.
Proof.
  unfold busy, valid, dirty, done_buf. cbn [b_flags]. change B_VALID with (2 ^ 1).
  change B_DIRTY with (2 ^ 2). rewrite !clear_bit, !lor_bit by lia. cbn.
  by rewrite !orb_false_r, !andb_true_r, orb_true_r, andb_false_r.
Qed.

Lemma ide_rw_wait_spec i s :
  0 <= i < NBUF -> fk_inv (kern s) -> idequeue s = Some i ->
  b_qnext (bufs s !!! i) = None -> ide_fault s = false -> ~ synced (b_flags (bufs s !!! i)) ->
  exists t lk, fk_inv t /\ fk_mem t = fk_mem (kern s) /\ ide_rw_wait ide_fuel i s = Ok (tt,
    set_ide_lk lk (set_kern t (set_idequeue None
      (set_bufs (<[i := done_buf (dread (disk s) (hw_addr (bufs s !!! i))) (bufs s !!! i)]> (bufs s)) s)))).
Proof.
  intros Hi Hk Hq Hn Hf Hs. unfold ide_fuel. cbn [ide_rw_wait]. fstep. rewrite decide_False by done. fstep.
  destruct (ide_intr_spec i (set_ide_lk free_lock s)) as (t & Ht & Hm & E); [done..|].
  rewrite (bind_ok _ _ _ _ _ E). facquire Ht eq_refl.
  cbn [ide_rw_wait]. fstep. fs_look.
  rewrite decide_True by (apply synced_spec; apply done_buf_flags).
  exists t. eexists. split_and!; [done..|]. reflexivity.
Qed.

Lemma ide_rw_spec i s (b := bufs s !!! i) :
  0 <= i < NBUF -> ide_idle s -> busy b = true -> ~ synced (b_flags b) ->
  exists s', ide_rw i s = Ok (tt, s') /\ ide_idle s' /\ same_rest s s' /\ bc_lock s' = bc_lock s
    /\ request_effect b s s'
    /\ forall j, bufs s' !!! j =
        if decide (i = j) then done_buf (dread (disk s) (hw_addr b)) b else bufs s !!! j.
Proof.
  intros Hi [Hk Hl Hq Hd1 Hf] Hb Hs. unfold ide_rw. fstep. fold b.
  rewrite decide_False by (rewrite flag_busy; congruence). rewrite decide_False by done.
  fstep. fstep. rewrite decide_False by tauto.
  facquire Hk Hl. fstep. fstep. fs_cbn. rewrite Hq.
  fstep. fstep. fs_cbn. rewrite decide_True by done.
  unfold ide_start. rewrite bind_assoc. fstep. fs_look. fold b.
  match goal with |- context [mbind ?k ?m ?x] => assert (exists x',
    m x = Ok (tt, x') /\ bufs x' = bufs x /\ kern x' = kern x /\ idequeue x' = idequeue x
    /\ ide_fault x' = ide_fault x /\ havedisk1 x' = havedisk1 x /\ bc_lock x' = bc_lock x
    /\ same_rest s x' /\ request_effect b s x'
    /\ (dirty b = false -> disk x' = disk s)) as (x' & E & Eb & Ek & Eq & Ef & Eh & El & Er & Ee & Ed) end.
  { unfold id. b_cbn. change (Z.land (b_flags b) B_DIRTY <> 0) with (~ Z.land (b_flags b) B_DIRTY = 0).
    rewrite (decide_ext _ (dirty b = true)) by (rewrite flag_dirty; by destruct (dirty b)).
    unfold request_effect. destruct (dirty b) eqn:Hd.
    - rewrite decide_True by done. eexists. split; [reflexivity|]. by split_and!.
    - rewrite decide_False by done. eexists. split; [reflexivity|]. by split_and!. }
  rewrite (bind_ok _ _ _ _ _ E). fs_cbn_in Eb. fs_cbn_in Ek. fs_cbn_in Eq. fs_cbn_in Ef. fs_cbn_in Eh. fs_cbn_in El.
  assert (bufs x' !!! i = set_b_qnext None b) as Ebi.
  { rewrite Eb, lookup_total_upd, decide_True by done. done. }
  destruct (ide_rw_wait_spec i x') as (t & lk & Ht & Hm & E'); [done|congruence|done| | |..].
  { by rewrite Ebi. }
  { congruence. }
  { by rewrite Ebi. }
  rewrite (bind_ok _ _ _ _ _ E'). rewrite release_ok. eexists. split; [reflexivity|].
  rewrite Ebi, Eb. split_and!.
  - split; fs_cbn; try done; congruence.
  - destruct Er. split; fs_cbn; congruence.
  - done.
  - unfold request_effect in *. destruct (dirty b); done.
  - intros j. fs_look. destruct (decide (i = j)) as [<-|]; [|done].
    unfold done_buf, hw_addr. b_cbn. change (dirty (mk_buf (b_flags b) (b_dev b) (b_sector b) (b_prev b)
      (b_next b) None (b_data b))) with (dirty b).
    destruct (dirty b); [done|]. by rewrite Ed.
Qed.
End Driver.

(** ** What the cache represents

    [dk] is what the root disk holds, [L] what the file system sees: the
    contents of cached blocks where they differ from the disk.  [P] are the
    sectors pinned in the cache (dirty), [H] the sectors of the buffers the
    process holds, with the buffers. *)
Definition oksec (sec : Z) : Prop := 0 <= sec < 2 ^ 28.
Definition upd_blk (L : Z -> list Z) (sec : Z) (d : list Z) : Z -> list Z :=
  fun x => if decide (x = sec) then d else L x.

Section Cache.
Context {T : Type} `{!FsKernel T} `{!FsKernelLaws T}.
Implicit Types s : fsys T.

Definition nx s (i : Z) : Z := b_next (bufs s !!! i).
Definition pv s (i : Z) : Z := b_prev (bufs s !!! i).
Definition lru s (l : list Z) : Prop :=
  dlist HEAD (nx s) (pv s) (nx s HEAD) (pv s HEAD) l /\ forall i, i ∈ l <-> 0 <= i < NBUF.
(** Does buffer [i] hold sector [sec] of the root disk? *)
Definition holds s (sec i : Z) : Prop :=
  0 <= i < NBUF /\ b_dev (bufs s !!! i) = ROOTDEV /\ b_sector (bufs s !!! i) = sec.

Record crep s (dk L : Z -> list Z) (P : gset Z) (H : gmap Z Z) : Prop := {
  cr_idle : ide_idle s;
  cr_lock : lock (bc_lock s) = 0;
  cr_list : exists l, lru s l;
  cr_dev i : 0 <= i < NBUF -> (holds s (b_sector (bufs s !!! i)) i /\ oksec (b_sector (bufs s !!! i)))
    \/ (b_dev (bufs s !!! i) = -1 /\ busy (bufs s !!! i) = false /\ dirty (bufs s !!! i) = false);
  cr_uniq sec i j : holds s sec i -> holds s sec j -> i = j;
  cr_busy i : 0 <= i < NBUF -> busy (bufs s !!! i) = true -> H !! b_sector (bufs s !!! i) = Some i;
  cr_held sec i : H !! sec = Some i ->
    holds s sec i /\ busy (bufs s !!! i) = true /\ valid (bufs s !!! i) = true;
  cr_dirty i : 0 <= i < NBUF -> dirty (bufs s !!! i) = true ->
    b_sector (bufs s !!! i) ∈ P /\ valid (bufs s !!! i) = true;
  cr_pin sec : sec ∈ P -> exists i, holds s sec i /\ dirty (bufs s !!! i) = true;
  cr_data sec i : holds s sec i -> valid (bufs s !!! i) = true -> b_data (bufs s !!! i) = L sec;
  cr_clean sec : oksec sec -> sec ∉ P -> H !! sec = None -> L sec = dk sec;
  cr_disk sec : oksec sec -> dread (disk s) (ROOTDEV, sec) = dk sec;
  cr_len sec : oksec sec -> length (L sec) = 512%nat /\ length (dk sec) = 512%nat;
}.

(** Views are compared pointwise. *)
Lemma crep_ext s dk L dk' L' P H :
  crep s dk L P H -> (forall x, oksec x -> dk' x = dk x) -> (forall x, oksec x -> L' x = L x) ->
  crep s dk' L' P H.
Proof.
  intros C Hd HL. destruct C as [? ? ? Hdev ? ? ? ? ? Hdata Hclean Hdisk Hlen]. split; try done.
  - intros sec i Hh Hv. rewrite HL; [by apply Hdata|]. destruct (Hdev i (proj1 Hh)) as [[_ Ho]|[Hx _]].
    + by destruct Hh as (_ & _ & <-).
    + destruct Hh as (_ & Hh & _). by rewrite Hx in Hh.
  - intros x Hx ??. rewrite HL, Hd by done. by apply Hclean.
  - intros x Hx. rewrite Hd by done. by apply Hdisk.
  - intros x Hx. rewrite HL, Hd by done. by apply Hlen.
Qed.

(** A held buffer *)
Lemma crep_held_buf s dk L P H sec i :
  crep s dk L P H -> H !! sec = Some i ->
  0 <= i < NBUF /\ b_dev (bufs s !!! i) = ROOTDEV /\ b_sector (bufs s !!! i) = sec /\ oksec sec
  /\ busy (bufs s !!! i) = true /\ valid (bufs s !!! i) = true /\ b_data (bufs s !!! i) = L sec.
Proof.
  intros C Hh. destruct (cr_held _ _ _ _ _ C _ _ Hh) as ((Hi & Hd & Hs) & Hb & Hv).
  split_and!; try done; try lia.
  - destruct (cr_dev _ _ _ _ _ C i Hi) as [[_ Ho]|[Hx _]]; [by rewrite Hs in Ho|].
    rewrite Hd in Hx. done.
  - apply (cr_data _ _ _ _ _ C); done.
Qed.

(** *** The loops over the list *)
Lemma find_cached_spec s dev sector : forall l p fuel,
  seg (nx s) (pv s) p l HEAD -> (forall i, i ∈ l -> 0 <= i < NBUF) -> (length l <= fuel)%nat ->
  exists r, find_cached fuel (hd_or HEAD l) dev sector s = Ok (r, s) /\
    match r with
    | Some i => i ∈ l /\ u32 (b_dev (bufs s !!! i)) = dev /\ b_sector (bufs s !!! i) = sector
    | None => forall i, i ∈ l -> ~ (u32 (b_dev (bufs s !!! i)) = dev /\ b_sector (bufs s !!! i) = sector)
    end.
Proof.
  induction l as [|x l IH]; intros p fuel Hs Hr Hf; cbn [hd_or].
  - exists None. split; [by destruct fuel|]. intros i []%elem_of_nil.
  - destruct fuel as [|fuel]; [cbn in Hf; lia|]. destruct Hs as (_ & En & Hs).
    pose proof (Hr x ltac:(by left)) as Hx. cbn [find_cached].
    rewrite decide_False by (unfold HEAD; lia). fstep. unfold id.
    destruct (decide (u32 (b_dev (bufs s !!! x)) = dev /\ b_sector (bufs s !!! x) = sector)) as [E|E].
    + exists (Some x). split; [done|]. split; [by left|done].
    + change (b_next (bufs s !!! x)) with (nx s x). rewrite En.
      destruct (IH x fuel Hs) as (r & Er & Hres); [|cbn in Hf; lia|].
      { intros i Hi. apply Hr. by right. }
      exists r. split; [done|]. destruct r as [i|].
      * destruct Hres as [Hin Hm]. split; [by right|done].
      * intros i [->|Hin]%elem_of_cons; [done|]. by apply Hres.
Qed.

Definition unused (b : buf) : Prop := busy b = false /\ dirty b = false.

Lemma find_unused_spec s : forall l q fuel,
  seg (nx s) (pv s) HEAD l q -> (forall i, i ∈ l -> 0 <= i < NBUF) -> (length l <= fuel)%nat ->
  exists r, find_unused fuel (last_or HEAD l) s = Ok (r, s) /\
    match r with
    | Some i => i ∈ l /\ unused (bufs s !!! i)
    | None => forall i, i ∈ l -> ~ unused (bufs s !!! i)
    end.
Proof.
  induction l as [|x l IH] using rev_ind; intros q fuel Hs Hr Hf.
  - exists None. split; [by destruct fuel|]. intros i []%elem_of_nil.
  - rewrite length_app in Hf. cbn in Hf. destruct fuel as [|fuel]; [lia|].
    apply seg_app in Hs as [Hs1 Hs2]. destruct Hs2 as (Ep & _ & _).
    pose proof (Hr x ltac:(set_solver)) as Hx. rewrite last_or_snoc. cbn [find_unused].
    rewrite decide_False by (unfold HEAD; lia). fstep. unfold id.
    destruct (decide (Z.land (b_flags (bufs s !!! x)) B_BUSY = 0 /\ Z.land (b_flags (bufs s !!! x)) B_DIRTY = 0))
      as [E|E]; rewrite flag_busy, flag_dirty in E.
    + exists (Some x). split; [done|]. split; [|done]. apply elem_of_app. right. by left.
    + change (b_prev (bufs s !!! x)) with (pv s x). rewrite Ep.
      destruct (IH (hd_or q [x]) fuel) as (r & Er & Hres); [done| |lia|].
      { intros i Hi. apply Hr. apply elem_of_app. by left. }
      exists r. split; [done|]. destruct r as [i|].
      * destruct Hres as [Hin Hm]. split; [|done]. apply elem_of_app. by left.
      * intros i [Hin|[->|[]%elem_of_nil]%elem_of_cons]%elem_of_app; [by apply Hres|done].
Qed.
(** *** Changing one buffer *)
Definition changes_at (i : Z) (b' : buf) s s' : Prop :=
  forall j, bufs s' !!! j = if decide (i = j) then b' else bufs s !!! j.

Lemma lru_touch s s' i b' l :
  lru s l -> changes_at i b' s s' -> b_next b' = nx s i -> b_prev b' = pv s i -> lru s' l.
Proof.
  intros [Hl Hm] Hc Hn Hp. split; [|done].
  assert (forall y, nx s' y = nx s y /\ pv s' y = pv s y) as E.
  { intros y. unfold nx, pv. rewrite (Hc y). destruct (decide (i = y)) as [<-|]; done. }
  destruct (E HEAD) as [-> ->]. eapply dlist_ext; [exact Hl|]. intros y _. apply E.
Qed.

(** The held buffer [i] of sector [sec] is taken or changed. *)
Record hold_step s s' (i : Z) (b' : buf) (sec : Z) (dk L dk' L' : Z -> list Z) (P P' : gset Z)
    (H : gmap Z Z) : Prop := {
  hs_change : changes_at i b' s s';
  hs_range : 0 <= i < NBUF;
  hs_sec : oksec sec;
  hs_next : b_next b' = nx s i;
  hs_prev : b_prev b' = pv s i;
  hs_key : b_dev b' = ROOTDEV /\ b_sector b' = sec;
  hs_flags : busy b' = true /\ valid b' = true;
  hs_data : b_data b' = L' sec;
  hs_others j : j <> i -> ~ holds s sec j;
  hs_old : holds s sec i \/ unused (bufs s !!! i);
  hs_dirty : dirty b' = true <-> sec ∈ P';
  hs_pin x : x <> sec -> x ∈ P' <-> x ∈ P;
  hs_view x : x <> sec -> L' x = L x;
  hs_dk x : x <> sec -> dk' x = dk x;
  hs_disk x : oksec x -> dread (disk s') (ROOTDEV, x) = dk' x;
  hs_len : length (L' sec) = 512%nat /\ length (dk' sec) = 512%nat;
}.

Lemma hold_step_holds s s' i b' sec dk L dk' L' P P' H x j :
  hold_step s s' i b' sec dk L dk' L' P P' H ->
  holds s' x j <-> (j = i /\ x = sec) \/ (j <> i /\ holds s x j).
Proof.
  intros [Hc Hr _ _ _ [Hd Hs] _ _ _ _ _ _ _ _ _ _]. unfold holds. rewrite (Hc j).
  destruct (decide (i = j)) as [<-|Hne]; [|naive_solver]. naive_solver.
Qed.

(** Another buffer with a state flag set does not hold [sec]. *)
Lemma hold_step_other s s' i b' sec dk L dk' L' P P' H j :
  crep s dk L P H -> hold_step s s' i b' sec dk L dk' L' P P' H -> 0 <= j < NBUF -> j <> i ->
  busy (bufs s !!! j) = true \/ dirty (bufs s !!! j) = true -> b_sector (bufs s !!! j) <> sec.
Proof.
  intros C Hst Hj Hne Hf <-. destruct (cr_dev _ _ _ _ _ C j Hj) as [[Hh _]|(_ & Hb & Hd)].
  - by apply (hs_others _ _ _ _ _ _ _ _ _ _ _ _ Hst j).
  - destruct Hf; congruence.
Qed.

(** The buffer [i] did not hold another sector in use. *)
Lemma hold_step_self s s' i b' sec dk L dk' L' P P' H x :
  hold_step s s' i b' sec dk L dk' L' P P' H -> holds s x i ->
  busy (bufs s !!! i) = true \/ dirty (bufs s !!! i) = true -> x = sec.
Proof.
  intros Hst (_ & _ & <-) Hf. destruct (hs_old _ _ _ _ _ _ _ _ _ _ _ _ Hst) as [(_ & _ & ?)|[Hb Hd]]; [done|].
  destruct Hf; congruence.
Qed.

Lemma crep_hold s s' i b' sec dk L dk' L' P P' H :
  crep s dk L P H -> hold_step s s' i b' sec dk L dk' L' P P' H ->
  ide_idle s' -> lock (bc_lock s') = 0 -> crep s' dk' L' P' (<[sec := i]> H).
Proof.
  intros C Hst Hid Hlk. pose proof (fun x j => hold_step_holds s s' i b' sec dk L dk' L' P P' H x j Hst) as Hh.
  pose proof (fun x => hold_step_self s s' i b' sec dk L dk' L' P P' H x Hst) as Hself.
  pose proof (fun j => hold_step_other s s' i b' sec dk L dk' L' P P' H j C Hst) as Hoth.
  destruct Hst as [Hc Hr Hsec Hn Hp [Hd Hs] [Hb Hv] Hdat Ho Hold Hdt Hpin Hview Hdk Hdisk Hlen].
  assert (forall j, j <> i -> bufs s' !!! j = bufs s !!! j) as Hsame.
  { intros j Hj. rewrite (Hc j). by rewrite decide_False. }
  assert (bufs s' !!! i = b') as Hi by (rewrite (Hc i); by rewrite decide_True).
  split; try done.
  - destruct (cr_list _ _ _ _ _ C) as [l Hl]. exists l. by eapply lru_touch.
  - intros j Hj. destruct (decide (j = i)) as [->|Hne].
    + left. rewrite Hi, Hs. split; [|done]. apply Hh. by left.
    + rewrite Hsame by done. destruct (cr_dev _ _ _ _ _ C j Hj) as [[Hx Hk]|Hx]; [left|by right].
      split; [|done]. apply Hh. by right.
  - intros x j k [[-> ->]|[Hj Hx]]%Hh [[-> Hq]|[Hk Hy]]%Hh; try done.
    + exfalso. by apply (Ho k).
    + subst. exfalso. by apply (Ho j).
    + by eapply (cr_uniq _ _ _ _ _ C).
  - intros j Hj Hbj. destruct (decide (j = i)) as [->|Hne].
    + rewrite Hi, Hs. apply lookup_insert_eq.
    + rewrite Hsame in * by done. rewrite lookup_insert_ne; [by apply (cr_busy _ _ _ _ _ C)|].
      intros E. apply (Hoth j); auto.
  - intros x k Hx. destruct (decide (x = sec)) as [->|Hne].
    + rewrite lookup_insert_eq in Hx. injection Hx as <-. rewrite Hi. split; [|done]. apply Hh. by left.
    + rewrite lookup_insert_ne in Hx by done. destruct (cr_held _ _ _ _ _ C _ _ Hx) as (Hk & Hbk & Hvk).
      assert (k <> i) as Hki by (intros ->; apply Hne, (Hself x); auto).
      rewrite Hsame by done. split; [|done]. apply Hh. by right.
  - intros j Hj Hdj. destruct (decide (j = i)) as [->|Hne].
    + rewrite Hi in *. rewrite Hs. split; [|done]. by apply Hdt.
    + rewrite Hsame in * by done. destruct (cr_dirty _ _ _ _ _ C j Hj Hdj) as [Hin Hvj].
      split; [|done]. apply Hpin; [|done]. apply (Hoth j); auto.
  - intros x Hx. destruct (decide (x = sec)) as [->|Hne].
    + exists i. rewrite Hi. split; [apply Hh; by left|by apply Hdt].
    + apply (Hpin x Hne) in Hx. destruct (cr_pin _ _ _ _ _ C x Hx) as (k & Hk & Hdk').
      assert (k <> i) as Hki by (intros ->; apply Hne, (Hself x); auto).
      exists k. rewrite Hsame by done. split; [|done]. apply Hh. by right.
  - intros x j [[-> ->]|[Hj Hx]]%Hh Hvj; [by rewrite Hi|]. rewrite Hsame in * by done.
    rewrite Hview; [by apply (cr_data _ _ _ _ _ C)|]. intros ->. by apply (Ho j).
  - intros x Hx HP HH. destruct (decide (x = sec)) as [->|Hne].
    + rewrite lookup_insert_eq in HH. done.
    + rewrite lookup_insert_ne in HH by done. rewrite Hview, Hdk by done.
      apply (cr_clean _ _ _ _ _ C); [done| |done]. intros Hx'. apply HP. by apply Hpin.
  - intros x Hx. destruct (decide (x = sec)) as [->|Hne]; [done|].
    rewrite Hview, Hdk by done. by apply (cr_len _ _ _ _ _ C).
Qed.
(** *** Getting a block *)
Lemma crep_full s dk L P H :
  crep s dk L P H -> (forall i, 0 <= i < NBUF -> ~ unused (bufs s !!! i)) ->
  (10 <= size (P ∪ dom H))%nat.
Proof.
  intros C Hu. set (sec := fun i => b_sector (bufs s !!! i)).
  assert (forall i, 0 <= i < NBUF -> holds s (sec i) i /\ sec i ∈ P ∪ dom H) as Hall.
  { intros i Hi. split.
    - destruct (cr_dev _ _ _ _ _ C i Hi) as [[? _]|(_ & Hb & Hd)]; [done|]. by destruct (Hu i Hi).
    - apply elem_of_union. destruct (busy (bufs s !!! i)) eqn:Hb.
      + right. apply elem_of_dom. exists i. by apply (cr_busy _ _ _ _ _ C).
      + left. destruct (dirty (bufs s !!! i)) eqn:Hd; [by apply (cr_dirty _ _ _ _ _ C)|]. by destruct (Hu i Hi). }
  assert (NoDup (sec <$> seqZ 0 NBUF)) as Hnd.
  { apply NoDup_fmap_2_strong; [|apply NoDup_seqZ]. intros i j Hi%elem_of_seqZ Hj%elem_of_seqZ E.
    apply (cr_uniq _ _ _ _ _ C (sec i)); [apply Hall; lia|]. rewrite E. apply Hall. lia. }
  transitivity (length (sec <$> seqZ 0 NBUF)); [by rewrite length_fmap, length_seqZ|].
  rewrite <- (size_list_to_set (C := gset Z)) by done. apply subseteq_size.
  intros x Hx%elem_of_list_to_set. apply list_elem_of_fmap in Hx as (i & -> & Hi%elem_of_seqZ).
  apply Hall. lia.
Qed.

Lemma lru_length s l : lru s l -> (length l <= 10)%nat.
Proof.
  intros [[_ _ _ Hnd _] Hm]. pose proof (nodup_range_length NBUF l ltac:(done) Hnd (fun x => proj1 (Hm x))).
  unfold NBUF in *. lia.
Qed.

Record got s s' (sec i : Z) (b : buf) : Prop := {
  gt_rest : same_rest s s' /\ disk s' = disk s /\ past s' = past s /\ ide_idle s' /\ lock (bc_lock s') = 0;
  gt_change : changes_at i b s s';
  gt_range : 0 <= i < NBUF;
  gt_links : b_next b = nx s i /\ b_prev b = pv s i;
  gt_key : b_dev b = ROOTDEV /\ b_sector b = sec;
  gt_busy : busy b = true;
  gt_others j : j <> i -> ~ holds s sec j;
  gt_old : (holds s sec i /\ valid b = valid (bufs s !!! i) /\ dirty b = dirty (bufs s !!! i)
            /\ b_data b = b_data (bufs s !!! i))
           \/ (unused (bufs s !!! i) /\ ~ holds s sec i /\ valid b = false /\ dirty b = false);
}.

Lemma bufcache_get_spec s dk L P H sec :
  crep s dk L P H -> oksec sec -> H !! sec = None -> sec ∈ P \/ (size (P ∪ dom H) < 10)%nat ->
  exists i s' b, bufcache_get ROOTDEV sec s = Ok (i, s') /\ got s s' sec i b.
Proof.
  intros C Hsec Hno Hsz. pose proof (cr_idle _ _ _ _ _ C) as [Hk Hl Hq Hd1 Hf].
  destruct (cr_list _ _ _ _ _ C) as [l Hlru]. pose proof (lru_length s l Hlru) as Hlen.
  pose proof Hlru as [[Hh Ht Hseg _ _] Hm].
  assert (forall i, 0 <= i < NBUF -> u32 (b_dev (bufs s !!! i)) = ROOTDEV /\ b_sector (bufs s !!! i) = sec
    <-> holds s sec i) as Hmatch.
  { intros i Hi. unfold holds. destruct (cr_dev _ _ _ _ _ C i Hi) as [[(_ & E & _) _]|[E _]]; rewrite E; naive_solver. }
  unfold bufcache_get. facquire Hk (cr_lock _ _ _ _ _ C). fstep. fs_cbn. fold (nx s HEAD). rewrite Hh.
  set (s0 := set_bc_lock (held_lock (fk_kstack (kern s))) s).
  destruct (find_cached_spec s0 ROOTDEV sec l HEAD list_fuel) as (r & Er & Hr);
    [done|intros i; apply Hm|unfold list_fuel; lia|]. rewrite (bind_ok _ _ _ _ _ Er).
  destruct r as [i|].
  - destruct Hr as [Hin Hr]. apply Hm in Hin as Hi. apply (Hmatch i Hi) in Hr as Hhold.
    assert (busy (bufs s !!! i) = false) as Hnb.
    { destruct (busy (bufs s !!! i)) eqn:E; [|done]. pose proof (cr_busy _ _ _ _ _ C i Hi E) as Hx.
      destruct Hhold as (_ & _ & Es). rewrite Es in Hx. congruence. }
    fstep. rewrite decide_True by (apply flag_busy; exact Hnb). fstep. fstep.
    exists i. eexists. exists (set_b_flags (Z.lor (b_flags (bufs s !!! i)) B_BUSY) (bufs s !!! i)).
    split; [reflexivity|]. destruct Hhold as (_ & Hdev & Hsect). split; try done.
    + intros j. fs_look. done.
    + unfold busy, set_b_flags. cbn [b_flags]. rewrite (lor_bit _ 0) by lia. apply orb_true_r.
    + intros j Hj Hx. apply Hj. by eapply (cr_uniq _ _ _ _ _ C).
    + left. unfold valid, dirty, set_b_flags. cbn [b_flags b_data]. rewrite !(lor_bit _ 0) by lia. cbn.
      by rewrite !orb_false_r.
  - fstep. change (b_prev (bufs s0 !!! HEAD)) with (pv s HEAD). rewrite Ht.
    destruct (find_unused_spec s0 l HEAD list_fuel) as (u & Eu & Hu);
      [done|intros i; apply Hm|unfold list_fuel; lia|]. rewrite (bind_ok _ _ _ _ _ Eu).
    destruct u as [i|]; [|exfalso].
    + destruct Hu as [Hin Hu]. apply Hm in Hin as Hi. fstep. fstep.
      exists i. eexists. exists (set_b_key B_BUSY (s32 ROOTDEV) sec (bufs s !!! i)).
      split; [reflexivity|]. split; try done.
      * intros j. fs_look. done.
      * intros j _ Hx. apply (Hr j); [apply Hm, Hx|]. apply Hmatch; [apply Hx|done].
      * right. split_and!; try done. intros Hx. apply (Hr i); [done|]. by apply Hmatch.
    + destruct Hsz as [HP|Hsz].
      { destruct (cr_pin _ _ _ _ _ C sec HP) as (k & Hkh & _). apply (Hr k); [apply Hm, Hkh|].
        apply Hmatch; [apply Hkh|done]. }
      pose proof (crep_full _ _ _ _ _ C) as Hfull. enough (10 <= size (P ∪ dom H))%nat by lia.
      apply Hfull. intros i Hi. apply Hu. by apply Hm.
Qed.

Lemma bufcache_read_spec s dk L P H sec :
  crep s dk L P H -> oksec sec -> H !! sec = None -> sec ∈ P \/ (size (P ∪ dom H) < 10)%nat ->
  exists i s', bufcache_read ROOTDEV sec s = Ok (i, s') /\ crep s' dk L P (<[sec := i]> H)
    /\ same_rest s s' /\ disk s' = disk s /\ past s' = past s.
Proof.
  intros C Hsec Hno Hsz. destruct (bufcache_get_spec s dk L P H sec C Hsec Hno Hsz) as (i & s1 & b & E & G).
  unfold bufcache_read. rewrite (bind_ok _ _ _ _ _ E).
  destruct G as [(Hrest & Hdk & Hpast & Hid & Hlk) Hc Hr [Hn Hp] [Hdev Hs] Hb Ho Hold].
  assert (bufs s1 !!! i = b) as Ei by (rewrite (Hc i); by rewrite decide_True).
  pose proof (cr_clean _ _ _ _ _ C sec Hsec) as Hclean. pose proof (cr_disk _ _ _ _ _ C) as Hdisk.
  fstep. rewrite Ei. destruct (decide (Z.land (b_flags b) B_VALID = 0)) as [Ev|Ev]; rewrite flag_valid in Ev.
  - assert (dirty b = false /\ sec ∉ P) as [Hd HP].
    { destruct Hold as [(Hh & Ev' & Ed & _)|(Hu & Hnh & _ & Hd)].
      - assert (dirty (bufs s !!! i) = false) as Hnd.
        { destruct (dirty (bufs s !!! i)) eqn:X; [|done]. destruct (cr_dirty _ _ _ _ _ C i Hr X). congruence. }
        split; [congruence|]. intros HP. destruct (cr_pin _ _ _ _ _ C sec HP) as (k & Hk & Hkd).
        rewrite (cr_uniq _ _ _ _ _ C sec k i Hk Hh) in Hkd. congruence.
      - split; [done|]. intros HP. destruct (cr_pin _ _ _ _ _ C sec HP) as (k & Hk & _).
        destruct (decide (k = i)) as [->|Hne]; [done|]. by apply (Ho k). }
    destruct (ide_rw_spec i s1 Hr Hid) as (s2 & E2 & Hid2 & Hrest2 & Hlk2 & Heff & Hc2);
      [by rewrite Ei|rewrite Ei, synced_spec; intros []; congruence|]. rewrite Ei in *.
    rewrite (bind_ok _ _ _ _ _ E2). exists i, s2. split; [done|]. unfold request_effect in Heff. rewrite Hd in Heff.
    destruct Heff as [Hdisk2 Hpast2]. split_and!; [|by eapply same_rest_trans|congruence..].
    destruct (done_buf_flags (dread (disk s1) (hw_addr b)) b) as (Hb2 & Hv2 & Hd2).
    eapply (crep_hold s s2 i (done_buf (dread (disk s1) (hw_addr b)) b) sec dk L dk L P P H C); [|done|congruence].
    split; try done.
    + intros j. rewrite (Hc2 j), (Hc j). by destruct (decide (i = j)).
    + rewrite Hb2. done.
    + unfold done_buf. cbn [b_data]. rewrite Hd. unfold hw_addr. rewrite Hdev, Hs.
      rewrite Hclean by done. rewrite <- (Hdisk sec Hsec), <- Hdk. do 2 f_equal.
      change 268435455 with (Z.ones 28). rewrite Z.land_ones by lia. unfold oksec in Hsec. by rewrite Z.mod_small.
    + destruct Hold as [[? _]|[? _]]; [by left|by right].
    + rewrite Hd2. naive_solver.
    + intros x Hx. rewrite Hdisk2, Hdk. by apply Hdisk.
    + by apply (cr_len _ _ _ _ _ C).
  - fstep. exists i, s1. split; [done|]. split_and!; [|done..].
    assert (valid b = true) as Hv by (destruct (valid b); done).
    destruct Hold as [(Hh & Ev' & Ed & Edat)|(_ & _ & ? & _)]; [|congruence].
    eapply (crep_hold s s1 i b sec dk L dk L P P H C); [|done..]. split; try done.
    + rewrite Edat. apply (cr_data _ _ _ _ _ C); [done|congruence].
    + by left.
    + rewrite Ed. split.
      * intros X. destruct (cr_dirty _ _ _ _ _ C i Hr X) as [HP _]. destruct Hh as (_ & _ & Es). by rewrite Es in HP.
      * intros HP. destruct (cr_pin _ _ _ _ _ C sec HP) as (k & Hk & Hkd).
        by rewrite (cr_uniq _ _ _ _ _ C sec k i Hk Hh) in Hkd.
    + intros x Hx. rewrite Hdk. by apply Hdisk.
    + by apply (cr_len _ _ _ _ _ C).
Qed.
(** *** Using a held block *)
Lemma insert_same (H : gmap Z Z) sec i : H !! sec = Some i -> <[sec := i]> H = H.
Proof. intros. by apply insert_id. Qed.

Lemma upd_buf_changes i f s : changes_at i (f (bufs s !!! i)) s (upd_buf i f s).
Proof. intros j. apply upd_buf_lookup. Qed.

Lemma ide_idle_upd i f s : ide_idle s -> ide_idle (upd_buf i f s).
Proof. intros []. by split. Qed.

(** The process changes the data of a block it holds. *)
Lemma crep_modify s dk L P H sec i d :
  crep s dk L P H -> H !! sec = Some i -> length d = 512%nat ->
  crep (upd_buf i (set_b_data d) s) dk (upd_blk L sec d) P H.
Proof.
  intros C Hh Hlen. destruct (crep_held_buf _ _ _ _ _ _ _ C Hh) as (Hi & Hd & Hs & Hok & Hb & Hv & _).
  rewrite <- (insert_same H sec i Hh).
  apply (crep_hold s _ i (set_b_data d (bufs s !!! i)) sec dk L dk (upd_blk L sec d) P P H C);
    [|apply ide_idle_upd, C|apply C]. unfold upd_blk. split; try done.
  - apply (upd_buf_changes i (set_b_data d)).
  - by rewrite decide_True.
  - intros j Hj Hx. apply Hj. eapply (cr_uniq _ _ _ _ _ C); [exact Hx|done].
  - by left.
  - change (dirty (bufs s !!! i) = true <-> sec ∈ P). split.
    + intros X. destruct (cr_dirty _ _ _ _ _ C i Hi X) as [HP _]. by rewrite Hs in HP.
    + intros HP. destruct (cr_pin _ _ _ _ _ C sec HP) as (k & Hk & Hkd).
      by rewrite (cr_uniq _ _ _ _ _ C sec k i Hk ltac:(done)) in Hkd.
  - intros x Hx. by rewrite decide_False.
  - apply (cr_disk _ _ _ _ _ C).
  - rewrite decide_True by done. split; [done|]. by apply (cr_len _ _ _ _ _ C).
Qed.

(** [b->flags |= B_DIRTY] *)
Lemma crep_mark_dirty s dk L P H sec i :
  crep s dk L P H -> H !! sec = Some i ->
  crep (upd_buf i (fun b => set_b_flags (Z.lor (b_flags b) B_DIRTY) b) s) dk L (P ∪ {[sec]}) H.
Proof.
  intros C Hh. destruct (crep_held_buf _ _ _ _ _ _ _ C Hh) as (Hi & Hd & Hs & Hok & Hb & Hv & Hdat).
  rewrite <- (insert_same H sec i Hh).
  apply (crep_hold s _ i (set_b_flags (Z.lor (b_flags (bufs s !!! i)) B_DIRTY) (bufs s !!! i)) sec
    dk L dk L P (P ∪ {[sec]}) H C); [|apply ide_idle_upd, C|apply C]. split; try done.
  - apply (upd_buf_changes i (fun b => set_b_flags (Z.lor (b_flags b) B_DIRTY) b)).
  - unfold busy, valid, set_b_flags in *. cbn [b_flags]. rewrite !(lor_bit _ 2) by lia. cbn.
    by rewrite !orb_false_r.
  - intros j Hj Hx. apply Hj. eapply (cr_uniq _ _ _ _ _ C); [exact Hx|done].
  - by left.
  - unfold dirty, set_b_flags. cbn [b_flags]. rewrite (lor_bit _ 2) by lia. cbn. rewrite orb_true_r.
    split; [|done]. intros _. apply elem_of_union. right. by apply elem_of_singleton.
  - intros x Hx. rewrite elem_of_union, elem_of_singleton. naive_solver.
  - apply (cr_disk _ _ _ _ _ C).
  - by apply (cr_len _ _ _ _ _ C).
Qed.

Lemma hw_addr_root b : b_dev b = ROOTDEV -> oksec (b_sector b) -> hw_addr b = (ROOTDEV, b_sector b).
Proof.
  intros Hd Hs. unfold hw_addr. rewrite Hd. f_equal. change 268435455 with (Z.ones 28).
  rewrite Z.land_ones by lia. unfold oksec in Hs. by rewrite Z.mod_small.
Qed.

Lemma dread_insert (d : image) k k' x : dread (<[k := x]> d) k' = if decide (k = k') then x else dread d k'.
Proof.
  unfold dread. destruct (decide (k = k')) as [<-|]; [by rewrite lookup_insert_eq|by rewrite lookup_insert_ne].
Qed.

Lemma bufcache_write_spec s dk L P H sec i :
  crep s dk L P H -> H !! sec = Some i ->
  exists s', bufcache_write i s = Ok (tt, s')
    /\ crep s' (upd_blk dk sec (L sec)) L (P ∖ {[sec]}) H
    /\ same_rest s s' /\ disk s' = <[(ROOTDEV, sec) := L sec]> (disk s) /\ past s' = disk s :: past s.
Proof.
  intros C Hh. destruct (crep_held_buf _ _ _ _ _ _ _ C Hh) as (Hi & Hd & Hs & Hok & Hb & Hv & Hdat).
  unfold bufcache_write. fstep. rewrite decide_False by (rewrite flag_busy; congruence). fstep.
  set (s1 := upd_buf i (set_b_flags (Z.lor (b_flags (bufs s !!! i)) B_DIRTY)) s).
  assert (bufs s1 !!! i = set_b_flags (Z.lor (b_flags (bufs s !!! i)) B_DIRTY) (bufs s !!! i)) as Ei.
  { unfold s1. rewrite upd_buf_lookup. by rewrite decide_True. }
  assert (busy (bufs s1 !!! i) = true /\ dirty (bufs s1 !!! i) = true) as [Hb1 Hd1].
  { rewrite Ei. unfold busy, dirty, set_b_flags in *. cbn [b_flags]. rewrite !(lor_bit _ 2) by lia. cbn.
    by rewrite orb_false_r, orb_true_r. }
  destruct (ide_rw_spec i s1 Hi) as (s2 & E2 & Hid2 & Hrest2 & Hlk2 & Heff & Hc2);
    [apply ide_idle_upd, C|done|rewrite synced_spec; intros []; congruence|].
  rewrite E2. exists s2. split; [done|]. unfold request_effect in Heff. rewrite Hd1 in Heff.
  destruct (done_buf_flags (dread (disk s1) (hw_addr (bufs s1 !!! i))) (bufs s1 !!! i)) as (Hb2 & Hv2 & Hd2).
  set (b2 := done_buf _ _) in *.
  assert (b_next b2 = nx s i /\ b_prev b2 = pv s i /\ b_dev b2 = ROOTDEV /\ b_sector b2 = sec
    /\ b_data b2 = L sec) as (Hn2 & Hp2 & Hdev2 & Hsec2 & Hdat2).
  { unfold b2, done_buf. cbn [b_next b_prev b_dev b_sector b_data]. rewrite Hd1, Ei. cbn. by split_and!. }
  assert (hw_addr (bufs s1 !!! i) = (ROOTDEV, sec) /\ b_data (bufs s1 !!! i) = L sec) as [Hhw Hda].
  { rewrite Ei. rewrite hw_addr_root; cbn; [|done|by rewrite Hs]. by rewrite Hs. }
  rewrite Hhw, Hda in Heff. destruct Heff as [Hdisk2 Hpast2].
  split_and!; [|by destruct Hrest2; split|done..]. rewrite <- (insert_same H sec i Hh).
  apply (crep_hold s s2 i b2 sec dk L (upd_blk dk sec (L sec)) L P (P ∖ {[sec]}) H C);
    [|done|by rewrite Hlk2; apply C]. unfold upd_blk. split; try done.
  - intros j. rewrite (Hc2 j). destruct (decide (i = j)) as [|Hne]; [done|]. unfold s1.
    rewrite upd_buf_lookup. by rewrite decide_False.
  - by rewrite Hb2.
  - intros j Hj Hx. apply Hj. eapply (cr_uniq _ _ _ _ _ C); [exact Hx|done].
  - by left.
  - rewrite Hd2, elem_of_difference, elem_of_singleton. naive_solver.
  - intros x Hx. rewrite elem_of_difference, elem_of_singleton. naive_solver.
  - intros x Hx. by rewrite decide_False.
  - intros x Hx. rewrite Hdisk2, dread_insert.
    destruct (decide (x = sec)) as [->|Hne]; [by rewrite decide_True|].
    rewrite decide_False by congruence. by apply (cr_disk _ _ _ _ _ C).
  - rewrite decide_True by done. split; by apply (cr_len _ _ _ _ _ C).
Qed.
(** *** Releasing a block *)

(** [b] without its links, and with the busy flag cleared if it is released *)
Definition released (rel : bool) (b b' : buf) : Prop :=
  b_dev b' = b_dev b /\ b_sector b' = b_sector b /\ b_data b' = b_data b
  /\ busy b' = (if rel then false else busy b) /\ valid b' = valid b /\ dirty b' = dirty b.

Lemma crep_release s s' dk L P H sec i :
  crep s dk L P H -> H !! sec = Some i -> (sec ∈ P \/ L sec = dk sec) ->
  (exists l, lru s' l) -> (forall j, released (bool_decide (i = j)) (bufs s !!! j) (bufs s' !!! j)) ->
  ide_idle s' -> lock (bc_lock s') = 0 -> disk s' = disk s -> crep s' dk L P (delete sec H).
Proof.
  intros C Hh Hsafe Hl Hrel Hid Hlk Hdisk.
  destruct (crep_held_buf _ _ _ _ _ _ _ C Hh) as (Hi & Hd & Hs & Hok & Hb & Hv & Hdat).
  assert (forall x j, holds s' x j <-> holds s x j) as Hholds.
  { intros x j. unfold holds. destruct (Hrel j) as (-> & -> & _). done. }
  assert (forall j, dirty (bufs s' !!! j) = dirty (bufs s !!! j) /\ valid (bufs s' !!! j) = valid (bufs s !!! j))
    as Hdv by (intros j; destruct (Hrel j) as (_ & _ & _ & _ & ? & ?); done).
  assert (forall j, j <> i -> busy (bufs s' !!! j) = busy (bufs s !!! j)) as Hbj.
  { intros j Hj. destruct (Hrel j) as (_ & _ & _ & E & _). by rewrite bool_decide_false in E by congruence. }
  assert (busy (bufs s' !!! i) = false) as Hbi.
  { destruct (Hrel i) as (_ & _ & _ & E & _). by rewrite bool_decide_true in E. }
  split; try done.
  - intros j Hj. destruct (Hrel j) as (Ed & Es & _). rewrite Ed, Es.
    destruct (cr_dev _ _ _ _ _ C j Hj) as [[Hx Hk]|(Hx & Hb' & Hd')]; [left; split; [by apply Hholds|done]|right].
    split; [done|]. destruct (Hdv j) as [-> _]. split; [|done].
    destruct (decide (j = i)) as [->|Hne]; [done|]. by rewrite Hbj.
  - intros x j k Hj%Hholds Hk%Hholds. by eapply (cr_uniq _ _ _ _ _ C).
  - intros j Hj Hx. destruct (decide (j = i)) as [->|Hne]; [congruence|]. rewrite Hbj in Hx by done.
    destruct (Hrel j) as (_ & -> & _). pose proof (cr_busy _ _ _ _ _ C j Hj Hx) as E.
    rewrite lookup_delete_ne; [done|]. intros Ex. rewrite <- Ex in E. congruence.
  - intros x k Hx. apply lookup_delete_Some in Hx as [Hne Hx].
    destruct (cr_held _ _ _ _ _ C _ _ Hx) as (Hk & Hbk & Hvk). rewrite Hholds.
    assert (k <> i) as Hki. { intros ->. destruct Hk as (_ & _ & E). congruence. }
    rewrite Hbj by done. by destruct (Hdv k) as [_ ->].
  - intros j Hj Hx. destruct (Hdv j) as [E1 ->]. rewrite E1 in Hx. destruct (Hrel j) as (_ & -> & _).
    by apply (cr_dirty _ _ _ _ _ C).
  - intros x Hx. destruct (cr_pin _ _ _ _ _ C x Hx) as (k & Hk & Hkd). exists k. rewrite Hholds.
    by destruct (Hdv k) as [-> _].
  - intros x j Hx%Hholds Hvj. destruct (Hdv j) as [_ E1]. rewrite E1 in Hvj.
    destruct (Hrel j) as (_ & _ & -> & _). by apply (cr_data _ _ _ _ _ C).
  - intros x Hx HP HH. apply lookup_delete_None in HH as [<-|HH].
    + by destruct Hsafe.
    + by apply (cr_clean _ _ _ _ _ C).
  - intros x Hx. rewrite Hdisk. by apply (cr_disk _ _ _ _ _ C).
  - apply (cr_len _ _ _ _ _ C).
Qed.

(** The two link updates of [bufcache_release] and of [bufcache_init] *)
Definition unlink (b : Z) (s : fsys T) : fsys T :=
  upd_buf (pv s b) (set_b_next (nx s b)) (upd_buf (nx s b) (set_b_prev (pv s b)) s).
Definition push_front (b : Z) (s : fsys T) : fsys T :=
  let h := nx s HEAD in
  upd_buf HEAD (set_b_next b) (upd_buf h (set_b_prev b)
    (upd_buf b (set_b_prev HEAD) (upd_buf b (set_b_next h) s))).

Lemma unlink_list s h t l1 b l2 :
  dlist HEAD (nx s) (pv s) h t (l1 ++ b :: l2) -> h = nx s HEAD -> t = pv s HEAD ->
  dlist HEAD (nx (unlink b s)) (pv (unlink b s)) (nx (unlink b s) HEAD) (pv (unlink b s) HEAD) (l1 ++ l2).
Proof.
  intros Hd -> ->.
  assert (forall y, nx (unlink b s) y = (if decide (y = pv s b) then nx s b else nx s y)
    /\ pv (unlink b s) y = (if decide (y = nx s b) then pv s b else pv s y)) as E.
  { intros y. unfold unlink. generalize (nx s b) (pv s b). intros n p. unfold nx, pv. fs_look.
    destruct (decide (p = y)) as [->|]; destruct (decide (n = y)) as [->|]; dec_refl;
      repeat case_decide; subst; try done; congruence. }
  pose proof (dlist_remove HEAD _ _ (nx (unlink b s)) (pv (unlink b s)) _ _ _ _ _ Hd (fun y _ => E y)) as Hd'.
  destruct (E HEAD) as [-> ->].
  rewrite (decide_ext (HEAD = pv s b) (pv s b = HEAD)), (decide_ext (HEAD = nx s b) (nx s b = HEAD)) by done.
  done.
Qed.

Lemma push_front_list s l b :
  dlist HEAD (nx s) (pv s) (nx s HEAD) (pv s HEAD) l -> b ∉ l -> b <> HEAD ->
  dlist HEAD (nx (push_front b s)) (pv (push_front b s)) (nx (push_front b s) HEAD)
    (pv (push_front b s) HEAD) (b :: l).
Proof.
  intros Hd Hb Hne. pose proof Hd as [Hh _ _ _ Hnull].
  assert (nx s HEAD <> b) as Hhb.
  { rewrite Hh. intros E. destruct l as [|a l]; cbn in E; [congruence|]. apply Hb. rewrite E. by left. }
  set (h := nx s HEAD) in *.
  assert (forall y, nx (push_front b s) y = (if decide (y = HEAD) then b else if decide (y = b) then h else nx s y)
    /\ pv (push_front b s) y = (if decide (y = h) then b else if decide (y = b) then HEAD else pv s y)) as E.
  { intros y. unfold push_front. fold h. clearbody h. unfold nx, pv. fs_look.
    destruct (decide (HEAD = y)) as [Hy|Hy]; destruct (decide (h = y)) as [->|]; try subst y; dec_refl;
      repeat case_decide; subst; try done; congruence. }
  destruct (E HEAD) as [-> ->]. rewrite decide_True by done.
  rewrite (decide_False (P := HEAD = b)) by congruence.
  rewrite (decide_ext (HEAD = h) (h = HEAD)) by done.
  apply (dlist_push HEAD (nx s) (pv s)); [done..| | |].
  - intros y Hy. destruct (E y) as [-> ->]. rewrite decide_False by congruence.
    rewrite !(decide_False (P := y = b)) by congruence. done.
  - destruct (E b) as [-> _]. rewrite decide_False by done. by rewrite decide_True.
  - destruct (E b) as [_ ->]. rewrite decide_False by done. by rewrite decide_True.
Qed.
Definition core (b : buf) := (b_flags b, b_dev b, b_sector b, b_data b).
Lemma core_inv b b' : core b = core b' ->
  b_flags b = b_flags b' /\ b_dev b = b_dev b' /\ b_sector b = b_sector b' /\ b_data b = b_data b'.
Proof. unfold core. intros E. by injection E. Qed.
Definition same_core s s' : Prop := forall j, core (bufs s' !!! j) = core (bufs s !!! j).
Lemma core_prev i v s : same_core s (upd_buf i (set_b_prev v) s).
Proof. intros j. rewrite upd_buf_lookup. by destruct (decide (i = j)) as [->|]. Qed.
Lemma core_next i v s : same_core s (upd_buf i (set_b_next v) s).
Proof. intros j. rewrite upd_buf_lookup. by destruct (decide (i = j)) as [->|]. Qed.
Lemma core_unlink b s : same_core s (unlink b s).
Proof. intros j. unfold unlink. by rewrite core_next, core_prev. Qed.
Lemma core_push b s : same_core s (push_front b s).
Proof. intros j. unfold push_front. by rewrite core_next, core_prev, core_prev, core_next. Qed.

Lemma lru_split s l b : lru s l -> 0 <= b < NBUF -> exists l1 l2, l = l1 ++ b :: l2.
Proof. intros [_ Hm] Hb. apply list_elem_of_split. by apply Hm. Qed.

Lemma lru_bufs s s' l : bufs s' = bufs s -> lru s l -> lru s' l.
Proof. intros E. unfold lru, nx, pv. by rewrite E. Qed.

Lemma lru_move s l b : lru s l -> 0 <= b < NBUF -> exists l', lru (push_front b (unlink b s)) l'.
Proof.
  intros Hl Hb. destruct (lru_split s l b Hl Hb) as (l1 & l2 & ->). destruct Hl as [Hl Hmem].
  exists (b :: l1 ++ l2). split.
  - apply push_front_list; [by apply (unlink_list s _ _ l1 b l2 Hl)| |unfold HEAD; lia].
    pose proof (dl_nodup _ _ _ _ _ _ Hl) as Hnd. apply NoDup_app in Hnd as (_ & Hdisj & Hnd2).
    apply NoDup_cons in Hnd2 as [Hn2 _]. intros [Hx|Hx]%elem_of_app; [|done]. apply (Hdisj b Hx). by left.
  - intros j. rewrite <- Hmem. rewrite !elem_of_cons, !elem_of_app, !elem_of_cons. tauto.
Qed.

Lemma bufcache_release_run s l b t :
  lru s l -> 0 <= b < NBUF -> busy (bufs s !!! b) = true -> fk_inv (kern s) -> lock (bc_lock s) = 0 ->
  (let s1 := push_front b (unlink b (set_bc_lock (held_lock (fk_kstack (kern s))) s)) in
   let s2 := upd_buf b (fun x => set_b_flags (Z.land (b_flags x) (Z.lnot B_BUSY)) x) s1 in
   wakeup (PBuf b) s2 = Ok (tt, set_kern t s2) ->
   bufcache_release b s = Ok (tt, set_bc_lock free_lock (set_kern t s2))).
Proof.
  intros Hl Hb Hbusy Hk Hlk s1 s2 Hw. pose proof Hl as [Hd Hm].
  destruct (lru_split s l b Hl Hb) as (l1 & l2 & ->).
  destruct (seg_links _ _ _ _ _ _ _ (dl_seg _ _ _ _ _ _ Hd)) as [Ep En].
  pose proof (dl_nodup _ _ _ _ _ _ Hd) as Hnd. pose proof (dl_null _ _ _ _ _ _ Hd) as Hnull.
  assert (forall x, x = HEAD \/ x ∈ l1 ++ l2 -> 0 <= x <= NBUF /\ x <> b) as Hrange.
  { intros x [->|Hx]; [unfold HEAD, NBUF in *; lia|]. split.
    - assert (x ∈ l1 ++ b :: l2) as Hin by (clear -Hx; set_solver). apply Hm in Hin. lia.
    - intros ->. apply NoDup_app in Hnd as (_ & Hdisj & Hnd2). apply NoDup_cons in Hnd2 as [Hn2 _].
      apply elem_of_app in Hx as [Hx|Hx]; [|done]. apply (Hdisj b Hx). by left. }
  assert (0 <= nx s b <= NBUF /\ nx s b <> b) as [Hnr Hnb].
  { apply Hrange. rewrite En. destruct l2 as [|y l2]; [by left|]. right. cbn. clear. set_solver. }
  assert (0 <= pv s b <= NBUF /\ pv s b <> b) as [Hpr Hpb].
  { apply Hrange. rewrite Ep. destruct l1 as [|y l1]; [by left|]. right.
    apply elem_of_app. left. by apply last_or_in. }
  unfold bufcache_release. fstep. rewrite decide_False by (rewrite flag_busy; congruence).
  facquire Hk Hlk. set (s0 := set_bc_lock (held_lock (fk_kstack (kern s))) s) in *.
  fstep. fold (nx s0 b). fstep. fold (pv s0 b).
  change (nx s0 b) with (nx s b). change (pv s0 b) with (pv s b). fstep.
  assert (forall v, bufs (upd_buf (nx s b) v s0) !!! b = bufs s !!! b) as Eb.
  { intros v. rewrite upd_buf_lookup. by rewrite decide_False. }
  fstep. rewrite Eb. fstep. rewrite Eb. fold (nx s b) (pv s b). fstep.
  change (upd_buf (pv s b) (set_b_next (nx s b)) (upd_buf (nx s b) (set_b_prev (pv s b)) s0)) with (unlink b s0).
  fstep. fold (nx (unlink b s0) HEAD). fstep. fstep. fstep.
  match goal with |- context [b_next (bufs ?x !!! HEAD)] =>
    replace (b_next (bufs x !!! HEAD)) with (nx (unlink b s0) HEAD) end.
  2:{ rewrite !upd_buf_lookup. rewrite !decide_False by (unfold HEAD; lia). done. }
  assert (0 <= nx (unlink b s0) HEAD <= NBUF) as Hhr.
  { pose proof (unlink_list s0 _ _ l1 b l2 Hd eq_refl eq_refl) as [Hh _ _ _ _].
    apply Hrange. rewrite Hh. destruct (l1 ++ l2) as [|y l]; [by left|]. right. by left. }
  fstep. fstep. fstep. change (upd_buf HEAD _ _) with s1 at 1.
  rewrite (bind_ok _ _ _ _ _ Hw). apply release_ok.
Qed.

Lemma bufcache_release_spec s dk L P H sec i :
  crep s dk L P H -> H !! sec = Some i -> (sec ∈ P \/ L sec = dk sec) ->
  exists s', bufcache_release i s = Ok (tt, s') /\ crep s' dk L P (delete sec H)
    /\ same_rest s s' /\ disk s' = disk s /\ past s' = past s.
Proof.
  intros C Hh Hsafe. destruct (crep_held_buf _ _ _ _ _ _ _ C Hh) as (Hi & Hd & Hs & Hok & Hb & Hv & Hdat).
  destruct (cr_list _ _ _ _ _ C) as [l Hl]. pose proof (cr_idle _ _ _ _ _ C) as [Hk Hil Hq Hd1 Hf].
  set (s0 := set_bc_lock (held_lock (fk_kstack (kern s))) s).
  set (s1 := push_front i (unlink i s0)).
  set (s2 := upd_buf i (fun x => set_b_flags (Z.land (b_flags x) (Z.lnot B_BUSY)) x) s1).
  destruct (wakeup_ok (PBuf i) s2 Hk) as (t & E & Ht & Hm).
  exists (set_bc_lock free_lock (set_kern t s2)).
  split; [exact (bufcache_release_run s l i t Hl Hi Hb Hk (cr_lock _ _ _ _ _ C) E)|].
  split_and!; [|by split|done..].
  apply (crep_release s _ dk L P H sec i C Hh Hsafe); [| |by split|done..].
  - destruct (lru_move s0 l i) as [l' Hl']; [by apply (lru_bufs s)|done|]. exists l'.
    apply (lru_bufs s2); [done|]. fold s1 in Hl'. clearbody s1.
    apply (lru_touch s1 s2 i (set_b_flags (Z.land (b_flags (bufs s1 !!! i)) (Z.lnot B_BUSY)) (bufs s1 !!! i)));
      [done| |done..]. apply (upd_buf_changes i (fun x => set_b_flags (Z.land (b_flags x) (Z.lnot B_BUSY)) x)).
  - intros j. change (released (bool_decide (i = j)) (bufs s !!! j) (bufs s2 !!! j)).
    assert (core (bufs s1 !!! j) = core (bufs s !!! j)) as Ec.
    { unfold s1. rewrite core_push, core_unlink. done. }
    apply core_inv in Ec as (Ef & Ed & Es & Edat). unfold s2. clearbody s1. rewrite upd_buf_lookup. unfold released.
    destruct (decide (i = j)) as [<-|Hne].
    + rewrite bool_decide_true by done. unfold set_b_flags, busy, valid, dirty. cbn [b_flags b_dev b_sector b_data].
      rewrite Ef. change (Z.lnot B_BUSY) with (Z.lnot (2 ^ 0)). rewrite !clear_bit by lia.
      rewrite (bool_decide_true (0 = 0)), (bool_decide_false (1 = 0)), (bool_decide_false (2 = 0)) by done.
      cbn [negb]. rewrite !andb_true_r, andb_false_r.
      by split_and!.
    + rewrite bool_decide_false by done. unfold busy, valid, dirty. rewrite Ef. by split_and!.
Qed.
(** *** Initialisation *)
Definition init_body (b : Z) (s : fsys T) : fsys T :=
  let h := nx s HEAD in
  upd_buf HEAD (set_b_next b) (upd_buf h (set_b_prev b)
    (upd_buf b (set_b_dev (-1)) (upd_buf b (set_b_prev HEAD) (upd_buf b (set_b_next h) s)))).

Lemma init_body_links b s y :
  nx (init_body b s) y = nx (push_front b s) y /\ pv (init_body b s) y = pv (push_front b s) y.
Proof.
  unfold init_body, push_front. generalize (nx s HEAD). intros h. unfold nx, pv.
  split; rewrite !upd_buf_lookup; repeat case_decide; done.
Qed.

Lemma init_body_fields b s j :
  b_flags (bufs (init_body b s) !!! j) = b_flags (bufs s !!! j)
  /\ b_dev (bufs (init_body b s) !!! j) = if decide (j = b) then -1 else b_dev (bufs s !!! j).
Proof.
  unfold init_body. generalize (nx s HEAD). intros h.
  split; rewrite !upd_buf_lookup; repeat case_decide; subst; done.
Qed.

Definition init_rest s s' : Prop :=
  same_rest s s' /\ disk s' = disk s /\ past s' = past s /\ kern s' = kern s /\ ide_lk s' = ide_lk s
  /\ idequeue s' = idequeue s /\ havedisk1 s' = havedisk1 s /\ ide_fault s' = ide_fault s
  /\ bc_lock s' = bc_lock s.

Lemma bufcache_init_spec s (dk := fun sec => dread (disk s) (ROOTDEV, sec)) :
  ide_idle s -> (forall i, 0 <= i < NBUF -> b_flags (bufs s !!! i) = 0) ->
  (forall sec, oksec sec -> length (dk sec) = 512%nat) ->
  exists s', bufcache_init s = Ok (tt, s') /\ crep s' dk dk ∅ ∅
    /\ same_rest s s' /\ disk s' = disk s /\ past s' = past s.
Proof.
  intros Hid Hfl Hlen. unfold bufcache_init.
  rewrite (bind_ok (zoom bc_lock set_bc_lock spinlock_init) _ s tt (set_bc_lock free_lock s) eq_refl).
  fstep. fstep. set (s1 := upd_buf HEAD (set_b_next HEAD) (upd_buf HEAD (set_b_prev HEAD) (set_bc_lock free_lock s))).
  destruct (for_each_ind (fun d x =>
      init_rest s1 x /\ dlist HEAD (nx x) (pv x) (nx x HEAD) (pv x HEAD) (reverse d)
      /\ (forall j, b_flags (bufs x !!! j) = b_flags (bufs s1 !!! j))
      /\ (forall j, j ∈ d -> b_dev (bufs x !!! j) = -1))
    (fun b => n ← buf_read HEAD b_next; buf_write b (set_b_next n) ;; buf_write b (set_b_prev HEAD) ;;
      buf_write b (set_b_dev (-1)) ;; n ← buf_read HEAD b_next; buf_write n (set_b_prev b) ;;
      buf_write HEAD (set_b_next b)) (seqZ 0 NBUF)) with (s := s1) as (s2 & E & Hr & Hl & Hf & Hd).
  - intros d b r x Eq (Hr & Hl & Hf & Hd). destruct (seqZ_split _ _ _ _ Eq) as [Hb Hin].
    assert (0 <= nx x HEAD <= NBUF) as Hh.
    { pose proof (dl_head _ _ _ _ _ _ Hl) as ->. destruct (reverse d) as [|y l] eqn:El; [cbn; in_bounds|].
      cbn. assert (y ∈ d) as Hy%Hin by (apply elem_of_reverse; rewrite El; by left). unfold NBUF in *; lia. }
    fstep. fold (nx x HEAD). fstep. fstep. fstep. fstep.
    match goal with |- context [b_next (bufs ?y !!! HEAD)] =>
      replace (b_next (bufs y !!! HEAD)) with (nx x HEAD) end.
    2:{ rewrite !upd_buf_lookup. rewrite !decide_False by (unfold HEAD; lia). done. }
    fstep. rewrite buf_write_ok by in_bounds.
    exists (init_body b x). split; [done|]. split_and!.
    + destruct Hr as ([] & ? & ? & ? & ? & ? & ? & ? & ?). by split_and!.
    + destruct (init_body_links b x HEAD) as [-> ->].
      eapply (dlist_ext _ (nx (push_front b x)) (pv (push_front b x))); [|intros; apply init_body_links].
      rewrite reverse_snoc. apply push_front_list; [done| |unfold HEAD; lia].
      intros Hx%elem_of_reverse%Hin. lia.
    + intros j. destruct (init_body_fields b x j) as [-> _]. apply Hf.
    + intros j Hj. destruct (init_body_fields b x j) as [_ ->]. case_decide as Ej; [done|].
      apply Hd. apply elem_of_app in Hj as [Hj|[->|[]%elem_of_nil]%elem_of_cons]; done.
  - split_and!; try done; [|by intros j []%elem_of_nil].
    assert (nx s1 HEAD = HEAD /\ pv s1 HEAD = HEAD) as [-> ->]; [|apply dlist_empty].
    unfold nx, pv, s1. rewrite !upd_buf_lookup. by rewrite !decide_True.
  - exists s2. split; [exact E|].
    destruct Hr as ([] & Ed & Ep & Ek & Eil & Eiq & Eh & Ef & Elk).
    split_and!; [|by split|done..].
    assert (forall j, 0 <= j < NBUF -> b_flags (bufs s2 !!! j) = 0 /\ b_dev (bufs s2 !!! j) = -1) as Hb.
    { intros j Hj. split; [|apply Hd, elem_of_seqZ; lia]. rewrite Hf. unfold s1.
      rewrite !upd_buf_lookup. rewrite !decide_False by (unfold HEAD; lia). by apply Hfl. }
    assert (forall x j, ~ holds s2 x j) as Hnone.
    { intros x j (Hj & Hdev & _). destruct (Hb j Hj) as [_ E1]. rewrite E1 in Hdev. done. }
    destruct Hid. split.
    + split; [rewrite Ek|rewrite Eil|rewrite Eiq|rewrite Eh|rewrite Ef]; done.
    + by rewrite Elk.
    + exists (reverse (seqZ 0 NBUF)). split; [done|]. intros i. rewrite elem_of_reverse, elem_of_seqZ. lia.
    + intros i Hi. right. destruct (Hb i Hi) as [E1 E2]. unfold busy, dirty. by rewrite E1.
    + intros x i j Hx. by destruct (Hnone x i).
    + intros i Hi Hx. destruct (Hb i Hi) as [E1 _]. unfold busy in Hx. by rewrite E1 in Hx.
    + intros x i Hx. by rewrite lookup_empty in Hx.
    + intros i Hi Hx. destruct (Hb i Hi) as [E1 _]. unfold dirty in Hx. by rewrite E1 in Hx.
    + intros x []%not_elem_of_empty.
    + intros x i Hx. by destruct (Hnone x i).
    + done.
    + intros x Hx. by rewrite Ed.
    + intros x Hx. split; by apply Hlen.
Qed.
End Cache.

(** * The cache as a block store *)

(** What a client does with one block at a time: get it, change its data, write
    it to disk, give it back. *)
Inductive cop :=
| CGet (sec : Z)
| CSet (sec : Z) (f : list Z -> list Z)
| CPut (sec : Z)
| CRel (sec : Z).

(** ** Specification: blocks in memory, blocks on disk, blocks in use *)
Record store := mk_store { on_disk : Z -> list Z; in_mem : Z -> list Z; in_use : gset Z; seen : list (list Z) }.

(** [None]: the client broke the rules of the cache: a block in use is asked
    for again, an eleventh block is asked for, a block not in use is touched,
    or a changed block is given back without being written. *)
Definition store_step (o : cop) (a : store) : option store :=
  match o with
  | CGet sec =>
      if decide (0 <= sec < 2 ^ 28 /\ sec ∉ in_use a /\ (size (in_use a) < 10)%nat)
      then Some (mk_store (on_disk a) (in_mem a) ({[sec]} ∪ in_use a) (seen a ++ [in_mem a sec])) else None
  | CSet sec f =>
      if decide (sec ∈ in_use a /\ length (f (in_mem a sec)) = 512%nat)
      then Some (mk_store (on_disk a) (upd_blk (in_mem a) sec (f (in_mem a sec))) (in_use a) (seen a)) else None
  | CPut sec =>
      if decide (sec ∈ in_use a)
      then Some (mk_store (upd_blk (on_disk a) sec (in_mem a sec)) (in_mem a) (in_use a) (seen a)) else None
  | CRel sec =>
      if decide (sec ∈ in_use a /\ in_mem a sec = on_disk a sec)
      then Some (mk_store (on_disk a) (in_mem a) (in_use a ∖ {[sec]}) (seen a)) else None
  end.
Fixpoint store_run (os : list cop) (a : store) : option store :=
  match os with [] => Some a | o :: os => a' ← store_step o a; store_run os a' end.

(** ** The same with the code: the client keeps the buffers it got *)
Section Client.
Context {T : Type} `{!FsKernel T}.

Definition cop_run (o : cop) (c : gmap Z Z * list (list Z)) : M (fsys T) (gmap Z Z * list (list Z)) :=
  let (h, out) := c in
  match o with
  | CGet sec =>
      b ← bufcache_read ROOTDEV sec;
      d ← buf_read b b_data;
      mret (<[sec := b]> h, out ++ [d])
  | CSet sec f => buf_write (h !!! sec) (fun x => set_b_data (f (b_data x)) x) ;; mret (h, out)
  | CPut sec => bufcache_write (h !!! sec) ;; mret (h, out)
  | CRel sec => bufcache_release (h !!! sec) ;; mret (delete sec h, out)
  end.
Fixpoint cops_run (os : list cop) (c : gmap Z Z * list (list Z)) : M (fsys T) (gmap Z Z * list (list Z)) :=
  match os with [] => mret c | o :: os => c' ← cop_run o c; cops_run os c' end.

Context `{!FsKernelLaws T}.
Implicit Types s : fsys T.

Definition store_rep s (h : gmap Z Z) (a : store) : Prop :=
  crep s (on_disk a) (in_mem a) ∅ h /\ dom h = in_use a.

Lemma held_total (h : gmap Z Z) sec : sec ∈ dom h -> h !! sec = Some (h !!! sec).
Proof. intros [b Hb]%elem_of_dom. by rewrite (lookup_total_correct _ _ _ Hb). Qed.

Lemma cop_run_spec s h out a a' o :
  store_rep s h a -> out = seen a -> store_step o a = Some a' ->
  exists s' h', cop_run o (h, out) s = Ok ((h', seen a'), s') /\ store_rep s' h' a' /\ same_rest s s'.
Proof.
  intros [C Hd] -> E. destruct o as [sec|sec f|sec|sec]; cbn [store_step cop_run] in *;
    case_decide as Hg; try done; injection E as <-; cbn [on_disk in_mem in_use seen].
  - destruct Hg as (Hs & Hno & Hsz).
    destruct (bufcache_read_spec s _ _ ∅ h sec C Hs) as (b & s' & E & C' & R & D & P).
    { apply not_elem_of_dom. by rewrite Hd. }
    { right. by rewrite union_empty_l_L, Hd. }
    exists s', (<[sec := b]> h). rewrite (bind_ok _ _ _ _ _ E).
    destruct (crep_held_buf _ _ _ _ _ _ _ C' (lookup_insert_eq _ _ _)) as (Hi & _ & _ & _ & _ & _ & Hdat).
    fstep. rewrite Hdat. split; [done|]. split; [split; [done|]|done]. by rewrite dom_insert_L, Hd.
  - destruct Hg as (Hin & Hlen). rewrite <- Hd in Hin. apply held_total in Hin.
    destruct (crep_held_buf _ _ _ _ _ _ _ C Hin) as (Hi & _ & _ & _ & _ & _ & Hdat).
    fstep. eexists _, h. split; [done|]. split; [split; [|done]|by split].
    pose proof (crep_modify s _ _ ∅ h sec _ _ C Hin Hlen) as C'. unfold upd_buf in *. rewrite Hdat. exact C'.
  - rewrite <- Hd in Hg. apply held_total in Hg.
    destruct (bufcache_write_spec s _ _ ∅ h sec _ C Hg) as (s' & E & C' & R & D & P).
    exists s', h. rewrite (bind_ok _ _ _ _ _ E). split; [done|]. split; [split; [|done]|done].
    by replace (∅ ∖ {[sec]}) with (∅ : gset Z) in C' by set_solver.
  - destruct Hg as [Hg Heq]. rewrite <- Hd in Hg. apply held_total in Hg.
    destruct (bufcache_release_spec s _ _ ∅ h sec _ C Hg (or_intror Heq)) as (s' & E & C' & R & D & P).
    exists s', (delete sec h). rewrite (bind_ok _ _ _ _ _ E). split; [done|]. split; [split; [done|]|done].
    by rewrite dom_delete_L, Hd.
Qed.

Lemma cops_run_spec os : forall s h a a',
  store_rep s h a -> store_run os a = Some a' ->
  exists s' h', cops_run os (h, seen a) s = Ok ((h', seen a'), s') /\ store_rep s' h' a' /\ same_rest s s'.
Proof.
  induction os as [|o os IH]; intros s h a a' R E.
  - injection E as <-. exists s, h. split; [done|]. split; [done|apply same_rest_refl].
  - cbn [store_run cops_run] in *. destruct (store_step o a) as [a1|] eqn:E1; [|done].
    destruct (cop_run_spec s h (seen a) a a1 o R eq_refl E1) as (s1 & h1 & E2 & R1 & S1).
    rewrite (bind_ok _ _ _ _ _ E2). destruct (IH s1 h1 a1 a' R1 E) as (s2 & h2 & E3 & R2 & S2).
    exists s2, h2. split; [done|]. split; [done|]. by eapply same_rest_trans.
Qed.
End Client.

Module CacheProps.

(** C7 (refinement): the ten buffers are transparent.  After [bufcache_init]
    with disk contents [dk], for every sequence of requests that keeps the
    rules of the cache (at most ten blocks in use at a time, none twice, no
    changed block given back unwritten), every call returns, the blocks read
    are those of a plain store of blocks in memory and on disk, and the disk
    holds exactly what that store has on disk: evictions, the least-recently
    used order, the request queue and its interrupts never show. *)
Theorem cache_refines_block_store {T : Type} `{!FsKernel T} `{!FsKernelLaws T}
    (s : fsys T) os a (dk := fun sec => dread (disk s) (ROOTDEV, sec)) :
  ide_idle s -> (forall i, 0 <= i < NBUF -> b_flags (bufs s !!! i) = 0) ->
  (forall sec, oksec sec -> length (dk sec) = 512%nat) ->
  store_run os (mk_store dk dk ∅ []) = Some a ->
  exists s' h, (bufcache_init ;; cops_run os (∅, [])) s = Ok ((h, seen a), s')
    /\ (forall sec, oksec sec -> dread (disk s') (ROOTDEV, sec) = on_disk a sec)
    /\ dom h = in_use a /\ (forall sec i, h !! sec = Some i -> b_data (bufs s' !!! i) = in_mem a sec)
    /\ same_rest s s'.
Proof.
  intros Hid Hfl Hlen Hrun. destruct (bufcache_init_spec s Hid Hfl Hlen) as (s1 & E1 & C1 & R1 & _).
  destruct (cops_run_spec os s1 ∅ (mk_store dk dk ∅ []) a) as (s2 & h & E2 & [C2 Hd] & R2);
    [split; [exact C1|apply dom_empty_L]|done|].
  exists s2, h. rewrite (bind_ok _ _ _ _ _ E1). split; [exact E2|]. split_and!.
  - apply (cr_disk _ _ _ _ _ C2).
  - exact Hd.
  - intros sec i Hi. by destruct (crep_held_buf _ _ _ _ _ _ _ C2 Hi) as (_ & _ & _ & _ & _ & _ & ?).
  - by eapply same_rest_trans.
Qed.

Definition blank : fsys (thr * mem) :=
  mk_fsys free_lock ∅ free_lock None 1 false ∅ [] inhabitant free_lock ∅ free_lock ∅ (SchedProps.demo, ∅).
Lemma blank_idle : ide_idle blank.
Proof. split; [exists SchedProps.demo_a; exact SchedProps.demo_abs|done..]. Qed.

Lemma cache_refines_block_store_witness :
  let os := [CGet 5; CSet 5 (set32 0 7); CGet 6; CPut 5; CRel 5; CGet 5] in
  exists s' h, (bufcache_init ;; cops_run os (∅, [])) blank
      = Ok ((h, [zero_block; zero_block; set32 0 7 zero_block]), s')
    /\ dread (disk s') (ROOTDEV, 5) = set32 0 7 zero_block /\ dom h = {[5; 6]}.
Proof.
  intros os.
  destruct (store_run os (mk_store (fun _ => zero_block) (fun _ => zero_block) ∅ [])) as [a|] eqn:E; [|by vm_compute in E].
  destruct (cache_refines_block_store blank os a blank_idle) as (s' & h & E1 & D & Hd & _);
    [intros i _; unfold blank; cbn [bufs]; by rewrite lookup_total_empty|done|exact E|].
  exists s', h. vm_compute in E. injection E as <-. split; [exact E1|]. split; [apply (D 5); unfold oksec; lia|].
  rewrite Hd. by vm_compute.
Defined.
End CacheProps.
