(* ===== verification/IdeInit.v ===== *)
(** * Finding the disks: ide_init of dev/disk/ide.c

    The interrupt line of the disk is enabled at both interrupt controllers, and
    the second disk is looked for.  What the status port returns is a list of
    readings; a wait that runs out of them spins. *)

From S2P Require Import Prelude Machine Trap Pic Apic ApicSpec Acpi Mp Seg Intr FsData BufCache.

Definition IDE_BSY : Z := 0x80.
Definition IDE_DRDY : Z := 0x40.
Definition IDE_DF : Z := 0x20.
Definition IDE_ERR : Z := 0x01.

Section Ide.
Context {T : Type}.

Record idest := mk_idest {
  id_fs : fsys T;
  id_intr : intrst;
  id_buf_lock : spinlock;      (* buf_lock *)
  id_status : list Z;          (* what inb(0x1f7) will return *)
  id_drive : Z;                (* the last value sent to port 0x1f6 *)
}.
Definition set_id_fs (v : fsys T) (s : idest) : idest := mk_idest v (id_intr s) (id_buf_lock s) (id_status s) (id_drive s).
Definition set_id_intr (v : intrst) (s : idest) : idest := mk_idest (id_fs s) v (id_buf_lock s) (id_status s) (id_drive s).
Definition set_id_buf_lock (v : spinlock) (s : idest) : idest := mk_idest (id_fs s) (id_intr s) v (id_status s) (id_drive s).
Definition set_id_status (v : list Z) (s : idest) : idest := mk_idest (id_fs s) (id_intr s) (id_buf_lock s) v (id_drive s).
Definition set_id_drive (v : Z) (s : idest) : idest := mk_idest (id_fs s) (id_intr s) (id_buf_lock s) (id_status s) v.
Definition set_havedisk1 (v : Z) (s : fsys T) : fsys T :=
  mk_fsys (bc_lock s) (bufs s) (ide_lk s) (idequeue s) v (ide_fault s) (disk s) (past s) (log s)
    (ic_lock s) (inodes s) (ft_lock s) (files s) (kern s).

Notation D := (M idest).
Definition on_intr {A} (m : M intrst A) : D A := zoom id_intr set_id_intr m.

(** [inb(0x1f7)] *)
Definition ide_status : D Z :=
  l ← gets id_status;
  match l with
  | [] => fail Spin
  | r :: l => modify (set_id_status l) ;; mret r
  end.

(** The loop of [ide_wait]; the fuel is the number of readings. *)
Fixpoint ide_wait_loop (fuel : nat) : D Z :=
  r ← ide_status;
  if decide (Z.land r (Z.lor IDE_BSY IDE_DRDY) <> IDE_DRDY) then
    match fuel with O => fail Spin | S fuel => ide_wait_loop fuel end
  else mret r.
Definition ide_wait (checkerr : bool) : D Z :=
  l ← gets id_status;
  r ← ide_wait_loop (length l);
  mret (if decide (checkerr = true /\ Z.land r (Z.lor IDE_DF IDE_ERR) <> 0) then -1 else 0).

Definition ide_init : D unit :=
  zoom id_fs set_id_fs (zoom ide_lk set_ide_lk spinlock_init) ;;
  zoom id_buf_lock set_id_buf_lock spinlock_init ;;
  on_intr (on_pic (pic_enable IRQ_IDE1)) ;;
  n ← on_intr (on_mp pcpu_ncpu);
  on_intr (on_mp (on_apic (ioapic_enable IRQ_IDE1 (u8 (n - 1)) false false))) ;;
  ide_wait false ;;
  modify (set_id_drive (Z.lor 0xe0 (Z.shiftl 1 4))) ;;
  first_of (seqZ 0 1000) (fun _ =>
    r ← ide_status;
    if decide (r <> 0) then zoom id_fs set_id_fs (modify (set_havedisk1 1)) ;; mret (Some tt) else mret None) ;;
  modify (set_id_drive (Z.lor 0xe0 (Z.shiftl 0 4))).

(** ** Theory *)
Definition ide_ready (r : Z) : Prop := Z.land r (Z.lor IDE_BSY IDE_DRDY) = IDE_DRDY.

Lemma ide_status_ok r l s : id_status s = r :: l -> ide_status s = Ok (r, set_id_status l s).
Proof. intros E. unfold ide_status. by rewrite gets_bind, E. Qed.

Lemma ide_wait_loop_ok busy r l : Forall (fun x => ~ ide_ready x) busy -> ide_ready r -> forall fuel s,
  (length busy <= fuel)%nat -> id_status s = busy ++ r :: l -> ide_wait_loop fuel s = Ok (r, set_id_status l s).
Proof.
  intros Hb Hr. induction Hb as [|x busy Hx _ IH]; intros fuel s Hf E; destruct fuel as [|fuel]; cbn [ide_wait_loop];
    rewrite (bind_ok _ _ _ _ _ (ide_status_ok _ _ s E)).
  1,2: by rewrite decide_False by (intros C; by apply C).
  - cbn in Hf. lia.
  - rewrite decide_True by done. rewrite IH by (done || (cbn in Hf; lia)). by destruct s.
Qed.

(** The readings of the probe: zeros, then a value other than zero if a disk
    answers within 1000 readings *)
Definition probed_readings (probe : list Z) (found : bool) : Prop :=
  if found then exists z x, probe = replicate z 0 ++ [x] /\ x <> 0 /\ (z < 1000)%nat else probe = replicate 1000 0.

Lemma probe_loop z x l : forall n, (z < n)%nat -> x <> 0 -> forall k s, id_status s = replicate z 0 ++ x :: l ->
  first_of (seqZ k (Z.of_nat n)) (fun _ =>
    r ← ide_status;
    if decide (r <> 0) then zoom id_fs set_id_fs (modify (set_havedisk1 1)) ;; mret (Some tt) else mret None) s
  = Ok (Some tt, set_id_fs (set_havedisk1 1 (id_fs s)) (set_id_status l s)).
Proof.
  induction z as [|z IH]; intros n Hn Hx k s E; (destruct n as [|n]; [lia|]); rewrite seqZ_cons by lia; cbn [first_of];
    rewrite bind_assoc, (bind_ok _ _ _ _ _ (ide_status_ok _ _ s E)).
  - by rewrite decide_True.
  - rewrite decide_False by (intros C; by apply C). rewrite mret_bind. replace (Z.pred (Z.of_nat (S n))) with (Z.of_nat n) by lia.
    rewrite IH by (done || lia). by destruct s.
Qed.

Lemma probe_loop_none l : forall n k s, id_status s = replicate n 0 ++ l ->
  first_of (seqZ k (Z.of_nat n)) (fun _ =>
    r ← ide_status;
    if decide (r <> 0) then zoom id_fs set_id_fs (modify (set_havedisk1 1)) ;; mret (Some tt) else mret None) s
  = Ok (None, set_id_status l s).
Proof.
  induction n as [|n IH]; intros k s E; [cbn in E; rewrite <- E; by destruct s|]. rewrite seqZ_cons by lia. cbn [first_of].
  rewrite bind_assoc, (bind_ok _ _ _ _ _ (ide_status_ok _ _ s E)). rewrite decide_False by (intros C; by apply C).
  rewrite mret_bind. replace (Z.pred (Z.of_nat (S n))) with (Z.of_nat n) by lia. rewrite IH by done. by destruct s.
Qed.

Lemma probe_ok probe found l s : probed_readings probe found -> id_status s = probe ++ l ->
  exists o, first_of (seqZ 0 1000) (fun _ =>
    r ← ide_status;
    if decide (r <> 0) then zoom id_fs set_id_fs (modify (set_havedisk1 1)) ;; mret (Some tt) else mret None) s
  = Ok (o, set_id_fs (if found then set_havedisk1 1 (id_fs s) else id_fs s) (set_id_status l s)).
Proof.
  destruct found; cbn [probed_readings].
  - intros (z & x & -> & Hx & Hz) E. rewrite <- app_assoc in E. eexists. exact (probe_loop z x l 1000 Hz Hx 0 s E).
  - intros -> E. eexists. etransitivity; [exact (probe_loop_none l 1000 0 s E)|]. by destruct s.
Qed.

(** The disk's line is open at the PIC and routed to the local APIC with the
    identifier [ncpu - 1], the locks are free, and [havedisk1] is set if and only
    if a disk has answered. *)
Record ide_up (E : gset Z) (b : apicst) (ops : list ioapic_op) (found : bool) (s s' : idest) : Prop := {
  iu_pic : pic_lines ({[IRQ_IDE1]} ∪ E) (i_pic (id_intr s'));
  iu_route : routed b (ops ++ [(IRQ_IDE1, u8 (ncpu (i_mp (id_intr s)) - 1), false, false)]) (apic (i_mp (id_intr s')));
  iu_lock : ide_lk (id_fs s') = free_lock;
  iu_buf_lock : id_buf_lock s' = free_lock;
  iu_disk1 : havedisk1 (id_fs s') = if found then 1 else havedisk1 (id_fs s);
  iu_drive : id_drive s' = 0xe0;
}.

Lemma ide_init_ok E b ops i s busy r probe found l :
  pic_lines E (i_pic (id_intr s)) -> ioapics_ok b -> routed b ops (apic (i_mp (id_intr s))) ->
  covers b IRQ_IDE1 i -> (forall k, covers b IRQ_IDE1 k -> k = i) ->
  Forall (fun x => ~ ide_ready x) busy -> ide_ready r -> probed_readings probe found ->
  id_status s = busy ++ r :: probe ++ l ->
  exists s', ide_init s = Ok (tt, s') /\ ide_up E b ops found s s'.
Proof.
  intros Hp Hok Hr Hc Hu Hb Hrd Hpr El. unfold ide_init.
  destruct (enable_spec E _ IRQ_IDE1 Hp ltac:(unfold IRQ_IDE1; lia)) as (p & Ep & Hp').
  destruct (routed_enable b ops _ IRQ_IDE1 (u8 (ncpu (i_mp (id_intr s)) - 1)) false false i Hok Hr Hc Hu) as (a & Ea & Ra);
    [unfold IRQ_IDE1; lia|unfold u8; apply Z.mod_pos_bound; lia|].
  erewrite bind_ok by (by apply zoom_ok, zoom_ok). erewrite bind_ok by (by apply zoom_ok).
  erewrite bind_ok by (unfold on_intr, on_pic; apply zoom_ok, zoom_ok; exact Ep).
  erewrite bind_ok by (unfold on_intr, on_mp, pcpu_ncpu; apply zoom_ok, zoom_ok; reflexivity).
  erewrite bind_ok by (unfold on_intr, on_mp, on_apic; apply zoom_ok, zoom_ok, zoom_ok; exact Ea).
  match goal with |- context [(ide_wait false ≫= _) ?x] => set (s1 := x) end.
  erewrite bind_ok.
  2:{ unfold ide_wait. rewrite gets_bind. erewrite bind_ok by (apply (ide_wait_loop_ok busy r (probe ++ l) Hb Hrd);
        [change (id_status s1) with (id_status s); rewrite El, length_app; lia|exact El]). reflexivity. }
  rewrite modify_bind. match goal with |- context [(first_of _ _ ≫= _) ?x] => set (s2 := x) end.
  destruct (probe_ok probe found l s2 Hpr eq_refl) as [o Eo]. rewrite (bind_ok _ _ _ _ _ Eo).
  eexists. split; [reflexivity|]. destruct found; by split.
Qed.
End Ide.
