(* ===== verification/FsLog.v ===== *)
(** * Transactions: fs/log.c

    The log occupies the last sectors of the disk: a header sector with the
    number of logged blocks and their home sectors, then the blocks.  A
    transaction writes blocks to the log only; committing writes the header,
    copies the blocks home and clears the header.

    The theory shows that a transaction is atomic across a crash at any disk
    write. *)

From S2P Require Import Prelude DList Machine Thread Scheduler KString Bytes FsData BufCache.

Definition sizeof_logheader : Z := 4 + 4 * LOGSIZE.

Section Ops.
Context {T : Type} `{!FsKernel T}.

Notation F := (M (fsys T)).

Definition data_write (b : Z) (f : list Z -> list Z) : F unit :=
  buf_write b (fun x => set_b_data (f (b_data x)) x).

(** ** fs/block.c: the super block *)
Definition read_superblock (dev : Z) : F superblock :=
  bp ← bufcache_read dev 1;
  d ← buf_read bp b_data;
  bufcache_release bp ;;
  mret (mk_sb (get32 d 0) (get32 d 4) (get32 d 8) (get32 d 12)).

(** ** fs/log.c *)
Definition log_get {A} (f : log_t -> A) : F A := gets (fun s => f (log s)).
Definition log_mod (f : log_t -> log_t) : F unit := modify (fun s => set_log (f (log s)) s).
Definition lh_get (i : Z) : F Z :=
  check_index LOGSIZE i ;; log_get (fun l => lh_sector (l_lh l) !!! i).
Definition lh_set (i v : Z) : F unit :=
  check_index LOGSIZE i ;;
  log_mod (fun l => set_l_lh (mk_lh (lh_n (l_lh l)) (<[i := v]> (lh_sector (l_lh l)))) l).
Definition lh_set_n (n : Z) : F unit :=
  log_mod (fun l => set_l_lh (mk_lh n (lh_sector (l_lh l))) l).
Definition log_lock (s : fsys T) : spinlock := l_lock (log s).
Definition set_log_lock (v : spinlock) (s : fsys T) : fsys T := set_log (set_l_lock v (log s)) s.

Definition install_trans : F unit :=
  n ← log_get (fun l => lh_n (l_lh l));
  for_each (seqZ 0 n) (fun tail =>
    dev ← log_get l_dev;
    start ← log_get l_start;
    lbuf ← bufcache_read (u32 dev) (u32 (start + tail + 1));
    sec ← lh_get tail;
    dbuf ← bufcache_read (u32 dev) (u32 sec);
    d ← buf_read lbuf b_data;
    data_write dbuf (fun _ => d) ;;
    bufcache_write dbuf ;;
    bufcache_release lbuf ;;
    bufcache_release dbuf).

Definition read_head : F unit :=
  dev ← log_get l_dev;
  start ← log_get l_start;
  b ← bufcache_read (u32 dev) (u32 start);
  d ← buf_read b b_data;
  lh_set_n (s32 (get32 d 0)) ;;
  n ← log_get (fun l => lh_n (l_lh l));
  for_each (seqZ 0 n) (fun i => lh_set i (s32 (get32 d (4 + 4 * i)))) ;;
  bufcache_release b.

Definition write_head : F unit :=
  dev ← log_get l_dev;
  start ← log_get l_start;
  b ← bufcache_read (u32 dev) (u32 start);
  n ← log_get (fun l => lh_n (l_lh l));
  data_write b (set32 0 (u32 n)) ;;
  for_each (seqZ 0 n) (fun i =>
    v ← lh_get i;
    data_write b (set32 (4 + 4 * i) (u32 v))) ;;
  bufcache_write b ;;
  bufcache_release b.

Definition recover_from_log : F unit :=
  read_head ;;
  install_trans ;;
  lh_set_n 0 ;;
  write_head.

Definition log_init : F unit :=
  if decide (sizeof_logheader >= BSIZE) then panic "log_init: too big logheader"
  else
    zoom log_lock set_log_lock spinlock_init ;;
    sb ← read_superblock ROOTDEV;
    log_mod (fun l => mk_log (l_lock l) (s32 (sb_size sb - sb_nlog sb)) (s32 (sb_nlog sb)) (l_busy l)
                        ROOTDEV (l_lh l)) ;;
    recover_from_log.

Definition begin_trans : F unit :=
  acquire log_lock set_log_lock ;;
  busy ← log_get l_busy;
  if decide (busy <> 0) then fail Spin (* thread_sleep until the transaction is over *)
  else
    log_mod (set_l_busy 1) ;;
    release log_lock set_log_lock.

Definition commit_trans : F unit :=
  n ← log_get (fun l => lh_n (l_lh l));
  (if decide (n > 0) then
     write_head ;;
     install_trans ;;
     lh_set_n 0 ;;
     write_head
   else mret tt) ;;
  acquire log_lock set_log_lock ;;
  log_mod (set_l_busy 0) ;;
  wakeup PLog ;;
  release log_lock set_log_lock.

(** [for (i = 0; i < log.lh.n; i++) if (log.lh.sector[i] == b->sector) break;] *)
Fixpoint find_logged (l : list Z) (n sector : Z) : F Z :=
  match l with
  | [] => mret n
  | i :: l =>
      v ← lh_get i;
      if decide (u32 v = sector) then mret i else find_logged l n sector
  end.

Definition log_write (b : Z) : F unit :=
  n ← log_get (fun l => lh_n (l_lh l));
  size ← log_get l_size;
  if decide (n >= LOGSIZE \/ n >= size - 1) then panic "too big a transaction. %d < %d <= %d"
  else
    busy ← log_get l_busy;
    if decide (busy = 0) then panic "write outside of trans"
    else
      sector ← buf_read b b_sector;
      i ← find_logged (seqZ 0 n) n sector;
      lh_set i (s32 sector) ;;
      dev ← buf_read b b_dev;
      start ← log_get l_start;
      lbuf ← bufcache_read (u32 dev) (u32 (start + i + 1));
      d ← buf_read b b_data;
      data_write lbuf (fun _ => d) ;;
      bufcache_write lbuf ;;
      bufcache_release lbuf ;;
      n ← log_get (fun l => lh_n (l_lh l));
      (if decide (i = n) then lh_set_n (n + 1) else mret tt) ;;
      buf_write b (fun x => set_b_flags (Z.lor (b_flags x) B_DIRTY) x).
End Ops.

(** * Theory *)

Lemma upd_blk_same L x d : upd_blk L x d x = d.
Proof. unfold upd_blk. by rewrite decide_True. Qed.
Lemma upd_blk_ne L x d y : y <> x -> upd_blk L x d y = L y.
Proof. intros. unfold upd_blk. by rewrite decide_False. Qed.
Lemma upd_blk_twice L x d d' y : upd_blk (upd_blk L x d) x d' y = upd_blk L x d' y.
Proof. unfold upd_blk. by destruct (decide (y = x)). Qed.

(** Blocks written one after the other *)
Definition apply_blks (l : list (Z * list Z)) (c : Z -> list Z) : Z -> list Z :=
  foldl (fun f p => upd_blk f p.1 p.2) c l.

Lemma apply_blks_snoc l p c : apply_blks (l ++ [p]) c = upd_blk (apply_blks l c) p.1 p.2.
Proof. unfold apply_blks. by rewrite foldl_app. Qed.
Lemma apply_blks_other l c x : x ∉ l.*1 -> apply_blks l c x = c x.
Proof.
  induction l as [|p l IH] using rev_ind; [done|]. rewrite fmap_app, elem_of_app. intros Hx.
  rewrite apply_blks_snoc. rewrite upd_blk_ne; [apply IH; tauto|]. intros ->. apply Hx. right. by left.
Qed.
Lemma apply_blks_in l c x d : NoDup l.*1 -> (x, d) ∈ l -> apply_blks l c x = d.
Proof.
  induction l as [|p l IH] using rev_ind; [by intros _ []%elem_of_nil|].
  rewrite fmap_app, NoDup_app. intros (Hnd & Hdis & _) [Hx|[<-|[]%elem_of_nil]%elem_of_cons]%elem_of_app;
    rewrite apply_blks_snoc.
  - rewrite upd_blk_ne; [by apply IH|]. intros ->. apply (Hdis p.1); [|by left].
    apply list_elem_of_fmap. by exists (p.1, d).
  - apply upd_blk_same.
Qed.

(** A header block with the sectors [ents] *)
Record header (h : list Z) (ents : list Z) : Prop := {
  hd_len : length h = 512%nat;
  hd_n : get32 h 0 = Z.of_nat (length ents);
  hd_sec k : 0 <= k < Z.of_nat (length ents) -> get32 h (4 + 4 * k) = at_ ents k;
}.

Section Theory.
Context {T : Type} `{!FsKernel T} `{!FsKernelLaws T}.
Implicit Types s : fsys T.

(** The in-memory log header *)
Record lg s (st sz busy : Z) (ents : list Z) : Prop := {
  lg_lock : lock (l_lock (log s)) = 0;
  lg_start : l_start (log s) = st;
  lg_size : l_size (log s) = sz;
  lg_busy : l_busy (log s) = busy;
  lg_dev : l_dev (log s) = ROOTDEV;
  lg_n : lh_n (l_lh (log s)) = Z.of_nat (length ents);
  lg_sec k : 0 <= k < Z.of_nat (length ents) -> lh_sector (l_lh (log s)) !!! k = at_ ents k;
}.

Lemma lg_same s s' st sz busy ents : log s' = log s -> lg s st sz busy ents -> lg s' st sz busy ents.
Proof. intros E []. by split; rewrite ?E. Qed.

Definition layout (st sz : Z) : Prop := 1 < st /\ 2 <= sz /\ st + sz <= 2 ^ 28.
Definition home (st sz sec : Z) : Prop := oksec sec /\ ~ st <= sec < st + sz.

(** The super block is never logged. *)
Definition loggable (st sz sec : Z) : Prop := home st sz sec /\ sec <> 1.
Lemma loggable_home st sz l : Forall (loggable st sz) l -> Forall (home st sz) l.
Proof. intros H. eapply Forall_impl; [exact H|]. by intros x []. Qed.

Lemma home_u32 sec : oksec sec -> u32 sec = sec.
Proof. intros H. unfold oksec in H. apply u32_id. unfold W32. lia. Qed.
Lemma oksec_s32 sec : oksec sec -> s32 sec = sec.
Proof. intros H. unfold oksec in H. apply s32_id. lia. Qed.

(** Reading and writing the data of a held block *)
Lemma data_write_spec s dk L P H sec i f :
  crep s dk L P H -> H !! sec = Some i -> length (f (L sec)) = 512%nat ->
  exists s', data_write i f s = Ok (tt, s') /\ crep s' dk (upd_blk L sec (f (L sec))) P H
    /\ same_rest s s' /\ disk s' = disk s /\ past s' = past s.
Proof.
  intros C Hh Hlen. destruct (crep_held_buf _ _ _ _ _ _ _ C Hh) as (Hi & _ & _ & _ & _ & _ & Hdat).
  exists (upd_buf i (set_b_data (f (L sec))) s). split_and!; [|by apply crep_modify|done..].
  unfold data_write. rewrite buf_write_ok by in_bounds. unfold upd_buf. by rewrite Hdat.
Qed.

Lemma held_data s dk L P H sec i :
  crep s dk L P H -> H !! sec = Some i -> buf_read i b_data s = Ok (L sec, s).
Proof.
  intros C Hh. destruct (crep_held_buf _ _ _ _ _ _ _ C Hh) as (Hi & _ & _ & _ & _ & _ & Hdat).
  rewrite buf_read_ok by in_bounds. by rewrite Hdat.
Qed.

Lemma log_get_bind {A B} (f : log_t -> A) (k : A -> M (fsys T) B) s : (log_get f ≫= k) s = k (f (log s)) s.
Proof. done. Qed.
Lemma lh_get_ok s st sz busy ents k :
  lg s st sz busy ents -> (length ents <= 10)%nat -> 0 <= k < Z.of_nat (length ents) ->
  lh_get k s = Ok (at_ ents k, s).
Proof.
  intros Hl Hlen Hk. unfold lh_get. rewrite (bind_ok _ _ _ _ _ (check_index_ok LOGSIZE k s ltac:(unfold LOGSIZE; lia))).
  unfold log_get, gets. by rewrite (lg_sec _ _ _ _ _ Hl).
Qed.

(** ** Writing the header *)
Lemma write_head_spec s dk L P H st sz busy ents :
  crep s dk L P H -> lg s st sz busy ents -> layout st sz -> (length ents <= 10)%nat ->
  Forall oksec ents -> H !! st = None -> st ∉ P -> (size (P ∪ dom H) < 10)%nat ->
  exists s' h, write_head s = Ok (tt, s') /\ header h ents
    /\ crep s' (upd_blk dk st h) (upd_blk L st h) P H
    /\ same_rest s s' /\ past s' = disk s :: past s.
Proof.
  intros C Hlg Hlay Hn Hok Hno HP Hsz. unfold layout in Hlay. unfold write_head. rewrite !log_get_bind.
  rewrite (lg_dev _ _ _ _ _ Hlg), (lg_start _ _ _ _ _ Hlg).
  assert (oksec st) as Hst by (unfold oksec; lia). rewrite (home_u32 st Hst).
  change (u32 ROOTDEV) with ROOTDEV.
  destruct (bufcache_read_spec s dk L P H st C Hst Hno (or_intror Hsz)) as (b & s1 & E1 & C1 & R1 & D1 & Pa1).
  rewrite (bind_ok _ _ _ _ _ E1). rewrite log_get_bind.
  assert (lg s1 st sz busy ents) as Hlg1 by (apply (lg_same s); [apply R1|done]).
  rewrite (lg_n _ _ _ _ _ Hlg1). set (n := Z.of_nat (length ents)).
  set (H1 := <[st := b]> H) in *. assert (H1 !! st = Some b) as Hb by apply lookup_insert_eq.
  destruct (cr_len _ _ _ _ _ C st Hst) as [HlenL _].
  assert (u32 n = n) as En by (apply u32_id; unfold W32; lia).
  destruct (data_write_spec s1 dk L P H1 st b (set32 0 (u32 n)) C1 Hb) as (s2 & E2 & C2 & R2 & D2 & Pa2).
  { rewrite set32_length; [done|lia|]. rewrite HlenL. cbn; lia. }
  rewrite (bind_ok _ _ _ _ _ E2).
  set (body := fun i => v ← lh_get i; data_write b (set32 (4 + 4 * i) (u32 v))).
  destruct (for_range_ind (fun k x => exists h,
      crep x dk (upd_blk L st h) P H1 /\ same_rest s x /\ disk x = disk s /\ past x = past s
      /\ length h = 512%nat /\ get32 h 0 = n /\ forall j, 0 <= j < k -> get32 h (4 + 4 * j) = at_ ents j)
    body n) with (s := s2) as (s3 & E3 & h & C3 & R3 & D3 & Pa3 & Hlen3 & H0 & Hs); [lia| | |].
  - intros k x Hk (h & Cx & Rx & Dx & Px & Hlx & H0x & Hsx).
    assert (lg x st sz busy ents) as Hlgx by (apply (lg_same s); [apply Rx|done]).
    unfold body. rewrite (bind_ok _ _ _ _ _ (lh_get_ok x st sz busy ents k Hlgx Hn Hk)).
    assert (oksec (at_ ents k)) as Hek.
    { apply (Forall_lookup_total_1 oksec ents); [done|]. lia. }
    rewrite (home_u32 _ Hek).
    destruct (data_write_spec x dk (upd_blk L st h) P H1 st b (set32 (4 + 4 * k) (at_ ents k)) Cx Hb)
      as (y & Ey & Cy & Ry & Dy & Py); rewrite ?upd_blk_same in *.
    { rewrite set32_length; [done|lia|lia]. }
    exists y. split; [done|]. exists (set32 (4 + 4 * k) (at_ ents k) h). split_and!.
    + eapply crep_ext; [exact Cy|done|]. intros z _. by rewrite upd_blk_twice.
    + by eapply same_rest_trans.
    + congruence.
    + congruence.
    + rewrite set32_length; lia.
    + unfold set32. rewrite get32_splice_other; cbn; lia.
    + intros j Hj. destruct (decide (j = k)) as [->|Hne].
      * apply get32_set32; [lia|lia|]. unfold oksec in Hek. unfold W32. lia.
      * unfold set32. rewrite get32_splice_other; [apply Hsx; lia|lia|lia|cbn; lia|cbn; lia].
  - exists (set32 0 n (L st)). rewrite En in C2. split_and!; try congruence.
    + by eapply same_rest_trans.
    + rewrite set32_length; [done|lia|rewrite HlenL; cbn; lia].
    + apply get32_set32; [lia|rewrite HlenL; cbn; lia|unfold W32; lia].
    + lia.
  - rewrite (bind_ok _ _ _ _ _ E3).
    destruct (bufcache_write_spec s3 dk _ P H1 st b C3 Hb) as (s4 & E4 & C4 & R4 & D4 & Pa4).
    rewrite (bind_ok _ _ _ _ _ E4). rewrite upd_blk_same in *.
    replace (P ∖ {[st]}) with P in C4 by (apply set_eq; set_solver).
    destruct (bufcache_release_spec s4 _ _ P H1 st b C4 Hb) as (s5 & E5 & C5 & R5 & D5 & Pa5).
    { right. by rewrite !upd_blk_same. }
    exists s5, h. split; [exact E5|]. split; [by split|]. split_and!.
    + unfold H1 in C5. rewrite delete_insert_id in C5 by done. done.
    + eapply same_rest_trans; [exact R3|]. by eapply same_rest_trans.
    + rewrite Pa5, Pa4, D3, Pa3. done.
Qed.
(** ** Installing the logged blocks *)
Definition img (im : image) (c : Z -> list Z) : Prop :=
  forall x, oksec x -> dread im (ROOTDEV, x) = c x /\ length (c x) = 512%nat.

Lemma crep_img s dk L P H : crep s dk L P H -> img (disk s) dk.
Proof. intros C x Hx. split; [by apply (cr_disk _ _ _ _ _ C)|]. by apply (cr_len _ _ _ _ _ C). Qed.

Lemma two_released (a b x y : Z) (H : gmap Z Z) :
  H !! a = None -> H !! b = None -> delete a (delete b (<[a := x]> (<[b := y]> H))) = H.
Proof.
  intros Ha Hb. apply map_eq. intros k. destruct (decide (k = a)) as [->|Hka]; [by rewrite lookup_delete_eq, Ha|].
  rewrite lookup_delete_ne by done. destruct (decide (k = b)) as [->|Hkb]; [by rewrite lookup_delete_eq, Hb|].
  by rewrite lookup_delete_ne, !lookup_insert_ne by done.
Qed.

Lemma take_snoc {A} (l : list A) k p : l !! k = Some p -> take (S k) l = take k l ++ [p].
Proof. apply take_S_r. Qed.

(** One block: from log sector [lsec] to its home [sec] *)
Definition install_one (lsec sec : Z) : M (fsys T) unit :=
  lbuf ← bufcache_read ROOTDEV lsec;
  dbuf ← bufcache_read ROOTDEV sec;
  d ← buf_read lbuf b_data;
  data_write dbuf (fun _ => d) ;;
  bufcache_write dbuf ;;
  bufcache_release lbuf ;;
  bufcache_release dbuf.

Lemma install_one_spec s dk L P lsec sec :
  crep s dk L P ∅ -> oksec lsec -> oksec sec -> lsec <> sec -> lsec ∉ P ->
  (size P < 10)%nat -> sec ∈ P \/ (size P < 9)%nat ->
  exists s', install_one lsec sec s = Ok (tt, s')
    /\ crep s' (upd_blk dk sec (dk lsec)) (upd_blk L sec (dk lsec)) (P ∖ {[sec]}) ∅
    /\ same_rest s s' /\ past s' = disk s :: past s.
Proof.
  intros C Hl Hs Hne HlP Hsz Hsz2. unfold install_one.
  destruct (bufcache_read_spec s dk L P ∅ lsec C Hl) as (lb & s1 & E1 & C1 & R1 & D1 & P1);
    [apply lookup_empty|right; by rewrite dom_empty_L, union_empty_r_L|].
  rewrite (bind_ok _ _ _ _ _ E1). set (H1 := <[lsec := lb]> (∅ : gmap Z Z)) in *.
  destruct (bufcache_read_spec s1 dk L P H1 sec C1 Hs) as (db & s2 & E2 & C2 & R2 & D2 & P2).
  { unfold H1. rewrite lookup_insert_ne by done. apply lookup_empty. }
  { destruct Hsz2 as [?|Hsz2]; [by left|right]. unfold H1. rewrite dom_insert_L, dom_empty_L, union_empty_r_L.
    pose proof (size_union_alt P ({[lsec]} : gset Z)) as Eu. rewrite Eu.
    assert (size (({[lsec]} : gset Z) ∖ P) <= 1)%nat; [|lia].
    etransitivity; [apply subseteq_size, subseteq_difference_l; reflexivity|]. by rewrite size_singleton. }
  rewrite (bind_ok _ _ _ _ _ E2). set (H2 := <[sec := db]> H1) in *.
  assert (H2 !! lsec = Some lb) as Hlb by (unfold H2, H1; rewrite lookup_insert_ne by done; apply lookup_insert_eq).
  assert (H2 !! sec = Some db) as Hdb by apply lookup_insert_eq.
  rewrite (bind_ok _ _ _ _ _ (held_data _ _ _ _ _ _ _ C2 Hlb)).
  assert (L lsec = dk lsec) as EL by (apply (cr_clean _ _ _ _ _ C); [done..|apply lookup_empty]).
  destruct (data_write_spec s2 dk L P H2 sec db (fun _ => L lsec) C2 Hdb) as (s3 & E3 & C3 & R3 & D3 & P3).
  { by apply (cr_len _ _ _ _ _ C). }
  rewrite (bind_ok _ _ _ _ _ E3).
  destruct (bufcache_write_spec s3 _ _ _ _ sec db C3 Hdb) as (s4 & E4 & C4 & R4 & D4 & P4).
  rewrite (bind_ok _ _ _ _ _ E4). rewrite upd_blk_same in C4.
  destruct (bufcache_release_spec s4 _ _ _ _ lsec lb C4 Hlb) as (s5 & E5 & C5 & R5 & D5 & P5).
  { right. by rewrite !upd_blk_ne. }
  rewrite (bind_ok _ _ _ _ _ E5).
  destruct (bufcache_release_spec s5 _ _ _ _ sec db C5) as (s6 & E6 & C6 & R6 & D6 & P6).
  { by rewrite lookup_delete_ne. }
  { right. by rewrite !upd_blk_same. }
  exists s6. split; [exact E6|]. split_and!.
  - rewrite EL in C6. unfold H2, H1 in C6. rewrite two_released in C6 by apply lookup_empty. done.
  - repeat (eapply same_rest_trans; [eassumption|]). apply same_rest_refl.
  - rewrite P6, P5, P4, D3, P3, D2, D1, P2, P1. done.
Qed.

Lemma install_trans_spec s dk L P st sz busy blks :
  crep s dk L P ∅ -> lg s st sz busy blks.*1 -> layout st sz -> (length blks <= 10)%nat ->
  NoDup blks.*1 -> Forall (home st sz) blks.*1 -> Z.of_nat (length blks) < sz ->
  (forall k p, blks !! k = Some p -> dk (st + Z.of_nat k + 1) = p.2) ->
  (forall x, x ∈ P -> x ∈ blks.*1) -> (size P < 10)%nat ->
  (forall x, x ∈ blks.*1 -> x ∈ P \/ (size P < 9)%nat) ->
  exists s' hist, install_trans s = Ok (tt, s')
    /\ crep s' (apply_blks blks dk) (apply_blks blks L) (P ∖ list_to_set blks.*1) ∅
    /\ same_rest s s' /\ past s' = hist ++ past s
    /\ forall im, im ∈ hist -> exists j, img im (apply_blks (take j blks) dk).
Proof.
  intros C Hlg Hlay Hn Hnd Hhome Hfit Hdat HP Hsz Hsz2. unfold layout in Hlay.
  unfold install_trans. rewrite log_get_bind, (lg_n _ _ _ _ _ Hlg), length_fmap.
  match goal with |- context [for_each _ ?f] => set (body := f) end.
  destruct (for_range_ind (fun k x => exists hist,
      crep x (apply_blks (take (Z.to_nat k) blks) dk) (apply_blks (take (Z.to_nat k) blks) L)
        (P ∖ list_to_set (take (Z.to_nat k) blks).*1) ∅
      /\ same_rest s x /\ past x = hist ++ past s
      /\ forall im, im ∈ hist -> exists j, img im (apply_blks (take j blks) dk))
    body (Z.of_nat (length blks))) with (s := s) as (s' & E & hist & C' & R' & Pa' & Hh); [lia| | |].
  - intros k x Hk (hist & Cx & Rx & Px & Hhx).
    destruct (lookup_lt_is_Some_2 blks (Z.to_nat k) ltac:(lia)) as [p Hp].
    assert (blks.*1 !! Z.to_nat k = Some p.1) as Hp1 by (rewrite list_lookup_fmap, Hp; done).
    assert (p.1 ∈ blks.*1) as Hin by (eapply list_elem_of_lookup_2; exact Hp1).
    assert (at_ blks.*1 k = p.1) as Eat by (unfold at_; rewrite list_lookup_total_alt, Hp1; done).
    assert (home st sz p.1) as [Hpok Hpl] by (by apply (Forall_forall (home st sz) blks.*1)).
    assert (lg x st sz busy blks.*1) as Hlgx by (apply (lg_same s); [apply Rx|done]).
    set (lsec := st + k + 1). assert (oksec lsec) as Hls by (unfold oksec, lsec; lia).
    assert (lsec ∉ blks.*1) as Hlh.
    { intros Hx. apply (Forall_forall (home st sz) blks.*1) in Hx; [|done]. destruct Hx as [_ Hx].
      apply Hx. unfold lsec. lia. }
    unfold body. rewrite !log_get_bind. rewrite (lg_dev _ _ _ _ _ Hlgx), (lg_start _ _ _ _ _ Hlgx).
    change (u32 ROOTDEV) with ROOTDEV. fold lsec. rewrite (home_u32 lsec Hls).
    set (Pk := P ∖ list_to_set (take (Z.to_nat k) blks).*1) in *.
    assert (size Pk <= size P)%nat as HszP by (apply subseteq_size; unfold Pk; set_solver).
    destruct (install_one_spec x _ _ _ lsec p.1 Cx Hls Hpok) as (y & Ey & Cy & Ry & Py).
    { unfold lsec. lia. }
    { unfold Pk. rewrite elem_of_difference. intros [Hx _]. by apply Hlh, HP. }
    { lia. }
    { destruct (Hsz2 p.1 Hin) as [Hx|Hx]; [left|right; lia]. unfold Pk. apply elem_of_difference. split; [done|].
      rewrite elem_of_list_to_set, fmap_take. intros Ht. apply list_elem_of_lookup in Ht as [i Hi].
      apply lookup_take_Some in Hi as [Hi Hlt].
      pose proof (NoDup_lookup _ _ _ _ Hnd Hi Hp1). lia. }
    exists y. split.
    { rewrite <- Ey. unfold install_one. unfold mbind, M_bind. destruct (bufcache_read ROOTDEV lsec x) as [[lb z]| | | |] eqn:El; try done.
      assert (lg z st sz busy blks.*1) as Hlgz.
      { destruct (bufcache_read_spec x _ _ _ _ lsec Cx Hls) as (i0 & z0 & E0 & _ & R0 & _);
          [apply lookup_empty|right; rewrite dom_empty_L, union_empty_r_L; lia|].
        rewrite E0 in El. injection El as <- <-. apply (lg_same x); [apply R0|done]. }
      rewrite (lh_get_ok z st sz busy blks.*1 k Hlgz) by (rewrite ?length_fmap; lia).
      rewrite Eat, (home_u32 p.1 Hpok). done. }
    assert (apply_blks (take (Z.to_nat k) blks) dk lsec = p.2) as Ed.
    { rewrite apply_blks_other; [rewrite <- (Hdat _ _ Hp); unfold lsec; f_equal; lia|].
      rewrite fmap_take. intros Hx. apply Hlh. eapply elem_of_take in Hx as (i & Hi & _).
      eapply list_elem_of_lookup_2. exact Hi. }
    rewrite Ed in Cy.
    replace (Z.to_nat (k + 1)) with (S (Z.to_nat k)) by lia. rewrite (take_snoc _ _ _ Hp), !apply_blks_snoc.
    exists (disk x :: hist). split_and!.
    + replace (P ∖ list_to_set (take (Z.to_nat k) blks ++ [p]).*1) with (Pk ∖ {[p.1]}); [done|].
      unfold Pk. rewrite fmap_app, list_to_set_app_L. cbn. rewrite union_empty_r_L. set_solver.
    + by eapply same_rest_trans.
    + rewrite Py, Px. done.
    + intros im [->|Him]%elem_of_cons; [|by apply Hhx]. exists (Z.to_nat k). by eapply crep_img.
  - exists []. split_and!; [|done|done|by intros im []%elem_of_nil].
    replace (P ∖ list_to_set (take (Z.to_nat 0) blks).*1) with P; [done|]. cbn. set_solver.
  - exists s', hist. rewrite Nat2Z.id, take_ge in C' by done. by split_and!.
Qed.
(** ** Contents from which recovery gives the home blocks [V] *)

(** [blks] are the blocks a disk with the contents [c] has in its log. *)
Record logged (c : Z -> list Z) (st sz : Z) (blks : list (Z * list Z)) : Prop := {
  lo_header : header (c st) blks.*1;
  lo_len : (length blks <= 10)%nat /\ Z.of_nat (length blks) < sz;
  lo_nodup : NoDup blks.*1;
  lo_home : Forall (loggable st sz) blks.*1;
  lo_data k p : blks !! k = Some p -> c (st + Z.of_nat k + 1) = p.2;
}.
Definition recoverable (c : Z -> list Z) (st sz : Z) (V : Z -> list Z) : Prop :=
  exists blks, logged c st sz blks /\ forall x, home st sz x -> apply_blks blks c x = V x.

(** A crash while blocks are installed loses nothing. *)
Lemma recoverable_partial c st sz blks j :
  layout st sz -> logged c st sz blks ->
  recoverable (apply_blks (take j blks) c) st sz (apply_blks blks c).
Proof.
  intros Hlay [Hh [Hlen Hfit] Hnd Hlgb Hdat]. set (c' := apply_blks (take j blks) c). unfold layout in Hlay. pose proof (loggable_home _ _ _ Hlgb) as Hhome.
  assert (forall x, x ∉ blks.*1 -> c' x = c x) as Hother.
  { intros x Hx. apply apply_blks_other. rewrite fmap_take. intros (i & Hi & _)%elem_of_take.
    apply Hx. by eapply list_elem_of_lookup_2. }
  assert (forall x, st <= x < st + sz -> c' x = c x) as Hlog.
  { intros x Hx. apply Hother. intros Hin. apply (Forall_forall (home st sz) blks.*1) in Hin as [_ Hin]; done. }
  exists blks. split.
  - split; try done.
    + rewrite Hlog by lia. done.
    + intros k p Hp. rewrite Hlog; [by apply Hdat|]. apply lookup_lt_Some in Hp. lia.
  - intros x Hx. destruct (decide (x ∈ blks.*1)) as [Hin|Hin].
    + apply list_elem_of_fmap in Hin as ([y d] & -> & Hin). cbn. by rewrite !(apply_blks_in blks _ y d Hnd Hin).
    + rewrite !apply_blks_other by done. by apply Hother.
Qed.

Lemma recoverable_empty c st sz V :
  layout st sz -> length (c st) = 512%nat -> get32 (c st) 0 = 0 -> (forall x, home st sz x -> c x = V x) ->
  recoverable c st sz V.
Proof.
  intros Hlay Hl Hn HV. unfold layout in Hlay. exists []. split; [|done]. split; try done.
  - split; [done..|]. intros k Hk. cbn in Hk. lia.
  - cbn. lia.
  - constructor.
Qed.

Lemma recoverable_ext c st sz V V' :
  (forall x, home st sz x -> V x = V' x) -> recoverable c st sz V -> recoverable c st sz V'.
Proof. intros E (blks & Hl & HV). exists blks. split; [done|]. intros x Hx. rewrite HV by done. by apply E. Qed.

(** ** Recovery *)
Record same_rest_l s s' : Prop := {
  srl_ic_lock : ic_lock s' = ic_lock s;
  srl_inodes : inodes s' = inodes s;
  srl_ft_lock : ft_lock s' = ft_lock s;
  srl_files : files s' = files s;
  srl_mem : fk_mem (kern s') = fk_mem (kern s);
}.
Lemma same_rest_log s s' : same_rest s s' -> same_rest_l s s'.
Proof. intros []. by split. Qed.
Lemma same_rest_l_trans s1 s2 s3 : same_rest_l s1 s2 -> same_rest_l s2 s3 -> same_rest_l s1 s3.
Proof. intros [] []. split; congruence. Qed.

Lemma same_rest_l_set_log s l : same_rest_l s (set_log l s).
Proof. done. Qed.

Lemma crep_set_log s l dk L P H : crep s dk L P H -> crep (set_log l s) dk L P H.
Proof. intros [[] ? ? ? ? ? ? ? ? ? ? ? ?]. by split; [split|..]. Qed.

Lemma lh_set_ok k v s :
  0 <= k < LOGSIZE -> lh_set k v s = Ok (tt,
    set_log (set_l_lh (mk_lh (lh_n (l_lh (log s))) (<[k := v]> (lh_sector (l_lh (log s))))) (log s)) s).
Proof. intros Hk. unfold lh_set. by rewrite (bind_ok _ _ _ _ _ (check_index_ok LOGSIZE k s Hk)). Qed.

Definition log_at s (st sz busy : Z) : Prop :=
  lock (l_lock (log s)) = 0 /\ l_start (log s) = st /\ l_size (log s) = sz /\ l_busy (log s) = busy
  /\ l_dev (log s) = ROOTDEV.

Lemma read_head_spec s c L P st sz busy ents :
  crep s c L P ∅ -> log_at s st sz busy -> layout st sz -> header (L st) ents ->
  (length ents <= 10)%nat -> Forall oksec ents -> (size P < 10)%nat -> st ∉ P ->
  exists s', read_head s = Ok (tt, s') /\ crep s' c L P ∅ /\ lg s' st sz busy ents
    /\ same_rest_l s s' /\ disk s' = disk s /\ past s' = past s.
Proof.
  intros C (Hk & Hst & Hsz & Hb & Hd) Hlay Hh Hn Hok HszP HstP. unfold layout in Hlay. unfold read_head.
  rewrite !log_get_bind. rewrite Hd, Hst. change (u32 ROOTDEV) with ROOTDEV.
  assert (oksec st) as Hsto by (unfold oksec; lia). rewrite (home_u32 st Hsto).
  destruct (bufcache_read_spec s c L P ∅ st C Hsto) as (b & s1 & E1 & C1 & R1 & D1 & P1);
    [apply lookup_empty|right; by rewrite dom_empty_L, union_empty_r_L|].
  rewrite (bind_ok _ _ _ _ _ E1).
  assert ((<[st := b]> (∅ : gmap Z Z)) !! st = Some b) as Hbh by apply lookup_insert_eq.
  rewrite (bind_ok _ _ _ _ _ (held_data _ _ _ _ _ _ _ C1 Hbh)). destruct Hh as [_ Hhn Hhs].
  assert (s32 (get32 (L st) 0) = Z.of_nat (length ents)) as En by (rewrite Hhn; apply s32_id; lia).
  unfold lh_set_n at 1, log_mod at 1. rewrite modify_bind, log_get_bind. fs_cbn. cbn [l_lh set_l_lh lh_n]. rewrite En.
  set (n := Z.of_nat (length ents)) in *. set (l1 := set_l_lh (mk_lh n (lh_sector (l_lh (log s1)))) (log s1)).
  destruct (for_range_ind (fun k x => exists l, x = set_log l s1 /\ l_lock l = l_lock (log s)
      /\ l_start l = st /\ l_size l = sz /\ l_busy l = busy /\ l_dev l = ROOTDEV /\ lh_n (l_lh l) = n
      /\ forall j, 0 <= j < k -> lh_sector (l_lh l) !!! j = at_ ents j)
    (fun i => lh_set i (s32 (get32 (L st) (4 + 4 * i)))) n) with (s := set_log l1 s1)
    as (s2 & E2 & l & -> & Hl1 & Hl2 & Hl3 & Hl4 & Hl5 & Hl6 & Hl7); [lia| | |].
  - intros k x Hkn (l & -> & Hl1 & Hl2 & Hl3 & Hl4 & Hl5 & Hl6 & Hl7).
    rewrite lh_set_ok by (unfold LOGSIZE; lia). eexists. split; [reflexivity|]. fs_cbn.
    exists (set_l_lh (mk_lh (lh_n (l_lh l)) (<[k := s32 (get32 (L st) (4 + 4 * k))]> (lh_sector (l_lh l)))) l).
    split_and!; try done. intros j Hj. cbn [l_lh set_l_lh lh_sector]. rewrite lookup_total_upd.
    destruct (decide (k = j)) as [<-|Hne]; [|apply Hl7; lia]. rewrite Hhs by lia. apply oksec_s32.
    apply (Forall_lookup_total_1 oksec ents); [done|lia].
  - exists l1. split; [done|]. unfold l1. cbn [set_l_lh l_lock l_start l_size l_busy l_dev l_lh lh_n].
    rewrite (sr_log _ _ R1). split_and!; try done. lia.
  - rewrite (bind_ok _ _ _ _ _ E2).
    destruct (bufcache_release_spec (set_log l s1) _ _ _ _ st b (crep_set_log _ l _ _ _ _ C1) Hbh)
      as (s3 & E3 & C3 & R3 & D3 & P3).
    { right. apply (cr_clean _ _ _ _ _ C); [done..|apply lookup_empty]. }
    exists s3. split; [exact E3|]. split_and!.
    + rewrite delete_insert_id in C3 by apply lookup_empty. done.
    + apply (lg_same (set_log l s1)); [apply R3|]. split; fs_cbn; try done; congruence.
    + eapply same_rest_l_trans; [apply same_rest_log, R1|].
      eapply same_rest_l_trans; [|apply same_rest_log, R3]. apply same_rest_l_set_log.
    + rewrite D3. done.
    + rewrite P3. done.
Qed.
(** Every image in [hist] recovers to the home contents [V]. *)
Definition recovers (hist : list image) (st sz : Z) (V : Z -> list Z) : Prop :=
  forall im, im ∈ hist -> exists c, img im c /\ recoverable c st sz V.

(** Install, then clear the header: the end of a commit and of a recovery *)
Lemma finish_spec s dk L P st sz busy blks :
  crep s dk L P ∅ -> lg s st sz busy blks.*1 -> layout st sz -> logged dk st sz blks ->
  (forall x, x ∈ P -> x ∈ blks.*1) -> (size P < 10)%nat ->
  (forall x, x ∈ blks.*1 -> x ∈ P \/ (size P < 9)%nat) ->
  exists s' h hist, (install_trans ;; lh_set_n 0 ;; write_head) s = Ok (tt, s') /\ header h []
    /\ crep s' (upd_blk (apply_blks blks dk) st h) (upd_blk (apply_blks blks L) st h) ∅ ∅
    /\ lg s' st sz busy [] /\ same_rest_l s s' /\ past s' = hist ++ past s
    /\ recovers hist st sz (apply_blks blks dk).
Proof.
  intros C Hlg Hlay Hlo HP Hsz Hsz2. pose proof Hlo as [Hhdr [Hn Hfit] Hnd Hlgb Hdat]. pose proof (loggable_home _ _ _ Hlgb) as Hhome.
  destruct (install_trans_spec s dk L P st sz busy blks) as (s1 & hist & E1 & C1 & R1 & P1 & Hh1); [done..|].
  rewrite (bind_ok _ _ _ _ _ E1). unfold lh_set_n, log_mod. rewrite modify_bind.
  set (s2 := set_log _ s1). replace (P ∖ list_to_set blks.*1) with (∅ : gset Z) in C1.
  2:{ symmetry. apply set_eq. intros x. rewrite elem_of_difference, elem_of_list_to_set.
      split; [intros [? Hx]; exfalso; by apply Hx, HP|by intros ?%not_elem_of_empty]. }
  assert (lg s1 st sz busy blks.*1) as Hlg1 by (apply (lg_same s); [apply R1|done]).
  assert (lg s2 st sz busy []) as Hlg2.
  { destruct Hlg1. split; try done. intros k Hk. cbn in Hk. lia. }
  assert (oksec st) as Hst by (unfold layout, oksec in *; lia).
  destruct (write_head_spec s2 _ _ ∅ ∅ st sz busy [] (crep_set_log _ _ _ _ _ _ C1) Hlg2 Hlay)
    as (s3 & h & E3 & Hh & C3 & R3 & P3);
    [cbn; lia|constructor|apply lookup_empty|apply not_elem_of_empty|rewrite dom_empty_L, union_empty_r_L, size_empty; lia|].
  exists s3, h, (disk s1 :: hist). split; [exact E3|]. split; [done|]. split; [done|].
  split; [by apply (lg_same s2); [apply R3|]|]. split; [|split].
  - eapply same_rest_l_trans; [apply same_rest_log, R1|].
    eapply same_rest_l_trans; [|apply same_rest_log, R3]. apply same_rest_l_set_log.
  - rewrite P3. cbn. by rewrite P1.
  - intros im [->|Him]%elem_of_cons.
    + exists (apply_blks (take (length blks) blks) dk). split; [rewrite take_ge by done; by eapply crep_img|].
      by apply recoverable_partial.
    + destruct (Hh1 im Him) as [j Hj]. exists (apply_blks (take j blks) dk). split; [done|].
      by apply recoverable_partial.
Qed.

Lemma recover_from_log_spec s c st sz busy blks :
  crep s c c ∅ ∅ -> log_at s st sz busy -> layout st sz -> logged c st sz blks ->
  exists s' h hist, recover_from_log s = Ok (tt, s') /\ header h []
    /\ crep s' (upd_blk (apply_blks blks c) st h) (upd_blk (apply_blks blks c) st h) ∅ ∅
    /\ lg s' st sz busy [] /\ same_rest_l s s' /\ past s' = hist ++ past s
    /\ recovers hist st sz (apply_blks blks c).
Proof.
  intros C Hlog Hlay Hlo. pose proof Hlo as [Hhdr [Hn Hfit] Hnd Hlgb Hdat]. pose proof (loggable_home _ _ _ Hlgb) as Hhome.
  destruct (read_head_spec s c c ∅ st sz busy blks.*1 C Hlog Hlay Hhdr) as (s1 & E1 & C1 & Hlg1 & R1 & D1 & P1).
  { by rewrite length_fmap. }
  { eapply Forall_impl; [exact Hhome|]. by intros x []. }
  { rewrite size_empty. lia. }
  { apply not_elem_of_empty. }
  unfold recover_from_log. rewrite (bind_ok _ _ _ _ _ E1).
  destruct (finish_spec s1 c c ∅ st sz busy blks) as (s2 & h & hist & E2 & Hh & C2 & Hlg2 & R2 & P2 & Hr);
    [done..|by intros x ?%not_elem_of_empty|rewrite size_empty; lia|right; rewrite size_empty; lia|].
  exists s2, h, hist. split; [exact E2|]. split_and!; try done; [by eapply same_rest_l_trans|]. by rewrite P2, P1.
Qed.

(** ** Inside a transaction

    [V0] are the home blocks when the transaction began, [V] as the process
    sees them now; [ents] are the logged sectors, [U] the blocks changed since
    they were logged, [H] the blocks held.  [past0] has the disk images before
    the transaction. *)
Record txn := mk_txn { tx_busy : Z; tx_past : list image }.
Record trep0 (past0 : txn) (V0 : Z -> list Z) s (st sz : Z) (ents : list Z) (V : Z -> list Z)
    (U : gset Z) (H : gmap Z Z) (dk L : Z -> list Z) : Prop := {
  t_crep : crep s dk L (list_to_set ents) H;
  t_lg : lg s st sz (tx_busy past0) ents;
  t_lay : layout st sz;
  t_len : (length ents <= 10)%nat /\ Z.of_nat (length ents) < sz;
  t_nd : NoDup ents;
  t_home : Forall (loggable st sz) ents;
  t_dom x : x ∈ dom H -> home st sz x;
  t_view x : home st sz x -> L x = V x;
  t_U x : x ∈ U -> x ∈ dom H;
  t_logged k x : ents !! k = Some x -> x ∉ U -> dk (st + Z.of_nat k + 1) = V x;
  t_clean x : home st sz x -> x ∉ ents -> x ∉ U -> V x = dk x;
  t_old x : home st sz x -> dk x = V0 x;
  t_hdr : get32 (dk st) 0 = 0;
  t_hist : exists h, past s = h ++ tx_past past0 /\ recovers h st sz V0;
}.
Definition trep past0 V0 s st sz ents V U H : Prop := exists dk L, trep0 past0 V0 s st sz ents V U H dk L.

(** Outside of transactions *)
Definition irep s (st sz : Z) (V : Z -> list Z) : Prop :=
  layout st sz /\ exists dk, crep s dk dk ∅ ∅ /\ lg s st sz 0 [] /\ get32 (dk st) 0 = 0
    /\ forall x, home st sz x -> V x = dk x.

Lemma layout_st st sz : layout st sz -> oksec st.
Proof. unfold layout, oksec. lia. Qed.

Lemma begin_trans_spec s st sz V :
  irep s st sz V ->
  exists s', begin_trans s = Ok (tt, s') /\ trep (mk_txn 1 (past s)) V s' st sz [] V ∅ ∅ /\ same_rest_l s s'.
Proof.
  intros (Hlay & dk & C & Hlg & Hhdr & HV). unfold begin_trans.
  facquire (id_kern _ (cr_idle _ _ _ _ _ C)) (lg_lock _ _ _ _ _ Hlg).
  rewrite log_get_bind.
  rewrite decide_False by (change (~ l_busy (log s) <> 0); rewrite (lg_busy _ _ _ _ _ Hlg); tauto). unfold log_mod. rewrite modify_bind. rewrite release_ok.
  eexists. split; [reflexivity|]. split; [|by split]. unfold set_log_lock. fs_cbn.
  match goal with |- trep _ _ ?x _ _ _ _ _ _ => set (s' := x) end.
  assert (crep s' dk dk ∅ ∅) as C' by (do 3 apply crep_set_log; exact C).
  exists dk, dk. destruct Hlg. split; try done; try (intros x Hx; by rewrite HV); [|constructor|].
  - unfold layout in *. cbn. lia.
  - exists []. split; [done|]. by intros im []%elem_of_nil.
Qed.
(** The same for reading outside of transactions *)
Lemma irep_trep s st sz V : irep s st sz V -> trep (mk_txn 0 (past s)) V s st sz [] V ∅ ∅.
Proof.
  intros (Hlay & dk & C & Hlg & Hhdr & HV). exists dk, dk.
  split; try done; try (intros x Hx; by rewrite HV); [|constructor|].
  - unfold layout in *. cbn. lia.
  - exists []. split; [done|]. by intros im []%elem_of_nil.
Qed.
Lemma trep_irep s p V0 st sz V : trep (mk_txn 0 p) V0 s st sz [] V ∅ ∅ -> irep s st sz V.
Proof.
  intros (dk & L & R). destruct R as [C Hlg Hlay _ _ _ _ Hv _ _ Hclean _ Hhdr _]. split; [done|]. exists dk.
  split_and!; [|done..|].
  - eapply crep_ext; [exact C|done|]. intros x Hx. symmetry.
    apply (cr_clean _ _ _ _ _ C); [done|apply not_elem_of_empty|apply lookup_empty].
  - intros x Hx. apply Hclean; [done|apply not_elem_of_nil|apply not_elem_of_empty].
Qed.

Lemma tread s past0 V0 st sz ents V U H sec :
  trep past0 V0 s st sz ents V U H -> home st sz sec -> H !! sec = None ->
  sec ∈ ents \/ (size (list_to_set ents ∪ dom H : gset Z) < 10)%nat ->
  exists i s', bufcache_read ROOTDEV sec s = Ok (i, s')
    /\ trep past0 V0 s' st sz ents V U (<[sec := i]> H) /\ same_rest s s'.
Proof.
  intros (dk & L & R) Hs Hno Hsz.
  destruct (bufcache_read_spec s dk L _ H sec (t_crep _ _ _ _ _ _ _ _ _ _ _ R) (proj1 Hs) Hno)
    as (i & s' & E & C & Rs & D & P).
  { destruct Hsz as [Hx|]; [left|by right]. by apply elem_of_list_to_set. }
  exists i, s'. split; [done|]. split; [|done]. exists dk, L.
  destruct R as [_ Hlg ? ? ? ? Hdom ? HU ? ? ? ? Hh]. split; try done.
  - apply (lg_same s); [apply Rs|done].
  - intros x [Hx|Hx]%dom_insert%elem_of_union; [|by apply Hdom]. apply elem_of_singleton in Hx. by subst.
  - intros x Hx. apply dom_insert, elem_of_union. right. by apply HU.
  - by rewrite P.
Qed.

Lemma tdata s past0 V0 st sz ents V U H sec i :
  trep past0 V0 s st sz ents V U H -> H !! sec = Some i -> buf_read i b_data s = Ok (V sec, s).
Proof.
  intros (dk & L & R) Hh. rewrite (held_data _ _ _ _ _ _ _ (t_crep _ _ _ _ _ _ _ _ _ _ _ R) Hh).
  rewrite (t_view _ _ _ _ _ _ _ _ _ _ _ R); [done|]. apply (t_dom _ _ _ _ _ _ _ _ _ _ _ R), elem_of_dom. by exists i.
Qed.

Lemma tlength s past0 V0 st sz ents V U H sec :
  trep past0 V0 s st sz ents V U H -> home st sz sec -> length (V sec) = 512%nat.
Proof.
  intros (dk & L & R) Hs. rewrite <- (t_view _ _ _ _ _ _ _ _ _ _ _ R) by done.
  by apply (cr_len _ _ _ _ _ (t_crep _ _ _ _ _ _ _ _ _ _ _ R)), Hs.
Qed.

Lemma tmodify s past0 V0 st sz ents V U H sec i f :
  trep past0 V0 s st sz ents V U H -> H !! sec = Some i -> length (f (V sec)) = 512%nat ->
  exists s', data_write i f s = Ok (tt, s')
    /\ trep past0 V0 s' st sz ents (upd_blk V sec (f (V sec))) (U ∪ {[sec]}) H /\ same_rest s s'.
Proof.
  intros (dk & L & R) Hh Hlen. assert (sec ∈ dom H) as Hin by (apply elem_of_dom; by exists i).
  pose proof (t_dom _ _ _ _ _ _ _ _ _ _ _ R sec Hin) as Hs.
  pose proof (t_view _ _ _ _ _ _ _ _ _ _ _ R sec Hs) as EL.
  destruct (data_write_spec s dk L _ H sec i f (t_crep _ _ _ _ _ _ _ _ _ _ _ R) Hh) as (s' & E & C & Rs & D & P).
  { by rewrite EL. }
  exists s'. split; [done|]. split; [|done]. exists dk, (upd_blk L sec (f (L sec))). rewrite EL in *.
  destruct R as [_ Hlg ? ? ? ? Hdom Hview HU Hlogged Hclean ? ? Hh']. split; try done.
  - apply (lg_same s); [apply Rs|done].
  - intros x Hx. unfold upd_blk. destruct (decide (x = sec)); [done|]. by apply Hview.
  - intros x [Hx|Hx%elem_of_singleton]%elem_of_union; [by apply HU|by subst].
  - intros k x Hk Hx. rewrite not_elem_of_union, not_elem_of_singleton in Hx. rewrite upd_blk_ne by tauto.
    apply (Hlogged k); tauto.
  - intros x Hx He HxU. rewrite not_elem_of_union, not_elem_of_singleton in HxU. rewrite upd_blk_ne by tauto.
    apply Hclean; tauto.
  - by rewrite P.
Qed.

Lemma trelease s past0 V0 st sz ents V U H sec i :
  trep past0 V0 s st sz ents V U H -> H !! sec = Some i -> sec ∉ U ->
  exists s', bufcache_release i s = Ok (tt, s')
    /\ trep past0 V0 s' st sz ents V U (delete sec H) /\ same_rest s s'.
Proof.
  intros (dk & L & R) Hh HnU. assert (sec ∈ dom H) as Hin by (apply elem_of_dom; by exists i).
  pose proof (t_dom _ _ _ _ _ _ _ _ _ _ _ R sec Hin) as Hs.
  destruct (bufcache_release_spec s dk L _ H sec i (t_crep _ _ _ _ _ _ _ _ _ _ _ R) Hh) as (s' & E & C & Rs & D & P).
  { destruct (decide (sec ∈ ents)) as [He|He]; [left; by apply elem_of_list_to_set|right].
    rewrite (t_view _ _ _ _ _ _ _ _ _ _ _ R sec Hs). by apply (t_clean _ _ _ _ _ _ _ _ _ _ _ R). }
  exists s'. split; [done|]. split; [|done]. exists dk, L.
  destruct R as [_ Hlg ? ? ? ? Hdom Hview HU Hlogged Hclean ? ? Hh']. split; try done.
  - apply (lg_same s); [apply Rs|done].
  - intros x [Hx _]%dom_delete%elem_of_difference. by apply Hdom.
  - intros x Hx. apply dom_delete, elem_of_difference. split; [by apply HU|].
    rewrite elem_of_singleton. intros ->. done.
  - by rewrite P.
Qed.

Lemma find_logged_spec s st sz busy ents sec :
  lg s st sz busy ents -> (length ents <= 10)%nat -> Forall oksec ents ->
  exists i, find_logged (seqZ 0 (Z.of_nat (length ents))) (Z.of_nat (length ents)) sec s = Ok (i, s)
    /\ ((sec ∉ ents /\ i = Z.of_nat (length ents)) \/ (0 <= i /\ ents !! Z.to_nat i = Some sec)).
Proof.
  intros Hlg Hlen Hok. set (n := Z.of_nat (length ents)).
  assert (forall m k, 0 <= k -> k + Z.of_nat m = n -> (forall j, 0 <= j < k -> at_ ents j <> sec) ->
    exists i, find_logged (seqZ k (Z.of_nat m)) n sec s = Ok (i, s)
      /\ ((sec ∉ ents /\ i = n) \/ (0 <= i /\ ents !! Z.to_nat i = Some sec))) as Hgen.
  { induction m as [|m IH]; intros k Hk Hkm Hno.
    - exists n. rewrite seqZ_nil by lia. split; [done|]. left. split; [|done].
      intros [i Hi]%list_elem_of_lookup. apply (Hno (Z.of_nat i)); [apply lookup_lt_Some in Hi; lia|].
      unfold at_. rewrite Nat2Z.id, list_lookup_total_alt, Hi. done.
    - rewrite seqZ_cons by lia. cbn [find_logged].
      rewrite (bind_ok _ _ _ _ _ (lh_get_ok s st sz busy ents k Hlg Hlen ltac:(lia))).
      destruct (lookup_lt_is_Some_2 ents (Z.to_nat k) ltac:(lia)) as [x Hx].
      assert (at_ ents k = x) as Ex by (unfold at_; by rewrite list_lookup_total_alt, Hx).
      assert (oksec x) as Hxo by (by eapply (Forall_lookup_1 oksec ents)).
      rewrite Ex, (home_u32 x Hxo). destruct (decide (x = sec)) as [->|Hne].
      + exists k. split; [done|]. by right.
      + replace (Z.pred (Z.of_nat (S m))) with (Z.of_nat m) by lia. replace (Z.succ k) with (k + 1) by lia.
        apply IH; [lia..|]. intros j Hj. destruct (decide (j = k)) as [->|]; [congruence|]. apply Hno. lia. }
  apply (Hgen (length ents) 0); lia.
Qed.

(** The block [sec], held as [b], is logged; [absorb] lists the logged sectors. *)
Definition absorb (sec : Z) (ents : list Z) : list Z :=
  if decide (sec ∈ ents) then ents else ents ++ [sec].

Lemma absorb_index sec ents i :
  NoDup ents ->
  (sec ∉ ents /\ i = Z.of_nat (length ents)) \/ (0 <= i /\ ents !! Z.to_nat i = Some sec) ->
  0 <= i <= Z.of_nat (length ents) /\ absorb sec ents !! Z.to_nat i = Some sec
  /\ (forall k x, absorb sec ents !! k = Some x -> k <> Z.to_nat i -> ents !! k = Some x /\ x <> sec)
  /\ length (absorb sec ents) = (length ents + if decide (i = Z.of_nat (length ents)) then 1 else 0)%nat.
Proof.
  intros Hnd Hi. unfold absorb. destruct Hi as [[Hn ->]|[Hi0 Hi]].
  - rewrite decide_False by done. rewrite Nat2Z.id. split_and!; [lia|lia| | |].
    + rewrite lookup_app_r by done. by rewrite Nat.sub_diag.
    + intros k x Hk Hne. apply lookup_app_Some in Hk as [Hk|[Hk1 Hk2]].
      * split; [done|]. intros ->. apply Hn. by eapply list_elem_of_lookup_2.
      * apply list_lookup_singleton_Some in Hk2 as [Hk2 _]. lia.
    + rewrite length_app, decide_True by done. done.
  - pose proof (lookup_lt_Some _ _ _ Hi). rewrite decide_True by (by eapply list_elem_of_lookup_2).
    split_and!; [lia|lia|done| |].
    + intros k x Hk Hne. split; [done|]. intros ->. by pose proof (NoDup_lookup _ _ _ _ Hnd Hk Hi).
    + rewrite decide_False by lia. lia.
Qed.
Lemma at_lookup (l : list Z) k x : 0 <= k -> l !! Z.to_nat k = Some x -> at_ l k = x.
Proof. intros _ E. unfold at_. by rewrite list_lookup_total_alt, E. Qed.

(** The in-memory header after [log.lh.sector[i] = sec] and the count *)
Lemma lg_absorb s s' st sz busy ents sec i :
  lg s st sz busy ents -> NoDup ents ->
  (sec ∉ ents /\ i = Z.of_nat (length ents)) \/ (0 <= i /\ ents !! Z.to_nat i = Some sec) ->
  log s' = set_l_lh (mk_lh (if decide (i = Z.of_nat (length ents)) then Z.of_nat (length ents) + 1
                            else Z.of_nat (length ents)) (<[i := sec]> (lh_sector (l_lh (log s))))) (log s) ->
  lg s' st sz busy (absorb sec ents).
Proof.
  intros [] Hnd Hi E. destruct (absorb_index sec ents i Hnd Hi) as (Hir & Hat & Hoth & Hlen).
  split; rewrite ?E; cbn [set_l_lh l_lock l_start l_size l_busy l_dev l_lh lh_n lh_sector]; try done.
  - rewrite Hlen. destruct (decide _); lia.
  - intros k Hk. rewrite lookup_total_upd. destruct (decide (i = k)) as [<-|Hne].
    + symmetry. apply at_lookup; [lia|done].
    + destruct (lookup_lt_is_Some_2 (absorb sec ents) (Z.to_nat k) ltac:(lia)) as [x Hx].
      rewrite (at_lookup _ k x ltac:(lia) Hx). destruct (Hoth _ _ Hx ltac:(lia)) as [Hx' _].
      rewrite lg_sec0; [by apply at_lookup; [lia|]|]. apply lookup_lt_Some in Hx'. lia.
Qed.

(** Copying the block to its place in the log *)
Lemma log_block_spec s dk L P H sec b lsec :
  crep s dk L P H -> H !! sec = Some b -> oksec lsec -> H !! lsec = None -> lsec ∉ P ->
  (size (P ∪ dom H) < 10)%nat ->
  exists s', (lbuf ← bufcache_read ROOTDEV lsec; d ← buf_read b b_data; data_write lbuf (fun _ => d) ;;
      bufcache_write lbuf ;; bufcache_release lbuf) s = Ok (tt, s')
    /\ crep s' (upd_blk dk lsec (L sec)) (upd_blk L lsec (L sec)) P H
    /\ same_rest s s' /\ past s' = disk s :: past s.
Proof.
  intros C Hb Hl Hno HP Hsz.
  destruct (bufcache_read_spec s dk L P H lsec C Hl Hno (or_intror Hsz)) as (lb & s1 & E1 & C1 & R1 & D1 & P1).
  rewrite (bind_ok _ _ _ _ _ E1). set (H1 := <[lsec := lb]> H) in *.
  assert (lsec <> sec) as Hne by congruence.
  assert (H1 !! sec = Some b) as Hb1 by (unfold H1; by rewrite lookup_insert_ne).
  assert (H1 !! lsec = Some lb) as Hlb by apply lookup_insert_eq.
  rewrite (bind_ok _ _ _ _ _ (held_data _ _ _ _ _ _ _ C1 Hb1)).
  destruct (crep_held_buf _ _ _ _ _ _ _ C Hb) as (_ & _ & _ & Hok & _).
  destruct (data_write_spec s1 dk L P H1 lsec lb (fun _ => L sec) C1 Hlb) as (s2 & E2 & C2 & R2 & D2 & P2).
  { by apply (cr_len _ _ _ _ _ C). }
  rewrite (bind_ok _ _ _ _ _ E2).
  destruct (bufcache_write_spec s2 _ _ _ _ lsec lb C2 Hlb) as (s3 & E3 & C3 & R3 & D3 & P3).
  rewrite (bind_ok _ _ _ _ _ E3). rewrite upd_blk_same in C3.
  replace (P ∖ {[lsec]}) with P in C3 by (apply set_eq; set_solver).
  destruct (bufcache_release_spec s3 _ _ _ _ lsec lb C3 Hlb) as (s4 & E4 & C4 & R4 & D4 & P4).
  { right. by rewrite !upd_blk_same. }
  exists s4. split; [exact E4|]. split_and!.
  - unfold H1 in C4. rewrite delete_insert_id in C4 by done. done.
  - repeat (eapply same_rest_trans; [eassumption|]). apply same_rest_refl.
  - rewrite P4, P3, D2, P2, D1, P1. done.
Qed.

Lemma log_write_run s dk L P H st sz ents sec b i :
  crep s dk L P H -> lg s st sz 1 ents -> layout st sz -> H !! sec = Some b ->
  Z.of_nat (length ents) < 10 -> Z.of_nat (length ents) < sz - 1 ->
  find_logged (seqZ 0 (Z.of_nat (length ents))) (Z.of_nat (length ents)) sec s = Ok (i, s) ->
  0 <= i <= Z.of_nat (length ents) -> H !! (st + i + 1) = None -> (st + i + 1) ∉ P ->
  (size (P ∪ dom H) < 10)%nat ->
  exists s', log_write b s = Ok (tt, s')
    /\ crep s' (upd_blk dk (st + i + 1) (L sec)) (upd_blk L (st + i + 1) (L sec)) (P ∪ {[sec]}) H
    /\ log s' = set_l_lh (mk_lh (if decide (i = Z.of_nat (length ents)) then Z.of_nat (length ents) + 1
                            else Z.of_nat (length ents)) (<[i := sec]> (lh_sector (l_lh (log s))))) (log s)
    /\ same_rest_l s s' /\ past s' = disk s :: past s.
Proof.
  intros C Hlg Hlay Hb Hn1 Hn2 Ef Hi Hno HP Hsz. unfold layout in Hlay.
  destruct (crep_held_buf _ _ _ _ _ _ _ C Hb) as (Hbr & Hbd & Hbs & Hok & _).
  unfold log_write. rewrite !log_get_bind. rewrite (lg_n _ _ _ _ _ Hlg).
  rewrite decide_False by (rewrite (lg_size _ _ _ _ _ Hlg); unfold LOGSIZE; lia).
  rewrite log_get_bind. rewrite decide_False by (rewrite (lg_busy _ _ _ _ _ Hlg); done).
  fstep. rewrite Hbs. rewrite (bind_ok _ _ _ _ _ Ef).
  rewrite (bind_ok _ _ _ _ _ (lh_set_ok i (s32 sec) s ltac:(unfold LOGSIZE; lia))).
  rewrite (oksec_s32 sec Hok). match goal with |- context [set_log ?l s] => set (l1 := l) end.
  fstep. fs_cbn. rewrite Hbd. change (u32 ROOTDEV) with ROOTDEV. rewrite log_get_bind. fs_cbn.
  change (l_start l1) with (l_start (log s)). rewrite (lg_start _ _ _ _ _ Hlg).
  assert (oksec (st + i + 1)) as Hlo by (unfold oksec; lia). rewrite (home_u32 _ Hlo).
  destruct (log_block_spec (set_log l1 s) dk L P H sec b (st + i + 1)) as (s2 & E2 & C2 & R2 & P2);
    [by apply crep_set_log|done..|].
  apply bind_inv in E2 as (lb & x1 & A1 & E2). rewrite (bind_ok _ _ _ _ _ A1).
  apply bind_inv in E2 as (d & x2 & A2 & E2). rewrite (bind_ok _ _ _ _ _ A2).
  apply bind_inv in E2 as ([] & x3 & A3 & E2). rewrite (bind_ok _ _ _ _ _ A3).
  apply bind_inv in E2 as ([] & x4 & A4 & E2). rewrite (bind_ok _ _ _ _ _ A4).
  rewrite (bind_ok _ _ _ _ _ E2). rewrite log_get_bind.
  assert (log s2 = l1) as El by apply R2. rewrite El.
  change (lh_n (l_lh l1)) with (lh_n (l_lh (log s))). rewrite (lg_n _ _ _ _ _ Hlg).
  set (n := Z.of_nat (length ents)) in *.
  assert (exists s3, (if decide (i = n) then lh_set_n (n + 1) else mret tt) s2 = Ok (tt, s3)
    /\ log s3 = set_l_lh (mk_lh (if decide (i = n) then n + 1 else n) (<[i := sec]> (lh_sector (l_lh (log s))))) (log s)
    /\ (forall dk L P H, crep s2 dk L P H -> crep s3 dk L P H) /\ same_rest_l s2 s3 /\ past s3 = past s2)
    as (s3 & E3 & L3 & C3 & R3 & P3).
  { destruct (decide (i = n)).
    - eexists. split; [reflexivity|]. fs_cbn. rewrite El. split_and!; try done. intros ????. apply crep_set_log.
    - eexists. split; [reflexivity|]. rewrite El. split_and!; try done. unfold l1.
      by rewrite (lg_n _ _ _ _ _ Hlg). }
  rewrite (bind_ok _ _ _ _ _ E3). rewrite buf_write_ok by in_bounds.
  eexists. split; [reflexivity|]. split_and!.
  - apply crep_mark_dirty; [|done]. by apply C3.
  - exact L3.
  - eapply same_rest_l_trans; [apply (same_rest_l_set_log s l1)|].
    eapply same_rest_l_trans; [apply same_rest_log, R2|]. by destruct R3; split.
  - fs_cbn. by rewrite P3, P2.
Qed.
Lemma absorb_set sec ents : (list_to_set (absorb sec ents) : gset Z) = list_to_set ents ∪ {[sec]}.
Proof.
  apply set_eq. intros x. unfold absorb. destruct (decide (sec ∈ ents)).
  - rewrite elem_of_union, elem_of_singleton, elem_of_list_to_set. naive_solver.
  - rewrite list_to_set_app_L. cbn. by rewrite union_empty_r_L.
Qed.
Lemma absorb_in sec ents x : x ∈ absorb sec ents <-> x = sec \/ x ∈ ents.
Proof.
  unfold absorb. destruct (decide (sec ∈ ents)); [naive_solver|].
  rewrite elem_of_app. split; [intros [?|[->|[]%elem_of_nil]%elem_of_cons]; auto|].
  intros [->|?]; [right; by left|by left].
Qed.
Lemma absorb_nodup sec ents : NoDup ents -> NoDup (absorb sec ents).
Proof.
  intros Hnd. unfold absorb. destruct (decide (sec ∈ ents)) as [|Hn]; [done|].
  apply NoDup_app. split_and!; [done| |apply NoDup_singleton].
  intros x Hx [->|[]%elem_of_nil]%elem_of_cons. done.
Qed.

Lemma tlog s past0 V0 st sz ents V U H sec b :
  trep past0 V0 s st sz ents V U H -> tx_busy past0 = 1 -> H !! sec = Some b -> sec <> 1 ->
  Z.of_nat (length ents) < 10 -> Z.of_nat (length ents) < sz - 1 ->
  (size (list_to_set ents ∪ dom H : gset Z) < 10)%nat ->
  exists s', log_write b s = Ok (tt, s')
    /\ trep past0 V0 s' st sz (absorb sec ents) V (U ∖ {[sec]}) H /\ same_rest_l s s'.
Proof.
  intros (dk & L & R) Hbz Hb Hs1 Hn1 Hn2 Hsz. pose proof R as [C Hlg Hlay _ Hnd Hlgb Hdom Hview HU Hlogged Hclean Hold Hhdr Hhist]. rewrite Hbz in Hlg. pose proof (loggable_home _ _ _ Hlgb) as Hhome.
  assert (home st sz sec) as Hs by (apply Hdom, elem_of_dom; by exists b).
  assert (Forall oksec ents) as Hok by (eapply Forall_impl; [exact Hhome|by intros x []]).
  destruct (find_logged_spec s st sz 1 ents sec Hlg ltac:(lia) Hok) as (i & Ef & Hi).
  destruct (absorb_index sec ents i Hnd Hi) as (Hir & Hat & Hoth & Hlen).
  assert (forall x, st <= x < st + sz -> H !! x = None /\ x ∉ (list_to_set ents : gset Z)) as Hlog.
  { intros x Hx. split.
    - destruct (H !! x) eqn:E; [|done]. destruct (Hdom x) as [_ Hh]; [apply elem_of_dom; by eexists|]. done.
    - rewrite elem_of_list_to_set. intros Hin. apply (Forall_forall (home st sz) ents) in Hin as [_ Hin]; done. }
  destruct (Hlog (st + i + 1) ltac:(lia)) as [Hno HP].
  destruct (log_write_run s dk L _ H st sz ents sec b i C Hlg Hlay Hb Hn1 Hn2 Ef Hir Hno HP Hsz)
    as (s' & E & C' & El & Rs & Pa).
  exists s'. split; [done|]. split; [|done]. rewrite (Hview sec Hs) in C'.
  assert (forall x, home st sz x -> x <> st + i + 1) as Hhl by (intros x [_ Hx] ->; apply Hx; lia).
  exists (upd_blk dk (st + i + 1) (V sec)), (upd_blk L (st + i + 1) (V sec)).
  assert (Z.of_nat (length (absorb sec ents)) <= Z.of_nat (length ents) + 1) as Hl1
    by (rewrite Hlen; destruct (decide _); lia).
  split.
  - by rewrite absorb_set.
  - rewrite Hbz. by apply (lg_absorb s s' st sz 1 ents sec i).
  - done.
  - split; lia.
  - by apply absorb_nodup.
  - apply Forall_forall. intros x [->|Hx]%absorb_in; [done|]. by apply (Forall_forall (loggable st sz) ents).
  - done.
  - intros x Hx. rewrite upd_blk_ne by auto. by apply Hview.
  - intros x [Hx _]%elem_of_difference. by apply HU.
  - intros k x Hk Hx. destruct (decide (k = Z.to_nat i)) as [->|Hne].
    + rewrite Hat in Hk. injection Hk as <-. rewrite Z2Nat.id by lia. apply upd_blk_same.
    + destruct (Hoth k x Hk Hne) as [Hk' Hxs]. rewrite upd_blk_ne by lia. apply Hlogged; [done|].
      intros HxU. apply Hx, elem_of_difference. split; [done|]. by rewrite elem_of_singleton.
  - intros x Hx He HxU. rewrite absorb_in in He. rewrite upd_blk_ne by auto. apply Hclean; [done|tauto|].
    intros Hin. apply HxU, elem_of_difference. split; [done|]. rewrite elem_of_singleton. tauto.
  - intros x Hx. rewrite upd_blk_ne by auto. by apply Hold.
  - rewrite upd_blk_ne by lia. done.
  - destruct Hhist as (h & Hp & Hr). exists (disk s :: h). split; [by rewrite Pa, Hp|].
    intros im [->|Him]%elem_of_cons; [|by apply Hr]. exists dk. split; [by eapply crep_img|].
    apply recoverable_empty; try done. by apply (cr_len _ _ _ _ _ C), (layout_st st sz).
Qed.

(** Every image in [hist] recovers either to [V0] or to [V]. *)
Definition atomic (hist : list image) (st sz : Z) (V0 V : Z -> list Z) : Prop :=
  forall im, im ∈ hist -> exists c, img im c
    /\ (recoverable c st sz V0 \/ recoverable c st sz V).

Lemma crep_clean_view s dk L : crep s dk L ∅ ∅ -> crep s dk dk ∅ ∅.
Proof.
  intros C. eapply crep_ext; [exact C|done|]. intros x Hx. symmetry.
  apply (cr_clean _ _ _ _ _ C); [done|apply not_elem_of_empty|apply lookup_empty].
Qed.

Lemma crep_kern s dk L P H t : fk_inv t -> crep s dk L P H -> crep (set_kern t s) dk L P H.
Proof. intros Ht [[] ? ? ? ? ? ? ? ? ? ? ? ?]. by split; [split|..]. Qed.

(** The blocks of a transaction with their contents *)
Definition blks_of (ents : list Z) (V : Z -> list Z) : list (Z * list Z) := map (fun x => (x, V x)) ents.
Lemma blks_of_fst ents V : (blks_of ents V).*1 = ents.
Proof. unfold blks_of. rewrite <- list_fmap_compose. apply list_fmap_id. Qed.

Lemma commit_write s past0 V0 st sz ents V dk L :
  trep0 past0 V0 s st sz ents V ∅ ∅ dk L -> tx_busy past0 = 1 -> (length ents <= 9)%nat ->
  exists s' hist dk', (write_head ;; install_trans ;; lh_set_n 0 ;; write_head) s = Ok (tt, s')
    /\ crep s' dk' dk' ∅ ∅ /\ lg s' st sz 1 [] /\ get32 (dk' st) 0 = 0
    /\ (forall x, home st sz x -> V x = dk' x) /\ same_rest_l s s'
    /\ past s' = hist ++ tx_past past0 /\ atomic hist st sz V0 V.
Proof.
  intros [C Hlg Hlay [_ Hfit] Hnd Hlgb _ Hview _ Hlogged Hclean Hold Hhdr (h0 & Hp0 & Hr0)] Hbz Hn9. rewrite Hbz in Hlg. pose proof (loggable_home _ _ _ Hlgb) as Hhome.
  pose proof (layout_st _ _ Hlay) as Hst. set (blks := blks_of ents V).
  assert (blks.*1 = ents) as Eb1 by apply blks_of_fst.
  assert (length blks = length ents) as Elen by apply length_map.
  assert (size (list_to_set ents : gset Z) <= 9)%nat as Hsz by (by rewrite size_list_to_set).
  assert (forall x, st <= x < st + sz -> x ∉ ents) as Hlog.
  { intros x Hx Hin. apply (Forall_forall (home st sz) ents) in Hin as [_ Hin]; done. }
  unfold layout in Hlay.
  destruct (write_head_spec s dk L _ ∅ st sz 1 ents C Hlg Hlay) as (s1 & h & E1 & Hh & C1 & R1 & P1).
  { lia. } { eapply Forall_impl; [exact Hhome|by intros x []]. } { apply lookup_empty. }
  { rewrite elem_of_list_to_set. apply Hlog. lia. } { rewrite dom_empty_L, union_empty_r_L. lia. }
  rewrite (bind_ok _ _ _ _ _ E1).
  destruct (finish_spec s1 _ _ _ st sz 1 blks C1) as (s2 & h' & hist & E2 & Hh' & C2 & Hlg2 & R2 & P2 & Hr2);
    rewrite ?Eb1, ?Elen.
  { apply (lg_same s); [apply R1|done]. } { done. }
  { split; rewrite ?Eb1, ?Elen; [by rewrite upd_blk_same|split; lia|done..|].
    intros k p Hp. pose proof Hp as Hp'. unfold blks, blks_of in Hp. rewrite list_lookup_fmap in Hp.
    destruct (ents !! k) as [x|] eqn:Ex; [|done]. injection Hp as <-. apply lookup_lt_Some in Hp'.
    rewrite upd_blk_ne by lia. cbn. apply Hlogged; [done|apply not_elem_of_empty]. }
  { intros x. by rewrite elem_of_list_to_set. } { lia. } { intros x Hx. left. by apply elem_of_list_to_set. }
  assert (forall x, home st sz x -> apply_blks blks (upd_blk dk st h) x = V x) as HV.
  { intros x Hx. assert (x <> st) as Hxs by (intros ->; apply (proj2 Hx); lia).
    destruct (decide (x ∈ ents)) as [Hin|Hin].
    - apply apply_blks_in; [by rewrite Eb1|]. apply list_elem_of_fmap. by exists x.
    - rewrite apply_blks_other by (by rewrite Eb1). rewrite upd_blk_ne by done. symmetry.
      apply Hclean; [done..|apply not_elem_of_empty]. }
  exists s2, (hist ++ disk s :: h0). eexists. split; [exact E2|]. split; [by eapply crep_clean_view|].
  split_and!; [done| | | | |].
  - rewrite upd_blk_same. apply (hd_n _ _ Hh').
  - intros x Hx. rewrite upd_blk_ne; [by rewrite HV|]. intros ->. apply (proj2 Hx). lia.
  - eapply same_rest_l_trans; [apply same_rest_log, R1|done].
  - rewrite P2, P1, Hp0. by rewrite <- app_assoc.
  - intros im [Him|[->|Him]%elem_of_cons]%elem_of_app.
    + destruct (Hr2 im Him) as (c & Hc & Hv). exists c. split; [done|]. right. by eapply recoverable_ext.
    + exists dk. split; [by eapply crep_img|]. left. apply recoverable_empty; try done.
      by apply (cr_len _ _ _ _ _ C).
    + destruct (Hr0 im Him) as (c & Hc & Hv). exists c. split; [done|]. by left.
Qed.

Lemma tcommit s past0 V0 st sz ents V :
  trep past0 V0 s st sz ents V ∅ ∅ -> tx_busy past0 = 1 -> (length ents <= 9)%nat ->
  exists s' hist, commit_trans s = Ok (tt, s') /\ irep s' st sz V /\ same_rest_l s s'
    /\ past s' = hist ++ tx_past past0 /\ atomic (disk s' :: hist) st sz V0 V.
Proof.
  intros (dk & L & R) Hbz Hn9. pose proof (t_lay _ _ _ _ _ _ _ _ _ _ _ R) as Hlay.
  assert (exists s1 hist dk1, (if decide (Z.of_nat (length ents) > 0)
       then write_head ;; install_trans ;; lh_set_n 0 ;; write_head else mret tt) s = Ok (tt, s1)
     /\ crep s1 dk1 dk1 ∅ ∅ /\ lg s1 st sz 1 [] /\ get32 (dk1 st) 0 = 0
     /\ (forall x, home st sz x -> V x = dk1 x) /\ same_rest_l s s1
     /\ past s1 = hist ++ tx_past past0 /\ atomic hist st sz V0 V) as (s1 & hist & dk1 & E1 & C1 & Hlg1 & Hh1 & HV1 & R1 & P1 & A1).
  { destruct (decide (Z.of_nat (length ents) > 0)) as [Hn|Hn]; [by eapply commit_write|].
    destruct ents as [|x ents]; [|cbn in Hn; lia].
    destruct R as [C Hlg _ _ _ _ _ _ _ _ Hclean Hold Hhdr (h0 & Hp0 & Hr0)].
    exists s, h0, dk. rewrite Hbz in Hlg. split_and!; try done.
    - by eapply crep_clean_view.
    - intros x Hx. apply Hclean; [done|apply not_elem_of_nil|apply not_elem_of_empty].
    - intros im Him. destruct (Hr0 im Him) as (c & Hc & Hv). exists c. split; [done|]. by left. }
  unfold commit_trans. rewrite log_get_bind, (lg_n _ _ _ _ _ (t_lg _ _ _ _ _ _ _ _ _ _ _ R)).
  rewrite (bind_ok _ _ _ _ _ E1).
  facquire (id_kern _ (cr_idle _ _ _ _ _ C1)) (lg_lock _ _ _ _ _ Hlg1). unfold log_mod. rewrite modify_bind.
  match goal with |- context [mbind ?k (wakeup ?c) ?x] =>
    destruct (wakeup_ok c x (id_kern _ (cr_idle _ _ _ _ _ C1))) as (t & E & Ht & Hm); rewrite (bind_ok _ k _ _ _ E) end.
  rewrite release_ok. eexists. exists hist. split; [reflexivity|]. split; [|split; [|split]].
  - split; [done|]. exists dk1. split; [repeat (apply crep_set_log || (apply crep_kern; [done|])); exact C1|].
    split; [|done]. destruct Hlg1. by split.
  - destruct R1. split; try done. etransitivity; [exact Hm|done].
  - done.
  - intros im [->|Him]%elem_of_cons; [|by apply A1]. exists dk1. split; [exact (crep_img _ _ _ _ _ C1)|].
    right. apply recoverable_empty; try done; [by apply (cr_len _ _ _ _ _ C1), (layout_st st sz)|].
    intros x Hx. by rewrite HV1.
Qed.
(** ** Starting the file system *)
Definition sb_at (d : list Z) (st sz : Z) : Prop := get32 d 0 - get32 d 12 = st /\ get32 d 12 = sz.

Lemma read_superblock_spec s dk L P H :
  crep s dk L P H -> H !! 1 = None -> 1 ∉ P -> (size (P ∪ dom H) < 10)%nat ->
  exists s', read_superblock ROOTDEV s =
      Ok (mk_sb (get32 (L 1) 0) (get32 (L 1) 4) (get32 (L 1) 8) (get32 (L 1) 12), s')
    /\ crep s' dk L P H /\ same_rest s s' /\ disk s' = disk s /\ past s' = past s.
Proof.
  intros C Hno HP Hsz. unfold read_superblock.
  assert (oksec 1) as H1 by (unfold oksec; lia).
  destruct (bufcache_read_spec s dk L P H 1 C H1 Hno (or_intror Hsz)) as (b & s1 & E1 & C1 & R1 & D1 & P1).
  rewrite (bind_ok _ _ _ _ _ E1).
  assert ((<[1 := b]> H) !! 1 = Some b) as Hb by apply lookup_insert_eq.
  rewrite (bind_ok _ _ _ _ _ (held_data _ _ _ _ _ _ _ C1 Hb)).
  destruct (bufcache_release_spec s1 _ _ _ _ 1 b C1 Hb) as (s2 & E2 & C2 & R2 & D2 & P2).
  { right. by apply (cr_clean _ _ _ _ _ C). }
  rewrite (bind_ok _ _ _ _ _ E2). exists s2. split; [done|]. split_and!; [|by eapply same_rest_trans|congruence..].
  rewrite delete_insert_id in C2 by done. done.
Qed.

Lemma log_init_spec s c st sz V :
  crep s c c ∅ ∅ -> layout st sz -> sb_at (c 1) st sz -> l_busy (log s) = 0 -> recoverable c st sz V ->
  exists s' hist, log_init s = Ok (tt, s') /\ irep s' st sz V /\ same_rest_l s s'
    /\ past s' = hist ++ past s /\ recovers hist st sz V.
Proof.
  intros C Hlay [Hst Hsz] Hb (blks & Hlo & HV). unfold log_init.
  rewrite decide_False by (unfold sizeof_logheader, LOGSIZE, BSIZE; lia).
  set (s1 := set_log (set_l_lock free_lock (log s)) s).
  rewrite (bind_ok (zoom log_lock set_log_lock spinlock_init) _ s tt s1 eq_refl).
  destruct (read_superblock_spec s1 c c ∅ ∅) as (s2 & E2 & C2 & R2 & D2 & P2);
    [by apply crep_set_log|apply lookup_empty|apply not_elem_of_empty|rewrite dom_empty_L, union_empty_r_L, size_empty; lia|].
  rewrite (bind_ok _ _ _ _ _ E2). unfold log_mod. rewrite modify_bind. cbn [sb_size sb_nlog].
  rewrite Hst, Hsz. unfold layout in Hlay. rewrite !s32_id by lia.
  set (s3 := set_log _ s2).
  assert (log s2 = set_l_lock free_lock (log s)) as El by apply R2.
  destruct (recover_from_log_spec s3 c st sz 0 blks) as (s4 & h & hist & E4 & Hh & C4 & Hlg4 & R4 & P4 & Hr);
    [by apply crep_set_log| |done|done|].
  { unfold log_at, s3. fs_cbn. rewrite El. by split_and!. }
  exists s4, hist. split; [exact E4|]. split_and!.
  - split; [done|]. eexists. split; [exact C4|]. split; [done|]. split; [rewrite upd_blk_same; apply (hd_n _ _ Hh)|].
    intros x Hx. rewrite upd_blk_ne; [by rewrite HV|]. intros ->. apply (proj2 Hx). lia.
  - eapply same_rest_l_trans; [apply (same_rest_l_set_log s)|].
    eapply same_rest_l_trans; [apply same_rest_log, R2|].
    eapply same_rest_l_trans; [apply (same_rest_l_set_log s2)|]. exact R4.
  - rewrite P4. cbn. by rewrite P2.
  - intros im Him. destruct (Hr im Him) as (c' & Hc & Hrec). exists c'. split; [done|]. by eapply recoverable_ext.
Qed.

(** The kernel has just started with the disk [im]. *)
Record booted s (im : image) : Prop := {
  bo_disk : disk s = im;
  bo_idle : ide_idle s;
  bo_flags i : 0 <= i < NBUF -> b_flags (bufs s !!! i) = 0;
  bo_log : l_busy (log s) = 0;
}.

(** [bufcache_init], called at start-up, and [log_init], called by the first
    [sys_open] *)
Definition start_fs : M (fsys T) unit := bufcache_init ;; log_init.

Lemma start_fs_spec s im c st sz V :
  booted s im -> img im c -> layout st sz -> sb_at (c 1) st sz -> recoverable c st sz V ->
  exists s' hist, start_fs s = Ok (tt, s') /\ irep s' st sz V /\ same_rest_l s s'
    /\ past s' = hist ++ past s /\ recovers hist st sz V.
Proof.
  intros [<- Hid Hfl Hb] Him Hlay Hsb Hrec. unfold start_fs.
  destruct (bufcache_init_spec s Hid Hfl) as (s1 & E1 & C1 & R1 & D1 & P1).
  { intros x Hx. destruct (Him x Hx) as [-> Hl]. done. }
  rewrite (bind_ok _ _ _ _ _ E1).
  assert (crep s1 c c ∅ ∅) as C1'.
  { eapply crep_ext; [exact C1| |]; intros x Hx; destruct (Him x Hx) as [E _]; done. }
  destruct (log_init_spec s1 c st sz V C1' Hlay Hsb) as (s2 & hist & E2 & I2 & R2 & P2 & Hr);
    [by rewrite (sr_log _ _ R1)|done|].
  exists s2, hist. split; [done|]. split_and!; [done| |by rewrite P2, P1|done].
  eapply same_rest_l_trans; [apply same_rest_log, R1|done].
Qed.

(** ** A transaction as a list of block updates *)
Definition update_block (u : Z * (list Z -> list Z)) : M (fsys T) unit :=
  b ← bufcache_read ROOTDEV u.1;
  data_write b u.2 ;;
  log_write b ;;
  bufcache_release b.
Definition run_transaction (us : list (Z * (list Z -> list Z))) : M (fsys T) unit :=
  begin_trans ;; for_each us update_block ;; commit_trans.

Definition view_after (us : list (Z * (list Z -> list Z))) (V : Z -> list Z) : Z -> list Z :=
  foldl (fun W u => upd_blk W u.1 (u.2 (W u.1))) V us.

Lemma update_block_spec s past0 V0 st sz ents V u :
  trep past0 V0 s st sz ents V ∅ ∅ -> tx_busy past0 = 1 -> loggable st sz u.1 -> length (u.2 (V u.1)) = 512%nat ->
  Z.of_nat (length ents) < 10 -> Z.of_nat (length ents) < sz - 1 ->
  (size (list_to_set ents ∪ {[u.1]} : gset Z) < 10)%nat ->
  exists s', update_block u s = Ok (tt, s')
    /\ trep past0 V0 s' st sz (absorb u.1 ents) (upd_blk V u.1 (u.2 (V u.1))) ∅ ∅ /\ same_rest_l s s'.
Proof.
  intros R Hbz [Hs Hs1] Hlen Hn1 Hn2 Hsz. destruct u as [sec f]. cbn [fst snd] in *. unfold update_block. cbn [fst snd].
  destruct (tread s past0 V0 st sz ents V ∅ ∅ sec R Hs) as (b & s1 & E1 & R1 & S1);
    [apply lookup_empty|right; rewrite dom_empty_L, union_empty_r_L|].
  { eapply Nat.le_lt_trans; [|exact Hsz]. apply subseteq_size. set_solver. }
  rewrite (bind_ok _ _ _ _ _ E1). set (H1 := <[sec := b]> (∅ : gmap Z Z)) in *.
  assert (H1 !! sec = Some b) as Hb by apply lookup_insert_eq.
  destruct (tmodify s1 past0 V0 st sz ents V ∅ H1 sec b f R1 Hb Hlen) as (s2 & E2 & R2 & S2).
  rewrite (bind_ok _ _ _ _ _ E2).
  destruct (tlog s2 past0 V0 st sz ents _ _ H1 sec b R2 Hbz Hb Hs1 Hn1 Hn2) as (s3 & E3 & R3 & S3).
  { unfold H1. by rewrite dom_insert_L, dom_empty_L, union_empty_r_L. }
  rewrite (bind_ok _ _ _ _ _ E3). replace ((∅ ∪ {[sec]}) ∖ {[sec]}) with (∅ : gset Z) in R3 by set_solver.
  destruct (trelease s3 past0 V0 st sz _ _ ∅ H1 sec b R3 Hb) as (s4 & E4 & R4 & S4); [apply not_elem_of_empty|].
  exists s4. split; [done|]. unfold H1 in R4. rewrite delete_insert_id in R4 by apply lookup_empty. split; [done|].
  eapply same_rest_l_trans; [apply same_rest_log, S1|]. eapply same_rest_l_trans; [apply same_rest_log, S2|].
  eapply same_rest_l_trans; [exact S3|]. apply same_rest_log, S4.
Qed.

Lemma update_blocks_spec (A : gset Z) st sz past0 V0 us : tx_busy past0 = 1 -> forall s ents V,
  trep past0 V0 s st sz ents V ∅ ∅ ->
  Forall (fun u => loggable st sz u.1 /\ forall l, length l = 512%nat -> length (u.2 l) = 512%nat) us ->
  (forall x, x ∈ us.*1 -> x ∈ A) -> (forall x, x ∈ ents -> x ∈ A) ->
  (size A <= 9)%nat -> Z.of_nat (size A) < sz - 1 ->
  exists s' ents', for_each us update_block s = Ok (tt, s')
    /\ trep past0 V0 s' st sz ents' (view_after us V) ∅ ∅ /\ same_rest_l s s' /\ (length ents' <= 9)%nat.
Proof.
  intros Hbz. induction us as [|u us IH]; intros s ents V R Hus HA He Hs1 Hs2.
  all: assert (length ents <= size A)%nat as Hle by
    (destruct R as (dk & L & R); rewrite <- (size_list_to_set (C := gset Z)) by apply R;
     apply subseteq_size; intros x; rewrite elem_of_list_to_set; apply He).
  - exists s, ents. split_and!; [done..|lia].
  - apply Forall_cons in Hus as [[Hh Hf] Hus]. cbn [for_each view_after foldl].
    destruct (update_block_spec s past0 V0 st sz ents V u R Hbz Hh) as (s1 & E1 & R1 & S1); [|lia..| |].
    { apply Hf. eapply tlength; [exact R|exact (proj1 Hh)]. }
    { eapply Nat.le_lt_trans; [|exact (proj2 (Nat.lt_succ_r _ _) Hs1)]. apply subseteq_size.
      intros x. rewrite elem_of_union, elem_of_list_to_set, elem_of_singleton.
      intros [Hx| ->]; [by apply He|]. apply HA. by left. }
    rewrite (bind_ok _ _ _ _ _ E1).
    destruct (IH s1 (absorb u.1 ents) (upd_blk V u.1 (u.2 (V u.1))) R1 Hus) as (s2 & ents' & E2 & R2 & S2 & Hl2);
      [intros x Hx; apply HA; by right| |done..|].
    { intros x [->|Hx]%absorb_in; [apply HA; by left|by apply He]. }
    exists s2, ents'. split_and!; [done|done| |done]. by eapply same_rest_l_trans.
Qed.
End Theory.

(** * Crashes *)
Section Crash.
Context {T : Type} `{!FsKernel T} `{!FsKernelLaws T}.
Implicit Types s : fsys T.

(** Restarting the kernel with disk [im] gives the contents [V]. *)
Definition restarts_to (im : image) (st sz : Z) (V : Z -> list Z) : Prop :=
  forall b : fsys T, booted b im -> exists b', start_fs b = Ok (tt, b') /\ irep b' st sz V.

Lemma sector1_home st sz : layout st sz -> home st sz 1.
Proof. unfold layout, home, oksec. lia. Qed.

Lemma recoverable_sb c st sz V : layout st sz -> recoverable c st sz V -> c 1 = V 1.
Proof.
  intros Hl (blks & Hlo & HV). rewrite <- (HV 1 (sector1_home _ _ Hl)). symmetry. apply apply_blks_other.
  intros Hin. pose proof (proj1 (Forall_forall _ _) (lo_home _ _ _ _ Hlo) 1 Hin) as [_ Hne]. done.
Qed.

Lemma recoverable_restarts im c st sz V :
  layout st sz -> sb_at (V 1) st sz -> img im c -> recoverable c st sz V -> restarts_to im st sz V.
Proof.
  intros Hl Hsb Him Hr b Hb. rewrite <- (recoverable_sb _ _ _ _ Hl Hr) in Hsb.
  destruct (start_fs_spec b im c st sz V Hb Him Hl Hsb Hr) as (b' & hist & E & I & _). by exists b'.
Qed.

(** Updates of the super block aside, a transaction leaves sector 1 alone. *)
Lemma view_after_other us : forall V x, x ∉ us.*1 -> view_after us V x = V x.
Proof.
  unfold view_after. induction us as [|u us IH]; intros V x Hx; [done|]. cbn [foldl fmap list_fmap] in *.
  apply not_elem_of_cons in Hx as [H1 H2]. etransitivity; [apply IH, H2|]. by apply upd_blk_ne.
Qed.

Definition updates_ok st sz (us : list (Z * (list Z -> list Z))) : Prop :=
  Forall (fun u => loggable st sz u.1 /\ forall l, length l = 512%nat -> length (u.2 l) = 512%nat) us.

Lemma updates_sb us st sz V : updates_ok st sz us -> view_after us V 1 = V 1.
Proof.
  intros H. apply view_after_other. intros Hin. apply list_elem_of_fmap in Hin as (u & Eu & Hu).
  pose proof (proj1 (Forall_forall _ _) H u Hu) as [[_ Hne] _]. congruence.
Qed.

Lemma run_transaction_spec s st sz V us (A : gset Z) :
  irep s st sz V -> updates_ok st sz us -> (forall x, x ∈ us.*1 -> x ∈ A) ->
  (size A <= 9)%nat -> Z.of_nat (size A) < sz - 1 ->
  exists s' hist, run_transaction us s = Ok (tt, s') /\ irep s' st sz (view_after us V) /\ same_rest_l s s'
    /\ past s' = hist ++ past s /\ atomic (disk s' :: hist) st sz V (view_after us V).
Proof.
  intros I Hus HA Hs1 Hs2. unfold run_transaction.
  destruct (begin_trans_spec s st sz V I) as (s1 & E1 & T1 & R1). rewrite (bind_ok _ _ _ _ _ E1).
  destruct (update_blocks_spec A st sz (mk_txn 1 (past s)) V us eq_refl s1 [] V T1 Hus HA) as (s2 & ents & E2 & T2 & R2 & Hl);
    [by intros x []%elem_of_nil|done|done|].
  rewrite (bind_ok _ _ _ _ _ E2). destruct (tcommit s2 (mk_txn 1 (past s)) V st sz ents _ T2 eq_refl Hl) as (s3 & hist & E3 & I3 & R3 & P3 & At).
  exists s3, hist. split_and!; [done|done| |done|done].
  eapply same_rest_l_trans; [exact R1|]. by eapply same_rest_l_trans.
Qed.
End Crash.
Arguments restarts_to T {_ _} im st sz V.

Module LogProps.

(** C2 (safety): a transaction is atomic with respect to crashes.  From a state
    outside transactions with disk contents [V], [begin_trans], any sequence of
    block updates ([bufcache_read], a change of the data, [log_write],
    [bufcache_release]) that touches at most nine distinct blocks outside the
    log and the super block and fewer than the log has room for, and
    [commit_trans] return; the contents then are [V] with the updates applied
    in order.  If the machine stops with the disk as it was before any of the
    disk writes made on the way, or after the last one, the next start of the
    file system succeeds with either all of the updates or none. *)
Theorem transaction_survives_crash {T : Type} `{!FsKernel T} `{!FsKernelLaws T}
    (s : fsys T) st sz V us :
  irep s st sz V -> sb_at (V 1) st sz -> updates_ok st sz us ->
  (size (list_to_set us.*1 : gset Z) <= 9)%nat -> Z.of_nat (size (list_to_set us.*1 : gset Z)) < sz - 1 ->
  exists s' hist, run_transaction us s = Ok (tt, s') /\ irep s' st sz (view_after us V)
    /\ past s' = hist ++ past s
    /\ forall im, im ∈ disk s' :: hist ->
         restarts_to T im st sz V \/ restarts_to T im st sz (view_after us V).
Proof.
  intros I Hsb Hus Hs1 Hs2. pose proof (proj1 I) as Hl.
  destruct (run_transaction_spec s st sz V us (list_to_set us.*1) I Hus) as (s' & hist & E & I' & _ & P & At);
    [intros x Hx; by apply elem_of_list_to_set|done|done|].
  exists s', hist. split_and!; [done..|]. intros im Him. destruct (At im Him) as (c & Hc & [Hr|Hr]); [left|right].
  - by eapply recoverable_restarts.
  - eapply recoverable_restarts; [done| |done..]. by rewrite (updates_sb us st sz V Hus).
Qed.

(** C13 (safety): recovery itself may crash.  When the disk holds a log that can
    be replayed to the contents [V], starting the file system replays it; and
    if the machine stops during that start, with the disk as it was before any
    of its writes, the next start still gives [V]. *)
Theorem recovery_survives_crash {T : Type} `{!FsKernel T} `{!FsKernelLaws T}
    (s : fsys T) im c st sz V :
  booted s im -> img im c -> layout st sz -> sb_at (V 1) st sz -> recoverable c st sz V ->
  exists s' hist, start_fs s = Ok (tt, s') /\ irep s' st sz V /\ past s' = hist ++ past s
    /\ forall im', im' ∈ hist -> restarts_to T im' st sz V.
Proof.
  intros Hb Him Hl Hsb Hr. pose proof Hsb as Hsb'. rewrite <- (recoverable_sb _ _ _ _ Hl Hr) in Hsb'.
  destruct (start_fs_spec s im c st sz V Hb Him Hl Hsb' Hr) as (s' & hist & E & I & _ & P & Hre).
  exists s', hist. split_and!; [done..|]. intros im' Hin. destruct (Hre im' Hin) as (c' & Hc & Hr').
  by eapply recoverable_restarts.
Qed.

(** ** A disk of 1000 sectors, 20 of them for the log, with block 50 logged but
    not installed *)
Definition demo_super : list Z := set32 0 1000 (set32 8 64 (set32 12 20 zero_block)).
Definition demo_block : list Z := set32 0 7 zero_block.
Definition demo_disk : image :=
  list_to_map [((1, 1), demo_super); ((1, 980), set32 0 1 (set32 4 50 zero_block)); ((1, 981), demo_block)].
Definition demo_boot : fsys (thr * mem) :=
  mk_fsys free_lock ∅ free_lock None 1 false demo_disk [] inhabitant free_lock ∅ free_lock ∅
    (SchedProps.demo, ∅).
Definition demo_c (x : Z) : list Z := dread demo_disk (ROOTDEV, x).
Definition demo_V (x : Z) : list Z := if decide (x = 50) then demo_block else demo_c x.

Lemma disk_booted : booted demo_boot demo_disk.
Proof.
  split; [done| |intros i _; unfold demo_boot; cbn [bufs]; by rewrite lookup_total_empty|done].
  split; [exists SchedProps.demo_a; exact SchedProps.demo_abs|done..].
Qed.
Lemma demo_img : img demo_disk demo_c.
Proof.
  intros x Hx. split; [done|]. unfold demo_c, demo_disk, dread. cbn [list_to_map foldr fst snd].
  repeat (rewrite lookup_insert; case_decide; [done|]). by rewrite lookup_empty.
Qed.
Lemma demo_recoverable : recoverable demo_c 980 20 demo_V.
Proof.
  exists [(50, demo_block)]. split.
  - split; [split; [done..|]|cbn; lia|by apply NoDup_singleton| |].
    + intros k Hk. assert (k = 0) as -> by (cbn in Hk; lia). done.
    + constructor; [|constructor]. change (loggable 980 20 50). unfold loggable, home, oksec. lia.
    + intros k p Hk. destruct k; [|done]. injection Hk as <-. done.
  - intros x _. done.
Qed.

Lemma recovery_survives_crash_witness : exists s' hist, start_fs demo_boot = Ok (tt, s')
  /\ irep s' 980 20 demo_V /\ past s' = hist ++ past demo_boot.
Proof.
  destruct (recovery_survives_crash demo_boot demo_disk demo_c 980 20 demo_V disk_booted demo_img)
    as (s' & hist & E & I & P & _); [unfold layout; lia|done|exact demo_recoverable|].
  exists s', hist. exact (conj E (conj I P)).
Defined.

Lemma demo_irep : exists s : fsys (thr * mem), irep s 980 20 demo_V.
Proof.
  destruct (start_fs_spec demo_boot demo_disk demo_c 980 20 demo_V disk_booted demo_img)
    as (s' & hist & E & I & P & _); [unfold layout; lia|done|exact demo_recoverable|]. exists s'. exact I.
Qed.

Lemma transaction_survives_crash_witness : exists (s s' : fsys (thr * mem)),
  run_transaction [(50, set32 4 9); (51, set32 0 1); (50, set32 8 3)] s = Ok (tt, s')
  /\ irep s' 980 20 (view_after [(50, set32 4 9); (51, set32 0 1); (50, set32 8 3)] demo_V).
Proof.
  destruct demo_irep as [s I]. exists s.
  destruct (transaction_survives_crash s 980 20 demo_V [(50, set32 4 9); (51, set32 0 1); (50, set32 8 3)] I)
    as (s' & hist & E & I' & _); [done| |by vm_compute; lia|by vm_compute|exists s'; exact (conj E I')].
  unfold updates_ok. rewrite !Forall_cons. unfold loggable, home, oksec. cbn [fst snd].
  split_and!; try lia; try (intros l Hl; rewrite set32_length; lia). constructor.
Defined.
End LogProps.
