(* ===== verification/Block.v ===== *)
(** * Disk blocks: fs/block.c

    A bitmap on disk has one bit for every block.  [block_alloc] takes the
    first block whose bit is clear, sets the bit and clears the block;
    [block_free] clears the bit.  Both run inside a transaction. *)

From S2P Require Import Prelude DList Machine Thread Scheduler KString Bytes FsData BufCache FsLog.

Section Ops.
Context {T : Type} `{!FsKernel T}.

Notation F := (M (fsys T)).

Definition block_zero (dev bno : Z) : F unit :=
  bp ← bufcache_read dev bno;
  data_write bp (fun _ => zero_block) ;;
  log_write bp ;;
  bufcache_release bp.

(** The bits of one bitmap block: [bi] is free if bit [bi % 8] of byte
    [bi / 8] is clear. *)
Definition bit_of (d : list Z) (bi : Z) : Z := Z.land (get8 d (bi / 8)) (Z.shiftl 1 (bi mod 8)).
Definition mark_bit (bi : Z) (d : list Z) : list Z :=
  set8 (bi / 8) (Z.lor (get8 d (bi / 8)) (Z.shiftl 1 (bi mod 8))) d.
Definition clear_mark (bi : Z) (d : list Z) : list Z :=
  set8 (bi / 8) (Z.land (get8 d (bi / 8)) (Z.lnot (Z.shiftl 1 (bi mod 8)))) d.

(** [for(b = 0; b < size; b += BPB)].  Sector numbers stay below 2^31. *)
Definition bitmap_steps (size : Z) : list Z := map (Z.mul BPB) (seqZ 0 ((size + BPB - 1) / BPB)).

Definition block_alloc (dev : Z) : F Z :=
  sb ← read_superblock dev;
  r ← first_of (bitmap_steps (sb_size sb)) (fun b =>
    bp ← bufcache_read dev (u32 (BBLOCK b (sb_ninodes sb)));
    r ← first_of (seqZ 0 (Z.min BPB (sb_size sb - b))) (fun bi =>
      d ← buf_read bp b_data;
      if decide (bit_of d bi = 0) then
        data_write bp (mark_bit bi) ;;
        log_write bp ;;
        bufcache_release bp ;;
        block_zero dev (b + bi) ;;
        mret (Some (b + bi))
      else mret None);
    match r with
    | Some x => mret (Some x)
    | None => bufcache_release bp ;; mret None
    end);
  match r with
  | Some x => mret x
  | None => undef NoReturnValue (* the function ends without a return statement *)
  end.

Definition block_free (dev b : Z) : F unit :=
  sb ← read_superblock dev;
  bp ← bufcache_read dev (u32 (BBLOCK b (sb_ninodes sb)));
  d ← buf_read bp b_data;
  if decide (bit_of d (b mod BPB) = 0) then panic "freeing free block"
  else
    data_write bp (clear_mark (b mod BPB)) ;;
    log_write bp ;;
    bufcache_release bp.
End Ops.

(** * Theory *)

(** ** Bits of a bitmap block *)
Definition bit (d : list Z) (bi : Z) : bool := Z.testbit (get8 d (bi / 8)) (bi mod 8).

Lemma bit_of_zero d bi : bit_of d bi = 0 <-> bit d bi = false.
Proof.
  unfold bit_of, bit. pose proof (Z.mod_pos_bound bi 8 ltac:(lia)). rewrite Z.shiftl_1_l. apply hasnt_bit. lia.
Qed.

Lemma byte_testbit_high w n : 0 <= w < 256 -> 8 <= n -> Z.testbit w n = false.
Proof.
  intros Hw Hn. destruct (decide (w = 0)) as [->|]; [apply Z.bits_0|].
  apply Z.bits_above_log2; [lia|]. apply Z.log2_lt_pow2; [lia|].
  eapply Z.lt_le_trans; [apply Hw|]. change 256 with (2 ^ 8). apply Z.pow_le_mono_r; lia.
Qed.
Lemma u8_testbit w n : 0 <= n -> Z.testbit (u8 w) n = (Z.testbit w n && bool_decide (n < 8))%bool.
Proof.
  intros Hn. unfold u8. change 256 with (2 ^ 8). case_bool_decide.
  - rewrite Z.mod_pow2_bits_low by lia. by rewrite andb_true_r.
  - rewrite Z.mod_pow2_bits_high by lia. by rewrite andb_false_r.
Qed.

Lemma div8_mod8 bi x : bi / 8 = x / 8 -> bi mod 8 = x mod 8 -> bi = x.
Proof. intros. rewrite (Z.div_mod bi 8), (Z.div_mod x 8) by lia. lia. Qed.

(** Rewriting bit [bi] of a byte of the block. *)
Lemma bit_set8 d bi w x :
  length d = 512%nat -> 0 <= bi < BPB -> 0 <= x < BPB ->
  bit (set8 (bi / 8) w d) x = if decide (x / 8 = bi / 8) then Z.testbit w (x mod 8) else bit d x.
Proof.
  intros Hl Hb Hx. unfold bit. unfold BPB, BSIZE in *.
  assert (0 <= bi / 8 < 512) by (split; [apply Z.div_pos; lia|apply Z.div_lt_upper_bound; lia]).
  rewrite get8_set8 by (rewrite ?Hl; try lia; apply Z.div_pos; lia).
  destruct (decide (x / 8 = bi / 8)); [|done]. pose proof (Z.mod_pos_bound x 8 ltac:(lia)).
  rewrite u8_testbit, bool_decide_true by lia. apply andb_true_r.
Qed.

Lemma mark_bit_spec d bi x :
  length d = 512%nat -> 0 <= bi < BPB -> 0 <= x < BPB ->
  bit (mark_bit bi d) x = if decide (x = bi) then true else bit d x.
Proof.
  intros Hl Hb Hx. unfold mark_bit. rewrite bit_set8 by done.
  pose proof (Z.mod_pos_bound bi 8 ltac:(lia)). pose proof (Z.mod_pos_bound x 8 ltac:(lia)).
  destruct (decide (x / 8 = bi / 8)) as [E|E].
  - rewrite Z.shiftl_1_l. rewrite lor_bit by lia. fold (bit d x). unfold bit. rewrite <- E.
    destruct (decide (x = bi)) as [->|Hne].
    + by rewrite bool_decide_true, orb_true_r.
    + rewrite bool_decide_false by (intros ?; by apply Hne, div8_mod8). by rewrite orb_false_r.
  - rewrite decide_False by congruence. done.
Qed.

Lemma clear_mark_spec d bi x :
  length d = 512%nat -> 0 <= bi < BPB -> 0 <= x < BPB ->
  bit (clear_mark bi d) x = if decide (x = bi) then false else bit d x.
Proof.
  intros Hl Hb Hx. unfold clear_mark. rewrite bit_set8 by done.
  pose proof (Z.mod_pos_bound bi 8 ltac:(lia)). pose proof (Z.mod_pos_bound x 8 ltac:(lia)).
  destruct (decide (x / 8 = bi / 8)) as [E|E].
  - rewrite Z.shiftl_1_l. rewrite clear_bit by lia. unfold bit. rewrite <- E.
    destruct (decide (x = bi)) as [->|Hne].
    + by rewrite bool_decide_true, andb_false_r.
    + rewrite bool_decide_false by (intros ?; by apply Hne, div8_mod8). by rewrite andb_true_r.
  - rewrite decide_False by congruence. done.
Qed.

Lemma bit_byte_range bi : 0 <= bi < BPB -> 0 <= bi / 8 < 512.
Proof. unfold BPB, BSIZE. intros. split; [apply Z.div_pos; lia|apply Z.div_lt_upper_bound; lia]. Qed.
Lemma mark_bit_length d bi : length d = 512%nat -> 0 <= bi < BPB -> length (mark_bit bi d) = 512%nat.
Proof. intros Hl Hb%bit_byte_range. unfold mark_bit. rewrite set8_length; lia. Qed.
Lemma clear_mark_length d bi : length d = 512%nat -> 0 <= bi < BPB -> length (clear_mark bi d) = 512%nat.
Proof. intros Hl Hb%bit_byte_range. unfold clear_mark. rewrite set8_length; lia. Qed.

(** ** The disk *)

(** Sizes from the super block: the bitmap lies in front of the log and the log
    has the ten sectors it is used with. *)
Record geometry (V : Z -> list Z) (size nino st sz : Z) : Prop := {
  ge_size : get32 (V 1) 0 = size;
  ge_nino : get32 (V 1) 8 = nino;
  ge_nlog : get32 (V 1) 12 = sz;
  ge_st : st = size - sz;
  ge_lay : layout st sz;
  ge_log : 10 <= sz;
  ge_bitmap : BBLOCK (size - 1) nino < st;
}.

(** Is block [x] marked in the bitmap? *)
Definition used (V : Z -> list Z) (nino x : Z) : bool := bit (V (BBLOCK x nino)) (x mod BPB).
(** The first block after the bitmap *)
Definition data_start (size nino : Z) : Z := BBLOCK (size - 1) nino + 1.

Lemma BBLOCK_mono x y nino : x <= y -> BBLOCK x nino <= BBLOCK y nino.
Proof. intros H. unfold BBLOCK. pose proof (Z.div_le_mono x y BPB ltac:(unfold BPB, BSIZE; lia) H). lia. Qed.

Section Geometry.
Context {V : Z -> list Z} {size nino st sz : Z} (G : geometry V size nino st sz).

Lemma ge_nino_nonneg : 0 <= nino.
Proof. rewrite <- (ge_nino _ _ _ _ _ G). apply word_of_range. Qed.
Lemma ge_size_range : 0 < size <= 2 ^ 28.
Proof.
  pose proof (ge_st _ _ _ _ _ G). pose proof (ge_lay _ _ _ _ _ G) as Hl. unfold layout in Hl. lia.
Qed.

Lemma bitmap_range x : 0 <= x < size -> 3 <= BBLOCK x nino < data_start size nino.
Proof.
  intros Hx. pose proof ge_nino_nonneg. pose proof (BBLOCK_mono x (size - 1) nino ltac:(lia)). unfold data_start.
  split; [|lia]. unfold BBLOCK. pose proof (Z.div_pos x BPB ltac:(lia) eq_refl).
  pose proof (Z.div_pos nino IPB ltac:(lia) eq_refl). lia.
Qed.
Lemma data_start_range : 3 < data_start size nino <= st.
Proof.
  pose proof ge_size_range. pose proof (bitmap_range 0 ltac:(lia)). pose proof (ge_bitmap _ _ _ _ _ G).
  unfold data_start in *. lia.
Qed.

Lemma loggable_below x : 1 < x < st -> loggable st sz x.
Proof. pose proof (ge_lay _ _ _ _ _ G) as Hl. unfold layout, loggable, home, oksec in *. lia. Qed.
Lemma bitmap_loggable x : 0 <= x < size -> loggable st sz (BBLOCK x nino).
Proof. intros Hx%bitmap_range. pose proof data_start_range. apply loggable_below. lia. Qed.
Lemma super_home : home st sz 1.
Proof. apply sector1_home, G. Qed.
Lemma bitmap_u32 x : 0 <= x < size -> u32 (BBLOCK x nino) = BBLOCK x nino.
Proof. intros Hx. apply home_u32. by apply bitmap_loggable. Qed.
End Geometry.

Lemma geometry_upd V size nino st sz x d :
  geometry V size nino st sz -> x <> 1 -> geometry (upd_blk V x d) size nino st sz.
Proof. intros [] Hx. split; rewrite ?upd_blk_ne by done; done. Qed.

(** Positions in the bitmap *)
Lemma BBLOCK_in_block b bi nino : (BPB | b) -> 0 <= bi < BPB -> BBLOCK (b + bi) nino = BBLOCK b nino.
Proof.
  intros [k ->] Hb. unfold BBLOCK. do 2 f_equal. rewrite Z.div_mul by (unfold BPB, BSIZE; lia).
  rewrite Z.add_comm, Z.div_add by (unfold BPB, BSIZE; lia). rewrite Z.div_small by done. lia.
Qed.
Lemma mod_in_block b bi : (BPB | b) -> 0 <= bi < BPB -> (b + bi) mod BPB = bi.
Proof. intros [k ->] Hb. rewrite Z.add_comm, Z.mod_add by (unfold BPB, BSIZE; lia). by apply Z.mod_small. Qed.
Lemma same_bit x y nino : BBLOCK x nino = BBLOCK y nino -> x mod BPB = y mod BPB -> x = y.
Proof.
  unfold BBLOCK. intros H1 H2. rewrite (Z.div_mod x BPB), (Z.div_mod y BPB) by (unfold BPB, BSIZE; lia).
  rewrite H2. assert (x / BPB = y / BPB) by lia. congruence.
Qed.
Lemma mod_BPB x : 0 <= x mod BPB < BPB.
Proof. apply Z.mod_pos_bound. unfold BPB, BSIZE. lia. Qed.

(** Marking and clearing one block *)
Definition mark (nino x : Z) (V : Z -> list Z) : Z -> list Z :=
  upd_blk V (BBLOCK x nino) (mark_bit (x mod BPB) (V (BBLOCK x nino))).
Definition unmark (nino x : Z) (V : Z -> list Z) : Z -> list Z :=
  upd_blk V (BBLOCK x nino) (clear_mark (x mod BPB) (V (BBLOCK x nino))).

Lemma used_mark V nino x y :
  length (V (BBLOCK x nino)) = 512%nat ->
  used (mark nino x V) nino y = if decide (y = x) then true else used V nino y.
Proof.
  intros Hl. unfold used, mark. unfold upd_blk.
  destruct (decide (BBLOCK y nino = BBLOCK x nino)) as [E|E].
  - rewrite mark_bit_spec by (done || apply mod_BPB). rewrite E. destruct (decide (y = x)) as [->|Hne].
    + by rewrite decide_True.
    + by rewrite decide_False by (intros ?; by apply Hne, (same_bit y x nino)).
  - destruct (decide (y = x)) as [->|]; done.
Qed.
Lemma used_unmark V nino x y :
  length (V (BBLOCK x nino)) = 512%nat ->
  used (unmark nino x V) nino y = if decide (y = x) then false else used V nino y.
Proof.
  intros Hl. unfold used, unmark. unfold upd_blk.
  destruct (decide (BBLOCK y nino = BBLOCK x nino)) as [E|E].
  - rewrite clear_mark_spec by (done || apply mod_BPB). rewrite E. destruct (decide (y = x)) as [->|Hne].
    + by rewrite decide_True.
    + by rewrite decide_False by (intros ?; by apply Hne, (same_bit y x nino)).
  - destruct (decide (y = x)) as [->|]; done.
Qed.

(** ** Blocks in a transaction *)
Section Blocks.
Context {T : Type} `{!FsKernel T} `{!FsKernelLaws T}.
Context (tx : txn) (V0 : Z -> list Z) (st sz : Z).
Implicit Types (s : fsys T) (H : gmap Z Z).
Notation tr s ents V U H := (trep tx V0 s st sz ents V U H).

Lemma budget (ents : list Z) H n :
  (length ents + size H <= n)%nat -> (size (list_to_set ents ∪ dom H : gset Z) <= n)%nat.
Proof.
  intros Hn. rewrite size_union_alt.
  assert (size (dom H ∖ list_to_set ents : gset Z) <= size H)%nat.
  { rewrite <- size_dom. apply subseteq_size, subseteq_difference_l. done. }
  assert (size (list_to_set ents : gset Z) <= length ents)%nat; [|lia]. clear. induction ents as [|x l IH].
  - by rewrite list_to_set_nil, size_empty.
  - rewrite list_to_set_cons, size_union_alt, size_singleton. cbn [length].
    assert (size (list_to_set l ∖ {[x]} : gset Z) <= size (list_to_set l : gset Z))%nat; [|lia].
    by apply subseteq_size, subseteq_difference_l.
Qed.

Lemma tget s ents V U H sec :
  tr s ents V U H -> home st sz sec -> H !! sec = None -> (length ents + size H <= 9)%nat ->
  exists i s', bufcache_read ROOTDEV sec s = Ok (i, s') /\ tr s' ents V U (<[sec := i]> H) /\ same_rest s s'.
Proof. intros R Hs Hno Hn. apply tread; [done..|]. right. by apply Nat.lt_succ_r, budget. Qed.

Lemma tput s ents V U H sec i :
  tr s ents V U (<[sec := i]> H) -> H !! sec = None -> sec ∉ U ->
  exists s', bufcache_release i s = Ok (tt, s') /\ tr s' ents V U H /\ same_rest s s'.
Proof.
  intros R Hno HU. destruct (trelease s tx V0 st sz ents V U _ sec i R (lookup_insert_eq _ _ _) HU)
    as (s' & E & R' & S). exists s'. rewrite delete_insert_id in R' by done. done.
Qed.

(** A held block is changed and logged. *)
Lemma twrite s ents V H sec b f :
  tr s ents V ∅ H -> tx_busy tx = 1 -> 10 <= sz -> H !! sec = Some b -> sec <> 1 ->
  length (f (V sec)) = 512%nat -> (length ents + size H <= 9)%nat ->
  exists s1 s2, data_write b f s = Ok (tt, s1) /\ log_write b s1 = Ok (tt, s2)
    /\ tr s2 (absorb sec ents) (upd_blk V sec (f (V sec))) ∅ H /\ same_rest_l s s2.
Proof.
  intros R Hbz Hlog Hb Hs1 Hlen Hn.
  destruct (tmodify s tx V0 st sz ents V ∅ H sec b f R Hb Hlen) as (s1 & E1 & R1 & S1).
  assert (size H <> 0)%nat as Hne by (apply (map_size_ne_0_lookup_2 H sec); by eexists).
  destruct (tlog s1 tx V0 st sz ents _ _ H sec b R1 Hbz Hb Hs1) as (s2 & E2 & R2 & S2); [lia|lia| |].
  { by apply Nat.lt_succ_r, budget. }
  exists s1, s2. split_and!; [done|done| |].
  - by replace ((∅ ∪ {[sec]}) ∖ {[sec]}) with (∅ : gset Z) in R2 by set_solver.
  - eapply same_rest_l_trans; [apply same_rest_log, S1|done].
Qed.

Lemma absorb_length sec ents : (length ents <= length (absorb sec ents) <= length ents + 1)%nat.
Proof. unfold absorb. case_decide; rewrite ?length_app; cbn; lia. Qed.

Lemma tsuper s ents V U H :
  tr s ents V U H -> layout st sz -> H !! 1 = None -> 1 ∉ U -> (length ents + size H <= 9)%nat ->
  exists s', read_superblock ROOTDEV s =
      Ok (mk_sb (get32 (V 1) 0) (get32 (V 1) 4) (get32 (V 1) 8) (get32 (V 1) 12), s')
    /\ tr s' ents V U H /\ same_rest s s'.
Proof.
  intros R Hlay Hno HU Hn. destruct (tget s ents V U H 1 R (sector1_home _ _ Hlay) Hno Hn) as (i & s1 & E1 & R1 & S1).
  unfold read_superblock. rewrite (bind_ok _ _ _ _ _ E1).
  rewrite (bind_ok _ _ _ _ _ (tdata _ _ _ _ _ _ _ _ _ _ _ R1 (lookup_insert_eq _ _ _))).
  destruct (tput s1 ents V U H 1 i R1 Hno HU) as (s2 & E2 & R2 & S2). rewrite (bind_ok _ _ _ _ _ E2).
  exists s2. split; [done|]. split; [done|]. by eapply same_rest_trans.
Qed.

Lemma block_zero_spec s ents V H x :
  tr s ents V ∅ H -> tx_busy tx = 1 -> 10 <= sz -> loggable st sz x -> H !! x = None ->
  (length ents + size H + 1 <= 9)%nat ->
  exists s', block_zero ROOTDEV x s = Ok (tt, s')
    /\ tr s' (absorb x ents) (upd_blk V x zero_block) ∅ H /\ same_rest_l s s'.
Proof.
  intros R Hbz Hlog [Hx Hx1] Hno Hn. unfold block_zero.
  destruct (tget s ents V ∅ H x R Hx Hno ltac:(lia)) as (b & s1 & E1 & R1 & S1). rewrite (bind_ok _ _ _ _ _ E1).
  destruct (twrite s1 ents V _ x b (fun _ => zero_block) R1 Hbz Hlog (lookup_insert_eq _ _ _) Hx1 eq_refl)
    as (s2 & s3 & E2 & E3 & R3 & S3); [rewrite map_size_insert_None by done; lia|].
  rewrite (bind_ok _ _ _ _ _ E2), (bind_ok _ _ _ _ _ E3).
  destruct (tput s3 _ _ ∅ H x b R3 Hno (not_elem_of_empty _)) as (s4 & E4 & R4 & S4).
  exists s4. split; [done|]. split; [done|].
  eapply same_rest_l_trans; [apply same_rest_log, S1|]. eapply same_rest_l_trans; [exact S3|].
  apply same_rest_log, S4.
Qed.
End Blocks.

Lemma bitmap_steps_split size d b r :
  bitmap_steps size = d ++ b :: r -> b = BPB * Z.of_nat (length d) /\ b < size.
Proof.
  intros E. pose proof (f_equal (.!! length d) E) as Ex. rewrite list_lookup_middle in Ex by done.
  unfold bitmap_steps in Ex. rewrite list_lookup_fmap in Ex.
  destruct (seqZ 0 _ !! length d) as [k|] eqn:Ek; [|done]. apply lookup_seqZ in Ek as [-> Hlt].
  injection Ex as <-. split; [lia|]. unfold BPB, BSIZE in *.
  pose proof (Z.mul_div_le (size + 512 * 8 - 1) (512 * 8) ltac:(lia)). lia.
Qed.
Lemma bitmap_steps_length size : 0 <= size -> size <= BPB * Z.of_nat (length (bitmap_steps size)).
Proof.
  intros Hs. unfold bitmap_steps. rewrite length_map, length_seqZ. unfold BPB, BSIZE.
  pose proof (Z.div_mod (size + 512 * 8 - 1) (512 * 8) ltac:(lia)).
  pose proof (Z.mod_pos_bound (size + 512 * 8 - 1) (512 * 8) ltac:(lia)). lia.
Qed.

Record first_free (V : Z -> list Z) (nino x : Z) : Prop := {
  ff_free : used V nino x = false;
  ff_before y : 0 <= y < x -> used V nino y = true;
}.

(** None of the blocks the allocator uses is held by the caller. *)
Definition bitmap_unheld (fsz nino : Z) (H : gmap Z Z) : Prop :=
  H !! 1 = None /\ forall y, 0 <= y < fsz -> H !! BBLOCK y nino = None.

Section Alloc.
Context {T : Type} `{!FsKernel T} `{!FsKernelLaws T}.
Context (tx : txn) (V0 : Z -> list Z) (st sz : Z) (Hbz : tx_busy tx = 1).
Implicit Types (s : fsys T) (H : gmap Z Z).
Notation tr s ents V U H := (trep tx V0 s st sz ents V U H).

(** The inner loop at one bitmap block: nothing happens until a clear bit is
    found. *)
Lemma scan_bits s bp n (found : Z -> M (fsys T) (option Z)) d :
  buf_read bp b_data s = Ok (d, s) -> 0 <= n ->
  let loop := first_of (seqZ 0 n) (fun bi => d ← buf_read bp b_data;
      if decide (bit_of d bi = 0) then found bi else mret None) in
  (exists bi, 0 <= bi < n /\ bit d bi = false /\ (forall j, 0 <= j < bi -> bit d j = true)
     /\ forall y s', found bi s = Ok (Some y, s') -> loop s = Ok (Some y, s'))
  \/ ((forall j, 0 <= j < n -> bit d j = true) /\ loop s = Ok (None, s)).
Proof.
  intros Hd Hn. set (body := fun bi => d ← buf_read bp b_data; if decide (bit_of d bi = 0) then found bi else mret None).
  assert (forall m k, 0 <= k -> k + Z.of_nat m = n -> (forall j, 0 <= j < k -> bit d j = true) ->
    (exists bi, 0 <= bi < n /\ bit d bi = false /\ (forall j, 0 <= j < bi -> bit d j = true)
       /\ forall y s', found bi s = Ok (Some y, s') -> first_of (seqZ k (Z.of_nat m)) body s = Ok (Some y, s'))
    \/ ((forall j, 0 <= j < n -> bit d j = true) /\ first_of (seqZ k (Z.of_nat m)) body s = Ok (None, s))) as Hgen.
  { induction m as [|m IH]; intros k Hk Hkm Hall.
    - right. replace n with k by lia. split; [done|]. by rewrite seqZ_nil by lia.
    - rewrite seqZ_cons by lia. cbn [first_of]. replace (Z.pred (Z.of_nat (S m))) with (Z.of_nat m) by lia.
      replace (Z.succ k) with (k + 1) by lia.
      assert (body k s = (if decide (bit_of d k = 0) then found k else mret None) s) as Eb
        by (unfold body; by rewrite (bind_ok _ _ _ _ _ Hd)).
      destruct (decide (bit_of d k = 0)) as [E|E].
      + left. exists k. apply bit_of_zero in E. split_and!; [lia|lia|done|done|]. intros y s' Ef.
        rewrite Ef in Eb. by rewrite (bind_ok _ _ _ _ _ Eb).
      + rewrite (bind_ok _ _ _ _ _ Eb). apply IH; [lia|lia|]. intros j Hj.
        destruct (decide (j = k)) as [->|]; [|apply Hall; lia].
        destruct (bit d k) eqn:Ek; [done|]. by apply bit_of_zero in Ek. }
  pose proof (Hgen (Z.to_nat n) 0 ltac:(lia) ltac:(lia)) as Hr. rewrite Z2Nat.id in Hr by lia.
  apply Hr. lia.
Qed.

(** Taking block [x] once its clear bit has been found, with the bitmap block held *)
Lemma take_block s ents V H fsz nino x bp b bi :
  tr s ents V ∅ (<[BBLOCK x nino := bp]> H) -> geometry V fsz nino st sz -> bitmap_unheld fsz nino H ->
  1 < x < st -> H !! x = None -> BBLOCK x nino <> x -> b + bi = x -> bi = x mod BPB ->
  (length ents + S (size H) + 1 <= 9)%nat ->
  exists s', (data_write bp (mark_bit bi) ;; log_write bp ;; bufcache_release bp ;;
      block_zero ROOTDEV (b + bi) ;; mret (Some (b + bi))) s = Ok (Some x, s')
    /\ tr s' (absorb x (absorb (BBLOCK x nino) ents)) (upd_blk (mark nino x V) x zero_block) ∅ H
    /\ same_rest_l s s'.
Proof.
  intros R G [_ Hbm] Hx Hno Hne Eb Ebi Hn. rewrite Eb. clear b Eb. subst bi.
  pose proof (ge_log _ _ _ _ _ G) as Hlog. pose proof (ge_st _ _ _ _ _ G) as Est.
  assert (0 <= x < fsz) as Hxs by lia. pose proof (bitmap_loggable G x Hxs) as [Hbh Hb1].
  destruct (twrite tx V0 st sz s ents V _ (BBLOCK x nino) bp (mark_bit (x mod BPB)) R Hbz Hlog
    (lookup_insert_eq _ _ _) Hb1) as (s2 & s3 & E2 & E3 & R3 & S3).
  { apply mark_bit_length; [|apply mod_BPB]. by eapply tlength. }
  { rewrite map_size_insert_None by (by apply Hbm). lia. }
  rewrite (bind_ok _ _ _ _ _ E2), (bind_ok _ _ _ _ _ E3). fold (mark nino x V) in R3.
  destruct (tput tx V0 st sz s3 _ _ ∅ H _ bp R3 (Hbm x Hxs) (not_elem_of_empty _)) as (s4 & E4 & R4 & S4).
  rewrite (bind_ok _ _ _ _ _ E4). pose proof (absorb_length (BBLOCK x nino) ents) as Hal.
  destruct (block_zero_spec tx V0 st sz s4 _ _ H x R4 Hbz Hlog (loggable_below G x Hx) Hno) as (s5 & E5 & R5 & S5);
    [lia|].
  rewrite (bind_ok _ _ _ _ _ E5). exists s5. split; [done|]. split; [done|].
  eapply same_rest_l_trans; [exact S3|]. eapply same_rest_l_trans; [apply same_rest_log, S4|done].
Qed.

Lemma block_alloc_spec s ents V H fsz nino x :
  tr s ents V ∅ H -> geometry V fsz nino st sz -> bitmap_unheld fsz nino H ->
  first_free V nino x -> data_start fsz nino <= x < st -> H !! x = None ->
  (length ents + size H + 2 <= 9)%nat ->
  exists s', block_alloc ROOTDEV s = Ok (x, s')
    /\ tr s' (absorb x (absorb (BBLOCK x nino) ents)) (upd_blk (mark nino x V) x zero_block) ∅ H
    /\ same_rest_l s s'.
Proof.
  intros R G Hun [Hff Hbefore] Hx Hno Hn. pose proof (ge_st _ _ _ _ _ G) as Est.
  pose proof (data_start_range G) as Hds. pose proof (ge_size_range G) as Hsz.
  destruct (tsuper tx V0 st sz s ents V ∅ H R (ge_lay _ _ _ _ _ G) (proj1 Hun) (not_elem_of_empty _)) as (s0 & E0 & R0 & S0);
    [lia|].
  unfold block_alloc. rewrite (bind_ok _ _ _ _ _ E0). cbn [sb_size sb_ninodes].
  rewrite (ge_size _ _ _ _ _ G), (ge_nino _ _ _ _ _ G).
  match goal with |- context [first_of ?l ?f] => set (body := f) end.
  destruct (first_of_ind (fun d y => tr y ents V ∅ H /\ same_rest_l s y
      /\ forall k, 0 <= k < Z.min fsz (BPB * Z.of_nat (length d)) -> used V nino k = true)
    (fun _ _ r y => r = x /\
       tr y (absorb x (absorb (BBLOCK x nino) ents)) (upd_blk (mark nino x V) x zero_block) ∅ H
       /\ same_rest_l s y) body (bitmap_steps fsz)) with (s := s0) as (o & s' & E & Ho).
  - intros d b r y Ed (Ry & Sy & Hused). apply bitmap_steps_split in Ed as [Eb Hb]. unfold body.
    assert (0 <= b) as Hb0 by (unfold BPB, BSIZE in *; lia).
    rewrite (bitmap_u32 G) by lia. pose proof (bitmap_loggable G b ltac:(lia)) as [Hbh _].
    destruct (tget tx V0 st sz y ents V ∅ H _ Ry Hbh (proj2 Hun b ltac:(lia))) as (bp & y1 & E1 & R1 & S1); [lia|].
    rewrite (bind_ok _ _ _ _ _ E1). assert (same_rest_l s y1) as Sy1.
    { eapply same_rest_l_trans; [exact Sy|]. apply same_rest_log, S1. }
    assert (BPB | b) as Hdiv by (rewrite Eb; apply Z.divide_factor_l).
    assert (forall j, 0 <= j < BPB -> bit (V (BBLOCK b nino)) j = used V nino (b + j)) as Hbit.
    { intros j Hj. unfold used. by rewrite BBLOCK_in_block, mod_in_block. }
    match goal with |- context [first_of (seqZ 0 ?n) (fun bi => mbind (fun d => if decide _ then @?f bi else _) _)] =>
      destruct (scan_bits y1 bp n f (V (BBLOCK b nino))) as [(bi & Hbi & Hz & Hall & Hrun)|[Hall Hrun]] end.
    { by eapply tdata, lookup_insert_eq. } { unfold BPB, BSIZE; lia. }
    + assert (b + bi = x) as Ebx.
      { destruct (Z.lt_trichotomy (b + bi) x) as [Hlt|[|Hgt]]; [|done|].
        - rewrite Hbit in Hz by lia. rewrite Hbefore in Hz by lia. done.
        - destruct (decide (x < b)) as [Hlt|Hge]; [rewrite Hused in Hff; [done|lia]|].
          specialize (Hall (x - b) ltac:(lia)). rewrite Hbit in Hall by lia.
          replace (b + (x - b)) with x in Hall by lia. congruence. }
      assert (BBLOCK b nino = BBLOCK x nino) as EBB by (rewrite <- Ebx; symmetry; apply BBLOCK_in_block; [done|lia]).
      destruct (take_block y1 ents V H fsz nino x bp b bi) as (y2 & E2 & R2 & S2); try done.
      { by rewrite <- EBB. } { lia. }
      { pose proof (bitmap_range G x ltac:(lia)). lia. }
      { rewrite <- Ebx. symmetry. apply mod_in_block; [done|lia]. } { lia. }
      rewrite (bind_ok _ _ _ _ _ (Hrun _ _ E2)). exists (Some x), y2. split; [done|]. split; [done|].
      split; [done|]. by eapply same_rest_l_trans.
    + rewrite (bind_ok _ _ _ _ _ Hrun).
      destruct (tput tx V0 st sz y1 ents V ∅ H _ bp R1 (proj2 Hun b ltac:(lia)) (not_elem_of_empty _)) as (y2 & E2 & R2 & S2).
      rewrite (bind_ok _ _ _ _ _ E2). exists None, y2. split; [done|]. split; [done|].
      split; [eapply same_rest_l_trans; [exact Sy1|apply same_rest_log, S2]|].
      intros k Hk. rewrite length_app in Hk. cbn [length] in Hk. destruct (decide (k < b)); [apply Hused; lia|].
      replace k with (b + (k - b)) by lia. unfold BPB, BSIZE in *. rewrite <- Hbit by lia. apply Hall. lia.
  - split; [done|]. split; [apply same_rest_log, S0|]. intros k Hk. cbn in Hk. lia.
  - rewrite (bind_ok _ _ _ _ _ E). destruct o as [r|].
    + destruct Ho as (_ & _ & _ & _ & -> & R' & S'). by exists s'.
    + destruct Ho as (_ & _ & Hall). rewrite Hall in Hff; [done|].
      pose proof (bitmap_steps_length fsz ltac:(lia)). pose proof (ge_log _ _ _ _ _ G). lia.
Qed.

Lemma block_free_run s ents V H fsz nino x :
  tr s ents V ∅ H -> geometry V fsz nino st sz -> bitmap_unheld fsz nino H -> 0 <= x < fsz ->
  (length ents + size H + 1 <= 9)%nat ->
  if used V nino x then
    exists s', block_free ROOTDEV x s = Ok (tt, s')
      /\ tr s' (absorb (BBLOCK x nino) ents) (unmark nino x V) ∅ H /\ same_rest_l s s'
  else block_free ROOTDEV x s = Panic "freeing free block".
Proof.
  intros R G Hun Hx Hn. pose proof (bitmap_loggable G x Hx) as [Hbh Hb1]. pose proof (ge_log _ _ _ _ _ G) as Hlog.
  destruct (tsuper tx V0 st sz s ents V ∅ H R (ge_lay _ _ _ _ _ G) (proj1 Hun) (not_elem_of_empty _)) as (s0 & E0 & R0 & S0);
    [lia|].
  destruct (tget tx V0 st sz s0 ents V ∅ H _ R0 Hbh (proj2 Hun x Hx)) as (bp & s1 & E1 & R1 & S1); [lia|].
  assert (block_free ROOTDEV x s = (if decide (bit_of (V (BBLOCK x nino)) (x mod BPB) = 0)
      then panic "freeing free block" else data_write bp (clear_mark (x mod BPB)) ;; log_write bp ;;
      bufcache_release bp) s1) as ->.
  { unfold block_free. rewrite (bind_ok _ _ _ _ _ E0). cbn [sb_size sb_ninodes]. rewrite (ge_nino _ _ _ _ _ G).
    rewrite (bitmap_u32 G) by done. rewrite (bind_ok _ _ _ _ _ E1).
    by rewrite (bind_ok _ _ _ _ _ (tdata _ _ _ _ _ _ _ _ _ _ _ R1 (lookup_insert_eq _ _ _))). }
  unfold used. destruct (bit _ _) eqn:Eb.
  - rewrite decide_False by (rewrite bit_of_zero, Eb; done).
    destruct (twrite tx V0 st sz s1 ents V _ (BBLOCK x nino) bp (clear_mark (x mod BPB)) R1 Hbz Hlog
      (lookup_insert_eq _ _ _) Hb1) as (s2 & s3 & E2 & E3 & R3 & S3).
    { apply clear_mark_length; [|apply mod_BPB]. by eapply tlength. }
    { rewrite map_size_insert_None by (by apply Hun). lia. }
    rewrite (bind_ok _ _ _ _ _ E2), (bind_ok _ _ _ _ _ E3).
    destruct (tput tx V0 st sz s3 _ _ ∅ H _ bp R3 (proj2 Hun x Hx) (not_elem_of_empty _)) as (s4 & E4 & R4 & S4).
    exists s4. split; [done|]. split; [done|]. eapply same_rest_l_trans; [apply same_rest_log, S0|].
    eapply same_rest_l_trans; [apply same_rest_log, S1|]. eapply same_rest_l_trans; [exact S3|apply same_rest_log, S4].
  - by rewrite decide_True by (by apply bit_of_zero).
Qed.
End Alloc.

(** ** Transactions around the allocator *)
Lemma geometry_sb V fsz nino st sz : geometry V fsz nino st sz -> sb_at (V 1) st sz.
Proof. intros []. unfold sb_at. subst. done. Qed.

Section InTransaction.
Context {T : Type} `{!FsKernel T} `{!FsKernelLaws T}.
Implicit Types s : fsys T.

(** [m] as one transaction *)
Definition in_trans {A} (m : M (fsys T) A) : M (fsys T) A := begin_trans ;; r ← m; commit_trans ;; mret r.

(** [Q] says what [m] does while the transaction is open. *)
Lemma in_trans_run {A} (m : M (fsys T) A) s st sz V (Q : A -> fsys T -> (Z -> list Z) -> Prop) :
  irep s st sz V -> sb_at (V 1) st sz ->
  (forall s1, trep (mk_txn 1 (past s)) V s1 st sz [] V ∅ ∅ -> same_rest_l s s1 -> exists r s2 ents V',
     m s1 = Ok (r, s2) /\ trep (mk_txn 1 (past s)) V s2 st sz ents V' ∅ ∅ /\ (length ents <= 9)%nat
     /\ sb_at (V' 1) st sz /\ Q r s2 V') ->
  exists r s2 s' V' hist, in_trans m s = Ok (r, s') /\ irep s' st sz V' /\ Q r s2 V' /\ same_rest_l s2 s'
    /\ past s' = hist ++ past s
    /\ forall im, im ∈ disk s' :: hist -> restarts_to T im st sz V \/ restarts_to T im st sz V'.
Proof.
  intros I Hsb Hm. destruct (begin_trans_spec s st sz V I) as (s1 & Eb & T1 & S1).
  destruct (Hm s1 T1 S1) as (r & s2 & ents & V' & E2 & T2 & Hl & Hsb' & HQ).
  destruct (tcommit s2 _ V st sz ents V' T2 eq_refl Hl) as (s3 & hist & E3 & I3 & S3 & P3 & At).
  exists r, s2, s3, V', hist. unfold in_trans. rewrite (bind_ok _ _ _ _ _ Eb), (bind_ok _ _ _ _ _ E2), (bind_ok _ _ _ _ _ E3).
  split_and!; [done..|]. intros im Him. destruct (At im Him) as (c & Hc & [Hr|Hr]); [left|right];
    (eapply recoverable_restarts; [apply I| |done..]); done.
Qed.

Lemma in_trans_spec {A} (m : M (fsys T) A) s st sz V V' r :
  irep s st sz V -> sb_at (V 1) st sz -> V' 1 = V 1 ->
  (forall s1, trep (mk_txn 1 (past s)) V s1 st sz [] V ∅ ∅ -> same_rest_l s s1 -> exists s2 ents,
     m s1 = Ok (r, s2) /\ trep (mk_txn 1 (past s)) V s2 st sz ents V' ∅ ∅ /\ (length ents <= 9)%nat
     /\ same_rest_l s1 s2) ->
  exists s' hist, in_trans m s = Ok (r, s') /\ irep s' st sz V' /\ same_rest_l s s' /\ past s' = hist ++ past s
    /\ forall im, im ∈ disk s' :: hist -> restarts_to T im st sz V \/ restarts_to T im st sz V'.
Proof.
  intros I Hsb E1 Hm.
  destruct (in_trans_run m s st sz V (fun r' s2 W => r' = r /\ W = V' /\ same_rest_l s s2) I Hsb)
    as (r' & s2 & s' & W & hist & E & I' & (-> & -> & S2) & S3 & P & C).
  - intros s1 T1 S1. destruct (Hm s1 T1 S1) as (s2 & ents & E2 & T2 & Hl & S2). exists r, s2, ents, V'.
    split_and!; try done; [by rewrite E1|]. by eapply same_rest_l_trans.
  - exists s', hist. split_and!; try done. by eapply same_rest_l_trans.
Qed.

Lemma unheld_none fsz nino : bitmap_unheld fsz nino ∅.
Proof. split; [|intros ? _]; apply lookup_empty. Qed.

Section AllocFree.
Context (st sz fsz nino : Z).
Notation geo V := (geometry V fsz nino st sz).

Lemma alloc_in_trans s V x (V' := upd_blk (mark nino x V) x zero_block) :
  irep s st sz V -> geo V -> first_free V nino x -> data_start fsz nino <= x < st ->
  (exists s' hist, in_trans (block_alloc ROOTDEV) s = Ok (x, s') /\ irep s' st sz V' /\ past s' = hist ++ past s
    /\ forall im, im ∈ disk s' :: hist -> restarts_to T im st sz V \/ restarts_to T im st sz V')
  /\ geo V'.
Proof.
  intros I G Hff Hx. pose proof (data_start_range G) as Hd. pose proof (ge_st _ _ _ _ _ G). pose proof (ge_log _ _ _ _ _ G).
  pose proof (bitmap_range G x ltac:(lia)) as Hb.
  split; [|unfold V', mark; apply geometry_upd; [apply geometry_upd; [done|]|]; lia].
  destruct (in_trans_spec (block_alloc ROOTDEV) s st sz V V' x I (geometry_sb _ _ _ _ _ G))
    as (s1 & hist & E1 & I1 & _ & P1 & C1); [unfold V', mark; rewrite !upd_blk_ne by lia; done| |by exists s1, hist].
  intros s1 T1 _. destruct (block_alloc_spec (mk_txn 1 (past s)) V st sz eq_refl s1 [] V ∅ fsz nino x T1 G (unheld_none _ _) Hff Hx (lookup_empty _))
    as (s2 & E & T2 & S2); [by rewrite map_size_empty; cbn; lia|].
  exists s2, (absorb x (absorb (BBLOCK x nino) [])). split_and!; [done..| |done].
  pose proof (absorb_length x (absorb (BBLOCK x nino) [])). pose proof (absorb_length (BBLOCK x nino) []). cbn in *. lia.
Qed.

Lemma free_in_trans s V x :
  irep s st sz V -> geo V -> 0 <= x < fsz ->
  if used V nino x then exists s', in_trans (block_free ROOTDEV x) s = Ok (tt, s') /\ irep s' st sz (unmark nino x V)
    /\ geo (unmark nino x V)
  else in_trans (block_free ROOTDEV x) s = Panic "freeing free block".
Proof.
  intros I G Hx. pose proof (bitmap_loggable G x Hx) as [_ Hb1].
  assert (forall s1, trep (mk_txn 1 (past s)) V s1 st sz [] V ∅ ∅ -> _) as Hf
    by (intros s1 T1; exact (block_free_run (mk_txn 1 (past s)) V st sz eq_refl s1 [] V ∅ fsz nino x T1 G (unheld_none _ _) Hx
          ltac:(by rewrite map_size_empty; cbn; lia))).
  destruct (used V nino x).
  - destruct (in_trans_spec (block_free ROOTDEV x) s st sz V (unmark nino x V) tt I (geometry_sb _ _ _ _ _ G))
      as (s' & h & E & I' & _); [unfold unmark; by rewrite upd_blk_ne| |].
    { intros s1 T1 _. destruct (Hf s1 T1) as (s2 & E & T2 & S2). exists s2, (absorb (BBLOCK x nino) []).
      split_and!; [done..| |done]. pose proof (absorb_length (BBLOCK x nino) []). cbn in *. lia. }
    exists s'. split_and!; [done..|]. by apply geometry_upd.
  - destruct (begin_trans_spec s st sz V I) as (s3 & E3 & T3 & _). unfold in_trans. rewrite (bind_ok _ _ _ _ _ E3).
    unfold mbind, M_bind. by rewrite (Hf s3 T3).
Qed.
End AllocFree.
End InTransaction.

(** ** A disk as mkfs lays it out

    1000 sectors, the last 20 of them for the log; 64 inodes in sectors 2 to
    10, the bitmap in sector 11.  Inode 1 is the root directory with its entries
    in block 12, inode 2 the file "a" of five bytes in block 13. *)
Module Sample.
Definition super : list Z := set32 0 1000 (set32 4 968 (set32 8 64 (set32 12 20 zero_block))).
Definition inode_sector : list Z :=
  set16 64 T_DIR (set16 70 1 (set32 72 512 (set32 76 12
    (set16 128 T_FILE (set16 134 1 (set32 136 5 (set32 140 13 zero_block))))))).
Definition bitmap_sector : list Z := set8 0 255 (set8 1 63 zero_block).
Definition root_entries : list Z := splice 0 [1; 0; 46] (splice 16 [1; 0; 46; 46] (splice 32 [2; 0; 97] zero_block)).
Definition file_data : list Z := splice 0 [104; 101; 108; 108; 111] zero_block.
Definition image0 : image :=
  list_to_map [((1, 1), super); ((1, 2), inode_sector); ((1, 11), bitmap_sector); ((1, 12), root_entries);
    ((1, 13), file_data)].
Definition boot : fsys (thr * mem) :=
  mk_fsys free_lock ∅ free_lock None 1 false image0 [] inhabitant free_lock ∅ free_lock ∅ (SchedProps.demo, ∅).
Definition V (x : Z) : list Z := dread image0 (ROOTDEV, x).

Lemma boot_ok : booted boot image0.
Proof.
  split; [done| |intros i _; unfold boot; cbn [bufs]; by rewrite lookup_total_empty|done].
  split; [exists SchedProps.demo_a; exact SchedProps.demo_abs|done..].
Qed.
Lemma img_ok : img image0 V.
Proof.
  intros x Hx. split; [done|]. unfold V, image0, dread. cbn [list_to_map foldr fst snd].
  repeat (rewrite lookup_insert; case_decide; [done|]). by rewrite lookup_empty.
Qed.
Lemma layout_ok : layout 980 20.
Proof. unfold layout. lia. Qed.

Lemma started : exists s, start_fs boot = Ok (tt, s) /\ irep s 980 20 V.
Proof.
  destruct (start_fs_spec boot image0 V 980 20 V boot_ok img_ok layout_ok) as (s & hist & E & I & _);
    [by vm_compute| |exact (ex_intro _ s (conj E I))].
  apply recoverable_empty; [exact layout_ok|by vm_compute|by vm_compute|]. intros x _. exact eq_refl.
Qed.
Lemma geometry_ok : geometry V 1000 64 980 20.
Proof. split; [by vm_compute..|exact layout_ok|done|]. by vm_compute. Qed.
End Sample.

Module BlockProps.

(** C19 (functional): the life of a disk block.  With a bitmap in front of the
    log, [block_alloc] in a transaction returns the lowest free block [x] of
    the data area; it is then marked and filled with zeros, the marks of all
    other blocks and the contents of every block but [x] and its bitmap block
    are unchanged, and after a crash the allocation has happened or it has not.
    [block_free] of [x] in a later transaction restores the marks of all blocks,
    and freeing [x] again stops the kernel. *)
Theorem block_lifecycle {T : Type} `{!FsKernel T} `{!FsKernelLaws T} (s : fsys T) st sz V fsz nino x :
  irep s st sz V -> geometry V fsz nino st sz -> first_free V nino x -> data_start fsz nino <= x < st ->
  exists s1 hist V1, in_trans (block_alloc ROOTDEV) s = Ok (x, s1) /\ irep s1 st sz V1
    /\ V1 x = zero_block /\ (forall y, 0 <= y < fsz -> used V1 nino y = if decide (y = x) then true else used V nino y)
    /\ (forall y, y <> x -> y <> BBLOCK x nino -> V1 y = V y)
    /\ past s1 = hist ++ past s
    /\ (forall im, im ∈ disk s1 :: hist -> restarts_to T im st sz V \/ restarts_to T im st sz V1)
    /\ exists s2 V2, in_trans (block_free ROOTDEV x) s1 = Ok (tt, s2) /\ irep s2 st sz V2
         /\ (forall y, 0 <= y < fsz -> used V2 nino y = used V nino y)
         /\ (forall y, y <> x -> y <> BBLOCK x nino -> V2 y = V y)
         /\ in_trans (block_free ROOTDEV x) s2 = Panic "freeing free block".
Proof.
  intros I G Hff Hx. pose proof (ge_st _ _ _ _ _ G). pose proof (ge_log _ _ _ _ _ G).
  pose proof (data_start_range G). assert (0 <= x < fsz) as Hxs by lia. pose proof (bitmap_loggable G x Hxs) as [Hbh _].
  destruct (alloc_in_trans st sz fsz nino s V x I G Hff Hx) as [(s1 & hist & E1 & I1 & P1 & C1) G1].
  set (V1 := upd_blk (mark nino x V) x zero_block) in *.
  assert (forall W st' s', irep (s' : fsys T) st sz W -> length (W (BBLOCK x nino)) = 512%nat) as Hlen
    by (intros W st' s' I'; eapply tlength; [apply irep_trep, I'|done]).
  assert (forall y, 0 <= y < fsz -> used V1 nino y = if decide (y = x) then true else used V nino y) as Hu1.
  { intros y Hy. rewrite <- used_mark by (by eapply Hlen). unfold used, V1. rewrite upd_blk_ne; [done|].
    pose proof (bitmap_range G y Hy). lia. }
  pose proof (free_in_trans st sz fsz nino s1 V1 x I1 G1 Hxs) as Hf.
  rewrite Hu1, decide_True in Hf by done. destruct Hf as (s2 & E2 & I2 & G2). set (V2 := unmark nino x V1) in *.
  assert (forall y, used V2 nino y = if decide (y = x) then false else used V1 nino y) as Hu2
    by (intros y; apply used_unmark; by eapply Hlen).
  assert (forall y, y <> x -> y <> BBLOCK x nino -> V1 y = V y) as Ho
    by (intros y ? ?; unfold V1, mark; by rewrite !upd_blk_ne by done).
  exists s1, hist, V1. split_and!; [done|done|apply upd_blk_same|done|done|done|done|].
  exists s2, V2. split_and!; [done|done| | |].
  - intros y Hy. rewrite Hu2. case_decide as E; [subst; symmetry; apply Hff|]. rewrite Hu1 by done. by rewrite decide_False.
  - intros y ? ?. unfold V2, unmark. rewrite upd_blk_ne by done. by apply Ho.
  - pose proof (free_in_trans st sz fsz nino s2 V2 x I2 G2 Hxs) as Hf. by rewrite Hu2, decide_True in Hf by done.
Qed.

(** Block 14 is the first free block of the sample disk. *)
Lemma sample_first : first_free Sample.V 64 14.
Proof.
  split; [by vm_compute|]. intros y Hy. assert (y ∈ seqZ 0 14) as Hin by (apply elem_of_seqZ; lia).
  revert y Hin Hy. apply (Forall_forall (fun y => 0 <= y < 14 -> used Sample.V 64 y = true)).
  change (seqZ 0 14) with [0;1;2;3;4;5;6;7;8;9;10;11;12;13]. repeat constructor; intros _; by vm_compute.
Qed.
Lemma block_lifecycle_witness : exists (s s1 : fsys (thr * mem)) V1,
  irep s 980 20 Sample.V /\ in_trans (block_alloc ROOTDEV) s = Ok (14, s1) /\ irep s1 980 20 V1 /\ V1 14 = zero_block.
Proof.
  destruct Sample.started as (s & _ & I).
  destruct (block_lifecycle s 980 20 Sample.V 1000 64 14 I Sample.geometry_ok sample_first)
    as (s1 & hist & V1 & E1 & I1 & Z1 & _); [change (data_start 1000 64) with 12; lia|].
  exists s, s1, V1. exact (conj I (conj E1 (conj I1 Z1))).
Defined.
(** ** A full disk

    The sample disk with all 980 blocks in front of the log in use *)
Definition full_disk : image := <[(1, 11) := replicate 122 255 ++ 15 :: replicate 389 0]> Sample.image0.
Definition boot_with (im : image) : fsys (thr * mem) :=
  mk_fsys free_lock ∅ free_lock None 1 false im [] inhabitant free_lock ∅ free_lock ∅ (SchedProps.demo, ∅).
(** Storing [w] in a newly allocated block *)
Definition store_new (w : Z) : M (fsys (thr * mem)) Z :=
  start_fs ;; in_trans (x ← block_alloc ROOTDEV; update_block (x, set32 0 w) ;; mret x).
Definition header_word (im : image) : Z := get32 (dread im (ROOTDEV, 980)) 0.

(** When the last block of the data area is taken, [block_alloc]
    does not fail.  Its loop runs to the size of the disk, and the bitmap does
    not mark the log, so on a disk whose 980 blocks are all in use it returns
    sector 980, the header of the log.  A word stored in that block and
    committed is lost, because the commit ends by clearing the header; and if
    the machine stops before that last write, the word is taken for the number
    of logged blocks and the next start runs out of the bounds of the header in
    memory. *)
Theorem full_disk_allocates_log_header :
  exists s im rest, store_new 77 (boot_with full_disk) = Ok (980, s)
    /\ header_word (disk s) = 0 /\ past s = im :: rest /\ header_word im = 77
    /\ start_fs (boot_with im) = Undef OutOfBounds.
Proof.
  assert (match store_new 77 (boot_with full_disk) with
          | Ok (x, s) => x = 980 /\ header_word (disk s) = 0 /\ match past s with
              | im :: _ => header_word im = 77 /\ start_fs (boot_with im) = Undef OutOfBounds | [] => False end
          | _ => False end) as H by (vm_compute; repeat split).
  destruct (store_new 77 (boot_with full_disk)) as [[x s]| | | |]; [|destruct H..]. destruct H as (-> & Hd & Hp). destruct (past s) as [|im rest] eqn:Ep; [destruct Hp|].
  exists s, im, rest. exact (conj eq_refl (conj Hd (conj Ep Hp))).
Qed.
End BlockProps.
