(* ===== verification/Inode.v ===== *)
(** * Inodes: fs/inode.c

    The inode cache, inodes on disk, the blocks of a file, and reading and
    writing file contents.  A pointer to an inode is [PInode i] for entry [i]
    of the cache. *)

From S2P Require Import Prelude DList Machine Thread Scheduler KString Bytes FsData BufCache FsLog Block.

Definition s16 (z : Z) : Z := let u := u16 z in if u <? 32768 then u else u - 65536.

Definition set_i_key (dev inum ref flags : Z) (x : inode) : inode :=
  mk_inode dev inum ref flags (i_type x) (i_major x) (i_minor x) (i_nlink x) (i_size x) (i_addrs x).
Definition set_i_ref (v : Z) (x : inode) : inode :=
  mk_inode (i_dev x) (i_inum x) v (i_flags x) (i_type x) (i_major x) (i_minor x) (i_nlink x) (i_size x) (i_addrs x).
Definition set_i_flags (v : Z) (x : inode) : inode :=
  mk_inode (i_dev x) (i_inum x) (i_ref x) v (i_type x) (i_major x) (i_minor x) (i_nlink x) (i_size x) (i_addrs x).
Definition set_i_type (v : Z) (x : inode) : inode :=
  mk_inode (i_dev x) (i_inum x) (i_ref x) (i_flags x) v (i_major x) (i_minor x) (i_nlink x) (i_size x) (i_addrs x).
Definition set_i_majmin (a b : Z) (x : inode) : inode :=
  mk_inode (i_dev x) (i_inum x) (i_ref x) (i_flags x) (i_type x) a b (i_nlink x) (i_size x) (i_addrs x).
Definition set_i_nlink (v : Z) (x : inode) : inode :=
  mk_inode (i_dev x) (i_inum x) (i_ref x) (i_flags x) (i_type x) (i_major x) (i_minor x) v (i_size x) (i_addrs x).
Definition set_i_size (v : Z) (x : inode) : inode :=
  mk_inode (i_dev x) (i_inum x) (i_ref x) (i_flags x) (i_type x) (i_major x) (i_minor x) (i_nlink x) v (i_addrs x).
Definition set_i_addrs (v : gmap Z Z) (x : inode) : inode :=
  mk_inode (i_dev x) (i_inum x) (i_ref x) (i_flags x) (i_type x) (i_major x) (i_minor x) (i_nlink x) (i_size x) v.

(** ** struct dinode at byte [o] of a block *)
Definition dinode_off (inum : Z) : Z := inum mod IPB * sizeof_dinode.
Definition get_addrs (d : list Z) (o : Z) : gmap Z Z :=
  list_to_map (map (fun k => (k, get32 d (o + 4 * k))) (seqZ 0 (NDIRECT + 1))).
Definition set_addrs (o : Z) (a : gmap Z Z) (d : list Z) : list Z :=
  foldl (fun d k => set32 (o + 4 * k) (a !!! k) d) d (seqZ 0 (NDIRECT + 1)).
(** The fields of [x] that are copies of the inode on disk, written to it *)
Definition put_dinode (o : Z) (x : inode) (d : list Z) : list Z :=
  set_addrs (o + 12) (i_addrs x)
    (set32 (o + 8) (i_size x)
      (set16 (o + 6) (i_nlink x)
        (set16 (o + 4) (i_minor x)
          (set16 (o + 2) (i_major x)
            (set16 o (i_type x) d))))).
(** ... and read from it *)
Definition get_dinode (d : list Z) (o : Z) (x : inode) : inode :=
  mk_inode (i_dev x) (i_inum x) (i_ref x) (i_flags x)
    (s16 (get16 d o)) (s16 (get16 d (o + 2))) (s16 (get16 d (o + 4))) (s16 (get16 d (o + 6)))
    (get32 d (o + 8)) (get_addrs d (o + 12)).
(** A cleared inode with type [type] *)
Definition new_dinode (o type : Z) (d : list Z) : list Z :=
  set16 o type (splice o (replicate 64 0) d).

Section Ops.
Context {T : Type} `{!FsKernel T}.

Notation F := (M (fsys T)).

(** An access through an inode pointer *)
Definition ino_at (p : ptr) : F Z :=
  match p with
  | PInode i => check_index NINODE i ;; mret i
  | PNull => undef NullDeref
  | _ => undef BadAddress
  end.
Definition ino_read {A} (p : ptr) (f : inode -> A) : F A := i ← ino_at p; gets (fun s => f (inodes s !!! i)).
Definition upd_ino (i : Z) (f : inode -> inode) (s : fsys T) : fsys T :=
  set_inodes (<[i := f (inodes s !!! i)]> (inodes s)) s.
Definition ino_write (p : ptr) (f : inode -> inode) : F unit := i ← ino_at p; modify (upd_ino i f).
Definition ic_acquire : F unit := acquire ic_lock set_ic_lock.
Definition ic_release : F unit := release ic_lock set_ic_lock.

Definition inode_init : F unit := zoom ic_lock set_ic_lock spinlock_init.

(** The search of [inode_get]: the entry for the inode, or else the first
    entry without references *)
Fixpoint find_inode (l : list Z) (empty : ptr) (dev inum : Z) : F (ptr * ptr) :=
  match l with
  | [] => mret (PNull, empty)
  | i :: l =>
      x ← ino_read (PInode i) id;
      if decide (i_ref x > 0 /\ i_dev x = dev /\ i_inum x = inum) then mret (PInode i, empty)
      else find_inode l (if decide (empty = PNull /\ i_ref x = 0) then PInode i else empty) dev inum
  end.

Definition inode_get (dev inum : Z) : F ptr :=
  ic_acquire ;;
  r ← find_inode (seqZ 0 NINODE) PNull dev inum;
  let (ip, empty) := r : ptr * ptr in
  if decide (ip <> PNull) then
    ino_write ip (fun x => set_i_ref (s32 (i_ref x + 1)) x) ;;
    ic_release ;;
    mret ip
  else if decide (empty = PNull) then panic "inode_get: no inodes"
  else
    ino_write empty (set_i_key dev inum 1 0) ;;
    ic_release ;;
    mret empty.

Definition inode_alloc (dev type : Z) : F ptr :=
  sb ← read_superblock dev;
  r ← first_of (seqZ 1 (sb_ninodes sb - 1)) (fun inum =>
    bp ← bufcache_read dev (u32 (IBLOCK inum));
    d ← buf_read bp b_data;
    if decide (s16 (get16 d (dinode_off inum)) = 0) then
      data_write bp (new_dinode (dinode_off inum) type) ;;
      log_write bp ;;
      bufcache_release bp ;;
      p ← inode_get dev inum;
      mret (Some p)
    else bufcache_release bp ;; mret None);
  match r with
  | Some p => mret p
  | None => panic "inode_alloc: no inodes"
  end.

Definition inode_update (ip : ptr) : F unit :=
  x ← ino_read ip id;
  bp ← bufcache_read (i_dev x) (u32 (IBLOCK (i_inum x)));
  data_write bp (put_dinode (dinode_off (i_inum x)) x) ;;
  log_write bp ;;
  bufcache_release bp.

Definition inode_dup (ip : ptr) : F ptr :=
  ic_acquire ;;
  ino_write ip (fun x => set_i_ref (s32 (i_ref x + 1)) x) ;;
  ic_release ;;
  mret ip.

Definition inode_lock (ip : ptr) : F unit :=
  if decide (ip = PNull) then panic "inode_lock"
  else
    ref ← ino_read ip i_ref;
    if decide (ref < 1) then panic "inode_lock"
    else
      ic_acquire ;;
      f ← ino_read ip i_flags;
      if decide (Z.land f I_BUSY <> 0) then fail Spin (* thread_sleep until another process unlocks it *)
      else
        ino_write ip (fun x => set_i_flags (Z.lor (i_flags x) I_BUSY) x) ;;
        ic_release ;;
        f ← ino_read ip i_flags;
        if decide (Z.land f I_VALID = 0) then
          x ← ino_read ip id;
          bp ← bufcache_read (i_dev x) (u32 (IBLOCK (i_inum x)));
          d ← buf_read bp b_data;
          ino_write ip (get_dinode d (dinode_off (i_inum x))) ;;
          bufcache_release bp ;;
          ino_write ip (fun x => set_i_flags (Z.lor (i_flags x) I_VALID) x) ;;
          t ← ino_read ip i_type;
          if decide (t = 0) then panic "inode_lock: no type" else mret tt
        else mret tt.

Definition inode_unlock (ip : ptr) : F unit :=
  if decide (ip = PNull) then panic "inode_unlock"
  else
    x ← ino_read ip id;
    if decide (Z.land (i_flags x) I_BUSY = 0 \/ i_ref x < 1) then panic "inode_unlock"
    else
      ic_acquire ;;
      ino_write ip (fun x => set_i_flags (Z.land (i_flags x) (Z.lnot I_BUSY)) x) ;;
      wakeup ip ;;
      ic_release.

(** ** Contents *)
Definition addr_read (ip : ptr) (k : Z) : F Z :=
  check_index (NDIRECT + 1) k ;; ino_read ip (fun x => i_addrs x !!! k).
Definition addr_write (ip : ptr) (k v : Z) : F unit :=
  check_index (NDIRECT + 1) k ;; ino_write ip (fun x => set_i_addrs (<[k := v]> (i_addrs x)) x).

Definition bmap (ip : ptr) (bn : Z) : F Z :=
  dev ← ino_read ip i_dev;
  if decide (bn < NDIRECT) then
    addr ← addr_read ip bn;
    if decide (addr = 0) then
      addr ← block_alloc dev;
      addr_write ip bn addr ;;
      mret addr
    else mret addr
  else
    let bn := bn - NDIRECT in
    if decide (bn < NINDIRECT) then
      addr ← addr_read ip NDIRECT;
      addr ← (if decide (addr = 0) then
                addr ← block_alloc dev;
                addr_write ip NDIRECT addr ;;
                mret addr
              else mret addr);
      bp ← bufcache_read dev addr;
      d ← buf_read bp b_data;
      let addr := get32 d (4 * bn) in
      addr ← (if decide (addr = 0) then
                addr ← block_alloc dev;
                data_write bp (set32 (4 * bn) addr) ;;
                log_write bp ;;
                mret addr
              else mret addr);
      bufcache_release bp ;;
      mret addr
    else panic "bmap: out of range".

Definition inode_trunc (ip : ptr) : F unit :=
  dev ← ino_read ip i_dev;
  for_each (seqZ 0 NDIRECT) (fun i =>
    a ← addr_read ip i;
    if decide (a <> 0) then
      block_free dev a ;;
      addr_write ip i 0
    else mret tt) ;;
  a ← addr_read ip NDIRECT;
  (if decide (a <> 0) then
     bp ← bufcache_read dev a;
     for_each (seqZ 0 NINDIRECT) (fun j =>
       d ← buf_read bp b_data;
       if decide (get32 d (4 * j) <> 0) then block_free dev (get32 d (4 * j)) else mret tt) ;;
     bufcache_release bp ;;
     a ← addr_read ip NDIRECT;
     block_free dev a ;;
     addr_write ip NDIRECT 0
   else mret tt) ;;
  ino_write ip (set_i_size 0) ;;
  inode_update ip.

Definition inode_put (ip : ptr) : F unit :=
  ic_acquire ;;
  x ← ino_read ip id;
  (if decide (i_ref x = 1 /\ Z.land (i_flags x) I_VALID <> 0 /\ i_nlink x = 0) then
     if decide (Z.land (i_flags x) I_BUSY <> 0) then panic "inode_put busy"
     else
       ino_write ip (fun x => set_i_flags (Z.lor (i_flags x) I_BUSY) x) ;;
       ic_release ;;
       inode_trunc ip ;;
       ino_write ip (set_i_type 0) ;;
       inode_update ip ;;
       ic_acquire ;;
       ino_write ip (set_i_flags 0) ;;
       wakeup ip
   else mret tt) ;;
  ino_write ip (fun x => set_i_ref (s32 (i_ref x - 1)) x) ;;
  ic_release.

Definition inode_unlockput (ip : ptr) : F unit := inode_unlock ip ;; inode_put ip.

Definition inode_stat (ip : ptr) : F file_stat_t :=
  x ← ino_read ip id;
  mret (mk_stat (i_type x) (i_dev x) (i_inum x) (u16 (i_nlink x)) (i_size x)).

(** [memmove] between kernel memory and the data of a buffer *)
Definition mem_load (a n : Z) : F (list Z) := gets (fun s => load_bytes (fk_mem (kern s)) a n).
Definition mem_store (a : Z) (l : list Z) : F unit :=
  modify (fun s => set_kern (fk_set_mem (store_bytes a l (fk_mem (kern s))) (kern s)) s).

(** Every iteration but the first and the last one copies a whole block. *)
Definition rw_fuel (n : Z) : nat := Z.to_nat (n / BSIZE + 2).

(** [for(tot=0; tot<n; tot+=m, off+=m, dst+=m)] *)
Fixpoint read_loop (fuel : nat) (ip : ptr) (dst off tot n : Z) : F unit :=
  if decide (tot < n) then
    match fuel with
    | O => fail Hang
    | S fuel =>
        dev ← ino_read ip i_dev;
        b ← bmap ip (off / BSIZE);
        bp ← bufcache_read dev b;
        let m := Z.min (n - tot) (BSIZE - off mod BSIZE) in
        d ← buf_read bp b_data;
        mem_store dst (slice (off mod BSIZE) m d) ;;
        bufcache_release bp ;;
        read_loop fuel ip (dst + m) (off + m) (tot + m) n
    end
  else mret tt.

(** A device file: [devsw] is never set. *)
Definition dev_rw (ip : ptr) : F Z :=
  major ← ino_read ip i_major;
  if decide (major < 0 \/ major >= NDEV) then mret (-1) else undef NullDeref.

Definition inode_read (ip : ptr) (dst off n : Z) : F Z :=
  x ← ino_read ip id;
  if decide (i_type x = T_DEV) then dev_rw ip
  else if decide (off > i_size x \/ u32 (off + n) < off) then mret (-1)
  else
    let n := if decide (u32 (off + n) > i_size x) then i_size x - off else n in
    read_loop (rw_fuel n) ip dst off 0 n ;;
    mret (s32 n).

(** The result is the final value of [off]. *)
Fixpoint write_loop (fuel : nat) (ip : ptr) (src off tot n : Z) : F Z :=
  if decide (tot < n) then
    match fuel with
    | O => fail Hang
    | S fuel =>
        dev ← ino_read ip i_dev;
        b ← bmap ip (off / BSIZE);
        bp ← bufcache_read dev b;
        let m := Z.min (n - tot) (BSIZE - off mod BSIZE) in
        l ← mem_load src m;
        data_write bp (splice (off mod BSIZE) l) ;;
        log_write bp ;;
        bufcache_release bp ;;
        write_loop fuel ip (src + m) (off + m) (tot + m) n
    end
  else mret off.

Definition inode_write (ip : ptr) (src off n : Z) : F Z :=
  x ← ino_read ip id;
  if decide (i_type x = T_DEV) then dev_rw ip
  else if decide (off > i_size x \/ u32 (off + n) < off) then mret (-1)
  else if decide (u32 (off + n) > MAXFILE * BSIZE) then mret (-1)
  else
    off ← write_loop (rw_fuel n) ip src off 0 n;
    size ← ino_read ip i_size;
    (if decide (n > 0 /\ off > size) then
       ino_write ip (set_i_size off) ;;
       inode_update ip
     else mret tt) ;;
    mret (s32 n).
End Ops.
