(* ===== verification/InodeData.v ===== *)
(** * The contents of files

    Which disk block holds which block of a file, and what [bmap],
    [inode_read] and [inode_write] of fs/inode.c do to the contents. *)

From S2P Require Import Prelude DList Machine Thread Scheduler KString Bytes FsData BufCache FsLog Block Inode.

(** ** The block map of an inode with addresses [a] *)

(** The disk block of file block [bn]; 0 if there is none. *)
Definition baddr (V : Z -> list Z) (a : gmap Z Z) (bn : Z) : Z :=
  if decide (bn < 12) then a !!! bn
  else if decide (a !!! 12 = 0) then 0 else get32 (V (a !!! 12)) (4 * (bn - 12)).

(** The contents of file block [bn] *)
Definition fblock (V : Z -> list Z) (a : gmap Z Z) (bn : Z) : list Z :=
  if decide (baddr V a bn = 0) then zero_block else V (baddr V a bn).

(** Is disk block [z] part of the file? *)
Definition owned (V : Z -> list Z) (a : gmap Z Z) (z : Z) : Prop :=
  z <> 0 /\ ((exists bn, 0 <= bn < 140 /\ baddr V a bn = z) \/ z = a !!! 12).

Section Map.
Context (fsz nino st sz : Z).

Definition in_data (x : Z) : Prop := data_start fsz nino <= x < st.
Definition bitmap (z : Z) : Prop := exists k, 0 <= k < fsz /\ z = BBLOCK k nino.

Definition inuse (V : Z -> list Z) (z : Z) : bool := bool_decide (0 <= z < fsz) && used V nino z.

Record ino_wf (V : Z -> list Z) (a : gmap Z Z) : Prop := {
  iw_own z : owned V a z -> in_data z /\ inuse V z = true;
  iw_inj bn bn' : 0 <= bn < 140 -> 0 <= bn' < 140 -> baddr V a bn <> 0 ->
    baddr V a bn = baddr V a bn' -> bn = bn';
  iw_ind bn : 0 <= bn < 140 -> baddr V a bn <> 0 -> baddr V a bn <> a !!! 12;
}.

(** [V'] and [a'] have more blocks for the same contents. *)
Record ext (V : Z -> list Z) (a : gmap Z Z) (V' : Z -> list Z) (a' : gmap Z Z) : Prop := {
  ex_used z : inuse V z = true -> inuse V' z = true;
  ex_block bn : 0 <= bn < 140 -> fblock V' a' bn = fblock V a bn;
  ex_keep bn : 0 <= bn < 140 -> baddr V a bn <> 0 -> baddr V' a' bn = baddr V a bn;
  ex_ind : a !!! 12 <> 0 -> a' !!! 12 = a !!! 12;
  ex_own z : owned V' a' z -> owned V a z \/ inuse V z = false;
  ex_frame z : inuse V z = true -> ~ bitmap z -> z <> a !!! 12 -> V' z = V z;
}.

Lemma ext_refl V a : ext V a V a.
Proof. split; try done. by left. Qed.
Lemma ext_trans V a V1 a1 V2 a2 : ext V a V1 a1 -> ext V1 a1 V2 a2 -> ino_wf V1 a1 -> ext V a V2 a2.
Proof.
  intros E1 E2 W1. split.
  - intros z Hz. by apply (ex_used _ _ _ _ E2), (ex_used _ _ _ _ E1).
  - intros bn Hb. rewrite (ex_block _ _ _ _ E2 bn Hb). by apply E1.
  - intros bn Hb Hn. pose proof (ex_keep _ _ _ _ E1 bn Hb Hn) as E. rewrite <- E. apply E2; [done|congruence].
  - intros Hn. pose proof (ex_ind _ _ _ _ E1 Hn) as E. rewrite <- E. apply E2. congruence.
  - intros z [Hz|Hz]%(ex_own _ _ _ _ E2); [by apply (ex_own _ _ _ _ E1)|right].
    destruct (inuse V z) eqn:Eu; [|done]. apply (ex_used _ _ _ _ E1) in Eu. congruence.
  - intros z Hz Hb Hi. rewrite (ex_frame _ _ _ _ E2 z); [by apply E1|by apply (ex_used _ _ _ _ E1)|done|].
    intros ->. destruct (decide (a !!! 12 = 0)) as [E|E]; [|apply Hi; by rewrite (ex_ind _ _ _ _ E1 E)].
    assert (owned V1 a1 (a1 !!! 12)) as Ho by (split; [congruence|by right]).
    destruct (ex_own _ _ _ _ E1 _ Ho) as [[Hne [(bn & Hbn & Eb)|Eb]]|Hf]; [|congruence..].
    apply (iw_ind _ _ W1 bn Hbn); rewrite (ex_keep _ _ _ _ E1 bn Hbn) by congruence; congruence.
Qed.

(** ** Allocating *)
Record fresh (V : Z -> list Z) (x : Z) : Prop := {
  fr_data : in_data x;
  fr_free : inuse V x = false;
}.
Definition taken (x : Z) (V : Z -> list Z) : Z -> list Z := upd_blk (mark nino x V) x zero_block.

Context {V : Z -> list Z} (G : geometry V fsz nino st sz).

Lemma in_data_range x : in_data x -> 3 < x < st /\ 0 <= x < fsz /\ ~ bitmap x.
Proof.
  intros Hx. unfold in_data in Hx. pose proof (data_start_range G). pose proof (ge_st _ _ _ _ _ G).
  pose proof (ge_log _ _ _ _ _ G). split; [lia|]. split; [lia|].
  intros (k & Hk & ->). pose proof (bitmap_range G k Hk). lia.
Qed.

Lemma taken_other x z : z <> x -> z <> BBLOCK x nino -> taken x V z = V z.
Proof. intros. unfold taken, mark. by rewrite !upd_blk_ne. Qed.
Lemma taken_same x : taken x V x = zero_block.
Proof. apply upd_blk_same. Qed.

Context (Hlen : forall z, home st sz z -> length (V z) = 512%nat).

Lemma inuse_range W z : inuse W z = true -> 0 <= z < fsz.
Proof. unfold inuse. intros [H _]%andb_true_iff. by apply bool_decide_eq_true in H. Qed.

Lemma inuse_taken x y : in_data x -> inuse (taken x V) y = if decide (y = x) then true else inuse V y.
Proof.
  intros Hx. destruct (in_data_range x Hx) as (_ & Hxs & Hnb). unfold inuse.
  destruct (decide (0 <= y < fsz)) as [Hy|Hy].
  - rewrite bool_decide_true by done. cbn [andb].
    rewrite <- used_mark by (apply Hlen, (bitmap_loggable G x Hxs)).
    unfold taken, used. rewrite upd_blk_ne; [done|]. intros E. apply Hnb. by exists y.
  - rewrite bool_decide_false by done. destruct (decide (y = x)); [by subst|done].
Qed.

Lemma taken_inuse x z : fresh V x -> inuse V z = true -> ~ bitmap z -> taken x V z = V z.
Proof.
  intros [Hx Hf] Hz Hb. apply taken_other; [congruence|]. intros ->. apply Hb.
  exists x. by destruct (in_data_range x Hx) as (_ & ? & _).
Qed.

Lemma owned_kept a x z : ino_wf V a -> fresh V x -> owned V a z -> z <> x /\ taken x V z = V z.
Proof.
  intros W Hx Ho. destruct (iw_own _ _ W z Ho) as [Hd Hu]. split; [intros ->; destruct Hx; congruence|].
  apply taken_inuse; [done..|]. by apply in_data_range.
Qed.
Lemma baddr_owned a bn : 0 <= bn < 140 -> baddr V a bn <> 0 -> owned V a (baddr V a bn).
Proof. intros Hb Hn. split; [done|]. left. by exists bn. Qed.
Lemma ind_owned a : a !!! 12 <> 0 -> owned V a (a !!! 12).
Proof. intros Hn. split; [done|]. by right. Qed.

(** A taken block changes no address. *)
Lemma baddr_taken a x bn : ino_wf V a -> fresh V x -> baddr (taken x V) a bn = baddr V a bn.
Proof.
  intros W Hx. unfold baddr. case_decide; [done|]. case_decide as Hi; [done|].
  by rewrite (proj2 (owned_kept a x _ W Hx (ind_owned a Hi))).
Qed.

(** The file gets block [x] as file block [n] or as its indirect block. *)
Record gains (a : gmap Z Z) (x n : Z) (V' : Z -> list Z) (a' : gmap Z Z) : Prop := {
  ga_addr k : 0 <= k < 140 ->
    baddr V' a' k = baddr V a k \/ (k = n /\ baddr V a k = 0 /\ baddr V' a' k = x);
  ga_ind : a' !!! 12 = a !!! 12 \/
    (a !!! 12 = 0 /\ a' !!! 12 = x /\ forall k, 0 <= k < 140 -> baddr V' a' k = baddr V a k);
  ga_inuse z : inuse V' z = if decide (z = x) then true else inuse V z;
  ga_zero : V' x = zero_block;
  ga_frame z : inuse V z = true -> ~ bitmap z -> z <> a !!! 12 -> V' z = V z;
}.

Lemma gains_wf a x n V' a' : ino_wf V a -> fresh V x -> gains a x n V' a' -> ino_wf V' a'.
Proof.
  intros W [Hxd Hxf] [Ha Hi Hu _ _].
  assert (x <> 0) as Hx0 by (destruct (in_data_range x Hxd); lia).
  assert (forall z, owned V a z -> z <> x) as Hown.
  { intros z Hz ->. destruct (iw_own _ _ W x Hz). congruence. }
  assert (forall z, owned V a z \/ z = x -> in_data z /\ inuse V' z = true) as Hin.
  { intros z [Hz| ->]; rewrite Hu; [|by rewrite decide_True].
    destruct (iw_own _ _ W z Hz) as [Hd Hz']. split; [done|]. by case_decide. }
  assert (forall k, 0 <= k < 140 -> baddr V' a' k <> 0 -> owned V a (baddr V' a' k) \/ baddr V' a' k = x) as Hb.
  { intros k Hk Hn. destruct (Ha k Hk) as [E|(_ & _ & E)]; [left; rewrite E in *; by apply baddr_owned|by right]. }
  split.
  - intros z [Hz0 [(k & Hk & <-)| ->]]; apply Hin; [by apply Hb|].
    destruct Hi as [E|(_ & E & _)]; [left; rewrite E in *; by apply ind_owned|by right].
  - intros k k' Hk Hk' Hn E.
    destruct (Ha k Hk) as [E1|(-> & _ & E1)]; destruct (Ha k' Hk') as [E2|(-> & _ & E2)].
    + apply (iw_inj _ _ W); congruence.
    + exfalso. apply (Hown (baddr V a k)); [apply baddr_owned; congruence|congruence].
    + exfalso. apply (Hown (baddr V a k')); [apply baddr_owned; congruence|congruence].
    + done.
  - intros k Hk Hn E. destruct Hi as [E'|(_ & E' & Hall)].
    + destruct (Ha k Hk) as [E1|(_ & _ & E1)].
      * apply (iw_ind _ _ W k Hk); congruence.
      * apply (Hown (a !!! 12)); [apply ind_owned; congruence|congruence].
    + rewrite Hall in * by done. apply (Hown (baddr V a k)); [by apply baddr_owned|congruence].
Qed.

Lemma gains_ext a x n V' a' : ino_wf V a -> fresh V x -> gains a x n V' a' -> ext V a V' a'.
Proof.
  intros W [Hxd Hxf] [Ha Hi Hu Hz Hf]. assert (x <> 0) as Hx0 by (destruct (in_data_range x Hxd); lia). split.
  - intros z Hz'. rewrite Hu. by case_decide.
  - intros k Hk. unfold fblock. destruct (Ha k Hk) as [E|(_ & E0 & E)].
    + rewrite E. case_decide as Hn; [done|]. destruct (iw_own _ _ W _ (baddr_owned a k Hk Hn)) as [Hd Hin].
      apply Hf; [done|by apply in_data_range|by apply (iw_ind _ _ W)].
    + rewrite E, E0. rewrite decide_False, decide_True by done. done.
  - intros k Hk Hn. by destruct (Ha k Hk) as [E|(_ & E & _)].
  - intros Hn. by destruct Hi as [E|(E & _)].
  - intros z [Hz0 [(k & Hk & <-)| ->]].
    + destruct (Ha k Hk) as [E|(_ & _ & E)]; [left; rewrite E in *; by apply baddr_owned|right; by rewrite E].
    + destruct Hi as [E|(_ & E & _)]; [left; rewrite E in *; by apply ind_owned|right; by rewrite E].
  - intros z Hz1 Hz2 Hz3. by apply Hf.
Qed.

(** The three places a new block can go to *)
Lemma gains_direct a x n : ino_wf V a -> fresh V x -> 0 <= n < 12 -> a !!! n = 0 ->
  gains a x n (taken x V) (<[n := x]> a) /\ baddr (taken x V) (<[n := x]> a) n = x.
Proof.
  intros W Hx Hn Ha.
  assert (forall k, 0 <= k < 140 -> baddr (taken x V) (<[n := x]> a) k = if decide (k = n) then x else baddr V a k) as Hb.
  { intros k Hk. rewrite <- (baddr_taken a x k W Hx). unfold baddr. rewrite !lookup_total_upd.
    destruct (decide (k = n)) as [->|Hne].
    - rewrite decide_True by lia. by rewrite decide_True.
    - rewrite (decide_False (P := n = k)), (decide_False (P := n = 12)) by lia. done. }
  split; [|by rewrite Hb, decide_True by lia]. split.
  - intros k Hk. rewrite Hb by done. case_decide as E; [right|by left]. subst. split_and!; [done| |done].
    unfold baddr. by rewrite decide_True by lia.
  - left. by rewrite lookup_total_upd, decide_False by lia.
  - intros z. apply inuse_taken, Hx.
  - apply taken_same.
  - intros z Hz Hnb _. by apply taken_inuse.
Qed.

Lemma get32_zero k : get32 zero_block k = 0.
Proof.
  assert (forall j, at_ zero_block j = 0) as H.
  { intros j. unfold at_, zero_block. rewrite list_lookup_total_alt.
    destruct (replicate 512 0 !! Z.to_nat j) eqn:E; [|done]. by apply lookup_replicate in E as [-> _]. }
  unfold get32, word_of. by rewrite !H.
Qed.

Lemma gains_indirect a x n : ino_wf V a -> fresh V x -> a !!! 12 = 0 ->
  gains a x n (taken x V) (<[12 := x]> a).
Proof.
  intros W Hx Ha.
  assert (forall k, 0 <= k < 140 -> baddr (taken x V) (<[12 := x]> a) k = baddr V a k) as Hb.
  { intros k Hk. unfold baddr. rewrite !lookup_total_upd, Ha. dec_refl.
    destruct (decide (k < 12)); [by rewrite decide_False by lia|]. rewrite taken_same, get32_zero. by case_decide. }
  split.
  - intros k Hk. left. by apply Hb.
  - right. by rewrite lookup_total_upd, decide_True.
  - intros z. apply inuse_taken, Hx.
  - apply taken_same.
  - intros z Hz Hnb _. by apply taken_inuse.
Qed.

(** Overwriting a data block leaves the bitmap alone. *)
Lemma inuse_upd W b d z : in_data b -> inuse (upd_blk W b d) z = inuse W z.
Proof.
  intros Hb. unfold inuse. destruct (decide (0 <= z < fsz)) as [Hz|Hz]; [|by rewrite bool_decide_false].
  f_equal. unfold used. rewrite upd_blk_ne; [done|]. intros E.
  destruct (in_data_range b Hb) as (_ & _ & Hn). apply Hn. by exists z.
Qed.

Lemma get32_set32_at l k j w :
  length l = 512%nat -> 0 <= k < 128 -> 0 <= j < 128 -> 0 <= w < W32 ->
  get32 (set32 (4 * k) w l) (4 * j) = if decide (j = k) then w else get32 l (4 * j).
Proof.
  intros Hl Hk Hj Hw. destruct (decide (j = k)) as [->|Hne].
  - apply get32_set32; lia.
  - unfold set32. rewrite get32_splice_other; [done|lia|lia|cbn; lia|cbn; lia].
Qed.

Definition entered (a : gmap Z Z) (x n : Z) : Z -> list Z :=
  upd_blk (taken x V) (a !!! 12) (set32 (4 * (n - 12)) x (taken x V (a !!! 12))).

Lemma gains_entry a x n :
  ino_wf V a -> fresh V x -> 12 <= n < 140 -> a !!! 12 <> 0 -> baddr V a n = 0 ->
  gains a x n (entered a x n) a /\ baddr (entered a x n) a n = x.
Proof.
  intros W Hx Hn Hi H0. pose proof (ind_owned a Hi) as Ho. destruct (iw_own _ _ W _ Ho) as [Hid Hiu].
  destruct (owned_kept a x _ W Hx Ho) as [Hne Eind]. destruct (in_data_range _ Hid) as (Hir & _ & _).
  assert (length (V (a !!! 12)) = 512%nat) as Hl by (apply Hlen, (loggable_below G); lia).
  assert (0 <= x < W32) as Hxw.
  { destruct (in_data_range x (fr_data _ _ Hx)) as (_ & ? & _). pose proof (ge_size_range G). unfold W32. lia. }
  assert (forall k, 0 <= k < 140 -> baddr (entered a x n) a k = if decide (k = n) then x else baddr V a k) as Hb.
  { intros k Hk. unfold baddr. destruct (decide (k < 12)); [by rewrite decide_False by lia|].
    rewrite (decide_False (P := a !!! 12 = 0)) by done. unfold entered. rewrite upd_blk_same, Eind.
    rewrite get32_set32_at by (done || lia). destruct (decide (k = n)) as [->|]; [by rewrite decide_True|].
    rewrite (decide_False (P := k - 12 = n - 12)) by lia. by rewrite decide_False. }
  split; [|by rewrite Hb, decide_True by lia]. split.
  - intros k Hk. rewrite Hb by done. case_decide as E; [right; by subst|by left].
  - by left.
  - intros z. unfold entered. rewrite inuse_upd by done. apply inuse_taken, Hx.
  - unfold entered. rewrite upd_blk_ne by done. apply taken_same.
  - intros z Hz Hnb Hzi. unfold entered. rewrite upd_blk_ne by done. by apply taken_inuse.
Qed.

(** ** Overwriting a block of the file *)
Lemma baddr_write a b d k : ino_wf V a -> b <> a !!! 12 -> baddr (upd_blk V b d) a k = baddr V a k.
Proof. intros W Hb. unfold baddr. case_decide; [done|]. case_decide; [done|]. by rewrite upd_blk_ne. Qed.

Lemma write_wf a n d : ino_wf V a -> 0 <= n < 140 -> baddr V a n <> 0 ->
  ino_wf (upd_blk V (baddr V a n) d) a.
Proof.
  intros W Hn Hb. pose proof (iw_ind _ _ W n Hn Hb) as Hne.
  assert (forall k, baddr (upd_blk V (baddr V a n) d) a k = baddr V a k) as E by (intros; by apply baddr_write).
  pose proof (baddr_owned a n Hn Hb) as Ho. destruct (iw_own _ _ W _ Ho) as [Hd _]. split.
  - intros z [Hz Hz']. rewrite inuse_upd by done. apply W. split; [done|].
    destruct Hz' as [(k & Hk & Ek)|]; [left; exists k; by rewrite <- (E k)|by right].
  - intros k k' Hk Hk'. rewrite !E. by apply W.
  - intros k Hk. rewrite !E. by apply W.
Qed.

Lemma write_fblock a n d k : ino_wf V a -> 0 <= n < 140 -> 0 <= k < 140 -> baddr V a n <> 0 ->
  fblock (upd_blk V (baddr V a n) d) a k = if decide (k = n) then d else fblock V a k.
Proof.
  intros W Hn Hk Hb. unfold fblock. rewrite baddr_write by (done || by apply (iw_ind _ _ W)).
  destruct (decide (k = n)) as [->|Hne].
  - rewrite decide_False by done. apply upd_blk_same.
  - case_decide as H0; [done|]. rewrite upd_blk_ne; [done|]. intros E. apply Hne.
    by apply (iw_inj _ _ W).
Qed.
End Map.

(** ** Free blocks *)
Section Avail.
Context (fsz nino st : Z).
Notation inuse := (inuse fsz nino).
Notation in_data := (in_data fsz nino st).

Definition free_in (V : Z -> list Z) (l : list Z) : list Z := filter (fun x => inuse V x = false) l.
Definition data_blocks : list Z := seqZ (data_start fsz nino) (st - data_start fsz nino).

(** All blocks in front of the data are in use, and at least [n] data blocks are not. *)
Definition avail (V : Z -> list Z) (n : nat) : Prop :=
  (forall y, 0 <= y < data_start fsz nino -> inuse V y = true) /\ (n <= length (free_in V data_blocks))%nat.

Lemma avail_ext V V' n : (forall z, inuse V' z = inuse V z) -> avail V n -> avail V' n.
Proof.
  intros H [Hm Hn]. split; [intros y Hy; rewrite H; by apply Hm|].
  assert (free_in V' data_blocks = free_in V data_blocks) as ->; [|done].
  unfold free_in. apply list_filter_iff. intros x. by rewrite H.
Qed.
Lemma avail_le V m n : (m <= n)%nat -> avail V n -> avail V m.
Proof. intros Hmn [Hm Hn]. split; [done|lia]. Qed.

Lemma free_in_one V V' x l :
  NoDup l -> (forall z, inuse V' z = if decide (z = x) then true else inuse V z) ->
  (length (free_in V l) <= S (length (free_in V' l)))%nat.
Proof.
  intros Hnd Hu. induction Hnd as [|y l Hy Hnd IH]; [cbn; lia|]. unfold free_in in *.
  rewrite !filter_cons, !Hu. destruct (decide (y = x)) as [->|Hne].
  - assert (filter (fun z => inuse V' z = false) l = filter (fun z => inuse V z = false) l) as ->.
    { clear IH Hnd. induction l as [|z l IH]; [done|]. apply not_elem_of_cons in Hy as [Hz Hl].
      rewrite !filter_cons, Hu, (decide_False (P := z = x)) by done. by rewrite IH. }
    repeat case_decide; cbn; done || lia.
  - repeat case_decide; cbn; done || lia.
Qed.

Lemma avail_take V V' x n :
  in_data x -> (forall z, inuse V' z = if decide (z = x) then true else inuse V z) ->
  avail V (S n) -> avail V' n.
Proof.
  intros Hx Hu [Hm Hn]. split.
  - intros y Hy. rewrite Hu. case_decide; [done|]. by apply Hm.
  - pose proof (free_in_one V V' x data_blocks (NoDup_seqZ _ _) Hu). lia.
Qed.

Lemma avail_first V sz n :
  geometry V fsz nino st sz -> avail V (S n) -> exists x, first_free V nino x /\ fresh fsz nino st V x.
Proof.
  intros G [Hm Hn]. pose proof (data_start_range G) as Hds. pose proof (ge_st _ _ _ _ _ G). pose proof (ge_log _ _ _ _ _ G).
  assert (exists y, y ∈ data_blocks /\ inuse V y = false) as (y & Hy & Hf).
  { destruct (free_in V data_blocks) as [|y l] eqn:E; [cbn in Hn; lia|]. exists y.
    assert (y ∈ free_in V data_blocks) as Hy by (rewrite E; by left). apply list_elem_of_filter in Hy. tauto. }
  apply elem_of_seqZ in Hy.
  (* the least free block *)
  assert (forall k, 0 <= k -> (forall z, 0 <= z < k -> used V nino z = true)
     \/ exists z, 0 <= z < k /\ first_free V nino z) as Hleast.
  { intros k Hk. pattern k. apply natlike_ind; [left; lia| |done]. clear k Hk. intros k Hk [Hall|(z & Hz & Hff)].
    - destruct (used V nino k) eqn:E.
      + left. intros z Hz. destruct (decide (z = k)) as [->|]; [done|]. apply Hall. lia.
      + right. exists k. split; [lia|]. by split.
    - right. exists z. split; [lia|done]. }
  destruct (Hleast (y + 1) ltac:(lia)) as [Hall|(x & Hx & Hff)].
  - unfold InodeData.inuse in Hf. rewrite bool_decide_true in Hf by lia. cbn in Hf. rewrite Hall in Hf by lia. done.
  - exists x. split; [done|]. assert (inuse V x = false) as Hxf.
    { unfold InodeData.inuse. rewrite (ff_free _ _ _ Hff). apply andb_false_r. }
    split; [|done]. unfold InodeData.in_data. split; [|lia].
    destruct (decide (data_start fsz nino <= x)); [done|]. rewrite Hm in Hxf by lia. done.
Qed.
End Avail.

(** ** Steps *)
Section Steps.
Context {T : Type} `{!FsKernel T} `{!FsKernelLaws T}.
Implicit Types s : fsys T.

Lemma ino_read_ok {A} i (f : inode -> A) s :
  0 <= i < NINODE -> ino_read (PInode i) f s = Ok (f (inodes s !!! i), s).
Proof.
  intros. unfold ino_read, ino_at. rewrite bind_assoc.
  by rewrite (bind_ok _ _ _ _ _ (check_index_ok NINODE i s ltac:(lia))).
Qed.
Lemma ino_write_ok i f s : 0 <= i < NINODE -> ino_write (PInode i) f s = Ok (tt, upd_ino i f s).
Proof.
  intros. unfold ino_write, ino_at. rewrite bind_assoc.
  by rewrite (bind_ok _ _ _ _ _ (check_index_ok NINODE i s ltac:(lia))).
Qed.
Lemma addr_read_ok i k s :
  0 <= i < NINODE -> 0 <= k < 13 -> addr_read (PInode i) k s = Ok (i_addrs (inodes s !!! i) !!! k, s).
Proof.
  intros Hi Hk. unfold addr_read. rewrite (bind_ok _ _ _ _ _ (check_index_ok (NDIRECT + 1) k s Hk)).
  by apply ino_read_ok.
Qed.
Lemma addr_write_ok i k v s :
  0 <= i < NINODE -> 0 <= k < 13 ->
  addr_write (PInode i) k v s = Ok (tt, upd_ino i (fun x => set_i_addrs (<[k := v]> (i_addrs x)) x) s).
Proof.
  intros Hi Hk. unfold addr_write. rewrite (bind_ok _ _ _ _ _ (check_index_ok (NDIRECT + 1) k s Hk)).
  by apply ino_write_ok.
Qed.

Lemma upd_ino_lookup i f s j :
  inodes (upd_ino i f s) !!! j = if decide (i = j) then f (inodes s !!! i) else inodes s !!! j.
Proof. unfold upd_ino. cbn [inodes set_inodes]. apply lookup_total_upd. Qed.

(** What stays: everything but inode [i], the disk and the log *)
Record iframe (i : Z) s s' : Prop := {
  if_ic_lock : ic_lock s' = ic_lock s;
  if_ft_lock : ft_lock s' = ft_lock s;
  if_files : files s' = files s;
  if_mem : fk_mem (kern s') = fk_mem (kern s);
  if_inodes j : j <> i -> inodes s' !!! j = inodes s !!! j;
}.
Lemma iframe_trans i s1 s2 s3 : iframe i s1 s2 -> iframe i s2 s3 -> iframe i s1 s3.
Proof. intros A B. destruct A, B. split; try congruence. intros j Hj. rewrite (if_inodes1 j Hj). by apply if_inodes0. Qed.
Lemma iframe_refl i s : iframe i s s.
Proof. by split. Qed.
Lemma iframe_rest_l i s s' : same_rest_l s s' -> iframe i s s'.
Proof. intros [? E ? ? ?]. split; try done. intros j _. by rewrite E. Qed.
Lemma iframe_rest i s s' : same_rest s s' -> iframe i s s'.
Proof. intros H. by apply iframe_rest_l, same_rest_log. Qed.
Lemma iframe_upd i f s : iframe i s (upd_ino i f s).
Proof. split; try done. intros j Hj. rewrite upd_ino_lookup. by rewrite decide_False. Qed.
End Steps.
#[export] Hint Resolve iframe_refl iframe_rest_l iframe_rest iframe_upd : kern.

Section Insensitive.
Context {T : Type} `{!FsKernel T} `{!FsKernelLaws T}.
Implicit Types s : fsys T.

(** Neither the inode cache nor kernel memory matters to the blocks. *)
Lemma trep_upd_ino tx V0 st sz s ents V U H i f :
  trep tx V0 s st sz ents V U H -> trep tx V0 (upd_ino i f s) st sz ents V U H.
Proof.
  intros (dk & L & [[[] ? ? ? ? ? ? ? ? ? ? ? ?] [] ? ? ? ? ? ? ? ? ? ? ? ?]). exists dk, L.
  by split.
Qed.
Lemma trep_set_mem tx V0 st sz s ents V U H m :
  trep tx V0 s st sz ents V U H -> trep tx V0 (set_kern (fk_set_mem m (kern s)) s) st sz ents V U H.
Proof.
  intros (dk & L & [[[] ? ? ? ? ? ? ? ? ? ? ? ?] [] ? ? ? ? ? ? ? ? ? ? ? ?]). exists dk, L.
  split; try done. by split; [split; try done; by apply fk_set_inv|..].
Qed.
End Insensitive.

Lemma set_i_addrs_id x : set_i_addrs (i_addrs x) x = x.
Proof. by destruct x. Qed.

(** ** bmap *)
Section Bmap.
Context {T : Type} `{!FsKernel T} `{!FsKernelLaws T}.
Context (tx : txn) (V0 : Z -> list Z) (fsz nino st sz : Z).
Implicit Types (s : fsys T) (V : Z -> list Z) (H : gmap Z Z).
Notation tr s ents V U H := (trep tx V0 s st sz ents V U H).
Notation geo V := (geometry V fsz nino st sz).
Notation wf := (ino_wf fsz nino st).

Lemma in_data_home V x : geo V -> in_data fsz nino st x -> loggable st sz x.
Proof. intros G Hx. apply (loggable_below G). pose proof (data_start_range G). unfold in_data in Hx. lia. Qed.

(** The block exists: nothing changes. *)
Lemma bmap_present s ents V i bn (x := inodes s !!! i) :
  tr s ents V ∅ ∅ -> geo V -> wf V (i_addrs x) -> 0 <= i < NINODE -> i_dev x = ROOTDEV ->
  0 <= bn < 140 -> baddr V (i_addrs x) bn <> 0 -> (length ents <= 9)%nat ->
  exists s', bmap (PInode i) bn s = Ok (baddr V (i_addrs x) bn, s') /\ tr s' ents V ∅ ∅ /\ same_rest s s'.
Proof.
  intros R G W Hi Hdev Hbn Hne Hn. unfold bmap. rewrite (bind_ok _ _ _ _ _ (ino_read_ok i i_dev s Hi)).
  fold x. rewrite Hdev. unfold baddr in *. change NDIRECT with 12. change NINDIRECT with 128.
  destruct (decide (bn < 12)) as [Hd|Hd].
  - rewrite (bind_ok _ _ _ _ _ (addr_read_ok i bn s Hi ltac:(lia))). fold x.
    rewrite decide_False by done. exists s. split; [done|]. split; [done|apply same_rest_refl].
  - rewrite decide_True by lia. rewrite (bind_ok _ _ _ _ _ (addr_read_ok i 12 s Hi ltac:(lia))). fold x.
    destruct (decide (i_addrs x !!! 12 = 0)) as [|Hi0]; [done|].
    rewrite mret_bind. destruct (iw_own _ _ _ _ _ W _ (ind_owned _ Hi0)) as [Hid _].
    destruct (tget tx V0 st sz s ents V ∅ ∅ _ R (proj1 (in_data_home V _ G Hid)) (lookup_empty _)) as (bp & s1 & E1 & R1 & S1).
    { rewrite map_size_empty. lia. }
    rewrite (bind_ok _ _ _ _ _ E1).
    rewrite (bind_ok _ _ _ _ _ (tdata _ _ _ _ _ _ _ _ _ _ _ R1 (lookup_insert_eq _ _ _))).
    rewrite decide_False by done. rewrite mret_bind.
    destruct (tput tx V0 st sz s1 ents V ∅ ∅ _ bp R1 (lookup_empty _) (not_elem_of_empty _)) as (s2 & E2 & R2 & S2).
    rewrite (bind_ok _ _ _ _ _ E2). exists s2. split; [done|]. split; [done|]. by eapply same_rest_trans.
Qed.

Notation addrs s i := (i_addrs (inodes s !!! i)).

(** From [s] to [s'] inode [i] got at most [k] more blocks; the blocks logged on
    the way are bitmap blocks, its indirect block and blocks in [D]. *)
Record grown (k : nat) (D : list Z) (i : Z) s V (ents : list Z) s' V' (ents' : list Z) : Prop := {
  gw_tr : tr s' ents' V' ∅ ∅;
  gw_geo : geo V';
  gw_wf : wf V' (addrs s' i);
  gw_ext : ext fsz nino V (addrs s i) V' (addrs s' i);
  gw_ino : inodes s' !!! i = set_i_addrs (addrs s' i) (inodes s !!! i);
  gw_frame : iframe i s s';
  gw_ents y : y ∈ ents' -> y ∈ ents \/ bitmap fsz nino y \/ (y = addrs s' i !!! 12 /\ y <> 0) \/ y ∈ D;
  gw_avail n : avail fsz nino st V (k + n) -> avail fsz nino st V' n;
}.

Lemma grown_refl i s V ents :
  tr s ents V ∅ ∅ -> geo V -> wf V (addrs s i) -> grown 0 [] i s V ents s V ents.
Proof.
  intros R G W. split; try done; [apply ext_refl|by rewrite set_i_addrs_id|by left].
Qed.

Lemma grown_rest i s V ents s' :
  tr s' ents V ∅ ∅ -> geo V -> wf V (addrs s i) -> same_rest s s' -> grown 0 [] i s V ents s' V ents.
Proof.
  intros R G W S. assert (inodes s' = inodes s) as E by apply S.
  split; rewrite ?E; try done; [apply ext_refl|by rewrite set_i_addrs_id|by apply iframe_rest|by left].
Qed.

Lemma grown_trans k1 D1 k2 D2 i s V ents s1 V1 ents1 s2 V2 ents2 :
  grown k1 D1 i s V ents s1 V1 ents1 -> grown k2 D2 i s1 V1 ents1 s2 V2 ents2 ->
  grown (k1 + k2) (D1 ++ D2) i s V ents s2 V2 ents2.
Proof.
  intros A B. split; try apply B.
  - eapply ext_trans; [apply A|apply B|apply A].
  - pose proof (gw_ino _ _ _ _ _ _ _ _ _ A) as EA. pose proof (gw_ino _ _ _ _ _ _ _ _ _ B) as EB.
    rewrite EB at 1. rewrite EA at 1. done.
  - eapply iframe_trans; [apply A|apply B].
  - intros y Hy. destruct (gw_ents _ _ _ _ _ _ _ _ _ B y Hy) as [Hy1|[Hy1|[Hy1|Hy1]]]; [|tauto|tauto|].
    + destruct (gw_ents _ _ _ _ _ _ _ _ _ A y Hy1) as [?|[?|[[-> Hn]|Hy2]]]; [tauto|tauto| |].
      * right; right; left. split; [|done]. symmetry. by apply (ex_ind _ _ _ _ _ _ (gw_ext _ _ _ _ _ _ _ _ _ B)).
      * right; right; right. apply elem_of_app. by left.
    + right; right; right. apply elem_of_app. by right.
  - intros n Hn. apply B, A. by replace (k1 + (k2 + n))%nat with (k1 + k2 + n)%nat by lia.
Qed.

(** [block_alloc] with enough free blocks *)
Lemma alloc_fresh s ents V H n :
  tr s ents V ∅ H -> tx_busy tx = 1 -> geo V -> bitmap_unheld fsz nino H -> avail fsz nino st V (S n) ->
  (forall x, fresh fsz nino st V x -> H !! x = None) -> (length ents + size H + 2 <= 9)%nat ->
  exists x s', block_alloc ROOTDEV s = Ok (x, s') /\ fresh fsz nino st V x
    /\ tr s' (absorb x (absorb (BBLOCK x nino) ents)) (taken nino x V) ∅ H /\ geo (taken nino x V)
    /\ same_rest_l s s'.
Proof.
  intros R Hbz G Hun Hav HH Hn. destruct (avail_first fsz nino st V sz n G Hav) as (x & Hff & Hfr).
  pose proof (fr_data _ _ _ _ _ Hfr) as Hd. destruct (in_data_range fsz nino st sz G x Hd) as (Hx & Hxs & _).
  destruct (block_alloc_spec tx V0 st sz Hbz s ents V H fsz nino x R G Hun Hff Hd (HH x Hfr) Hn) as (s' & E & R' & S).
  exists x, s'. split_and!; [done..| |done]. unfold taken, mark.
  pose proof (bitmap_range G x Hxs). apply geometry_upd; [|lia]. apply geometry_upd; [done|lia].
Qed.

Lemma grown_gains D i s V ents s' V' ents' x n a' :
  geo V -> wf V (addrs s i) -> fresh fsz nino st V x -> gains fsz nino (V := V) (addrs s i) x n V' a' ->
  tr s' ents' V' ∅ ∅ -> geo V' -> inodes s' !!! i = set_i_addrs a' (inodes s !!! i) -> iframe i s s' ->
  (forall y, y ∈ ents' -> y ∈ ents \/ bitmap fsz nino y \/ (y = a' !!! 12 /\ y <> 0) \/ y ∈ D) ->
  grown 1 D i s V ents s' V' ents'.
Proof.
  intros G W Hx Hg R G' Ei Hfr Hents.
  assert (addrs s' i = a') as Ea by (by rewrite Ei).
  split; rewrite ?Ea; try done.
  - exact (gains_wf fsz nino st sz G _ _ _ _ _ W Hx Hg).
  - exact (gains_ext fsz nino st sz G _ _ _ _ _ W Hx Hg).
  - intros m Hm. eapply avail_take; [apply (fr_data _ _ _ _ _ Hx)|apply Hg|exact Hm].
Qed.

Lemma tr_len s ents V U H z : tr s ents V U H -> home st sz z -> length (V z) = 512%nat.
Proof. intros R Hz. by eapply tlength. Qed.

Lemma bitmap_BBLOCK V x : geo V -> in_data fsz nino st x -> bitmap fsz nino (BBLOCK x nino).
Proof. intros G Hx. exists x. by destruct (in_data_range fsz nino st sz G x Hx) as (_ & ? & _). Qed.

Lemma unheld_empty : bitmap_unheld fsz nino ∅.
Proof. split; [apply lookup_empty|intros; apply lookup_empty]. Qed.

(** The address words of the inode itself: [k] is a direct block or the
    indirect one. *)
Lemma alloc_addr s ents V i k m :
  tr s ents V ∅ ∅ -> tx_busy tx = 1 -> geo V -> wf V (addrs s i) -> 0 <= i < NINODE ->
  0 <= k <= 12 -> addrs s i !!! k = 0 -> avail fsz nino st V (S m) -> (length ents + 2 <= 9)%nat ->
  exists b s' V' ents', (addr ← block_alloc ROOTDEV; addr_write (PInode i) k addr ;; mret addr) s = Ok (b, s')
    /\ grown 1 (if decide (k = 12) then [] else [b]) i s V ents s' V' ents'
    /\ b = addrs s' i !!! k /\ b <> 0 /\ (length ents' <= length ents + 2)%nat.
Proof.
  intros R Hbz G W Hi Hk H0 Hav Hn.
  destruct (alloc_fresh s ents V ∅ m R Hbz G unheld_empty Hav) as (x & s1 & E1 & Hx & R1 & G1 & S1);
    [intros; apply lookup_empty|rewrite map_size_empty; lia|].
  assert (inodes s1 = inodes s) as Ei by apply S1.
  exists x, (upd_ino i (fun y => set_i_addrs (<[k := x]> (i_addrs y)) y) s1), (taken nino x V), (absorb x (absorb (BBLOCK x nino) ents)).
  rewrite (bind_ok _ _ _ _ _ E1), (bind_ok _ _ _ _ _ (addr_write_ok i k x s1 Hi ltac:(lia))). split; [done|].
  rewrite upd_ino_lookup. dec_refl. rewrite Ei. cbn [set_i_addrs i_addrs].
  split; [|split; [by rewrite lookup_total_upd, decide_True|split]].
  3:{ pose proof (absorb_length (BBLOCK x nino) ents). pose proof (absorb_length x (absorb (BBLOCK x nino) ents)). lia. }
  2:{ destruct (in_data_range fsz nino st sz G x (fr_data _ _ _ _ _ Hx)). lia. }
  assert (gains fsz nino (V := V) (addrs s i) x k (taken nino x V) (<[k := x]> (addrs s i))) as Hg.
  { pose proof (fun z Hz => tr_len s ents V ∅ ∅ z R Hz) as Hl. destruct (decide (k = 12)) as [->|Hne].
    - exact (gains_indirect fsz nino st sz G Hl _ _ _ W Hx H0).
    - exact (proj1 (gains_direct fsz nino st sz G Hl _ _ k W Hx ltac:(lia) H0)). }
  eapply grown_gains; [exact G|exact W|exact Hx|exact Hg|by apply trep_upd_ino|exact G1| | |].
  - rewrite upd_ino_lookup. dec_refl. by rewrite Ei.
  - eapply iframe_trans; [by apply iframe_rest_l|apply iframe_upd].
  - intros y [->|[->|Hy]%absorb_in]%absorb_in; [|right; left; by eapply bitmap_BBLOCK, Hx|by left].
    right; right. destruct (decide (k = 12)) as [->|]; [left|right; by left].
    rewrite lookup_total_upd, decide_True by done. split; [done|].
    destruct (in_data_range fsz nino st sz G x (fr_data _ _ _ _ _ Hx)). lia.
Qed.

Lemma grown_weaken k D k' D' i s V ents s' V' ents' :
  grown k D i s V ents s' V' ents' -> (k <= k')%nat -> (forall y, y ∈ D -> y ∈ D') ->
  grown k' D' i s V ents s' V' ents'.
Proof.
  intros A Hk HD. destruct A as [? ? ? ? ? ? He Ha]. split; try done.
  - intros y Hy. destruct (He y Hy) as [?|[?|[?|?]]]; [tauto..|]. right; right; right. by apply HD.
  - intros n Hn. apply Ha. eapply avail_le; [|exact Hn]. lia.
Qed.

Lemma ind_held_ok V a x :
  geo V -> wf V a -> a !!! 12 <> 0 -> fresh fsz nino st V x -> a !!! 12 <> x.
Proof. intros G W Hi [_ Hf] E. destruct (iw_own _ _ _ _ _ W _ (ind_owned a Hi)) as [_ Hu]. congruence. Qed.

(** A clear word of the held indirect block gets a new block. *)
Lemma alloc_entry s ents V i bp bn m (ind := addrs s i !!! 12) :
  tr s ents V ∅ {[ind := bp]} -> tx_busy tx = 1 -> geo V -> wf V (addrs s i) -> ind <> 0 ->
  12 <= bn < 140 -> baddr V (addrs s i) bn = 0 -> avail fsz nino st V (S m) -> (length ents + 3 <= 9)%nat ->
  exists x s', (addr ← block_alloc ROOTDEV; data_write bp (set32 (4 * (bn - 12)) addr) ;; log_write bp ;; mret addr) s
      = Ok (x, s')
    /\ fresh fsz nino st V x
    /\ tr s' (absorb ind (absorb x (absorb (BBLOCK x nino) ents))) (entered nino (V := V) (addrs s i) x bn) ∅ {[ind := bp]}
    /\ same_rest_l s s'.
Proof.
  intros R Hbz G W Hi Hbn H0 Hav Hn. destruct (iw_own _ _ _ _ _ W _ (ind_owned _ Hi)) as [Hid Hiu]. fold ind in Hid, Hiu.
  destruct (in_data_range fsz nino st sz G ind Hid) as (Hir & _ & Hnb).
  destruct (alloc_fresh s ents V {[ind := bp]} m R Hbz G) as (x & s1 & E1 & Hx & R1 & G1 & S1); [|done| | |].
  { split; [apply lookup_singleton_ne; lia|]. intros y Hy. apply lookup_singleton_ne. intros E. apply Hnb. by exists y. }
  { intros x Hx. apply lookup_singleton_ne. exact (ind_held_ok V _ x G W Hi Hx). }
  { rewrite map_size_singleton. lia. }
  rewrite (bind_ok _ _ _ _ _ E1).
  pose proof (absorb_length (BBLOCK x nino) ents) as L1. pose proof (absorb_length x (absorb (BBLOCK x nino) ents)) as L2.
  destruct (twrite tx V0 st sz s1 _ _ {[ind := bp]} ind bp (set32 (4 * (bn - 12)) x) R1 Hbz (ge_log _ _ _ _ _ G)
    (lookup_singleton_eq _ _) ltac:(lia)) as (s2 & s3 & E2 & E3 & R3 & S3).
  { assert (length (taken nino x V ind) = 512%nat) as Hl by (eapply tlength; [exact R1|by apply (in_data_home V)]).
    rewrite set32_length; [done|lia|rewrite Hl; lia]. }
  { rewrite map_size_singleton. lia. }
  rewrite (bind_ok _ _ _ _ _ E2), (bind_ok _ _ _ _ _ E3). exists x, s3. split; [done|]. split; [done|].
  split; [exact R3|]. by eapply same_rest_l_trans.
Qed.

Lemma ind_lookup s ents V i bn m (ind := addrs s i !!! 12) :
  tr s ents V ∅ ∅ -> tx_busy tx = 1 -> geo V -> wf V (addrs s i) -> 0 <= i < NINODE -> ind <> 0 ->
  12 <= bn < 140 -> avail fsz nino st V (S m) -> (length ents + 3 <= 9)%nat ->
  exists b s' V' ents', (bp ← bufcache_read ROOTDEV ind;
      d ← buf_read bp b_data;
      addr ← (if decide (get32 d (4 * (bn - 12)) = 0) then
                addr ← block_alloc ROOTDEV; data_write bp (set32 (4 * (bn - 12)) addr) ;; log_write bp ;; mret addr
              else mret (get32 d (4 * (bn - 12))));
      bufcache_release bp ;; mret addr) s = Ok (b, s')
    /\ grown 1 [b] i s V ents s' V' ents' /\ b = baddr V' (addrs s' i) bn /\ b <> 0.
Proof.
  intros R Hbz G W Hi Hind Hbn Hav Hn. destruct (iw_own _ _ _ _ _ W _ (ind_owned _ Hind)) as [Hid Hiu]. fold ind in Hid, Hiu.
  destruct (tget tx V0 st sz s ents V ∅ ∅ ind R (proj1 (in_data_home V _ G Hid)) (lookup_empty _)) as (bp & s1 & E1 & R1 & S1).
  { rewrite map_size_empty. lia. }
  rewrite (bind_ok _ _ _ _ _ E1). assert (inodes s1 = inodes s) as Ei by apply S1.
  rewrite (bind_ok _ _ _ _ _ (tdata _ _ _ _ _ _ _ _ _ _ _ R1 (lookup_insert_eq _ _ _))).
  rewrite insert_empty in R1.
  assert (baddr V (addrs s i) bn = get32 (V ind) (4 * (bn - 12))) as Eb.
  { unfold baddr. rewrite decide_False by lia. by rewrite decide_False. }
  destruct (decide (get32 (V ind) (4 * (bn - 12)) = 0)) as [H0|H0].
  - rewrite <- Eb in H0. unfold ind in R1, Hind. rewrite <- Ei in R1, W, H0, Hind.
    destruct (alloc_entry s1 ents V i bp bn m R1 Hbz G W Hind Hbn H0 Hav Hn) as (x & s2 & E2 & Hx & R2 & S2).
    rewrite (bind_ok _ _ _ _ _ E2). rewrite <- insert_empty in R2.
    destruct (tput tx V0 st sz s2 _ _ ∅ ∅ _ bp R2 (lookup_empty _) (not_elem_of_empty _)) as (s3 & E3 & R3 & S3).
    rewrite (bind_ok _ _ _ _ _ E3). exists x, s3. eexists _, _. split; [done|].
    assert (inodes s3 = inodes s) as Ei3 by (rewrite (sr_inodes _ _ S3), (srl_inodes _ _ S2); exact Ei).
    rewrite Ei in *. rewrite Ei3. fold ind in R3.
    destruct (gains_entry fsz nino st sz G (fun z Hz => tr_len s ents V ∅ ∅ z R Hz) _ x bn W Hx Hbn Hind H0) as [Hg Hb].
    split; [|split; [done|destruct (in_data_range fsz nino st sz G x (fr_data _ _ _ _ _ Hx)); lia]].
    eapply grown_gains; [exact G|exact W|exact Hx|exact Hg|exact R3| | | |].
    + unfold entered, taken, mark. destruct (in_data_range fsz nino st sz G x (fr_data _ _ _ _ _ Hx)) as (? & Hxs & _).
      destruct (in_data_range fsz nino st sz G ind Hid) as (? & _ & _). pose proof (bitmap_range G x Hxs).
      repeat (apply geometry_upd; [|lia]). done.
    + by rewrite Ei3, set_i_addrs_id.
    + eapply iframe_trans; [by apply iframe_rest|]. eapply iframe_trans; [by apply iframe_rest_l|by apply iframe_rest].
    + intros y [->|[->|[->|Hy]%absorb_in]%absorb_in]%absorb_in; [right; right; left; done| | |by left].
      * right; right; right. by left.
      * right; left. by eapply bitmap_BBLOCK, Hx.
  - rewrite mret_bind. rewrite <- insert_empty in R1.
    destruct (tput tx V0 st sz s1 _ _ ∅ ∅ _ bp R1 (lookup_empty _) (not_elem_of_empty _)) as (s3 & E3 & R3 & S3).
    rewrite (bind_ok _ _ _ _ _ E3). exists (get32 (V ind) (4 * (bn - 12))), s3, V, ents. split; [done|].
    assert (inodes s3 = inodes s) as Ei3 by (rewrite (sr_inodes _ _ S3); exact Ei). rewrite Ei3.
    split; [|by rewrite Eb]. eapply grown_weaken; [eapply grown_rest; [done..|]| |]; [by eapply same_rest_trans|lia|].
    by intros y []%elem_of_nil.
Qed.

Definition mask0 (a : Z) : nat := if decide (a = 0) then 1 else 0.

(** File block [bn] after [bmap]: it exists, and nothing is lost. *)
Lemma bmap_spec s ents V i bn m :
  tr s ents V ∅ ∅ -> tx_busy tx = 1 -> geo V -> wf V (addrs s i) -> 0 <= i < NINODE ->
  i_dev (inodes s !!! i) = ROOTDEV -> 0 <= bn < 140 -> avail fsz nino st V (2 + m) ->
  (length ents + 2 * mask0 (addrs s i !!! 12%Z) <= 6)%nat ->
  exists b s' V' ents', bmap (PInode i) bn s = Ok (b, s')
    /\ grown 2 [b] i s V ents s' V' ents' /\ b = baddr V' (addrs s' i) bn /\ b <> 0.
Proof.
  intros R Hbz G W Hi Hdev Hbn Hav Hn. unfold bmap. rewrite (bind_ok _ _ _ _ _ (ino_read_ok i i_dev s Hi)).
  rewrite Hdev. change NDIRECT with 12. change NINDIRECT with 128. unfold mask0 in Hn.
  destruct (decide (bn < 12)) as [Hd|Hd].
  - rewrite (bind_ok _ _ _ _ _ (addr_read_ok i bn s Hi ltac:(lia))).
    assert (forall W' a, baddr W' a bn = a !!! bn) as Eb by (intros; unfold baddr; by rewrite decide_True).
    destruct (decide (addrs s i !!! bn = 0)) as [H0|H0].
    + destruct (alloc_addr s ents V i bn (S m) R Hbz G W Hi ltac:(lia) H0 Hav) as (b & s' & V' & ents' & E & Hg & Hb & Hb0 & _);
        [case_decide; lia|].
      exists b, s', V', ents'. rewrite decide_False in Hg by lia. split; [exact E|]. rewrite Eb.
      split; [|done]. eapply grown_weaken; [exact Hg|lia|done].
    + exists (addrs s i !!! bn), s, V, ents. rewrite Eb. split; [done|]. split; [|done].
      eapply grown_weaken; [by apply grown_refl|lia|]. by intros y []%elem_of_nil.
  - rewrite decide_True by lia. rewrite (bind_ok _ _ _ _ _ (addr_read_ok i 12 s Hi ltac:(lia))).
    assert (exists s1 V1 ents1, (if decide (addrs s i !!! 12 = 0)
        then addr ← block_alloc ROOTDEV; addr_write (PInode i) 12 addr ;; mret addr
        else mret (addrs s i !!! 12)) s = Ok (addrs s1 i !!! 12, s1)
      /\ grown 1 [] i s V ents s1 V1 ents1 /\ addrs s1 i !!! 12 <> 0
      /\ avail fsz nino st V1 (S m) /\ (length ents1 + 3 <= 9)%nat)
      as (s1 & V1 & ents1 & E1 & Hg1 & Hi1 & Hav1 & Hn1).
    { destruct (decide (addrs s i !!! 12 = 0)) as [H0|H0].
      - destruct (alloc_addr s ents V i 12 (S m) R Hbz G W Hi ltac:(lia) H0 Hav) as (b & s' & V' & ents' & E & Hg & Hb & Hb0 & Hl);
          [lia|].
        exists s', V', ents'. rewrite <- Hb. rewrite decide_True in Hg by done. split_and!; [done..| |].
        + by apply Hg.
        + lia.
      - exists s, V, ents. split; [done|]. split; [eapply grown_weaken; [by apply grown_refl|lia|done]|].
        split; [done|]. split; [|lia]. eapply avail_le; [|exact Hav]. lia. }
    rewrite (bind_ok _ _ _ _ _ E1).
    destruct (ind_lookup s1 ents1 V1 i bn m (gw_tr _ _ _ _ _ _ _ _ _ Hg1) Hbz (gw_geo _ _ _ _ _ _ _ _ _ Hg1)
      (gw_wf _ _ _ _ _ _ _ _ _ Hg1) Hi Hi1 ltac:(lia) Hav1 Hn1) as (b & s2 & V2 & ents2 & E2 & Hg2 & Hb).
    exists b, s2, V2, ents2. split; [exact E2|]. split; [|done].
    exact (grown_trans 1 [] 1 [b] i s V ents s1 V1 ents1 s2 V2 ents2 Hg1 Hg2).
Qed.
End Bmap.

(** ** Reading *)
Definition fbyte (V : Z -> list Z) (a : gmap Z Z) (o : Z) : Z := at_ (fblock V a (o / BSIZE)) (o mod BSIZE).

(** Blocks of the file touched by [r] bytes at [off] *)
Definition spans (off r : Z) : Z :=
  if decide (r <= 0) then 0 else (off + r - 1) / BSIZE - off / BSIZE + 1.

Lemma spans_pos off r : 0 < r -> 1 <= spans off r.
Proof.
  intros Hr. unfold spans. rewrite decide_False by lia.
  pose proof (Z.div_le_mono off (off + r - 1) BSIZE ltac:(done) ltac:(lia)). lia.
Qed.
Lemma spans_fuel off n : 0 <= off -> 0 <= n -> spans off n <= n / BSIZE + 2.
Proof.
  intros Hoff Hn. unfold spans, BSIZE. pose proof (Z.div_mod n 512 ltac:(lia)). pose proof (Z.div_mod off 512 ltac:(lia)).
  pose proof (Z.mod_pos_bound n 512 ltac:(lia)). pose proof (Z.mod_pos_bound off 512 ltac:(lia)).
  case_decide; [lia|]. assert ((off + n - 1) / 512 < off / 512 + n / 512 + 2); [|lia].
  apply Z.div_lt_upper_bound; lia.
Qed.

(** One iteration copies the bytes up to the end of the block. *)
Lemma chunk_next off r (m := Z.min r (BSIZE - off mod BSIZE)) :
  0 < r -> 0 <= off ->
  0 < m <= r /\ off mod BSIZE + m <= BSIZE /\ spans (off + m) (r - m) = spans off r - 1
  /\ (forall k, 0 <= k < m -> (off + k) / BSIZE = off / BSIZE /\ (off + k) mod BSIZE = off mod BSIZE + k).
Proof.
  intros Hr Hoff. unfold m, spans, BSIZE. clear m. pose proof (Z.mod_pos_bound off 512 ltac:(lia)) as Hm.
  pose proof (Z.div_mod off 512 ltac:(lia)) as Hd. split; [lia|]. split; [lia|]. split.
  - rewrite (decide_False (P := r <= 0)) by lia. destruct (decide (r <= 512 - off mod 512)) as [H|H].
    + rewrite Z.min_l by lia. rewrite decide_True by lia.
      assert ((off + r - 1) / 512 = off / 512) as ->; [|lia].
      symmetry. apply Z.div_unique with (off mod 512 + r - 1); lia.
    + rewrite Z.min_r by lia. rewrite decide_False by lia.
      assert ((off + (512 - off mod 512)) / 512 = off / 512 + 1) as ->.
      { symmetry. apply Z.div_unique with 0; lia. }
      replace (off + (512 - off mod 512) + (r - (512 - off mod 512)) - 1) with (off + r - 1) by lia. lia.
  - intros k Hk. split; symmetry; [apply Z.div_unique with (off mod 512 + k)|apply Z.mod_unique with (off / 512)]; lia.
Qed.

Lemma patched_chunks m0 m1 m2 d n1 n2 f :
  0 <= n1 -> 0 <= n2 -> patched m0 m1 d n1 f -> patched m1 m2 (d + n1) n2 (fun k => f (n1 + k)) ->
  patched m0 m2 d (n1 + n2) f.
Proof.
  intros H1 H2 P1 P2 a. rewrite (P2 a). destruct (decide (d + n1 <= a < d + n1 + n2)).
  - rewrite decide_True by lia. f_equal. lia.
  - rewrite (P1 a). destruct (decide (d <= a < d + n1)); [by rewrite decide_True by lia|by rewrite decide_False by lia].
Qed.

Lemma store_bytes_patched a l m :
  patched m (store_bytes a l m) a (Z.of_nat (length l)) (fun k => at_ l k).
Proof. intros x. apply store_bytes_lookup. Qed.

Section Read.
Context {T : Type} `{!FsKernel T} `{!FsKernelLaws T}.
Context (tx : txn) (V0 : Z -> list Z) (fsz nino st sz : Z).
Implicit Types (s : fsys T) (V : Z -> list Z).
Notation tr s ents V U H := (trep tx V0 s st sz ents V U H).
Notation geo V := (geometry V fsz nino st sz).
Notation wf := (ino_wf fsz nino st).
Notation addrs s i := (i_addrs (inodes s !!! i)).

(** Nothing but the disk cache and memory changes. *)
Record rframe s s' : Prop := {
  rf_ic_lock : ic_lock s' = ic_lock s;
  rf_inodes : inodes s' = inodes s;
  rf_ft_lock : ft_lock s' = ft_lock s;
  rf_files : files s' = files s;
}.
Lemma rframe_refl s : rframe s s.
Proof. by split. Qed.
Lemma rframe_trans s1 s2 s3 : rframe s1 s2 -> rframe s2 s3 -> rframe s1 s3.
Proof. intros [] []. split; congruence. Qed.
Lemma rframe_rest s s' : same_rest s s' -> rframe s s'.
Proof. intros []. by split. Qed.

Lemma mem_store_ok a l s :
  exists s', mem_store a l s = Ok (tt, s') /\ rframe s s' /\ fk_mem (kern s') = store_bytes a l (fk_mem (kern s))
    /\ (forall ents V U H, tr s ents V U H -> tr s' ents V U H).
Proof.
  eexists. split; [reflexivity|]. split; [by split|]. split.
  - cbn [kern set_kern]. apply fk_mem_set.
  - intros. by apply trep_set_mem.
Qed.

(** Copying out a part of one block *)
Lemma copy_block s ents V i off m dst :
  tr s ents V ∅ ∅ -> geo V -> wf V (addrs s i) -> 0 <= i < NINODE -> i_dev (inodes s !!! i) = ROOTDEV ->
  0 <= off / BSIZE < 140 -> baddr V (addrs s i) (off / BSIZE) <> 0 -> (length ents <= 9)%nat ->
  0 <= off -> 0 <= m -> off mod BSIZE + m <= BSIZE ->
  exists s', (b ← bmap (PInode i) (off / BSIZE); bp ← bufcache_read ROOTDEV b; d ← buf_read bp b_data;
      mem_store dst (slice (off mod BSIZE) m d) ;; bufcache_release bp) s = Ok (tt, s')
    /\ tr s' ents V ∅ ∅ /\ rframe s s'
    /\ patched (fk_mem (kern s)) (fk_mem (kern s')) dst m
         (fun k => at_ (fblock V (addrs s i) (off / BSIZE)) (off mod BSIZE + k)).
Proof.
  intros R G W Hi Hdev Hbn Hne Hn Hoff Hm Hom. set (bn := off / BSIZE) in *. set (b := baddr V (addrs s i) bn) in *.
  pose proof (Z.mod_pos_bound off BSIZE ltac:(done)) as Hmod.
  destruct (bmap_present tx V0 fsz nino st sz s ents V i bn R G W Hi Hdev Hbn Hne Hn) as (s1 & E1 & R1 & S1).
  rewrite (bind_ok _ _ _ _ _ E1). fold b. destruct (iw_own _ _ _ _ _ W b (baddr_owned _ bn Hbn Hne)) as [Hd _].
  destruct (tget tx V0 st sz s1 ents V ∅ ∅ b R1 (proj1 (in_data_home _ _ _ _ V _ G Hd)) (lookup_empty _)) as (bp & s2 & E2 & R2 & S2).
  { rewrite map_size_empty. lia. }
  rewrite (bind_ok _ _ _ _ _ E2), (bind_ok _ _ _ _ _ (tdata _ _ _ _ _ _ _ _ _ _ _ R2 (lookup_insert_eq _ _ _))).
  destruct (mem_store_ok dst (slice (off mod BSIZE) m (V b)) s2) as (s3 & E3 & F3 & M3 & HR3).
  rewrite (bind_ok _ _ _ _ _ E3).
  destruct (tput tx V0 st sz s3 ents V ∅ ∅ b bp (HR3 _ _ _ _ R2) (lookup_empty _) (not_elem_of_empty _)) as (s4 & E4 & R4 & S4).
  exists s4. split; [done|]. split; [done|]. split.
  { eapply rframe_trans; [by apply rframe_rest|]. eapply rframe_trans; [by apply rframe_rest|].
    eapply rframe_trans; [exact F3|by apply rframe_rest]. }
  assert (length (V b) = 512%nat) as Hl by (eapply tlength; [exact R|by apply (in_data_home fsz nino st sz V)]).
  intros z. rewrite (sr_mem _ _ S4), M3, (sr_mem _ _ S2), (sr_mem _ _ S1). rewrite store_bytes_lookup.
  rewrite slice_length by (unfold BSIZE in *; lia). rewrite Z2Nat.id by lia.
  destruct (decide (dst <= z < dst + m)); [|done]. fold (at_ (slice (off mod BSIZE) m (V b)) (z - dst)).
  rewrite slice_at by lia. unfold fblock. fold b. by rewrite decide_False.
Qed.

Lemma read_loop_spec i n : forall fuel s ents V dst off tot,
  tr s ents V ∅ ∅ -> geo V -> wf V (addrs s i) -> 0 <= i < NINODE -> i_dev (inodes s !!! i) = ROOTDEV ->
  (length ents <= 9)%nat -> 0 <= off -> tot <= n ->
  (forall k, 0 <= k < n - tot -> 0 <= (off + k) / BSIZE < 140 /\ baddr V (addrs s i) ((off + k) / BSIZE) <> 0) ->
  spans off (n - tot) <= Z.of_nat fuel ->
  exists s', read_loop fuel (PInode i) dst off tot n s = Ok (tt, s') /\ tr s' ents V ∅ ∅ /\ rframe s s'
    /\ patched (fk_mem (kern s)) (fk_mem (kern s')) dst (n - tot) (fun k => fbyte V (addrs s i) (off + k)).
Proof.
  induction fuel as [|fuel IH]; intros s ents V dst off tot R G W Hi Hdev Hn Hoff Htot Hall Hf; cbn [read_loop].
  all: destruct (decide (tot < n)) as [Hlt|Hge].
  - pose proof (spans_pos off (n - tot) ltac:(lia)). lia.
  - exists s. split; [done|]. split; [done|]. split; [apply rframe_refl|]. intros z. by rewrite decide_False by lia.
  - rewrite (bind_ok _ _ _ _ _ (ino_read_ok i i_dev s Hi)), Hdev. set (m := Z.min (n - tot) (BSIZE - off mod BSIZE)).
    destruct (chunk_next off (n - tot) ltac:(lia) Hoff) as (Hm & Hom & Hsp & Hk). fold m in Hm, Hom, Hsp, Hk.
    destruct (Hall 0 ltac:(lia)) as [Hb0 Hb1]. rewrite Z.add_0_r in Hb0, Hb1.
    destruct (copy_block s ents V i off m dst R G W Hi Hdev Hb0 Hb1 Hn Hoff ltac:(lia) Hom) as (s1 & E1 & R1 & F1 & P1).
    assert (inodes s1 = inodes s) as Ei by apply F1.
    destruct (IH s1 ents V (dst + m) (off + m) (tot + m) R1 G) as (s2 & E2 & R2 & F2 & P2); rewrite ?Ei; try done; [lia|lia| | |].
    { intros k Hk'. rewrite <- Z.add_assoc. apply Hall. lia. }
    { replace (n - (tot + m)) with (n - tot - m) by lia. lia. }
    exists s2. split; [|split; [done|split; [by eapply rframe_trans|]]].
    + etransitivity; [|exact E2]. rewrite <- (bind_ok _ (fun _ => read_loop fuel (PInode i) (dst + m) (off + m) (tot + m) n) _ _ _ E1).
      rewrite !bind_assoc. unfold mbind, M_bind. repeat (case_match; [|done..]). done.
    + replace (n - tot) with (m + (n - (tot + m))) by lia. eapply patched_chunks; [lia|lia| |].
      * intros z. rewrite (P1 z). case_decide as Hz; [|done]. unfold fbyte. by destruct (Hk (z - dst) ltac:(lia)) as [-> ->].
      * intros z. rewrite (P2 z), Ei. case_decide; [|done]. f_equal. lia.
  - exists s. split; [done|]. split; [done|]. split; [apply rframe_refl|]. intros z. by rewrite decide_False by lia.
Qed.

(** A regular file or directory: every block below its size exists. *)
Record file_ok V (x : inode) : Prop := {
  fo_dev : i_dev x = ROOTDEV;
  fo_type : i_type x <> T_DEV;
  fo_size : 0 <= i_size x <= 140 * BSIZE;
  fo_wf : wf V (i_addrs x);
  fo_full bn : 0 <= bn -> bn * BSIZE < i_size x -> baddr V (i_addrs x) bn <> 0;
}.

Lemma fo_byte V x o :
  file_ok V x -> 0 <= o < i_size x -> 0 <= o / BSIZE < 140 /\ baddr V (i_addrs x) (o / BSIZE) <> 0.
Proof.
  intros Hf Ho. pose proof (fo_size _ _ Hf). unfold BSIZE in *. pose proof (Z.div_mod o 512 ltac:(lia)).
  pose proof (Z.mod_pos_bound o 512 ltac:(lia)). pose proof (Z.div_pos o 512 ltac:(lia) ltac:(lia)).
  split; [split; [lia|apply Z.div_lt_upper_bound; lia]|]. apply Hf; unfold BSIZE; lia.
Qed.

Lemma inode_read_spec s ents V i dst off n (x := inodes s !!! i) :
  tr s ents V ∅ ∅ -> geo V -> 0 <= i < NINODE -> file_ok V x -> (length ents <= 9)%nat ->
  0 <= off <= i_size x -> 0 <= n -> off + n < W32 ->
  let r := Z.min n (i_size x - off) in
  exists s', inode_read (PInode i) dst off n s = Ok (r, s') /\ tr s' ents V ∅ ∅ /\ rframe s s'
    /\ patched (fk_mem (kern s)) (fk_mem (kern s')) dst r (fun k => fbyte V (i_addrs x) (off + k)).
Proof.
  intros R G Hi Hf Hl Hoff Hn Hw. pose proof (fo_size _ _ Hf) as Hsz. unfold inode_read.
  rewrite (bind_ok _ _ _ _ _ (ino_read_ok i id s Hi)). fold x. unfold id.
  rewrite (decide_False (P := i_type x = T_DEV)) by apply Hf. rewrite u32_id by lia. rewrite (decide_False (P := off > _ \/ _)) by lia.
  set (n' := if decide (off + n > i_size x) then i_size x - off else n).
  assert (n' = Z.min n (i_size x - off)) as En by (unfold n'; case_decide; lia). rewrite <- En. cbv zeta.
  assert (0 <= n') as Hn' by lia.
  destruct (read_loop_spec i n' (rw_fuel n') s ents V dst off 0 R G (fo_wf _ _ Hf) Hi (fo_dev _ _ Hf) Hl)
    as (s' & E & R' & F & P); [lia|lia| | |].
  { intros k Hk. apply fo_byte; [done|]. fold x. lia. }
  { pose proof (spans_fuel off n' ltac:(lia) Hn'). unfold rw_fuel. rewrite Z.sub_0_r. lia. }
  exists s'. rewrite (bind_ok _ _ _ _ _ E). unfold BSIZE in Hsz. rewrite s32_id by lia. rewrite Z.sub_0_r in P.
  by split_and!.
Qed.

Lemma inode_read_refused s i dst off n (x := inodes s !!! i) :
  0 <= i < NINODE -> i_type x <> T_DEV -> off > i_size x \/ u32 (off + n) < off ->
  inode_read (PInode i) dst off n s = Ok (-1, s).
Proof.
  intros Hi Ht Hoff. unfold inode_read. rewrite (bind_ok _ _ _ _ _ (ino_read_ok i id s Hi)). fold x. unfold id.
  rewrite decide_False by done. by rewrite decide_True.
Qed.
End Read.

(** ** Writing *)
Section Write.
Context {T : Type} `{!FsKernel T} `{!FsKernelLaws T}.
Context (tx : txn) (V0 : Z -> list Z) (fsz nino st sz : Z).
Implicit Types (s : fsys T) (V : Z -> list Z).
Notation tr s ents V U H := (trep tx V0 s st sz ents V U H).
Notation geo V := (geometry V fsz nino st sz).
Notation wf := (ino_wf fsz nino st).
Notation addrs s i := (i_addrs (inodes s !!! i)).

(** From [s] to [s'] inode [i] got at most [k] more blocks and the [r] bytes at
    [off] became [f 0], [f 1], ... *)
Record wrote (k : nat) (D : list Z) (i off r : Z) (f : Z -> Z) s V (ents : list Z) s' V' (ents' : list Z) : Prop := {
  wr_tr : tr s' ents' V' ∅ ∅;
  wr_geo : geo V';
  wr_wf : wf V' (addrs s' i);
  wr_ino : inodes s' !!! i = set_i_addrs (addrs s' i) (inodes s !!! i);
  wr_frame : iframe i s s';
  wr_keep bn : 0 <= bn < 140 -> baddr V (addrs s i) bn <> 0 -> baddr V' (addrs s' i) bn <> 0;
  wr_same : (forall o, off <= o < off + r -> baddr V (addrs s i) (o / BSIZE) <> 0) -> addrs s' i = addrs s i;
  wr_new o : off <= o < off + r -> baddr V' (addrs s' i) (o / BSIZE) <> 0;
  wr_byte o : 0 <= o < 140 * BSIZE ->
    fbyte V' (addrs s' i) o = if decide (off <= o < off + r) then f (o - off) else fbyte V (addrs s i) o;
  wr_used z : inuse fsz nino V z = true -> inuse fsz nino V' z = true;
  wr_own z : owned V' (addrs s' i) z -> owned V (addrs s i) z \/ inuse fsz nino V z = false;
  wr_ind : addrs s i !!! 12 <> 0 -> addrs s' i !!! 12 = addrs s i !!! 12;
  wr_other z : z <> 0 -> inuse fsz nino V z = true -> ~ bitmap fsz nino z -> ~ owned V (addrs s i) z -> V' z = V z;
  wr_ents y : y ∈ ents' -> y ∈ ents \/ bitmap fsz nino y \/ (y = addrs s' i !!! 12 /\ y <> 0) \/ y ∈ D;
  wr_avail n : avail fsz nino st V (k + n) -> avail fsz nino st V' n;
}.

Lemma wrote_trans k1 D1 k2 D2 i off m r f s V ents s1 V1 ents1 s2 V2 ents2 :
  0 <= off -> 0 <= m <= r -> off + r <= 140 * BSIZE ->
  wrote k1 D1 i off m f s V ents s1 V1 ents1 ->
  wrote k2 D2 i (off + m) (r - m) (fun j => f (m + j)) s1 V1 ents1 s2 V2 ents2 ->
  wrote (k1 + k2) (D1 ++ D2) i off r f s V ents s2 V2 ents2.
Proof.
  intros Hoff Hm Hr A B.
  assert (forall o, 0 <= o < 140 * BSIZE -> 0 <= o / BSIZE < 140) as Hrange.
  { intros o Ho. unfold BSIZE in *. split; [apply Z.div_pos; lia|apply Z.div_lt_upper_bound; lia]. }
  split; try apply B.
  - rewrite (wr_ino _ _ _ _ _ _ _ _ _ _ _ _ B) at 1. by rewrite (wr_ino _ _ _ _ _ _ _ _ _ _ _ _ A) at 1.
  - eapply iframe_trans; [apply A|apply B].
  - intros bn Hb Hn. apply (wr_keep _ _ _ _ _ _ _ _ _ _ _ _ B); [done|]. by apply (wr_keep _ _ _ _ _ _ _ _ _ _ _ _ A).
  - intros Hp. rewrite (wr_same _ _ _ _ _ _ _ _ _ _ _ _ B).
    + apply (wr_same _ _ _ _ _ _ _ _ _ _ _ _ A). intros o Ho. apply Hp. lia.
    + intros o Ho. apply (wr_keep _ _ _ _ _ _ _ _ _ _ _ _ A); [apply Hrange; lia|]. apply Hp. lia.
  - intros o Ho. destruct (decide (o < off + m)).
    + apply (wr_keep _ _ _ _ _ _ _ _ _ _ _ _ B); [apply Hrange; lia|]. apply (wr_new _ _ _ _ _ _ _ _ _ _ _ _ A). lia.
    + apply (wr_new _ _ _ _ _ _ _ _ _ _ _ _ B). lia.
  - intros o Ho. rewrite (wr_byte _ _ _ _ _ _ _ _ _ _ _ _ B o Ho).
    destruct (decide (off + m <= o < off + m + (r - m))).
    + rewrite decide_True by lia. f_equal. lia.
    + rewrite (wr_byte _ _ _ _ _ _ _ _ _ _ _ _ A o Ho).
      destruct (decide (off <= o < off + m)); [by rewrite decide_True by lia|by rewrite decide_False by lia].
  - intros z Hz. by apply (wr_used _ _ _ _ _ _ _ _ _ _ _ _ B), (wr_used _ _ _ _ _ _ _ _ _ _ _ _ A).
  - intros z [Hz|Hz]%(wr_own _ _ _ _ _ _ _ _ _ _ _ _ B); [by apply (wr_own _ _ _ _ _ _ _ _ _ _ _ _ A)|right].
    destruct (inuse fsz nino V z) eqn:E; [|done]. apply (wr_used _ _ _ _ _ _ _ _ _ _ _ _ A) in E. congruence.
  - intros Hi. pose proof (wr_ind _ _ _ _ _ _ _ _ _ _ _ _ A Hi) as E. rewrite <- E. apply (wr_ind _ _ _ _ _ _ _ _ _ _ _ _ B). congruence.
  - intros z Hz0 Hz Hb Ho. rewrite (wr_other _ _ _ _ _ _ _ _ _ _ _ _ B z); [by apply (wr_other _ _ _ _ _ _ _ _ _ _ _ _ A)|done|by apply (wr_used _ _ _ _ _ _ _ _ _ _ _ _ A)|done|].
    intros [Hz'|Hz']%(wr_own _ _ _ _ _ _ _ _ _ _ _ _ A); [done|congruence].
  - intros y Hy. destruct (wr_ents _ _ _ _ _ _ _ _ _ _ _ _ B y Hy) as [Hy1|[Hy1|[Hy1|Hy1]]]; [|tauto|tauto|].
    + destruct (wr_ents _ _ _ _ _ _ _ _ _ _ _ _ A y Hy1) as [?|[?|[[-> Hn]|Hy2]]]; [tauto|tauto| |].
      * right; right; left. split; [|done]. symmetry. by apply (wr_ind _ _ _ _ _ _ _ _ _ _ _ _ B).
      * right; right; right. apply elem_of_app. by left.
    + right; right; right. apply elem_of_app. by right.
  - intros n Hn. apply (wr_avail _ _ _ _ _ _ _ _ _ _ _ _ B), (wr_avail _ _ _ _ _ _ _ _ _ _ _ _ A). by replace (k1 + (k2 + n))%nat with (k1 + k2 + n)%nat by lia.
Qed.

(** ** How many blocks are logged

    With one bitmap block, the logged blocks are those of [C], the bitmap and the
    indirect block. *)
Definition covered (C : gset Z) (ents : list Z) (ind : Z) : Prop :=
  forall y, y ∈ ents -> y ∈ C \/ bitmap fsz nino y \/ (y = ind /\ y <> 0).

Lemma one_bitmap y : fsz <= BPB -> bitmap fsz nino y -> y = BBLOCK 0 nino.
Proof. intros Hb (k & Hk & ->). unfold BBLOCK. rewrite (Z.div_small k) by lia. done. Qed.

Lemma covered_length C ents ind :
  fsz <= BPB -> NoDup ents -> covered C ents ind -> (length ents + mask0 ind <= size C + 2)%nat.
Proof.
  intros Hb Hnd Hc. rewrite <- (size_list_to_set (C := gset Z) ents Hnd).
  set (I := if decide (ind = 0) then ∅ else {[ind]} : gset Z).
  assert (size (list_to_set ents : gset Z) <= size (C ∪ ({[BBLOCK 0 nino]} ∪ I)))%nat as H1.
  { apply subseteq_size. intros y Hy%elem_of_list_to_set. destruct (Hc y Hy) as [?|[Hy1|[-> Hn]]].
    - by apply elem_of_union_l.
    - apply elem_of_union_r, elem_of_union_l, elem_of_singleton. by apply one_bitmap.
    - do 2 apply elem_of_union_r. unfold I. rewrite decide_False by done. by apply elem_of_singleton. }
  assert (forall X Y : gset Z, size (X ∪ Y) <= size X + size Y)%nat as Hu.
  { intros X Y. rewrite size_union_alt. pose proof (subseteq_size (Y ∖ X) Y ltac:(set_solver)). lia. }
  pose proof (Hu C ({[BBLOCK 0 nino]} ∪ I)). pose proof (Hu {[BBLOCK 0 nino]} I). rewrite size_singleton in *.
  assert (size I + mask0 ind = 1)%nat; [|lia]. unfold I, mask0. case_decide; [by rewrite size_empty|by rewrite size_singleton].
Qed.

Lemma covered_grown k D i s V ents s' V' ents' C :
  grown tx V0 fsz nino st sz k D i s V ents s' V' ents' -> covered C ents (addrs s i !!! 12) ->
  covered (C ∪ list_to_set D) ents' (addrs s' i !!! 12).
Proof.
  intros A Hc y Hy. destruct (gw_ents _ _ _ _ _ _ _ _ _ _ _ _ _ _ _ A y Hy) as [Hy1|[?|[?|?]]]; [|tauto|tauto|].
  - destruct (Hc y Hy1) as [?|[?|[-> Hn]]]; [left; by apply elem_of_union_l|tauto|].
    right; right. split; [|done]. symmetry. by apply (ex_ind _ _ _ _ _ _ (gw_ext _ _ _ _ _ _ _ _ _ _ _ _ _ _ _ A)).
  - left. by apply elem_of_union_r, elem_of_list_to_set.
Qed.

Lemma tr_nodup s ents V U H : tr s ents V U H -> NoDup ents.
Proof. intros (dk & L & R). apply R. Qed.

Lemma mem_load_bind {B} a n (k : list Z -> M (fsys T) B) s :
  (mem_load a n ≫= k) s = k (load_bytes (fk_mem (kern s)) a n) s.
Proof. done. Qed.

(** Overwriting a part of a block of the file *)
Lemma wrote_block k i off m f s V ents s1 V1 ents1 s2 ents2 d (bn := off / BSIZE) (b := baddr V1 (addrs s1 i) bn) :
  grown tx V0 fsz nino st sz k [b] i s V ents s1 V1 ents1 -> b <> 0 -> 0 <= off -> 0 <= bn < 140 ->
  0 < m -> off mod BSIZE + m <= BSIZE -> (baddr V (addrs s i) bn <> 0 -> addrs s1 i = addrs s i) ->
  tr s2 ents2 (upd_blk V1 b d) ∅ ∅ -> same_rest_l s1 s2 -> (forall y, y ∈ ents2 -> y ∈ ents1 \/ y = b) ->
  (forall p, 0 <= p < BSIZE -> at_ d p =
     if decide (off mod BSIZE <= p < off mod BSIZE + m) then f (p - off mod BSIZE) else at_ (V1 b) p) ->
  wrote k [b] i off m f s V ents s2 (upd_blk V1 b d) ents2.
Proof.
  intros A Hb0 Hoff Hbn Hm Hom Hsame R2 S2 He Hd. assert (inodes s2 = inodes s1) as Ei by apply S2.
  destruct A as [R1 G1 W1 X1 I1 F1 E1 A1]. pose proof (baddr_owned (V := V1) _ bn Hbn Hb0) as Ho. fold b in Ho.
  destruct (iw_own _ _ _ _ _ W1 b Ho) as [Hbd Hbu]. pose proof (iw_ind _ _ _ _ _ W1 bn Hbn Hb0) as Hbi. fold b in Hbi.
  destruct (in_data_range fsz nino st sz G1 b Hbd) as (Hbr & _ & Hbb).
  assert (forall j, baddr (upd_blk V1 b d) (addrs s1 i) j = baddr V1 (addrs s1 i) j) as Ea
    by (intros j; by eapply baddr_write).
  assert (BSIZE = 512) as EB by done. pose proof (Z.div_mod off BSIZE ltac:(done)). pose proof (Z.mod_pos_bound off BSIZE ltac:(done)).
  split; rewrite ?Ei; try done.
  - by apply geometry_upd; [|lia].
  - by eapply (write_wf fsz nino st sz G1).
  - eapply iframe_trans; [exact F1|by apply iframe_rest_l].
  - intros j Hj Hn. rewrite Ea. by rewrite (ex_keep _ _ _ _ _ _ X1 j Hj Hn).
  - intros Hp. apply Hsame. apply (Hp off). lia.
  - intros o Hor. rewrite Ea. assert (o / BSIZE = bn) as ->; [|done].
    symmetry. apply Z.div_unique with (o - bn * BSIZE); unfold bn in *; lia.
  - intros o Hor. unfold fbyte. pose proof (Z.div_mod o BSIZE ltac:(done)). pose proof (Z.mod_pos_bound o BSIZE ltac:(done)).
    assert (0 <= o / BSIZE < 140) as Hob by (split; [apply Z.div_pos; lia|apply Z.div_lt_upper_bound; lia]).
    unfold b. rewrite (write_fblock fsz nino st) by done. rewrite (ex_block _ _ _ _ _ _ X1 _ Hob).
    destruct (decide (o / BSIZE = bn)) as [Eo|Eo].
    + rewrite Hd by lia. destruct (decide (off <= o < off + m)).
      * rewrite decide_True by (unfold bn in *; lia). f_equal. unfold bn in *. lia.
      * rewrite decide_False by (unfold bn in *; lia). rewrite Eo, <- (ex_block _ _ _ _ _ _ X1 _ Hbn).
        unfold fblock. fold b. by rewrite decide_False.
    + rewrite decide_False; [done|]. intros Hin. apply Eo. unfold bn.
      symmetry. apply Z.div_unique with (o - off / BSIZE * BSIZE); lia.
  - intros z Hz. rewrite (inuse_upd fsz nino st sz G1) by done. by apply X1.
  - intros z [Hz [(j & Hj & Ej)|Ej]]; apply (ex_own _ _ _ _ _ _ X1); (split; [done|]); [left; exists j; by rewrite <- Ea|by right].
  - by apply X1.
  - intros z Hz0 Hz Hnb Hno. rewrite upd_blk_ne.
    + apply X1; [done..|]. intros ->. apply Hno. split; [done|by right].
    + intros ->. destruct (ex_own _ _ _ _ _ _ X1 b Ho); [done|congruence].
  - intros y Hy. destruct (He y Hy) as [Hy1| ->]; [by apply E1|]. right; right; right. by left.
  - intros n Hn. eapply avail_ext; [|by apply A1]. intros z. by apply (inuse_upd fsz nino st sz G1).
Qed.

Context (Hbz : tx_busy tx = 1) (Hone : fsz <= BPB).

Lemma write_block s ents V C i off m src a0 :
  tr s ents V ∅ ∅ -> geo V -> wf V (addrs s i) -> 0 <= i < NINODE -> i_dev (inodes s !!! i) = ROOTDEV ->
  0 <= off -> off / BSIZE < 140 -> 0 < m -> off mod BSIZE + m <= BSIZE -> avail fsz nino st V (2 + a0) ->
  covered C ents (addrs s i !!! 12) -> (size C <= 3)%nat ->
  exists b s' V' ents', (b ← bmap (PInode i) (off / BSIZE); bp ← bufcache_read ROOTDEV b; l ← mem_load src m;
      data_write bp (splice (off mod BSIZE) l) ;; log_write bp ;; bufcache_release bp) s = Ok (tt, s')
    /\ wrote 2 [b] i off m (fun k => fk_mem (kern s) !!! (src + k)) s V ents s' V' ents'.
Proof.
  intros R G W Hi Hdev Hoff Hbn Hm Hom Hav Hc HC.
  pose proof (covered_length C ents _ Hone (tr_nodup _ _ _ _ _ R) Hc) as Hle.
  pose proof (Z.div_pos off BSIZE Hoff ltac:(done)) as Hbn0. pose proof (Z.mod_pos_bound off BSIZE ltac:(done)) as Hmod.
  destruct (bmap_spec tx V0 fsz nino st sz s ents V i (off / BSIZE) a0 R Hbz G W Hi Hdev ltac:(lia) Hav)
    as (b & s1 & V1 & ents1 & E1 & Hg & Eb & Hb0); [unfold mask0 in *; case_decide; lia|].
  rewrite (bind_ok _ _ _ _ _ E1). pose proof (gw_tr _ _ _ _ _ _ _ _ _ _ _ _ _ _ _ Hg) as R1.
  pose proof (gw_geo _ _ _ _ _ _ _ _ _ _ _ _ _ _ _ Hg) as G1. pose proof (gw_wf _ _ _ _ _ _ _ _ _ _ _ _ _ _ _ Hg) as W1.
  assert (in_data fsz nino st b) as Hbd.
  { rewrite Eb. apply (iw_own _ _ _ _ _ W1), baddr_owned; [lia|by rewrite <- Eb]. }
  pose proof (in_data_home fsz nino st sz V1 b G1 Hbd) as [Hbh Hb1].
  assert (length ents1 <= 6)%nat as Hl1.
  { pose proof (covered_length _ _ _ Hone (tr_nodup _ _ _ _ _ R1) (covered_grown _ _ _ _ _ _ _ _ _ C Hg Hc)) as Hx.
    rewrite size_union_alt in Hx. rewrite list_to_set_cons, list_to_set_nil, union_empty_r_L in Hx.
    pose proof (subseteq_size ({[b]} ∖ C) {[b]} ltac:(set_solver)) as Hy. rewrite size_singleton in Hy. lia. }
  destruct (tget tx V0 st sz s1 ents1 V1 ∅ ∅ b R1 Hbh (lookup_empty _)) as (bp & s2 & E2 & R2 & S2);
    [rewrite map_size_empty; lia|].
  rewrite (bind_ok _ _ _ _ _ E2), mem_load_bind. rewrite (sr_mem _ _ S2), (if_mem _ _ _ (gw_frame _ _ _ _ _ _ _ _ _ _ _ _ _ _ _ Hg)).
  set (l := load_bytes (fk_mem (kern s)) src m). assert (length l = Z.to_nat m) as Hll by apply load_bytes_length.
  assert (length (V1 b) = 512%nat) as HV1 by (by eapply tlength). assert (BSIZE = 512) as EB by done.
  destruct (twrite tx V0 st sz s2 ents1 V1 _ b bp (splice (off mod BSIZE) l) R2 Hbz (ge_log _ _ _ _ _ G1)
    (lookup_insert_eq _ _ _) Hb1) as (s3 & s4 & E3 & E4 & R4 & S4).
  { rewrite splice_length; lia. } { rewrite map_size_insert_None, map_size_empty by apply lookup_empty. lia. }
  rewrite (bind_ok _ _ _ _ _ E3), (bind_ok _ _ _ _ _ E4).
  destruct (tput tx V0 st sz s4 _ _ ∅ ∅ b bp R4 (lookup_empty _) (not_elem_of_empty _)) as (s5 & E5 & R5 & S5).
  exists b, s5. eexists _, _. split; [exact E5|]. rewrite Eb in *. eapply wrote_block; [exact Hg|done|done|lia|done|done| |exact R5| | |].
  - intros Hp. destruct (bmap_present tx V0 fsz nino st sz s ents V i (off / BSIZE) R G W Hi Hdev ltac:(lia) Hp) as (s' & E' & _ & S');
      [unfold mask0 in *; lia|].
    assert (s1 = s') as -> by (rewrite E1 in E'; congruence). by rewrite (sr_inodes _ _ S').
  - eapply same_rest_l_trans; [by apply same_rest_log|]. eapply same_rest_l_trans; [exact S4|by apply same_rest_log].
  - intros y [->|]%absorb_in; tauto.
  - intros p Hp. rewrite splice_at by lia. rewrite Hll, Z2Nat.id by lia. case_decide; [|done].
    apply load_bytes_at. lia.
Qed.

Lemma wrote_refl i off f s V ents :
  tr s ents V ∅ ∅ -> geo V -> wf V (addrs s i) -> wrote 0 [] i off 0 f s V ents s V ents.
Proof.
  intros R G W. split; try done; [by rewrite set_i_addrs_id|lia| |by left|by left].
  intros o Ho. by rewrite decide_False by lia.
Qed.

Lemma wrote_fix k D i off r f g s V ents s' V' ents' :
  (forall j, 0 <= j < r -> f j = g j) -> wrote k D i off r f s V ents s' V' ents' ->
  wrote k D i off r g s V ents s' V' ents'.
Proof.
  intros E A. destruct A. split; try done. intros o Ho. rewrite wr_byte0 by done. case_decide; [|done]. apply E. lia.
Qed.

Lemma covered_wrote k D i off r f s V ents s' V' ents' C :
  wrote k D i off r f s V ents s' V' ents' -> covered C ents (addrs s i !!! 12) ->
  covered (C ∪ list_to_set D) ents' (addrs s' i !!! 12).
Proof.
  intros A Hc y Hy. destruct (wr_ents _ _ _ _ _ _ _ _ _ _ _ _ A y Hy) as [Hy1|[?|[?|?]]]; [|tauto|tauto|].
  - destruct (Hc y Hy1) as [?|[?|[-> Hn]]]; [left; by apply elem_of_union_l|tauto|].
    right; right. split; [|done]. symmetry. by apply (wr_ind _ _ _ _ _ _ _ _ _ _ _ _ A).
  - left. by apply elem_of_union_r, elem_of_list_to_set.
Qed.

Lemma write_loop_spec i n a0 : forall fuel s ents V C src off tot,
  tr s ents V ∅ ∅ -> geo V -> wf V (addrs s i) -> 0 <= i < NINODE -> i_dev (inodes s !!! i) = ROOTDEV ->
  0 <= off -> tot <= n -> off + (n - tot) <= 140 * BSIZE ->
  avail fsz nino st V (2 * Z.to_nat (spans off (n - tot)) + a0) ->
  covered C ents (addrs s i !!! 12) -> Z.of_nat (size C) + spans off (n - tot) <= 4 ->
  spans off (n - tot) <= Z.of_nat fuel ->
  exists s' V' ents' D, write_loop fuel (PInode i) src off tot n s = Ok (off + (n - tot), s')
    /\ wrote (2 * Z.to_nat (spans off (n - tot))) D i off (n - tot) (fun k => fk_mem (kern s) !!! (src + k)) s V ents s' V' ents'
    /\ Z.of_nat (length D) = spans off (n - tot).
Proof.
  induction fuel as [|fuel IH]; intros s ents V C src off tot R G W Hi Hdev Hoff Htot Hmax Hav Hc HC Hf; cbn [write_loop].
  all: destruct (decide (tot < n)) as [Hlt|Hge].
  1:{ pose proof (spans_pos off (n - tot) ltac:(lia)). lia. }
  1,3: replace (n - tot) with 0 in * by lia; exists s, V, ents, []; rewrite Z.add_0_r; split; [done|];
    split; [by apply wrote_refl|done].
  rewrite (bind_ok _ _ _ _ _ (ino_read_ok i i_dev s Hi)), Hdev. set (m := Z.min (n - tot) (BSIZE - off mod BSIZE)).
  destruct (chunk_next off (n - tot) ltac:(lia) Hoff) as (Hm & Hom & Hsp & Hk). fold m in Hm, Hom, Hsp, Hk.
  pose proof (spans_pos off (n - tot) ltac:(lia)) as Hpos. set (q := spans off (n - tot)) in *.
  replace (n - tot - m) with (n - (tot + m)) in Hsp by lia.
  destruct (write_block s ents V C i off m src (2 * Z.to_nat (q - 1) + a0) R G W Hi Hdev Hoff) as (b & s1 & V1 & ents1 & E1 & A1);
    [apply Z.div_lt_upper_bound; [done|unfold BSIZE in *; lia]|lia|done| |done|lia|].
  { eapply avail_le; [|exact Hav]. lia. }
  assert (inodes s1 !!! i = set_i_addrs (addrs s1 i) (inodes s !!! i)) as Ei by apply A1.
  destruct (IH s1 ents1 V1 (C ∪ {[b]}) (src + m) (off + m) (tot + m)) as (s2 & V2 & ents2 & D & E2 & A2 & HD);
    try rewrite Hsp; [apply A1|apply A1|apply A1|done|by rewrite Ei|lia|lia|lia| | | |lia|].
  { apply (wr_avail _ _ _ _ _ _ _ _ _ _ _ _ A1). eapply avail_le; [|exact Hav]. lia. }
  { pose proof (covered_wrote _ _ _ _ _ _ _ _ _ _ _ _ C A1 Hc) as Hx.
    by rewrite list_to_set_cons, list_to_set_nil, union_empty_r_L in Hx. }
  { rewrite size_union_alt. pose proof (subseteq_size ({[b]} ∖ C) {[b]} ltac:(set_solver)) as Hy.
    rewrite size_singleton in Hy. lia. }
  exists s2, V2, ents2, ([b] ++ D). rewrite Hsp in *. split; [|split].
  - replace (off + (n - tot)) with (off + m + (n - (tot + m))) by lia. etransitivity; [|exact E2].
    rewrite <- (bind_ok _ (fun _ => write_loop fuel (PInode i) (src + m) (off + m) (tot + m) n) _ _ _ E1).
    rewrite !bind_assoc. unfold mbind, M_bind. repeat (case_match; [|done..]). done.
  - replace (2 * Z.to_nat q)%nat with (2 + 2 * Z.to_nat (q - 1))%nat by lia.
    apply (wrote_trans 2 [b] _ D i off m (n - tot) _ s V ents s1 V1 ents1); [done|lia|done|exact A1|].
    replace (n - tot - m) with (n - (tot + m)) by lia. eapply wrote_fix; [|exact A2]. intros j Hj. cbn beta.
      rewrite (if_mem _ _ _ (wr_frame _ _ _ _ _ _ _ _ _ _ _ _ A1)). f_equal. lia.
  - cbn [app length]. lia.
Qed.
End Write.
