(* ===== verification/InodeDisk.v ===== *)
(** * Inodes on disk

    The encoding of [struct dinode], and what [inode_update] and [inode_write]
    of fs/inode.c leave on disk. *)

From S2P Require Import Prelude DList Machine Thread Scheduler KString Bytes FsData BufCache FsLog Block Inode InodeData.

(** ** Fields of a block *)
Lemma get16_set32_other o w p l :
  0 <= o -> 0 <= p -> (Z.to_nat o + 4 <= length l)%nat -> p + 2 <= o \/ o + 4 <= p ->
  get16 (set32 o w l) p = get16 l p.
Proof. intros. apply get16_splice_other; cbn; lia. Qed.
Lemma get16_set16_other o w p l :
  0 <= o -> 0 <= p -> (Z.to_nat o + 2 <= length l)%nat -> p + 2 <= o \/ o + 2 <= p ->
  get16 (set16 o w l) p = get16 l p.
Proof. intros. apply get16_splice_other; cbn; lia. Qed.
Lemma get32_set32_other o w p l :
  0 <= o -> 0 <= p -> (Z.to_nat o + 4 <= length l)%nat -> p + 4 <= o \/ o + 4 <= p ->
  get32 (set32 o w l) p = get32 l p.
Proof. intros. apply get32_splice_other; cbn; lia. Qed.
Lemma get32_set16_other o w p l :
  0 <= o -> 0 <= p -> (Z.to_nat o + 2 <= length l)%nat -> p + 4 <= o \/ o + 2 <= p ->
  get32 (set16 o w l) p = get32 l p.
Proof. intros. apply get32_splice_other; cbn; lia. Qed.

Lemma s16_u16 z : -32768 <= z < 32768 -> s16 (u16 z) = z.
Proof.
  intros Hz. unfold s16. assert (u16 (u16 z) = u16 z) as -> by (unfold u16; apply Z.mod_mod; lia).
  unfold u16. destruct (decide (0 <= z)).
  - rewrite Z.mod_small by lia. destruct (Z.ltb_spec z 32768); lia.
  - assert (z mod 65536 = z + 65536) as ->.
    { symmetry. apply Z.mod_unique with (-1); lia. }
    destruct (Z.ltb_spec (z + 65536) 32768); lia.
Qed.
Lemma half_bytes_u16 w : half_bytes w = half_bytes (u16 w).
Proof.
  unfold half_bytes, u16. cbn [map]. rewrite !Z.shiftr_div_pow2 by lia.
  change (8 * 0) with 0. change (8 * 1) with 8. rewrite !Z.pow_0_r, !Z.div_1_r. unfold u8.
  change (2 ^ 8) with 256. f_equal; [|f_equal].
  - symmetry. apply Z.mod_unique with (w / 65536 * 256 + w mod 65536 / 256); [left; apply Z.mod_pos_bound; lia|].
    pose proof (Z.div_mod w 65536 ltac:(lia)). pose proof (Z.div_mod (w mod 65536) 256 ltac:(lia)). lia.
  - pose proof (Z.div_mod w 65536 ltac:(lia)) as E.
    assert (w / 256 = w / 65536 * 256 + w mod 65536 / 256) as ->.
    { symmetry. apply Z.div_unique with (w mod 65536 mod 256); [left; apply Z.mod_pos_bound; lia|].
      pose proof (Z.div_mod (w mod 65536) 256 ltac:(lia)). lia. }
    rewrite Z.add_comm, Z.mod_add by lia. done.
Qed.
Lemma get16_set16_signed o w l :
  0 <= o -> (Z.to_nat o + 2 <= length l)%nat -> -32768 <= w < 32768 -> s16 (get16 (set16 o w l) o) = w.
Proof.
  intros Ho Hl Hw. unfold set16. rewrite half_bytes_u16. fold (set16 o (u16 w) l).
  rewrite get16_set16; [by apply s16_u16|done|done|]. unfold u16. apply Z.mod_pos_bound. lia.
Qed.

(** ** The address words *)
Definition set_addrs_upto (n o : Z) (a : gmap Z Z) (d : list Z) : list Z :=
  foldl (fun d k => set32 (o + 4 * k) (a !!! k) d) d (seqZ 0 n).

Lemma set_addrs_upto_succ n o a d :
  0 <= n -> set_addrs_upto (n + 1) o a d = set32 (o + 4 * n) (a !!! n) (set_addrs_upto n o a d).
Proof. intros Hn. unfold set_addrs_upto. rewrite seqZ_app, foldl_app by lia. done. Qed.

Lemma set_addrs_upto_spec o a d : 0 <= o -> forall n, 0 <= n ->
  (Z.to_nat (o + 4 * n) <= length d)%nat -> (forall k, 0 <= k < n -> 0 <= a !!! k < W32) ->
  length (set_addrs_upto n o a d) = length d
  /\ (forall k, 0 <= k < n -> get32 (set_addrs_upto n o a d) (o + 4 * k) = a !!! k)
  /\ (forall p, 0 <= p -> p + 4 <= o \/ o + 4 * n <= p -> get32 (set_addrs_upto n o a d) p = get32 d p)
  /\ (forall p, 0 <= p -> p + 2 <= o \/ o + 4 * n <= p -> get16 (set_addrs_upto n o a d) p = get16 d p).
Proof.
  intros Ho n Hn. pattern n. apply natlike_ind; [|clear n Hn|done].
  { intros _ _. split; [done|]. split; [lia|]. by split. }
  intros n Hn IH Hl Hr. replace (Z.succ n) with (n + 1) in * by lia. rewrite set_addrs_upto_succ by done.
  destruct IH as (L & I & P32 & P16); [lia|intros; apply Hr; lia|].
  split; [rewrite set32_length; lia|]. split; [|split].
  - intros k Hk. destruct (decide (k = n)) as [->|].
    + apply get32_set32; [lia|lia|]. apply Hr. lia.
    + rewrite get32_set32_other by lia. apply I. lia.
  - intros p Hp Hd. rewrite get32_set32_other by lia. apply P32; lia.
  - intros p Hp Hd. rewrite get16_set32_other by lia. apply P16; lia.
Qed.

(** ** An inode in a block *)

(** Fields within the range of their types *)
Record ino_range (x : inode) : Prop := {
  ir_type : -32768 <= i_type x < 32768;
  ir_major : -32768 <= i_major x < 32768;
  ir_minor : -32768 <= i_minor x < 32768;
  ir_nlink : -32768 <= i_nlink x < 32768;
  ir_size : 0 <= i_size x < W32;
  ir_addrs k : 0 <= k < 13 -> 0 <= i_addrs x !!! k < W32;
}.

(** [y] has the fields of [x] that are stored on disk. *)
Record same_disk (x y : inode) : Prop := {
  sd_type : i_type y = i_type x;
  sd_major : i_major y = i_major x;
  sd_minor : i_minor y = i_minor x;
  sd_nlink : i_nlink y = i_nlink x;
  sd_size : i_size y = i_size x;
  sd_addrs k : 0 <= k < 13 -> i_addrs y !!! k = i_addrs x !!! k;
}.

Lemma get_addrs_lookup d o k : 0 <= k < 13 -> get_addrs d o !!! k = get32 d (o + 4 * k).
Proof.
  intros Hk. unfold get_addrs. apply lookup_total_correct. apply elem_of_list_to_map_1.
  - rewrite <- list_fmap_compose. apply (NoDup_fmap_2 (fun x => x)), NoDup_seqZ.
  - apply list_elem_of_fmap. exists k. split; [done|]. apply elem_of_seqZ. unfold NDIRECT. lia.
Qed.

Lemma set16_512 o w l : length l = 512%nat -> 0 <= o -> o + 2 <= 512 -> length (set16 o w l) = 512%nat.
Proof. intros. rewrite set16_length; lia. Qed.
Lemma set32_512 o w l : length l = 512%nat -> 0 <= o -> o + 4 <= 512 -> length (set32 o w l) = 512%nat.
Proof. intros. rewrite set32_length; lia. Qed.
Ltac blen := repeat first [apply set16_512; [|lia|lia] | apply set32_512; [|lia|lia]]; assumption.
(** The length of a block with fields set, as a premise *)
Ltac fits := match goal with |- (_ + _ <= length ?l)%nat =>
  let H := fresh in assert (length l = 512%nat) as H by blen; rewrite H; clear H; lia end.

Section Codec.
Context (o : Z) (x : inode) (d : list Z).
Context (Hl : length d = 512%nat) (Ho : 0 <= o) (Ho' : o + 64 <= 512) (Hx : ino_range x).

Definition put_head : list Z :=
  set32 (o + 8) (i_size x) (set16 (o + 6) (i_nlink x) (set16 (o + 4) (i_minor x)
    (set16 (o + 2) (i_major x) (set16 o (i_type x) d)))).

Lemma put_dinode_eq : put_dinode o x d = set_addrs_upto 13 (o + 12) (i_addrs x) put_head.
Proof. done. Qed.
Lemma put_head_length : length put_head = 512%nat.
Proof. unfold put_head. blen. Qed.

Lemma put_addrs :
  length (put_dinode o x d) = 512%nat
  /\ (forall k, 0 <= k < 13 -> get32 (put_dinode o x d) (o + 12 + 4 * k) = i_addrs x !!! k)
  /\ (forall p, 0 <= p -> p + 4 <= o + 12 \/ o + 64 <= p -> get32 (put_dinode o x d) p = get32 put_head p)
  /\ (forall p, 0 <= p -> p + 2 <= o + 12 \/ o + 64 <= p -> get16 (put_dinode o x d) p = get16 put_head p).
Proof.
  rewrite put_dinode_eq. pose proof put_head_length as Hh.
  destruct (set_addrs_upto_spec (o + 12) (i_addrs x) put_head ltac:(lia) 13 ltac:(lia)) as (L & I & P & Q);
    [rewrite Hh; lia|apply Hx|].
  rewrite L, Hh. split_and!; [done|done| |]; intros p Hp Hd; [apply P|apply Q]; lia.
Qed.

(** Encoding, then decoding *)
Lemma dinode_roundtrip y : same_disk x (get_dinode (put_dinode o x d) o y).
Proof.
  destruct put_addrs as (_ & HI & H32 & H16). destruct Hx.
  split; cbn [get_dinode i_type i_major i_minor i_nlink i_size i_addrs].
  - rewrite H16 by lia. unfold put_head. rewrite get16_set32_other, !get16_set16_other by (lia || fits).
    apply get16_set16_signed; [lia|fits|done].
  - rewrite H16 by lia. unfold put_head. rewrite get16_set32_other, !get16_set16_other by (lia || fits).
    apply get16_set16_signed; [lia|fits|done].
  - rewrite H16 by lia. unfold put_head. rewrite get16_set32_other, !get16_set16_other by (lia || fits).
    apply get16_set16_signed; [lia|fits|done].
  - rewrite H16 by lia. unfold put_head. rewrite get16_set32_other by (lia || fits).
    apply get16_set16_signed; [lia|fits|done].
  - rewrite H32 by lia. unfold put_head. apply get32_set32; [lia|fits|done].
  - intros k Hk. rewrite get_addrs_lookup by done. by apply HI.
Qed.

(** The other inodes of the block *)
Lemma put_dinode_other y p :
  0 <= p -> p + 64 <= o \/ o + 64 <= p -> p + 64 <= 512 -> same_disk (get_dinode d p y) (get_dinode (put_dinode o x d) p y).
Proof.
  intros Hp Hd Hp'. destruct put_addrs as (_ & _ & H32 & H16).
  assert (forall q, p <= q -> q + 2 <= p + 64 -> get16 (put_dinode o x d) q = get16 d q) as E16.
  { intros q Hq Hq'. rewrite H16 by lia. unfold put_head.
    by rewrite get16_set32_other, !get16_set16_other by (lia || fits). }
  assert (forall q, p <= q -> q + 4 <= p + 64 -> get32 (put_dinode o x d) q = get32 d q) as E32.
  { intros q Hq Hq'. rewrite H32 by lia. unfold put_head.
    by rewrite get32_set32_other, !get32_set16_other by (lia || fits). }
  split; cbn [get_dinode i_type i_major i_minor i_nlink i_size i_addrs]; rewrite ?E16, ?E32 by lia; try done.
  intros k Hk. rewrite !get_addrs_lookup by done. apply E32; lia.
Qed.
End Codec.

(** ** Where inodes are *)
Lemma dinode_off_range j : 0 <= j -> 0 <= dinode_off j /\ dinode_off j + 64 <= 512.
Proof.
  intros Hj. unfold dinode_off, sizeof_dinode. pose proof (Z.mod_pos_bound j IPB ltac:(done)) as H.
  change IPB with 8 in *. lia.
Qed.
Lemma dinode_off_apart j k :
  0 <= j -> 0 <= k -> j <> k -> IBLOCK j = IBLOCK k -> dinode_off j + 64 <= dinode_off k \/ dinode_off k + 64 <= dinode_off j.
Proof.
  intros Hj Hk Hne E. unfold dinode_off, IBLOCK, sizeof_dinode in *. change IPB with 8 in *.
  pose proof (Z.div_mod j 8 ltac:(lia)). pose proof (Z.div_mod k 8 ltac:(lia)).
  pose proof (Z.mod_pos_bound j 8 ltac:(lia)). pose proof (Z.mod_pos_bound k 8 ltac:(lia)). lia.
Qed.

Section OnDisk.
Context (fsz nino st sz : Z).
Notation geo V := (geometry V fsz nino st sz).

Lemma iblock_range V j : geo V -> 0 <= j < nino -> 2 <= IBLOCK j < data_start fsz nino /\ ~ bitmap fsz nino (IBLOCK j).
Proof.
  intros G Hj. assert (2 <= IBLOCK j < nino / IPB + 3) as H.
  { unfold IBLOCK. pose proof (Z.div_pos j IPB ltac:(lia) ltac:(done)).
    pose proof (Z.div_le_mono j nino IPB ltac:(done) ltac:(lia)). lia. }
  assert (forall k, 0 <= k < fsz -> IBLOCK j < BBLOCK k nino) as Hb.
  { intros k Hk. unfold BBLOCK. pose proof (Z.div_pos k BPB ltac:(lia) ltac:(done)). lia. }
  pose proof (ge_size_range G). split.
  - split; [lia|]. unfold data_start. pose proof (Hb (fsz - 1) ltac:(lia)). lia.
  - intros (k & Hk & E). pose proof (Hb k Hk). lia.
Qed.
Lemma iblock_loggable V j : geo V -> 0 <= j < nino -> loggable st sz (IBLOCK j).
Proof. intros G Hj. destruct (iblock_range V j G Hj) as [H _]. apply (loggable_below G). pose proof (data_start_range G). lia. Qed.

(** Inode number [j] as the disk has it *)
Definition disk_inode (V : Z -> list Z) (j : Z) (y : inode) : inode :=
  get_dinode (V (IBLOCK j)) (dinode_off j) y.
(** The copy in memory is the one on disk. *)
Definition synced_ino (V : Z -> list Z) (x : inode) : Prop := same_disk x (disk_inode V (i_inum x) x).

Lemma same_disk_refl x : same_disk x x.
Proof. by split. Qed.
Lemma same_disk_trans x y z : same_disk x y -> same_disk y z -> same_disk x z.
Proof.
  intros A B. destruct A, B. split; try congruence. intros k Hk. rewrite sd_addrs1 by done. by apply sd_addrs0.
Qed.

Definition stored (V : Z -> list Z) (x : inode) : Z -> list Z :=
  upd_blk V (IBLOCK (i_inum x)) (put_dinode (dinode_off (i_inum x)) x (V (IBLOCK (i_inum x)))).

Lemma stored_synced V x y :
  ino_range x -> length (V (IBLOCK (i_inum x))) = 512%nat -> 0 <= i_inum x ->
  same_disk x (disk_inode (stored V x) (i_inum x) y).
Proof.
  intros Hr Hl Hj. unfold disk_inode, stored. rewrite upd_blk_same. pose proof (dinode_off_range _ Hj).
  apply dinode_roundtrip; [done|lia|lia|done].
Qed.
Lemma stored_other V x j y :
  ino_range x -> length (V (IBLOCK (i_inum x))) = 512%nat -> 0 <= i_inum x -> 0 <= j -> j <> i_inum x ->
  same_disk (disk_inode V j y) (disk_inode (stored V x) j y).
Proof.
  intros Hr Hl Hi Hj Hne. unfold disk_inode, stored, upd_blk. case_decide as E; [|apply same_disk_refl]. rewrite E.
  pose proof (dinode_off_range _ Hi). pose proof (dinode_off_range _ Hj).
  apply put_dinode_other; [done|lia|lia|done|lia| |lia]. apply dinode_off_apart; done || congruence.
Qed.
End OnDisk.

Section Update.
Context {T : Type} `{!FsKernel T} `{!FsKernelLaws T}.
Context (tx : txn) (V0 : Z -> list Z) (fsz nino st sz : Z) (Hbz : tx_busy tx = 1).
Implicit Types (s : fsys T) (V : Z -> list Z).
Notation tr s ents V U H := (trep tx V0 s st sz ents V U H).
Notation geo V := (geometry V fsz nino st sz).

Lemma inode_update_spec s ents V i (x := inodes s !!! i) :
  tr s ents V ∅ ∅ -> geo V -> 0 <= i < NINODE -> i_dev x = ROOTDEV -> 0 <= i_inum x < nino -> ino_range x ->
  (length ents <= 8)%nat ->
  exists s', inode_update (PInode i) s = Ok (tt, s')
    /\ tr s' (absorb (IBLOCK (i_inum x)) ents) (stored V x) ∅ ∅ /\ same_rest_l s s'.
Proof.
  intros R G Hi Hdev Hj Hr Hn. pose proof (iblock_loggable fsz nino st sz V _ G Hj) as [Hh H1].
  unfold inode_update. rewrite (bind_ok _ _ _ _ _ (ino_read_ok i id s Hi)). fold x. unfold id. rewrite Hdev.
  rewrite (home_u32 _ (proj1 Hh)).
  destruct (tget tx V0 st sz s ents V ∅ ∅ _ R Hh (lookup_empty _)) as (bp & s1 & E1 & R1 & S1);
    [rewrite map_size_empty; lia|].
  rewrite (bind_ok _ _ _ _ _ E1). pose proof (dinode_off_range _ (proj1 Hj)) as Ho.
  destruct (twrite tx V0 st sz s1 ents V _ _ bp (put_dinode (dinode_off (i_inum x)) x) R1 Hbz (ge_log _ _ _ _ _ G)
    (lookup_insert_eq _ _ _) H1) as (s2 & s3 & E2 & E3 & R3 & S3).
  { apply put_addrs; [by eapply tlength|lia|lia|done]. }
  { rewrite map_size_insert_None, map_size_empty by apply lookup_empty. lia. }
  rewrite (bind_ok _ _ _ _ _ E2), (bind_ok _ _ _ _ _ E3).
  destruct (tput tx V0 st sz s3 _ _ ∅ ∅ _ bp R3 (lookup_empty _) (not_elem_of_empty _)) as (s4 & E4 & R4 & S4).
  exists s4. split; [done|]. split; [done|]. eapply same_rest_l_trans; [by apply same_rest_log|].
  eapply same_rest_l_trans; [exact S3|by apply same_rest_log].
Qed.
End Update.

(** A block in front of the data area that is not part of the bitmap does not
    matter to the contents of files. *)
Section Meta.
Context (fsz nino st sz : Z).
Context {V : Z -> list Z} (G : geometry V fsz nino st sz) (ib : Z) (d : list Z).
Context (Hib : ib < data_start fsz nino) (Hnb : ~ bitmap fsz nino ib).

Lemma meta_inuse z : inuse fsz nino (upd_blk V ib d) z = inuse fsz nino V z.
Proof.
  unfold inuse. destruct (decide (0 <= z < fsz)) as [Hz|Hz]; [|by rewrite bool_decide_false].
  f_equal. unfold used. rewrite upd_blk_ne; [done|]. intros E. apply Hnb. exists z. done.
Qed.
Lemma meta_baddr a bn : ino_wf fsz nino st V a -> baddr (upd_blk V ib d) a bn = baddr V a bn.
Proof.
  intros W. unfold baddr. case_decide; [done|]. case_decide as Hi; [done|]. rewrite upd_blk_ne; [done|].
  intros E. destruct (iw_own _ _ _ _ _ W _ (ind_owned a Hi)) as [Hd _]. unfold in_data in Hd. lia.
Qed.
Lemma meta_owned a z : ino_wf fsz nino st V a -> owned (upd_blk V ib d) a z <-> owned V a z.
Proof.
  intros W. split; intros [Hz [(bn & Hbn & E)|E]]; (split; [done|]); try (by right); left; exists bn;
    split; try done; revert E; by rewrite meta_baddr.
Qed.
Lemma meta_wf a : ino_wf fsz nino st V a -> ino_wf fsz nino st (upd_blk V ib d) a.
Proof.
  intros W. split.
  - intros z Hz%meta_owned; [|done]. rewrite meta_inuse. by apply W.
  - intros bn bn' Hb Hb'. rewrite !meta_baddr by done. by apply W.
  - intros bn Hb. rewrite !meta_baddr by done. by apply W.
Qed.
Lemma meta_fbyte a o :
  ino_wf fsz nino st V a -> 0 <= o < 140 * BSIZE -> fbyte (upd_blk V ib d) a o = fbyte V a o.
Proof.
  intros W Ho. unfold fbyte, fblock. rewrite meta_baddr by done. case_decide as Hb; [done|].
  rewrite upd_blk_ne; [done|]. intros E.
  assert (0 <= o / BSIZE < 140) as Hr by (unfold BSIZE in *; split; [apply Z.div_pos; lia|apply Z.div_lt_upper_bound; lia]).
  destruct (iw_own _ _ _ _ _ W _ (baddr_owned a _ Hr Hb)) as [Hd _]. unfold in_data in Hd. lia.
Qed.
End Meta.

(** ** inode_write *)
Section WriteSpec.
Context {T : Type} `{!FsKernel T} `{!FsKernelLaws T}.
Context (tx : txn) (V0 : Z -> list Z) (fsz nino st sz : Z).
Implicit Types (s : fsys T) (V : Z -> list Z).
Notation tr s ents V U H := (trep tx V0 s st sz ents V U H).
Notation geo V := (geometry V fsz nino st sz).

(** An inode in memory that is a good copy of an inode on disk *)
Record open_file V (x : inode) : Prop := {
  of_ok : file_ok fsz nino st V x;
  of_range : ino_range x;
  of_inum : 0 <= i_inum x < nino;
  of_synced : synced_ino V x;
}.

(** [x] with other contents *)
Definition same_file (x x' : inode) : Prop := x' = set_i_size (i_size x') (set_i_addrs (i_addrs x') x).

Lemma same_file_refl x : same_file x x.
Proof. by destruct x. Qed.

Record file_written (k : nat) (i off n : Z) (f : Z -> Z) s V s' V' (ents' : list Z) (C : gset Z)
    (x := inodes s !!! i) (x' := inodes s' !!! i) : Prop := {
  fw_tr : tr s' ents' V' ∅ ∅;
  fw_geo : geo V';
  fw_open : open_file V' x';
  fw_same : same_file x x';
  fw_size : i_size x' = Z.max (i_size x) (off + n);
  fw_byte o : 0 <= o < 140 * BSIZE -> fbyte V' (i_addrs x') o =
    if decide (off <= o < off + n) then f (o - off) else fbyte V (i_addrs x) o;
  fw_frame : iframe i s s';
  fw_used z : inuse fsz nino V z = true -> inuse fsz nino V' z = true;
  fw_own z : owned V' (i_addrs x') z -> owned V (i_addrs x) z \/ inuse fsz nino V z = false;
  fw_other z : z <> 0 -> inuse fsz nino V z = true -> ~ bitmap fsz nino z -> ~ owned V (i_addrs x) z ->
    z <> IBLOCK (i_inum x) -> V' z = V z;
  fw_inodes j y : 0 <= j < nino -> j <> i_inum x -> same_disk (disk_inode V j y) (disk_inode V' j y);
  fw_covered : covered fsz nino C ents' (i_addrs x' !!! 12);
  fw_avail m : avail fsz nino st V (k + m) -> avail fsz nino st V' m;
}.

Context (Hbz : tx_busy tx = 1) (Hone : fsz <= BPB).

Lemma wf_range V x a :
  geo V -> ino_wf fsz nino st V a -> ino_range x ->
  (forall k, 0 <= k < 13 -> 0 <= a !!! k < W32).
Proof.
  intros G W Hr k Hk. destruct (decide (a !!! k = 0)) as [->|Hn]; [unfold W32; lia|].
  assert (owned V a (a !!! k)) as Ho.
  { split; [done|]. destruct (decide (k = 12)) as [->|]; [by right|left]. exists k. split; [lia|].
    unfold baddr. by rewrite decide_True by lia. }
  destruct (iw_own _ _ _ _ _ W _ Ho) as [Hd _]. destruct (in_data_range fsz nino st sz G _ Hd) as (_ & H & _).
  pose proof (ge_size_range G). unfold W32. lia.
Qed.

(** The inode blocks, when only the contents of a file changed *)
Lemma wrote_iblock k D i off r f s V ents s' V' ents' j m :
  wrote tx V0 fsz nino st sz k D i off r f s V ents s' V' ents' -> geo V ->
  ino_wf fsz nino st V (i_addrs (inodes s !!! i)) -> avail fsz nino st V m ->
  0 <= j < nino -> V' (IBLOCK j) = V (IBLOCK j).
Proof.
  intros A G W [Hm _] Hj. destruct (iblock_range fsz nino st sz V j G Hj) as [Hr Hb].
  apply (wr_other _ _ _ _ _ _ _ _ _ _ _ _ _ _ _ _ _ _ A); [lia|apply Hm; lia|done|].
  intros Ho. destruct (iw_own _ _ _ _ _ W _ Ho) as [Hd _]. unfold in_data in Hd. lia.
Qed.

Lemma wrote_full k D i off r f s V ents s' V' ents' (x := inodes s !!! i) bn :
  wrote tx V0 fsz nino st sz k D i off r f s V ents s' V' ents' -> file_ok fsz nino st V x ->
  0 <= off <= i_size x -> off + r <= 140 * BSIZE -> 0 <= bn -> bn * BSIZE < Z.max (i_size x) (off + r) ->
  baddr V' (i_addrs (inodes s' !!! i)) bn <> 0.
Proof.
  intros A F Hoff Hr Hbn Hlt. pose proof (fo_size _ _ _ _ _ F) as Hsz. fold x in Hsz.
  destruct (decide (bn * BSIZE < i_size x)) as [H|H].
  - apply (wr_keep _ _ _ _ _ _ _ _ _ _ _ _ _ _ _ _ _ _ A); [unfold BSIZE in *; lia|]. by apply F.
  - replace bn with (bn * BSIZE / BSIZE) by (apply Z.div_mul; done).
    apply (wr_new _ _ _ _ _ _ _ _ _ _ _ _ _ _ _ _ _ _ A). lia.
Qed.

Notation wrote := (wrote tx V0 fsz nino st sz).

Lemma wrote_within k D i off n f s V ents s' V' ents' C m (x := inodes s !!! i) :
  wrote k D i off n f s V ents s' V' ents' -> geo V -> open_file V x -> avail fsz nino st V m ->
  0 <= off <= i_size x -> 0 <= n -> off + n <= i_size x -> covered fsz nino C ents' (i_addrs (inodes s' !!! i) !!! 12) ->
  file_written k i off n f s V s' V' ents' C.
Proof.
  intros A G [F Hr Hj Hs] Hav Hoff Hn Hle Hc. pose proof (fo_size _ _ _ _ _ F) as Hsz. pose proof (fo_wf _ _ _ _ _ F) as W.
  assert (i_addrs (inodes s' !!! i) = i_addrs x) as Ea.
  { apply (wr_same _ _ _ _ _ _ _ _ _ _ _ _ _ _ _ _ _ _ A). intros o Ho. by apply (fo_byte fsz nino st V x o F); lia. }
  assert (inodes s' !!! i = x) as Ex.
  { etransitivity; [apply (wr_ino _ _ _ _ _ _ _ _ _ _ _ _ _ _ _ _ _ _ A)|]. rewrite Ea. apply set_i_addrs_id. }
  pose proof A as A0. destruct A as [R' G' W' I' F' K' S' N' B' U' O' D' Z' E' V'']. split; try done; rewrite ?Ex; fold x.
  - destruct F. rewrite Ea in W', K'. split; [split; try done|done..|].
    + intros bn Hb Hlt. apply K'; [unfold BSIZE in *; lia|]. by apply fo_full.
    + unfold synced_ino, disk_inode. fold (disk_inode V (i_inum x) x).
      rewrite (wrote_iblock k D i off n f s V ents s' V' ents' (i_inum x) m); [exact Hs|done..].
  - apply same_file_refl.
  - lia.
  - intros z ? ? ? ? _. by apply Z'.
  - intros j y Hj' Hne. unfold disk_inode.
    rewrite (wrote_iblock k D i off n f s V ents s' V' ents' j m); [apply same_disk_refl|done..].
Qed.

(** The new size, and the inode written to disk *)
Lemma wrote_grow k D i off n f s V ents s1 V1 ents1 C m (x := inodes s !!! i) :
  wrote k D i off n f s V ents s1 V1 ents1 -> geo V -> open_file V x -> avail fsz nino st V m -> 0 <= i < NINODE ->
  0 <= off <= i_size x -> off + n <= 140 * BSIZE -> i_size x < off + n ->
  covered fsz nino C ents1 (i_addrs (inodes s1 !!! i) !!! 12) -> (size C <= 6)%nat ->
  exists s' V' ents', (ino_write (PInode i) (set_i_size (off + n)) ;; inode_update (PInode i)) s1 = Ok (tt, s')
    /\ file_written k i off n f s V s' V' ents' (C ∪ {[IBLOCK (i_inum x)]}).
Proof.
  intros A G [F Hr Hj Hs] Hav Hi Hoff Hmax Hgt Hc HC. pose proof (fo_size _ _ _ _ _ F) as Hsz.
  pose proof (fo_wf _ _ _ _ _ F) as W.
  rewrite (bind_ok _ _ _ _ _ (ino_write_ok i (set_i_size (off + n)) s1 Hi)).
  pose proof A as [R1 G1 W1 I1 F1 K1 S1 N1 B1 U1 O1 D1 Z1 E1 V1']. set (a1 := i_addrs (inodes s1 !!! i)) in *.
  set (s2 := upd_ino i (set_i_size (off + n)) s1). set (x' := set_i_size (off + n) (set_i_addrs a1 x)).
  assert (inodes s2 !!! i = x') as Ex.
  { unfold s2. rewrite upd_ino_lookup. dec_refl. by rewrite I1. }
  assert (ino_range x') as Hr'.
  { destruct Hr. split; try done; cbn; [unfold BSIZE, W32 in *; lia|]. by apply (wf_range V1 x). }
  destruct (iblock_range fsz nino st sz V1 (i_inum x) G1 Hj) as [Hib Hnb].
  destruct (inode_update_spec tx V0 fsz nino st sz Hbz s2 ents1 V1 i) as (s3 & E3 & R3 & S3); rewrite ?Ex; try done.
  { by apply trep_upd_ino. } { apply F. }
  { pose proof (covered_length fsz nino C ents1 _ Hone (tr_nodup tx V0 st sz _ _ _ _ _ R1) Hc). lia. }
  rewrite Ex in R3. change (i_inum x') with (i_inum x) in R3. exists s3, (stored V1 x'), (absorb (IBLOCK (i_inum x)) ents1).
  split; [exact E3|]. assert (inodes s3 !!! i = x') as Ex3 by (by rewrite (srl_inodes _ _ S3)).
  assert (length (V1 (IBLOCK (i_inum x))) = 512%nat) as Hl by (eapply tlength; [exact R1|by eapply iblock_loggable]).
  split; rewrite ?Ex3; try done.
  - unfold stored. apply geometry_upd; [done|]. change (i_inum x') with (i_inum x). lia.
  - split; [|done|exact Hj|by apply stored_synced; [| |exact (proj1 Hj)]]. split; try apply F.
    + cbn. lia.
    + unfold stored. apply (meta_wf fsz nino st); [exact (proj2 Hib)|done|done].
    + intros bn Hb Hlt. unfold stored. rewrite (meta_baddr fsz nino st) by (done || exact (proj2 Hib)).
      eapply wrote_full; [exact A|exact F|done|done|done|]. cbn in Hlt. fold x. lia.
  - cbn. fold x. lia.
  - intros o Ho. unfold stored. rewrite (meta_fbyte fsz nino st) by (done || exact (proj2 Hib)). by apply B1.
  - eapply iframe_trans; [exact F1|]. eapply iframe_trans; [apply iframe_upd|by apply iframe_rest_l].
  - intros z Hz. unfold stored. rewrite meta_inuse by done. by apply U1.
  - intros z Hz. unfold stored in Hz. apply (meta_owned fsz nino st) in Hz; [|exact (proj2 Hib)|done]. by apply O1.
  - intros z H0 Hz Hb Ho Hne. unfold stored. rewrite upd_blk_ne by done. by apply Z1.
  - intros j y Hj' Hne. eapply same_disk_trans; [|apply stored_other; [done|done|apply Hj|lia|done]].
    unfold disk_inode. rewrite (wrote_iblock k D i off n f s V ents s1 V1 ents1 j m) by done. apply same_disk_refl.
  - intros y [->|Hy]%absorb_in; [left; apply elem_of_union_r; by apply elem_of_singleton|].
    destruct (Hc y Hy) as [?|?]; [left; by apply elem_of_union_l|by right].
  - intros m' Hm'. eapply avail_ext; [|by apply V1']. intros z. unfold stored. by apply meta_inuse.
Qed.

Lemma covered_mono C C' ents ind : C ⊆ C' -> covered fsz nino C ents ind -> covered fsz nino C' ents ind.
Proof. intros Hs Hc y Hy. destruct (Hc y Hy) as [?|?]; [left; by apply Hs|by right]. Qed.

Lemma inode_write_spec s ents V C i src off n (x := inodes s !!! i) :
  tr s ents V ∅ ∅ -> geo V -> 0 <= i < NINODE -> open_file V x ->
  0 <= off <= i_size x -> 0 <= n -> off + n <= 140 * BSIZE ->
  avail fsz nino st V (2 * Z.to_nat (spans off n)) ->
  covered fsz nino C ents (i_addrs x !!! 12) -> Z.of_nat (size C) + spans off n <= 4 ->
  exists s' V' ents' C', inode_write (PInode i) src off n s = Ok (n, s')
    /\ file_written (2 * Z.to_nat (spans off n)) i off n (fun k => fk_mem (kern s) !!! (src + k)) s V s' V' ents' C'
    /\ Z.of_nat (size C') <= Z.of_nat (size C) + spans off n + 1.
Proof.
  intros R G Hi O Hoff Hn Hmax Hav Hc HC. pose proof (of_ok _ _ O) as F. pose proof (fo_size _ _ _ _ _ F) as Hsz.
  unfold inode_write. rewrite (bind_ok _ _ _ _ _ (ino_read_ok i id s Hi)). fold x. unfold id.
  rewrite (decide_False (P := i_type x = T_DEV)) by apply F.
  assert (u32 (off + n) = off + n) as Eu by (apply u32_id; unfold W32, BSIZE in *; lia).
  rewrite Eu. rewrite (decide_False (P := off > _ \/ _)) by lia. change (MAXFILE * BSIZE) with (140 * BSIZE).
  rewrite (decide_False (P := off + n > _)) by lia.
  destruct (write_loop_spec tx V0 fsz nino st sz Hbz Hone i n 0 (rw_fuel n) s ents V C src off 0 R G (fo_wf _ _ _ _ _ F) Hi
    (fo_dev _ _ _ _ _ F)) as (s1 & V1 & ents1 & D & E1 & A1 & HD); rewrite ?Z.sub_0_r in *; try done; [lia|by rewrite Nat.add_0_r| |].
  { unfold rw_fuel. pose proof (spans_fuel off n ltac:(lia) Hn). lia. }
  rewrite (bind_ok _ _ _ _ _ E1), (bind_ok _ _ _ _ _ (ino_read_ok i i_size s1 Hi)).
  assert (i_size (inodes s1 !!! i) = i_size x) as Es by (by rewrite (wr_ino _ _ _ _ _ _ _ _ _ _ _ _ _ _ _ _ _ _ A1)).
  rewrite Es. pose proof (covered_wrote _ _ _ _ _ _ _ _ _ _ _ _ _ _ _ _ _ _ C A1 Hc) as Hc1.
  assert (size (C ∪ list_to_set D) <= size C + length D)%nat as HsC.
  { pose proof (budget D ∅ (length D)) as Hb. rewrite dom_empty_L, union_empty_r_L, map_size_empty in Hb.
    rewrite size_union_alt. pose proof (subseteq_size (list_to_set D ∖ C) (list_to_set D : gset Z) ltac:(set_solver)). lia. }
  destruct (decide (n > 0 /\ off + n > i_size x)) as [Hg|Hg].
  - destruct (wrote_grow _ D i off n _ s V ents s1 V1 ents1 (C ∪ list_to_set D) _ A1 G O Hav Hi Hoff Hmax) as (s' & V' & ents' & E' & Hw);
      [fold x; lia|done|lia|].
    eexists s', V', ents', _. rewrite (bind_ok _ _ _ _ _ E'). rewrite s32_id by (unfold BSIZE in *; lia).
    split; [done|]. split; [exact Hw|]. rewrite size_union_alt.
    pose proof (subseteq_size ({[IBLOCK (i_inum (inodes s !!! i))]} ∖ (C ∪ list_to_set D)) {[IBLOCK (i_inum (inodes s !!! i))]} ltac:(set_solver)) as Hy.
    rewrite size_singleton in Hy. lia.
  - exists s1, V1, ents1, (C ∪ list_to_set D). rewrite mret_bind. rewrite s32_id by (unfold BSIZE in *; lia).
    split; [done|]. split; [|lia]. eapply wrote_within; [exact A1|done|done|exact Hav|done|done|fold x; lia|exact Hc1].
Qed.
End WriteSpec.
