(* ===== verification/Dir.v ===== *)
(** * Directories and paths: fs/dir.c, fs/path.c

    A directory is a file of 16-byte entries: an inode number and a name of at
    most 14 bytes.  Paths, names and the entries read from a directory are in
    kernel memory; the addresses of the local variables that hold them are
    arguments. *)

From S2P Require Import Prelude DList Machine Thread Scheduler KString Bytes FsData BufCache FsLog Block Inode.

Definition sizeof_dirent : Z := 16.

(** The control blocks of the threads, in the rest of the kernel *)
Class FsThreads (T : Type) := {
  ft_thr : T -> thr;
  ft_set_thr : thr -> T -> T;
}.
#[export] Instance thr_mem_threads : FsThreads (thr * mem) := {
  ft_thr := fst;
  ft_set_thr t k := (t, k.2);
}.

(** [for(off = 0; off < dp->size; off += sizeof(struct dirent))] *)
Definition dir_offs (from size : Z) : list Z :=
  map (fun k => from + sizeof_dirent * k) (seqZ 0 ((size - from + sizeof_dirent - 1) / sizeof_dirent)).

(** Paths are in buffers of 128 bytes. *)
Definition path_fuel : nat := 130.

Section Ops.
Context {T : Type} `{!FsKernel T} `{!FsThreads T}.
(** [de] of [dir_lookup] and of [dir_link] *)
Context (lookup_de link_de : Z).

Notation F := (M (fsys T)).

Definition mem_byte (a : Z) : F Z := gets (fun s => fk_mem (kern s) !!! a).
Definition mem_mod (f : mem -> mem) : F unit :=
  modify (fun s => set_kern (fk_set_mem (f (fk_mem (kern s))) (kern s)) s).
Definition mem_half (a : Z) : F Z := gets (fun s => half_of (fun i => fk_mem (kern s) !!! i) a).
Definition in_threads {A} (m : M thr A) : F A :=
  zoom (fun s => ft_thr (kern s)) (fun t s => set_kern (ft_set_thr t (kern s)) s) m.

(** ** dir.c *)
Definition dir_namecmp (s t : Z) : F Z := gets (fun st => strncmp s t (Z.to_nat DIRSIZ) (fk_mem (kern st))).

(** The result is the inode and the offset of its entry. *)
Definition dir_lookup (dp : ptr) (name : Z) : F (ptr * Z) :=
  t ← ino_read dp i_type;
  if decide (t <> T_DIR) then panic "dir_lookup not DIR"
  else
    size ← ino_read dp i_size;
    r ← first_of (dir_offs 0 size) (fun off =>
      n ← inode_read dp lookup_de off sizeof_dirent;
      if decide (n <> sizeof_dirent) then panic "wrong in dir_lookup"
      else
        inum ← mem_half lookup_de;
        if decide (inum = 0) then mret None
        else
          c ← dir_namecmp (lookup_de + 2) name;
          if decide (c = 0) then
            dev ← ino_read dp i_dev;
            ip ← inode_get dev inum;
            mret (Some (ip, off))
          else mret None);
    mret (default (PNull, 0) r).

Definition dir_link (dp : ptr) (name inum : Z) : F Z :=
  r ← dir_lookup dp name;
  let pinode := r.1 : ptr in
  if decide (pinode <> PNull) then
    inode_put pinode ;;
    mret (-1)
  else
    size ← ino_read dp i_size;
    r ← first_of (dir_offs 0 size) (fun off =>
      n ← inode_read dp link_de off sizeof_dirent;
      if decide (n <> sizeof_dirent) then panic "entry size read is not correct, dir_link"
      else
        i ← mem_half link_de;
        if decide (i = 0) then mret (Some off) else mret None);
    let off := default (sizeof_dirent * Z.of_nat (length (dir_offs 0 size))) r in
    mem_store link_de (half_bytes (u16 inum)) ;;
    mem_mod (strncpy (link_de + 2) name (Z.to_nat DIRSIZ)) ;;
    n ← inode_write dp link_de off sizeof_dirent;
    if decide (n <> sizeof_dirent) then panic "entry size write is not corrent, dir_link"
    else mret 0.

(** ** path.c *)

(** [while(p( *a)) a++] *)
Fixpoint skip_while (fuel : nat) (p : Z -> bool) (a : Z) : F Z :=
  c ← mem_byte a;
  if p c then match fuel with O => fail Hang | S fuel => skip_while fuel p (a + 1) end else mret a.

Definition SLASH : Z := 47.

(** The next path element goes to [name]; [None] is the null pointer. *)
Definition skipelem (path name : Z) : F (option Z) :=
  c ← mem_byte path;
  if decide (path = 0 \/ c = 0) then mret None
  else
    start ← skip_while path_fuel (fun c => bool_decide (c = SLASH)) path;
    c ← mem_byte start;
    if decide (c = 0) then mret None
    else
      end_ ← skip_while path_fuel (fun c => bool_decide (c <> SLASH) && bool_decide (c <> 0)) start;
      let len := if decide (end_ - start >= DIRSIZ) then DIRSIZ - 1 else end_ - start in
      mem_mod (strncpy name start (Z.to_nat len)) ;;
      mem_mod (<[name + len := 0]>) ;;
      end_ ← skip_while path_fuel (fun c => bool_decide (c = SLASH)) end_;
      mret (Some end_).

Fixpoint namex_loop (fuel : nat) (path : Z) (ip : ptr) (nameiparent : bool) (name : Z) : F ptr :=
  r ← skipelem path name;
  match r with
  | None => if nameiparent then inode_put ip ;; mret PNull else mret ip
  | Some path =>
      match fuel with
      | O => fail Hang
      | S fuel =>
          inode_lock ip ;;
          t ← ino_read ip i_type;
          if decide (t <> T_DIR) then
            inode_unlockput ip ;;
            mret PNull
          else
            c ← mem_byte path;
            if nameiparent && bool_decide (c = 0) then
              inode_unlock ip ;;
              mret ip
            else
              r ← dir_lookup ip name;
              let subdir := r.1 : ptr in
              if decide (subdir = PNull) then
                inode_unlockput ip ;;
                mret PNull
              else
                inode_unlockput ip ;;
                namex_loop fuel path subdir nameiparent name
      end
  end.

Definition namex (path : Z) (nameiparent : bool) (name : Z) : F ptr :=
  c ← mem_byte path;
  ip ← (if decide (c = SLASH) then inode_get ROOTDEV ROOTINO
        else
          pid ← in_threads get_curid;
          cwd ← in_threads (tcb_get_cwd pid);
          inode_dup cwd);
  namex_loop path_fuel path ip nameiparent name.

(** [name] is a local variable of [namei]. *)
Definition namei (namei_name path : Z) : F ptr := namex path false namei_name.
Definition nameiparent (path name : Z) : F ptr := namex path true name.
End Ops.
