(* ===== verification/File.v ===== *)
(** * Open files: fs/file.c

    The table of open files.  [PFile i] is a pointer to entry [i]. *)

From S2P Require Import Prelude DList Machine Thread Scheduler KString Bytes FsData BufCache FsLog Block Inode.

Definition set_fl_ref (v : Z) (f : file) : file :=
  mk_file (fl_type f) v (fl_readable f) (fl_writable f) (fl_ip f) (fl_off f).
Definition set_fl_type (v : file_type) (f : file) : file :=
  mk_file v (fl_ref f) (fl_readable f) (fl_writable f) (fl_ip f) (fl_off f).
Definition set_fl_off (v : Z) (f : file) : file :=
  mk_file (fl_type f) (fl_ref f) (fl_readable f) (fl_writable f) (fl_ip f) v.

#[export] Instance file_type_eq_dec : EqDecision file_type.
Proof. solve_decision. Defined.

Section Ops.
Context {T : Type} `{!FsKernel T}.

Notation F := (M (fsys T)).

Definition file_at (p : ptr) : F Z :=
  match p with
  | PFile i => check_index NFILE i ;; mret i
  | PNull => undef NullDeref
  | _ => undef BadAddress
  end.
Definition fl_read {A} (p : ptr) (f : file -> A) : F A := i ← file_at p; gets (fun s => f (files s !!! i)).
Definition upd_file (i : Z) (f : file -> file) (s : fsys T) : fsys T :=
  set_files (<[i := f (files s !!! i)]> (files s)) s.
Definition fl_write (p : ptr) (f : file -> file) : F unit := i ← file_at p; modify (upd_file i f).
Definition ft_acquire : F unit := acquire ft_lock set_ft_lock.
Definition ft_release : F unit := release ft_lock set_ft_lock.

Definition file_init : F unit := zoom ft_lock set_ft_lock spinlock_init.

Definition file_alloc : F ptr :=
  ft_acquire ;;
  r ← first_of (seqZ 0 NFILE) (fun i =>
    ref ← fl_read (PFile i) fl_ref;
    if decide (ref = 0) then
      fl_write (PFile i) (set_fl_ref 1) ;;
      ft_release ;;
      mret (Some (PFile i))
    else mret None);
  match r with
  | Some f => mret f
  | None => ft_release ;; mret PNull
  end.

Definition file_dup (f : ptr) : F ptr :=
  ft_acquire ;;
  ref ← fl_read f fl_ref;
  if decide (ref < 1) then panic "file_dup"
  else
    fl_write f (fun x => set_fl_ref (s32 (fl_ref x + 1)) x) ;;
    ft_release ;;
    mret f.

Definition file_close (f : ptr) : F unit :=
  ft_acquire ;;
  ref ← fl_read f fl_ref;
  if decide (ref < 1) then panic "file_close"
  else
    fl_write f (set_fl_ref (s32 (ref - 1))) ;;
    ref ← fl_read f fl_ref;
    if decide (ref > 0) then ft_release
    else
      ff ← fl_read f id;
      fl_write f (set_fl_ref 0) ;;
      fl_write f (set_fl_type FD_NONE) ;;
      ft_release ;;
      if decide (fl_type ff = FD_INODE) then
        begin_trans ;;
        inode_put (fl_ip ff) ;;
        commit_trans
      else mret tt.

(** The result, and what is stored through [st] *)
Definition file_stat (f : ptr) : F (Z * option file_stat_t) :=
  t ← fl_read f fl_type;
  if decide (t = FD_INODE) then
    ip ← fl_read f fl_ip;
    inode_lock ip ;;
    st ← inode_stat ip;
    inode_unlock ip ;;
    mret (0, Some st)
  else mret (-1, None).

(** [n] is an [int]; [inode_read] takes it as unsigned. *)
Definition file_read (f : ptr) (addr n : Z) : F Z :=
  x ← fl_read f id;
  if decide (fl_readable x = 0) then mret (-1)
  else if decide (fl_type x = FD_INODE) then
    inode_lock (fl_ip x) ;;
    off ← fl_read f fl_off;
    r ← inode_read (fl_ip x) addr off (u32 n);
    (if decide (r > 0) then fl_write f (fun x => set_fl_off (u32 (fl_off x + r)) x) else mret tt) ;;
    inode_unlock (fl_ip x) ;;
    mret r
  else panic "file_read".

(** Blocks per transaction times the block size *)
Definition max_write : Z := (LOGSIZE - 1 - 1 - 2) / 2 * 512.

(** [while(i < n)]; the result is [i]. *)
Fixpoint file_write_loop (fuel : nat) (f ip : ptr) (addr i n : Z) : F Z :=
  if decide (i < n) then
    match fuel with
    | O => fail Hang
    | S fuel =>
        let n1 := if decide (n - i > max_write) then max_write else n - i in
        begin_trans ;;
        inode_lock ip ;;
        off ← fl_read f fl_off;
        r ← inode_write ip (addr + i) off n1;
        (if decide (r > 0) then fl_write f (fun x => set_fl_off (u32 (fl_off x + r)) x) else mret tt) ;;
        inode_unlock ip ;;
        commit_trans ;;
        if decide (r < 0) then mret i
        else if decide (r <> n1) then panic "short file_write"
        else file_write_loop fuel f ip addr (i + r) n
    end
  else mret i.

Definition file_write_fuel (n : Z) : nat := Z.to_nat (n / max_write + 1).

Definition file_write (f : ptr) (addr n : Z) : F Z :=
  x ← fl_read f id;
  if decide (fl_writable x = 0) then mret (-1)
  else if decide (fl_type x = FD_INODE) then
    i ← file_write_loop (file_write_fuel n) f (fl_ip x) addr 0 n;
    mret (if decide (i = n) then n else -1)
  else panic "file_write".
End Ops.
