(* ===== verification/FileSpec.v ===== *)
(** * Reading and writing files

    What [inode_lock] and [inode_unlock] of fs/inode.c and the calls of
    fs/file.c do to the blocks of a file: [file_write] cuts a write into
    transactions of at most three blocks of data. *)

From S2P Require Import Prelude DList Machine Thread Scheduler KString Bytes FsData BufCache FsLog Block Inode InodeData InodeDisk File.

(** ** Locking an inode *)
Section Locks.
Context {T : Type} `{!FsKernel T} `{!FsKernelLaws T}.
Implicit Types s : fsys T.

(** The disk, the buffers and the log are the same. *)
Record same_blocks s s' : Prop := {
  sb_bc_lock : bc_lock s' = bc_lock s;
  sb_bufs : bufs s' = bufs s;
  sb_ide_lk : ide_lk s' = ide_lk s;
  sb_queue : idequeue s' = idequeue s;
  sb_havedisk : havedisk1 s' = havedisk1 s;
  sb_fault : ide_fault s' = ide_fault s;
  sb_disk : disk s' = disk s;
  sb_past : past s' = past s;
  sb_log : log s' = log s;
  sb_kern : fk_inv (kern s) -> fk_inv (kern s');
}.

Lemma crep_blocks s s' dk L P H : same_blocks s s' -> crep s dk L P H -> crep s' dk L P H.
Proof.
  intros [E1 E2 E3 E4 E5 E6 E7 E8 E9 E10] C. destruct s, s'. cbn in *. subst.
  destruct C as [[] ? ? ? ? ? ? ? ? ? ? ? ?]. split; try done. split; try done. by apply E10.
Qed.
Lemma trep_blocks s s' tx V0 st sz ents V U H :
  same_blocks s s' -> trep tx V0 s st sz ents V U H -> trep tx V0 s' st sz ents V U H.
Proof.
  intros B (dk & L & R). exists dk, L. destruct R. split; try done.
  - by eapply crep_blocks.
  - eapply lg_same; [apply B|done].
  - by rewrite (sb_past _ _ B).
Qed.
Lemma irep_blocks s s' st sz V : same_blocks s s' -> irep s st sz V -> irep s' st sz V.
Proof.
  intros B (Hl & dk & C & Hlg & Hh & HV). split; [done|]. exists dk. split_and!; [|  |done|done].
  - by eapply crep_blocks.
  - eapply lg_same; [apply B|done].
Qed.
Lemma trep_kern tx V0 s st sz ents V U H : trep tx V0 s st sz ents V U H -> fk_inv (kern s).
Proof. intros (dk & L & R). exact (id_kern _ (cr_idle _ _ _ _ _ (t_crep _ _ _ _ _ _ _ _ _ _ _ R))). Qed.
Lemma irep_kern s st sz V : irep s st sz V -> fk_inv (kern s).
Proof. intros (_ & dk & C & _). exact (id_kern _ (cr_idle _ _ _ _ _ C)). Qed.

(** [i] has been changed to [x], and nothing else. *)
Record ino_set (i : Z) (x : inode) s s' : Prop := {
  is_blocks : same_blocks s s';
  is_inodes : inodes s' = <[i := x]> (inodes s);
  is_frame : iframe i s s';
}.

(** The inode is in the cache and referenced; the cache itself is not locked. *)
Record cached s (i flags : Z) : Prop := {
  ca_lock : ic_lock s = free_lock;
  ca_index : 0 <= i < NINODE;
  ca_ref : 1 <= i_ref (inodes s !!! i);
  ca_flags : i_flags (inodes s !!! i) = flags;
}.

Lemma same_ic s : ic_lock s = free_lock -> set_ic_lock free_lock s = s.
Proof. intros <-. by destruct s. Qed.

Lemma ic_section s : fk_inv (kern s) -> ic_lock s = free_lock ->
  exists lk, ic_acquire s = Ok (tt, set_ic_lock lk s).
Proof. intros Hk Hl. eexists. apply acquire_ok; [done|by rewrite Hl]. Qed.

Definition set_flags (i fl : Z) s : fsys T := upd_ino i (set_i_flags fl) s.
Lemma set_flags_set i fl s : ino_set i (set_i_flags fl (inodes s !!! i)) s (set_flags i fl s).
Proof. split; [by split|done|apply iframe_upd]. Qed.

(** Up to the test of [I_VALID] *)
Lemma inode_lock_begin s i fl :
  fk_inv (kern s) -> cached s i fl -> Z.land fl I_BUSY = 0 ->
  inode_lock (PInode i) s =
    (if decide (Z.land (Z.lor fl I_BUSY) I_VALID = 0) then
       x ← ino_read (PInode i) id;
       bp ← bufcache_read (i_dev x) (u32 (IBLOCK (i_inum x)));
       d ← buf_read bp b_data;
       ino_write (PInode i) (get_dinode d (dinode_off (i_inum x))) ;;
       bufcache_release bp ;;
       ino_write (PInode i) (fun x => set_i_flags (Z.lor (i_flags x) I_VALID) x) ;;
       t ← ino_read (PInode i) i_type;
       if decide (t = 0) then panic "inode_lock: no type" else mret tt
     else mret tt) (set_flags i (Z.lor fl I_BUSY) s).
Proof.
  intros Hk [Hl Hi Hr Hf] Hb. unfold inode_lock. rewrite decide_False by done.
  rewrite (bind_ok _ _ _ _ _ (ino_read_ok i i_ref s Hi)). rewrite (decide_False (P := _ < 1)) by lia.
  destruct (ic_section s Hk Hl) as [lk E]. rewrite (bind_ok _ _ _ _ _ E).
  rewrite (bind_ok _ _ _ _ _ (ino_read_ok i i_flags (set_ic_lock lk s) Hi)).
  change (inodes (set_ic_lock lk s) !!! i) with (inodes s !!! i). rewrite Hf, (decide_False (P := Z.land _ I_BUSY <> 0)) by (intros C; by apply C).
  rewrite (bind_ok _ _ _ _ _ (ino_write_ok i _ (set_ic_lock lk s) Hi)).
  match goal with |- context [upd_ino i ?f ?z] => assert (set_ic_lock free_lock (upd_ino i f z) = set_flags i (Z.lor fl I_BUSY) s) as Es end.
  { unfold set_flags, upd_ino. fs_cbn. rewrite Hf. unfold set_inodes, set_ic_lock. fs_cbn. by rewrite Hl. }
  unfold ic_release. rewrite release_bind, Es. rewrite (bind_ok _ _ _ _ _ (ino_read_ok i i_flags _ Hi)).
  assert (i_flags (inodes (set_flags i (Z.lor fl I_BUSY) s) !!! i) = Z.lor fl I_BUSY) as Ef
    by (unfold set_flags; rewrite upd_ino_lookup; by dec_refl).
  rewrite Ef. done.
Qed.

(** A valid inode is locked without reading it. *)
Lemma inode_lock_valid s i :
  fk_inv (kern s) -> cached s i I_VALID -> inode_lock (PInode i) s = Ok (tt, set_flags i 3 s).
Proof. intros Hk U. by rewrite (inode_lock_begin s i I_VALID Hk U) by done. Qed.

(** One that has not been read yet is read from disk. *)
Lemma inode_lock_read tx V0 s st sz ents V H fsz nino i (x := inodes s !!! i) :
  trep tx V0 s st sz ents V ∅ H -> geometry V fsz nino st sz -> cached s i 0 -> i_dev x = ROOTDEV ->
  0 <= i_inum x < nino -> H !! IBLOCK (i_inum x) = None -> (length ents + size H <= 9)%nat ->
  exists s', inode_lock (PInode i) s
      = (if decide (i_type (disk_inode V (i_inum x) x) = 0) then panic "inode_lock: no type" else mret tt) s'
    /\ trep tx V0 s' st sz ents V ∅ H /\ iframe i s s'
    /\ inodes s' !!! i = set_i_flags 3 (disk_inode V (i_inum x) x).
Proof.
  intros R G U Hdev Hj Hno Hn. pose proof (ca_index _ _ _ U) as Hi. pose proof (iblock_loggable fsz nino st sz V _ G Hj) as [Hh _].
  rewrite (inode_lock_begin s i 0 (trep_kern _ _ _ _ _ _ _ _ _ R) U) by done. change (Z.lor 0 I_BUSY) with 1.
  rewrite decide_True by done. set (s1 := set_flags i 1 s).
  assert (trep tx V0 s1 st sz ents V ∅ H) as R1 by (by apply trep_upd_ino).
  assert (inodes s1 !!! i = set_i_flags 1 x) as E1 by (unfold s1, set_flags; rewrite upd_ino_lookup; by dec_refl).
  rewrite (bind_ok _ _ _ _ _ (ino_read_ok i id s1 Hi)). unfold id. rewrite E1. cbn [set_i_flags i_dev i_inum]. rewrite Hdev.
  rewrite (home_u32 _ (proj1 Hh)).
  destruct (tget tx V0 st sz s1 ents V ∅ H _ R1 Hh Hno Hn) as (bp & s2 & E2 & R2 & S2). rewrite (bind_ok _ _ _ _ _ E2).
  rewrite (bind_ok _ _ _ _ _ (tdata _ _ _ _ _ _ _ _ _ _ _ R2 (lookup_insert_eq _ _ _))).
  rewrite (bind_ok _ _ _ _ _ (ino_write_ok i _ s2 Hi)). set (s3 := upd_ino i _ s2).
  assert (trep tx V0 s3 st sz ents V ∅ (<[IBLOCK (i_inum x) := bp]> H)) as R3 by (by apply trep_upd_ino).
  destruct (tput tx V0 st sz s3 ents V ∅ H _ bp R3 Hno (not_elem_of_empty _)) as (s4 & E4 & R4 & S4).
  rewrite (bind_ok _ _ _ _ _ E4), (bind_ok _ _ _ _ _ (ino_write_ok i _ s4 Hi)). set (s5 := upd_ino i _ s4).
  assert (inodes s5 !!! i = set_i_flags 3 (disk_inode V (i_inum x) x)) as E5.
  { unfold s5. rewrite upd_ino_lookup. dec_refl. rewrite (sr_inodes _ _ S4). unfold s3. rewrite upd_ino_lookup. dec_refl.
    rewrite (sr_inodes _ _ S2), E1. done. }
  rewrite (bind_ok _ _ _ _ _ (ino_read_ok i i_type s5 Hi)), E5.
  exists s5. split; [done|]. split; [by apply trep_upd_ino|]. split; [|done].
  eapply iframe_trans; [apply (is_frame _ _ _ _ (set_flags_set i 1 s))|]. eapply iframe_trans; [apply iframe_rest, S2|].
  eapply iframe_trans; [apply iframe_upd|]. eapply iframe_trans; [apply iframe_rest, S4|apply iframe_upd].
Qed.

Lemma inode_lock_load tx V0 s st sz ents V H fsz nino i (x := inodes s !!! i) :
  trep tx V0 s st sz ents V ∅ H -> geometry V fsz nino st sz -> cached s i 0 -> i_dev x = ROOTDEV ->
  0 <= i_inum x < nino -> H !! IBLOCK (i_inum x) = None -> (length ents + size H <= 9)%nat ->
  i_type (disk_inode V (i_inum x) x) <> 0 ->
  exists s', inode_lock (PInode i) s = Ok (tt, s') /\ trep tx V0 s' st sz ents V ∅ H /\ iframe i s s'
    /\ inodes s' !!! i = set_i_flags 3 (disk_inode V (i_inum x) x).
Proof.
  intros R G U Hdev Hj Hno Hn Ht. destruct (inode_lock_read tx V0 s st sz ents V H fsz nino i R G U Hdev Hj Hno Hn) as (s' & E & Hr).
  exists s'. rewrite decide_False in E by exact Ht. done.
Qed.

Lemma inode_unlock_spec s i (x := inodes s !!! i) :
  fk_inv (kern s) -> cached s i 3 ->
  exists s', inode_unlock (PInode i) s = Ok (tt, s') /\ ino_set i (set_i_flags I_VALID x) s s'.
Proof.
  intros Hk [Hl Hi Hr Hf]. unfold inode_unlock. rewrite decide_False by done.
  rewrite (bind_ok _ _ _ _ _ (ino_read_ok i id s Hi)). unfold id.
  rewrite (decide_False (P := _ \/ _)) by (rewrite Hf; intros [C|C]; [done|lia]).
  destruct (ic_section s Hk Hl) as [lk E]. rewrite (bind_ok _ _ _ _ _ E).
  rewrite (bind_ok _ _ _ _ _ (ino_write_ok i _ (set_ic_lock lk s) Hi)).
  match goal with |- context [mbind ?k (wakeup ?c) ?z] =>
    destruct (wakeup_ok c z Hk) as (t & E' & Ht & Hm); rewrite (bind_ok _ k _ _ _ E') end.
  unfold ic_release. rewrite release_ok. eexists. split; [reflexivity|].
  split; [by split|unfold upd_ino; fs_cbn; by rewrite Hf|]. unfold upd_ino. split; fs_cbn; try done.
  intros j Hj. by rewrite lookup_total_insert_ne.
Qed.
End Locks.

(** ** Contents of a file after a write *)
Section Written.
Context (fsz nino st sz : Z).
Notation geo V := (geometry V fsz nino st sz).

(** The file [x] on disk [V] has become [x'] on disk [V'] by storing [n] bytes
    [f] at [off]; the other inodes and the blocks of other files are the
    same. *)
Record written (off n : Z) (f : Z -> Z) (V : Z -> list Z) (x : inode) (V' : Z -> list Z) (x' : inode) : Prop := {
  wn_geo : geo V';
  wn_open : open_file fsz nino st V' x';
  wn_same : same_file x x';
  wn_size : i_size x' = Z.max (i_size x) (off + n);
  wn_byte o : 0 <= o < 140 * BSIZE -> fbyte V' (i_addrs x') o =
    if decide (off <= o < off + n) then f (o - off) else fbyte V (i_addrs x) o;
  wn_used z : inuse fsz nino V z = true -> inuse fsz nino V' z = true;
  wn_own z : owned V' (i_addrs x') z -> owned V (i_addrs x) z \/ inuse fsz nino V z = false;
  wn_other z : z <> 0 -> inuse fsz nino V z = true -> ~ bitmap fsz nino z -> ~ owned V (i_addrs x) z ->
    z <> IBLOCK (i_inum x) -> V' z = V z;
  wn_inodes j y : 0 <= j < nino -> j <> i_inum x -> same_disk (disk_inode V j y) (disk_inode V' j y);
}.

Lemma same_file_trans x y z : same_file x y -> same_file y z -> same_file x z.
Proof. unfold same_file. intros -> ->. by destruct x. Qed.
Lemma same_file_inum x y : same_file x y -> i_inum y = i_inum x.
Proof. intros ->. by destruct x. Qed.

Lemma written_refl off f V x : geo V -> open_file fsz nino st V x -> 0 <= off <= i_size x -> written off 0 f V x V x.
Proof.
  intros G O Ho. split; try done; [apply same_file_refl|lia| |by left].
  intros o _. by rewrite decide_False by lia.
Qed.

Lemma written_fix off n f g V x V' x' :
  (forall j, 0 <= j < n -> f j = g j) -> written off n f V x V' x' -> written off n g V x V' x'.
Proof.
  intros E []. split; try done. intros o Ho. rewrite wn_byte0 by done. case_decide; [|done]. apply E. lia.
Qed.

Lemma written_trans off n1 n2 f V x V1 x1 V2 x2 :
  0 <= n1 -> 0 <= n2 ->
  written off n1 f V x V1 x1 -> written (off + n1) n2 (fun k => f (n1 + k)) V1 x1 V2 x2 ->
  written off (n1 + n2) f V x V2 x2.
Proof.
  intros H1 H2 A B. pose proof (same_file_inum _ _ (wn_same _ _ _ _ _ _ _ A)) as Ei. split.
  - exact (wn_geo _ _ _ _ _ _ _ B).
  - exact (wn_open _ _ _ _ _ _ _ B).
  - eapply same_file_trans; [apply A|apply B].
  - rewrite (wn_size _ _ _ _ _ _ _ B), (wn_size _ _ _ _ _ _ _ A). lia.
  - intros o Ho. rewrite (wn_byte _ _ _ _ _ _ _ B), (wn_byte _ _ _ _ _ _ _ A) by done.
    repeat case_decide; try lia; try done. f_equal. lia.
  - intros z Hz. by apply (wn_used _ _ _ _ _ _ _ B), (wn_used _ _ _ _ _ _ _ A).
  - intros z [Hz|Hz]%(wn_own _ _ _ _ _ _ _ B); [by apply (wn_own _ _ _ _ _ _ _ A)|]. right.
    destruct (inuse fsz nino V z) eqn:E; [|done]. rewrite (wn_used _ _ _ _ _ _ _ A z E) in Hz. done.
  - intros z H0 Hu Hb Hn Hi. rewrite (wn_other _ _ _ _ _ _ _ B); [by apply (wn_other _ _ _ _ _ _ _ A)|done| |done| |congruence].
    + by apply (wn_used _ _ _ _ _ _ _ A).
    + intros [C|C]%(wn_own _ _ _ _ _ _ _ A); [done|congruence].
  - intros j y Hj Hne. eapply same_disk_trans; [by apply (wn_inodes _ _ _ _ _ _ _ A)|].
    apply (wn_inodes _ _ _ _ _ _ _ B); [done|congruence].
Qed.
End Written.

Lemma open_file_flags fsz nino st V x fl : open_file fsz nino st V x -> open_file fsz nino st V (set_i_flags fl x).
Proof. intros [[] [] ? []]. by split; [split|split| |split]. Qed.

(** ** One transaction of file_write *)
Section Chunk.
Context {T : Type} `{!FsKernel T} `{!FsKernelLaws T}.
Context (fsz nino st sz : Z) (Hone : fsz <= BPB).
Implicit Types s : fsys T.
Notation geo V := (geometry V fsz nino st sz).
Notation avl V n := (avail fsz nino st V n).

Lemma fl_read_ok {A} fi (f : file -> A) s : 0 <= fi < NFILE -> fl_read (PFile fi) f s = Ok (f (files s !!! fi), s).
Proof. intros Hi. unfold fl_read, file_at. by rewrite !bind_assoc, (bind_ok _ _ _ _ _ (check_index_ok _ _ _ Hi)). Qed.
Lemma fl_write_ok fi f s : 0 <= fi < NFILE -> fl_write (PFile fi) f s = Ok (tt, upd_file fi f s).
Proof. intros Hi. unfold fl_write, file_at. by rewrite !bind_assoc, (bind_ok _ _ _ _ _ (check_index_ok _ _ _ Hi)). Qed.

(** File [fi] is open on inode [i] at [off], and nobody is using the inode. *)
Record ready s V (i fi off : Z) : Prop := {
  rd_irep : irep s st sz V;
  rd_geo : geo V;
  rd_cached : cached s i I_VALID;
  rd_open : open_file fsz nino st V (inodes s !!! i);
  rd_index : 0 <= fi < NFILE;
  rd_off : fl_off (files s !!! fi) = off;
  rd_bound : 0 <= off <= i_size (inodes s !!! i);
}.

(** What stays: the other inodes and files, and memory *)
Record wframe (i fi : Z) s s' : Prop := {
  wf_file : files s' !!! fi = set_fl_off (fl_off (files s' !!! fi)) (files s !!! fi);
  wf_files j : j <> fi -> files s' !!! j = files s !!! j;
  wf_inodes j : j <> i -> inodes s' !!! j = inodes s !!! j;
  wf_mem : fk_mem (kern s') = fk_mem (kern s);
  wf_ft_lock : ft_lock s' = ft_lock s;
}.
Lemma wframe_refl i fi s : wframe i fi s s.
Proof. split; try done. by destruct (files s !!! fi). Qed.
Lemma wframe_rest i fi s s' : same_rest_l s s' -> wframe i fi s s'.
Proof. intros [_ Ei El Ef Em]. split; rewrite ?Ei, ?Ef; try done. by destruct (files s !!! fi). Qed.
Lemma wframe_trans i fi s1 s2 s3 : wframe i fi s1 s2 -> wframe i fi s2 s3 -> wframe i fi s1 s3.
Proof.
  intros [] []. split; try congruence.
  - rewrite wf_file1, wf_file0. by destruct (files s1 !!! fi).
  - intros j Hj. by rewrite wf_files1, wf_files0.
  - intros j Hj. by rewrite wf_inodes1, wf_inodes0.
Qed.

Lemma spans_chunk off n : 0 <= off -> 0 < n <= max_write -> spans off n <= 4.
Proof.
  intros Ho Hn. change max_write with 1536 in Hn. unfold spans, BSIZE. rewrite decide_False by lia.
  pose proof (Z.div_le_mono (off + n - 1) (off + 3 * 512) 512 ltac:(lia) ltac:(lia)) as H.
  rewrite Z.div_add in H by lia. lia.
Qed.

(** The statements of an iteration between [begin_trans] and [commit_trans] *)
Definition write_chunk (f ip : ptr) (src n1 : Z) : M (fsys T) Z :=
  inode_lock ip ;;
  off ← fl_read f fl_off;
  r ← inode_write ip src off n1;
  (if decide (r > 0) then fl_write f (fun x => set_fl_off (u32 (fl_off x + r)) x) else mret tt) ;;
  inode_unlock ip ;;
  mret r.

Lemma written_of tx V0 k i off n f s V s' V' ents C :
  file_written tx V0 fsz nino st sz k i off n f s V s' V' ents C ->
  written fsz nino st sz off n f V (inodes s !!! i) V' (inodes s' !!! i).
Proof. intros [? ? ? ? ? ? ? ? ? ? ? ? ?]. by split. Qed.
(** While it is locked the inode has other flags. *)
Lemma written_unlocked tx V0 k i off n f s V s' V' ents C x :
  file_written tx V0 fsz nino st sz k i off n f s V s' V' ents C -> inodes s !!! i = set_i_flags 3 x ->
  written fsz nino st sz off n f V x V' (set_i_flags (i_flags x) (inodes s' !!! i)).
Proof.
  intros H%written_of E. rewrite E in H. destruct H as [? Hop Hsm ? ? ? ? ? ?]. split; try done.
  - by apply open_file_flags.
  - unfold same_file in *. destruct x, (inodes s' !!! i). cbn in *. injection Hsm. intros. subst. done.
Qed.

(** The iteration while the transaction is open *)
Lemma chunk_inside s1 s V i fi off src n1 :
  trep (mk_txn 1 (past s)) V s1 st sz [] V ∅ ∅ -> same_rest_l s s1 -> ready s V i fi off ->
  0 < n1 <= max_write -> off + n1 <= 140 * BSIZE -> avl V 8 ->
  exists s2 V' ents, write_chunk (PFile fi) (PInode i) src n1 s1 = Ok (n1, s2)
    /\ trep (mk_txn 1 (past s)) V s2 st sz ents V' ∅ ∅ /\ (length ents <= 9)%nat
    /\ written fsz nino st sz off n1 (fun k => fk_mem (kern s) !!! (src + k)) V (inodes s !!! i) V' (inodes s2 !!! i)
    /\ cached s2 i I_VALID /\ wframe i fi s s2 /\ fl_off (files s2 !!! fi) = off + n1
    /\ forall m, avl V (8 + m) -> avl V' m.
Proof.
  intros T1 S1 [I G [Cl Ci Cr Cf] O Hfi Hoff Hb] Hn Hmax Hav. unfold write_chunk.
  assert (cached s1 i I_VALID) as C1.
  { split; rewrite ?(srl_ic_lock _ _ S1), ?(srl_inodes _ _ S1); done. }
  rewrite (bind_ok _ _ _ _ _ (inode_lock_valid s1 i (trep_kern _ _ _ _ _ _ _ _ _ T1) C1)).
  set (s2 := set_flags i 3 s1). assert (trep (mk_txn 1 (past s)) V s2 st sz [] V ∅ ∅) as T2 by (by apply trep_upd_ino).
  set (x := inodes s !!! i) in *.
  assert (inodes s2 !!! i = set_i_flags 3 x) as E2 by (unfold s2, set_flags; rewrite upd_ino_lookup; dec_refl; by rewrite (srl_inodes _ _ S1)).
  assert (files s2 = files s) as Ef2 by apply S1.
  rewrite (bind_ok _ _ _ _ _ (fl_read_ok fi fl_off s2 Hfi)), Ef2, Hoff.
  pose proof (spans_chunk off n1 ltac:(lia) Hn) as Hsp. pose proof (spans_pos off n1 ltac:(lia)) as Hsp0.
  destruct (inode_write_spec (mk_txn 1 (past s)) V fsz nino st sz eq_refl Hone s2 [] V ∅ i src off n1)
    as (s3 & V' & ents & C & E3 & W & HC); rewrite ?E2; try done.
  { by apply open_file_flags. } { lia. }
  { eapply avail_le; [|exact Hav]. lia. } { by intros y []%elem_of_nil. }
  rewrite (bind_ok _ _ _ _ _ E3). rewrite decide_True by lia. rewrite (bind_ok _ _ _ _ _ (fl_write_ok fi _ s3 Hfi)).
  set (s4 := upd_file fi _ s3). pose proof (fw_frame _ _ _ _ _ _ _ _ _ _ _ _ _ _ _ _ _ W) as F3.
  assert (cached s4 i 3) as C4.
  { pose proof (fw_same _ _ _ _ _ _ _ _ _ _ _ _ _ _ _ _ _ W) as Hsm. rewrite E2 in Hsm.
    split; [etransitivity; [exact (if_ic_lock _ _ _ F3)|apply C1]|done| |].
    - change (1 <= i_ref (inodes s3 !!! i)). rewrite Hsm. exact Cr.
    - change (i_flags (inodes s3 !!! i) = 3). by rewrite Hsm. }
  assert (files s4 !!! fi = set_fl_off (off + n1) (files s !!! fi)) as Ef4.
  { unfold s4, upd_file. fs_look. rewrite (if_files _ _ _ F3), Ef2, Hoff. rewrite u32_id; [done|]. unfold BSIZE, W32 in *; lia. }
  assert (same_blocks s3 s4) as B4 by (by split).
  pose proof (trep_blocks _ _ _ _ _ _ _ _ _ _ B4 (fw_tr _ _ _ _ _ _ _ _ _ _ _ _ _ _ _ _ _ W)) as T4.
  destruct (inode_unlock_spec s4 i (trep_kern _ _ _ _ _ _ _ _ _ T4) C4) as (s5 & E5 & [B5 I5 F5]).
  rewrite (bind_ok _ _ _ _ _ E5). exists s5, V', ents. split; [done|].
  assert (inodes s5 !!! i = set_i_flags (i_flags x) (inodes s3 !!! i)) as Ei5
    by (rewrite I5, lookup_total_insert_eq; by rewrite Cf).
  split_and!.
  - by eapply trep_blocks.
  - pose proof (covered_length fsz nino C ents _ Hone (tr_nodup _ _ _ _ _ _ _ _ _ T4) (fw_covered _ _ _ _ _ _ _ _ _ _ _ _ _ _ _ _ _ W)).
    rewrite size_empty in HC. lia.
  - rewrite Ei5. pose proof (written_unlocked _ _ _ _ _ _ _ _ _ _ _ _ _ _ W E2) as Hw.
    rewrite (if_mem _ _ _ (is_frame _ _ _ _ (set_flags_set i 3 s1))) in Hw. by rewrite (srl_mem _ _ S1) in Hw.
  - destruct C4 as [H1 _ H3 _]. split; [by rewrite (if_ic_lock _ _ _ F5)|done| |]; rewrite I5, lookup_total_insert_eq; done.
  - split.
    + rewrite (if_files _ _ _ F5), Ef4. by destruct (files s !!! fi).
    + intros j Hj. rewrite (if_files _ _ _ F5). unfold s4, upd_file. fs_cbn.
      rewrite lookup_total_insert_ne by done. by rewrite (if_files _ _ _ F3), Ef2.
    + intros j Hj. rewrite I5, lookup_total_insert_ne by done. change (inodes s3 !!! j = inodes s !!! j).
      rewrite (if_inodes _ _ _ F3) by done. unfold s2, set_flags. rewrite upd_ino_lookup, decide_False by done. by rewrite (srl_inodes _ _ S1).
    + rewrite (if_mem _ _ _ F5). etransitivity; [exact (if_mem _ _ _ F3)|apply S1].
    + rewrite (if_ft_lock _ _ _ F5). etransitivity; [exact (if_ft_lock _ _ _ F3)|apply S1].
  - by rewrite (if_files _ _ _ F5), Ef4.
  - intros m Hm. apply (fw_avail _ _ _ _ _ _ _ _ _ _ _ _ _ _ _ _ _ W). eapply avail_le; [|exact Hm]. lia.
Qed.

(** A whole iteration *)
Lemma chunk_loop s fuel V i fi off addr k n (n1 := if decide (n - k > max_write) then max_write else n - k) :
  ready s V i fi off -> k < n -> off + n1 <= 140 * BSIZE -> avl V 8 ->
  exists s' V' hist, file_write_loop (S fuel) (PFile fi) (PInode i) addr k n s
      = file_write_loop fuel (PFile fi) (PInode i) addr (k + n1) n s'
    /\ ready s' V' i fi (off + n1) /\ wframe i fi s s'
    /\ written fsz nino st sz off n1 (fun j => fk_mem (kern s) !!! (addr + k + j)) V (inodes s !!! i) V' (inodes s' !!! i)
    /\ (forall m, avl V (8 + m) -> avl V' m)
    /\ past s' = hist ++ past s
    /\ forall im, im ∈ disk s' :: hist -> restarts_to T im st sz V \/ restarts_to T im st sz V'.
Proof.
  intros Rd Hk Hmax Hav. assert (0 < n1 <= max_write) as Hn1.
  { unfold n1. assert (max_write = 1536) as E by done. case_decide; lia. }
  destruct (begin_trans_spec s st sz V (rd_irep _ _ _ _ _ Rd)) as (s1 & E1 & T1 & S1).
  destruct (chunk_inside s1 s V i fi off (addr + k) n1 T1 S1 Rd Hn1 Hmax Hav)
    as (s2 & V' & ents & E2 & T2 & Hl & W & C2 & F2 & Hoff2 & Hav2).
  destruct (tcommit s2 _ V st sz ents V' T2 eq_refl Hl) as (s3 & hist & E3 & I3 & S3 & P3 & At).
  exists s3, V', hist. split; [|split_and!].
  - cbn [file_write_loop]. rewrite decide_True by done. rewrite (bind_ok _ _ _ _ _ E1). fold n1. unfold write_chunk in E2.
    apply bind_inv in E2 as ([] & z1 & Ea & E2). rewrite (bind_ok _ _ _ _ _ Ea).
    apply bind_inv in E2 as (o & z2 & Eb & E2). rewrite (bind_ok _ _ _ _ _ Eb).
    apply bind_inv in E2 as (r & z3 & Ec & E2). rewrite (bind_ok _ _ _ _ _ Ec).
    apply bind_inv in E2 as ([] & z4 & Ed & E2). rewrite (bind_ok _ _ _ _ _ Ed).
    apply bind_inv in E2 as ([] & z5 & Ee & E2). rewrite (bind_ok _ _ _ _ _ Ee).
    injection E2 as -> ->. rewrite (bind_ok _ _ _ _ _ E3). rewrite (decide_False (P := n1 < 0)) by lia.
    by rewrite decide_False by (intros C; by apply C).
  - destruct C2. split; try done; rewrite ?(srl_inodes _ _ S3), ?(srl_files _ _ S3).
    + exact (wn_geo _ _ _ _ _ _ _ _ _ _ _ W).
    + split; rewrite ?(srl_inodes _ _ S3), ?(srl_ic_lock _ _ S3); done.
    + exact (wn_open _ _ _ _ _ _ _ _ _ _ _ W).
    + by apply Rd.
    + done.
    + rewrite (wn_size _ _ _ _ _ _ _ _ _ _ _ W). pose proof (rd_bound _ _ _ _ _ Rd). lia.
  - eapply wframe_trans; [exact F2|by apply wframe_rest].
  - by rewrite (srl_inodes _ _ S3).
  - done.
  - done.
  - intros im Him. destruct (At im Him) as (c & Hc & [Hr|Hr]); [left|right];
      (eapply recoverable_restarts; [apply I3| |done..]); eapply geometry_sb; [apply Rd|exact (wn_geo _ _ _ _ _ _ _ _ _ _ _ W)].
Qed.

Lemma irep_restarts s V : irep s st sz V -> geo V -> restarts_to T (disk s) st sz V.
Proof.
  intros (Hl & dk & C & _ & Hh & HV) G. eapply recoverable_restarts; [done|by eapply geometry_sb|by eapply crep_img|].
  apply recoverable_empty; [done| |done|intros; by rewrite HV]. apply (cr_len _ _ _ _ _ C). by apply layout_st in Hl.
Qed.

(** What the loop does from its counter [k] on, with the state of the disk at
    every crash *)
Definition loop_post (i fi addr n : Z) (f : Z -> Z) (fuel : nat) s V (off k : Z) : Prop :=
  exists s' V' hist, file_write_loop fuel (PFile fi) (PInode i) addr k n s = Ok (n, s')
    /\ ready s' V' i fi (off + (n - k)) /\ wframe i fi s s'
    /\ written fsz nino st sz off (n - k) (fun j => f (k + j)) V (inodes s !!! i) V' (inodes s' !!! i)
    /\ past s' = hist ++ past s
    /\ forall im, im ∈ disk s' :: hist -> exists m W y, 0 <= m <= n - k /\ restarts_to T im st sz W
         /\ written fsz nino st sz off m (fun j => f (k + j)) V (inodes s !!! i) W y.

Lemma loop_post_done i fi addr n f fuel s V off : ready s V i fi off -> loop_post i fi addr n f fuel s V off n.
Proof.
  intros Rd. unfold loop_post. rewrite Z.sub_diag, Z.add_0_r. exists s, V, [].
  split; [destruct fuel; cbn [file_write_loop]; by rewrite decide_False by lia|].
  split; [done|]. split; [apply wframe_refl|].
  assert (written fsz nino st sz off 0 (fun j => f (n + j)) V (inodes s !!! i) V (inodes s !!! i)) as W
    by (apply written_refl; apply Rd).
  split; [done|]. split; [done|]. intros im Him%list_elem_of_singleton. subst im. exists 0, V, (inodes s !!! i).
  split; [lia|]. split; [|done]. apply irep_restarts; apply Rd.
Qed.

(** One iteration, then the rest *)
Lemma loop_post_step i fi addr n f fuel s V off k n1 s1 V1 h1 :
  file_write_loop (S fuel) (PFile fi) (PInode i) addr k n s
      = file_write_loop fuel (PFile fi) (PInode i) addr (k + n1) n s1 -> 0 <= n1 <= n - k ->
  wframe i fi s s1 -> written fsz nino st sz off n1 (fun j => f (k + j)) V (inodes s !!! i) V1 (inodes s1 !!! i) ->
  past s1 = h1 ++ past s ->
  (forall im, im ∈ h1 -> restarts_to T im st sz V \/ restarts_to T im st sz V1) ->
  geo V -> open_file fsz nino st V (inodes s !!! i) -> 0 <= off <= i_size (inodes s !!! i) ->
  loop_post i fi addr n f fuel s1 V1 (off + n1) (k + n1) -> loop_post i fi addr n f (S fuel) s V off k.
Proof.
  intros E1 Hn1 F1 W1 P1 C1 G O Hoff (s2 & V2 & h2 & E2 & Rd2 & F2 & W2 & P2 & C2).
  replace (off + n1 + (n - (k + n1))) with (off + (n - k)) in Rd2 by lia.
  replace (n - (k + n1)) with (n - k - n1) in * by lia.
  assert (forall m W y, 0 <= m ->
    written fsz nino st sz (off + n1) m (fun j => f (k + n1 + j)) V1 (inodes s1 !!! i) W y ->
    written fsz nino st sz off (n1 + m) (fun j => f (k + j)) V (inodes s !!! i) W y) as Hjoin.
  { intros m W y Hm Hw. eapply written_trans; [lia|done|exact W1|]. eapply written_fix; [|exact Hw]. intros j Hj. by rewrite Z.add_assoc. }
  exists s2, V2, (h2 ++ h1). rewrite E1. split; [done|]. split; [done|]. split; [by eapply wframe_trans|].
  split; [replace (n - k) with (n1 + (n - k - n1)) by lia; apply Hjoin; [lia|done]|].
  split; [by rewrite P2, P1, app_assoc|]. intros im Him.
  assert (im ∈ disk s2 :: h2 \/ im ∈ h1) as [H|H] by (rewrite elem_of_cons, elem_of_app in Him; rewrite elem_of_cons; tauto).
  - destruct (C2 im H) as (m & W & y & Hm & Hr & Hw). exists (n1 + m), W, y. split; [lia|]. split; [done|]. apply Hjoin; [lia|done].
  - destruct (C1 im H) as [Hr|Hr]; [exists 0, V, (inodes s !!! i)|exists n1, V1, (inodes s1 !!! i)].
    + split; [lia|]. split; [done|]. by apply written_refl.
    + split; [lia|]. done.
Qed.

Lemma file_write_loop_spec i fi addr n f : forall fuel s V off k,
  ready s V i fi off -> 0 <= k <= n -> off + (n - k) <= 140 * BSIZE -> n - k <= Z.of_nat fuel * max_write ->
  (forall j, k <= j < n -> fk_mem (kern s) !!! (addr + j) = f j) ->
  avl V (8 * Z.to_nat ((n - k + max_write - 1) / max_write)) ->
  loop_post i fi addr n f fuel s V off k.
Proof.
  induction fuel as [|fuel IH]; intros s V off k Rd Hk Hmax Hfuel Hmem Hav;
    [assert (k = n) as -> by lia; by apply loop_post_done|].
  destruct (decide (k < n)) as [Hlt|Hge].
  - set (n1 := if decide (n - k > max_write) then max_write else n - k).
    assert (0 < n1 <= n - k /\ n - k - n1 <= Z.of_nat fuel * max_write
      /\ ((n - k + max_write - 1) / max_write) = (n - k - n1 + max_write - 1) / max_write + 1
      /\ 0 <= (n - k - n1 + max_write - 1) / max_write) as (Hn1 & Hfuel' & Hch & Hch0).
    { unfold n1. change max_write with 1536 in *. case_decide; (split; [lia|]; split; [lia|]; split).
      - replace (n - k + 1536 - 1) with (n - k - 1536 + 1536 - 1 + 1 * 1536) by lia. rewrite Z.div_add by lia. lia.
      - apply Z.div_pos; lia.
      - replace (n - k - (n - k) + 1536 - 1) with 1535 by lia. rewrite (Z.div_small 1535) by lia.
        symmetry. apply Z.div_unique with (n - k - 1); lia.
      - apply Z.div_pos; lia. }
    destruct (chunk_loop s fuel V i fi off addr k n Rd Hlt) as (s1 & V1 & h1 & E1 & Rd1 & F1 & W1 & Av1 & P1 & C1);
      [fold n1; lia|eapply avail_le; [|exact Hav]; rewrite Hch; lia|]. fold n1 in E1, Rd1, W1.
    apply (written_fix _ _ _ _ _ _ _ (fun j => f (k + j))) in W1; [|intros j Hj; rewrite <- Hmem by lia; f_equal; lia].
    eapply loop_post_step; [exact E1|lia|exact F1|exact W1|exact P1| |apply Rd..|].
    { intros im Him. apply C1. by right. }
    apply IH; [exact Rd1|lia|lia|lia| |].
    { intros j Hj. rewrite (wf_mem _ _ _ _ F1). apply Hmem. lia. }
    { apply Av1. eapply avail_le; [|exact Hav]. rewrite Hch. replace (n - (k + n1)) with (n - k - n1) by lia. lia. }
  - assert (k = n) as -> by lia. by apply loop_post_done.
Qed.

(** ** file_write and file_read *)
Record opened s (fi i : Z) : Prop := {
  op_type : fl_type (files s !!! fi) = FD_INODE;
  op_ip : fl_ip (files s !!! fi) = PInode i;
}.

(** Disk blocks a write of [n] bytes may have to allocate: eight per chunk *)
Definition need (n : Z) : nat := 8 * Z.to_nat ((n + max_write - 1) / max_write).

Lemma file_write_spec s V i fi off addr n :
  ready s V i fi off -> opened s fi i -> fl_writable (files s !!! fi) <> 0 ->
  0 <= n -> off + n <= 140 * BSIZE -> avl V (need n) ->
  exists s' V' hist, file_write (PFile fi) addr n s = Ok (n, s')
    /\ ready s' V' i fi (off + n) /\ wframe i fi s s'
    /\ written fsz nino st sz off n (fun j => fk_mem (kern s) !!! (addr + j)) V (inodes s !!! i) V' (inodes s' !!! i)
    /\ past s' = hist ++ past s
    /\ forall im, im ∈ disk s' :: hist -> exists m W y, 0 <= m <= n /\ restarts_to T im st sz W
         /\ written fsz nino st sz off m (fun j => fk_mem (kern s) !!! (addr + j)) V (inodes s !!! i) W y.
Proof.
  intros Rd [Ht Hip] Hw Hn Hmax Hav. unfold file_write. rewrite (bind_ok _ _ _ _ _ (fl_read_ok fi id s (rd_index _ _ _ _ _ Rd))).
  unfold id. rewrite (decide_False (P := _ = 0)) by done. rewrite decide_True by done. rewrite Hip.
  destruct (file_write_loop_spec i fi addr n (fun j => fk_mem (kern s) !!! (addr + j)) (file_write_fuel n) s V off 0 Rd)
    as (s' & V' & hist & E & R & F & W & P & C); rewrite ?Z.sub_0_r in *; try done.
  { unfold file_write_fuel. pose proof (Z.div_mod n max_write ltac:(done)) as Hd.
    pose proof (Z.mod_pos_bound n max_write ltac:(done)). pose proof (Z.div_pos n max_write ltac:(done) ltac:(done)).
    change max_write with 1536 in *. lia. }
  rewrite (bind_ok _ _ _ _ _ E). rewrite decide_True by done. exists s', V', hist. done.
Qed.

(** Moving the offset of a file *)
Lemma advance_spec s fi r :
  0 <= fi < NFILE -> 0 <= r -> 0 <= fl_off (files s !!! fi) + r < W32 ->
  exists s', (if decide (r > 0) then fl_write (PFile fi) (fun x => set_fl_off (u32 (fl_off x + r)) x) else mret tt) s = Ok (tt, s')
    /\ same_blocks s s' /\ inodes s' = inodes s /\ ic_lock s' = ic_lock s /\ kern s' = kern s
    /\ fl_off (files s' !!! fi) = fl_off (files s !!! fi) + r.
Proof.
  intros Hfi Hr Hw. destruct (decide (r > 0)) as [Hp|Hp].
  - eexists. split; [by apply fl_write_ok|]. split; [by split|]. split_and!; [done..|].
    unfold upd_file. fs_look. cbn. by rewrite u32_id.
  - exists s. split; [done|]. split; [by split|]. split_and!; [done..|lia].
Qed.

Lemma file_read_spec s V i fi off dst n (r := Z.min n (i_size (inodes s !!! i) - off)) :
  ready s V i fi off -> opened s fi i -> fl_readable (files s !!! fi) <> 0 -> 0 <= n < 2 ^ 31 ->
  exists s', file_read (PFile fi) dst n s = Ok (r, s') /\ ready s' V i fi (off + r)
    /\ inodes s' !!! i = inodes s !!! i
    /\ patched (fk_mem (kern s)) (fk_mem (kern s')) dst r (fun k => fbyte V (i_addrs (inodes s !!! i)) (off + k)).
Proof.
  intros Rd [Ht Hip] Hr Hn. unfold file_read. pose proof (rd_index _ _ _ _ _ Rd) as Hfi.
  rewrite (bind_ok _ _ _ _ _ (fl_read_ok fi id s Hfi)).
  unfold id. rewrite (decide_False (P := _ = 0)) by done. rewrite decide_True by done. rewrite Hip.
  destruct Rd as [I G [Cl Ci Cr Cf] O _ Hoff Hb]. pose proof (irep_trep _ _ _ _ I) as T0.
  rewrite (bind_ok _ _ _ _ _ (inode_lock_valid s i (irep_kern _ _ _ _ I) ltac:(by split))).
  set (s1 := set_flags i 3 s). set (x := inodes s !!! i) in *.
  assert (inodes s1 !!! i = set_i_flags 3 x) as E1 by (unfold s1, set_flags; rewrite upd_ino_lookup; by dec_refl).
  rewrite (bind_ok _ _ _ _ _ (fl_read_ok fi fl_off s1 Hfi)). change (files s1) with (files s). rewrite Hoff.
  rewrite (u32_id n) by (unfold W32; lia).
  pose proof (fo_size _ _ _ _ _ (of_ok _ _ _ _ _ O)) as Hsz.
  destruct (inode_read_spec (mk_txn 0 (past s)) V fsz nino st sz s1 [] V i dst off n) as (s2 & E2 & T2 & F2 & P2);
    rewrite ?E1; try done; [by apply trep_upd_ino|apply open_file_flags, O|cbn; lia|lia|unfold BSIZE, W32 in *; lia|].
  rewrite E1 in E2, P2. change (i_size (set_i_flags 3 x)) with (i_size x) in E2, P2. fold r in E2, P2. rewrite (bind_ok _ _ _ _ _ E2).
  assert (files s2 !!! fi = files s !!! fi) as Ef2 by (by rewrite (rf_files _ _ F2)).
  destruct (advance_spec s2 fi r) as (s3 & E3 & B3 & Ei3 & El3 & Ek3 & Ef3); [done|unfold r; lia|
    rewrite Ef2, Hoff; unfold r, BSIZE, W32 in *; lia|].
  rewrite (bind_ok _ _ _ _ _ E3).
  assert (cached s3 i 3) as C3.
  { split; [rewrite El3, (rf_ic_lock _ _ F2); done|done| |]; rewrite Ei3, (rf_inodes _ _ F2), E1; done. }
  pose proof (trep_blocks _ _ _ _ _ _ _ _ _ _ B3 T2) as T3.
  destruct (inode_unlock_spec s3 i (trep_kern _ _ _ _ _ _ _ _ _ T3) C3) as (s4 & E4 & [B4 I4 F4]).
  rewrite (bind_ok _ _ _ _ _ E4). exists s4. split; [done|].
  assert (inodes s4 !!! i = x) as Ei4.
  { rewrite I4, lookup_total_insert_eq, Ei3, (rf_inodes _ _ F2), E1. destruct x; cbn in *. by rewrite Cf. }
  split; [|split; [done|by rewrite (if_mem _ _ _ F4), Ek3]]. split; rewrite ?Ei4; try done.
  - eapply trep_irep. by eapply trep_blocks.
  - split; rewrite ?Ei4; try done. rewrite (if_ic_lock _ _ _ F4). apply C3.
  - by rewrite (if_files _ _ _ F4), Ef3, Ef2, Hoff.
  - unfold r. fold x. lia.
Qed.
End Chunk.

(** ** A file on the sample disk

    Inode 2 of [Sample] in entry 0 of the inode cache, open for writing as file
    0 (at offset 3) and for reading as file 1. *)
Module Opened.
Definition x : inode := mk_inode 1 2 2 I_VALID T_FILE 0 0 1 5 {[0 := 13]}.
Definition wfile : file := mk_file FD_INODE 1 0 1 (PInode 0) 3.
Definition rfile : file := mk_file FD_INODE 1 1 0 (PInode 0) 0.
Definition open {T} (m : mem) (s : fsys (T * mem)) : fsys (T * mem) :=
  set_kern ((kern s).1, m) (set_files {[0 := wfile; 1 := rfile]} (set_inodes {[0 := x]} (set_ic_lock free_lock s))).

(** An inode with the single block [b] *)
Definition one (b : Z) : gmap Z Z := {[0 := b]}.
Lemma addr b bn : 0 <= bn < 140 -> baddr Sample.V (one b) bn = if decide (bn = 0) then b else 0.
Proof.
  intros Hb. unfold baddr, one. case_decide.
  - case_decide as E; [by subst; rewrite lookup_total_singleton_eq|]. by rewrite lookup_total_singleton_ne.
  - rewrite (decide_True (P := _ = 0)) by done. by rewrite decide_False by lia.
Qed.
Lemma own b z : owned Sample.V (one b) z -> z = b.
Proof.
  intros [Hz [(bn & Hb & E)|E]]; [rewrite addr in E by done; case_decide; congruence|].
  unfold one in E. by rewrite lookup_total_singleton_ne in E.
Qed.
Lemma one_wf b : 12 <= b < 14 -> ino_wf 1000 64 980 Sample.V (one b).
Proof.
  intros Hb. split.
  - intros z ->%own. split; [unfold in_data; change (data_start 1000 64) with 12; lia|].
    unfold inuse. rewrite bool_decide_true by lia. apply BlockProps.sample_first. lia.
  - intros bn bn' Hn Hn'. rewrite !addr by done. repeat case_decide; congruence.
  - intros bn Hn. rewrite addr by done. case_decide; [|done]. unfold one. rewrite lookup_total_singleton_ne by done. by intros.
Qed.
Lemma one_synced (P : Z -> Prop) : Forall P [0;1;2;3;4;5;6;7;8;9;10;11;12] -> forall k, 0 <= k < 13 -> P k.
Proof.
  intros H k Hk. change [0;1;2;3;4;5;6;7;8;9;10;11;12] with (seqZ 0 13) in H. rewrite Forall_forall in H. apply H.
  apply elem_of_seqZ. lia.
Qed.
Lemma one_open y b :
  12 <= b < 14 -> i_addrs y = one b -> i_dev y = ROOTDEV -> i_type y <> T_DEV -> 0 <= i_size y <= 512 -> ino_range y ->
  0 <= i_inum y < 64 -> synced_ino Sample.V y -> open_file 1000 64 980 Sample.V y.
Proof.
  intros Hb Ea Hdev Ht Hsz Hr Hi Hs. split; try done. split; try done.
  - unfold BSIZE. lia.
  - rewrite Ea. by apply one_wf.
  - intros bn Hn Hlt. assert (bn = 0) as -> by (unfold BSIZE in Hlt; lia). rewrite Ea, addr by done. case_decide; lia.
Qed.

Lemma file_open : open_file 1000 64 980 Sample.V x.
Proof.
  apply (one_open x 13); try done.
  - split; try done. apply one_synced. by repeat constructor.
  - split; try by vm_compute. intros k Hk. unfold disk_inode. cbn [i_addrs get_dinode]. rewrite get_addrs_lookup by done.
    revert k Hk. apply one_synced. repeat constructor; by vm_compute.
Qed.

Lemma blocks_free n : (n <= 966)%nat -> avail 1000 64 980 Sample.V n.
Proof.
  intros Hn. split.
  - intros y Hy. change (data_start 1000 64) with 12 in Hy. unfold inuse. rewrite bool_decide_true by lia.
    apply BlockProps.sample_first. lia.
  - assert (length (free_in 1000 64 Sample.V (data_blocks 1000 64 980)) = 966%nat) as -> by (by vm_compute). done.
Qed.

Lemma ready_file (m : mem) (s : fsys (thr * mem)) fi off :
  irep s 980 20 Sample.V -> fi = 0 /\ off = 3 \/ fi = 1 /\ off = 0 ->
  ready 1000 64 980 20 (open m s) Sample.V 0 fi off.
Proof.
  intros I Hfi. split.
  - apply (irep_blocks s); [|done]. by split.
  - exact Sample.geometry_ok.
  - by split.
  - exact file_open.
  - unfold NFILE. lia.
  - by destruct Hfi as [[-> ->]|[-> ->]].
  - assert (i_size (inodes (open m s) !!! 0) = 5) as -> by done. lia.
Qed.
End Opened.

(** Fields read from a block are within the range of their types. *)
Lemma s16_range z : -32768 <= s16 z < 32768.
Proof.
  unfold s16. assert (0 <= u16 z < 65536) by (apply Z.mod_pos_bound; lia). destruct (Z.ltb_spec (u16 z) 32768); lia.
Qed.
Lemma disk_inode_range V j y : ino_range (disk_inode V j y).
Proof.
  unfold disk_inode. split; cbn [get_dinode i_type i_major i_minor i_nlink i_size i_addrs]; try apply s16_range; [apply word_of_range|].
  intros k Hk. rewrite get_addrs_lookup by done. apply word_of_range.
Qed.

(** An inode as it lies on disk, written out field by field: four signed halves,
    the size and the thirteen block addresses, all little endian, in 64 bytes;
    inode [j] is the [j mod 8]-th of block [j / 8 + 2]. *)
Record on_disk := mk_on_disk {
  d_type : Z; d_major : Z; d_minor : Z; d_nlink : Z; d_size : Z; d_addr : Z -> Z
}.
Definition le16 (z : Z) : list Z := [z mod 256; z / 256 mod 256].
Definition le32 (z : Z) : list Z := le16 z ++ le16 (z / 65536).
Definition dinode_bytes (d : on_disk) : list Z :=
  le16 (d_type d) ++ le16 (d_major d) ++ le16 (d_minor d) ++ le16 (d_nlink d) ++ le32 (d_size d)
  ++ flat_map (fun k => le32 (d_addr d k)) (seqZ 0 13).
Definition short (z : Z) : Prop := -32768 <= z < 32768.
Record holds_inode (V : Z -> list Z) (j : Z) (d : on_disk) : Prop := {
  hi_bytes : forall k, 0 <= k < 64 -> at_ (V (j / 8 + 2)) (64 * (j mod 8) + k) = at_ (dinode_bytes d) k;
  hi_type : short (d_type d);
  hi_major : short (d_major d);
  hi_minor : short (d_minor d);
  hi_nlink : short (d_nlink d);
  hi_size : 0 <= d_size d < 2 ^ 32;
  hi_addr : forall k, 0 <= k < 13 -> 0 <= d_addr d k < 2 ^ 32
}.

Lemma half_of_le16 f o z : short z -> f o = z mod 256 -> f (o + 1) = z / 256 mod 256 -> s16 (half_of f o) = z.
Proof.
  intros Hz E0 E1. unfold half_of, u8. rewrite E0, E1, !Z.mod_mod by done. change (2 ^ 8) with 256.
  assert (z mod 256 + 256 * (z / 256 mod 256) = z mod 65536) as -> by (Z.div_mod_to_equations; lia).
  unfold short, s16 in *. unfold u16. rewrite Z.mod_mod by done. case Z.ltb_spec; intros H; Z.div_mod_to_equations; lia.
Qed.
Lemma word_of_le32 f o z :
  0 <= z < 2 ^ 32 -> (forall i, 0 <= i < 4 -> f (o + i) = at_ (le32 z) i) -> word_of f o = z.
Proof.
  intros Hz E. unfold word_of. rewrite <-(Z.add_0_r o) at 1.
  rewrite !E by lia. change (at_ (le32 z) 0) with (z mod 256). change (at_ (le32 z) 1) with (z / 256 mod 256).
  change (at_ (le32 z) 2) with (z / 65536 mod 256). change (at_ (le32 z) 3) with (z / 65536 / 256 mod 256).
  unfold u8. rewrite !Z.mod_mod by done. change (2 ^ 8) with 256. change (2 ^ 16) with 65536. change (2 ^ 24) with 16777216.
  Z.div_mod_to_equations. lia.
Qed.
Lemma dinode_addr_byte d k i :
  0 <= k < 13 -> 0 <= i < 4 -> at_ (dinode_bytes d) (12 + 4 * k + i) = at_ (le32 (d_addr d k)) i.
Proof.
  intros Hk Hi. revert k Hk. apply Opened.one_synced. assert (i = 0 \/ i = 1 \/ i = 2 \/ i = 3) as Hc by lia.
  repeat constructor; by destruct Hc as [->|[->|[->| ->]]].
Qed.
Lemma disk_inode_fields V j y d (z := disk_inode V j y) :
  holds_inode V j d -> i_type z = d_type d /\ i_major z = d_major d /\ i_minor z = d_minor d /\ i_nlink z = d_nlink d
    /\ i_size z = d_size d /\ forall k, 0 <= k < 13 -> i_addrs z !!! k = d_addr d k.
Proof.
  intros []. unfold z, disk_inode, IBLOCK, dinode_off. change IPB with 8. change sizeof_dinode with 64.
  rewrite (Z.mul_comm (j mod 8)). cbn [get_dinode i_type i_major i_minor i_nlink i_size i_addrs]. unfold get16, get32.
  rewrite <-(Z.add_0_r (64 * (j mod 8))) at 1.
  split_and!; try (apply half_of_le16; [done|by rewrite hi_bytes0|rewrite <-Z.add_assoc; by rewrite hi_bytes0]).
  - apply word_of_le32; [done|]. intros i Hi. rewrite <-Z.add_assoc, hi_bytes0 by lia.
    assert (i = 0 \/ i = 1 \/ i = 2 \/ i = 3) as [->|[->|[->| ->]]] by lia; done.
  - intros k Hk. rewrite get_addrs_lookup by done. apply word_of_le32; [by apply hi_addr0|]. intros i Hi.
    rewrite <-!Z.add_assoc, hi_bytes0 by lia. rewrite Z.add_assoc. by apply dinode_addr_byte.
Qed.

(** Inode 2 of the sample disk: a file of five bytes in block 13 *)
Definition sample_inode : on_disk := mk_on_disk 2 0 0 1 5 (fun k => if decide (k = 0) then 13 else 0).
Lemma sample_inode_holds : holds_inode Sample.V 2 sample_inode.
Proof.
  split; try (unfold short; cbn; lia).
  - intros k Hk. assert (Forall (fun k => at_ (Sample.V (2 / 8 + 2)) (64 * (2 mod 8) + k) = at_ (dinode_bytes sample_inode) k) (seqZ 0 64)) as H
      by (vm_compute; repeat constructor).
    rewrite Forall_forall in H. apply H, elem_of_seqZ. lia.
  - intros k _. cbn. case_decide; lia.
Qed.

Module FileProps.

(** C39 (functional): locking an inode loads it from the disk.  Let the disk
    hold, as the 64 bytes of inode [j] (the [j mod 8]-th of block [j / 8 + 2]),
    the little-endian fields of [d] in the order of [struct dinode]: type,
    major, minor, nlink, size, addresses ([holds_inode]; the bytes are spelt out
    by [dinode_bytes], not by the code's reader).  Then [inode_lock] of a
    referenced, unlocked entry of the cache for inode [j] that has not been read
    yet stops the kernel when the type is 0, and otherwise leaves the entry
    locked and valid, with its device, number and reference count and with
    exactly the fields of [d], the halves with their sign; the other entries,
    the disk and memory are unchanged. *)
Theorem inode_lock_loads_disk_inode {T : Type} `{!FsKernel T} `{!FsKernelLaws T}
    tx V0 (s : fsys T) st sz ents V fsz nino i d (x := inodes s !!! i) :
  trep tx V0 s st sz ents V ∅ ∅ -> geometry V fsz nino st sz -> (length ents <= 9)%nat -> cached s i 0 ->
  i_dev x = ROOTDEV -> 0 <= i_inum x < nino -> holds_inode V (i_inum x) d ->
  (d_type d = 0 -> inode_lock (PInode i) s = Panic "inode_lock: no type")
  /\ (d_type d <> 0 -> exists s' y, inode_lock (PInode i) s = Ok (tt, s')
       /\ trep tx V0 s' st sz ents V ∅ ∅ /\ iframe i s s' /\ inodes s' !!! i = y
       /\ i_flags y = Z.lor I_BUSY I_VALID /\ i_dev y = i_dev x /\ i_inum y = i_inum x /\ i_ref y = i_ref x
       /\ i_type y = d_type d /\ i_major y = d_major d /\ i_minor y = d_minor d /\ i_nlink y = d_nlink d
       /\ i_size y = d_size d /\ forall k, 0 <= k < 13 -> i_addrs y !!! k = d_addr d k).
Proof.
  intros R G Hl C Hdev Hj Hd. destruct (inode_lock_read tx V0 s st sz ents V ∅ fsz nino i R G C Hdev Hj (lookup_empty _))
    as (s' & E & R' & F & Ex); [rewrite map_size_empty; lia|]. fold x in E, Ex.
  pose proof (disk_inode_fields V _ x d Hd) as (Et & ? & ? & ? & ? & ?). split; intros Ht; rewrite <-Et in Ht.
  - by rewrite decide_True in E.
  - rewrite decide_False in E by done. exists s', (inodes s' !!! i). rewrite Ex. split_and!; done.
Qed.

(** C3 (refinement): writing a file, with crashes.  On a disk with one bitmap
    block, [file_write] of [n] bytes through an open file whose inode nobody
    else has locked, starting at or before the end of the file, ending within
    the largest file size and with eight free blocks for every 1536 bytes,
    returns [n].  The file then has its old contents with the [n] bytes stored
    at the offset, and is longer if they end behind its old end; the offset has
    moved; the other inodes and the blocks of other files are unchanged
    ([written]), and so are kernel memory and the other open files.  The write
    is cut into transactions: if the machine stops at any of the disk writes, the
    next start gives the file with some first part of the bytes stored, and
    never anything else. *)
Theorem file_write_stores_prefix_on_crash {T : Type} `{!FsKernel T} `{!FsKernelLaws T}
    fsz nino st sz (s : fsys T) V i fi off addr n :
  fsz <= BPB -> ready fsz nino st sz s V i fi off -> opened s fi i -> fl_writable (files s !!! fi) <> 0 ->
  0 <= n -> off + n <= 140 * BSIZE -> avail fsz nino st V (need n) ->
  let f j := fk_mem (kern s) !!! (addr + j) in
  exists s' V' hist, file_write (PFile fi) addr n s = Ok (n, s')
    /\ ready fsz nino st sz s' V' i fi (off + n) /\ wframe i fi s s'
    /\ written fsz nino st sz off n f V (inodes s !!! i) V' (inodes s' !!! i)
    /\ past s' = hist ++ past s
    /\ forall im, im ∈ disk s' :: hist -> exists m W y, 0 <= m <= n
         /\ restarts_to T im st sz W /\ written fsz nino st sz off m f V (inodes s !!! i) W y.
Proof. intros Hone Rd Ho Hw Hn Hmax Hav f. by apply (file_write_spec fsz nino st sz Hone). Qed.

(** C14 (roundtrip): what one open file writes another reads.  After
    [file_write] as above, [file_read] of [m] bytes through a second open file
    on the same inode, standing at [off2], returns as many bytes as there are
    up to the new end of the file, and stores them in memory: the bytes written
    where the ranges overlap, the old contents elsewhere.  Nothing else in
    memory changes. *)
Theorem file_write_read_back {T : Type} `{!FsKernel T} `{!FsKernelLaws T}
    fsz nino st sz (s : fsys T) V i fi fj off off2 addr n dst m (x := inodes s !!! i) :
  fsz <= BPB -> ready fsz nino st sz s V i fi off -> opened s fi i -> fl_writable (files s !!! fi) <> 0 ->
  0 <= n -> off + n <= 140 * BSIZE -> avail fsz nino st V (need n) ->
  fi <> fj -> ready fsz nino st sz s V i fj off2 -> opened s fj i -> fl_readable (files s !!! fj) <> 0 ->
  0 <= m < 2 ^ 31 ->
  let r := Z.min m (Z.max (i_size x) (off + n) - off2) in
  exists s1 s2, file_write (PFile fi) addr n s = Ok (n, s1) /\ file_read (PFile fj) dst m s1 = Ok (r, s2)
    /\ fl_off (files s2 !!! fj) = off2 + r
    /\ patched (fk_mem (kern s)) (fk_mem (kern s2)) dst r (fun k =>
         if decide (off <= off2 + k < off + n) then fk_mem (kern s) !!! (addr + (off2 + k - off))
         else fbyte V (i_addrs x) (off2 + k)).
Proof.
  intros Hone Rd Ho Hw Hn Hmax Hav Hne Rd2 [Ot Oi] Hr Hm r.
  destruct (file_write_spec fsz nino st sz Hone s V i fi off addr n Rd Ho Hw Hn Hmax Hav)
    as (s1 & V1 & hist & E1 & R1 & F1 & W1 & _).
  assert (files s1 !!! fj = files s !!! fj) as Efj by (by apply (wf_files _ _ _ _ F1)).
  pose proof (wn_size _ _ _ _ _ _ _ _ _ _ _ W1) as Hsz. fold x in Hsz. pose proof (rd_bound _ _ _ _ _ _ _ _ _ Rd2) as Hb2.
  assert (ready fsz nino st sz s1 V1 i fj off2) as R2.
  { destruct R1. split; try done; [exact (rd_index _ _ _ _ _ _ _ _ _ Rd2)|rewrite Efj; exact (rd_off _ _ _ _ _ _ _ _ _ Rd2)|]. rewrite Hsz. fold x in Hb2. lia. }
  destruct (file_read_spec fsz nino st sz s1 V1 i fj off2 dst m R2) as (s2 & E2 & R3 & _ & P);
    [by split; rewrite Efj|by rewrite Efj|done|]. rewrite Hsz in *. fold r in E2, R3, P.
  exists s1, s2. split; [done|]. split; [done|]. split; [exact (rd_off _ _ _ _ _ _ _ _ _ R3)|].
  rewrite (wf_mem _ _ _ _ F1) in P. intros a. rewrite (P a). case_decide as Ha; [|done].
  pose proof (fo_size _ _ _ _ _ (of_ok _ _ _ _ _ (rd_open _ _ _ _ _ _ _ _ _ Rd))) as Hszx. fold x in Hszx.
  by rewrite (wn_byte _ _ _ _ _ _ _ _ _ _ _ W1) by (unfold r in Ha; lia).
Qed.

(** Inode 2 of the sample disk in slot 0, not yet read *)
Lemma inode_lock_loads_disk_inode_witness : exists s s' : fsys (thr * mem),
  inode_lock (PInode 0) s = Ok (tt, s') /\ i_nlink (inodes s' !!! 0) = 1.
Proof.
  destruct Sample.started as (s & _ & I).
  set (s0 := set_inodes {[0 := mk_inode 1 2 1 0 0 0 0 0 0 ∅]} (set_ic_lock free_lock s)).
  assert (irep s0 980 20 Sample.V) as I0 by (eapply irep_blocks; [|exact I]; by split).
  exists s0. destruct (inode_lock_loads_disk_inode (mk_txn 0 (past s0)) Sample.V s0 980 20 [] Sample.V 1000 64 0 sample_inode
    (irep_trep _ _ _ _ I0) Sample.geometry_ok) as [_ (s' & y & E & _ & _ & <- & _ & _ & _ & _ & _ & _ & _ & Hn & _)];
    [cbn; lia|by split|done|done|exact sample_inode_holds|done|].
  exists s'. exact (conj E Hn).
Defined.

(** 4000 bytes at offset 3 of the file: three transactions *)
Definition demo_mem : mem := list_to_map (map (fun k => (5000 + k, k mod 256)) (seqZ 0 4000)).

Lemma file_write_stores_prefix_on_crash_witness : exists (s s' : fsys (thr * mem)),
  file_write (PFile 0) 5000 4000 (Opened.open demo_mem s) = Ok (4000, s') /\ i_size (inodes s' !!! 0) = 4003.
Proof.
  destruct Sample.started as (s & _ & I). exists s.
  destruct (file_write_stores_prefix_on_crash 1000 64 980 20 (Opened.open demo_mem s) Sample.V 0 0 3 5000 4000)
    as (s' & V' & hist & E & _ & _ & W & _); [done|by apply Opened.ready_file; [|left]|by split|done|done|done| |].
  { apply Opened.blocks_free. change (need 4000) with 24%nat. lia. }
  exists s'. exact (conj E (wn_size _ _ _ _ _ _ _ _ _ _ _ W)).
Defined.

Lemma file_write_read_back_witness : exists (s s1 s2 : fsys (thr * mem)),
  file_write (PFile 0) 5000 4000 (Opened.open demo_mem s) = Ok (4000, s1)
  /\ file_read (PFile 1) 100 2000 s1 = Ok (2000, s2).
Proof.
  destruct Sample.started as (s & _ & I). exists s.
  destruct (file_write_read_back 1000 64 980 20 (Opened.open demo_mem s) Sample.V 0 0 1 3 0 5000 4000 100 2000)
    as (s1 & s2 & E1 & E2 & _); try done;
    [by apply Opened.ready_file; [|left]| |by apply Opened.ready_file; [|right]|exists s1, s2; exact (conj E1 E2)].
  apply Opened.blocks_free. change (need 4000) with 24%nat. lia.
Defined.
End FileProps.
