(* ===== verification/Icache.v ===== *)
(** * The inode cache: inode_get, inode_dup, inode_put of fs/inode.c

    The cache as a table of counted references: every slot in use stands for
    one inode, no inode has two slots, and a slot keeps its inode as long as
    somebody has a reference to it. *)

From S2P Require Import Prelude DList Machine Thread Scheduler KString Bytes FsData BufCache FsLog Block Inode InodeData InodeDisk File FileSpec.

(** ** References

    A slot in use has a key, device and inode number, and a reference count. *)
Notation refs := (gmap Z ((Z * Z) * Z)).

Definition slot_of (R : refs) (k : Z * Z) (i : Z) : Prop := exists c, R !! i = Some (k, c).
(** The lowest slot of the table that is not in use *)
Definition lowest_free (R : refs) (i : Z) : Prop :=
  0 <= i < NINODE /\ R !! i = None /\ forall j, 0 <= j < i -> is_Some (R !! j).

Inductive iop := IGet (dev inum : Z) | IDup (i : Z) | IPut (i : Z).

(** What an operation does to the references, and the slot it returns *)
Inductive ref_step (R : refs) : iop -> Z -> refs -> Prop :=
| ref_get_cached dev inum i c :
    R !! i = Some ((dev, inum), c) -> ref_step R (IGet dev inum) i (<[i := ((dev, inum), c + 1)]> R)
| ref_get_new dev inum i :
    (forall j, ~ slot_of R (dev, inum) j) -> lowest_free R i ->
    ref_step R (IGet dev inum) i (<[i := ((dev, inum), 1)]> R)
| ref_dup i k c : R !! i = Some (k, c) -> ref_step R (IDup i) i (<[i := (k, c + 1)]> R)
| ref_put i k c : R !! i = Some (k, c) -> 1 < c -> ref_step R (IPut i) i (<[i := (k, c - 1)]> R)
| ref_put_last i k : R !! i = Some (k, 1) -> ref_step R (IPut i) i (delete i R).

Section Cache.
Context {T : Type} `{!FsKernel T} `{!FsKernelLaws T}.
Implicit Types (s : fsys T) (R : refs).

Definition run_iop (op : iop) : M (fsys T) ptr :=
  match op with
  | IGet dev inum => inode_get dev inum
  | IDup i => inode_dup (PInode i)
  | IPut i => inode_put (PInode i) ;; mret (PInode i)
  end.

Definition key (x : inode) : Z * Z := (i_dev x, i_inum x).

Record ic_tab s R : Prop := {
  ir_slot i : R !! i = if decide (0 <= i < NINODE /\ i_ref (inodes s !!! i) <> 0)
    then Some (key (inodes s !!! i), i_ref (inodes s !!! i)) else None;
  ir_pos i : 0 <= i < NINODE -> 0 <= i_ref (inodes s !!! i);
  ir_uniq i j k : slot_of R k i -> slot_of R k j -> i = j;
}.

Record ic_rep s R : Prop := {
  ir_kern : fk_inv (kern s);
  ir_lock : ic_lock s = free_lock;
  ir_tab : ic_tab s R;
}.

(** Where a slot can be *)
Lemma ir_range s R i k c : ic_tab s R -> R !! i = Some (k, c) ->
  0 <= i < NINODE /\ key (inodes s !!! i) = k /\ i_ref (inodes s !!! i) = c /\ 0 < c.
Proof.
  intros I E. rewrite (ir_slot _ _ I) in E. destruct (decide _) as [[Hi Hr]|]; [|done]. injection E as <- <-.
  pose proof (ir_pos _ _ I i Hi). split_and!; [lia|lia|done|done|lia].
Qed.
Lemma ir_unused s R i : ic_tab s R -> 0 <= i < NINODE -> R !! i = None <-> i_ref (inodes s !!! i) = 0.
Proof. intros I Hi. rewrite (ir_slot _ _ I). destruct (decide _) as [[_ Hr]|Hn]; [done|]. split; [|done]. intros _.
  destruct (decide (i_ref (inodes s !!! i) = 0)); [done|]. exfalso. by apply Hn.
Qed.

(** The search: the slot of the inode if it has one, else the first free one *)
Lemma find_inode_spec s R dev inum : ic_tab s R -> forall n k e, 0 <= k -> k + Z.of_nat n = NINODE ->
  (forall j, 0 <= j < k -> ~ slot_of R (dev, inum) j) ->
  match e with
  | PNull => forall j, 0 <= j < k -> is_Some (R !! j)
  | PInode i => i < k /\ lowest_free R i
  | _ => False
  end ->
  exists p e', find_inode (seqZ k (Z.of_nat n)) e dev inum s = Ok ((p, e'), s)
    /\ ((exists i c, p = PInode i /\ R !! i = Some ((dev, inum), c))
        \/ (p = PNull /\ (forall j, ~ slot_of R (dev, inum) j)
            /\ ((exists i, e' = PInode i /\ lowest_free R i)
                \/ (e' = PNull /\ forall j, 0 <= j < NINODE -> is_Some (R !! j))))).
Proof.
  intros I. induction n as [|n IH]; intros k e Hk Hn Hno He.
  - rewrite seqZ_nil by lia. exists PNull, e. split; [done|]. right. split; [done|]. split.
    + intros j [c Hj]. destruct (ir_range _ _ _ _ _ I Hj) as (Hr & _). apply (Hno j); [lia|by exists c].
    + destruct e; try done; [right; split; [done|]; intros j Hj; apply He; lia|left; naive_solver].
  - rewrite seqZ_cons by lia. replace (Z.pred (Z.of_nat (S n))) with (Z.of_nat n) by lia.
    replace (Z.succ k) with (k + 1) by lia. cbn [find_inode].
    rewrite (bind_ok _ _ _ _ _ (ino_read_ok k id s ltac:(lia))). unfold id. set (x := inodes s !!! k).
    pose proof (ir_pos _ _ I k ltac:(lia)) as Hpos. fold x in Hpos.
    destruct (decide (i_ref x > 0 /\ i_dev x = dev /\ i_inum x = inum)) as [(Hr & <- & <-)|Hx].
    + exists (PInode k), e. split; [done|]. left. exists k, (i_ref x). split; [done|].
      rewrite (ir_slot _ _ I). rewrite decide_True; [done|]. fold x. lia.
    + apply IH; [lia|lia| |].
      * intros j Hj Hs. destruct (decide (j = k)) as [->|]; [|apply (Hno j); [lia|done]]. destruct Hs as [c Hc].
        destruct (ir_range _ _ _ _ _ I Hc) as (_ & Ek & Er & Hc0). fold x in Ek, Er. apply Hx.
        injection Ek as <- <-. split; [lia|done].
      * assert (R !! k = None <-> i_ref x = 0) as Hk0 by (apply (ir_unused s R k I); lia).
        destruct (decide (e = PNull /\ i_ref x = 0)) as [[-> Hz]|Hz].
        -- split; [lia|]. split; [lia|]. split; [by apply Hk0|done].
        -- destruct e; try done.
           ++ intros j Hj. destruct (decide (j = k)) as [->|]; [|apply He; lia].
              destruct (R !! k) eqn:Er; [by eexists|]. exfalso. apply Hz. split; [done|]. by apply Hk0.
           ++ destruct He. split; [lia|done].
Qed.

(** Only keys and counts matter. *)
Lemma ic_rep_ext s s' R :
  ic_lock s' = ic_lock s ->
  (forall j, i_ref (inodes s' !!! j) = i_ref (inodes s !!! j) /\ key (inodes s' !!! j) = key (inodes s !!! j)) ->
  fk_inv (kern s') -> ic_rep s R -> ic_rep s' R.
Proof.
  intros El E Hk [_ Hl [H1 H2 H3]]. split; [done|by rewrite El|]. split; [| |done].
  - intros j. destruct (E j) as [-> ->]. apply H1.
  - intros j. destruct (E j) as [-> _]. apply H2.
Qed.

(** One slot is changed. *)
Lemma ic_tab_set s s' R i x :
  ic_tab s R -> 0 <= i < NINODE -> inodes s' = <[i := x]> (inodes s) -> 0 <= i_ref x ->
  (i_ref x <> 0 -> forall j, slot_of R (key x) j -> j = i) ->
  ic_tab s' (if decide (i_ref x = 0) then delete i R else <[i := (key x, i_ref x)]> R).
Proof.
  intros I Hi E Hr Hu.
  assert (forall j, (if decide (i_ref x = 0) then delete i R else <[i := (key x, i_ref x)]> R) !! j =
    if decide (i = j) then (if decide (i_ref x = 0) then None else Some (key x, i_ref x)) else R !! j) as Hlk.
  { intros j. destruct (decide (i_ref x = 0)); [by rewrite lookup_delete|by rewrite lookup_insert]. }
  split.
  - intros j. rewrite Hlk, E, lookup_total_upd, (ir_slot _ _ I). destruct (decide (i = j)) as [<-|]; [|done].
    destruct (decide (i_ref x = 0)); [by rewrite decide_False by tauto|by rewrite decide_True].
  - intros j Hj. rewrite E, lookup_total_upd. destruct (decide (i = j)); [exact Hr|exact (ir_pos _ _ I j Hj)].
  - intros j j' k [c Hj] [c' Hj']. rewrite Hlk in Hj, Hj'.
    destruct (decide (i = j)) as [<-|]; destruct (decide (i = j')) as [<-|]; [done| | |].
    + destruct (decide (i_ref x = 0)) as [|Hx]; [done|]. injection Hj as <- <-. symmetry. apply Hu; [done|by exists c'].
    + destruct (decide (i_ref x = 0)) as [|Hx]; [done|]. injection Hj' as <- <-. apply Hu; [done|by exists c].
    + apply (ir_uniq _ _ I j j' k); [by exists c|by exists c'].
Qed.

(** The same between the acquisition and the release of the lock *)
Lemma ic_rep_set s R i x lk t :
  ic_rep s R -> 0 <= i < NINODE -> 0 <= i_ref x -> fk_inv t ->
  (i_ref x <> 0 -> forall j, slot_of R (key x) j -> j = i) ->
  ic_rep (set_ic_lock free_lock (set_kern t (set_inodes (<[i := x]> (inodes s)) (set_ic_lock lk s))))
    (if decide (i_ref x = 0) then delete i R else <[i := (key x, i_ref x)]> R).
Proof. intros [Hk Hl I] Hi Hr Ht Hu. split; [done|done|]. by eapply ic_tab_set. Qed.

Definition small R : Prop := forall i k c, R !! i = Some (k, c) -> c < 2147483647.

(** An inode in use keeps everything but its reference count, and the rest of
    the file system is the same. *)
Record keeps R s s' : Prop := {
  kp_slot j : is_Some (R !! j) -> exists c, inodes s' !!! j = set_i_ref c (inodes s !!! j);
  kp_blocks : same_blocks s s';
  kp_files : files s' = files s;
  kp_ft_lock : ft_lock s' = ft_lock s;
  kp_mem : fk_mem (kern s') = fk_mem (kern s);
}.

(** Writing the reference count [c'] of slot [i] *)
Lemma ref_write s R i k c c' lk :
  ic_rep s R -> R !! i = Some (k, c) -> 0 <= c' -> fk_inv (kern s) ->
  let s' := set_ic_lock free_lock (upd_ino i (set_i_ref c') (set_ic_lock lk s)) in
  ic_rep s' (if decide (c' = 0) then delete i R else <[i := (k, c')]> R) /\ keeps R s s'.
Proof.
  intros I E Hc Hk. destruct (ir_range _ _ _ _ _ (ir_tab _ _ I) E) as (Hi & Ek & _). cbv zeta. split.
  2:{ split; [|by split|done..]. intros j _. unfold upd_ino. fs_look. destruct (decide (i = j)) as [<-|]; [by eexists|].
      exists (i_ref (inodes s !!! j)). by destruct (inodes s !!! j). }
  pose proof (ic_rep_set s R i (set_i_ref c' (inodes s !!! i)) lk (kern s) I Hi Hc Hk) as H.
  change (key (set_i_ref c' (inodes s !!! i))) with (key (inodes s !!! i)) in H. rewrite Ek in H. apply H.
  intros _ j Hj. eapply (ir_uniq _ _ (ir_tab _ _ I)); [exact Hj|by exists c].
Qed.

Lemma inode_get_spec s R dev inum :
  ic_rep s R -> small R ->
  (exists i s' R', inode_get dev inum s = Ok (PInode i, s') /\ ref_step R (IGet dev inum) i R' /\ ic_rep s' R'
     /\ keeps R s s' /\ key (inodes s' !!! i) = (dev, inum) /\ (R !! i = None -> i_flags (inodes s' !!! i) = 0))
  \/ ((forall j, ~ slot_of R (dev, inum) j) /\ (forall j, 0 <= j < NINODE -> is_Some (R !! j))
      /\ inode_get dev inum s = Panic "inode_get: no inodes").
Proof.
  intros I Hsm. pose proof I as [Hk Hl Tab]. unfold inode_get. destruct (ic_section s Hk Hl) as [lk E].
  rewrite (bind_ok _ _ _ _ _ E). set (s1 := set_ic_lock lk s).
  assert (ic_tab s1 R) as Tab1 by (by destruct Tab).
  destruct (find_inode_spec s1 R dev inum Tab1 50 0 PNull ltac:(lia) eq_refl ltac:(intros; lia) ltac:(intros j Hj; exfalso; lia)) as (p & e & Ef & Hf).
  change (Z.of_nat 50) with NINODE in Ef. rewrite (bind_ok _ _ _ _ _ Ef).
  destruct Hf as [(i & c & -> & Hi)|(-> & Hno & [(i & -> & Hfree)|(-> & Hfull)])].
  - left. rewrite decide_True by done. destruct (ir_range _ _ _ _ _ Tab Hi) as (Hr & Ek & Er & Hc).
    rewrite (bind_ok _ _ _ _ _ (ino_write_ok i _ s1 Hr)). unfold ic_release. rewrite release_bind.
    pose proof (Hsm i _ _ Hi). eexists i, _, _. split; [reflexivity|]. split; [by apply ref_get_cached|].
    destruct (ref_write s R i (dev, inum) c (c + 1) lk I Hi ltac:(lia) Hk) as [HI HK]. rewrite decide_False in HI by lia.
    assert (upd_ino i (fun x => set_i_ref (s32 (i_ref x + 1)) x) s1 = upd_ino i (set_i_ref (c + 1)) s1) as ->.
    { unfold upd_ino. change (inodes s1) with (inodes s). rewrite Er, s32_id by lia. done. }
    split; [done|]. split; [done|]. split; [unfold upd_ino; fs_look; exact Ek|congruence].
  - left. rewrite decide_False by (intros C; by apply C). rewrite decide_False by done.
    destruct Hfree as (Hr & Hn & Hlow).
    rewrite (bind_ok _ _ _ _ _ (ino_write_ok i _ s1 Hr)). unfold ic_release. rewrite release_bind.
    eexists i, _, _. split; [reflexivity|]. split; [by apply ref_get_new|]. split_and!.
    + pose proof (ic_rep_set s R i (set_i_key dev inum 1 0 (inodes s !!! i)) lk (kern s) I Hr) as H. apply H; [done|done|].
      intros _ j Hj. by destruct (Hno j).
    + split; [|by split|done..]. intros j [y Hj]. exists (i_ref (inodes s !!! j)). unfold upd_ino. fs_look. rewrite decide_False by congruence.
      by destruct (inodes s !!! j).
    + unfold upd_ino. by fs_look.
    + intros _. unfold upd_ino. by fs_look.
  - right. split; [done|]. split; [done|]. by rewrite decide_False, decide_True by (try (intros C; by apply C); done).
Qed.

Lemma inode_dup_spec s R i k c :
  ic_rep s R -> small R -> R !! i = Some (k, c) ->
  exists s', inode_dup (PInode i) s = Ok (PInode i, s') /\ ic_rep s' (<[i := (k, c + 1)]> R) /\ keeps R s s'.
Proof.
  intros I Hsm E. pose proof I as [Hk Hl Tab]. destruct (ir_range _ _ _ _ _ Tab E) as (Hr & Ek & Er & Hc).
  unfold inode_dup. destruct (ic_section s Hk Hl) as [lk Ea]. rewrite (bind_ok _ _ _ _ _ Ea).
  rewrite (bind_ok _ _ _ _ _ (ino_write_ok i _ (set_ic_lock lk s) Hr)). unfold ic_release. rewrite release_bind.
  pose proof (Hsm i _ _ E). destruct (ref_write s R i k c (c + 1) lk I E ltac:(lia) Hk) as [HI HK].
  rewrite decide_False in HI by lia. eexists. split; [reflexivity|]. unfold upd_ino in *. fs_cbn.
  change (inodes (set_ic_lock lk s)) with (inodes s) in *. rewrite Er, s32_id by lia. done.
Qed.

(** Dropping a reference to an inode that is not to be deleted *)
Lemma inode_put_spec s R i k c (x := inodes s !!! i) :
  ic_rep s R -> small R -> R !! i = Some (k, c) -> ~ (c = 1 /\ Z.land (i_flags x) I_VALID <> 0 /\ i_nlink x = 0) ->
  exists s', inode_put (PInode i) s = Ok (tt, s')
    /\ ic_rep s' (if decide (c - 1 = 0) then delete i R else <[i := (k, c - 1)]> R) /\ keeps R s s'.
Proof.
  intros I Hsm E Hnd. pose proof I as [Hk Hl Tab]. destruct (ir_range _ _ _ _ _ Tab E) as (Hr & Ek & Er & Hc).
  unfold inode_put. destruct (ic_section s Hk Hl) as [lk Ea]. rewrite (bind_ok _ _ _ _ _ Ea).
  rewrite (bind_ok _ _ _ _ _ (ino_read_ok i id (set_ic_lock lk s) Hr)). unfold id.
  change (inodes (set_ic_lock lk s)) with (inodes s). fold x in Er |- *. rewrite decide_False by (by rewrite Er).
  rewrite mret_bind, (bind_ok _ _ _ _ _ (ino_write_ok i _ (set_ic_lock lk s) Hr)). unfold ic_release. rewrite release_ok.
  pose proof (Hsm i _ _ E). destruct (ref_write s R i k c (c - 1) lk I E ltac:(lia) Hk) as [HI HK].
  eexists. split; [reflexivity|]. unfold upd_ino in *. fs_cbn.
  change (inodes (set_ic_lock lk s)) with (inodes s) in *. fold x. rewrite Er, s32_id by lia. done.
Qed.
End Cache.

(** When an operation may be called: [inode_dup] and [inode_put] with a
    reference, [inode_put] not with the last one to a file without links (that
    deletes the file). *)
Definition op_ok {T} (s : fsys T) (R : refs) (op : iop) : Prop :=
  match op with
  | IGet _ _ => True
  | IDup i => is_Some (R !! i)
  | IPut i => exists k c, R !! i = Some (k, c)
      /\ ~ (c = 1 /\ Z.land (i_flags (inodes s !!! i)) I_VALID <> 0 /\ i_nlink (inodes s !!! i) = 0)
  end.

Module IcacheProps.

(** C11 (refinement): the inode cache counts references.  [inode_init] on zeroed
    storage sets up a cache without references.  From then on the cache stands
    for a table of slots with inode and reference count ([ic_rep]), in which no
    inode has two slots: [inode_get] returns the slot of the inode if it has
    one, and adds a reference, or else takes the lowest free slot; it stops the
    kernel exactly when the inode has no slot and all 50 are in use.
    [inode_dup] adds a reference and [inode_put] drops one, freeing the slot
    with the last.  Every slot in use keeps its inode, flags and contents
    through all of these operations, and nothing else changes, so a pointer stays good as long as its
    holder has not put it. *)
Theorem inode_cache_counts_references {T : Type} `{!FsKernel T} `{!FsKernelLaws T} :
  (forall s : fsys T, fk_inv (kern s) -> inodes s = ∅ -> exists s', inode_init s = Ok (tt, s') /\ ic_rep s' ∅)
  /\ forall (s : fsys T) R op, ic_rep s R -> small R -> op_ok s R op ->
    (exists i s' R', run_iop op s = Ok (PInode i, s') /\ ref_step R op i R' /\ ic_rep s' R' /\ keeps R s s')
    \/ exists dev inum, op = IGet dev inum /\ (forall j, ~ slot_of R (dev, inum) j)
        /\ (forall j, 0 <= j < NINODE -> is_Some (R !! j)) /\ run_iop op s = Panic "inode_get: no inodes".
Proof.
  split.
  - intros s Hk Hi. eexists. split; [reflexivity|]. split; [done|done|]. split.
    + intros i. cbn. rewrite Hi, lookup_total_empty, lookup_empty. by rewrite decide_False by (intros [_ C]; by apply C).
    + intros i _. cbn. by rewrite Hi, lookup_total_empty.
    + intros i j k [c Hc]. by rewrite lookup_empty in Hc.
  - intros s R op I Hsm Hok. destruct op as [dev inum|i|i]; cbn [run_iop op_ok] in *.
    + destruct (inode_get_spec s R dev inum I Hsm) as [(i & s' & R' & E & St & I' & K & _)|(H1 & H2 & H3)].
      * left. by exists i, s', R'.
      * right. by exists dev, inum.
    + left. destruct Hok as [[k c] E]. destruct (inode_dup_spec s R i k c I Hsm E) as (s' & Er & I' & K).
      eexists i, s', _. split_and!; [done|by apply ref_dup|done|done].
    + left. destruct Hok as (k & c & E & Hnd). destruct (ir_range _ _ _ _ _ (ir_tab _ _ I) E) as (_ & _ & _ & Hc).
      destruct (inode_put_spec s R i k c I Hsm E Hnd) as (s' & Er & I' & K). eexists i, s', _.
      rewrite (bind_ok _ _ _ _ _ Er). split_and!; [done| |exact I'|done].
      destruct (decide (c - 1 = 0)) as [Hc1|Hc1]; [|by apply ref_put; [|lia]].
      apply (ref_put_last R i k). by replace 1 with c by lia.
Qed.

(** The sample file is in slot 0 with two references; another [inode_get]
    finds it there. *)
Lemma inode_cache_counts_references_witness : exists (s s' : fsys (thr * mem)) i R',
  ic_rep (Opened.open ∅ s) {[0 := ((1, 2), 2)]}
  /\ run_iop (IGet 1 2) (Opened.open ∅ s) = Ok (PInode i, s') /\ ic_rep s' R'.
Proof.
  destruct Sample.started as (s & _ & I). exists s.
  assert (ic_rep (Opened.open ∅ s) {[0 := ((1, 2), 2)]}) as HI.
  { split; [exact (irep_kern _ _ _ _ I)|done|].
    assert (forall j, j <> 0 -> inodes (Opened.open ∅ s) !!! j = inhabitant) as Hj
      by (intros j Hj; exact (lookup_total_singleton_ne _ _ _ (not_eq_sym Hj))).
    split.
    - intros i. destruct (decide (i = 0)) as [->|Hi]; [by vm_compute|].
      rewrite lookup_singleton_ne, Hj by done. by rewrite decide_False by (intros [_ C]; by apply C).
    - intros i _. destruct (decide (i = 0)) as [->|Hi]; [by vm_compute|]. by rewrite Hj.
    - intros i j k [c Hc]%id [c' Hc']. apply lookup_singleton_Some in Hc as [<- _].
      by apply lookup_singleton_Some in Hc' as [<- _]. }
  destruct (proj2 (inode_cache_counts_references (T := thr * mem)) (Opened.open ∅ s) {[0 := ((1, 2), 2)]} (IGet 1 2) HI)
    as [(i & s' & R' & E & _ & I' & _)|(dev & inum & Eo & Hno & _)]; [|done| |].
  - intros i k c [_ Ec]%lookup_singleton_Some. injection Ec as _ <-. lia.
  - exists s', i, R'. exact (conj HI (conj E I')).
  - exfalso. injection Eo as <- <-. apply (Hno 0). exists 2. done.
Defined.
End IcacheProps.
