(* ===== verification/DirSpec.v ===== *)
(** * Paths and directories

    [skipelem] of fs/path.c splits a path at its slashes; [dir_lookup] and
    [dir_link] of fs/dir.c search and extend the table of names that is the
    contents of a directory. *)

From S2P Require Import Prelude DList Machine Thread Scheduler KString Bytes FsData BufCache FsLog Block Inode InodeData InodeDisk Dir File FileSpec Icache.

(** ** Paths as lists of characters *)

(** The C string at [a] *)
Record cstr (m : mem) (a : Z) (l : list Z) : Prop := {
  cs_char k : 0 <= k < Z.of_nat (length l) -> m !!! (a + k) = at_ l k;
  cs_nonzero k : 0 <= k < Z.of_nat (length l) -> at_ l k <> 0;
  cs_end : m !!! (a + Z.of_nat (length l)) = 0;
}.

Definition nonempty (cur : list Z) : list (list Z) := match cur with [] => [] | _ => [cur] end.
(** The path elements: the parts between slashes that are not empty *)
Fixpoint elements_from (cur l : list Z) : list (list Z) :=
  match l with
  | [] => nonempty cur
  | c :: l => if decide (c = SLASH) then nonempty cur ++ elements_from [] l else elements_from (cur ++ [c]) l
  end.
Definition elements (l : list Z) : list (list Z) := elements_from [] l.

Fixpoint span (p : Z -> bool) (l : list Z) : list Z * list Z :=
  match l with
  | [] => ([], [])
  | c :: l' => if p c then let '(a, b) := span p l' in (c :: a, b) else ([], l)
  end.
Definition is_slash (c : Z) : bool := bool_decide (c = SLASH).
Definition in_name (c : Z) : bool := bool_decide (c <> SLASH) && bool_decide (c <> 0).

Lemma span_app p l : let '(a, b) := span p l in l = a ++ b /\ Forall (fun c => p c = true) a
  /\ match b with [] => True | c :: _ => p c = false end.
Proof.
  induction l as [|c l IH]; [done|]. cbn [span]. destruct (p c) eqn:E; [|done].
  destruct (span p l) as [a b]. destruct IH as (-> & Ha & Hb). split_and!; [done|by constructor|done].
Qed.

Lemma elements_slashes a l : Forall (fun c => is_slash c = true) a -> elements (a ++ l) = elements l.
Proof.
  unfold elements. induction 1 as [|c a Hc _ IH]; [done|]. cbn. apply bool_decide_eq_true in Hc. by rewrite decide_True.
Qed.
Lemma elements_name e l cur : Forall (fun c => c <> SLASH) e ->
  elements_from cur (e ++ l) = elements_from (cur ++ e) l.
Proof.
  revert cur. induction e as [|c e IH]; intros cur He; [by rewrite app_nil_r|]. apply Forall_cons in He as [Hc He].
  cbn. rewrite decide_False by done. rewrite IH by done. by rewrite <- app_assoc.
Qed.
(** One element, the slashes behind it, and the rest *)
Lemma elements_cons e b r :
  e <> [] -> Forall (fun c => c <> SLASH) e -> Forall (fun c => is_slash c = true) b ->
  (b = [] -> r = []) -> elements (e ++ b ++ r) = e :: elements r.
Proof.
  intros Hne He Hb Hr. unfold elements. rewrite elements_name by done. cbn [app].
  destruct b as [|c b].
  - rewrite (Hr eq_refl). cbn. by destruct e.
  - apply Forall_cons in Hb as [Hc Hb]. apply bool_decide_eq_true in Hc. cbn [app elements_from].
    rewrite decide_True by done. destruct e as [|x e]; [done|]. cbn [nonempty app]. f_equal. by apply elements_slashes.
Qed.

Lemma elements_from_nonempty l : forall cur, cur <> [] -> elements_from cur l <> [].
Proof.
  induction l as [|c l IH]; intros cur Hc; cbn; [by destruct cur|]. case_decide; [by destruct cur|].
  apply IH. by destruct cur.
Qed.
Lemma elements_nil r : match r with [] => True | c :: _ => is_slash c = false end -> elements r = [] <-> r = [].
Proof.
  intros Hr. split; [|by intros ->]. destruct r as [|c r]; [done|]. unfold elements. cbn.
  apply bool_decide_eq_false in Hr. rewrite decide_False by done. intros E. by apply elements_from_nonempty in E.
Qed.

(** The three scans of [skipelem] *)
Lemma path_split l1 e l2 b r :
  Forall (fun c => c <> 0) l1 -> l1 <> [] -> match l1 with [] => True | c :: _ => is_slash c = false end ->
  span in_name l1 = (e, l2) -> span is_slash l2 = (b, r) ->
  elements l1 = e :: elements r /\ (elements r = [] <-> r = []).
Proof.
  intros Hnz Hne H1 E2 E3. pose proof (span_app in_name l1) as H2. rewrite E2 in H2. destruct H2 as (El & He & H2).
  pose proof (span_app is_slash l2) as H3. rewrite E3 in H3. destruct H3 as (El2 & Hb & H3).
  assert (forall c l0, l2 = c :: l0 -> c = SLASH) as Hs.
  { intros c l0 ->. assert (c <> 0) as Hc by (rewrite El in Hnz; apply Forall_app in Hnz as [_ Hz]; by apply Forall_cons in Hz as [? _]).
    unfold in_name in H2. rewrite (bool_decide_true (c <> 0)), andb_true_r in H2 by done. apply bool_decide_eq_false in H2.
    by destruct (decide (c = SLASH)). }
  split; [|by apply elements_nil]. rewrite El, El2. apply elements_cons; [| |done|].
  - intros ->. rewrite El in H1, Hne. destruct l2 as [|c l0]; [done|]. apply bool_decide_eq_false in H1. by apply H1, (Hs c l0).
  - eapply Forall_impl; [exact He|]. intros c Hc. apply andb_true_iff in Hc as [Hc _]. by apply bool_decide_eq_true in Hc.
  - intros ->. cbn in El2. subst r. destruct l2 as [|c l0]; [done|]. apply bool_decide_eq_false in H3. exfalso. by apply H3, (Hs c l0).
Qed.

Definition bytes_ok (m : mem) : Prop := forall a, 0 <= m !!! a < 256.

Section Skip.
Context {T : Type} `{!FsKernel T} `{!FsKernelLaws T}.
Implicit Types s : fsys T.
Notation mm s := (fk_mem (kern s)).

Lemma cstr_app m a l1 l2 : cstr m a (l1 ++ l2) -> cstr m (a + Z.of_nat (length l1)) l2.
Proof.
  intros [Hc Hn He]. rewrite length_app in *. unfold at_ in *. split.
  - intros k Hk. unfold at_. rewrite <- Z.add_assoc. rewrite Hc by lia. rewrite lookup_total_app_r by lia. f_equal. lia.
  - intros k Hk. unfold at_. specialize (Hn (Z.of_nat (length l1) + k) ltac:(lia)). rewrite lookup_total_app_r in Hn by lia.
    by replace (Z.to_nat (Z.of_nat (length l1) + k) - length l1)%nat with (Z.to_nat k) in Hn by lia.
  - rewrite <- He. f_equal. lia.
Qed.
Lemma cstr_head m a l : cstr m a l -> m !!! a = match l with [] => 0 | c :: _ => c end.
Proof.
  intros [Hc Hn He]. destruct l as [|c l]; [by rewrite Z.add_0_r in He|].
  specialize (Hc 0 ltac:(cbn; lia)). by rewrite Z.add_0_r in Hc.
Qed.

(** Scanning stops at the first character that does not qualify; the
    terminator never does. *)
Lemma skip_while_spec p s : p 0 = false -> forall l a fuel,
  cstr (mm s) a l -> (length l <= fuel)%nat ->
  skip_while fuel p a s = Ok (a + Z.of_nat (length (span p l).1), s).
Proof.
  intros Hp0. induction l as [|c l IH]; intros a fuel Hs Hf;
    (destruct fuel; cbn [skip_while]; unfold mem_byte; rewrite gets_bind, (cstr_head _ _ _ Hs)); cbn [span].
  - rewrite Hp0. cbn. by rewrite Z.add_0_r.
  - rewrite Hp0. cbn. by rewrite Z.add_0_r.
  - cbn in Hf. lia.
  - destruct (p c) eqn:E; [|cbn; by rewrite Z.add_0_r].
    rewrite IH; [|by apply (cstr_app _ a [c] l)|cbn in Hf; lia]. destruct (span p l). cbn [fst length]. do 2 f_equal. lia.
Qed.

Lemma cstr_ext m m' a l :
  (forall z, a <= z <= a + Z.of_nat (length l) -> m' !!! z = m !!! z) -> cstr m a l -> cstr m' a l.
Proof. intros E [Hc Hn He]. split; [|done|]; [intros k Hk|]; rewrite E by lia; [by apply Hc|done]. Qed.
Lemma cstr_nonzero m a l : cstr m a l -> Forall (fun c => c <> 0) l.
Proof.
  intros H. apply Forall_forall. intros c Hin. apply list_elem_of_lookup in Hin as [k Hk]. pose proof (lookup_lt_Some _ _ _ Hk).
  pose proof (cs_nonzero _ _ _ H (Z.of_nat k) ltac:(lia)) as Hn. unfold at_ in Hn.
  rewrite Nat2Z.id, (list_lookup_total_correct _ _ _ Hk) in Hn. done.
Qed.
Lemma strnlen_full n : forall t m, (forall k, 0 <= k < Z.of_nat n -> m !!! (t + k) <> 0) -> strnlen t n m = Z.of_nat n.
Proof.
  induction n as [|n IH]; intros t m H; cbn [strnlen]; [done|].
  rewrite decide_True by (rewrite <- (Z.add_0_r t); apply H; lia). rewrite IH; [lia|].
  intros k Hk. replace (t + 1 + k) with (t + (1 + k)) by lia. apply H. lia.
Qed.

Lemma strnlen_stop n : forall k t m, (k < n)%nat -> (forall j, 0 <= j < Z.of_nat k -> m !!! (t + j) <> 0) ->
  m !!! (t + Z.of_nat k) = 0 -> strnlen t n m = Z.of_nat k.
Proof.
  induction n as [|n IH]; intros k t m Hk Hn H0; [lia|]. cbn [strnlen]. destruct k as [|k].
  - rewrite Z.add_0_r in H0. by rewrite decide_False by (intros C; by apply C).
  - rewrite decide_True by (rewrite <- (Z.add_0_r t); apply Hn; lia). rewrite (IH k); [lia|lia| |].
    + intros j Hj. replace (t + 1 + j) with (t + (1 + j)) by lia. apply Hn. lia.
    + by replace (t + 1 + Z.of_nat k) with (t + Z.of_nat (S k)) by lia.
Qed.

(** Only the bytes at [a .. a + n] are different. *)
Definition same_but (a n : Z) (m m' : mem) : Prop := forall z, ~ a <= z < a + n -> m' !!! z = m !!! z.

(** [strncpy], then the terminator *)
Lemma copy_name m name start e r :
  cstr m start (e ++ r) -> name + DIRSIZ <= start \/ start + Z.of_nat (length (e ++ r)) < name ->
  let len := if decide (Z.of_nat (length e) >= DIRSIZ) then DIRSIZ - 1 else Z.of_nat (length e) in
  let m' := <[name + len := 0]> (strncpy name start (Z.to_nat len) m) in
  cstr m' name (take 13 e) /\ same_but name DIRSIZ m m' /\ (bytes_ok m -> bytes_ok m').
Proof.
  intros Hs Hd len m'. unfold DIRSIZ in *. rewrite length_app in Hd. destruct Hs as [Hc Hn He]. rewrite length_app in Hc, Hn.
  assert (len = Z.of_nat (length (take 13 e)) /\ 0 <= len <= 13 /\ len <= Z.of_nat (length e)) as (El & Hl & Hle).
  { rewrite length_take. unfold len. case_decide; lia. }
  assert (strnlen start (Z.to_nat len) m = len) as Es.
  { rewrite strnlen_full; [lia|]. intros k Hk. rewrite Hc by lia. apply Hn. lia. }
  assert (forall z, m' !!! z = if decide (z = name + len) then 0
      else if decide (name <= z < name + len) then m !!! (start + (z - name)) else m !!! z) as Hm.
  { intros z. unfold m'. rewrite lookup_total_upd. rewrite (strncpy_patched (Z.to_nat len) name start m ltac:(lia)), Es, Z2Nat.id by lia.
    repeat case_decide; try lia; done. }
  split; [split|split].
  - intros k Hk. rewrite <- El in Hk. rewrite Hm, decide_False, decide_True by lia. replace (name + k - name) with k by lia.
    rewrite Hc by lia. unfold at_. rewrite lookup_total_app_l by lia. symmetry. apply lookup_total_take_lt. lia.
  - intros k Hk. rewrite <- El in Hk. unfold at_. rewrite lookup_total_take_lt by lia.
    specialize (Hn k ltac:(lia)). unfold at_ in Hn. by rewrite lookup_total_app_l in Hn by lia.
  - rewrite <- El, Hm. by rewrite decide_True.
  - intros z Hz. rewrite Hm, !decide_False by lia. done.
  - intros Hb z. rewrite Hm. repeat case_decide; [lia|apply Hb..].
Qed.

Definition with_mem (m : mem) s : fsys T := set_kern (fk_set_mem m (kern s)) s.
Lemma mm_with_mem m s : mm (with_mem m s) = m.
Proof. apply fk_mem_set. Qed.
Lemma mem_mod_ok f s : mem_mod f s = Ok (tt, with_mem (f (mm s)) s).
Proof. done. Qed.

(** The state after the element has been copied *)
Record skipped (name : Z) s s' : Prop := {
  sk_mem : same_but name DIRSIZ (mm s) (mm s');
  sk_bytes : bytes_ok (mm s) -> bytes_ok (mm s');
  sk_state : exists m1 m2, s' = with_mem m2 (with_mem m1 s);
}.

Lemma skipelem_spec s path name l :
  cstr (mm s) path l -> path <> 0 -> (length l <= path_fuel)%nat ->
  name + DIRSIZ <= path \/ path + Z.of_nat (length l) < name ->
  match elements l with
  | [] => skipelem path name s = Ok (None, s)
  | e :: es => exists s' l1 r, skipelem path name s = Ok (Some (path + Z.of_nat (length l1)), s')
      /\ l = l1 ++ r /\ elements r = es /\ (es = [] <-> r = [])
      /\ head r <> Some SLASH /\ cstr (mm s') name (take 13 e) /\ skipped name s s'
  end.
Proof.
  intros Hs Hp Hl Hd. unfold skipelem, mem_byte. rewrite gets_bind, (cstr_head _ _ _ Hs).
  destruct (decide (l = [])) as [->|Hne]; [by rewrite decide_True by tauto|].
  rewrite decide_False. 2:{ intros [?|C]; [done|]. destruct l as [|c l0]; [done|]. pose proof (cstr_nonzero _ _ _ Hs) as Hz. by apply Forall_cons in Hz as [? _]. }
  pose proof (span_app is_slash l) as H1. destruct (span is_slash l) as [a l1] eqn:E1. destruct H1 as (El & Ha & H1).
  change (fun c => bool_decide (c = SLASH)) with is_slash.
  rewrite (bind_ok _ _ _ _ _ (skip_while_spec is_slash s eq_refl l path path_fuel Hs Hl)), E1. cbn [fst].
  rewrite gets_bind. assert (cstr (mm s) (path + Z.of_nat (length a)) l1) as Hs1 by (apply cstr_app; by rewrite <- El).
  rewrite (cstr_head _ _ _ Hs1). rewrite El, elements_slashes by done. clear Hne.
  assert (length l = length a + length l1)%nat as Hlen by (by rewrite El, length_app).
  destruct (decide (l1 = [])) as [->|Hne1]; [by rewrite decide_True|].
  pose proof (span_app in_name l1) as H2. destruct (span in_name l1) as [e l2] eqn:E2. destruct H2 as (El1 & He & H2).
  pose proof (cstr_nonzero _ _ _ Hs1) as Hz1.
  rewrite decide_False by (destruct l1 as [|c l0]; [done|]; by apply Forall_cons in Hz1 as [? _]).
  change (fun c => bool_decide (c <> SLASH) && bool_decide (c <> 0)) with in_name.
  rewrite (bind_ok _ _ _ _ _ (skip_while_spec in_name s eq_refl l1 _ path_fuel Hs1 ltac:(lia))), E2. cbn [fst].
  assert (length l1 = length e + length l2)%nat as Hlen1 by (by rewrite El1, length_app).
  set (start := path + Z.of_nat (length a)) in *. replace (start + Z.of_nat (length e) - start) with (Z.of_nat (length e)) by lia.
  rewrite El1 in Hs1. destruct (copy_name (mm s) name start e l2 Hs1) as (Hcp & Hsb & Hbo); [rewrite length_app; lia|]. cbv zeta in Hcp, Hsb, Hbo.
  set (len := if decide (Z.of_nat (length e) >= DIRSIZ) then DIRSIZ - 1 else Z.of_nat (length e)) in *.
  rewrite (bind_ok _ _ _ _ _ (mem_mod_ok _ s)), (bind_ok _ _ _ _ _ (mem_mod_ok _ _)).
  rewrite mm_with_mem. set (m1 := strncpy _ _ _ _) in *. set (m2 := <[name + len := 0]> m1) in *.
  set (s2 := with_mem m2 (with_mem m1 s)). assert (mm s2 = m2) as Em by apply mm_with_mem.
  assert (cstr (mm s2) (start + Z.of_nat (length e)) l2) as Hs2.
  { rewrite Em. apply (cstr_ext (mm s)); [|by apply cstr_app]. intros z Hz. apply Hsb. unfold start in Hz. lia. }
  change (fun c => bool_decide (c = SLASH)) with is_slash.
  rewrite (bind_ok _ _ _ _ _ (skip_while_spec is_slash s2 eq_refl l2 _ path_fuel Hs2 ltac:(lia))).
  pose proof (span_app is_slash l2) as H3. destruct (span is_slash l2) as [b r] eqn:E3. destruct H3 as (El2 & Hb & H3). cbn [fst].
  destruct (path_split l1 e l2 b r Hz1 Hne1 H1 E2 E3) as [-> Hlast].
  exists s2, (a ++ e ++ b), r. split_and!; [|by rewrite El1, El2, <- !app_assoc|done|done| |by rewrite Em|].
  - rewrite !length_app. replace (path + Z.of_nat (length a + (length e + length b)))
      with (start + Z.of_nat (length e) + Z.of_nat (length b)) by (unfold start; lia). done.
  - destruct r as [|c r]; [done|]. apply bool_decide_eq_false in H3. intros C. by injection C.
  - split; [by rewrite Em|by rewrite Em|by exists m1, m2].
Qed.
End Skip.

(** ** Directories as tables *)

(** [D] are the bytes of a directory: entry [k] has the inode number [ent_inum]
    (0 if it is unused) and a name, terminated if it is shorter than 14. *)
Definition ent_inum (D : Z -> Z) (k : Z) : Z := half_of D (16 * k).
Definition ent_named (D : Z -> Z) (e : list Z) (k : Z) : bool :=
  bool_decide (take (S (length e)) (map (fun i => D (16 * k + 2 + i)) (seqZ 0 14)) = e ++ [0]).
Definition ent_matches (D : Z -> Z) (e : list Z) (k : Z) : bool := bool_decide (ent_inum D k <> 0) && ent_named D e k.
(** The first of [n] entries for the name [e] *)
Definition dir_find (D : Z -> Z) (n : Z) (e : list Z) : option Z :=
  head (filter (fun k => ent_matches D e k = true) (seqZ 0 n)).

Lemma ent_named_iff D e k : (length e <= 13)%nat ->
  ent_named D e k = true <->
  (forall i, 0 <= i < Z.of_nat (length e) -> D (16 * k + 2 + i) = at_ e i) /\ D (16 * k + 2 + Z.of_nat (length e)) = 0.
Proof.
  intros Hl. unfold ent_named. rewrite bool_decide_eq_true.
  assert (forall i, (i < 14)%nat -> map (fun i => D (16 * k + 2 + i)) (seqZ 0 14) !! i = Some (D (16 * k + 2 + Z.of_nat i))) as Hlk.
  { intros i Hi. rewrite list_lookup_fmap, lookup_seqZ_lt by lia. done. }
  split.
  - intros E. assert (forall i, (i <= length e)%nat -> (e ++ [0]) !! i = Some (D (16 * k + 2 + Z.of_nat i))) as Hi.
    { intros i Hi. rewrite <- E, lookup_take_lt by lia. apply Hlk. lia. }
    split.
    + intros i Hii. specialize (Hi (Z.to_nat i) ltac:(lia)). rewrite lookup_app_l, Z2Nat.id in Hi by lia.
      unfold at_. symmetry. by apply list_lookup_total_correct.
    + specialize (Hi (length e) ltac:(lia)). rewrite list_lookup_middle in Hi by done. by injection Hi.
  - intros [Hc H0]. apply list_eq. intros i. destruct (decide (i < length e)%nat) as [Hi|Hi].
    + rewrite lookup_take_lt, Hlk, lookup_app_l by lia. rewrite Hc by lia. unfold at_. rewrite Nat2Z.id.
      symmetry. by apply list_lookup_lookup_total_lt.
    + destruct (decide (i = length e)) as [->|Hne].
      * rewrite lookup_take_lt, Hlk, list_lookup_middle by (done || lia). by rewrite H0.
      * rewrite lookup_take_ge by lia. symmetry. apply lookup_ge_None. rewrite length_app. cbn. lia.
Qed.

(** The comparison the code makes *)
Lemma strncmp_ent m p q e D k :
  cstr m q e -> (length e <= 13)%nat -> (forall a, 0 <= m !!! a < 256) ->
  (forall i, 0 <= i < 14 -> m !!! (p + i) = D (16 * k + 2 + i)) ->
  strncmp p q 14 m = 0 <-> ent_named D e k = true.
Proof.
  intros [Hc Hn He] Hl Hb HD. rewrite strncmp_zero, ent_named_iff by done. unfold same_prefix. split.
  - intros H. assert (forall i : nat, (i <= length e)%nat ->
      (forall j, 0 <= j < Z.of_nat i -> D (16 * k + 2 + j) = at_ e j) /\
      ((i < length e)%nat -> D (16 * k + 2 + Z.of_nat i) = at_ e (Z.of_nat i))) as Hind.
    { induction i as [|i IH]; intros Hi.
      - split; [lia|]. intros Hp. rewrite <- HD, H, Hc by lia. done.
      - destruct IH as [IH1 IH2]; [lia|]. assert (forall j, 0 <= j < Z.of_nat (S i) -> D (16 * k + 2 + j) = at_ e j) as IH.
        { intros j Hj. destruct (decide (j = Z.of_nat i)) as [->|]; [apply IH2; lia|apply IH1; lia]. }
        split; [done|]. intros Hp. rewrite <- HD, H, Hc by (try intros j Hj; try rewrite HD, IH by lia; try apply Hn; lia). done. }
    destruct (Hind (length e) ltac:(lia)) as [H1 _]. split; [intros i Hi; apply H1; lia|].
    rewrite <- HD by lia. rewrite H; [done|lia|]. intros j Hj. rewrite HD, H1 by lia. apply Hn. lia.
  - intros [H1 H0] i Hi Hnz. destruct (Z.lt_trichotomy i (Z.of_nat (length e))) as [Hlt|[->|Hgt]].
    + rewrite HD, H1, Hc by lia. done.
    + by rewrite HD, H0, He by lia.
    + exfalso. apply (Hnz (Z.of_nat (length e))); [lia|]. by rewrite HD by lia.
Qed.

Lemma dir_find_spec D n e k : dir_find D n e = Some k <->
  0 <= k < n /\ ent_matches D e k = true /\ forall j, 0 <= j < k -> ent_matches D e j = false.
Proof.
  unfold dir_find. destruct (decide (0 <= n)) as [Hn|Hn]; [|rewrite seqZ_nil by lia; cbn; split; [done|lia]].
  rewrite <- (Z2Nat.id n Hn). generalize (Z.to_nat n) as m. clear n Hn. intros m.
  assert (forall m a, head (filter (fun k => ent_matches D e k = true) (seqZ a (Z.of_nat m))) = Some k <->
    a <= k < a + Z.of_nat m /\ ent_matches D e k = true /\ forall j, a <= j < k -> ent_matches D e j = false) as H.
  { clear m. induction m as [|m IH]; intros a; [rewrite seqZ_nil by lia; cbn; split; [done|lia]|].
    rewrite seqZ_cons by lia. replace (Z.pred (Z.of_nat (S m))) with (Z.of_nat m) by lia. rewrite filter_cons.
    destruct (decide (ent_matches D e a = true)) as [E|E].
    - cbn [head]. split.
      + injection 1 as <-. split_and!; [lia|lia|done|lia].
      + intros (Hr & Hk & Hj). f_equal. destruct (decide (a < k)); [|lia]. rewrite Hj in E by lia. done.
    - rewrite IH. apply not_true_is_false in E. split; intros (Hr & Hk & Hj).
      + split; [lia|]. split; [done|]. intros j Hj'. destruct (decide (j = a)) as [->|]; [done|apply Hj; lia].
      + assert (k <> a) by (intros ->; congruence). split; [lia|]. split; [done|]. intros j Hj'. apply Hj. lia. }
  exact (H m 0).
Qed.
Lemma dir_find_none D n e : dir_find D n e = None <-> forall j, 0 <= j < n -> ent_matches D e j = false.
Proof.
  unfold dir_find. rewrite head_None. split.
  - intros E j Hj. destruct (ent_matches D e j) eqn:Em; [|done]. exfalso. apply (filter_nil_not_elem_of _ _ j E Em).
    apply elem_of_seqZ. lia.
  - intros H. destruct (filter _ _) as [|k l] eqn:E; [done|]. assert (k ∈ k :: l) as Hk by left.
    rewrite <- E in Hk. apply list_elem_of_filter in Hk as [Hm Hk%elem_of_seqZ]. rewrite H in Hm by lia. done.
Qed.

Section Lookup.
Context {T : Type} `{!FsKernel T} `{!FsKernelLaws T}.
Context (tx : txn) (V0 : Z -> list Z) (fsz nino st sz : Z).
Implicit Types (s : fsys T) (V : Z -> list Z).
Notation tr s ents V U H := (trep tx V0 s st sz ents V U H).
Notation geo V := (geometry V fsz nino st sz).
Notation mm s := (fk_mem (kern s)).

(** Inode [i] of the cache is a directory of [n] entries [D]. *)
Record dir_in V (x : inode) (n : Z) (D : Z -> Z) : Prop := {
  di_ok : file_ok fsz nino st V x;
  di_type : i_type x = T_DIR;
  di_size : i_size x = 16 * n;
  di_bytes o : 0 <= o < 16 * n -> fbyte V (i_addrs x) o = D o;
}.

Lemma dir_offs_eq n : 0 <= n -> dir_offs 0 (16 * n) = map (Z.mul 16) (seqZ 0 n).
Proof.
  intros Hn. unfold dir_offs, sizeof_dirent.
  replace ((16 * n - 0 + 16 - 1) / 16) with n by (apply Z.div_unique with 15; lia). by apply list_fmap_ext.
Qed.
Lemma dir_offs_split n d off r : 0 <= n -> dir_offs 0 (16 * n) = d ++ off :: r ->
  off = 16 * Z.of_nat (length d) /\ Z.of_nat (length d) < n.
Proof.
  intros Hn E. rewrite dir_offs_eq in E by done. pose proof (f_equal (.!! length d) E) as Ex.
  rewrite list_lookup_middle, list_lookup_fmap in Ex by done.
  destruct (seqZ 0 n !! length d) as [k|] eqn:Ek; [|done]. apply lookup_seqZ in Ek as [-> Hlt]. injection Ex as <-. lia.
Qed.
Lemma dir_offs_length n : 0 <= n -> length (dir_offs 0 (16 * n)) = Z.to_nat n.
Proof. intros Hn. by rewrite dir_offs_eq, length_map, length_seqZ. Qed.

(** One entry is read to [de]. *)
Lemma read_entry s ents V i n D de k (x := inodes s !!! i) :
  tr s ents V ∅ ∅ -> geo V -> 0 <= i < NINODE -> dir_in V x n D -> (length ents <= 9)%nat -> 0 <= k < n ->
  exists s', inode_read (PInode i) de (16 * k) sizeof_dirent s = Ok (sizeof_dirent, s') /\ tr s' ents V ∅ ∅ /\ rframe s s'
    /\ patched (mm s) (mm s') de 16 (fun j => D (16 * k + j)).
Proof.
  intros R G Hi [Hok Ht Hsz HD] Hl Hk. pose proof (fo_size _ _ _ _ _ Hok) as Hs. fold x in Hs, Hsz. unfold BSIZE in Hs.
  destruct (inode_read_spec tx V0 fsz nino st sz s ents V i de (16 * k) sizeof_dirent R G Hi Hok Hl) as (s' & E & R' & F & P);
    [fold x; lia|done|unfold W32, sizeof_dirent; lia|]. fold x in E, P. rewrite Hsz in E, P.
  rewrite Z.min_l in E, P by (unfold sizeof_dirent; lia). exists s'. split; [done|]. split; [done|]. split; [done|].
  intros a. rewrite (P a). unfold sizeof_dirent. case_decide; [|done]. apply HD. lia.
Qed.

Lemma half_of_patched m m' de D k :
  patched m m' de 16 (fun j => D (16 * k + j)) -> half_of (fun i => m' !!! i) de = ent_inum D k.
Proof.
  intros P. unfold half_of, ent_inum, half_of. rewrite !P, !decide_True by lia.
  replace (16 * k + (de - de)) with (16 * k) by lia. by replace (16 * k + (de + 1 - de)) with (16 * k + 1) by lia.
Qed.

(** What the search keeps: only the entry it reads into memory changes. *)
Record scanned (de : Z) s s' : Prop := {
  sc_frame : rframe s s';
  sc_mem : same_but de 16 (mm s) (mm s');
  sc_bytes : bytes_ok (mm s) -> bytes_ok (mm s');
}.
Lemma scanned_refl de s : scanned de s s.
Proof. by split. Qed.
Lemma scanned_step de s s1 s2 f : scanned de s s1 -> rframe s1 s2 -> patched (mm s1) (mm s2) de 16 f ->
  (forall j, 0 <= f j < 256) -> scanned de s s2.
Proof.
  intros [F M B] F2 P Hf. split; [by eapply rframe_trans| |].
  - intros z Hz. rewrite (P z), decide_False by done. by apply M.
  - intros Hb a. rewrite (P a). case_decide; [apply Hf|by apply B].
Qed.
Lemma scanned_trans de s1 s2 s3 : scanned de s1 s2 -> scanned de s2 s3 -> scanned de s1 s3.
Proof.
  intros [F1 M1 B1] [F2 M2 B2]. split; [by eapply rframe_trans| |tauto]. intros z Hz. rewrite M2 by done. by apply M1.
Qed.
Lemma ic_rep_scanned de s s' R : scanned de s s' -> fk_inv (kern s') -> ic_rep s R -> ic_rep s' R.
Proof. intros [[El Ei _ _] _ _] Hk. apply ic_rep_ext; [done|by rewrite Ei|done]. Qed.

(** One iteration: is entry [k] the one? *)
Lemma check_entry s ents V i n D de name e k (x := inodes s !!! i) {B} (found : Z -> M (fsys T) (option B)) :
  tr s ents V ∅ ∅ -> geo V -> 0 <= i < NINODE -> dir_in V x n D -> (length ents <= 9)%nat -> 0 <= k < n ->
  cstr (mm s) name e -> (length e <= 13)%nat -> name + Z.of_nat (length e) < de \/ de + 16 <= name ->
  bytes_ok (mm s) -> (forall o, 0 <= D o < 256) ->
  exists s', (n ← inode_read (PInode i) de (16 * k) sizeof_dirent;
      if decide (n <> sizeof_dirent) then panic "wrong in dir_lookup"
      else
        inum ← mem_half de;
        if decide (inum = 0) then mret None
        else
          c ← dir_namecmp (de + 2) name;
          if decide (c = 0) then found inum else mret None) s
      = (if ent_matches D e k then found (ent_inum D k) else mret None) s'
    /\ tr s' ents V ∅ ∅ /\ scanned de s s'.
Proof.
  intros R G Hi Hd Hl Hk Hs He Hdis Hb HD.
  destruct (read_entry s ents V i n D de k R G Hi Hd Hl Hk) as (s1 & E1 & R1 & F1 & P1).
  pose proof (half_of_patched _ _ _ _ _ P1) as Hh.
  exists s1. rewrite (bind_ok _ _ _ _ _ E1). rewrite (decide_False (P := _ <> _)) by (intros C; by apply C).
  split; [|split; [done|eapply scanned_step; [apply scanned_refl|done|exact P1|intros j; apply HD]]].
  unfold mem_half. rewrite gets_bind, Hh. unfold ent_matches.
  destruct (decide (ent_inum D k = 0)) as [H0|H0]; [by rewrite bool_decide_false by (intros C; by apply C)|].
  rewrite bool_decide_true by done. unfold dir_namecmp. rewrite gets_bind. cbn [andb].
  assert (strncmp (de + 2) name 14 (mm s1) = 0 <-> ent_named D e k = true) as Hn.
  { apply strncmp_ent; [|done| |].
    - apply (cstr_ext (mm s)); [|done]. intros z Hz. by rewrite (P1 z), decide_False by lia.
    - intros a. rewrite (P1 a). case_decide; [apply HD|apply Hb].
    - intros j Hj. rewrite (P1 _), decide_True by lia. f_equal. lia. }
  change (Z.to_nat DIRSIZ) with 14%nat. destruct (ent_named D e k).
  - rewrite decide_True by (by apply Hn). done.
  - rewrite decide_False by (intros C; by apply Hn in C). done.
Qed.

(** A free slot in the inode cache *)
Definition room (R : refs) : Prop := exists j, 0 <= j < NINODE /\ R !! j = None.

Lemma dir_lookup_spec s ents V i n D lookup_de name e R (x := inodes s !!! i) :
  tr s ents V ∅ ∅ -> geo V -> 0 <= i < NINODE -> dir_in V x n D -> (length ents <= 9)%nat ->
  cstr (mm s) name e -> (length e <= 13)%nat -> name + Z.of_nat (length e) < lookup_de \/ lookup_de + 16 <= name ->
  bytes_ok (mm s) -> (forall o, 0 <= D o < 256) -> ic_rep s R -> small R -> room R ->
  match dir_find D n e with
  | None => exists s', dir_lookup lookup_de (PInode i) name s = Ok ((PNull, 0), s') /\ tr s' ents V ∅ ∅ /\ scanned lookup_de s s'
  | Some k => exists i' s1 s' R', dir_lookup lookup_de (PInode i) name s = Ok ((PInode i', 16 * k), s')
      /\ tr s' ents V ∅ ∅ /\ scanned lookup_de s s1 /\ keeps R s1 s'
      /\ ref_step R (IGet ROOTDEV (ent_inum D k)) i' R' /\ ic_rep s' R' /\ key (inodes s' !!! i') = (ROOTDEV, ent_inum D k)
      /\ (R !! i' = None -> i_flags (inodes s' !!! i') = 0)
  end.
Proof.
  intros R0 G Hi Hd Hl Hs He Hdis Hb HD I Hsm Hrm. pose proof (di_size _ _ _ _ Hd) as Hsz. fold x in Hsz.
  pose proof (fo_size _ _ _ _ _ (di_ok _ _ _ _ Hd)) as Hsz0. fold x in Hsz0.
  unfold dir_lookup. rewrite (bind_ok _ _ _ _ _ (ino_read_ok i i_type s Hi)). fold x.
  rewrite (decide_False (P := _ <> T_DIR)) by (rewrite (di_type _ _ _ _ Hd); intros C; by apply C).
  rewrite (bind_ok _ _ _ _ _ (ino_read_ok i i_size s Hi)). fold x. rewrite Hsz.
  match goal with |- context [first_of _ ?f] => set (body := f) end.
  destruct (first_of_ind (fun d y => tr y ents V ∅ ∅ /\ scanned lookup_de s y
      /\ forall k, 0 <= k < Z.of_nat (length d) -> ent_matches D e k = false)
    (fun d off r y => off = 16 * Z.of_nat (length d) /\ Z.of_nat (length d) < n /\ ent_matches D e (Z.of_nat (length d)) = true
      /\ (forall k, 0 <= k < Z.of_nat (length d) -> ent_matches D e k = false)
      /\ exists i' s1 R', r = (PInode i', off) /\ tr y ents V ∅ ∅ /\ scanned lookup_de s s1 /\ keeps R s1 y
        /\ ref_step R (IGet ROOTDEV (ent_inum D (Z.of_nat (length d)))) i' R' /\ ic_rep y R'
        /\ key (inodes y !!! i') = (ROOTDEV, ent_inum D (Z.of_nat (length d)))
        /\ (R !! i' = None -> i_flags (inodes y !!! i') = 0))
    body (dir_offs 0 (16 * n))) with (s := s) as (o & s' & E & Ho).
  - intros d off r y Ed (Ry & Sy & Hbef). apply dir_offs_split in Ed as [-> Hlt]; [|lia].
    assert (inodes y = inodes s) as Ey by apply Sy. set (k := Z.of_nat (length d)) in *.
    destruct (check_entry y ents V i n D lookup_de name e k (fun inum => dev ← ino_read (PInode i) i_dev;
        ip ← inode_get dev inum; mret (Some (ip, 16 * k)))) as (y1 & E1 & R1 & S1); rewrite ?Ey; try done; [lia| | |].
    { apply (cstr_ext (mm s)); [|done]. intros z Hz. apply (sc_mem _ _ _ Sy). lia. }
    { by apply (sc_bytes _ _ _ Sy). }
    pose proof (scanned_trans _ _ _ _ Sy S1) as S2. unfold body. rewrite E1. destruct (ent_matches D e k) eqn:Em.
    + assert (i_dev (inodes y1 !!! i) = ROOTDEV) as Edev.
      { rewrite (rf_inodes _ _ (sc_frame _ _ _ S2)). apply (fo_dev _ _ _ _ _ (di_ok _ _ _ _ Hd)). }
      rewrite (bind_ok _ _ _ _ _ (ino_read_ok i i_dev y1 Hi)), Edev.
      destruct (inode_get_spec y1 R ROOTDEV (ent_inum D k)) as [(i' & y2 & R' & E2 & St & I2 & K2 & Ek & Ef)|(_ & Hfull & _)];
        [eapply ic_rep_scanned; [exact S2|by eapply trep_kern|done]|done| |].
      * rewrite (bind_ok _ _ _ _ _ E2). eexists (Some (PInode i', 16 * k)), y2. split; [done|].
        split_and!; [done..|]. exists i', y1, R'. split_and!; [done| |done..].
        eapply trep_blocks; [apply K2|done].
      * exfalso. destruct Hrm as (j & Hj & Hn). destruct (Hfull j Hj) as [? Hc]. congruence.
    + exists None, y1. split; [done|]. split; [done|]. split; [done|]. rewrite length_app. cbn [length].
      intros j Hj. destruct (decide (j = k)) as [->|]; [done|]. apply Hbef. unfold k in *. lia.
  - split; [done|]. split; [apply scanned_refl|]. cbn. lia.
  - rewrite (bind_ok _ _ _ _ _ E). destruct o as [r|].
    + destruct Ho as (d & off & rr & Ed & Eoff & Hlt & Hm & Hbef & i' & s1 & R' & -> & Hrest).
      rewrite (proj2 (dir_find_spec D n e (Z.of_nat (length d)))) by (split; [lia|done]).
      exists i', s1, s', R'. cbn [default from_option]. rewrite Eoff. by split.
    + destruct Ho as (R1 & S1 & Hall). rewrite dir_offs_length, Z2Nat.id in Hall by lia.
      rewrite (proj2 (dir_find_none D n e) Hall). by exists s'.
Qed.
End Lookup.

(** ** Adding an entry *)
Definition new_entry (inum : Z) (e : list Z) (j : Z) : Z :=
  if decide (j < 2) then half_bytes inum !!! Z.to_nat j
  else if decide (j - 2 < Z.of_nat (length e)) then at_ e (j - 2) else 0.
Definition put_entry (k inum : Z) (e : list Z) (D : Z -> Z) (o : Z) : Z :=
  if decide (16 * k <= o < 16 * k + 16) then new_entry inum e (o - 16 * k) else D o.

(** A name fits into an entry with its terminator. *)
Definition name_ok (e : list Z) : Prop := (length e <= 13)%nat /\ Forall (fun c => 0 < c < 256) e.

Lemma name_ok_at e i : name_ok e -> 0 <= i < Z.of_nat (length e) -> 0 < at_ e i < 256.
Proof.
  intros [_ H] Hi. rewrite Forall_forall in H. apply H. unfold at_. apply list_elem_of_lookup_total_2. lia.
Qed.

Lemma new_entry_byte inum e j : name_ok e -> 0 <= new_entry inum e j < 256.
Proof.
  intros He. unfold new_entry. case_decide as H2; [|case_decide; [|lia]].
  - assert (Forall (fun c => 0 <= c < 256) (half_bytes inum)) as Hf.
    { unfold half_bytes. repeat constructor; apply Z.mod_pos_bound; lia. }
    rewrite Forall_forall in Hf. apply Hf. apply list_elem_of_lookup_total_2. cbn. lia.
  - pose proof (name_ok_at e (j - 2) He ltac:(lia)). lia.
Qed.
Lemma put_entry_byte k inum e D : name_ok e -> (forall o, 0 <= D o < 256) -> forall o, 0 <= put_entry k inum e D o < 256.
Proof. intros He HD o. unfold put_entry. case_decide; [by apply new_entry_byte|apply HD]. Qed.

Section Put.
Context (k inum : Z) (e : list Z) (D : Z -> Z) (He : name_ok e) (Hin : 0 < inum < 65536).
Notation D' := (put_entry k inum e D).

Lemma put_inum : ent_inum D' k = inum.
Proof.
  etransitivity; [|exact (half_bytes_half inum ltac:(lia))]. unfold ent_inum, half_of, put_entry. rewrite !decide_True by lia.
  unfold new_entry. rewrite !decide_True by lia. replace (16 * k - 16 * k) with 0 by lia.
  by replace (16 * k + 1 - 16 * k) with (0 + 1) by lia.
Qed.
Lemma put_other j : j <> k -> ent_inum D' j = ent_inum D j /\ forall e', (length e' <= 13)%nat -> ent_matches D' e' j = ent_matches D e' j.
Proof.
  intros Hj. assert (forall i, 0 <= i < 16 -> D' (16 * j + i) = D (16 * j + i)) as E.
  { intros i Hi. unfold put_entry. by rewrite decide_False by lia. }
  assert (ent_inum D' j = ent_inum D j) as Ei.
  { unfold ent_inum. apply half_of_ext. intros i Hi. apply E. lia. }
  split; [done|]. intros e' He'. unfold ent_matches. rewrite Ei. f_equal. unfold ent_named. apply bool_decide_ext.
  assert (map (fun i => D' (16 * j + 2 + i)) (seqZ 0 14) = map (fun i => D (16 * j + 2 + i)) (seqZ 0 14)) as ->; [|done].
  apply map_ext_in. intros i Hi%list_elem_of_In%elem_of_seqZ. rewrite <- !Z.add_assoc. apply E. lia.
Qed.

Lemma put_byte i : 0 <= i < 14 -> D' (16 * k + 2 + i) = if decide (i < Z.of_nat (length e)) then at_ e i else 0.
Proof.
  intros Hi. unfold put_entry. rewrite decide_True by lia. unfold new_entry. rewrite decide_False by lia.
  by replace (16 * k + 2 + i - 16 * k - 2) with i by lia.
Qed.
Lemma put_named e' : name_ok e' -> ent_named D' e' k = true <-> e' = e.
Proof.
  intros He'. pose proof (proj1 He) as Hl. pose proof (proj1 He') as Hl'. rewrite ent_named_iff by done. split.
  - intros [H1 H0]. rewrite put_byte in H0 by lia.
    assert (length e' = length e) as Elen.
    { destruct (Nat.lt_trichotomy (length e') (length e)) as [H|[|H]]; [|done|].
      - rewrite decide_True in H0 by lia. pose proof (name_ok_at e (Z.of_nat (length e')) He ltac:(lia)). lia.
      - specialize (H1 (Z.of_nat (length e)) ltac:(lia)). rewrite put_byte, decide_False in H1 by lia.
        pose proof (name_ok_at e' (Z.of_nat (length e)) He' ltac:(lia)). lia. }
    apply list_eq_same_length with (length e); [done|lia|]. intros i a b Hi Ha Hb.
    specialize (H1 (Z.of_nat i) ltac:(lia)). rewrite put_byte, decide_True in H1 by lia. unfold at_ in H1. rewrite !Nat2Z.id in H1.
    rewrite (list_lookup_total_correct _ _ _ Ha), (list_lookup_total_correct _ _ _ Hb) in H1. done.
  - intros ->. split; [intros i Hi|]; rewrite put_byte by lia; [by rewrite decide_True by lia|by rewrite decide_False by lia].
Qed.

(** The table of names with the entry in an unused place or at the end *)
Lemma put_find n : 0 <= k <= n -> (k < n -> ent_inum D k = 0) -> dir_find D n e = None ->
  dir_find D' (Z.max n (k + 1)) e = Some k
  /\ forall e', name_ok e' -> e' <> e -> dir_find D' (Z.max n (k + 1)) e' = dir_find D n e'.
Proof.
  intros Hk Hfree Hnone. pose proof (proj1 (dir_find_none _ _ _) Hnone) as Hno. split.
  - apply dir_find_spec. split; [lia|]. split.
    + unfold ent_matches. rewrite put_inum, bool_decide_true by lia. by apply put_named.
    + intros j Hj. rewrite (proj2 (put_other j ltac:(lia))) by apply He. apply Hno. lia.
  - intros e' He' Hne.
    assert (ent_matches D' e' k = false) as Hk'.
    { unfold ent_matches. destruct (ent_named D' e' k) eqn:E; [|apply andb_false_r]. by apply put_named in E. }
    assert (k < n -> ent_matches D e' k = false) as Hk0.
    { intros H. unfold ent_matches. by rewrite Hfree, bool_decide_false by (done || (intros C; by apply C)). }
    assert (forall j, 0 <= j < Z.max n (k + 1) -> j = k \/ (j < n /\ ent_matches D' e' j = ent_matches D e' j)) as Hj.
    { intros j Hj. destruct (decide (j = k)) as [|Hjk]; [by left|]. right. split; [lia|]. apply put_other; [done|apply He']. }
    destruct (dir_find D n e') as [j|] eqn:E.
    + apply dir_find_spec in E as (Hr & Hm & Hb). apply dir_find_spec. split; [lia|].
      destruct (Hj j ltac:(lia)) as [->|[_ ->]]; [rewrite Hk0 in Hm by lia; done|]. split; [done|].
      intros j' Hj'. destruct (Hj j' ltac:(lia)) as [->|[_ ->]]; [done|apply Hb; lia].
    + apply dir_find_none. pose proof (proj1 (dir_find_none _ _ _) E) as Hn'. intros j Hr.
      destruct (Hj j Hr) as [->|[Hlt ->]]; [done|apply Hn'; lia].
Qed.
End Put.

(** The first unused entry, or the end of the directory *)
Record slot_at (D : Z -> Z) (n k : Z) : Prop := {
  sl_range : 0 <= k <= n;
  sl_free : k < n -> ent_inum D k = 0;
  sl_first j : 0 <= j < k -> ent_inum D j <> 0;
}.

Section Link.
Context {T : Type} `{!FsKernel T} `{!FsKernelLaws T}.
Context (tx : txn) (V0 : Z -> list Z) (fsz nino st sz : Z).
Implicit Types (s : fsys T) (V : Z -> list Z).
Notation tr s ents V U H := (trep tx V0 s st sz ents V U H).
Notation geo V := (geometry V fsz nino st sz).
Notation mm s := (fk_mem (kern s)).

Lemma find_slot s ents V i n D de (x := inodes s !!! i) :
  tr s ents V ∅ ∅ -> geo V -> 0 <= i < NINODE -> dir_in fsz nino st V x n D -> (length ents <= 9)%nat ->
  (forall o, 0 <= D o < 256) ->
  exists o s' k, first_of (dir_offs 0 (16 * n)) (fun off =>
      n ← inode_read (PInode i) de off sizeof_dirent;
      if decide (n <> sizeof_dirent) then panic "entry size read is not correct, dir_link"
      else
        i ← mem_half de;
        if decide (i = 0) then mret (Some off) else mret None) s = Ok (o, s')
    /\ default (sizeof_dirent * Z.of_nat (length (dir_offs 0 (16 * n)))) o = 16 * k /\ slot_at D n k
    /\ tr s' ents V ∅ ∅ /\ scanned de s s'.
Proof.
  intros R0 G Hi Hd Hl HD. pose proof (di_size _ _ _ _ _ _ _ Hd) as Hsz. fold x in Hsz.
  pose proof (fo_size _ _ _ _ _ (di_ok _ _ _ _ _ _ _ Hd)) as Hsz0. fold x in Hsz0.
  match goal with |- context [first_of _ ?f] => set (body := f) end.
  destruct (first_of_ind (fun d y => tr y ents V ∅ ∅ /\ scanned de s y
      /\ forall j, 0 <= j < Z.of_nat (length d) -> ent_inum D j <> 0)
    (fun d off r y => r = off /\ off = 16 * Z.of_nat (length d) /\ slot_at D n (Z.of_nat (length d))
      /\ tr y ents V ∅ ∅ /\ scanned de s y) body (dir_offs 0 (16 * n))) with (s := s) as (o & s' & E & Ho).
  - intros d off r y Ed (Ry & Sy & Hbef). apply dir_offs_split in Ed as [-> Hlt]; [|lia]. set (k := Z.of_nat (length d)) in *.
    assert (inodes y = inodes s) as Ey by apply Sy.
    destruct (read_entry tx V0 fsz nino st sz y ents V i n D de k Ry G Hi) as (y1 & E1 & R1 & F1 & P1);
      [by rewrite Ey|done|lia|].
    assert (scanned de s y1) as S1 by (eapply scanned_step; [exact Sy|done|exact P1|intros j; apply HD]).
    unfold body. rewrite (bind_ok _ _ _ _ _ E1), (decide_False (P := _ <> _)) by (intros C; by apply C).
    unfold mem_half. rewrite gets_bind, (half_of_patched _ _ _ _ _ P1).
    destruct (decide (ent_inum D k = 0)) as [H0|H0].
    + exists (Some (16 * k)), y1. split; [done|]. split_and!; [done..| |done|done]. split; [lia|done|done].
    + exists None, y1. split; [done|]. split; [done|]. split; [done|]. rewrite length_app. cbn [length].
      intros j Hj. destruct (decide (j = k)) as [->|]; [done|]. apply Hbef. unfold k in *. lia.
  - split; [done|]. split; [apply scanned_refl|]. cbn. lia.
  - exists o, s'. destruct o as [r|].
    + destruct Ho as (d & off & rr & Ed & -> & Eoff & Hs & R1 & S1). exists (Z.of_nat (length d)). by split_and!.
    + destruct Ho as (R1 & S1 & Hall). rewrite dir_offs_length, Z2Nat.id in * by lia. exists n. split_and!; try done.
      split; [lia|lia|done].
Qed.

(** The new entry in memory *)
Lemma entry_in_mem m de name inum e j :
  cstr m name e -> name_ok e -> name + 14 <= de \/ de + 16 <= name -> 0 < inum < 65536 -> 0 <= j < 16 ->
  strncpy (de + 2) name 14 (store_bytes de (half_bytes (u16 inum)) m) !!! (de + j) = new_entry inum e j.
Proof.
  intros [Hc Hn He] Hok Hd Hin Hj. pose proof (proj1 Hok) as Hl.
  set (m1 := store_bytes de (half_bytes (u16 inum)) m).
  assert (patched m m1 de 2 (fun j => half_bytes inum !!! Z.to_nat j)) as P1.
  { unfold m1. assert (u16 inum = inum) as -> by (unfold u16; apply Z.mod_small; lia).
    apply (store_bytes_patched de (half_bytes inum) m). }
  assert (forall z, name <= z < name + 14 -> m1 !!! z = m !!! z) as Eq by (intros z Hz; by rewrite (P1 z), decide_False by lia).
  assert (strnlen name 14 m1 = Z.of_nat (length e)) as Es.
  { apply strnlen_stop; [lia|intros i Hi; rewrite Eq, Hc by lia; by apply Hn|by rewrite Eq by lia]. }
  rewrite (strncpy_patched 14 (de + 2) name m1 ltac:(lia)), Es. unfold new_entry.
  destruct (decide (j < 2)) as [H2|H2].
  - rewrite decide_False by lia. rewrite (P1 _), decide_True by lia. f_equal. lia.
  - rewrite decide_True by lia. replace (de + j - (de + 2)) with (j - 2) by lia.
    case_decide; [|done]. rewrite Eq by lia. apply Hc. lia.
Qed.

Lemma spans_entry k : 0 <= k -> spans (16 * k) 16 = 1.
Proof.
  intros Hk. unfold spans, BSIZE. rewrite decide_False by lia.
  assert ((16 * k + 16 - 1) / 512 = 16 * k / 512) as ->; [|lia].
  pose proof (Z.div_mod k 32 ltac:(lia)) as Ek. pose proof (Z.mod_pos_bound k 32 ltac:(lia)).
  symmetry. rewrite <- (Z.div_unique (16 * k) 512 (k / 32) (16 * (k mod 32))) by lia.
  apply Z.div_unique with (16 * (k mod 32) + 15); lia.
Qed.

Context (Hbz : tx_busy tx = 1) (Hone : fsz <= BPB).

(** Writing the entry *)
Lemma write_entry s ents V C i n D de name inum e k (x := inodes s !!! i) :
  tr s ents V ∅ ∅ -> geo V -> 0 <= i < NINODE -> open_file fsz nino st V x -> dir_in fsz nino st V x n D ->
  cstr (mm s) name e -> name_ok e -> name + 14 <= de \/ de + 16 <= name -> 0 < inum < 65536 ->
  slot_at D n k -> 16 * k + 16 <= 140 * BSIZE -> avail fsz nino st V 2 ->
  covered fsz nino C ents (i_addrs x !!! 12) -> Z.of_nat (size C) + 1 <= 4 ->
  exists s1 s' V' ents' C', (mem_store de (half_bytes (u16 inum)) ;; mem_mod (strncpy (de + 2) name 14) ;;
      n ← inode_write (PInode i) de (16 * k) sizeof_dirent;
      if decide (n <> sizeof_dirent) then panic "entry size write is not corrent, dir_link" else mret 0) s = Ok (0, s')
    /\ rframe s s1 /\ same_but de 16 (mm s) (mm s1) /\ (bytes_ok (mm s) -> bytes_ok (mm s1))
    /\ tr s' ents' V' ∅ ∅ /\ iframe i s1 s'
    /\ written fsz nino st sz (16 * k) 16 (new_entry inum e) V x V' (inodes s' !!! i)
    /\ covered fsz nino C' ents' (i_addrs (inodes s' !!! i) !!! 12) /\ Z.of_nat (size C') <= Z.of_nat (size C) + 2
    /\ dir_in fsz nino st V' (inodes s' !!! i) (Z.max n (k + 1)) (put_entry k inum e D).
Proof.
  intros R0 G Hi O Hd Hs Hok Hdis Hin [Hk Hfree _] Hmax Hav Hc HC.
  destruct (mem_store_ok tx V0 st sz de (half_bytes (u16 inum)) s) as (s1 & E1 & F1 & Em1 & T1).
  rewrite (bind_ok _ _ _ _ _ E1), (bind_ok _ _ _ _ _ (mem_mod_ok _ s1)). set (s2 := with_mem _ s1).
  assert (rframe s s2) as F2 by (eapply rframe_trans; [exact F1|by split]).
  assert (mm s2 = strncpy (de + 2) name 14 (store_bytes de (half_bytes (u16 inum)) (mm s))) as Em2
    by (unfold s2; rewrite mm_with_mem, Em1; done).
  assert (tr s2 ents V ∅ ∅) as R2 by (apply trep_set_mem; by apply T1).
  assert (inodes s2 = inodes s) as Ei by apply F2. pose proof (di_size _ _ _ _ _ _ _ Hd) as Hsz. fold x in Hsz.
  pose proof (spans_entry k ltac:(lia)) as Hsp. pose proof (fo_size _ _ _ _ _ (of_ok _ _ _ _ _ O)) as Hsz0. fold x in Hsz0.
  destruct (inode_write_spec tx V0 fsz nino st sz Hbz Hone s2 ents V C i de (16 * k) sizeof_dirent R2 G Hi)
    as (s' & V' & ents' & C' & E3 & W & HC'); change sizeof_dirent with 16 in *; rewrite ?Ei, ?Hsp; try done; [fold x; lia|].
  rewrite (bind_ok _ _ _ _ _ E3), (decide_False (P := 16 <> 16)) by lia.
  pose proof (written_of _ _ _ _ _ _ _ _ _ _ _ _ _ _ _ _ _ W) as Hw. rewrite Ei in Hw. fold x in Hw.
  apply (written_fix _ _ _ _ _ _ _ (new_entry inum e)) in Hw; [|intros j Hj; rewrite Em2; by apply entry_in_mem].
  exists s2, s', V', ents', C'. split; [done|]. split; [done|]. assert (same_but de 16 (mm s) (mm s2)) as Hsb.
  { intros z Hz. rewrite Em2, (strncpy_patched 14 (de + 2) name _ ltac:(lia)), decide_False by lia.
    rewrite (store_bytes_patched _ _ _ z), decide_False by (cbn; lia). done. }
  split; [done|]. split.
  { intros Hb a. destruct (decide (de <= a < de + 16)) as [Ha|Ha]; [|by rewrite Hsb].
    rewrite Em2. replace a with (de + (a - de)) by lia. rewrite (entry_in_mem _ _ _ _ e) by (done || lia). by apply new_entry_byte. }
  split; [exact (fw_tr _ _ _ _ _ _ _ _ _ _ _ _ _ _ _ _ _ W)|]. split; [exact (fw_frame _ _ _ _ _ _ _ _ _ _ _ _ _ _ _ _ _ W)|].
  split; [done|]. split; [exact (fw_covered _ _ _ _ _ _ _ _ _ _ _ _ _ _ _ _ _ W)|]. split; [lia|].
  split.
  - apply (wn_open _ _ _ _ _ _ _ _ _ _ _ Hw).
  - etransitivity; [exact (f_equal i_type (wn_same _ _ _ _ _ _ _ _ _ _ _ Hw))|exact (di_type _ _ _ _ _ _ _ Hd)].
  - rewrite (wn_size _ _ _ _ _ _ _ _ _ _ _ Hw). fold x. lia.
  - intros o Ho. unfold put_entry. rewrite (wn_byte _ _ _ _ _ _ _ _ _ _ _ Hw) by lia.
    case_decide; [done|]. apply (di_bytes _ _ _ _ _ _ _ Hd). fold x. lia.
Qed.

(** Changing the contents of an inode does not change the references. *)
Lemma ic_rep_same s s' R i :
  ic_lock s' = ic_lock s -> (forall j, j <> i -> inodes s' !!! j = inodes s !!! j) ->
  same_file (inodes s !!! i) (inodes s' !!! i) -> fk_inv (kern s') -> ic_rep s R -> ic_rep s' R.
Proof.
  intros El F Hsm Hk. apply ic_rep_ext; [done| |done]. intros j.
  destruct (decide (j = i)) as [->|Hj]; [by rewrite Hsm|by rewrite F].
Qed.

Definition apart (name de : Z) : Prop := name + 14 <= de \/ de + 16 <= name.

(** A new name *)
Lemma dir_link_new s ents V C i n D lookup_de link_de name inum e R (x := inodes s !!! i) :
  tr s ents V ∅ ∅ -> geo V -> 0 <= i < NINODE -> open_file fsz nino st V x -> dir_in fsz nino st V x n D ->
  (forall o, 0 <= D o < 256) -> cstr (mm s) name e -> name_ok e -> apart name lookup_de -> apart name link_de ->
  bytes_ok (mm s) -> 0 < inum < 65536 -> 16 * n + 16 <= 140 * BSIZE -> avail fsz nino st V 2 ->
  ic_rep s R -> small R -> room R ->
  covered fsz nino C ents (i_addrs x !!! 12) -> Z.of_nat (size C) + 1 <= 4 -> dir_find D n e = None ->
  exists s' V' ents' C' k, dir_link lookup_de link_de (PInode i) name inum s = Ok (0, s')
    /\ slot_at D n k /\ tr s' ents' V' ∅ ∅ /\ ic_rep s' R
    /\ written fsz nino st sz (16 * k) 16 (new_entry inum e) V x V' (inodes s' !!! i)
    /\ covered fsz nino C' ents' (i_addrs (inodes s' !!! i) !!! 12) /\ Z.of_nat (size C') <= Z.of_nat (size C) + 2
    /\ dir_in fsz nino st V' (inodes s' !!! i) (Z.max n (k + 1)) (put_entry k inum e D)
    /\ (forall z, ~ lookup_de <= z < lookup_de + 16 -> ~ link_de <= z < link_de + 16 -> mm s' !!! z = mm s !!! z)
    /\ bytes_ok (mm s') /\ (forall j, j <> i -> inodes s' !!! j = inodes s !!! j).
Proof.
  intros R0 G Hi O Hd HD Hs Hok Ha1 Ha2 Hb Hin Hmax Hav I Hsm Hrm Hc HC Hnone. unfold apart in Ha1, Ha2.
  assert (length ents <= 9)%nat as Hl.
  { pose proof (covered_length fsz nino C ents _ Hone (tr_nodup _ _ _ _ _ _ _ _ _ R0) Hc). lia. }
  pose proof (proj1 Hok) as He13.
  pose proof (dir_lookup_spec tx V0 fsz nino st sz s ents V i n D lookup_de name e R R0 G Hi Hd Hl Hs He13 ltac:(lia) Hb HD I Hsm Hrm) as Hlk.
  rewrite Hnone in Hlk. destruct Hlk as (s1 & E1 & R1 & S1).
  assert (inodes s1 = inodes s) as Ei1 by apply S1. pose proof (di_size _ _ _ _ _ _ _ Hd) as Hsz. fold x in Hsz.
  destruct (find_slot s1 ents V i n D link_de R1 G Hi) as (o & s2 & k & E2 & Ek & Hsl & R2 & S2); [by rewrite Ei1|done|done|].
  assert (inodes s2 = inodes s) as Ei2 by (rewrite <- Ei1; apply S2).
  assert (forall z, ~ lookup_de <= z < lookup_de + 16 -> ~ link_de <= z < link_de + 16 -> mm s2 !!! z = mm s !!! z) as M2.
  { intros z H1 H2. rewrite (sc_mem _ _ _ S2) by done. by apply (sc_mem _ _ _ S1). }
  destruct (write_entry s2 ents V C i n D link_de name inum e k) as (s3 & s4 & V' & ents' & C' & E3 & F3 & M3 & B3 & R4 & F4 & W & Hc' & HC' & Hd');
    rewrite ?Ei2; try done; [|pose proof (sl_range _ _ _ Hsl); lia|].
  { apply (cstr_ext (mm s)); [|done]. intros z Hz. apply M2; lia. }
  rewrite Ei2 in W. fold x in W.
  exists s4, V', ents', C', k. split.
  { unfold dir_link. rewrite (bind_ok _ _ _ _ _ E1). cbn [fst]. rewrite (decide_False (P := PNull <> PNull)) by (intros C0; by apply C0).
    rewrite (bind_ok _ _ _ _ _ (ino_read_ok i i_size s1 Hi)), Ei1. fold x. rewrite Hsz, (bind_ok _ _ _ _ _ E2).
    rewrite Ek. exact E3. }
  assert (ic_lock s4 = ic_lock s) as El4.
  { rewrite (if_ic_lock _ _ _ F4), (rf_ic_lock _ _ F3), (rf_ic_lock _ _ (sc_frame _ _ _ S2)). apply S1. }
  assert (forall j, j <> i -> inodes s4 !!! j = inodes s !!! j) as Ej4.
  { intros j Hj. by rewrite (if_inodes _ _ _ F4), (rf_inodes _ _ F3), Ei2. }
  split_and!; try done.
  - eapply ic_rep_same; [exact El4|exact Ej4|exact (wn_same _ _ _ _ _ _ _ _ _ _ _ W)|by eapply trep_kern|done].
  - intros z H1 H2. rewrite (if_mem _ _ _ F4), M3 by done. by apply M2.
  - rewrite (if_mem _ _ _ F4). by apply B3, (sc_bytes _ _ _ S2), (sc_bytes _ _ _ S1).
Qed.
End Link.

(** [dir_link] as a transaction of its own *)
Section LinkTrans.
Context {T : Type} `{!FsKernel T} `{!FsKernelLaws T}.
Context (fsz nino st sz : Z) (Hone : fsz <= BPB).
Implicit Types (s : fsys T) (V : Z -> list Z).
Notation mm s := (fk_mem (kern s)).

(** What is left behind, apart from the blocks *)
Record linked s s' V' (i n k inum lookup_de link_de : Z) (e : list Z) (D : Z -> Z) (R : refs) : Prop := {
  ln_slot : slot_at D n k;
  ln_dir : dir_in fsz nino st V' (inodes s' !!! i) (Z.max n (k + 1)) (put_entry k inum e D);
  ln_refs : ic_rep s' R;
  ln_mem z : ~ lookup_de <= z < lookup_de + 16 -> ~ link_de <= z < link_de + 16 -> mm s' !!! z = mm s !!! z;
  ln_bytes : bytes_ok (mm s');
}.

Lemma link_in_trans s V i n D lookup_de link_de name inum e R (x := inodes s !!! i) :
  irep s st sz V -> geometry V fsz nino st sz -> 0 <= i < NINODE -> open_file fsz nino st V x ->
  dir_in fsz nino st V x n D -> (forall o, 0 <= D o < 256) ->
  cstr (mm s) name e -> name_ok e -> apart name lookup_de -> apart name link_de ->
  bytes_ok (mm s) -> 0 < inum < 65536 -> 16 * n + 16 <= 140 * BSIZE -> avail fsz nino st V 2 ->
  ic_rep s R -> small R -> room R -> dir_find D n e = None ->
  exists s' V' hist k, in_trans (dir_link lookup_de link_de (PInode i) name inum) s = Ok (0, s')
    /\ irep s' st sz V' /\ linked s s' V' i n k inum lookup_de link_de e D R
    /\ written fsz nino st sz (16 * k) 16 (new_entry inum e) V x V' (inodes s' !!! i)
    /\ past s' = hist ++ past s
    /\ forall im, im ∈ disk s' :: hist -> restarts_to T im st sz V \/ restarts_to T im st sz V'.
Proof.
  intros I G Hi O Hd HD Hs Hok Ha1 Ha2 Hb Hin Hmax Hav IC Hsm Hrm Hnone.
  destruct (in_trans_run (dir_link lookup_de link_de (PInode i) name inum) s st sz V
    (fun r s2 V' => r = 0 /\ exists k, linked s s2 V' i n k inum lookup_de link_de e D R
       /\ written fsz nino st sz (16 * k) 16 (new_entry inum e) V x V' (inodes s2 !!! i)) I (geometry_sb _ _ _ _ _ G))
    as (r & s2 & s' & V' & hist & E & I' & (-> & k & L & W) & S & P & C).
  - intros s1 T1 [El Ei _ _ Em].
    assert (ic_rep s1 R) as IC1.
    { eapply ic_rep_ext; [exact El|by rewrite Ei|by eapply trep_kern|done]. }
    destruct (dir_link_new (mk_txn 1 (past s)) V fsz nino st sz eq_refl Hone s1 [] V ∅ i n D lookup_de link_de name inum e R)
      as (s2 & V' & ents & C & k & E2 & Hsl & T2 & I2 & W & Hc & HC & Hd' & M & B & Ej);
      rewrite ?Ei, ?Em; try done; [by intros y []%elem_of_nil|].
    exists 0, s2, ents, V'. rewrite Ei in W. rewrite Em in M. split_and!; try done.
    + pose proof (covered_length fsz nino C ents _ Hone (tr_nodup _ _ _ _ _ _ _ _ _ T2) Hc). rewrite size_empty in HC. lia.
    + eapply geometry_sb. exact (wn_geo _ _ _ _ _ _ _ _ _ _ _ W).
    + exists k. by split.
  - exists s', V', hist, k. destruct S as [El Ei _ _ Em]. rewrite <- Ei in W. split_and!; try done.
    destruct L. split; rewrite ?Em, ?Ei; try done. eapply ic_rep_ext; [exact El|by rewrite Ei|by eapply irep_kern|done].
Qed.
End LinkTrans.

Module DirProps.

(** [skipelem] splits a path as the reference does.  For a path
    of at most 130 characters, with [name] a separate buffer of 14 bytes,
    [skipelem] returns null exactly when the path has no elements.  Otherwise it
    copies the first element to [name], cut to 13 characters and terminated,
    and returns a pointer to the rest of the path: the elements of the rest are
    the remaining elements, it does not start with a slash, and it is the empty
    string exactly after the last element.  Memory other than [name] is unchanged. *)
Theorem skipelem_splits_path {T : Type} `{!FsKernel T} `{!FsKernelLaws T} (s : fsys T) path name l :
  cstr (fk_mem (kern s)) path l -> path <> 0 -> (length l <= path_fuel)%nat ->
  name + DIRSIZ <= path \/ path + Z.of_nat (length l) < name ->
  match elements l with
  | [] => skipelem path name s = Ok (None, s)
  | e :: es => exists s' l1 r, skipelem path name s = Ok (Some (path + Z.of_nat (length l1)), s')
      /\ l = l1 ++ r /\ elements r = es /\ (es = [] <-> r = []) /\ head r <> Some SLASH
      /\ cstr (fk_mem (kern s')) name (take 13 e) /\ cstr (fk_mem (kern s')) (path + Z.of_nat (length l1)) r
      /\ same_but name DIRSIZ (fk_mem (kern s)) (fk_mem (kern s'))
  end.
Proof.
  intros Hs Hp Hl Hd. pose proof (skipelem_spec s path name l Hs Hp Hl Hd) as H. destruct (elements l) as [|e es]; [done|].
  destruct H as (s' & l1 & r & E & -> & Hr & Hlast & Hh & Hn & [Hm _ _]). rewrite length_app in Hd.
  exists s', l1, r. split_and!; try done. apply cstr_app in Hs. eapply cstr_ext; [|exact Hs].
  intros z Hz. apply Hm. lia.
Qed.

(** C16 (roundtrip): a name that has been linked is found.  In a directory without
    the name [e], [dir_link] in a transaction returns 0; the table of names then
    has [e] with the inode number, in the first unused entry or at the end, and
    all other names as before; the entry is 16 bytes, other files and inodes are
    unchanged ([written]), and after a crash the directory has the new entry or
    it has not.  [dir_lookup] of the name then returns an inode of the cache for
    that number. *)
Theorem linked_name_is_found {T : Type} `{!FsKernel T} `{!FsKernelLaws T}
    fsz nino st sz (s : fsys T) V i n D lookup_de link_de name inum e R (x := inodes s !!! i) :
  fsz <= BPB -> irep s st sz V -> geometry V fsz nino st sz -> 0 <= i < NINODE -> open_file fsz nino st V x ->
  dir_in fsz nino st V x n D -> (forall o, 0 <= D o < 256) ->
  cstr (fk_mem (kern s)) name e -> name_ok e -> apart name lookup_de -> apart name link_de ->
  bytes_ok (fk_mem (kern s)) -> 0 < inum < 65536 -> 16 * n + 16 <= 140 * BSIZE -> avail fsz nino st V 2 ->
  ic_rep s R -> small R -> room R -> dir_find D n e = None ->
  exists s' V' hist k, in_trans (dir_link lookup_de link_de (PInode i) name inum) s = Ok (0, s')
    /\ irep s' st sz V' /\ slot_at D n k
    /\ (let n' := Z.max n (k + 1) in let D' := put_entry k inum e D in
        dir_in fsz nino st V' (inodes s' !!! i) n' D' /\ dir_find D' n' e = Some k /\ ent_inum D' k = inum
        /\ (forall e', name_ok e' -> e' <> e -> dir_find D' n' e' = dir_find D n e')
        /\ (forall j, j <> k -> ent_inum D' j = ent_inum D j))
    /\ written fsz nino st sz (16 * k) 16 (new_entry inum e) V x V' (inodes s' !!! i)
    /\ past s' = hist ++ past s
    /\ (forall im, im ∈ disk s' :: hist -> restarts_to T im st sz V \/ restarts_to T im st sz V')
    /\ exists i' s'', dir_lookup lookup_de (PInode i) name s' = Ok ((PInode i', 16 * k), s'')
         /\ key (inodes s'' !!! i') = (ROOTDEV, inum).
Proof.
  intros Hone I G Hi O Hd HD Hs Hok Ha1 Ha2 Hb Hin Hmax Hav IC Hsm Hrm Hnone.
  destruct (link_in_trans fsz nino st sz Hone s V i n D lookup_de link_de name inum e R I G Hi O Hd HD Hs Hok Ha1 Ha2 Hb Hin
    Hmax Hav IC Hsm Hrm Hnone) as (s' & V' & hist & k & E & I' & [Hsl Hd' IC' M B] & W & P & C).
  pose proof (sl_range _ _ _ Hsl) as Hk.
  destruct (put_find k inum e D Hok Hin n Hk (sl_free _ _ _ Hsl) Hnone) as [Hf Hf'].
  exists s', V', hist, k. split_and!; try done.
  { cbv zeta. split_and!; try done; [by apply put_inum|]. intros j Hj. by apply (put_other k inum e D j). }
  pose proof (dir_lookup_spec (mk_txn 0 (past s')) V' fsz nino st sz s' [] V' i _ _ lookup_de name e R (irep_trep _ _ _ _ I')
    (wn_geo _ _ _ _ _ _ _ _ _ _ _ W) Hi Hd' ltac:(cbn; lia)) as Hlk.
  rewrite Hf in Hlk. unfold apart in *. destruct Hlk as (i' & s1 & s'' & R' & E2 & _ & _ & _ & _ & _ & Ek & _); try done.
  - apply (cstr_ext (fk_mem (kern s))); [|done]. pose proof (proj1 Hok). intros z Hz. apply M; lia.
  - apply Hok.
  - pose proof (proj1 Hok). lia.
  - by apply put_entry_byte.
  - exists i', s''. rewrite put_inum in Ek by done. done.
Qed.

(** ** The root directory of the sample disk, in slot 0 of the cache *)
Definition root : inode := mk_inode 1 1 1 I_VALID T_DIR 0 0 1 512 (Opened.one 12).
Definition root_bytes (o : Z) : Z := fbyte Sample.V (Opened.one 12) o.
(** The path "/b//c/" at 1000 and the name "b" at 100 *)
Definition path : list Z := [47; 98; 47; 47; 99; 47].
Definition dir_mem : mem := store_bytes 1000 path (store_bytes 100 [98; 0] ∅).
Definition at_root (s : fsys (thr * mem)) : fsys (thr * mem) :=
  set_kern ((kern s).1, dir_mem) (set_inodes {[0 := root]} (set_ic_lock free_lock s)).

Lemma path_string : cstr dir_mem 1000 path.
Proof.
  split; [| |by vm_compute]; intros k Hk; change (Z.of_nat (length path)) with 6 in Hk;
    (assert (k = 0 \/ k = 1 \/ k = 2 \/ k = 3 \/ k = 4 \/ k = 5) as H by lia);
    destruct H as [->|[->|[->|[->|[->| ->]]]]]; by vm_compute.
Qed.
Lemma name_string : cstr dir_mem 100 [98].
Proof. split; [| |by vm_compute]; intros k Hk; assert (k = 0) as -> by (cbn in Hk; lia); by vm_compute. Qed.
Lemma dir_mem_bytes : bytes_ok dir_mem.
Proof.
  intros a. unfold dir_mem. rewrite (store_bytes_patched _ _ _ a). change (Z.of_nat (length path)) with 6. case_decide as H1.
  { assert (a = 1000 \/ a = 1001 \/ a = 1002 \/ a = 1003 \/ a = 1004 \/ a = 1005) as H by lia.
    destruct H as [->|[->|[->|[->|[->| ->]]]]]; by vm_compute. }
  rewrite (store_bytes_patched _ _ _ a). change (Z.of_nat (length [98; 0])) with 2. case_decide.
  { assert (a = 100 \/ a = 101) as [->| ->] by lia; by vm_compute. }
  rewrite lookup_total_empty. by vm_compute.
Qed.
Lemma root_bytes_ok o : 0 <= root_bytes o < 256.
Proof.
  assert (forall l k, Forall (fun c => 0 <= c < 256) l -> 0 <= at_ l k < 256) as Hat.
  { intros l k Hl. unfold at_. destruct (decide (Z.to_nat k < length l)%nat).
    - rewrite Forall_forall in Hl. apply Hl. by apply list_elem_of_lookup_total_2.
    - rewrite list_lookup_total_alt, lookup_ge_None_2 by lia. by vm_compute. }
  unfold root_bytes, fbyte. apply Hat. unfold fblock.
  assert (Forall (fun c => 0 <= c < 256) zero_block) as Hz by (apply Forall_replicate; lia).
  case_decide as H; [done|]. unfold baddr in *. case_decide.
  - destruct (decide (o / BSIZE = 0)) as [->|Hn]; [|unfold Opened.one in H; by rewrite lookup_total_singleton_ne in H].
    apply (bool_decide_unpack _). by vm_compute.
  - done.
Qed.
Lemma root_open : open_file 1000 64 980 Sample.V root.
Proof.
  apply (Opened.one_open root 12); try done.
  - split; try done. apply Opened.one_synced. by repeat constructor.
  - split; try by vm_compute. intros k Hk. unfold disk_inode. cbn [i_addrs get_dinode]. rewrite get_addrs_lookup by done.
    revert k Hk. apply Opened.one_synced. repeat constructor; by vm_compute.
Qed.
Lemma root_dir : dir_in 1000 64 980 Sample.V root 32 root_bytes.
Proof. by split; [apply root_open|..]. Qed.
Lemma root_refs (s : fsys (thr * mem)) : fk_inv (kern s) -> ic_rep (at_root s) {[0 := ((1, 1), 1)]}.
Proof.
  intros Hk. split; [exact Hk|done|].
  assert (forall j, j <> 0 -> inodes (at_root s) !!! j = inhabitant) as Hj
    by (intros j Hj; exact (lookup_total_singleton_ne _ _ _ (not_eq_sym Hj))).
  split.
  - intros i. destruct (decide (i = 0)) as [->|Hi]; [by vm_compute|].
    rewrite lookup_singleton_ne, Hj by done. by rewrite decide_False by (intros [_ C]; by apply C).
  - intros i _. destruct (decide (i = 0)) as [->|Hi]; [by vm_compute|]. by rewrite Hj.
  - intros i j k [c Hc] [c' Hc']. apply lookup_singleton_Some in Hc as [<- _].
    by apply lookup_singleton_Some in Hc' as [<- _].
Qed.

Lemma skipelem_splits_path_witness : exists s s' : fsys (thr * mem),
  exists l1 r, skipelem 1000 100 s = Ok (Some (1000 + Z.of_nat (length l1)), s') /\ path = l1 ++ r /\ elements r = [[99]].
Proof.
  destruct Sample.started as (s & _ & I). exists (at_root s).
  pose proof (skipelem_splits_path (at_root s) 1000 100 path path_string ltac:(lia) ltac:(vm_compute; lia) ltac:(unfold DIRSIZ; lia)) as H.
  change (elements path) with [[98]; [99]] in H. destruct H as (s' & l1 & r & E & Ep & Er & _).
  exists s', l1, r. exact (conj E (conj Ep Er)).
Defined.

Lemma linked_name_is_found_witness : exists s s' s'' : fsys (thr * mem),
  in_trans (dir_link 200 300 (PInode 0) 100 3) (at_root s) = Ok (0, s')
  /\ exists i' k, dir_lookup 200 (PInode 0) 100 s' = Ok ((PInode i', k), s'') /\ key (inodes s'' !!! i') = (ROOTDEV, 3).
Proof.
  destruct Sample.started as (s & _ & I). exists s.
  destruct (linked_name_is_found 1000 64 980 20 (at_root s) Sample.V 0 32 root_bytes 200 300 100 3 [98] {[0 := ((1, 1), 1)]})
    as (s' & V' & hist & k & E & _ & _ & _ & _ & _ & _ & i' & s'' & E2 & Ek).
  - done.
  - eapply irep_blocks; [|exact I]. by split.
  - exact Sample.geometry_ok.
  - done.
  - exact root_open.
  - exact root_dir.
  - exact root_bytes_ok.
  - exact name_string.
  - split; [cbn; lia|]. by repeat constructor.
  - unfold apart. lia.
  - unfold apart. lia.
  - exact dir_mem_bytes.
  - lia.
  - unfold BSIZE. lia.
  - apply Opened.blocks_free. lia.
  - apply root_refs. exact (irep_kern _ _ _ _ I).
  - intros i k c [_ Ec]%lookup_singleton_Some. injection Ec as _ <-. lia.
  - exists 1. split; [unfold NINODE; lia|by apply lookup_singleton_ne].
  - by vm_compute.
  - exists s', s''. split; [exact E|]. exists i', (16 * k). exact (conj E2 Ek).
Defined.
End DirProps.
