(* ===== verification/NameSpec.v ===== *)
(** * Walking a path: namex and namei of fs/path.c

    The directories on disk as a tree of names, and what the walk through it
    does to the inode cache: it takes and drops references and locks. *)

From S2P Require Import Prelude DList Machine Thread Scheduler KString Bytes FsData BufCache FsLog Block Inode InodeData InodeDisk Dir File FileSpec Icache DirSpec.

(** ** One more reference *)

(** [R'] is [R] with one more reference to the inode [k], in slot [i]. *)
Inductive plus (R : refs) (k : Z * Z) (i : Z) : refs -> Prop :=
| plus_more c : R !! i = Some (k, c) -> plus R k i (<[i := (k, c + 1)]> R)
| plus_new : R !! i = None -> (forall j, ~ slot_of R k j) -> plus R k i (<[i := (k, 1)]> R).

Lemma plus_get R dev inum i R' : ref_step R (IGet dev inum) i R' -> plus R (dev, inum) i R'.
Proof. inversion 1; subst; [by apply plus_more|]. apply plus_new; [|done]. by match goal with H : lowest_free _ _ |- _ => apply H end. Qed.

Lemma plus_slot R k i R' : plus R k i R' -> exists c, R' !! i = Some (k, c).
Proof. inversion 1; subst; eexists; apply lookup_insert_eq. Qed.
Lemma plus_other R k i R' j : plus R k i R' -> j <> i -> R' !! j = R !! j.
Proof. inversion 1; subst; intros Hj; by apply lookup_insert_ne. Qed.

Lemma plus_keep R k i R' j k' c : plus R k i R' -> R !! j = Some (k', c) -> exists c', R' !! j = Some (k', c').
Proof.
  intros H Hj. destruct (decide (j = i)) as [->|Hne]; [|exists c; by rewrite (plus_other _ _ _ _ _ H Hne)].
  inversion H as [c0 Hc0 E|Hn Hno E]; [|congruence]. exists (c0 + 1). rewrite lookup_insert_eq. congruence.
Qed.
Definition pos (R : refs) : Prop := forall j k c, R !! j = Some (k, c) -> 0 < c.
Lemma plus_pos R k i R' : plus R k i R' -> pos R -> pos R'.
Proof.
  intros H Hp j k' c Hj. destruct (decide (j = i)) as [Ej|Hne]; [|rewrite (plus_other _ _ _ _ _ H Hne) in Hj; by eapply Hp].
  rewrite Ej in Hj. inversion H as [c0 Hc0 E|Hn Hno E]; rewrite <- E, lookup_insert_eq in Hj; injection Hj as <- <-;
    [apply Hp in Hc0; lia|lia].
Qed.

(** Dropping the reference again *)
Definition drop_ref (R : refs) (i : Z) : refs :=
  match R !! i with
  | Some (k, c) => if decide (c - 1 = 0) then delete i R else <[i := (k, c - 1)]> R
  | None => R
  end.

Lemma plus_drop R k i R' : plus R k i R' -> pos R -> drop_ref R' i = R.
Proof.
  intros H Hp. unfold drop_ref. inversion H as [c Hi|Hi Hno]; subst; rewrite lookup_insert_eq.
  - rewrite decide_False by (apply Hp in Hi; lia). rewrite insert_insert_eq. replace (c + 1 - 1) with c by lia. by apply insert_id.
  - rewrite decide_True by lia. by apply delete_insert_id.
Qed.

Lemma drop_insert R i i2 v : i2 <> i -> drop_ref (<[i2 := v]> R) i = <[i2 := v]> (drop_ref R i).
Proof.
  intros Hne. unfold drop_ref. rewrite lookup_insert_ne by done. destruct (R !! i) as [[k c]|]; [|done].
  case_decide; [by rewrite delete_insert_ne|by rewrite insert_insert_ne].
Qed.

(** A step of the walk: the reference to the directory [k] in slot [i] is
    exchanged for one to its entry [k2]. *)
Lemma plus_exchange R k i R1 k2 i2 R2 :
  pos R ->
  plus R k i R1 -> plus R1 k2 i2 R2 -> plus R k2 i2 (drop_ref R2 i).
Proof.
  intros Hp H1 H2. pose proof (plus_drop R k i R1 H1 Hp) as Hd. destruct (plus_slot R k i R1 H1) as [c1 Hi1].
  destruct (decide (i2 = i)) as [->|Hne].
  - rewrite (plus_drop R1 k2 i R2 H2 (plus_pos R k i R1 H1 Hp)). inversion H2 as [c2 Hc2 E|Hn _ E]; [|congruence].
    rewrite Hi1 in Hc2. by injection Hc2 as <- <-.
  - inversion H2 as [c2 Hc2 E|Hn Hno E]; rewrite drop_insert, Hd by done.
    + apply plus_more. by rewrite <- (plus_other R k i R1 i2 H1 Hne).
    + apply plus_new; [by rewrite <- (plus_other R k i R1 i2 H1 Hne)|]. intros j [c Hj]. destruct (decide (j = i)) as [->|Hji].
      * apply (Hno i). inversion H1 as [c0 Hc0 E0|Hn0 _ E0]; [|congruence]. exists c1. rewrite E0, Hi1. congruence.
      * apply (Hno j). exists c. by rewrite (plus_other R k i R1 j H1 Hji).
Qed.

Definition below (B : Z) (R : refs) : Prop := forall i k c, R !! i = Some (k, c) -> c < B.
Lemma plus_below B R k i R' : 0 < B -> plus R k i R' -> below B R -> below (B + 1) R'.
Proof.
  intros HB H Hb j k' c Hj. destruct (decide (j = i)) as [Ej|Hne].
  - rewrite Ej in Hj. inversion H as [c0 Hc0 E|Hn Hno E]; rewrite <- E, lookup_insert_eq in Hj; injection Hj as <- <-;
      [apply Hb in Hc0; lia|lia].
  - rewrite (plus_other _ _ _ _ _ H Hne) in Hj. apply Hb in Hj. lia.
Qed.

(** Two free slots: for the directory and for its entry *)
Definition room2 (R : refs) : Prop :=
  exists j1 j2, j1 <> j2 /\ 0 <= j1 < NINODE /\ 0 <= j2 < NINODE /\ R !! j1 = None /\ R !! j2 = None.
Lemma plus_room R k i R' : room2 R -> plus R k i R' -> room R'.
Proof.
  intros (j1 & j2 & Hne & H1 & H2 & E1 & E2) H. destruct (decide (j1 = i)) as [->|Hj].
  - exists j2. split; [done|]. by rewrite (plus_other _ _ _ _ j2 H).
  - exists j1. split; [done|]. by rewrite (plus_other _ _ _ _ j1 H).
Qed.

(** ** The tree of names *)
Inductive fnode := NDir (n : Z) (D : Z -> Z) | NOther.

(** Following the elements [es] from inode [k]; names are cut to 13 characters. *)
Fixpoint resolve (t : Z -> option fnode) (k : Z) (es : list (list Z)) : option Z :=
  match es with
  | [] => Some k
  | e :: es =>
      match t k with
      | Some (NDir n D) =>
          match dir_find D n (take 13 e) with
          | Some j => resolve t (ent_inum D j) es
          | None => None
          end
      | _ => None
      end
  end.

(** The directory the last element is to be found in *)
Fixpoint resolve_parent (t : Z -> option fnode) (k : Z) (es : list (list Z)) : option Z :=
  match es with
  | [] => None
  | e :: es =>
      match t k with
      | Some (NDir n D) =>
          match es with
          | [] => Some k
          | _ => match dir_find D n (take 13 e) with
                 | Some j => resolve_parent t (ent_inum D j) es
                 | None => None
                 end
          end
      | _ => None
      end
  end.
Definition resolves (parent : bool) (t : Z -> option fnode) (k : Z) (es : list (list Z)) : option Z :=
  if parent then resolve_parent t k es else resolve t k es.

Section SameDisk.
Context (fsz nino st : Z) (V : Z -> list Z).

(** Good contents depend on what is on disk only. *)
Lemma baddr_same x y bn : same_disk x y -> 0 <= bn < 140 -> baddr V (i_addrs y) bn = baddr V (i_addrs x) bn.
Proof.
  intros S Hb. unfold baddr. rewrite (sd_addrs _ _ S 12) by lia. case_decide; [apply S; lia|done].
Qed.
Lemma dir_in_same x y n D : same_disk x y -> i_dev y = ROOTDEV -> dir_in fsz nino st V x n D -> dir_in fsz nino st V y n D.
Proof.
  intros S Hdev [[Hd Hty Hsz W Hfull] Ht0 Hs HD]. pose proof (baddr_same x y) as Hba.
  assert (forall z, owned V (i_addrs y) z <-> owned V (i_addrs x) z) as Ho.
  { intros z. unfold owned. rewrite (sd_addrs _ _ S 12) by lia.
    split; intros [Hz [(bn & Hb & E)|E]]; (split; [done|]); try (by right); left; exists bn; (split; [done|]);
      revert E; by rewrite Hba. }
  split; [split; [done|rewrite (sd_type _ _ S); done|rewrite (sd_size _ _ S); done| |]| | |].
  - destruct W as [W1 W2 W3]. split.
    + intros z Hz%Ho. by apply W1.
    + intros bn bn' Hb Hb'. rewrite !Hba by done. by apply W2.
    + intros bn Hb. rewrite Hba, (sd_addrs _ _ S 12) by (done || lia). by apply W3.
  - intros bn Hb Hlt. rewrite (sd_size _ _ S) in Hlt. unfold BSIZE in *. rewrite Hba by (done || lia). by apply Hfull.
  - by rewrite (sd_type _ _ S).
  - by rewrite (sd_size _ _ S).
  - intros o Hoo. rewrite <- HD by done. unfold fbyte, fblock.
    assert (0 <= o / BSIZE < 140) as Hbn
      by (unfold BSIZE in *; split; [apply Z.div_pos; lia|apply Z.div_lt_upper_bound; lia]).
    by rewrite !Hba by done.
Qed.

End SameDisk.

Section Walk.
Context {T : Type} `{!FsKernel T} `{!FsKernelLaws T}.
Context (tx : txn) (V0 : Z -> list Z) (fsz nino st sz : Z).
Implicit Types (s : fsys T) (V : Z -> list Z).
Notation tr s ents V U H := (trep tx V0 s st sz ents V U H).
Notation geo V := (geometry V fsz nino st sz).
Notation mm s := (fk_mem (kern s)).

(** The disk [V] has the tree [t]: directories are well formed and their entries
    lead to inodes of the tree; all of them have links. *)
Record tree V (t : Z -> option fnode) : Prop := {
  te_inum k nd : t k = Some nd -> 0 <= k < nino;
  te_link k nd y : t k = Some nd -> i_nlink (disk_inode V k y) <> 0;
  te_dir k n D y : t k = Some (NDir n D) -> i_dev y = ROOTDEV -> dir_in fsz nino st V (disk_inode V k y) n D;
  te_bytes k n D o : t k = Some (NDir n D) -> 0 <= D o < 256;
  te_other k y : t k = Some NOther -> i_type (disk_inode V k y) <> 0 /\ i_type (disk_inode V k y) <> T_DIR;
  te_closed k n D e j : t k = Some (NDir n D) -> dir_find D n e = Some j -> is_Some (t (ent_inum D j));
}.

(** An inode in the cache that nobody has locked: not read yet, or the same as
    on disk *)
Definition unl V (x : inode) : Prop :=
  i_flags x = 0 \/ (i_flags x = I_VALID /\ same_disk (disk_inode V (i_inum x) x) x).

Record walk s (ents : list Z) V (R : refs) : Prop := {
  wk_tr : tr s ents V ∅ ∅;
  wk_refs : ic_rep s R;
  wk_bytes : bytes_ok (mm s);
  wk_unl j : is_Some (R !! j) -> unl V (inodes s !!! j);
}.
(** The same with slot [i] locked *)
Record locked s (ents : list Z) V (R : refs) (i : Z) : Prop := {
  lk_tr : tr s ents V ∅ ∅;
  lk_refs : ic_rep s R;
  lk_bytes : bytes_ok (mm s);
  lk_unl j : j <> i -> is_Some (R !! j) -> unl V (inodes s !!! j);
  lk_flags : i_flags (inodes s !!! i) = 3;
  lk_disk : same_disk (disk_inode V (i_inum (inodes s !!! i)) (inodes s !!! i)) (inodes s !!! i);
}.

Context (V : Z -> list Z) (G : geo V) (t : Z -> option fnode) (Ht : tree V t) (ents : list Z) (Hl : (length ents <= 9)%nat).

Lemma type_nonzero k nd y : t k = Some nd -> i_dev y = ROOTDEV -> i_type (disk_inode V k y) <> 0.
Proof.
  intros E Hy. destruct nd as [n D|]; [|by apply (te_other _ _ Ht)].
  rewrite (di_type _ _ _ _ _ _ _ (te_dir _ _ Ht k n D y E Hy)). done.
Qed.

Lemma lock_walk s R i k c nd :
  walk s ents V R -> R !! i = Some ((ROOTDEV, k), c) -> t k = Some nd ->
  exists s', inode_lock (PInode i) s = Ok (tt, s') /\ locked s' ents V R i /\ mm s' = mm s.
Proof.
  intros [R0 I Hb Hu] Hi Hk. destruct (ir_range _ _ _ _ _ (ir_tab _ _ I) Hi) as (Hr & Ek & Er & Hc). injection Ek as Edev Einum.
  assert (forall fl, i_flags (inodes s !!! i) = fl -> cached s i fl) as Hca
    by (intros fl Hfl; split; [apply I|done|lia|done]).
  assert (forall s' x, iframe i s s' -> inodes s' !!! i = x -> i_ref x = i_ref (inodes s !!! i) -> key x = key (inodes s !!! i) ->
    fk_inv (kern s') -> ic_rep s' R) as Hrep.
  { intros s' x F Ex E1 E2 Hkn. eapply ic_rep_ext; [apply F| |done|exact I]. intros j.
    destruct (decide (j = i)) as [->|Hj]; [by rewrite Ex|by rewrite (if_inodes _ _ _ F)]. }
  destruct (Hu i ltac:(by eexists)) as [Hf|[Hf Hsd]].
  - destruct (inode_lock_load tx V0 s st sz ents V ∅ fsz nino i R0 G (Hca _ Hf) Edev) as (s' & E & R1 & F & Ex).
    { rewrite Einum. by apply (te_inum _ _ Ht k nd). } { apply lookup_empty. } { rewrite map_size_empty. lia. }
    { rewrite Einum. by apply (type_nonzero k nd). }
    exists s'. split; [done|]. split; [|by apply F]. split; try done.
    + eapply Hrep; [exact F|exact Ex|done|done|by eapply trep_kern].
    + by rewrite (if_mem _ _ _ F).
    + intros j Hj Hs. rewrite (if_inodes _ _ _ F) by done. by apply Hu.
    + by rewrite Ex.
    + rewrite Ex. by split.
  - rewrite (inode_lock_valid s i (trep_kern _ _ _ _ _ _ _ _ _ R0) (Hca _ Hf)). eexists. split; [done|].
    assert (inodes (set_flags i 3 s) !!! i = set_i_flags 3 (inodes s !!! i)) as Ex by (unfold set_flags; rewrite upd_ino_lookup; by dec_refl).
    split; [|done]. split; try done.
    + by apply trep_upd_ino.
    + eapply Hrep; [apply (set_flags_set i 3 s)|exact Ex|done|done|exact (trep_kern _ _ _ _ _ _ _ _ _ R0)].
    + intros j Hj Hs. unfold set_flags. rewrite upd_ino_lookup, decide_False by done. by apply Hu.
    + by rewrite Ex.
    + rewrite Ex. by destruct Hsd.
Qed.

Lemma locked_key s R i k c : locked s ents V R i -> R !! i = Some ((ROOTDEV, k), c) ->
  0 <= i < NINODE /\ i_dev (inodes s !!! i) = ROOTDEV /\ i_inum (inodes s !!! i) = k.
Proof.
  intros L Hi. destruct (ir_range _ _ _ _ _ (ir_tab _ _ (lk_refs _ _ _ _ _ L)) Hi) as (Hr & Ek & _). by injection Ek.
Qed.
Lemma locked_dir s R i k c n D :
  locked s ents V R i -> R !! i = Some ((ROOTDEV, k), c) -> t k = Some (NDir n D) -> dir_in fsz nino st V (inodes s !!! i) n D.
Proof.
  intros L Hi Hk. destruct (locked_key _ _ _ _ _ L Hi) as (Hr & Hdev & Hin). pose proof (lk_disk _ _ _ _ _ L) as Hsd. rewrite Hin in Hsd.
  eapply dir_in_same; [exact Hsd|done|]. by apply (te_dir _ _ Ht).
Qed.

(** Unlocking and dropping the reference *)
Lemma unl_ref x c : unl V x -> unl V (set_i_ref c x).
Proof. intros [H|[H [? ? ? ? ? ?]]]; [by left|]. right. split; [done|]. by split. Qed.

Lemma unlock_walk s R i k c :
  locked s ents V R i -> R !! i = Some ((ROOTDEV, k), c) ->
  exists s', inode_unlock (PInode i) s = Ok (tt, s') /\ walk s' ents V R /\ mm s' = mm s
    /\ inodes s' !!! i = set_i_flags I_VALID (inodes s !!! i).
Proof.
  intros L Hi. destruct (locked_key _ _ _ _ _ L Hi) as (Hr & Hdev & Hin). destruct L as [R0 I Hb Hu Hf Hsd].
  destruct (ir_range _ _ _ _ _ (ir_tab _ _ I) Hi) as (_ & _ & Er & Hc).
  destruct (inode_unlock_spec s i (trep_kern _ _ _ _ _ _ _ _ _ R0)) as (s' & E & [B Ei F]); [split; [apply I|done|lia|done]|].
  assert (inodes s' !!! i = set_i_flags I_VALID (inodes s !!! i)) as Ex by (rewrite Ei; apply lookup_total_insert_eq).
  exists s'. split; [done|]. split; [|split; [apply F|done]].
  assert (tr s' ents V ∅ ∅) as R1 by (by eapply trep_blocks). split.
  - done.
  - eapply ic_rep_ext; [apply F| |by eapply trep_kern|exact I]. intros j.
    destruct (decide (j = i)) as [->|Hj]; [by rewrite Ex|by rewrite (if_inodes _ _ _ F)].
  - by rewrite (if_mem _ _ _ F).
  - intros j Hj. destruct (decide (j = i)) as [->|Hji]; [|rewrite (if_inodes _ _ _ F) by done; by apply Hu].
    rewrite Ex. right. split; [done|]. destruct Hsd. by split.
Qed.

Lemma put_walk s R i k c nd :
  walk s ents V R -> R !! i = Some ((ROOTDEV, k), c) -> small R -> t k = Some nd ->
  exists s', inode_put (PInode i) s = Ok (tt, s') /\ walk s' ents V (drop_ref R i) /\ mm s' = mm s.
Proof.
  intros [R0 I Hb Hu] Hi Hsm Hk. destruct (ir_range _ _ _ _ _ (ir_tab _ _ I) Hi) as (Hr & Ek & _). injection Ek as Edev Ein.
  destruct (inode_put_spec s R i _ c I Hsm Hi) as (s' & E & I' & K).
  { intros (_ & Hv & Hn). destruct (Hu i ltac:(by eexists)) as [Hf|[Hf Hsd]]; [by rewrite Hf in Hv|].
    rewrite (sd_nlink _ _ Hsd), Ein in Hn. by apply (te_link _ _ Ht k nd) in Hn. }
  exists s'. split; [done|]. split; [|apply K]. unfold drop_ref. rewrite Hi. split.
  - eapply trep_blocks; [apply K|done].
  - done.
  - by rewrite (kp_mem _ _ _ K).
  - intros j Hj. assert (is_Some (R !! j)) as Hj'.
    { destruct (decide (j = i)) as [->|Hne]; [by eexists|]. case_decide; [by rewrite lookup_delete_ne in Hj|by rewrite lookup_insert_ne in Hj]. }
    destruct (kp_slot _ _ _ K j Hj') as [c' ->]. by apply unl_ref, Hu.
Qed.

Context (lookup_de name : Z).

Lemma skip_walk s s' R : skipped name s s' -> walk s ents V R -> walk s' ents V R.
Proof.
  intros [_ Hb (m1 & m2 & ->)] [R0 I Hb0 Hu]. assert (tr (with_mem m2 (with_mem m1 s)) ents V ∅ ∅) as R1 by (by do 2 apply trep_set_mem).
  split; [done| |by apply Hb|done]. apply (ic_rep_ext s); [done|done|by eapply trep_kern|exact I].
Qed.

(** Looking up a name in a locked directory *)
Lemma lookup_walk s R i k c n D e :
  locked s ents V R i -> R !! i = Some ((ROOTDEV, k), c) -> t k = Some (NDir n D) ->
  cstr (mm s) name e -> (length e <= 13)%nat -> apart name lookup_de -> small R -> room R ->
  match dir_find D n e with
  | None => exists s', dir_lookup lookup_de (PInode i) name s = Ok ((PNull, 0), s') /\ locked s' ents V R i
      /\ same_but lookup_de 16 (mm s) (mm s')
  | Some j => exists i' s' R' off, dir_lookup lookup_de (PInode i) name s = Ok ((PInode i', off), s') /\ locked s' ents V R' i
      /\ plus R (ROOTDEV, ent_inum D j) i' R' /\ same_but lookup_de 16 (mm s) (mm s')
  end.
Proof.
  intros L Hi Hk Hs He Ha Hsm Hrm. destruct (locked_key _ _ _ _ _ L Hi) as (Hr & Hdev & Hin).
  pose proof (locked_dir _ _ _ _ _ _ _ L Hi Hk) as Hd. destruct L as [R0 I Hb Hu Hf Hsd]. unfold apart in Ha.
  pose proof (dir_lookup_spec tx V0 fsz nino st sz s ents V i n D lookup_de name e R R0 G Hr Hd Hl Hs He ltac:(lia) Hb
    (fun o => te_bytes _ _ Ht k n D o Hk) I Hsm Hrm) as H.
  destruct (dir_find D n e) as [j|].
  - destruct H as (i' & s1 & s' & R' & E & R1 & [[El Ei _ _] M B] & K & St & I' & Ek & Ef).
    exists i', s', R', (16 * j). pose proof (plus_get _ _ _ _ _ St) as P.
    assert (forall x, is_Some (R !! x) -> exists c', inodes s' !!! x = set_i_ref c' (inodes s !!! x)) as Hx
      by (intros x Hx; rewrite <- Ei; by apply (kp_slot _ _ _ K)).
    destruct (Hx i ltac:(by eexists)) as [c0 Exi].
    split; [done|]. split; [|split; [done|by rewrite (kp_mem _ _ _ K)]]. split; try done.
    + rewrite (kp_mem _ _ _ K). by apply B.
    + intros x Hxi Hx'. destruct (decide (x = i')) as [->|Hne].
      * destruct (R !! i') eqn:Ei'; [|left; by apply Ef]. destruct (Hx i' ltac:(by eexists)) as [c' ->]. apply unl_ref, Hu; [done|by eexists].
      * rewrite (plus_other _ _ _ _ _ P Hne) in Hx'. destruct (Hx x Hx') as [c' ->]. by apply unl_ref, Hu.
    + by rewrite Exi.
    + rewrite Exi. destruct Hsd. by split.
  - destruct H as (s' & E & R1 & [[El Ei _ _] M B]). exists s'. split; [done|]. split; [|done]. split; rewrite ?Ei; try done.
    + eapply ic_rep_ext; [exact El|by rewrite Ei|by eapply trep_kern|exact I].
    + by apply B.
Qed.

Lemma unlockput_walk s R i k c nd :
  locked s ents V R i -> R !! i = Some ((ROOTDEV, k), c) -> small R -> t k = Some nd ->
  exists s', inode_unlockput (PInode i) s = Ok (tt, s') /\ walk s' ents V (drop_ref R i) /\ mm s' = mm s.
Proof.
  intros L Hi Hsm Hk. destruct (unlock_walk _ _ _ _ _ L Hi) as (s1 & E1 & W1 & M1 & _).
  destruct (put_walk s1 R i k c nd W1 Hi Hsm Hk) as (s2 & E2 & W2 & M2). exists s2. unfold inode_unlockput.
  rewrite (bind_ok _ _ _ _ _ E1). split; [done|]. split; [done|]. by rewrite M2.
Qed.

(** The two buffers the walk writes to *)
Definition outside (a n : Z) : Prop := (name + DIRSIZ <= a \/ a + n < name) /\ (lookup_de + 16 <= a \/ a + n < lookup_de).
Definition mem_kept s s' : Prop :=
  forall z, ~ name <= z < name + DIRSIZ -> ~ lookup_de <= z < lookup_de + 16 -> mm s' !!! z = mm s !!! z.
Lemma mem_kept_trans s1 s2 s3 : mem_kept s1 s2 -> mem_kept s2 s3 -> mem_kept s1 s3.
Proof. intros H1 H2 z Hn Hd. rewrite H2 by done. by apply H1. Qed.
Lemma mem_kept_eq s s' : mm s' = mm s -> mem_kept s s'.
Proof. intros E z _ _. by rewrite E. Qed.

Context (R : refs) (Hpos : pos R) (Hbel : below 2147483645 R) (Hroom : room2 R) (Hap : apart name lookup_de).

(** The first statement of an iteration *)
Lemma next_element s R1 path l e es :
  elements l = e :: es -> cstr (mm s) path l -> 0 < path -> (length l <= path_fuel)%nat -> outside path (Z.of_nat (length l)) ->
  walk s ents V R1 ->
  exists s1 path' r, skipelem path name s = Ok (Some path', s1) /\ walk s1 ents V R1 /\ mem_kept s s1
    /\ cstr (mm s1) name (take 13 e) /\ cstr (mm s1) path' r /\ elements r = es /\ (es = [] <-> r = []) /\ 0 < path'
    /\ (length r <= path_fuel)%nat /\ outside path' (Z.of_nat (length r)).
Proof.
  intros El Hs Hp Hlen [Ho1 Ho2] W. pose proof (skipelem_spec s path name l Hs ltac:(lia) Hlen Ho1) as H. rewrite El in H.
  destruct H as (s1 & l1 & r & E & -> & Er & Hlast & _ & Hn & Sk). rewrite length_app in *. exists s1, (path + Z.of_nat (length l1)), r.
  split; [done|]. split; [by eapply skip_walk|]. split; [intros z Hz _; by apply (sk_mem _ _ _ Sk)|]. split; [done|]. split.
  - apply cstr_app in Hs. eapply cstr_ext; [|exact Hs]. intros z Hz. apply (sk_mem _ _ _ Sk). lia.
  - split; [done|]. split; [done|]. split; [lia|]. split; [lia|]. unfold outside. lia.
Qed.

(** An iteration at a directory *)
Lemma enter_dir s R1 i k n D e :
  walk s ents V R1 -> plus R (ROOTDEV, k) i R1 -> t k = Some (NDir n D) -> cstr (mm s) name (take 13 e) ->
  exists s1, inode_lock (PInode i) s = Ok (tt, s1) /\ i_type (inodes s1 !!! i) = T_DIR /\ 0 <= i < NINODE /\ mm s1 = mm s /\ locked s1 ents V R1 i /\
  match dir_find D n (take 13 e) with
  | None => exists s2 s3, dir_lookup lookup_de (PInode i) name s1 = Ok ((PNull, 0), s2)
      /\ inode_unlockput (PInode i) s2 = Ok (tt, s3) /\ walk s3 ents V R /\ mem_kept s s3
  | Some j => exists s2 s3 i' R' off, dir_lookup lookup_de (PInode i) name s1 = Ok ((PInode i', off), s2)
      /\ inode_unlockput (PInode i) s2 = Ok (tt, s3) /\ walk s3 ents V R' /\ plus R (ROOTDEV, ent_inum D j) i' R' /\ mem_kept s s3
  end.
Proof.
  intros W P Hk Hn. destruct (plus_slot _ _ _ _ P) as [c Hi].
  pose proof (plus_below 2147483645 _ _ _ _ ltac:(lia) P Hbel) as Hb1. pose proof (plus_room _ _ _ _ Hroom P) as Hr1.
  destruct (lock_walk s R1 i k c _ W Hi Hk) as (s1 & E1 & L1 & M1). destruct (locked_key _ _ _ _ _ L1 Hi) as (Hr & _).
  exists s1. split; [done|]. split; [exact (di_type _ _ _ _ _ _ _ (locked_dir _ _ _ _ _ _ _ L1 Hi Hk))|]. split; [done|]. split; [done|]. split; [done|].
  assert (small R1) as Hs1 by (intros j k' c' Hj; apply Hb1 in Hj; lia).
  pose proof (lookup_walk s1 R1 i k c n D (take 13 e) L1 Hi Hk ltac:(by rewrite M1) ltac:(rewrite length_take; lia) Hap Hs1 Hr1) as Hlk.
  assert (forall s2, same_but lookup_de 16 (mm s1) (mm s2) -> forall s3, mm s3 = mm s2 -> mem_kept s s3) as Hmk.
  { intros s2 Hsb s3 E3 z _ Hz. rewrite E3, Hsb by done. by rewrite M1. }
  destruct (dir_find D n (take 13 e)) as [j|].
  - destruct Hlk as (i' & s2 & R2 & off & E2 & L2 & P2 & M2).
    destruct (plus_keep _ _ _ _ _ _ _ P2 Hi) as [c' Hi2].
    pose proof (plus_below (2147483645 + 1) _ _ _ _ ltac:(lia) P2 Hb1) as Hb2.
    destruct (unlockput_walk s2 R2 i k c' _ L2 Hi2 ltac:(intros j' k' c0 Hj; apply Hb2 in Hj; lia) Hk) as (s3 & E3 & W3 & M3).
    exists s2, s3, i', (drop_ref R2 i), off. split; [done|]. split; [done|]. split; [done|]. split; [by eapply plus_exchange|by eapply Hmk].
  - destruct Hlk as (s2 & E2 & L2 & M2).
    destruct (unlockput_walk s2 R1 i k c _ L2 Hi Hs1 Hk) as (s3 & E3 & W3 & M3). rewrite (plus_drop _ _ _ _ P Hpos) in W3.
    exists s2, s3. split; [done|]. split; [done|]. split; [done|by eapply Hmk].
Qed.

(** The outcome of the walk: a reference to the inode found and no other, or
    the references there were before *)
Definition walked (b : bool) (k : Z) (es : list (list Z)) s (r : result (ptr * fsys T)) : Prop :=
  match resolves b t k es with
  | Some k' => exists i' R' s', r = Ok (PInode i', s') /\ walk s' ents V R' /\ plus R (ROOTDEV, k') i' R' /\ mem_kept s s'
      /\ (b = true -> exists e, last es = Some e /\ cstr (mm s') name (take 13 e))
  | None => exists s', r = Ok (PNull, s') /\ walk s' ents V R /\ mem_kept s s'
  end.

Lemma walked_later b k es s s1 r : mem_kept s s1 -> walked b k es s1 r -> walked b k es s r.
Proof.
  intros M. unfold walked. destruct (resolves b t k es).
  - intros (i' & R' & s' & E & W & P & M' & N). exists i', R', s'. split_and!; [done..|by eapply mem_kept_trans|done].
  - intros (s' & E & W & M'). exists s'. split_and!; [done..|by eapply mem_kept_trans].
Qed.

(** The body of the loop once an element has been split off *)
Definition namex_body (fuel : nat) (path : Z) (ip : ptr) (b : bool) : M (fsys T) ptr :=
  inode_lock ip ;;
  t ← ino_read ip i_type;
  if decide (t <> T_DIR) then
    inode_unlockput ip ;;
    mret PNull
  else
    c ← mem_byte path;
    if b && bool_decide (c = 0) then
      inode_unlock ip ;;
      mret ip
    else
      r ← dir_lookup lookup_de ip name;
      let subdir := r.1 : ptr in
      if decide (subdir = PNull) then
        inode_unlockput ip ;;
        mret PNull
      else
        inode_unlockput ip ;;
        namex_loop lookup_de fuel path subdir b name.
Lemma namex_step s s1 fuel path path' ip b :
  skipelem path name s = Ok (Some path', s1) ->
  namex_loop lookup_de (S fuel) path ip b name s = namex_body fuel path' ip b s1.
Proof. intros E. cbn [namex_loop]. by rewrite (bind_ok _ _ _ _ _ E). Qed.

Lemma plus_small k i R1 : plus R k i R1 -> small R1.
Proof. intros P j k' c' Hj. apply (plus_below 2147483645 _ _ _ _ ltac:(lia) P Hbel) in Hj. lia. Qed.

(** Nothing is left of the path. *)
Lemma walked_end b k nd i R1 s :
  walk s ents V R1 -> plus R (ROOTDEV, k) i R1 -> t k = Some nd ->
  walked b k [] s ((if b then inode_put (PInode i) ;; mret PNull else mret (PInode i)) s).
Proof.
  intros W P Hk. unfold walked, resolves. cbn [resolve resolve_parent]. destruct b.
  - destruct (plus_slot _ _ _ _ P) as [c Hi]. destruct (put_walk s R1 i k c nd W Hi (plus_small _ _ _ P) Hk) as (s' & E & W' & M').
    rewrite (bind_ok _ _ _ _ _ E). rewrite (plus_drop _ _ _ _ P Hpos) in W'. exists s'. split_and!; [done..|by apply mem_kept_eq].
  - exists i, R1, s. by split_and!.
Qed.

(** The path goes on behind something that is not a directory. *)
Lemma walked_other b fuel path e es k i R1 s :
  walk s ents V R1 -> plus R (ROOTDEV, k) i R1 -> t k = Some NOther ->
  walked b k (e :: es) s (namex_body fuel path (PInode i) b s).
Proof.
  intros W P Hk. destruct (plus_slot _ _ _ _ P) as [c Hsl]. destruct (lock_walk s R1 i k c _ W Hsl Hk) as (s2 & E2 & L2 & M2).
  destruct (locked_key _ _ _ _ _ L2 Hsl) as (Hi & _ & Hin). unfold namex_body.
  rewrite (bind_ok _ _ _ _ _ E2), (bind_ok _ _ _ _ _ (ino_read_ok i i_type s2 Hi)).
  rewrite decide_True. 2:{ rewrite (sd_type _ _ (lk_disk _ _ _ _ _ L2)), Hin. by apply (te_other _ _ Ht). }
  destruct (unlockput_walk s2 R1 i k c _ L2 Hsl (plus_small _ _ _ P) Hk) as (s3 & E3 & W3 & M3).
  rewrite (bind_ok _ _ _ _ _ E3). rewrite (plus_drop _ _ _ _ P Hpos) in W3.
  assert (resolves b t k (e :: es) = None) as Er by (unfold resolves; destruct b; cbn; by rewrite Hk).
  unfold walked. rewrite Er. exists s3. split_and!; [done..|]. apply mem_kept_eq. by rewrite M3, M2.
Qed.

(** At a directory: the parent of the last element, or the next inode *)
Lemma walked_dir b fuel path r e es k n D i R1 s :
  walk s ents V R1 -> plus R (ROOTDEV, k) i R1 -> t k = Some (NDir n D) ->
  cstr (mm s) name (take 13 e) -> cstr (mm s) path r -> (es = [] <-> r = []) ->
  (forall s' R' i' k' nd', walk s' ents V R' -> plus R (ROOTDEV, k') i' R' -> t k' = Some nd' -> mem_kept s s' ->
     walked b k' es s' (namex_loop lookup_de fuel path (PInode i') b name s')) ->
  walked b k (e :: es) s (namex_body fuel path (PInode i) b s).
Proof.
  intros W P Hk Hn Hr Hlast IH. destruct (enter_dir s R1 i k n D e W P Hk Hn) as (s2 & E2 & Ety & Hi & M2 & L2 & Hcase).
  unfold namex_body. rewrite (bind_ok _ _ _ _ _ E2), (bind_ok _ _ _ _ _ (ino_read_ok i i_type s2 Hi)), Ety.
  rewrite (decide_False (P := T_DIR <> T_DIR)) by (intros C; by apply C). unfold mem_byte. rewrite gets_bind, M2, (cstr_head _ _ _ Hr).
  assert (match r with [] => 0 | c :: _ => c end = 0 <-> es = []) as Hz.
  { rewrite Hlast. destruct r as [|c r]; [done|]. pose proof (cstr_nonzero _ _ _ Hr) as Hnz. apply Forall_cons in Hnz as [? _]. by split. }
  assert (bool_decide (match r with [] => 0 | c :: _ => c end = 0) = bool_decide (es = [])) as -> by (by apply bool_decide_ext).
  destruct (b && bool_decide (es = [])) eqn:Estop.
  - apply andb_true_iff in Estop as [-> ->%bool_decide_eq_true]. destruct (plus_slot _ _ _ _ P) as [c Hsl].
    destruct (unlock_walk s2 R1 i k c L2 Hsl) as (s3 & E3 & W3 & M3 & _). rewrite (bind_ok _ _ _ _ _ E3).
    assert (resolves true t k [e] = Some k) as Er by (unfold resolves; cbn; by rewrite Hk).
    unfold walked. rewrite Er. exists i, R1, s3. split_and!; [done..|apply mem_kept_eq; by rewrite M3, M2|].
    intros _. exists e. split; [done|]. by rewrite M3, M2.
  - assert (resolves b t k (e :: es) = match dir_find D n (take 13 e) with Some j => resolves b t (ent_inum D j) es | None => None end) as Ers.
    { unfold resolves. cbn [resolve resolve_parent]. rewrite Hk. destruct b; [|done]. by destruct es. }
    unfold walked. rewrite Ers. destruct (dir_find D n (take 13 e)) as [j|] eqn:Ej.
    + destruct Hcase as (s3 & s4 & i' & R' & off & E3 & E4 & W4 & P4 & M4).
      rewrite (bind_ok _ _ _ _ _ E3). cbn [fst]. rewrite (decide_False (P := PInode i' = PNull)) by done. rewrite (bind_ok _ _ _ _ _ E4).
      destruct (te_closed _ _ Ht k n D (take 13 e) j Hk Ej) as [nd' Hnd].
      pose proof (walked_later b _ es s s4 _ M4 (IH s4 R' i' _ nd' W4 P4 Hnd M4)) as Hw. unfold walked in Hw.
      destruct (resolves b t (ent_inum D j) es); [|done].
      destruct Hw as (i2 & R2 & s5 & E5 & W5 & P5 & M5 & N5). exists i2, R2, s5. split_and!; [done..|].
      intros Hb. destruct (N5 Hb) as (e' & He' & Hc). exists e'. split; [|done]. rewrite last_cons. by rewrite He'.
    + destruct Hcase as (s3 & s4 & E3 & E4 & W4 & M4). rewrite (bind_ok _ _ _ _ _ E3). cbn [fst].
      rewrite (decide_True (P := PNull = PNull)) by done. rewrite (bind_ok _ _ _ _ _ E4). by exists s4.
Qed.

Lemma namex_walk b es : forall fuel path l s R1 i k nd,
  elements l = es -> (length es <= fuel)%nat -> cstr (mm s) path l -> 0 < path -> (length l <= path_fuel)%nat ->
  outside path (Z.of_nat (length l)) -> walk s ents V R1 -> plus R (ROOTDEV, k) i R1 -> t k = Some nd ->
  walked b k es s (namex_loop lookup_de fuel path (PInode i) b name s).
Proof.
  induction es as [|e es IH]; intros fuel path l s R1 i k nd El Hf Hs Hp Hlen Ho W P Hk.
  - pose proof (skipelem_spec s path name l Hs ltac:(lia) Hlen (proj1 Ho)) as H. rewrite El in H.
    assert (namex_loop lookup_de fuel path (PInode i) b name s
      = (if b then inode_put (PInode i) ;; mret PNull else mret (PInode i)) s) as ->.
    { destruct fuel; cbn [namex_loop]; by rewrite (bind_ok _ _ _ _ _ H). }
    by eapply walked_end.
  - destruct (next_element s R1 path l e es El Hs Hp Hlen Ho W)
      as (s1 & path' & r & E1 & W1 & M1 & Hn & Hr & Er & Hlast & Hp' & Hlen' & Ho').
    destruct fuel as [|fuel]; [cbn in Hf; lia|]. rewrite (namex_step _ _ _ _ _ _ _ E1).
    apply (walked_later b k (e :: es) s s1); [done|]. destruct nd as [n D|]; [|by eapply walked_other].
    eapply walked_dir; [exact W1|exact P|exact Hk|exact Hn|exact Hr|exact Hlast|].
    intros s' R' i' k' nd' W' P' Hk' M'. eapply IH; [exact Er|cbn in Hf; lia| |done|done|done|exact W'|exact P'|exact Hk'].
    eapply cstr_ext; [|exact Hr]. unfold outside, DIRSIZ in *. intros z Hz. apply M'; unfold DIRSIZ; lia.
Qed.

(** The first reference: to the root, or to the current directory *)
Lemma get_walk s k nd :
  walk s ents V R -> t k = Some nd ->
  exists s1 i R1, inode_get ROOTDEV k s = Ok (PInode i, s1) /\ walk s1 ents V R1 /\ plus R (ROOTDEV, k) i R1 /\ mm s1 = mm s.
Proof.
  intros [R0 I Hb Hu] Hk. destruct (inode_get_spec s R ROOTDEV k I) as [(i & s1 & R1 & E & St & I1 & K & Ek & Ef)|(_ & Hfull & _)].
  { intros j k' c Hj. apply Hbel in Hj. lia. }
  - pose proof (plus_get _ _ _ _ _ St) as P. exists s1, i, R1. split; [done|]. split; [|split; [done|apply K]]. split.
    + eapply trep_blocks; [apply K|done].
    + done.
    + by rewrite (kp_mem _ _ _ K).
    + intros j Hj. destruct (R !! j) eqn:Ej; [destruct (kp_slot _ _ _ K j ltac:(by eexists)) as [c ->]; apply unl_ref, Hu; by eexists|].
      destruct (decide (j = i)) as [->|Hne]; [left; by apply Ef|]. rewrite (plus_other _ _ _ _ _ P Hne), Ej in Hj. by destruct Hj.
  - exfalso. destruct Hroom as (j & _ & _ & Hj & _ & Ej & _). destruct (Hfull j Hj). congruence.
Qed.
Lemma dup_walk s i k c :
  walk s ents V R -> R !! i = Some (k, c) ->
  exists s1 R1, inode_dup (PInode i) s = Ok (PInode i, s1) /\ walk s1 ents V R1 /\ plus R k i R1 /\ mm s1 = mm s.
Proof.
  intros [R0 I Hb Hu] Hi. destruct (inode_dup_spec s R i k c I) as (s1 & E & I1 & K); [|done|].
  { intros j k' c' Hj. apply Hbel in Hj. lia. }
  eexists s1, _. split; [done|]. split; [|split; [by apply plus_more|apply K]]. split.
  - eapply trep_blocks; [apply K|done].
  - done.
  - by rewrite (kp_mem _ _ _ K).
  - intros j Hj. assert (is_Some (R !! j)) as Hj'.
    { destruct (decide (j = i)) as [->|Hne]; [by eexists|]. by rewrite lookup_insert_ne in Hj. }
    destruct (kp_slot _ _ _ K j Hj') as [c' ->]. by apply unl_ref, Hu.
Qed.
End Walk.

Lemma elements_length l : (length (elements l) <= length l)%nat.
Proof.
  unfold elements. assert (forall cur, length (elements_from cur l) <= length l + length (nonempty cur))%nat as H.
  { induction l as [|c l IH]; intros cur; cbn [elements_from length]; [done|]. case_decide.
    - rewrite length_app. specialize (IH []). cbn in IH. lia.
    - specialize (IH (cur ++ [c])). destruct cur; cbn in *; lia. }
  specialize (H []). cbn in H. lia.
Qed.

(** Where a walk starts *)
Definition starts_at {T} `{!FsThreads T} (s : fsys T) (R : refs) (l : list Z) (k0 : Z) : Prop :=
  (head l = Some SLASH /\ k0 = ROOTINO)
  \/ (head l <> Some SLASH /\ exists i c, R !! i = Some ((ROOTDEV, k0), c)
      /\ (pid ← in_threads get_curid; in_threads (tcb_get_cwd pid)) s = Ok (PInode i, s)).

Module NameProps.

(** C8 (functional): walking a path.  The disk holds a tree of directories ([tree]),
    no process has locked an inode or changed one in memory ([walk]), and the
    inode cache has two free slots.  For a path of at most 130 characters,
    [namex] (the body of [namei] and [nameiparent]) starts at the root inode or
    at the current directory and follows the elements of the path, each cut to
    13 characters, through the tables of the directories ([resolves]).  If they
    lead to an inode it returns a pointer to it, and the references in the cache
    are those from before plus one to this inode; for [nameiparent] this is the
    directory of the last element, whose name is in the buffer.  If a name is
    missing or something on the way is not a directory it returns null, and the
    references are exactly those from before: none is lost or left behind, all
    locks are released, and memory is unchanged except for the two buffers. *)
Theorem path_walk_resolves {T : Type} `{!FsKernel T} `{!FsKernelLaws T} `{!FsThreads T}
    tx V0 fsz nino st sz V t ents lookup_de name R (parent : bool) (s : fsys T) path l k0 nd :
  geometry V fsz nino st sz -> tree fsz nino st V t -> (length ents <= 9)%nat ->
  below 2147483645 R -> room2 R -> apart name lookup_de -> walk tx V0 st sz s ents V R ->
  cstr (fk_mem (kern s)) path l -> 0 < path -> (length l <= path_fuel)%nat ->
  outside lookup_de name path (Z.of_nat (length l)) -> starts_at s R l k0 -> t k0 = Some nd ->
  walked tx V0 st sz V t ents lookup_de name R parent k0 (elements l) s (namex lookup_de path parent name s).
Proof.
  intros G Ht Hl Hb Hr Ha W Hs Hp Hlen Ho Hst Hk.
  assert (pos R) as Hpos.
  { intros j k c Hj. by destruct (ir_range _ _ _ _ _ (ir_tab _ _ (wk_refs _ _ _ _ _ _ _ _ W)) Hj) as (_ & _ & _ & ?). }
  assert (exists s1 i R1, namex lookup_de path parent name s = namex_loop lookup_de path_fuel path (PInode i) parent name s1
    /\ walk tx V0 st sz s1 ents V R1 /\ plus R (ROOTDEV, k0) i R1 /\ fk_mem (kern s1) = fk_mem (kern s))
    as (s1 & i & R1 & E & W1 & P1 & M1).
  { unfold namex, mem_byte. rewrite gets_bind, (cstr_head _ _ _ Hs).
    destruct Hst as [[Hh ->]|(Hh & i & c & Hi & Hcwd)].
    - destruct l as [|c l]; [done|]. injection Hh as ->. rewrite decide_True by done.
      destruct (get_walk tx V0 st sz V t ents Hl R Hb Hr s ROOTINO nd W Hk) as (s1 & i & R1 & E & W1 & P1 & M1).
      exists s1, i, R1. by rewrite (bind_ok _ _ _ _ _ E).
    - assert (match l with [] => 0 | c :: _ => c end <> SLASH) as Hns by (destruct l; [done|]; intros ->; by apply Hh).
      rewrite decide_False by done. apply bind_inv in Hcwd as (pid & s0 & E1 & E2).
      destruct (dup_walk tx V0 st sz V ents Hl R Hb s i _ c W Hi) as (s1 & R1 & E & W1 & P1 & M1).
      exists s1, i, R1. rewrite bind_assoc, (bind_ok _ _ _ _ _ E1), bind_assoc, (bind_ok _ _ _ _ _ E2), (bind_ok _ _ _ _ _ E). done. }
  rewrite E. apply (walked_later tx V0 st sz V t ents lookup_de name R parent k0 _ s s1); [by apply mem_kept_eq|].
  eapply (namex_walk tx V0 fsz nino st sz V G t Ht ents Hl lookup_de name R Hpos Hb Hr Ha);
    [done| |by rewrite M1|done|done|done|exact W1|exact P1|exact Hk].
  pose proof (elements_length l). lia.
Qed.

(** ** The path "/a" on the sample disk *)
Definition sample_tree (k : Z) : option fnode :=
  if decide (k = 1) then Some (NDir 32 DirProps.root_bytes) else if decide (k = 2) then Some NOther else None.
Definition path_mem : mem := store_bytes 1000 [47; 97; 0] ∅.
Definition empty_cache (s : fsys (thr * mem)) : fsys (thr * mem) :=
  set_kern ((kern s).1, path_mem) (set_inodes ∅ (set_ic_lock free_lock s)).

Lemma tree_ok : tree 1000 64 980 Sample.V sample_tree.
Proof.
  assert (forall k nd, sample_tree k = Some nd -> (k = 1 /\ nd = NDir 32 DirProps.root_bytes) \/ (k = 2 /\ nd = NOther)) as Hc.
  { intros k nd E. unfold sample_tree in E. repeat case_decide; simplify_eq; naive_solver. }
  split.
  - intros k nd [[-> _]|[-> _]]%Hc; lia.
  - intros k nd y [[-> _]|[-> _]]%Hc; by vm_compute.
  - intros k n D y [[-> E]|[-> E]]%Hc Hy; [|done]. injection E as -> ->.
    assert (same_disk DirProps.root (disk_inode Sample.V 1 y)) as Hsd.
    { pose proof (of_synced _ _ _ _ _ DirProps.root_open) as [? ? ? ? ? ?]. by split. }
    eapply dir_in_same; [exact Hsd|done|exact DirProps.root_dir].
  - intros k n D o [[-> E]|[-> E]]%Hc; [|done]. injection E as -> ->. apply DirProps.root_bytes_ok.
  - intros k y [[-> E]|[-> _]]%Hc; [done|]. by vm_compute.
  - intros k n D e j [[-> E]|[-> E]]%Hc Hf; [|done]. injection E as -> ->. apply dir_find_spec in Hf as (Hj & Hm & _).
    apply andb_true_iff in Hm as [Hm%bool_decide_eq_true _]. assert (j ∈ seqZ 0 32) as Hin by (apply elem_of_seqZ; lia).
    clear Hj. revert j Hin Hm. apply (Forall_forall (fun j => ent_inum DirProps.root_bytes j <> 0 -> is_Some (sample_tree (ent_inum DirProps.root_bytes j)))).
    assert (Forall (fun j => ent_inum DirProps.root_bytes j = 0 \/ ent_inum DirProps.root_bytes j = 1 \/ ent_inum DirProps.root_bytes j = 2) (seqZ 0 32)) as H.
    { apply (bool_decide_unpack _). by vm_compute. }
    eapply Forall_impl; [exact H|]. intros j [->|[->| ->]] Hn; [done|by eexists..].
Qed.

Lemma path_walk_resolves_witness : exists (s s' : fsys (thr * mem)) i' R',
  namex 200 1000 false 100 (empty_cache s) = Ok (PInode i', s') /\ plus ∅ (ROOTDEV, 2) i' R'.
Proof.
  destruct Sample.started as (s & _ & I). exists s.
  assert (irep (empty_cache s) 980 20 Sample.V) as I' by (eapply irep_blocks; [|exact I]; by split).
  pose proof (path_walk_resolves (mk_txn 0 (past (empty_cache s))) Sample.V 1000 64 980 20 Sample.V sample_tree [] 200 100 ∅ false
    (empty_cache s) 1000 [47; 97] 1 (NDir 32 DirProps.root_bytes)) as H.
  unfold walked in H. assert (resolves false sample_tree 1 (elements [47; 97]) = Some 2) as Er by (by vm_compute). rewrite Er in H.
  destruct H as (i' & R' & s' & E & _ & P & _).
  - exact Sample.geometry_ok.
  - exact tree_ok.
  - cbn. lia.
  - intros i k c Hi. by rewrite lookup_empty in Hi.
  - exists 0, 1. rewrite !lookup_empty. unfold NINODE. split_and!; try done; lia.
  - unfold apart. lia.
  - split; [by apply irep_trep| | |].
    + split; [exact (irep_kern _ _ _ _ I)|done|]. split.
      * intros i. change (inodes (empty_cache s)) with (∅ : gmap Z inode). rewrite lookup_empty, lookup_total_empty.
        by rewrite decide_False by (intros [_ C]; by apply C).
      * intros i _. change (inodes (empty_cache s)) with (∅ : gmap Z inode). by rewrite lookup_total_empty.
      * intros i j k [c Hc]. by rewrite lookup_empty in Hc.
    + intros a. change (fk_mem (kern (empty_cache s))) with path_mem. unfold path_mem. rewrite (store_bytes_patched _ _ _ a).
      change (Z.of_nat (length [47; 97; 0])) with 3. case_decide; [|rewrite lookup_total_empty; by vm_compute].
      assert (a = 1000 \/ a = 1001 \/ a = 1002) as [->|[->| ->]] by lia; by vm_compute.
    + intros j [? Hj]. by rewrite lookup_empty in Hj.
  - split; [| |by vm_compute]; intros k Hk; (assert (k = 0 \/ k = 1) as [->| ->] by (cbn in Hk; lia)); by vm_compute.
  - lia.
  - vm_compute. lia.
  - unfold outside, DIRSIZ. cbn. lia.
  - left. done.
  - done.
  - exists s', i', R'. exact (conj E P).
Defined.
End NameProps.
