(* ===== verification/Mkfs.v ===== *)
(** * Making a file system: fs/mkfs.c

    The host program that writes a disk image with a root directory and some
    files.  The image is a file of the host, a map from sector numbers to the
    sectors written so far; the files to be stored are arguments, as names and
    contents.  An [assert] that fails and an [exit(1)] are [Panic].

    [xshort] and [xint] convert to little-endian: the fields of a structure on
    disk are written with [set16] and [set32] of Bytes.v.  The structures are
    those of the kernel; [size_t] in the super block has the width the host
    compiler gives it, which is an argument. *)

From S2P Require Import Prelude DList Machine Thread Scheduler KString Bytes FsData BufCache FsLog Block Inode InodeData InodeDisk Dir DirSpec NameSpec.

Definition nblocks : Z := 985.
Definition nlog : Z := LOGSIZE.
Definition ninodes : Z := 200.
Definition fs_size : Z := 1024.

Record mkst := mk_mkst {
  fsfd : gmap Z (list Z);       (* the image, by sector *)
  freeblock : Z;
  usedblocks : Z;
  freeinode : Z;
}.

Definition set_fsfd (v : gmap Z (list Z)) s := mk_mkst v (freeblock s) (usedblocks s) (freeinode s).
Definition set_blocks (f u : Z) s := mk_mkst (fsfd s) f u (freeinode s).
Definition set_freeinode (v : Z) s := mk_mkst (fsfd s) (freeblock s) (usedblocks s) v.

Notation K := (M mkst).

Definition xshort (x : Z) : Z := u16 x.
Definition xint (x : Z) : Z := u32 x.

Definition wsect (sec : Z) (buf : list Z) : K unit := modify (fun s => set_fsfd (<[sec := buf]> (fsfd s)) s).
Definition rsect (sec : Z) : K (list Z) :=
  s ← get;
  match fsfd s !! sec with Some d => mret d | None => panic "read" end.

Definition i2b (inum : Z) : Z := inum / IPB + 2.

(** [struct dinode] is the part of an [inode] that is on disk. *)
Definition zero_dinode : inode := inhabitant.

Definition winode (inum : Z) (ip : inode) : K unit :=
  let bn := i2b inum in
  buf ← rsect bn;
  wsect bn (put_dinode (inum mod IPB * sizeof_dinode) ip buf).

Definition rinode (inum : Z) : K inode :=
  let bn := i2b inum in
  buf ← rsect bn;
  mret (get_dinode buf (inum mod IPB * sizeof_dinode) zero_dinode).

Definition ialloc (type : Z) : K Z :=
  inum ← gets freeinode;
  modify (set_freeinode (u32 (inum + 1))) ;;
  winode inum (mk_inode 0 0 0 0 (xshort type) 0 0 (xshort 1) (xint 0) ∅) ;;
  mret inum.

Definition balloc (used : Z) : K unit :=
  if decide (used < 512 * 8) then
    wsect (ninodes / IPB + 3) (foldl (fun buf i => mark_bit i buf) zero_block (seqZ 0 used))
  else panic "assert".

(** [freeblock++; usedblocks++] *)
Definition take_block : K Z :=
  b ← gets freeblock;
  modify (fun s => set_blocks (u32 (b + 1)) (u32 (usedblocks s + 1)) s) ;;
  mret b.

(** The block [fbn] of the file, and its addresses with the blocks that were
    missing *)
Definition append_block (addrs : gmap Z Z) (fbn : Z) : K (gmap Z Z * Z) :=
  if decide (fbn < NDIRECT) then
    addrs ← (if decide (xint (addrs !!! fbn) = 0) then
               b ← take_block;
               mret (<[fbn := xint b]> addrs)
             else mret addrs);
    mret (addrs, xint (addrs !!! fbn))
  else
    addrs ← (if decide (xint (addrs !!! NDIRECT) = 0) then
               b ← take_block;
               mret (<[NDIRECT := xint b]> addrs)
             else mret addrs);
    indirect ← rsect (xint (addrs !!! NDIRECT));
    indirect ← (if decide (get32 indirect (4 * (fbn - NDIRECT)) = 0) then
                  b ← take_block;
                  let indirect := set32 (4 * (fbn - NDIRECT)) (xint b) indirect in
                  wsect (xint (addrs !!! NDIRECT)) indirect ;;
                  mret indirect
                else mret indirect);
    mret (addrs, xint (get32 indirect (4 * (fbn - NDIRECT)))).

(** Every pass but the last ends at the end of a block. *)
Definition append_fuel (p : list Z) : nat := length p / 512 + 2.
Fixpoint iappend_loop (fuel : nat) (addrs : gmap Z Z) (off : Z) (p : list Z) : K (gmap Z Z * Z) :=
  match p with
  | [] => mret (addrs, off)
  | _ =>
      match fuel with
      | O => fail Hang
      | S fuel =>
          let fbn := off / 512 in
          if decide (fbn < MAXFILE) then
            r ← append_block addrs fbn;
            let n1 := Z.min (Z.of_nat (length p)) ((fbn + 1) * 512 - off) in
            buf ← rsect r.2;
            wsect r.2 (splice (off - fbn * 512) (take (Z.to_nat n1) p) buf) ;;
            iappend_loop fuel r.1 (u32 (off + n1)) (drop (Z.to_nat n1) p)
          else panic "assert"
      end
  end.

Definition iappend (inum : Z) (p : list Z) : K unit :=
  din ← rinode inum;
  r ← iappend_loop (append_fuel p) (i_addrs din) (xint (i_size din)) p;
  winode inum (set_i_size (xint r.2) (set_i_addrs r.1 din)).

(** ** main *)

(** [struct dirent] with a name of at most [DIRSIZ] characters *)
Definition dirent (inum : Z) (name : list Z) : list Z :=
  half_bytes (xshort inum) ++ take 14 (name ++ replicate 14 0).

(** [read(fd, buf, 512)] until the end of the file *)
Fixpoint file_chunks (fuel : nat) (l : list Z) : list (list Z) :=
  match fuel, l with
  | _, [] | O, _ => []
  | S fuel, _ => take 512 l :: file_chunks fuel (drop 512 l)
  end.

Definition file_name (argv : list Z) : list Z := match argv with 95 :: l => l | l => l end.

Definition add_file (rootino : Z) (f : list Z * list Z) : K unit :=
  if decide (47 ∈ f.1) then panic "assert"
  else
    inum ← ialloc T_FILE;
    iappend rootino (dirent inum (file_name f.1)) ;;
    for_each (file_chunks (length f.2) f.2) (fun buf => iappend inum buf).

(** The super block; [w] is [sizeof(size_t)]. *)
Definition super_block (w : Z) : list Z :=
  set32 0 (xint fs_size) (set32 w (xint nblocks)
    (set32 (w + 4) (xint ninodes) (set32 (w + 8) (xint nlog) zero_block))).

Definition mkfs_main (w : Z) (files : list (list Z * list Z)) : K unit :=
  let bitblocks := fs_size / (512 * 8) + 1 in
  let used := ninodes / IPB + 3 + bitblocks in
  modify (set_blocks used used) ;;
  if decide (nblocks + used + nlog = fs_size) then
    for_each (seqZ 0 (nblocks + used + nlog)) (fun i => wsect i zero_block) ;;
    wsect 1 (super_block w) ;;
    rootino ← ialloc T_DIR;
    if decide (rootino = ROOTINO) then
      iappend rootino (dirent rootino [46]) ;;
      iappend rootino (dirent rootino [46; 46]) ;;
      for_each files (add_file rootino) ;;
      din ← rinode rootino;
      let off := xint (i_size din) in
      let off := (off / BSIZE + 1) * BSIZE in
      winode rootino (set_i_size (xint off) din) ;;
      u ← gets usedblocks;
      balloc u
    else panic "assert"
  else panic "assert".

(** The program starts with [freeinode = 1] and truncates the image. *)
Definition mkfs_start : mkst := mk_mkst ∅ 0 0 1.

(** The image as the kernel's disk driver sees it, as drive [ROOTDEV] *)
Definition image_of (s : mkst) : image := kmap (pair ROOTDEV) (fsfd s).
