(* ===== verification/MkfsSpec.v ===== *)
(** * The image made by mkfs

    What [mkfs_main] of Mkfs.v leaves in the image: a file system as the
    theorems about the kernel's file system assume it, with the files that
    were asked for in its root directory. *)

From S2P Require Import Prelude DList Machine Thread Scheduler KString Bytes FsData BufCache FsLog Block Inode InodeData InodeDisk Dir DirSpec NameSpec Mkfs.

(** ** Blocks

    While the image is built its bitmap is empty; [balloc] writes it at the end.
    The image is seen as if the bits of all blocks handed out so far were set:
    [mrel s W] says that [W] is the image with this bitmap. *)
Notation mino_wf := (ino_wf 1024 200 1014).
Notation minuse := (inuse 1024 200).
Notation mdata := (in_data 1024 200 1014).
Notation mfresh := (fresh 1024 200 1014).
Notation mtaken := (taken 200).
Notation mbitmap := (bitmap 1024 200).
Notation mext := (ext 1024 200).

Definition bits (n : Z) : list Z := foldl (fun buf i => mark_bit i buf) zero_block (seqZ 0 n).

Lemma bits_succ n : 0 <= n -> bits (n + 1) = mark_bit n (bits n).
Proof.
  intros Hn. unfold bits. rewrite <- (Z2Nat.id n) by done.
  replace (Z.of_nat (Z.to_nat n) + 1) with (Z.of_nat (S (Z.to_nat n))) by lia. rewrite seqZ_S, foldl_app.
  cbn [foldl]. by rewrite Z.add_0_l.
Qed.
Lemma bits_spec n : 0 <= n <= 4096 ->
  length (bits n) = 512%nat /\ forall k, 0 <= k < 4096 -> bit (bits n) k = bool_decide (k < n).
Proof.
  intros Hn. destruct Hn as [H0 Hn]. revert Hn. pattern n. revert n H0. apply natlike_ind.
  - intros _. split; [done|]. intros k Hk. rewrite bool_decide_false by lia.
    unfold bit, get8. assert (at_ (bits 0) (k / 8) = 0) as ->; [|apply Z.bits_0].
    unfold at_. change (bits 0) with zero_block. apply lookup_total_replicate_2.
    assert (k / 8 < 512) by (apply Z.div_lt_upper_bound; lia). pose proof (Z.div_pos k 8). lia.
  - intros n H0 IH Hn. destruct IH as [Hl Hb]; [lia|]. replace (Z.succ n) with (n + 1) by lia. rewrite bits_succ by done.
    split.
    + unfold mark_bit. rewrite set8_length; [done|]. rewrite Hl. split; [apply Z.div_pos; lia|].
      apply Z.div_lt_upper_bound; lia.
    + intros k Hk. rewrite mark_bit_spec by (done || unfold BPB, BSIZE; lia). rewrite Hb by done.
      case_decide; [by rewrite bool_decide_true by lia|]. apply bool_decide_ext. lia.
Qed.

Definition VV (s : mkst) (x : Z) : list Z := default zero_block (fsfd s !! x).

Record mrel (s : mkst) (W : Z -> list Z) : Prop := {
  mr_dom x : 0 <= x < 1024 -> exists d, fsfd s !! x = Some d /\ length d = 512%nat;
  mr_out x : ~ (0 <= x < 1024) -> fsfd s !! x = None;
  mr_used : usedblocks s = freeblock s;
  mr_free : 29 <= freeblock s <= 1014;
  mr_zero x : freeblock s <= x -> VV s x = zero_block;
  mr_super : VV s 1 = super_block 4;
  mr_view x : W x = if decide (x = 28) then bits (freeblock s) else VV s x;
}.

Lemma bblock x : 0 <= x < 1024 -> BBLOCK x 200 = 28.
Proof. intros Hx. unfold BBLOCK. rewrite (Z.div_small x BPB) by (unfold BPB, BSIZE; lia). done. Qed.
Lemma mbitmap_28 z : mbitmap z <-> z = 28.
Proof.
  split; [intros (k & Hk & ->); by apply bblock|]. intros ->. exists 0. split; [lia|done].
Qed.
Lemma mdata_range x : mdata x <-> 29 <= x < 1014.
Proof. unfold in_data. change (data_start 1024 200) with 29. done. Qed.

Section Rel.
Context {s : mkst} {W : Z -> list Z} (R : mrel s W).

Lemma mr_geo : geometry W 1024 200 1014 10.
Proof.
  assert (W 1 = super_block 4) as E1 by (rewrite (mr_view _ _ R), decide_False by done; apply R).
  split; rewrite ?E1; [by vm_compute..| |done|by vm_compute]. unfold layout. lia.
Qed.
Lemma mr_len z : length (W z) = 512%nat.
Proof.
  rewrite (mr_view _ _ R). pose proof (mr_free _ _ R). case_decide; [apply bits_spec; lia|]. unfold VV.
  destruct (decide (0 <= z < 1024)) as [Hz|Hz].
  - by destruct (mr_dom _ _ R z Hz) as (d & -> & Hd).
  - by rewrite (mr_out _ _ R z Hz).
Qed.
Lemma mr_inuse z : minuse W z = bool_decide (0 <= z < freeblock s).
Proof.
  pose proof (mr_free _ _ R). unfold inuse. destruct (decide (0 <= z < 1024)) as [Hz|Hz].
  - rewrite bool_decide_true by done. unfold used. rewrite bblock by done.
    rewrite (mr_view _ _ R), decide_True by done. rewrite Z.mod_small by (unfold BPB, BSIZE; lia).
    destruct (bits_spec (freeblock s) ltac:(lia)) as [_ ->]; [|lia]. cbn [andb].
    apply bool_decide_ext. lia.
  - rewrite bool_decide_false by done. symmetry. apply bool_decide_false. lia.
Qed.
Lemma mr_fresh : freeblock s < 1014 -> mfresh W (freeblock s).
Proof.
  intros Hf. split; [apply mdata_range; pose proof (mr_free _ _ R); lia|]. rewrite mr_inuse. apply bool_decide_false. lia.
Qed.
Lemma mr_read z : 0 <= z < 1024 -> z <> 28 -> rsect z s = Ok (W z, s).
Proof.
  intros Hz Hn. unfold rsect. mrun. destruct (mr_dom _ _ R z Hz) as (d & E & _). rewrite E.
  rewrite (mr_view _ _ R), decide_False by done. unfold VV. by rewrite E.
Qed.

(** Overwriting a sector that is neither the super block nor the bitmap *)
Lemma mr_write z d : 2 <= z < freeblock s -> z <> 28 -> length d = 512%nat ->
  exists s', wsect z d s = Ok (tt, s') /\ mrel s' (upd_blk W z d) /\ freeblock s' = freeblock s /\ freeinode s' = freeinode s.
Proof.
  intros Hz Hn Hd. destruct R as [D O U F Z0 S V]. eexists. split; [done|]. split; [|done].
  split; cbn [fsfd usedblocks freeblock set_fsfd]; try done.
  - intros x Hx. destruct (decide (x = z)) as [->|Hne]; [exists d; by rewrite lookup_insert_eq|].
    rewrite lookup_insert_ne by done. by apply D.
  - intros x Hx. rewrite lookup_insert_ne by lia. by apply O.
  - intros x Hx. unfold VV. cbn [fsfd set_fsfd]. rewrite lookup_insert_ne by lia. by apply Z0.
  - unfold VV. cbn [fsfd set_fsfd]. rewrite lookup_insert_ne by lia. apply S.
  - intros x. unfold upd_blk. rewrite V. unfold VV. cbn [fsfd set_fsfd]. destruct (decide (x = z)) as [->|Hne].
    + rewrite decide_False by done. by rewrite lookup_insert_eq.
    + rewrite lookup_insert_ne by done. done.
Qed.

Lemma mr_take : freeblock s < 1014 ->
  exists s', take_block s = Ok (freeblock s, s') /\ mrel s' (mtaken (freeblock s) W)
    /\ freeblock s' = freeblock s + 1 /\ freeinode s' = freeinode s.
Proof.
  intros Hf. pose proof R as [D O U F Z0 S V]. unfold take_block. mrun. rewrite U, !u32_id by (unfold W32; lia).
  eexists. split; [done|]. split; [|done]. split; cbn [fsfd usedblocks freeblock set_blocks]; try done.
  - lia.
  - intros x Hx. apply Z0. lia.
  - intros x. unfold taken, mark, upd_blk. rewrite bblock by lia. rewrite (Z.mod_small _ BPB) by (unfold BPB, BSIZE; lia).
    destruct (decide (x = 28)) as [->|Hx].
    + rewrite decide_False by lia. rewrite V, decide_True by done. by rewrite bits_succ by lia.
    + destruct (decide (x = freeblock s)) as [->|Hne].
      * unfold VV in *. symmetry. apply Z0. lia.
      * rewrite V, decide_False by done. done.
Qed.
End Rel.

(** ** The blocks of a file *)

(** The file with addresses [a] has got more blocks, file block [fbn] among
    them at most. *)
Record mgrow (s : mkst) (W : Z -> list Z) (a : gmap Z Z) (fbn : Z) (s' : mkst) (W' : Z -> list Z) (a' : gmap Z Z) : Prop := {
  mg_rel : mrel s' W';
  mg_wf : mino_wf W' a';
  mg_ext : mext W a W' a';
  mg_inode : freeinode s' = freeinode s;
  mg_keep k : 0 <= k < 140 -> k <> fbn -> baddr W' a' k = baddr W a k;
}.

Lemma mgrow_refl s W a fbn : mrel s W -> mino_wf W a -> mgrow s W a fbn s W a.
Proof. intros R Hw. split; try done. apply ext_refl. Qed.
Lemma mgrow_trans s W a fbn s1 W1 a1 s2 W2 a2 :
  mgrow s W a fbn s1 W1 a1 -> mgrow s1 W1 a1 fbn s2 W2 a2 -> mgrow s W a fbn s2 W2 a2.
Proof.
  intros [R1 H1 E1 I1 K1] [R2 H2 E2 I2 K2]. split; try done.
  - by eapply (ext_trans 1024 200 1014).
  - congruence.
  - intros k Hk Hn. by rewrite K2, K1.
Qed.
Lemma gain_step s W a fbn s' W' a' :
  mrel s W -> mino_wf W a -> freeblock s < 1014 -> gains 1024 200 (V := W) a (freeblock s) fbn W' a' ->
  mrel s' W' -> freeinode s' = freeinode s -> mgrow s W a fbn s' W' a'.
Proof.
  intros R Hw Hf Hg R' Hi. pose proof (mr_fresh R Hf) as Hfr. split; try done.
  - by apply (gains_wf _ _ _ 10 (mr_geo R) a (freeblock s) fbn).
  - by apply (gains_ext _ _ _ 10 (mr_geo R) a (freeblock s) fbn).
  - intros k Hk Hn. by destruct (ga_addr _ _ _ _ _ _ _ Hg k Hk) as [E|(E & _)].
Qed.

(** Addresses fit into 32 bits. *)
Lemma addr_word W a z : mino_wf W a -> owned W a z \/ z = 0 -> xint z = z /\ 0 <= z < 1014.
Proof.
  intros Hw [Hz| ->]; [|done]. destruct (iw_own _ _ _ _ _ Hw z Hz) as [Hd _]. rewrite mdata_range in Hd.
  split; [|lia]. apply u32_id. unfold W32. lia.
Qed.
Lemma baddr_word W a k : mino_wf W a -> 0 <= k < 140 -> xint (baddr W a k) = baddr W a k /\ 0 <= baddr W a k < 1014.
Proof.
  intros Hw Hk. apply (addr_word W a _ Hw). destruct (decide (baddr W a k = 0)) as [E|E]; [by right|left].
  by apply baddr_owned.
Qed.
Lemma ind_word W a : mino_wf W a -> xint (a !!! 12) = a !!! 12 /\ 0 <= a !!! 12 < 1014.
Proof.
  intros Hw. apply (addr_word W a _ Hw). destruct (decide (a !!! 12 = 0)) as [E|E]; [by right|left]. by apply ind_owned.
Qed.

Definition one_if (P : Prop) `{!Decision P} : Z := if decide P then 1 else 0.

(** The indirect block *)
Lemma ensure_indirect s W a fbn :
  mrel s W -> mino_wf W a -> freeblock s + one_if (a !!! 12 = 0) <= 1014 ->
  exists s' W' a', (if decide (xint (a !!! NDIRECT) = 0) then b ← take_block; mret (<[NDIRECT := xint b]> a) else mret a) s
      = Ok (a', s')
    /\ mgrow s W a fbn s' W' a' /\ a' !!! 12 <> 0 /\ freeblock s' = freeblock s + one_if (a !!! 12 = 0)
    /\ (forall k, 0 <= k < 140 -> baddr W' a' k = baddr W a k).
Proof.
  intros R Hw Hf. unfold NDIRECT. destruct (ind_word W a Hw) as [-> Hr]. unfold one_if in *. pose proof (mr_free _ _ R).
  destruct (decide (a !!! 12 = 0)) as [E|E].
  - destruct (mr_take R ltac:(lia)) as (s' & Et & R' & F' & I'). rewrite (bind_ok _ _ _ _ _ Et).
    assert (xint (freeblock s) = freeblock s) as -> by (apply u32_id; unfold W32; lia).
    pose proof (gains_indirect _ _ _ _ (mr_geo R) (fun z _ => mr_len R z) a _ fbn Hw (mr_fresh R ltac:(lia)) E) as Hg.
    exists s', (mtaken (freeblock s) W), (<[12 := freeblock s]> a). split; [done|].
    split; [apply gain_step; done || lia|]. split; [rewrite lookup_total_insert_eq; lia|]. split; [done|].
    destruct (ga_ind _ _ _ _ _ _ _ Hg) as [Ei|(_ & _ & Hk)]; [|done].
    rewrite lookup_total_insert_eq in Ei. lia.
  - exists s, W, a. split; [done|]. split; [by apply mgrow_refl|]. split; [done|]. split; [lia|done].
Qed.

(** Blocks a write to file block [fbn] needs *)
Definition need (W : Z -> list Z) (a : gmap Z Z) (fbn : Z) : Z :=
  one_if (baddr W a fbn = 0) + one_if (12 <= fbn /\ a !!! 12 = 0).

Definition block_added s W a fbn (r : result ((gmap Z Z * Z) * mkst)) : Prop :=
  exists s' W' a', r = Ok ((a', baddr W' a' fbn), s')
    /\ mgrow s W a fbn s' W' a' /\ baddr W' a' fbn <> 0 /\ freeblock s' = freeblock s + need W a fbn
    /\ (fbn < 12 -> a' !!! 12 = a !!! 12) /\ (12 <= fbn -> a' !!! 12 <> 0).

Lemma append_direct s W a fbn :
  mrel s W -> mino_wf W a -> 0 <= fbn < 12 -> freeblock s + need W a fbn <= 1014 ->
  block_added s W a fbn (append_block a fbn s).
Proof.
  intros R Hw Hb Hf. unfold append_block, NDIRECT, block_added, need in *. pose proof (mr_free _ _ R).
  rewrite (decide_True (P := fbn < 12)) by lia.
  assert (one_if (12 <= fbn /\ a !!! 12 = 0) = 0) as Eo by (unfold one_if; by rewrite decide_False by lia).
  rewrite Eo in *. clear Eo.
  assert (forall V b, baddr V b fbn = b !!! fbn) as Eb by (intros; unfold baddr; by rewrite decide_True by lia).
  pose proof (baddr_word W a fbn Hw ltac:(lia)) as [Ew _]. rewrite Eb in *. rewrite Ew. unfold one_if in *.
  destruct (decide (a !!! fbn = 0)) as [E|E].
  - destruct (mr_take R ltac:(lia)) as (s' & Et & R' & F' & I'). rewrite bind_assoc, (bind_ok _ _ _ _ _ Et).
    assert (xint (freeblock s) = freeblock s) as -> by (apply u32_id; unfold W32; lia).
    destruct (gains_direct _ _ _ _ (mr_geo R) (fun z _ => mr_len R z) a _ fbn Hw (mr_fresh R ltac:(lia)) ltac:(lia) E) as [Hg Hx].
    exists s', (mtaken (freeblock s) W), (<[fbn := freeblock s]> a). rewrite Hx. mrun.
    rewrite lookup_total_insert_eq. assert (xint (freeblock s) = freeblock s) as -> by (apply u32_id; unfold W32; lia).
    split; [done|]. split; [apply gain_step; done || lia|]. split; [lia|]. split; [lia|]. split; [|lia]. intros _.
    rewrite lookup_total_insert_ne by lia. done.
  - exists s, W, a. rewrite Eb. mrun. rewrite Ew. split; [done|]. split; [by apply mgrow_refl|]. split; [done|].
    split; [lia|]. split; [done|lia].
Qed.

Lemma append_indirect s W a fbn :
  mrel s W -> mino_wf W a -> 12 <= fbn < 140 -> freeblock s + need W a fbn <= 1014 ->
  block_added s W a fbn (append_block a fbn s).
Proof.
  intros R Hw Hb Hf. unfold append_block, NDIRECT, block_added, need in *. pose proof (mr_free _ _ R).
  rewrite (decide_False (P := fbn < 12)) by lia. assert (~ fbn < 12) as Hd by lia.
  destruct (ensure_indirect s W a fbn R Hw) as (s1 & W1 & a1 & E1 & G1 & N1 & F1 & B1).
  { assert (12 <= fbn) by lia. unfold one_if in *. repeat case_decide; try lia; tauto. }
  rewrite (bind_ok _ _ _ _ _ E1). pose proof (mg_rel _ _ _ _ _ _ _ G1) as R1. pose proof (mg_wf _ _ _ _ _ _ _ G1) as Hw1.
  destruct (ind_word W1 a1 Hw1) as [Ei Hi]. rewrite Ei.
  destruct (iw_own _ _ _ _ _ Hw1 _ (ind_owned a1 N1)) as [Hid Hiu]. rewrite mdata_range in Hid.
  rewrite (mr_inuse R1), bool_decide_eq_true in Hiu.
  assert (0 <= a1 !!! 12 < 1024 /\ a1 !!! 12 <> 28) as [Hi1 Hi2] by lia.
  rewrite (bind_ok _ _ _ _ _ (mr_read R1 _ Hi1 Hi2)).
  assert (forall V b, b !!! 12 <> 0 -> baddr V b fbn = get32 (V (b !!! 12)) (4 * (fbn - 12))) as Eb.
  { intros V b Hn. unfold baddr. by rewrite !decide_False. }
  rewrite <- (Eb W1 a1 N1).
  assert (one_if (12 <= fbn /\ a !!! 12 = 0) = one_if (a !!! 12 = 0)) as Eo.
  { assert (12 <= fbn) by lia. unfold one_if. repeat case_decide; try done; tauto. }
  rewrite Eo in *. rewrite B1 by lia. unfold one_if at 1 in Hf. unfold one_if at 1.
  destruct (decide (baddr W a fbn = 0)) as [E|E].
  - destruct (mr_take R1 ltac:(lia)) as (s2 & Et & R2 & F2 & I2). rewrite bind_assoc, (bind_ok _ _ _ _ _ Et).
    pose proof (mr_free _ _ R1).
    assert (xint (freeblock s1) = freeblock s1) as -> by (apply u32_id; unfold W32; lia).
    pose proof (mr_fresh R1 ltac:(lia)) as Hfr.
    destruct (gains_entry _ _ _ _ (mr_geo R1) (fun z _ => mr_len R1 z) a1 _ fbn Hw1 Hfr ltac:(lia) N1 ltac:(rewrite B1 by lia; done)) as [Hg Hx].
    destruct (owned_kept _ _ _ _ (mr_geo R1) a1 _ _ Hw1 Hfr (ind_owned a1 N1)) as [_ Ek].
    destruct (mr_write R2 (a1 !!! 12) (set32 (4 * (fbn - 12)) (freeblock s1) (W1 (a1 !!! 12)))) as (s3 & Ew & R3 & F3 & I3).
    { lia. } { lia. } { rewrite set32_length; rewrite ?(mr_len R1); lia. }
    rewrite bind_assoc, (bind_ok _ _ _ _ _ Ew). exists s3, (entered 200 (V := W1) a1 (freeblock s1) fbn), a1.
    rewrite Hx. mrun. rewrite get32_set32 by (rewrite ?(mr_len R1); unfold W32; lia).
    assert (xint (freeblock s1) = freeblock s1) as -> by (apply u32_id; unfold W32; lia).
    split; [done|]. split; [|split; [lia|split; [lia|by split; [lia|]]]].
    apply (mgrow_trans _ _ _ _ s1 W1 a1); [done|]. apply gain_step; try done; [lia| |congruence].
    unfold entered. by rewrite Ek.
  - exists s1, W1, a1. mrun. rewrite <- (Eb W1 a1 N1). destruct (baddr_word W1 a1 fbn Hw1 ltac:(lia)) as [-> _].
    split; [done|]. split; [done|]. rewrite B1 by lia. split; [done|]. split; [lia|]. split; [lia|done].
Qed.

Lemma append_block_spec s W a fbn :
  mrel s W -> mino_wf W a -> 0 <= fbn < 140 -> freeblock s + need W a fbn <= 1014 ->
  block_added s W a fbn (append_block a fbn s).
Proof.
  intros R Hw Hb Hf. destruct (decide (fbn < 12)); [apply append_direct|apply append_indirect]; done || lia.
Qed.

(** ** Appending *)

(** The file has blocks for exactly [off] bytes. *)
Definition prefix (W : Z -> list Z) (a : gmap Z Z) (off : Z) : Prop :=
  (forall k, 0 <= k < 140 -> (baddr W a k <> 0 <-> k * 512 < off)) /\ (a !!! 12 <> 0 <-> 6144 < off).
(** Blocks of a file of [n] bytes *)
Definition nblk (n : Z) : Z := (n + 511) / 512 + one_if (6144 < n).

Lemma nblk_mono m n : m <= n -> nblk m <= nblk n.
Proof.
  intros H. unfold nblk, one_if. pose proof (Z.div_le_mono (m + 511) (n + 511) 512 ltac:(lia) ltac:(lia)).
  repeat case_decide; lia.
Qed.

(** The bytes up to the end of a block *)
Lemma need_chunk W a off m :
  prefix W a off -> 0 <= off -> off / 512 < 140 -> 0 < m -> off mod 512 + m <= 512 ->
  need W a (off / 512) = nblk (off + m) - nblk off.
Proof.
  intros [Hk Hi] H0 Hb Hm Hle. pose proof (Z.div_mod off 512 ltac:(lia)) as Hd.
  pose proof (Z.mod_pos_bound off 512 ltac:(lia)) as Hr. pose proof (Z.div_pos off 512 ltac:(lia) ltac:(lia)).
  specialize (Hk (off / 512) ltac:(lia)).
  assert ((off + m + 511) / 512 = off / 512 + 1) as E1 by (symmetry; apply Z.div_unique with (off mod 512 + m - 1); lia).
  unfold need, nblk. rewrite E1. unfold one_if. destruct (decide (off mod 512 = 0)) as [E0|E0].
  - assert ((off + 511) / 512 = off / 512) as -> by (symmetry; apply Z.div_unique with 511; lia).
    destruct (decide (baddr W a (off / 512) = 0)) as [Eb|Eb]; [|apply Hk in Eb; lia].
    destruct (decide (a !!! 12 = 0)) as [Ea|Ea].
    + assert (~ 6144 < off) by tauto. repeat case_decide; lia.
    + assert (6144 < off) by tauto. rewrite decide_False by tauto. repeat case_decide; lia.
  - assert ((off + 511) / 512 = off / 512 + 1) as -> by (symmetry; apply Z.div_unique with (off mod 512 - 1); lia).
    destruct (decide (baddr W a (off / 512) = 0)) as [Eb|Eb]; [exfalso; apply (proj2 Hk); [lia|done]|].
    destruct (decide (a !!! 12 = 0)) as [Ea|Ea].
    + assert (~ 6144 < off) by tauto. repeat case_decide; lia.
    + assert (6144 < off) by tauto. rewrite decide_False by tauto. repeat case_decide; lia.
Qed.

Record mapp (s : mkst) (W : Z -> list Z) (a : gmap Z Z) (off : Z) (p : list Z)
    (s' : mkst) (W' : Z -> list Z) (a' : gmap Z Z) : Prop := {
  ma_rel : mrel s' W';
  ma_wf : mino_wf W' a';
  ma_pre : prefix W' a' (off + Z.of_nat (length p));
  ma_inode : freeinode s' = freeinode s;
  ma_free : freeblock s' = freeblock s + nblk (off + Z.of_nat (length p)) - nblk off;
  ma_byte o : 0 <= o < 71680 -> fbyte W' a' o =
    if decide (off <= o < off + Z.of_nat (length p)) then at_ p (o - off) else fbyte W a o;
  ma_frame z : 1 <= z < freeblock s -> z <> 28 -> ~ owned W a z -> W' z = W z;
  ma_own z : owned W' a' z -> owned W a z \/ freeblock s <= z;
}.

Lemma at_app_take p n k : 0 <= k < Z.of_nat n -> (n <= length p)%nat -> at_ (take n p) k = at_ p k.
Proof. intros Hk Hn. unfold at_. rewrite !list_lookup_total_alt, lookup_take_lt by lia. done. Qed.
Lemma at_drop p n k : 0 <= k -> at_ (drop n p) k = at_ p (Z.of_nat n + k).
Proof. intros Hk. unfold at_. rewrite !list_lookup_total_alt, lookup_drop. do 2 f_equal. lia. Qed.

Lemma mapp_trans s W a off p n s1 W1 a1 s2 W2 a2 :
  0 <= off -> (n <= length p)%nat ->
  mapp s W a off (take n p) s1 W1 a1 -> mapp s1 W1 a1 (off + Z.of_nat n) (drop n p) s2 W2 a2 ->
  mapp s W a off p s2 W2 a2.
Proof.
  intros Ho Hn [R1 H1 P1 I1 F1 B1 V1 O1] [R2 H2 P2 I2 F2 B2 V2 O2].
  rewrite length_take_le in * by done. rewrite length_drop in *.
  replace (off + Z.of_nat n + Z.of_nat (length p - n)) with (off + Z.of_nat (length p)) in * by lia.
  pose proof (nblk_mono off (off + Z.of_nat n) ltac:(lia)).
  split; try done; [congruence|lia| | |].
  - intros o Hr. rewrite B2 by done. destruct (decide (off + Z.of_nat n <= o < _)).
    + rewrite decide_True by lia. rewrite at_drop by lia. f_equal. lia.
    + rewrite B1 by done. destruct (decide (off <= o < off + Z.of_nat n)).
      * rewrite decide_True by lia. apply at_app_take; lia.
      * by rewrite decide_False by lia.
  - intros z Hz H28 Hn'. rewrite V2; [by apply V1|lia|done|]. intros [Hz'|Hz']%O1; [done|lia].
  - intros z [Hz|Hz]%O2; [by apply O1|right; lia].
Qed.

Lemma mapp_nil s W a off : mrel s W -> mino_wf W a -> prefix W a off -> mapp s W a off [] s W a.
Proof.
  intros R Hw Hp. split; cbn [length]; rewrite ?Z.add_0_r; try done; [lia| |by left].
  intros o Ho. by rewrite decide_False by lia.
Qed.

(** Overwriting a part of one block *)
Lemma chunk_written s W a off p s1 W1 a1 d (fbn := off / 512) (b := baddr W1 a1 fbn) (s2 : mkst) :
  mrel s W -> mino_wf W a -> prefix W a off -> 0 <= off -> fbn < 140 ->
  0 < Z.of_nat (length p) -> off mod 512 + Z.of_nat (length p) <= 512 ->
  mgrow s W a fbn s1 W1 a1 -> b <> 0 -> freeblock s1 = freeblock s + need W a fbn ->
  (fbn < 12 -> a1 !!! 12 = a !!! 12) -> (12 <= fbn -> a1 !!! 12 <> 0) ->
  d = splice (off mod 512) p (W1 b) -> mrel s2 (upd_blk W1 b d) -> freeblock s2 = freeblock s1 -> freeinode s2 = freeinode s1 ->
  mapp s W a off p s2 (upd_blk W1 b d) a1.
Proof.
  intros R Hw Hp H0 Hb Hl Hm G Hn F1 Hi1 Hi2 Ed R2 F2 I2.
  pose proof (Z.div_mod off 512 ltac:(lia)) as Hdm. pose proof (Z.mod_pos_bound off 512 ltac:(lia)) as Hr.
  pose proof (Z.div_pos off 512 ltac:(lia) ltac:(lia)) as Hf0. fold fbn in Hdm, Hf0.
  pose proof (mg_rel _ _ _ _ _ _ _ G) as R1. pose proof (mg_wf _ _ _ _ _ _ _ G) as Hw1. pose proof (mg_ext _ _ _ _ _ _ _ G) as X.
  assert (0 <= fbn < 140) as Hfb by lia.
  assert (forall k, baddr (upd_blk W1 b d) a1 k = baddr W1 a1 k) as Eb.
  { intros k. apply (baddr_write 1024 200 1014); [done|]. by apply (iw_ind _ _ _ _ _ Hw1). }
  split.
  - done.
  - by apply (write_wf _ _ _ 10 (mr_geo R1)).
  - destruct Hp as [Hk Hi]. split.
    + intros k Hk'. rewrite Eb. destruct (decide (k = fbn)) as [->|Hne]; [split; [lia|done]|].
      rewrite (mg_keep _ _ _ _ _ _ _ G k Hk' Hne), Hk by done. lia.
    + destruct (decide (fbn < 12)) as [Hd|Hd]; [rewrite Hi1, Hi by done; lia|]. split; [lia|]. intros _. apply Hi2. lia.
  - rewrite I2. exact (mg_inode _ _ _ _ _ _ _ G).
  - rewrite F2, F1. unfold fbn. rewrite (need_chunk W a off (Z.of_nat (length p))) by done. lia.
  - intros o Ho. unfold fbyte, BSIZE.
    assert (0 <= o / 512 < 140) as Hob by (split; [apply Z.div_pos; lia|apply Z.div_lt_upper_bound; lia]).
    unfold b. rewrite (write_fblock 1024 200 1014) by done. pose proof (Z.div_mod o 512 ltac:(lia)) as Hdo.
    pose proof (Z.mod_pos_bound o 512 ltac:(lia)) as Hro. rewrite <- (ex_block _ _ _ _ _ _ X (o / 512) Hob).
    destruct (decide (o / 512 = fbn)) as [E|E].
    + rewrite Ed. rewrite splice_at by (rewrite ?(mr_len R1); lia). rewrite E. unfold fblock. fold b. rewrite (decide_False (P := b = 0)) by done.
      destruct (decide (off mod 512 <= o mod 512 < off mod 512 + Z.of_nat (length p))).
      * rewrite decide_True by lia. f_equal. lia.
      * by rewrite decide_False by lia.
    + rewrite decide_False; [done|]. intros Hin. apply E. symmetry. apply Z.div_unique with (o - 512 * fbn); lia.
  - intros z Hz H28 Ho. rewrite upd_blk_ne.
    + apply (ex_frame _ _ _ _ _ _ X); [rewrite (mr_inuse R); apply bool_decide_true; lia|by rewrite mbitmap_28|].
      intros ->. apply Ho. apply ind_owned. lia.
    + intros ->. destruct (ex_own _ _ _ _ _ _ X b (baddr_owned a1 fbn Hfb Hn)) as [Hob|Hob]; [done|].
      rewrite (mr_inuse R) in Hob. apply bool_decide_eq_false in Hob. lia.
  - intros z Hz. assert (owned W1 a1 z) as Hz1.
    { destruct Hz as [Hz0 [(k & Hk & E)|E]]; (split; [done|]); [left; exists k; by rewrite Eb in E|by right]. }
    destruct (ex_own _ _ _ _ _ _ X z Hz1) as [|Hu]; [by left|right].
    rewrite (mr_inuse R) in Hu. apply bool_decide_eq_false in Hu.
    destruct (iw_own _ _ _ _ _ Hw1 z Hz1) as [Hd _]. rewrite mdata_range in Hd. lia.
Qed.

(** The loop of [iappend] *)
Lemma iappend_loop_spec fuel : forall s W a off p,
  mrel s W -> mino_wf W a -> prefix W a off -> 0 <= off -> off + Z.of_nat (length p) <= 71680 ->
  freeblock s + nblk (off + Z.of_nat (length p)) - nblk off <= 1014 ->
  spans off (Z.of_nat (length p)) <= Z.of_nat fuel ->
  exists s' W' a', iappend_loop fuel a off p s = Ok ((a', off + Z.of_nat (length p)), s') /\ mapp s W a off p s' W' a'.
Proof.
  induction fuel as [|fuel IH]; intros s W a off p R Hw Hp H0 Hmax Hf Hsp;
    (destruct p as [|c p']; [exists s, W, a; cbn [length]; rewrite Z.add_0_r; split; [done|by apply mapp_nil]|]);
    assert (0 < Z.of_nat (length (c :: p'))) as Hl by (cbn [length]; lia).
  { pose proof (spans_pos off _ Hl). lia. }
  cbn [iappend_loop]. set (p := c :: p') in *. set (n := Z.of_nat (length p)) in *.
  destruct (chunk_next off n ltac:(lia) H0) as (Hm & Hom & Hsp' & _). unfold BSIZE in *.
  pose proof (Z.div_mod off 512 ltac:(lia)) as Hd. pose proof (Z.mod_pos_bound off 512 ltac:(lia)) as Hr.
  pose proof (Z.div_pos off 512 ltac:(lia) ltac:(lia)) as Hq.
  assert (off / 512 < 140) as Hb by (apply Z.div_lt_upper_bound; lia).
  rewrite decide_True by (change MAXFILE with 140; lia).
  replace ((off / 512 + 1) * 512 - off) with (512 - off mod 512) by lia.
  set (m := Z.min n (512 - off mod 512)) in *.
  assert (need W a (off / 512) = nblk (off + m) - nblk off) as En by (apply need_chunk; done || lia).
  pose proof (nblk_mono (off + m) (off + n) ltac:(lia)) as Hmono.
  destruct (append_block_spec s W a (off / 512) R Hw ltac:(lia) ltac:(lia)) as (s1 & W1 & a1 & E1 & G & Hn & F1 & Hi1 & Hi2).
  rewrite (bind_ok _ _ _ _ _ E1). cbn [fst snd]. pose proof (mg_rel _ _ _ _ _ _ _ G) as R1.
  destruct (iw_own _ _ _ _ _ (mg_wf _ _ _ _ _ _ _ G) _ (baddr_owned a1 (off / 512) ltac:(lia) Hn)) as [Hda Hu].
  rewrite mdata_range in Hda. rewrite (mr_inuse R1), bool_decide_eq_true in Hu.
  set (b := baddr W1 a1 (off / 512)) in *. rewrite (bind_ok _ _ _ _ _ (mr_read R1 b ltac:(lia) ltac:(lia))).
  replace (off - off / 512 * 512) with (off mod 512) by lia.
  assert (length (take (Z.to_nat m) p) = Z.to_nat m) as Hlt by (rewrite length_take_le; lia).
  destruct (mr_write R1 b (splice (off mod 512) (take (Z.to_nat m) p) (W1 b))) as (s2 & E2 & R2 & F2 & I2); [lia|lia| |].
  { rewrite splice_length; rewrite ?(mr_len R1); lia. }
  rewrite (bind_ok _ _ _ _ _ E2). rewrite u32_id by (unfold W32; lia).
  assert (mapp s W a off (take (Z.to_nat m) p) s2 (upd_blk W1 b (splice (off mod 512) (take (Z.to_nat m) p) (W1 b))) a1) as A.
  { eapply chunk_written; try done; rewrite ?Hlt; lia. }
  pose proof (ma_free _ _ _ _ _ _ _ _ A) as Fa. pose proof (ma_pre _ _ _ _ _ _ _ _ A) as Pa. rewrite Hlt in Fa, Pa.
  rewrite !Z2Nat.id in Fa, Pa by lia.
  assert (Z.of_nat (length (drop (Z.to_nat m) p)) = n - m) as Hld by (rewrite length_drop; lia).
  destruct (IH s2 _ a1 (off + m) (drop (Z.to_nat m) p) R2 (ma_wf _ _ _ _ _ _ _ _ A) Pa) as (s3 & W3 & a3 & E3 & A3);
    rewrite ?Hld; [lia|lia| |lia|].
  { replace (off + m + (n - m)) with (off + n) by lia. lia. }
  exists s3, W3, a3. rewrite E3, Hld. split; [do 3 f_equal; lia|].
  eapply (mapp_trans _ _ _ _ _ (Z.to_nat m)); [done|lia|exact A|]. by rewrite Z2Nat.id by lia.
Qed.
