(* ===== verification/MkfsImage.v ===== *)
(** * The files of an image

    The inodes of an image under construction, the program [mkfs_main] of
    Mkfs.v as a whole, and the properties of the image it leaves. *)

From S2P Require Import Prelude DList Machine Thread Scheduler KString Bytes FsData BufCache FsLog Block Inode InodeData InodeDisk Dir File FileSpec Icache DirSpec NameSpec Mkfs MkfsSpec.

(** ** Inodes *)
Definition dino (W : Z -> list Z) (j : Z) : inode := disk_inode W j zero_dinode.
Notation maddrs W j := (i_addrs (dino W j)).

(** An inode read from disk is determined by its fields on disk. *)
Lemma same_disk_eq W W' j y : same_disk (disk_inode W j y) (disk_inode W' j y) -> disk_inode W' j y = disk_inode W j y.
Proof.
  intros [Ht Ha Hi Hn Hs Had]. unfold disk_inode, get_dinode in *.
  cbn [i_type i_major i_minor i_nlink i_size i_addrs] in *. rewrite Ht, Ha, Hi, Hn, Hs. f_equal. unfold get_addrs. f_equal.
  apply list_fmap_ext. intros n k Hk. f_equal.
  assert (0 <= k < 13) as Hr.
  { apply list_elem_of_lookup_2, elem_of_seqZ in Hk. unfold NDIRECT in Hk. lia. }
  specialize (Had k Hr). by rewrite !get_addrs_lookup in Had.
Qed.

Lemma iblock_meta j : 0 <= j < 200 -> 2 <= IBLOCK j < 28.
Proof.
  intros Hj. unfold IBLOCK. change IPB with 8. assert (j / 8 < 25) by (apply Z.div_lt_upper_bound; lia).
  pose proof (Z.div_pos j 8). lia.
Qed.
Lemma rinode_spec s W j : mrel s W -> 0 <= j < 200 -> rinode j s = Ok (dino W j, s).
Proof.
  intros R Hj. pose proof (iblock_meta j Hj). unfold rinode. change (i2b j) with (IBLOCK j).
  by rewrite (bind_ok _ _ _ _ _ (mr_read R (IBLOCK j) ltac:(lia) ltac:(lia))).
Qed.

(** [x] as inode number [j] *)
Definition numbered (j : Z) (x : inode) : inode := set_i_key 0 j 0 0 x.

Lemma winode_spec s W j x : mrel s W -> 0 <= j < 200 -> ino_range x ->
  exists s', winode j x s = Ok (tt, s') /\ mrel s' (stored W (numbered j x)) /\ freeblock s' = freeblock s /\ freeinode s' = freeinode s.
Proof.
  intros R Hj Hx. pose proof (iblock_meta j Hj). pose proof (mr_free _ _ R). unfold winode. change (i2b j) with (IBLOCK j).
  rewrite (bind_ok _ _ _ _ _ (mr_read R (IBLOCK j) ltac:(lia) ltac:(lia))).
  apply (mr_write R); [lia|lia|]. pose proof (dinode_off_range j ltac:(lia)) as Ho. unfold dinode_off in Ho.
  apply put_addrs; [apply (mr_len R)|lia|lia|done].
Qed.

Section Stored.
Context {s : mkst} {W : Z -> list Z} (R : mrel s W) (j : Z) (x : inode).
Context (Hj : 0 <= j < 200) (Hx : ino_range x).
Let W' := stored W (numbered j x).

Lemma stored_this : same_disk x (dino W' j).
Proof.
  assert (ino_range (numbered j x)) as Hx' by (destruct Hx; by split).
  pose proof (stored_synced W (numbered j x) zero_dinode Hx' (mr_len R _) (proj1 Hj)) as H. destruct H; by split.
Qed.
Lemma stored_others k : 0 <= k -> k <> j -> dino W' k = dino W k.
Proof.
  assert (ino_range (numbered j x)) as Hx' by (destruct Hx; by split). intros Hk Hne. apply same_disk_eq.
  by apply (stored_other W (numbered j x) k zero_dinode Hx' (mr_len R _) (proj1 Hj)).
Qed.
Lemma stored_block z : ~ (2 <= z < 28) -> W' z = W z.
Proof. intros Hz. unfold W', stored. apply upd_blk_ne. change (i_inum (numbered j x)) with j. pose proof (iblock_meta j Hj). lia. Qed.
End Stored.

(** The same addresses, and blocks that stay as they are *)
Section Agree.
Context (V V' : Z -> list Z) (a a' : gmap Z Z) (Ha : forall k, 0 <= k < 13 -> a' !!! k = a !!! k).
Context (H : forall z, owned V a z -> V' z = V z).

Lemma agree_baddr bn : 0 <= bn -> baddr V' a' bn = baddr V a bn.
Proof.
  intros Hb. unfold baddr. case_decide; [apply Ha; lia|]. rewrite Ha by lia. case_decide as Hi; [done|].
  by rewrite H by by apply ind_owned.
Qed.
Lemma agree_owned z : owned V' a' z <-> owned V a z.
Proof.
  unfold owned. rewrite Ha by lia.
  assert ((exists bn, 0 <= bn < 140 /\ baddr V' a' bn = z) <-> (exists bn, 0 <= bn < 140 /\ baddr V a bn = z)) as ->; [|done].
  split; intros (bn & Hbn & E); exists bn; (split; [done|]); revert E; by rewrite agree_baddr by lia.
Qed.
Lemma agree_fbyte o : 0 <= o < 71680 -> fbyte V' a' o = fbyte V a o.
Proof.
  intros Ho. unfold fbyte, fblock, BSIZE.
  assert (0 <= o / 512 < 140) by (split; [apply Z.div_pos; lia|apply Z.div_lt_upper_bound; lia]).
  rewrite agree_baddr by lia. case_decide as Hb; [done|]. rewrite H; [done|]. by apply baddr_owned.
Qed.
Lemma agree_prefix n : prefix V a n -> prefix V' a' n.
Proof. intros [Hk Hi]. split; [|by rewrite Ha by lia]. intros k Hr. rewrite agree_baddr by lia. by apply Hk. Qed.
Lemma agree_wf s s' : mrel s V -> mrel s' V' -> freeblock s <= freeblock s' -> mino_wf V a -> mino_wf V' a'.
Proof.
  intros R R' Hf [Ho Hi Hn]. split.
  - intros z Hz%agree_owned. destruct (Ho z Hz) as [Hd Hu]. split; [done|]. rewrite (mr_inuse R), bool_decide_eq_true in Hu.
    rewrite (mr_inuse R'). apply bool_decide_true. lia.
  - intros k k' Hk Hk'. rewrite !agree_baddr by lia. by apply Hi.
  - intros k Hk. rewrite !agree_baddr, Ha by lia. by apply Hn.
Qed.
End Agree.

(** Inode [j] of the image is a file of type [ty] with the bytes [l] and one link. *)
Record isfile (W : Z -> list Z) (j ty : Z) (l : list Z) : Prop := {
  if_type : i_type (dino W j) = ty;
  if_nlink : i_nlink (dino W j) = 1;
  if_size : i_size (dino W j) = Z.of_nat (length l);
  if_max : Z.of_nat (length l) <= 71680;
  if_wf : mino_wf W (maddrs W j);
  if_pre : prefix W (maddrs W j) (Z.of_nat (length l));
  if_byte o : 0 <= o < 71680 -> fbyte W (maddrs W j) o = at_ l o;
}.

(** The files [F] are in the image, in blocks of their own; the other inodes are free. *)
Record built (s : mkst) (W : Z -> list Z) (F : gmap Z (Z * list Z)) : Prop := {
  bu_rel : mrel s W;
  bu_inode j : is_Some (F !! j) <-> 1 <= j < freeinode s;
  bu_count : 1 <= freeinode s <= 200;
  bu_file j f : F !! j = Some f -> isfile W j f.1 f.2;
  bu_sep j k z : is_Some (F !! j) -> is_Some (F !! k) -> j <> k -> owned W (maddrs W j) z -> owned W (maddrs W k) z -> False;
  bu_free j : 0 <= j < 200 -> F !! j = None -> i_type (dino W j) = 0;
}.

Lemma isfile_frame s W s' W' j ty l :
  mrel s W -> mrel s' W' -> freeblock s <= freeblock s' -> dino W' j = dino W j ->
  (forall z, owned W (maddrs W j) z -> W' z = W z) -> isfile W j ty l -> isfile W' j ty l.
Proof.
  intros R R' Hf Ed H [A B C D E G I]. split; rewrite ?Ed; try done.
  - by apply (agree_wf W W' (maddrs W j) _ (fun _ _ => eq_refl) H s s').
  - by apply (agree_prefix W W' (maddrs W j)).
  - intros o Ho. rewrite (agree_fbyte W W' (maddrs W j)) by done. by apply I.
Qed.

Lemma isfile_owned s W j ty l z : mrel s W -> isfile W j ty l -> owned W (maddrs W j) z -> 29 <= z < freeblock s.
Proof.
  intros R I Hz. destruct (iw_own _ _ _ _ _ (if_wf _ _ _ _ I) z Hz) as [Hd Hu]. rewrite mdata_range in Hd.
  rewrite (mr_inuse R), bool_decide_eq_true in Hu. lia.
Qed.

(** One file changes and takes new blocks at most. *)
Lemma built_update s W F s' W' j ty l :
  built s W F -> mrel s' W' -> freeblock s <= freeblock s' ->
  (forall k, 0 <= k < 200 -> k <> j -> dino W' k = dino W k) ->
  (forall k f z, k <> j -> F !! k = Some f -> owned W (maddrs W k) z -> W' z = W z) ->
  isfile W' j ty l ->
  (forall z, owned W' (maddrs W' j) z -> (is_Some (F !! j) /\ owned W (maddrs W j) z) \/ freeblock s <= z) ->
  1 <= freeinode s' <= 200 -> (forall k, is_Some (<[j := (ty, l)]> F !! k) <-> 1 <= k < freeinode s') ->
  built s' W' (<[j := (ty, l)]> F).
Proof.
  intros B R' Hf Hd Hb I Ho Hc Hin. pose proof (bu_rel _ _ _ B) as R.
  assert (forall k f, k <> j -> F !! k = Some f -> dino W' k = dino W k) as Hd'.
  { intros k f Hk Ek. apply Hd; [|done]. pose proof (proj1 (bu_inode _ _ _ B k) (ex_intro _ f Ek)).
    pose proof (bu_count _ _ _ B). lia. }
  assert (forall k f z, k <> j -> F !! k = Some f -> owned W' (maddrs W' k) z -> owned W (maddrs W k) z) as Hk'.
  { intros k f z Hk Ek Hz. rewrite (Hd' k f Hk Ek) in Hz. by apply (agree_owned W W' (maddrs W k)) in Hz; [|done|intros; by eapply Hb]. }
  assert (forall k z, k <> j -> is_Some (F !! k) -> owned W' (maddrs W' k) z -> owned W' (maddrs W' j) z -> False) as Hsep.
  { intros k z Hk [f Ek] Hz Hzj. apply (Hk' k f z Hk Ek) in Hz. destruct (Ho z Hzj) as [[Hj Hw]|Hz'].
    - exact (bu_sep _ _ _ B k j z (ex_intro _ f Ek) Hj Hk Hz Hw).
    - pose proof (isfile_owned s W k _ _ z R (bu_file _ _ _ B k f Ek) Hz). lia. }
  split; try done.
  - intros k f. destruct (decide (k = j)) as [->|Hk]; [rewrite lookup_insert_eq; by intros [= <-]|].
    rewrite lookup_insert_ne by done. intros Ek.
    apply (isfile_frame s W s' W'); try done; [by eapply Hd'|intros; by eapply Hb|by apply (bu_file _ _ _ B)].
  - intros k k' z. destruct (decide (k = j)) as [->|Hk]; destruct (decide (k' = j)) as [->|Hk'']; [done| | |].
    + intros _ [f E] _ H1 H2. rewrite lookup_insert_ne in E by done. by apply (Hsep k' z Hk'' (ex_intro _ f E)).
    + intros [f E] _ _ H1 H2. rewrite lookup_insert_ne in E by done. by apply (Hsep k z Hk (ex_intro _ f E)).
    + rewrite !lookup_insert_ne by done. intros [f E] [f' E'] Hn H1 H2.
      by apply (bu_sep _ _ _ B k k' z (ex_intro _ f E) (ex_intro _ f' E') Hn); [apply (Hk' k f)|apply (Hk' k' f')].
  - intros k Hk Ek. destruct (decide (k = j)) as [->|Hne]; [by rewrite lookup_insert_eq in Ek|].
    rewrite lookup_insert_ne in Ek by done. rewrite Hd by done. by apply (bu_free _ _ _ B).
Qed.

(** ** ialloc *)
Lemma no_blocks W a : (forall k, 0 <= k < 13 -> a !!! k = 0) -> forall k, 0 <= k < 140 -> baddr W a k = 0.
Proof. intros H k Hk. unfold baddr. case_decide; [apply H; lia|]. by rewrite decide_True by (apply H; lia). Qed.

Lemma empty_addr (k : Z) : (∅ : gmap Z Z) !!! k = 0.
Proof. by rewrite lookup_total_empty. Qed.
Lemma isfile_nil W j ty : same_disk (mk_inode 0 0 0 0 ty 0 0 1 0 ∅) (dino W j) -> isfile W j ty [].
Proof.
  intros [Ht _ _ Hn Hs Ha]. cbn [i_type i_nlink i_size] in Ht, Hn, Hs.
  assert (forall k, 0 <= k < 13 -> maddrs W j !!! k = 0) as H0 by (intros k Hk; rewrite Ha by done; apply empty_addr).
  pose proof (no_blocks W _ H0) as Hb.
  assert (forall z, ~ owned W (maddrs W j) z) as Ho.
  { intros z [Hz [(k & Hk & E)|E]]; [rewrite Hb in E by done|rewrite H0 in E by lia]; lia. }
  split; try done.
  - split; [intros z Hz; by apply Ho in Hz|intros k k' Hk _ Hn'; by rewrite Hb in Hn'|intros k Hk Hn'; by rewrite Hb in Hn'].
  - split; cbn [length]; [|rewrite H0 by lia; lia]. intros k Hk. rewrite Hb by done. lia.
  - intros o Hr. unfold fbyte, fblock, BSIZE.
    assert (0 <= o / 512 < 140) by (split; [apply Z.div_pos; lia|apply Z.div_lt_upper_bound; lia]).
    rewrite Hb, decide_True by done. unfold at_. pose proof (Z.mod_pos_bound o 512 ltac:(lia)).
    transitivity 0; [apply lookup_total_replicate_2; lia|]. by rewrite list_lookup_total_alt, lookup_nil.
Qed.

Lemma isfile_nil_owned W j ty : isfile W j ty [] -> forall z, ~ owned W (maddrs W j) z.
Proof.
  intros I z [Hz Ho]. destruct (if_pre _ _ _ _ I) as [Hk Hi]. cbn [length] in *. destruct Ho as [(k & Hr & E)|E].
  - specialize (Hk k Hr). lia.
  - rewrite E in Hz. apply Hi in Hz. lia.
Qed.

Lemma ialloc_spec s W F ty (j := freeinode s) :
  built s W F -> freeinode s < 200 -> 0 <= ty < 32768 ->
  exists s' W', ialloc ty s = Ok (j, s') /\ built s' W' (<[j := (ty, [])]> F)
    /\ freeblock s' = freeblock s /\ freeinode s' = freeinode s + 1.
Proof.
  intros B Hn Hty. pose proof (bu_rel _ _ _ B) as R. pose proof (bu_count _ _ _ B) as Hc. unfold ialloc. mrun. fold j.
  assert (u32 (j + 1) = j + 1) as -> by (apply u32_id; unfold W32; lia).
  assert (xshort ty = ty) as -> by (apply Z.mod_small; lia). change (xshort 1) with 1. change (xint 0) with 0.
  set (x := mk_inode 0 0 0 0 ty 0 0 1 0 ∅). assert (ino_range x) as Hx.
  { split; cbn; try lia; [unfold W32; lia|]. intros k _. rewrite empty_addr. unfold W32. lia. }
  assert (mrel (set_freeinode (j + 1) s) W) as R0 by (destruct R; by split).
  destruct (winode_spec _ W j x R0 ltac:(lia) Hx) as (s' & E & R' & Fb & Fi). rewrite E.
  exists s', (stored W (numbered j x)). split; [done|]. split; [|done]. cbn in Fb, Fi.
  apply (built_update s W); try done; rewrite ?Fb, ?Fi; try lia.
  - intros k Hk Hne. apply (stored_others R); done || lia.
  - intros k f z Hk Ek Hz. apply stored_block; [lia|]. pose proof (isfile_owned s W k _ _ z R (bu_file _ _ _ B k f Ek) Hz). lia.
  - apply isfile_nil, (stored_this R j x); done || lia.
  - intros z Hz. exfalso. revert z Hz. apply (isfile_nil_owned _ j ty), isfile_nil, (stored_this R j x); done || lia.
  - intros k. rewrite lookup_insert_is_Some. rewrite (bu_inode _ _ _ B). fold j. lia.
Qed.

(** ** iappend *)
Lemma at_app l p o : 0 <= o -> at_ (l ++ p) o = if decide (o < Z.of_nat (length l)) then at_ l o else at_ p (o - Z.of_nat (length l)).
Proof.
  intros Ho. unfold at_. rewrite !list_lookup_total_alt. case_decide.
  - by rewrite lookup_app_l by lia.
  - rewrite lookup_app_r by lia. do 2 f_equal. lia.
Qed.
Lemma at_past l o : Z.of_nat (length l) <= o -> at_ l o = 0.
Proof. intros H. unfold at_. by rewrite list_lookup_total_alt, lookup_ge_None_2 by lia. Qed.

(** The file after the loop, once its inode is stored *)
Lemma appended s W j ty l p s1 W1 a1 s2 W2 (n := Z.of_nat (length l)) :
  mrel s W -> isfile W j ty l -> n + Z.of_nat (length p) <= 71680 -> mapp s W (maddrs W j) n p s1 W1 a1 ->
  mrel s2 W2 -> freeblock s2 = freeblock s1 -> (forall z, 29 <= z -> W2 z = W1 z) ->
  same_disk (set_i_size (n + Z.of_nat (length p)) (set_i_addrs a1 (dino W j))) (dino W2 j) ->
  isfile W2 j ty (l ++ p) /\ forall z, owned W2 (maddrs W2 j) z -> owned W (maddrs W j) z \/ freeblock s <= z.
Proof.
  intros R I Hm A R2 Hf H29 [Ht _ _ Hn Hs Ha]. destruct I as [It In Is Ix Iw Ip Ib].
  pose proof (ma_rel _ _ _ _ _ _ _ _ A) as R1. pose proof (ma_wf _ _ _ _ _ _ _ _ A) as Hw1.
  assert (forall z, owned W1 a1 z -> W2 z = W1 z) as Hz.
  { intros z Hz. apply H29. destruct (iw_own _ _ _ _ _ Hw1 z Hz) as [Hd _]. rewrite mdata_range in Hd. lia. }
  cbn [set_i_size set_i_addrs i_type i_nlink i_size i_addrs] in *. split.
  - split; rewrite ?length_app, ?Nat2Z.inj_add; try congruence; try done.
    + apply (agree_wf W1 W2 a1 _ Ha Hz s1 s2); done || lia.
    + apply (agree_prefix W1 W2 a1 _ Ha Hz), (ma_pre _ _ _ _ _ _ _ _ A).
    + intros o Ho. rewrite (agree_fbyte W1 W2 a1 _ Ha Hz), (ma_byte _ _ _ _ _ _ _ _ A), at_app by lia. fold n.
      destruct (decide (o < n)); [rewrite decide_False by lia; by apply Ib|]. case_decide; [done|].
      rewrite Ib by done. rewrite !at_past by lia. done.
  - intros z Hz'. apply (agree_owned W1 W2 a1 _ Ha Hz) in Hz'. by apply (ma_own _ _ _ _ _ _ _ _ A).
Qed.

Lemma iappend_spec s W F j ty l p (n := Z.of_nat (length l)) (n' := n + Z.of_nat (length p)) :
  built s W F -> F !! j = Some (ty, l) -> n' <= 71680 -> freeblock s + nblk n' - nblk n <= 1014 ->
  exists s' W', iappend j p s = Ok (tt, s') /\ built s' W' (<[j := (ty, l ++ p)]> F)
    /\ freeblock s' = freeblock s + nblk n' - nblk n /\ freeinode s' = freeinode s.
Proof.
  intros B Ej Hm Hf. pose proof (bu_rel _ _ _ B) as R. pose proof (bu_file _ _ _ B j _ Ej) as I. cbn [fst snd] in I.
  pose proof (proj1 (bu_inode _ _ _ B j) (ex_intro _ _ Ej)) as Hj. pose proof (bu_count _ _ _ B) as Hc.
  pose proof (disk_inode_range W j zero_dinode) as Hrg. fold (dino W j) in Hrg.
  unfold iappend. rewrite (bind_ok _ _ _ _ _ (rinode_spec s W j R ltac:(lia))). rewrite (if_size _ _ _ _ I). fold n.
  assert (forall z, 0 <= z <= 71680 -> xint z = z) as Hx by (intros; apply u32_id; unfold W32; lia). rewrite Hx by lia.
  destruct (iappend_loop_spec (append_fuel p) s W (maddrs W j) n p R (if_wf _ _ _ _ I) (if_pre _ _ _ _ I) ltac:(lia) Hm Hf)
    as (s1 & W1 & a1 & E1 & A).
  { pose proof (spans_fuel n (Z.of_nat (length p)) ltac:(lia) ltac:(lia)) as H. unfold append_fuel, BSIZE in *.
    rewrite Nat2Z.inj_add, Nat2Z.inj_div. exact H. }
  rewrite (bind_ok _ _ _ _ _ E1). cbn [fst snd]. fold n'. rewrite Hx by lia. pose proof (ma_rel _ _ _ _ _ _ _ _ A) as R1.
  set (x := set_i_size n' (set_i_addrs a1 (dino W j))). assert (ino_range x) as Hxr.
  { destruct Hrg. split; try done; cbn [x set_i_size set_i_addrs i_size i_addrs]; [unfold W32; lia|].
    apply (wf_range _ _ _ _ W1 (dino W j) a1 (mr_geo R1) (ma_wf _ _ _ _ _ _ _ _ A)). by split. }
  destruct (winode_spec s1 W1 j x R1 ltac:(lia) Hxr) as (s2 & E2 & R2 & F2 & I2). exists s2, (stored W1 (numbered j x)).
  pose proof (ma_free _ _ _ _ _ _ _ _ A) as Fa. fold n' in Fa. pose proof (nblk_mono n n' ltac:(lia)) as Hmo.
  destruct (appended s W j ty l p s1 W1 a1 s2 (stored W1 (numbered j x)) R I Hm A R2 F2) as [I' O'].
  { intros z Hz. apply stored_block; lia. }
  { apply (stored_this R1); done || lia. }
  split; [done|]. split; [|split; [lia|by rewrite I2, (ma_inode _ _ _ _ _ _ _ _ A)]].
  pose proof (ma_inode _ _ _ _ _ _ _ _ A) as Ia.
  assert (forall z, 1 <= z < freeblock s -> z <> 28 -> ~ owned W (maddrs W j) z -> W1 z = W z) as Hfr by exact (ma_frame _ _ _ _ _ _ _ _ A).
  pose proof (mr_free _ _ R) as Hfree.
  apply (built_update s W); try done; rewrite ?F2, ?I2, ?Ia; try lia.
  - intros k Hk Hne. rewrite (stored_others R1) by (done || lia). unfold dino, disk_inode. pose proof (iblock_meta k Hk).
    rewrite Hfr; [done|lia|lia|]. intros Ho. pose proof (isfile_owned s W j _ _ _ R I Ho). lia.
  - intros k f z Hk Ek Hz. pose proof (isfile_owned s W k _ _ z R (bu_file _ _ _ B k f Ek) Hz).
    rewrite stored_block by lia. apply Hfr; [lia|lia|]. intros Ho.
    exact (bu_sep _ _ _ B k j z (ex_intro _ f Ek) (ex_intro _ _ Ej) Hk Hz Ho).
  - intros z Hz. destruct (O' z Hz) as [Ho|Ho]; [left; split; [by eexists|done]|by right].
  - intros k. rewrite lookup_insert_is_Some. rewrite (bu_inode _ _ _ B). destruct (decide (k = j)); naive_solver lia.
Qed.

(** ** Files *)
Notation len l := (Z.of_nat (length l)).

Lemma file_chunks_concat fuel : forall l, (length l <= fuel)%nat -> concat (file_chunks fuel l) = l.
Proof.
  induction fuel as [|fuel IH]; intros l Hl; [destruct l; [done|cbn [length] in Hl; lia]|]. destruct l as [|c l]; [done|]. cbn [file_chunks concat].
  rewrite IH; [apply take_drop|]. rewrite length_drop. cbn [length] in *. lia.
Qed.

Lemma nblk_pos n : 0 <= n -> 0 <= nblk n.
Proof. intros H. unfold nblk, one_if. pose proof (Z.div_pos (n + 511) 512 ltac:(lia) ltac:(lia)). case_decide; lia. Qed.

(** Appending chunks one after the other *)
Lemma append_chunks_spec chunks : forall s W F j ty l (n' := len l + len (concat chunks)),
  built s W F -> F !! j = Some (ty, l) -> n' <= 71680 -> freeblock s + nblk n' - nblk (len l) <= 1014 ->
  exists s' W', for_each chunks (fun buf => iappend j buf) s = Ok (tt, s') /\ built s' W' (<[j := (ty, l ++ concat chunks)]> F)
    /\ freeblock s' = freeblock s + nblk n' - nblk (len l) /\ freeinode s' = freeinode s.
Proof.
  induction chunks as [|c chunks IH]; intros s W F j ty l n' B Ej Hm Hf.
  - exists s, W. unfold n'. cbn [concat length]. rewrite app_nil_r, Z.add_0_r, insert_id by done. split; [done|]. split; [done|lia].
  - cbn [for_each]. unfold n' in *. cbn [concat] in *. rewrite length_app, Nat2Z.inj_add, Z.add_assoc in *.
    pose proof (nblk_mono (len l + len c) (len l + len c + len (concat chunks)) ltac:(lia)).
    destruct (iappend_spec s W F j ty l c B Ej ltac:(lia) ltac:(lia)) as (s1 & W1 & E1 & B1 & F1 & I1).
    rewrite (bind_ok _ _ _ _ _ E1).
    destruct (IH s1 W1 _ j ty (l ++ c) B1 (lookup_insert_eq _ _ _)) as (s2 & W2 & E2 & B2 & F2 & I2).
    1,2: rewrite length_app, Nat2Z.inj_add; lia.
    rewrite length_app, Nat2Z.inj_add in F2. exists s2, W2. split; [done|].
    rewrite insert_insert_eq, <- app_assoc in B2. split; [done|]. split; [lia|congruence].
Qed.

Lemma dirent_length j name : length (dirent j name) = 16%nat.
Proof. unfold dirent. rewrite length_app, length_take, length_app, length_replicate. change (length (half_bytes _)) with 2%nat. lia. Qed.

Lemma add_file_spec s W F d f (j := freeinode s) :
  built s W F -> F !! 1 = Some (T_DIR, d) -> j < 200 -> 47 ∉ f.1 -> len d + 16 <= 71680 -> len f.2 <= 71680 ->
  freeblock s + (nblk (len d + 16) - nblk (len d)) + nblk (len f.2) <= 1014 ->
  exists s' W', add_file 1 f s = Ok (tt, s')
    /\ built s' W' (<[j := (T_FILE, f.2)]> (<[1 := (T_DIR, d ++ dirent j (file_name f.1))]> F))
    /\ freeblock s' = freeblock s + (nblk (len d + 16) - nblk (len d)) + nblk (len f.2) /\ freeinode s' = j + 1.
Proof.
  intros B E1 Hj Hs Hd Hl Hf. unfold add_file. rewrite decide_False by done.
  pose proof (nblk_pos (len f.2) ltac:(lia)) as Hp.
  destruct (ialloc_spec s W F T_FILE B Hj) as (s1 & W1 & Ea & B1 & F1 & I1); [unfold T_FILE; lia|]. fold j in Ea, B1, I1.
  rewrite (bind_ok _ _ _ _ _ Ea). assert (j <> 1) as Hj1.
  { pose proof (proj1 (bu_inode _ _ _ B 1) (ex_intro _ _ E1)). unfold j. lia. }
  assert (len (dirent j (file_name f.1)) = 16) as Hdl by by rewrite dirent_length.
  destruct (iappend_spec s1 W1 _ 1 T_DIR d (dirent j (file_name f.1)) B1) as (s2 & W2 & E2 & B2 & F2 & I2);
    [by rewrite lookup_insert_ne|rewrite Hdl; lia|rewrite Hdl; lia|]. rewrite Hdl in F2.
  rewrite (bind_ok _ _ _ _ _ E2).
  destruct (append_chunks_spec (file_chunks (length f.2) f.2) s2 W2 _ j T_FILE [] B2) as (s3 & W3 & E3 & B3 & F3 & I3);
    rewrite ?file_chunks_concat by done; cbn [length] in *; change (Z.of_nat 0) with 0 in *;
    rewrite ?Z.add_0_l in *; rewrite ?file_chunks_concat in * by done.
  - by rewrite lookup_insert_ne, lookup_insert_eq.
  - done.
  - change (nblk 0) with 0. lia.
  - exists s3, W3. split; [done|]. change (nblk 0) with 0 in F3. split; [|split; [lia|lia]].
    rewrite app_nil_l in B3. rewrite (insert_insert_ne F 1 j) in B3 by done. by rewrite insert_insert_eq in B3.
Qed.

(** ** The root directory *)

(** Inode numbers and names as a directory *)
Definition rootdir (es : list (Z * list Z)) : list Z := concat (map (fun e => dirent e.1 e.2) es).
Definition good_name (l : list Z) : Prop := (length l <= 13)%nat /\ Forall (fun c => 0 < c < 256) l.

Lemma rootdir_length es : length (rootdir es) = (16 * length es)%nat.
Proof.
  induction es as [|e es IH]; [done|]. unfold rootdir in *. cbn [map concat length]. rewrite length_app, dirent_length, IH. lia.
Qed.
Lemma rootdir_at es : forall k e i, es !! k = Some e -> 0 <= i < 16 ->
  at_ (rootdir es) (16 * Z.of_nat k + i) = at_ (dirent e.1 e.2) i.
Proof.
  induction es as [|e0 es IH]; intros k e i Hk Hi; [done|]. unfold rootdir in *. cbn [map concat].
  rewrite at_app, dirent_length by lia. destruct k as [|k].
  - injection Hk as ->. rewrite decide_True by lia. by rewrite Z.mul_0_r, Z.add_0_l.
  - rewrite decide_False by lia. rewrite <- (IH k e i Hk Hi). f_equal. lia.
Qed.

Lemma dirent_name j name i : 0 <= i < 14 ->
  at_ (dirent j name) (2 + i) = if decide (i < len name) then at_ name i else 0.
Proof.
  intros Hi. unfold dirent. rewrite at_app by lia. change (len (half_bytes _)) with 2. rewrite decide_False by lia.
  replace (2 + i - 2) with i by lia. unfold at_ at 1. rewrite list_lookup_total_alt, lookup_take_lt by lia.
  rewrite <- list_lookup_total_alt. fold (at_ (name ++ replicate 14 0) i). rewrite at_app by lia. case_decide; [done|].
  unfold at_. rewrite lookup_total_replicate_2; [done|lia].
Qed.
Lemma name_byte name i : good_name name -> 0 <= i < len name -> 0 < at_ name i < 256.
Proof.
  intros [_ H] Hi. rewrite Forall_lookup in H. unfold at_. destruct (lookup_lt_is_Some_2 name (Z.to_nat i)) as [c Hc]; [lia|].
  rewrite (list_lookup_total_correct _ _ _ Hc). by apply (H _ _ Hc).
Qed.

Section Root.
Context (es : list (Z * list Z)).
Context (Hes : forall k e, es !! k = Some e -> 0 < e.1 < 65536 /\ good_name e.2).
Let D := at_ (rootdir es).

Lemma root_inum k e : es !! k = Some e -> ent_inum D (Z.of_nat k) = e.1.
Proof.
  intros Hk. destruct (Hes k e Hk) as [Hr _]. etransitivity; [|exact (half_bytes_half e.1 ltac:(lia))].
  unfold ent_inum. rewrite half_of_shift. apply half_of_ext. intros i Hi. rewrite Z.add_0_l. unfold D.
  rewrite (rootdir_at es k e) by (done || lia). unfold dirent. rewrite at_app by lia. change (len (half_bytes _)) with 2.
  rewrite decide_True by lia. by replace (xshort e.1) with e.1 by (symmetry; apply Z.mod_small; lia).
Qed.
Lemma root_inum_past k : len es <= k -> ent_inum D k = 0.
Proof.
  intros Hk. unfold ent_inum, half_of, D. rewrite !at_past; [done|rewrite rootdir_length; lia..].
Qed.

Lemma root_named k e l : es !! k = Some e -> good_name l -> ent_named D l (Z.of_nat k) = true <-> l = e.2.
Proof.
  intros Hk Hl. destruct (Hes k e Hk) as [_ He]. rewrite ent_named_iff by apply Hl. destruct Hl as [Hl1 Hl2].
  assert (forall i, 0 <= i < 14 -> D (16 * Z.of_nat k + 2 + i) = if decide (i < len e.2) then at_ e.2 i else 0) as HD.
  { intros i Hi. rewrite <- Z.add_assoc. unfold D. rewrite (rootdir_at es k e) by (done || lia). by apply dirent_name. }
  split.
  - intros [Hm Hz].
    assert (len l = len e.2) as Hlen.
    { rewrite HD in Hz by lia. destruct He as [He1 He2]. case_decide as Hd.
      - pose proof (name_byte e.2 (len l) (conj He1 He2) ltac:(lia)). lia.
      - destruct (decide (len e.2 = len l)); [done|]. exfalso. specialize (Hm (len e.2) ltac:(lia)).
        rewrite HD, decide_False in Hm by lia. pose proof (name_byte l (len e.2) (conj Hl1 Hl2) ltac:(lia)). lia. }
    apply (list_eq_same_length _ _ (length l)); [lia|done|]. intros i x y Hi Hx Hy.
    specialize (Hm (Z.of_nat i) ltac:(lia)). rewrite HD, decide_True in Hm by lia. unfold at_ in Hm. rewrite Nat2Z.id in Hm.
    rewrite (list_lookup_total_correct _ _ _ Hx), (list_lookup_total_correct _ _ _ Hy) in Hm. congruence.
  - intros ->. destruct He as [He _]. split.
    + intros i Hi. rewrite HD by lia. by rewrite decide_True by lia.
    + rewrite HD by lia. by rewrite decide_False by lia.
Qed.

(** Every entry is found under its name, and nothing else is. *)
Lemma root_find n k e : NoDup es.*2 -> es !! k = Some e -> Z.of_nat k < n -> dir_find D n e.2 = Some (Z.of_nat k).
Proof.
  intros Hnd Hk Hn. rewrite dir_find_spec. split; [lia|]. destruct (Hes k e Hk) as [Hr He]. split.
  - unfold ent_matches. rewrite (root_inum k e Hk), bool_decide_true by lia. by apply (root_named k e).
  - intros j Hj. unfold ent_matches. destruct (lookup_lt_is_Some_2 es (Z.to_nat j)) as [e' He'].
    { apply lookup_lt_Some in Hk. lia. }
    rewrite <- (Z2Nat.id j) by lia. apply andb_false_intro2, not_true_is_false. intros Hm.
    apply (root_named _ e') in Hm; [|done|done].
    assert (Z.to_nat j = k); [|lia]. eapply (NoDup_lookup es.*2); [done| |].
    + rewrite list_lookup_fmap, He'. cbn. by rewrite <- Hm.
    + by rewrite list_lookup_fmap, Hk.
Qed.
Lemma root_found n l k : dir_find D n l = Some k -> exists e, es !! Z.to_nat k = Some e /\ ent_inum D k = e.1.
Proof.
  rewrite dir_find_spec. intros (Hk & Hm & _). unfold ent_matches in Hm. apply andb_true_iff in Hm as [Hi _].
  rewrite bool_decide_eq_true in Hi. destruct (decide (k < len es)) as [Hl|Hl]; [|rewrite root_inum_past in Hi; lia].
  destruct (lookup_lt_is_Some_2 es (Z.to_nat k)) as [e He]; [lia|]. exists e. split; [done|].
  rewrite <- (Z2Nat.id k) by lia. by apply root_inum.
Qed.
Lemma root_byte o : 0 <= D o < 256.
Proof.
  unfold D, at_. destruct (rootdir es !! Z.to_nat o) as [c|] eqn:E; [|rewrite list_lookup_total_alt, E; cbn; lia].
  rewrite (list_lookup_total_correct _ _ _ E). revert E. generalize (Z.to_nat o) as i. revert c. clear D.
  assert (Forall (fun c => 0 <= c < 256) (rootdir es)) as H; [|intros c i E; exact (proj1 (Forall_lookup _ _) H i c E)].
  unfold rootdir. apply Forall_concat, Forall_fmap, Forall_lookup. intros k e Hk. destruct (Hes k e Hk) as [_ [_ Hn]].
  unfold compose, dirent. apply Forall_app. split; [unfold half_bytes; repeat constructor; apply Z.mod_pos_bound; lia|].
  apply Forall_take, Forall_app. split; [|by apply Forall_replicate]. eapply Forall_impl; [exact Hn|]. cbn. lia.
Qed.
End Root.
