(* ===== verification/MkfsMain.v ===== *)
(** * mkfs as a whole

    The program [mkfs_main] of Mkfs.v from the empty image to the bitmap, and
    the properties of the image it leaves. *)

From S2P Require Import Prelude DList Machine Thread Scheduler KString Bytes FsData BufCache FsLog Block Inode InodeData InodeDisk Dir File FileSpec Icache DirSpec NameSpec Mkfs MkfsSpec MkfsImage.

(** ** The empty file system *)
Definition blank (n : Z) (s : mkst) : Prop :=
  (forall x, fsfd s !! x = if decide (0 <= x < n) then Some zero_block else None)
  /\ freeblock s = 29 /\ usedblocks s = 29 /\ freeinode s = 1.

Lemma zeroed_spec s : blank 0 s ->
  exists s', for_each (seqZ 0 1024) (fun i => wsect i zero_block) s = Ok (tt, s') /\ blank 1024 s'.
Proof.
  intros B. apply (for_range_ind blank); [lia| |done]. intros k t Hk (Hx & Hb & Hu & Hi). eexists. split; [done|].
  split; [|done]. intros x. cbn [fsfd set_fsfd]. destruct (decide (x = k)) as [->|Hne].
  - rewrite lookup_insert_eq. by rewrite decide_True by lia.
  - rewrite lookup_insert_ne, Hx by done. repeat case_decide; try done; lia.
Qed.

Lemma zero_at o : at_ zero_block o = 0.
Proof.
  unfold at_. destruct (decide (Z.to_nat o < 512)%nat); [by apply lookup_total_replicate_2|].
  rewrite list_lookup_total_alt, lookup_ge_None_2; [done|]. change (length zero_block) with 512%nat. lia.
Qed.

Lemma empty_built s : blank 1024 s ->
  exists s' W, wsect 1 (super_block 4) s = Ok (tt, s') /\ built s' W ∅ /\ freeblock s' = 29 /\ freeinode s' = 1.
Proof.
  intros (Hx & Hb & Hu & Hi). set (s' := set_fsfd (<[1 := super_block 4]> (fsfd s)) s).
  assert (forall x, VV s' x = if decide (x = 1) then super_block 4 else zero_block) as HV.
  { intros x. unfold VV, s'. cbn [fsfd set_fsfd]. destruct (decide (x = 1)) as [->|Hne].
    - by rewrite lookup_insert_eq.
    - rewrite lookup_insert_ne, Hx by done. by case_decide. }
  exists s', (fun x => if decide (x = 28) then bits 29 else VV s' x). split; [done|]. split; [|done].
  assert (forall x, fsfd s' !! x = if decide (x = 1) then Some (super_block 4) else fsfd s !! x) as Hl.
  { intros x. unfold s'. cbn [fsfd set_fsfd]. destruct (decide (x = 1)) as [->|Hne];
      [by rewrite lookup_insert_eq|by rewrite lookup_insert_ne]. }
  split.
  - split; change (freeblock s') with (freeblock s); change (usedblocks s') with (usedblocks s); try lia.
    + intros x Hr. rewrite Hl, Hx. rewrite (decide_True (P := 0 <= x < 1024)) by done. case_decide; by eexists.
    + intros x Hr. rewrite Hl, Hx. rewrite (decide_False (P := 0 <= x < 1024)) by done. by rewrite decide_False by lia.
    + intros x Hr. rewrite HV. by rewrite decide_False by lia.
    + rewrite HV. by rewrite decide_True.
    + intros x. by rewrite Hb.
  - intros j. change (freeinode s') with (freeinode s). rewrite lookup_empty, Hi. split; [by intros []|lia].
  - change (freeinode s') with (freeinode s). lia.
  - intros j f. by rewrite lookup_empty.
  - intros j k z [f Hf]. by rewrite lookup_empty in Hf.
  - intros j Hj _. pose proof (iblock_meta j Hj). unfold dino, disk_inode. cbn [get_dinode i_type].
    rewrite decide_False by lia. rewrite HV. rewrite decide_False by lia. unfold get16, half_of. by rewrite !zero_at.
Qed.

(** ** The files *)
Fixpoint file_entries (j : Z) (files : list (list Z * list Z)) : list (Z * list Z) :=
  match files with
  | [] => []
  | f :: files => (j, file_name f.1) :: file_entries (j + 1) files
  end.
Definition blocks_of (files : list (list Z * list Z)) : Z := foldr (fun f n => nblk (len f.2) + n) 0 files.
Definition good_file (f : list Z * list Z) : Prop := 47 ∉ f.1 /\ good_name (file_name f.1) /\ len f.2 <= 71680.

Lemma blocks_of_pos files : 0 <= blocks_of files.
Proof. induction files as [|f files IH]; [done|]. cbn [blocks_of foldr]. fold (blocks_of files). pose proof (nblk_pos (len f.2)). lia. Qed.
Lemma file_entries_lookup files : forall j k f, files !! k = Some f -> file_entries j files !! k = Some (j + Z.of_nat k, file_name f.1).
Proof.
  induction files as [|f0 files IH]; intros j k f Hk; [done|]. destruct k as [|k].
  - injection Hk as ->. cbn. by rewrite Z.add_0_r.
  - etransitivity; [exact (IH (j + 1) k f Hk)|]. do 2 f_equal. lia.
Qed.
Lemma file_entries_length files : forall j, length (file_entries j files) = length files.
Proof. induction files as [|f files IH]; intros j; [done|]. cbn [file_entries length]. by rewrite IH. Qed.
Lemma file_entries_names files : forall j, (file_entries j files).*2 = map (fun f => file_name f.1) files.
Proof. induction files as [|f files IH]; intros j; [done|]. cbn [file_entries fmap list_fmap map]. by rewrite <- IH with (j := j + 1). Qed.

Lemma add_files_spec files : forall s W F d (j := freeinode s) (n := len files),
  built s W F -> F !! 1 = Some (T_DIR, d) -> 2 <= j -> j + n <= 200 -> Forall good_file files ->
  len d + 16 * n <= 71680 -> freeblock s + (nblk (len d + 16 * n) - nblk (len d)) + blocks_of files <= 1014 ->
  exists s' W' F', for_each files (add_file 1) s = Ok (tt, s') /\ built s' W' F'
    /\ F' !! 1 = Some (T_DIR, d ++ rootdir (file_entries j files))
    /\ (forall k f, files !! k = Some f -> F' !! (j + Z.of_nat k) = Some (T_FILE, f.2))
    /\ (forall k, 1 < k < j -> F' !! k = F !! k) /\ freeinode s' = j + n /\ freeblock s' <= 1014.
Proof.
  induction files as [|f files IH]; intros s W F d j n B E1 Hj Hn Hg Hd Hf.
  - exists s, W, F. unfold n. cbn [for_each length file_entries rootdir map concat]. pose proof (mr_free _ _ (bu_rel _ _ _ B)).
    unfold rootdir. cbn [map concat]. rewrite app_nil_r. split_and!; try done; unfold j; lia.
  - unfold n in *. cbn [length blocks_of foldr] in *. fold (blocks_of files) in *. rewrite Nat2Z.inj_succ in *.
    inversion Hg as [|? ? (Hs & _ & Hl) Hg']; subst. pose proof (blocks_of_pos files) as Hp.
    pose proof (nblk_mono (len d + 16) (len d + 16 * Z.succ (len files)) ltac:(lia)) as Hmo.
    destruct (add_file_spec s W F d f B E1 ltac:(lia) Hs ltac:(lia) Hl ltac:(lia)) as (s1 & W1 & Ea & B1 & F1 & I1).
    fold j in Ea, B1, I1. cbn [for_each]. rewrite (bind_ok _ _ _ _ _ Ea).
    set (d1 := d ++ dirent j (file_name f.1)) in *.
    assert (len d1 = len d + 16) as Hd1 by (unfold d1; rewrite length_app, dirent_length; lia).
    destruct (IH s1 W1 _ d1 B1) as (s2 & W2 & F2 & E2 & B2 & Er & Ef & Ek & I2 & Fb2); rewrite ?I1, ?Hd1; try done; try lia.
    { rewrite lookup_insert_ne by lia. by rewrite lookup_insert_eq. }
    { replace (len d + 16 + 16 * len files) with (len d + 16 * Z.succ (len files)) by lia. lia. }
    rewrite I1 in *. exists s2, W2, F2. split; [done|]. split; [done|]. split.
    { rewrite Er. unfold d1. rewrite <- app_assoc. done. }
    split_and!; [|intros k Hk; rewrite Ek by lia; by rewrite !lookup_insert_ne by lia|lia|done].
    intros [|k] f' Hk.
    + injection Hk as <-. rewrite Z.add_0_r, Ek by lia. by rewrite lookup_insert_eq.
    + rewrite <- (Ef k f' Hk). f_equal. lia.
Qed.

(** ** The image *)
Definition listing (files : list (list Z * list Z)) : list (Z * list Z) := (1, [46]) :: (1, [46; 46]) :: file_entries 2 files.
(** The size [main] gives the root directory *)
Definition root_size (files : list (list Z * list Z)) : Z := (16 * len (listing files) / 512 + 1) * 512.

Record mk_input (files : list (list Z * list Z)) : Prop := {
  in_count : len files <= 198;
  in_files : Forall good_file files;
  in_names : NoDup (listing files).*2;
  in_root : len (listing files) mod 32 <> 0;
  in_space : 29 + nblk (16 * len (listing files)) + blocks_of files <= 1014;
}.

(** What the image [V] is to be *)
Record made (files : list (list Z * list Z)) (V : Z -> list Z) : Prop := {
  md_geo : geometry V 1024 200 1014 10;
  md_len z : length (V z) = 512%nat;
  md_log : V 1014 = zero_block;
  md_root y : i_dev y = ROOTDEV -> dir_in 1024 200 1014 V (disk_inode V 1 y) (root_size files / 16) (at_ (rootdir (listing files)));
  md_link : i_nlink (dino V 1) = 1;
  md_file k f : files !! k = Some f -> isfile V (2 + Z.of_nat k) T_FILE f.2;
  md_sep j k z : 1 <= j < 2 + len files -> 1 <= k < 2 + len files -> j <> k ->
    owned V (maddrs V j) z -> owned V (maddrs V k) z -> False;
  md_free j : 0 <= j < 200 -> ~ (1 <= j < 2 + len files) -> i_type (dino V j) = 0;
}.

Lemma rootdir_app l l' : rootdir (l ++ l') = rootdir l ++ rootdir l'.
Proof. unfold rootdir. by rewrite map_app, concat_app. Qed.
Lemma listing_length files : len (listing files) = 2 + len files.
Proof. unfold listing. cbn [length]. rewrite file_entries_length. lia. Qed.
Lemma root_size_bounds files : mk_input files ->
  0 <= root_size files <= 71680 /\ root_size files = 16 * (root_size files / 16)
  /\ forall bn, bn * 512 < root_size files -> bn * 512 < 16 * len (listing files).
Proof.
  intros [Hc _ _ Hr _]. pose proof (listing_length files) as Hl. unfold root_size. set (n := len (listing files)) in *.
  pose proof (Z.div_mod (16 * n) 512 ltac:(lia)) as Hd. pose proof (Z.mod_pos_bound (16 * n) 512 ltac:(lia)) as Hm.
  assert ((16 * n) mod 512 = 16 * (n mod 32)) as E by (change 512 with (16 * 32); by rewrite Z.mul_mod_distr_l by lia).
  pose proof (Z.mod_pos_bound n 32 ltac:(lia)). set (q := 16 * n / 512) in *.
  assert ((q + 1) * 512 / 16 = 32 * (q + 1)) as -> by (symmetry; apply Z.div_unique with 0; lia).
  split; [lia|]. split; [lia|]. intros bn Hb. lia.
Qed.

Lemma root_size_covers files : 16 * len (listing files) < root_size files.
Proof.
  unfold root_size. set (n := len (listing files)). pose proof (Z.div_mod (16 * n) 512 ltac:(lia)).
  pose proof (Z.mod_pos_bound (16 * n) 512 ltac:(lia)). lia.
Qed.
Lemma sized_range x n : ino_range x -> 0 <= n < W32 -> ino_range (set_i_size n x).
Proof. intros [] Hn. by split. Qed.
Lemma dino_fields V j y : i_addrs (disk_inode V j y) = maddrs V j /\ i_type (disk_inode V j y) = i_type (dino V j)
  /\ i_size (disk_inode V j y) = i_size (dino V j) /\ i_dev (disk_inode V j y) = i_dev y.
Proof. done. Qed.

(** The root directory with its new size *)
Lemma root_fixed s W s2 files (x := set_i_size (root_size files) (dino W 1)) (W2 := stored W (numbered 1 x)) :
  mk_input files -> mrel s W -> mrel s2 W2 -> freeblock s2 = freeblock s -> isfile W 1 T_DIR (rootdir (listing files)) ->
  ino_range x ->
  (forall y, i_dev y = ROOTDEV -> dir_in 1024 200 1014 W2 (disk_inode W2 1 y) (root_size files / 16) (at_ (rootdir (listing files))))
  /\ i_nlink (dino W2 1) = 1 /\ (forall z, owned W2 (maddrs W2 1) z <-> owned W (maddrs W 1) z).
Proof.
  intros Hin R R2 Hf I Hx. destruct (root_size_bounds files Hin) as (Hs & H16 & Hfull).
  destruct (stored_this R 1 x ltac:(lia) Hx) as [St _ _ Sn Ss Sa]. fold W2 in St, Sn, Ss, Sa.
  assert (forall z, owned W (maddrs W 1) z -> W2 z = W z) as Hz.
  { intros z Hz. apply stored_block; [lia|]. pose proof (isfile_owned s W 1 _ _ z R I Hz). lia. }
  destruct I as [It In Is Ix Iw Ip Ib]. rewrite rootdir_length in *.
  split; [|split; [by rewrite Sn|exact (agree_owned W W2 (maddrs W 1) _ Sa Hz)]].
  intros y Hy. destruct (dino_fields W2 1 y) as (Ea & Et & Es & Ed). cbn [x set_i_size i_type i_size] in St, Ss.
  split; [split|..]; rewrite ?Ea, ?Et, ?Es, ?Ed, ?St, ?Ss, ?It.
  - done.
  - done.
  - exact Hs.
  - apply (agree_wf W W2 (maddrs W 1) _ Sa Hz s s2); done || lia.
  - intros bn H0 Hb. rewrite (agree_baddr W W2 (maddrs W 1) _ Sa Hz bn H0).
    apply Ip; [|specialize (Hfull bn Hb); lia]. unfold BSIZE in *. lia.
  - done.
  - exact H16.
  - intros o Ho. rewrite (agree_fbyte W W2 (maddrs W 1) _ Sa Hz) by lia. apply Ib. lia.
Qed.

(** The bitmap is written at the end: from then on the image is the one the
    invariant speaks of. *)
Lemma balloc_spec s W : mrel s W ->
  exists s', balloc (usedblocks s) s = Ok (tt, s') /\ (forall x, VV s' x = W x) /\ (forall x, 1024 <= x -> fsfd s' !! x = None).
Proof.
  intros R. pose proof (mr_free _ _ R) as Hf. rewrite (mr_used _ _ R). unfold balloc. rewrite decide_True by lia.
  eexists. split; [done|]. change (ninodes / IPB + 3) with 28. split.
  - intros x. rewrite (mr_view _ _ R). unfold VV. cbn [fsfd set_fsfd]. case_decide as Hx.
    + by rewrite Hx, lookup_insert_eq.
    + by rewrite lookup_insert_ne.
  - intros x Hx. cbn [fsfd set_fsfd]. rewrite lookup_insert_ne by lia. apply (mr_out _ _ R). lia.
Qed.

#[export] Instance pair_dev_inj (d : Z) : Inj (=) (=) (pair d : Z -> Z * Z).
Proof. intros x y [= H]. done. Qed.
Lemma image_of_read s x : dread (image_of s) (ROOTDEV, x) = VV s x.
Proof. unfold dread, image_of, VV. rewrite (lookup_kmap (pair ROOTDEV)). reflexivity. Qed.

(** [main] up to the loop over the files *)
Lemma mkfs_setup : exists s W F,
  (forall k : Z -> M mkst unit,
    (modify (set_blocks 29 29) ;; for_each (seqZ 0 1024) (fun i => wsect i zero_block) ;; wsect 1 (super_block 4) ;;
     rootino ← ialloc T_DIR;
     if decide (rootino = ROOTINO) then
       iappend rootino (dirent rootino [46]) ;; iappend rootino (dirent rootino [46; 46]) ;; k rootino
     else panic "assert") mkfs_start = k 1 s)
  /\ built s W F /\ F !! 1 = Some (T_DIR, rootdir [(1, [46]); (1, [46; 46])]) /\ freeblock s = 30 /\ freeinode s = 2.
Proof.
  destruct (zeroed_spec (set_blocks 29 29 mkfs_start)) as (s1 & E1 & B1).
  { split; [|done]. intros x. rewrite decide_False by lia. apply lookup_empty. }
  destruct (empty_built s1 B1) as (s2 & W2 & E2 & B2 & F2 & I2).
  destruct (ialloc_spec s2 W2 ∅ T_DIR B2) as (s3 & W3 & E3 & B3 & F3 & I3); [lia|unfold T_DIR; lia|]. rewrite I2 in *.
 
  destruct (iappend_spec s3 W3 _ 1 T_DIR [] (dirent 1 [46]) B3 (lookup_insert_eq _ _ _)) as (s4 & W4 & E4 & B4 & F4 & I4);
    [by rewrite dirent_length|rewrite dirent_length, F3, F2; by vm_compute|].
  destruct (iappend_spec s4 W4 _ 1 T_DIR _ (dirent 1 [46; 46]) B4 (lookup_insert_eq _ _ _)) as (s5 & W5 & E5 & B5 & F5 & I5);
    [by rewrite length_app, !dirent_length|rewrite length_app, !dirent_length, F4, dirent_length, F3, F2; by vm_compute|].
  exists s5, W5. eexists. split.
  { intros k. rewrite modify_bind, (bind_ok _ _ _ _ _ E1), (bind_ok _ _ _ _ _ E2), (bind_ok _ _ _ _ _ E3).
    rewrite decide_True by done. by rewrite (bind_ok _ _ _ _ _ E4), (bind_ok _ _ _ _ _ E5). }
  split; [exact B5|].
  split; [by rewrite lookup_insert_eq|]. split; [|lia].
  rewrite F5, F4, F3, F2, length_app, !dirent_length. by vm_compute.
Qed.

Lemma built_made s W F s2 files (x := set_i_size (root_size files) (dino W 1)) (W2 := stored W (numbered 1 x)) :
  mk_input files -> built s W F -> F !! 1 = Some (T_DIR, rootdir (listing files)) ->
  (forall k f, files !! k = Some f -> F !! (2 + Z.of_nat k) = Some (T_FILE, f.2)) ->
  freeinode s = 2 + len files -> mrel s2 W2 -> freeblock s2 = freeblock s -> made files W2.
Proof.
  intros Hin B Er Ef Hi R2 Hf. pose proof (bu_rel _ _ _ B) as R. pose proof (bu_file _ _ _ B 1 _ Er) as I.
  assert (ino_range x) as Hx.
  { pose proof (root_size_bounds files Hin) as [Hs _]. apply sized_range; [apply disk_inode_range|unfold W32; lia]. }
  destruct (root_fixed s W s2 files Hin R R2 Hf I Hx) as (Hdir & Hln & Ho). fold x W2 in Hdir, Hln, Ho.
  assert (forall k, 0 <= k < 200 -> k <> 1 -> dino W2 k = dino W k) as Hd by (intros k Hk Hne; apply (stored_others R); done || lia).
  assert (forall z, 29 <= z -> W2 z = W z) as Hz by (intros z Hz; apply stored_block; lia).
  assert (forall j f z, F !! j = Some f -> owned W2 (maddrs W2 j) z <-> owned W (maddrs W j) z) as Ho'.
  { intros j f z Ej. destruct (decide (j = 1)) as [->|Hne]; [apply Ho|].
    pose proof (proj1 (bu_inode _ _ _ B j) (ex_intro _ f Ej)). destruct Hin. rewrite Hd by lia.
    apply agree_owned; [done|]. intros z' Hz'. apply Hz. pose proof (isfile_owned s W j _ _ z' R (bu_file _ _ _ B j f Ej) Hz'). lia. }
  split.
  - exact (mr_geo R2).
  - exact (mr_len R2).
  - pose proof (mr_view _ _ R2 1014) as ->. rewrite decide_False by lia. apply (mr_zero _ _ R2). apply (mr_free _ _ R2).
  - exact Hdir.
  - exact Hln.
  - intros k f Hk. pose proof (bu_file _ _ _ B _ _ (Ef k f Hk)) as If. pose proof (lookup_lt_Some _ _ _ Hk). destruct Hin.
    apply (isfile_frame s W s2 W2); try done; [lia|apply Hd; lia|]. intros z Hz'. apply Hz.
    pose proof (isfile_owned s W _ _ _ z R If Hz'). lia.
  - intros j k z Hj Hk Hne H1 H2.
    destruct (proj2 (bu_inode _ _ _ B j) ltac:(lia)) as [f1 E1]. destruct (proj2 (bu_inode _ _ _ B k) ltac:(lia)) as [f2 E2].
    apply (Ho' j f1 z E1) in H1. apply (Ho' k f2 z E2) in H2.
    exact (bu_sep _ _ _ B j k z (ex_intro _ f1 E1) (ex_intro _ f2 E2) Hne H1 H2).
  - intros j Hj Hn. rewrite Hd by lia. apply (bu_free _ _ _ B); [done|]. apply eq_None_not_Some.
    rewrite (bu_inode _ _ _ B). lia.
Qed.

Lemma mkfs_main_spec files : mk_input files ->
  exists s V, mkfs_main 4 files mkfs_start = Ok (tt, s) /\ (forall x, VV s x = V x) /\ made files V.
Proof.
  intros Hin. pose proof Hin as [Hc Hg _ _ Hsp]. destruct mkfs_setup as (s & W & F & E & B & Er & Hb & Hi).
  assert (len (rootdir [(1, [46]); (1, [46; 46])]) = 32) as Hr by by rewrite rootdir_length.
  rewrite listing_length in Hsp. change (nblk 32) with 1 in *.
  destruct (add_files_spec files s W F _ B Er) as (s1 & W1 & F1 & E1 & B1 & Er1 & Ef & _ & I1 & Hb1).
  1,2: lia. 1: exact Hg. 1: lia.
  { rewrite Hr. change (nblk 32) with 1. replace (32 + 16 * len files) with (16 * (2 + len files)) by lia. lia. }
  rewrite Hi in *. assert (rootdir [(1, [46]); (1, [46; 46])] ++ rootdir (file_entries 2 files) = rootdir (listing files)) as Hl.
  { symmetry. apply (rootdir_app [_; _]). }
  rewrite Hl in Er1. pose proof (bu_rel _ _ _ B1) as R1. pose proof (bu_file _ _ _ B1 1 _ Er1) as Ir.
  destruct (root_size_bounds files Hin) as (Hrs & _ & _).
  assert (ino_range (set_i_size (root_size files) (dino W1 1))) as Hx.
  { apply sized_range; [apply disk_inode_range|unfold W32; lia]. }
  destruct (winode_spec s1 W1 1 _ R1 ltac:(lia) Hx) as (s2 & E2 & R2 & Hb2 & I2).
  destruct (balloc_spec s2 _ R2) as (s3 & E3 & HV & _). exists s3. eexists. split; [|split; [exact HV|]].
  2:{ apply (built_made s1 W1 F1 s2); assumption. }
  unfold mkfs_main. change (fs_size / (512 * 8) + 1) with 1. change (ninodes / IPB + 3 + 1) with 29.
  rewrite (decide_True (P := nblocks + 29 + nlog = fs_size)) by done. change (nblocks + 29 + nlog) with 1024.
  rewrite E, (bind_ok _ _ _ _ _ E1), (bind_ok _ _ _ _ _ (rinode_spec s1 W1 1 R1 ltac:(lia))).
  rewrite (if_size _ _ _ _ Ir). cbn [snd]. rewrite rootdir_length.
  assert ((xint (Z.of_nat (16 * length (listing files))) / BSIZE + 1) * BSIZE = root_size files) as ->.
  { unfold root_size, BSIZE. pose proof (listing_length files). unfold xint. rewrite u32_id by (unfold W32; lia).
    by rewrite Nat2Z.inj_mul. }
  assert (xint (root_size files) = root_size files) as -> by (apply u32_id; unfold W32; lia).
  by rewrite (bind_ok _ _ _ _ _ E2), gets_bind.
Qed.

(** ** The tree of names *)
Definition tree_of (files : list (list Z * list Z)) (k : Z) : option fnode :=
  if decide (k = 1) then Some (NDir (root_size files / 16) (at_ (rootdir (listing files))))
  else if decide (2 <= k < 2 + len files) then Some NOther
  else None.

Lemma listing_good files k e : mk_input files -> listing files !! k = Some e ->
  0 < e.1 < 65536 /\ good_name e.2 /\ (e.1 = 1 \/ 2 <= e.1 < 2 + len files).
Proof.
  intros [Hc Hg _ _ _]. destruct k as [|[|k]]; cbn [listing lookup list_lookup].
  - intros [= <-]. split; [done|]. split; [|by left]. split; [cbn; lia|]. repeat constructor.
  - intros [= <-]. split; [done|]. split; [|by left]. split; [cbn; lia|]. repeat constructor.
  - intros He. pose proof (lookup_lt_Some _ _ _ He) as Hl. rewrite file_entries_length in Hl.
    destruct (lookup_lt_is_Some_2 files k Hl) as [f Hf].
    assert (Some e = Some (2 + Z.of_nat k, file_name f.1)) as [= ->] by (rewrite <- He; by apply file_entries_lookup).
    cbn [fst snd]. pose proof (proj1 (Forall_lookup _ _) Hg k f Hf) as (_ & Hn & _). split; [lia|]. split; [done|]. right. lia.
Qed.
Lemma listing_lookup files k f : files !! k = Some f -> listing files !! (2 + k)%nat = Some (2 + Z.of_nat k, file_name f.1).
Proof. intros Hk. exact (file_entries_lookup files 2 k f Hk). Qed.

Lemma made_tree files V : mk_input files -> made files V -> tree 1024 200 1014 V (tree_of files).
Proof.
  intros Hin M. pose proof (in_count _ Hin) as Hc.
  assert (forall k e, listing files !! k = Some e -> 0 < e.1 < 65536 /\ good_name e.2) as Hes.
  { intros k e He. destruct (listing_good files k e Hin He) as (? & ? & _). done. }
  assert (forall k nd, tree_of files k = Some nd -> k = 1 \/ 2 <= k < 2 + len files /\ nd = NOther) as Hk.
  { intros k nd. unfold tree_of. case_decide; [by left|]. case_decide; [|done]. intros [= <-]. by right. }
  assert (forall k, 2 <= k < 2 + len files -> exists l, isfile V k T_FILE l) as Hf.
  { intros k Hr. destruct (lookup_lt_is_Some_2 files (Z.to_nat (k - 2))) as [f Ef]; [lia|]. exists f.2.
    replace k with (2 + Z.of_nat (Z.to_nat (k - 2))) by lia. by apply (md_file _ _ M). }
  assert (forall k n D, tree_of files k = Some (NDir n D) ->
    k = 1 /\ n = root_size files / 16 /\ D = at_ (rootdir (listing files))) as Hd.
  { intros k n D. unfold tree_of. case_decide; [by intros [= <- <-]|]. by case_decide. }
  split.
  - intros k nd H. apply Hk in H. lia.
  - intros k nd y H. change (i_nlink (disk_inode V k y)) with (i_nlink (dino V k)). apply Hk in H as [->|[Hr _]].
    + by rewrite (md_link _ _ M).
    + destruct (Hf k Hr) as [l I]. by rewrite (if_nlink _ _ _ _ I).
  - intros k n D y H Hy. apply Hd in H as (-> & -> & ->). by apply (md_root _ _ M).
  - intros k n D o H. apply Hd in H as (-> & -> & ->). by apply root_byte.
  - intros k y H. assert (2 <= k < 2 + len files) as Hr by (revert H; unfold tree_of; case_decide; [done|]; by case_decide).
    destruct (Hf k Hr) as [l I]. change (i_type (disk_inode V k y)) with (i_type (dino V k)). by rewrite (if_type _ _ _ _ I).
  - intros k n D e j H He. apply Hd in H as (-> & -> & ->). destruct (root_found _ Hes _ _ _ He) as (e' & El & ->).
    destruct (listing_good files _ _ Hin El) as (_ & _ & Hr). unfold tree_of. case_decide; [by eexists|].
    rewrite decide_True by lia. by eexists.
Qed.

(** Names of at most 13 characters lead to their inodes. *)
Lemma made_resolve files k f : mk_input files -> files !! k = Some f ->
  resolve (tree_of files) 1 [file_name f.1] = Some (2 + Z.of_nat k).
Proof.
  intros Hin Hk. assert (forall k e, listing files !! k = Some e -> 0 < e.1 < 65536 /\ good_name e.2) as Hes.
  { intros k' e He. destruct (listing_good files k' e Hin He) as (? & ? & _). done. }
  pose proof (listing_lookup files k f Hk) as Hl. destruct (Hes _ _ Hl) as [_ [Hn _]]. cbn [snd] in Hn.
  unfold resolve, tree_of. rewrite (decide_True (P := 1 = 1)) by done. rewrite take_ge by done.
  destruct (root_size_bounds files Hin) as (Hrs & H16 & _).
  pose proof (root_find _ Hes (root_size files / 16) _ _ (in_names _ Hin) Hl) as Hfind. cbn [snd] in Hfind.
  rewrite Hfind; [by rewrite (root_inum _ Hes _ _ Hl)|]. pose proof (root_size_covers files).
  apply lookup_lt_Some in Hl. lia.
Qed.

Lemma made_file_ok files V k f x : made files V -> files !! k = Some f -> i_dev x = ROOTDEV ->
  same_disk (disk_inode V (2 + Z.of_nat k) x) x ->
  file_ok 1024 200 1014 V x /\ i_size x = len f.2 /\ forall o, 0 <= o < 71680 -> fbyte V (i_addrs x) o = at_ f.2 o.
Proof.
  intros M Hk Hdev [St _ _ _ Ss Sa]. destruct (dino_fields V (2 + Z.of_nat k) x) as (Ea & Et & Es & _).
  rewrite Ea in Sa. rewrite Et in St. rewrite Es in Ss. destruct (md_file _ _ M k f Hk) as [It _ Is Ix Iw Ip Ib].
  rewrite It in St. rewrite Is in Ss. pose proof (agree_baddr V V _ _ Sa (fun _ _ => eq_refl)) as Hb.
  split; [split|split; [done|]].
  - done.
  - by rewrite St.
  - rewrite Ss. unfold BSIZE. lia.
  - split.
    + intros z Hz. apply Iw. by apply (agree_owned V V _ _ Sa (fun _ _ => eq_refl)).
    + intros a b Ha Hb'. rewrite !Hb by lia. by apply Iw.
    + intros a Ha. rewrite Hb, Sa by lia. by apply Iw.
  - intros bn H0 Hl. rewrite Hb by done. unfold BSIZE in Hl. apply Ip; lia.
  - intros o Ho. rewrite (agree_fbyte V V _ _ Sa (fun _ _ => eq_refl)) by done. by apply Ib.
Qed.

Lemma made_mounts {T : Type} `{!FsKernel T} `{!FsKernelLaws T} files s V (s0 : fsys T) :
  made files V -> (forall x, VV s x = V x) -> booted s0 (image_of s) ->
  exists s1, start_fs s0 = Ok (tt, s1) /\ irep s1 1014 10 V.
Proof.
  intros M HV B. pose proof (md_geo _ _ M) as G.
  destruct (start_fs_spec s0 (image_of s) V 1014 10 V B) as (s1 & hist & E & I & _).
  - intros x _. rewrite image_of_read. split; [apply HV|apply M].
  - apply G.
  - exact (geometry_sb _ _ _ _ _ G).
  - apply recoverable_empty; [apply G|apply M|by rewrite (md_log _ _ M)|done].
  - by exists s1.
Qed.

(** ** Properties *)
Module MkfsProps.

(** C18 (functional): mkfs makes a file system the kernel can use.  Let the host's
    [size_t], the first field of the super block, have the kernel's 4 bytes.  For
    at most 198 files with different names of at most 13 characters without slashes, up
    to 71680 bytes each, that fit with the directory into the 985 data blocks,
    and a number of directory entries that is no multiple of 32, the program
    runs to its end.  As the kernel reads the image, its super block gives the
    layout (1024 blocks, 200 inodes, ten log blocks from block 1014 on), its
    inodes form a tree in which the root directory is well formed and closed,
    every file is found under its name without a leading underscore, and its
    inode is a file with one link, the size and exactly the bytes of the
    original, in marked blocks of its own that no other inode shares; the
    inodes not handed out are free. *)
Theorem mkfs_makes_file_system files : mk_input files ->
  exists s V, mkfs_main 4 files mkfs_start = Ok (tt, s) /\ img (image_of s) V /\ geometry V 1024 200 1014 10
    /\ tree 1024 200 1014 V (tree_of files)
    /\ (forall k f, files !! k = Some f ->
          resolve (tree_of files) 1 [file_name f.1] = Some (2 + Z.of_nat k) /\ isfile V (2 + Z.of_nat k) T_FILE f.2)
    /\ (forall j k z, 1 <= j < 2 + len files -> 1 <= k < 2 + len files -> j <> k ->
          owned V (maddrs V j) z -> owned V (maddrs V k) z -> False)
    /\ (forall j, 0 <= j < 200 -> ~ (1 <= j < 2 + len files) -> i_type (dino V j) = 0).
Proof.
  intros Hin. destruct (mkfs_main_spec files Hin) as (s & V & E & HV & M). exists s, V. split; [done|]. split.
  { intros x _. rewrite image_of_read. split; [apply HV|apply M]. }
  split; [apply M|]. split; [by apply made_tree|]. split; [|split; apply M].
  intros k f Hk. split; [by apply made_resolve|by apply (md_file _ _ M)].
Qed.

(** C21 (roundtrip): what mkfs stores the kernel reads back.  Under the same
    conditions (a [size_t] of 4 bytes on the host included), a kernel started on the image mounts it without replaying
    anything; and whenever its disk is this image and a slot of the inode cache
    holds the inode of file [f] as it is on disk, [inode_read] of [n] bytes from
    offset [off] copies exactly the bytes of the original to memory, cut at the
    end of the file, and returns their number. *)
Theorem mkfs_files_read_back {T : Type} `{!FsKernel T} `{!FsKernelLaws T} files k f :
  mk_input files -> files !! k = Some f ->
  exists s V, mkfs_main 4 files mkfs_start = Ok (tt, s)
    /\ (forall s0 : fsys T, booted s0 (image_of s) -> exists s1, start_fs s0 = Ok (tt, s1) /\ irep s1 1014 10 V)
    /\ (forall tx V0 (t : fsys T) ents i dst off n (x := inodes t !!! i) (r := Z.min n (len f.2 - off)),
          trep tx V0 t 1014 10 ents V ∅ ∅ -> (length ents <= 9)%nat -> 0 <= i < NINODE ->
          i_dev x = ROOTDEV -> same_disk (disk_inode V (2 + Z.of_nat k) x) x ->
          0 <= off <= len f.2 -> 0 <= n -> off + n < W32 ->
          exists t', inode_read (PInode i) dst off n t = Ok (r, t') /\ trep tx V0 t' 1014 10 ents V ∅ ∅
            /\ patched (fk_mem (kern t)) (fk_mem (kern t')) dst r (fun j => at_ f.2 (off + j))).
Proof.
  intros Hin Hk. destruct (mkfs_main_spec files Hin) as (s & V & E & HV & M). exists s, V. split; [done|].
  split; [intros s0 B; by apply (made_mounts files s)|].
  intros tx V0 t ents i dst off n x r R Hl Hi Hdev Hsame Ho Hn Hw.
  destruct (made_file_ok files V k f x M Hk Hdev Hsame) as (Hok & Hsz & Hb).
  pose proof (if_max _ _ _ _ (md_file _ _ M k f Hk)) as Hmax.
  destruct (inode_read_spec tx V0 1024 200 1014 10 t ents V i dst off n R (md_geo _ _ M) Hi Hok Hl) as (t' & Er & R' & _ & P);
    [fold x; by rewrite Hsz|done|done|]. fold x in Er, P. rewrite Hsz in Er, P. exists t'. split; [done|]. split; [done|].
  intros a. rewrite (P a). unfold r. destruct (decide _); [apply Hb; lia|reflexivity].
Qed.

(** A file with blocks behind the indirect one, and one whose name starts with
    an underscore *)
Definition two_files : list (list Z * list Z) := [([97], replicate 7000 65); ([95; 98], [104; 105])].
Lemma two_files_ok : mk_input two_files.
Proof.
  split; [by vm_compute| |apply (bool_decide_unpack _); by vm_compute|by vm_compute|by vm_compute].
  repeat constructor; try (by vm_compute); try lia; apply (bool_decide_unpack _); by vm_compute.
Qed.

Lemma mkfs_makes_file_system_witness :
  exists s V, mkfs_main 4 two_files mkfs_start = Ok (tt, s) /\ tree 1024 200 1014 V (tree_of two_files)
    /\ resolve (tree_of two_files) 1 [[98]] = Some 3 /\ isfile V 3 T_FILE [104; 105].
Proof.
  destruct (mkfs_makes_file_system two_files two_files_ok) as (s & V & E & _ & _ & Ht & Hf & _).
  exists s, V. split; [exact E|]. split; [exact Ht|]. exact (Hf 1%nat _ eq_refl).
Defined.

Lemma mkfs_files_read_back_witness :
  exists s V, mkfs_main 4 two_files mkfs_start = Ok (tt, s)
    /\ (forall s0 : fsys (thr * mem), booted s0 (image_of s) -> exists s1, start_fs s0 = Ok (tt, s1) /\ irep s1 1014 10 V).
Proof.
  destruct (mkfs_files_read_back (T := thr * mem) two_files 1 _ two_files_ok eq_refl) as (s & V & E & H & _).
  exists s, V. split; [exact E|exact H].
Defined.

(** With 30 files the directory fills its block exactly: [main] makes it one
    block larger, but the block does not exist. *)
Definition thirty_files : list (list Z * list Z) := map (fun k => ([97; 65 + k], [])) (seqZ 0 30).
Definition result_state {A} (r : result (A * mkst)) : mkst := match r with Ok (_, s) => s | _ => mkfs_start end.
Lemma root_block_missing (s := result_state (mkfs_main 4 thirty_files mkfs_start)) :
  mkfs_main 4 thirty_files mkfs_start = Ok (tt, s) /\ i_size (dino (VV s) 1) = 1024 /\ baddr (VV s) (maddrs (VV s) 1) 1 = 0.
Proof. split_and!; by vm_compute. Qed.
End MkfsProps.
