(* ===== verification/SysFile.v ===== *)
(** * File system calls: fs/sysfile.c, and sys_is_dir, sys_ls of trap/TSyscall

    A handler takes the trap frame of the calling process and returns the
    changed one, as in Syscall.v; its state is the kernel state of Syscall.v with
    the file system around it.  Local arrays are at addresses that are arguments. *)

From S2P Require Import Prelude DList Machine Thread Scheduler WaitObj PMM KString Bytes Printfmt Pmap Elf Ipc Syscall FsData BufCache FsLog Block Inode Dir File.

(** ** fs/fcntl.h, lib/syscall.h *)
Definition O_RDONLY : Z := 0x000.
Definition O_WRONLY : Z := 0x001.
Definition O_RDWR : Z := 0x002.
Definition O_CREATE : Z := 0x200.

Definition E_DISK_OP : Z := 13.
Definition E_NEXIST : Z := 26.
Definition E_CREATE : Z := 27.
Definition E_BADF : Z := 29.

(** The kernel state of Syscall.v under the file system *)
#[export] Instance kst_kernel {V} : FsKernel (kst V) := {
  fk_kstack k := cur_kstack (k_thr k);
  fk_wakeup ch := in_thr (thread_wakeup ch);
  fk_mem k := (k_vm k).2;
  fk_set_mem m k := set_k_vm ((k_vm k).1, m) k;
}.
#[export] Instance kst_threads {V} : FsThreads (kst V) := {
  ft_thr := k_thr;
  ft_set_thr := set_k_thr;
}.
#[export] Instance kst_kernel_laws {V} : FsKernelLaws (kst V).
Proof.
  refine {| fk_inv k := exists a, so_rel (k_thr k) a |}.
  - intros k [a Ha]. exact (so_magic _ a Ha).
  - intros ch k [a Ha]. destruct (so_wakeup_law ch (k_thr k) a Ha) as (t & E & Ha' & _).
    change (thread_wakeup ch (k_thr k) = Ok (tt, t)) in E.
    exists (set_k_thr t k). split; [by apply in_thr_ok|]. split; [|done]. by eexists.
  - done.
  - intros m k H. exact H.
Defined.

(** Addresses of local variables and of string constants *)
Record locals := mk_locals {
  lo_lookup_de : Z; lo_link_de : Z; lo_empty_de : Z; lo_unlink_de : Z; lo_ls_de : Z;
  lo_name : Z; lo_create_name : Z; lo_namei_name : Z;
  lo_path : Z; lo_new : Z;
  lo_stat : Z;
  lo_dot : Z; lo_dotdot : Z;
}.

Section Create.
Context {T : Type} `{!FsKernel T} `{!FsThreads T}.
Context (lo : locals).

Notation F := (M (fsys T)).
Notation dir_lookup := (dir_lookup (lo_lookup_de lo)).
Notation dir_link := (dir_link (lo_lookup_de lo) (lo_link_de lo)).
Notation nameiparent := (nameiparent (lo_lookup_de lo)).

Definition fdalloc (f : ptr) : F Z :=
  curid ← in_threads get_curid;
  r ← first_of (seqZ 0 NOFILE) (fun idx =>
    p ← in_threads (tcb_get_openfiles curid idx);
    if decide (p = PNull) then
      in_threads (tcb_set_openfiles curid idx f) ;;
      mret (Some idx)
    else mret None);
  mret (default (-1) r).

Definition isdirempty (dp : ptr) : F Z :=
  size ← ino_read dp i_size;
  r ← first_of (dir_offs (2 * sizeof_dirent) size) (fun off =>
    n ← inode_read dp (lo_empty_de lo) off sizeof_dirent;
    if decide (n <> sizeof_dirent) then panic "isdirempty: readi"
    else
      inum ← mem_half (lo_empty_de lo);
      if decide (inum <> 0) then mret (Some 0) else mret None);
  mret (default 1 r).

Definition create (path type major minor : Z) : F ptr :=
  let name := lo_create_name lo in
  dp ← nameiparent path name;
  if decide (dp = PNull) then mret PNull
  else
    inode_lock dp ;;
    r ← dir_lookup dp name;
    let ip := r.1 : ptr in
    if decide (ip <> PNull) then
      inode_unlockput dp ;;
      inode_lock ip ;;
      t ← ino_read ip i_type;
      if decide (type = T_FILE /\ t = T_FILE) then mret ip
      else
        inode_unlockput ip ;;
        mret PNull
    else
      dev ← ino_read dp i_dev;
      ip ← inode_alloc dev type;
      if decide (ip = PNull) then panic "create: ialloc"
      else
        inode_lock ip ;;
        ino_write ip (set_i_majmin major minor) ;;
        ino_write ip (set_i_nlink 1) ;;
        inode_update ip ;;
        (if decide (type = T_DIR) then
           ino_write dp (fun x => set_i_nlink (s16 (i_nlink x + 1)) x) ;;
           inode_update dp ;;
           inum ← ino_read ip i_inum;
           r1 ← dir_link ip (lo_dot lo) inum;
           bad ← (if decide (r1 < 0) then mret true
                  else
                    pnum ← ino_read dp i_inum;
                    r2 ← dir_link ip (lo_dotdot lo) pnum;
                    mret (bool_decide (r2 < 0)));
           if bad : bool then panic "create dots" else mret tt
         else mret tt) ;;
        inum ← ino_read ip i_inum;
        r ← dir_link dp name inum;
        if decide (r < 0) then panic "create: dir_link"
        else
          inode_unlockput dp ;;
          mret ip.
End Create.

(** ** The handlers *)
Record sfs (V : Type) := mk_sfs {
  sf_fs : fsys (kst V);
  sf_buf_lock : spinlock;        (* buf_lock of dev/disk/ide.c *)
  sf_first : bool;               (* first of sys_open *)
}.
Arguments mk_sfs {V}. Arguments sf_fs {V}. Arguments sf_buf_lock {V}. Arguments sf_first {V}.

Section Handlers.
Context {V : Type} `{!VmmOps V}.
Context (lo : locals).
(** [kern_buf] and [sys_buf[pid]] *)
Context (kern_buf : Z) (sys_buf : Z -> Z).

Notation S := (M (sfs V)).
Notation F := (M (fsys (kst V))).

Definition set_sf_fs (f : fsys (kst V)) (s : sfs V) : sfs V := mk_sfs f (sf_buf_lock s) (sf_first s).
Definition set_sf_buf_lock (l : spinlock) (s : sfs V) : sfs V := mk_sfs (sf_fs s) l (sf_first s).
Definition set_sf_first (b : bool) (s : sfs V) : sfs V := mk_sfs (sf_fs s) (sf_buf_lock s) b.

Definition in_fs {A} (m : F A) : S A := zoom sf_fs set_sf_fs m.
Definition in_kern {A} (m : M (kst V) A) : F A := zoom kern set_kern m.
Definition buf_lock_acquire : S unit :=
  s ← get; zoom sf_buf_lock set_sf_buf_lock (spinlock_acquire (fk_kstack (kern (sf_fs s)))).
Definition buf_lock_release : S unit := zoom sf_buf_lock set_sf_buf_lock spinlock_release.

Definition sizeof_kern_buf : Z := 10000.

Notation namei := (namei (lo_lookup_de lo) (lo_namei_name lo)).
Notation nameiparent := (nameiparent (lo_lookup_de lo)).
Notation dir_lookup := (dir_lookup (lo_lookup_de lo)).
Notation dir_link := (dir_link (lo_lookup_de lo) (lo_link_de lo)).

Definition bad_fd (fd : Z) : Prop := fd < 0 \/ fd >= NOFILE.
#[global] Instance bad_fd_dec fd : Decision (bad_fd fd).
Proof. unfold bad_fd. apply _. Defined.
Definition bad_user (a n : Z) : Prop := a < VM_USERLO \/ u32 (a + n) > VM_USERHI \/ n > sizeof_kern_buf.
#[global] Instance bad_user_dec a n : Decision (bad_user a n).
Proof. unfold bad_user. apply _. Defined.

(** The open file of a descriptor; an entry whose inode is null is refused too. *)
Definition fd_file (pid fd : Z) : F ptr :=
  fp ← in_threads (tcb_get_openfiles pid fd);
  if decide (fp = PNull) then mret PNull
  else
    ip ← fl_read fp fl_ip;
    mret (if decide (ip = PNull) then PNull else fp).

Definition sys_read (tf : tf_t) : S tf_t :=
  pid ← in_fs (in_threads get_curid);
  buf_lock_acquire ;;
  let fd := s32 (syscall_get_arg2 tf) in
  let user_buf := syscall_get_arg3 tf in
  let n := syscall_get_arg4 tf in
  if decide (bad_fd fd) then
    buf_lock_release ;; mret (set_result tf E_BADF (u32 (-1)))
  else if decide (bad_user user_buf n) then
    buf_lock_release ;; mret (set_result tf E_INVAL_ADDR (u32 (-1)))
  else
    fp ← in_fs (fd_file pid fd);
    if decide (fp = PNull) then
      buf_lock_release ;; mret (set_result tf E_BADF (u32 (-1)))
    else
      size_read ← in_fs (file_read fp kern_buf n);
      (if decide (size_read > 0) then
         cur ← in_fs (in_threads get_curid);
         in_fs (in_kern (in_vm (pt_copyout kern_buf cur user_buf size_read))) ;; mret tt
       else mret tt) ;;
      buf_lock_release ;;
      mret (set_result tf E_SUCC (u32 size_read)).

Definition sys_write (tf : tf_t) : S tf_t :=
  pid ← in_fs (in_threads get_curid);
  buf_lock_acquire ;;
  let fd := s32 (syscall_get_arg2 tf) in
  let user_buf := syscall_get_arg3 tf in
  let n := syscall_get_arg4 tf in
  if decide (bad_fd fd) then
    buf_lock_release ;; mret (set_result tf E_BADF (u32 (-1)))
  else if decide (bad_user user_buf n) then
    buf_lock_release ;; mret (set_result tf E_INVAL_ADDR (u32 (-1)))
  else
    fp ← in_fs (fd_file pid fd);
    if decide (fp = PNull) then
      buf_lock_release ;; mret (set_result tf E_BADF (u32 (-1)))
    else
      in_fs (in_kern (in_vm (pt_copyin pid user_buf kern_buf n))) ;;
      size_write ← in_fs (file_write fp kern_buf n);
      buf_lock_release ;;
      mret (set_result tf E_SUCC (u32 size_write)).

Definition sys_close (tf : tf_t) : F tf_t :=
  pid ← in_threads get_curid;
  let fd := syscall_get_arg2 tf in
  if decide (bad_fd fd) then mret (set_result tf E_BADF (u32 (-1)))
  else
    fp ← in_threads (tcb_get_openfiles pid fd);
    if decide (fp = PNull) then mret (set_result tf E_BADF (u32 (-1)))
    else
      file_close fp ;;
      in_threads (tcb_set_openfiles pid fd PNull) ;;
      mret (set_result tf E_SUCC 0).

Definition sizeof_file_stat : Z := 20.
(** [struct file_stat] in memory: type, dev, ino, nlink, size, with padding *)
Definition store_stat (a : Z) (st : file_stat_t) (m : mem) : mem :=
  store_bytes (a + 16) (word_bytes (st_size st)) (store_bytes (a + 12) (half_bytes (u16 (st_nlink st)))
    (store_bytes (a + 8) (word_bytes (st_ino st)) (store_bytes (a + 4) (word_bytes (st_dev st))
      (store_bytes a (half_bytes (u16 (st_type st))) m)))).

Definition sys_fstat (tf : tf_t) : F tf_t :=
  let fd := s32 (syscall_get_arg2 tf) in
  let user_stp := syscall_get_arg3 tf in
  if decide (bad_fd fd \/ user_stp < VM_USERLO \/ u32 (user_stp + sizeof_file_stat) > VM_USERHI)
  then mret (set_result tf E_BADF (u32 (-1)))
  else
    pid ← in_threads get_curid;
    fp ← in_threads (tcb_get_openfiles pid fd);
    if decide (fp = PNull) then mret (set_result tf E_BADF (u32 (-1)))
    else
      in_kern (in_vm (pt_copyin pid user_stp (lo_stat lo) sizeof_file_stat)) ;;
      r ← file_stat fp;
      (match r.2 with Some st => mem_mod (store_stat (lo_stat lo) st) | None => mret tt end) ;;
      mret (set_result tf (if decide (r.1 = 0) then E_SUCC else E_BADF) (u32 r.1)).

(** A path of the caller, cut to 127 bytes and terminated *)
Definition copy_path (uva len dst : Z) : F unit :=
  let len := if decide (len < 128) then len else 127 in
  pid ← in_threads get_curid;
  in_kern (in_vm (pt_copyin pid uva dst len)) ;;
  mem_mod (<[dst + len := 0]>).

Definition link_bad (ip : ptr) (tf : tf_t) : F tf_t :=
  inode_lock ip ;;
  ino_write ip (fun x => set_i_nlink (s16 (i_nlink x - 1)) x) ;;
  inode_update ip ;;
  inode_unlockput ip ;;
  commit_trans ;;
  mret (syscall_set_errno tf E_DISK_OP).

Definition sys_link (tf : tf_t) : F tf_t :=
  let old := lo_path lo in
  let new := lo_new lo in
  let name := lo_name lo in
  copy_path (syscall_get_arg2 tf) (syscall_get_arg4 tf) old ;;
  copy_path (syscall_get_arg3 tf) (syscall_get_arg5 tf) new ;;
  ip ← namei old;
  if decide (ip = PNull) then mret (syscall_set_errno tf E_NEXIST)
  else
    begin_trans ;;
    inode_lock ip ;;
    t ← ino_read ip i_type;
    if decide (t = T_DIR) then
      inode_unlockput ip ;;
      commit_trans ;;
      mret (syscall_set_errno tf E_DISK_OP)
    else
      ino_write ip (fun x => set_i_nlink (s16 (i_nlink x + 1)) x) ;;
      inode_update ip ;;
      inode_unlock ip ;;
      dp ← nameiparent new name;
      if decide (dp = PNull) then link_bad ip tf
      else
        inode_lock dp ;;
        ddev ← ino_read dp i_dev;
        idev ← ino_read ip i_dev;
        bad ← (if decide (ddev <> idev) then mret true
               else
                 inum ← ino_read ip i_inum;
                 r ← dir_link dp name inum;
                 mret (bool_decide (r < 0)));
        if bad : bool then
          inode_unlockput dp ;;
          link_bad ip tf
        else
          inode_unlockput dp ;;
          inode_put ip ;;
          commit_trans ;;
          mret (syscall_set_errno tf E_SUCC).

Definition unlink_bad (dp : ptr) (tf : tf_t) : F tf_t :=
  inode_unlockput dp ;;
  commit_trans ;;
  mret (syscall_set_errno tf E_DISK_OP).

Definition sys_unlink (tf : tf_t) : F tf_t :=
  let path := lo_path lo in
  let name := lo_name lo in
  let de := lo_unlink_de lo in
  copy_path (syscall_get_arg2 tf) (syscall_get_arg3 tf) path ;;
  dp ← nameiparent path name;
  if decide (dp = PNull) then mret (syscall_set_errno tf E_DISK_OP)
  else
    begin_trans ;;
    inode_lock dp ;;
    c1 ← dir_namecmp name (lo_dot lo);
    c2 ← dir_namecmp name (lo_dotdot lo);
    if decide (c1 = 0 \/ c2 = 0) then unlink_bad dp tf
    else
      r ← dir_lookup dp name;
      let ip := r.1 : ptr in
      let off := r.2 : Z in
      if decide (ip = PNull) then unlink_bad dp tf
      else
        inode_lock ip ;;
        nlink ← ino_read ip i_nlink;
        if decide (nlink < 1) then panic "unlink: nlink < 1"
        else
          t ← ino_read ip i_type;
          full ← (if decide (t = T_DIR) then e ← isdirempty lo ip; mret (bool_decide (e = 0)) else mret false);
          if full : bool then
            inode_unlockput ip ;;
            unlink_bad dp tf
          else
            mem_mod (memset de 0 sizeof_dirent) ;;
            n ← inode_write dp de off sizeof_dirent;
            if decide (n <> sizeof_dirent) then panic "unlink: writei"
            else
              t ← ino_read ip i_type;
              (if decide (t = T_DIR) then
                 ino_write dp (fun x => set_i_nlink (s16 (i_nlink x - 1)) x) ;;
                 inode_update dp
               else mret tt) ;;
              inode_unlockput dp ;;
              ino_write ip (fun x => set_i_nlink (s16 (i_nlink x - 1)) x) ;;
              inode_update ip ;;
              inode_unlockput ip ;;
              commit_trans ;;
              mret (syscall_set_errno tf E_SUCC).

(** The second half of [sys_open]: a file structure and a descriptor for the
    locked inode [ip] *)
Definition open_fd (ip : ptr) (omode : Z) (tf : tf_t) : F tf_t :=
  f ← file_alloc;
  fd ← (if decide (f = PNull) then mret (-1) else fdalloc f);
  if decide (f = PNull \/ fd < 0) then
    (if decide (f <> PNull) then file_close f else mret tt) ;;
    inode_unlockput ip ;;
    mret (set_result tf E_DISK_OP (u32 (-1)))
  else
    inode_unlock ip ;;
    fl_write f (fun x => mk_file FD_INODE (fl_ref x)
      (if decide (Z.land omode O_WRONLY = 0) then 1 else 0)
      (if decide (Z.land omode O_WRONLY <> 0 \/ Z.land omode O_RDWR <> 0) then 1 else 0) ip 0) ;;
    mret (set_result tf E_SUCC fd).

Definition sys_open (tf : tf_t) : S tf_t :=
  first ← gets sf_first;
  (if first : bool then modify (set_sf_first false) ;; in_fs log_init else mret tt) ;;
  let path := lo_path lo in
  in_fs (copy_path (syscall_get_arg2 tf) (syscall_get_arg4 tf) path) ;;
  let omode := s32 (syscall_get_arg3 tf) in
  in_fs (
    if decide (Z.land omode O_CREATE <> 0) then
      begin_trans ;;
      ip ← create lo path T_FILE 0 0;
      commit_trans ;;
      if decide (ip = PNull) then mret (set_result tf E_CREATE (u32 (-1)))
      else open_fd ip omode tf
    else
      ip ← namei path;
      if decide (ip = PNull) then mret (set_result tf E_NEXIST (u32 (-1)))
      else
        inode_lock ip ;;
        t ← ino_read ip i_type;
        if decide (t = T_DIR /\ omode <> O_RDONLY) then
          inode_unlockput ip ;;
          mret (set_result tf E_DISK_OP (u32 (-1)))
        else open_fd ip omode tf).

Definition sys_mkdir (tf : tf_t) : F tf_t :=
  let path := lo_path lo in
  copy_path (syscall_get_arg2 tf) (syscall_get_arg3 tf) path ;;
  begin_trans ;;
  ip ← create lo path T_DIR 0 0;
  if decide (ip = PNull) then
    commit_trans ;;
    mret (syscall_set_errno tf E_DISK_OP)
  else
    inode_unlockput ip ;;
    commit_trans ;;
    mret (syscall_set_errno tf E_SUCC).

Definition sys_chdir (tf : tf_t) : F tf_t :=
  pid ← in_threads get_curid;
  let path := lo_path lo in
  copy_path (syscall_get_arg2 tf) (syscall_get_arg3 tf) path ;;
  ip ← namei path;
  if decide (ip = PNull) then mret (syscall_set_errno tf E_DISK_OP)
  else
    inode_lock ip ;;
    t ← ino_read ip i_type;
    if decide (t <> T_DIR) then
      inode_unlockput ip ;;
      mret (syscall_set_errno tf E_DISK_OP)
    else
      inode_unlock ip ;;
      cwd ← in_threads (tcb_get_cwd pid);
      inode_put cwd ;;
      in_threads (tcb_set_cwd pid ip) ;;
      mret (syscall_set_errno tf E_SUCC).

(** ** TSyscall.c *)
Definition sys_is_dir (tf : tf_t) : F tf_t :=
  let fd := s32 (syscall_get_arg2 tf) in
  pid ← in_threads get_curid;
  fp ← fd_file pid fd;
  if decide (fp = PNull) then mret (set_result tf E_BADF (u32 (-1)))
  else
    ip ← fl_read fp fl_ip;
    t ← ino_read ip i_type;
    mret (set_result tf E_SUCC (if decide (t = T_DIR) then 1 else 0)).

(** One entry: its name is appended to the buffer with a blank behind it. *)
Fixpoint ls_loop (offs : list Z) (dp : ptr) (buf_p : Z) : F Z :=
  match offs with
  | [] => mret buf_p
  | off :: offs =>
      n ← inode_read dp (lo_ls_de lo) off sizeof_dirent;
      if decide (n <> sizeof_dirent) then inode_unlock dp ;; panic "wrong in dir_lookup"
      else
        inum ← mem_half (lo_ls_de lo);
        if decide (inum = 0) then ls_loop offs dp buf_p
        else
          k ← gets (fun s => strnlen (lo_ls_de lo + 2) (Z.to_nat PAGESIZE) (fk_mem (kern s)));
          mem_mod (strncpy buf_p (lo_ls_de lo + 2) (Z.to_nat k)) ;;
          k ← gets (fun s => strnlen (lo_ls_de lo + 2) (Z.to_nat PAGESIZE) (fk_mem (kern s)));
          mem_mod (<[buf_p + k := 32]>) ;;
          ls_loop offs dp (buf_p + k + 1)
  end.

Definition sys_ls (tf : tf_t) : F tf_t :=
  let user_buf_addr := syscall_get_arg2 tf in
  let buf_len := s32 (syscall_get_arg3 tf) in
  cur_pid ← in_threads get_curid;
  check_index NUM_IDS cur_pid ;;
  dp ← in_threads (tcb_get_cwd cur_pid);
  dp ← (if decide (dp = PNull) then
          dp ← inode_get ROOTDEV ROOTINO;
          in_threads (tcb_set_cwd cur_pid dp) ;;
          mret dp
        else mret dp);
  inode_lock dp ;;
  size ← ino_read dp i_size;
  buf_p ← ls_loop (dir_offs 0 size) dp (sys_buf cur_pid);
  inode_unlock dp ;;
  mem_mod (<[buf_p - 1 := 0]>) ;;
  let len := if decide (buf_p - sys_buf cur_pid < buf_len) then buf_p - sys_buf cur_pid else buf_len in
  in_kern (in_vm (pt_copyout (sys_buf cur_pid) cur_pid user_buf_addr (u32 len))) ;;
  mret (set_result tf E_SUCC (u32 len)).
End Handlers.
