(* ===== verification/SysFileSpec.v ===== *)
(** * File system calls: theorems

    Bytes a process writes with [sys_write] come back to it with [sys_read]: the
    copies between user and kernel memory, the file layer and the two calls
    composed.  The kernel under the file system is pinned: while the file system
    works, the running process, its open files and the page tables stay. *)

From S2P Require Import Prelude DList Machine Thread Scheduler WaitObj WaitSys PMM KString Bytes Printfmt Pmap Elf Ipc Syscall FsData BufCache FsLog Block Inode InodeData InodeDisk Dir File FileSpec SysFile.

(** ** Changing the kernel under the file system *)

(** The file system on another kernel *)
Definition rekern {T1 T2} (k : T2) (s : fsys T1) : fsys T2 :=
  mk_fsys (bc_lock s) (bufs s) (ide_lk s) (idequeue s) (havedisk1 s) (ide_fault s) (disk s) (past s) (log s)
    (ic_lock s) (inodes s) (ft_lock s) (files s) k.

(** What is known of an open file does not depend on the kernel. *)
Lemma ready_rekern {T1 T2} `{!FsKernel T1} `{!FsKernel T2} (L1 : FsKernelLaws T1) (L2 : FsKernelLaws T2)
    fsz nino st sz (s : fsys T1) B i fi off (k : T2) :
  ready fsz nino st sz s B i fi off -> fk_inv k -> ready fsz nino st sz (rekern k s) B i fi off.
Proof.
  intros [(Hl & dk & C & [] & Hh & HV) G [] Ho Hi Hf Hb] Hk. split; try done.
  split; [done|]. exists dk. destruct C as [[] ? ? ? ? ? ? ? ? ? ? ? ?]. split_and!; try done; by split.
Qed.

Section Pinned.
Context {V : Type} `{!VmmOps V}.
Implicit Types k : kst V.

(** Thread [pid] runs, and the open files and the page tables are those of [k0]. *)
Record pinned (k0 : kst V) (pid : Z) k : Prop := {
  pn_run : exists a, sched_abs (k_thr k) a /\ a_cur a = pid;
  pn_files p : tcb_openfiles (TCBPool (k_thr k) !!! p) = tcb_openfiles (TCBPool (k_thr k0) !!! p);
  pn_vm : (k_vm k).1 = (k_vm k0).1;
}.

(** The interface [FsKernelLaws] with this invariant, stronger than the one of
    [kst_kernel_laws] *)
Definition pinned_laws (k0 : kst V) (pid : Z) : FsKernelLaws (kst V).
Proof.
  refine {| fk_inv := pinned k0 pid |}.
  - intros k [(a & Ha & _) _ _]. exact (so_magic _ a Ha).
  - intros ch k [(a & Ha & Hc) Ho Hv]. destruct (thread_wakeup_sim (k_thr k) a ch Ha) as (t & E & Ha' & F & _).
    exists (set_k_thr t k). split; [by apply in_thr_ok|]. split; [|done]. split; [by exists (a_wakeup ch a)| |done].
    intros p. cbn. rewrite (proj1 (sf_tcb _ _ F p)). apply Ho.
  - done.
  - intros m k []. by split.
Defined.

(** [file_write] and [file_read] under the system calls *)
Section Transfer.
Context (fsz nino st sz : Z) (Hone : fsz <= BPB).
Implicit Types s : fsys (kst V).
Notation ready := (ready fsz nino st sz).

Lemma ready_pin s B i fi off k0 pid :
  ready s B i fi off -> pinned k0 pid (kern s) -> @FileSpec.ready _ _ (pinned_laws k0 pid) fsz nino st sz s B i fi off.
Proof. intros R P. destruct s. exact (ready_rekern _ (pinned_laws k0 pid) _ _ _ _ _ _ _ _ _ _ R P). Qed.
Lemma ready_unpin s B i fi off k0 pid :
  @FileSpec.ready _ _ (pinned_laws k0 pid) fsz nino st sz s B i fi off -> pinned k0 pid (kern s) /\ ready s B i fi off.
Proof.
  intros R. pose proof (irep_kern _ _ _ _ (rd_irep _ _ _ _ _ _ _ _ _ R)) as P. split; [exact P|].
  destruct P as [(a & Ha & _) _ _]. destruct s. apply (ready_rekern _ kst_kernel_laws _ _ _ _ _ _ _ _ _ _ R). by exists a.
Qed.

Lemma file_write_pinned s B i fi off addr n pid :
  ready s B i fi off -> opened s fi i -> fl_writable (files s !!! fi) <> 0 -> pinned (kern s) pid (kern s) ->
  0 <= n -> off + n <= 140 * BSIZE -> avail fsz nino st B (need n) ->
  exists s' B', file_write (PFile fi) addr n s = Ok (n, s') /\ ready s' B' i fi (off + n) /\ wframe i fi s s'
    /\ FileSpec.written fsz nino st sz off n (fun j => fk_mem (kern s) !!! (addr + j)) B (inodes s !!! i) B' (inodes s' !!! i)
    /\ pinned (kern s) pid (kern s').
Proof.
  intros R Ho Hw P Hn Hm Ha.
  destruct (@file_write_spec _ _ (pinned_laws (kern s) pid) fsz nino st sz Hone s B i fi off addr n (ready_pin _ _ _ _ _ _ _ R P) Ho Hw Hn Hm Ha)
    as (s' & B' & _ & E & R' & F & W & _). apply ready_unpin in R' as [P' R']. by exists s', B'.
Qed.

Lemma file_read_pinned s B i fi off dst n pid (r := Z.min n (i_size (inodes s !!! i) - off)) :
  ready s B i fi off -> opened s fi i -> fl_readable (files s !!! fi) <> 0 -> pinned (kern s) pid (kern s) -> 0 <= n < 2 ^ 31 ->
  exists s', file_read (PFile fi) dst n s = Ok (r, s') /\ ready s' B i fi (off + r)
    /\ patched (fk_mem (kern s)) (fk_mem (kern s')) dst r (fun j => fbyte B (i_addrs (inodes s !!! i)) (off + j))
    /\ pinned (kern s) pid (kern s').
Proof.
  intros R Ho Hr P Hn.
  destruct (@file_read_spec _ _ (pinned_laws (kern s) pid) fsz nino st sz s B i fi off dst n (ready_pin _ _ _ _ _ _ _ R P) Ho Hr Hn)
    as (s' & E & R' & _ & W). apply ready_unpin in R' as [P' R']. by exists s'.
Qed.
End Transfer.
End Pinned.

(** ** The handlers *)
Section Entry.
Context {V : Type} `{!VmmOps V} (pid : Z).
Implicit Types s : sfs V.
Notation kernel s := (kern (sf_fs s)).

(** Process [pid] is running, and nobody else is in a system call on files. *)
Record calling s : Prop := {
  sv_lock : lock (sf_buf_lock s) = 0;
  sv_run : exists a, sched_abs (k_thr (kernel s)) a /\ a_cur a = pid;
}.

(** Reading the tables of the threads leaves the file system as it is. *)
Lemma in_threads_same {X} (m : M thr X) (f : fsys (kst V)) x :
  m (k_thr (kern f)) = Ok (x, k_thr (kern f)) -> in_threads m f = Ok (x, f).
Proof. intros E. unfold in_threads. erewrite zoom_ok by exact E. by destruct f as [? ? ? ? ? ? ? ? ? ? ? ? ? [[] ? ? ? ? ? ?]]. Qed.
Lemma in_fs_same {X} (m : M (fsys (kst V)) X) s x : m (sf_fs s) = Ok (x, sf_fs s) -> in_fs m s = Ok (x, s).
Proof. intros E. unfold in_fs. erewrite zoom_ok by exact E. by destruct s. Qed.

Lemma curid_step s l : calling s -> in_fs (in_threads get_curid) (set_sf_buf_lock l s) = Ok (pid, set_sf_buf_lock l s).
Proof. intros [_ (a & Ha & <-)]. by apply in_fs_same, in_threads_same, get_curid_abs. Qed.

Lemma acquire_step s : calling s -> buf_lock_acquire s = Ok (tt, set_sf_buf_lock (held_lock (cur_kstack (k_thr (kernel s)))) s).
Proof.
  intros [Hl (a & Ha & _)]. unfold buf_lock_acquire. apply (zoom_ok sf_buf_lock), spinlock_acquire_free; [done|]. exact (so_magic _ a Ha).
Qed.

Lemma entry_step s l fd : calling s -> 0 <= fd < NOFILE ->
  in_threads (tcb_get_openfiles pid fd) (sf_fs (set_sf_buf_lock l s))
    = Ok (tcb_openfiles (TCBPool (k_thr (kernel s)) !!! pid) !!! fd, sf_fs s).
Proof.
  intros [_ (a & Ha & Hc)] Hr. pose proof (sc_cur_range _ _ (proj1 Ha)) as Hp. rewrite Hc in Hp. apply in_threads_same.
  unfold tcb_get_openfiles. by rewrite (bind_ok _ _ _ _ _ (check_index_ok _ _ _ Hp)), (bind_ok _ _ _ _ _ (check_index_ok _ _ _ Hr)).
Qed.
End Entry.

Section Calls.
Context {V : Type} `{!VmmOps V} `{!VmmLaws V}.
Context (kern_buf : Z) (Hbuf : 0 <= kern_buf /\ kern_buf + sizeof_kern_buf <= VM_USERLO).
Context (pid : Z).
Implicit Types s : sfs V.

Notation kernel s := (kern (sf_fs s)).
Notation vm s := (k_vm (kernel s)).1.
Notation ram s := (k_vm (kernel s)).2.

(** So it is, and it is a user process. *)
Record serving s : Prop := {
  sv_calling : calling pid s;
  sv_pid : 0 < pid < NUM_IDS;
  sv_vm : vm_inv (vm s);
}.

(** Descriptor [fd] of the process is the open file [fi] on inode [i]. *)
Record fd_open s (fd fi i : Z) : Prop := {
  fo_range : 0 <= fd < NOFILE;
  fo_entry : tcb_openfiles (TCBPool (k_thr (kernel s)) !!! pid) !!! fd = PFile fi;
  fo_index : 0 <= fi < NFILE;
  fo_file : opened (sf_fs s) fi i;
}.

(** A system call with descriptor [fd] and a user buffer at [ua] of [n] bytes
    that the process has mapped *)
Record call_args s (tf : tf_t) (fd ua n : Z) : Prop := {
  ca_fd : s32 (syscall_get_arg2 tf) = fd;
  ca_ua : syscall_get_arg3 tf = ua;
  ca_n : syscall_get_arg4 tf = n;
  ca_range : 0 <= n <= sizeof_kern_buf /\ VM_USERLO <= ua /\ ua + n <= VM_USERHI;
  ca_mapped j : 0 <= j < n -> present pid (ua + j) (vm s);
}.

(** Mapped pages stay where they are. *)
Definition maps_kept s s' : Prop :=
  forall p va, present p va (vm s) -> present p va (vm s') /\ phys p va (vm s') = phys p va (vm s).

(** The second call finds what the first one left. *)
Lemma call_args_kept s s' tf fd ua n : maps_kept s s' -> call_args s tf fd ua n -> call_args s' tf fd ua n.
Proof. intros K []. split; try done. intros j Hj. apply K. auto. Qed.
Lemma fd_open_kept s s' fd fi i :
  (forall p, tcb_openfiles (TCBPool (k_thr (kernel s')) !!! p) = tcb_openfiles (TCBPool (k_thr (kernel s)) !!! p)) ->
  files (sf_fs s') !!! fi = files (sf_fs s) !!! fi -> fd_open s fd fi i -> fd_open s' fd fi i.
Proof. intros Ho Hf [Hr He Hi [Ht Hip]]. split; try done; [by rewrite Ho|]. by split; rewrite Hf. Qed.

Lemma serving_pinned s : serving s -> pinned (kernel s) pid (kernel s).
Proof. intros [[]]. by split. Qed.

Lemma fd_step s l fd fi i : serving s -> fd_open s fd fi i -> in_fs (fd_file pid fd) (set_sf_buf_lock l s) = Ok (PFile fi, set_sf_buf_lock l s).
Proof.
  intros S [Hr He Hi [_ Ho]]. apply in_fs_same. unfold fd_file. rewrite (bind_ok _ _ _ _ _ (entry_step pid s l fd (sv_calling s S) Hr)), He.
  rewrite decide_False by done. erewrite bind_ok; [|by apply fl_read_ok]. by rewrite Ho, decide_False.
Qed.

Lemma no_bad_fd fd : 0 <= fd < NOFILE -> ~ bad_fd fd.
Proof. unfold bad_fd. lia. Qed.
Lemma no_bad_user ua n : 0 <= n <= sizeof_kern_buf /\ VM_USERLO <= ua /\ ua + n <= VM_USERHI -> ~ bad_user ua n.
Proof. unfold bad_user, VM_USERLO, VM_USERHI. intros. rewrite u32_id by (unfold W32; lia). lia. Qed.

(** A step on the page tables and memory *)
Definition put_vm (w : V * mem) s : sfs V := set_sf_fs (set_kern (set_k_vm w (kernel s)) (sf_fs s)) s.
Lemma vm_step {X} (m : M (V * mem) X) s l x w :
  m (vm s, ram s) = Ok (x, w) -> in_fs (in_kern (in_vm m)) (set_sf_buf_lock l s) = Ok (x, set_sf_buf_lock l (put_vm w s)).
Proof.
  intros E. unfold in_fs, in_kern, in_vm. erewrite zoom_ok; [reflexivity|]. erewrite zoom_ok; [reflexivity|].
  apply zoom_ok. rewrite <- E. by destruct s as [[] ? ?], kern as [? ? [] ? ? ? ?].
Qed.

(** The copy of the user's bytes into [kern_buf] *)
Lemma copyin_step s l ua n :
  serving s -> 0 <= n <= sizeof_kern_buf /\ VM_USERLO <= ua /\ ua + n <= VM_USERHI -> (forall j, 0 <= j < n -> present pid (ua + j) (vm s)) ->
  exists v m, in_fs (in_kern (in_vm (pt_copyin pid ua kern_buf n))) (set_sf_buf_lock l s)
      = Ok (n, set_sf_buf_lock l (put_vm (v, m) s))
    /\ vm_inv v /\ (forall p va, present p va (vm s) -> present p va v /\ phys p va v = phys p va (vm s))
    /\ (forall j, 0 <= j < n -> m !!! (kern_buf + j) = ram s !!! phys pid (ua + j) (vm s))
    /\ (forall p va, present p va (vm s) -> m !!! phys p va (vm s) = ram s !!! phys p va (vm s)).
Proof.
  intros [_ Hpid Hv] (Hn & Hlo & Hhi) Hp.
  destruct (pt_copyin_spec pid ua kern_buf n (vm s) (ram s)) as (v & m & E & Hv' & K & R); try done; [lia..|].
  exists v, m. split; [by apply vm_step|].
  split; [done|]. split; [intros p va Hp'; split; [by eapply kept_present|by eapply kept_phys]|].
  destruct R as (R1 & _ & R3); [intros j Hj; eapply kept_present; eauto|].
  split; [|done]. intros j Hj. rewrite R1 by done. rewrite (kept_phys _ _ _ _ _ _ _ K) by auto. apply R3. auto.
Qed.

(** The copy of [kern_buf] to the user *)
Lemma copyout_step s l ua n :
  serving s -> 0 <= n <= sizeof_kern_buf /\ VM_USERLO <= ua /\ ua + n <= VM_USERHI -> (forall j, 0 <= j < n -> present pid (ua + j) (vm s)) ->
  exists v m, in_fs (in_kern (in_vm (pt_copyout kern_buf pid ua n))) (set_sf_buf_lock l s)
      = Ok (n, set_sf_buf_lock l (put_vm (v, m) s))
    /\ vm_inv v /\ (forall p va, present p va (vm s) -> present p va v /\ phys p va v = phys p va (vm s))
    /\ (forall j, 0 <= j < n -> m !!! phys pid (ua + j) (vm s) = ram s !!! (kern_buf + j))
    /\ (forall p va, present p va (vm s) -> ~ (p = pid /\ ua <= va < ua + n) -> m !!! phys p va (vm s) = ram s !!! phys p va (vm s)).
Proof.
  intros [_ Hpid Hv] (Hn & Hlo & Hhi) Hp.
  destruct (pt_copyout_spec kern_buf pid ua n (vm s) (ram s)) as (v & m & E & Hv' & K & R); try done; [lia..|].
  exists v, m. split; [by apply vm_step|].
  split; [done|]. split; [intros p va Hp'; split; [by eapply kept_present|by eapply kept_phys]|].
  destruct R as (R1 & _ & R3); [intros j Hj; eapply kept_present; eauto|].
  split; [|done]. intros j Hj. rewrite <- R1 by done. by rewrite (kept_phys _ _ _ _ _ _ _ K) by auto.
Qed.
(** *** sys_write and sys_read *)
Lemma ready_again fsz nino st sz (f : fsys (kst V)) B i fi fj off off2 :
  FileSpec.ready fsz nino st sz f B i fi off -> 0 <= fj < NFILE -> fl_off (files f !!! fj) = off2 -> 0 <= off2 <= i_size (inodes f !!! i) ->
  FileSpec.ready fsz nino st sz f B i fj off2.
Proof. by intros []; split. Qed.
Context (fsz nino st sz : Z) (Hone : fsz <= BPB).
Notation ready := (ready fsz nino st sz).

Lemma ready_put_vm w s B i fi off : ready (sf_fs s) B i fi off -> ready (sf_fs (put_vm w s)) B i fi off.
Proof.
  intros R. apply (ready_rekern kst_kernel_laws kst_kernel_laws _ _ _ _ _ _ _ _ _ _ R).
  exact (irep_kern _ _ _ _ (rd_irep _ _ _ _ _ _ _ _ _ R)).
Qed.

Lemma sys_write_spec s tf fd fi i B off ua n (x := inodes (sf_fs s) !!! i) :
  serving s -> fd_open s fd fi i -> call_args s tf fd ua n -> ready (sf_fs s) B i fi off ->
  fl_writable (files (sf_fs s) !!! fi) <> 0 -> off + n <= 140 * BSIZE -> avail fsz nino st B (need n) ->
  exists s' B', sys_write kern_buf tf s = Ok (set_result tf E_SUCC n, s') /\ serving s' /\ ready (sf_fs s') B' i fi (off + n)
    /\ FileSpec.written fsz nino st sz off n (fun j => ram s !!! phys pid (ua + j) (vm s)) B x B' (inodes (sf_fs s') !!! i)
    /\ (forall j, j <> fi -> files (sf_fs s') !!! j = files (sf_fs s) !!! j)
    /\ (forall p, tcb_openfiles (TCBPool (k_thr (kernel s')) !!! p) = tcb_openfiles (TCBPool (k_thr (kernel s)) !!! p))
    /\ maps_kept s s' /\ (forall p va, present p va (vm s) -> ram s' !!! phys p va (vm s') = ram s !!! phys p va (vm s)).
Proof.
  intros S Fd [Ef Eu En Hr Hm] R Hw Hmax Hav. unfold sys_write.
  erewrite bind_ok by (destruct s; exact (curid_step _ _ _ (sv_calling _ S))). rewrite (bind_ok _ _ _ _ _ (acquire_step pid s (sv_calling s S))).
  rewrite Ef, Eu, En. rewrite decide_False by apply no_bad_fd, Fd. rewrite decide_False by (by apply no_bad_user).
  rewrite (bind_ok _ _ _ _ _ (fd_step s _ fd fi i S Fd)). rewrite decide_False by done.
  destruct (copyin_step s (held_lock (cur_kstack (k_thr (kernel s)))) ua n S Hr Hm) as (v & m & E & Hv & K & Hd & Hu).
  rewrite (bind_ok _ _ _ _ _ E). clear E.
  destruct (file_write_pinned fsz nino st sz Hone (sf_fs (put_vm (v, m) s)) B i fi off kern_buf n pid) as (f & B' & E & R' & F & W & P);
    [by apply ready_put_vm|destruct (fo_file _ _ _ _ Fd); by split|done|destruct S as [[]]; by split|lia|done|done|].
  erewrite bind_ok by (unfold in_fs; eapply zoom_ok; exact E). clear E.
  rewrite u32_id by (unfold sizeof_kern_buf, W32 in *; lia).
  eexists _, B'. split; [reflexivity|]. cbn [sf_fs set_sf_fs set_sf_buf_lock].
  destruct P as [Hrun Ho Hvm]. cbn in Hvm. pose proof (wf_mem _ _ _ _ F) as Hmem. cbn in Hmem.
  split; [split; [by split|apply S|]; cbn; by rewrite Hvm|]. split; [done|].
  split; [by apply (written_fix _ _ _ _ _ _ (fun j => m !!! (kern_buf + j)))|]. split; [apply F|]. split; [exact Ho|].
  split; [unfold maps_kept; cbn; by rewrite Hvm|]. cbn. rewrite Hvm, Hmem. intros p va Hp. rewrite (proj2 (K p va Hp)). by apply Hu.
Qed.

Lemma ram_outside (m m' : mem) v r (g : Z -> Z) p va :
  patched m m' kern_buf r g -> r <= sizeof_kern_buf -> vm_inv v -> present p va v -> m' !!! phys p va v = m !!! phys p va v.
Proof. intros Pt Hr Hv Hp. rewrite (Pt _). pose proof (frames_user v p va Hv Hp). by rewrite decide_False by lia. Qed.

(** The end of sys_read: what was read goes to the user. *)
Lemma deliver_step s l ua n :
  serving s -> 0 <= n <= sizeof_kern_buf /\ VM_USERLO <= ua /\ ua + n <= VM_USERHI -> (forall j, 0 <= j < n -> present pid (ua + j) (vm s)) ->
  exists w s', s' = put_vm w s /\ serving s' /\ maps_kept s s'
    /\ (if decide (n > 0) then
          cur ← in_fs (in_threads get_curid);
          in_fs (in_kern (in_vm (pt_copyout kern_buf cur ua n))) ;; mret tt
        else mret tt) (set_sf_buf_lock l s) = Ok (tt, set_sf_buf_lock l s')
    /\ (forall j, 0 <= j < n -> ram s' !!! phys pid (ua + j) (vm s) = ram s !!! (kern_buf + j))
    /\ (forall p va, present p va (vm s) -> ~ (p = pid /\ ua <= va < ua + n) -> ram s' !!! phys p va (vm s) = ram s !!! phys p va (vm s)).
Proof.
  intros S Hr Hm. destruct (decide (n > 0)) as [Hp|Hz].
  - rewrite (bind_ok _ _ _ _ _ (curid_step pid s l (sv_calling s S))). destruct (copyout_step s l ua n S Hr Hm) as (v & m & E & Hv & K & Hd & Hu).
    rewrite (bind_ok _ _ _ _ _ E). exists (v, m), (put_vm (v, m) s). destruct S as [[]]. split_and!; try done.
  - exists (vm s, ram s), s. split_and!; try done; [by destruct s as [[] ? ?], kern as [? ? [] ? ? ? ?]|intros j Hj; lia].
Qed.

Lemma sys_read_spec s tf fd fi i B off ua n (x := inodes (sf_fs s) !!! i) (r := Z.min n (i_size x - off)) :
  serving s -> fd_open s fd fi i -> call_args s tf fd ua n -> ready (sf_fs s) B i fi off ->
  fl_readable (files (sf_fs s) !!! fi) <> 0 ->
  exists s', sys_read kern_buf tf s = Ok (set_result tf E_SUCC r, s') /\ serving s' /\ ready (sf_fs s') B i fi (off + r)
    /\ maps_kept s s'
    /\ (forall j, 0 <= j < r -> ram s' !!! phys pid (ua + j) (vm s') = fbyte B (i_addrs x) (off + j))
    /\ (forall p va, present p va (vm s) -> ~ (p = pid /\ ua <= va < ua + r) -> ram s' !!! phys p va (vm s') = ram s !!! phys p va (vm s)).
Proof.
  intros S Fd [Ef Eu En Hr Hm] R Hw. unfold sys_read. pose proof (rd_bound _ _ _ _ _ _ _ _ _ R) as Hb. fold x in Hb.
  erewrite bind_ok by (destruct s; exact (curid_step _ _ _ (sv_calling _ S))). rewrite (bind_ok _ _ _ _ _ (acquire_step pid s (sv_calling s S))).
  rewrite Ef, Eu, En. rewrite decide_False by apply no_bad_fd, Fd. rewrite decide_False by (by apply no_bad_user).
  rewrite (bind_ok _ _ _ _ _ (fd_step s _ fd fi i S Fd)). rewrite decide_False by done. set (l := held_lock _).
  destruct (file_read_pinned fsz nino st sz (sf_fs s) B i fi off kern_buf n pid R (fo_file _ _ _ _ Fd) Hw (serving_pinned s S))
    as (f & E & R' & Pt & P); [unfold sizeof_kern_buf in *; lia|]. fold x in E, R', Pt. fold r in E, R', Pt.
  erewrite bind_ok by (unfold in_fs; eapply zoom_ok; exact E). clear E.
  rewrite (u32_id r) by (unfold r, sizeof_kern_buf, W32 in *; lia).
  set (s1 := set_sf_fs f s). destruct P as [Hrun Ho Hvm]. change (vm s1 = vm s) in Hvm.
  assert (serving s1) as S1 by (split; [split; [apply S|done]|apply S|rewrite Hvm; apply S]).
  change (set_sf_fs f (set_sf_buf_lock l s)) with (set_sf_buf_lock l s1).
  destruct (deliver_step s1 l ua r S1) as (w & s2 & -> & S2 & K & E & Hd & Hu);
    [unfold r; lia|intros j Hj; rewrite Hvm; apply Hm; unfold r in Hj; lia|].
  rewrite (bind_ok _ _ _ _ _ E). clear E. set (s2 := put_vm w s1) in *. exists (set_sf_buf_lock free_lock s2). split; [done|].
  split; [destruct S2 as [[] ? ?]; by split|]. split; [by apply (ready_put_vm w s1)|].
  change (sf_fs (set_sf_buf_lock free_lock s2)) with (sf_fs s2). rewrite Hvm in Hd, Hu.
  assert (maps_kept s s2) as K2 by (intros p va; rewrite <- Hvm; apply K). split; [exact K2|]. split.
  - intros j Hj. rewrite (proj2 (K2 pid (ua + j) ltac:(apply Hm; unfold r in Hj; lia))), Hd by done.
    change (ram s1) with (fk_mem (kern f)). rewrite (Pt (kern_buf + j)), decide_True by lia. f_equal. lia.
  - intros p va Hp Hn. rewrite (proj2 (K2 p va Hp)), Hu by done. apply (ram_outside _ _ _ _ _ _ _ Pt); [unfold r; lia|apply S|done].
Qed.
End Calls.

(** ** Errors: what the calls refuse *)
Section Refused.
Context {V : Type} `{!VmmOps V}.
Context (kern_buf : Z) (pid : Z).

(** The descriptor is closed, or its entry has no inode. *)
Definition closed (s : sfs V) (fd : Z) : Prop :=
  let fp := tcb_openfiles (TCBPool (k_thr (kern (sf_fs s))) !!! pid) !!! fd in
  fp = PNull \/ exists fi, fp = PFile fi /\ 0 <= fi < NFILE /\ fl_ip (files (sf_fs s) !!! fi) = PNull.

(** The error of a call that is refused; the checks are made in this order. *)
Inductive refused (s : sfs V) (tf : tf_t) : Z -> Prop :=
| refused_fd : bad_fd (s32 (syscall_get_arg2 tf)) -> refused s tf E_BADF
| refused_buffer : ~ bad_fd (s32 (syscall_get_arg2 tf)) -> bad_user (syscall_get_arg3 tf) (syscall_get_arg4 tf) ->
    refused s tf E_INVAL_ADDR
| refused_closed : ~ bad_fd (s32 (syscall_get_arg2 tf)) -> ~ bad_user (syscall_get_arg3 tf) (syscall_get_arg4 tf) ->
    closed s (s32 (syscall_get_arg2 tf)) -> refused s tf E_BADF.

Lemma closed_step s l fd : calling pid s -> 0 <= fd < NOFILE -> closed s fd ->
  in_fs (fd_file pid fd) (set_sf_buf_lock l s) = Ok (PNull, set_sf_buf_lock l s).
Proof.
  intros S Hr Hcl. apply in_fs_same. unfold fd_file. rewrite (bind_ok _ _ _ _ _ (entry_step pid s l fd S Hr)).
  destruct Hcl as [->|(fi & -> & Hi & Ho)]; [by rewrite decide_True|].
  rewrite decide_False by done. erewrite bind_ok; [|by apply fl_read_ok]. by rewrite Ho, decide_True.
Qed.

Lemma refused_spec (call : tf_t -> M (sfs V) tf_t) s tf e :
  call = sys_read kern_buf \/ call = sys_write kern_buf -> calling pid s -> refused s tf e ->
  call tf s = Ok (set_result tf e (u32 (-1)), set_sf_buf_lock free_lock s).
Proof.
  intros Hcall S He. assert (forall l, buf_lock_release (set_sf_buf_lock l s) = Ok (tt, set_sf_buf_lock free_lock s)) as Hrel by done.
  destruct Hcall as [->| ->]; [unfold sys_read|unfold sys_write];
    (erewrite bind_ok by (destruct s; exact (curid_step _ _ _ S))); rewrite (bind_ok _ _ _ _ _ (acquire_step pid s S));
    (destruct He as [Hf|Hf Hu|Hf Hu Hc]; [by rewrite decide_True|by rewrite decide_False, decide_True|]);
    rewrite !decide_False by done; (erewrite bind_ok by (apply closed_step; [done|unfold bad_fd in Hf; lia|done]));
    by rewrite decide_True.
Qed.

(** The check of the buffer adds in 32 bits: one that ends behind the address
    space is taken for one that ends in user memory. *)
Lemma wrapped_buffer_accepted : ~ bad_user 0xfffff000 0x2000.
Proof. unfold bad_user. vm_compute. intuition congruence. Qed.
End Refused.

(** ** A process with two open files, to apply the theorems to

    Thread 1 of [WaitProps.demo_sched], with the files of [Opened] as descriptors 0
    (for writing) and 1 (for reading) and one page of memory. *)
Module Process.
Lemma openfile_abs s a p fd f : sched_abs s a -> sched_abs (upd_tcb p (set_openfile fd f) s) a.
Proof.
  intros [[H1 H2 H3 H4 H5 H6 H7] Hl]. split; [|done].
  assert (forall x, tcb_state (TCBPool (upd_tcb p (set_openfile fd f) s) !!! x) = tcb_state (TCBPool s !!! x)
    /\ tcb_channel (TCBPool (upd_tcb p (set_openfile fd f) s) !!! x) = tcb_channel (TCBPool s !!! x)) as E.
  { intros x. unfold upd_tcb, with_TCBPool. cbn. destruct (decide (x = p)) as [->|Hn];
      [by rewrite lookup_total_insert_eq|by rewrite lookup_total_insert_ne]. }
  split; try done.
  - by apply (cpu_ok_ext s).
  - by apply queue_repr_upd.
  - by rewrite (proj1 (E _)).
  - intros x Hx. rewrite (proj1 (E x)). by apply H6.
  - intros x. rewrite H7. unfold chan_of. by rewrite (proj1 (E x)), (proj2 (E x)).
Qed.

Definition user_mem : mem := list_to_map (map (fun k => (0x40000100 + k, k mod 256)) (seqZ 0 100)).
Definition kernel : kst pages :=
  set_k_thr (upd_tcb 1 (set_openfile 1 (PFile 1)) (upd_tcb 1 (set_openfile 0 (PFile 0)) WaitProps.demo_sched))
    (user_kst (SyscallProps.hi_pages, user_mem) no_msgs).
Definition start (s : fsys (thr * mem)) : sfs pages := mk_sfs (rekern kernel (Opened.open ∅ s)) free_lock false.

Lemma serves s : serving 1 (start s).
Proof.
  split; [split; [done|]|unfold NUM_IDS; lia|exact SyscallProps.hi_pages_inv]. exists WaitProps.demo_abs1. split; [|done].
  do 2 apply openfile_abs. exact WaitProps.demo_sched_abs.
Qed.
Lemma mapped va : va / PAGESIZE = 0x40000 -> present 1 va SyscallProps.hi_pages.
Proof.
  intros E. apply (present_same_page 1 0x40000000 va); [exact E|].
  split; [unfold user_va, NUM_IDS, VM_USERLO, VM_USERHI; lia|by vm_compute].
Qed.

Definition args (fd ua n : Z) : tf_t := mk_tf (mk_pushregs 0 0 0 0 fd n ua 0) 0 0 48 0 0x40001000 0 0 0xefffff00 0.
Lemma args_ok s fd ua n : 0 <= fd < NOFILE -> 0x40000000 <= ua -> ua + n <= 0x40001000 -> 0 <= n ->
  call_args 1 (start s) (args fd ua n) fd ua n.
Proof.
  intros Hf Hu He Hn. split; [apply s32_id; unfold NOFILE in *; lia|done|done|unfold sizeof_kern_buf, VM_USERLO, VM_USERHI; lia|].
  intros j Hj. apply mapped. symmetry. unfold PAGESIZE. apply (Z.div_unique _ _ _ (ua + j - 0x40000000)); lia.
Qed.
Lemma files_open s fd : fd = 0 \/ fd = 1 -> fd_open 1 (start s) fd fd 0.
Proof. by intros [-> | ->]; split. Qed.
Lemma files_ready s fd off : irep s 980 20 Sample.V -> fd = 0 /\ off = 3 \/ fd = 1 /\ off = 0 ->
  ready 1000 64 980 20 (sf_fs (start s)) Sample.V 0 fd off.
Proof.
  intros I H. apply (ready_rekern _ kst_kernel_laws _ _ _ _ _ _ _ _ _ _ (Opened.ready_file ∅ s fd off I H)).
  destruct (sv_run _ _ (sv_calling _ _ (serves s))) as (a & Ha & _). by exists a.
Qed.
End Process.

Module SysFileProps.

(** C5 (roundtrip): bytes a process writes to a file come back to it.  A
    user process calls [sys_write] with one descriptor, a buffer of [n] bytes it has
    mapped, and then [sys_read] with another descriptor on the same inode and a
    mapped buffer of [m] bytes.  Both calls succeed, the first returns [n] and
    the second the number of bytes up to the new end of the file or [m].  The
    second buffer, in the physical memory behind the page tables, then holds
    the bytes of the first one as they were before where the ranges of the file
    overlap, and the old contents of the file elsewhere; every other byte of
    every process is unchanged, mapped pages stay where they are, and the lock of
    the calls is free.  The disk has one bitmap block and room for the bytes. *)
Theorem write_then_read_returns_bytes `{!VmmOps V} `{!VmmLaws V} kern_buf pid fsz nino st sz (s : sfs V)
    tf1 fd fi i B off ua n tf2 fd2 fj off2 ua2 m :
  0 <= kern_buf -> kern_buf + sizeof_kern_buf <= VM_USERLO -> fsz <= BPB -> serving pid s ->
  fd_open pid s fd fi i -> call_args pid s tf1 fd ua n -> ready fsz nino st sz (sf_fs s) B i fi off ->
  fl_writable (files (sf_fs s) !!! fi) <> 0 -> off + n <= 140 * BSIZE -> avail fsz nino st B (need n) ->
  fi <> fj -> fd_open pid s fd2 fj i -> call_args pid s tf2 fd2 ua2 m -> ready fsz nino st sz (sf_fs s) B i fj off2 ->
  fl_readable (files (sf_fs s) !!! fj) <> 0 ->
  let user (t : sfs V) p va := (k_vm (kern (sf_fs t))).2 !!! phys p va (k_vm (kern (sf_fs t))).1 in
  let x := inodes (sf_fs s) !!! i in
  let r := Z.min m (Z.max (i_size x) (off + n) - off2) in
  exists s1 s2, sys_write kern_buf tf1 s = Ok (set_result tf1 E_SUCC n, s1)
    /\ sys_read kern_buf tf2 s1 = Ok (set_result tf2 E_SUCC r, s2)
    /\ serving pid s2 /\ maps_kept s s2
    /\ (forall k, 0 <= k < r -> user s2 pid (ua2 + k) =
         if decide (off <= off2 + k < off + n) then user s pid (ua + (off2 + k - off)) else fbyte B (i_addrs x) (off2 + k))
    /\ (forall p va, present p va (k_vm (kern (sf_fs s))).1 -> ~ (p = pid /\ ua2 <= va < ua2 + r) -> user s2 p va = user s p va).
Proof.
  intros Hk0 Hk1 Hone S O1 A1 R1 Hw Hmax Hav Hne O2 A2 R2 Hr user x r.
  destruct (sys_write_spec kern_buf (conj Hk0 Hk1) pid fsz nino st sz Hone s tf1 fd fi i B off ua n S O1 A1 R1 Hw Hmax Hav)
    as (s1 & B1 & E1 & S1 & Q1 & W & Hfl & Ho & K1 & U1).
  pose proof (Hfl fj ltac:(congruence)) as Efj. pose proof (wn_size _ _ _ _ _ _ _ _ _ _ _ W) as Hsz. fold x in Hsz.
  pose proof (rd_bound _ _ _ _ _ _ _ _ _ R2) as Hb2. fold x in Hb2.
  destruct (sys_read_spec kern_buf (conj Hk0 Hk1) pid fsz nino st sz s1 tf2 fd2 fj i B1 off2 ua2 m S1
    (fd_open_kept pid _ _ _ _ _ Ho Efj O2) (call_args_kept pid _ _ _ _ _ _ K1 A2)) as (s2 & E2 & S2 & _ & K2 & D & U2).
  { eapply ready_again; [exact Q1|apply R2|by rewrite Efj, (rd_off _ _ _ _ _ _ _ _ _ R2)|lia]. }
  { by rewrite Efj. }
  rewrite Hsz in *. fold r in E2, D, U2. exists s1, s2. split; [done|]. split; [done|]. split; [done|].
  split; [intros p va Hp; destruct (K1 p va Hp) as [Hp1 Ep1]; rewrite <- Ep1; by apply K2|].
  split; [intros k Hk; unfold user at 1; rewrite D by done|intros p va Hp Hn; unfold user; rewrite U2, U1; try done; by apply K1].
  pose proof (fo_size _ _ _ _ _ (of_ok _ _ _ _ _ (rd_open _ _ _ _ _ _ _ _ _ R1))) as Hszx. fold x in Hszx.
  by rewrite (wn_byte _ _ _ _ _ _ _ _ _ _ _ W) by (unfold r in Hk; lia).
Qed.


(** 100 bytes through the page at 0x40000000 *)
Lemma write_then_read_returns_bytes_witness : exists s s1 s2 : sfs pages,
  sys_write 0x200000 (Process.args 0 0x40000100 100) s = Ok (set_result (Process.args 0 0x40000100 100) E_SUCC 100, s1)
  /\ sys_read 0x200000 (Process.args 1 0x40000400 100) s1 = Ok (set_result (Process.args 1 0x40000400 100) E_SUCC 100, s2).
Proof.
  destruct Sample.started as (s & _ & I). exists (Process.start s).
  destruct (write_then_read_returns_bytes 0x200000 1 1000 64 980 20 (Process.start s)
    (Process.args 0 0x40000100 100) 0 0 0 Sample.V 3 0x40000100 100 (Process.args 1 0x40000400 100) 1 1 0 0x40000400 100)
    as (s1 & s2 & E1 & E2 & _);
    [done|done|done|exact (Process.serves s)|apply Process.files_open; by left|by apply Process.args_ok
    |apply Process.files_ready; [done|by left]|done|done| |done|apply Process.files_open; by right|by apply Process.args_ok
    |apply Process.files_ready; [done|by right]|done|exists s1, s2; exact (conj E1 E2)].
  apply Opened.blocks_free. change (need 100) with 8%nat. lia.
Defined.

End SysFileProps.
