(* ===== verification/SysRest.v ===== *)
(** * sys_pwd, sys_produce and sys_consume of trap/TSyscall

    [sys_produce] and [sys_consume] print five messages with interrupts off and
    leave interrupts on.  [sys_pwd] climbs from the current directory to the root and collects the
    names on the way.  In the root directory it is proved to return, to leave
    one more reference in the inode cache and to hand no byte to the caller. *)

From S2P Require Import Prelude DList Machine Pic Mp Seg Intr Thread Scheduler WaitObj PMM KString Bytes Printfmt Pmap Elf Ipc Syscall FsData BufCache FsLog Block Inode InodeData InodeDisk Dir File FileSpec Icache DirSpec NameSpec SysFile SysFileSpec.

(** ** sys_produce and sys_consume *)
Definition sys_produce (tf : tf_t) : M intrst tf_t :=
  for_each (seqZ 0 5) (fun _ => intr_local_disable ;; intr_local_enable) ;;
  mret (syscall_set_errno tf E_SUCC).
Definition sys_consume (tf : tf_t) : M intrst tf_t :=
  for_each (seqZ 0 5) (fun _ => intr_local_disable ;; intr_local_enable) ;;
  mret (syscall_set_errno tf E_SUCC).

(** System calls are entered through a gate that turns interrupts off; these two
    go back to the dispatcher with interrupts on. *)
Lemma produce_enables_interrupts tf s :
  sys_produce tf s = Ok (syscall_set_errno tf E_SUCC, set_if_flag true s)
  /\ sys_consume tf s = Ok (syscall_set_errno tf E_SUCC, set_if_flag true s).
Proof. by destruct s. Qed.

(** ** sys_pwd *)

(** Every turn of the climb takes a slot of the inode cache and keeps it: after
    [NINODE] turns a directory has come twice, and the climb goes round. *)
Definition pwd_fuel : nat := 51.

Section Pwd.
Context {V : Type} `{!VmmOps V}.
(** [de] of [dir_lookup], [de] and [arr] of [sys_pwd], and the string ".." *)
Context (lookup_de de arr dotdot : Z).
Notation F := (M (fsys (kst V))).
Notation dir_lookup := (dir_lookup lookup_de).

(** [arr[k]] *)
Definition arr_row (k : Z) : Z := arr + 100 * k.

(** The entry of [parent] with the number of [curi]; the result is [len]. *)
Fixpoint pwd_scan (offs : list Z) (parent curi : ptr) (len : Z) : F Z :=
  match offs with
  | [] => mret len
  | off :: offs =>
      n ← inode_read parent de off sizeof_dirent;
      if decide (n <> sizeof_dirent) then mret len
      else
        inum ← mem_half de;
        ci ← ino_read curi i_inum;
        if decide (inum = ci) then
          check_index 100 len ;;
          mem_mod (strncpy (arr_row len) (de + 2) (Z.to_nat DIRSIZ)) ;;
          mem_mod (<[arr_row len + DIRSIZ := 0]>) ;;
          mret (len + 1)
        else pwd_scan offs parent curi len
  end.

Fixpoint pwd_climb (fuel : nat) (parent curi : ptr) (len : Z) : F Z :=
  pi ← ino_read parent i_inum;
  ci ← ino_read curi i_inum;
  if decide (pi = ci) then mret len
  else
    match fuel with
    | O => fail Hang
    | S fuel =>
        size ← ino_read parent i_size;
        len ← pwd_scan (dir_offs 0 size) parent curi len;
        r ← dir_lookup parent dotdot;
        pwd_climb fuel r.1 parent len
    end.

(** The slashes; the names themselves stay in their rows. *)
Fixpoint pwd_join (rows : list Z) (p : Z) : F Z :=
  match rows with
  | [] => mret p
  | i :: rows =>
      k ← gets (fun s => strnlen (arr_row i) 100 (fk_mem (kern s)));
      mem_mod (<[p + k := 47]>) ;;
      pwd_join rows (p + k + 1)
  end.

Definition sys_pwd (tf : tf_t) : F tf_t :=
  pid ← in_threads get_curid;
  curi ← in_threads (tcb_get_cwd pid);
  curi ← (if decide (curi = PNull) then
            curi ← inode_get ROOTDEV ROOTINO;
            pid ← in_threads get_curid;
            in_threads (tcb_set_cwd pid curi) ;;
            mret curi
          else mret curi);
  r ← dir_lookup curi dotdot;
  len ← pwd_climb pwd_fuel r.1 curi 0;
  p ← pwd_join (reverse (seqZ 0 len)) arr;
  mem_mod (<[p := 0]>) ;;
  pid ← in_threads get_curid;
  in_kern (in_vm (pt_copyout arr pid (syscall_get_arg1 tf) (u32 (p - arr + 1)))) ;;
  mret tf.

(** ** In the root directory *)

Lemma copyout_refused kva id uva len (w : V * mem) : uva < VM_USERLO -> pt_copyout kva id uva len w = Ok (0, w).
Proof. intros H. unfold pt_copyout. by rewrite decide_True by lia. Qed.

(** The current directory of process [pid] is slot [i] of the inode cache, a
    directory with [n] entries whose ".." is the directory itself. *)
Record in_root (s : fsys (kst V)) (pid i n : Z) (D : Z -> Z) : Prop := {
  ro_run : pinned (kern s) pid (kern s);
  ro_cwd : tcb_cwd (TCBPool (k_thr (kern s)) !!! pid) = PInode i;
  ro_slot : 0 <= i < NINODE;
  ro_bytes o : 0 <= D o < 256;
  ro_self : exists k, dir_find D n [46; 46] = Some k /\ ent_inum D k = i_inum (inodes s !!! i);
  ro_name : cstr (fk_mem (kern s)) dotdot [46; 46];
  ro_apart : apart dotdot lookup_de;
}.

Lemma sys_pwd_root fsz nino st sz (s : fsys (kst V)) B R pid i n D c tf (L := pinned_laws (kern s) pid)
    (x := inodes s !!! i) :
  in_root s pid i n D -> syscall_get_arg1 tf < VM_USERLO ->
  @irep _ _ L s st sz B -> geometry B fsz nino st sz -> dir_in fsz nino st B x n D -> bytes_ok (fk_mem (kern s)) ->
  @ic_rep _ _ L s R -> small R -> room R -> R !! i = Some ((ROOTDEV, i_inum x), c) ->
  exists s', sys_pwd tf s = Ok (tf, s') /\ @ic_rep _ _ L s' (<[i := ((ROOTDEV, i_inum x), c + 1)]> R)
    /\ pinned (kern s) pid (kern s')
    /\ forall a, ~ (lookup_de <= a < lookup_de + 16) -> a <> arr ->
         fk_mem (kern s') !!! a = fk_mem (kern s) !!! a.
Proof.
  intros [P Hcwd Hi HD (k & Hk & Ek) Hs Ha] Harg I G Hd Hb IC Hsm Hrm Hri. subst x. set (x := inodes s !!! i) in *.
  destruct P as [(a & Hab & <-) _ _].
  pose proof (@dir_lookup_spec _ _ L (mk_txn 0 (past s)) B fsz nino st sz s [] B i n D lookup_de dotdot [46; 46] R
    (irep_trep _ _ _ _ I) G Hi Hd ltac:(cbn; lia) Hs ltac:(cbn; lia) ltac:(cbn; unfold apart in Ha; lia) Hb HD IC Hsm Hrm) as Hlk.
  rewrite Hk, Ek in Hlk. destruct Hlk as (i' & s1 & s' & R' & E & R0 & S1 & K & St & IC' & Ekey & _).
  destruct (ir_tab _ _ IC) as [_ _ Hu].
  assert (i' = i /\ R' = <[i := ((ROOTDEV, i_inum x), c + 1)]> R) as [-> ->].
  { inversion St as [? ? ? c' Hc'|? ? ? Hno Hf| | |]; subst.
    - assert (i' = i) as -> by (eapply Hu; [by exists c'|by exists c]). split; [done|]. congruence.
    - destruct (Hno i). by exists c. }
  destruct (@trep_kern _ _ L _ _ _ _ _ _ _ _ _ R0) as [(b & Hb' & Hcur) Ho Hv].
  unfold sys_pwd. rewrite (bind_ok _ _ _ _ _ (in_threads_same _ _ _ (get_curid_abs _ _ Hab))).
  erewrite bind_ok by (apply in_threads_same, tcb_read_ok, (sc_cur_range _ _ (proj1 Hab))). rewrite Hcwd, decide_False by done.
  rewrite mret_bind, (bind_ok _ _ _ _ _ E). cbn [fst pwd_climb pwd_fuel].
  rewrite bind_assoc, (bind_ok _ _ _ _ _ (ino_read_ok i i_inum s' Hi)), bind_assoc, (bind_ok _ _ _ _ _ (ino_read_ok i i_inum s' Hi)).
  rewrite decide_True by done. rewrite mret_bind. change (reverse (seqZ 0 0)) with (@nil Z). cbn [pwd_join]. rewrite mret_bind.
  unfold mem_mod. rewrite modify_bind. set (s2 := set_kern _ s').
  assert (sched_abs (k_thr (kern s2)) b) as Hb2 by exact Hb'.
  rewrite (bind_ok _ _ _ _ _ (in_threads_same _ _ _ (get_curid_abs _ _ Hb2))).
  erewrite bind_ok by (unfold in_kern; apply zoom_ok, in_vm_ok, copyout_refused, Harg).
  eexists. split; [reflexivity|].
  assert (pinned (kern s) (a_cur a) (kern s2)) as P2 by (split; [by exists b|exact Ho|exact Hv]).
  split; [|split; [exact P2|]].
  - by apply (ic_rep_ext s').
  - intros z Hz Hn. cbn. rewrite lookup_total_insert_ne by done. 
    change (fk_mem (kern s') !!! z = fk_mem (kern s) !!! z). rewrite (kp_mem _ _ _ K). by apply (sc_mem _ _ _ S1).
Qed.
End Pwd.
